(* ===== verification/_CoqProject ===== *)
-Q . S2P
Prelude.v
GoLib.v
Hex.v
Sql.v
Schema.v
Stmt.v
Clock.v
UploadStore.v
Ledger.v
QuotaSvc.v
Settings.v
Keyring.v
Cache.v
Payer.v
Evm.v
WorkerBase.v
Worker.v
WorkerSafety.v
WorkerLoops.v
Sweep.v
AuditLog.v
AuditChain.v
Publish.v
Selector.v
Rebind.v
AccountSchema.v
Users.v
Admins.v
Tokens.v
TokenLife.v
Oidc.v
OidcSafety.v
Webhooks.v
HookLife.v
Limiter.v
Guards.v
Router.v
Http.v
Library.v
Tags.v
Collections.v
CollectionTree.v
TagLaws.v
LibraryHandlers.v
LibrarySafety.v
OmniSearch.v
Base64.v
Front.v
AuthHandlers.v
AdminHandlers.v
ScimHandlers.v
OidcHandlers.v
Triple.v
Download.v
DownloadSafety.v
DownloadReturns.v
UploadHandlers.v
UploadSafety.v
AccountSafety.v
AdminSafety.v
Float.v
Monitors.v
MonitorSafety.v
Calendar.v
LogQueries.v
LogLaws.v
Backup.v
BackupLaws.v
WalletHandlers.v
WalletLaws.v
Analytics.v
WebhookHandlers.v
Versions.v
Config.v
Notifier.v
SettingsHandlers.v
Retention.v
SystemHandlers.v
Managed.v
Boot.v
