(* ===== verification/Prelude.v ===== *)
(** * Indelible: a storage gateway in front of the Autonomi network

    Indelible accepts uploads over HTTP, queues them in a SQL database, has the
    antd daemon split and store them on the network, pays for the storage on an
    EVM chain from a wallet it holds encrypted, and serves downloads from a disk
    cache. Around that: accounts, tokens, single sign-on and SCIM, tags and
    collections, webhooks, a chained audit log, monitors, and the administration
    of all of it. This development models the server, from main() to the tables.

    ** Layers and files

    Shared:
    - Prelude: notations, machine integers, the state-and-error monad [ST], its
      Hoare-style and relational rules ([wp], [steps], [errs]), tactics.
      Triple: the same with a condition for errors, and two runs side by side;
      Stmt: statements over the tables of one component.
    - GoLib, Hex, Base64, Float, Clock, Calendar: the Go standard library in use: error chains, strings, SHA-256, encodings, binary64,
      time stamps as text and the civil calendar.
    - Sql, Schema: tables as lists of rows, statements as functions on them,
      transactions that undo, the database record [Db] with its fault schedule
      (src/internal/database, the row types of src/internal/services).
      Rebind: the placeholders of Postgres, opening a database, migrations.

    Storing, paying, serving:
    - UploadStore: services/upload.go, the queue and the purge log.
    - Ledger: services/transaction.go, recorded payments.
    - QuotaSvc: services/quota.go.
    - Settings: services/settings*.go, the table and its cache.
    - Keyring: src/internal/crypto, services/wallet.go and keyrotation.go.
    - Hex (the keys), Cache: src/internal/downloadcache, the index over the cache
      directory, the admission counter, the coalescing of fills.
    - Payer: the interface between worker and signer; Evm implements it
      (src/internal/evm) over an interface of go-ethereum.
    - WorkerBase, Worker, WorkerSafety, WorkerLoops: worker/upload*.go and
      requeue_window.go, first the decisions without state, then the worker;
      an upload is paid for at most once; the loops end.
    - Sweep: worker/cache_sweep.go.
    - UploadHandlers, UploadSafety, Download, DownloadSafety, DownloadReturns:
      handlers/uploads.go and download_gate.go.
    - Publish: the datamap migration and worker/audit_anchor.go.

    Accounts and access:
    - AccountSchema, Users (with groups), Admins, Tokens, TokenLife: the services
      of users, permissions, groups and tokens; Oidc, OidcSafety, OidcHandlers:
      single sign-on.
    - Limiter, Guards, Router: src/internal/middleware, the routes with the
      guards in front of each; Http: how a handler ends, the cursors.
    - Front, AuthHandlers, AdminHandlers, ScimHandlers: the handlers of accounts;
      AccountSafety, AdminSafety: what they guarantee.

    The library of a user:
    - Library, Tags, Collections, CollectionTree, Selector, TagLaws: the services;
      LibraryHandlers, LibrarySafety: the handlers; OmniSearch: the search over
      everything.

    Watching and running an instance:
    - AuditLog, AuditChain, LogQueries, LogLaws: services/log.go and
      file_access.go, the hash chain, the listings, exports and statistics.
    - Webhooks, HookLife, WebhookHandlers, Notifier: deliveries, dead letters,
      and which way a message to a user takes.
    - Monitors, MonitorSafety: worker/system_monitor.go and disk_alert.go;
      Retention: worker/log_retention.go.
    - WalletHandlers, WalletLaws, SettingsHandlers, SystemHandlers, Analytics,
      Backup, BackupLaws, Versions: the rest of the administration (quotas in
      SystemHandlers).
    - Config, Managed, Boot: the configuration, the child process antd, main()
      and the command migrate-publish-datamaps.

    A component works on the part of the state it owns and is called through
    [zoom]: the worker calls UploadStore, Ledger, QuotaSvc, Settings, Keyring and
    Cache so, the handlers their services, Boot everything it starts. What is
    outside the source is a class or a parameter: [Payer] and [Antd] for the
    worker, Evm's chain, the probes of Monitors, the system of Managed, the
    relay of Notifier, the environment of Config.

    ** How Go is read

    A function that returns (T, error) and reads or writes state is an [ST]
    computation; an error does not undo earlier writes, a rolled-back
    transaction does. Every database statement and every file-system call can
    fail by a schedule in the state ([faults] of [Db] and of the tables of
    Stmt, [io] of [Store]), so the theorems hold for every failure. A handler is
    a computation whose error is the refusal it writes; a request body is what it
    decodes to, or nothing. Package-level errors are [sentinel]s and
    wrapping is kept, since the callers decide by errors.Is and errors.As.
    An int64 that can overflow wraps; amounts are big.Int, so [Z]; a float64 is
    a binary64 number. Times are nanoseconds, CURRENT_TIMESTAMP whole seconds in
    UTC; a time that is bound to a statement without UTC() is the text of the
    server's zone, which SQLite compares byte by byte. A
    nullable column is an option. Log lines are not modelled.

    ** What is shown

    - Payments: the worker makes at most one round of payment calls for an
      upload whatever the daemon, the node, the database and the disk do, and
      none for an upload already paid since it was queued; only an operator
      retry lets it pay again, once; the signer approves and pays exactly the
      quoted amounts; the estimate of a merkle charge is the tight upper bound.
    - Failures: which failures retry, abandon or preserve an upload; a paid
      finalize is tried at most six times and only while it makes progress; the
      temp-file collector and the stuck sweep spare what is in use.
    - Queue and quotas: claims, sweeps and deletes do exactly what they say,
      under faults; stored rows are stable; the quota tiers are enforced; an
      upload is accepted exactly when its limits hold.
    - Cache and downloads: exact accounting, the byte budget, purges that purge,
      the boot scan; the sweeper erases what was deleted and ends; a download
      serves the caller's own bytes, tells a stranger nothing, and gives back
      the slot and the flight it took whatever fails.
    - Secrets and settings: round trip of envelopes, key rotation that is all
      or nothing, answers that do not depend on keys, audited updates, an
      exported configuration that arrives.
    - Accounts: a user changes only as an operation on it says; who gets past
      which route, who is logged in, that revoked tokens
      stay revoked, that an administrator remains, what the answers reveal.
    - The library: collections stay a forest, requests keep to their user's rows,
      selectors mean what they say, a backup restores the catalog.
    - Operation: the audit chain and its anchors, exact statistics, retention up to the zone of the server,
      deliveries and dead letters, monitors that shed uploads during an outage,
      alerts that are told when they are news, a daemon restarted a bounded number of times,
      an instance that starts only with sound secrets and an administrator.

    ** Bounds and fuel

    [resume] runs over the list of delays and [attempts] over the retries left,
    as the code does. [fill] counts the free slots of the semaphore. The polls
    of a receipt are the timeout divided by the two-second tick; without a
    timeout [sg_patience] stands for the moment the caller gives up. The loops
    of the sweeper have one round per cached entry plus one, which
    [evict_loop_terminates] shows to be enough, and the purge tail one read per
    logged purge plus one ([purge_tail_complete]). CacheKeyVisibility has one
    batch per key. The recursion over collections has one level per row, enough
    since they are a forest; the watch over antd one round per restart and one
    more, its polls one per half second and one more ([monitor_ends]); the pages
    of a listing one per row and two ([ListUploads_pages]).

    ** What is not modelled

    The antd daemon, go-ethereum and AES-GCM are interfaces; what is relied on
    is in their [...Laws] classes. So are bcrypt, JWT, the verification of
    identity tokens, regular expressions, SMTP and the HTTP client. Goroutines
    are not interleaved at the level of instructions; the races that matter (two
    claims, an eviction against a promotion, a purge against a reconciliation,
    downloads against each other) are stated over explicit sequences of
    operations, the tickers as their rounds. The mutexes are the granularity of
    the steps. database/sql with its drivers and goose are an interface too. Left
    out: the constant headers of a response, the matching of paths, which chi
    does, the encoding of answers as JSON, the generated description of the
    API, the collector of licence notices, and the web interface. *)

From stdpp Require Export base tactics option list gmap sets strings.
From Stdlib Require Export ZArith Lia Sorted.

#[export] Set Default Goal Selector "!".

Open Scope Z_scope.

(** ** Scopes, hint databases *)

Declare Scope go_scope.
Delimit Scope go_scope with go.

Create HintDb indelible.
Create HintDb steps_db discriminated.
#[export] Hint Constants Opaque : steps_db.

(** ** Tactics *)

(** Case analysis on every boolean integer comparison of the goal. *)
Ltac zcases :=
  repeat match goal with
  | |- context [?a <=? ?b] => destruct (Z.leb_spec a b)
  | |- context [?a <? ?b] => destruct (Z.ltb_spec a b)
  | |- context [?a =? ?b] => destruct (Z.eqb_spec a b)
  end; cbn [andb orb negb]; try lia.

(** Turn the boolean hypotheses the code's guards leave into propositions. *)
Ltac breflect :=
  repeat match goal with
  | H : _ && _ = true |- _ => apply andb_prop in H as [? ?]
  | H : _ || _ = false |- _ => apply orb_false_elim in H as [? ?]
  | H : negb _ = true |- _ => apply negb_true_iff in H
  | H : negb _ = false |- _ => apply negb_false_iff in H
  | H : (_ <=? _)%Z = true |- _ => apply Z.leb_le in H
  | H : (_ <=? _)%Z = false |- _ => apply Z.leb_gt in H
  | H : (_ <? _)%Z = true |- _ => apply Z.ltb_lt in H
  | H : (_ <? _)%Z = false |- _ => apply Z.ltb_ge in H
  | H : (_ =? _)%Z = true |- _ => apply Z.eqb_eq in H
  | H : (_ =? _)%Z = false |- _ => apply Z.eqb_neq in H
  | H : bool_decide _ = true |- _ => apply bool_decide_eq_true in H
  | H : bool_decide _ = false |- _ => apply bool_decide_eq_false in H
  end.

(** ** Machine integers *)

(** Go's [int64]: a [Z] in the two's complement range, every arithmetic result
    wrapped into it. *)
Definition int64_min : Z := -9223372036854775808.
Definition int64_max : Z := 9223372036854775807.

Definition wrap64 (z : Z) : Z :=
  (z + 9223372036854775808) mod 18446744073709551616 - 9223372036854775808.

Definition in_int64 (z : Z) : Prop := int64_min <= z <= int64_max.

Definition add64 (a b : Z) : Z := wrap64 (a + b).
Definition sub64 (a b : Z) : Z := wrap64 (a - b).
Definition neg64 (a : Z) : Z := wrap64 (- a).

Lemma wrap64_range z : in_int64 (wrap64 z).
Proof.
  unfold in_int64, wrap64, int64_min, int64_max.
  pose proof (Z.mod_pos_bound (z + 9223372036854775808) 18446744073709551616).
  lia.
Qed.

Lemma wrap64_id z : in_int64 z -> wrap64 z = z.
Proof.
  unfold in_int64, wrap64, int64_min, int64_max. intros H.
  rewrite Z.mod_small; lia.
Qed.

Lemma add64_exact a b : in_int64 (a + b) -> add64 a b = a + b.
Proof. apply wrap64_id. Qed.

Lemma neg64_exact a : in_int64 a -> a <> int64_min -> neg64 a = - a.
Proof.
  intros [H1 H2] Hne. apply wrap64_id.
  unfold in_int64, int64_min, int64_max in *. lia.
Qed.

(** Wrapping early or late is the same. *)
Lemma wrap64_shift a k : wrap64 (a + k * 18446744073709551616) = wrap64 a.
Proof.
  unfold wrap64. f_equal. rewrite <- (Z_mod_plus_full (a + 9223372036854775808) k 18446744073709551616).
  f_equal. lia.
Qed.

Lemma wrap64_split a : exists k, wrap64 a = a + k * 18446744073709551616.
Proof.
  unfold wrap64. exists (- ((a + 9223372036854775808) / 18446744073709551616)).
  pose proof (Z.div_mod (a + 9223372036854775808) 18446744073709551616). lia.
Qed.

Lemma add64_wrap a b : add64 (wrap64 a) b = wrap64 (a + b).
Proof.
  unfold add64. destruct (wrap64_split a) as [k ->].
  rewrite <- (wrap64_shift (a + b) k). f_equal. lia.
Qed.

Lemma sub64_wrap a b : sub64 (wrap64 a) b = wrap64 (a - b).
Proof.
  unfold sub64. destruct (wrap64_split a) as [k ->].
  rewrite <- (wrap64_shift (a - b) k). f_equal. lia.
Qed.

Lemma add64_sub64 a b c : add64 (wrap64 a) (sub64 b c) = wrap64 (a + b - c).
Proof.
  rewrite add64_wrap. unfold sub64. destruct (wrap64_split (b - c)) as [k ->].
  rewrite <- (wrap64_shift (a + b - c) k). f_equal. lia.
Qed.

#[export] Hint Resolve wrap64_range : indelible.

(** ** A state-and-error monad

    A Go function that reads and writes state and returns [(T, error)] is a
    function from the state to a result and the new state.  An error does not
    undo the state changes that came before it: only an explicit transaction
    does. *)

Inductive result (E A : Type) : Type :=
| Ok (a : A)
| Err (e : E).
Arguments Ok {E A} _.
Arguments Err {E A} _.

Definition is_ok {E A} (r : result E A) : bool :=
  match r with Ok _ => true | Err _ => false end.

Definition ST (E S A : Type) : Type := S -> result E A * S.

#[export] Instance ST_ret {E S} : MRet (ST E S) := fun A a s => (Ok a, s).

#[export] Instance ST_bind {E S} : MBind (ST E S) := fun A B f m s =>
  match m s with
  | (Ok a, s') => f a s'
  | (Err e, s') => (Err e, s')
  end.

Definition fail {E S A} (e : E) : ST E S A := fun s => (Err e, s).
Definition get {E S} : ST E S S := fun s => (Ok s, s).
Definition gets {E S A} (f : S -> A) : ST E S A := fun s => (Ok (f s), s).
Definition modify {E S} (f : S -> S) : ST E S unit := fun s => (Ok tt, f s).

(** [try m] is the Go idiom that looks at [err] itself: it never fails and
    hands the result, success or error, to its continuation. *)
Definition try {E S A} (m : ST E S A) : ST E S (result E A) :=
  fun s => let '(r, s') := m s in (Ok r, s').

(** [_ = f()] and [_, _ = f()]: the error is dropped. *)
Definition ignore {E S A} (m : ST E S A) : ST E S unit :=
  fun s => let '(_, s') := m s in (Ok tt, s').

(** Rewrite the error, as [fmt.Errorf("...: %w", err)] does. *)
Definition map_err {E S A} (f : E -> E) (m : ST E S A) : ST E S A :=
  fun s => match m s with
           | (Ok a, s') => (Ok a, s')
           | (Err e, s') => (Err (f e), s')
           end.

Definition of_result {E S A} (r : result E A) : ST E S A := fun s => (r, s).

(** Run an operation of a component on the part of a larger state it owns. *)
Definition zoom {E S T A} (get : T -> S) (put : S -> T -> T) (m : ST E S A) : ST E T A :=
  fun t => let '(r, s') := m (get t) in (r, put s' t).

(** *** Postconditions *)

Definition wp {E S A} (m : ST E S A) (Q : result E A -> S -> Prop) (s : S) : Prop :=
  Q (fst (m s)) (snd (m s)).

Section wp_rules.
Context {E S : Type}.
Implicit Types (s : S) (e : E).

Lemma wp_ret {A} (a : A) Q s : Q (Ok a) s -> wp (mret a : ST E S A) Q s.
Proof. done. Qed.

Lemma wp_bind {A B} (m : ST E S A) (f : A -> ST E S B) Q s :
  wp m (fun r s' => match r with Ok a => wp (f a) Q s' | Err e => Q (Err e) s' end) s ->
  wp (m ≫= f) Q s.
Proof. unfold wp, mbind, ST_bind. destruct (m s) as [[a|e] s']; done. Qed.

Lemma wp_fail {A} e Q s : Q (Err e) s -> wp (fail e : ST E S A) Q s.
Proof. done. Qed.

Lemma wp_gets {A} (f : S -> A) Q s : Q (Ok (f s)) s -> wp (gets f : ST E S A) Q s.
Proof. done. Qed.

Lemma wp_modify f Q s : Q (Ok tt) (f s) -> wp (modify f : ST E S unit) Q s.
Proof. done. Qed.

Lemma wp_try {A} (m : ST E S A) Q s :
  wp m (fun r s' => Q (Ok r) s') s -> wp (try m) Q s.
Proof. unfold wp, try. destruct (m s); done. Qed.

Lemma wp_ignore {A} (m : ST E S A) Q s :
  wp m (fun _ s' => Q (Ok tt) s') s -> wp (ignore m) Q s.
Proof. unfold wp, ignore. destruct (m s); done. Qed.

Lemma wp_map_err {A} f (m : ST E S A) Q s :
  wp m (fun r s' => Q (match r with Ok a => Ok a | Err e => Err (f e) end) s') s ->
  wp (map_err f m) Q s.
Proof. unfold wp, map_err. destruct (m s) as [[?|?] ?]; done. Qed.

Lemma wp_of_result {A} (r : result E A) Q s : Q r s -> wp (of_result r) Q s.
Proof. done. Qed.

Lemma wp_mono {A} (m : ST E S A) (P Q : result E A -> S -> Prop) s :
  wp m P s -> (forall r s', P r s' -> Q r s') -> wp m Q s.
Proof. unfold wp. eauto. Qed.

Lemma wp_run {A} (m : ST E S A) Q s r s' : m s = (r, s') -> wp m Q s -> Q r s'.
Proof. unfold wp. by intros ->. Qed.
End wp_rules.

(** Compute a run of primitive effects. *)
Ltac run_cbn H :=
  unfold mbind, ST_bind, mret, ST_ret, get, gets, modify, fail, of_result in H; cbn in H.

(** *** Inversion of successful runs *)

Lemma bind_ok {E S A B} (m : ST E S A) (f : A -> ST E S B) s b s' :
  (m ≫= f) s = (Ok b, s') -> exists a s1, m s = (Ok a, s1) /\ f a s1 = (Ok b, s').
Proof. unfold mbind, ST_bind. destruct (m s) as [[a|e] s1]; [eauto|done]. Qed.

(** Run the first call of a sequence. *)
Lemma bind_run {E S A B} (m : ST E S A) (f : A -> ST E S B) s a s1 : m s = (Ok a, s1) -> (m ≫= f) s = f a s1.
Proof. unfold mbind, ST_bind. by intros ->. Qed.

Lemma map_err_ok {E S A} (f : E -> E) (m : ST E S A) s a s' :
  map_err f m s = (Ok a, s') -> m s = (Ok a, s').
Proof. unfold map_err. destruct (m s) as [[?|?] ?]; congruence. Qed.

(** *** Relations that every run of an operation respects

    [steps R m]: whatever [m] returns, the state it leaves is [R]-related to
    the state it started from. For a preorder [R] the property composes, so a
    long handler is checked one call at a time. *)

Definition steps {E S A} (R : S -> S -> Prop) (m : ST E S A) : Prop :=
  forall s, R s (snd (m s)).

Section steps_rules.
Context {E S : Type} (R : S -> S -> Prop) `{!PreOrder R}.

Lemma steps_ret {A} (a : A) : steps R (mret a : ST E S A).
Proof. intros s. cbn. reflexivity. Qed.

Lemma steps_fail {A} (e : E) : steps R (fail e : ST E S A).
Proof. intros s. cbn. reflexivity. Qed.

Lemma steps_of_result {A} (r : result E A) : steps R (of_result r : ST E S A).
Proof. intros s. cbn. reflexivity. Qed.

Lemma steps_gets {A} (f : S -> A) : steps R (gets f : ST E S A).
Proof. intros s. cbn. reflexivity. Qed.

Lemma steps_get : steps R (get : ST E S S).
Proof. intros s. cbn. reflexivity. Qed.

Lemma steps_bind {A B} (m : ST E S A) (f : A -> ST E S B) :
  steps R m -> (forall a, steps R (f a)) -> steps R (m ≫= f).
Proof.
  intros Hm Hf s. specialize (Hm s). unfold mbind, ST_bind.
  destruct (m s) as [[a|e] s']; cbn in *; [|done].
  etransitivity; [exact Hm|]. apply Hf.
Qed.

Lemma steps_try {A} (m : ST E S A) : steps R m -> steps R (try m).
Proof. intros Hm s. specialize (Hm s). unfold try. by destruct (m s). Qed.

Lemma steps_ignore {A} (m : ST E S A) : steps R m -> steps R (ignore m).
Proof. intros Hm s. specialize (Hm s). unfold ignore. by destruct (m s). Qed.

Lemma steps_map_err {A} f (m : ST E S A) : steps R m -> steps R (map_err f m).
Proof. intros Hm s. specialize (Hm s). unfold map_err. by destruct (m s) as [[?|?] ?]. Qed.

Lemma steps_modify (f : S -> S) : (forall s, R s (f s)) -> steps R (modify f : ST E S unit).
Proof. intros Hf s. cbn. apply Hf. Qed.
End steps_rules.

Lemma steps_get_bind {E S A} (R : S -> S -> Prop) (f : S -> ST E S A) :
  (forall s, R s (snd (f s s))) -> steps R (s ← get; f s).
Proof. intros H s. cbn. apply H. Qed.

Lemma steps_run {E S A} (R : S -> S -> Prop) (m : ST E S A) s r s' : steps R m -> m s = (r, s') -> R s s'.
Proof. intros Hm Hs. specialize (Hm s). by rewrite Hs in Hm. Qed.

(** A predicate that is never lost, as a preorder. *)
Definition keeps {S} (P : S -> Prop) : S -> S -> Prop := fun s s' => P s -> P s'.

#[export] Instance keeps_preorder {S} (P : S -> Prop) : PreOrder (keeps P).
Proof. split; unfold keeps; [by intros a|]. intros a b c. auto. Qed.

Lemma steps_mono {E S A} (R R' : S -> S -> Prop) (m : ST E S A) :
  (forall s s', R s s' -> R' s s') -> steps R m -> steps R' m.
Proof. intros H Hm s. apply H, Hm. Qed.

Lemma steps_zoom {E S T A} (R : T -> T -> Prop) (R' : S -> S -> Prop)
    (g : T -> S) (p : S -> T -> T) (m : ST E S A) :
  (forall t s, R' (g t) s -> R t (p s t)) -> steps R' m -> steps R (zoom g p m).
Proof.
  intros Hp Hm t. unfold zoom. specialize (Hm (g t)).
  destruct (m (g t)) as [r s']; cbn in *. by apply Hp.
Qed.

Lemma wp_zoom {E S T A} (g : T -> S) (p : S -> T -> T) (m : ST E S A) Q t :
  wp m (fun r s => Q r (p s t)) (g t) -> wp (zoom g p m) Q t.
Proof. unfold wp, zoom. by destruct (m (g t)). Qed.

(** Walk down a handler, one call per step; the calls of a component are closed
    by the lemmas it put into [steps_db]. *)
Ltac steps_step :=
  lazymatch goal with
  | |- PreOrder _ => apply _
  | |- steps _ (_ ≫= _) => apply steps_bind
  | |- steps _ (mret _) => apply steps_ret
  | |- steps _ (fail _) => apply steps_fail
  | |- steps _ (of_result _) => apply steps_of_result
  | |- steps _ (gets _) => apply steps_gets
  | |- steps _ get => apply steps_get
  | |- steps _ (try _) => apply steps_try
  | |- steps _ (ignore _) => apply steps_ignore
  | |- steps _ (map_err _ _) => apply steps_map_err
  | |- steps _ (match ?x with _ => _ end) => destruct x eqn:?
  | |- steps _ _ => solve [eauto 4 with steps_db typeclass_instances]
  | |- forall _, _ => intro
  end.
Ltac steps_go := repeat steps_step.

#[export] Hint Resolve steps_ret steps_fail steps_of_result steps_gets steps_get
  steps_bind steps_try steps_ignore steps_map_err : steps_db.

(** *** What the errors of an operation look like *)

Definition errs {E S A} (P : E -> Prop) (m : ST E S A) : Prop := forall s e s', m s = (Err e, s') -> P e.

Section errs_rules.
Context {E S : Type} (P : E -> Prop).

Lemma errs_ret {A} (a : A) : errs P (mret a : ST E S A).
Proof. by intros s e s'. Qed.

Lemma errs_fail {A} e : P e -> errs P (fail e : ST E S A).
Proof. intros H s e' s' [= <- _]. done. Qed.

Lemma errs_of_result {A} (r : result E A) : (forall e, r = Err e -> P e) -> errs P (of_result r : ST E S A).
Proof. intros H s e s' [= Hr _]. by apply H. Qed.

Lemma errs_bind {A B} (m : ST E S A) (f : A -> ST E S B) :
  errs P m -> (forall a, errs P (f a)) -> errs P (m ≫= f).
Proof.
  intros Hm Hf s e s'. unfold mbind, ST_bind. destruct (m s) as [[a|e0] s1] eqn:Em.
  - apply Hf.
  - intros [= <- _]. by eapply Hm.
Qed.

Lemma errs_map_err {A} (f : E -> E) (Q : E -> Prop) (m : ST E S A) :
  errs Q m -> (forall e, Q e -> P (f e)) -> errs P (map_err f m).
Proof.
  intros Hm Hf s e s'. unfold map_err. destruct (m s) as [[a|e0] s1] eqn:Em; intros [= <- _].
  apply Hf. by eapply Hm.
Qed.

Lemma errs_total {A} (m : ST E S A) : (forall s, is_ok (fst (m s)) = true) -> errs P m.
Proof. intros H s e s' Hm. specialize (H s). by rewrite Hm in H. Qed.

Lemma errs_try_total {A} (m : ST E S A) : errs P (try m).
Proof. intros s e s'. unfold try. by destruct (m s). Qed.

Lemma errs_ignore {A} (m : ST E S A) : errs P (ignore m).
Proof. intros s e s'. unfold ignore. by destruct (m s). Qed.

Lemma errs_get : errs P (get : ST E S S).
Proof. by intros s e s'. Qed.

Lemma errs_gets {A} (f : S -> A) : errs P (gets f : ST E S A).
Proof. by intros s e s'. Qed.

Lemma errs_modify (f : S -> S) : errs P (modify f : ST E S unit).
Proof. by intros s e s'. Qed.
End errs_rules.

(** [try] never fails and its continuation sees which errors [m] has. *)
Lemma errs_try {E S A B} (P Q : E -> Prop) (m : ST E S A) (f : result E A -> ST E S B) :
  errs Q m -> (forall a, errs P (f (Ok a))) -> (forall e, Q e -> errs P (f (Err e))) ->
  errs P (r ← try m; f r).
Proof.
  intros Hm Ho He s e s'. unfold mbind, ST_bind, try. destruct (m s) as [[a|e0] s1] eqn:Em.
  - apply Ho.
  - apply He. by eapply Hm.
Qed.

Lemma errs_zoom {E S T A} (P : E -> Prop) (g : T -> S) (p : S -> T -> T) (m : ST E S A) :
  errs P m -> errs P (zoom g p m).
Proof.
  intros Hm t e t'. unfold zoom. destruct (m (g t)) as [r s'] eqn:Em. intros [= -> _]. by eapply Hm.
Qed.

Lemma errs_mono {E S A} (P Q : E -> Prop) (m : ST E S A) : errs P m -> (forall e, P e -> Q e) -> errs Q m.
Proof. intros Hm H s e s' Hs. apply H. by eapply Hm. Qed.

(** The same walk for errors; what remains are the calls that can fail. *)
Ltac errs_step :=
  lazymatch goal with
  | |- errs _ (_ ≫= _) => apply errs_bind
  | |- errs _ (mret _) => apply errs_ret
  | |- errs _ (try _) => apply errs_try_total
  | |- errs _ (ignore _) => apply errs_ignore
  | |- errs _ get => apply errs_get
  | |- errs _ (gets _) => apply errs_gets
  | |- errs _ (modify _) => apply errs_modify
  | |- errs _ (zoom _ _ _) => apply errs_zoom
  | |- errs _ (match ?x with _ => _ end) => destruct x eqn:?
  | |- forall _, _ => intro
  end.
Ltac errs_go := repeat errs_step.
