(* ===== verification/GoLib.v ===== *)
(** * The Go standard library the program uses

    Error values with their wrapping chains ([errors.Is], [errors.As],
    [fmt.Errorf] with [%w], [errors.Join]), byte strings ([strings.TrimSpace],
    [Index], [Split], ...) and decimal parsing ([strconv.ParseInt],
    [strconv.Atoi], [big.Int.SetString] in base 10).

    A string is a list of bytes. [strings.TrimSpace] is modelled on the ASCII
    white space; the white space outside ASCII that Go also trims is not. *)

From S2P Require Import Prelude.
From Stdlib Require Import Ascii.
From stdpp Require Import pretty strings.

Open Scope Z_scope.

(** ** Errors *)

(** The package-level error values that the code compares against. *)
Inductive sentinel :=
| ErrNoRows                (* database/sql *)
| ErrCanceled              (* context.Canceled *)
| ErrDeadlineExceeded      (* context.DeadlineExceeded *)
| ErrInvalidFs             (* io/fs.ErrInvalid *)
| ErrNotExist              (* io/fs.ErrNotExist *)
| ErrUploadNotFound
| ErrQuotaNotFound | ErrQuotaExceeded | ErrQuotaDuplicate
| ErrQuotaEntityRequired | ErrQuotaEntityNotFound | ErrQuotaInvalidEntityType
| ErrNotReady | ErrOverBudget              (* downloadcache *)
| ErrConfirmationTimeout                   (* evm *)
| ErrGasBackoff | ErrFinalizeFailed | ErrPaidNoRetry  (* worker *)
| ErrTokenNotFound | ErrNoDefaultWallet | ErrWalletNotFound | ErrDeleteDefault
| ErrTagRuleNotFound | ErrInvalidMatchField | ErrInvalidMatchOp | ErrInvalidApplyKey
| ErrUserNotFound | ErrEmailTaken | ErrInvalidCredentials | ErrAccountInactive | ErrLastAdmin
| ErrGroupNotFound | ErrGroupNameTaken | ErrAlreadyMember | ErrNotMember | ErrScimTokenNotFound
| ErrCollectionNotFound | ErrCollectionNameTaken | ErrFileAlreadyInCollection | ErrFileNotInCollection
| ErrWebhookNotFound | ErrDeadLetterNotFound | ErrInvalidURL
| ErrOIDCProviderNotFound | ErrOIDCStateCookieMissing | ErrOIDCStateExpired | ErrOIDCStateMismatch
| ErrOIDCNonceMismatch | ErrOIDCEmailCollision | ErrOIDCNoAccount | ErrOIDCMissingEmail
| ErrOIDCProviderDisabled | ErrOIDCIdentityLinkedOther | ErrOIDCCannotUnlinkLast
| ErrUniqueViolation | ErrForeignKey | ErrCheckViolation.  (* driver errors of a constraint *)

#[export] Instance sentinel_eq_dec : EqDecision sentinel.
Proof. solve_decision. Defined.

(** antd's PARTIAL_UPLOAD detail. *)
Record PartialUploadError := mkPartial {
  ChunksStored : Z;
  ChunksFailed : Z;
  TotalChunks : Z;
  Retryable : bool;
  RetentionKnown : bool;
}.

(** The antd SDK error types the worker tells apart with [errors.As]. *)
Inductive antd_error :=
| NetworkError
| ServiceUnavailableError
| BadRequestError
| TooLargeError
| PartialUpload (p : PartialUploadError)
| OtherAntdError.

(** An error value: a fresh one, a package-level one, one of antd's typed ones,
    a rejected setting ([*services.ValidationError]), or one that wraps others
    ([fmt.Errorf] with one or more [%w], and
    [errors.Join], whose text is empty here). Texts keep the format string
    without its interpolated values. *)
#[local] Unset Elimination Schemes.
Inductive error :=
| ENew (msg : string)
| ESentinel (s : sentinel)
| EAntd (a : antd_error)
| EValidation (key reason : string)
| EWrap (msg : string) (es : list error).
#[local] Set Elimination Schemes.

Section error_ind.
Context (P : error -> Prop).
Context (Hnew : forall m, P (ENew m)) (Hsent : forall s, P (ESentinel s))
  (Hantd : forall a, P (EAntd a))
  (Hval : forall k r, P (EValidation k r)) (Hwrap : forall m es, Forall P es -> P (EWrap m es)).

Fixpoint error_ind (e : error) : P e :=
  match e with
  | ENew m => Hnew m
  | ESentinel s => Hsent s
  | EAntd a => Hantd a
  | EValidation k r => Hval k r
  | EWrap m es => Hwrap m es
      ((fix go es : Forall P es :=
          match es with
          | [] => List.Forall_nil P
          | e :: es => List.Forall_cons P e es (error_ind e) (go es)
          end) es)
  end.
End error_ind.

Definition errors_join (es : list error) : error := EWrap "" es.

(** [errors.Is(e, t)] for a package-level error [t]. *)
Fixpoint errors_is (e : error) (t : sentinel) : bool :=
  match e with
  | ESentinel s => bool_decide (s = t)
  | EWrap _ es => existsb (fun e' => errors_is e' t) es
  | _ => false
  end.

(** [errors.As(e, &x)]: the first error of the chain, depth first, of a type. *)
Fixpoint errors_as (p : antd_error -> bool) (e : error) : option antd_error :=
  match e with
  | EAntd a => if p a then Some a else None
  | EWrap _ es =>
      (fix go es := match es with
                    | [] => None
                    | e :: es => match errors_as p e with Some a => Some a | None => go es end
                    end) es
  | _ => None
  end.

Definition is_partial (a : antd_error) : bool :=
  match a with PartialUpload _ => true | _ => false end.

Definition as_partial (e : error) : option PartialUploadError :=
  match errors_as is_partial e with Some (PartialUpload p) => Some p | _ => None end.

Lemma errors_is_wrap m es t :
  errors_is (EWrap m es) t = existsb (fun e => errors_is e t) es.
Proof. done. Qed.

(** ** Strings *)

Definition is_space (c : ascii) : bool :=
  match N_of_ascii c with
  | 9 | 10 | 11 | 12 | 13 | 32 => true
  | _ => false
  end%N.

Fixpoint trim_left (s : string) : string :=
  match s with
  | String c s' => if is_space c then trim_left s' else s
  | EmptyString => s
  end.

(** Drop the white space at the end of [s]. *)
Fixpoint trim_right (s : string) : string :=
  match s with
  | EmptyString => EmptyString
  | String c s' =>
      match trim_right s' with
      | EmptyString => if is_space c then EmptyString else String c EmptyString
      | s'' => String c s''
      end
  end.

Definition TrimSpace (s : string) : string := trim_right (trim_left s).

Fixpoint HasPrefix (s p : string) {struct p} : bool :=
  match p, s with
  | EmptyString, _ => true
  | String a p', String b s' => Ascii.eqb a b && HasPrefix s' p'
  | String _ _, EmptyString => false
  end.

Fixpoint drop_str (n : nat) (s : string) : string :=
  match n, s with
  | O, _ => s
  | S n', String _ s' => drop_str n' s'
  | S _, EmptyString => EmptyString
  end.

Fixpoint take_str (n : nat) (s : string) : string :=
  match n, s with
  | O, _ => EmptyString
  | S n', String c s' => String c (take_str n' s')
  | S _, EmptyString => EmptyString
  end.

(** [strings.HasSuffix]: the last [len(p)] bytes of [s] are [p]. *)
Definition HasSuffix (s p : string) : bool :=
  (String.length p <=? String.length s)%nat &&
  String.eqb (drop_str (String.length s - String.length p) s) p.

(** [strings.Index], the position of the first occurrence ([None] is -1). *)
Fixpoint Index (s p : string) : option nat :=
  if HasPrefix s p then Some O
  else match s with
       | EmptyString => None
       | String _ s' => S <$> Index s' p
       end.

Definition Contains (s p : string) : bool :=
  match Index s p with Some _ => true | None => false end.

Definition TrimPrefix (s p : string) : string :=
  if HasPrefix s p then drop_str (String.length p) s else s.

(** [strings.Split(s, sep)] for a one-byte separator: never empty. *)
Fixpoint Split (s : string) (sep : ascii) : list string :=
  match s with
  | EmptyString => [EmptyString]
  | String c s' =>
      if Ascii.eqb c sep then EmptyString :: Split s' sep
      else match Split s' sep with
           | [] => [String c EmptyString]
           | w :: ws => String c w :: ws
           end
  end.

(** [strings.Cut(s, sep)] for a one-byte separator. *)
Fixpoint Cut (s : string) (sep : ascii) : option (string * string) :=
  match s with
  | EmptyString => None
  | String c s' =>
      if Ascii.eqb c sep then Some (EmptyString, s')
      else '(a, b) ← Cut s' sep; Some (String c a, b)
  end.

Fixpoint Join (ws : list string) (sep : string) : string :=
  match ws with
  | [] => ""
  | [w] => w
  | w :: ws' => w +:+ sep +:+ Join ws' sep
  end.

Fixpoint string_forallb (p : ascii -> bool) (s : string) : bool :=
  match s with
  | EmptyString => true
  | String c s' => p c && string_forallb p s'
  end.

(** ** Decimal integers *)

Definition digit_val (c : ascii) : option Z :=
  let n := Z.of_N (N_of_ascii c) in
  if (48 <=? n) && (n <=? 57) then Some (n - 48) else None.

Definition digit_char (d : Z) : ascii := ascii_of_N (Z.to_N (48 + d)).

Fixpoint parse_digits (acc : Z) (s : string) : option Z :=
  match s with
  | EmptyString => Some acc
  | String c s' => d ← digit_val c; parse_digits (10 * acc + d) s'
  end.

Definition parse_nat (s : string) : option Z :=
  match s with EmptyString => None | _ => parse_digits 0 s end.

(** [new(big.Int).SetString(s, 10)]: an optional sign, then digits. *)
Definition parse_big (s : string) : option Z :=
  match s with
  | String "-"%char s' => Z.opp <$> parse_nat s'
  | String "+"%char s' => parse_nat s'
  | _ => parse_nat s
  end.

(** [strconv.ParseInt(s, 10, 64)] and, on 64-bit platforms, [strconv.Atoi]:
    the same syntax, and a range error outside [int64]. *)
Definition ParseInt (s : string) : option Z :=
  z ← parse_big s;
  if (int64_min <=? z) && (z <=? int64_max) then Some z else None.

Definition Atoi : string -> option Z := ParseInt.

(** [String()] of a [big.Int]. *)
Definition big_String (z : Z) : string := pretty z.

(** *** Lemmas *)

Lemma digit_val_char d : 0 <= d <= 9 -> digit_val (digit_char d) = Some d.
Proof.
  intros H. unfold digit_val, digit_char.
  rewrite N_ascii_embedding by lia. rewrite Z2N.id by lia.
  destruct (Z.leb_spec 48 (48 + d)), (Z.leb_spec (48 + d) 57); cbn; try lia.
  f_equal. lia.
Qed.

Lemma parse_digits_nonneg s : forall acc z, 0 <= acc -> parse_digits acc s = Some z -> 0 <= z.
Proof.
  induction s as [|c s IH]; intros acc z Hacc; cbn.
  - by intros [= <-].
  - unfold digit_val. case_match eqn:Hd; cbn; [|done].
    apply IH. apply andb_prop in Hd as [?%Z.leb_le ?%Z.leb_le]. lia.
Qed.

Lemma ParseInt_range s z : ParseInt s = Some z -> in_int64 z.
Proof.
  unfold ParseInt. destruct (parse_big s) as [y|]; cbn; [|done].
  case_match eqn:Hr; [|done]. intros [= ->].
  apply andb_prop in Hr as [?%Z.leb_le ?%Z.leb_le]. done.
Qed.

#[export] Hint Resolve ParseInt_range : indelible.

Lemma HasPrefix_spec s p : HasPrefix s p = true <-> exists t, s = p +:+ t.
Proof.
  revert s. induction p as [|a p IH]; intros s; cbn.
  - split; intros _; [by exists s|done].
  - destruct s as [|b s].
    + split; [done|]. by intros [t ?].
    + rewrite andb_true_iff, IH, Ascii.eqb_eq. split.
      * intros [-> [t ->]]. by exists t.
      * intros [t [= -> ->]]. eauto.
Qed.

Lemma drop_str_app p t : drop_str (String.length p) (p +:+ t) = t.
Proof. induction p; cbn; auto. Qed.

Lemma take_str_app p t : take_str (String.length p) (p +:+ t) = p.
Proof. induction p; cbn; [by destruct t|by f_equal]. Qed.

Lemma Index_Some s p n : Index s p = Some n -> HasPrefix (drop_str n s) p = true.
Proof.
  revert n. induction s as [|c s IH]; intros n; cbn [Index].
  - case_match eqn:H; [|done]. by intros [= <-].
  - case_match eqn:H; [by intros [= <-]|].
    destruct (Index s p) as [m|]; cbn; [|done]. intros [= <-]. cbn. by apply IH.
Qed.

(** [strings.Contains] is the mathematical containment. *)
Lemma Contains_spec s p : Contains s p = true <-> exists a b, s = a +:+ p +:+ b.
Proof.
  unfold Contains. split.
  - induction s as [|c s IH]; cbn [Index].
    + destruct (HasPrefix "" p) eqn:H; [|done].
      apply HasPrefix_spec in H as [t Ht]. by exists "", t.
    + destruct (HasPrefix (String c s) p) eqn:H.
      * apply HasPrefix_spec in H as [t Ht]. by exists "", t.
      * destruct (Index s p); cbn; [|done]. intros _.
        destruct IH as (a & b & ->); [done|]. by exists (String c a), b.
  - intros (a & b & ->). induction a as [|c a IH].
    + change ("" +:+ p +:+ b) with (p +:+ b).
      assert (HasPrefix (p +:+ b) p = true) as Hp by (apply HasPrefix_spec; eauto).
      destruct (p +:+ b); cbn [Index]; by rewrite Hp.
    + change (String c a +:+ p +:+ b) with (String c (a +:+ p +:+ b)). cbn [Index].
      destruct (HasPrefix (String c (a +:+ p +:+ b)) p); [done|].
      destruct (Index (a +:+ p +:+ b) p); done.
Qed.

(** Error(): the texts, without the interpolated values. *)
Definition sentinel_text (s : sentinel) : string :=
  match s with
  | ErrConfirmationTimeout => "payment confirmation timed out"
  | ErrGasBackoff => "gas backoff"
  | ErrFinalizeFailed => "finalize failed"
  | ErrPaidNoRetry => "paid, cannot safely retry"
  | ErrQuotaExceeded => "storage quota exceeded"
  | _ => "error"
  end.

Fixpoint Error_ (e : error) : string :=
  match e with
  | ENew m => m
  | ESentinel s => sentinel_text s
  | EAntd _ => "antd error"
  | EValidation k r => "invalid value for " +:+ k +:+ ": " +:+ r
  | EWrap m es => m +:+ Join (map Error_ es) " "
  end.

(** ** JSON strings *)

(** [json.Marshal] of a string of ASCII characters; the bytes of other valid
    UTF-8 are copied (U+2028 and U+2029, which Go escapes, aside). *)
Definition hex_digit (n : N) : ascii := ascii_of_N (if (n <? 10)%N then 48 + n else 87 + n).

Definition json_escape (c : ascii) : string :=
  let n := N_of_ascii c in
  let u := "\u00" +:+ String (hex_digit (n / 16)) (String (hex_digit (n mod 16)) EmptyString) in
  match n with
  | 34 | 92 => String "\" (String c EmptyString)
  | 8 => "\b" | 9 => "\t" | 10 => "\n" | 12 => "\f" | 13 => "\r"
  | 38 | 60 | 62 => u
  | _ => if (n <? 32)%N then u else String c EmptyString
  end%N.

Fixpoint json_body (s : string) : string :=
  match s with
  | EmptyString => EmptyString
  | String c s' => json_escape c +:+ json_body s'
  end.

Definition json_string (s : string) : string :=
  String (ascii_of_N 34) (json_body s +:+ String (ascii_of_N 34) EmptyString).

(** ** More on strings *)

Definition all_but (d : ascii) : ascii -> bool := fun c => negb (Ascii.eqb c d).

Lemma string_app_cons x (a b : string) : String x a +:+ b = String x (a +:+ b).
Proof. done. Qed.

Lemma string_app_assoc (a b c : string) : (a +:+ b) +:+ c = a +:+ (b +:+ c).
Proof. induction a as [|x a IH]; [done|]. change (String x ((a +:+ b) +:+ c) = String x (a +:+ (b +:+ c))). by rewrite IH. Qed.

Lemma string_app_nil (a : string) : a +:+ "" = a.
Proof. induction a as [|x a IH]; [done|]. change (String x (a +:+ EmptyString) = String x a). by rewrite IH. Qed.

Lemma string_app_length (a b : string) : String.length (a +:+ b) = (String.length a + String.length b)%nat.
Proof. induction a as [|x a IH]; [done|]. change (S (String.length (a +:+ b)) = S (String.length a + String.length b)). by rewrite IH. Qed.

Lemma string_forallb_app p a b : string_forallb p (a +:+ b) = string_forallb p a && string_forallb p b.
Proof. induction a as [|x a IH]; [done|]. change (p x && string_forallb p (a +:+ b) = p x && string_forallb p a && string_forallb p b). by rewrite IH, andb_assoc. Qed.

Lemma string_forallb_impl (p q : ascii -> bool) s : (forall c, p c = true -> q c = true) ->
  string_forallb p s = true -> string_forallb q s = true.
Proof.
  intros H. induction s as [|c s IH]; cbn; [done|]. intros [Hc Hs]%andb_prop. by rewrite (H c Hc), IH.
Qed.

(** The first occurrence of a byte that the prefix does not have. *)
Lemma split_at_byte k : forall a c t w, string_forallb (all_but c) k = true ->
  a +:+ String c t = k +:+ w -> exists a', a = k +:+ a' /\ w = a' +:+ String c t.
Proof.
  induction k as [|x k IH]; intros a c t w; cbn [string_forallb].
  - intros _ H. exists a. split; [done|]. symmetry. exact H.
  - intros [Hx Hk]%andb_prop. change (String x k +:+ w) with (String x (k +:+ w)). destruct a as [|y a].
    + intros [= <- _]. unfold all_but in Hx. by rewrite Ascii.eqb_refl in Hx.
    + intros [= -> H]. apply IH in H as (a' & -> & ->); [|done]. by exists a'.
Qed.

Lemma Index_prefix s p : HasPrefix s p = true -> Index s p = Some O.
Proof. intros H. destruct s; cbn [Index]; by rewrite H. Qed.

Lemma Index_cons c s p : HasPrefix (String c s) p = false -> Index (String c s) p = S <$> Index s p.
Proof. intros H. cbn [Index]. by rewrite H. Qed.

Lemma HasPrefix_app p t : HasPrefix (p +:+ t) p = true.
Proof. apply HasPrefix_spec. eauto. Qed.

(** A needle that starts with a byte the prefix does not have is found behind it. *)
Lemma Index_skip k c p w : string_forallb (all_but c) k = true ->
  Index (k +:+ w) (String c p) = (fun n => (String.length k + n)%nat) <$> Index w (String c p).
Proof.
  induction k as [|x k IH]; cbn [string_forallb]; [intros _; change ("" +:+ w) with w; by destruct (Index w (String c p))|].
  intros [Hx Hk]%andb_prop. change (String x k +:+ w) with (String x (k +:+ w)). rewrite Index_cons.
  - rewrite IH by done. by destruct (Index w _).
  - cbn. unfold all_but in Hx. apply negb_true_iff in Hx. rewrite Ascii.eqb_sym in Hx. by rewrite Hx.
Qed.

Lemma Index_none s p : Contains s p = false -> Index s p = None.
Proof. unfold Contains. by destruct (Index s p). Qed.

Lemma Index_absent c p s : string_forallb (all_but c) s = true -> Index s (String c p) = None.
Proof.
  intros H. rewrite <- (string_app_nil s), Index_skip by done. done.
Qed.

(** *** [strings.TrimSpace] on texts without white space at the ends *)

Definition first_ok (s : string) : bool := match s with String c _ => negb (is_space c) | EmptyString => true end.
Fixpoint last_ok (s : string) : bool :=
  match s with
  | EmptyString => true
  | String c EmptyString => negb (is_space c)
  | String _ s' => last_ok s'
  end.

Lemma trim_left_id s : first_ok s = true -> trim_left s = s.
Proof. destruct s as [|c s]; cbn; [done|]. intros H. by destruct (is_space c). Qed.

Lemma trim_right_id s : last_ok s = true -> trim_right s = s.
Proof.
  induction s as [|c s IH]; [done|]. intros H. cbn. destruct s as [|d s].
  - cbn in *. by destruct (is_space c).
  - rewrite IH by done. done.
Qed.

Lemma TrimSpace_id s : first_ok s = true -> last_ok s = true -> TrimSpace s = s.
Proof. intros H1 H2. unfold TrimSpace. by rewrite trim_left_id, trim_right_id. Qed.

Lemma last_ok_app a b : b <> EmptyString -> last_ok (a +:+ b) = last_ok b.
Proof.
  intros Hb. induction a as [|c a IH]; [done|]. change (String c a +:+ b) with (String c (a +:+ b)).
  cbn [last_ok]. destruct (a +:+ b) as [|d w] eqn:E; [|done]. by destruct a, b.
Qed.

Lemma first_ok_app a b : a <> EmptyString -> first_ok (a +:+ b) = first_ok a.
Proof. by destruct a. Qed.

Lemma all_ok_ends s : string_forallb (fun c => negb (is_space c)) s = true -> first_ok s = true /\ last_ok s = true.
Proof.
  induction s as [|c s IH]; [done|]. cbn. intros [Hc Hs]%andb_prop. split; [done|].
  destruct s as [|d s]; [done|]. by apply IH.
Qed.

Lemma trim_right_last_ok s : last_ok (trim_right s) = true.
Proof.
  induction s as [|c s IH]; [done|]. cbn. destruct (trim_right s) as [|d w] eqn:E; [|done].
  destruct (is_space c) eqn:Hc; [done|]. cbn. by rewrite Hc.
Qed.

Lemma trim_left_first_ok s : first_ok (trim_left s) = true.
Proof. induction s as [|c s IH]; [done|]. cbn. destruct (is_space c) eqn:Hc; [done|]. cbn. by rewrite Hc. Qed.

Lemma trim_right_first_ok s : first_ok s = true -> first_ok (trim_right s) = true.
Proof.
  destruct s as [|c s]; [done|]. cbn. intros Hc. destruct (trim_right s); [|done].
  destruct (is_space c) eqn:E; [done|]. cbn. by rewrite E.
Qed.

Lemma TrimSpace_ends s : first_ok (TrimSpace s) = true /\ last_ok (TrimSpace s) = true.
Proof.
  unfold TrimSpace. split; [apply trim_right_first_ok, trim_left_first_ok|apply trim_right_last_ok].
Qed.

Lemma TrimSpace_idem s : TrimSpace (TrimSpace s) = TrimSpace s.
Proof. destruct (TrimSpace_ends s). by apply TrimSpace_id. Qed.

(** *** [strings.Split] *)

Lemma Split_not_nil s sep : Split s sep <> [].
Proof. destruct s as [|c s]; [done|]. cbn. destruct (Ascii.eqb c sep); [done|]. by destruct (Split s sep). Qed.

Lemma Split_single s sep : string_forallb (all_but sep) s = true -> Split s sep = [s].
Proof.
  induction s as [|c s IH]; [done|]. cbn. intros [Hc Hs]%andb_prop. unfold all_but in Hc.
  apply negb_true_iff in Hc. rewrite Hc, IH by done. done.
Qed.

Lemma Split_app a b sep : string_forallb (all_but sep) a = true ->
  Split (a +:+ String sep b) sep = a :: Split b sep.
Proof.
  induction a as [|c a IH]; cbn [string_forallb].
  - intros _. change (EmptyString +:+ String sep b) with (String sep b). cbn [Split]. by rewrite Ascii.eqb_refl.
  - intros [Hc Ha]%andb_prop. change (String c a +:+ String sep b) with (String c (a +:+ String sep b)).
    cbn [Split]. unfold all_but in Hc. apply negb_true_iff in Hc. by rewrite Hc, IH.
Qed.

Lemma Split_Join ws sep : ws <> [] -> forallb (string_forallb (all_but sep)) ws = true ->
  Split (Join ws (String sep EmptyString)) sep = ws.
Proof.
  induction ws as [|w ws IH]; [done|]. intros _ [Hw Hws]%andb_prop. destruct ws as [|x ws].
  - by apply Split_single.
  - change (Join (w :: x :: ws) (String sep EmptyString)) with (w +:+ String sep (Join (x :: ws) (String sep EmptyString))).
    rewrite Split_app by done. by rewrite IH.
Qed.

(** * Decimal texts

    What [strconv] writes it reads back; the texts hold a sign and digits only. *)

Open Scope Z_scope.

Definition decimal_char (c : ascii) : bool := bool_decide (digit_val c <> None).

Lemma pretty_N_char_digit x : (x < 10)%N -> digit_val (pretty_N_char x) = Some (Z.of_N x).
Proof.
  intros H. assert (x = 0 \/ x = 1 \/ x = 2 \/ x = 3 \/ x = 4 \/ x = 5 \/ x = 6 \/ x = 7 \/ x = 8 \/ x = 9)%N as Hx by lia.
  by repeat destruct Hx as [->|Hx]; [..|subst].
Qed.

Lemma parse_digits_go x : forall s, parse_digits 0 (pretty_N_go x s) = parse_digits (Z.of_N x) s.
Proof.
  induction x as [x IH] using (well_founded_induction N.lt_wf_0). intros s. destruct (decide (x = 0)%N) as [->|Hx]; [by rewrite pretty_N_go_0|].
  rewrite pretty_N_go_step by lia. rewrite IH by (apply N.div_lt; lia). cbn.
  rewrite pretty_N_char_digit by (apply N.mod_lt; lia). cbn. f_equal.
  pose proof (N.div_mod x 10). lia.
Qed.

Lemma go_forall (p : ascii -> bool) x : (forall y, (y < 10)%N -> p (pretty_N_char y) = true) ->
  forall s, string_forallb p s = true -> string_forallb p (pretty_N_go x s) = true.
Proof.
  intros Hp. induction x as [x IH] using (well_founded_induction N.lt_wf_0). intros s Hs. destruct (decide (x = 0)%N) as [->|Hx]; [by rewrite pretty_N_go_0|].
  rewrite pretty_N_go_step by lia. apply IH; [apply N.div_lt; lia|]. cbn. by rewrite Hp by (apply N.mod_lt; lia).
Qed.

Lemma pretty_N_ne (x : N) : (pretty x : string) <> "".
Proof.
  unfold pretty, pretty_N. destruct (decide (x = 0)%N) as [|Hx]; [done|]. intros E.
  assert (forall y s, (y = 0)%N \/ (y <> 0)%N -> s <> "" -> pretty_N_go y s <> "") as H.
  { clear. induction y as [y IH] using (well_founded_induction N.lt_wf_0). intros s [->|Hy] Hs; [by rewrite pretty_N_go_0|].
    rewrite pretty_N_go_step by lia. apply IH; [apply N.div_lt; lia|lia|done]. }
  rewrite pretty_N_go_step in E by lia. revert E. by apply H; [lia|].
Qed.

Lemma parse_nat_pretty (x : N) : parse_nat (pretty x) = Some (Z.of_N x).
Proof.
  assert (parse_digits 0 (pretty x) = Some (Z.of_N x)) as H.
  { unfold pretty, pretty_N. destruct (decide (x = 0)%N) as [->|Hx]; [done|]. by rewrite parse_digits_go. }
  unfold parse_nat. pose proof (pretty_N_ne x). by destruct (pretty x : string).
Qed.

Lemma pretty_N_chars (p : ascii -> bool) (x : N) : (forall y, (y < 10)%N -> p (pretty_N_char y) = true) -> string_forallb p (pretty x) = true.
Proof.
  intros Hp. unfold pretty, pretty_N. destruct (decide (x = 0)%N) as [->|Hx]; [pose proof (Hp 0%N ltac:(lia)) as H0; cbn in H0 |- *; by rewrite H0|]. by apply go_forall.
Qed.

(** No sign in front of a natural number. *)
Lemma parse_big_pretty z : parse_big (big_String z) = Some z.
Proof.
  unfold big_String. destruct z as [|p|p]; [done| |].
  - change (pretty (Z.pos p)) with (pretty (N.pos p)).
    assert (forall c t, (pretty (N.pos p) : string) = String c t -> digit_val c <> None) as Hd.
    { intros c t E. pose proof (pretty_N_chars decimal_char (N.pos p)) as H. rewrite E in H. cbn in H.
      assert (decimal_char c = true) as Hc. { apply (andb_prop _ (string_forallb decimal_char t)). apply H. intros y Hy. apply bool_decide_eq_true. by rewrite pretty_N_char_digit. }
      by apply bool_decide_eq_true in Hc. }
    pose proof (parse_nat_pretty (N.pos p)) as Hn. unfold parse_big. destruct (pretty (N.pos p) : string) as [|[[] [] [] [] [] [] [] []] t] eqn:E; try done;
      by destruct (Hd _ _ eq_refl).
  - change (pretty (Z.neg p)) with (String "-" (pretty (N.pos p))).
    change (Z.opp <$> parse_nat (pretty (N.pos p)) = Some (Z.neg p)). by rewrite parse_nat_pretty.
Qed.

Lemma ParseInt_big_String z : in_int64 z -> ParseInt (big_String z) = Some z.
Proof.
  intros [H1 H2]. unfold ParseInt. rewrite parse_big_pretty. cbn.
  destruct (Z.leb_spec int64_min z), (Z.leb_spec z int64_max); cbn; [done|lia..].
Qed.

(** What is neither a digit nor a minus does not occur. *)
Lemma big_String_without c z : digit_val c = None -> c <> "-"%char -> string_forallb (fun d => negb (Ascii.eqb d c)) (big_String z) = true.
Proof.
  intros Hc Hm.
  assert (forall y, (y < 10)%N -> negb (Ascii.eqb (pretty_N_char y) c) = true) as Hp.
  { intros y Hy. apply negb_true_iff, Ascii.eqb_neq. intros E. apply pretty_N_char_digit in Hy. rewrite E, Hc in Hy. done. }
  unfold big_String. destruct z as [|p|p].
  - change (string_forallb (fun d => negb (Ascii.eqb d c)) (pretty 0%N) = true). by apply pretty_N_chars.
  - change (string_forallb (fun d => negb (Ascii.eqb d c)) (pretty (N.pos p)) = true). by apply pretty_N_chars.
  - change (pretty (Z.neg p)) with (String "-" (pretty (N.pos p))). cbn [string_forallb]. rewrite (pretty_N_chars _ _ Hp), andb_true_r.
    apply negb_true_iff, Ascii.eqb_neq. congruence.
Qed.
