(* ===== verification/Hex.v ===== *)
(** * encoding/hex and crypto/sha256

    Hexadecimal text as [hex.EncodeToString] and [hex.DecodeString] read and
    write it, and SHA-256 itself, executable, so that cache keys, key ids and
    audit hashes are computed rather than assumed. *)

From S2P Require Import Prelude GoLib.
From Stdlib Require Import Ascii.

(** ** Bytes *)

Definition byte_of (c : ascii) : Z := Z.of_N (N_of_ascii c).
Definition of_byte (b : Z) : ascii := ascii_of_N (Z.to_N (b mod 256)).

Fixpoint bytes_of (s : string) : list Z :=
  match s with
  | EmptyString => []
  | String c s' => byte_of c :: bytes_of s'
  end.

Fixpoint of_bytes (l : list Z) : string :=
  match l with
  | [] => EmptyString
  | b :: l' => String (of_byte b) (of_bytes l')
  end.

Lemma byte_of_range c : 0 <= byte_of c < 256.
Proof. unfold byte_of. pose proof (N_ascii_bounded c). lia. Qed.

Lemma of_byte_of c : of_byte (byte_of c) = c.
Proof.
  pose proof (byte_of_range c). unfold of_byte. rewrite Z.mod_small by done.
  unfold byte_of. rewrite N2Z.id. apply ascii_N_embedding.
Qed.

Lemma byte_of_of_byte b : 0 <= b < 256 -> byte_of (of_byte b) = b.
Proof.
  intros H. unfold byte_of, of_byte. rewrite Z.mod_small by done.
  rewrite N_ascii_embedding by lia. lia.
Qed.

Lemma of_bytes_bytes_of s : of_bytes (bytes_of s) = s.
Proof. induction s as [|c s IH]; cbn; [done|]. by rewrite of_byte_of, IH. Qed.

Lemma bytes_of_of_bytes l : Forall (fun b => 0 <= b < 256) l -> bytes_of (of_bytes l) = l.
Proof.
  induction 1 as [|b l Hb Hl IH]; cbn; [done|]. by rewrite byte_of_of_byte, IH.
Qed.

Lemma bytes_of_length s : length (bytes_of s) = String.length s.
Proof. induction s; cbn; auto. Qed.

Lemma bytes_of_range s : Forall (fun b => 0 <= b < 256) (bytes_of s).
Proof. induction s; cbn; constructor; auto using byte_of_range. Qed.

(** ** encoding/hex *)

Definition hex_char (d : Z) : ascii :=
  if d <? 10 then of_byte (48 + d) else of_byte (87 + d).

Definition hex_val (c : ascii) : option Z :=
  let n := byte_of c in
  if (48 <=? n) && (n <=? 57) then Some (n - 48)
  else if (97 <=? n) && (n <=? 102) then Some (n - 87)
  else if (65 <=? n) && (n <=? 70) then Some (n - 55)
  else None.

Fixpoint EncodeToString (l : list Z) : string :=
  match l with
  | [] => EmptyString
  | b :: l' => String (hex_char (b / 16)) (String (hex_char (b mod 16)) (EncodeToString l'))
  end.

Fixpoint DecodeString (s : string) : option (list Z) :=
  match s with
  | EmptyString => Some []
  | String _ EmptyString => None
  | String c1 (String c2 s') =>
      h ← hex_val c1; l ← hex_val c2; rest ← DecodeString s';
      Some (16 * h + l :: rest)
  end.

Definition is_lower_hex (c : ascii) : bool :=
  let n := byte_of c in
  ((48 <=? n) && (n <=? 57)) || ((97 <=? n) && (n <=? 102)).

Lemma hex_char_val d : 0 <= d < 16 -> hex_val (hex_char d) = Some d.
Proof.
  intros H. unfold hex_val, hex_char. destruct (Z.ltb_spec d 10);
    rewrite byte_of_of_byte by lia; zcases; f_equal; lia.
Qed.

Lemma hex_char_lower d : 0 <= d < 16 -> is_lower_hex (hex_char d) = true.
Proof.
  intros H. unfold is_lower_hex, hex_char. destruct (Z.ltb_spec d 10);
    rewrite byte_of_of_byte by lia; zcases; done.
Qed.

Lemma nibbles b : 0 <= b < 256 -> 0 <= b / 16 < 16 /\ 0 <= b mod 16 < 16.
Proof. intros H. Z.div_mod_to_equations. lia. Qed.

Lemma Decode_Encode l : Forall (fun b => 0 <= b < 256) l -> DecodeString (EncodeToString l) = Some l.
Proof.
  induction 1 as [|b l Hb Hl IH]; cbn [EncodeToString DecodeString]; [done|].
  destruct (nibbles b Hb). rewrite !hex_char_val, IH by done. cbn.
  do 2 f_equal. pose proof (Z.div_mod b 16). lia.
Qed.

Lemma Encode_length l : String.length (EncodeToString l) = (2 * length l)%nat.
Proof. induction l; cbn; lia. Qed.

Lemma Encode_lower l : Forall (fun b => 0 <= b < 256) l ->
  string_forallb is_lower_hex (EncodeToString l) = true.
Proof.
  induction 1 as [|b l Hb Hl IH]; cbn [EncodeToString string_forallb]; [done|].
  destruct (nibbles b Hb). by rewrite !hex_char_lower, IH.
Qed.

Lemma Encode_inj l1 l2 :
  Forall (fun b => 0 <= b < 256) l1 -> Forall (fun b => 0 <= b < 256) l2 ->
  EncodeToString l1 = EncodeToString l2 -> l1 = l2.
Proof.
  intros H1 H2 Heq. apply (f_equal DecodeString) in Heq.
  rewrite !Decode_Encode in Heq by done. congruence.
Qed.

(** ** crypto/sha256 *)

Module Sha256.
Definition w32 (z : Z) : Z := z mod 4294967296.
Definition rotr (n x : Z) : Z :=
  Z.lor (Z.shiftr x n) (w32 (Z.shiftl x (32 - n))).
Definition not32 (x : Z) : Z := 4294967295 - x.

Definition Ch (x y z : Z) : Z := Z.lxor (Z.land x y) (Z.land (not32 x) z).
Definition Maj (x y z : Z) : Z := Z.lxor (Z.lxor (Z.land x y) (Z.land x z)) (Z.land y z).
Definition S0 (x : Z) : Z := Z.lxor (Z.lxor (rotr 2 x) (rotr 13 x)) (rotr 22 x).
Definition S1 (x : Z) : Z := Z.lxor (Z.lxor (rotr 6 x) (rotr 11 x)) (rotr 25 x).
Definition s0 (x : Z) : Z := Z.lxor (Z.lxor (rotr 7 x) (rotr 18 x)) (Z.shiftr x 3).
Definition s1 (x : Z) : Z := Z.lxor (Z.lxor (rotr 17 x) (rotr 19 x)) (Z.shiftr x 10).

(** The round constants and the initial state are the first 32 bits of the
    fractional parts of the cube roots, and of the square roots, of the first
    primes (FIPS 180-4, 4.2.2 and 5.3.3), computed here bit by bit. *)
Definition root_bit (power n acc bit : Z) : Z :=
  if (acc + bit) ^ power <=? n then acc + bit else acc.

Definition root (power n : Z) : Z :=
  fold_left (root_bit power n) (map (fun i => 2 ^ Z.of_nat i) (rev (seq 0 38))) 0.

Definition is_prime (n : nat) : bool :=
  forallb (fun d => negb (Nat.eqb (Nat.modulo n d) 0)) (seq 2 (n - 2)).

Definition primes (k : nat) : list Z := map Z.of_nat (firstn k (List.filter is_prime (seq 2 310))).

Definition fraction (power p : Z) : Z := w32 (root power (p * 2 ^ (32 * power))).

Definition K : list Z := Eval vm_compute in map (fraction 3) (primes 64).

Definition H0 : list Z := Eval vm_compute in map (fraction 2) (primes 8).

(** The message schedule, newest word first. *)
Fixpoint schedule (n : nat) (w : list Z) : list Z :=
  match n with
  | O => w
  | S n' =>
      let nth i := List.nth i w 0 in
      schedule n' (w32 (s1 (nth 1%nat) + nth 6%nat + s0 (nth 14%nat) + nth 15%nat) :: w)
  end.

Definition round (st : list Z) (kw : Z * Z) : list Z :=
  match st with
  | [a; b; c; d; e; f; g; h] =>
      let t1 := h + S1 e + Ch e f g + fst kw + snd kw in
      let t2 := S0 a + Maj a b c in
      [w32 (t1 + t2); a; b; c; w32 (d + t1); e; f; g]
  | _ => st
  end.

Definition word_of (l : list Z) : Z :=
  fold_left (fun acc b => 256 * acc + b) l 0.

Fixpoint chunks (n : nat) (k : nat) (l : list Z) : list (list Z) :=
  match n with
  | O => []
  | S n' => firstn k l :: chunks n' k (skipn k l)
  end.

Definition compress (st : list Z) (block : list Z) : list Z :=
  let w := rev (schedule 48 (rev (map word_of (chunks 16 4 block)))) in
  let st' := fold_left round (combine K w) st in
  map (fun p => w32 (fst p + snd p)) (combine st st').

Definition bytes_be (n : nat) (z : Z) : list Z :=
  rev (map (fun i => Z.shiftr z (8 * Z.of_nat i) mod 256) (seq 0 n)).

Definition pad (m : list Z) : list Z :=
  let l := Z.of_nat (length m) in
  m ++ [128] ++ repeat 0 (Z.to_nat ((55 - l) mod 64)) ++ bytes_be 8 (8 * l).

Definition words (m : list Z) : list Z :=
  let p := pad m in
  fold_left compress (chunks (length p / 64) 64 p) H0.

(** [sha256.Sum256]. *)
Definition Sum256 (m : list Z) : list Z := concat (map (bytes_be 4) (words m)).

Example sum_abc : EncodeToString (Sum256 (bytes_of "abc")) =
  "ba7816bf8f01cfea414140de5dae2223b00361a396177a9cb410ff61f20015ad".
Proof. vm_compute. reflexivity. Qed.

Example sum_empty : EncodeToString (Sum256 []) =
  "e3b0c44298fc1c149afbf4c8996fb92427ae41e4649b934ca495991b7852b855".
Proof. vm_compute. reflexivity. Qed.

(** *** Shape of the digest *)

Lemma round_length st kw : length st = 8%nat -> length (round st kw) = 8%nat.
Proof. intros H. do 9 (destruct st as [|? st]; try done). Qed.

Lemma rounds_length l : forall st, length st = 8%nat -> length (fold_left round l st) = 8%nat.
Proof. induction l; cbn; auto using round_length. Qed.

Lemma compress_length st b : length st = 8%nat -> length (compress st b) = 8%nat.
Proof.
  intros H. unfold compress. rewrite length_map, length_combine, rounds_length by done. lia.
Qed.

Lemma words_length m : length (words m) = 8%nat.
Proof.
  unfold words. generalize (chunks (length (pad m) / 64) 64 (pad m)). intros bs.
  assert (length H0 = 8%nat) as HH by done. revert HH. generalize H0.
  induction bs; cbn; auto using compress_length.
Qed.

Lemma bytes_be_length n z : length (bytes_be n z) = n.
Proof. unfold bytes_be. by rewrite length_rev, length_map, length_seq. Qed.

Lemma Sum256_length m : length (Sum256 m) = 32%nat.
Proof.
  unfold Sum256. generalize (words m) (words_length m). intros l H.
  do 9 (destruct l as [|? l]; try done).
Qed.

Lemma Sum256_range m : Forall (fun b => 0 <= b < 256) (Sum256 m).
Proof.
  unfold Sum256. apply Forall_concat, Forall_map, Forall_true. intros z.
  unfold bytes_be. apply Forall_rev, Forall_map, Forall_true. intros i.
  apply Z.mod_pos_bound. lia.
Qed.
End Sha256.

(** [hex.EncodeToString] of [sha256.Sum256] of the bytes of a string. *)
Definition sha256_hex (s : string) : string := EncodeToString (Sha256.Sum256 (bytes_of s)).

Lemma sha256_hex_length s : String.length (sha256_hex s) = 64%nat.
Proof. unfold sha256_hex. by rewrite Encode_length, Sha256.Sum256_length. Qed.

Lemma sha256_hex_lower s : string_forallb is_lower_hex (sha256_hex s) = true.
Proof. apply Encode_lower, Sha256.Sum256_range. Qed.

(** * Download-cache keys (src/internal/downloadcache/downloadcache.go)

    The digest that names an object in the cache, in uploads.cache_key and in
    the purge log. *)

Definition KeyForIdentifier (id : string) : string :=
  if String.eqb id "" then "" else sha256_hex ("indelible-download-v1:" +:+ id).

(** [for _, c := range key] ranges over code points; on a key that contains a
    byte outside ASCII both forms of the test reject. *)
Definition keyValid (key : string) : bool :=
  if (String.length key <? 16)%nat || (128 <? String.length key)%nat then false
  else string_forallb is_lower_hex key.

(** Every key that the program derives is a valid cache file name. *)
Lemma KeyForIdentifier_valid id : id <> "" -> keyValid (KeyForIdentifier id) = true.
Proof.
  intros H. unfold KeyForIdentifier, keyValid.
  destruct (String.eqb_spec id ""); [done|].
  by rewrite sha256_hex_length, sha256_hex_lower.
Qed.
