(* ===== verification/Sql.v ===== *)
(** * Rows, statements and transactions

    A table is the list of its rows in ascending id order. A statement is a
    function on that list: [UPDATE ... SET f WHERE p] maps [f] over the rows
    that satisfy [p], [DELETE] and [SELECT] filter, [ORDER BY] is a stable
    insertion sort, so rows that tie keep their id order. *)

From S2P Require Import Prelude.

Section table.
Context {A : Type}.
Implicit Types (p : A -> bool) (t : list A).

Definition select p t : list A := List.filter p t.
Definition update p (f : A -> A) t : list A := map (fun r => if p r then f r else r) t.
Definition delete_where p t : list A := List.filter (fun r => negb (p r)) t.
(** [RowsAffected] of an UPDATE or DELETE with this WHERE clause. *)
Definition affected p t : Z := Z.of_nat (length (select p t)).

(** [SELECT COALESCE(SUM(f), 0)]. *)
Definition sum_by (f : A -> Z) t : Z := fold_right (fun r acc => f r + acc) 0 t.

(** [SELECT MAX(f)]: NULL on no row. *)
Definition max_by (f : A -> Z) t : option Z :=
  fold_right (fun r acc => Some (match acc with Some m => Z.max (f r) m | None => f r end)) None t.

(** [ORDER BY] a key, ascending, stable. *)
Fixpoint insert_by (le : A -> A -> bool) (x : A) t : list A :=
  match t with
  | [] => [x]
  | y :: t' => if le x y then x :: t else y :: insert_by le x t'
  end.

Definition order_by (le : A -> A -> bool) t : list A := fold_right (insert_by le) [] t.

Definition limit (n : Z) t : list A := firstn (Z.to_nat n) t.
Definition offset (n : Z) t : list A := skipn (Z.to_nat n) t.

Lemma in_select p t r : In r (select p t) <-> In r t /\ p r = true.
Proof. apply filter_In. Qed.

Lemma in_delete p t r : In r (delete_where p t) <-> In r t /\ p r = false.
Proof. unfold delete_where. rewrite filter_In, negb_true_iff. done. Qed.

Lemma in_update p f t r :
  In r (update p f t) <->
  exists r0, In r0 t /\ ((p r0 = true /\ r = f r0) \/ (p r0 = false /\ r = r0)).
Proof.
  unfold update. rewrite in_map_iff. split.
  - intros (r0 & Hr & Hin). exists r0. split; [done|]. destruct (p r0); auto.
  - intros (r0 & Hin & [[Hp ->]|[Hp ->]]); exists r0; by rewrite Hp.
Qed.

Lemma map_update {B} (g : A -> B) p f t : (forall r, g (f r) = g r) -> map g (update p f t) = map g t.
Proof. intros Hf. unfold update. rewrite map_map. apply map_ext. intros r. destruct (p r); auto. Qed.

Lemma update_none p f t : affected p t = 0 -> update p f t = t.
Proof.
  unfold affected, select, update. induction t as [|r t IH]; cbn; [done|].
  destruct (p r); cbn; [lia|]. intros H. by rewrite IH.
Qed.

Lemma affected_pos p t : affected p t <> 0 <-> exists r, In r t /\ p r = true.
Proof.
  unfold affected. split.
  - intros H. destruct (select p t) as [|r l] eqn:E; [done|].
    exists r. apply in_select. rewrite E. by left.
  - intros (r & H). apply in_select in H. destruct (select p t); cbn; [done|lia].
Qed.

Lemma insert_by_in le x t r : In r (insert_by le x t) <-> r = x \/ In r t.
Proof.
  induction t as [|y t IH]; cbn; [naive_solver|].
  destruct (le x y); cbn; naive_solver.
Qed.

Lemma order_by_in le t r : In r (order_by le t) <-> In r t.
Proof. induction t as [|y t IH]; cbn; [done|]. rewrite insert_by_in. naive_solver. Qed.

(** The first row of a sorted selection is minimal. *)
Lemma order_by_head (k : A -> Z) t x l :
  order_by (fun a b => k a <=? k b) t = x :: l -> forall r, In r t -> k x <= k r.
Proof.
  revert x l. induction t as [|y t IH]; cbn; [done|]. intros x l.
  fold (order_by (fun a b => k a <=? k b) t).
  destruct (order_by (fun a b => k a <=? k b) t) as [|z t'] eqn:E; cbn.
  - intros [= <- <-] r [->|Hin]; [lia|].
    apply (order_by_in (fun a b => k a <=? k b)) in Hin. by rewrite E in Hin.
  - destruct (Z.leb_spec (k y) (k z)); intros [= <- <-] r [->|Hin]; try lia.
    + specialize (IH _ _ eq_refl r Hin). lia.
    + by eapply IH.
Qed.

Lemma insert_by_perm le x t : insert_by le x t ≡ₚ x :: t.
Proof.
  induction t as [|y t IH]; cbn; [done|]. destruct (le x y); [done|]. rewrite IH. apply Permutation_swap.
Qed.

Lemma order_by_perm le t : order_by le t ≡ₚ t.
Proof. induction t as [|y t IH]; cbn; [done|]. rewrite insert_by_perm. by constructor. Qed.

Lemma insert_by_sorted (k : A -> Z) x t : StronglySorted (fun a b => k a <= k b) t ->
  StronglySorted (fun a b => k a <= k b) (insert_by (fun a b => k a <=? k b) x t).
Proof.
  induction 1 as [|y t Ht IH Hy]; cbn; [by repeat constructor|]. destruct (Z.leb_spec (k x) (k y)).
  - constructor; [by constructor|]. constructor; [done|]. eapply Forall_impl; [exact Hy|]. cbn. lia.
  - constructor; [done|]. rewrite insert_by_perm. constructor; [lia|done].
Qed.

Lemma order_by_sorted (k : A -> Z) t : StronglySorted (fun a b => k a <= k b) (order_by (fun a b => k a <=? k b) t).
Proof. induction t as [|y t IH]; cbn; [constructor|]. by apply insert_by_sorted. Qed.

Lemma sum_by_app (f : A -> Z) t1 t2 : sum_by f (t1 ++ t2) = sum_by f t1 + sum_by f t2.
Proof. unfold sum_by. induction t1; cbn; lia. Qed.

Lemma sum_by_nonneg (f : A -> Z) t : (forall r, In r t -> 0 <= f r) -> 0 <= sum_by f t.
Proof.
  unfold sum_by. induction t as [|r t IH]; cbn; [lia|]. intros H.
  assert (0 <= f r) by (apply H; by left).
  assert (0 <= fold_right (fun r acc => f r + acc) 0 t) by (apply IH; intros; apply H; by right).
  lia.
Qed.

Lemma sum_by_select_le (f : A -> Z) p q t :
  (forall r, In r t -> 0 <= f r) -> (forall r, In r t -> p r = true -> q r = true) ->
  sum_by f (select p t) <= sum_by f (select q t).
Proof.
  unfold sum_by, select. induction t as [|r t IH]; cbn; [lia|]. intros Hf Hpq.
  assert (0 <= f r) by (apply Hf; by left).
  assert (p r = true -> q r = true) by (apply Hpq; by left).
  specialize (IH (fun r H => Hf r (or_intror H)) (fun r H => Hpq r (or_intror H))).
  destruct (p r), (q r); cbn; intuition (congruence || lia).
Qed.

Lemma max_by_spec (f : A -> Z) t r : In r t -> exists m, max_by f t = Some m /\ f r <= m.
Proof.
  induction t as [|x t IH]; cbn; [done|]. intros [->|Hin].
  - eexists. split; [done|]. destruct (fold_right _ _ _); lia.
  - destruct (IH Hin) as (m & Hm & Hle). unfold max_by in Hm. rewrite Hm.
    eexists. split; [done|]. lia.
Qed.

Lemma max_by_in (f : A -> Z) t m : max_by f t = Some m -> exists r, In r t /\ f r = m.
Proof.
  revert m. induction t as [|x t IH]; intros m; cbn; [done|].
  fold (max_by f t). destruct (max_by f t) as [m'|] eqn:E; intros [= <-].
  - destruct (IH m' eq_refl) as (r & Hr & Hm).
    destruct (Z.max_spec (f x) m') as [[? ->]|[? ->]]; eauto.
  - eauto.
Qed.
End table.

(** Rows that carry an integer primary key. *)
Class Keyed (A : Type) := key : A -> Z.

Section keyed.
Context {A : Type} `{!Keyed A}.
Implicit Types (t : list A).

Definition by_id (i : Z) : A -> bool := fun r => key r =? i.
Definition find_id (i : Z) t : option A := List.find (by_id i) t.
Definition ids t : list Z := map key t.

Lemma find_id_Some i t r : find_id i t = Some r -> In r t /\ key r = i.
Proof.
  unfold find_id. intros H. apply find_some in H as [? H]. unfold by_id in H. breflect. done.
Qed.

Lemma find_id_In t r : List.NoDup (ids t) -> In r t -> find_id (key r) t = Some r.
Proof.
  unfold find_id, ids. induction t as [|x t IH]; cbn; [done|]. intros Hnd Hin.
  apply NoDup_cons_iff in Hnd as [Hx Hnd]. unfold by_id at 1.
  destruct Hin as [->|Hin]; [by rewrite Z.eqb_refl|].
  destruct (Z.eqb_spec (key x) (key r)) as [Heq|]; [|auto].
  exfalso. apply Hx. rewrite Heq. by apply in_map.
Qed.

Lemma ids_update p f t : (forall r, key (f r) = key r) -> ids (update p f t) = ids t.
Proof. apply map_update. Qed.

Lemma find_id_update p f t i :
  (forall r, key (f r) = key r) ->
  find_id i (update p f t) = (fun r => if p r then f r else r) <$> find_id i t.
Proof.
  intros Hf. unfold find_id, update. induction t as [|x t IH]; cbn; [done|].
  replace (by_id i (if p x then f x else x)) with (by_id i x).
  - destruct (by_id i x); auto.
  - unfold by_id. destruct (p x); by rewrite ?Hf.
Qed.

Lemma NoDup_ids_delete p t : List.NoDup (ids t) -> List.NoDup (ids (delete_where p t)).
Proof.
  unfold ids, delete_where. induction t as [|x t IH]; cbn; [done|].
  intros H. apply NoDup_cons_iff in H as [Hx H]. destruct (negb (p x)); cbn; [|auto].
  constructor; [|auto]. intros Hin. apply Hx.
  apply in_map_iff in Hin as (y & Hy & Hin). apply filter_In in Hin as [Hin _].
  rewrite <- Hy. by apply in_map.
Qed.

Lemma affected_by_id i t : affected (by_id i) t <> 0 <-> exists r, In r t /\ key r = i.
Proof.
  rewrite affected_pos. unfold by_id. split; intros (r & ? & ?); exists r; breflect; auto.
  split; [done|]. by apply Z.eqb_eq.
Qed.

(** The row with key [key r] contributes its own share to a sum. *)
Lemma sum_by_split (f : A -> Z) p t r : List.NoDup (ids t) -> In r t -> p r = true ->
  sum_by f (select p t) = f r + sum_by f (select (fun x => p x && negb (by_id (key r) x)) t).
Proof.
  unfold ids. induction t as [|x t IH]; cbn; [done|]. intros Hnd Hin Hp.
  apply NoDup_cons_iff in Hnd as [Hx Hnd]. unfold select in *. cbn. destruct Hin as [->|Hin].
  - rewrite Hp. unfold by_id at 1. rewrite Z.eqb_refl. cbn. f_equal.
    clear IH Hnd. induction t as [|y t IH]; cbn; [done|]. cbn in Hx.
    assert (by_id (key r) y = false) as ->.
    { unfold by_id. apply Z.eqb_neq. intros E. apply Hx. left. done. }
    cbn. rewrite andb_true_r.
    destruct (p y); cbn; rewrite ?IH; tauto.
  - assert (by_id (key r) x = false) as ->.
    { unfold by_id. apply Z.eqb_neq. intros E. apply Hx. rewrite E. by apply in_map. }
    cbn. rewrite andb_true_r. specialize (IH Hnd Hin Hp). unfold sum_by in *.
    destruct (p x); cbn in *; rewrite IH; lia.
Qed.
End keyed.

#[export] Hint Resolve in_select in_delete : indelible.

(** Statements stay folded under [cbn]: their lemmas carry the proofs. *)
#[global] Arguments update {A} p f t : simpl never.
#[global] Arguments select {A} p t : simpl never.
#[global] Arguments delete_where {A} p t : simpl never.
#[global] Arguments affected {A} p t : simpl never.
#[global] Arguments find_id {A _} i t : simpl never.
#[global] Arguments by_id {A _} i _ : simpl never.
#[global] Arguments order_by {A} le t : simpl never.

(** ** Sorted tables *)

Lemma insert_by_last {A} (le : A -> A -> bool) x t : (forall y, In y t -> le x y = false) -> insert_by le x t = t ++ [x].
Proof.
  induction t as [|y t IH]; cbn; [done|]. intros H. rewrite H by (by left). f_equal. apply IH. intros z Hz. apply H. by right.
Qed.

Lemma order_by_sorted_id {A} (le : A -> A -> bool) t : StronglySorted (fun a b => le a b = true) t -> order_by le t = t.
Proof.
  induction 1 as [|x t Ht IH Hx]; [done|]. change (order_by le (x :: t)) with (insert_by le x (order_by le t)). rewrite IH.
  destruct t as [|y t]; [done|]. cbn. apply List.Forall_inv in Hx. by rewrite Hx.
Qed.

Lemma order_by_reverse {A} (le : A -> A -> bool) t : StronglySorted (fun a b => le a b = false) t -> order_by le t = rev t.
Proof.
  induction 1 as [|x t Ht IH Hx]; [done|]. change (order_by le (x :: t)) with (insert_by le x (order_by le t)). rewrite IH. apply insert_by_last.
  intros y Hy. rewrite List.Forall_forall in Hx. apply Hx. by apply in_rev.
Qed.

Lemma StronglySorted_impl {A} (R S : A -> A -> Prop) t : (forall a b, R a b -> S a b) -> StronglySorted R t -> StronglySorted S t.
Proof.
  intros H. induction 1 as [|x t Ht IH Hx]; constructor; [done|]. eapply List.Forall_impl; [|exact Hx]. apply H.
Qed.

Lemma StronglySorted_select {A} (R : A -> A -> Prop) p t : StronglySorted R t -> StronglySorted R (select p t).
Proof.
  unfold select. induction 1 as [|x t Ht IH Hx]; cbn; [constructor|]. destruct (p x); [|done].
  constructor; [done|]. rewrite List.Forall_forall in *. intros y [Hy _]%filter_In. by apply Hx.
Qed.

Lemma StronglySorted_snoc {A} (R : A -> A -> Prop) t x :
  StronglySorted R t -> (forall y, In y t -> R y x) -> StronglySorted R (t ++ [x]).
Proof.
  induction 1 as [|y t Ht IH Hy]; cbn; intros H; [by repeat constructor|].
  constructor; [apply IH; intros; apply H; by right|]. apply Forall_app. split; [done|].
  constructor; [apply H; by left|done].
Qed.

Lemma select_app {A} (p : A -> bool) t1 t2 : select p (t1 ++ t2) = select p t1 ++ select p t2.
Proof. apply List.filter_app. Qed.

Lemma select_select {A} (p q : A -> bool) t : select p (select q t) = select (fun x => q x && p x) t.
Proof. unfold select. induction t as [|x t IH]; cbn; [done|]. destruct (q x); cbn; [|done]. destruct (p x); by rewrite IH. Qed.

Lemma order_by_ext {A} (le le' : A -> A -> bool) t : (forall a b, le a b = le' a b) -> order_by le t = order_by le' t.
Proof.
  intros H. assert (forall x l, insert_by le x l = insert_by le' x l) as Hi.
  { intros x l. induction l as [|y l IH]; cbn; [done|]. by rewrite H, IH. }
  induction t as [|x t IH]; [done|].
  change (insert_by le x (order_by le t) = insert_by le' x (order_by le' t)). by rewrite IH, Hi.
Qed.

(** Descending order by a number: the first row is maximal. *)
Lemma order_by_desc_head {A} (k : A -> Z) t x l :
  order_by (fun a b => k b <=? k a) t = x :: l -> forall r, In r t -> k r <= k x.
Proof.
  intros H r Hr. rewrite (order_by_ext _ (fun a b => - k a <=? - k b)) in H by (intros; zcases).
  pose proof (order_by_head (fun a => - k a) t x l H r Hr) as Hle. cbn in Hle. lia.
Qed.
