(* ===== verification/Schema.v ===== *)
(** * The database

    The tables the upload pipeline reads and writes (src/internal/database,
    migrations 001 to 015, SQLite dialect: timestamps of whole seconds), the
    clock, and a fault schedule: each statement takes the next entry, and
    fails with it when it is an error. Theorems quantify over the schedule, so
    every database error path is covered. *)

From S2P Require Import Prelude GoLib Sql.

(** uploads.status and uploads.visibility, the values of their CHECKs. *)
Inductive status := Queued | Processing | Completed | Failed | AlreadyStored.
Inductive visibility := Public | Private.

#[export] Instance status_eq_dec : EqDecision status.
Proof. solve_decision. Defined.
#[export] Instance visibility_eq_dec : EqDecision visibility.
Proof. solve_decision. Defined.

Definition status_str (s : status) : string :=
  match s with
  | Queued => "queued" | Processing => "processing" | Completed => "completed"
  | Failed => "failed" | AlreadyStored => "already_stored"
  end.

(** A row of uploads: services.Upload, plus the columns cache_key and
    payment_floor_txn_id that the struct does not carry. *)
Record Upload := mkUpload {
  u_id : Z;  (* id *)
  u_uuid : string;
  u_user_id : Z;
  u_token_id : option Z;
  u_filename : string;
  u_original_filename : string;
  u_file_size : Z;
  u_content_type : string;
  u_visibility : visibility;
  u_status : status;
  u_status_detail : option string;
  u_datamap_address : option string;
  u_estimated_cost : option string;
  u_actual_cost : option string;
  u_error_message : option string;
  u_temp_path : option string;
  u_data_map : option string;
  u_backoff_until : option Z;
  u_backoff_attempt : Z;
  u_last_quoted_cost : option string;
  u_queued_at : Z;
  u_processing_at : option Z;
  u_completed_at : option Z;
  u_failed_at : option Z;
  u_created_at : Z;
  u_cache_key : option string;
  u_payment_floor_txn_id : Z;
}.

Definition set_u_visibility (v : visibility) (u : Upload) : Upload :=
  mkUpload (u_id u) (u_uuid u) (u_user_id u) (u_token_id u) (u_filename u) (u_original_filename u) (u_file_size u) (u_content_type u) v (u_status u) (u_status_detail u) (u_datamap_address u) (u_estimated_cost u) (u_actual_cost u) (u_error_message u) (u_temp_path u) (u_data_map u) (u_backoff_until u) (u_backoff_attempt u) (u_last_quoted_cost u) (u_queued_at u) (u_processing_at u) (u_completed_at u) (u_failed_at u) (u_created_at u) (u_cache_key u) (u_payment_floor_txn_id u).
Definition set_u_status (v : status) (u : Upload) : Upload :=
  mkUpload (u_id u) (u_uuid u) (u_user_id u) (u_token_id u) (u_filename u) (u_original_filename u) (u_file_size u) (u_content_type u) (u_visibility u) v (u_status_detail u) (u_datamap_address u) (u_estimated_cost u) (u_actual_cost u) (u_error_message u) (u_temp_path u) (u_data_map u) (u_backoff_until u) (u_backoff_attempt u) (u_last_quoted_cost u) (u_queued_at u) (u_processing_at u) (u_completed_at u) (u_failed_at u) (u_created_at u) (u_cache_key u) (u_payment_floor_txn_id u).
Definition set_u_status_detail (v : option string) (u : Upload) : Upload :=
  mkUpload (u_id u) (u_uuid u) (u_user_id u) (u_token_id u) (u_filename u) (u_original_filename u) (u_file_size u) (u_content_type u) (u_visibility u) (u_status u) v (u_datamap_address u) (u_estimated_cost u) (u_actual_cost u) (u_error_message u) (u_temp_path u) (u_data_map u) (u_backoff_until u) (u_backoff_attempt u) (u_last_quoted_cost u) (u_queued_at u) (u_processing_at u) (u_completed_at u) (u_failed_at u) (u_created_at u) (u_cache_key u) (u_payment_floor_txn_id u).
Definition set_u_datamap_address (v : option string) (u : Upload) : Upload :=
  mkUpload (u_id u) (u_uuid u) (u_user_id u) (u_token_id u) (u_filename u) (u_original_filename u) (u_file_size u) (u_content_type u) (u_visibility u) (u_status u) (u_status_detail u) v (u_estimated_cost u) (u_actual_cost u) (u_error_message u) (u_temp_path u) (u_data_map u) (u_backoff_until u) (u_backoff_attempt u) (u_last_quoted_cost u) (u_queued_at u) (u_processing_at u) (u_completed_at u) (u_failed_at u) (u_created_at u) (u_cache_key u) (u_payment_floor_txn_id u).
Definition set_u_actual_cost (v : option string) (u : Upload) : Upload :=
  mkUpload (u_id u) (u_uuid u) (u_user_id u) (u_token_id u) (u_filename u) (u_original_filename u) (u_file_size u) (u_content_type u) (u_visibility u) (u_status u) (u_status_detail u) (u_datamap_address u) (u_estimated_cost u) v (u_error_message u) (u_temp_path u) (u_data_map u) (u_backoff_until u) (u_backoff_attempt u) (u_last_quoted_cost u) (u_queued_at u) (u_processing_at u) (u_completed_at u) (u_failed_at u) (u_created_at u) (u_cache_key u) (u_payment_floor_txn_id u).
Definition set_u_error_message (v : option string) (u : Upload) : Upload :=
  mkUpload (u_id u) (u_uuid u) (u_user_id u) (u_token_id u) (u_filename u) (u_original_filename u) (u_file_size u) (u_content_type u) (u_visibility u) (u_status u) (u_status_detail u) (u_datamap_address u) (u_estimated_cost u) (u_actual_cost u) v (u_temp_path u) (u_data_map u) (u_backoff_until u) (u_backoff_attempt u) (u_last_quoted_cost u) (u_queued_at u) (u_processing_at u) (u_completed_at u) (u_failed_at u) (u_created_at u) (u_cache_key u) (u_payment_floor_txn_id u).
Definition set_u_temp_path (v : option string) (u : Upload) : Upload :=
  mkUpload (u_id u) (u_uuid u) (u_user_id u) (u_token_id u) (u_filename u) (u_original_filename u) (u_file_size u) (u_content_type u) (u_visibility u) (u_status u) (u_status_detail u) (u_datamap_address u) (u_estimated_cost u) (u_actual_cost u) (u_error_message u) v (u_data_map u) (u_backoff_until u) (u_backoff_attempt u) (u_last_quoted_cost u) (u_queued_at u) (u_processing_at u) (u_completed_at u) (u_failed_at u) (u_created_at u) (u_cache_key u) (u_payment_floor_txn_id u).
Definition set_u_data_map (v : option string) (u : Upload) : Upload :=
  mkUpload (u_id u) (u_uuid u) (u_user_id u) (u_token_id u) (u_filename u) (u_original_filename u) (u_file_size u) (u_content_type u) (u_visibility u) (u_status u) (u_status_detail u) (u_datamap_address u) (u_estimated_cost u) (u_actual_cost u) (u_error_message u) (u_temp_path u) v (u_backoff_until u) (u_backoff_attempt u) (u_last_quoted_cost u) (u_queued_at u) (u_processing_at u) (u_completed_at u) (u_failed_at u) (u_created_at u) (u_cache_key u) (u_payment_floor_txn_id u).
Definition set_u_backoff_until (v : option Z) (u : Upload) : Upload :=
  mkUpload (u_id u) (u_uuid u) (u_user_id u) (u_token_id u) (u_filename u) (u_original_filename u) (u_file_size u) (u_content_type u) (u_visibility u) (u_status u) (u_status_detail u) (u_datamap_address u) (u_estimated_cost u) (u_actual_cost u) (u_error_message u) (u_temp_path u) (u_data_map u) v (u_backoff_attempt u) (u_last_quoted_cost u) (u_queued_at u) (u_processing_at u) (u_completed_at u) (u_failed_at u) (u_created_at u) (u_cache_key u) (u_payment_floor_txn_id u).
Definition set_u_backoff_attempt (v : Z) (u : Upload) : Upload :=
  mkUpload (u_id u) (u_uuid u) (u_user_id u) (u_token_id u) (u_filename u) (u_original_filename u) (u_file_size u) (u_content_type u) (u_visibility u) (u_status u) (u_status_detail u) (u_datamap_address u) (u_estimated_cost u) (u_actual_cost u) (u_error_message u) (u_temp_path u) (u_data_map u) (u_backoff_until u) v (u_last_quoted_cost u) (u_queued_at u) (u_processing_at u) (u_completed_at u) (u_failed_at u) (u_created_at u) (u_cache_key u) (u_payment_floor_txn_id u).
Definition set_u_last_quoted_cost (v : option string) (u : Upload) : Upload :=
  mkUpload (u_id u) (u_uuid u) (u_user_id u) (u_token_id u) (u_filename u) (u_original_filename u) (u_file_size u) (u_content_type u) (u_visibility u) (u_status u) (u_status_detail u) (u_datamap_address u) (u_estimated_cost u) (u_actual_cost u) (u_error_message u) (u_temp_path u) (u_data_map u) (u_backoff_until u) (u_backoff_attempt u) v (u_queued_at u) (u_processing_at u) (u_completed_at u) (u_failed_at u) (u_created_at u) (u_cache_key u) (u_payment_floor_txn_id u).
Definition set_u_queued_at (v : Z) (u : Upload) : Upload :=
  mkUpload (u_id u) (u_uuid u) (u_user_id u) (u_token_id u) (u_filename u) (u_original_filename u) (u_file_size u) (u_content_type u) (u_visibility u) (u_status u) (u_status_detail u) (u_datamap_address u) (u_estimated_cost u) (u_actual_cost u) (u_error_message u) (u_temp_path u) (u_data_map u) (u_backoff_until u) (u_backoff_attempt u) (u_last_quoted_cost u) v (u_processing_at u) (u_completed_at u) (u_failed_at u) (u_created_at u) (u_cache_key u) (u_payment_floor_txn_id u).
Definition set_u_processing_at (v : option Z) (u : Upload) : Upload :=
  mkUpload (u_id u) (u_uuid u) (u_user_id u) (u_token_id u) (u_filename u) (u_original_filename u) (u_file_size u) (u_content_type u) (u_visibility u) (u_status u) (u_status_detail u) (u_datamap_address u) (u_estimated_cost u) (u_actual_cost u) (u_error_message u) (u_temp_path u) (u_data_map u) (u_backoff_until u) (u_backoff_attempt u) (u_last_quoted_cost u) (u_queued_at u) v (u_completed_at u) (u_failed_at u) (u_created_at u) (u_cache_key u) (u_payment_floor_txn_id u).
Definition set_u_completed_at (v : option Z) (u : Upload) : Upload :=
  mkUpload (u_id u) (u_uuid u) (u_user_id u) (u_token_id u) (u_filename u) (u_original_filename u) (u_file_size u) (u_content_type u) (u_visibility u) (u_status u) (u_status_detail u) (u_datamap_address u) (u_estimated_cost u) (u_actual_cost u) (u_error_message u) (u_temp_path u) (u_data_map u) (u_backoff_until u) (u_backoff_attempt u) (u_last_quoted_cost u) (u_queued_at u) (u_processing_at u) v (u_failed_at u) (u_created_at u) (u_cache_key u) (u_payment_floor_txn_id u).
Definition set_u_failed_at (v : option Z) (u : Upload) : Upload :=
  mkUpload (u_id u) (u_uuid u) (u_user_id u) (u_token_id u) (u_filename u) (u_original_filename u) (u_file_size u) (u_content_type u) (u_visibility u) (u_status u) (u_status_detail u) (u_datamap_address u) (u_estimated_cost u) (u_actual_cost u) (u_error_message u) (u_temp_path u) (u_data_map u) (u_backoff_until u) (u_backoff_attempt u) (u_last_quoted_cost u) (u_queued_at u) (u_processing_at u) (u_completed_at u) v (u_created_at u) (u_cache_key u) (u_payment_floor_txn_id u).
Definition set_u_cache_key (v : option string) (u : Upload) : Upload :=
  mkUpload (u_id u) (u_uuid u) (u_user_id u) (u_token_id u) (u_filename u) (u_original_filename u) (u_file_size u) (u_content_type u) (u_visibility u) (u_status u) (u_status_detail u) (u_datamap_address u) (u_estimated_cost u) (u_actual_cost u) (u_error_message u) (u_temp_path u) (u_data_map u) (u_backoff_until u) (u_backoff_attempt u) (u_last_quoted_cost u) (u_queued_at u) (u_processing_at u) (u_completed_at u) (u_failed_at u) (u_created_at u) v (u_payment_floor_txn_id u).
Definition set_u_payment_floor_txn_id (v : Z) (u : Upload) : Upload :=
  mkUpload (u_id u) (u_uuid u) (u_user_id u) (u_token_id u) (u_filename u) (u_original_filename u) (u_file_size u) (u_content_type u) (u_visibility u) (u_status u) (u_status_detail u) (u_datamap_address u) (u_estimated_cost u) (u_actual_cost u) (u_error_message u) (u_temp_path u) (u_data_map u) (u_backoff_until u) (u_backoff_attempt u) (u_last_quoted_cost u) (u_queued_at u) (u_processing_at u) (u_completed_at u) (u_failed_at u) (u_created_at u) (u_cache_key u) v.

(** A row of transactions: services.Transaction. *)
Record Transaction := mkTransaction {
  t_id : Z;
  t_wallet_id : Z;
  t_upload_id : option Z;
  t_tx_type : string;
  t_amount : string;
  t_balance_after : string;
  t_tx_hash : option string;
  t_created_at : Z;
}.

(** A row of quotas. [q_entity_type] is one of user, group, department, system. *)
Record Quota := mkQuota {
  q_id : Z;
  q_entity_type : string;
  q_entity_id : option string;
  q_max_bytes : Z;
  q_is_enabled : bool;
  q_created_at : Z;
  q_updated_at : Z;
}.

(** A row of api_tokens: the columns the quota tiers and the token check read. *)
Record Token := mkToken {
  tok_id : Z;
  tok_user_id : Z;
  tok_token_hash : string;
  tok_department : option string;
  tok_expires_at : option Z;   (* nanoseconds *)
  tok_revoked_at : option Z;
  tok_revoked_by : option Z;
  tok_revoke_reason : option string;
  tok_usage_count : Z;
}.

(** A row of cache_purge_log. *)
Record PurgeLogEntry := mkPurgeLogEntry {
  p_id : Z;
  p_cache_key : string;
  p_deleted_at : Z;
}.

(** A row of wallets. *)
Record Wallet := mkWallet {
  w_id : Z;
  w_name : string;
  w_address : string;
  w_encrypted_key : string;
  w_is_default : bool;
  w_payment_balance : string;
  w_gas_balance : string;
  w_created_at : Z;
  w_updated_at : Z;
}.

(** A row of config_audit. [changed_by] is nullable; the only writer sets it. *)
Record ConfigAudit := mkConfigAudit {
  ca_id : Z;
  ca_setting_key : string;
  ca_old_value : option string;
  ca_new_value : string;
  ca_changed_by : Z;
  ca_ip_address : string;
  ca_user_agent : string;
  ca_created_at : Z;
}.

#[export] Instance Upload_keyed : Keyed Upload := u_id.
#[export] Instance Transaction_keyed : Keyed Transaction := t_id.
#[export] Instance Quota_keyed : Keyed Quota := q_id.
#[export] Instance Token_keyed : Keyed Token := tok_id.
#[export] Instance PurgeLogEntry_keyed : Keyed PurgeLogEntry := p_id.
#[export] Instance Wallet_keyed : Keyed Wallet := w_id.

(** The database, the clock and the fault schedule. *)
Record Db := mkDb {
  uploads : list Upload;
  seq_uploads : Z;  (* AUTOINCREMENT *)
  transactions : list Transaction;
  seq_transactions : Z;
  quotas : list Quota;
  seq_quotas : Z;
  users : list Z;  (* ids *)
  groups : list Z;  (* ids *)
  group_members : list (Z * Z);  (* (group_id, user_id) *)
  api_tokens : list Token;
  cache_purge_log : list PurgeLogEntry;
  seq_purge : Z;
  file_tags : list (Z * string * string);  (* (upload_id, key, value) *)
  collection_files : list (Z * Z);  (* (collection_id, upload_id) *)
  settings : list (string * string);
  config_audit : list ConfigAudit;
  wallets : list Wallet;
  seq_wallets : Z;
  oidc_providers : list (Z * string);
  now : Z;  (* nanoseconds since the epoch, UTC *)
  faults : list (option string);  (* outcome of the next statements *)
}.

Definition set_uploads (v : list Upload) (d : Db) : Db :=
  mkDb v (seq_uploads d) (transactions d) (seq_transactions d) (quotas d) (seq_quotas d) (users d) (groups d) (group_members d) (api_tokens d) (cache_purge_log d) (seq_purge d) (file_tags d) (collection_files d) (settings d) (config_audit d) (wallets d) (seq_wallets d) (oidc_providers d) (now d) (faults d).
Definition set_seq_uploads (v : Z) (d : Db) : Db :=
  mkDb (uploads d) v (transactions d) (seq_transactions d) (quotas d) (seq_quotas d) (users d) (groups d) (group_members d) (api_tokens d) (cache_purge_log d) (seq_purge d) (file_tags d) (collection_files d) (settings d) (config_audit d) (wallets d) (seq_wallets d) (oidc_providers d) (now d) (faults d).
Definition set_transactions (v : list Transaction) (d : Db) : Db :=
  mkDb (uploads d) (seq_uploads d) v (seq_transactions d) (quotas d) (seq_quotas d) (users d) (groups d) (group_members d) (api_tokens d) (cache_purge_log d) (seq_purge d) (file_tags d) (collection_files d) (settings d) (config_audit d) (wallets d) (seq_wallets d) (oidc_providers d) (now d) (faults d).
Definition set_seq_transactions (v : Z) (d : Db) : Db :=
  mkDb (uploads d) (seq_uploads d) (transactions d) v (quotas d) (seq_quotas d) (users d) (groups d) (group_members d) (api_tokens d) (cache_purge_log d) (seq_purge d) (file_tags d) (collection_files d) (settings d) (config_audit d) (wallets d) (seq_wallets d) (oidc_providers d) (now d) (faults d).
Definition set_quotas (v : list Quota) (d : Db) : Db :=
  mkDb (uploads d) (seq_uploads d) (transactions d) (seq_transactions d) v (seq_quotas d) (users d) (groups d) (group_members d) (api_tokens d) (cache_purge_log d) (seq_purge d) (file_tags d) (collection_files d) (settings d) (config_audit d) (wallets d) (seq_wallets d) (oidc_providers d) (now d) (faults d).
Definition set_seq_quotas (v : Z) (d : Db) : Db :=
  mkDb (uploads d) (seq_uploads d) (transactions d) (seq_transactions d) (quotas d) v (users d) (groups d) (group_members d) (api_tokens d) (cache_purge_log d) (seq_purge d) (file_tags d) (collection_files d) (settings d) (config_audit d) (wallets d) (seq_wallets d) (oidc_providers d) (now d) (faults d).
Definition set_users (v : list Z) (d : Db) : Db :=
  mkDb (uploads d) (seq_uploads d) (transactions d) (seq_transactions d) (quotas d) (seq_quotas d) v (groups d) (group_members d) (api_tokens d) (cache_purge_log d) (seq_purge d) (file_tags d) (collection_files d) (settings d) (config_audit d) (wallets d) (seq_wallets d) (oidc_providers d) (now d) (faults d).
Definition set_groups (v : list Z) (d : Db) : Db :=
  mkDb (uploads d) (seq_uploads d) (transactions d) (seq_transactions d) (quotas d) (seq_quotas d) (users d) v (group_members d) (api_tokens d) (cache_purge_log d) (seq_purge d) (file_tags d) (collection_files d) (settings d) (config_audit d) (wallets d) (seq_wallets d) (oidc_providers d) (now d) (faults d).
Definition set_group_members (v : list (Z * Z)) (d : Db) : Db :=
  mkDb (uploads d) (seq_uploads d) (transactions d) (seq_transactions d) (quotas d) (seq_quotas d) (users d) (groups d) v (api_tokens d) (cache_purge_log d) (seq_purge d) (file_tags d) (collection_files d) (settings d) (config_audit d) (wallets d) (seq_wallets d) (oidc_providers d) (now d) (faults d).
Definition set_api_tokens (v : list Token) (d : Db) : Db :=
  mkDb (uploads d) (seq_uploads d) (transactions d) (seq_transactions d) (quotas d) (seq_quotas d) (users d) (groups d) (group_members d) v (cache_purge_log d) (seq_purge d) (file_tags d) (collection_files d) (settings d) (config_audit d) (wallets d) (seq_wallets d) (oidc_providers d) (now d) (faults d).
Definition set_cache_purge_log (v : list PurgeLogEntry) (d : Db) : Db :=
  mkDb (uploads d) (seq_uploads d) (transactions d) (seq_transactions d) (quotas d) (seq_quotas d) (users d) (groups d) (group_members d) (api_tokens d) v (seq_purge d) (file_tags d) (collection_files d) (settings d) (config_audit d) (wallets d) (seq_wallets d) (oidc_providers d) (now d) (faults d).
Definition set_seq_purge (v : Z) (d : Db) : Db :=
  mkDb (uploads d) (seq_uploads d) (transactions d) (seq_transactions d) (quotas d) (seq_quotas d) (users d) (groups d) (group_members d) (api_tokens d) (cache_purge_log d) v (file_tags d) (collection_files d) (settings d) (config_audit d) (wallets d) (seq_wallets d) (oidc_providers d) (now d) (faults d).
Definition set_file_tags (v : list (Z * string * string)) (d : Db) : Db :=
  mkDb (uploads d) (seq_uploads d) (transactions d) (seq_transactions d) (quotas d) (seq_quotas d) (users d) (groups d) (group_members d) (api_tokens d) (cache_purge_log d) (seq_purge d) v (collection_files d) (settings d) (config_audit d) (wallets d) (seq_wallets d) (oidc_providers d) (now d) (faults d).
Definition set_collection_files (v : list (Z * Z)) (d : Db) : Db :=
  mkDb (uploads d) (seq_uploads d) (transactions d) (seq_transactions d) (quotas d) (seq_quotas d) (users d) (groups d) (group_members d) (api_tokens d) (cache_purge_log d) (seq_purge d) (file_tags d) v (settings d) (config_audit d) (wallets d) (seq_wallets d) (oidc_providers d) (now d) (faults d).
Definition set_settings (v : list (string * string)) (d : Db) : Db :=
  mkDb (uploads d) (seq_uploads d) (transactions d) (seq_transactions d) (quotas d) (seq_quotas d) (users d) (groups d) (group_members d) (api_tokens d) (cache_purge_log d) (seq_purge d) (file_tags d) (collection_files d) v (config_audit d) (wallets d) (seq_wallets d) (oidc_providers d) (now d) (faults d).
Definition set_wallets (v : list Wallet) (d : Db) : Db :=
  mkDb (uploads d) (seq_uploads d) (transactions d) (seq_transactions d) (quotas d) (seq_quotas d) (users d) (groups d) (group_members d) (api_tokens d) (cache_purge_log d) (seq_purge d) (file_tags d) (collection_files d) (settings d) (config_audit d) v (seq_wallets d) (oidc_providers d) (now d) (faults d).
Definition set_config_audit (v : list ConfigAudit) (d : Db) : Db :=
  mkDb (uploads d) (seq_uploads d) (transactions d) (seq_transactions d) (quotas d) (seq_quotas d) (users d) (groups d) (group_members d) (api_tokens d) (cache_purge_log d) (seq_purge d) (file_tags d) (collection_files d) (settings d) v (wallets d) (seq_wallets d) (oidc_providers d) (now d) (faults d).
Definition set_seq_wallets (v : Z) (d : Db) : Db :=
  mkDb (uploads d) (seq_uploads d) (transactions d) (seq_transactions d) (quotas d) (seq_quotas d) (users d) (groups d) (group_members d) (api_tokens d) (cache_purge_log d) (seq_purge d) (file_tags d) (collection_files d) (settings d) (config_audit d) (wallets d) v (oidc_providers d) (now d) (faults d).
Definition set_oidc_providers (v : list (Z * string)) (d : Db) : Db :=
  mkDb (uploads d) (seq_uploads d) (transactions d) (seq_transactions d) (quotas d) (seq_quotas d) (users d) (groups d) (group_members d) (api_tokens d) (cache_purge_log d) (seq_purge d) (file_tags d) (collection_files d) (settings d) (config_audit d) (wallets d) (seq_wallets d) v (now d) (faults d).
Definition set_now (v : Z) (d : Db) : Db :=
  mkDb (uploads d) (seq_uploads d) (transactions d) (seq_transactions d) (quotas d) (seq_quotas d) (users d) (groups d) (group_members d) (api_tokens d) (cache_purge_log d) (seq_purge d) (file_tags d) (collection_files d) (settings d) (config_audit d) (wallets d) (seq_wallets d) (oidc_providers d) v (faults d).
Definition set_faults (v : list (option string)) (d : Db) : Db :=
  mkDb (uploads d) (seq_uploads d) (transactions d) (seq_transactions d) (quotas d) (seq_quotas d) (users d) (groups d) (group_members d) (api_tokens d) (cache_purge_log d) (seq_purge d) (file_tags d) (collection_files d) (settings d) (config_audit d) (wallets d) (seq_wallets d) (oidc_providers d) (now d) v.


(** ** Statements *)

Abbreviation DbM := (ST error Db).

Definition second : Z := 1000000000.

(** [CURRENT_TIMESTAMP]. *)
Definition current_timestamp (d : Db) : Z := now d / second.

(** One round trip to the database. *)
Definition stmt : DbM unit := fun d =>
  match faults d with
  | [] => (Ok tt, d)
  | None :: fs => (Ok tt, set_faults fs d)
  | Some e :: fs => (Err (ENew e), set_faults fs d)
  end.

(** A read: [QueryRow] or [Query] of a total expression. *)
Definition query {A} (f : Db -> A) : DbM A := stmt ;; gets f.

(** [QueryRow(...).Scan] of at most one row: no row is [sql.ErrNoRows]. *)
Definition query_row {A} (f : Db -> option A) : DbM A :=
  r ← query f; of_result (match r with Some a => Ok a | None => Err (ESentinel ErrNoRows) end).

(** A write that cannot violate a constraint. *)
Definition exec (f : Db -> Db) : DbM unit := stmt ;; modify f.

(** [UPDATE uploads SET f WHERE p], returning [RowsAffected]. *)
Definition exec_uploads (p : Upload -> bool) (f : Db -> Upload -> Upload) : DbM Z :=
  stmt ;; n ← gets (fun d => affected p (uploads d));
  modify (fun d => set_uploads (update p (f d) (uploads d)) d) ;; mret n.

(** Undo the writes of a transaction: the tables go back, the fault schedule
    does not. *)
Definition rollback (before after : Db) : Db := set_faults (faults after) before.

(** How the body of a transaction leaves: to [Commit], or by a plain return
    that lets the deferred [Rollback] run. *)
Inductive tx_exit (A : Type) :=
| Commit (a : A)
| Abandon (a : A).
Arguments Commit {A} _.
Arguments Abandon {A} _.

Definition finish_tx {A} (body : DbM (tx_exit A)) : DbM A := fun d =>
  match body d with
  | (Ok (Commit a), d') =>
      match stmt d' with
      | (Ok _, d'') => (Ok a, d'')
      | (Err e, d'') => (Err e, rollback d d'')
      end
  | (Ok (Abandon a), d') => (Ok a, rollback d d')
  | (Err e, d') => (Err e, rollback d d')
  end.

(** [Begin], the body, [Commit] or [Rollback]. *)
Definition in_tx {A} (body : DbM (tx_exit A)) : DbM A := stmt ;; finish_tx body.

(** ** Facts about statements *)

(** Same tables and clock: only the fault schedule may have advanced. *)
Definition same_data (d d' : Db) : Prop := d' = set_faults (faults d') d.

#[export] Instance same_data_preorder : PreOrder same_data.
Proof.
  split.
  - intros d. by destruct d.
  - intros d1 d2 d3 H12 H23. unfold same_data in *. rewrite H23, H12. done.
Qed.

Lemma stmt_same d r d' : stmt d = (r, d') -> same_data d d'.
Proof.
  unfold stmt, same_data. destruct (faults d) as [|[m|] fs] eqn:E;
    intros [= <- <-]; destruct d; cbn in *; by subst.
Qed.

(** A relation between databases that the fault schedule does not affect. *)
Class FaultBlind (R : Db -> Db -> Prop) : Prop := fault_blind : forall d fs, R d (set_faults fs d).

#[export] Instance same_data_fault_blind : FaultBlind same_data.
Proof. intros d fs. unfold same_data. by destruct d. Qed.

Section steps.
Context (R : Db -> Db -> Prop) `{!PreOrder R} `{!FaultBlind R}.

Lemma steps_stmt : steps R stmt.
Proof.
  intros d. destruct (stmt d) as [r d'] eqn:E. apply stmt_same in E. cbn.
  rewrite E. apply fault_blind.
Qed.

Lemma steps_query {A} (f : Db -> A) : steps R (query f).
Proof. unfold query. eauto using steps_stmt with steps_db typeclass_instances. Qed.

Lemma steps_query_row {A} (f : Db -> option A) : steps R (query_row f).
Proof. unfold query_row. eauto using steps_query with steps_db typeclass_instances. Qed.

Lemma steps_exec (f : Db -> Db) : (forall d, R d (f d)) -> steps R (exec f).
Proof.
  intros Hf. unfold exec. apply steps_bind; [done|apply steps_stmt|intros _].
  apply steps_modify; auto.
Qed.

Lemma steps_exec_uploads p f :
  (forall d, R d (set_uploads (update p (f d) (uploads d)) d)) -> steps R (exec_uploads p f).
Proof.
  intros Hf. unfold exec_uploads.
  apply steps_bind; [done|apply steps_stmt|intros _].
  apply steps_bind; [done|apply steps_gets; done|intros n].
  apply steps_bind; [done|apply steps_modify; auto|intros _]. by apply steps_ret.
Qed.

Lemma steps_in_tx {A} (body : DbM (tx_exit A)) : steps R body -> steps R (in_tx body).
Proof.
  intros Hb. unfold in_tx. apply steps_bind; [done|apply steps_stmt|intros _].
  intros d. specialize (Hb d). unfold finish_tx.
  destruct (body d) as [[[a|a]|e] d']; cbn in *; try apply fault_blind.
  destruct (stmt d') as [[[]|e] d''] eqn:E; cbn; [|apply fault_blind].
  etransitivity; [exact Hb|]. apply stmt_same in E. rewrite E. apply fault_blind.
Qed.
End steps.

#[export] Hint Resolve steps_stmt steps_query steps_query_row steps_in_tx : steps_db.

Lemma stmt_cases d :
  (exists fs, stmt d = (Ok tt, set_faults fs d)) \/ (exists e fs, stmt d = (Err (ENew e), set_faults fs d)).
Proof.
  unfold stmt. destruct (faults d) as [|[e|] fs] eqn:E; eauto.
  left. exists []. destruct d; cbn in *; by subst.
Qed.

Lemma stmt_ok d x d' : stmt d = (Ok x, d') -> exists fs, d' = set_faults fs d.
Proof. destruct (stmt_cases d) as [[fs ->]|(e & fs & ->)]; intros [= _ <-]; eauto. Qed.

Lemma query_ok {A} (f : Db -> A) d a d' : query f d = (Ok a, d') ->
  exists fs, d' = set_faults fs d /\ a = f d'.
Proof.
  unfold query. intros Hrun. apply bind_ok in Hrun as ([] & d1 & Hs & Hrun).
  apply stmt_ok in Hs as (fs & ->). injection Hrun as <- <-. eauto.
Qed.

Lemma query_row_ok {A} (f : Db -> option A) d a d' : query_row f d = (Ok a, d') ->
  exists fs, f (set_faults fs d) = Some a /\ d' = set_faults fs d.
Proof.
  unfold query_row. intros Hrun. apply bind_ok in Hrun as (o & d1 & Hq & Hrun).
  apply query_ok in Hq as (fs & -> & ->). exists fs. unfold of_result in Hrun.
  destruct (f _); [|done]. injection Hrun as <- <-. done.
Qed.

Lemma exec_ok (f : Db -> Db) d x d' : exec f d = (Ok x, d') -> exists fs, d' = f (set_faults fs d).
Proof.
  unfold exec. intros Hrun. apply bind_ok in Hrun as ([] & d1 & Hs & Hrun).
  apply stmt_ok in Hs as (fs & ->). injection Hrun as _ <-. eauto.
Qed.

(** A read of one row fails with [sql.ErrNoRows] exactly when there is none. *)
Lemma query_row_err {A} (f : Db -> option A) d e d' : query_row f d = (Err e, d') ->
  exists fs, d' = set_faults fs d /\
    ((e = ESentinel ErrNoRows /\ f (set_faults fs d) = None) \/ exists m, e = ENew m).
Proof.
  unfold query_row, query, mbind, ST_bind, gets, of_result.
  destruct (stmt_cases d) as [[fs ->]|(m & fs & ->)].
  - destruct (f (set_faults fs d)) eqn:E; intros [= <- <-]. exists fs. auto.
  - intros [= <- <-]. eauto 10.
Qed.

(** Execute the statements of a handler one at a time, both outcomes each. *)
Ltac db_cases :=
  repeat (cbn; match goal with
  | |- context [stmt ?d] =>
      let fs := fresh "fs" in let e := fresh "e" in
      destruct (stmt_cases d) as [[fs ->]|(e & fs & ->)]
  end); cbn.

(** No statement fails. *)
Definition healthy (d : Db) : Prop := faults d = [].

Lemma stmt_healthy d : healthy d -> stmt d = (Ok tt, d).
Proof. unfold healthy, stmt. by intros ->. Qed.

(** Execute the statements of a handler on a healthy database. *)
Ltac db_healthy H := repeat (cbn; rewrite (stmt_healthy _ H)); cbn.

(** *** Runs of transactions and statements *)

Section run.
Context {A : Type}.
Implicit Types (body : DbM (tx_exit A)).

(** A transaction that fails leaves every table as it was. *)
Lemma in_tx_err body d e d' : in_tx body d = (Err e, d') -> same_data d d'.
Proof.
  unfold in_tx, mbind, ST_bind. destruct (stmt_cases d) as [[fs ->]|(e0 & fs & ->)].
  - unfold finish_tx, rollback. destruct (body _) as [[[a|a]|e1] d1].
    + destruct (stmt d1) as [[[]|e2] d2]; intros [= _ <-]. by destruct d.
    + by intros [= _ _].
    + intros [= _ <-]. by destruct d.
  - intros [= _ <-]. by destruct d.
Qed.

Lemma in_tx_ok body d a d' : in_tx body d = (Ok a, d') ->
  (exists fs d1, body (set_faults fs d) = (Ok (Commit a), d1) /\ same_data d1 d')
  \/ (exists fs d1, body (set_faults fs d) = (Ok (Abandon a), d1) /\ same_data d d').
Proof.
  unfold in_tx, mbind, ST_bind. destruct (stmt_cases d) as [[fs ->]|(e0 & fs & ->)]; [|done].
  unfold finish_tx, rollback. destruct (body _) as [[[b|b]|e1] d1] eqn:Eb; [| |done].
  - destruct (stmt d1) as [[[]|e2] d2] eqn:E2; intros [= <- <-].
    left. eexists _, _. split; [done|]. by eapply stmt_same.
  - intros [= <- <-]. right. eexists _, _. split; [done|]. by destruct d.
Qed.
End run.

(** What an UPDATE on uploads can do. *)
Lemma exec_uploads_cases p f d :
  (exists fs, exec_uploads p f d = (Ok (affected p (uploads d)),
     set_uploads (update p (f (set_faults fs d)) (uploads d)) (set_faults fs d)))
  \/ (exists e fs, exec_uploads p f d = (Err (ENew e), set_faults fs d)).
Proof. unfold exec_uploads, mbind, ST_bind. db_cases; eauto. Qed.

Lemma query_healthy {A} (f : Db -> A) d : healthy d -> query f d = (Ok (f d), d).
Proof. intros H. unfold query, mbind, ST_bind, gets. by rewrite (stmt_healthy d H). Qed.

Lemma exec_uploads_healthy p f d : healthy d ->
  exec_uploads p f d = (Ok (affected p (uploads d)), set_uploads (update p (f d) (uploads d)) d).
Proof.
  intros H. unfold exec_uploads, mbind, ST_bind, gets, modify. by rewrite (stmt_healthy d H).
Qed.
