(* ===== verification/Stmt.v ===== *)
(** * Statements over the tables of one component

    The components beside the upload pipeline own their tables alone. Their
    state is a record of tables with the schedule of statement outcomes beside
    it, as in Schema; here the statements are generic in that record. *)

From S2P Require Import Prelude GoLib Sql.

Record World (T : Type) := mkWorld {
  tables : T;
  sched : list (option string);  (* outcome of the next statements *)
}.
Arguments mkWorld {T} _ _.
Arguments tables {T} _.
Arguments sched {T} _.

(** CHECK, UNIQUE and FOREIGN KEY, in the order SQLite tests them. *)
Definition constrained {A} (check unique fk : bool) (ok : A) : result error A :=
  if negb check then Err (ESentinel ErrCheckViolation) else
  if negb unique then Err (ESentinel ErrUniqueViolation) else
  if negb fk then Err (ESentinel ErrForeignKey) else Ok ok.

Lemma constrained_ok {A} c u f (x y : A) : constrained c u f x = Ok y -> x = y /\ c = true /\ u = true /\ f = true.
Proof. unfold constrained. by destruct c, u, f; intros [= <-]. Qed.

Section stmt.
Context {T : Type}.
Implicit Types (w : World T).

Abbreviation M := (ST error (World T)).

Definition set_tables (t : T) w : World T := mkWorld t (sched w).
Definition set_sched (l : list (option string)) w : World T := mkWorld (tables w) l.

(** One round trip to the database. *)
Definition round_trip : M unit := fun w =>
  match sched w with
  | [] => (Ok tt, w)
  | None :: l => (Ok tt, set_sched l w)
  | Some e :: l => (Err (ENew e), set_sched l w)
  end.

Definition read {A} (f : T -> A) : M A := round_trip ;; gets (fun w => f (tables w)).

(** [QueryRow(...).Scan]: no row is [sql.ErrNoRows]. *)
Definition read_row {A} (f : T -> option A) : M A :=
  r ← read f; of_result (match r with Some a => Ok a | None => Err (ESentinel ErrNoRows) end).

Definition write (f : T -> T) : M unit := round_trip ;; modify (fun w => set_tables (f (tables w)) w).

(** A write with its [RowsAffected] or [LastInsertId]. *)
Definition write_ret {A} (f : T -> A * T) : M A :=
  round_trip ;; w ← get; modify (set_tables (snd (f (tables w)))) ;; mret (fst (f (tables w))).

(** A write that a constraint may refuse. *)
Definition write_if {A} (f : T -> result error (A * T)) : M A :=
  round_trip ;; w ← get;
  match f (tables w) with
  | Ok (a, t) => modify (set_tables t) ;; mret a
  | Err e => fail e
  end.

(** [Begin], the body, [Commit]; an error rolls the tables back. *)
Definition finish_body {A} (body : M A) : M A := fun w =>
  match body w with
  | (Ok a, w1) =>
      match round_trip w1 with
      | (Ok _, w2) => (Ok a, w2)
      | (Err e, w2) => (Err e, set_tables (tables w) w2)
      end
  | (Err e, w1) => (Err e, set_tables (tables w) w1)
  end.

Definition transact {A} (body : M A) : M A := round_trip ;; finish_body body.

(** ** Rules *)

Definition on_tables (R : T -> T -> Prop) w w' : Prop := R (tables w) (tables w').

#[export] Instance on_tables_preorder (R : T -> T -> Prop) : PreOrder R -> PreOrder (on_tables R).
Proof.
  intros H. split; unfold on_tables; [by intros w|]. intros a b c. by etransitivity.
Qed.

Lemma round_trip_cases w :
  (exists l, round_trip w = (Ok tt, set_sched l w)) \/ (exists e l, round_trip w = (Err (ENew e), set_sched l w)).
Proof.
  unfold round_trip. destruct w as [t [|[e|] l]]; cbn; [by left; exists []|eauto..].
Qed.

Lemma round_trip_healthy w : sched w = [] -> round_trip w = (Ok tt, w).
Proof. unfold round_trip. by intros ->. Qed.

Lemma read_healthy {A} (f : T -> A) w : sched w = [] -> read f w = (Ok (f (tables w)), w).
Proof. intros H. unfold read, mbind, ST_bind. by rewrite round_trip_healthy. Qed.

Lemma read_row_healthy {A} (f : T -> option A) w : sched w = [] ->
  read_row f w = (match f (tables w) with Some a => Ok a | None => Err (ESentinel ErrNoRows) end, w).
Proof. intros H. unfold read_row, mbind, ST_bind. by rewrite read_healthy. Qed.

Lemma write_healthy (f : T -> T) w : sched w = [] -> write f w = (Ok tt, set_tables (f (tables w)) w).
Proof. intros H. unfold write, mbind, ST_bind. by rewrite round_trip_healthy. Qed.

Lemma write_ret_healthy {A} (f : T -> A * T) w : sched w = [] ->
  write_ret f w = (Ok (fst (f (tables w))), set_tables (snd (f (tables w))) w).
Proof. intros H. unfold write_ret, mbind, ST_bind. by rewrite round_trip_healthy. Qed.

Lemma write_if_healthy {A} (f : T -> result error (A * T)) w : sched w = [] ->
  write_if f w = match f (tables w) with Ok (a, t) => (Ok a, set_tables t w) | Err e => (Err e, w) end.
Proof.
  intros H. unfold write_if, mbind, ST_bind. rewrite round_trip_healthy by done. cbn. by destruct (f (tables w)) as [[a t]|e].
Qed.

(** What a statement did: nothing to the tables when it failed. *)
Lemma read_run {A} (f : T -> A) w r w' : read f w = (r, w') ->
  tables w' = tables w /\ (r = Ok (f (tables w)) \/ exists e, r = Err (ENew e)).
Proof.
  unfold read, mbind, ST_bind. destruct (round_trip_cases w) as [[l ->]|(e & l & ->)]; intros [= <- <-]; eauto.
Qed.

Lemma read_row_run {A} (f : T -> option A) w r w' : read_row f w = (r, w') ->
  tables w' = tables w /\
  match f (tables w) with Some a => r = Ok a | None => r = Err (ESentinel ErrNoRows) end \/
  tables w' = tables w /\ exists e, r = Err (ENew e).
Proof.
  unfold read_row, mbind, ST_bind. destruct (read f w) as [x w1] eqn:E.
  apply read_run in E as [Ht [->|[e ->]]].
  - intros [= <- <-]. left. split; [done|]. by destruct (f (tables w)).
  - intros [= <- <-]. right. eauto.
Qed.

Lemma write_run (f : T -> T) w r w' : write f w = (r, w') ->
  (r = Ok tt /\ tables w' = f (tables w)) \/ (exists e, r = Err (ENew e) /\ tables w' = tables w).
Proof.
  unfold write, mbind, ST_bind. destruct (round_trip_cases w) as [[l ->]|(e & l & ->)]; intros [= <- <-]; eauto.
Qed.

Lemma write_ret_run {A} (f : T -> A * T) w r w' : write_ret f w = (r, w') ->
  (r = Ok (fst (f (tables w))) /\ tables w' = snd (f (tables w))) \/
  (exists e, r = Err (ENew e) /\ tables w' = tables w).
Proof.
  unfold write_ret, mbind, ST_bind. destruct (round_trip_cases w) as [[l ->]|(e & l & ->)]; intros [= <- <-]; eauto.
Qed.

Lemma write_if_run {A} (f : T -> result error (A * T)) w r w' : write_if f w = (r, w') ->
  (exists a, r = Ok a /\ f (tables w) = Ok (a, tables w')) \/ (exists e, r = Err e /\ tables w' = tables w).
Proof.
  unfold write_if, mbind, ST_bind, get. destruct (round_trip_cases w) as [[l ->]|(e & l & ->)]; [|intros [= <- <-]; eauto].
  cbn. destruct (f (tables w)) as [[a t]|e] eqn:E; intros [= <- <-]; eauto.
Qed.

(** A transaction that fails leaves the tables as they were. *)
Lemma transact_err {A} (body : M A) w e w' : transact body w = (Err e, w') -> tables w' = tables w.
Proof.
  unfold transact, finish_body, mbind, ST_bind. destruct (round_trip_cases w) as [[l ->]|(e1 & l & ->)]; [|by intros [= _ <-]].
  destruct (body _) as [[a|e1] w1]; [|by intros [= _ <-]].
  destruct (round_trip_cases w1) as [[l1 ->]|(e1 & l1 & ->)]; [done|by intros [= _ <-]].
Qed.

Lemma transact_ok {A} (body : M A) w a w' : transact body w = (Ok a, w') ->
  exists l w1, body (set_sched l w) = (Ok a, w1) /\ tables w' = tables w1.
Proof.
  unfold transact, finish_body, mbind, ST_bind. destruct (round_trip_cases w) as [[l ->]|(e1 & l & ->)]; [|done].
  destruct (body (set_sched l w)) as [[a'|e1] w1] eqn:E; [|done].
  destruct (round_trip_cases w1) as [[l1 ->]|(e1 & l1 & ->)]; [|done]. intros [= <- <-]. eauto.
Qed.

Lemma transact_healthy {A} (body : M A) w a w1 : sched w = [] -> body w = (Ok a, w1) -> sched w1 = [] ->
  transact body w = (Ok a, w1).
Proof.
  intros H Hb H1. unfold transact, finish_body, mbind, ST_bind. rewrite round_trip_healthy by done. cbn.
  by rewrite Hb, round_trip_healthy.
Qed.

Section steps.
Context (R : T -> T -> Prop) `{!PreOrder R}.

Lemma steps_round_trip : steps (on_tables R) round_trip.
Proof.
  intros w. destruct (round_trip_cases w) as [[l ->]|(e & l & ->)]; unfold on_tables; cbn; reflexivity.
Qed.

Lemma steps_read {A} (f : T -> A) : steps (on_tables R) (read f).
Proof. intros w. destruct (read f w) eqn:E. apply read_run in E as [E _]. unfold on_tables. cbn. by rewrite E. Qed.

Lemma steps_read_row {A} (f : T -> option A) : steps (on_tables R) (read_row f).
Proof. unfold read_row. eauto using steps_read with steps_db typeclass_instances. Qed.

Lemma steps_write (f : T -> T) : (forall t, R t (f t)) -> steps (on_tables R) (write f).
Proof.
  intros Hf w. destruct (write f w) eqn:E. apply write_run in E as [[_ E]|(e & _ & E)]; unfold on_tables; cbn; by rewrite E.
Qed.

Lemma steps_write_ret {A} (f : T -> A * T) : (forall t, R t (snd (f t))) -> steps (on_tables R) (write_ret f).
Proof.
  intros Hf w. destruct (write_ret f w) eqn:E.
  apply write_ret_run in E as [[_ E]|(e & _ & E)]; unfold on_tables; cbn; by rewrite E.
Qed.

Lemma steps_write_if {A} (f : T -> result error (A * T)) :
  (forall t a t', f t = Ok (a, t') -> R t t') -> steps (on_tables R) (write_if f).
Proof.
  intros Hf w. destruct (write_if f w) as [r w'] eqn:E. unfold on_tables. cbn.
  apply write_if_run in E as [(a & _ & E)|(e & _ & E)]; [by eapply Hf|by rewrite E].
Qed.

Lemma steps_transact {A} (body : M A) : steps (on_tables R) body -> steps (on_tables R) (transact body).
Proof.
  intros Hb w. destruct (transact body w) as [[a|e] w'] eqn:E; unfold on_tables; cbn.
  - apply transact_ok in E as (l & w1 & Hbody & ->).
    change (tables w) with (tables (set_sched l w)). specialize (Hb (set_sched l w)). by rewrite Hbody in Hb.
  - by rewrite (transact_err _ _ _ _ E).
Qed.
End steps.
End stmt.

#[export] Hint Resolve steps_round_trip steps_read steps_read_row steps_transact : steps_db.

(** ** Tables as a reader sees them

    A table of some state: its rows, and SELECT statements over them. *)

Record Table (S A : Type) := mkTable {
  rows_of : S -> list A;
  scan : forall X, (list A -> X) -> ST error S X;
  answers : S -> Prop;  (* no statement fails *)
  scan_run : forall X (f : list A -> X) s r s', scan X f s = (r, s') ->
    rows_of s' = rows_of s /\ (r = Ok (f (rows_of s)) \/ exists e, r = Err e);
  scan_answers : forall X (f : list A -> X) s, answers s -> scan X f s = (Ok (f (rows_of s)), s);
}.
Arguments mkTable {S A} _ _ _ _ _.
Arguments rows_of {S A} _ _.
Arguments scan {S A} _ {X} _ _.
Arguments answers {S A} _ _.
Arguments scan_run {S A} _ {X} _ _ _ _ _.
Arguments scan_answers {S A} _ {X} _ _ _.

Section tables.
Context {T A : Type} (f : T -> list A).

Lemma world_scan_run X (g : list A -> X) w r w' : read (fun t => g (f t)) w = (r, w') ->
  f (tables w') = f (tables w) /\ (r = Ok (g (f (tables w))) \/ exists e, r = Err e).
Proof. intros H. apply read_run in H as [-> [->|[e ->]]]; eauto. Qed.

Lemma world_scan_answers X (g : list A -> X) w : sched w = [] -> read (fun t => g (f t)) w = (Ok (g (f (tables w))), w).
Proof. apply (read_healthy (fun t => g (f t))). Qed.

Definition world_table : Table (World T) A :=
  mkTable (fun w => f (tables w)) (fun X g => read (fun t => g (f t))) (fun w => sched w = []) world_scan_run world_scan_answers.
End tables.

(** SELECT statements do not write. *)
Lemma steps_scan {T A X} (R : T -> T -> Prop) `{!PreOrder R} (f : T -> list A) (g : list A -> X) :
  steps (on_tables R) (scan (world_table f) g).
Proof. unfold world_table. cbn. by apply steps_read. Qed.

#[export] Hint Resolve steps_scan : steps_db.
