(* ===== verification/Clock.v ===== *)
(** * Timestamps as text

    SQLite keeps [datetime('now')] as the text YYYY-MM-DD HH:MM:SS and compares
    it with a bound parameter byte by byte. Here are civil date-times (UTC),
    the layouts the services format them with, and how the texts compare. *)

From S2P Require Import Prelude GoLib.
From Stdlib Require Import Ascii String.

#[local] Ltac Zify.zify_post_hook ::= Z.to_euclidean_division_equations.

(** ** Text comparison *)

Lemma compare_app a b x y : String.length a = String.length b ->
  String.compare (a +:+ x) (b +:+ y) =
  match String.compare a b with Eq => String.compare x y | c => c end.
Proof.
  revert b. induction a as [|c a IH]; intros [|d b]; try done. intros [= Hl].
  change (String c a +:+ x) with (String c (a +:+ x)). change (String d b +:+ y) with (String d (b +:+ y)).
  cbn [String.compare]. destruct (Ascii.compare c d); [by apply IH|done..].
Qed.

Lemma compare_refl a : String.compare a a = Eq.
Proof. induction a as [|c a IH]; [done|]. cbn. unfold Ascii.compare. by rewrite N.compare_refl. Qed.

(** Byte order on texts, as SQL's [<] and [<=]. *)
Definition text_lt (a b : string) : bool := match String.compare a b with Lt => true | _ => false end.
Definition text_le (a b : string) : bool := match String.compare a b with Gt => false | _ => true end.

Ltac cmp_close :=
  first [apply Z.compare_eq_iff|apply Z.compare_lt_iff|apply Z.compare_gt_iff]; lia.

(** ** Digits *)

Definition pad2 (n : Z) : string := String (digit_char (n / 10)) (String (digit_char (n mod 10)) EmptyString).
Definition pad4 (n : Z) : string := pad2 (n / 100) +:+ pad2 (n mod 100).

Lemma digit_compare a b : 0 <= a <= 9 -> 0 <= b <= 9 -> Ascii.compare (digit_char a) (digit_char b) = Z.compare a b.
Proof.
  intros Ha Hb. unfold Ascii.compare, digit_char. rewrite !N_ascii_embedding by lia.
  rewrite Z2N.inj_compare by lia. rewrite !Z.add_compare_mono_l. done.
Qed.

Lemma pad2_compare a b : 0 <= a < 100 -> 0 <= b < 100 -> String.compare (pad2 a) (pad2 b) = Z.compare a b.
Proof.
  intros Ha Hb. unfold pad2. cbn [String.compare].
  rewrite !digit_compare by lia.
  destruct (Z.compare_spec (a / 10) (b / 10)), (Z.compare_spec (a mod 10) (b mod 10)); symmetry;
    cmp_close.
Qed.

Lemma pad4_compare a b : 0 <= a < 10000 -> 0 <= b < 10000 -> String.compare (pad4 a) (pad4 b) = Z.compare a b.
Proof.
  intros Ha Hb. unfold pad4. rewrite compare_app by done. rewrite !pad2_compare by lia.
  destruct (Z.compare_spec (a / 100) (b / 100)), (Z.compare_spec (a mod 100) (b mod 100)); symmetry;
    cmp_close.
Qed.

(** ** Civil date-times *)

Record Civil := mkCivil {
  c_year : Z; c_month : Z; c_day : Z;
  c_hour : Z; c_min : Z; c_sec : Z;
}.

#[export] Instance civil_eq_dec : EqDecision Civil.
Proof. solve_decision. Defined.

Definition civil_ok (c : Civil) : Prop :=
  0 <= c_year c < 10000 /\ 1 <= c_month c <= 12 /\ 1 <= c_day c <= 31 /\
  0 <= c_hour c < 24 /\ 0 <= c_min c < 60 /\ 0 <= c_sec c < 60.

Definition date_text (c : Civil) : string :=
  pad4 (c_year c) +:+ "-" +:+ pad2 (c_month c) +:+ "-" +:+ pad2 (c_day c).
Definition time_text (c : Civil) : string :=
  pad2 (c_hour c) +:+ ":" +:+ pad2 (c_min c) +:+ ":" +:+ pad2 (c_sec c).

(** [datetime('now')] and the layout "2006-01-02 15:04:05". *)
Definition db_text (c : Civil) : string := date_text c +:+ " " +:+ time_text c.
(** The layout "2006-01-02T15:04:05" of the log and upload filters. *)
Definition iso_text (c : Civil) : string := date_text c +:+ "T" +:+ time_text c.

(** Calendar order. *)
Definition date_num (c : Civil) : Z := (c_year c * 100 + c_month c) * 100 + c_day c.
Definition time_num (c : Civil) : Z := (c_hour c * 100 + c_min c) * 100 + c_sec c.
Definition civil_num (c : Civil) : Z := date_num c * 1000000 + time_num c.

Lemma date_text_compare a b : civil_ok a -> civil_ok b ->
  String.compare (date_text a) (date_text b) = Z.compare (date_num a) (date_num b).
Proof.
  intros Ha Hb. unfold civil_ok in *. unfold date_text, date_num. rewrite compare_app by done.
  rewrite pad4_compare by lia. rewrite (compare_app "-" "-") by done. cbn [String.compare].
  change (Ascii.compare "-" "-") with Eq. cbn match. rewrite compare_app by done. rewrite pad2_compare by lia.
  rewrite (compare_app "-" "-") by done. rewrite (compare_refl "-"), pad2_compare by lia.
  destruct (Z.compare_spec (c_year a) (c_year b)), (Z.compare_spec (c_month a) (c_month b)),
    (Z.compare_spec (c_day a) (c_day b)); symmetry;
    cmp_close.
Qed.

Lemma time_text_compare a b : civil_ok a -> civil_ok b ->
  String.compare (time_text a) (time_text b) = Z.compare (time_num a) (time_num b).
Proof.
  intros Ha Hb. unfold civil_ok in *. unfold time_text, time_num. rewrite compare_app by done.
  rewrite pad2_compare by lia. rewrite (compare_app ":" ":"), (compare_refl ":") by done.
  rewrite compare_app by done. rewrite pad2_compare by lia.
  rewrite (compare_app ":" ":"), (compare_refl ":"), pad2_compare by done || lia.
  destruct (Z.compare_spec (c_hour a) (c_hour b)), (Z.compare_spec (c_min a) (c_min b)),
    (Z.compare_spec (c_sec a) (c_sec b)); symmetry;
    cmp_close.
Qed.

Lemma stamp_compare sa sb a b : civil_ok a -> civil_ok b ->
  String.compare (date_text a +:+ String sa EmptyString +:+ time_text a)
    (date_text b +:+ String sb EmptyString +:+ time_text b) =
  match Z.compare (date_num a) (date_num b) with
  | Eq => match Ascii.compare sa sb with Eq => Z.compare (time_num a) (time_num b) | c => c end
  | c => c
  end.
Proof.
  intros Ha Hb. rewrite compare_app by done. rewrite date_text_compare by done.
  rewrite (compare_app (String sa "") (String sb "")) by done. cbn [String.compare].
  destruct (Ascii.compare sa sb); by rewrite ?time_text_compare.
Qed.

Lemma time_num_range c : civil_ok c -> 0 <= time_num c < 1000000.
Proof. unfold civil_ok, time_num. lia. Qed.

(** Same layout: calendar order. *)
Lemma db_text_lt a b : civil_ok a -> civil_ok b -> text_lt (db_text a) (db_text b) = (civil_num a <? civil_num b).
Proof.
  intros Ha Hb. unfold text_lt, db_text. rewrite (stamp_compare " " " ") by done.
  pose proof (time_num_range a Ha). pose proof (time_num_range b Hb). unfold civil_num.
  change (Ascii.compare " " " ") with Eq. cbn match.
  destruct (Z.compare_spec (date_num a) (date_num b)), (Z.compare_spec (time_num a) (time_num b));
    symmetry; first [apply Z.ltb_lt|apply Z.ltb_ge]; lia.
Qed.

(** A stored text against the ISO layout: only the dates count, and on the same
    day the stored text is the smaller. *)
Lemma since_text a b : civil_ok a -> civil_ok b ->
  text_le (iso_text b) (db_text a) = (date_num b <? date_num a).
Proof.
  intros Ha Hb. unfold text_le, iso_text, db_text. rewrite (stamp_compare "T" " ") by done.
  change (Ascii.compare "T" " ") with Gt.
  destruct (Z.compare_spec (date_num b) (date_num a)); symmetry; first [apply Z.ltb_lt|apply Z.ltb_ge]; lia.
Qed.

Lemma until_text a b : civil_ok a -> civil_ok b ->
  text_le (db_text a) (iso_text b) = (date_num a <=? date_num b).
Proof.
  intros Ha Hb. unfold text_le, iso_text, db_text. rewrite (stamp_compare " " "T") by done.
  change (Ascii.compare " " "T") with Lt.
  destruct (Z.compare_spec (date_num a) (date_num b)); symmetry; first [apply Z.leb_le|apply Z.leb_gt]; lia.
Qed.

(** ** From a number of seconds *)

(** The calendar day of a number of days since 1970-01-01, counted in eras of
    400 years that begin on the first of March. *)
Definition civil_of_days (days : Z) : Z * Z * Z :=
  let z := days + 719468 in
  let era := z / 146097 in
  let doe := z - era * 146097 in
  let yoe := (doe - doe / 1460 + doe / 36524 - doe / 146096) / 365 in
  let doy := doe - (365 * yoe + yoe / 4 - yoe / 100) in
  let mp := (5 * doy + 2) / 153 in
  let d := doy - (153 * mp + 2) / 5 + 1 in
  let m := if mp <? 10 then mp + 3 else mp - 9 in
  (yoe + era * 400 + (if m <=? 2 then 1 else 0), m, d).

Definition civil_of (seconds : Z) : Civil :=
  let '(y, m, d) := civil_of_days (seconds / 86400) in
  let s := seconds mod 86400 in
  mkCivil y m d (s / 3600) (s / 60 mod 60) (s mod 60).

(** ** A time of Go as SQLite's driver binds it

    [t.String()], in the zone of the server: date and time, the fraction of the
    second, the offset and the name of the zone, and what a monotonic clock read. *)

Record Zone := mkZone {
  z_east : Z;  (* seconds east of Greenwich *)
  z_rest : string;  (* the text after the fraction *)
}.

Fixpoint digits_of (k : nat) (n : Z) : string :=
  match k with O => EmptyString | S k => digits_of k (n / 10) +:+ String (digit_char (n mod 10)) EmptyString end.
Fixpoint drop_zeros (s : string) : string :=
  match s with
  | EmptyString => EmptyString
  | String c s => match drop_zeros s with
                  | EmptyString => if Ascii.eqb c "0" then EmptyString else String c EmptyString
                  | r => String c r
                  end
  end.

Definition nanoseconds : Z := 1000000000.

Definition time_String (z : Zone) (t : Z) : string :=
  let ns := t mod nanoseconds in
  db_text (civil_of (t / nanoseconds + z_east z)) +:+ (if ns =? 0 then "" else "." +:+ drop_zeros (digits_of 9 ns)) +:+ " " +:+ z_rest z.

Example bound_time : time_String (mkZone 7200 "+0200 CEST") (1690000000 * nanoseconds + 50000000) = "2023-07-22 06:26:40.05 +0200 CEST".
Proof. reflexivity. Qed.

Lemma db_text_compare a b : civil_ok a -> civil_ok b -> String.compare (db_text a) (db_text b) = Z.compare (civil_num a) (civil_num b).
Proof.
  intros Ha Hb. unfold db_text. rewrite (stamp_compare " " " ") by done.
  pose proof (time_num_range a Ha). pose proof (time_num_range b Hb). unfold civil_num.
  change (Ascii.compare " " " ") with Eq. cbn match.
  destruct (Z.compare_spec (date_num a) (date_num b)), (Z.compare_spec (time_num a) (time_num b)); symmetry; cmp_close.
Qed.

(** A stored second is before a bound time of the same second: its text is shorter. *)
Lemma db_text_before a z t : civil_ok a -> civil_ok (civil_of (t / nanoseconds + z_east z)) ->
  text_lt (db_text a) (time_String z t) = (civil_num a <=? civil_num (civil_of (t / nanoseconds + z_east z))).
Proof.
  intros Ha Hb. unfold text_lt, time_String.
  assert (exists c r, (if t mod nanoseconds =? 0 then "" else "." +:+ drop_zeros (digits_of 9 (t mod nanoseconds))) +:+ " " +:+ z_rest z = String c r)
    as (c & r & ->) by (destruct (t mod nanoseconds =? 0); cbn; eauto).
  rewrite <- (string_app_nil (db_text a)). rewrite compare_app by done. rewrite db_text_compare by done. cbn [String.compare].
  destruct (Z.compare_spec (civil_num a) (civil_num (civil_of (t / nanoseconds + z_east z)))); symmetry; first [apply Z.leb_le|apply Z.leb_gt]; lia.
Qed.
