(* ===== verification/UploadStore.v ===== *)
(** * The upload queue (src/internal/services/upload.go)

    Every operation of [UploadService] that changes a row, and the reads the
    worker, the download path and the cache sweeper use. *)

From S2P Require Import Prelude GoLib Sql Schema Hex.

(** ** Reading *)

(** [errors.Is(err, sql.ErrNoRows)] becomes a domain error. *)
Definition no_rows_as (e' : error) : error -> error :=
  fun e => if errors_is e ErrNoRows then e' else e.

Definition GetByID (id : Z) : DbM Upload :=
  map_err (no_rows_as (ESentinel ErrUploadNotFound)) (query_row (fun d => find_id id (uploads d))).

Definition GetByUUID (uid : string) : DbM Upload :=
  map_err (no_rows_as (ESentinel ErrUploadNotFound))
    (query_row (fun d => List.find (fun u => String.eqb (u_uuid u) uid) (uploads d))).

Definition clamp_limit (n : Z) : Z := if (n <=? 0) || (100 <? n) then 50 else n.

Definition created_desc (a b : Upload) : bool := u_created_at b <=? u_created_at a.

Definition page (n off : Z) (t : list Upload) : list Upload :=
  limit n (offset off (order_by created_desc t)).

Definition ListByUser (userID n off : Z) : DbM (list Upload * Z) :=
  let n := clamp_limit n in
  let mine := select (fun u => u_user_id u =? userID) in
  total ← query (fun d => affected (fun u => u_user_id u =? userID) (uploads d));
  rows ← query (fun d => page n off (mine (uploads d)));
  mret (rows, total).

Definition ListAll (n off : Z) : DbM (list Upload * Z) :=
  let n := clamp_limit n in
  total ← query (fun d => Z.of_nat (length (uploads d)));
  rows ← query (fun d => page n off (uploads d));
  mret (rows, total).

(** Cursor pagination. Going back reads upwards from the cursor and reverses. *)
Definition ListByUserCursor (userID n cursorID : Z) (forward : bool) : DbM (list Upload) :=
  let n := clamp_limit n in
  if forward then
    query (fun d => limit n (order_by (fun a b => u_id b <=? u_id a)
      (select (fun u => (u_user_id u =? userID) && (u_id u <? cursorID)) (uploads d))))
  else
    up ← query (fun d => limit n (order_by (fun a b => u_id a <=? u_id b)
      (select (fun u => (u_user_id u =? userID) && (cursorID <? u_id u)) (uploads d))));
    mret (rev up).

(** GROUP BY status: the statuses that occur, with their counts. *)
Definition CountByStatus : DbM (list (string * Z)) :=
  query (fun d =>
    List.filter (fun p => negb (snd p =? 0))
      (map (fun s => (status_str s, affected (fun u => bool_decide (u_status u = s)) (uploads d)))
        [Queued; Processing; Completed; Failed; AlreadyStored])).

Definition ListPrivatePublishCandidates (n : Z) : DbM (list Upload) :=
  query (fun d =>
    let rows := order_by (fun a b => u_id a <=? u_id b)
      (select (fun u => bool_decide (u_status u = Completed) && bool_decide (u_visibility u = Private)
        && bool_decide (u_datamap_address u = None)
        && match u_data_map u with Some m => negb (String.eqb m "") | None => false end) (uploads d)) in
    if 0 <? n then limit n rows else rows).

Definition StatusDetailPaidUnfinalized : string := "paid_unfinalized".
Definition StatusDetailPaymentUnconfirmed : string := "payment_unconfirmed".

Definition recoverable_detail (o : option string) : bool :=
  bool_decide (o = Some StatusDetailPaidUnfinalized) || bool_decide (o = Some StatusDetailPaymentUnconfirmed).

Definition nonempty (o : option string) : bool :=
  match o with Some s => negb (String.eqb s "") | None => false end.

(** The row's temp file must survive the temp-file collector. *)
Definition temp_active (u : Upload) : bool :=
  nonempty (u_temp_path u) &&
  (bool_decide (u_status u = Queued) || bool_decide (u_status u = Processing)
   || recoverable_detail (u_status_detail u)).

Definition ListActiveTempPaths : DbM (list string) :=
  query (fun d => map (fun u => default "" (u_temp_path u)) (select temp_active (uploads d))).

(** ** Creating *)

(** [uid] is the value of uuid.New(). *)
Definition Create (uid : string) (userID : Z) (tokenID : option Z) (filename original : string)
    (fileSize : Z) (contentType : string) (vis : visibility) (tempPath : string)
    (estimatedCost : option string) : DbM Upload :=
  stmt ;;
  d ← get;
  (if negb (existsb (Z.eqb userID) (users d))
      || match tokenID with Some t => negb (existsb (fun k => tok_id k =? t) (api_tokens d)) | None => false end
   then fail (ESentinel ErrForeignKey)
   else if existsb (fun u => String.eqb (u_uuid u) uid) (uploads d)
   then fail (ESentinel ErrUniqueViolation)
   else mret tt) ;;
  let id := seq_uploads d + 1 in
  let t := current_timestamp d in
  modify (fun d => set_seq_uploads id (set_uploads (uploads d ++
    [mkUpload id uid userID tokenID filename original fileSize contentType vis Queued None None
       estimatedCost None None (Some tempPath) None None 0 None t None None None t None 0]) d)) ;;
  GetByID id.

(** ** The queue *)

(** Queued, and not backing off. *)
Definition eligible (t : Z) (u : Upload) : bool :=
  bool_decide (u_status u = Queued) &&
  match u_backoff_until u with None => true | Some b => b <=? t end.

Definition next_queued (d : Db) : option Z :=
  u_id <$> head (limit 1 (order_by (fun a b => u_queued_at a <=? u_queued_at b)
    (select (eligible (current_timestamp d)) (uploads d)))).

(** [UPDATE uploads SET status = 'processing', ... WHERE id = ? AND status = 'queued'],
    whose RowsAffected the code does not look at. *)
Definition claim (id : Z) : DbM Z :=
  exec_uploads (fun u => by_id id u && bool_decide (u_status u = Queued))
    (fun d u => set_u_processing_at (Some (current_timestamp d)) (set_u_status Processing u)).

(** The claim of the row that the SELECT picked, up to the commit. *)
Definition dequeue_claim (picked : option Z) : DbM (tx_exit (option Z)) :=
  match picked with
  | None => mret (Abandon None)
  | Some id => claim id ;; mret (Commit (Some id))
  end.

Definition dequeue_read_back (picked : option Z) : DbM (option Upload) :=
  match picked with
  | None => mret None
  | Some id => u ← GetByID id; mret (Some u)
  end.

Definition DequeueNext : DbM (option Upload) :=
  o ← in_tx (o ← query next_queued; dequeue_claim o);
  dequeue_read_back o.

(** [UPDATE uploads SET f WHERE id = ?]: no guard on the status. *)
Definition mark (id : Z) (f : Z -> Upload -> Upload) : DbM unit :=
  exec_uploads (by_id id) (fun d => f (current_timestamp d)) ;; mret tt.

Definition finish (s : status) (cost key : string) (t : Z) (u : Upload) : Upload :=
  set_u_temp_path None (set_u_completed_at (Some t) (set_u_cache_key (Some key)
    (set_u_actual_cost (Some cost) (set_u_status s u)))).

Definition MarkCompleted (id : Z) (dataMap actualCost : string) : DbM unit :=
  mark id (fun t u => finish Completed actualCost (KeyForIdentifier dataMap) t (set_u_data_map (Some dataMap) u)).

Definition MarkCompletedPublic (id : Z) (addr actualCost : string) : DbM unit :=
  mark id (fun t u => finish Completed actualCost (KeyForIdentifier addr) t (set_u_datamap_address (Some addr) u)).

Definition MarkAlreadyStored (id : Z) (dataMap actualCost : string) : DbM unit :=
  mark id (fun t u => finish AlreadyStored actualCost (KeyForIdentifier dataMap) t (set_u_data_map (Some dataMap) u)).

Definition MarkAlreadyStoredPublic (id : Z) (addr actualCost : string) : DbM unit :=
  mark id (fun t u => finish AlreadyStored actualCost (KeyForIdentifier addr) t (set_u_datamap_address (Some addr) u)).

Definition MarkPublished (id : Z) (addr : string) : DbM unit :=
  mark id (fun _ u => set_u_datamap_address (Some addr) (set_u_visibility Public u)).

Definition MarkFailed (id : Z) (errMsg : string) : DbM unit :=
  mark id (fun t u => set_u_temp_path None (set_u_failed_at (Some t)
    (set_u_error_message (Some errMsg) (set_u_status Failed u)))).

Definition MarkFailedPreserveTemp (id : Z) (errMsg detail : string) : DbM unit :=
  mark id (fun t u => set_u_failed_at (Some t) (set_u_status_detail (Some detail)
    (set_u_error_message (Some errMsg) (set_u_status Failed u)))).

(** [backoffUntil] is a nanosecond clock reading, stored to the second. *)
Definition SetGasBackoff (id backoffUntil attempt : Z) (quotedCost : string) : DbM unit :=
  mark id (fun _ u => set_u_processing_at None (set_u_last_quoted_cost (Some quotedCost)
    (set_u_backoff_attempt attempt (set_u_backoff_until (Some (backoffUntil / second))
      (set_u_status_detail (Some "gas_backoff") (set_u_status Queued u)))))).

Definition ClearBackoff (id : Z) : DbM unit :=
  mark id (fun _ u => set_u_backoff_until None (set_u_status_detail None u)).

(** [timeout] in nanoseconds; [processing_at < NULL] is never true. *)
Definition stuck (cutoff : Z) (exclude : list Z) (u : Upload) : bool :=
  bool_decide (u_status u = Processing)
  && match u_processing_at u with Some p => p <? cutoff | None => false end
  && negb (existsb (Z.eqb (u_id u)) exclude).

Definition RequeueStuckExcept (timeout : Z) (exclude : list Z) : DbM Z :=
  d ← get;
  let cutoff := (now d - timeout) / second in
  exec_uploads (stuck cutoff exclude) (fun _ u => set_u_processing_at None (set_u_status Queued u)).

Definition RequeueStuck (timeoutMinutes : Z) : DbM Z :=
  RequeueStuckExcept (timeoutMinutes * (60 * second)) [].

Definition TouchProcessing (id : Z) : DbM unit :=
  exec_uploads (fun u => by_id id u && bool_decide (u_status u = Processing))
    (fun d => set_u_processing_at (Some (current_timestamp d))) ;; mret tt.

(** An UPDATE that must hit a row. *)
Definition exec_must (p : Upload -> bool) (f : Db -> Upload -> Upload) (msg : string) : DbM unit :=
  n ← exec_uploads p f; if n =? 0 then fail (ENew msg) else mret tt.

Definition Cancel (id : Z) : DbM unit :=
  exec_must (fun u => by_id id u && (bool_decide (u_status u = Queued) || bool_decide (u_status u = Processing)))
    (fun d u => set_u_temp_path None (set_u_failed_at (Some (current_timestamp d)) (set_u_backoff_until None
      (set_u_status_detail None (set_u_error_message (Some "Cancelled by user") (set_u_status Failed u))))))
    "upload cannot be cancelled in its current state".

(** [SELECT COALESCE(MAX(t.id), 0) FROM transactions t WHERE t.upload_id = ?]. *)
Definition max_txn (d : Db) (id : Z) : Z :=
  default 0 (max_by t_id (select (fun t => bool_decide (t_upload_id t = Some id)) (transactions d))).

Definition Retry (id : Z) : DbM unit :=
  exec_must (fun u => by_id id u && bool_decide (u_status u = Failed))
    (fun d u => set_u_payment_floor_txn_id (max_txn d (u_id u)) (set_u_queued_at (current_timestamp d)
      (set_u_processing_at None (set_u_failed_at None (set_u_last_quoted_cost None
        (set_u_backoff_attempt 0 (set_u_backoff_until None (set_u_error_message None
          (set_u_status_detail None (set_u_status Queued u))))))))))
    "only failed uploads can be retried".

Definition ForceRetry (id : Z) : DbM unit :=
  exec_must (fun u => by_id id u && bool_decide (u_status u = Queued)
                      && bool_decide (u_status_detail u = Some "gas_backoff"))
    (fun _ u => set_u_processing_at None (set_u_backoff_until None
      (set_u_status_detail None (set_u_status Queued u))))
    "upload is not in gas backoff".

(** ** Deleting, and the purge log *)

Fixpoint cache_keys_from (acc : list string) (idents : list (option string)) : list string :=
  match idents with
  | [] => acc
  | o :: rest =>
      match o with
      | Some s =>
          if String.eqb s "" then cache_keys_from acc rest
          else let k := KeyForIdentifier s in
               match acc with
               | [] => cache_keys_from (acc ++ [k]) rest
               | k0 :: _ => if String.eqb k0 k then cache_keys_from acc rest
                            else cache_keys_from (acc ++ [k]) rest
               end
      | None => cache_keys_from acc rest
      end
  end.

Definition CacheKeys (u : Upload) : list string :=
  cache_keys_from [] [u_data_map u; u_datamap_address u].

Definition log_purge (key : string) : DbM unit :=
  exec (fun d => set_seq_purge (seq_purge d + 1)
    (set_cache_purge_log (cache_purge_log d ++ [mkPurgeLogEntry (seq_purge d + 1) key (current_timestamp d)]) d)).

Fixpoint log_purges (keys : list string) : DbM unit :=
  match keys with
  | [] => mret tt
  | k :: rest => log_purge k ;; log_purges rest
  end.

Definition deletable (s : status) : bool :=
  bool_decide (s = Failed) || bool_decide (s = Completed) || bool_decide (s = AlreadyStored).

(** [DELETE FROM uploads WHERE id = ? AND status IN (...)]. A row of
    transactions that references the upload (transactions.upload_id REFERENCES
    uploads(id), foreign keys on) makes the statement fail. *)
Definition delete_upload_row (id : Z) : DbM Z :=
  stmt ;; d ← get;
  let p u := by_id id u && deletable (u_status u) in
  if existsb (fun u => p u && existsb (fun t => bool_decide (t_upload_id t = Some (u_id u))) (transactions d)) (uploads d)
  then fail (ESentinel ErrForeignKey)
  else modify (fun d => set_uploads (delete_where p (uploads d)) d) ;; mret (affected p (uploads d)).

Definition delete_refused : error :=
  ENew "only failed, completed, or already-stored uploads can be deleted".

Definition Delete (id : Z) : DbM unit :=
  in_tx (
    u ← map_err (no_rows_as delete_refused) (query_row (fun d => find_id id (uploads d)));
    log_purges (CacheKeys u) ;;
    exec (fun d => set_file_tags (List.filter (fun t => negb (fst (fst t) =? id)) (file_tags d)) d) ;;
    exec (fun d => set_collection_files (List.filter (fun c => negb (snd c =? id)) (collection_files d)) d) ;;
    n ← delete_upload_row id;
    if n =? 0 then fail delete_refused else mret (Commit tt)).

Definition PurgeLogSince (after n : Z) : DbM (list PurgeLogEntry) :=
  query (fun d => limit n (order_by (fun a b => p_id a <=? p_id b)
    (select (fun e => after <? p_id e) (cache_purge_log d)))).

Definition MaxPurgeLogID : DbM Z :=
  query (fun d => default 0 (max_by p_id (cache_purge_log d))).

(** [before] in nanoseconds. *)
Definition PrunePurgeLog (before : Z) : DbM Z :=
  stmt ;;
  let p e := p_deleted_at e <? before / second in
  n ← gets (fun d => affected p (cache_purge_log d));
  modify (fun d => set_cache_purge_log (delete_where p (cache_purge_log d)) d) ;; mret n.

(** ** Cache keys of live rows *)

(** Rows of [SELECT cache_key, visibility ... WHERE cache_key IN (batch)],
    scanned into the map, a later row winning. *)
Definition scan_visibility (batch : list string) (d : Db) (live : gmap string visibility) : gmap string visibility :=
  fold_left (fun m u => match u_cache_key u with
                        | Some k => if existsb (String.eqb k) batch then <[k := u_visibility u]> m else m
                        | None => m
                        end) (uploads d) live.

Definition visibility_chunk : nat := 500.

(** The loop over batches of 500 keys; [fuel] counts batches. *)
Fixpoint key_visibility_loop (fuel : nat) (keys : list string) (live : gmap string visibility)
    : DbM (gmap string visibility) :=
  match fuel with
  | O => mret live
  | S fuel =>
      match keys with
      | [] => mret live
      | _ =>
          live' ← query (fun d => scan_visibility (firstn visibility_chunk keys) d live);
          key_visibility_loop fuel (skipn visibility_chunk keys) live'
      end
  end.

Definition CacheKeyVisibility (keys : list string) : DbM (gmap string visibility) :=
  key_visibility_loop (length keys) keys ∅.

Definition backfill_identifier (u : Upload) : string :=
  let i := default "" (u_data_map u) in
  if String.eqb i "" then default "" (u_datamap_address u) else i.

Fixpoint backfill_loop (todo : list (Z * string)) (n : Z) : DbM Z :=
  match todo with
  | [] => mret n
  | (id, k) :: rest =>
      exec_uploads (by_id id) (fun _ => set_u_cache_key (Some k)) ;; backfill_loop rest (n + 1)
  end.

Definition BackfillCacheKeys : DbM Z :=
  todo ← query (fun d =>
    List.filter (fun p => negb (String.eqb (snd p) ""))
      (map (fun u => (u_id u, backfill_identifier u))
        (select (fun u => bool_decide (u_cache_key u = None)
           && (nonempty (u_data_map u) || nonempty (u_datamap_address u))) (uploads d))));
  backfill_loop (map (fun p => (fst p, KeyForIdentifier (snd p))) todo) 0.

(** * Properties *)

Lemma GetByID_healthy d id u : healthy d -> find_id id (uploads d) = Some u -> GetByID id d = (Ok u, d).
Proof.
  intros H Hu. unfold GetByID, map_err, query_row, query, mbind, ST_bind, gets.
  by rewrite (stmt_healthy d H), Hu.
Qed.

(** ** Rows that are done *)

Definition stored (u : Upload) : bool :=
  bool_decide (u_status u = Completed) || bool_decide (u_status u = AlreadyStored).

(** Stored rows are still there, unchanged. *)
Definition keeps_stored (d d' : Db) : Prop :=
  forall u, In u (uploads d) -> stored u = true -> In u (uploads d').

#[export] Instance keeps_stored_preorder : PreOrder keeps_stored.
Proof. split; [by intros d u|]. intros d1 d2 d3 H1 H2 u Hin Hs. auto. Qed.

#[export] Instance keeps_stored_fault_blind : FaultBlind keeps_stored.
Proof. by intros d fs u. Qed.

Lemma keeps_stored_update (p : Upload -> bool) f d :
  (forall u, p u = true -> stored u = false) ->
  keeps_stored d (set_uploads (update p f (uploads d)) d).
Proof.
  intros Hp u Hin Hs. cbn. apply in_update. exists u. split; [done|]. right.
  destruct (p u) eqn:E; [|done]. apply Hp in E. congruence.
Qed.

(** Everything a user, an administrator or a sweep can do to the queue: the
    operations that do not come from the worker that holds the upload. *)
Inductive queue_op :=
| OpDequeue
| OpRequeueStuck (timeout : Z) (exclude : list Z)
| OpTouch (id : Z)
| OpCancel (id : Z)
| OpRetry (id : Z)
| OpForceRetry (id : Z).

Definition run_op (o : queue_op) : DbM unit :=
  match o with
  | OpDequeue => DequeueNext ;; mret tt
  | OpRequeueStuck t ex => RequeueStuckExcept t ex ;; mret tt
  | OpTouch id => TouchProcessing id
  | OpCancel id => Cancel id
  | OpRetry id => Retry id
  | OpForceRetry id => ForceRetry id
  end.

Section op_steps.
Context (R : Db -> Db -> Prop) `{!PreOrder R} `{!FaultBlind R}.

Lemma steps_GetByID id : steps R (GetByID id).
Proof. unfold GetByID. steps_go. Qed.

Lemma steps_exec_must p f msg :
  (forall d, R d (set_uploads (update p (f d) (uploads d)) d)) -> steps R (exec_must p f msg).
Proof. intros H. unfold exec_must. steps_go. by apply steps_exec_uploads. Qed.

Lemma steps_mark id f :
  (forall d, R d (set_uploads (update (by_id id) (f (current_timestamp d)) (uploads d)) d)) ->
  steps R (mark id f).
Proof. intros H. unfold mark. steps_go. by apply steps_exec_uploads. Qed.

Lemma steps_DequeueNext :
  (forall id d, R d (set_uploads (update (fun u => by_id id u && bool_decide (u_status u = Queued))
     (fun u => set_u_processing_at (Some (current_timestamp d)) (set_u_status Processing u)) (uploads d)) d)) ->
  steps R DequeueNext.
Proof.
  intros H. unfold DequeueNext, dequeue_read_back, GetByID. steps_go.
  apply steps_in_tx; [done..|]. unfold dequeue_claim, claim. steps_go. by apply steps_exec_uploads.
Qed.
End op_steps.

#[export] Hint Resolve steps_GetByID : steps_db.

(** An UPDATE whose WHERE clause rules out stored rows. *)
Ltac guarded_update :=
  intros; apply keeps_stored_update; let u := fresh "u" in let H := fresh "H" in
  intros u H; unfold stuck in H; unfold stored; breflect;
  repeat match goal with H : _ || _ = true |- _ => apply orb_prop in H as [?|?]; breflect end;
  match goal with H : u_status u = _ |- _ => rewrite H; reflexivity end.

Lemma run_op_keeps_stored o : steps keeps_stored (run_op o).
Proof.
  destruct o; cbn; unfold RequeueStuckExcept, TouchProcessing, Cancel, Retry, ForceRetry; steps_go;
    first [apply steps_DequeueNext|apply steps_exec_uploads|apply steps_exec_must]; try apply _;
    guarded_update.
Qed.

(** Any sequence of such operations. *)
Definition run_ops (os : list queue_op) (d : Db) : Db := fold_left (fun d o => snd (run_op o d)) os d.

(** Whatever the users, the administrators and the sweeps do, in any order
    and under any schedule of database errors, a row that is completed or
    already_stored stays in the table unchanged: only Delete, and the worker
    that claimed the row, can touch it. *)
Theorem stored_rows_stable (os : list queue_op) (d : Db) (u : Upload) :
  In u (uploads d) -> stored u = true -> In u (uploads (run_ops os d)).
Proof.
  revert d. unfold run_ops. induction os as [|o os IH]; intros d Hin Hs; cbn; [done|].
  apply IH; [|done]. by apply (run_op_keeps_stored o).
Qed.

Definition stored_row : Upload :=
  mkUpload 1 "u-1" 7 None "f" "f" 10 "" Private Completed None None None (Some "5") None None (Some "dm")
    None 0 None 5 None (Some 9) None 5 None 0.

Lemma stored_rows_stable_witness :
  In stored_row (uploads (run_ops [OpRetry 1; OpCancel 1; OpForceRetry 1; OpRequeueStuck 0 []; OpDequeue]
    (mkDb [stored_row] 1 [] 0 [] 0 [7] [] [] [] [] 0 [] [] [] [] [] 0 [] (100 * second) [None; Some "gone"]))).
Proof. apply (stored_rows_stable _ _ stored_row); [by left|reflexivity]. Defined.

(** ** Dequeue *)

Definition claimed (t : Z) (u : Upload) : Upload :=
  set_u_processing_at (Some t) (set_u_status Processing u).

(** What a row must be for a worker to claim it at the second [t]. *)
Definition claimable (t : Z) (u : Upload) : Prop :=
  u_status u = Queued /\ forall b, u_backoff_until u = Some b -> b <= t.

Lemma eligible_claimable t u : eligible t u = true <-> claimable t u.
Proof.
  unfold eligible, claimable. rewrite andb_true_iff, bool_decide_eq_true. apply and_iff_compat_l.
  destruct (u_backoff_until u) as [b|]; [|by split]. split.
  - intros H b' [= <-]. lia.
  - intros H. specialize (H b eq_refl). lia.
Qed.

Lemma next_queued_Some d id : next_queued d = Some id ->
  exists u, In u (uploads d) /\ u_id u = id /\ claimable (current_timestamp d) u /\
    forall v, In v (uploads d) -> claimable (current_timestamp d) v -> u_queued_at u <= u_queued_at v.
Proof.
  unfold next_queued, limit. cbn [Z.to_nat Pos.to_nat Pos.iter_op].
  set (sel := select _ _). destruct (order_by _ sel) as [|x l] eqn:E; cbn; [done|]. intros [= <-].
  assert (In x sel) as Hx by (apply (order_by_in (fun a b => u_queued_at a <=? u_queued_at b)); rewrite E; by left).
  apply in_select in Hx as [Hin Hel%eligible_claimable]. exists x. split_and!; auto. intros v Hv Hev%eligible_claimable.
  eapply (order_by_head u_queued_at); [exact E|]. by apply in_select.
Qed.

Lemma next_queued_None d : next_queued d = None ->
  forall u, In u (uploads d) -> ~ claimable (current_timestamp d) u.
Proof.
  unfold next_queued, limit. cbn [Z.to_nat Pos.to_nat Pos.iter_op].
  set (sel := select _ _). destruct (order_by _ sel) as [|x l] eqn:E; [|done]. intros _ u Hu Hel%eligible_claimable.
  assert (In u sel) as Hin by (by apply in_select).
  apply (order_by_in (fun a b => u_queued_at a <=? u_queued_at b)) in Hin. by rewrite E in Hin.
Qed.

(** DequeueNext on a healthy database: it returns nil exactly when no row is
    queued and past its backoff; otherwise it claims such a row with the
    earliest queued_at, hands back the claimed row, and changes no other. *)
Theorem DequeueNext_correct (d : Db) (H : healthy d) (Hnd : List.NoDup (ids (uploads d))) :
  match DequeueNext d with
  | (Ok None, d') => d' = d /\ forall u, In u (uploads d) -> ~ claimable (current_timestamp d) u
  | (Ok (Some u'), d') =>
      exists u, In u (uploads d) /\ claimable (current_timestamp d) u /\
        (forall v, In v (uploads d) -> claimable (current_timestamp d) v -> u_queued_at u <= u_queued_at v) /\
        u' = claimed (current_timestamp d) u /\
        d' = set_uploads (update (by_id (u_id u)) (claimed (current_timestamp d)) (uploads d)) d
  | (Err _, _) => False
  end.
Proof.
  unfold DequeueNext, in_tx, finish_tx, query, mbind, ST_bind, rollback.
  rewrite (stmt_healthy d H). rewrite (stmt_healthy d H). unfold gets at 1.
  destruct (next_queued d) as [id|] eqn:E; cbn [dequeue_claim].
  - apply next_queued_Some in E as (u & Hin & <- & Hel & Hmin).
    unfold claim, exec_uploads, mbind, ST_bind, gets, modify, mret, ST_ret.
    rewrite (stmt_healthy d H). set (d1 := set_uploads _ d).
    assert (healthy d1) as H1 by done. rewrite (stmt_healthy d1 H1). cbn [dequeue_read_back].
    unfold GetByID, map_err, query_row, query, mbind, ST_bind, gets. rewrite (stmt_healthy d1 H1).
    assert (u_status u = Queued) as Hq.
    { by destruct Hel. }
    assert (Hupd : uploads d1 = update (by_id (u_id u)) (claimed (current_timestamp d)) (uploads d)).
    { cbn. unfold update. apply map_ext_in. intros v Hv.
      destruct (by_id (u_id u) v) eqn:Ev; cbn; [|done].
      apply Z.eqb_eq in Ev.
      pose proof (find_id_In (uploads d) u Hnd Hin) as Hu.
      pose proof (find_id_In (uploads d) v Hnd Hv) as Hv'.
      change (key v) with (u_id v) in *. change (key u) with (u_id u) in *. rewrite Ev in Hv'.
      assert (v = u) as -> by congruence. by rewrite Hq. }
    rewrite Hupd, find_id_update by done.
    rewrite (find_id_In (uploads d) u Hnd Hin : find_id (u_id u) (uploads d) = Some u). cbn.
    unfold by_id at 1. change (key u) with (u_id u). rewrite Z.eqb_refl.
    exists u. split_and!; auto. unfold d1. cbn in Hupd. by rewrite Hupd.
  - cbn. split; [by destruct d|]. by apply next_queued_None.
Qed.

Definition two_queued : Upload :=
  mkUpload 1 "u-1" 7 None "f" "f" 10 "" Private Queued None None None None None (Some "/tmp/f")
    None None 0 None 5 None None None 5 None 0.
Definition queue_db : Db :=
  mkDb [two_queued] 1 [] 0 [] 0 [7] [] [] [] [] 0 [] [] [] [] [] 0 [] (100 * second) [].

Lemma DequeueNext_correct_witness :
  let d := queue_db in
  match DequeueNext d with
  | (Ok None, d') => d' = d /\ forall u, In u (uploads d) -> ~ claimable (current_timestamp d) u
  | (Ok (Some u'), d') =>
      exists u, In u (uploads d) /\ claimable (current_timestamp d) u /\
        (forall v, In v (uploads d) -> claimable (current_timestamp d) v -> u_queued_at u <= u_queued_at v) /\
        u' = claimed (current_timestamp d) u /\
        d' = set_uploads (update (by_id (u_id u)) (claimed (current_timestamp d)) (uploads d)) d
  | (Err _, _) => False
  end /\
  fst (DequeueNext d) = Ok (Some (claimed (current_timestamp d) two_queued)).
Proof.
  intros d. split; [|vm_compute; reflexivity].
  apply (DequeueNext_correct d); [reflexivity|repeat constructor; cbn; tauto].
Defined.

(** Two workers at READ COMMITTED, each reading what is committed: A and B
    SELECT the same row, A claims it and commits, B's UPDATE then matches no
    row, and B reads the row back. *)
Definition interleaved_dequeue (d : Db) : result error (option Upload * option Upload) * Db :=
  (pickedA ← query next_queued;
   pickedB ← query next_queued;
   _ ← dequeue_claim pickedA;
   _ ← dequeue_claim pickedB;
   a ← dequeue_read_back pickedA;
   b ← dequeue_read_back pickedB;
   mret (a, b)) d.

(** Two concurrent DequeueNext calls can both hand out the same upload: the
    claim ignores RowsAffected, so the second caller, whose UPDATE matched no
    row, still returns the row it selected. *)
Theorem dequeue_double_claim (d : Db) (H : healthy d) (Hnd : List.NoDup (ids (uploads d)))
    (id : Z) (Hid : next_queued d = Some id) :
  match interleaved_dequeue d with
  | (Ok (Some a, Some b), _) => u_id a = id /\ u_status a = Processing /\ b = a
  | _ => False
  end.
Proof.
  pose proof (next_queued_Some d id Hid) as (u & Hin & Hu & Hel & _).
  assert (find_id id (uploads d) = Some u) as Hf.
  { rewrite <- Hu. exact (find_id_In (uploads d) u Hnd Hin). }
  assert (u_status u = Queued) as Hq by by destruct Hel.
  unfold interleaved_dequeue, mbind, ST_bind, mret, ST_ret.
  rewrite !query_healthy, Hid by done. cbn [dequeue_claim].
  unfold claim, mbind, ST_bind, mret, ST_ret. rewrite exec_uploads_healthy by done.
  set (d1 := set_uploads _ d). rewrite exec_uploads_healthy by done. set (d2 := set_uploads _ d1).
  cbn [dequeue_read_back]. unfold mbind, ST_bind, mret, ST_ret.
  assert (GetByID id d2 = (Ok (claimed (current_timestamp d) u), d2)) as Hget.
  { apply GetByID_healthy; [done|]. subst d2 d1. cbn. rewrite !find_id_update, Hf by done. cbn.
    unfold by_id, key, Upload_keyed. cbn. rewrite Hu, Z.eqb_refl, Hq.
    rewrite (bool_decide_eq_true_2 (Queued = Queued)) by done. cbn. by rewrite Hu, Z.eqb_refl. }
  by rewrite Hget, Hget.
Qed.

Lemma dequeue_double_claim_witness :
  next_queued queue_db = Some 1 /\
  match interleaved_dequeue queue_db with
  | (Ok (Some a, Some b), _) => u_id a = 1 /\ u_status a = Processing /\ b = a
  | _ => False
  end.
Proof.
  assert (List.NoDup (ids (uploads queue_db))) as Hnd by (repeat constructor; cbn; tauto).
  split; [reflexivity|]. exact (dequeue_double_claim queue_db eq_refl Hnd 1 eq_refl).
Defined.

(** ** The stuck sweep *)

Lemma RequeueStuckExcept_ok timeout exclude d n d' : RequeueStuckExcept timeout exclude d = (Ok n, d') ->
  let hit := stuck ((now d - timeout) / second) exclude in
  n = affected hit (uploads d) /\
  uploads d' = update hit (fun u => set_u_processing_at None (set_u_status Queued u)) (uploads d).
Proof.
  unfold RequeueStuckExcept, mbind, ST_bind, get. intros Hrun. cbn.
  match type of Hrun with exec_uploads ?p ?f d = _ => destruct (exec_uploads_cases p f d) as [[fs E]|(e & fs & E)] end;
    rewrite E in Hrun; [|done]. by injection Hrun as <- <-.
Qed.

Lemma RequeueStuckExcept_keeps timeout exclude d n d' u : RequeueStuckExcept timeout exclude d = (Ok n, d') ->
  In u (uploads d) -> In (u_id u) exclude -> In u (uploads d').
Proof.
  intros Hrun Hin Hex. apply RequeueStuckExcept_ok in Hrun as [_ ->]. apply in_update. exists u. split; [done|].
  right. split; [|done]. unfold stuck. apply andb_false_intro2, negb_false_iff, existsb_exists.
  exists (u_id u). split; [done|apply Z.eqb_refl].
Qed.

(** The sweep requeues exactly the uploads in processing whose heartbeat is
    older than the window and that it was not told to leave alone; every other
    row, an excluded one above all, is untouched. *)
Theorem RequeueStuckExcept_exact (timeout : Z) (exclude : list Z) (d d' : Db) (n : Z)
    (H : RequeueStuckExcept timeout exclude d = (Ok n, d')) :
  let hit := stuck ((now d - timeout) / second) exclude in
  n = affected hit (uploads d) /\
  uploads d' = update hit (fun u => set_u_processing_at None (set_u_status Queued u)) (uploads d) /\
  forall u, In u (uploads d) -> In (u_id u) exclude -> In u (uploads d').
Proof.
  destruct (RequeueStuckExcept_ok _ _ _ _ _ H) as [Hn Hu]. split_and!; [done|done|].
  intros u. by apply (RequeueStuckExcept_keeps timeout exclude d n).
Qed.

Definition stuck_upload : Upload :=
  set_u_processing_at (Some 0) (set_u_status Processing two_queued).
Definition stuck_db : Db := set_now (10000 * second) (set_uploads [stuck_upload] queue_db).

Lemma RequeueStuckExcept_exact_witness :
  (exists d', RequeueStuckExcept (3600 * second) [] stuck_db = (Ok 1, d')) /\
  affected (stuck ((now stuck_db - 3600 * second) / second) []) (uploads stuck_db) = 1.
Proof.
  assert (RequeueStuckExcept (3600 * second) [] stuck_db =
    (Ok 1, snd (RequeueStuckExcept (3600 * second) [] stuck_db))) as Hrun by reflexivity.
  split; [eexists; exact Hrun|].
  destruct (RequeueStuckExcept_exact _ _ _ _ _ Hrun) as [Hn _]. symmetry. exact Hn.
Defined.

(** ** Delete *)

#[global] Arguments CacheKeys u : simpl never.

Lemma log_purges_ok keys : forall d d', log_purges keys d = (Ok tt, d') ->
  exists fs seq new,
    d' = set_seq_purge seq (set_cache_purge_log (cache_purge_log d ++ new) (set_faults fs d)) /\
    map p_cache_key new = keys /\ Forall (fun e => seq_purge d < p_id e) new.
Proof.
  induction keys as [|k keys IH]; cbn; intros d d' Hrun.
  - injection Hrun as <-. exists (faults d), (seq_purge d), []. rewrite app_nil_r. by destruct d.
  - apply bind_ok in Hrun as ([] & d1 & Hk & Hrest).
    apply exec_ok in Hk as (fs & ->). apply IH in Hrest as (fs' & seq & new & -> & Hmap & Hids).
    cbn in *. eexists fs', seq, (mkPurgeLogEntry (seq_purge d + 1) k _ :: new).
    split_and!; cbn.
    + by rewrite <- app_assoc.
    + by rewrite Hmap.
    + constructor; cbn; [lia|]. eapply Forall_impl; [exact Hids|]. cbn. lia.
Qed.

Lemma delete_upload_row_ok id d n d' : delete_upload_row id d = (Ok n, d') ->
  let p u := by_id id u && deletable (u_status u) in
  (exists fs, d' = set_uploads (delete_where p (uploads d)) (set_faults fs d)) /\
  n = affected p (uploads d) /\
  forall u t, In u (uploads d) -> p u = true -> In t (transactions d) -> t_upload_id t <> Some (u_id u).
Proof.
  unfold delete_upload_row. intros Hrun. apply bind_ok in Hrun as ([] & d1 & Hs & Hrun).
  apply stmt_ok in Hs as (fs & ->). run_cbn Hrun.
  match type of Hrun with context [if ?b then _ else _] => destruct b eqn:Ex end; [done|].
  injection Hrun as <- <-. split_and!; [by exists fs|done|].
  intros u t Hu Hp Ht Heq. apply not_true_iff_false in Ex. apply Ex, existsb_exists.
  exists u. rewrite Hp. split; [done|]. apply existsb_exists. exists t. split; [done|].
  by apply bool_decide_eq_true.
Qed.

(** What the row's deletion leaves behind. *)
Definition deleted (id : Z) (u : Upload) (d d' : Db) : Prop :=
  uploads d' = delete_where (fun u => by_id id u && deletable (u_status u)) (uploads d) /\
  Forall (fun t => fst (fst t) <> id) (file_tags d') /\
  Forall (fun c => snd c <> id) (collection_files d') /\
  transactions d' = transactions d /\
  exists new, cache_purge_log d' = cache_purge_log d ++ new /\
    map p_cache_key new = CacheKeys u /\ Forall (fun e => seq_purge d < p_id e) new.

Lemma Forall_filter_ne {A} (f : A -> Z) id l :
  Forall (fun x => f x <> id) (List.filter (fun x => negb (f x =? id)) l).
Proof.
  apply List.Forall_forall. intros x Hx. apply filter_In in Hx as [_ Hx]. by breflect.
Qed.

(** A deletion that succeeds got through its whole body. *)
Lemma Delete_ok id d d' : Delete id d = (Ok tt, d') ->
  exists u, find_id id (uploads d) = Some u /\ deleted id u d d' /\
    (exists v, In v (uploads d) /\ u_id v = id /\ deletable (u_status v) = true) /\
    forall t, In t (transactions d) -> t_upload_id t <> Some id.
Proof.
  intros [(fs & d1 & Hb & Hd')|(fs & d1 & Hb & Hd')]%in_tx_ok;
    apply bind_ok in Hb as (u & d2 & Hq & Hb); apply map_err_ok, query_row_ok in Hq as (fs2 & Hu & ->);
    apply bind_ok in Hb as ([] & d3 & Hl & Hb); apply log_purges_ok in Hl as (fs3 & seq & new & -> & Hnew & Hids);
    apply bind_ok in Hb as ([] & d4 & He & Hb); apply exec_ok in He as (fs4 & ->);
    apply bind_ok in Hb as ([] & d5 & He & Hb); apply exec_ok in He as (fs5 & ->);
    apply bind_ok in Hb as (n & d6 & He & Hb); apply delete_upload_row_ok in He as ((fs6 & ->) & -> & Href);
    cbn in *; match type of Hb with context [?n =? 0] => destruct (Z.eqb_spec n 0) as [|Hn] end;
    run_cbn Hb; try done.
  injection Hb as <-. apply affected_pos in Hn as (v & Hv & Hp). apply andb_prop in Hp as Hp'.
  destruct Hp' as [Hvid%Z.eqb_eq Hdel]. change (u_id v = id) in Hvid.
  exists u. rewrite Hd'. split_and!; [done| |by exists v|].
  - split_and!; cbn; [done| | |done|by exists new].
    + apply (Forall_filter_ne (fun t => fst (fst t))).
    + apply (Forall_filter_ne snd).
  - intros t Ht. rewrite <- Hvid. by apply Href.
Qed.

(** C5. Delete is atomic under every schedule of database errors: either it
    fails and no table has changed, the purge log included, or the row existed
    in a deletable state, it is gone with its tags and collection entries, and
    the purge log holds, under fresh ids, every cache key of the upload. *)
Theorem Delete_atomic (id : Z) (d : Db) :
  match Delete id d with
  | (Ok tt, d') => exists u, find_id id (uploads d) = Some u /\ deleted id u d d' /\
      exists v, In v (uploads d) /\ u_id v = id /\ deletable (u_status v) = true
  | (Err _, d') => same_data d d'
  end.
Proof.
  destruct (Delete id d) as [[[]|e] d'] eqn:Hrun; [|by eapply in_tx_err].
  apply Delete_ok in Hrun as (u & Hu & Hdel & Hv & _). eauto.
Qed.

(** An upload that was ever paid for can never be deleted: transactions
    keep a foreign key on it, so the DELETE fails and the whole deletion rolls
    back, whatever the upload's status. *)
Theorem Delete_paid_upload_fails (id : Z) (d : Db) (t : Transaction)
    (Ht : In t (transactions d)) (Hid : t_upload_id t = Some id) :
  exists e d', Delete id d = (Err e, d') /\ same_data d d'.
Proof.
  destruct (Delete id d) as [[[]|e] d'] eqn:Hrun.
  - apply Delete_ok in Hrun as (_ & _ & _ & _ & Href). by destruct (Href t Ht).
  - exists e, d'. split; [done|]. by eapply in_tx_err.
Qed.

Definition paid_upload : Upload :=
  set_u_data_map (Some "aa") (set_u_status Completed two_queued).
Definition paid_db : Db :=
  set_transactions [mkTransaction 1 1 (Some 1) "upload" "5" "95" (Some "0xab") 6] (set_uploads [paid_upload] queue_db).

Lemma Delete_paid_upload_fails_witness :
  exists e d', Delete 1 paid_db = (Err e, d') /\ same_data paid_db d'.
Proof.
  exact (Delete_paid_upload_fails 1 paid_db _ (or_introl eq_refl) eq_refl).
Defined.

(** ** Liveness of cache keys *)

(** The visibility of the last row stored under [k], if any. *)
Definition row_visibility (k : string) (t : list Upload) : option visibility :=
  fold_left (fun acc u => if bool_decide (u_cache_key u = Some k) then Some (u_visibility u) else acc) t None.

Definition in_batch (k : string) (batch : list string) : bool := existsb (String.eqb k) batch.

Definition scan_row (batch : list string) (m : gmap string visibility) (u : Upload) : gmap string visibility :=
  match u_cache_key u with
  | Some k => if in_batch k batch then <[k := u_visibility u]> m else m
  | None => m
  end.

Definition see_row (k : string) (acc : option visibility) (u : Upload) : option visibility :=
  if bool_decide (u_cache_key u = Some k) then Some (u_visibility u) else acc.

Lemma scan_row_lookup batch k m u :
  scan_row batch m u !! k = if in_batch k batch then see_row k (m !! k) u else m !! k.
Proof.
  unfold see_row, scan_row. destruct (u_cache_key u) as [k'|]; [|by case_match].
  destruct (decide (k' = k)) as [->|Hne].
  - rewrite bool_decide_eq_true_2 by done. destruct (in_batch k batch); [|done].
    by rewrite lookup_insert_eq.
  - rewrite bool_decide_eq_false_2 by congruence.
    destruct (in_batch k' batch), (in_batch k batch); by rewrite ?lookup_insert_ne.
Qed.

Lemma scan_rows_lookup batch k t : forall m,
  fold_left (scan_row batch) t m !! k =
  if in_batch k batch then fold_left (see_row k) t (m !! k) else m !! k.
Proof.
  induction t as [|u t IH]; intros m; cbn; [by case_match|].
  rewrite IH, scan_row_lookup. by destruct (in_batch k batch).
Qed.

Lemma see_rows_acc k t : forall acc,
  fold_left (see_row k) t acc = match fold_left (see_row k) t None with Some v => Some v | None => acc end.
Proof.
  induction t as [|u t IH]; intros acc; cbn; [by destruct acc|].
  rewrite (IH (see_row k acc u)), (IH (see_row k None u)).
  destruct (fold_left (see_row k) t None); [done|]. unfold see_row. by case_match.
Qed.

Lemma in_batch_split k n keys :
  in_batch k keys = in_batch k (firstn n keys) || in_batch k (skipn n keys).
Proof. unfold in_batch. by rewrite <- existsb_app, firstn_skipn. Qed.

Lemma key_visibility_loop_ok fuel : forall keys live d m d',
  (length keys <= fuel)%nat -> key_visibility_loop fuel keys live d = (Ok m, d') ->
  uploads d' = uploads d /\
  forall k, m !! k = if in_batch k keys then fold_left (see_row k) (uploads d) (live !! k) else live !! k.
Proof.
  induction fuel as [|fuel IH]; intros keys live d m d' Hlen Hrun.
  - destruct keys; [|cbn in Hlen; lia]. injection Hrun as <- <-. by split.
  - cbn [key_visibility_loop] in Hrun. destruct keys as [|k0 keys]; [injection Hrun as <- <-; by split|].
    apply bind_ok in Hrun as (live' & d1 & Hq & Hrun). apply query_ok in Hq as (fs & -> & ->).
    apply IH in Hrun as [Hup Hm]; [|rewrite length_skipn; unfold visibility_chunk; cbn in *; lia].
    cbn in Hup. split; [done|]. intros k. rewrite Hm. cbn [uploads set_faults].
    rewrite (in_batch_split k visibility_chunk (k0 :: keys)).
    change (scan_visibility ?b ?x live) with (fold_left (scan_row b) (uploads x) live).
    rewrite scan_rows_lookup. cbn [uploads set_faults].
    destruct (in_batch k (firstn _ _)), (in_batch k (skipn _ _)); cbn; try done.
    rewrite see_rows_acc. destruct (fold_left _ _ None) eqn:E; [|done]. by rewrite see_rows_acc, E.
Qed.

Lemma CacheKeyVisibility_ok keys d d' m : CacheKeyVisibility keys d = (Ok m, d') ->
  forall k, m !! k = if in_batch k keys then row_visibility k (uploads d) else None.
Proof.
  intros Hrun k. apply key_visibility_loop_ok in Hrun as [_ Hm]; [|done].
  rewrite Hm, lookup_empty. done.
Qed.

(** CacheKeyVisibility reads in batches of 500 keys and answers as one query
    over all of them: a requested key maps to the visibility of the (last) row
    stored under it, and is absent when no row is; no other key appears. *)
Theorem CacheKeyVisibility_correct (keys : list string) (d d' : Db) (m : gmap string visibility) :
  CacheKeyVisibility keys d = (Ok m, d') ->
  forall k, m !! k = if in_batch k keys then row_visibility k (uploads d) else None.
Proof. apply CacheKeyVisibility_ok. Qed.

Lemma CacheKeyVisibility_correct_witness :
  let d := set_uploads [set_u_cache_key (Some "k") paid_upload] queue_db in
  match CacheKeyVisibility ["k"; "z"] d with
  | (Ok m, _) => m !! "k" = Some Private /\ m !! "z" = None
  | _ => False
  end.
Proof.
  pose proof (CacheKeyVisibility_correct ["k"; "z"]
    (set_uploads [set_u_cache_key (Some "k") paid_upload] queue_db)) as H.
  cbn zeta. destruct (CacheKeyVisibility _ _) as [[m|e] d'] eqn:E; [|vm_compute in E; discriminate].
  split; [rewrite (H d' m eq_refl)|rewrite (H d' m eq_refl)]; reflexivity.
Defined.
