(* ===== verification/Ledger.v ===== *)
(** * The payment ledger (src/internal/services/transaction.go)

    One row per confirmed payment, and the two questions the worker asks of
    it: was this upload ever paid for, and was it paid for since it was queued
    or last retried by an operator. *)

From S2P Require Import Prelude GoLib Sql Schema Hex UploadStore.

Module Ledger.

Definition GetByID (id : Z) : DbM Transaction := query_row (fun d => find_id id (transactions d)).

(** An INSERT that references a wallet and, when given, an upload; then the
    row is read back. *)
Definition Record_ (walletID : Z) (uploadID : option Z) (txType amount balanceAfter txHash : string)
    : DbM Transaction :=
  stmt ;;
  d ← get;
  (if negb (existsb (by_id walletID) (wallets d))
      || match uploadID with Some u => negb (existsb (by_id u) (uploads d)) | None => false end
   then fail (ESentinel ErrForeignKey) else mret tt) ;;
  let id := seq_transactions d + 1 in
  let hash := if String.eqb txHash "" then None else Some txHash in
  modify (fun d => set_seq_transactions id (set_transactions (transactions d ++
    [mkTransaction id walletID uploadID txType amount balanceAfter hash (current_timestamp d)]) d)) ;;
  GetByID id.

Definition of_upload (id : Z) (t : Transaction) : bool := bool_decide (t_upload_id t = Some id).

Definition ever_paid (d : Db) (id : Z) : bool := existsb (of_upload id) (transactions d).

Definition HasByUpload (id : Z) : DbM bool := query (fun d => ever_paid d id).

(** [FROM transactions t JOIN uploads u ON u.id = t.upload_id
    WHERE t.upload_id = ? AND t.id > u.payment_floor_txn_id]. *)
Definition paid_since (d : Db) (id : Z) : bool :=
  existsb (fun t => of_upload id t &&
    existsb (fun u => (u_id u =? id) && (u_payment_floor_txn_id u <? t_id t)) (uploads d)) (transactions d).

Definition HasPaymentSinceQueued (id : Z) : DbM bool := query (fun d => paid_since d id).

Definition newest_first (a b : Transaction) : bool := t_created_at b <=? t_created_at a.

(** The count's error is dropped: the total is then 0. *)
Definition ListByWallet (walletID n off : Z) : DbM (list Transaction * Z) :=
  let n := clamp_limit n in
  let mine t := t_wallet_id t =? walletID in
  r ← try (query (fun d => affected mine (transactions d)));
  let total := match r with Ok x => x | Err _ => 0 end in
  rows ← query (fun d => limit n (offset off (order_by newest_first (select mine (transactions d)))));
  mret (rows, total).

(** ** Well-formedness *)

(** Ids never exceed the AUTOINCREMENT counter, and no upload's floor is
    above it: the next payment is always above the floor. *)
Definition wf (d : Db) : Prop :=
  (forall t, In t (transactions d) -> t_id t <= seq_transactions d) /\
  (forall u, In u (uploads d) -> u_payment_floor_txn_id u <= seq_transactions d) /\
  0 <= seq_transactions d /\
  List.NoDup (ids (uploads d)).

Lemma paid_since_spec d id : paid_since d id = true <->
  exists t u, In t (transactions d) /\ In u (uploads d) /\ t_upload_id t = Some id /\
    u_id u = id /\ u_payment_floor_txn_id u < t_id t.
Proof.
  unfold paid_since, of_upload. rewrite existsb_exists. split.
  - intros (t & Ht & H). apply andb_prop in H as [Hup H]. apply existsb_exists in H as (u & Hu & H).
    breflect. eauto 10.
  - intros (t & u & Ht & Hu & Hup & Hid & Hlt). exists t. split; [done|].
    rewrite bool_decide_eq_true_2 by done. cbn. apply existsb_exists. exists u. split; [done|].
    rewrite Hid, Z.eqb_refl. cbn. by apply Z.ltb_lt.
Qed.

Lemma max_txn_ge d id t : In t (transactions d) -> t_upload_id t = Some id -> t_id t <= max_txn d id.
Proof.
  intros Ht Hup. unfold max_txn.
  destruct (max_by_spec t_id (select (fun t => bool_decide (t_upload_id t = Some id)) (transactions d)) t)
    as (m & -> & Hle); [|done].
  apply in_select. split; [done|]. by apply bool_decide_eq_true.
Qed.

Lemma max_txn_le d id : wf d -> max_txn d id <= seq_transactions d.
Proof.
  intros (Ht & _ & Hseq & _). unfold max_txn. destruct (max_by _ _) as [m|] eqn:E; cbn; [|done].
  apply max_by_in in E as (t & Hin & <-). apply in_select in Hin as [Hin _]. auto.
Qed.

(** ** A recorded payment blocks re-payment until an operator retries *)

(** The upload still counts as paid. *)
Definition stays_paid (id : Z) (d d' : Db) : Prop :=
  paid_since d id = true -> paid_since d' id = true.

#[export] Instance stays_paid_preorder id : PreOrder (stays_paid id).
Proof. split; [by intros d H|]. intros d1 d2 d3 H1 H2 H. auto. Qed.
#[export] Instance stays_paid_fault_blind id : FaultBlind (stays_paid id).
Proof. intros d fs H. exact H. Qed.

Lemma stays_paid_update id p f d :
  (forall u, p u = true -> u_id (f u) = u_id u) ->
  (forall u, p u = true -> u_id u = id -> u_payment_floor_txn_id (f u) = u_payment_floor_txn_id u) ->
  stays_paid id d (set_uploads (update p f (uploads d)) d).
Proof.
  intros Hid Hfl. unfold stays_paid. rewrite !paid_since_spec. cbn.
  intros (t & u & Ht & Hu & Hup & Huid & Hlt).
  exists t, (if p u then f u else u). split_and!; [done| |done| |].
  - apply in_update. exists u. split; [done|]. destruct (p u); auto.
  - destruct (p u) eqn:E; [|done]. by rewrite Hid.
  - destruct (p u) eqn:E; [|done]. by rewrite Hfl.
Qed.

(** What can happen to the queue and the ledger: the operations of
    [queue_op], what the worker does with an upload it holds, and payments. *)
Inductive ledger_op :=
| LQueue (o : queue_op)
| LMarkCompleted (id : Z) (dataMap cost : string)
| LMarkCompletedPublic (id : Z) (addr cost : string)
| LMarkAlreadyStored (id : Z) (dataMap cost : string)
| LMarkAlreadyStoredPublic (id : Z) (addr cost : string)
| LMarkPublished (id : Z) (addr : string)
| LMarkFailed (id : Z) (msg : string)
| LMarkFailedPreserveTemp (id : Z) (msg detail : string)
| LSetGasBackoff (id until_ attempt : Z) (cost : string)
| LClearBackoff (id : Z)
| LRecord (wallet : Z) (upload : option Z) (txType amount balance hash : string).

Definition run (o : ledger_op) : DbM unit :=
  match o with
  | LQueue o => run_op o
  | LMarkCompleted id m c => MarkCompleted id m c
  | LMarkCompletedPublic id a c => MarkCompletedPublic id a c
  | LMarkAlreadyStored id m c => MarkAlreadyStored id m c
  | LMarkAlreadyStoredPublic id a c => MarkAlreadyStoredPublic id a c
  | LMarkPublished id a => MarkPublished id a
  | LMarkFailed id m => MarkFailed id m
  | LMarkFailedPreserveTemp id m dt => MarkFailedPreserveTemp id m dt
  | LSetGasBackoff id b a c => SetGasBackoff id b a c
  | LClearBackoff id => ClearBackoff id
  | LRecord w u ty a b h => Record_ w u ty a b h ;; mret tt
  end.

Definition run_all (os : list ledger_op) (d : Db) : Db := fold_left (fun d o => snd (run o d)) os d.

Definition is_retry (id : Z) (o : ledger_op) : bool :=
  match o with LQueue (OpRetry i) => i =? id | _ => false end.

Ltac floor_kept := intros; apply stays_paid_update; intros; breflect; cbn; try done; try congruence.

Lemma stays_paid_append id d t seq :
  stays_paid id d (set_seq_transactions seq (set_transactions (transactions d ++ [t]) d)).
Proof.
  unfold stays_paid. rewrite !paid_since_spec. cbn.
  intros (t0 & u & Ht & Hrest). exists t0, u. split; [|done]. apply in_or_app. by left.
Qed.

Lemma run_stays_paid id o : is_retry id o = false -> steps (stays_paid id) (run o).
Proof.
  intros Hnr. destruct o as [o| | | | | | | | | |]; cbn.
  - destruct o; cbn; unfold RequeueStuckExcept, TouchProcessing, Cancel, Retry, ForceRetry; steps_go;
      first [apply steps_DequeueNext|apply steps_exec_uploads|apply steps_exec_must]; try apply _; floor_kept.
    cbn in Hnr. breflect. unfold by_id, key, Upload_keyed in *. breflect. congruence.
  - apply steps_mark; [apply _..|]. floor_kept.
  - apply steps_mark; [apply _..|]. floor_kept.
  - apply steps_mark; [apply _..|]. floor_kept.
  - apply steps_mark; [apply _..|]. floor_kept.
  - apply steps_mark; [apply _..|]. floor_kept.
  - apply steps_mark; [apply _..|]. floor_kept.
  - apply steps_mark; [apply _..|]. floor_kept.
  - apply steps_mark; [apply _..|]. floor_kept.
  - apply steps_mark; [apply _..|]. floor_kept.
  - unfold Record_, GetByID. steps_go. apply steps_modify. intros d. apply stays_paid_append.
Qed.

(** C2. Once a payment is recorded above an upload's floor, the upload counts
    as paid for ever: no sequence of claims, sweeps, heartbeats, backoffs,
    cancellations, completions, failures and further payments, under any
    schedule of database errors, makes HasPaymentSinceQueued false again.
    Only an operator Retry of that upload does. *)
Theorem paid_until_retry (id : Z) (os : list ledger_op) (d : Db)
    (Hnr : forallb (fun o => negb (is_retry id o)) os = true) (Hpaid : paid_since d id = true) :
  paid_since (run_all os d) id = true.
Proof.
  revert d Hpaid. unfold run_all. induction os as [|o os IH]; intros d Hpaid; cbn; [done|].
  cbn in Hnr. apply andb_prop in Hnr as [Hnr%negb_true_iff Hos]. apply IH; [done|].
  by apply (run_stays_paid id o).
Qed.

Lemma paid_until_retry_witness :
  paid_since paid_db 1 = true /\
  paid_since (run_all [LQueue (OpRequeueStuck 0 []); LQueue (OpCancel 1); LMarkFailed 1 "x"; LQueue OpDequeue] paid_db) 1 = true.
Proof.
  split; [reflexivity|].
  apply (paid_until_retry 1 [LQueue (OpRequeueStuck 0 []); LQueue (OpCancel 1); LMarkFailed 1 "x"; LQueue OpDequeue] paid_db);
    reflexivity.
Defined.

Lemma row_unique d (u v : Upload) : wf d -> In u (uploads d) -> In v (uploads d) -> u_id u = u_id v -> u = v.
Proof.
  intros (_ & _ & _ & Hnd) Hu Hv Heq.
  pose proof (find_id_In (uploads d) u Hnd Hu) as E1. pose proof (find_id_In (uploads d) v Hnd Hv) as E2.
  unfold key, Upload_keyed in *. congruence.
Qed.

Lemma Retry_ok id d d1 : Retry id d = (Ok tt, d1) ->
  exists fs u, In u (uploads d) /\ u_id u = id /\ u_status u = Failed /\
    seq_transactions d1 = seq_transactions d /\ transactions d1 = transactions d /\
    uploads d1 = update (fun u => by_id id u && bool_decide (u_status u = Failed))
      (fun u => set_u_payment_floor_txn_id (max_txn d (u_id u)) (set_u_queued_at (current_timestamp d)
        (set_u_processing_at None (set_u_failed_at None (set_u_last_quoted_cost None
          (set_u_backoff_attempt 0 (set_u_backoff_until None (set_u_error_message None
            (set_u_status_detail None (set_u_status Queued u)))))))))) (uploads d) /\ faults d1 = fs.
Proof.
  unfold Retry, exec_must. intros Hr. apply bind_ok in Hr as (n & d' & Hx & Hr).
  match type of Hx with exec_uploads ?p ?f d = _ =>
    destruct (exec_uploads_cases p f d) as [[fs E]|(e & fs & E)] end; rewrite E in Hx; [|done].
  injection Hx as <- <-.
  match type of Hr with context [?n =? 0] => destruct (Z.eqb_spec n 0) as [|Hn] end; run_cbn Hr; [done|].
  injection Hr as <-. apply affected_pos in Hn as (u & Hu & Hp). exists fs, u. breflect.
  apply Z.eqb_eq in H. by split_and!.
Qed.

(** ** What a worker does to the ledger

    Payments are appended, and no row loses its id or its floor. *)
Definition rows (d : Db) : list (Z * Z) := map (fun u => (u_id u, u_payment_floor_txn_id u)) (uploads d).

Definition ledger_le (d d' : Db) : Prop :=
  rows d' = rows d /\ (exists l, transactions d' = transactions d ++ l) /\ seq_transactions d <= seq_transactions d'.

#[global] Instance ledger_le_preorder : PreOrder ledger_le.
Proof.
  split.
  - intros d. split; [done|]. split; [exists []; by rewrite app_nil_r|done].
  - intros a b c (R1 & [l1 T1] & S1) (R2 & [l2 T2] & S2). split; [congruence|]. split; [|lia].
    exists (l1 ++ l2). by rewrite T2, T1, app_assoc.
Qed.

#[global] Instance ledger_le_fault_blind : FaultBlind ledger_le.
Proof. intros d fs. split; [done|]. split; [exists []; cbn; by rewrite app_nil_r|done]. Qed.

Lemma ledger_le_same d d' :
  uploads d' = uploads d -> transactions d' = transactions d -> seq_transactions d' = seq_transactions d -> ledger_le d d'.
Proof.
  intros U T S. unfold ledger_le, rows. rewrite U, T, S. split; [done|]. split; [exists []; by rewrite app_nil_r|done].
Qed.

Lemma ledger_le_update p f d :
  (forall u, u_id (f u) = u_id u) -> (forall u, u_payment_floor_txn_id (f u) = u_payment_floor_txn_id u) ->
  ledger_le d (set_uploads (update p f (uploads d)) d).
Proof.
  intros Hi Hf. split; [|split; [exists []; cbn; by rewrite app_nil_r|done]].
  unfold rows, update. cbn. rewrite map_map. apply map_ext. intros u. destruct (p u); by rewrite ?Hi, ?Hf.
Qed.

Lemma ledger_le_append d t seq : seq_transactions d <= seq ->
  ledger_le d (set_seq_transactions seq (set_transactions (transactions d ++ [t]) d)).
Proof. intros H. split; [done|]. split; [by exists [t]|done]. Qed.

Lemma paid_since_rows d id : paid_since d id = true <->
  exists t f, In t (transactions d) /\ In (id, f) (rows d) /\ t_upload_id t = Some id /\ f < t_id t.
Proof.
  rewrite paid_since_spec. unfold rows. split.
  - intros (t & u & Ht & Hu & Hup & <- & Hlt). exists t, (u_payment_floor_txn_id u). split_and!; [done| |done|done].
    apply in_map_iff. by exists u.
  - intros (t & f & Ht & Hr & Hup & Hlt). apply in_map_iff in Hr as (u & [= <- <-] & Hu). eauto 10.
Qed.

Lemma ledger_le_paid d d' id : ledger_le d d' -> paid_since d id = true -> paid_since d' id = true.
Proof.
  intros (R & [l T] & _). rewrite !paid_since_rows, R, T. intros (t & f & Ht & H). exists t, f.
  split; [|done]. apply in_or_app. by left.
Qed.

(** No floor is above the last id: the next payment is above every floor. *)
Definition floors (d : Db) : Prop := forall i f, In (i, f) (rows d) -> f <= seq_transactions d.

Lemma ledger_le_floors d d' : ledger_le d d' -> floors d -> floors d'.
Proof. intros (R & _ & S) H i f. rewrite R. intros Hin. specialize (H _ _ Hin). lia. Qed.

Lemma steps_Record w u ty a b h : steps ledger_le (Record_ w u ty a b h).
Proof.
  unfold Record_. apply steps_bind; [apply _|apply steps_stmt; apply _|intros _].
  apply steps_get_bind. intros d. destruct (_ || _); [done|].
  unfold mbind at 1 2, ST_bind at 1 2, mret, ST_ret, modify, GetByID. cbn [fst snd].
  etransitivity; [|apply (steps_query_row ledger_le)]. apply (ledger_le_append d). lia.
Qed.

(** A recorded payment is above the floor. *)
Lemma Record_pays w id ty a b h d t d' : floors d -> Record_ w (Some id) ty a b h d = (Ok t, d') -> paid_since d' id = true.
Proof.
  intros Hfl Hrec. unfold Record_ in Hrec.
  apply bind_ok in Hrec as ([] & d3 & Hs & Hrec). apply stmt_ok in Hs as (fs3 & ->).
  apply bind_ok in Hrec as (d3 & d4 & Hg & Hrec). run_cbn Hg. injection Hg as <- <-.
  apply bind_ok in Hrec as ([] & d4 & Hchk & Hrec).
  match type of Hchk with context [if ?c then _ else _] => destruct c eqn:Hc end; run_cbn Hchk; [done|].
  injection Hchk as <-. apply bind_ok in Hrec as ([] & d5 & Hins & Hrec). run_cbn Hins. injection Hins as <-.
  unfold GetByID in Hrec. apply query_row_ok in Hrec as (fs5 & _ & ->).
  apply orb_false_elim in Hc as [_ Hc%negb_false_iff]. apply existsb_exists in Hc as (u & Hu & Hid).
  unfold by_id, key, Upload_keyed in Hid. apply Z.eqb_eq in Hid. cbn in Hu.
  assert (In (id, u_payment_floor_txn_id u) (rows d)) as Hr by (apply in_map_iff; exists u; by rewrite Hid).
  apply paid_since_rows. eexists _, _. split_and!; [apply in_or_app; right; left; reflexivity|exact Hr|done|].
  cbn. specialize (Hfl _ _ Hr). lia.
Qed.

(** An operator Retry that succeeds authorizes exactly one new payment:
    right after it the upload does not count as paid, and as soon as one
    payment for it is recorded it does. *)
Theorem Retry_authorizes_one_payment (id : Z) (d d1 : Db) (Hwf : wf d) (Hr : Retry id d = (Ok tt, d1)) :
  paid_since d1 id = false /\
  forall w ty a b h t d2, Record_ w (Some id) ty a b h d1 = (Ok t, d2) -> paid_since d2 id = true.
Proof.
  apply Retry_ok in Hr as (fs & r & Hr & Hrid & Hrs & Hseq & Htx & Hup & _). split.
  - apply not_true_is_false. rewrite paid_since_spec. intros (t & u & Ht & Hu & Htid & Hid & Hlt).
    rewrite Htx in Ht. rewrite Hup in Hu. apply in_update in Hu as (v & Hv & [[Hp ->]|[Hp ->]]); cbn in *.
    + pose proof (max_txn_ge d (u_id v) t Ht). rewrite Hid in *. specialize (H Htid). lia.
    + assert (v = r) as -> by (apply (row_unique d); [done..|congruence]).
      unfold by_id, key, Upload_keyed in Hp. by rewrite Hid, Z.eqb_refl, Hrs in Hp.
  - intros w ty a b h t d2 Hrec. unfold Record_ in Hrec.
    apply bind_ok in Hrec as ([] & d3 & Hs & Hrec). apply stmt_ok in Hs as (fs3 & ->).
    apply bind_ok in Hrec as (d3 & d4 & Hg & Hrec). run_cbn Hg. injection Hg as <- <-.
    apply bind_ok in Hrec as ([] & d4 & Hchk & Hrec).
    match type of Hchk with context [if ?c then _ else _] => destruct c end; run_cbn Hchk; [done|].
    injection Hchk as <-. apply bind_ok in Hrec as ([] & d5 & Hins & Hrec). run_cbn Hins. injection Hins as <-.
    unfold GetByID in Hrec. apply query_row_ok in Hrec as (fs5 & Hfind & ->).
    apply paid_since_spec. cbn. rewrite Hseq, Htx, Hup.
    eexists _, _. split_and!; [apply in_or_app; right; left; reflexivity| |done| |].
    + apply in_update. exists r. split; [done|]. left. split; [|done].
      unfold by_id, key, Upload_keyed. by rewrite Hrid, Z.eqb_refl, Hrs.
    + done.
    + cbn. pose proof (max_txn_le d (u_id r) Hwf). lia.
Qed.

Definition failed_paid_db : Db :=
  set_wallets [mkWallet 1 "main" "0xw" "k" true "100" "1" 0 0]
    (set_seq_transactions 1 (set_uploads [set_u_status Failed paid_upload] paid_db)).

Lemma failed_paid_wf : wf failed_paid_db.
Proof.
  split_and!; cbn; [intros t [<-|[]]|intros u [<-|[]]| |]; cbn; try lia. repeat constructor. by intros [].
Qed.

Lemma Retry_authorizes_one_payment_witness :
  exists d1, Retry 1 failed_paid_db = (Ok tt, d1) /\ paid_since failed_paid_db 1 = true /\ paid_since d1 1 = false.
Proof.
  assert (Retry 1 failed_paid_db = (Ok tt, snd (Retry 1 failed_paid_db))) as Hr by reflexivity.
  exists (snd (Retry 1 failed_paid_db)). split; [exact Hr|]. split; [reflexivity|].
  exact (proj1 (Retry_authorizes_one_payment 1 _ _ failed_paid_wf Hr)).
Defined.
End Ledger.
