(* ===== verification/QuotaSvc.v ===== *)
(** * Storage quotas (src/internal/services/quota.go)

    Creating quotas, usage, and the four tiers (user, groups, department,
    system) that are checked before an upload is accepted and again when the
    worker picks it up. Byte counts are [int64]: [used+fileSize] wraps. *)

From S2P Require Import Prelude GoLib Sql Schema Hex UploadStore.
From Stdlib Require Import Ascii.

(** ** int64ToString *)

(** [for n > 0 { i--; b[i] = byte('0' + n%10); n /= 10 }] over [b [20]byte]:
    [i] free cells in front of the digits written so far; writing at index -1
    would panic. *)
Fixpoint fill_digits (i : nat) (n : Z) (tail : string) : option (nat * string) :=
  if 0 <? n then
    match i with
    | O => None
    | S i' => fill_digits i' (n / 10) (String (digit_char (n mod 10)) tail)
    end
  else Some (i, tail).

Definition int64ToString (n : Z) : option string :=
  if n =? 0 then Some "0" else
  let neg := n <? 0 in
  let n := if neg then neg64 n else n in
  '(i, ds) ← fill_digits 20 n "";
  if neg then match i with O => None | S _ => Some (String "-" ds) end else Some ds.

(** The database matches entity_id as text; a panic would not reach it. *)
Definition id_text (n : Z) : string := default "" (int64ToString n).

(** ** Creating *)

Definition entityExists (ids : Db -> list Z) (id : string) : DbM bool :=
  match ParseInt id with
  | None => mret false
  | Some n => r ← try (query_row (fun d => if existsb (Z.eqb n) (ids d) then Some tt else None));
              mret (is_ok r)
  end.

Definition validateEntity (entityType entityID : string) : DbM (string * string) :=
  if String.eqb entityType "system" then mret (entityType, "")
  else if String.eqb entityType "user" || String.eqb entityType "group" || String.eqb entityType "department" then
    if String.eqb entityID "" then fail (ESentinel ErrQuotaEntityRequired)
    else if String.eqb entityType "user" then
      ok ← entityExists users entityID;
      if (ok : bool) then mret (entityType, entityID) else fail (ESentinel ErrQuotaEntityNotFound)
    else if String.eqb entityType "group" then
      ok ← entityExists groups entityID;
      if (ok : bool) then mret (entityType, entityID) else fail (ESentinel ErrQuotaEntityNotFound)
    else mret (entityType, entityID)
  else fail (ESentinel ErrQuotaInvalidEntityType).

(** Rows are equal under UNIQUE(entity_type, entity_id): a NULL entity_id is
    equal to nothing. *)
Definition quota_conflict (ty : string) (eid : option string) (q : Quota) : bool :=
  String.eqb (q_entity_type q) ty &&
  match eid, q_entity_id q with Some a, Some b => String.eqb a b | _, _ => false end.

(** SUM over bigint: out of [int64] it cannot be read back. *)
Definition sum_query (f : Db -> Z) : DbM Z :=
  s ← query f;
  if (int64_min <=? s) && (s <=? int64_max) then mret s else fail (ENew "integer overflow").

Definition in_statuses (sts : list status) (u : Upload) : bool :=
  existsb (fun s => bool_decide (u_status u = s)) sts.

(** How many rows of group_members join an upload to group [g]. *)
Definition memberships (d : Db) (g : Z) (u : Upload) : Z :=
  Z.of_nat (length (List.filter (fun gm => (fst gm =? g) && (snd gm =? u_user_id u)) (group_members d))).

Definition via_department (d : Db) (dept : string) (u : Upload) : bool :=
  match u_token_id u with
  | Some t => existsb (fun k => (tok_id k =? t) && bool_decide (tok_department k = Some dept)) (api_tokens d)
  | None => false
  end.

Definition user_bytes (sts : list status) (userID : Z) (d : Db) : Z :=
  sum_by u_file_size (select (fun u => (u_user_id u =? userID) && in_statuses sts u) (uploads d)).
Definition group_bytes (sts : list status) (g : Z) (d : Db) : Z :=
  sum_by (fun u => memberships d g u * u_file_size u) (select (in_statuses sts) (uploads d)).
Definition department_bytes (sts : list status) (dept : string) (d : Db) : Z :=
  sum_by u_file_size (select (fun u => via_department d dept u && in_statuses sts u) (uploads d)).
Definition system_bytes (sts : list status) (d : Db) : Z :=
  sum_by u_file_size (select (in_statuses sts) (uploads d)).

Definition quotaCompletedStatuses : list status := [Completed; AlreadyStored].
Definition quotaInFlightStatuses : list status := [Completed; AlreadyStored; Processing; Queued].

(** CAST(entity_id AS INTEGER); Create stores only numeric ids for users and
    groups. *)
Definition cast_int (s : string) : Z := default 0 (ParseInt s).

(** A failed usage query leaves [used] at 0. *)
Definition calcUsage (ty : string) (eid : option string) : DbM Z :=
  let read (f : Db -> Z) : DbM Z := r ← try (sum_query f); mret (match r with Ok x => x | Err _ => 0 end) in
  let done_ := quotaCompletedStatuses in
  match ty, eid with
  | "user", Some e => read (user_bytes done_ (cast_int e))
  | "group", Some e => read (group_bytes done_ (cast_int e))
  | "department", Some e => read (department_bytes done_ e)
  | "system", _ => read (system_bytes done_)
  | _, _ => mret 0
  end.

Definition QuotaGetByID (id : Z) : DbM (Quota * Z) :=
  q ← map_err (no_rows_as (ESentinel ErrQuotaNotFound)) (query_row (fun d => find_id id (quotas d)));
  used ← calcUsage (q_entity_type q) (q_entity_id q);
  mret (q, used).

Definition QuotaCreate (entityType entityID : string) (maxBytes : Z) : DbM (Quota * Z) :=
  '(ty, eid) ← validateEntity entityType entityID;
  let eID := if String.eqb eid "" then None else Some eid in
  stmt ;; d ← get;
  (if existsb (quota_conflict ty eID) (quotas d) then fail (ESentinel ErrQuotaDuplicate) else mret tt) ;;
  let id := seq_quotas d + 1 in
  modify (fun d => set_seq_quotas id (set_quotas (quotas d ++ [mkQuota id ty eID maxBytes true (current_timestamp d) (current_timestamp d)]) d)) ;;
  QuotaGetByID id.

(** The row is read with its usage, or nil when there is none. *)
Definition first_quota (p : Quota -> bool) : DbM (option (Quota * Z)) :=
  r ← try (query_row (fun d => List.find p (quotas d)));
  match r with
  | Err e => if errors_is e ErrNoRows then mret None else fail e
  | Ok q => used ← calcUsage (q_entity_type q) (q_entity_id q); mret (Some (q, used))
  end.

Definition SystemQuota : DbM (option (Quota * Z)) :=
  first_quota (fun q => String.eqb (q_entity_type q) "system" && q_is_enabled q).

Definition UserQuota (userID : Z) : DbM (option (Quota * Z)) :=
  first_quota (fun q => String.eqb (q_entity_type q) "user"
    && bool_decide (q_entity_id q = Some (id_text userID)) && q_is_enabled q).

Definition QuotaUpdate (id maxBytes : Z) (isEnabled : bool) : DbM (Quota * Z) :=
  exec (fun d => set_quotas (update (by_id id)
    (fun q => mkQuota (q_id q) (q_entity_type q) (q_entity_id q) maxBytes isEnabled (q_created_at q) (current_timestamp d)) (quotas d)) d) ;;
  QuotaGetByID id.

Definition QuotaDelete (id : Z) : DbM unit :=
  stmt ;; n ← gets (fun d => affected (by_id id) (quotas d));
  modify (fun d => set_quotas (delete_where (by_id id) (quotas d)) d) ;;
  if n =? 0 then fail (ESentinel ErrQuotaNotFound) else mret tt.

(** ** Checking *)

(** [WHERE entity_type = ? AND entity_id = ? AND is_enabled = TRUE]; without an
    id, the id is not looked at. *)
Definition limit_matches (ty : string) (eid : option string) (q : Quota) : bool :=
  String.eqb (q_entity_type q) ty && q_is_enabled q &&
  match eid with Some e => bool_decide (q_entity_id q = Some e) | None => true end.

Definition find_limit (ty : string) (eid : option string) (d : Db) : option Z :=
  q_max_bytes <$> List.find (limit_matches ty eid) (quotas d).

Definition lookupQuotaLimit (ty : string) (eid : option string) : DbM (option Z) :=
  r ← try (query_row (find_limit ty eid));
  match r with
  | Ok m => mret (Some m)
  | Err e => if errors_is e ErrNoRows then mret None else fail e
  end.

Definition within (used fileSize maxBytes : Z) : DbM unit :=
  if maxBytes <? add64 used fileSize then fail (ESentinel ErrQuotaExceeded) else mret tt.

Definition checkUserTier (userID fileSize : Z) (sts : list status) : DbM unit :=
  o ← lookupQuotaLimit "user" (Some (id_text userID));
  match o with
  | None => mret tt
  | Some m => used ← sum_query (user_bytes sts userID); within used fileSize m
  end.

Definition checkSystemTier (fileSize : Z) (sts : list status) : DbM unit :=
  o ← lookupQuotaLimit "system" None;
  match o with
  | None => mret tt
  | Some m => used ← sum_query (system_bytes sts); within used fileSize m
  end.

(** The enabled group quotas whose group has the user as a member, one row per
    membership. *)
Definition group_limits (userID : Z) (d : Db) : list (string * Z) :=
  concat (map (fun q =>
    match q_entity_id q with
    | Some e =>
        if String.eqb (q_entity_type q) "group" && q_is_enabled q
        then map (fun _ => (e, q_max_bytes q))
               (List.filter (fun gm => (fst gm =? cast_int e) && (snd gm =? userID)) (group_members d))
        else []
    | None => []
    end) (quotas d)).

Fixpoint check_groups (qs : list (string * Z)) (fileSize : Z) (sts : list status) : DbM unit :=
  match qs with
  | [] => mret tt
  | (g, m) :: rest =>
      used ← sum_query (group_bytes sts (cast_int g)); within used fileSize m ;;
      check_groups rest fileSize sts
  end.

Definition checkGroupTier (userID fileSize : Z) (sts : list status) : DbM unit :=
  qs ← query (group_limits userID); check_groups qs fileSize sts.

Definition checkDepartmentTier (tokenID : option Z) (fileSize : Z) (sts : list status) : DbM unit :=
  match tokenID with
  | None => mret tt
  | Some t =>
      r ← try (query_row (fun d => tok_department <$> find_id t (api_tokens d)));
      match r with
      | Err e => if errors_is e ErrNoRows then mret tt else fail e
      | Ok None => mret tt
      | Ok (Some dept) =>
          if String.eqb dept "" then mret tt else
          o ← lookupQuotaLimit "department" (Some dept);
          match o with
          | None => mret tt
          | Some m => used ← sum_query (department_bytes sts dept); within used fileSize m
          end
      end
  end.

Definition checkAllTiers (userID : Z) (tokenID : option Z) (fileSize : Z) (sts : list status) : DbM unit :=
  in_tx (checkUserTier userID fileSize sts ;;
         checkGroupTier userID fileSize sts ;;
         checkDepartmentTier tokenID fileSize sts ;;
         checkSystemTier fileSize sts ;;
         mret (Commit tt)).

Definition CheckUserQuota (userID : Z) (tokenID : option Z) (fileSize : Z) : DbM unit :=
  checkAllTiers userID tokenID fileSize quotaCompletedStatuses.

Definition CheckUserQuotaInFlight (userID : Z) (tokenID : option Z) (fileSize : Z) : DbM unit :=
  checkAllTiers userID tokenID fileSize quotaInFlightStatuses.

(** [SELECT DISTINCT department ... ORDER BY department]. *)
Fixpoint insert_dept (x : string) (l : list string) : list string :=
  match l with
  | [] => [x]
  | y :: l' => if String.eqb x y then l
               else if String.ltb x y then x :: l else y :: insert_dept x l'
  end.

Definition Departments : DbM (list string) :=
  query (fun d => fold_right insert_dept []
    (List.filter (fun s => negb (String.eqb s "")) (omap tok_department (api_tokens d)))).

(** * Properties *)

(** ** The tiers that apply, as pure data *)

(** A tier: the usage it counts, given the statuses that count, and its limit. *)
Definition tier : Type := (list status -> Z) * Z.

Definition user_tiers (userID : Z) (d : Db) : list tier :=
  match find_limit "user" (Some (id_text userID)) d with
  | Some m => [(fun sts => user_bytes sts userID d, m)] | None => [] end.
Definition group_tiers (userID : Z) (d : Db) : list tier :=
  map (fun p => (fun sts => group_bytes sts (cast_int (fst p)) d, snd p)) (group_limits userID d).
Definition department_tiers (tokenID : option Z) (d : Db) : list tier :=
  match tokenID ≫= (fun t => tok_department <$> find_id t (api_tokens d)) with
  | Some (Some dept) =>
      if String.eqb dept "" then [] else
      match find_limit "department" (Some dept) d with
      | Some m => [(fun sts => department_bytes sts dept d, m)] | None => [] end
  | _ => []
  end.
Definition system_tiers (d : Db) : list tier :=
  match find_limit "system" None d with
  | Some m => [(fun sts => system_bytes sts d, m)] | None => [] end.

Definition tiers (userID : Z) (tokenID : option Z) (d : Db) : list tier :=
  user_tiers userID d ++ group_tiers userID d ++ department_tiers tokenID d ++ system_tiers d.

Definition admits (fileSize : Z) (sts : list status) (t : tier) : bool :=
  add64 (fst t sts) fileSize <=? snd t.

(** ** Safety under every fault schedule *)

Lemma sum_query_ok f d s d' : sum_query f d = (Ok s, d') ->
  exists fs, d' = set_faults fs d /\ s = f (set_faults fs d) /\ in_int64 s.
Proof.
  unfold sum_query. intros Hrun. apply bind_ok in Hrun as (x & d1 & Hq & Hrun).
  apply query_ok in Hq as (fs & -> & ->). exists fs.
  match type of Hrun with context [if ?b then _ else _] => destruct b eqn:E end; run_cbn Hrun; [|done].
  injection Hrun as <- <-. breflect. done.
Qed.

Lemma within_ok used size m d d' : within used size m d = (Ok tt, d') -> d' = d /\ add64 used size <= m.
Proof.
  unfold within. destruct (Z.ltb_spec m (add64 used size)); intros Hrun; run_cbn Hrun; [done|].
  by injection Hrun as <-.
Qed.

Lemma lookupQuotaLimit_ok ty eid d o d' : lookupQuotaLimit ty eid d = (Ok o, d') ->
  (exists fs, d' = set_faults fs d) /\ o = find_limit ty eid d.
Proof.
  unfold lookupQuotaLimit. intros Hrun. apply bind_ok in Hrun as (r & d1 & Ht & Hrun).
  unfold try in Ht. destruct (query_row (find_limit ty eid) d) as [r0 d0] eqn:E. injection Ht as <- <-.
  destruct r0 as [m|e].
  - apply query_row_ok in E as (fs & Hf & ->). run_cbn Hrun. injection Hrun as <- <-.
    split; [by eexists|]. symmetry. exact Hf.
  - apply query_row_err in E as (fs & -> & [[-> Hn]|[m ->]]); run_cbn Hrun; [|done].
    injection Hrun as <- <-. split; [by eexists|]. symmetry. exact Hn.
Qed.

Ltac quota_step H :=
  let a := fresh "a" in let d1 := fresh "d" in let Hq := fresh "Hq" in
  apply bind_ok in H as (a & d1 & Hq & H).

Lemma tier_ok (f : Db -> Z) size m d d' :
  (used ← sum_query f; within used size m) d = (Ok tt, d') ->
  exists fs, d' = set_faults fs d /\ add64 (f (set_faults fs d)) size <= m.
Proof.
  intros H. quota_step H. apply sum_query_ok in Hq as (fs & -> & -> & _).
  apply within_ok in H as [-> Hle]. eauto.
Qed.

Lemma checkUserTier_ok u size sts d d' : checkUserTier u size sts d = (Ok tt, d') ->
  (exists fs, d' = set_faults fs d) /\ forallb (admits size sts) (user_tiers u d) = true.
Proof.
  unfold checkUserTier, user_tiers. intros H. quota_step H.
  apply lookupQuotaLimit_ok in Hq as [[fs ->] ->]. destruct (find_limit _ _ d) as [m|].
  - apply tier_ok in H as (fs' & -> & Hle). split; [by exists fs'|]. cbn. unfold admits. cbn in *.
    rewrite andb_true_r. by apply Z.leb_le.
  - run_cbn H. injection H as <-. split; [by exists fs|done].
Qed.

Lemma checkSystemTier_ok size sts d d' : checkSystemTier size sts d = (Ok tt, d') ->
  (exists fs, d' = set_faults fs d) /\ forallb (admits size sts) (system_tiers d) = true.
Proof.
  unfold checkSystemTier, system_tiers. intros H. quota_step H.
  apply lookupQuotaLimit_ok in Hq as [[fs ->] ->]. destruct (find_limit _ _ d) as [m|].
  - apply tier_ok in H as (fs' & -> & Hle). split; [by exists fs'|]. cbn. unfold admits. cbn in *.
    rewrite andb_true_r. by apply Z.leb_le.
  - run_cbn H. injection H as <-. split; [by exists fs|done].
Qed.

Lemma check_groups_ok size sts qs : forall d d', check_groups qs size sts d = (Ok tt, d') ->
  (exists fs, d' = set_faults fs d) /\
  forallb (admits size sts) (map (fun p => (fun sts => group_bytes sts (cast_int (fst p)) d, snd p)) qs) = true.
Proof.
  induction qs as [|[g m] qs IH]; cbn [check_groups]; intros d d' H.
  - run_cbn H. injection H as <-. split; [exists (faults d); by destruct d|done].
  - quota_step H. apply sum_query_ok in Hq as (fs & -> & -> & _).
    quota_step H. destruct a. apply within_ok in Hq as [-> Hle].
    apply IH in H as [[fs' ->] Hrest]. split; [by exists fs'|]. cbn. apply andb_true_iff. split; [|exact Hrest].
    unfold admits. cbn in *. by apply Z.leb_le.
Qed.

Lemma checkGroupTier_ok u size sts d d' : checkGroupTier u size sts d = (Ok tt, d') ->
  (exists fs, d' = set_faults fs d) /\ forallb (admits size sts) (group_tiers u d) = true.
Proof.
  unfold checkGroupTier, group_tiers. intros H. quota_step H.
  apply query_ok in Hq as (fs & -> & ->). apply check_groups_ok in H as [[fs' ->] H].
  split; [by exists fs'|exact H].
Qed.

Lemma checkDepartmentTier_ok tok size sts d d' : checkDepartmentTier tok size sts d = (Ok tt, d') ->
  (exists fs, d' = set_faults fs d) /\ forallb (admits size sts) (department_tiers tok d) = true.
Proof.
  unfold checkDepartmentTier, department_tiers. intros H.
  destruct tok as [t|]; cbn [mbind option_bind];
    [|run_cbn H; injection H as <-; split; [exists (faults d); by destruct d|done]].
  quota_step H. unfold try in Hq. destruct (query_row _ d) as [r dq] eqn:E. injection Hq as <- <-.
  destruct r as [o|e].
  - apply query_row_ok in E as (fs & Ho & ->). cbn in Ho. rewrite Ho. destruct o as [dept|].
    + destruct (String.eqb dept ""); [run_cbn H; injection H as <-; by split; [exists fs|]|].
      quota_step H. apply lookupQuotaLimit_ok in Hq as [[fs1 ->] ->].
      change (find_limit ?a ?b (set_faults fs d)) with (find_limit a b d) in *.
      destruct (find_limit _ _ d) as [m|].
      * apply tier_ok in H as (fs' & -> & Hle). split; [by exists fs'|]. cbn. unfold admits. cbn in *.
        rewrite andb_true_r. by apply Z.leb_le.
      * run_cbn H. injection H as <-. by split; [exists fs1|].
    + run_cbn H. injection H as <-. by split; [exists fs|].
  - apply query_row_err in E as (fs & -> & [[-> Hn]|[m ->]]); run_cbn H; [|done].
    injection H as <-. cbn in Hn. rewrite Hn. by split; [exists fs|].
Qed.

Lemma checkAllTiers_ok u tok size sts d d' : checkAllTiers u tok size sts d = (Ok tt, d') ->
  same_data d d' /\ forallb (admits size sts) (tiers u tok d) = true.
Proof.
  unfold checkAllTiers. intros [(fs & d1 & Hb & Hd)|(fs & d1 & Hb & Hd)]%in_tx_ok.
  - quota_step Hb. destruct a. apply checkUserTier_ok in Hq as [[fs1 ->] H1].
    quota_step Hb. destruct a. apply checkGroupTier_ok in Hq as [[fs2 ->] H2].
    quota_step Hb. destruct a. apply checkDepartmentTier_ok in Hq as [[fs3 ->] H3].
    quota_step Hb. destruct a. apply checkSystemTier_ok in Hq as [[fs4 ->] H4].
    run_cbn Hb. injection Hb as <-. split.
    + rewrite Hd. by destruct d.
    + unfold tiers. rewrite !forallb_app, !andb_true_iff. auto.
  - exfalso. do 4 (quota_step Hb; destruct a). run_cbn Hb. done.
Qed.

(** ** The verdict on a healthy database *)

Definition verdict (size : Z) (sts : list status) (ts : list tier) : result error unit :=
  if forallb (admits size sts) ts then Ok tt else Err (ESentinel ErrQuotaExceeded).

(** Every usage of these tiers can be read back as an [int64]. *)
Definition readable (sts : list status) (ts : list tier) : Prop := Forall (fun t => in_int64 (fst t sts)) ts.

Lemma sum_query_healthy f d : healthy d -> in_int64 (f d) -> sum_query f d = (Ok (f d), d).
Proof.
  intros H [H1 H2]. unfold sum_query, mbind, ST_bind. rewrite query_healthy by done.
  apply Z.leb_le in H1, H2. by rewrite H1, H2.
Qed.

Lemma lookupQuotaLimit_healthy ty eid d : healthy d -> lookupQuotaLimit ty eid d = (Ok (find_limit ty eid d), d).
Proof.
  intros H. unfold lookupQuotaLimit, try, query_row, mbind, ST_bind. rewrite query_healthy by done.
  by destruct (find_limit ty eid d).
Qed.

Lemma tier_healthy f size m d : healthy d -> in_int64 (f d) ->
  (used ← sum_query f; within used size m) d =
  (if add64 (f d) size <=? m then Ok tt else Err (ESentinel ErrQuotaExceeded), d).
Proof.
  intros H Hr. unfold mbind, ST_bind. rewrite sum_query_healthy by done. unfold within.
  destruct (Z.ltb_spec m (add64 (f d) size)), (Z.leb_spec (add64 (f d) size) m); try lia; done.
Qed.

Lemma checkUserTier_healthy u size sts d : healthy d -> readable sts (user_tiers u d) ->
  checkUserTier u size sts d = (verdict size sts (user_tiers u d), d).
Proof.
  intros H. unfold checkUserTier, user_tiers, verdict, mbind at 1, ST_bind at 1.
  rewrite lookupQuotaLimit_healthy by done. destruct (find_limit _ _ d) as [m|]; [|done].
  intros [Hr _]%List.Forall_cons_iff. rewrite (tier_healthy _ _ _ _ H Hr). cbn. unfold admits. cbn. by rewrite andb_true_r.
Qed.

Lemma checkSystemTier_healthy size sts d : healthy d -> readable sts (system_tiers d) ->
  checkSystemTier size sts d = (verdict size sts (system_tiers d), d).
Proof.
  intros H. unfold checkSystemTier, system_tiers, verdict, mbind at 1, ST_bind at 1.
  rewrite lookupQuotaLimit_healthy by done. destruct (find_limit _ _ d) as [m|]; [|done].
  intros [Hr _]%List.Forall_cons_iff. rewrite (tier_healthy _ _ _ _ H Hr). cbn. unfold admits. cbn. by rewrite andb_true_r.
Qed.

Lemma checkGroupTier_healthy u size sts d : healthy d -> readable sts (group_tiers u d) ->
  checkGroupTier u size sts d = (verdict size sts (group_tiers u d), d).
Proof.
  intros H. unfold checkGroupTier, group_tiers, verdict, mbind, ST_bind.
  rewrite query_healthy by done. generalize (group_limits u d). intros qs.
  induction qs as [|[g m] qs IH]; intros Hr; [done|].
  apply List.Forall_cons_iff in Hr as [Hr Hrs]. specialize (IH Hrs). cbn [check_groups map forallb fst snd] in *.
  unfold mbind, ST_bind. rewrite sum_query_healthy by done. unfold within. cbn [fst] in Hr.
  unfold admits at 1. cbn [fst snd].
  destruct (Z.ltb_spec m (add64 (group_bytes sts (cast_int g) d) size)),
    (Z.leb_spec (add64 (group_bytes sts (cast_int g) d) size) m); try lia; [done|].
  cbn. exact IH.
Qed.

Lemma checkDepartmentTier_healthy tok size sts d : healthy d -> readable sts (department_tiers tok d) ->
  checkDepartmentTier tok size sts d = (verdict size sts (department_tiers tok d), d).
Proof.
  intros H. unfold checkDepartmentTier, department_tiers, verdict.
  destruct tok as [t|]; [|done]. cbn [mbind option_bind].
  unfold mbind at 1, ST_bind at 1, try, query_row, mbind at 1, ST_bind at 1. rewrite query_healthy by done.
  destruct (find_id t (api_tokens d)) as [k|]; [|done]. cbn.
  destruct (tok_department k) as [dept|]; [|done]. destruct (String.eqb dept ""); [done|].
  unfold mbind at 1, ST_bind at 1. rewrite lookupQuotaLimit_healthy by done.
  destruct (find_limit _ _ d) as [m|]; [|done].
  intros [Hr _]%List.Forall_cons_iff. rewrite (tier_healthy _ _ _ _ H Hr). cbn. unfold admits. cbn. by rewrite andb_true_r.
Qed.

Lemma checkAllTiers_healthy u tok size sts d : healthy d -> readable sts (tiers u tok d) ->
  checkAllTiers u tok size sts d = (verdict size sts (tiers u tok d), d).
Proof.
  intros H. unfold tiers, readable. rewrite !Forall_app. intros (H1 & H2 & H3 & H4).
  unfold checkAllTiers, in_tx, mbind at 1, ST_bind at 1. rewrite (stmt_healthy d H).
  unfold finish_tx, rollback, mbind, ST_bind, verdict.
  rewrite checkUserTier_healthy by done. unfold verdict. rewrite !forallb_app.
  assert (set_faults (faults d) d = d) as Hd by (by destruct d).
  destruct (forallb _ (user_tiers u d)); cbn; [|by rewrite Hd].
  rewrite checkGroupTier_healthy by done. unfold verdict.
  destruct (forallb _ (group_tiers u d)); cbn; [|by rewrite Hd].
  rewrite checkDepartmentTier_healthy by done. unfold verdict.
  destruct (forallb _ (department_tiers tok d)); cbn; [|by rewrite Hd].
  rewrite checkSystemTier_healthy by done. unfold verdict.
  destruct (forallb _ (system_tiers d)); cbn; [|by rewrite Hd].
  by rewrite (stmt_healthy d H).
Qed.

(** ** What the checks guarantee *)

(** No sum of a usage and the file size leaves [int64]. *)
Definition no_overflow (size : Z) (sts : list status) (ts : list tier) : Prop :=
  Forall (fun t => in_int64 (fst t sts) /\ in_int64 (fst t sts + size)) ts.

Definition fits (size : Z) (sts : list status) (ts : list tier) : Prop :=
  Forall (fun t => fst t sts + size <= snd t) ts.

Lemma admits_fits size sts ts : no_overflow size sts ts ->
  forallb (admits size sts) ts = true <-> fits size sts ts.
Proof.
  unfold no_overflow, fits. induction 1 as [|t ts [_ Ht] Hts IH]; cbn; [by split|].
  rewrite andb_true_iff, IH, List.Forall_cons_iff. unfold admits. rewrite (add64_exact _ _ Ht), Z.leb_le. done.
Qed.

(** C4. The quota check at accept time never lets an upload through that would
    push the user, any of the user's groups, the token's department or the
    system over its enabled limit, whatever database errors occur; and on a
    healthy database it rejects only for that reason, with ErrQuotaExceeded. *)
Theorem CheckUserQuota_enforces (u : Z) (tok : option Z) (size : Z) (d : Db)
    (Hno : no_overflow size quotaCompletedStatuses (tiers u tok d)) :
  (forall d', CheckUserQuota u tok size d = (Ok tt, d') ->
     same_data d d' /\ fits size quotaCompletedStatuses (tiers u tok d)) /\
  (healthy d -> (CheckUserQuota u tok size d = (Ok tt, d) <-> fits size quotaCompletedStatuses (tiers u tok d)) /\
     (~ fits size quotaCompletedStatuses (tiers u tok d) ->
      CheckUserQuota u tok size d = (Err (ESentinel ErrQuotaExceeded), d))).
Proof.
  unfold CheckUserQuota. split.
  - intros d' [Hd Hok]%checkAllTiers_ok. split; [done|]. by apply (admits_fits _ _ _ Hno).
  - intros H. assert (readable quotaCompletedStatuses (tiers u tok d)) as Hr.
    { eapply Forall_impl; [exact Hno|]. by intros t []. }
    rewrite checkAllTiers_healthy by done. unfold verdict. rewrite <- (admits_fits _ _ _ Hno).
    destruct (forallb _ _); split; try done; by split.
Qed.

Definition quota_user (id : Z) (st : status) (size : Z) : Upload :=
  mkUpload id "u" 7 None "f" "f" size "text/plain" Private st None None None None None None None
    None 0 None 0 None None None 0 None 0.

(** User 7 has stored 30 bytes, queued 20, and may store 100. *)
Definition quota_db : Db :=
  mkDb [quota_user 1 Completed 30; quota_user 2 Queued 20; quota_user 3 Processing 40] 3 [] 0
    [mkQuota 1 "user" (Some "7") 100 true 0 0] 1 [7] [] [] [] [] 0 [] [] [] [] [] 0 [] 0 [].

Lemma quota_db_no_overflow size sts : In sts [quotaCompletedStatuses; quotaInFlightStatuses] ->
  0 <= size <= 100 -> no_overflow size sts (tiers 7 None quota_db).
Proof.
  intros Hs Hsz. change (tiers 7 None quota_db) with [((fun sts => user_bytes sts 7 quota_db), 100)].
  constructor; [|constructor]. unfold fst. set (b := user_bytes _ _ _).
  assert (0 <= b <= 100) by (destruct Hs as [<-|[<-|[]]]; subst b; vm_compute; split; discriminate).
  unfold in_int64, int64_min, int64_max. lia.
Qed.

Example CheckUserQuota_enforces_witness :
  CheckUserQuota 7 None 70 quota_db = (Ok tt, quota_db) /\
  CheckUserQuota 7 None 71 quota_db = (Err (ESentinel ErrQuotaExceeded), quota_db).
Proof.
  split.
  - apply (CheckUserQuota_enforces 7 None 70 quota_db); [|done|].
    + apply quota_db_no_overflow; [by left|lia].
    + apply (proj1 (admits_fits _ _ _ (quota_db_no_overflow 70 _ (or_introl eq_refl) ltac:(lia)))).
      vm_compute. reflexivity.
  - apply (CheckUserQuota_enforces 7 None 71 quota_db); [|done|].
    + apply quota_db_no_overflow; [by left|lia].
    + intros Hf%(proj2 (admits_fits _ _ _ (quota_db_no_overflow 71 _ (or_introl eq_refl) ltac:(lia)))).
      vm_compute in Hf. discriminate.
Defined.

(** ** The two checks compared *)

Definition sizes_nonneg (d : Db) : Prop := forall r, In r (uploads d) -> 0 <= u_file_size r.

Lemma completed_in_flight r : in_statuses quotaCompletedStatuses r = true -> in_statuses quotaInFlightStatuses r = true.
Proof. unfold in_statuses. destruct r as [? ? ? ? ? ? ? ? ? []]; done. Qed.

Lemma tiers_in_flight_le u tok d t : sizes_nonneg d -> In t (tiers u tok d) ->
  fst t quotaCompletedStatuses <= fst t quotaInFlightStatuses.
Proof.
  intros Hn. unfold tiers. rewrite !in_app_iff. intros [H|[H|[H|H]]].
  - unfold user_tiers in H. destruct (find_limit _ _ d); [|done]. destruct H as [<-|[]]. cbn.
    apply sum_by_select_le; [done|]. intros r _ [-> Hc]%andb_prop. cbn. by apply completed_in_flight.
  - unfold group_tiers in H. apply in_map_iff in H as ([g m] & <- & _). cbn.
    apply sum_by_select_le; [|intros r _; apply completed_in_flight].
    intros r Hr. specialize (Hn r Hr). unfold memberships. lia.
  - unfold department_tiers in H. destruct (tok ≫= _) as [[dept|]|]; [|done|done].
    destruct (String.eqb dept ""); [done|]. destruct (find_limit _ _ d); [|done]. destruct H as [<-|[]]. cbn.
    apply sum_by_select_le; [done|]. intros r _ [-> Hc]%andb_prop. cbn. by apply completed_in_flight.
  - unfold system_tiers in H. destruct (find_limit _ _ d); [|done]. destruct H as [<-|[]]. cbn.
    apply sum_by_select_le; [done|]. intros r _. apply completed_in_flight.
Qed.

(** The worker's quota check is at least as strict as the one made when the
    upload was accepted: whatever it admits, whatever statements fail, still
    fits every tier when only stored uploads are counted. *)
Theorem CheckUserQuotaInFlight_stricter (u : Z) (tok : option Z) (size : Z) (d d' : Db)
    (Hn : sizes_nonneg d) (Hno : no_overflow size quotaInFlightStatuses (tiers u tok d))
    (Hok : CheckUserQuotaInFlight u tok size d = (Ok tt, d')) :
  fits size quotaInFlightStatuses (tiers u tok d) /\ fits size quotaCompletedStatuses (tiers u tok d).
Proof.
  apply checkAllTiers_ok in Hok as [_ Hok]. apply (admits_fits _ _ _ Hno) in Hok.
  split; [done|]. unfold fits in *. rewrite List.Forall_forall in *. intros t Ht. specialize (Hok t Ht).
  pose proof (tiers_in_flight_le u tok d t Hn Ht). lia.
Qed.

Example CheckUserQuotaInFlight_stricter_witness :
  fits 10 quotaInFlightStatuses (tiers 7 None quota_db) /\ fits 10 quotaCompletedStatuses (tiers 7 None quota_db).
Proof.
  apply (CheckUserQuotaInFlight_stricter 7 None 10 quota_db quota_db).
  - intros r Hr. repeat (destruct Hr as [<-|Hr]; [vm_compute; discriminate|]). destruct Hr.
  - apply quota_db_no_overflow; [right; by left|lia].
  - vm_compute. reflexivity.
Defined.

(** The bytes the other uploads of the user take up or are about to. *)
Definition other_bytes (r : Upload) (d : Db) : Z :=
  sum_by u_file_size
    (select (fun x => ((u_user_id x =? u_user_id r) && in_statuses quotaInFlightStatuses x)
                      && negb (by_id (key r) x)) (uploads d)).

(** The worker checks the quota of an upload that is itself Processing, so
    the upload's bytes are counted twice: it is admitted only when the other
    uploads of the user leave room for two copies of it. *)
Theorem CheckUserQuotaInFlight_counts_itself_twice (r : Upload) (m : Z) (d d' : Db)
    (Hnd : List.NoDup (ids (uploads d))) (Hin : In r (uploads d)) (Hst : u_status r = Processing)
    (Hlim : find_limit "user" (Some (id_text (u_user_id r))) d = Some m)
    (Hno : no_overflow (u_file_size r) quotaInFlightStatuses (tiers (u_user_id r) (u_token_id r) d))
    (Hok : CheckUserQuotaInFlight (u_user_id r) (u_token_id r) (u_file_size r) d = (Ok tt, d')) :
  other_bytes r d + 2 * u_file_size r <= m.
Proof.
  apply checkAllTiers_ok in Hok as [_ Hok]. apply (admits_fits _ _ _ Hno) in Hok.
  unfold fits, tiers, user_tiers in Hok. rewrite Hlim in Hok. cbn in Hok.
  apply List.Forall_cons_iff in Hok as [Hu _]. cbn in Hu. unfold user_bytes in Hu.
  rewrite (sum_by_split u_file_size _ _ r Hnd Hin) in Hu; [unfold other_bytes; lia|].
  rewrite Z.eqb_refl. unfold in_statuses. rewrite Hst. done.
Qed.

(** 30 + 20 bytes of other uploads, 25 of its own: exactly two copies fit. *)
Definition twice_db : Db :=
  set_uploads [quota_user 1 Completed 30; quota_user 2 Queued 20; quota_user 3 Processing 25] quota_db.

Example CheckUserQuotaInFlight_counts_itself_twice_witness :
  other_bytes (quota_user 3 Processing 25) twice_db + 2 * 25 <= 100 /\
  fst (CheckUserQuotaInFlight 7 None 26 (set_uploads
         [quota_user 1 Completed 30; quota_user 2 Queued 20; quota_user 3 Processing 26] quota_db))
  = Err (ESentinel ErrQuotaExceeded).
Proof.
  split; [|vm_compute; reflexivity].
  apply (CheckUserQuotaInFlight_counts_itself_twice (quota_user 3 Processing 25) 100 twice_db twice_db).
  - repeat (constructor; [cbn; intuition discriminate|]). constructor.
  - cbn. auto.
  - reflexivity.
  - vm_compute. reflexivity.
  - change (tiers _ _ _) with [((fun sts => user_bytes sts 7 twice_db), 100)].
    constructor; [|constructor]. vm_compute. repeat split; discriminate.
  - vm_compute. reflexivity.
Defined.

(** ** int64ToString reads back *)

Lemma fill_digits_head i : forall n tail j ds, fill_digits i n tail = Some (j, ds) ->
  (n <= 0 -> ds = tail) /\ (0 < n -> exists k s, 0 <= k <= 9 /\ ds = String (digit_char k) s).
Proof.
  induction i as [|i IH]; intros n tail j ds; cbn [fill_digits]; destruct (Z.ltb_spec 0 n);
    try done; try (intros [= <- <-]; split; [done|lia]).
  intros F. apply IH in F as [F0 F1]. split; [lia|]. intros _.
  destruct (decide (0 < n / 10)) as [Hq|Hq]; [by apply F1|].
  exists (n mod 10), tail. split; [pose proof (Z.mod_pos_bound n 10); lia|]. apply F0. lia.
Qed.

(** [i] cells hold any [n < 10^i], and leave one free when [n < 10^(i-1)]. *)
Lemma fill_digits_parse i : forall n tail, 0 <= n < 10 ^ Z.of_nat i ->
  exists j ds, fill_digits (S i) n tail = Some (S j, ds) /\ parse_digits 0 ds = parse_digits n tail.
Proof.
  induction i as [|i IH]; intros n tail Hn.
  - change (10 ^ Z.of_nat 0) with 1 in Hn. assert (n = 0) as -> by lia. cbn. by exists O, tail.
  - cbn [fill_digits]. destruct (Z.ltb_spec 0 n) as [Hp|Hz].
    + rewrite Nat2Z.inj_succ, Z.pow_succ_r in Hn by lia.
      assert (0 <= n mod 10 <= 9) as Hd by (pose proof (Z.mod_pos_bound n 10); lia).
      assert (0 <= n / 10 < 10 ^ Z.of_nat i) as Hq.
      { split; [apply Z.div_pos; lia|]. apply Z.div_lt_upper_bound; lia. }
      destruct (IH (n / 10) (String (digit_char (n mod 10)) tail) Hq) as (j & ds & E & Hds).
      exists j, ds. split; [exact E|]. rewrite Hds. cbn [parse_digits]. rewrite digit_val_char by done. cbn.
      f_equal. pose proof (Z.div_mod n 10). lia.
    + assert (n = 0) as -> by lia. by eexists _, _.
Qed.

(** int64ToString neither panics nor loses information: the text it builds
    for any int64 but the smallest reads back, as entityExists reads it, as the
    same number. For the smallest int64, negation wraps and the text is a lone
    minus sign. *)
Theorem int64ToString_roundtrip (n : Z) (Hr : in_int64 n) :
  exists s, int64ToString n = Some s /\
    (n <> int64_min -> ParseInt s = Some n) /\ (n = int64_min -> s = "-" /\ ParseInt s = None).
Proof.
  unfold int64ToString. destruct (Z.eqb_spec n 0) as [->|Hz]; [exists "0"; by split|].
  destruct (decide (n = int64_min)) as [->|Hmin]; [exists "-"; split; [reflexivity|by split]|].
  unfold in_int64, int64_min, int64_max in *.
  assert (exists j ds, fill_digits 20 (Z.abs n) "" = Some (S j, ds) /\ parse_digits 0 ds = Some (Z.abs n))
    as (j & ds & F & P) by (apply (fill_digits_parse 19); change (10 ^ Z.of_nat 19) with 10000000000000000000; lia).
  destruct (fill_digits_head _ _ _ _ _ F) as [_ Hh].
  destruct Hh as (k & s & Hk & ->); [lia|].
  assert (parse_nat (String (digit_char k) s) = Some (Z.abs n)) as Pn by exact P.
  assert (forall z, -9223372036854775808 <= z <= 9223372036854775807 ->
    (int64_min <=? z) && (z <=? int64_max) = true) as Hin.
  { intros z [H1 H2]. apply andb_true_iff. split; apply Z.leb_le; done. }
  destruct (Z.ltb_spec n 0).
  - rewrite neg64_exact by done. replace (- n) with (Z.abs n) by lia. rewrite F.
    exists (String "-" (String (digit_char k) s)). split; [done|]. split; [intros _|done].
    unfold ParseInt, parse_big. rewrite Pn. cbn [fmap option_fmap option_map mbind option_bind].
    replace (- Z.abs n) with n by lia. by rewrite Hin.
  - rewrite Z.abs_eq in F, Pn by lia. rewrite F. exists (String (digit_char k) s). split; [done|].
    split; [intros _|done]. unfold ParseInt. assert (parse_big (String (digit_char k) s) = Some n) as ->.
    { clear - Pn Hk. assert (k = 0 \/ k = 1 \/ k = 2 \/ k = 3 \/ k = 4 \/ k = 5 \/ k = 6 \/ k = 7 \/ k = 8 \/ k = 9)
        as Hk' by lia. repeat (destruct Hk' as [->|Hk']; [exact Pn|]). by subst k. }
    cbn. by rewrite Hin.
Qed.

Example int64ToString_roundtrip_witness :
  exists s, int64ToString (-9223372036854775807) = Some s /\
    (-9223372036854775807 <> int64_min -> ParseInt s = Some (-9223372036854775807)) /\
    (-9223372036854775807 = int64_min -> s = "-" /\ ParseInt s = None).
Proof. apply (int64ToString_roundtrip (-9223372036854775807)). vm_compute. split; discriminate. Defined.

(** Two system quotas can be created: their entity_id is NULL, so the UNIQUE
    constraint does not see a conflict, and which one applies is up to the
    database. *)
Example duplicate_system_quota :
  let d1 := snd (QuotaCreate "system" "" 1000 (set_quotas [] quota_db)) in
  let d2 := snd (QuotaCreate "system" "" 10 d1) in
  map q_max_bytes (List.filter (limit_matches "system" None) (quotas d2)) = [1000; 10].
Proof. vm_compute. reflexivity. Qed.
