(* ===== verification/Settings.v ===== *)
(** * Runtime settings (src/internal/services/settings.go,
    settings_validation.go, settings_cache.go)

    The settings table with its audited, validated update, and the in-memory
    cache with a 30 second life the worker and the sweeper read through. The
    export and import of the configuration are in SettingsHandlers. *)

From S2P Require Import Prelude GoLib Sql Schema.

(** ** Validators *)

(** A validator rejects with a reason. *)
Definition validator : Type := string -> option string.

Definition oneOf (allowed : list string) : validator := fun s =>
  if existsb (String.eqb s) allowed then None else Some "must be one of: ".

Definition intInRange (min max : Z) : validator := fun s =>
  match Atoi s with
  | None => Some "must be an integer: "
  | Some n => if (n <? min) || (max <? n) then Some "must be between" else None
  end.

Definition optionalIntInRange (min max : Z) : validator := fun s =>
  if String.eqb s "" then None else intInRange min max s.

Definition typedValidators (key : string) : option validator :=
  match key with
  | "antd_quote_timeout_secs" => Some (intInRange 1 3600)
  | "antd_health_probe_timeout_secs" => Some (intInRange 1 120)
  | "notifier_method" => Some (oneOf ["auto"; "smtp"; "webhook"; "noop"])
  | "registration_enabled" => Some (oneOf ["true"; "false"])
  | "payment_confirmation_timeout_seconds" => Some (optionalIntInRange 30 3600)
  | "max_concurrent_downloads" => Some (optionalIntInRange 1 1000)
  | "download_queue_wait_secs" => Some (optionalIntInRange 0 600)
  | "download_cache_max_bytes" => Some (optionalIntInRange 0 (2 ^ 50))
  | "download_cache_max_object_bytes" => Some (optionalIntInRange 1 (2 ^ 40))
  | "download_cache_min_uses" => Some (optionalIntInRange 1 100)
  | "download_cache_inactive_secs" => Some (optionalIntInRange 0 315360000)
  | "download_cache_seed_on_upload" => Some (oneOf ["true"; "false"])
  | "download_cache_private" => Some (oneOf ["true"; "false"])
  | _ => None
  end.

(** ** SettingsService *)

(** key is the primary key of settings. *)
Definition setting (key : string) (d : Db) : option string :=
  snd <$> List.find (fun kv => String.eqb (fst kv) key) (settings d).

Definition GetAll : DbM (gmap string string) :=
  query (fun d => fold_left (fun m kv => <[fst kv := snd kv]> m) (settings d) ∅).

Definition Get (key : string) : DbM string := query_row (setting key).

(** [INSERT ... ON CONFLICT(key) DO UPDATE]. *)
Definition upsert (key value : string) (t : list (string * string)) : list (string * string) :=
  if existsb (fun kv => String.eqb (fst kv) key) t
  then update (fun kv => String.eqb (fst kv) key) (fun kv => (fst kv, value)) t
  else t ++ [(key, value)].

Definition SetInternal (key value : string) : DbM unit :=
  exec (fun d => set_settings (upsert key value (settings d)) d).

(** The changes in the order the map yields them. *)
Fixpoint validate_changes (changes : list (string * string)) : result error unit :=
  match changes with
  | [] => Ok tt
  | (key, v) :: rest =>
      match typedValidators key with
      | Some f => match f v with
                  | Some reason => Err (EValidation key reason)
                  | None => validate_changes rest
                  end
      | None => validate_changes rest
      end
  end.

(** updated_by and changed_by reference users. *)
Definition check_user (userID : Z) : DbM unit :=
  ok ← gets (fun d => existsb (Z.eqb userID) (users d));
  if (ok : bool) then mret tt else fail (ESentinel ErrForeignKey).

(** [INSERT INTO config_audit]; its rows are never deleted, so the next id is
    their number and one. *)
Definition log_change (userID : Z) (ipAddress userAgent key : string) (old : option string) (v : string) (d : Db) : Db :=
  set_config_audit (config_audit d ++
    [mkConfigAudit (Z.of_nat (length (config_audit d)) + 1) key old v userID ipAddress userAgent (current_timestamp d)]) d.

Section update.
Context (userID : Z) (ipAddress userAgent : string).

Definition apply_change (key v : string) : DbM unit :=
  r ← try (query_row (setting key));
  let old := match r with Ok x => Some x | Err _ => None end in
  stmt ;; check_user userID ;;
  modify (fun d => set_settings (upsert key v (settings d)) d) ;;
  stmt ;; check_user userID ;;
  modify (log_change userID ipAddress userAgent key old v).

Fixpoint apply_changes (changes : list (string * string)) : DbM unit :=
  match changes with
  | [] => mret tt
  | (key, v) :: rest => apply_change key v ;; apply_changes rest
  end.
End update.

Definition Update (changes : list (string * string)) (userID : Z) (ipAddress userAgent : string) : DbM unit :=
  of_result (validate_changes changes) ;;
  in_tx (apply_changes userID ipAddress userAgent changes ;; mret (Commit tt)).

Definition Import (data : list (string * string)) (userID : Z) (ipAddress userAgent : string) : DbM unit :=
  Update data userID ipAddress userAgent.

Definition clamp_audit_limit (n : Z) : Z :=
  let n := if n <=? 0 then 100 else n in if 500 <? n then 500 else n.

(** ** CachedSettingsService *)

Record CachedSettings := mkCached {
  c_db : Db;
  c_cache : gmap string (string * Z);  (* value, expiresAt *)
}.

Definition set_c_db (d : Db) (c : CachedSettings) : CachedSettings := mkCached d (c_cache c).

Abbreviation SetM := (ST error CachedSettings).

Definition ttl : Z := 30 * second.

Definition inner {A} (m : DbM A) : SetM A := zoom c_db set_c_db m.

Definition CachedGet (key : string) : SetM string :=
  c ← get;
  match c_cache c !! key with
  | Some (v, expiresAt) => if now (c_db c) <? expiresAt then mret v else
      v ← inner (Get key);
      modify (fun c => mkCached (c_db c) (<[key := (v, now (c_db c) + ttl)]> (c_cache c))) ;; mret v
  | None =>
      v ← inner (Get key);
      modify (fun c => mkCached (c_db c) (<[key := (v, now (c_db c) + ttl)]> (c_cache c))) ;; mret v
  end.

Definition Invalidate (key : string) (c : CachedSettings) : CachedSettings :=
  mkCached (c_db c) (delete key (c_cache c)).

Definition InvalidateAll (c : CachedSettings) : CachedSettings := mkCached (c_db c) ∅.

Definition GetIntWithBounds (key : string) (fallback min max : Z) : SetM Z :=
  r ← try (CachedGet key);
  match r with
  | Err _ => mret fallback
  | Ok v => if String.eqb v "" then mret fallback else
      match Atoi v with
      | None => mret fallback
      | Some n => if (n <? min) || (max <? n) then mret fallback else mret n
      end
  end.

Definition GetBool (key : string) (fallback : bool) : SetM bool :=
  r ← try (CachedGet key);
  match r with
  | Err _ => mret fallback
  | Ok v => if String.eqb v "" then mret fallback else mret (String.eqb v "true")
  end.

(** * Properties *)

Lemma setting_upsert key v d d' : settings d' = upsert key v (settings d) ->
  forall k, setting k d' = if String.eqb k key then Some v else setting k d.
Proof.
  intros E k. unfold setting. rewrite E. clear E d'. unfold upsert, update.
  destruct (existsb _ _) eqn:Hex; revert Hex; induction (settings d) as [|[k0 v0] t IH]; cbn.
  - done.
  - intros Hex. destruct (String.eqb_spec k0 key) as [->|Hne]; cbn.
    + destruct (String.eqb_spec key k) as [->|]; cbn; [by rewrite String.eqb_refl|].
      rewrite (proj2 (String.eqb_neq k key)) in * by done. clear IH Hex.
      induction t as [|[k1 v1] t IH]; cbn; [done|].
      destruct (String.eqb_spec k1 key) as [->|]; cbn.
      * rewrite (proj2 (String.eqb_neq key k)) by done. done.
      * destruct (String.eqb k1 k); [done|]. exact IH.
    + destruct (String.eqb_spec k0 k) as [->|]; cbn; [by rewrite (proj2 (String.eqb_neq k key))|by apply IH].
  - intros _. destruct (String.eqb_spec key k) as [->|]; [by rewrite String.eqb_refl|].
    by rewrite (proj2 (String.eqb_neq k key)).
  - intros Hex. apply orb_false_elim in Hex as [E1 E2]. specialize (IH E2).
    destruct (String.eqb_spec k0 k) as [->|]; cbn; [by rewrite E1|done].
Qed.

(** The changes, applied to what the table says of a key. *)
Definition after_changes (changes : list (string * string)) (k : string) (o : option string) : option string :=
  fold_left (fun o kv => if String.eqb k (fst kv) then Some (snd kv) else o) changes o.

Lemma validate_changes_ok changes : validate_changes changes = Ok tt ->
  forall key v f, In (key, v) changes -> typedValidators key = Some f -> f v = None.
Proof.
  induction changes as [|[k v] rest IH]; cbn; [done|]. intros H key v' f [[= <- <-]|Hin] Hf.
  - rewrite Hf in H. by destruct (f v).
  - destruct (typedValidators k) as [g|]; [destruct (g v); [done|]|]; eauto.
Qed.

(** What an update may touch: the settings and their audit trail. *)
Definition only_settings (d d' : Db) : Prop :=
  exists s a fs, d' = set_faults fs (set_config_audit a (set_settings s d)).

#[export] Instance only_settings_preorder : PreOrder only_settings.
Proof.
  split.
  - intros d. exists (settings d), (config_audit d), (faults d). by destruct d.
  - intros d1 d2 d3 (s & a & fs & ->) (s' & a' & fs' & ->). exists s', a', fs'. by destruct d1.
Qed.

#[export] Instance only_settings_fault_blind : FaultBlind only_settings.
Proof. intros d fs. exists (settings d), (config_audit d), fs. by destruct d. Qed.

Lemma only_settings_set s d : only_settings d (set_settings s d).
Proof. exists s, (config_audit d), (faults d). by destruct d. Qed.

Lemma only_settings_audit a d : only_settings d (set_config_audit a d).
Proof. exists (settings d), a, (faults d). by destruct d. Qed.

Lemma steps_apply_changes u ip ua changes : steps only_settings (apply_changes u ip ua changes).
Proof.
  induction changes as [|[key v] rest IH]; cbn; [apply steps_ret; apply _|].
  unfold apply_change, check_user. steps_go; try apply steps_modify; try exact IH; try intros d.
  - apply only_settings_set.
  - apply only_settings_audit.
Qed.

(** Who an entry is attributed to. *)
Definition logged_by (u : Z) (ip ua : string) (e : ConfigAudit) : Prop :=
  ca_changed_by e = u /\ ca_ip_address e = ip /\ ca_user_agent e = ua.

Lemma apply_change_ok u ip ua key v d x d' : apply_change u ip ua key v d = (Ok x, d') ->
  (forall k, setting k d' = if String.eqb k key then Some v else setting k d) /\
  (exists e, config_audit d' = config_audit d ++ [e] /\ (ca_setting_key e, ca_new_value e) = (key, v) /\ logged_by u ip ua e).
Proof.
  unfold apply_change, try, check_user. intros H.
  apply bind_ok in H as (r & d1 & Hr & H).
  assert (exists fs, d1 = set_faults fs d) as [fs1 ->].
  { destruct (query_row _ d) as [[a|e] d0] eqn:E; injection Hr as <- <-.
    - apply query_row_ok in E as (fs & _ & ->). eauto.
    - apply query_row_err in E as (fs & -> & _). eauto. }
  apply bind_ok in H as ([] & d2 & Hs & H). apply stmt_ok in Hs as [fs2 ->].
  apply bind_ok in H as ([] & d3 & Hc & H). run_cbn Hc.
  destruct (existsb _ _) eqn:E1; [|done]. injection Hc as <-.
  apply bind_ok in H as ([] & d4 & Hm & H). run_cbn Hm. injection Hm as <-.
  apply bind_ok in H as ([] & d5 & Hs & H). apply stmt_ok in Hs as [fs3 ->].
  apply bind_ok in H as ([] & d6 & Hc & H). run_cbn Hc. rewrite E1 in Hc. injection Hc as <-.
  run_cbn H. injection H as _ <-. split; [by apply setting_upsert|]. by eexists.
Qed.

Lemma apply_changes_ok u ip ua changes : forall d x d', apply_changes u ip ua changes d = (Ok x, d') ->
  (forall k, setting k d' = after_changes changes k (setting k d)) /\
  (exists es, config_audit d' = config_audit d ++ es /\
     map (fun e => (ca_setting_key e, ca_new_value e)) es = changes /\ Forall (logged_by u ip ua) es).
Proof.
  induction changes as [|[key v] rest IH]; cbn; intros d x d' H.
  - run_cbn H. injection H as _ <-. split; [done|]. exists []. by rewrite app_nil_r.
  - apply bind_ok in H as ([] & d1 & H1 & H). apply apply_change_ok in H1 as (Hk & e & Ho & Hkv & Hby).
    apply IH in H as (Hk' & (es & He & Hm & Hu)). split.
    + intros k. unfold after_changes. cbn. rewrite Hk', Hk. done.
    + exists (e :: es). cbn. rewrite He, Ho, <- app_assoc, Hm, Hkv. split; [done|]. split; [done|].
      by constructor.
Qed.

(** What an update that returns has done. *)
Definition updated (changes : list (string * string)) (u : Z) (ip ua : string) (d d' : Db) : Prop :=
  (forall key v f, In (key, v) changes -> typedValidators key = Some f -> f v = None) /\
  (forall k, setting k d' = after_changes changes k (setting k d)) /\
  (exists es, config_audit d' = config_audit d ++ es /\
     map (fun e => (ca_setting_key e, ca_new_value e)) es = changes /\ Forall (logged_by u ip ua) es) /\
  only_settings d d'.

Lemma Update_ok (changes : list (string * string)) (u : Z) (ip ua : string) (d : Db) x d' :
  Update changes u ip ua d = (Ok x, d') -> updated changes u ip ua d d'.
Proof.
  unfold Update. intros E. apply bind_ok in E as ([] & d0 & Hv & E). run_cbn Hv. injection Hv as Hv <-.
  split; [by apply validate_changes_ok|]. apply in_tx_ok in E as [(fs & d1 & Hb & ->)|(fs & d1 & Hb & ->)].
  - apply bind_ok in Hb as ([] & d2 & Hb & Hr). run_cbn Hr. injection Hr as _ <-.
    pose proof (steps_apply_changes u ip ua changes (set_faults fs d)) as Ho. rewrite Hb in Ho. cbn in Ho.
    apply apply_changes_ok in Hb as [H1 H2]. split; [exact H1|]. split; [exact H2|].
    etransitivity; [|etransitivity; [exact Ho|]]; apply fault_blind.
  - exfalso. apply bind_ok in Hb as ([] & d2 & Hb & Hr). by run_cbn Hr.
Qed.

(** A settings PATCH is validated, atomic and audited: when Update returns
    without error every change passed its key's validator and is stored, no
    other key moved, and the audit trail gained exactly one entry per change,
    attributed to the user, the address and the agent; when it fails, for whatever reason, nothing in the
    database has changed. *)
Theorem Update_atomic (changes : list (string * string)) (u : Z) (ip ua : string) (d : Db) :
  match Update changes u ip ua d with
  | (Ok _, d') =>
      (forall key v f, In (key, v) changes -> typedValidators key = Some f -> f v = None) /\
      (forall k, setting k d' = after_changes changes k (setting k d)) /\
      (exists es, config_audit d' = config_audit d ++ es /\
         map (fun e => (ca_setting_key e, ca_new_value e)) es = changes /\ Forall (logged_by u ip ua) es) /\
      only_settings d d'
  | (Err _, d') => same_data d d'
  end.
Proof.
  destruct (Update changes u ip ua d) as [[x|e] d'] eqn:E; [by eapply Update_ok|].
  unfold Update, mbind, ST_bind, of_result in E. destruct (validate_changes changes); [|by injection E as _ <-].
  by apply in_tx_err in E.
Qed.

(** ** Reading through the cache *)

Lemma Get_ok key d v d' : Get key d = (Ok v, d') -> (exists fs, d' = set_faults fs d) /\ setting key d = Some v.
Proof. intros H. apply query_row_ok in H as (fs & Hs & ->). eauto. Qed.

(** What a lookup does: a live entry is the answer and nothing is read; else
    the answer is the database's and becomes the entry. *)
Lemma CachedGet_ok key c v c' : CachedGet key c = (Ok v, c') ->
  (c' = c /\ exists e, c_cache c !! key = Some (v, e) /\ now (c_db c) < e) \/
  (setting key (c_db c) = Some v /\ (exists fs, c_db c' = set_faults fs (c_db c)) /\
   c_cache c' = <[key := (v, now (c_db c) + ttl)]> (c_cache c)).
Proof.
  assert (forall c', (v ← inner (Get key);
      modify (fun c => mkCached (c_db c) (<[key := (v, now (c_db c) + ttl)]> (c_cache c))) ;; mret v) c
      = (Ok v, c') ->
    setting key (c_db c) = Some v /\ (exists fs, c_db c' = set_faults fs (c_db c)) /\
    c_cache c' = <[key := (v, now (c_db c) + ttl)]> (c_cache c)) as Hmiss.
  { intros c1 H. apply bind_ok in H as (w & c2 & Hi & H). unfold inner, zoom in Hi.
    destruct (Get key (c_db c)) as [r d1] eqn:E. injection Hi as -> <-.
    apply Get_ok in E as [[fs ->] Hs]. run_cbn H. injection H as <- <-. cbn. eauto. }
  unfold CachedGet. intros H. apply bind_ok in H as (c0 & c1 & Hg & H). injection Hg as <- <-.
  destruct (c_cache c !! key) as [[w e]|] eqn:E; [|right; by apply Hmiss].
  destruct (Z.ltb_spec (now (c_db c)) e); [|right; by apply Hmiss].
  run_cbn H. injection H as <- <-. left. split; [done|]. by exists e.
Qed.

Lemma CachedGet_err key c e c' : CachedGet key c = (Err e, c') ->
  c_cache c' = c_cache c /\ exists fs, c_db c' = set_faults fs (c_db c).
Proof.
  assert (forall (f : string -> SetM string) c', (v ← inner (Get key); f v) c = (Err e, c') ->
    (forall v c, is_ok (fst (f v c)) = true) ->
    c_cache c' = c_cache c /\ exists fs, c_db c' = set_faults fs (c_db c)) as Hmiss.
  { intros f c1 H Hf. unfold mbind, ST_bind, inner, zoom in H.
    destruct (Get key (c_db c)) as [[w|e'] d1] eqn:E.
    - specialize (Hf w (set_c_db d1 c)). by rewrite H in Hf.
    - injection H as _ <-. apply query_row_err in E as (fs & -> & _). cbn. eauto. }
  unfold CachedGet, get. intros H. unfold mbind at 1, ST_bind at 1 in H. cbv beta iota in H.
  destruct (c_cache c !! key) as [[w x]|]; [destruct (now (c_db c) <? x); [done|]|];
    (eapply Hmiss; [exact H|done]).
Qed.

Lemma GetIntWithBounds_run key fallback min max c :
  exists n c', GetIntWithBounds key fallback min max c = (Ok n, c') /\ (n = fallback \/ min <= n <= max).
Proof.
  unfold GetIntWithBounds, try, mbind, ST_bind. destruct (CachedGet key c) as [[v|e] c']; [|eauto 10].
  destruct (String.eqb v ""); [eauto 10|]. destruct (Atoi v) as [n|]; [|eauto 10].
  destruct (Z.ltb_spec n min), (Z.ltb_spec max n); cbn; try (eexists _, _; split; [done|by left]).
  eexists _, _. split; [done|]. right. lia.
Qed.

(** A bounded read never leaves its bounds and never fails: whatever the
    table holds and whatever the database does, the result is the fallback or
    an integer between min and max that is the decimal value of a stored or
    cached string. *)
Theorem GetIntWithBounds_total (key : string) (fallback min max : Z) (c : CachedSettings) :
  exists n c', GetIntWithBounds key fallback min max c = (Ok n, c') /\
    (n = fallback \/ (min <= n <= max /\ exists v, Atoi v = Some n /\
       (setting key (c_db c) = Some v \/ exists e, c_cache c !! key = Some (v, e) /\ now (c_db c) < e))).
Proof.
  unfold GetIntWithBounds, try, mbind, ST_bind. destruct (CachedGet key c) as [[v|e] c'] eqn:E; [|eauto 10].
  destruct (String.eqb v ""); [eauto 10|]. destruct (Atoi v) as [n|] eqn:Hn; [|eauto 10].
  destruct (Z.ltb_spec n min), (Z.ltb_spec max n); cbn; try (eexists _, _; split; [done|by left]).
  eexists _, _. split; [done|]. right. split; [lia|]. exists v. split; [done|].
  apply CachedGet_ok in E as [[_ (x & ? & ?)]|[? _]]; eauto.
Qed.

(** *** Staleness *)

Inductive cached_op :=
| OpGet (key : string)
| OpInvalidate (key : string)
| OpInvalidateAll
| OpTick (ns : Z).

Definition run_cached (o : cached_op) (c : CachedSettings) : CachedSettings :=
  match o with
  | OpGet k => snd (CachedGet k c)
  | OpInvalidate k => Invalidate k c
  | OpInvalidateAll => InvalidateAll c
  | OpTick ns => set_c_db (set_now (now (c_db c) + Z.max 0 ns) (c_db c)) c
  end.

Definition run_cached_all (os : list cached_op) (c : CachedSettings) : CachedSettings :=
  fold_left (fun c o => run_cached o c) os c.

(** No entry outlives the time to live. *)
Definition cache_bounded (c : CachedSettings) : Prop :=
  forall k v e, c_cache c !! k = Some (v, e) -> e <= now (c_db c) + ttl.

(** At or after [T], entries that expire after [T + ttl] hold the value [v] of [key]. *)
Definition fresh_after (T : Z) (key : string) (v : string) (c : CachedSettings) : Prop :=
  T <= now (c_db c) /\ setting key (c_db c) = Some v /\
  forall w e, c_cache c !! key = Some (w, e) -> w = v \/ e <= T + ttl.

Lemma fresh_after_run T key v o c : fresh_after T key v c -> fresh_after T key v (run_cached o c).
Proof.
  intros (Ht & Hs & Hc). destruct o as [k|k| |ns]; cbn.
  - destruct (CachedGet k c) as [[w|e] c'] eqn:E; cbn.
    + apply CachedGet_ok in E as [[-> _]|(Hk & [fs Hd] & Hca)]; [by split|].
      unfold fresh_after. rewrite Hd, Hca. split; [done|]. split; [done|]. intros w' e'.
      destruct (decide (k = key)) as [->|]; [|rewrite lookup_insert_ne by done; apply Hc].
      rewrite lookup_insert_eq. intros [= <- _]. left. congruence.
    + apply CachedGet_err in E as (Hca & [fs Hd]). unfold fresh_after. by rewrite Hd, Hca.
  - split; [done|]. split; [done|]. intros w e. unfold Invalidate. cbn [c_cache]. destruct (decide (k = key)) as [->|].
    + by rewrite lookup_delete_eq.
    + rewrite lookup_delete_ne by done. apply Hc.
  - split; [done|]. split; [done|]. intros w e. unfold InvalidateAll. cbn [c_cache].
    by rewrite lookup_empty.
  - split; [cbn; lia|]. split; [exact Hs|exact Hc].
Qed.

(** A cached setting is at most 30 seconds stale: from a moment when the
    database holds a value and no cache entry outlives the time to live, after
    any sequence of reads, invalidations and clock advances that takes at least
    30 seconds, every read that succeeds returns the database's value. *)
Theorem CachedGet_staleness (os : list cached_op) (key v : string) (c : CachedSettings)
    (Hb : cache_bounded c) (Hs : setting key (c_db c) = Some v)
    (Ht : now (c_db c) + ttl <= now (c_db (run_cached_all os c))) :
  forall w c', CachedGet key (run_cached_all os c) = (Ok w, c') -> w = v.
Proof.
  assert (fresh_after (now (c_db c)) key v (run_cached_all os c)) as (_ & Hs' & Hc).
  { assert (fresh_after (now (c_db c)) key v c) as Hf by (split; [lia|]; split; [done|]; intros; right; eauto).
    revert Hf. generalize (now (c_db c)) as T. clear. revert c. induction os as [|o os IH]; intros c T Hf; [done|].
    cbn. apply IH. by apply fresh_after_run. }
  intros w c' H. apply CachedGet_ok in H as [[_ (e & Hk & Hlt)]|[Hk _]]; [|congruence].
  destruct (Hc _ _ Hk); [done|lia].
Qed.

(** The cache holds an old value of a setting that has just changed. *)
Definition stale_settings : CachedSettings :=
  mkCached (mkDb [] 0 [] 0 [] 0 [] [] [] [] [] 0 [] [] [("max_gas_fee", "10")] [] [] 0 [] 100 [])
    {["max_gas_fee" := ("5", 100 + ttl)]}.

Example CachedGet_staleness_witness :
  fst (CachedGet "max_gas_fee" stale_settings) = Ok "5" /\
  (forall w c', CachedGet "max_gas_fee" (run_cached_all [OpGet "max_gas_fee"; OpTick ttl] stale_settings) = (Ok w, c') ->
     w = "10").
Proof.
  split; [vm_compute; reflexivity|].
  apply (CachedGet_staleness [OpGet "max_gas_fee"; OpTick ttl] "max_gas_fee" "10" stale_settings).
  - intros k v e. unfold stale_settings. cbn [c_cache c_db now].
    rewrite lookup_singleton_Some. intros [_ [= <- <-]]. lia.
  - reflexivity.
  - vm_compute. discriminate.
Defined.
