(* ===== verification/Keyring.v ===== *)
(** * Secrets at rest (src/internal/crypto, src/internal/services/keyrotation.go,
    src/internal/services/wallet.go)

    AES-256-GCM envelopes tagged with a key id, the keyring that opens them,
    the wallets whose private keys they protect, and the rotation of the key.
    The cipher and the random source are interfaces: [Aead] is what crypto/aes
    and crypto/cipher provide and [AeadLaws] what their documentation promises. *)

From S2P Require Import Prelude GoLib Hex Sql Schema.
From Stdlib Require Import Ascii.

(** [gcm.Seal(nil, nonce, plaintext, nil)] and [gcm.Open(nil, nonce,
    ciphertext, nil)] of AES-GCM under a 32-byte key. *)
Class Aead := {
  Seal : list Z -> list Z -> list Z -> list Z;
  Open : list Z -> list Z -> list Z -> option (list Z);
}.

Definition is_bytes (l : list Z) : Prop := Forall (fun b => 0 <= b < 256) l.

Class AeadLaws `{!Aead} : Prop := {
  Seal_bytes k n p : is_bytes p -> is_bytes (Seal k n p);
  Open_Seal k n p : length k = 32%nat -> length n = 12%nat -> Open k n (Seal k n p) = Some p;
}.

Section encrypt.
Context {aead : Aead}.

Definition NonceSize : nat := 12.
Definition keyIDLen : nat := 8.

Definition hexKey (key : string) : result error (list Z) :=
  match DecodeString key with
  | None => Err (ENew "invalid hex key: ")
  | Some b => if (length b =? 32)%nat then Ok b else Err (ENew "key must be 32 bytes, got")
  end.

(** [rnd]: what io.ReadFull(rand.Reader, nonce) yields. *)
Definition Encrypt (rnd : option (list Z)) (key plaintext : string) : result error string :=
  match hexKey key with
  | Err e => Err e
  | Ok k =>
      match rnd with
      | None => Err (ENew "generate nonce: ")
      | Some nonce => Ok (EncodeToString (nonce ++ Seal k nonce (bytes_of plaintext)))
      end
  end.

Definition Decrypt (key ciphertextHex : string) : result error string :=
  match hexKey key with
  | Err e => Err e
  | Ok k =>
      match DecodeString ciphertextHex with
      | None => Err (ENew "decode ciphertext: ")
      | Some ct =>
          if (length ct <? NonceSize)%nat then Err (ENew "ciphertext too short") else
          match Open k (firstn NonceSize ct) (skipn NonceSize ct) with
          | None => Err (ENew "decrypt: ")
          | Some p => Ok (of_bytes p)
          end
      end
  end.

(** ** Key ids *)

Definition KeyID (hexEncodedKey : string) : result error string :=
  match hexKey hexEncodedKey with
  | Err e => Err e
  | Ok b => Ok (take_str keyIDLen (EncodeToString (Sha256.Sum256 b)))
  end.

Definition rawKeyID (secret : string) : result error string :=
  Ok (take_str keyIDLen (sha256_hex secret)).

(** ** Keyring *)

Record Keyring := mkKeyring {
  primary : string;
  order : list string;
  keys : gmap string string;
}.

Fixpoint add_extras (idFn : string -> result error string) (kr : Keyring) (extras : list string)
  : result error Keyring :=
  match extras with
  | [] => Ok kr
  | e :: rest =>
      match idFn e with
      | Err err => Err (EWrap "extra key: " [err])
      | Ok id =>
          match keys kr !! id with
          | Some _ => add_extras idFn kr rest
          | None => add_extras idFn (mkKeyring (primary kr) (order kr ++ [id]) (<[id := e]> (keys kr))) rest
          end
      end
  end.

Definition newKeyring (idFn : string -> result error string) (prim : string) (extras : list string)
  : result error Keyring :=
  match idFn prim with
  | Err err => Err (EWrap "primary key: " [err])
  | Ok pid => add_extras idFn (mkKeyring pid [pid] {[pid := prim]}) extras
  end.

Definition NewKeyring (prim : string) (extras : list string) : result error Keyring := newKeyring KeyID prim extras.
Definition NewKeyringRaw (prim : string) (previous : list string) : result error Keyring :=
  newKeyring rawKeyID prim previous.

(** Indexing a Go map with an absent key yields the empty string. *)
Definition key_of (kr : Keyring) (id : string) : string := default "" (keys kr !! id).

Definition PrimaryID (kr : Keyring) : string := primary kr.
Definition Primary (kr : Keyring) : string := key_of kr (primary kr).
Definition Previous (kr : Keyring) : list string := map (key_of kr) (tail (order kr)).

Definition kr_Encrypt (rnd : option (list Z)) (kr : Keyring) (plaintext : string) : result error string :=
  match Encrypt rnd (key_of kr (primary kr)) plaintext with
  | Err e => Err e
  | Ok ct => Ok (primary kr +:+ ":" +:+ ct)
  end.

Definition kr_Decrypt (kr : Keyring) (envelope : string) : result error string :=
  match Cut envelope ":" with
  | Some (id, payload) =>
      match keys kr !! id with
      | None => Err (ENew "no key available for key-id")
      | Some key => Decrypt key payload
      end
  | None => Decrypt (key_of kr (primary kr)) envelope
  end.

(** ** Wallets *)

(** [rnd i]: the i-th draw from the random source. *)
Context (rnd : nat -> option (list Z)).

Definition no_rows_wallet (e' : error) (e : error) : error := if errors_is e ErrNoRows then e' else e.

Definition WalletGetByID (id : Z) : DbM Wallet :=
  map_err (no_rows_wallet (ESentinel ErrWalletNotFound)) (query_row (fun d => find_id id (wallets d))).

Definition WalletCreate (kr : Keyring) (name address privateKey : string) : DbM Wallet :=
  encryptedKey ← of_result (kr_Encrypt (rnd 0) kr privateKey);
  count ← map_err (fun e => EWrap "failed to check existing wallets: " [e])
            (query (fun d => Z.of_nat (length (wallets d))));
  let isDefault := count =? 0 in
  stmt ;; d ← get;
  let id := seq_wallets d + 1 in
  modify (fun d => set_seq_wallets id (set_wallets
    (wallets d ++ [mkWallet id name address encryptedKey isDefault "0" "0" (current_timestamp d) (current_timestamp d)]) d)) ;;
  WalletGetByID id.

Definition GetDefault : DbM Wallet :=
  map_err (no_rows_wallet (ESentinel ErrNoDefaultWallet)) (query_row (fun d => List.find w_is_default (wallets d))).

Definition WalletList : DbM (list Wallet) :=
  query (fun d => order_by (fun a b => w_created_at a <=? w_created_at b) (wallets d)).

Definition with_default (b : bool) (w : Wallet) : Wallet :=
  mkWallet (w_id w) (w_name w) (w_address w) (w_encrypted_key w) b (w_payment_balance w) (w_gas_balance w)
    (w_created_at w) (w_updated_at w).
Definition with_key (k : string) (w : Wallet) : Wallet :=
  mkWallet (w_id w) (w_name w) (w_address w) k (w_is_default w) (w_payment_balance w) (w_gas_balance w)
    (w_created_at w) (w_updated_at w).
Definition with_balances (p g : string) (w : Wallet) : Wallet :=
  mkWallet (w_id w) (w_name w) (w_address w) (w_encrypted_key w) (w_is_default w) p g (w_created_at w) (w_updated_at w).
Definition touched (t : Z) (w : Wallet) : Wallet :=
  mkWallet (w_id w) (w_name w) (w_address w) (w_encrypted_key w) (w_is_default w) (w_payment_balance w) (w_gas_balance w)
    (w_created_at w) t.

Definition SetDefault (id : Z) : DbM unit :=
  in_tx (
    r ← try (query (fun d => negb (affected (by_id id) (wallets d) =? 0)));
    match r with
    | Ok true =>
        exec (fun d => set_wallets (update (fun _ => true) (with_default false) (wallets d)) d) ;;
        exec (fun d => set_wallets (update (by_id id) (fun w => touched (current_timestamp d) (with_default true w)) (wallets d)) d) ;;
        mret (Commit tt)
    | _ => fail (ESentinel ErrWalletNotFound)
    end).

(** transactions.wallet_id references wallets: the driver's error is returned. *)
Definition WalletDelete (id : Z) : DbM unit :=
  r ← try (query_row (fun d => w_is_default <$> find_id id (wallets d)));
  match r with
  | Err _ => fail (ESentinel ErrWalletNotFound)
  | Ok true => fail (ESentinel ErrDeleteDefault)
  | Ok false =>
      stmt ;; refs ← gets (fun d => existsb (fun t => t_wallet_id t =? id) (transactions d));
      if (refs : bool) then fail (ESentinel ErrForeignKey)
      else modify (fun d => set_wallets (delete_where (by_id id) (wallets d)) d)
  end.

Definition DecryptKey (kr : Keyring) (w : Wallet) : result error string := kr_Decrypt kr (w_encrypted_key w).

Definition UpdateBalance (id : Z) (paymentBalance gasBalance : string) : DbM unit :=
  exec (fun d => set_wallets (update (by_id id) (fun w => touched (current_timestamp d) (with_balances paymentBalance gasBalance w)) (wallets d)) d).

(** ** RotateEncryptionKey *)

Record RotationResult := mkRotation {
  rr_Wallets : Z; rr_OIDCProviders : Z; rr_OldKeyID : string; rr_NewKeyID : string;
}.

(** Decrypt and re-encrypt the rows of a table; [i] counts the draws. *)
Fixpoint reencrypt (decKR encKR : Keyring) (what : string) (i : nat) (rows : list (Z * string))
  : result error (list (Z * string)) :=
  match rows with
  | [] => Ok []
  | (id, enc) :: rest =>
      match kr_Decrypt decKR enc with
      | Err e => Err (EWrap ("decrypt " +:+ what) [e])
      | Ok plain =>
          match kr_Encrypt (rnd i) encKR plain with
          | Err e => Err (EWrap ("re-encrypt " +:+ what) [e])
          | Ok newEnc =>
              match reencrypt decKR encKR what (S i) rest with
              | Err e => Err e
              | Ok out => Ok ((id, newEnc) :: out)
              end
          end
      end
  end.

Fixpoint update_wallet_keys (rows : list (Z * string)) : DbM unit :=
  match rows with
  | [] => mret tt
  | (id, v) :: rest =>
      map_err (fun e => EWrap "update wallet" [e])
        (exec (fun d => set_wallets (update (by_id id) (with_key v) (wallets d)) d)) ;;
      update_wallet_keys rest
  end.

Fixpoint update_provider_secrets (rows : list (Z * string)) : DbM unit :=
  match rows with
  | [] => mret tt
  | (id, v) :: rest =>
      map_err (fun e => EWrap "update oidc provider" [e])
        (exec (fun d => set_oidc_providers
           (update (fun p => fst p =? id) (fun p => (fst p, v)) (oidc_providers d)) d)) ;;
      update_provider_secrets rest
  end.

Definition RotateEncryptionKey (oldHexKey newHexKey : string) : DbM RotationResult :=
  decKR ← map_err (fun e => EWrap "build decrypt keyring: " [e]) (of_result (NewKeyring oldHexKey [newHexKey]));
  encKR ← map_err (fun e => EWrap "build encrypt keyring: " [e]) (of_result (NewKeyring newHexKey []));
  let oldID := match KeyID oldHexKey with Ok i => i | Err _ => "" end in
  in_tx (
    ws ← map_err (fun e => EWrap "list wallets: " [e])
           (query (fun d => map (fun w => (w_id w, w_encrypted_key w)) (wallets d)));
    ws' ← of_result (reencrypt decKR encKR "wallet" 0 ws);
    update_wallet_keys ws' ;;
    ps ← map_err (fun e => EWrap "list oidc providers: " [e]) (query oidc_providers);
    ps' ← of_result (reencrypt decKR encKR "oidc provider" (length ws) ps);
    update_provider_secrets ps' ;;
    mret (Commit (mkRotation (Z.of_nat (length ws')) (Z.of_nat (length ps')) oldID (PrimaryID encKR)))).
End encrypt.

(** * Properties *)

Lemma Cut_app a sep b : string_forallb (fun c => negb (Ascii.eqb c sep)) a = true ->
  Cut (a +:+ String sep b) sep = Some (a, b).
Proof.
  induction a as [|c a IH]; cbn [string_forallb].
  - intros _. change ("" +:+ String sep b) with (String sep b). cbn. by rewrite Ascii.eqb_refl.
  - intros [Hc Ha]%andb_prop. apply negb_true_iff in Hc.
    change (String c a +:+ String sep b) with (String c (a +:+ String sep b)). cbn [Cut].
    by rewrite Hc, (IH Ha).
Qed.

Lemma take_str_forallb p n s : string_forallb p s = true -> string_forallb p (take_str n s) = true.
Proof.
  revert s. induction n as [|n IH]; intros [|c s]; cbn; try done. intros [-> Hs]%andb_prop. by apply IH.
Qed.

Lemma lower_hex_no_colon s : string_forallb is_lower_hex s = true ->
  string_forallb (fun c => negb (Ascii.eqb c ":")) s = true.
Proof.
  induction s as [|c s IH]; cbn; [done|]. intros [Hc Hs]%andb_prop. rewrite (IH Hs), andb_true_r.
  apply negb_true_iff, Ascii.eqb_neq. by intros ->.
Qed.

Section properties.
Context {aead : Aead} {laws : AeadLaws}.

Lemma KeyID_hex k i : KeyID k = Ok i -> string_forallb is_lower_hex i = true.
Proof.
  unfold KeyID. destruct (hexKey k) as [b|]; [|done].
  pose proof (take_str_forallb is_lower_hex keyIDLen _ (Encode_lower _ (Sha256.Sum256_range b))) as H'.
  revert H'. generalize (take_str keyIDLen (EncodeToString (Sha256.Sum256 b))). by intros s Hs [= <-].
Qed.

Lemma hexKey_length k b : hexKey k = Ok b -> length b = 32%nat.
Proof.
  unfold hexKey. destruct (DecodeString k) as [l|]; [|done].
  destruct (Nat.eqb_spec (length l) 32); [|done]. by intros [= <-].
Qed.

Lemma hexKey_KeyID k i : KeyID k = Ok i -> exists b, hexKey k = Ok b.
Proof. unfold KeyID. destruct (hexKey k); [eauto|done]. Qed.

(** AES-GCM with the nonce in front, hex encoded, opens again. *)
Lemma Decrypt_Encrypt key b nonce pt : hexKey key = Ok b -> length nonce = 12%nat -> is_bytes nonce ->
  exists ct, Encrypt (Some nonce) key pt = Ok ct /\ Decrypt key ct = Ok pt.
Proof.
  intros Hk Hn Hb. unfold Encrypt, Decrypt. rewrite Hk. eexists. split; [done|].
  rewrite Decode_Encode by (apply Forall_app; split; [done|apply Seal_bytes, bytes_of_range]).
  destruct (Nat.ltb_spec (length (nonce ++ Seal b nonce (bytes_of pt))) NonceSize) as [Hlt|_].
  - rewrite length_app, Hn in Hlt. unfold NonceSize in Hlt. lia.
  - rewrite firstn_app, skipn_app, Hn. unfold NonceSize. rewrite Nat.sub_diag. cbn [firstn skipn].
    rewrite (take_ge nonce) by lia. rewrite (drop_ge nonce) by lia. rewrite app_nil_r, drop_0. cbn [app].
    rewrite Open_Seal by (try done; by eapply hexKey_length). by rewrite of_bytes_bytes_of.
Qed.

(** What a keyring holds: every key under its own id, unless another key with
    that id came first. *)
Record holds (p : string) (es : list string) (kr : Keyring) : Prop := {
  holds_primary : KeyID p = Ok (primary kr) /\ keys kr !! primary kr = Some p;
  holds_own : forall i k, keys kr !! i = Some k -> KeyID k = Ok i /\ In k (p :: es);
  holds_all : forall e, In e (p :: es) -> exists i k, KeyID e = Ok i /\ keys kr !! i = Some k;
}.

Lemma add_extras_holds p es1 es2 kr kr' : holds p es1 kr -> add_extras KeyID kr es2 = Ok kr' ->
  holds p (es1 ++ es2) kr' /\ primary kr' = primary kr.
Proof.
  revert es1 kr. induction es2 as [|e es IH]; intros es1 kr H Hadd; cbn in Hadd.
  - injection Hadd as <-. by rewrite app_nil_r.
  - destruct (KeyID e) as [i|] eqn:Hi; [|done]. rewrite cons_middle, app_assoc.
    destruct (keys kr !! i) as [k|] eqn:Hk.
    + apply IH; [|done]. destruct H as [H1 H2 H3]. split; [done| |].
      * intros j x Hx. destruct (H2 _ _ Hx) as [? Hin]. split; [done|]. cbn. rewrite in_app_iff.
        destruct Hin; auto.
      * intros x Hx. cbn in Hx. rewrite in_app_iff in Hx.
        destruct Hx as [->|[Hx|[<-|[]]]]; [apply H3; by left|apply H3; by right|eauto].
    + apply (IH (es1 ++ [e]) (mkKeyring (primary kr) (order kr ++ [i]) (<[i:=e]> (keys kr)))) in Hadd; [done|].
      destruct H as [[H1 H1'] H2 H3]. split; cbn.
      * split; [done|]. rewrite lookup_insert_ne; [done|]. intros ->. congruence.
      * intros j x. destruct (decide (i = j)) as [->|].
        -- rewrite lookup_insert_eq. intros [= <-]. split; [done|]. right. apply in_app_iff. right. by left.
        -- rewrite lookup_insert_ne by done. intros Hx. destruct (H2 _ _ Hx) as [? Hin]. split; [done|].
           rewrite in_app_iff. destruct Hin; auto.
      * intros x Hx. rewrite in_app_iff in Hx.
        assert (In x (p :: es1) \/ x = e) as [Hin| ->] by (cbn; tauto || (cbn in *; intuition)).
        -- destruct (H3 _ Hin) as (j & y & Hj & Hy). exists j, y. split; [done|].
           rewrite lookup_insert_ne; [done|]. intros ->. congruence.
        -- exists i, e. by rewrite lookup_insert_eq.
Qed.

Lemma NewKeyring_holds p es kr : NewKeyring p es = Ok kr -> holds p es kr.
Proof.
  unfold NewKeyring, newKeyring. destruct (KeyID p) as [i|] eqn:Hi; [|done]. intros H.
  eapply (add_extras_holds p [] es) in H; [apply H|]. split; cbn.
  - by rewrite lookup_singleton_eq.
  - intros j k. rewrite lookup_singleton_Some. intros [<- <-]. auto.
  - intros e [<-|[]]. exists i, p. by rewrite lookup_singleton_eq.
Qed.

Lemma kr_Encrypt_ok p es kr rnd pt : NewKeyring p es = Ok kr ->
  kr_Encrypt rnd kr pt = match Encrypt rnd p pt with
                         | Ok ct => Ok (primary kr +:+ ":" +:+ ct) | Err e => Err e end.
Proof.
  intros H%NewKeyring_holds. destruct H as [[_ H] _ _]. unfold kr_Encrypt, key_of. by rewrite H.
Qed.

Lemma kr_Decrypt_tagged kr i k ct : KeyID k = Ok i -> keys kr !! i = Some k ->
  kr_Decrypt kr (i +:+ ":" +:+ ct) = Decrypt k ct.
Proof.
  intros Hi Hk. unfold kr_Decrypt. change (":" +:+ ct) with (String ":" ct).
  rewrite Cut_app by (eapply lower_hex_no_colon, KeyID_hex, Hi). by rewrite Hk.
Qed.

(** C9. Rotation keeps secrets readable: what a keyring seals under its
    primary key is opened, to the same text, by every keyring that was built
    with that key as primary or as history, unless two different keys of the
    second keyring share the 32-bit key id; and a keyring whose primary is
    the key itself opens it with no such condition. *)
Theorem keyring_roundtrip (p q pt : string) (es fs : list string) (kr kr2 : Keyring) (nonce : list Z)
    (H1 : NewKeyring p es = Ok kr) (H2 : NewKeyring q fs = Ok kr2) (Hn : length nonce = 12%nat)
    (Hb : is_bytes nonce) (Hin : In p (q :: fs))
    (Hcol : q = p \/ forall k, In k (q :: fs) -> KeyID k = KeyID p -> k = p) :
  exists env, kr_Encrypt (Some nonce) kr pt = Ok env /\ kr_Decrypt kr2 env = Ok pt.
Proof.
  rewrite (kr_Encrypt_ok _ _ _ _ _ H1). apply NewKeyring_holds in H1 as [[Hp _] _ _].
  apply NewKeyring_holds in H2 as [[Hq Hq'] Hown Hall].
  destruct (hexKey_KeyID _ _ Hp) as [b Hk].
  destruct (Decrypt_Encrypt p b nonce pt Hk Hn Hb) as (ct & -> & Hd).
  eexists. split; [done|]. rewrite (kr_Decrypt_tagged _ _ p); [done|done|].
  destruct Hcol as [->|Hcol]; [congruence|]. destruct (Hall p Hin) as (i & k & Hi & Hki).
  assert (i = primary kr) as -> by congruence. rewrite Hki. f_equal.
  destruct (Hown _ _ Hki) as [Hk1 Hk2]. apply Hcol; [done|congruence].
Qed.

(** ** Rotation of the stored secrets *)

Context (rnd : nat -> option (list Z)).

Definition rnd_ok : Prop := forall i n, rnd i = Some n -> length n = 12%nat /\ is_bytes n.

Lemma reencrypt_ok dec p enc what rows : rnd_ok -> NewKeyring p [] = Ok enc -> forall i out,
  reencrypt rnd dec enc what i rows = Ok out ->
  map fst out = map fst rows /\
  (forall id old, In (id, old) rows -> exists new plain,
    In (id, new) out /\ kr_Decrypt dec old = Ok plain /\ kr_Decrypt enc new = Ok plain).
Proof.
  intros Hr Henc. induction rows as [|[id old] rows IH]; cbn; intros i out H.
  - injection H as <-. done.
  - destruct (kr_Decrypt dec old) as [plain|] eqn:Hd; [|done].
    destruct (kr_Encrypt (rnd i) enc plain) as [new|] eqn:He; [|done].
    destruct (reencrypt rnd dec enc what (S i) rows) as [out'|] eqn:Hrec; [|done].
    injection H as <-. destruct (IH _ _ Hrec) as [IH1 IH2]. split; [cbn; by rewrite IH1|].
    intros id' old' [[= <- <-]|Hin].
    + exists new, plain. split; [by left|]. split; [done|].
      destruct (rnd i) as [n|] eqn:En.
      * destruct (Hr _ _ En) as [Hn Hb].
        rewrite (kr_Encrypt_ok _ _ _ _ _ Henc) in He. apply NewKeyring_holds in Henc as [[Hp Hp'] _ _].
        destruct (hexKey_KeyID _ _ Hp) as [b Hk].
        destruct (Decrypt_Encrypt p b n plain Hk Hn Hb) as (ct & Hct & Hdec).
        rewrite Hct in He. injection He as <-. by rewrite (kr_Decrypt_tagged _ _ p).
      * unfold kr_Encrypt, Encrypt in He. by destruct (hexKey _).
    + destruct (IH2 _ _ Hin) as (new' & plain' & ? & ? & ?). exists new', plain'. split; [by right|]. done.
Qed.
End properties.

Section rows.
Context {A : Type} `{!Keyed A} (setv : string -> A -> A) (Hsetv : forall v a, key (setv v a) = key a).

Definition update_rows (rows : list (Z * string)) (t : list A) : list A :=
  fold_left (fun t r => update (by_id (fst r)) (setv (snd r)) t) rows t.

Lemma update_rows_find rows : forall t i v a, List.NoDup (map fst rows) -> In (i, v) rows ->
  find_id i t = Some a -> find_id i (update_rows rows t) = Some (setv v a).
Proof.
  assert (forall rows t i, ~ In i (map fst rows) -> find_id i (update_rows rows t) = find_id i t) as Hout.
  { clear rows. induction rows as [|[j w] rows IH]; intros t i Hni; [done|]. cbn.
    rewrite IH by (intros ?; apply Hni; by right). rewrite find_id_update by apply Hsetv.
    destruct (find_id i t) as [x|] eqn:E; [|done]. cbn. apply find_id_Some in E as [_ E].
    unfold by_id. rewrite E. destruct (Z.eqb_spec i j) as [->|]; [|done]. exfalso. apply Hni. by left. }
  induction rows as [|[j w] rows IH]; cbn; intros t i v a Hnd Hin Ha; [done|].
  apply NoDup_cons_iff in Hnd as [Hj Hnd]. destruct Hin as [[= -> ->]|Hin].
  - rewrite Hout by done. rewrite find_id_update, Ha by apply Hsetv. cbn.
    apply find_id_Some in Ha as [_ <-]. unfold by_id. rewrite Z.eqb_refl. eauto.
  - apply (IH _ _ v); [done|done|]. rewrite find_id_update, Ha by apply Hsetv. cbn.
    apply find_id_Some in Ha as [_ Ha]. unfold by_id. rewrite Ha.
    destruct (Z.eqb_spec i j) as [->|]; [|done]. exfalso. apply Hj.
    change j with (fst (j, v)). by apply in_map.
Qed.
End rows.

#[local] Instance provider_keyed : Keyed (Z * string) := fst.

Lemma update_wallet_keys_ok rows : forall d x d', update_wallet_keys rows d = (Ok x, d') ->
  exists fs, d' = set_faults fs (set_wallets (update_rows with_key rows (wallets d)) d).
Proof.
  induction rows as [|[i v] rows IH]; cbn; intros d x d' H.
  - run_cbn H. injection H as _ <-. exists (faults d). by destruct d.
  - apply bind_ok in H as ([] & d1 & Hm & H). apply map_err_ok, exec_ok in Hm as [fs ->].
    apply IH in H as [fs' ->]. exists fs'. by destruct d.
Qed.

Lemma update_provider_secrets_ok rows : forall d x d', update_provider_secrets rows d = (Ok x, d') ->
  exists fs, d' = set_faults fs (set_oidc_providers
    (update_rows (fun v (p : Z * string) => (fst p, v)) rows (oidc_providers d)) d).
Proof.
  induction rows as [|[i v] rows IH]; cbn; intros d x d' H.
  - run_cbn H. injection H as _ <-. exists (faults d). by destruct d.
  - apply bind_ok in H as ([] & d1 & Hm & H). apply map_err_ok, exec_ok in Hm as [fs ->].
    apply IH in H as [fs' ->]. exists fs'. by destruct d.
Qed.

Section rotation.
Context {aead : Aead} {laws : AeadLaws} (rnd : nat -> option (list Z)).

(** C8. Key rotation is all or nothing and loses no secret: when
    RotateEncryptionKey succeeds, every wallet key and every provider secret
    that was readable under the old key, the new key or no key id is now
    readable, to the same text, under a keyring of the new key alone, and
    nothing else of a wallet changed; when it fails, whatever the failure,
    nothing changed. *)
Theorem RotateEncryptionKey_correct (oldHexKey newHexKey : string) (d : Db) (Hr : rnd_ok rnd)
    (Hw : List.NoDup (ids (wallets d))) (Hp : List.NoDup (ids (oidc_providers d))) :
  match RotateEncryptionKey rnd oldHexKey newHexKey d with
  | (Ok _, d') => exists decKR encKR,
      NewKeyring oldHexKey [newHexKey] = Ok decKR /\ NewKeyring newHexKey [] = Ok encKR /\
      (forall i w, find_id i (wallets d) = Some w -> exists v plain,
         find_id i (wallets d') = Some (with_key v w) /\
         DecryptKey decKR w = Ok plain /\ kr_Decrypt encKR v = Ok plain) /\
      (forall i p, find_id i (oidc_providers d) = Some p -> exists v plain,
         find_id i (oidc_providers d') = Some (fst p, v) /\
         kr_Decrypt decKR (snd p) = Ok plain /\ kr_Decrypt encKR v = Ok plain)
  | (Err _, d') => same_data d d'
  end.
Proof.
  destruct (RotateEncryptionKey _ _ _ d) as [[r|e] d'] eqn:E; unfold RotateEncryptionKey in E.
  - apply bind_ok in E as (dec & d0 & Hd & E). apply map_err_ok in Hd. injection Hd as Hd <-.
    apply bind_ok in E as (enc & d0 & He & E). apply map_err_ok in He. injection He as He <-.
    apply in_tx_ok in E as [(fs & d1 & Hb & Hsame)|(fs & d1 & Hb & Hsame)].
    + apply bind_ok in Hb as (ws & d2 & Hq & Hb). apply map_err_ok, query_ok in Hq as (fs2 & -> & ->).
      apply bind_ok in Hb as (ws' & d2 & Hws & Hb). injection Hws as Hws <-.
      apply bind_ok in Hb as ([] & d2 & Hu & Hb). apply update_wallet_keys_ok in Hu as [fs3 ->].
      apply bind_ok in Hb as (ps & d2 & Hq & Hb). apply map_err_ok, query_ok in Hq as (fs4 & -> & ->).
      apply bind_ok in Hb as (ps' & d2 & Hps & Hb). injection Hps as Hps <-.
      apply bind_ok in Hb as ([] & d2 & Hu & Hb). apply update_provider_secrets_ok in Hu as [fs5 ->].
      run_cbn Hb. injection Hb as _ <-. rewrite Hsame.
      eapply reencrypt_ok in Hws as [Hf1 Hr1]; [|exact Hr|exact He].
      eapply reencrypt_ok in Hps as [Hf2 Hr2]; [|exact Hr|exact He].
      exists dec, enc. split; [done|]. split; [done|]. cbn in *. split.
      * intros i w Hi. pose proof (find_id_Some _ _ _ Hi) as [Hin Hk].
        destruct (Hr1 (w_id w) (w_encrypted_key w)) as (v & plain & Hv & H1 & H2).
        { apply in_map_iff. by exists w. }
        exists v, plain. split; [|done]. apply (update_rows_find with_key); [done| | |done].
        -- rewrite Hf1, map_map. exact Hw.
        -- by replace i with (w_id w).
      * intros i p Hi. pose proof (find_id_Some _ _ _ Hi) as [Hin Hk].
        destruct (Hr2 (fst p) (snd p)) as (v & plain & Hv & H1 & H2); [by destruct p|].
        exists v, plain. split; [|done].
        apply (update_rows_find (fun v (p : Z * string) => (fst p, v))); [done| | |done].
        -- rewrite Hf2. exact Hp.
        -- by replace i with (fst p).
    + exfalso. repeat (apply bind_ok in Hb as (? & ? & _ & Hb)). by run_cbn Hb.
  - unfold mbind, ST_bind, map_err, of_result in E.
    destruct (NewKeyring oldHexKey _); [|by injection E as _ <-].
    destruct (NewKeyring newHexKey _); [|by injection E as _ <-]. by apply in_tx_err in E.
Qed.
End rotation.

(** ** Witnesses *)

(** A cipher that satisfies the laws (and hides nothing). *)
#[local] Instance clear_aead : Aead := {| Seal := fun _ _ p => p; Open := fun _ _ c => Some c |}.

#[local] Instance clear_laws : AeadLaws.
Proof. split; done. Qed.

Definition test_key (c : ascii) : string := of_bytes (map (fun _ => byte_of c) (seq 0 64)).
Definition test_nonce : list Z := map (fun i => Z.of_nat i) (seq 0 12).

Lemma test_nonce_bytes : is_bytes test_nonce.
Proof. unfold test_nonce. cbn. repeat constructor; lia. Qed.

Definition ring (p : string) (es : list string) : Keyring :=
  match NewKeyring p es with Ok kr => kr | Err _ => mkKeyring "" [] ∅ end.

Example keyring_roundtrip_witness :
  exists env, kr_Encrypt (Some test_nonce) (ring (test_key "a") []) "secret" = Ok env /\
    kr_Decrypt (ring (test_key "b") [test_key "a"]) env = Ok "secret".
Proof.
  apply (keyring_roundtrip (test_key "a") (test_key "b") "secret" [] [test_key "a"]).
  - vm_compute. reflexivity.
  - vm_compute. reflexivity.
  - reflexivity.
  - exact test_nonce_bytes.
  - right. by left.
  - right. intros k [<-|[<-|[]]]; [|done]. intros H. vm_compute in H. discriminate.
Defined.

Definition envelope : string :=
  match kr_Encrypt (Some test_nonce) (ring (test_key "a") []) "0xkey" with Ok e => e | Err _ => "" end.

Definition rotation_db : Db :=
  mkDb [] 0 [] 0 [] 0 [] [] [] [] [] 0 [] [] [] [] [mkWallet 1 "w" "0x1" envelope true "0" "0" 0 0] 1 [(4, envelope)] 0 [].

Example RotateEncryptionKey_correct_witness :
  is_ok (fst (RotateEncryptionKey (fun _ => Some test_nonce) (test_key "a") (test_key "b") rotation_db)) = true /\
  match RotateEncryptionKey (fun _ => Some test_nonce) (test_key "a") (test_key "b") rotation_db with
  | (Ok _, d') => exists decKR encKR,
      NewKeyring (test_key "a") [test_key "b"] = Ok decKR /\ NewKeyring (test_key "b") [] = Ok encKR /\
      (forall i w, find_id i (wallets rotation_db) = Some w -> exists v plain,
         find_id i (wallets d') = Some (with_key v w) /\
         DecryptKey decKR w = Ok plain /\ kr_Decrypt encKR v = Ok plain) /\
      (forall i p, find_id i (oidc_providers rotation_db) = Some p -> exists v plain,
         find_id i (oidc_providers d') = Some (fst p, v) /\
         kr_Decrypt decKR (snd p) = Ok plain /\ kr_Decrypt encKR v = Ok plain)
  | (Err _, d') => same_data rotation_db d'
  end.
Proof.
  split; [vm_compute; reflexivity|].
  apply (RotateEncryptionKey_correct (fun _ => Some test_nonce) (test_key "a") (test_key "b") rotation_db).
  - intros i n [= <-]. split; [reflexivity|exact test_nonce_bytes].
  - repeat (constructor; [cbn; tauto|]). constructor.
  - repeat (constructor; [cbn; tauto|]). constructor.
Defined.
