(* ===== verification/Cache.v ===== *)
(** * The download cache (src/internal/downloadcache)

    The in-memory index over a directory of promoted files: lookups with
    self-healing, promotion under a byte budget, purge, generation-checked
    eviction, the boot scan; the min-uses counter and the fill coalescing.
    The disk is a map from paths to files with a fault schedule of its own,
    so every file-system error path is covered. [bytes] is an [int64] and
    wraps, [genSeq] a [uint64]. *)

From S2P Require Import Prelude GoLib Hex.
From Stdlib Require Import Ascii.

(** ** The disk *)

(** A file: what [Lstat] sees of it, and its bytes. *)
Record File := mkFile { f_regular : bool; f_size : Z; f_data : string }.

Definition uint64_mod : Z := 18446744073709551616.
Definition succ_u64 (n : Z) : Z := (n + 1) mod uint64_mod.

Record entry := mkEntry { e_size : Z; e_lastAccess : Z; e_gen : Z }.

(** metrics.go *)
Record Metrics := mkMetrics {
  m_Hits : Z; m_BytesServed : Z; m_PromotedSeeded : Z;
  m_EvictedBudget : Z; m_EvictedInactive : Z; m_EvictedPressure : Z; m_EvictedBytes : Z;
  m_SelfHealDrops : Z; m_Purged : Z;
}.

Definition no_metrics : Metrics := mkMetrics 0 0 0 0 0 0 0 0 0.
Definition add_hit (n : Z) (m : Metrics) : Metrics :=
  mkMetrics (m_Hits m + 1) (m_BytesServed m + n) (m_PromotedSeeded m) (m_EvictedBudget m) (m_EvictedInactive m)
    (m_EvictedPressure m) (m_EvictedBytes m) (m_SelfHealDrops m) (m_Purged m).
Definition add_self_heal (m : Metrics) : Metrics :=
  mkMetrics (m_Hits m) (m_BytesServed m) (m_PromotedSeeded m) (m_EvictedBudget m) (m_EvictedInactive m)
    (m_EvictedPressure m) (m_EvictedBytes m) (m_SelfHealDrops m + 1) (m_Purged m).
Definition add_purged (m : Metrics) : Metrics :=
  mkMetrics (m_Hits m) (m_BytesServed m) (m_PromotedSeeded m) (m_EvictedBudget m) (m_EvictedInactive m)
    (m_EvictedPressure m) (m_EvictedBytes m) (m_SelfHealDrops m) (m_Purged m + 1).
Definition add_seeded (m : Metrics) : Metrics :=
  mkMetrics (m_Hits m) (m_BytesServed m) (m_PromotedSeeded m + 1) (m_EvictedBudget m) (m_EvictedInactive m)
    (m_EvictedPressure m) (m_EvictedBytes m) (m_SelfHealDrops m) (m_Purged m).
Definition add_evicted (budget inactive pressure bytes : Z) (m : Metrics) : Metrics :=
  mkMetrics (m_Hits m) (m_BytesServed m) (m_PromotedSeeded m) (m_EvictedBudget m + budget)
    (m_EvictedInactive m + inactive) (m_EvictedPressure m + pressure) (m_EvictedBytes m + bytes)
    (m_SelfHealDrops m) (m_Purged m).

(** Store, with the disk it lives on, the clock, and the outcomes of the next
    file-system calls. *)
Record Store := mkStore {
  root : string;
  entries : gmap string entry;
  bytes : Z;
  ready : bool;
  genSeq : Z;
  metrics : Metrics;
  disk : gmap string File;
  clock : Z;
  io : list (option string);
}.

Definition with_index (es : gmap string entry) (b : Z) (s : Store) : Store :=
  mkStore (root s) es b (ready s) (genSeq s) (metrics s) (disk s) (clock s) (io s).
Definition with_genSeq (g : Z) (s : Store) : Store :=
  mkStore (root s) (entries s) (bytes s) (ready s) g (metrics s) (disk s) (clock s) (io s).
Definition with_ready (b : bool) (s : Store) : Store :=
  mkStore (root s) (entries s) (bytes s) b (genSeq s) (metrics s) (disk s) (clock s) (io s).
Definition with_metrics (f : Metrics -> Metrics) (s : Store) : Store :=
  mkStore (root s) (entries s) (bytes s) (ready s) (genSeq s) (f (metrics s)) (disk s) (clock s) (io s).
Definition with_disk (k : gmap string File) (s : Store) : Store :=
  mkStore (root s) (entries s) (bytes s) (ready s) (genSeq s) (metrics s) k (clock s) (io s).
Definition with_clock (t : Z) (s : Store) : Store :=
  mkStore (root s) (entries s) (bytes s) (ready s) (genSeq s) (metrics s) (disk s) t (io s).
Definition with_io (l : list (option string)) (s : Store) : Store :=
  mkStore (root s) (entries s) (bytes s) (ready s) (genSeq s) (metrics s) (disk s) (clock s) l.

Abbreviation CacheM := (ST error Store).

(** One system call that may fail for reasons of its own. *)
Definition syscall : CacheM unit := fun s =>
  match io s with
  | [] => (Ok tt, s)
  | None :: l => (Ok tt, with_io l s)
  | Some e :: l => (Err (ENew e), with_io l s)
  end.

(** os.Lstat *)
Definition Lstat (p : string) : CacheM File :=
  syscall ;; s ← get;
  match disk s !! p with Some f => mret f | None => fail (ESentinel ErrNotExist) end.

(** os.Remove *)
Definition Remove (p : string) : CacheM unit :=
  syscall ;; s ← get;
  match disk s !! p with
  | Some _ => modify (fun s => with_disk (delete p (disk s)) s)
  | None => fail (ESentinel ErrNotExist)
  end.

(** os.Rename: atomic, replaces the target. *)
Definition Rename (src dst : string) : CacheM unit :=
  syscall ;; s ← get;
  match disk s !! src with
  | Some f => modify (fun s => with_disk (<[dst := f]> (delete src (disk s))) s)
  | None => fail (ESentinel ErrNotExist)
  end.

(** ** Store *)

Definition New (dir : string) : Store := mkStore dir ∅ 0 false 0 no_metrics ∅ 0 [].

(** [filepath.Join(root, key[0:2], key[2:4], key)]. *)
Definition path (r key : string) : string :=
  r +:+ "/" +:+ take_str 2 key +:+ "/" +:+ take_str 2 (drop_str 2 key) +:+ "/" +:+ key.

Definition unlinkLocked (key : string) : CacheM bool :=
  if negb (keyValid key) then mret false else
  s ← get;
  r ← try (Remove (path (root s) key));
  match r with
  | Ok _ => mret true
  | Err e => if errors_is e ErrNotExist then mret false else fail e
  end.

(** Take an entry out of the index and the accounting. *)
Definition forget (key : string) (e : entry) (s : Store) : Store :=
  with_index (delete key (entries s)) (sub64 (bytes s) (e_size e)) s.

Definition Drop (key : string) : CacheM unit :=
  removed ← unlinkLocked key;
  s ← get;
  match entries s !! key with
  | Some e => modify (forget key e) ;; modify (with_metrics add_purged)
  | None => if (removed : bool) then modify (with_metrics add_purged) else mret tt
  end.

Definition DropGen (key : string) (gen : Z) : CacheM bool :=
  s ← get;
  match entries s !! key with
  | None => mret false
  | Some e =>
      if negb (e_gen e =? gen) then mret false else
      r ← try (unlinkLocked key);
      match r with
      | Err _ => mret false
      | Ok _ => modify (forget key e) ;; mret true
      end
  end.

Definition selfHeal (key : string) (gen : Z) : CacheM unit :=
  dropped ← DropGen key gen;
  if (dropped : bool) then modify (with_metrics add_self_heal) else mret tt.

Definition touch (key : string) : CacheM unit :=
  modify (fun s => match entries s !! key with
                   | Some e => with_index (<[key := mkEntry (e_size e) (clock s) (e_gen e)]> (entries s)) (bytes s) s
                   | None => s
                   end).

Definition matches (f : File) (size : Z) : bool := f_regular f && (f_size f =? size).

(** The lock is released around [Lstat]: [seen] is the entry of the first
    critical section. *)
Definition Get_after (key : string) (seen : entry) : CacheM (option string) :=
  s ← get;
  r ← try (Lstat (path (root s) key));
  match r with
  | Ok f =>
      if matches f (e_size seen) then touch key ;; mret (Some (path (root s) key))
      else selfHeal key (e_gen seen) ;; mret None
  | Err _ => selfHeal key (e_gen seen) ;; mret None
  end.

Definition Get (key : string) : CacheM (option string) :=
  s ← get;
  match entries s !! key with None => mret None | Some e => Get_after key e end.

(** The descriptor carries the file it was opened on. *)
Definition Open_after (key : string) (seen : entry) : CacheM (option File) :=
  s ← get;
  let p := path (root s) key in
  let miss := selfHeal key (e_gen seen) ;; mret None in
  r ← try (Lstat p);
  match r with
  | Err _ => miss
  | Ok f =>
      if negb (matches f (e_size seen)) then miss else
      o ← try (syscall ;; s ← get; of_result (match disk s !! p with
                                              | Some f => Ok f | None => Err (ESentinel ErrNotExist) end));
      match o with
      | Err _ => miss
      | Ok fd =>
          st ← try syscall;
          if negb (is_ok st && matches fd (e_size seen)) then miss else
          touch key ;; modify (with_metrics (add_hit (e_size seen))) ;; mret (Some fd)
      end
  end.

Definition Open (key : string) : CacheM (option File) :=
  s ← get;
  match entries s !! key with None => mret None | Some e => Open_after key e end.

(** The second half runs under the lock, after the source was looked at. *)
Definition promote_locked (key srcPath : string) (budget size : Z) : CacheM string :=
  s ← get;
  if negb (ready s) then fail (ESentinel ErrNotReady) else
  let delta := match entries s !! key with Some old => sub64 size (e_size old) | None => size end in
  if budget <? add64 (bytes s) delta then fail (ESentinel ErrOverBudget) else
  let dst := path (root s) key in
  syscall ;;
  Rename srcPath dst ;;
  ignore syscall ;;
  modify (fun s =>
    let g := succ_u64 (genSeq s) in
    with_genSeq g (with_index (<[key := mkEntry size (clock s) g]> (entries s)) (add64 (bytes s) delta) s)) ;;
  mret dst.

Definition PromoteIfFits (key srcPath : string) (budget : Z) : CacheM string :=
  if negb (keyValid key) then fail (ESentinel ErrInvalidFs) else
  fi ← Lstat srcPath;
  if negb (f_regular fi) then fail (ESentinel ErrInvalidFs) else
  promote_locked key srcPath budget (f_size fi).

Record Victim := mkVictim { v_Key : string; v_Gen : Z; v_Size : Z; v_LastAccess : Z }.

Definition victims (s : Store) : list Victim :=
  map (fun '(k, e) => mkVictim k (e_gen e) (e_size e) (e_lastAccess e)) (map_to_list (entries s)).

Fixpoint insert_victim (v : Victim) (l : list Victim) : list Victim :=
  match l with
  | [] => [v]
  | w :: l' => if v_LastAccess v <=? v_LastAccess w then v :: l else w :: insert_victim v l'
  end.

Definition Oldest (max : Z) (s : Store) : list Victim :=
  let vs := fold_right insert_victim [] (victims s) in
  if (0 <=? max) && (max <? Z.of_nat (length vs)) then firstn (Z.to_nat max) vs else vs.

Definition Stats (s : Store) : Z * Z := (Z.of_nat (size (entries s)), bytes s).

(** [filepath.Base] of a path below the root. *)
Fixpoint base_from (acc p : string) : string :=
  match p with
  | EmptyString => acc
  | String c p' => if Ascii.eqb c "/" then base_from p' p' else base_from acc p'
  end.
Definition Base (p : string) : string := base_from p p.

(** One call of the WalkDir function on a file; [stop]: the context is done. *)
Definition scan_file (stop : bool) (p : string) : CacheM unit :=
  if stop then fail (ESentinel ErrCanceled) else
  s ← get;
  match disk s !! p with
  | None => mret tt
  | Some f =>
      if negb (f_regular f) then ignore (Remove p)
      else
        let key := Base p in
        if negb (keyValid key) || negb (String.eqb (path (root s) key) p) then ignore (Remove p)
        else
          r ← try (Lstat p);
          match r with
          | Err _ => mret tt
          | Ok fi =>
              modify (fun s => match entries s !! key with
                | Some _ => s
                | None =>
                    let g := succ_u64 (genSeq s) in
                    with_genSeq g (with_index (<[key := mkEntry (f_size fi) (clock s) g]> (entries s))
                                     (add64 (bytes s) (f_size fi)) s)
                end)
          end
  end.

(** [walk]: the files WalkDir visits, in its order; reading a directory may
    fail before any of them. *)
Fixpoint scan_walk (walk : list (bool * string)) : CacheM unit :=
  match walk with
  | [] => mret tt
  | (stop, p) :: rest => syscall ;; scan_file stop p ;; scan_walk rest
  end.

Definition Scan (walk : list (bool * string)) : CacheM unit :=
  scan_walk walk ;; modify (with_ready true).

(** ** Counter (counter.go) *)

Record Counter := mkCounter { counts : gmap string Z; cap : Z }.

Definition NewCounter (c : Z) : Counter := mkCounter ∅ c.

Definition Bump (key : string) (c : Counter) : Z * Counter :=
  let m := if (cap c <=? Z.of_nat (size (counts c))) && bool_decide (counts c !! key = None)
           then ∅ else counts c in
  let n := default 0 (m !! key) + 1 in
  (n, mkCounter (<[key := n]> m) (cap c)).

(** ** Flight (flight.go)

    A channel is a number; [closed] are the closed ones. *)
Record Flight := mkFlight { inflight : gmap string nat; next_chan : nat; closed : list nat }.

Definition NewFlight : Flight := mkFlight ∅ 0 [].

Definition Begin (key : string) (f : Flight) : (bool * nat) * Flight :=
  match inflight f !! key with
  | Some ch => ((false, ch), f)
  | None => ((true, next_chan f),
             mkFlight (<[key := next_chan f]> (inflight f)) (S (next_chan f)) (closed f))
  end.

Definition Finish (key : string) (f : Flight) : Flight :=
  match inflight f !! key with
  | Some ch => mkFlight (delete key (inflight f)) (next_chan f) (ch :: closed f)
  | None => f
  end.

(** * Properties *)

Definition total (es : gmap string entry) : Z := map_fold (fun _ e acc => e_size e + acc) 0 es.

Lemma total_insert es k e : es !! k = None -> total (<[k := e]> es) = e_size e + total es.
Proof. intros H. unfold total. apply (map_fold_insert_L (fun _ e acc => e_size e + acc)); [intros; lia|done]. Qed.

Lemma total_delete es k e : es !! k = Some e -> total (delete k es) = total es - e_size e.
Proof.
  intros H. rewrite <- (insert_delete_id es k e H) at 2.
  rewrite total_insert by apply lookup_delete_eq. lia.
Qed.

Lemma total_replace es k e e' : es !! k = Some e -> total (<[k := e']> es) = total es - e_size e + e_size e'.
Proof.
  intros H. rewrite <- insert_delete_eq. rewrite total_insert by apply lookup_delete_eq.
  rewrite (total_delete es k e H). lia.
Qed.

Lemma total_nonneg es : (forall k e, es !! k = Some e -> 0 <= e_size e) -> 0 <= total es.
Proof.
  induction es as [|k e m Hm IH] using map_ind; intros H; [done|]. rewrite total_insert by done.
  assert (0 <= e_size e) by (apply (H k); by rewrite lookup_insert_eq).
  enough (0 <= total m) by lia. apply IH. intros k' e' He'. apply (H k').
  rewrite lookup_insert_ne; [done|]. intros ->. congruence.
Qed.

(** The running total is what the index sums to, and only names that cannot
    leave the cache directory are indexed. *)
Record indexed (s : Store) : Prop := {
  ix_bytes : bytes s = wrap64 (total (entries s));
  ix_keys : forall k e, entries s !! k = Some e -> keyValid k = true;
}.

(** [R]: index, total and sequence as before. *)
Definition same_index (s s' : Store) : Prop :=
  entries s' = entries s /\ bytes s' = bytes s /\ genSeq s' = genSeq s /\ root s' = root s /\
  ready s' = ready s /\ clock s' = clock s.

#[export] Instance same_index_preorder : PreOrder same_index.
Proof. split; [done|]. intros a b c (?&?&?&?&?&?) (?&?&?&?&?&?). repeat split; congruence. Qed.

Lemma same_index_indexed s s' : same_index s s' -> indexed s -> indexed s'.
Proof. intros (E1 & E2 & _) [H1 H2]. split; rewrite E1; [by rewrite E2|done]. Qed.

Lemma steps_syscall : steps same_index syscall.
Proof. intros s. unfold syscall. by destruct (io s) as [|[?|] ?]. Qed.

Lemma steps_disk p : steps same_index (modify (with_disk p) : CacheM unit).
Proof. by apply steps_modify. Qed.

Lemma steps_Lstat p : steps same_index (Lstat p).
Proof. unfold Lstat. steps_go. apply steps_syscall. Qed.

Lemma steps_Remove p : steps same_index (Remove p).
Proof. unfold Remove. steps_go; [apply steps_syscall|by apply steps_modify]. Qed.

Lemma steps_Rename p q : steps same_index (Rename p q).
Proof. unfold Rename. steps_go; [apply steps_syscall|by apply steps_modify]. Qed.

#[export] Hint Resolve steps_syscall steps_Lstat steps_Remove steps_Rename : steps_db.

Lemma steps_unlinkLocked key : steps same_index (unlinkLocked key).
Proof. unfold unlinkLocked. steps_go. Qed.

#[export] Hint Resolve steps_unlinkLocked : steps_db.

Section keeps_indexed.
Abbreviation K := (keeps indexed).

Lemma steps_same {A} (m : CacheM A) : steps same_index m -> steps K m.
Proof. apply steps_mono. intros s s'. exact (same_index_indexed s s'). Qed.

Lemma forget_indexed key e s : entries s !! key = Some e -> indexed s -> indexed (forget key e s).
Proof.
  intros He [H1 H2]. split; cbn.
  - rewrite H1, sub64_wrap. f_equal. by rewrite (total_delete _ _ _ He).
  - intros k x. rewrite lookup_delete_Some. intros [_ Hk]. eauto.
Qed.

Lemma Drop_indexed key : steps K (Drop key).
Proof.
  unfold Drop. apply steps_bind; [apply _|apply steps_same, steps_unlinkLocked|intros removed].
  apply steps_get_bind. intros s. destruct (entries s !! key) as [e|] eqn:He.
  - intros Hs. cbn. pose proof (forget_indexed _ _ _ He Hs) as [H1 H2]. by split.
  - destruct removed; cbn; [|done]. intros [H1 H2]. by split.
Qed.

Lemma DropGen_indexed key gen : steps K (DropGen key gen).
Proof.
  unfold DropGen. apply steps_get_bind. intros s. destruct (entries s !! key) as [e|] eqn:He; [|done].
  destruct (negb (e_gen e =? gen)); [done|]. unfold mbind, ST_bind, try.
  pose proof (steps_unlinkLocked key s) as Hu. destruct (unlinkLocked key s) as [[b|x] s1]; cbn in *; intros Hs.
  - apply forget_indexed; [by destruct Hu as [-> _]|]. by apply (same_index_indexed _ _ Hu).
  - by apply (same_index_indexed _ _ Hu).
Qed.

Lemma selfHeal_indexed key gen : steps K (selfHeal key gen).
Proof.
  unfold selfHeal. steps_go; [apply DropGen_indexed|]. apply steps_modify. intros s [H1 H2]. by split.
Qed.

Lemma touch_indexed key : steps K (touch key).
Proof.
  apply steps_modify. intros s [H1 H2]. destruct (entries s !! key) as [e|] eqn:He; [|by split].
  split; cbn.
  - rewrite H1. f_equal. rewrite (total_replace _ _ _ _ He). cbn. lia.
  - intros k x. rewrite lookup_insert_Some. intros [[<- _]|[_ Hk]]; eauto.
Qed.

Lemma Get_after_indexed key seen : steps K (Get_after key seen).
Proof.
  unfold Get_after. steps_go;
    first [apply touch_indexed | apply selfHeal_indexed | apply steps_same; solve [steps_go]].
Qed.

Lemma Open_after_indexed key seen : steps K (Open_after key seen).
Proof.
  unfold Open_after. steps_go;
    first [apply touch_indexed | apply selfHeal_indexed
          | apply steps_modify; intros ? [? ?]; by split | apply steps_same; solve [steps_go]].
Qed.

Lemma promote_locked_indexed key src budget sz : keyValid key = true ->
  steps K (promote_locked key src budget sz).
Proof.
  intros Hv. unfold promote_locked. apply steps_get_bind. intros s Hs.
  destruct (ready s); cbn [negb]; [|done].
  destruct (_ <? _); [done|].
  assert (steps (fun s1 s2 => same_index s s1 -> same_index s s2 \/ indexed s2)
    (syscall ;; Rename src (path (root s) key) ;; ignore syscall ;;
     modify (fun s0 => let g := succ_u64 (genSeq s0) in
       with_genSeq g (with_index (<[key:=mkEntry sz (clock s0) g]> (entries s0))
         (add64 (bytes s0) match entries s !! key with Some old => sub64 sz (e_size old) | None => sz end) s0)) ;;
     mret (path (root s) key))) as Hsteps.
  { intros s0. unfold mbind, ST_bind, ignore.
    pose proof (steps_syscall s0) as H1. destruct (syscall s0) as [[[]|] s1]; cbn in *;
      [|intros H; left; by transitivity s0].
    pose proof (steps_Rename src (path (root s) key) s1) as H2.
    destruct (Rename _ _ s1) as [[[]|] s2]; cbn in *; [|intros H; left; by repeat (etransitivity; [eassumption|])].
    pose proof (steps_syscall s2) as H3. destruct (syscall s2) as [r s3]; cbn in *.
    intros H. right. assert (same_index s s3) as (E1 & E2 & E3 & _) by (by repeat (etransitivity; [eassumption|])).
    destruct Hs as [Hb Hk]. split; cbn.
    - rewrite E1, E2, Hb. destruct (entries s !! key) as [old|] eqn:He.
      + rewrite add64_sub64, (total_replace _ _ _ _ He). cbn. f_equal. lia.
      + rewrite add64_wrap, total_insert by done. cbn. f_equal. lia.
    - rewrite E1. intros k x. rewrite lookup_insert_Some. intros [[<- _]|[_ ?]]; eauto. }
  specialize (Hsteps s). destruct (Hsteps) as [H|H]; [reflexivity| |exact H].
  by apply (same_index_indexed _ _ H).
Qed.

Lemma PromoteIfFits_indexed key src budget : steps K (PromoteIfFits key src budget).
Proof.
  unfold PromoteIfFits. destruct (keyValid key) eqn:Hv; cbn [negb]; [|by apply steps_fail, _].
  apply steps_bind; [apply _|apply steps_same; apply steps_Lstat|intros fi].
  destruct (negb _); [apply steps_fail, _|by apply promote_locked_indexed].
Qed.

Lemma scan_file_indexed stop p : steps K (scan_file stop p).
Proof.
  unfold scan_file. destruct stop; [apply steps_fail, _|]. apply steps_get_bind. intros s.
  destruct (disk s !! p) as [f|]; [|done].
  destruct (negb (f_regular f)); [apply steps_same; steps_go|].
  destruct (negb (keyValid (Base p)) || _) eqn:Hv; [apply steps_same; steps_go|].
  apply orb_false_elim in Hv as [Hv _]. apply negb_false_iff in Hv.
  revert s. apply steps_bind; [apply _|apply steps_same; steps_go|]. intros [fi|]; [|apply steps_ret, _].
  apply steps_modify. intros s [H1 H2]. destruct (entries s !! Base p) eqn:He; [by split|].
  split; cbn.
  - rewrite H1, add64_wrap, total_insert by done. cbn. f_equal. lia.
  - intros k x. rewrite lookup_insert_Some. intros [[<- _]|[_ ?]]; eauto.
Qed.
End keeps_indexed.

(** ** Interleavings

    A critical section of the store is one step; lookups and promotions hold
    what they saw earlier as an argument, however old. Between two steps other
    processes may change any file, and the schedule of failures is replaced. *)

Inductive cache_op :=
| OGetAfter (key : string) (seen : entry)
| OOpenAfter (key : string) (seen : entry)
| OPromote (key src : string) (budget size : Z)
| ODrop (key : string)
| ODropGen (key : string) (gen : Z)
| OScanFile (stop : bool) (p : string)
| OReady
| OExternal (p : string) (f : option File)
| OTick (t : Z)
| OFaults (l : list (option string)).

Definition run_cache (o : cache_op) (s : Store) : Store :=
  match o with
  | OGetAfter k e => snd (Get_after k e s)
  | OOpenAfter k e => snd (Open_after k e s)
  | OPromote k src b n => if keyValid k then snd (promote_locked k src b n s) else s
  | ODrop k => snd (Drop k s)
  | ODropGen k g => snd (DropGen k g s)
  | OScanFile stop p => snd (scan_file stop p s)
  | OReady => with_ready true s
  | OExternal p f => with_disk (match f with Some f => <[p := f]> (disk s) | None => delete p (disk s) end) s
  | OTick t => with_clock t s
  | OFaults l => with_io l s
  end.

Definition run_caches (os : list cache_op) (s : Store) : Store := fold_left (fun s o => run_cache o s) os s.

Lemma run_cache_indexed o s : indexed s -> indexed (run_cache o s).
Proof.
  intros H. destruct o; cbn; try (destruct H; by split).
  - by apply Get_after_indexed.
  - by apply Open_after_indexed.
  - destruct (keyValid key) eqn:Hv; [|done]. by apply promote_locked_indexed.
  - by apply Drop_indexed.
  - by apply DropGen_indexed.
  - by apply scan_file_indexed.
Qed.

Lemma run_caches_indexed os : forall s, indexed s -> indexed (run_caches os s).
Proof. induction os as [|o os IH]; intros s H; cbn; [done|]. by apply IH, run_cache_indexed. Qed.

(** Accounting is exact under every interleaving: whatever lookups,
    promotions, purges, evictions and scan steps run, with whatever stale
    observations, failing system calls and outside interference with the
    files, the store's byte counter is the sum of the indexed sizes (modulo
    2^64, so equal to it while the sum is an int64), and every indexed key is
    a digest, so its path stays inside the cache directory. *)
Theorem accounting_exact (dir : string) (os : list cache_op) :
  let s := run_caches os (New dir) in
  bytes s = wrap64 (total (entries s)) /\
  forall k e, entries s !! k = Some e -> keyValid k = true.
Proof.
  assert (indexed (run_caches os (New dir))) as [H1 H2]; [|by split].
  apply run_caches_indexed. split; cbn; [done|]. intros k e. by rewrite lookup_empty.
Qed.

(** ** Promotion and the budget *)

Lemma syscall_cases s :
  (exists l, syscall s = (Ok tt, with_io l s)) \/ (exists e l, syscall s = (Err (ENew e), with_io l s)).
Proof.
  unfold syscall. destruct (io s) as [|[e|] l] eqn:E; [|by eauto|by eauto].
  left. exists []. destruct s; cbn in *; by subst.
Qed.

Ltac io_cases :=
  repeat (cbn; match goal with
  | |- context [syscall ?d] =>
      let l := fresh "l" in let e := fresh "e" in
      destruct (syscall_cases d) as [[l ->]|(e & l & ->)]
  end); cbn.

(** The index and the files are those of before. *)
Definition same_cache (s s' : Store) : Prop := same_index s s' /\ disk s' = disk s.

(** A promotion never admits more than the budget, and a refused or failed
    one changes neither the index nor a file, so the caller still has its
    source. After an admitted one the total of the indexed sizes is within the
    budget, the key is indexed at the size of the promoted file, and on disk the
    file has moved from the source to the key's place and nothing else changed. *)
Theorem PromoteIfFits_budget (key src : string) (budget : Z) (s : Store) (Hi : indexed s)
    (Hsz : forall k e, entries s !! k = Some e -> 0 <= e_size e)
    (Hmax : forall f, disk s !! src = Some f -> 0 <= f_size f /\ total (entries s) + f_size f <= int64_max) :
  match PromoteIfFits key src budget s with
  | (Ok dst, s') => exists f, disk s !! src = Some f /\ f_regular f = true /\ dst = path (root s) key /\
      total (entries s') <= budget /\ bytes s' = total (entries s') /\
      (exists t g, entries s' = <[key := mkEntry (f_size f) t g]> (entries s)) /\
      disk s' = <[dst := f]> (delete src (disk s))
  | (Err _, s') => same_cache s s'
  end.
Proof.
  destruct Hi as [Hb Hk].
  pose proof (total_nonneg _ Hsz) as Hpos.
  unfold PromoteIfFits, promote_locked, Lstat, Rename, ignore, mbind, ST_bind, get, fail, mret, ST_ret, modify, with_index,
    with_genSeq.
  destruct (keyValid key); cbn [negb]; [|by split].
  destruct (syscall_cases s) as [[l ->]|(e & l & ->)]; [|by split]. cbn.
  destruct (disk s !! src) as [f|] eqn:Hf; cbn; [|by split].
  destruct (f_regular f) eqn:Hreg; cbn; [|by split].
  destruct (ready s); cbn; [|by split].
  destruct (Hmax f eq_refl) as [Hf0 Hf1].
  set (delta := match entries s !! key with Some old => sub64 (f_size f) (e_size old) | None => f_size f end).
  assert (add64 (bytes s) delta = total (<[key := mkEntry (f_size f) (clock s) (succ_u64 (genSeq s))]> (entries s))) as Hd.
  { subst delta. rewrite Hb. destruct (entries s !! key) as [old|] eqn:He.
    - rewrite add64_sub64, (total_replace _ _ _ _ He). cbn. pose proof (Hsz _ _ He).
      assert (0 <= total (delete key (entries s))) as Hrest.
      { apply total_nonneg. intros k e [_ ?]%lookup_delete_Some. eauto. }
      rewrite (total_delete _ _ _ He) in Hrest.
      rewrite wrap64_id; [lia|]. unfold in_int64, int64_min, int64_max in *. lia.
    - rewrite add64_wrap, total_insert by done. cbn. rewrite wrap64_id; [lia|].
      unfold in_int64, int64_min, int64_max in *. lia. }
  rewrite Hd. destruct (Z.ltb_spec budget (total (<[key:=mkEntry (f_size f) (clock s) (succ_u64 (genSeq s))]> (entries s))));
    [by split|].
  io_cases; rewrite ?Hf; io_cases; try (by split); rewrite ?Hd;
    exists f; repeat (split; [done|]); (split; [eauto|done]).
Qed.

Definition seed_key : string := "0123456789abcdef".

Definition seed_store : Store :=
  mkStore "/c" ∅ 0 true 0 no_metrics {["/tmp/u" := mkFile true 60 ""]} 5 [].

Example PromoteIfFits_budget_witness :
  match PromoteIfFits seed_key "/tmp/u" 100 seed_store with
  | (Ok dst, s') => exists f, disk seed_store !! "/tmp/u" = Some f /\ f_regular f = true /\
      dst = path (root seed_store) seed_key /\
      total (entries s') <= 100 /\ bytes s' = total (entries s') /\
      (exists t g, entries s' = <[seed_key := mkEntry (f_size f) t g]> (entries seed_store)) /\
      disk s' = <[dst := f]> (delete "/tmp/u" (disk seed_store))
  | (Err _, s') => same_cache seed_store s'
  end /\ is_ok (fst (PromoteIfFits seed_key "/tmp/u" 100 seed_store)) = true
  /\ fst (PromoteIfFits seed_key "/tmp/u" 59 seed_store) = Err (ESentinel ErrOverBudget).
Proof.
  split; [|split; vm_compute; reflexivity].
  apply (PromoteIfFits_budget seed_key "/tmp/u" 100 seed_store).
  - split; [reflexivity|]. intros k e. cbn. by rewrite lookup_empty.
  - intros k e. cbn. by rewrite lookup_empty.
  - intros f H. vm_compute in H. injection H as <-. vm_compute. split; discriminate.
Defined.

(** ** Purging *)

Lemma path_inj r k1 k2 : keyValid k1 = true -> keyValid k2 = true -> path r k1 = path r k2 -> k1 = k2.
Proof.
  assert (forall k, keyValid k = true -> exists a b c d k', k = String a (String b (String c (String d k')))) as Hlong.
  { intros k Hk. unfold keyValid in Hk. destruct k as [|a [|b [|c [|d k']]]]; try (cbn in Hk; discriminate Hk).
    by exists a, b, c, d, k'. }
  intros (a & b & c & d & k1' & ->)%Hlong (a' & b' & c' & d' & k2' & ->)%Hlong.
  unfold path. intros H%(inj _). lazy [take_str drop_str String.append] in H.
  injection H as -> -> -> -> _ _ _ _ ->. done.
Qed.

Lemma Drop_cases (key : string) (s : Store) :
  match Drop key s with
  | (Ok _, s') =>
      entries s' = delete key (entries s) /\
      (keyValid key = true -> disk s' = delete (path (root s) key) (disk s)) /\
      (keyValid key = false -> disk s' = disk s)
  | (Err _, s') => same_cache s s'
  end.
Proof.
  unfold Drop, unlinkLocked, Remove, try, mbind, ST_bind, get, fail, mret, ST_ret, modify.
  destruct (keyValid key); cbn [negb].
  - destruct (syscall_cases s) as [[l ->]|(e & l & ->)]; cbn; [|by split].
    destruct (disk s !! path (root s) key) as [f|] eqn:Hf; cbn.
    + destruct (entries s !! key) as [e|] eqn:He; cbn; [done|]. by rewrite delete_id.
    + rewrite (bool_decide_eq_true_2 (ErrNotExist = ErrNotExist)), (delete_id (disk s)) by done. cbn.
      destruct (entries s !! key) as [e|] eqn:He; cbn; [done|]. by rewrite delete_id.
  - destruct (entries s !! key) as [e|] eqn:He; cbn; [done|]. by rewrite delete_id.
Qed.

(** A purge that reports success has purged: after Drop returns nil the
    key is neither indexed nor on disk, and no other file or entry is touched.
    After an error nothing was touched at all: the bytes still on disk stay
    accounted. *)
Theorem Drop_purges (key : string) (s : Store) :
  match Drop key s with
  | (Ok _, s') =>
      entries s' = delete key (entries s) /\
      (keyValid key = true -> disk s' = delete (path (root s) key) (disk s)) /\
      (keyValid key = false -> disk s' = disk s)
  | (Err _, s') => same_cache s s'
  end.
Proof. apply Drop_cases. Qed.

(** ** Every cached file is accounted for *)

Definition accounted (s : Store) : Prop :=
  forall k f, keyValid k = true -> disk s !! path (root s) k = Some f ->
    exists e, entries s !! k = Some e /\ e_size e = f_size f.

(** Nobody else touches the cache directory: the public operations, in any
    order, with any failing system calls. *)
Inductive cache_call :=
| CGet (key : string)
| COpen (key : string)
| CPromote (key src : string) (budget : Z)
| CDrop (key : string)
| CDropGen (key : string) (gen : Z)
| CFaults (l : list (option string)).

Definition run_call (c : cache_call) (s : Store) : Store :=
  match c with
  | CGet k => snd (Get k s)
  | COpen k => snd (Open k s)
  | CPromote k src b => snd (PromoteIfFits k src b s)
  | CDrop k => snd (Drop k s)
  | CDropGen k g => snd (DropGen k g s)
  | CFaults l => with_io l s
  end.

(** Fewer cached files, and an index that still covers them. *)
Lemma accounted_sub s s' : root s' = root s ->
  (forall k f, keyValid k = true -> disk s' !! path (root s) k = Some f ->
     disk s !! path (root s) k = Some f /\
     (forall e, entries s !! k = Some e -> exists e', entries s' !! k = Some e' /\ e_size e' = e_size e)) ->
  accounted s -> accounted s'.
Proof.
  intros Hr H Ha k f Hv. rewrite Hr. intros Hd. destruct (H k f Hv Hd) as [Hd' He].
  destruct (Ha k f Hv Hd') as (e & Hk & Hsz). destruct (He e Hk) as (e' & ? & ?). exists e'. by rewrite <- Hsz.
Qed.

Lemma Drop_root key s : root (snd (Drop key s)) = root s.
Proof.
  pose proof (steps_unlinkLocked key s) as Hu. unfold Drop, mbind, ST_bind.
  destruct (unlinkLocked key s) as [[b|e] s1]; cbn in *; [|apply Hu].
  destruct (entries s1 !! key); [apply Hu|]. destruct b; apply Hu.
Qed.

Lemma Drop_accounted key s : accounted s -> accounted (snd (Drop key s)).
Proof.
  pose proof (Drop_cases key s) as H.
  pose proof (Drop_root key s) as Hr.
  destruct (Drop key s) as [[[]|e] s']; cbn in *.
  - destruct H as (He & Hd & Hd'). destruct (keyValid key) eqn:Hv.
    + apply accounted_sub; [done|]. intros k f Hk. rewrite Hd by done. rewrite lookup_delete_Some, He.
      intros [Hp Hf]. split; [done|]. intros e Hek. exists e. rewrite lookup_delete_ne; [done|]. by intros ->.
    + apply accounted_sub; [done|]. intros k f Hk. rewrite Hd' by done. intros Hf. split; [done|].
      intros e Hek. exists e. rewrite He, lookup_delete_ne; [done|]. intros ->. congruence.
  - destruct H as [(E & _) D]. apply accounted_sub; [done|]. intros k f _. rewrite D, E. eauto.
Qed.

(** DropGen acts like Drop or not at all. *)
Lemma DropGen_cases key gen s :
  match DropGen key gen s with
  | (Ok true, s') => (exists e, entries s !! key = Some e /\ e_gen e = gen) /\ entries s' = delete key (entries s) /\
      (keyValid key = true -> disk s' = delete (path (root s) key) (disk s)) /\
      (keyValid key = false -> disk s' = disk s) /\ root s' = root s
  | (_, s') => same_cache s s'
  end.
Proof.
  unfold DropGen, unlinkLocked, Remove, try, mbind, ST_bind, get, fail, mret, ST_ret, modify.
  destruct (entries s !! key) as [e|] eqn:He; [|done].
  destruct (Z.eqb_spec (e_gen e) gen) as [Hg|]; cbn [negb]; [|done].
  destruct (keyValid key); cbn [negb].
  - destruct (syscall_cases s) as [[l ->]|(x & l & ->)]; cbn; [|by split].
    destruct (disk s !! path (root s) key) as [f|] eqn:Hf; cbn; [split; [by exists e|done]|].
    rewrite (bool_decide_eq_true_2 (ErrNotExist = ErrNotExist)), (delete_id (disk s)) by done. cbn.
    split; [by exists e|done].
  - cbn. split; [by exists e|]. done.
Qed.

Lemma DropGen_accounted key gen s : accounted s -> accounted (snd (DropGen key gen s)).
Proof.
  pose proof (DropGen_cases key gen s) as H. destruct (DropGen key gen s) as [[[]|e] s']; cbn.
  - destruct H as (_ & He & Hd & Hd' & Hr). destruct (keyValid key) eqn:Hv.
    + apply accounted_sub; [done|]. intros k f Hk. rewrite Hd by done. rewrite lookup_delete_Some, He.
      intros [Hp Hf]. split; [done|]. intros e Hek. exists e. rewrite lookup_delete_ne; [done|]. by intros ->.
    + apply accounted_sub; [done|]. intros k f Hk. rewrite Hd' by done. intros Hf. split; [done|].
      intros e Hek. exists e. rewrite He, lookup_delete_ne; [done|]. intros ->. congruence.
  - destruct H as [(E & _ & _ & R & _) D]. apply accounted_sub; [done|]. intros k f _. rewrite D, E. eauto.
  - destruct H as [(E & _ & _ & R & _) D]. apply accounted_sub; [done|]. intros k f _. rewrite D, E. eauto.
Qed.

#[export] Instance same_cache_preorder : PreOrder same_cache.
Proof.
  split; [done|]. intros a b c [H1 D1] [H2 D2]. split; [by transitivity b|congruence].
Qed.

Lemma same_cache_accounted s s' : same_cache s s' -> accounted s -> accounted s'.
Proof.
  intros [(E & _ & _ & R & _) D]. apply accounted_sub; [done|]. intros k f _. rewrite D, E. eauto.
Qed.

Lemma steps_syscall_same : steps same_cache syscall.
Proof. intros s. destruct (syscall_cases s) as [[l ->]|(e & l & ->)]; done. Qed.

Lemma steps_Lstat_same p : steps same_cache (Lstat p).
Proof. unfold Lstat. steps_go. apply steps_syscall_same. Qed.

#[export] Hint Resolve steps_syscall_same steps_Lstat_same : steps_db.

Section keeps_accounted.
Abbreviation K := (keeps accounted).

Lemma steps_same_cache {A} (m : CacheM A) : steps same_cache m -> steps K m.
Proof. apply steps_mono. intros s s'. exact (same_cache_accounted s s'). Qed.

Lemma selfHeal_accounted key gen : steps K (selfHeal key gen).
Proof.
  unfold selfHeal. steps_go; [intros s Hs; by apply DropGen_accounted|].
  apply steps_modify. intros s Hs. exact Hs.
Qed.

Lemma touch_accounted key : steps K (touch key).
Proof.
  apply steps_modify. intros s. unfold keeps. destruct (entries s !! key) as [e|] eqn:He; [|done].
  apply accounted_sub; [done|]. intros k f _ Hd. split; [exact Hd|]. intros e0 Hk. cbn.
  destruct (decide (k = key)) as [->|]; [|rewrite lookup_insert_ne by done; eauto].
  rewrite lookup_insert_eq. eexists. split; [done|]. cbn. congruence.
Qed.

Lemma Get_accounted key : steps K (Get key).
Proof.
  unfold Get, Get_after. steps_go;
    first [apply touch_accounted | apply selfHeal_accounted | apply steps_same_cache; solve [steps_go]].
Qed.

Lemma Open_accounted key : steps K (Open key).
Proof.
  unfold Open, Open_after. steps_go;
    first [apply touch_accounted | apply selfHeal_accounted
          | apply steps_modify; intros s Hs; exact Hs | apply steps_same_cache; solve [steps_go]].
Qed.

Lemma PromoteIfFits_accounted key src budget : steps K (PromoteIfFits key src budget).
Proof.
  intros s Ha. unfold PromoteIfFits, promote_locked, Lstat, Rename, ignore, mbind, ST_bind, get, fail, mret, ST_ret,
    modify, with_index, with_genSeq.
  destruct (keyValid key) eqn:Hv; cbn [negb]; [|exact Ha].
  destruct (syscall_cases s) as [[l ->]|(e & l & ->)]; [|exact Ha]. cbn.
  destruct (disk s !! src) as [f|] eqn:Hf; cbn; [|exact Ha].
  destruct (f_regular f) eqn:Hreg; cbn; [|exact Ha].
  destruct (ready s); cbn; [|exact Ha]. destruct (_ <? _); cbn; [exact Ha|].
  assert (forall es, es = <[key := mkEntry (f_size f) (clock s) (succ_u64 (genSeq s))]> (entries s) ->
    forall s', entries s' = es -> root s' = root s -> disk s' = <[path (root s) key := f]> (delete src (disk s)) ->
    accounted s') as Hgo.
  { intros es -> s' E R D k x Hk. rewrite R, D, E. destruct (decide (k = key)) as [->|Hne].
    - rewrite lookup_insert_eq. intros [= <-]. exists (mkEntry (f_size f) (clock s) (succ_u64 (genSeq s))).
      by rewrite lookup_insert_eq.
    - rewrite lookup_insert_ne by (intros Hp; apply Hne; symmetry; by apply (path_inj (root s))).
      rewrite lookup_delete_Some. intros [_ Hx]. rewrite lookup_insert_ne by done. by apply Ha. }
  io_cases; rewrite ?Hf; io_cases; try exact Ha; by eapply Hgo.
Qed.
End keeps_accounted.

(** C6. No byte on disk escapes the budget: while only the store touches its
    directory, whatever calls are made and whichever system calls fail, every
    file that sits at the place of a valid key is indexed at its size. In
    particular a failed unlink keeps its entry, so evicted or purged bytes are
    never reported as freed while they still occupy the disk. *)
Theorem disk_accounted (cs : list cache_call) (s : Store) (Ha : accounted s) :
  accounted (fold_left (fun s c => run_call c s) cs s).
Proof.
  revert s Ha. induction cs as [|c cs IH]; intros s Ha; cbn; [done|]. apply IH. destruct c; cbn.
  - by apply Get_accounted.
  - by apply Open_accounted.
  - by apply PromoteIfFits_accounted.
  - by apply Drop_accounted.
  - by apply DropGen_accounted.
  - exact Ha.
Qed.

(** The unlink of the purge fails: the file and its entry stay. *)
Example disk_accounted_witness :
  let cs := [CPromote seed_key "/tmp/u" 100; CFaults [Some "EPERM"]; CDrop seed_key] in
  let s := fold_left (fun s c => run_call c s) cs seed_store in
  accounted s /\ bytes s = 60 /\ disk s !! path "/c" seed_key = Some (mkFile true 60 "").
Proof.
  split; [|split; vm_compute; reflexivity].
  apply (disk_accounted [CPromote seed_key "/tmp/u" 100; CFaults [Some "EPERM"]; CDrop seed_key] seed_store).
  intros k f Hk. unfold seed_store. cbn [disk root]. rewrite lookup_singleton_Some. intros [Hp _]. exfalso.
  unfold path in Hp. lazy [String.append] in Hp. discriminate Hp.
Defined.

(** ** Stale evictions *)

(** Generations handed out so far. *)
Definition gens_ok (s : Store) : Prop :=
  0 <= genSeq s /\ forall k e, entries s !! k = Some e -> e_gen e <= genSeq s.

(** The entry under [k], if any, was made after generation [g]. *)
Definition newer (g : Z) (k : string) (s : Store) : Prop :=
  g <= genSeq s /\ forall e, entries s !! k = Some e -> g < e_gen e.

(** How one step moves the sequence and the entries: an entry is an old one,
    possibly touched, or a new one with the next generation. *)
Definition advances (s s' : Store) : Prop :=
  (genSeq s' = genSeq s \/ genSeq s' = succ_u64 (genSeq s)) /\
  forall k e', entries s' !! k = Some e' ->
    (exists e, entries s !! k = Some e /\ e_gen e' = e_gen e) \/
    (genSeq s' = succ_u64 (genSeq s) /\ e_gen e' = genSeq s').

Lemma advances_refl s : advances s s.
Proof. split; [by left|]. intros k e H. left. eauto. Qed.

(** Steps that only lose or touch entries. *)
Definition only_loses (s s' : Store) : Prop :=
  genSeq s' = genSeq s /\
  forall k e', entries s' !! k = Some e' -> exists e, entries s !! k = Some e /\ e_gen e' = e_gen e.

#[export] Instance only_loses_preorder : PreOrder only_loses.
Proof.
  split.
  - intros s. split; [done|]. eauto.
  - intros a b c [G1 H1] [G2 H2]. split; [congruence|]. intros k e' He'.
    destruct (H2 _ _ He') as (e & He & ->). destruct (H1 _ _ He) as (e0 & ? & ->). eauto.
Qed.

Lemma only_loses_advances s s' : only_loses s s' -> advances s s'.
Proof. intros [G H]. split; [by left|]. intros k e' He'. left. eauto. Qed.

Lemma same_index_loses s s' : same_index s s' -> only_loses s s'.
Proof. intros (E & _ & G & _). split; [done|]. rewrite E. eauto. Qed.

Lemma steps_loses {A} (m : CacheM A) : steps same_index m -> steps only_loses m.
Proof. apply steps_mono. exact same_index_loses. Qed.

Lemma forget_loses key e s : only_loses s (forget key e s).
Proof. split; [done|]. intros k e'. cbn. rewrite lookup_delete_Some. intros [_ H]. eauto. Qed.

Lemma touch_loses key : steps only_loses (touch key).
Proof.
  apply steps_modify. intros s. destruct (entries s !! key) as [e|] eqn:He; [|reflexivity].
  split; [done|]. intros k e'. cbn. rewrite lookup_insert_Some. intros [[<- <-]|[_ H]]; eauto.
Qed.

Lemma Drop_loses key : steps only_loses (Drop key).
Proof.
  unfold Drop. steps_go; first [apply steps_modify; intros s; by apply same_index_loses
    | apply steps_modify; intros s; apply forget_loses
    | apply steps_loses; apply steps_unlinkLocked].
Qed.

Lemma DropGen_loses key g : steps only_loses (DropGen key g).
Proof.
  unfold DropGen. steps_go; first [apply steps_modify; intros s; apply forget_loses
    | apply steps_loses; apply steps_unlinkLocked].
Qed.

Lemma selfHeal_loses key g : steps only_loses (selfHeal key g).
Proof. unfold selfHeal. steps_go; [apply DropGen_loses|]. apply steps_modify. intros s. by apply same_index_loses. Qed.

Lemma Get_after_loses key seen : steps only_loses (Get_after key seen).
Proof.
  unfold Get_after. steps_go;
    first [apply touch_loses | apply selfHeal_loses | apply steps_loses; solve [steps_go]].
Qed.

Lemma Open_after_loses key seen : steps only_loses (Open_after key seen).
Proof.
  unfold Open_after. steps_go;
    first [apply touch_loses | apply selfHeal_loses
          | apply steps_modify; intros s; by apply same_index_loses | apply steps_loses; solve [steps_go]].
Qed.

(** What a promotion does to the index, whatever fails on the way. *)
Lemma promote_locked_cases key src budget sz s :
  match promote_locked key src budget sz s with
  | (Ok _, s') => genSeq s' = succ_u64 (genSeq s) /\
      entries s' = <[key := mkEntry sz (clock s) (genSeq s')]> (entries s)
  | (Err _, s') => same_index s s'
  end.
Proof.
  unfold promote_locked, Rename, ignore, mbind, ST_bind, get, fail, mret, ST_ret, modify, with_index, with_genSeq.
  destruct (ready s); cbn; [|reflexivity]. destruct (_ <? _); cbn; [reflexivity|].
  io_cases; try reflexivity; destruct (disk s !! src) as [f|]; io_cases; try reflexivity; done.
Qed.

Lemma promote_locked_advances key src budget sz s : advances s (snd (promote_locked key src budget sz s)).
Proof.
  pose proof (promote_locked_cases key src budget sz s) as H.
  destruct (promote_locked key src budget sz s) as [[p|e] s']; cbn.
  - destruct H as [G E]. split; [by right|]. intros k e'. rewrite E, lookup_insert_Some.
    intros [[<- <-]|[_ ?]]; [right; by split|left; eauto].
  - by apply only_loses_advances, same_index_loses.
Qed.

Lemma scan_file_advances stop p s : advances s (snd (scan_file stop p s)).
Proof.
  unfold scan_file. destruct stop; [apply advances_refl|]. unfold mbind at 1, ST_bind at 1. cbv beta iota delta [get].
  destruct (disk s !! p) as [f|]; [|apply advances_refl].
  assert (forall q, advances s (snd (ignore (Remove q) s))) as Hrm.
  { intros q. apply only_loses_advances, same_index_loses, steps_ignore, steps_Remove. }
  destruct (negb (f_regular f)); [apply Hrm|]. destruct (_ || _); [apply Hrm|].
  unfold mbind, ST_bind, try. pose proof (steps_Lstat p s) as (E & B & G & _).
  destruct (Lstat p s) as [[fi|e] s1]; cbn in *;
    [|split; [left; congruence|]; intros k e'; rewrite E; left; eauto].
  destruct (entries s1 !! Base p) as [x|]; cbn.
  - split; [left; congruence|]. intros k e'. rewrite E. left; eauto.
  - rewrite E, G. split; [by right|]. intros k e'. cbn. rewrite lookup_insert_Some.
    intros [[<- <-]|[_ ?]]; [right; by split|left; eauto].
Qed.

Lemma run_cache_advances o s : advances s (run_cache o s).
Proof.
  assert (forall s', entries s' = entries s -> genSeq s' = genSeq s -> advances s s') as Hsame.
  { intros s' E G. split; [by left|]. intros k e'. rewrite E. eauto. }
  destruct o; cbn; try (by apply Hsame).
  - apply only_loses_advances, Get_after_loses.
  - apply only_loses_advances, Open_after_loses.
  - destruct (keyValid key); [apply promote_locked_advances|apply advances_refl].
  - apply only_loses_advances, Drop_loses.
  - apply only_loses_advances, DropGen_loses.
  - apply scan_file_advances.
Qed.

Lemma succ_u64_small n : 0 <= n < uint64_mod - 1 -> succ_u64 n = n + 1.
Proof. unfold succ_u64, uint64_mod. intros H. apply Z.mod_small. lia. Qed.

Lemma advances_gens s s' : gens_ok s -> genSeq s < uint64_mod - 1 -> advances s s' ->
  gens_ok s' /\ genSeq s <= genSeq s' <= genSeq s + 1.
Proof.
  intros [H1 H2] Hlt [G H]. rewrite succ_u64_small in G, H by done. split; [|lia]. split; [lia|].
  intros k e' He'. destruct (H _ _ He') as [(e & He & ->)|[_ ->]]; [|lia]. specialize (H2 _ _ He). lia.
Qed.

Lemma advances_newer g k s s' : gens_ok s -> genSeq s < uint64_mod - 1 -> advances s s' -> newer g k s -> newer g k s'.
Proof.
  intros [H1 H2] Hlt [G H] [N1 N2]. rewrite succ_u64_small in G, H by done. split; [lia|].
  intros e' He'. destruct (H _ _ He') as [(e & He & ->)|[E ->]]; [eauto|lia].
Qed.

Lemma run_caches_gens os : forall s, gens_ok s -> genSeq s + Z.of_nat (length os) < uint64_mod ->
  gens_ok (run_caches os s) /\ genSeq s <= genSeq (run_caches os s) <= genSeq s + Z.of_nat (length os) /\
  forall g k, newer g k s -> newer g k (run_caches os s).
Proof.
  induction os as [|o os IH]; intros s Hg Hlt; cbn [run_caches fold_left length] in *; [split; [done|]; split; [lia|done]|].
  rewrite Nat2Z.inj_succ in *.
  destruct (advances_gens s _ Hg ltac:(lia) (run_cache_advances o s)) as [Hg' Hle].
  destruct (IH _ Hg' ltac:(lia)) as (H1 & H2 & H3). split; [exact H1|]. split; [unfold run_caches in *; lia|].
  intros g k Hn. apply H3. eapply advances_newer; [exact Hg|lia|apply run_cache_advances|done].
Qed.

(** An eviction planned against a replaced file never removes the fresh
    one: once the key a sweeper saw under some generation has been promoted
    again, then no matter what else happens in between, DropGen with the old
    generation reports false and leaves the index and the disk alone (short of
    2^64 promotions, when the counter wraps). *)
Theorem stale_eviction_is_noop (os1 os2 : list cache_op) (key src : string) (budget sz : Z) (e : entry) (s : Store)
    (Hg : gens_ok s) (Hseen : entries s !! key = Some e) (Hv : keyValid key = true)
    (Hfew : genSeq s + Z.of_nat (length os1) + Z.of_nat (length os2) + 1 < uint64_mod) :
  let s1 := run_caches os1 s in
  let s2 := run_cache (OPromote key src budget sz) s1 in
  is_ok (fst (promote_locked key src budget sz s1)) = true ->
  let s3 := run_caches os2 s2 in
  fst (DropGen key (e_gen e) s3) = Ok false /\ same_cache s3 (snd (DropGen key (e_gen e) s3)).
Proof.
  intros s1 s2 Hok s3. destruct (run_caches_gens os1 s Hg ltac:(lia)) as (Hg1 & Hle1 & _). fold s1 in Hg1, Hle1.
  assert (e_gen e <= genSeq s) as Hge by (destruct Hg as [_ Hg]; eauto).
  destruct (advances_gens s1 s2 Hg1 ltac:(lia) (run_cache_advances _ _)) as [Hg2 Hle2].
  assert (newer (e_gen e) key s2) as Hn.
  { pose proof (promote_locked_cases key src budget sz s1) as Hc. subst s2. cbn [run_cache] in *. rewrite Hv in *.
    destruct (promote_locked key src budget sz s1) as [[p|x] s2]; [|done]. cbn in *. destruct Hc as [G E].
    destruct Hg1 as [Hg1 _]. rewrite succ_u64_small in G by lia. split; [lia|]. intros e'. rewrite E, lookup_insert_eq.
    intros [= <-]. cbn. lia. }
  destruct (run_caches_gens os2 s2 Hg2 ltac:(lia)) as (_ & _ & Hn3). destruct (Hn3 _ _ Hn) as [_ Hnew]. fold s3 in Hnew.
  pose proof (DropGen_cases key (e_gen e) s3) as Hd. unfold DropGen, mbind, ST_bind, get in *. cbn in *.
  destruct (entries s3 !! key) as [e'|]; [|done].
  specialize (Hnew e' eq_refl). destruct (Z.eqb_spec (e_gen e') (e_gen e)); [lia|]. done.
Qed.

Definition cached_store : Store :=
  mkStore "/c" {[seed_key := mkEntry 10 0 3]} 10 true 3 no_metrics
    {["/tmp/u" := mkFile true 60 ""; path "/c" seed_key := mkFile true 10 ""]} 5 [].

Example stale_eviction_is_noop_witness :
  let s3 := run_caches [OTick 9] (run_cache (OPromote seed_key "/tmp/u" 100 60) (run_caches [OReady] cached_store)) in
  fst (DropGen seed_key 3 s3) = Ok false /\ same_cache s3 (snd (DropGen seed_key 3 s3)).
Proof.
  apply (stale_eviction_is_noop [OReady] [OTick 9] seed_key "/tmp/u" 100 60 (mkEntry 10 0 3) cached_store).
  - split; [vm_compute; discriminate|]. intros k e. unfold cached_store. cbn [entries].
    rewrite lookup_singleton_Some. intros [_ <-]. vm_compute. discriminate.
  - vm_compute. reflexivity.
  - vm_compute. reflexivity.
  - vm_compute. reflexivity.
  - vm_compute. reflexivity.
Defined.

(** ** The boot scan *)

Lemma Base_slash x y : Base (x +:+ "/" +:+ y) = Base y.
Proof.
  unfold Base. generalize (x +:+ "/" +:+ y) at 1 as acc. induction x as [|c x IH]; intros acc.
  - change ("" +:+ "/" +:+ y) with (String "/" y). done.
  - change (String c x +:+ "/" +:+ y) with (String c (x +:+ "/" +:+ y)). cbn [base_from].
    destruct (Ascii.eqb c "/"); apply IH.
Qed.

Lemma Base_hex k : string_forallb is_lower_hex k = true -> Base k = k.
Proof.
  unfold Base. generalize k at 2 4 as acc. induction k as [|c k IH]; intros acc; cbn; [done|].
  intros [Hc Hk]%andb_prop. destruct (Ascii.eqb_spec c "/") as [->|]; [done|]. by apply IH.
Qed.

Lemma keyValid_hex k : keyValid k = true -> string_forallb is_lower_hex k = true.
Proof. unfold keyValid. by destruct (_ || _)%bool. Qed.

Lemma Base_path r k : keyValid k = true -> Base (path r k) = k.
Proof. intros H. unfold path. by rewrite !Base_slash, Base_hex by by apply keyValid_hex. Qed.

(** Indexed sizes agree with the files that are there. *)
Definition coherent (s : Store) : Prop :=
  forall k e f, entries s !! k = Some e -> disk s !! path (root s) k = Some f -> e_size e = f_size f.

Lemma syscall_ok s : io s = [] -> syscall s = (Ok tt, s).
Proof. unfold syscall. by intros ->. Qed.

Lemma scan_file_ok p s : io s = [] -> coherent s ->
  exists s', scan_file false p s = (Ok tt, s') /\ io s' = [] /\ root s' = root s /\ coherent s' /\
    (forall k e, entries s !! k = Some e -> entries s' !! k = Some e) /\
    (forall q f, disk s' !! q = Some f -> disk s !! q = Some f) /\
    (forall k f, keyValid k = true -> path (root s) k = p -> disk s' !! p = Some f ->
       exists e, entries s' !! k = Some e).
Proof.
  intros Hio Hc. unfold scan_file, Remove, Lstat, ignore, try, mbind, ST_bind, get, mret, ST_ret, modify.
  destruct (disk s !! p) as [f|] eqn:Hf.
  2:{ exists s. repeat (split; [done|]). intros k f _ _. congruence. }
  assert (let s' := with_disk (delete p (disk s)) s in
    io s' = [] /\ root s' = root s /\ coherent s' /\
    (forall k e, entries s !! k = Some e -> entries s' !! k = Some e) /\
    (forall q f, disk s' !! q = Some f -> disk s !! q = Some f) /\
    (forall k f, keyValid k = true -> path (root s) k = p -> disk s' !! p = Some f ->
       exists e, entries s' !! k = Some e)) as Hrm.
  { cbn. split; [done|]. split; [done|]. split.
    - intros k e x He. cbn. rewrite lookup_delete_Some. intros [_ Hx]. by eapply Hc.
    - split; [done|]. split; [intros q x; rewrite lookup_delete_Some; by intros [_ ?]|].
      intros k x _ _. by rewrite lookup_delete_eq. }
  destruct (f_regular f) eqn:Hreg; cbn [negb];
    [|rewrite (syscall_ok s Hio), Hf; eexists; split; [done|]; apply Hrm].
  destruct (negb (keyValid (Base p)) || _) eqn:Hv;
    [rewrite (syscall_ok s Hio), Hf; eexists; split; [done|]; apply Hrm|].
  apply orb_false_elim in Hv as [Hv%negb_false_iff Hp%negb_false_iff%String.eqb_eq].
  rewrite (syscall_ok s Hio), Hf. eexists. split; [done|]. destruct (entries s !! Base p) as [e|] eqn:He.
  - repeat (split; [done|]). intros k x Hk <- _. rewrite Base_path in He by done. eauto.
  - split; [done|]. split; [done|]. split; [|split; [|split; [done|]]].
    + intros k e x. cbn. rewrite lookup_insert_Some. intros [[<- <-]|[_ Hk]] Hx; [|by eapply Hc].
      rewrite Hp, Hf in Hx. by injection Hx as <-.
    + intros k e Hk. cbn. rewrite lookup_insert_ne; [done|]. intros <-. congruence.
    + intros k x Hk <- _. cbn. rewrite Base_path by done. rewrite lookup_insert_eq. eauto.
Qed.

Lemma scan_walk_ok walk : forall s, io s = [] -> coherent s ->
  exists s', scan_walk (map (fun p => (false, p)) walk) s = (Ok tt, s') /\ io s' = [] /\ root s' = root s /\
    coherent s' /\ (forall k e, entries s !! k = Some e -> entries s' !! k = Some e) /\
    (forall q f, disk s' !! q = Some f -> disk s !! q = Some f) /\
    (forall k f, keyValid k = true -> In (path (root s) k) walk -> disk s' !! path (root s) k = Some f ->
       exists e, entries s' !! k = Some e).
Proof.
  induction walk as [|p walk IH]; intros s Hio Hc; cbn [map scan_walk In].
  - exists s. repeat (split; [done|]). done.
  - unfold mbind, ST_bind. rewrite (syscall_ok s Hio).
    destruct (scan_file_ok p s Hio Hc) as (s1 & -> & Hio1 & R1 & Hc1 & E1 & D1 & N1).
    destruct (IH s1 Hio1 Hc1) as (s2 & -> & Hio2 & R2 & Hc2 & E2 & D2 & N2).
    exists s2. split; [done|]. split; [done|]. split; [congruence|]. split; [done|].
    split; [auto|]. split; [auto|]. rewrite R1 in *. intros k f Hk [->|Hin] Hd; [|by eapply N2].
    destruct (N1 k f Hk eq_refl) as [e He]; [by apply D2|]. eauto.
Qed.

(** The boot scan takes over what the previous run left: a scan that visits
    every file in the place of a valid key and meets no failure opens
    promotions and leaves every such file accounted for. *)
Theorem Scan_accounts (walk : list string) (s : Store) (Hio : io s = []) (Hc : coherent s)
    (Hwalk : forall k f, keyValid k = true -> disk s !! path (root s) k = Some f -> In (path (root s) k) walk) :
  exists s', Scan (map (fun p => (false, p)) walk) s = (Ok tt, s') /\ ready s' = true /\ accounted s'.
Proof.
  destruct (scan_walk_ok walk s Hio Hc) as (s1 & Hs & _ & R & Hc1 & _ & D & N).
  exists (with_ready true s1). unfold Scan, mbind, ST_bind. rewrite Hs. split; [done|]. split; [done|].
  intros k f Hk. cbn. rewrite R. intros Hd. destruct (N k f Hk) as [e He]; [by eapply Hwalk, D|done|].
  exists e. split; [done|]. eapply Hc1; [done|]. by rewrite R.
Qed.

(** A stray file and a cached one are on disk at boot. *)
Definition boot_store : Store :=
  with_disk {[path "/c" seed_key := mkFile true 10 ""; "/c/stray" := mkFile true 7 ""]} (New "/c").

Example Scan_accounts_witness :
  exists s', Scan (map (fun p => (false, p)) ["/c/stray"; path "/c" seed_key]) boot_store = (Ok tt, s') /\
    ready s' = true /\ accounted s'.
Proof.
  apply (Scan_accounts ["/c/stray"; path "/c" seed_key] boot_store).
  - reflexivity.
  - intros k e f. change (entries boot_store) with (∅ : gmap string entry). rewrite lookup_empty. discriminate.
  - intros k f Hk. unfold boot_store. cbn [disk root with_disk New]. rewrite lookup_insert_Some.
    intros [[<- _]|[_ Hs]]; [right; by left|]. apply lookup_singleton_Some in Hs as [Hs _]. left. exact Hs.
Defined.

(** ** Admission counter and fill coalescing *)

Definition bumps (keys : list string) (st : Counter) : Counter := fold_left (fun st k => snd (Bump k st)) keys st.

Definition requests (k : string) (keys : list string) : Z := Z.of_nat (length (List.filter (String.eqb k) keys)).

Lemma requests_snoc k k' keys : requests k (keys ++ [k']) = requests k keys + (if String.eqb k k' then 1 else 0).
Proof. unfold requests. rewrite List.filter_app, length_app. cbn. destruct (String.eqb k k'); cbn; lia. Qed.

Lemma requests_nonneg k keys : 0 <= requests k keys.
Proof. unfold requests. lia. Qed.

Lemma Bump_bounds (n : string -> Z) k st : 1 <= cap st -> Z.of_nat (size (counts st)) <= cap st ->
  (forall x, 0 <= n x) -> (forall x v, counts st !! x = Some v -> 1 <= v <= n x) ->
  1 <= fst (Bump k st) <= n k + 1 /\ cap (snd (Bump k st)) = cap st /\
  Z.of_nat (size (counts (snd (Bump k st)))) <= cap st /\
  forall x v, counts (snd (Bump k st)) !! x = Some v -> 1 <= v <= n x + (if String.eqb x k then 1 else 0).
Proof.
  intros Hcap Hsz Hn0 Hn. unfold Bump. cbn.
  set (m := if _ && _ then ∅ else counts st).
  assert (forall x v, m !! x = Some v -> 1 <= v <= n x) as Hm.
  { subst m. case_match; [|exact Hn]. intros x v. by rewrite lookup_empty. }
  assert (Z.of_nat (size (<[k := default 0 (m !! k) + 1]> m)) <= cap st) as Hs.
  { subst m. destruct (Z.leb_spec (cap st) (Z.of_nat (size (counts st)))); cbn.
    - destruct (counts st !! k) as [v|] eqn:Hk.
      + rewrite bool_decide_eq_false_2 by done. rewrite map_size_insert_Some by eauto. done.
      + rewrite bool_decide_eq_true_2 by done. rewrite map_size_insert_None by apply lookup_empty.
        rewrite map_size_empty. lia.
    - rewrite map_size_insert. destruct (counts st !! k); unfold id; lia. }
  assert (1 <= default 0 (m !! k) + 1 <= n k + 1) as Hv.
  { specialize (Hn0 k). destruct (m !! k) as [v|] eqn:Hk; cbn; [specialize (Hm _ _ Hk); lia|lia]. }
  split; [exact Hv|]. split; [done|]. split; [exact Hs|].
  intros x v. rewrite lookup_insert_Some. intros [[<- <-]|[Hne Hx]].
  - rewrite String.eqb_refl. exact Hv.
  - rewrite (proj2 (String.eqb_neq x k)) by done. specialize (Hm _ _ Hx). lia.
Qed.

Lemma bumps_bounds keys c : 1 <= c -> let st := bumps keys (NewCounter c) in
  cap st = c /\ Z.of_nat (size (counts st)) <= c /\ forall x v, counts st !! x = Some v -> 1 <= v <= requests x keys.
Proof.
  intros Hc. induction keys as [|k keys IH] using rev_ind; cbn zeta.
  - cbn. split; [done|]. split; [rewrite map_size_empty; lia|]. intros x v. by rewrite lookup_empty.
  - unfold bumps in *. rewrite fold_left_app. cbn [fold_left]. destruct IH as (H1 & H2 & H3).
    set (st := fold_left _ keys _) in *.
    destruct (Bump_bounds (fun x => requests x keys) k st) as (_ & H4 & H5 & H6);
      [by rewrite H1|by rewrite H1|intros; apply requests_nonneg|done|].
    split; [by rewrite H4|]. split; [by rewrite <- H1|]. intros x v Hx. rewrite requests_snoc. by apply H6.
Qed.

(** The min-uses counter stays within its memory ceiling and never admits
    early: after any sequence of requests it tracks at most cap keys, and the
    count it replies for the next request is at least 1 and at most the number
    of requests actually made for that key. *)
Theorem Counter_bounded (keys : list string) (key : string) (c : Z) (Hc : 1 <= c) :
  Z.of_nat (size (counts (bumps keys (NewCounter c)))) <= c /\
  1 <= fst (Bump key (bumps keys (NewCounter c))) <= requests key (keys ++ [key]).
Proof.
  destruct (bumps_bounds keys c Hc) as (H1 & H2 & H3). split; [exact H2|].
  destruct (Bump_bounds (fun x => requests x keys) key (bumps keys (NewCounter c))) as (H4 & _);
    [by rewrite H1|by rewrite H1|intros; apply requests_nonneg|done|].
  rewrite requests_snoc, String.eqb_refl. exact H4.
Qed.

Example Counter_bounded_witness :
  Z.of_nat (size (counts (bumps ["a"; "b"; "a"; "c"] (NewCounter 2)))) <= 2 /\
  1 <= fst (Bump "a" (bumps ["a"; "b"; "a"; "c"] (NewCounter 2))) <= requests "a" (["a"; "b"; "a"; "c"] ++ ["a"]).
Proof. apply (Counter_bounded ["a"; "b"; "a"; "c"] "a" 2). lia. Defined.

(** Requests joining and leaving fills. *)
Inductive flight_op := FBegin (key : string) | FFinish (key : string).

Definition run_flight (o : flight_op) (f : Flight) : Flight :=
  match o with FBegin k => snd (Begin k f) | FFinish k => Finish k f end.

Definition run_flights (os : list flight_op) (f : Flight) : Flight := fold_left (fun f o => run_flight o f) os f.

(** Channels are fresh, unshared, and open while their fill is in flight. *)
Record flight_ok (f : Flight) : Prop := {
  fl_lt : forall k ch, inflight f !! k = Some ch -> (ch < next_chan f)%nat /\ ~ In ch (closed f);
  fl_inj : forall k k' ch, inflight f !! k = Some ch -> inflight f !! k' = Some ch -> k = k';
  fl_closed : forall ch, In ch (closed f) -> (ch < next_chan f)%nat;
  fl_nodup : List.NoDup (closed f);
}.

Lemma run_flight_ok o f : flight_ok f -> flight_ok (run_flight o f).
Proof.
  intros [H1 H2 H3 H4]. destruct o as [k|k]; cbn.
  - unfold Begin. destruct (inflight f !! k) as [ch|] eqn:Hk; cbn; [by split|]. split; cbn.
    + intros k' ch. rewrite lookup_insert_Some. intros [[<- <-]|[_ Hc]].
      * split; [lia|]. intros Hin. specialize (H3 _ Hin). lia.
      * destruct (H1 _ _ Hc). split; [lia|done].
    + intros k1 k2 ch. rewrite !lookup_insert_Some. intros [[<- <-]|[_ Ha]] [[<- Hb]|[_ Hb]]; try done.
      * destruct (H1 _ _ Hb). lia.
      * subst ch. destruct (H1 _ _ Ha). lia.
      * by eapply H2.
    + intros ch Hin. specialize (H3 _ Hin). lia.
    + done.
  - unfold Finish. destruct (inflight f !! k) as [ch|] eqn:Hk; [|by split]. destruct (H1 _ _ Hk) as [Hlt Hni].
    split; cbn.
    + intros k' c'. rewrite lookup_delete_Some. intros [Hne Hc]. destruct (H1 _ _ Hc) as [? Hn]. split; [done|].
      intros [<-|Hin]; [|done]. by apply Hne, (H2 _ _ ch).
    + intros k1 k2 c'. rewrite !lookup_delete_Some. intros [_ Ha] [_ Hb]. by eapply H2.
    + intros c' [<-|Hin]; [done|auto].
    + by constructor.
Qed.

Lemma run_flights_ok os : forall f, flight_ok f -> flight_ok (run_flights os f).
Proof. induction os as [|o os IH]; intros f H; cbn; [done|]. by apply IH, run_flight_ok. Qed.

Definition finishes (key : string) (o : flight_op) : bool :=
  match o with FFinish k => String.eqb k key | FBegin _ => false end.

(** Fills are coalesced: from any reachable state, once a request has begun
    a fill, every later request for the key before its Finish is a follower on
    the same, still open channel, so there is one leader at a time; Finish
    wakes exactly that channel, and no channel is ever closed twice. *)
Theorem Flight_coalesces (os1 os2 : list flight_op) (key : string)
    (Hnf : forallb (fun o => negb (finishes key o)) os2 = true) :
  let f := run_flights os1 NewFlight in
  let ch := snd (fst (Begin key f)) in
  let f2 := run_flights os2 (snd (Begin key f)) in
  fst (Begin key f2) = (false, ch) /\ ~ In ch (closed f2) /\
  closed (Finish key f2) = ch :: closed f2 /\ List.NoDup (closed (Finish key f2)).
Proof.
  intros f ch f2.
  assert (flight_ok f) as Hf.
  { apply run_flights_ok. split; cbn; try done; intros *; rewrite ?lookup_empty; try done. constructor. }
  assert (flight_ok f2) as Hf2 by (apply run_flights_ok; change (snd (Begin key f)) with (run_flight (FBegin key) f);
    by apply run_flight_ok).
  assert (inflight f2 !! key = Some ch) as Hk.
  { assert (inflight (snd (Begin key f)) !! key = Some ch) as H0.
    { subst ch. unfold Begin. destruct (inflight f !! key) as [c|] eqn:E; cbn; [done|]. apply lookup_insert_eq. }
    subst f2. revert H0 Hnf. generalize (snd (Begin key f)) as g. clear. induction os2 as [|o os IH]; intros g H0 Hnf; [done|].
    cbn in *. apply andb_prop in Hnf as [Ho Hnf]. apply IH; [|done]. destruct o as [k|k]; cbn in *.
    - unfold Begin. destruct (inflight g !! k) eqn:E; cbn; [done|]. rewrite lookup_insert_ne; [done|]. intros ->. congruence.
    - apply negb_true_iff, String.eqb_neq in Ho. unfold Finish. destruct (inflight g !! k); cbn; [|done].
      by rewrite lookup_delete_ne. }
  unfold Begin at 1. rewrite Hk. split; [done|]. destruct (fl_lt _ Hf2 _ _ Hk) as [_ Hni]. split; [done|].
  unfold Finish. rewrite Hk. cbn. split; [done|]. constructor; [done|]. by destruct Hf2.
Qed.

Example Flight_coalesces_witness :
  fst (Begin "k" (run_flights [FBegin "j"; FBegin "k"; FFinish "j"] (snd (Begin "k" NewFlight)))) = (false, 0%nat).
Proof.
  apply (Flight_coalesces [] [FBegin "j"; FBegin "k"; FFinish "j"] "k"). reflexivity.
Defined.
