(* ===== verification/Payer.v ===== *)
(** * What the upload worker needs from a payer

    The interface between the worker (Worker.v) and the signer (Evm.v): the
    payment calls and what their errors may be. The worker's theorems hold for
    every payer that keeps the promise; Evm.v keeps it. *)

From S2P Require Import Prelude GoLib.

(** ** Data of the antd SDK that the signer reads *)

Record PaymentInfo := mkPayment { pi_QuoteHash : string; pi_RewardsAddress : string; pi_Amount : string }.
Record Candidate := mkCandidate { cd_RewardsAddress : string; cd_Amount : string }.
Record PoolCommitmentEntry := mkPool { pc_PoolHash : string; pc_Candidates : list Candidate }.
Record MerkleBatchEntry := mkBatch {
  mb_Depth : Z;
  mb_PoolCommitments : list PoolCommitmentEntry;
  mb_MerklePaymentTimestamp : Z;
}.

(** ** What the errors of a payment are

    [chain_error timeout e]: the chain of [e] holds no error of antd and none of
    the worker's own; ErrConfirmationTimeout only if [timeout]. *)
Fixpoint chain_error (timeout : bool) (e : error) : bool :=
  match e with
  | ENew _ | EValidation _ _ => true
  | ESentinel ErrConfirmationTimeout => timeout
  | ESentinel (ErrGasBackoff | ErrFinalizeFailed | ErrPaidNoRetry) => false
  | ESentinel _ => true
  | EAntd _ => false
  | EWrap _ es => forallb (chain_error timeout) es
  end.

Lemma chain_error_as t p e : chain_error t e = true -> errors_as p e = None.
Proof.
  induction e as [m|s|a|k r|m es IH] using error_ind; try done.
  cbn. intros H. induction IH as [|e es He Hes IHes]; [done|]. cbn in H. apply andb_prop in H as [H1 H2].
  rewrite (He H1). by apply IHes.
Qed.

Lemma chain_error_is t e s : chain_error t e = true ->
  In s [ErrGasBackoff; ErrFinalizeFailed; ErrPaidNoRetry] -> errors_is e s = false.
Proof.
  intros H Hs. induction e as [m|s'|a|k r|m es IH] using error_ind; try done.
  - cbn in *. apply bool_decide_eq_false_2. intros ->. by destruct Hs as [<-|[<-|[<-|[]]]].
  - cbn in *. induction IH as [|e es He Hes IHes]; [done|]. cbn in *. apply andb_prop in H as [H1 H2].
    by rewrite He, IHes.
Qed.

Lemma chain_error_weaken e : chain_error false e = true -> chain_error true e = true.
Proof.
  induction e as [m|s|a|k r|m es IH] using error_ind; try done.
  - by destruct s.
  - cbn. induction IH as [|e es He Hes IHes]; [done|]. cbn. intros [H1 H2]%andb_prop. by rewrite He, IHes.
Qed.

Lemma chain_error_no_timeout e : chain_error false e = true -> errors_is e ErrConfirmationTimeout = false.
Proof.
  induction e as [m|s|a|k r|m es IH] using error_ind; try done.
  - cbn. intros H. apply bool_decide_eq_false_2. by intros ->.
  - cbn. induction IH as [|e es He Hes IHes]; [done|]. cbn. intros [H1 H2]%andb_prop. by rewrite He, IHes.
Qed.

Definition plain (e : error) : Prop := chain_error false e = true.
Definition payment_error (e : error) : Prop := chain_error true e = true.

(** ** The interface *)

(** The state [P] is the payer's: the signer, once connected, and the chain
    behind its node. *)
Class Payer (P : Type) := {
  NewSigner_ : string -> ST error P unit;
  RPCUrl_ : P -> option string;
  SetConfirmationTimeout_ : Z -> P -> P;
  PayForQuotes_ : string -> list PaymentInfo -> string -> string -> ST error P (gmap string string);
  PayForMerkleTree_ : string -> Z -> list PoolCommitmentEntry -> Z -> string -> string -> ST error P (string * string);
  EnsureMerkleAllowance_ : string -> list MerkleBatchEntry -> string -> string -> ST error P unit;
  GetBalances_ : string -> string -> ST error P (string * string);
}.

(** The promise: a payment fails with an error of its own, never with one that
    the worker would take for an antd error or for its own verdicts. *)
Class PayerLaws (P : Type) `{!Payer P} : Prop := {
  NewSigner_err url : errs payment_error (NewSigner_ url);
  PayForQuotes_err k ps t v : errs payment_error (PayForQuotes_ k ps t v);
  PayForMerkleTree_err k d pcs ts t v : errs payment_error (PayForMerkleTree_ k d pcs ts t v);
  EnsureMerkleAllowance_err k bs t v : errs payment_error (EnsureMerkleAllowance_ k bs t v);
}.
