(* ===== verification/Evm.v ===== *)
(** * Paying on chain (src/internal/evm)

    The signer: the payment transactions for a batch of quotes and for a merkle
    tree, the bounded token allowance before each, and the wait for a receipt.
    go-ethereum (ABI encoding, keys, the RPC client) is the interface
    [EthClient] over an arbitrary world. [c_sent] is the history of the
    transactions handed to the node, in order. *)

From S2P Require Import Prelude GoLib Hex Sql Payer.
From Stdlib Require Import Ascii.

(** ** abi.go *)

Definition Address : Type := string.

Definition MerklePoolCandidateCount : nat := 16.

Record DataPayment := mkDataPayment { dp_RewardsAddress : Address; dp_Amount : Z; dp_QuoteHash : list Z }.
Record MerkleCandidateNode := mkNode { cn_RewardsAddress : Address; cn_Amount : Z }.
Record MerklePoolCommitment := mkCommitment { mc_PoolHash : list Z; mc_Candidates : list MerkleCandidateNode }.

(** The calls the signer encodes, with the arguments of packPayForQuotes,
    packPayForMerkleTree, packApprove, packAllowance and packBalanceOf. *)
Inductive abi_call :=
| payForQuotes (payments : list DataPayment)
| payForMerkleTree (depth : Z) (commitments : list MerklePoolCommitment) (timestamp : Z)
| approve (spender : Address) (amount : Z)
| allowance (owner spender : Address)
| balanceOf (account : Address).

Definition hexTo32Bytes (s : string) : result error (list Z) :=
  match DecodeString (TrimPrefix s "0x") with
  | None => Err (EWrap "hex decode: " [ENew "encoding/hex"])
  | Some b => if (length b =? 32)%nat then Ok b else Err (ENew "expected 32 bytes, got")
  end.

(** [new(big.Int).SetBytes]: big endian. *)
Definition SetBytes (l : list Z) : Z := fold_left (fun acc b => 256 * acc + b) l 0.

(** ** go-ethereum *)

Record Log := mkLog { lg_Topics : list string; lg_Data : list Z }.
Record Receipt := mkReceipt { rc_Status : Z; rc_Logs : list Log }.

Class EthClient (World : Type) := {
  PrivateKey : Type;
  HexToECDSA : string -> result error PrivateKey;
  PubkeyToAddress : PrivateKey -> Address;
  HexToAddress : string -> Address;
  Calldata : Type;
  abi_Pack : abi_call -> result error Calldata;
  (** The event's signature hash, and the totalAmount of its data. *)
  merklePaymentMadeEvent_ID : string;
  Unpack_totalAmount : list Z -> result error (option Z);
  (** ethclient.Dial and ChainID. *)
  DialChain : string -> ST error World unit;
  CallContract : Address -> Address -> Calldata -> ST error World (list Z);
  BalanceAt : Address -> ST error World Z;
  PendingNonceAt : Address -> ST error World Z;
  SuggestGasPrice : ST error World Z;
  EstimateGas : Address -> Address -> Calldata -> ST error World Z;
  (** Sign a legacy transaction without value: nonce, to, gas, price, data;
      the result is its hash. *)
  SignTx : PrivateKey -> Z -> Address -> Z -> Z -> Calldata -> ST error World string;
  SendTransaction : string -> ST error World unit;
  TransactionReceipt : string -> ST error World Receipt;
  (** The select of waitForReceipt: the wait context's error, or a tick. *)
  wait_event : ST error World (option error);
  (** ctx.Err() != nil *)
  parent_done : ST error World bool;
}.

(** The world, and the transactions handed to the node so far. *)
Record Chain (World : Type) := mkChain { c_world : World; c_sent : list (Address * abi_call) }.
Arguments mkChain {World} _ _.
Arguments c_world {World} _.
Arguments c_sent {World} _.

(** Signer: the fields a method reads. [sg_patience] bounds the polls of a wait
    that no deadline bounds (it ends when the caller's context does). *)
Record Signer := mkSigner { sg_rpcURL : string; sg_confirmationTimeout : Z; sg_patience : nat }.

Definition seconds : Z := 1000000000.
Definition defaultConfirmationTimeout : Z := 300 * seconds.
Definition SetConfirmationTimeout (d : Z) (s : Signer) : Signer := mkSigner (sg_rpcURL s) d (sg_patience s).

Section signer.
Context {World : Type} {eth : EthClient World}.

Abbreviation M := (ST error (Chain World)).

Definition client {A} (m : ST error World A) : M A :=
  zoom c_world (fun w c => mkChain w (c_sent c)) m.

Definition wrap (msg : string) : error -> error := fun e => EWrap msg [e].

(** Encoded call data remembers the call it encodes. *)
Definition packed : Type := abi_call * Calldata.

Definition pack (c : abi_call) : result error packed :=
  match abi_Pack c with Ok d => Ok (c, d) | Err e => Err e end.

Definition NewSigner (patience : nat) (rpcURL : string) : M Signer :=
  map_err (wrap "connecting to EVM RPC") (client (DialChain rpcURL)) ;;
  mret (mkSigner rpcURL defaultConfirmationTimeout patience).

(** ** Receipts *)

Fixpoint waitForReceipt (fuel : nat) (last : error) (txHash : string) : M Receipt :=
  r ← try (client (TransactionReceipt txHash));
  match r with
  | Ok receipt => mret receipt
  | Err _ =>
      match fuel with
      | O => fail last
      | S fuel =>
          ev ← client wait_event;
          match ev with
          | Some e => fail e
          | None => waitForReceipt fuel last txHash
          end
      end
  end.

(** The ticker fires every 2 seconds, so a deadline ends the loop after this
    many polls. *)
Definition polls (s : Signer) : nat :=
  if 0 <? sg_confirmationTimeout s then Z.to_nat (sg_confirmationTimeout s / (2 * seconds)) else sg_patience s.

Definition wait_last (s : Signer) : error :=
  if 0 <? sg_confirmationTimeout s then ESentinel ErrDeadlineExceeded else ESentinel ErrCanceled.

Definition log_sent (to : Address) (c : abi_call) (st : Chain World) : Chain World :=
  mkChain (c_world st) (c_sent st ++ [(to, c)]).

Definition sendTxWithReceipt (s : Signer) (key : PrivateKey) (from to : Address) (data : packed)
  : M (string * Receipt) :=
  nonce ← map_err (wrap "getting nonce: ") (client (PendingNonceAt from));
  gasPrice ← map_err (wrap "getting gas price: ") (client SuggestGasPrice);
  let gasPrice := gasPrice * 2 in
  gasLimit ← map_err (wrap "estimating gas: ") (client (EstimateGas from to (snd data)));
  let gasLimit := (gasLimit * 120) mod 18446744073709551616 / 100 in
  hash ← map_err (wrap "signing tx: ") (client (SignTx key nonce to gasLimit gasPrice (snd data)));
  modify (log_sent to (fst data)) ;;
  map_err (wrap "sending tx: ") (client (SendTransaction hash)) ;;
  r ← try (waitForReceipt (polls s) (wait_last s) hash);
  match r with
  | Err err =>
      gone ← client parent_done;
      if (0 <? sg_confirmationTimeout s) && errors_is err ErrDeadlineExceeded && negb gone
      then fail (EWrap "(tx)" [ESentinel ErrConfirmationTimeout])
      else fail (EWrap "waiting for receipt: " [err])
  | Ok receipt =>
      if negb (rc_Status receipt =? 1) then fail (ENew "transaction reverted: ")
      else mret (hash, receipt)
  end.

Definition sendTx (s : Signer) (key : PrivateKey) (from to : Address) (data : packed) : M string :=
  '(hash, _) ← sendTxWithReceipt s key from to data; mret hash.

(** ** Balances and allowance *)

Definition GetBalances (walletAddress tokenAddress : string) : M (string * string) :=
  let addr := HexToAddress walletAddress in
  let tokenAddr := HexToAddress tokenAddress in
  balData ← map_err (wrap "encoding balanceOf: ") (of_result (pack (balanceOf addr)));
  result ← map_err (wrap "querying token balance: ") (client (CallContract addr tokenAddr (snd balData)));
  gasBalance ← map_err (wrap "querying gas balance: ") (client (BalanceAt addr));
  mret (big_String (SetBytes result), big_String gasBalance).

Definition ensureAllowance (s : Signer) (key : PrivateKey) (owner token spender : Address) (required : Z) : M unit :=
  allowanceData ← of_result (pack (allowance owner spender));
  result ← map_err (wrap "checking allowance: ") (client (CallContract owner token (snd allowanceData)));
  if required <=? SetBytes result then mret tt else
  approveData ← of_result (pack (approve spender required));
  map_err (wrap "approve tx failed: ") (sendTx s key owner token approveData) ;;
  mret tt.

(** ** PayForQuotes *)

Fixpoint total_amount (payments : list PaymentInfo) (acc : Z) : result error Z :=
  match payments with
  | [] => Ok acc
  | p :: rest =>
      match parse_big (pi_Amount p) with
      | None => Err (ENew "invalid payment amount: ")
      | Some amt => total_amount rest (acc + amt)
      end
  end.

Fixpoint data_payments (payments : list PaymentInfo) : result error (list DataPayment) :=
  match payments with
  | [] => Ok []
  | p :: rest =>
      match hexTo32Bytes (pi_QuoteHash p) with
      | Err e => Err (EWrap "invalid quote hash" [e])
      | Ok hash =>
          match data_payments rest with
          | Err e => Err e
          | Ok ds => Ok (mkDataPayment (HexToAddress (pi_RewardsAddress p)) (default 0 (parse_big (pi_Amount p))) hash :: ds)
          end
      end
  end.

Definition quote_map (payments : list PaymentInfo) (txHash : string) : gmap string string :=
  fold_left (fun m p => <[pi_QuoteHash p := txHash]> m) payments ∅.

Definition PayForQuotes (s : Signer) (privateKeyHex : string) (payments : list PaymentInfo)
  (tokenAddress dataPaymentsAddress : string) : M (gmap string string) :=
  privateKey ← map_err (wrap "invalid private key: ") (of_result (HexToECDSA (TrimPrefix privateKeyHex "0x")));
  let fromAddress := PubkeyToAddress privateKey in
  let tokenAddr := HexToAddress tokenAddress in
  let paymentsAddr := HexToAddress dataPaymentsAddress in
  totalAmount ← of_result (total_amount payments 0);
  map_err (wrap "token approval: ") (ensureAllowance s privateKey fromAddress tokenAddr paymentsAddr totalAmount) ;;
  dataPayments ← of_result (data_payments payments);
  calldata ← map_err (wrap "encoding pay_for_quotes: ") (of_result (pack (payForQuotes dataPayments)));
  txHash ← map_err (wrap "pay_for_quotes tx failed: ") (sendTx s privateKey fromAddress paymentsAddr calldata);
  mret (quote_map payments txHash).

(** ** Merkle payments *)

Definition merkleMaxDepth : Z := 8.

Definition sortedMedian (amounts : list Z) : Z :=
  nth (length amounts / 2) (order_by Z.leb amounts) 0.

Definition clamp_depth (depth : Z) : Z :=
  if depth <? 0 then 0 else if merkleMaxDepth <? depth then merkleMaxDepth else depth.

Definition max_median (pools : list (list Z)) : Z :=
  fold_left (fun acc amounts => let m := sortedMedian amounts in if acc <? m then m else acc) pools 0.

Definition merkleTreeCharge (depth : Z) (pools : list PoolCommitmentEntry) : Z :=
  Z.shiftl (max_median (map (fun pc => map (fun c => default 0 (parse_big (cd_Amount c))) (pc_Candidates pc)) pools))
    (clamp_depth depth).

Definition MaxMerkleBatchesPayout (batches : list MerkleBatchEntry) : Z :=
  fold_left (fun total b => total + merkleTreeCharge (mb_Depth b) (mb_PoolCommitments b)) batches 0.

Definition maxMerklePayout (depth : Z) (commitments : list MerklePoolCommitment) : Z :=
  Z.shiftl (max_median (map (fun pc => map cn_Amount (mc_Candidates pc)) commitments)) (clamp_depth depth).

Definition EnsureMerkleAllowance (s : Signer) (privateKeyHex : string) (batches : list MerkleBatchEntry)
  (tokenAddress merklePaymentsAddress : string) : M unit :=
  let required := MaxMerkleBatchesPayout batches in
  if required =? 0 then mret tt else
  privateKey ← map_err (wrap "invalid private key: ") (of_result (HexToECDSA (TrimPrefix privateKeyHex "0x")));
  map_err (wrap "token approval: ")
    (ensureAllowance s privateKey (PubkeyToAddress privateKey) (HexToAddress tokenAddress)
      (HexToAddress merklePaymentsAddress) required).

Fixpoint convert_candidates (cs : list Candidate) : result error (list MerkleCandidateNode) :=
  match cs with
  | [] => Ok []
  | c :: rest =>
      match parse_big (cd_Amount c) with
      | None => Err (ENew "invalid candidate amount: ")
      | Some amt =>
          match convert_candidates rest with
          | Err e => Err e
          | Ok ns => Ok (mkNode (HexToAddress (cd_RewardsAddress c)) amt :: ns)
          end
      end
  end.

Fixpoint convert_pools (pcs : list PoolCommitmentEntry) : result error (list MerklePoolCommitment) :=
  match pcs with
  | [] => Ok []
  | pc :: rest =>
      match hexTo32Bytes (pc_PoolHash pc) with
      | Err e => Err (EWrap "invalid pool_hash" [e])
      | Ok poolHash =>
          if negb (length (pc_Candidates pc) =? MerklePoolCandidateCount)%nat
          then Err (ENew "pool: expected candidates, got")
          else match convert_candidates (pc_Candidates pc) with
               | Err e => Err e
               | Ok ns => match convert_pools rest with
                          | Err e => Err e
                          | Ok cs => Ok (mkCommitment poolHash ns :: cs)
                          end
               end
      end
  end.

(** The first log of the event: its winner, and what it says was paid. *)
Fixpoint find_event (logs : list Log) : result error (string * string) :=
  match logs with
  | [] => Err (ENew "MerklePaymentMade event not found in receipt")
  | lg :: rest =>
      match lg_Topics lg with
      | t0 :: t1 :: _ =>
          if String.eqb t0 merklePaymentMadeEvent_ID then
            match Unpack_totalAmount (lg_Data lg) with
            | Err e => Err (EWrap "parsing MerklePaymentMade event: " [e])
            | Ok None => Err (ENew "unexpected totalAmount type in event")
            | Ok (Some paid) => Ok (t1, big_String paid)
            end
          else find_event rest
      | _ => find_event rest
      end
  end.

Definition PayForMerkleTree (s : Signer) (privateKeyHex : string) (depth : Z) (poolCommitments : list PoolCommitmentEntry)
  (merklePaymentTimestamp : Z) (tokenAddress merklePaymentsAddress : string) : M (string * string) :=
  privateKey ← map_err (wrap "invalid private key: ") (of_result (HexToECDSA (TrimPrefix privateKeyHex "0x")));
  let fromAddress := PubkeyToAddress privateKey in
  let tokenAddr := HexToAddress tokenAddress in
  let merkleAddr := HexToAddress merklePaymentsAddress in
  commitments ← of_result (convert_pools poolCommitments);
  map_err (wrap "token approval: ")
    (ensureAllowance s privateKey fromAddress tokenAddr merkleAddr (maxMerklePayout depth commitments)) ;;
  calldata ← map_err (wrap "encoding payForMerkleTree: ")
    (of_result (pack (payForMerkleTree (depth mod 256) commitments merklePaymentTimestamp)));
  '(_, receipt) ← map_err (wrap "payForMerkleTree tx failed: ")
    (sendTxWithReceipt s privateKey fromAddress merkleAddr calldata);
  of_result (find_event (rc_Logs receipt)).
End signer.

(** * Properties *)

Lemma wrap_plain m e : plain e -> plain (wrap m e).
Proof. unfold plain, wrap. cbn. by intros ->. Qed.

Lemma wrap_payment m e : payment_error e -> payment_error (wrap m e).
Proof. unfold payment_error, wrap. cbn. by intros ->. Qed.

(** What the code relies on: the errors of go-ethereum are its own. *)
Class EthClientLaws (World : Type) `{!EthClient World} : Prop := {
  HexToECDSA_err k e : HexToECDSA k = Err e -> plain e;
  abi_Pack_err c e : abi_Pack c = Err e -> plain e;
  Unpack_err d e : Unpack_totalAmount d = Err e -> plain e;
  DialChain_err u : errs plain (DialChain u);
  CallContract_err a b d : errs plain (CallContract a b d);
  BalanceAt_err a : errs plain (BalanceAt a);
  PendingNonceAt_err a : errs plain (PendingNonceAt a);
  SuggestGasPrice_err : errs plain SuggestGasPrice;
  EstimateGas_err a b d : errs plain (EstimateGas a b d);
  SignTx_err k n a g p d : errs plain (SignTx k n a g p d);
  SendTransaction_err h : errs plain (SendTransaction h);
  TransactionReceipt_err h : errs plain (TransactionReceipt h);
  wait_event_err : errs plain wait_event;
  wait_event_done w e w' : wait_event w = (Ok (Some e), w') -> plain e;
  parent_done_err : errs plain parent_done;
}.

(** ** Histories *)

Definition same_sent {World} (st st' : Chain World) : Prop := c_sent st' = c_sent st.

#[export] Instance same_sent_preorder {World} : PreOrder (@same_sent World).
Proof. split; [done|]. intros a b c H1 H2. unfold same_sent in *. congruence. Qed.

Section history.
Context {World : Type} {eth : EthClient World}.
Implicit Types (st : Chain World).

Lemma steps_client {A} (m : ST error World A) : steps same_sent (client m).
Proof. intros st. unfold client, zoom. by destruct (m (c_world st)). Qed.

Lemma steps_wait fuel last h : steps same_sent (waitForReceipt fuel last h).
Proof.
  induction fuel as [|n IH]; cbn; steps_go; try apply steps_client; apply IH.
Qed.

(** Handing a transaction to the node happens at most once, and a success
    means it happened. *)
Lemma sendTxWithReceipt_sent s key from to data st :
  match sendTxWithReceipt s key from to data st with
  | (Ok _, st') => c_sent st' = c_sent st ++ [(to, fst data)]
  | (Err _, st') => c_sent st' = c_sent st \/ c_sent st' = c_sent st ++ [(to, fst data)]
  end.
Proof.
  unfold sendTxWithReceipt, mbind, ST_bind, map_err.
  pose proof (fun A (m : ST error World A) st => steps_client m st) as Hc. unfold same_sent in Hc.
  repeat (match goal with
  | |- context [client ?m ?st0] =>
      let H := fresh "H" in pose proof (Hc _ m st0) as H;
      destruct (client m st0) as [[?|?] ?]; cbn [fst snd] in H
  | |- context [try (waitForReceipt ?f ?l ?h) ?st0] =>
      let H := fresh "H" in pose proof (steps_wait f l h st0) as H; unfold same_sent in H; unfold try;
      destruct (waitForReceipt f l h st0) as [[?|?] ?]; cbn [fst snd] in H
  | |- context [if ?b then fail _ else _] => destruct b
  end; cbn [modify log_sent c_sent fst snd fail mret ST_ret] in *);
  first [left; congruence | right; congruence | congruence].
Qed.

Lemma sendTx_sent s key from to data st :
  match sendTx s key from to data st with
  | (Ok _, st') => c_sent st' = c_sent st ++ [(to, fst data)]
  | (Err _, st') => c_sent st' = c_sent st \/ c_sent st' = c_sent st ++ [(to, fst data)]
  end.
Proof.
  pose proof (sendTxWithReceipt_sent s key from to data st) as H. unfold sendTx, mbind, ST_bind.
  by destruct (sendTxWithReceipt s key from to data st) as [[[h r]|e] st'].
Qed.

(** The allowance is only ever raised to what is required, and only when it
    is below. *)
Lemma ensureAllowance_sent s key owner token spender required st :
  let '(r, st') := ensureAllowance s key owner token spender required st in
  c_sent st' = c_sent st \/ c_sent st' = c_sent st ++ [(token, approve spender required)].
Proof.
  unfold ensureAllowance, mbind, ST_bind, of_result, map_err, pack.
  destruct (abi_Pack (allowance owner spender)) as [d|e]; [|by left]. cbn.
  pose proof (steps_client (CallContract owner token d) st) as H. unfold same_sent in H.
  destruct (client (CallContract owner token d) st) as [[res|e] st1]; cbn in *; [|by left].
  destruct (required <=? SetBytes res); [by left|].
  destruct (abi_Pack (approve spender required)) as [d2|e]; cbn; [|by left].
  pose proof (sendTx_sent s key owner token (approve spender required, d2) st1) as H2.
  destruct (sendTx s key owner token _ st1) as [[h|e] st2]; cbn in *; rewrite <- H; [by right|exact H2].
Qed.
End history.

Section payments.
Context {World : Type} {eth : EthClient World}.
Implicit Types (st : Chain World).

Lemma data_payments_total payments : forall acc t ds, total_amount payments acc = Ok t ->
  data_payments payments = Ok ds -> t = acc + sum_by dp_Amount ds.
Proof.
  induction payments as [|p ps IH]; cbn; intros acc t ds Ht Hd.
  - injection Ht as <-. injection Hd as <-. cbn. lia.
  - destruct (parse_big (pi_Amount p)) as [a|]; [|done]. destruct (hexTo32Bytes _) as [h|]; [|done].
    destruct (data_payments ps) as [ds'|]; [|done]. injection Hd as <-.
    rewrite (IH _ _ _ Ht eq_refl). unfold sum_by. cbn. lia.
Qed.

(** What the vault is asked to pay for a quote: its amount, to its address,
    under its hash. *)
Definition quoted (p : PaymentInfo) (d : DataPayment) : Prop :=
  dp_RewardsAddress d = HexToAddress (pi_RewardsAddress p) /\ parse_big (pi_Amount p) = Some (dp_Amount d) /\
  hexTo32Bytes (pi_QuoteHash p) = Ok (dp_QuoteHash d).

Lemma data_payments_quoted payments : forall acc t ds, total_amount payments acc = Ok t ->
  data_payments payments = Ok ds -> Forall2 quoted payments ds.
Proof.
  induction payments as [|p ps IH]; cbn; intros acc t ds Ht Hd; [injection Hd as <-; constructor|].
  destruct (parse_big (pi_Amount p)) as [a|] eqn:Ea; [|done]. destruct (hexTo32Bytes _) as [h|] eqn:Eh; [|done].
  destruct (data_payments ps) as [ds'|]; [|done]. injection Hd as <-. constructor; [|by eapply IH].
  unfold quoted. by rewrite Ea, Eh.
Qed.

Lemma quote_map_lookup payments h q :
  quote_map payments h !! q = if existsb (fun p => String.eqb (pi_QuoteHash p) q) payments then Some h else None.
Proof.
  unfold quote_map. induction payments as [|p l IH] using rev_ind; cbn; [by rewrite lookup_empty|].
  rewrite fold_left_app, existsb_app. cbn. rewrite orb_false_r.
  destruct (String.eqb_spec (pi_QuoteHash p) q) as [<-|Hne].
  - rewrite lookup_insert_eq. by rewrite orb_true_r.
  - rewrite lookup_insert_ne by done. by rewrite orb_false_r, IH.
Qed.

(** The approvals and the payments a batch may hand over. *)
Definition approval_of (payments : list PaymentInfo) (token vault : string) (l : list (Address * abi_call)) : Prop :=
  l = [] \/ exists total, total_amount payments 0 = Ok total /\ l = [(HexToAddress token, approve (HexToAddress vault) total)].

Definition payment_of (payments : list PaymentInfo) (vault : string) (l : list (Address * abi_call)) : Prop :=
  l = [] \/ exists total ds, total_amount payments 0 = Ok total /\ Forall2 quoted payments ds /\ sum_by dp_Amount ds = total /\
    l = [(HexToAddress vault, payForQuotes ds)].

(** C3. Paying a batch of quotes hands the node at most an approval and the
    payment, in this order, whatever the node answers. The approval allows
    the vault exactly the sum of the quoted amounts, never an unlimited
    allowance; the payment pays, quote by quote and in their order, the quoted
    amount to the quoted rewards address under the quote's hash, so exactly that
    sum. A success means the payment was handed over, and gives every quote hash
    of the batch, and no other, its transaction. *)
Theorem PayForQuotes_sends (s : Signer) (key : string) (payments : list PaymentInfo) (token vault : string) st :
  let '(r, st') := PayForQuotes s key payments token vault st in
  exists approvals pays, c_sent st' = c_sent st ++ approvals ++ pays /\
    (approvals = [] \/ exists total, total_amount payments 0 = Ok total /\
       approvals = [(HexToAddress token, approve (HexToAddress vault) total)]) /\
    (pays = [] \/ exists total ds, total_amount payments 0 = Ok total /\
       Forall2 (fun p d => dp_RewardsAddress d = HexToAddress (pi_RewardsAddress p) /\
         parse_big (pi_Amount p) = Some (dp_Amount d) /\ hexTo32Bytes (pi_QuoteHash p) = Ok (dp_QuoteHash d)) payments ds /\
       sum_by dp_Amount ds = total /\ pays = [(HexToAddress vault, payForQuotes ds)]) /\
    (forall m, r = Ok m -> pays <> [] /\ exists h, forall q,
       m !! q = if existsb (fun p => String.eqb (pi_QuoteHash p) q) payments then Some h else None).
Proof.
  change (let '(r, st') := PayForQuotes s key payments token vault st in
    exists approvals pays, c_sent st' = c_sent st ++ approvals ++ pays /\ approval_of payments token vault approvals /\
      payment_of payments vault pays /\ (forall m, r = Ok m -> pays <> [] /\ exists h, forall q,
        m !! q = if existsb (fun p => String.eqb (pi_QuoteHash p) q) payments then Some h else None)).
  destruct (PayForQuotes s key payments token vault st) as [r st'] eqn:E. unfold PayForQuotes in E.
  assert (forall e approvals, r = Err e -> c_sent st' = c_sent st ++ approvals -> approval_of payments token vault approvals ->
    exists approvals pays, c_sent st' = c_sent st ++ approvals ++ pays /\ approval_of payments token vault approvals /\
      payment_of payments vault pays /\ (forall m, r = Ok m -> pays <> [] /\ exists h, forall q,
        m !! q = if existsb (fun p => String.eqb (pi_QuoteHash p) q) payments then Some h else None)) as Hstop.
  { intros e l -> Hs Hl. exists l, []. rewrite app_nil_r. split_and!; [done|done|by left|done]. }
  assert (approval_of payments token vault []) as Hno by (by left).
  unfold mbind, ST_bind, map_err, of_result in E.
  destruct (HexToECDSA _) as [pk|e]; [|injection E as <- <-; eapply Hstop; [done| |exact Hno]; by rewrite app_nil_r]. cbn in E.
  destruct (total_amount payments 0) as [total|e] eqn:Ht; [|injection E as <- <-; eapply Hstop; [done| |exact Hno]; by rewrite app_nil_r]. cbn in E.
  pose proof (ensureAllowance_sent s pk (PubkeyToAddress pk) (HexToAddress token) (HexToAddress vault) total st) as Ha.
  destruct (ensureAllowance _ _ _ _ _ _ st) as [ra st1].
  assert (exists approvals, c_sent st1 = c_sent st ++ approvals /\ approval_of payments token vault approvals) as (approvals & Hs1 & Happ).
  { destruct Ha as [Ha|Ha]; cbn in Ha; rewrite Ha; [exists []; by rewrite app_nil_r|eexists; split; [done|right; eauto]]. }
  clear Ha Hno. destruct ra as [[]|e]; [|injection E as <- <-; by eapply Hstop].
  destruct (data_payments payments) as [ds|e] eqn:Hd; [|injection E as <- <-; by eapply Hstop]. cbn in E.
  destruct (pack (payForQuotes ds)) as [cd|e] eqn:Hp; [|injection E as <- <-; by eapply Hstop]. cbn in E.
  assert (fst cd = payForQuotes ds) as Hcd by (unfold pack in Hp; destruct (abi_Pack _); [by injection Hp as <-|done]).
  pose proof (sendTx_sent s pk (PubkeyToAddress pk) (HexToAddress vault) cd st1) as Hsend. rewrite Hcd in Hsend.
  assert (sum_by dp_Amount ds = total) as Hsum by (pose proof (data_payments_total _ _ _ _ Ht Hd); lia).
  assert (payment_of payments vault [(HexToAddress vault, payForQuotes ds)]) as Hpay
    by (right; exists total, ds; split_and!; [done|by eapply data_payments_quoted|done|done]).
  destruct (sendTx _ _ _ _ cd st1) as [[h|e] st2]; injection E as <- <-.
  - exists approvals, [(HexToAddress vault, payForQuotes ds)]. rewrite Hsend, Hs1, <- app_assoc. split_and!; try done.
    intros m [= <-]. split; [done|]. exists h. intros q. apply quote_map_lookup.
  - destruct Hsend as [Hsend|Hsend]; [eapply Hstop; [done|by rewrite Hsend|done]|].
    exists approvals, [(HexToAddress vault, payForQuotes ds)]. rewrite Hsend, Hs1, <- app_assoc. by split_and!.
Qed.

(** ** The cost bound of a merkle plan *)

Lemma convert_candidates_amounts cs ns : convert_candidates cs = Ok ns ->
  map cn_Amount ns = map (fun c => default 0 (parse_big (cd_Amount c))) cs.
Proof.
  revert ns. induction cs as [|c cs IH]; cbn; intros ns H; [by injection H as <-|].
  destruct (parse_big (cd_Amount c)) as [a|]; [|done]. destruct (convert_candidates cs) as [ns'|]; [|done].
  injection H as <-. cbn. by rewrite (IH _ eq_refl).
Qed.

Lemma convert_pools_amounts pcs cs : convert_pools pcs = Ok cs ->
  map (fun pc => map cn_Amount (mc_Candidates pc)) cs =
  map (fun pc => map (fun c => default 0 (parse_big (cd_Amount c))) (pc_Candidates pc)) pcs.
Proof.
  revert cs. induction pcs as [|pc pcs IH]; cbn; intros cs H; [by injection H as <-|].
  destruct (hexTo32Bytes _) as [h|]; [|done]. destruct (negb _); [done|].
  destruct (convert_candidates _) as [ns|] eqn:Hn; [|done]. destruct (convert_pools pcs) as [cs'|]; [|done].
  injection H as <-. cbn. by rewrite (IH _ eq_refl), (convert_candidates_amounts _ _ Hn).
Qed.
End payments.

Lemma max_median_acc pools : forall acc,
  let step := fun acc amounts => let m := sortedMedian amounts in if acc <? m then m else acc in
  acc <= fold_left step pools acc /\
  (forall p, In p pools -> sortedMedian p <= fold_left step pools acc) /\
  (fold_left step pools acc = acc \/ exists p, In p pools /\ fold_left step pools acc = sortedMedian p).
Proof.
  induction pools as [|p pools IH]; intros acc step; cbn [fold_left].
  - split; [lia|]. split; [by intros p []|by left].
  - destruct (IH (step acc p)) as (H1 & H2 & H3). fold step in H1, H2, H3.
    assert (acc <= step acc p /\ sortedMedian p <= step acc p /\ (step acc p = acc \/ step acc p = sortedMedian p)) as (A1 & A2 & A3).
    { subst step. cbn. destruct (Z.ltb_spec acc (sortedMedian p)); lia. }
    split; [lia|]. split.
    + intros q [<-|Hq]; [lia|by apply H2].
    + destruct H3 as [H3|(q & Hq & H3)].
      * destruct A3 as [A3|A3]; [left; congruence|right; exists p; split; [by left|congruence]].
      * right. exists q. split; [by right|done].
Qed.

Definition pool_amounts (pc : PoolCommitmentEntry) : list Z :=
  map (fun c => default 0 (parse_big (cd_Amount c))) (pc_Candidates pc).

(** The cost bound of one merkle tree is the tightest one: whichever pool of
    the batch wins, the contract's charge, that pool's median quote times
    2^depth, is at most merkleTreeCharge, and some pool reaches it (or it is 0).
    The bound that limits the token allowance when the tree is paid is the same
    number as the one compared with max_gas_fee before. *)
Theorem merkleTreeCharge_tight {World : Type} {eth : EthClient World} (depth : Z) (pools : list PoolCommitmentEntry)
    (Hd : 0 <= depth <= merkleMaxDepth) :
  (forall pc, In pc pools -> sortedMedian (pool_amounts pc) * 2 ^ depth <= merkleTreeCharge depth pools) /\
  (merkleTreeCharge depth pools = 0 \/
   exists pc, In pc pools /\ merkleTreeCharge depth pools = sortedMedian (pool_amounts pc) * 2 ^ depth) /\
  (forall cs, convert_pools pools = Ok cs -> maxMerklePayout depth cs = merkleTreeCharge depth pools).
Proof.
  unfold merkleMaxDepth in Hd. assert (clamp_depth depth = depth) as Hc.
  { unfold clamp_depth, merkleMaxDepth. zcases. }
  assert (0 < 2 ^ depth) by (apply Z.pow_pos_nonneg; lia).
  destruct (max_median_acc (map pool_amounts pools) 0) as (H1 & H2 & H3). cbv zeta in H1, H2, H3.
  unfold merkleTreeCharge, maxMerklePayout, max_median. fold pool_amounts. rewrite Hc, !Z.shiftl_mul_pow2 by lia.
  change (map (fun pc => map (fun c => default 0 (parse_big (cd_Amount c))) (pc_Candidates pc)) pools) with (map pool_amounts pools).
  split; [|split].
  - intros pc Hin. apply Z.mul_le_mono_nonneg_r; [lia|]. apply H2. by apply in_map.
  - destruct H3 as [H3|(p & Hp & H3)]; [left; rewrite H3; lia|]. right.
    apply in_map_iff in Hp as (pc & <- & Hin). exists pc. split; [done|]. by rewrite H3.
  - intros cs Hcs. rewrite Z.shiftl_mul_pow2 by lia. rewrite (convert_pools_amounts _ _ Hcs). done.
Qed.

(** ** The signer is a payer *)

Section payer.
Context {World : Type} {eth : EthClient World} {laws : EthClientLaws World}.
Context (s : Signer).

Lemma client_err {A} (m : ST error World A) : errs plain m -> errs plain (client m).
Proof. apply errs_zoom. Qed.

Lemma waitForReceipt_err fuel last h : plain last -> errs plain (waitForReceipt fuel last h).
Proof.
  intros Hl. induction fuel as [|n IH]; cbn.
  - eapply errs_try; [apply client_err, TransactionReceipt_err|intros; apply errs_ret|intros e _; by apply errs_fail].
  - eapply errs_try; [apply client_err, TransactionReceipt_err|intros; apply errs_ret|intros e _].
    intros st e' st'. unfold mbind, ST_bind, client, zoom.
    destruct (wait_event (c_world st)) as [[[e0|]|e0] w] eqn:E.
    + intros [= <- _]. by eapply wait_event_done.
    + apply IH.
    + intros [= <- _]. by eapply wait_event_err.
Qed.

Lemma wait_last_plain : plain (wait_last s).
Proof. unfold wait_last. by destruct (0 <? sg_confirmationTimeout s). Qed.

Lemma pack_err c e : pack c = Err e -> plain e.
Proof. unfold pack. destruct (abi_Pack c) eqn:E; [done|]. intros [= <-]. by eapply abi_Pack_err. Qed.

Hint Resolve client_err PendingNonceAt_err SuggestGasPrice_err EstimateGas_err SignTx_err SendTransaction_err
  CallContract_err BalanceAt_err parent_done_err waitForReceipt_err wait_last_plain wrap_plain wrap_payment
  chain_error_weaken pack_err HexToECDSA_err : core.

Lemma plain_weaken e : plain e -> payment_error e.
Proof. apply chain_error_weaken. Qed.

Lemma plain_payment {A} (m : ST error (Chain World) A) : errs plain m -> errs payment_error m.
Proof. intros H. eapply errs_mono; [exact H|]. exact chain_error_weaken. Qed.

Lemma wrap_err {A} msg (m : ST error (Chain World) A) : errs payment_error m -> errs payment_error (map_err (wrap msg) m).
Proof. intros H. eapply errs_map_err; [exact H|auto]. Qed.

Ltac pay_err :=
  repeat first
    [ apply errs_ret
    | apply wrap_err
    | lazymatch goal with
      | |- errs _ (try _ ≫= _) => fail
      | |- errs _ (_ ≫= _) => apply errs_bind; [|intros ?]
      end
    | match goal with |- errs _ (let '(_, _) := ?x in _) => destruct x end
    | match goal with |- errs _ (if ?b then _ else _) => destruct b end ];
  try (solve [apply plain_payment; eauto
             | apply errs_of_result; intros e He; apply plain_weaken; eauto
             | apply errs_total; done
             | by apply errs_fail]).

Lemma sendTxWithReceipt_err key from to data : errs payment_error (sendTxWithReceipt s key from to data).
Proof.
  unfold sendTxWithReceipt. pay_err. eapply errs_try; [apply waitForReceipt_err, wait_last_plain| |].
  - intros r. pay_err.
  - intros e He. pay_err. apply errs_fail. by apply wrap_payment, chain_error_weaken.
Qed.

Lemma sendTx_err key from to data : errs payment_error (sendTx s key from to data).
Proof. unfold sendTx. pay_err. apply sendTxWithReceipt_err. Qed.

Lemma ensureAllowance_err key o t sp req : errs payment_error (ensureAllowance s key o t sp req).
Proof. unfold ensureAllowance. pay_err. apply sendTx_err. Qed.

Lemma total_amount_err ps : forall acc e, total_amount ps acc = Err e -> payment_error e.
Proof.
  induction ps as [|p ps IH]; cbn; intros acc e H; [done|]. destruct (parse_big _); [eauto|by injection H as <-].
Qed.

Lemma hexTo32Bytes_err h e : hexTo32Bytes h = Err e -> payment_error e.
Proof.
  unfold hexTo32Bytes. destruct (DecodeString _) as [b|]; [destruct (_ =? _)%nat; [done|]|]; by intros [= <-].
Qed.

Lemma data_payments_err ps : forall e, data_payments ps = Err e -> payment_error e.
Proof.
  induction ps as [|p ps IH]; cbn; intros e H; [done|]. destruct (hexTo32Bytes _) eqn:Hh.
  - destruct (data_payments ps); [done|]. injection H as <-. by apply IH.
  - injection H as <-. apply wrap_payment. by eapply hexTo32Bytes_err.
Qed.

Lemma convert_candidates_err cs : forall e, convert_candidates cs = Err e -> payment_error e.
Proof.
  induction cs as [|c cs IH]; cbn; intros e H; [done|]. destruct (parse_big _); [|by injection H as <-].
  destruct (convert_candidates cs); [done|]. injection H as <-. by apply IH.
Qed.

Lemma convert_pools_err pcs : forall e, convert_pools pcs = Err e -> payment_error e.
Proof.
  induction pcs as [|c pcs IH]; cbn; intros e H; [done|]. destruct (hexTo32Bytes _) eqn:Hh.
  - destruct (negb _); [by injection H as <-|]. destruct (convert_candidates _) eqn:Hc.
    + destruct (convert_pools pcs); [done|]. injection H as <-. by apply IH.
    + injection H as <-. by eapply convert_candidates_err.
  - injection H as <-. apply wrap_payment. by eapply hexTo32Bytes_err.
Qed.

Lemma find_event_err logs : forall e, find_event logs = Err e -> payment_error e.
Proof.
  induction logs as [|lg logs IH]; cbn; intros e H; [by injection H as <-|].
  destruct (lg_Topics lg) as [|t0 [|t1 ts]]; [by apply IH|by apply IH|].
  destruct (String.eqb t0 _); [|by apply IH].
  destruct (Unpack_totalAmount _) as [[p|]|x] eqn:Hu; [done|by injection H as <-|].
  injection H as <-. apply wrap_payment, chain_error_weaken. by eapply Unpack_err.
Qed.

Lemma NewSigner_plain n url : errs payment_error (NewSigner n url).
Proof. unfold NewSigner. pay_err. apply plain_payment, client_err, DialChain_err. Qed.

Lemma PayForQuotes_payment k ps t v : errs payment_error (PayForQuotes s k ps t v).
Proof.
  unfold PayForQuotes. pay_err.
  - apply errs_of_result, total_amount_err.
  - apply ensureAllowance_err.
  - apply errs_of_result, data_payments_err.
  - apply sendTx_err.
Qed.

Lemma PayForMerkleTree_payment k d pcs ts t v : errs payment_error (PayForMerkleTree s k d pcs ts t v).
Proof.
  unfold PayForMerkleTree. pay_err.
  - apply errs_of_result, convert_pools_err.
  - apply ensureAllowance_err.
  - apply sendTxWithReceipt_err.
  - apply errs_of_result, find_event_err.
Qed.

Lemma EnsureMerkleAllowance_payment k bs t v : errs payment_error (EnsureMerkleAllowance s k bs t v).
Proof. unfold EnsureMerkleAllowance. pay_err. apply ensureAllowance_err. Qed.
End payer.

(** The signer, once there is one, and its chain. *)
Record SignerState (World : Type) := mkSignerState { ss_signer : option Signer; ss_chain : Chain World }.
Arguments mkSignerState {World} _ _.
Arguments ss_signer {World} _.
Arguments ss_chain {World} _.

Section instance.
Context {World : Type} {eth : EthClient World} {laws : EthClientLaws World} (patience : nat).

Abbreviation P := (SignerState World).

Definition on_chain {A} (m : ST error (Chain World) A) : ST error P A :=
  zoom ss_chain (fun c st => mkSignerState (ss_signer st) c) m.

(** A method of a nil signer. *)
Definition with_signer {A} (f : Signer -> ST error (Chain World) A) : ST error P A :=
  st ← get;
  match ss_signer st with
  | Some s => on_chain (f s)
  | None => fail (ENew "nil signer")
  end.

#[export] Instance signer_payer : Payer P := {|
  NewSigner_ url := s ← on_chain (NewSigner patience url); modify (fun st => mkSignerState (Some s) (ss_chain st));
  RPCUrl_ st := sg_rpcURL <$> ss_signer st;
  SetConfirmationTimeout_ d st := mkSignerState (SetConfirmationTimeout d <$> ss_signer st) (ss_chain st);
  PayForQuotes_ k ps t v := with_signer (fun s => PayForQuotes s k ps t v);
  PayForMerkleTree_ k d pcs ts t v := with_signer (fun s => PayForMerkleTree s k d pcs ts t v);
  EnsureMerkleAllowance_ k bs t v := with_signer (fun s => EnsureMerkleAllowance s k bs t v);
  GetBalances_ a t := on_chain (GetBalances a t);
|}.

Lemma with_signer_err {A} (f : Signer -> ST error (Chain World) A) :
  (forall s, errs payment_error (f s)) -> errs payment_error (with_signer f).
Proof.
  intros Hf. unfold with_signer. apply errs_bind; [by apply errs_total|]. intros st.
  destruct (ss_signer st); [apply errs_zoom, Hf|by apply errs_fail].
Qed.

#[export] Instance signer_payer_laws : PayerLaws P.
Proof.
  split; intros; cbn [NewSigner_ PayForQuotes_ PayForMerkleTree_ EnsureMerkleAllowance_ signer_payer].
  - apply errs_bind; [apply errs_zoom, NewSigner_plain|]. intros. by apply errs_total.
  - apply with_signer_err. intros. apply PayForQuotes_payment.
  - apply with_signer_err. intros. apply PayForMerkleTree_payment.
  - apply with_signer_err. intros. apply EnsureMerkleAllowance_payment.
Qed.
End instance.


(** ** A concrete client, for the witnesses *)

(** What the node answers: a receipt or none, whether a wait goes on, ends by
    its deadline ([Some true]) or is cancelled, whether the caller's context is
    done, the current allowance. *)
Record ToyWorld := mkToy {
  ty_receipt : option Receipt;
  ty_event : option bool;
  ty_done : bool;
  ty_allowance : list Z;
}.

#[export] Instance toy_eth : EthClient ToyWorld := {|
  PrivateKey := string;
  HexToECDSA := fun k => if String.eqb k "" then Err (ENew "invalid length") else Ok k;
  PubkeyToAddress := fun k => "from:" +:+ k;
  HexToAddress := fun a => a;
  Calldata := unit;
  abi_Pack := fun _ => Ok tt;
  merklePaymentMadeEvent_ID := "MerklePaymentMade";
  Unpack_totalAmount := fun d => Ok (Some (SetBytes d));
  DialChain := fun _ w => (Ok tt, w);
  CallContract := fun _ _ _ w => (Ok (ty_allowance w), w);
  BalanceAt := fun _ w => (Ok 5, w);
  PendingNonceAt := fun _ w => (Ok 0, w);
  SuggestGasPrice := fun w => (Ok 10, w);
  EstimateGas := fun _ _ _ w => (Ok 21000, w);
  SignTx := fun _ _ _ _ _ _ w => (Ok "0xhash", w);
  SendTransaction := fun _ w => (Ok tt, w);
  TransactionReceipt := fun _ w => (match ty_receipt w with Some r => Ok r | None => Err (ENew "not found") end, w);
  wait_event := fun w => (Ok ((fun b : bool => ESentinel (if b then ErrDeadlineExceeded else ErrCanceled)) <$> ty_event w), w);
  parent_done := fun w => (Ok (ty_done w), w);
|}.

#[export] Instance toy_eth_laws : EthClientLaws ToyWorld.
Proof.
  split; cbn; try (by intros ? ? ? ?); try (by intros ? ? ?); try (by intros ? ?).
  - intros k e. by destruct (String.eqb k ""); [intros [= <-]|].
  - intros h w e w'. destruct (ty_receipt w); [done|]. by intros [= <- _].
  - intros w e w' [= H _]. destruct (ty_event w) as [[]|]; [injection H as <-..|]; done.
Qed.

Definition toy_pool : PoolCommitmentEntry :=
  mkPool (EncodeToString (map (fun i => Z.of_nat i) (seq 0 32)))
    (map (fun i => mkCandidate "0xr" (if (i <? 8)%nat then "3" else "7")) (seq 0 16)).

Example merkleTreeCharge_tight_witness :
  (forall pc, In pc [toy_pool] -> sortedMedian (pool_amounts pc) * 2 ^ 2 <= merkleTreeCharge 2 [toy_pool]) /\
  (merkleTreeCharge 2 [toy_pool] = 0 \/
   exists pc, In pc [toy_pool] /\ merkleTreeCharge 2 [toy_pool] = sortedMedian (pool_amounts pc) * 2 ^ 2) /\
  (forall cs, convert_pools (eth := toy_eth) [toy_pool] = Ok cs -> maxMerklePayout 2 cs = merkleTreeCharge 2 [toy_pool]).
Proof. apply (merkleTreeCharge_tight (eth := toy_eth) 2 [toy_pool]). unfold merkleMaxDepth. lia. Defined.

Example toy_charge : merkleTreeCharge 2 [toy_pool] = 28.
Proof. vm_compute. reflexivity. Qed.
