(* ===== verification/WorkerBase.v ===== *)
(** * The upload worker: decisions (src/internal/worker)

    The parts of the worker that compute without touching state: the error
    classes, the cost estimate, the checks of a merkle plan, the backoff
    schedule, the bounds of the requeue window. *)

From S2P Require Import Prelude GoLib Hex Sql Payer Evm.

(** ** Data of the antd SDK *)

Record PrepareUploadResult := mkPrepared {
  pr_UploadID : string;
  pr_PaymentType : string;
  pr_TotalAmount : string;
  pr_Payments : list PaymentInfo;
  pr_RPCUrl : string;
  pr_PaymentTokenAddress : string;
  pr_PaymentVaultAddress : string;
  pr_Depth : Z;
  pr_PoolCommitments : list PoolCommitmentEntry;
  pr_MerklePaymentTimestamp : Z;
  pr_MerkleBatches : list MerkleBatchEntry;
}.

Record FinalizeUploadResult := mkFinalized {
  fr_DataMap : string;
  fr_DataMapAddress : string;
  fr_ChunksStored : Z;
}.

(** ** Error classes (upload.go) *)

Definition is_network (a : antd_error) : bool := match a with NetworkError => true | _ => false end.
Definition is_unavailable (a : antd_error) : bool := match a with ServiceUnavailableError => true | _ => false end.
Definition is_bad_request (a : antd_error) : bool := match a with BadRequestError => true | _ => false end.
Definition is_too_large (a : antd_error) : bool := match a with TooLargeError => true | _ => false end.

Definition found {A} (o : option A) : bool := match o with Some _ => true | None => false end.

Definition isTransientAntdError (err : error) : bool :=
  found (errors_as is_network err) || found (errors_as is_unavailable err).

Definition isPermanentAntdError (err : error) : bool :=
  found (errors_as is_bad_request err) || found (errors_as is_too_large err).

Inductive uploadOutcome :=
| outcomeRetry | outcomeAbandon | outcomePreservePaid | outcomePreserveUnconfirmed.

Definition classifyFailure (err : error) (paymentMade canRetry : bool) : uploadOutcome :=
  if errors_is err ErrConfirmationTimeout then outcomePreserveUnconfirmed
  else if errors_is err ErrPaidNoRetry then outcomePreservePaid
  else if errors_is err ErrFinalizeFailed && canRetry then outcomeRetry
  else if isTransientAntdError err && canRetry && negb paymentMade then outcomeRetry
  else if paymentMade then outcomePreservePaid
  else outcomeAbandon.

Definition paidNoRetryIfUnrecorded (err : option error) (unrecorded : option error) : option error :=
  match err, unrecorded with
  | Some e, Some u => if errors_is e ErrPaidNoRetry then Some e
                      else Some (EWrap "not retrying" [e; errors_join [ESentinel ErrPaidNoRetry; u]])
  | e, _ => e
  end.

Definition waveFinalizeError (err : error) : error :=
  match as_partial err with
  | Some partial =>
      if negb (RetentionKnown partial)
      then EWrap "Failed to finalize upload: antd did not say whether it kept the paid attempt; not paying again: "
             [errors_join [ESentinel ErrPaidNoRetry; err]]
      else EWrap "Failed to finalize upload: " [errors_join [ESentinel ErrFinalizeFailed; err]]
  | None => EWrap "Failed to finalize upload: " [errors_join [ESentinel ErrFinalizeFailed; err]]
  end.

(** ** Cost and plan *)

Definition merkleBatchPlan (prepared : PrepareUploadResult) : result error (list MerkleBatchEntry) :=
  if (0 <? length (pr_MerkleBatches prepared))%nat then Ok (pr_MerkleBatches prepared)
  else if (length (pr_PoolCommitments prepared) =? 0)%nat
  then Err (ENew "merkle prepare returned no payment batches and no pool commitments")
  else Ok [mkBatch (pr_Depth prepared) (pr_PoolCommitments prepared) (pr_MerklePaymentTimestamp prepared)].

Definition estimatedUploadCost (prepared : PrepareUploadResult) : Z :=
  if String.eqb (pr_PaymentType prepared) "merkle" then
    match merkleBatchPlan prepared with
    | Err _ => 0
    | Ok batches => MaxMerkleBatchesPayout batches
    end
  else default 0 (parse_big (TrimSpace (pr_TotalAmount prepared))).

Fixpoint validate_candidates (cs : list Candidate) : result error unit :=
  match cs with
  | [] => Ok tt
  | c :: rest => match parse_big (cd_Amount c) with
                 | None => Err (ENew "invalid candidate amount")
                 | Some _ => validate_candidates rest
                 end
  end.

Fixpoint validate_pools (pcs : list PoolCommitmentEntry) : result error unit :=
  match pcs with
  | [] => Ok tt
  | pc :: rest =>
      if negb (length (pc_Candidates pc) =? MerklePoolCandidateCount)%nat then Err (ENew "expected candidates, got")
      else match validate_candidates (pc_Candidates pc) with
           | Err e => Err e
           | Ok _ => validate_pools rest
           end
  end.

Fixpoint validateMerkleBatches (batches : list MerkleBatchEntry) : result error unit :=
  match batches with
  | [] => Ok tt
  | b :: rest =>
      if (mb_Depth b <? 1) || (8 <? mb_Depth b) then Err (ENew "batch has invalid merkle depth")
      else match mb_PoolCommitments b with
           | [] => Err (ENew "batch has no pool commitments")
           | _ => match validate_pools (mb_PoolCommitments b) with
                  | Err e => Err e
                  | Ok _ => validateMerkleBatches rest
                  end
           end
  end.

(** [make([]string, batchCount)], then [copy]. *)
Definition padWinnerList (winners : list string) (batchCount : nat) : list string :=
  firstn batchCount winners ++ replicate (batchCount - length winners) "".

Definition shouldSalvageMerkle (err : error) (paidBatches : nat) : bool :=
  (0 <? paidBatches)%nat && negb (errors_is err ErrConfirmationTimeout).

(** ** Backoff schedule: times in nanoseconds, UTC *)

Definition minute : Z := 60 * seconds.
Definition hour : Z := 60 * minute.
Definition day : Z := 24 * hour.

Definition maxGasBackoffAttempts : Z := 10.

(** [time.Date(y, m, d, 2, 0, 0, 0, UTC)] of the day [now] falls on. *)
Definition nextCheapWindow (now : Z) : Z :=
  let target := now / day * day + 2 * hour in
  if 2 <=? now mod day / hour then target + 24 * hour else target.

Definition calcGasBackoff (now attempt : Z) : Z :=
  if attempt <=? 1 then now + 5 * minute
  else if attempt =? 2 then now + 15 * minute
  else if attempt =? 3 then now + 45 * minute
  else if attempt =? 4 then now + 2 * hour
  else if attempt =? 5 then now + 4 * hour
  else if attempt =? 6 then now + 6 * hour
  else nextCheapWindow now.

(** ** The requeue window (requeue_window.go): the override, 0 for none *)

Definition DefaultStuckRequeueAfter : Z := 60 * minute.
Definition MinStuckRequeueAfter : Z := 1 * minute.
Definition MaxStuckRequeueAfter : Z := 7 * 24 * hour.

Definition StuckRequeueAfter (override : Z) : Z * bool :=
  if 0 <? override then (override, true) else (DefaultStuckRequeueAfter, false).

Definition SetStuckRequeueAfter (window override : Z) : result error unit * Z :=
  if (window <? MinStuckRequeueAfter) || (MaxStuckRequeueAfter <? window)
  then (Err (ENew "requeue window must be between"), override) else (Ok tt, window).

Definition ResetStuckRequeueAfter : Z := 0.

(** * Properties *)

Lemma classifyFailure_retry err paymentMade canRetry : classifyFailure err paymentMade canRetry = outcomeRetry ->
  errors_is err ErrConfirmationTimeout = false /\ errors_is err ErrPaidNoRetry = false /\
  (errors_is err ErrFinalizeFailed = true \/ isTransientAntdError err = true).
Proof.
  unfold classifyFailure.
  destruct (errors_is err ErrConfirmationTimeout), (errors_is err ErrPaidNoRetry), (errors_is err ErrFinalizeFailed),
    (isTransientAntdError err), paymentMade, canRetry; cbn; intuition discriminate.
Qed.

(** What a failed attempt leads to: an unconfirmed transaction or a paid
    attempt is never retried nor abandoned; nothing is abandoned, and so no
    source deleted, once a payment was found; a retry needs attempts left and
    either a failed finalize or a transient antd error with nothing paid. *)
Theorem classifyFailure_spec (err : error) (paymentMade canRetry : bool) :
  (errors_is err ErrConfirmationTimeout = true <->
     classifyFailure err paymentMade canRetry = outcomePreserveUnconfirmed) /\
  (errors_is err ErrConfirmationTimeout = false -> errors_is err ErrPaidNoRetry = true ->
     classifyFailure err paymentMade canRetry = outcomePreservePaid) /\
  (classifyFailure err paymentMade canRetry = outcomeAbandon ->
     paymentMade = false /\ errors_is err ErrPaidNoRetry = false) /\
  (classifyFailure err paymentMade canRetry = outcomeRetry -> canRetry = true /\
     errors_is err ErrPaidNoRetry = false /\
     (errors_is err ErrFinalizeFailed = true \/ (isTransientAntdError err = true /\ paymentMade = false))).
Proof.
  unfold classifyFailure.
  destruct (errors_is err ErrConfirmationTimeout), (errors_is err ErrPaidNoRetry), (errors_is err ErrFinalizeFailed),
    (isTransientAntdError err), paymentMade, canRetry; cbn; intuition (auto; discriminate).
Qed.

(** The gas backoff always moves forward and by at most a day: attempts 1
    to 6 wait 5 minutes to 6 hours, later ones wait for an 02:00 UTC that is
    strictly later than now, and the next day's when now is inside the window
    that turned out too expensive. *)
Theorem calcGasBackoff_window (now attempt : Z) :
  now < calcGasBackoff now attempt <= now + day /\
  (7 <= attempt -> calcGasBackoff now attempt mod day = 2 * hour) /\
  (7 <= attempt -> 2 * hour <= now mod day < 6 * hour -> calcGasBackoff now attempt >= now + 20 * hour).
Proof.
  unfold calcGasBackoff, nextCheapWindow, day, hour, minute, seconds.
  change (24 * (60 * (60 * 1000000000))) with 86400000000000. change (60 * (60 * 1000000000)) with 3600000000000.
  destruct (Z.leb_spec attempt 1), (Z.eqb_spec attempt 2), (Z.eqb_spec attempt 3), (Z.eqb_spec attempt 4),
    (Z.eqb_spec attempt 5), (Z.eqb_spec attempt 6); try (split; [lia|split; lia]).
  pose proof (Z.mod_pos_bound now 86400000000000). pose proof (Z.div_mod now 86400000000000).
  pose proof (Z.mod_pos_bound (now mod 86400000000000) 3600000000000).
  pose proof (Z.div_mod (now mod 86400000000000) 3600000000000).
  assert (forall q, (q * 86400000000000 + 2 * 3600000000000) mod 86400000000000 = 2 * 3600000000000) as Hmod.
  { intros q. rewrite Z.add_comm, Z_mod_plus_full. reflexivity. }
  destruct (Z.leb_spec 2 (now mod 86400000000000 / 3600000000000)).
  - split; [lia|]. split; [intros _|lia].
    replace (now / 86400000000000 * 86400000000000 + 2 * 3600000000000 + 86400000000000)
      with ((now / 86400000000000 + 1) * 86400000000000 + 2 * 3600000000000) by lia. apply Hmod.
  - split; [lia|]. split; [intros _; apply Hmod|lia].
Qed.

(** The winner list sent to a partial finalize has one entry per batch: the
    paid batches' winners in order, then empty entries for the unpaid ones. *)
Theorem padWinnerList_spec (winners : list string) (batchCount : nat) (H : (length winners <= batchCount)%nat) :
  length (padWinnerList winners batchCount) = batchCount /\
  forall i, padWinnerList winners batchCount !! i =
    if (i <? length winners)%nat then winners !! i else if (i <? batchCount)%nat then Some "" else None.
Proof.
  unfold padWinnerList. rewrite firstn_all2 by done. split; [rewrite length_app, length_replicate; lia|].
  intros i. destruct (Nat.ltb_spec i (length winners)); [by rewrite lookup_app_l|].
  rewrite lookup_app_r by done. destruct (Nat.ltb_spec i batchCount).
  - apply lookup_replicate_2. lia.
  - apply lookup_ge_None_2. rewrite length_replicate. lia.
Qed.

Example padWinnerList_spec_witness :
  length (padWinnerList ["w1"] 3) = 3%nat /\
  forall i, padWinnerList ["w1"] 3 !! i =
    if (i <? length ["w1"])%nat then ["w1"] !! i else if (i <? 3)%nat then Some "" else None.
Proof. apply (padWinnerList_spec ["w1"] 3). cbn. lia. Defined.

(** A pool whose hash is not 32 bytes. *)
Definition bad_hash_pool : PoolCommitmentEntry :=
  mkPool "beef" (map (fun _ => mkCandidate "0xr" "1") (seq 0 16)).

Lemma validate_candidates_convert cs {World} {eth : EthClient World} :
  validate_candidates cs = Ok tt <-> exists ns, convert_candidates cs = Ok ns.
Proof.
  induction cs as [|c cs IH]; cbn; [split; eauto|]. destruct (parse_big (cd_Amount c)); [|by split; [|intros []]].
  rewrite IH. split.
  - intros [ns ->]. eauto.
  - destruct (convert_candidates cs); [eauto|]. by intros [].
Qed.

(** What the validation of a merkle plan covers: of a validated plan, a
    batch can only be refused for its data at payment time because of a pool
    hash that is not 32 bytes of hex, the one check of PayForMerkleTree that
    validateMerkleBatches does not make. *)
Theorem validateMerkleBatches_covers {World : Type} {eth : EthClient World} (batches : list MerkleBatchEntry)
    (Hv : validateMerkleBatches batches = Ok tt) :
  forall b, In b batches -> 1 <= mb_Depth b <= 8 /\
    ((exists cs, convert_pools (mb_PoolCommitments b) = Ok cs) <->
     Forall (fun pc => exists h, hexTo32Bytes (pc_PoolHash pc) = Ok h) (mb_PoolCommitments b)).
Proof.
  induction batches as [|b bs IH]; intros b0 Hin; [done|]. cbn in Hv.
  destruct (Z.ltb_spec (mb_Depth b) 1), (Z.ltb_spec 8 (mb_Depth b)); try done. cbn in Hv.
  destruct (mb_PoolCommitments b) as [|pc0 pcs0] eqn:Hpcs; [done|]. rewrite <- Hpcs in Hv.
  destruct (validate_pools (mb_PoolCommitments b)) as [[]|] eqn:Hp; [|done].
  destruct Hin as [<-|Hin]; [|by apply IH]. split; [lia|]. clear IH Hpcs Hv. revert Hp.
  induction (mb_PoolCommitments b) as [|pc pcs IH]; cbn; [split; eauto|].
  destruct (negb _) eqn:Hlen; [done|]. destruct (validate_candidates _) as [[]|] eqn:Hc; [|done].
  intros Hp. specialize (IH Hp). rewrite List.Forall_cons_iff, <- IH.
  apply (validate_candidates_convert (pc_Candidates pc)) in Hc as [ns Hns]. rewrite Hns.
  destruct (hexTo32Bytes (pc_PoolHash pc)) as [h|]; [|by split; [intros []|intros [[] _]]].
  destruct (convert_pools pcs) as [cs|]; [split; eauto|]. split; [by intros []|by intros [_ []]].
Qed.

Example validateMerkleBatches_covers_witness :
  (forall b, In b [mkBatch 2 [bad_hash_pool] 0] -> 1 <= mb_Depth b <= 8 /\
    ((exists cs, convert_pools (eth := toy_eth) (mb_PoolCommitments b) = Ok cs) <->
     Forall (fun pc => exists h, hexTo32Bytes (pc_PoolHash pc) = Ok h) (mb_PoolCommitments b))) /\
  is_ok (convert_pools (eth := toy_eth) [bad_hash_pool]) = false.
Proof.
  split; [|reflexivity]. apply (validateMerkleBatches_covers (eth := toy_eth) [mkBatch 2 [bad_hash_pool] 0]).
  vm_compute. reflexivity.
Defined.
