(* ===== verification/Worker.v ===== *)
(** * The upload worker (src/internal/worker/upload.go, upload_inflight.go,
    upload_finalize_resume.go)

    One attempt at an upload (prepare, cost check, pay, record, finalize, mark),
    the retries around it, the sweep of stuck uploads, the garbage collection of
    temp files. The antd daemon and the passing of time are the interface
    [Antd] over an arbitrary world, the payer is [Payer], the cipher [Aead];
    the log records the payment calls, the finalize calls and the webhooks. *)

From S2P Require Import Prelude GoLib Hex Sql Schema UploadStore Ledger QuotaSvc.
From S2P Require Import Settings Keyring Cache Payer Evm WorkerBase.

(** ** The daemon *)

Class Antd (W : Type) := {
  antd_PrepareUpload : string -> ST error W PrepareUploadResult;
  antd_PrepareUploadPublic : string -> ST error W PrepareUploadResult;
  antd_FinalizeUpload : string -> gmap string string -> ST error W FinalizeUploadResult;
  antd_FinalizeMerkleUpload : string -> string -> ST error W FinalizeUploadResult;
  antd_FinalizeMerkleUploadMulti : string -> list string -> ST error W FinalizeUploadResult;
  (** Wait this long; true when the context was done first. *)
  ctx_wait : Z -> ST error W bool;
}.

(** What the worker does to the outside, in order. *)
Inductive event :=
| EvQuotes                    (* PayForQuotes called *)
| EvTree (batch : nat)        (* PayForMerkleTree called for this batch *)
| EvFinalize (uploadID : string) (r : result error FinalizeUploadResult)  (* a finalize call and its result *)
| EvWebhook (name : string) (id : Z) (st : status).

(** activeUpload, its warned flag included. *)
Record activeUpload := mkActive { au_uuid : string; au_lastBeat : Z; au_warned : bool }.

(** UploadWorker and what it works on: the database behind its settings cache,
    the payer, the world, the disk with the download cache on it. [w_unrecorded]
    is processUpload's local of that name. *)
Record WState (P W : Type) := mkWState {
  w_svc : CachedSettings;
  w_pay : P;
  w_world : W;
  w_store : Store;
  w_dlCache : bool;
  w_prepareFailures : Z;
  w_circuitOpenUntil : Z;
  w_circuitCooldown : Z;
  w_active : gmap Z activeUpload;
  w_EvmRPCURL : string;
  w_EvmTokenAddress : string;
  w_DownloadCacheMaxBytes : option Z;
  w_unrecorded : option error;
  w_log : list event;
}.
Arguments mkWState {P W}.
Arguments w_svc {P W}. Arguments w_pay {P W}. Arguments w_world {P W}. Arguments w_store {P W}.
Arguments w_dlCache {P W}. Arguments w_prepareFailures {P W}. Arguments w_circuitOpenUntil {P W}.
Arguments w_circuitCooldown {P W}. Arguments w_active {P W}. Arguments w_EvmRPCURL {P W}.
Arguments w_EvmTokenAddress {P W}. Arguments w_DownloadCacheMaxBytes {P W}. Arguments w_unrecorded {P W}.
Arguments w_log {P W}.

Section setters.
Context {P W : Type}.
Implicit Types (s : WState P W).

Definition put_svc (c : CachedSettings) s : WState P W :=
  mkWState c (w_pay s) (w_world s) (w_store s) (w_dlCache s) (w_prepareFailures s) (w_circuitOpenUntil s)
    (w_circuitCooldown s) (w_active s) (w_EvmRPCURL s) (w_EvmTokenAddress s) (w_DownloadCacheMaxBytes s)
    (w_unrecorded s) (w_log s).
Definition put_pay (p : P) s : WState P W :=
  mkWState (w_svc s) p (w_world s) (w_store s) (w_dlCache s) (w_prepareFailures s) (w_circuitOpenUntil s)
    (w_circuitCooldown s) (w_active s) (w_EvmRPCURL s) (w_EvmTokenAddress s) (w_DownloadCacheMaxBytes s)
    (w_unrecorded s) (w_log s).
Definition put_world (w : W) s : WState P W :=
  mkWState (w_svc s) (w_pay s) w (w_store s) (w_dlCache s) (w_prepareFailures s) (w_circuitOpenUntil s)
    (w_circuitCooldown s) (w_active s) (w_EvmRPCURL s) (w_EvmTokenAddress s) (w_DownloadCacheMaxBytes s)
    (w_unrecorded s) (w_log s).
Definition put_store (c : Store) s : WState P W :=
  mkWState (w_svc s) (w_pay s) (w_world s) c (w_dlCache s) (w_prepareFailures s) (w_circuitOpenUntil s)
    (w_circuitCooldown s) (w_active s) (w_EvmRPCURL s) (w_EvmTokenAddress s) (w_DownloadCacheMaxBytes s)
    (w_unrecorded s) (w_log s).
Definition put_circuit (failures openUntil cooldown : Z) s : WState P W :=
  mkWState (w_svc s) (w_pay s) (w_world s) (w_store s) (w_dlCache s) failures openUntil cooldown
    (w_active s) (w_EvmRPCURL s) (w_EvmTokenAddress s) (w_DownloadCacheMaxBytes s) (w_unrecorded s) (w_log s).
Definition put_active (a : gmap Z activeUpload) s : WState P W :=
  mkWState (w_svc s) (w_pay s) (w_world s) (w_store s) (w_dlCache s) (w_prepareFailures s) (w_circuitOpenUntil s)
    (w_circuitCooldown s) a (w_EvmRPCURL s) (w_EvmTokenAddress s) (w_DownloadCacheMaxBytes s)
    (w_unrecorded s) (w_log s).
Definition put_endpoints (rpc token : string) s : WState P W :=
  mkWState (w_svc s) (w_pay s) (w_world s) (w_store s) (w_dlCache s) (w_prepareFailures s) (w_circuitOpenUntil s)
    (w_circuitCooldown s) (w_active s) rpc token (w_DownloadCacheMaxBytes s) (w_unrecorded s) (w_log s).
Definition put_unrecorded (u : option error) s : WState P W :=
  mkWState (w_svc s) (w_pay s) (w_world s) (w_store s) (w_dlCache s) (w_prepareFailures s) (w_circuitOpenUntil s)
    (w_circuitCooldown s) (w_active s) (w_EvmRPCURL s) (w_EvmTokenAddress s) (w_DownloadCacheMaxBytes s)
    u (w_log s).
Definition log_event (e : event) s : WState P W :=
  mkWState (w_svc s) (w_pay s) (w_world s) (w_store s) (w_dlCache s) (w_prepareFailures s) (w_circuitOpenUntil s)
    (w_circuitCooldown s) (w_active s) (w_EvmRPCURL s) (w_EvmTokenAddress s) (w_DownloadCacheMaxBytes s)
    (w_unrecorded s) (w_log s ++ [e]).

Definition w_db s : Db := c_db (w_svc s).
Definition put_db (d : Db) s : WState P W := put_svc (set_c_db d (w_svc s)) s.
End setters.

Definition circuitBreakerThreshold : Z := 5.
Definition circuitBreakerBaseCooldown : Z := 30 * seconds.
Definition circuitBreakerMaxCooldown : Z := 5 * minute.
Definition maxTransientRetries : nat := 3.

Definition finalizeResumeDelays : list Z :=
  [15 * seconds; 30 * seconds; 1 * minute; 2 * minute; 4 * minute].

Definition max_uint64 : Z := 18446744073709551615.

Section worker.
Context {P W : Type} {payer : Payer P} {antd : Antd W} {aead : Aead}.
(** The wallet keyring of the configuration. *)
Context (kr : Keyring).

Abbreviation M := (ST error (WState P W)).

Definition db {A} (m : DbM A) : M A := zoom w_db put_db m.
Definition settings {A} (m : SetM A) : M A := zoom w_svc put_svc m.
Definition pay {A} (m : ST error P A) : M A := zoom w_pay put_pay m.
Definition world {A} (m : ST error W A) : M A := zoom w_world put_world m.
Definition store {A} (m : CacheM A) : M A := zoom w_store put_store m.

Definition emit (e : event) : M unit := modify (log_event e).
Definition now_ : M Z := gets (fun s => now (w_db s)).

Definition FireUploadEvent (name : string) (u : Upload) (st : status) : M unit := emit (EvWebhook name (u_id u) st).

(** [select { case <-ctx.Done(): ...; case <-time.After(d): }]: an error here
    cannot happen and counts as done. *)
Definition wait_or_done (d : Z) : M bool :=
  r ← try (world (ctx_wait d));
  match r with
  | Ok false => modify (fun s => put_db (set_now (now (w_db s) + d) (w_db s)) s) ;; mret false
  | _ => mret true
  end.

(** ** In-flight uploads (upload_inflight.go) *)

Definition markActive (u : Upload) : M unit :=
  modify (fun s => put_active (<[u_id u := mkActive (u_uuid u) (now (w_db s)) false]> (w_active s)) s).

Definition clearActive (id : Z) : M unit := modify (fun s => put_active (delete id (w_active s)) s).

Definition activeIDs (s : WState P W) : list Z := map fst (map_to_list (w_active s)).

Definition heartbeat (u : Upload) : M unit :=
  ignore (db (TouchProcessing (u_id u))) ;;
  modify (fun s => match w_active s !! u_id u with
                   | Some a => put_active (<[u_id u := mkActive (au_uuid a) (now (w_db s)) false]> (w_active s)) s
                   | None => s
                   end).

(** [override]: the requeue window set by the operator, 0 for none. *)
Definition sweepStuck (override : Z) : M unit :=
  let window := fst (StuckRequeueAfter override) in
  ids ← gets activeIDs;
  ignore (db (RequeueStuckExcept window ids)) ;;
  modify (fun s => put_active
    ((fun a => if (window <? now (w_db s) - au_lastBeat a) && negb (au_warned a)
               then mkActive (au_uuid a) (au_lastBeat a) true else a) <$> w_active s) s).

Definition refuseRepayment (u : Upload) : M unit :=
  r ← try (db (Ledger.HasPaymentSinceQueued (u_id u)));
  match r with
  | Err err => fail (EWrap "could not check for an earlier payment, not paying: " [err])
  | Ok true => fail (EWrap "a payment is already recorded for this upload since it was queued" [ESentinel ErrPaidNoRetry])
  | Ok false => mret tt
  end.

(** ** Recording a payment *)

Definition ledgerPayment (walletID : Z) (u : Upload) (amount balanceAfter txHash : string) : M (option error) :=
  r ← try (db (Ledger.Record_ walletID (Some (u_id u)) "upload" amount balanceAfter txHash));
  match r with
  | Ok _ => mret None
  | Err err => mret (Some (EWrap "payment confirmed but not recorded: " [err]))
  end.

Definition recordPayment (wallet : Wallet) (u : Upload) (tokenAddr paidAmount txHash : string) : M (option error) :=
  r ← try (pay (GetBalances_ (w_address wallet) tokenAddr));
  match r with
  | Ok (tokenBal, gasBal) =>
      ignore (db (UpdateBalance (w_id wallet) tokenBal gasBal)) ;;
      ledgerPayment (w_id wallet) u paidAmount tokenBal txHash
  | Err _ => ledgerPayment (w_id wallet) u paidAmount (w_payment_balance wallet) txHash
  end.

(** ** Merkle payments *)

(** The loop of payMerkleBatches from batch [i] on: the winners and the total
    so far, and the error that stopped it. *)
Fixpoint payMerkleBatches (walletKey : string) (batches : list MerkleBatchEntry) (tokenAddr vaultAddr : string)
  (wallet : Wallet) (u : Upload) (i : nat) (winners : list string) (totalPaid : Z)
  : M (list string * Z * option error) :=
  match batches with
  | [] => mret (winners, totalPaid, None)
  | b :: rest =>
      emit (EvTree i) ;;
      r ← try (pay (PayForMerkleTree_ walletKey (mb_Depth b) (mb_PoolCommitments b) (mb_MerklePaymentTimestamp b)
                      tokenAddr vaultAddr));
      match r with
      | Err payErr => mret (winners, totalPaid, Some payErr)
      | Ok (winnerHash, batchPaid) =>
          let total := totalPaid + default 0 (parse_big batchPaid) in
          rerr ← recordPayment wallet u tokenAddr batchPaid winnerHash;
          modify (fun s => match rerr, w_unrecorded s with
                           | Some e, None => put_unrecorded (Some e) s
                           | _, _ => s
                           end) ;;
          heartbeat u ;;
          payMerkleBatches walletKey rest tokenAddr vaultAddr wallet u (S i) (winners ++ [winnerHash]) total
      end
  end.

(** ** Finalizing *)

Definition finalize_call (uploadID : string) (m : ST error W FinalizeUploadResult) : M FinalizeUploadResult :=
  r ← try (world m); emit (EvFinalize uploadID r) ;; of_result r.

Fixpoint resume (u : Upload) (finalize : M FinalizeUploadResult) (delays : list Z) (lastFailed : Z)
  (last : result error FinalizeUploadResult) : M (result error FinalizeUploadResult) :=
  match last, delays with
  | Err err, delay :: rest =>
      match as_partial err with
      | None => mret last
      | Some partial =>
          if negb (Retryable partial) then mret last
          else if lastFailed <=? ChunksFailed partial then mret last
          else
            stop ← wait_or_done delay;
            if (stop : bool) then mret last else
            heartbeat u ;;
            next ← try finalize;
            resume u finalize rest (ChunksFailed partial) next
      end
  | _, _ => mret last
  end.

Definition finalizeWithResume (u : Upload) (finalize : M FinalizeUploadResult) : M FinalizeUploadResult :=
  first ← try finalize;
  r ← resume u finalize finalizeResumeDelays max_uint64 first;
  of_result r.

Definition salvageMerkleFinalize (uploadID : string) (winners : list string) (batchCount : nat)
  : M (option FinalizeUploadResult) :=
  r ← try (finalize_call uploadID (antd_FinalizeMerkleUploadMulti uploadID (padWinnerList winners batchCount)));
  match r with Ok result => mret (Some result) | Err _ => mret None end.

(** ** The download cache, seeded from the temp file *)

Definition DownloadCacheBudget (s : WState P W) (dbBudget : Z) : Z :=
  default dbBudget (w_DownloadCacheMaxBytes s).

Definition seedDownloadCache (u : Upload) (contentID : string) : M unit :=
  has ← gets w_dlCache;
  if negb has || String.eqb contentID "" then mret tt else
  let temp := default "" (u_temp_path u) in
  if String.eqb temp "" then mret tt else
  private ← (if bool_decide (u_visibility u = Public) then mret true
             else settings (GetBool "download_cache_private" false));
  if negb private then mret tt else
  seed ← try (settings (CachedGet "download_cache_seed_on_upload"));
  if match seed with Ok "false" => true | _ => false end then mret tt else
  dbBudget ← settings (GetIntWithBounds "download_cache_max_bytes" 0 0 (2 ^ 50));
  budget ← gets (fun s => DownloadCacheBudget s dbBudget);
  if budget <=? 0 then mret tt else
  maxObject ← settings (GetIntWithBounds "download_cache_max_object_bytes" (64 * 2 ^ 20) 1 (2 ^ 40));
  fi ← try (store (Lstat temp));
  match fi with
  | Err _ => mret tt
  | Ok f =>
      if negb (f_regular f) || (maxObject <? f_size f) then mret tt else
      r ← try (store (PromoteIfFits (KeyForIdentifier contentID) temp budget));
      match r with
      | Err _ => mret tt
      | Ok _ =>
          store (modify (with_metrics add_seeded)) ;;
          row ← try (db (GetByUUID (u_uuid u)));
          match row with
          | Err gerr => if errors_is gerr ErrUploadNotFound
                        then ignore (store (Drop (KeyForIdentifier contentID))) else mret tt
          | Ok _ => mret tt
          end
      end
  end.

Definition cleanupTempFile (u : Upload) : M unit :=
  let temp := default "" (u_temp_path u) in
  if String.eqb temp "" then mret tt else ignore (store (Remove temp)).

(** ** processUpload *)

Definition nonzero_path (u : Upload) : M string :=
  match u_temp_path u with
  | None | Some "" => fail (ENew "File not found on server")
  | Some p => mret p
  end.

(** os.Stat *)
Definition require_temp (p : string) : M unit :=
  map_err (fun _ => ENew "File not found on server") (store (Lstat p)) ;; mret tt.

(** The cost ceiling: back off, give up, or go on. *)
Definition check_cost (u : Upload) (prepared : PrepareUploadResult) : M unit :=
  v ← try (settings (CachedGet "max_gas_fee"));
  match v with
  | Err _ => mret tt
  | Ok maxFeeStr =>
      match parse_big (TrimSpace maxFeeStr) with
      | None => mret tt
      | Some maxFee =>
          if negb (0 <? maxFee) then mret tt else
          let estCost := estimatedUploadCost prepared in
          if maxFee <? estCost then
            let attempt := u_backoff_attempt u + 1 in
            if maxGasBackoffAttempts <? attempt then fail (ENew "Gas fees too high — try again later") else
            t ← now_;
            map_err (fun _ => ENew "Internal error scheduling retry")
              (db (SetGasBackoff (u_id u) (calcGasBackoff t attempt) attempt (big_String estCost))) ;;
            fail (ESentinel ErrGasBackoff)
          else if 0 <? u_backoff_attempt u then ignore (db (ClearBackoff (u_id u)))
          else mret tt
      end
  end.

(** The RPC URL and token to use, and what is cached in the configuration. *)
Definition resolve_endpoints (prepared : PrepareUploadResult) : M (string * string) :=
  rpc ← gets w_EvmRPCURL; token ← gets w_EvmTokenAddress;
  let rpcURL := if String.eqb rpc "" then pr_RPCUrl prepared else rpc in
  let tokenAddr := if String.eqb token "" then pr_PaymentTokenAddress prepared else token in
  (if String.eqb rpc "" && negb (String.eqb (pr_RPCUrl prepared) "")
   then modify (put_endpoints (pr_RPCUrl prepared) (pr_PaymentTokenAddress prepared)) else mret tt) ;;
  mret (rpcURL, tokenAddr).

Definition connect_signer (rpcURL : string) : M unit :=
  p ← gets w_pay;
  (if bool_decide (RPCUrl_ p = Some rpcURL) then mret tt
   else map_err (fun e => EWrap "Failed to connect to EVM RPC: " [e]) (pay (NewSigner_ rpcURL))) ;;
  v ← try (settings (CachedGet "payment_confirmation_timeout_seconds"));
  match v with
  | Ok s => match Atoi (TrimSpace s) with
            | Some secs => if 0 <? secs then modify (fun st => put_pay (SetConfirmationTimeout_ (wrap64 (secs * seconds)) (w_pay st)) st)
                           else mret tt
            | None => mret tt
            end
  | Err _ => mret tt
  end.

(** Payment and finalization of a merkle plan: the result and what was paid. *)
Definition pay_merkle (u : Upload) (wallet : Wallet) (walletKey tokenAddr : string) (prepared : PrepareUploadResult)
  : M (FinalizeUploadResult * string) :=
  batches ← of_result (merkleBatchPlan prepared);
  map_err (fun e => EWrap "merkle payment data invalid: " [e]) (of_result (validateMerkleBatches batches)) ;;
  refuseRepayment u ;;
  (if (1 <? length batches)%nat
   then map_err (fun e => EWrap "EVM merkle allowance approval failed: " [e])
          (pay (EnsureMerkleAllowance_ walletKey batches tokenAddr (pr_PaymentVaultAddress prepared)))
   else mret tt) ;;
  '(winners, totalPaid, payErr) ← payMerkleBatches walletKey batches tokenAddr (pr_PaymentVaultAddress prepared)
                                    wallet u 0 [] 0;
  match payErr with
  | Some e =>
      if shouldSalvageMerkle e (length winners) then
        r ← salvageMerkleFinalize (pr_UploadID prepared) winners (length batches);
        match r with
        | Some result => mret (result, big_String totalPaid)
        | None => fail (EWrap "EVM merkle payment failed at batch" [errors_join [ESentinel ErrPaidNoRetry; e]])
        end
      else fail (EWrap "EVM merkle payment failed (batch" [e])
  | None =>
      heartbeat u ;;
      result ← map_err (fun e => EWrap "Failed to finalize merkle upload: " [errors_join [ESentinel ErrPaidNoRetry; e]])
        (finalizeWithResume u (finalize_call (pr_UploadID prepared)
           (if (length batches =? 1)%nat
            then antd_FinalizeMerkleUpload (pr_UploadID prepared) (default "" (head winners))
            else antd_FinalizeMerkleUploadMulti (pr_UploadID prepared) winners)));
      mret (result, big_String totalPaid)
  end.

(** [for _, h := range txHashes { txHash = h; break }] *)
Definition first_hash (m : gmap string string) : string :=
  match map_to_list m with (_, h) :: _ => h | [] => "" end.

(** Payment and finalization of a wave batch. *)
Definition pay_wave (u : Upload) (wallet : Wallet) (walletKey tokenAddr : string) (prepared : PrepareUploadResult)
  : M (FinalizeUploadResult * string) :=
  txHashes ← match pr_Payments prepared with
    | [] => mret ∅
    | payments =>
        refuseRepayment u ;;
        emit EvQuotes ;;
        txHashes ← map_err (fun e => EWrap "EVM payment failed: " [e])
          (pay (PayForQuotes_ walletKey payments tokenAddr (pr_PaymentVaultAddress prepared)));
        unrecorded ← recordPayment wallet u tokenAddr (pr_TotalAmount prepared) (first_hash txHashes);
        modify (put_unrecorded unrecorded) ;;
        heartbeat u ;;
        mret txHashes
    end;
  heartbeat u ;;
  result ← map_err waveFinalizeError
    (finalizeWithResume u (finalize_call (pr_UploadID prepared) (antd_FinalizeUpload (pr_UploadID prepared) txHashes)));
  mret (result, pr_TotalAmount prepared).

(** Mark the upload with its final status and seed the cache. *)
Definition complete (u : Upload) (result : FinalizeUploadResult) (paidAmount : string) : M status :=
  let alreadyStored := fr_ChunksStored result =? 0 in
  let st := if alreadyStored then AlreadyStored else Completed in
  let saving := map_err (E := error) (A := unit) (fun _ => ENew "Failed to save upload record") in
  if bool_decide (u_visibility u = Public) then
    if String.eqb (fr_DataMapAddress result) "" then fail (ENew "Daemon did not return data_map_address for public upload") else
    saving (db (if alreadyStored then MarkAlreadyStoredPublic (u_id u) (fr_DataMapAddress result) paidAmount
                else MarkCompletedPublic (u_id u) (fr_DataMapAddress result) paidAmount)) ;;
    seedDownloadCache u (fr_DataMapAddress result) ;;
    mret st
  else
    saving (db (if alreadyStored then MarkAlreadyStored (u_id u) (fr_DataMap result) paidAmount
                else MarkCompleted (u_id u) (fr_DataMap result) paidAmount)) ;;
    seedDownloadCache u (fr_DataMap result) ;;
    mret st.

Definition process_body (u : Upload) : M status :=
  tempPath ← nonzero_path u;
  require_temp tempPath ;;
  map_err (fun e => EWrap "Quota exceeded: " [e])
    (db (CheckUserQuotaInFlight (u_user_id u) (u_token_id u) (u_file_size u))) ;;
  wallet ← map_err (fun _ => ENew "No wallet configured for payment") (db GetDefault);
  walletKey ← map_err (fun _ => ENew "Failed to decrypt wallet key") (of_result (DecryptKey kr wallet));
  prepared ← map_err (fun e => EWrap "Failed to prepare upload: " [e])
    (world (if bool_decide (u_visibility u = Public) then antd_PrepareUploadPublic tempPath
            else antd_PrepareUpload tempPath));
  heartbeat u ;;
  check_cost u prepared ;;
  '(rpcURL, tokenAddr) ← resolve_endpoints prepared;
  connect_signer rpcURL ;;
  '(result, paidAmount) ← (if String.eqb (pr_PaymentType prepared) "merkle"
    then pay_merkle u wallet walletKey tokenAddr prepared
    else pay_wave u wallet walletKey tokenAddr prepared);
  complete u result paidAmount.

(** The deferred paidNoRetryIfUnrecorded runs whatever the body returned. *)
Definition processUpload (u : Upload) : M status :=
  modify (put_unrecorded None) ;;
  r ← try (process_body u);
  unrecorded ← gets w_unrecorded;
  match r with
  | Ok st => mret st
  | Err e => match paidNoRetryIfUnrecorded (Some e) unrecorded with
             | Some e' => fail e'
             | None => fail e
             end
  end.

(** ** processOne *)

Definition finishFailedUpload (u : Upload) (err : error) (outcome : uploadOutcome) : M unit :=
  match outcome with
  | outcomePreserveUnconfirmed =>
      ignore (db (MarkFailedPreserveTemp (u_id u) (Error_ err) StatusDetailPaymentUnconfirmed))
  | outcomePreservePaid =>
      ignore (db (MarkFailedPreserveTemp (u_id u) (Error_ err) StatusDetailPaidUnfinalized))
  | _ =>
      (if isTransientAntdError err then
         s ← get;
         let failures := w_prepareFailures s + 1 in
         if circuitBreakerThreshold <=? failures then
           modify (put_circuit failures (now (w_db s) + w_circuitCooldown s)
                     (Z.min (2 * w_circuitCooldown s) circuitBreakerMaxCooldown))
         else modify (put_circuit failures (w_circuitOpenUntil s) (w_circuitCooldown s))
       else mret tt) ;;
      ignore (db (MarkFailed (u_id u) (Error_ err))) ;;
      cleanupTempFile u
  end ;;
  FireUploadEvent "failed" u Failed.

(** [left] attempts after this one. *)
Fixpoint attempts (u : Upload) (left : nat) : M unit :=
  let attempt := Z.of_nat (maxTransientRetries - left) in
  r ← try (processUpload u);
  match r with
  | Ok st =>
      modify (fun s => put_circuit 0 (w_circuitOpenUntil s) circuitBreakerBaseCooldown s) ;;
      FireUploadEvent "completed" u st ;;
      cleanupTempFile u
  | Err err =>
      if errors_is err ErrGasBackoff then mret tt else
      paid ← try (db (Ledger.HasByUpload (u_id u)));
      let paymentMade := match paid with Ok b => b | Err _ => false end in
      match left, classifyFailure err paymentMade (0 <? left)%nat with
      | S left', outcomeRetry =>
          stop ← wait_or_done ((attempt + 1) * 5 * seconds);
          if (stop : bool) then mret tt else attempts u left'
      | _, outcome => finishFailedUpload u err outcome
      end
  end.

Definition processOne (u : Upload) : M unit :=
  FireUploadEvent "processing" u (u_status u) ;;
  attempts u maxTransientRetries.

(** ** The loops *)

Definition Start : M unit := ignore (db (RequeueStuck 0)).

Definition getMaxConcurrent : M Z :=
  v ← try (settings (CachedGet "max_concurrent_uploads"));
  match v with
  | Ok s => match Atoi s with Some n => if 0 <? n then mret n else mret 1 | None => mret 1 end
  | Err _ => mret 1
  end.

(** The capacity of the semaphore channel. *)
Definition sem_cap : nat := 32.

(** [for len(sem) < maxC]: claim until the slots are full or nothing is left.
    At capacity the send on [sem] blocks, with one more upload claimed. *)
Fixpoint fill (slots : nat) (maxC : Z) (started : list Upload) : M (list Upload) :=
  let inFlight := (sem_cap - slots)%nat in
  if Z.of_nat inFlight <? maxC then
    r ← try (db DequeueNext);
    match r with
    | Err _ | Ok None => mret started
    | Ok (Some u) =>
        markActive u ;;
        match slots with
        | O => mret (started ++ [u])
        | S slots' => fill slots' maxC (started ++ [u])
        end
    end
  else mret started.

(** One tick of processLoop with this many slots taken. *)
Definition process_tick (inFlight : nat) : M (list Upload) :=
  s ← get;
  if now (w_db s) <? w_circuitOpenUntil s then mret [] else
  maxC ← getMaxConcurrent;
  fill (sem_cap - inFlight) maxC [].

(** The goroutine of a claimed upload, which frees its slot when it is done. *)
Definition run_slot (u : Upload) : M unit := ignore (processOne u) ;; clearActive (u_id u).

(** ** Temp files *)

(** An entry of ReadDir; without a modification time when Info fails. *)
Record DirEntry := mkDirEntry { de_Name : string; de_IsDir : bool; de_ModTime : option Z }.

Fixpoint clean_entries (tempDir : string) (active : list string) (entries : list DirEntry) (cleaned : Z) : M Z :=
  match entries with
  | [] => mret cleaned
  | e :: rest =>
      let fullPath := tempDir +:+ "/" +:+ de_Name e in
      t ← now_;
      if de_IsDir e || existsb (String.eqb fullPath) active
         || match de_ModTime e with None => true | Some mt => t - mt <? 10 * minute end
      then clean_entries tempDir active rest cleaned
      else
        r ← try (store (Remove fullPath));
        clean_entries tempDir active rest (if is_ok r then cleaned + 1 else cleaned)
  end.

(** [entries]: what ReadDir returned. *)
Definition cleanOrphanedTempFiles (tempDir : string) (entries : option (list DirEntry)) : M Z :=
  match entries with
  | None => mret 0
  | Some es =>
      r ← try (db ListActiveTempPaths);
      match r with
      | Err _ => mret 0
      | Ok active => clean_entries tempDir active es 0
      end
  end.
End worker.
