(* ===== verification/WorkerSafety.v ===== *)
(** * The upload worker: an upload is paid for at most once

    Which calls of the worker leave payments and the ledger alone ([quiet]),
    what an attempt at an upload may pay, and that no attempt pays again. *)

From S2P Require Import Prelude GoLib Hex Sql Schema UploadStore Ledger QuotaSvc.
From S2P Require Import Settings Keyring Cache Payer Evm WorkerBase Worker.
From Stdlib Require Import Ascii.

(** ** The ledger under the worker's database calls *)

Section db_calls.
Import Ledger.

Ltac row_update := intros; apply ledger_le_update; intros; reflexivity.

Lemma ledger_mark id f :
  (forall t u, u_id (f t u) = u_id u) -> (forall t u, u_payment_floor_txn_id (f t u) = u_payment_floor_txn_id u) ->
  steps ledger_le (mark id f).
Proof. intros. apply steps_mark; [apply _..|]. intros. by apply ledger_le_update. Qed.

Lemma ledger_TouchProcessing id : steps ledger_le (TouchProcessing id).
Proof. unfold TouchProcessing. steps_go. apply steps_exec_uploads; [apply _..|]. row_update. Qed.

Lemma ledger_RequeueStuckExcept t ex : steps ledger_le (RequeueStuckExcept t ex).
Proof. unfold RequeueStuckExcept. steps_go. apply steps_exec_uploads; [apply _..|]. row_update. Qed.

Lemma ledger_SetGasBackoff i b a c : steps ledger_le (SetGasBackoff i b a c).
Proof. by apply ledger_mark. Qed.

Lemma ledger_ClearBackoff i : steps ledger_le (ClearBackoff i).
Proof. by apply ledger_mark. Qed.

Lemma ledger_MarkFailed i e : steps ledger_le (MarkFailed i e).
Proof. by apply ledger_mark. Qed.

Lemma ledger_MarkFailedPreserveTemp i e st : steps ledger_le (MarkFailedPreserveTemp i e st).
Proof. by apply ledger_mark. Qed.

Lemma ledger_MarkCompleted i k c : steps ledger_le (MarkCompleted i k c).
Proof. by apply ledger_mark. Qed.

Lemma ledger_MarkCompletedPublic i k c : steps ledger_le (MarkCompletedPublic i k c).
Proof. by apply ledger_mark. Qed.

Lemma ledger_MarkAlreadyStored i k c : steps ledger_le (MarkAlreadyStored i k c).
Proof. by apply ledger_mark. Qed.

Lemma ledger_MarkAlreadyStoredPublic i k c : steps ledger_le (MarkAlreadyStoredPublic i k c).
Proof. by apply ledger_mark. Qed.

Lemma ledger_DequeueNext : steps ledger_le DequeueNext.
Proof. apply steps_DequeueNext; [apply _..|]. row_update. Qed.

Lemma ledger_UpdateBalance i p g : steps ledger_le (UpdateBalance i p g).
Proof. apply steps_exec; [apply _..|]. intros d. by apply ledger_le_same. Qed.

Lemma ledger_HasPaymentSinceQueued i : steps ledger_le (HasPaymentSinceQueued i).
Proof. unfold HasPaymentSinceQueued. steps_go. Qed.

Lemma ledger_HasByUpload i : steps ledger_le (HasByUpload i).
Proof. unfold HasByUpload. steps_go. Qed.

Lemma ledger_GetByUUID i : steps ledger_le (GetByUUID i).
Proof. unfold GetByUUID. steps_go. Qed.

Lemma ledger_ListActiveTempPaths : steps ledger_le ListActiveTempPaths.
Proof. unfold ListActiveTempPaths. steps_go. Qed.

Lemma ledger_GetDefault : steps ledger_le GetDefault.
Proof. unfold GetDefault. steps_go. Qed.

Lemma ledger_lookupQuotaLimit ty eid : steps ledger_le (lookupQuotaLimit ty eid).
Proof. unfold lookupQuotaLimit. steps_go. Qed.

Lemma ledger_sum_query f : steps ledger_le (sum_query f).
Proof. unfold sum_query. steps_go. Qed.

Lemma ledger_within a b c : steps ledger_le (within a b c).
Proof. unfold within. steps_go. Qed.

#[local] Hint Resolve ledger_lookupQuotaLimit ledger_sum_query ledger_within : steps_db.

Lemma ledger_check_groups qs n sts : steps ledger_le (check_groups qs n sts).
Proof. induction qs as [|[g m] qs IH]; cbn; steps_go. Qed.

#[local] Hint Resolve ledger_check_groups : steps_db.

Lemma ledger_CheckUserQuotaInFlight u t n : steps ledger_le (CheckUserQuotaInFlight u t n).
Proof.
  unfold CheckUserQuotaInFlight, checkAllTiers. apply steps_in_tx; [apply _..|].
  unfold checkUserTier, checkGroupTier, checkDepartmentTier, checkSystemTier. steps_go.
Qed.

(** The settings cache in front of the database. *)
Definition cached_le (c c' : CachedSettings) : Prop := ledger_le (c_db c) (c_db c').

#[export] Instance cached_le_preorder : PreOrder cached_le.
Proof. split; unfold cached_le; [by intros c|]. intros a b c. by etransitivity. Qed.

Lemma cached_CachedGet key : steps cached_le (CachedGet key).
Proof.
  assert (steps cached_le (inner (Settings.Get key))) as Hi.
  { apply (steps_zoom _ ledger_le); [done|]. unfold Settings.Get. steps_go. }
  unfold CachedGet. steps_go; try exact Hi; apply steps_modify; intros c; unfold cached_le; done.
Qed.

#[local] Hint Resolve cached_CachedGet : steps_db.

Lemma cached_GetBool key b : steps cached_le (GetBool key b).
Proof. unfold GetBool. steps_go. Qed.

Lemma cached_GetIntWithBounds key a b c : steps cached_le (GetIntWithBounds key a b c).
Proof. unfold GetIntWithBounds. steps_go. Qed.
End db_calls.

#[export] Hint Resolve ledger_TouchProcessing ledger_RequeueStuckExcept ledger_SetGasBackoff ledger_ClearBackoff
  ledger_MarkFailed ledger_MarkFailedPreserveTemp ledger_MarkCompleted ledger_MarkCompletedPublic
  ledger_MarkAlreadyStored ledger_MarkAlreadyStoredPublic ledger_DequeueNext ledger_UpdateBalance
  ledger_HasPaymentSinceQueued ledger_HasByUpload ledger_GetByUUID ledger_ListActiveTempPaths ledger_GetDefault
  ledger_CheckUserQuotaInFlight cached_CachedGet cached_GetBool cached_GetIntWithBounds Ledger.steps_Record : steps_db.

(** ** Quiet calls *)

Definition is_pay (e : event) : bool := match e with EvQuotes | EvTree _ => true | _ => false end.

Section safety.
Context {P W : Type} {payer : Payer P} {antd : Antd W} {aead : Aead}.
Context (kr : Keyring).
Implicit Types (s : WState P W).
Abbreviation M := (ST error (WState P W)).

(** The payment calls made so far. *)
Definition paylog (s : WState P W) : list event := List.filter is_pay (w_log s).

(** No payment call, no payment lost. *)
Definition quiet (s s' : WState P W) : Prop :=
  paylog s' = paylog s /\ Ledger.ledger_le (w_db s) (w_db s') /\ w_unrecorded s' = w_unrecorded s.

#[export] Instance quiet_preorder : PreOrder quiet.
Proof.
  split; [intros s; split; [done|split; reflexivity]|]. intros a b c (H1 & H2 & H3) (H4 & H5 & H6).
  split; [congruence|]. split; [by etransitivity|congruence].
Qed.

Lemma quiet_same s s' : w_log s' = w_log s -> w_db s' = w_db s -> w_unrecorded s' = w_unrecorded s -> quiet s s'.
Proof. intros H1 H2 H3. unfold quiet, paylog. rewrite H1, H2, H3. split; [done|split; reflexivity]. Qed.

Lemma quiet_modify (f : WState P W -> WState P W) :
  (forall s, w_log (f s) = w_log s) -> (forall s, w_db (f s) = w_db s) ->
  (forall s, w_unrecorded (f s) = w_unrecorded s) -> steps quiet (modify f : M unit).
Proof. intros. apply steps_modify. intros s. by apply quiet_same. Qed.

Lemma quiet_db {A} (m : DbM A) : steps Ledger.ledger_le m -> steps quiet (db m : M A).
Proof. intros H. apply (steps_zoom _ Ledger.ledger_le); [|done]. intros s d Hd. by split; [|split]. Qed.

Lemma quiet_settings {A} (m : SetM A) : steps cached_le m -> steps quiet (settings m : M A).
Proof. intros H. apply (steps_zoom _ cached_le); [|done]. intros s c Hc. by split; [|split]. Qed.

Lemma quiet_pay {A} (m : ST error P A) : steps quiet (pay m : M A).
Proof. apply (steps_zoom _ (fun _ _ => True)); [|done]. intros s p _. by apply quiet_same. Qed.

Lemma quiet_world {A} (m : ST error W A) : steps quiet (world m : M A).
Proof. apply (steps_zoom _ (fun _ _ => True)); [|done]. intros s w _. by apply quiet_same. Qed.

Lemma quiet_store {A} (m : CacheM A) : steps quiet (store m : M A).
Proof. apply (steps_zoom _ (fun _ _ => True)); [|done]. intros s c _. by apply quiet_same. Qed.

Lemma quiet_emit e : is_pay e = false -> steps quiet (emit e : M unit).
Proof.
  intros He. apply steps_modify. intros s. split; [|split; reflexivity].
  unfold paylog, log_event. cbn. rewrite List.filter_app. cbn. by rewrite He, app_nil_r.
Qed.

#[local] Hint Resolve quiet_db quiet_settings quiet_pay quiet_world quiet_store quiet_emit : steps_db.

Lemma quiet_now : steps quiet (now_ : M Z).
Proof. unfold now_. steps_go. Qed.

Lemma quiet_Fire name u st : steps quiet (FireUploadEvent name u st : M unit).
Proof. by apply quiet_emit. Qed.

Lemma quiet_wait d : steps quiet (wait_or_done d : M bool).
Proof.
  unfold wait_or_done. steps_go. apply steps_modify. intros s.
  split; [done|]. split; [by apply Ledger.ledger_le_same|done].
Qed.

Lemma quiet_markActive u : steps quiet (markActive u : M unit).
Proof. by apply quiet_modify. Qed.

Lemma quiet_heartbeat u : steps quiet (heartbeat u : M unit).
Proof. unfold heartbeat. steps_go. apply quiet_modify; intros s; by case_match. Qed.

Lemma quiet_refuse u : steps quiet (refuseRepayment u : M unit).
Proof. unfold refuseRepayment. steps_go. Qed.

#[local] Hint Resolve quiet_now quiet_Fire quiet_wait quiet_markActive quiet_heartbeat quiet_refuse : steps_db.

Lemma quiet_ledgerPayment w u a b h : steps quiet (ledgerPayment w u a b h : M _).
Proof. unfold ledgerPayment. steps_go. Qed.

#[local] Hint Resolve quiet_ledgerPayment : steps_db.

Lemma quiet_recordPayment w u t p h : steps quiet (recordPayment w u t p h : M _).
Proof. unfold recordPayment. steps_go. Qed.

Lemma quiet_finalize_call id m : steps quiet (finalize_call id m : M _).
Proof. unfold finalize_call. steps_go. Qed.

Lemma quiet_resume u (f : M FinalizeUploadResult) : steps quiet f ->
  forall delays n last, steps quiet (resume u f delays n last).
Proof.
  intros Hf. induction delays as [|d delays IH]; intros n last; cbn; destruct last; [steps_go..|].
  all: steps_go; eauto with steps_db typeclass_instances.
Qed.

Lemma quiet_finalizeWithResume u (f : M FinalizeUploadResult) : steps quiet f -> steps quiet (finalizeWithResume u f).
Proof. intros Hf. unfold finalizeWithResume. steps_go. by apply quiet_resume. Qed.

#[local] Hint Resolve quiet_recordPayment quiet_finalize_call quiet_finalizeWithResume : steps_db.

Lemma quiet_salvage id ws n : steps quiet (salvageMerkleFinalize id ws n : M _).
Proof. unfold salvageMerkleFinalize. steps_go. Qed.

Lemma quiet_seed u k : steps quiet (seedDownloadCache u k : M unit).
Proof. unfold seedDownloadCache. steps_go. Qed.

Lemma quiet_cleanup u : steps quiet (cleanupTempFile u : M unit).
Proof. unfold cleanupTempFile. steps_go. Qed.

Lemma quiet_require_temp p : steps quiet (require_temp p : M unit).
Proof. unfold require_temp. steps_go. Qed.

Lemma quiet_nonzero_path u : steps quiet (nonzero_path u : M string).
Proof. unfold nonzero_path. steps_go. Qed.

Lemma quiet_check_cost u p : steps quiet (check_cost u p : M unit).
Proof. unfold check_cost. steps_go. Qed.

Lemma quiet_resolve p : steps quiet (resolve_endpoints p : M _).
Proof. unfold resolve_endpoints. steps_go. by apply quiet_modify. Qed.

Lemma quiet_connect url : steps quiet (connect_signer url : M unit).
Proof. unfold connect_signer. steps_go. by apply quiet_modify. Qed.

#[local] Hint Resolve quiet_salvage quiet_seed quiet_cleanup quiet_require_temp quiet_nonzero_path quiet_check_cost
  quiet_resolve quiet_connect : steps_db.

Lemma quiet_complete u r a : steps quiet (complete u r a : M status).
Proof.
  unfold complete. steps_go.
  all: repeat (apply steps_map_err || apply quiet_db || case_match); eauto with steps_db.
Qed.

Lemma quiet_finishFailed u e o : steps quiet (finishFailedUpload u e o : M unit).
Proof. unfold finishFailedUpload. steps_go; by apply quiet_modify. Qed.

#[local] Hint Resolve quiet_complete quiet_finishFailed : steps_db.

(** ** Errors that end an upload *)

(** classifyFailure does not answer retry. *)
Definition no_retry (e : error) : Prop :=
  errors_is e ErrConfirmationTimeout = true \/ errors_is e ErrPaidNoRetry = true \/
  (errors_is e ErrFinalizeFailed = false /\ isTransientAntdError e = false).

Lemma no_retry_classify e paid can : no_retry e -> classifyFailure e paid can <> outcomeRetry.
Proof.
  intros H (Ht & Hp & Hc)%classifyFailure_retry. destruct H as [H|[H|[H1 H2]]]; [congruence..|].
  destruct Hc; congruence.
Qed.

Lemma no_retry_payment m e : payment_error e -> no_retry (EWrap m [e]).
Proof.
  intros H. right; right. unfold isTransientAntdError. cbn. rewrite !(chain_error_as true) by done.
  rewrite (chain_error_is true) by (done || by right; left). done.
Qed.

Lemma no_retry_new m : no_retry (ENew m).
Proof. by right; right. Qed.

Lemma no_retry_paid m e : no_retry (EWrap m [errors_join [ESentinel ErrPaidNoRetry; e]]).
Proof. by right; left. Qed.

Lemma no_retry_unrecorded e u e' : paidNoRetryIfUnrecorded (Some e) (Some u) = Some e' -> no_retry e'.
Proof.
  cbn. destruct (errors_is e ErrPaidNoRetry) eqn:He; intros [= <-]; right; left; [done|].
  cbn. by rewrite orb_true_r.
Qed.

(** ** What an attempt pays *)

Definition shape (l : list event) : Prop := l = [EvQuotes] \/ exists k, l = map EvTree (seq 0 (S k)).

Definition settled (id : Z) (s : WState P W) : Prop :=
  Ledger.paid_since (w_db s) id = true \/ w_unrecorded s <> None.

Lemma settled_quiet id s s' : quiet s s' -> settled id s -> settled id s'.
Proof. intros (_ & Hd & Hu) [H|H]; [left; by apply (Ledger.ledger_le_paid (w_db s))|right; congruence]. Qed.

(** The payments [m] makes are one round of calls; once it has paid, an error
    either ends the upload or leaves a trace of the payment, and with [fin] so
    does success. With [guarded] it pays nothing for an upload already paid. *)
Definition pays {A} (guarded fin : bool) (id : Z) (m : M A) : Prop := forall s r s',
  Ledger.floors (w_db s) -> m s = (r, s') ->
  Ledger.ledger_le (w_db s) (w_db s') /\
  exists l, paylog s' = paylog s ++ l /\
    (l = [] \/ (guarded = true -> Ledger.paid_since (w_db s) id = false) /\ shape l /\
      match r with Ok _ => fin = true -> settled id s' | Err e => no_retry e \/ settled id s' end).

Lemma pays_quiet {A} g b id (m : M A) : steps quiet m -> pays g b id m.
Proof.
  intros Hm s r s' _ E. apply (steps_run _ _ _ _ _ Hm) in E as (Hl & Hd & _). split; [done|].
  exists []. rewrite app_nil_r. auto.
Qed.

Lemma pays_quiet_bind {A B} g b id (m : M A) (f : A -> M B) :
  steps quiet m -> (forall a, pays g b id (f a)) -> pays g b id (m ≫= f).
Proof.
  intros Hm Hf s r s' Hfl. unfold mbind, ST_bind. destruct (m s) as [[a|e] s1] eqn:E;
    apply (steps_run _ _ _ _ _ Hm) in E as (Hl & Hd & Hu).
  - intros E. apply Hf in E as (Hd1 & l & Hl1 & H); [|by apply (Ledger.ledger_le_floors (w_db s))].
    split; [by etransitivity|]. exists l. split; [congruence|]. destruct H as [H|(Hg & H)]; [by left|right].
    split; [|done]. intros Hgt. apply not_true_is_false. intros Hp.
    apply (Ledger.ledger_le_paid _ _ id Hd) in Hp. rewrite Hg in Hp by done. done.
  - intros [= <- <-]. split; [done|]. exists []. rewrite app_nil_r. auto.
Qed.

(** After the payments: [f] is quiet, and either the payments have settled or
    [f] fails with a final error. *)
Lemma pays_bind {A B} (Q : A -> Prop) g b b' id (m : M A) (f : A -> M B) :
  pays g b id m -> (forall s a s', m s = (Ok a, s') -> Q a) -> (forall a, steps quiet (f a)) ->
  (b = true \/ b' = false /\ forall a, Q a -> errs no_retry (f a)) -> pays g b' id (m ≫= f).
Proof.
  intros Hm HQ Hf Hb s r s' Hfl. unfold mbind, ST_bind. destruct (m s) as [[a|e] s1] eqn:E;
    apply Hm in E as H; try done; destruct H as (Hd & l & Hl & H); [|intros [= <- <-]; by eauto].
  intros Ef. pose proof (steps_run _ _ _ _ _ (Hf a) Ef) as Hq. pose proof (settled_quiet id _ _ Hq) as Hs.
  destruct Hq as (Hl1 & Hd1 & Hu1). split; [by etransitivity|]. exists l. split; [congruence|].
  destruct H as [H|(Hg & Hsh & H)]; [by left|right]. split_and!; [done|done|].
  destruct r as [x|e]; destruct Hb as [->|[-> Hb]]; auto; [done|].
  left. by eapply (Hb a (HQ _ _ _ E)).
Qed.

Lemma refuse_ok u s x s1 : refuseRepayment u s = (Ok x, s1) -> Ledger.paid_since (w_db s) (u_id u) = false.
Proof.
  unfold refuseRepayment, mbind, ST_bind, try, db, zoom.
  destruct (Ledger.HasPaymentSinceQueued (u_id u) (w_db s)) as [[p|e] d] eqn:E; [|done].
  apply query_ok in E as (fs & -> & ->). change (Ledger.paid_since (set_faults fs ?d) ?i) with (Ledger.paid_since d i).
  by destruct (Ledger.paid_since _ _).
Qed.

Lemma pays_refuse {A} b u (m : M A) : pays false b (u_id u) m -> pays true b (u_id u) (refuseRepayment u ;; m).
Proof.
  intros Hm s r s' Hfl. unfold mbind, ST_bind. destruct (refuseRepayment u s) as [[[]|e] s1] eqn:E;
    pose proof (steps_run _ _ _ _ _ (quiet_refuse u) E) as (Hl & Hd & Hu).
  - intros Hr. apply Hm in Hr as (Hd1 & l & Hl1 & H); [|by apply (Ledger.ledger_le_floors (w_db s))].
    split; [by etransitivity|]. exists l. split; [congruence|]. destruct H as [H|(_ & H)]; [by left|right].
    split; [|done]. intros _. by apply refuse_ok in E.
  - intros [= <- <-]. split; [done|]. exists []. rewrite app_nil_r. auto.
Qed.

(** ** Recording *)

Lemma ledgerPayment_settles w u a b h s r s' : Ledger.floors (w_db s) ->
  ledgerPayment (P := P) (W := W) w u a b h s = (r, s') ->
  exists o, r = Ok o /\ (o = None -> Ledger.paid_since (w_db s') (u_id u) = true).
Proof.
  intros Hfl. unfold ledgerPayment, mbind, ST_bind, try, db, zoom.
  destruct (Ledger.Record_ w (Some (u_id u)) "upload" a b h (w_db s)) as [[t|e] d] eqn:E; intros [= <- <-]; eexists;
    (split; [reflexivity|]); [|done]. intros _. by eapply Ledger.Record_pays.
Qed.

Lemma recordPayment_settles w u t p h s r s' : Ledger.floors (w_db s) ->
  recordPayment (P := P) (W := W) w u t p h s = (r, s') ->
  exists o, r = Ok o /\ (o = None -> Ledger.paid_since (w_db s') (u_id u) = true).
Proof.
  intros Hfl. unfold recordPayment. unfold mbind at 1, ST_bind at 1, try at 1.
  pose proof (quiet_pay (GetBalances_ (w_address w) t) s) as (_ & Hq & _).
  destruct (pay _ s) as [[[tok gas]|e] s1]; cbn [fst snd] in *.
  - unfold mbind at 1, ST_bind at 1, ignore at 1.
    pose proof (quiet_db _ (ledger_UpdateBalance (w_id w) tok gas) s1) as (_ & Hq1 & _).
    destruct (db _ s1) as [r1 s2]; cbn [fst snd] in *. apply ledgerPayment_settles.
    eapply Ledger.ledger_le_floors; [|exact Hfl]. by etransitivity.
  - apply ledgerPayment_settles. by apply (Ledger.ledger_le_floors (w_db s)).
Qed.

(** ** A wave batch *)

Definition wave_payment (u : Upload) (wallet : Wallet) (walletKey tokenAddr : string) (prepared : PrepareUploadResult)
  : M (gmap string string) :=
  emit EvQuotes ;;
  txHashes ← map_err (fun e => EWrap "EVM payment failed: " [e])
    (pay (PayForQuotes_ walletKey (pr_Payments prepared) tokenAddr (pr_PaymentVaultAddress prepared)));
  unrecorded ← recordPayment wallet u tokenAddr (pr_TotalAmount prepared) (first_hash txHashes);
  modify (put_unrecorded unrecorded) ;;
  heartbeat u ;;
  mret txHashes.

Context {laws : PayerLaws P}.

Lemma emit_run e s r s1 : emit e s = (r, s1) -> is_pay e = true ->
  r = Ok tt /\ w_db s1 = w_db s /\ paylog s1 = paylog s ++ [e].
Proof.
  intros [= <- <-] He. split_and!; [done..|]. unfold paylog. cbn. rewrite List.filter_app. cbn. by rewrite He.
Qed.

Lemma pays_wave_payment u w k t p : pays false true (u_id u) (wave_payment u w k t p).
Proof.
  intros s r s' Hfl. unfold wave_payment. unfold mbind at 1, ST_bind at 1.
  destruct (emit EvQuotes s) as [r1 s1] eqn:Ee. apply emit_run in Ee as (-> & Hd1 & Hlog); [|done].
  rewrite <- Hd1 in *. unfold mbind at 1, ST_bind at 1, map_err.
  pose proof (errs_zoom _ w_pay put_pay _ (PayForQuotes_err k (pr_Payments p) t (pr_PaymentVaultAddress p)) s1) as He.
  fold (pay (P := P) (W := W) (PayForQuotes_ k (pr_Payments p) t (pr_PaymentVaultAddress p))) in He.
  destruct (pay _ s1) as [[tx|e] s2] eqn:Ep; apply (steps_run _ _ _ _ _ (quiet_pay _)) in Ep as (Hl2 & Hd2 & _).
  2: { intros [= <- <-]. split; [done|]. exists [EvQuotes]. split; [congruence|]. right. split; [done|].
       split; [by left|]. left. by apply no_retry_payment, (He e s2). }
  clear He. unfold mbind at 1, ST_bind at 1.
  destruct (recordPayment w u t (pr_TotalAmount p) (first_hash tx) s2) as [r3 s3] eqn:Er.
  pose proof (steps_run _ _ _ _ _ (quiet_recordPayment _ _ _ _ _) Er) as (Hl3 & Hd3 & _).
  apply recordPayment_settles in Er as (o & -> & Hset); [|by apply (Ledger.ledger_le_floors (w_db s1))].
  unfold mbind at 1, ST_bind at 1, modify. intros Ef.
  apply (steps_run quiet) in Ef as Hq; [|steps_go].
  assert (settled (u_id u) (put_unrecorded o s3)) as Hs.
  { destruct o as [e|]; [by right|left]. by apply Hset. }
  apply (settled_quiet _ _ _ Hq) in Hs. destruct Hq as (Hl4 & Hd4 & _).
  change (w_db (put_unrecorded o s3)) with (w_db s3) in Hd4. change (paylog (put_unrecorded o s3)) with (paylog s3) in Hl4.
  split; [by repeat (etransitivity; [eassumption|])|]. exists [EvQuotes]. split; [congruence|].
  right; split; [done|]; split; [by left|]. destruct r; auto.
Qed.

Lemma pays_wave u w k t p : pays true true (u_id u) (pay_wave u w k t p).
Proof.
  assert (forall (m : M (gmap string string)), pays true true (u_id u) m ->
    pays true true (u_id u) (txHashes ← m; heartbeat u ;;
      result ← map_err waveFinalizeError (finalizeWithResume u (finalize_call (pr_UploadID p)
        (antd_FinalizeUpload (pr_UploadID p) txHashes))); mret (result, pr_TotalAmount p))) as Hk.
  { intros m Hm. apply (pays_bind (fun _ => True) true true _ _ _ _ Hm); [done| |by left]. intros tx. steps_go. }
  unfold pay_wave. apply Hk. destruct (pr_Payments p) eqn:Hp; [apply pays_quiet; steps_go|].
  rewrite <- Hp. apply pays_refuse, pays_wave_payment.
Qed.

(** ** A merkle plan *)

(** The loop calls the payer for batches [i], [i + 1], ... in order, once each,
    and stops at the first that fails. *)
Lemma batches_run k t v w u batches : forall i ws total s r s',
  Ledger.floors (w_db s) -> payMerkleBatches k batches t v w u i ws total s = (r, s') ->
  Ledger.ledger_le (w_db s) (w_db s') /\
  exists n ws' total' o, r = Ok (ws', total', o) /\ paylog s' = paylog s ++ map EvTree (seq i n) /\
    (n <= length batches)%nat.
Proof.
  induction batches as [|b bs IH]; intros i ws total s r s' Hfl.
  { intros [= <- <-]. split; [done|]. exists 0%nat, ws, total, None. cbn. rewrite app_nil_r. by split_and!; [..|lia]. }
  cbn [payMerkleBatches]. unfold mbind at 1, ST_bind at 1.
  destruct (emit (EvTree i) s) as [r1 s1] eqn:Ee. apply emit_run in Ee as (-> & Hd1 & Hlog); [|done].
  rewrite <- Hd1 in *. unfold mbind at 1, ST_bind at 1, try at 1.
  set (call := PayForMerkleTree_ k (mb_Depth b) (mb_PoolCommitments b) (mb_MerklePaymentTimestamp b) t v).
  destruct (pay call s1) as [[[h paid]|e] s2] eqn:Ep; apply (steps_run _ _ _ _ _ (quiet_pay _)) in Ep as (Hl2 & Hd2 & _).
  2: { intros [= <- <-]. split; [done|]. exists 1%nat, ws, total, (Some e). cbn. split_and!; try lia; [done|congruence]. }
  unfold mbind at 1, ST_bind at 1.
  destruct (recordPayment w u t paid h s2) as [r3 s3] eqn:Er.
  pose proof (steps_run _ _ _ _ _ (quiet_recordPayment _ _ _ _ _) Er) as (Hl3 & Hd3 & _).
  apply recordPayment_settles in Er as (o & -> & _); [|by apply (Ledger.ledger_le_floors (w_db s1))].
  unfold mbind at 1, ST_bind at 1, modify.
  set (s4 := match o with Some e => match w_unrecorded s3 with None => put_unrecorded (Some e) s3 | _ => s3 end | None => s3 end).
  assert (w_db s4 = w_db s3 /\ paylog s4 = paylog s3) as [Hd4 Hl4] by (unfold s4; by repeat case_match).
  rewrite <- Hd4, <- Hl4 in *. unfold mbind at 1, ST_bind at 1. destruct (heartbeat u s4) as [r5 s5] eqn:Eh.
  pose proof (steps_run _ _ _ _ _ (quiet_heartbeat u) Eh) as (Hl5 & Hd5 & _).
  assert (r5 = Ok tt) as -> by (unfold heartbeat, mbind, ST_bind, ignore, db, zoom in Eh;
    by destruct (TouchProcessing _ _); injection Eh as <- _).
  intros Hr. apply IH in Hr as (Hd6 & n & ws' & total' & o' & -> & Hl6 & Hn).
  - split; [by repeat (etransitivity; [eassumption|])|]. exists (S n), ws', total', o'. cbn [seq map length].
    split_and!; try lia; [done|]. rewrite Hl6, Hl5, Hl3, Hl2, Hlog. by rewrite <- app_assoc.
  - eapply Ledger.ledger_le_floors; [|exact Hfl]. by repeat (etransitivity; [eassumption|]).
Qed.

Definition batch_error (x : list string * Z * option error) : Prop :=
  match snd x with Some e => payment_error e | None => True end.

Lemma batches_error k t v w u bs : forall i ws total s x s',
  payMerkleBatches k bs t v w u i ws total s = (Ok x, s') -> batch_error x.
Proof.
  induction bs as [|b bs IH]; intros i ws total s x s'; cbn [payMerkleBatches]; [by intros [= <- _]|].
  intros Hr. apply bind_ok in Hr as ([] & s1 & _ & Hr). apply bind_ok in Hr as (x1 & s2 & Hp & Hr).
  destruct x1 as [[h paid]|e].
  - apply bind_ok in Hr as (o & s3 & _ & Hr). apply bind_ok in Hr as ([] & s4 & _ & Hr).
    apply bind_ok in Hr as ([] & s5 & _ & Hr). by apply IH in Hr.
  - injection Hr as <- _. unfold try in Hp. destruct (pay _ s1) as [rp sp] eqn:Ep. injection Hp as -> _.
    eapply (errs_zoom payment_error); [|exact Ep]. apply PayForMerkleTree_err.
Qed.

Lemma pays_batches k t v w u bs : pays false false (u_id u) (payMerkleBatches k bs t v w u 0 [] 0).
Proof.
  intros s r s' Hfl Hr. apply batches_run in Hr as (Hd & n & ws & total & o & -> & Hl & _); [|done].
  split; [done|]. exists (map EvTree (seq 0 n)). split; [done|]. destruct n as [|n]; [by left|right].
  split; [done|]. split; [right; by exists n|done].
Qed.

Lemma errs_no_retry_try {A B} (m : M A) (f : result error A -> M B) :
  (forall x, errs no_retry (f x)) -> errs no_retry (r ← try m; f r).
Proof. intros H. apply errs_bind; [|done]. intros s e s'. unfold try. by destruct (m s). Qed.

Lemma pays_merkle u w k t p : pays true false (u_id u) (pay_merkle u w k t p).
Proof.
  unfold pay_merkle. apply pays_quiet_bind; [steps_go|]. intros bs.
  apply pays_quiet_bind; [steps_go|]. intros _. apply pays_refuse.
  apply pays_quiet_bind; [steps_go|]. intros _.
  apply (pays_bind batch_error false false); [apply pays_batches| | |right; split; [done|]].
  - intros s x s' Hr. by eapply batches_error.
  - intros [[ws total] o]. steps_go.
  - intros [[ws total] o] Ho. unfold batch_error in Ho. cbn in Ho. destruct o as [e|].
    + case_match; [|apply errs_fail; by apply no_retry_payment].
      apply errs_bind; [apply errs_no_retry_try; intros x; case_match; apply errs_ret|].
      intros [x|]; [apply errs_ret|]. apply errs_fail, no_retry_paid.
    + apply errs_bind; [apply errs_bind; [|intros _; by apply errs_total]; apply errs_total|].
      { intros s. unfold ignore. by destruct (db _ s). }
      intros _. apply errs_bind; [|intros; apply errs_ret].
      apply (errs_map_err _ _ (fun _ => True)); [by intros ? ? ?|]. intros e _. apply no_retry_paid.
Qed.

(** ** An attempt, and the attempts of an upload *)

Lemma errs_seed Q u k : errs Q (seedDownloadCache (P := P) (W := W) u k).
Proof. unfold seedDownloadCache, settings, store, GetBool, GetIntWithBounds, cleanupTempFile. errs_go. Qed.

Lemma errs_complete u r a : errs no_retry (complete (P := P) (W := W) u r a).
Proof.
  unfold complete. errs_go; try apply errs_seed; try (apply errs_fail; apply no_retry_new).
  all: apply (errs_map_err _ _ (fun _ => True)); [by intros ? ? ?|]; intros; apply no_retry_new.
Qed.

Lemma pays_body u : pays true false (u_id u) (process_body kr u).
Proof.
  unfold process_body. apply pays_quiet_bind; [steps_go|]. intros p.
  do 2 (apply pays_quiet_bind; [steps_go|]; intros _).
  apply pays_quiet_bind; [steps_go|]. intros w. apply pays_quiet_bind; [steps_go|]. intros k.
  apply pays_quiet_bind; [steps_go|]. intros prep.
  do 2 (apply pays_quiet_bind; [steps_go|]; intros _).
  apply pays_quiet_bind; [steps_go|]. intros [rpc tok]. apply pays_quiet_bind; [steps_go|]. intros _.
  destruct (String.eqb (pr_PaymentType prep) "merkle").
  - apply (pays_bind (fun _ => True) true false); [apply pays_merkle|done|intros [x y]; steps_go|].
    right. split; [done|]. intros [x y] _. apply errs_complete.
  - apply (pays_bind (fun _ => True) true true); [apply pays_wave|done|intros [x y]; steps_go|by left].
Qed.

(** What one attempt leaves behind. *)
Lemma processUpload_pays u s r s' : Ledger.floors (w_db s) -> processUpload kr u s = (r, s') ->
  Ledger.ledger_le (w_db s) (w_db s') /\
  exists l, paylog s' = paylog s ++ l /\
    (l = [] \/ Ledger.paid_since (w_db s) (u_id u) = false /\ shape l /\
      match r with Ok _ => True | Err e => no_retry e \/ Ledger.paid_since (w_db s') (u_id u) = true end).
Proof.
  intros Hfl. unfold processUpload. unfold mbind at 1, ST_bind at 1, modify.
  unfold mbind at 1, ST_bind at 1, try. destruct (process_body kr u (put_unrecorded None s)) as [rb sb] eqn:Eb.
  apply pays_body in Eb as (Hd & l & Hl & H); [|done].
  change (w_db (put_unrecorded None s)) with (w_db s) in *. change (paylog (put_unrecorded None s)) with (paylog s) in *.
  intros Er. assert (s' = sb) as ->.
  { run_cbn Er. destruct rb; [by injection Er as _ <-|]. by repeat (case_match; simplify_eq/=). }
  split; [done|]. exists l. split; [done|]. destruct H as [H|(Hg & Hsh & H)]; [by left|right].
  split; [by apply Hg|]. split; [done|]. run_cbn Er. destruct rb as [st|e]; [by injection Er as <-|].
  destruct (w_unrecorded sb) as [x|] eqn:Hx.
  - destruct (paidNoRetryIfUnrecorded (Some e) (Some x)) as [e'|] eqn:He.
    + cbn in He. rewrite He in Er. injection Er as <-. left. by apply (no_retry_unrecorded e x).
    + cbn in He. by destruct (errors_is e ErrPaidNoRetry).
  - cbn in Er. injection Er as <-. destruct H as [H|[H|H]]; auto; done.
Qed.

Lemma attempts_pay u left : forall s r s', Ledger.floors (w_db s) -> attempts kr u left s = (r, s') ->
  exists l, paylog s' = paylog s ++ l /\
    (l = [] \/ Ledger.paid_since (w_db s) (u_id u) = false /\ shape l).
Proof.
  induction left as [|left IH]; intros s r s' Hfl; cbn [attempts]; unfold mbind at 1, ST_bind at 1, try at 1;
    destruct (processUpload kr u s) as [[st|err] s1] eqn:Ep;
    apply processUpload_pays in Ep as (Hd & l & Hl & H); try done; intros Er.
  1, 3: apply (steps_run quiet) in Er as (Hl1 & _ & _); [|steps_go; by apply quiet_modify]; exists l;
    (split; [congruence|]); intuition.
  - destruct (errors_is err ErrGasBackoff); [injection Er as <- <-; exists l; intuition|].
    apply (steps_run quiet) in Er as (Hl1 & _ & _); [|steps_go]. exists l. split; [congruence|]. intuition.
  - destruct (errors_is err ErrGasBackoff); [injection Er as <- <-; exists l; intuition|].
    revert Er. unfold mbind at 1, ST_bind at 1, try at 1.
    destruct (db (Ledger.HasByUpload (u_id u)) s1) as [rh s2] eqn:Eh.
    apply (steps_run quiet) in Eh as (Hl2 & Hd2 & _); [|steps_go].
    destruct (classifyFailure err _ _) eqn:Hc.
    2-4: intros Er; apply (steps_run quiet) in Er as (Hl1 & _ & _); [|steps_go]; exists l; (split; [congruence|]); intuition.
    unfold mbind at 1, ST_bind at 1. destruct (wait_or_done _ s2) as [[stop|e] s3] eqn:Ew;
      apply (steps_run quiet) in Ew as (Hl3 & Hd3 & _); try (steps_go; fail).
    2: intros [= <- <-]; exists l; (split; [congruence|]); intuition.
    destruct stop; intros Er; [injection Er as <- <-; exists l; (split; [congruence|]); intuition|].
    assert (Ledger.ledger_le (w_db s1) (w_db s3)) as Hd13 by (by etransitivity).
    apply IH in Er as (l' & Hl' & H').
    2: { eapply Ledger.ledger_le_floors; [|exact Hfl]. by etransitivity. }
    assert (Ledger.paid_since (w_db s) (u_id u) = true -> Ledger.paid_since (w_db s3) (u_id u) = true) as Hmono.
    { apply Ledger.ledger_le_paid. by etransitivity. }
    destruct H as [->|(Hg & Hsh & H)].
    + exists l'. rewrite app_nil_r in Hl. split; [congruence|]. destruct H' as [H'|[H1 H2]]; [by left|right].
      split; [|done]. apply not_true_is_false. intros Hp. apply Hmono in Hp. congruence.
    + destruct H as [H|H]; [by apply (no_retry_classify err _ _ H) in Hc|].
      apply (Ledger.ledger_le_paid _ _ _ Hd13) in H. destruct H' as [->|[H' _]]; [|congruence].
      exists l. rewrite app_nil_r in Hl'. split; [congruence|]. by right.
Qed.

(** C1. One upload, paid for at most once: whatever the daemon answers and
    however often the attempts are retried, the worker makes at most one
    round of payment calls for the upload it processes (the one call of a
    wave batch, or each batch of a merkle plan once, in order and without
    gaps), and none at all when a payment is already recorded since the
    upload was queued. It holds under every schedule of database, node and
    disk errors, for every payer that keeps its promise. *)
Theorem processOne_pays_at_most_once (u : Upload) (s : WState P W) (Hfl : Ledger.floors (w_db s)) :
  exists l, paylog (snd (processOne kr u s)) = paylog s ++ l /\
    (l = [] \/ l = [EvQuotes] \/ exists n, l = map EvTree (seq 0 n)) /\
    (Ledger.paid_since (w_db s) (u_id u) = true -> l = []).
Proof.
  unfold processOne. unfold mbind at 1, ST_bind at 1.
  destruct (FireUploadEvent _ u _ s) as [[[]|e] s1] eqn:Ef; [|done].
  apply (steps_run _ _ _ _ _ (quiet_Fire _ _ _)) in Ef as (Hl1 & Hd1 & _).
  destruct (attempts kr u maxTransientRetries s1) as [r s2] eqn:Er.
  apply attempts_pay in Er as (l & Hl & H); [|by apply (Ledger.ledger_le_floors (w_db s))].
  exists l. split; [cbn; congruence|]. destruct H as [->|[Hp H]]; [by split; [left|]|]. split.
  - right. destruct H as [H|[k ->]]; [by left|right; by exists (S k)].
  - intros H1. apply (Ledger.ledger_le_paid _ _ _ Hd1) in H1. congruence.
Qed.
End safety.

(** ** A concrete daemon and a concrete upload *)

(** What the daemon answers, call by call, and how the waits end. *)
Record Daemon := mkDaemon {
  dm_prepared : PrepareUploadResult;
  dm_finalize : list (result error FinalizeUploadResult);
  dm_done : list bool;
}.

Definition next_finalize : ST error Daemon FinalizeUploadResult :=
  d ← get;
  match dm_finalize d with
  | [] => fail (EAntd OtherAntdError)
  | r :: rs => modify (fun d => mkDaemon (dm_prepared d) rs (dm_done d)) ;; of_result r
  end.

#[export] Instance toy_antd : Antd Daemon := {|
  antd_PrepareUpload _ := gets dm_prepared;
  antd_PrepareUploadPublic _ := gets dm_prepared;
  antd_FinalizeUpload _ _ := next_finalize;
  antd_FinalizeMerkleUpload _ _ := next_finalize;
  antd_FinalizeMerkleUploadMulti _ _ := next_finalize;
  ctx_wait _ :=
    d ← get;
    match dm_done d with
    | [] => mret false
    | b :: bs => modify (fun d => mkDaemon (dm_prepared d) (dm_finalize d) bs) ;; mret b
    end;
|}.

Definition toy_wave : PrepareUploadResult :=
  mkPrepared "up-1" "wave_batch" "7"
    [mkPayment (EncodeToString (map (fun i => Z.of_nat i) (seq 0 32))) "0xr" "7"] "http://rpc" "0xtoken" "0xvault" 0 [] 0 [].

Definition toy_merkle : PrepareUploadResult :=
  mkPrepared "up-2" "merkle" "0" [] "http://rpc" "0xtoken" "0xvault" 0 [] 0
    [mkBatch 2 [toy_pool] 1; mkBatch 1 [toy_pool] 2].

Definition claimed_upload : Upload := set_u_processing_at (Some 100) (set_u_status Processing two_queued).

Definition worker_db : Db :=
  set_wallets [mkWallet 1 "w" "0x1" envelope true "0" "0" 0 0] (set_uploads [claimed_upload] queue_db).

Definition receipt (st : Z) : Receipt := mkReceipt st [mkLog ["MerklePaymentMade"; "0xwinner"] [0; 9]].

Definition worker_state (d : Db) (p : PrepareUploadResult) (chain : ToyWorld)
    (fs : list (result error FinalizeUploadResult)) : WState (SignerState ToyWorld) Daemon :=
  mkWState (mkCached d ∅) (mkSignerState None (mkChain chain [])) (mkDaemon p fs [])
    (with_disk {["/tmp/f" := mkFile true 10 ""]} (New "/cache")) false 0 0 circuitBreakerBaseCooldown ∅ "" "" None None [].

Definition good_chain : ToyWorld := mkToy (Some (receipt 1)) None false [].

Definition done_status (s : WState (SignerState ToyWorld) Daemon) : list (status * option string * option File) :=
  map (fun u => (u_status u, u_status_detail u, disk (w_store s) !! "/tmp/f")) (uploads (w_db s)).

Definition process (s : WState (SignerState ToyWorld) Daemon) : WState (SignerState ToyWorld) Daemon :=
  snd (processOne (payer := signer_payer 10) (aead := clear_aead) (ring (test_key "a"%char) []) claimed_upload s).

Example wave_completes :
  let s := process (worker_state worker_db toy_wave good_chain [Ok (mkFinalized "dm" "" 3)]) in
  (paylog s, done_status s, map t_amount (transactions (w_db s))) =
  ([EvQuotes], [(Completed, None, None)], ["7"]).
Proof. vm_compute. reflexivity. Qed.

(** A finalize that fails without a word on retention, and is retried: the
    second attempt finds the recorded payment and stops. *)
Definition flaky : list (result error FinalizeUploadResult) := [Err (EAntd ServiceUnavailableError)].

Example processOne_pays_at_most_once_witness :
  let s := worker_state worker_db toy_wave good_chain flaky in
  (exists l, paylog (process s) = paylog s ++ l /\
     (l = [] \/ l = [EvQuotes] \/ exists n, l = map EvTree (seq 0 n)) /\
     (Ledger.paid_since (w_db s) (u_id claimed_upload) = true -> l = [])) /\
  paylog (process s) = [EvQuotes] /\
  done_status (process s) = [(Failed, Some StatusDetailPaidUnfinalized, Some (mkFile true 10 ""))].
Proof.
  intros s. split; [|split; vm_compute; reflexivity].
  apply (processOne_pays_at_most_once (payer := signer_payer 10) (aead := clear_aead) (ring (test_key "a"%char) [])
    claimed_upload s).
  intros i f [[= <- <-]|[]]. vm_compute. discriminate.
Defined.

Example merkle_completes :
  let s := process (worker_state worker_db toy_merkle good_chain [Ok (mkFinalized "dm" "" 0)]) in
  (paylog s, done_status s, map t_amount (transactions (w_db s))) =
  ([EvTree 0; EvTree 1], [(AlreadyStored, None, None)], ["9"; "9"]).
Proof. vm_compute. reflexivity. Qed.

(** A transaction that confirms too late is not taken for unpaid. *)
Example timeout_preserves :
  let s := process (worker_state worker_db toy_wave (mkToy None (Some true) false [100]) []) in
  done_status s = [(Failed, Some StatusDetailPaymentUnconfirmed, Some (mkFile true 10 ""))].
Proof. vm_compute. reflexivity. Qed.

(** Stopping the worker while it waits for the receipt of a payment it has
    broadcast: the upload is abandoned and its source deleted. *)
Example shutdown_abandons_broadcast_payment :
  let s := process (worker_state worker_db toy_wave (mkToy None (Some false) true [100]) []) in
  length (c_sent (ss_chain (w_pay s))) = 1%nat /\ done_status s = [(Failed, None, None)].
Proof. split; vm_compute; reflexivity. Qed.

(** When the ledger cannot be read after a failure, an upload with a recorded
    payment is taken for unpaid: its source is deleted. Here a retried upload
    fails on its quota. *)
Definition paid_worker_db (fs : list (option string)) : Db :=
  set_faults fs (set_quotas [mkQuota 1 "system" None 5 true 0 0]
    (set_transactions [mkTransaction 1 1 (Some 1) "upload" "5" "95" (Some "0xab") 6] (set_seq_transactions 1 worker_db))).

Definition ledger_down : list (option string) := replicate 5 None ++ [Some "connection reset"].

Example ledger_error_abandons_paid_upload :
  let run fs := process (worker_state (paid_worker_db fs) toy_wave good_chain []) in
  done_status (run []) = [(Failed, Some StatusDetailPaidUnfinalized, Some (mkFile true 10 ""))] /\
  (Ledger.ever_paid (w_db (run ledger_down)) 1, done_status (run ledger_down)) = (true, [(Failed, None, None)]).
Proof. split; vm_compute; reflexivity. Qed.

(** A configured token address survives only the first upload when the RPC URL
    comes from antd: the second one pays with antd's token. *)
Example configured_token_is_lost :
  let s := put_endpoints "" "0xmine" (worker_state worker_db toy_wave good_chain []) in
  let '(r1, s1) := resolve_endpoints toy_wave s in
  (r1, fst (resolve_endpoints toy_wave s1)) = (Ok ("http://rpc", "0xmine"), Ok ("http://rpc", "0xtoken")).
Proof. vm_compute. reflexivity. Qed.
