(* ===== verification/WorkerLoops.v ===== *)
(** * The upload worker: its loops

    The resumed finalize, the claims of a tick, the sweep of stuck uploads and
    the garbage collection of temp files. *)

From S2P Require Import Prelude GoLib Hex Sql Schema UploadStore Ledger QuotaSvc.
From S2P Require Import Settings Keyring Cache Payer Evm WorkerBase Worker WorkerSafety.

Section loops.
Context {P W : Type} {payer : Payer P} {antd : Antd W}.
Implicit Types (s : WState P W).
Abbreviation M := (ST error (WState P W)).

(** ** Finalizing *)

Definition same_log (s s' : WState P W) : Prop := w_log s' = w_log s.

#[export] Instance same_log_preorder : PreOrder same_log.
Proof. split; unfold same_log; [by intros s|]. intros a b c. congruence. Qed.

Lemma same_log_zoom {S A} (g : WState P W -> S) p (m : ST error S A) :
  (forall s x, w_log (p x s) = w_log s) -> steps same_log (zoom g p m).
Proof. intros Hp. by apply (steps_zoom _ (fun _ _ => True)); [intros s x _; apply Hp|]. Qed.

Lemma same_log_heartbeat u : steps same_log (heartbeat (P := P) (W := W) u).
Proof.
  unfold heartbeat, db. steps_go; [by apply same_log_zoom|]. apply steps_modify. intros s. by case_match.
Qed.

Lemma same_log_wait d : steps same_log (wait_or_done (P := P) d).
Proof. unfold wait_or_done, world. steps_go; [by apply same_log_zoom|]. by apply steps_modify. Qed.

(** The results of a chain of finalize calls: each but the last a retryable
    partial failure with fewer failed chunks than the one before. *)
Fixpoint resumed (prev : Z) (r : result error FinalizeUploadResult) (rs : list (result error FinalizeUploadResult)) : Prop :=
  match rs with
  | [] => True
  | r' :: rest => exists e p, r = Err e /\ as_partial e = Some p /\ Retryable p = true /\ ChunksFailed p < prev /\
      resumed (ChunksFailed p) r' rest
  end.

Lemma last_cons_default {A} (l : list A) : forall x d, List.last (x :: l) d = List.last l x.
Proof. induction l as [|y l IH]; intros x d; [done|]. change (List.last (y :: l) d = List.last (y :: l) x). by rewrite !IH. Qed.

Lemma finalize_call_run id (m : ST error W FinalizeUploadResult) s r s' : finalize_call (P := P) id m s = (r, s') ->
  w_log s' = w_log s ++ [EvFinalize id r].
Proof.
  unfold finalize_call, mbind, ST_bind, try. destruct (world m s) as [q t] eqn:Et.
  assert (steps same_log (world (P := P) m)) as Hm by by apply same_log_zoom.
  pose proof (steps_run _ _ _ _ _ Hm Et) as Ht. unfold same_log in Ht.
  intros [= <- <-]. cbn. by rewrite Ht.
Qed.

Lemma resume_chain u id (m : ST error W FinalizeUploadResult) delays : forall prev r s x s',
  resume u (finalize_call id m) delays prev r s = (x, s') ->
  exists rs, w_log s' = w_log s ++ map (EvFinalize id) rs /\ (length rs <= length delays)%nat /\
    resumed prev r rs /\ x = Ok (List.last rs r).
Proof.
  induction delays as [|d delays IH]; intros prev r s x s'.
  { destruct r; intros [= <- <-]; exists []; rewrite app_nil_r; by split_and!. }
  destruct r as [a|e]; cbn [resume]; [intros [= <- <-]; exists []; rewrite app_nil_r; split_and!; [done|cbn; lia|done..]|].
  assert (forall x s', (mret (Err e) : M _) s = (x, s') -> exists rs, w_log s' = w_log s ++ map (EvFinalize id) rs /\
    (length rs <= length (d :: delays))%nat /\ resumed prev (Err e) rs /\ x = Ok (List.last rs (Err e))) as Hstop.
  { intros y t [= <- <-]. exists []. rewrite app_nil_r. split_and!; [done|cbn; lia|done..]. }
  destruct (as_partial e) as [p|] eqn:Hp; [|apply Hstop].
  destruct (Retryable p) eqn:Hr; cbn [negb]; [|apply Hstop].
  destruct (Z.leb_spec prev (ChunksFailed p)); [apply Hstop|].
  unfold mbind at 1, ST_bind at 1. destruct (wait_or_done d s) as [[stop|e'] s1] eqn:Hw.
  2: { exfalso. revert Hw. unfold wait_or_done, mbind, ST_bind, try. destruct (world _ s) as [[[]|] ?]; done. }
  apply (steps_run _ _ _ _ _ (same_log_wait d)) in Hw. unfold same_log in Hw.
  destruct stop; [intros E; injection E as <- <-; exists []; rewrite app_nil_r; split_and!; [done|cbn; lia|done..]|].
  unfold mbind at 1, ST_bind at 1. destruct (heartbeat u s1) as [[[]|e'] s2] eqn:Hh.
  2: { exfalso. revert Hh. unfold heartbeat, mbind, ST_bind, ignore, modify. by destruct (db _ s1). }
  apply (steps_run _ _ _ _ _ (same_log_heartbeat u)) in Hh. unfold same_log in Hh.
  unfold mbind at 1, ST_bind at 1. unfold try at 1. destruct (finalize_call id m s2) as [next s3] eqn:Hf.
  apply finalize_call_run in Hf as Hl.
  intros Hx. apply IH in Hx as (rs & Hlog & Hlen & Hch & ->). exists (next :: rs). cbn [map length].
  split_and!; [|lia|by exists e, p|].
  - rewrite Hlog, Hl, Hh, Hw. by rewrite <- app_assoc.
  - by rewrite last_cons_default.
Qed.

(** Finalizing a paid upload is tried at most six times: every call but the
    last failed partially and retryably, with strictly fewer failed chunks
    than the call before it, and the result is the last call's. So a daemon
    that makes no progress is not called again. *)
Theorem finalizeWithResume_bounded (u : Upload) (id : string) (m : ST error W FinalizeUploadResult) (s : WState P W) :
  let out := finalizeWithResume u (finalize_call id m) s in
  exists r rs, w_log (snd out) = w_log s ++ map (EvFinalize id) (r :: rs) /\ (length rs <= 5)%nat /\
    resumed max_uint64 r rs /\ fst out = List.last rs r.
Proof.
  cbv zeta. unfold finalizeWithResume. unfold mbind at 1 3, ST_bind at 1 3, try at 1 2.
  destruct (finalize_call id m s) as [r s1] eqn:Hf. apply finalize_call_run in Hf.
  unfold mbind, ST_bind. destruct (resume u _ _ _ r s1) as [x s2] eqn:Hr.
  apply resume_chain in Hr as (rs & Hl & Hlen & Hch & ->). exists r, rs. cbn [fst snd of_result map].
  split_and!; [|exact Hlen|done|done]. rewrite Hl, Hf. by rewrite <- app_assoc.
Qed.

(** ** Temp files *)

(** The collector may delete this entry. *)
Definition collectable (t : Z) (tempDir : string) (active : list string) (p : string) (e : DirEntry) : Prop :=
  p = tempDir +:+ "/" +:+ de_Name e /\ de_IsDir e = false /\ ~ In p active /\
  exists mt, de_ModTime e = Some mt /\ 10 * minute <= t - mt.

Lemma Remove_other q c p f : disk c !! p = Some f -> p <> q -> disk (snd (Remove q c)) !! p = Some f.
Proof.
  intros Hp Hne. unfold Remove, mbind, ST_bind, syscall, get.
  destruct (io c) as [|[x|] l]; cbn; [| done|]; destruct (disk c !! q); cbn; try done; by rewrite lookup_delete_ne.
Qed.

Lemma clean_entries_removes tempDir active p f es : forall cleaned s,
  disk (w_store s) !! p = Some f ->
  disk (w_store (snd (clean_entries (P := P) (W := W) tempDir active es cleaned s))) !! p <> Some f ->
  exists e, In e es /\ collectable (now (w_db s)) tempDir active p e.
Proof.
  induction es as [|e es IH]; intros cleaned s Hp; cbn [clean_entries]; [by intros []|].
  unfold mbind at 1, ST_bind at 1, now_, gets.
  match goal with |- context [if ?c then _ else _] => destruct c eqn:Hc end.
  { intros H. destruct (IH _ _ Hp H) as (e' & Hin & He'). exists e'. by split; [right|]. }
  unfold mbind at 1, ST_bind at 1, try, store, zoom.
  destruct (Remove (tempDir +:+ "/" +:+ de_Name e) (w_store s)) as [r c] eqn:Hr. intros H.
  destruct (decide (p = tempDir +:+ "/" +:+ de_Name e)) as [Heq|Hne].
  - exists e. split; [by left|]. apply orb_false_elim in Hc as [Hc Hmt]. apply orb_false_elim in Hc as [Hd Ha].
    unfold collectable. split_and!; [done|done| |].
    + intros Hin. apply not_true_iff_false in Ha. apply Ha, existsb_exists. exists p. split; [done|].
      subst p. apply String.eqb_refl.
    + destruct (de_ModTime e) as [mt|]; [|done]. exists mt. breflect. by split.
  - assert (disk c !! p = Some f) as Hc'.
    { pose proof (Remove_other (tempDir +:+ "/" +:+ de_Name e) _ _ _ Hp Hne) as H'. by rewrite Hr in H'. }
    destruct (IH _ (put_store c s) Hc' H) as (e' & Hin & He'). exists e'. by split; [right|].
Qed.

(** A row that may still be sent names the file [p]. *)
Definition needed (d : Db) (p : string) : Prop :=
  exists u, In u (uploads d) /\ temp_active u = true /\ u_temp_path u = Some p.

(** The temp-file collector deletes no file an upload still needs: a file
    it removes is a plain entry of the temp directory at least ten minutes
    old, and no row that is queued, processing or recoverable after a failed
    or unconfirmed payment names it. When the rows cannot be listed nothing
    is removed. *)
Theorem cleanOrphanedTempFiles_safe (tempDir : string) (entries : option (list DirEntry)) (s : WState P W)
    (p : string) (f : File)
    (Hp : disk (w_store s) !! p = Some f)
    (Hgone : disk (w_store (snd (cleanOrphanedTempFiles tempDir entries s))) !! p <> Some f) :
  ~ needed (w_db s) p /\
  exists es e mt, entries = Some es /\ In e es /\ p = tempDir +:+ "/" +:+ de_Name e /\ de_IsDir e = false /\
    de_ModTime e = Some mt /\ 10 * minute <= now (w_db s) - mt.
Proof.
  destruct entries as [es|]; [|done]. revert Hgone. unfold cleanOrphanedTempFiles.
  unfold mbind, ST_bind, try, db, zoom. destruct (ListActiveTempPaths (w_db s)) as [[active|e] d] eqn:Hl; [|done].
  apply query_ok in Hl as (fs & -> & ->). intros H.
  apply (clean_entries_removes tempDir _ p f) in H as (e & Hin & Hpe & Hdir & Hact & mt & Hmt & Hage); [|done].
  split; [|by exists es, e, mt]. intros (u & Hu & Ha & Hpath). apply Hact, in_map_iff. exists u. split; [by rewrite Hpath|].
  by apply in_select.
Qed.

(** ** The sweep *)

(** A worker slot holds the upload of the row [u]. *)
Definition held (s : WState P W) (u : Upload) (a : activeUpload) : Prop :=
  In u (uploads (w_db s)) /\ w_active s !! u_id u = Some a.

(** An upload a worker slot holds is never requeued under it: whatever the
    window, however stale its heartbeat and whether or not the update
    succeeds, the sweep leaves the rows of the active uploads as they are. *)
Theorem sweepStuck_spares_active (override : Z) (s : WState P W) (u : Upload) (a : activeUpload)
    (Hheld : held s u a) :
  exists a', held (snd (sweepStuck override s)) u a' /\ au_lastBeat a' = au_lastBeat a.
Proof.
  destruct Hheld as [Hu Ha]. unfold sweepStuck. unfold mbind at 1, ST_bind at 1, gets. unfold mbind, ST_bind, ignore, db, zoom, modify.
  set (win := fst (StuckRequeueAfter override)).
  assert (In (u_id u) (activeIDs s)) as Hid.
  { unfold activeIDs. apply in_map_iff. exists (u_id u, a). split; [done|].
    apply list_elem_of_In. by apply elem_of_map_to_list. }
  destruct (RequeueStuckExcept win (activeIDs s) (w_db s)) as [r d] eqn:Hr. cbn [fst snd].
  eexists. split; [split|].
  - change (In u (uploads d)). destruct r as [n|e].
    + by apply (RequeueStuckExcept_keeps _ _ _ _ _ u Hr).
    + revert Hr. unfold RequeueStuckExcept, mbind at 1, ST_bind at 1, get.
      match goal with |- exec_uploads ?q ?g _ = _ -> _ =>
        destruct (exec_uploads_cases q g (w_db s)) as [[fs E]|(e' & fs & E)]; rewrite E end; [done|].
      by intros [= _ <-].
  - cbn [w_active put_active]. rewrite lookup_fmap. change (w_active (put_db d s)) with (w_active s).
    rewrite Ha. reflexivity.
  - by case_match.
Qed.

(** ** The claims of a tick *)

Lemma getMaxConcurrent_active s r s' : getMaxConcurrent (P := P) s = (r, s') -> w_active s' = w_active s.
Proof.
  unfold getMaxConcurrent, mbind, ST_bind, try, settings, zoom. destruct (CachedGet _ _) as [[v|] c]; cbn;
    repeat case_match; by intros [= _ <-].
Qed.

Definition keeps_active (s s' : WState P W) : Prop := forall i a, w_active s !! i = Some a -> is_Some (w_active s' !! i).

Lemma fill_bounded slots maxC : (slots <= sem_cap)%nat -> forall started s, exists new s',
  fill (P := P) (W := W) slots maxC started s = (Ok (started ++ new), s') /\
  Z.of_nat (length new) <= Z.max 0 (maxC - Z.of_nat (sem_cap - slots)) /\ (length new <= S slots)%nat /\
  keeps_active s s' /\ forall u, In u new -> is_Some (w_active s' !! u_id u).
Proof.
  induction slots as [|slots IH]; intros Hs started s; cbn [fill].
  all: match goal with |- context [?x <? ?m] => destruct (Z.ltb_spec x m) end.
  2, 4: exists [], s; rewrite app_nil_r; split_and!; cbn; try lia; try done; by intros i a; exists a.
  all: unfold mbind at 1, ST_bind at 1, try at 1, db, zoom; destruct (DequeueNext (w_db s)) as [[[u|]|e] d] eqn:Hq.
  2, 3, 5, 6: exists [], (put_db d s); rewrite app_nil_r; split_and!; cbn; try lia; try done; by intros i a; exists a.
  all: unfold mbind at 1, ST_bind at 1; destruct (markActive u (put_db d s)) as [r s1] eqn:Hm;
    injection Hm as <- <-.
  - exists [u]. eexists. split; [reflexivity|]. cbn [length]. split_and!; [lia|lia| |].
    + intros i a Hi. cbn. destruct (decide (u_id u = i)) as [<-|Hne]; [rewrite lookup_insert_eq; eauto|].
      rewrite lookup_insert_ne by done. by exists a.
    + intros v [<-|[]]. cbn. rewrite lookup_insert_eq. eauto.
  - match goal with |- context [fill slots maxC (started ++ [u]) ?t] => destruct (IH ltac:(lia) (started ++ [u]) t)
      as (new & s' & E & H1 & H2 & H3 & H4) end.
    exists (u :: new), s'. rewrite E, <- app_assoc. cbn [length]. unfold sem_cap in *. split_and!; [done|lia|lia| |].
    + intros i a Hi. destruct (decide (u_id u = i)) as [<-|Hne].
      * eapply H3. cbn. apply lookup_insert_eq.
      * eapply H3. cbn. rewrite lookup_insert_ne by done. exact Hi.
    + intros v [<-|Hv]; [|by apply H4]. eapply H3. cbn. apply lookup_insert_eq.
Qed.

(** A tick never fails and never overcommits: with [inFlight] slots taken it
    claims at most as many uploads as the configured limit leaves, and never
    more than one above the hard cap; every upload it claims is registered as
    active, and nothing active is forgotten. With the circuit open it does
    nothing. *)
Theorem process_tick_bounded (inFlight : nat) (s : WState P W) (Hcap : (inFlight <= sem_cap)%nat) :
  let maxC := match fst (getMaxConcurrent s) with Ok m => m | Err _ => 1 end in
  exists started s', process_tick inFlight s = (Ok started, s') /\
    Z.of_nat (length started) <= Z.max 0 (maxC - Z.of_nat inFlight) /\
    (length started + inFlight <= S sem_cap)%nat /\
    keeps_active s s' /\ (forall u, In u started -> is_Some (w_active s' !! u_id u)) /\
    (now (w_db s) < w_circuitOpenUntil s -> started = [] /\ s' = s).
Proof.
  cbv zeta. unfold process_tick. unfold mbind at 1, ST_bind at 1, get. destruct (Z.ltb_spec (now (w_db s)) (w_circuitOpenUntil s)).
  { exists [], s. split_and!; cbn; try lia; try done; by intros i a; exists a. }
  unfold mbind at 1, ST_bind at 1. destruct (getMaxConcurrent s) as [[maxC|e] s1] eqn:Hm.
  - destruct (fill_bounded (sem_cap - inFlight) maxC ltac:(lia) [] s1) as (new & s' & E & H1 & H2 & H3 & H4).
    exists new, s'. cbn [fst]. replace (sem_cap - (sem_cap - inFlight))%nat with inFlight in H1 by lia.
    split_and!; [exact E|done|lia| |done|lia]. intros i a Hi. apply (H3 i a). by apply getMaxConcurrent_active in Hm as ->.
  - exfalso. revert Hm. unfold getMaxConcurrent, mbind, ST_bind, try.
    destruct (settings _ s) as [[v|] t]; cbn; [|done]. repeat case_match; done.
Qed.
End loops.

(** ** Witnesses *)

Definition hour_old : Db := set_now (3700 * second) worker_db.

Definition gc_state : WState (SignerState ToyWorld) Daemon :=
  put_store (with_disk {["/tmp/f" := mkFile true 10 ""; "/tmp/orphan" := mkFile true 3 ""]} (New "/cache"))
    (worker_state hour_old toy_wave good_chain []).

Definition gc_entries : list DirEntry :=
  [mkDirEntry "f" false (Some 0); mkDirEntry "orphan" false (Some 0); mkDirEntry "sub" true (Some 0)].

Example cleanOrphanedTempFiles_safe_witness :
  let s' := snd (cleanOrphanedTempFiles "/tmp" (Some gc_entries) gc_state) in
  disk (w_store s') !! "/tmp/f" = Some (mkFile true 10 "") /\
  (~ needed (w_db gc_state) "/tmp/orphan" /\
   exists es e mt, Some gc_entries = Some es /\ In e es /\ "/tmp/orphan" = "/tmp" +:+ "/" +:+ de_Name e /\
     de_IsDir e = false /\ de_ModTime e = Some mt /\ 10 * minute <= now (w_db gc_state) - mt).
Proof.
  split; [vm_compute; reflexivity|].
  apply (cleanOrphanedTempFiles_safe "/tmp" (Some gc_entries) gc_state "/tmp/orphan" (mkFile true 3 "")).
  - vm_compute. reflexivity.
  - vm_compute. discriminate.
Defined.

(** A worker slot that has not beaten for an hour. *)
Definition silent : WState (SignerState ToyWorld) Daemon :=
  put_active {[1 := mkActive "u-1" 0 false]} (worker_state (set_now (9000 * second) worker_db) toy_wave good_chain []).

Example sweepStuck_spares_active_witness :
  (exists a', held (snd (sweepStuck 0 silent)) claimed_upload a' /\ au_lastBeat a' = 0) /\
  fst (RequeueStuckExcept DefaultStuckRequeueAfter [] (w_db silent)) = Ok 1.
Proof.
  split; [|vm_compute; reflexivity].
  apply (sweepStuck_spares_active 0 silent claimed_upload (mkActive "u-1" 0 false)).
  split; [by left|vm_compute; reflexivity].
Defined.

Definition two_waiting : Db :=
  set_settings [("max_concurrent_uploads", "2")]
    (set_uploads [two_queued; mkUpload 2 "u-2" 7 None "g" "g" 10 "" Private Queued None None None None None (Some "/tmp/g")
      None None 0 None 6 None None None 6 None 0] worker_db).

Example process_tick_bounded_witness :
  let s := worker_state two_waiting toy_wave good_chain [] in
  (exists started s', process_tick 1 s = (Ok started, s') /\
     Z.of_nat (length started) <= Z.max 0 (2 - Z.of_nat 1) /\ (length started + 1 <= S sem_cap)%nat /\
     keeps_active s s' /\ (forall u, In u started -> is_Some (w_active s' !! u_id u)) /\
     (now (w_db s) < w_circuitOpenUntil s -> started = [] /\ s' = s)) /\
  (u_id <$> (match fst (process_tick 1 s) with Ok l => l | Err _ => [] end)) = [1].
Proof.
  intros s. split; [|vm_compute; reflexivity].
  apply (process_tick_bounded 1 s). vm_compute. lia.
Defined.

(** The crash recovery at start skips a row claimed in the same second. *)
Example start_skips_this_second :
  let just_claimed := set_uploads [set_u_processing_at (Some 100) claimed_upload] worker_db in
  map u_status (uploads (w_db (snd (Start (worker_state just_claimed toy_wave good_chain []))))) = [Processing] /\
  map u_status (uploads (w_db (snd (Start (worker_state (set_now (101 * second) just_claimed) toy_wave good_chain []))))) = [Queued].
Proof. split; vm_compute; reflexivity. Qed.
