(* ===== verification/Sweep.v ===== *)
(** * The cache sweep worker (src/internal/worker/cache_sweep.go)

    One pass of the sweeper over the download cache: the purges of deleted
    uploads, the disk-pressure, inactivity and budget evictions, the stats.
    The measurements of the volume and the moment the context is done are
    schedules in the state, so every interruption is covered. *)

From stdpp Require Import sorting.
From S2P Require Import Prelude GoLib Hex Sql Schema UploadStore Settings Cache.
From S2P Require Import WorkerBase.
From Corelib Require Import Floats.SpecFloat.

(** CacheSweepWorker. [None] is the zero time. [sw_usage] are the results of
    the next calls of usage (total, used, ok), [sw_ctx] the checks of the
    context that still find it alive ([None]: all). *)
Record SweepState := mkSweep {
  sw_svc : CachedSettings;
  sw_store : Store;
  sw_lastPurgeID : Z;
  sw_pruneLog : bool;
  sw_lastPrune : option Z;
  sw_lastReconcile : option Z;
  sw_privateAllowed : bool;
  sw_DownloadCacheMaxBytes : option Z;
  sw_batch : Z;
  sw_lastStats : Metrics;
  sw_usage : list (Z * Z * bool);
  sw_ctx : option nat;
}.

Definition sw_db (s : SweepState) : Db := c_db (sw_svc s).

Definition put_sw_svc (c : CachedSettings) (s : SweepState) : SweepState :=
  mkSweep c (sw_store s) (sw_lastPurgeID s) (sw_pruneLog s) (sw_lastPrune s) (sw_lastReconcile s) (sw_privateAllowed s)
    (sw_DownloadCacheMaxBytes s) (sw_batch s) (sw_lastStats s) (sw_usage s) (sw_ctx s).
Definition put_sw_store (c : Store) (s : SweepState) : SweepState :=
  mkSweep (sw_svc s) c (sw_lastPurgeID s) (sw_pruneLog s) (sw_lastPrune s) (sw_lastReconcile s) (sw_privateAllowed s)
    (sw_DownloadCacheMaxBytes s) (sw_batch s) (sw_lastStats s) (sw_usage s) (sw_ctx s).
Definition put_lastPurgeID (i : Z) (s : SweepState) : SweepState :=
  mkSweep (sw_svc s) (sw_store s) i (sw_pruneLog s) (sw_lastPrune s) (sw_lastReconcile s) (sw_privateAllowed s)
    (sw_DownloadCacheMaxBytes s) (sw_batch s) (sw_lastStats s) (sw_usage s) (sw_ctx s).
Definition put_lastPrune (t : Z) (s : SweepState) : SweepState :=
  mkSweep (sw_svc s) (sw_store s) (sw_lastPurgeID s) (sw_pruneLog s) (Some t) (sw_lastReconcile s) (sw_privateAllowed s)
    (sw_DownloadCacheMaxBytes s) (sw_batch s) (sw_lastStats s) (sw_usage s) (sw_ctx s).
Definition put_lastReconcile (t : Z) (s : SweepState) : SweepState :=
  mkSweep (sw_svc s) (sw_store s) (sw_lastPurgeID s) (sw_pruneLog s) (sw_lastPrune s) (Some t) (sw_privateAllowed s)
    (sw_DownloadCacheMaxBytes s) (sw_batch s) (sw_lastStats s) (sw_usage s) (sw_ctx s).
Definition put_privateAllowed (b : bool) (s : SweepState) : SweepState :=
  mkSweep (sw_svc s) (sw_store s) (sw_lastPurgeID s) (sw_pruneLog s) (sw_lastPrune s) (sw_lastReconcile s) b
    (sw_DownloadCacheMaxBytes s) (sw_batch s) (sw_lastStats s) (sw_usage s) (sw_ctx s).
Definition put_lastStats (m : Metrics) (s : SweepState) : SweepState :=
  mkSweep (sw_svc s) (sw_store s) (sw_lastPurgeID s) (sw_pruneLog s) (sw_lastPrune s) (sw_lastReconcile s)
    (sw_privateAllowed s) (sw_DownloadCacheMaxBytes s) (sw_batch s) m (sw_usage s) (sw_ctx s).
Definition put_env (u : list (Z * Z * bool)) (c : option nat) (s : SweepState) : SweepState :=
  mkSweep (sw_svc s) (sw_store s) (sw_lastPurgeID s) (sw_pruneLog s) (sw_lastPrune s) (sw_lastReconcile s)
    (sw_privateAllowed s) (sw_DownloadCacheMaxBytes s) (sw_batch s) (sw_lastStats s) u c.

Abbreviation SweepM := (ST error SweepState).

Definition sw_settings {A} (m : SetM A) : SweepM A := zoom sw_svc put_sw_svc m.
Definition sdb {A} (m : DbM A) : SweepM A := sw_settings (inner m).
Definition sstore {A} (m : CacheM A) : SweepM A := zoom sw_store put_sw_store m.
Definition time_now : SweepM Z := gets (fun s => now (sw_db s)).

(** [ctx.Err() != nil] *)
Definition ctx_err : SweepM bool :=
  s ← get;
  match sw_ctx s with
  | None => mret false
  | Some O => mret true
  | Some (S n) => modify (put_env (sw_usage s) (Some n)) ;; mret false
  end.

(** A failed measurement once the schedule is over. *)
Definition usage : SweepM (Z * Z * bool) :=
  s ← get;
  match sw_usage s with
  | [] => mret (0, 0, false)
  | m :: rest => modify (put_env rest (sw_ctx s)) ;; mret m
  end.

(** ** Evicting *)

Definition cacheSweepBatch : Z := 100.
Definition cacheSweepBatchPause : Z := 50000000.

(** Drop the victims in turn until [stop] holds of the next one. *)
Fixpoint evict_victims (stop : Victim -> Store -> bool) (vs : list Victim) (evicted freed : Z) : CacheM (Z * Z) :=
  match vs with
  | [] => mret (evicted, freed)
  | v :: rest =>
      s ← get;
      if stop v s then mret (evicted, freed) else
      dropped ← DropGen (v_Key v) (v_Gen v);
      if (dropped : bool) then evict_victims stop rest (evicted + 1) (add64 freed (v_Size v))
      else evict_victims stop rest evicted freed
  end.

(** [cutoff]: [None] is the zero time. *)
Definition evictBatch (batch : Z) (cutoff : option Z) : CacheM (Z * Z) :=
  vs ← gets (Oldest batch);
  evict_victims (fun v _ => match cutoff with Some c => negb (v_LastAccess v <? c) | None => false end) vs 0 0.

Definition evictBatchToBytes (batch target : Z) : CacheM (Z * Z) :=
  vs ← gets (Oldest batch);
  evict_victims (fun _ s => snd (Stats s) <=? target) vs 0 0.

(** [time.After(w.pause)]: the clocks move on. *)
Definition batchPause : SweepM unit :=
  modify (fun s => put_sw_svc (set_c_db (set_now (now (sw_db s) + cacheSweepBatchPause) (sw_db s)) (sw_svc s))
                     (put_sw_store (with_clock (clock (sw_store s) + cacheSweepBatchPause) (sw_store s)) s)).

(** [for ctx.Err() == nil { if enough { break }; n, b := step(); if n == 0 { break }; ...; pause }] *)
Fixpoint evict_loop (fuel : nat) (enough : SweepM bool) (step : SweepM (Z * Z)) (evicted freed : Z) : SweepM (Z * Z) :=
  match fuel with
  | O => mret (evicted, freed)
  | S fuel =>
      stop ← ctx_err;
      if (stop : bool) then mret (evicted, freed) else
      e ← enough;
      if (e : bool) then mret (evicted, freed) else
      '(n, b) ← step;
      if n =? 0 then mret (evicted, freed)
      else batchPause ;; evict_loop fuel enough step (evicted + n) (add64 freed b)
  end.

(** Every round but the last drops an entry. *)
Definition loop_fuel (s : SweepState) : nat := S (size (entries (sw_store s))).

Definition record_evictions (f : Z -> Z -> Metrics -> Metrics) (evicted freed : Z) : SweepM unit :=
  if 0 <? evicted then sstore (modify (with_metrics (f evicted freed))) else mret tt.

(** [float64(used) / float64(total) * 100.0 < cacheDiskPressurePct] *)
Definition float64 (z : Z) : spec_float := binary_normalize 53 1024 z 0 false.
Definition below_pressure (used total : Z) : bool :=
  SFltb (SFmul 53 1024 (SFdiv 53 1024 (float64 used) (float64 total)) (float64 100)) (float64 90).

Definition no_pressure : SweepM bool :=
  '(total, used, ok) ← usage;
  mret (negb ok || (total =? 0) || below_pressure used total).

Definition sweepDiskPressure : SweepM unit :=
  s ← get;
  '(evicted, freed) ← evict_loop (loop_fuel s) no_pressure (sstore (evictBatch (sw_batch s) None)) 0 0;
  record_evictions (fun n b => add_evicted 0 0 n b) evicted freed.

Definition sweepInactive (cutoff : Z) : SweepM unit :=
  s ← get;
  '(evicted, freed) ← evict_loop (loop_fuel s) (mret false) (sstore (evictBatch (sw_batch s) (Some cutoff))) 0 0;
  record_evictions (fun n b => add_evicted 0 n 0 b) evicted freed.

(** The low-water mark of the cache under this budget. *)
Definition budget_target (budget maxObject : Z) : Z :=
  let headroom := Z.quot budget 10 in
  let headroom := if headroom <? maxObject then maxObject else headroom in
  let headroom := if Z.quot budget 2 <? headroom then Z.quot budget 2 else headroom in
  budget - headroom.

Definition sweepBudget : SweepM unit :=
  dbBudget ← sw_settings (GetIntWithBounds "download_cache_max_bytes" 0 0 (2 ^ 50));
  maxObject ← sw_settings (GetIntWithBounds "download_cache_max_object_bytes" (64 * 2 ^ 20) 1 (2 ^ 40));
  s ← get;
  let budget := default dbBudget (sw_DownloadCacheMaxBytes s) in
  let target := budget_target budget maxObject in
  '(evicted, freed) ← evict_loop (loop_fuel s) (gets (fun s => snd (Stats (sw_store s)) <=? target))
    (sstore (evictBatchToBytes (sw_batch s) target)) 0 0;
  record_evictions (fun n b => add_evicted n 0 0 b) evicted freed.

(** ** Purging *)

Definition cachePurgeBatch : Z := 500.
Definition cacheReconcileInterval : Z := 12 * hour.
Definition cachePurgeLogRetention : Z := 7 * 24 * hour.

(** The key is that of a live row the policy lets this instance cache. *)
Definition keep_cached (vis : gmap string visibility) (privateAllowed : bool) (key : string) : bool :=
  match vis !! key with Some v => bool_decide (v = Public) || privateAllowed | None => false end.

(** The number of failed unlinks; an error when the context is done. *)
Fixpoint drop_orphans (vis : gmap string visibility) (privateAllowed : bool) (vs : list Victim) (stuck : Z) : SweepM Z :=
  match vs with
  | [] => mret stuck
  | v :: rest =>
      stop ← ctx_err;
      if (stop : bool) then fail (ESentinel ErrCanceled) else
      if keep_cached vis privateAllowed (v_Key v) then drop_orphans vis privateAllowed rest stuck else
      r ← try (sstore (Drop (v_Key v)));
      drop_orphans vis privateAllowed rest (if is_ok r then stuck else stuck + 1)
  end.

Definition reconcile (privateAllowed : bool) : SweepM bool :=
  maxID ← sdb MaxPurgeLogID;
  count ← gets (fun s => fst (Stats (sw_store s)));
  if count =? 0 then modify (put_lastPurgeID maxID) ;; mret true else
  vs ← gets (fun s => Oldest count (sw_store s));
  vis ← sdb (CacheKeyVisibility (map v_Key vs));
  stuck ← drop_orphans vis privateAllowed vs 0;
  modify (put_lastPurgeID maxID) ;; mret (stuck =? 0).

(** Drop the logged keys: whether an unlink failed; [None] when the context is
    done. The mark follows until the first failure. *)
Fixpoint drop_logged (es : list PurgeLogEntry) (stalled : bool) : SweepM (option bool) :=
  match es with
  | [] => mret (Some stalled)
  | e :: rest =>
      stop ← ctx_err;
      if (stop : bool) then mret None else
      r ← try (sstore (Drop (p_cache_key e)));
      match r with
      | Err _ => drop_logged rest true
      | Ok _ => (if stalled then mret tt else modify (put_lastPurgeID (p_id e))) ;; drop_logged rest stalled
      end
  end.

(** Whether the function goes on after the loop. *)
Fixpoint purge_tail (fuel : nat) : SweepM bool :=
  match fuel with
  | O => mret true
  | S fuel =>
      last ← gets sw_lastPurgeID;
      r ← try (sdb (PurgeLogSince last cachePurgeBatch));
      match r with
      | Err _ => mret false
      | Ok es =>
          if (length es =? 0)%nat then mret true else
          st ← drop_logged es false;
          match st with
          | None => mret false
          | Some stalled =>
              if stalled || (Z.of_nat (length es) <? cachePurgeBatch) then mret true else purge_tail fuel
          end
      end
  end.

Definition prune_log : SweepM unit :=
  s ← get; t ← time_now;
  if sw_pruneLog s && match sw_lastPrune s with None => true | Some p => hour <=? t - p end then
    modify (put_lastPrune t) ;; ignore (sdb (PrunePurgeLog (t - cachePurgeLogRetention)))
  else mret tt.

Definition must_reconcile (s : SweepState) (privateNow : bool) : bool :=
  match sw_lastReconcile s with
  | None => true
  | Some t => (sw_privateAllowed s && negb privateNow) || (cacheReconcileInterval <=? now (sw_db s) - t)
  end.

Definition consume_tail (privateNow : bool) : SweepM unit :=
  modify (put_privateAllowed privateNow) ;;
  s ← get;
  go ← purge_tail (S (length (cache_purge_log (sw_db s))));
  if (go : bool) then prune_log else mret tt.

Definition propagatePurges : SweepM unit :=
  privateNow ← sw_settings (GetBool "download_cache_private" false);
  s ← get;
  if must_reconcile s privateNow then
    r ← try (reconcile privateNow);
    match r with
    | Err _ => mret tt
    | Ok clean =>
        (if (clean : bool) then t ← time_now; modify (put_lastReconcile t) else mret tt) ;;
        consume_tail privateNow
    end
  else consume_tail privateNow.

(** The counters moved since the last line; only the snapshot is kept. *)
Definition emitStats : SweepM unit := modify (fun s => put_lastStats (metrics (sw_store s)) s).

Definition sweep : SweepM unit :=
  propagatePurges ;;
  s ← get;
  (if 0 <? fst (Stats (sw_store s)) then
     sweepDiskPressure ;;
     secs ← sw_settings (GetIntWithBounds "download_cache_inactive_secs" 0 0 315360000);
     (if 0 <? secs then t ← time_now; sweepInactive (t - secs * second) else mret tt) ;;
     sweepBudget
   else mret tt) ;;
  emitStats.

(** * Properties *)

(** ** The snapshot *)

Lemma victims_in s v : In v (victims s) <->
  exists e, entries s !! v_Key v = Some e /\ v = mkVictim (v_Key v) (e_gen e) (e_size e) (e_lastAccess e).
Proof.
  unfold victims. rewrite in_map_iff. split.
  - intros ([k e] & <- & Hin). cbn. exists e. split; [|done]. by apply elem_of_map_to_list, list_elem_of_In.
  - intros (e & He & ->). exists (v_Key v, e). cbn. split; [done|]. by apply list_elem_of_In, elem_of_map_to_list.
Qed.

Lemma victims_keys s : map v_Key (victims s) = map fst (map_to_list (entries s)).
Proof. unfold victims. rewrite map_map. apply map_ext. by intros [k e]. Qed.

Lemma insert_victim_by v l : insert_victim v l = insert_by (fun a b => v_LastAccess a <=? v_LastAccess b) v l.
Proof. induction l as [|w l IH]; cbn; [done|]. by rewrite IH. Qed.

Definition sorted_victims (s : Store) : list Victim :=
  order_by (fun a b => v_LastAccess a <=? v_LastAccess b) (victims s).

Lemma Oldest_sorted max s : exists rest, sorted_victims s = Oldest max s ++ rest /\
  (0 < max -> Oldest max s = [] -> rest = []) /\ (Z.of_nat (size (entries s)) <= max -> rest = []).
Proof.
  assert (fold_right insert_victim [] (victims s) = sorted_victims s) as Hs.
  { unfold sorted_victims, order_by. induction (victims s) as [|v l IH]; cbn; [done|]. by rewrite IH, insert_victim_by. }
  unfold Oldest. rewrite Hs. destruct (_ && _) eqn:Hc.
  - exists (skipn (Z.to_nat max) (sorted_victims s)). rewrite firstn_skipn. breflect. split_and!; [done| |].
    + intros Hpos Hnil. apply (f_equal length) in Hnil. rewrite length_firstn in Hnil. cbn in Hnil. lia.
    + intros Hsz. exfalso. assert (length (sorted_victims s) = size (entries s)) as Hl; [|lia].
      unfold sorted_victims. rewrite order_by_perm. unfold victims. rewrite length_map. apply length_map_to_list.
  - exists []. by rewrite app_nil_r.
Qed.

Lemma sorted_victims_nodup s : NoDup (map v_Key (sorted_victims s)).
Proof.
  assert (map v_Key (sorted_victims s) ≡ₚ map v_Key (victims s)) as -> by (apply Permutation_map, order_by_perm).
  rewrite victims_keys. apply (NoDup_fst_map_to_list (entries s)).
Qed.

Lemma sorted_victims_in s v : In v (sorted_victims s) <-> In v (victims s).
Proof. apply order_by_in. Qed.

(** ** A batch of evictions, when the disk answers *)

Definition drop_keys (vs : list Victim) (es : gmap string entry) : gmap string entry :=
  fold_left (fun es v => delete (v_Key v) es) vs es.

Lemma drop_keys_lookup vs k : forall es,
  drop_keys vs es !! k = if existsb (fun v => String.eqb (v_Key v) k) vs then None else es !! k.
Proof.
  induction vs as [|v vs IH]; intros es; cbn; [done|]. rewrite IH. destruct (String.eqb_spec (v_Key v) k) as [->|Hne]; cbn.
  - case_match; [done|]. apply lookup_delete_eq.
  - case_match; [done|]. by rewrite lookup_delete_ne.
Qed.

Lemma DropGen_ok k g e s : io s = [] -> entries s !! k = Some e -> e_gen e = g ->
  exists s', DropGen k g s = (Ok true, s') /\ io s' = [] /\ entries s' = delete k (entries s) /\
    bytes s' = sub64 (bytes s) (e_size e) /\ root s' = root s.
Proof.
  intros Hio He <-. unfold DropGen, unlinkLocked, Remove, try, mbind, ST_bind, get. rewrite He.
  rewrite Z.eqb_refl. cbn [negb]. destruct (keyValid k); cbn [negb].
  - rewrite syscall_ok by done. destruct (disk s !! path (root s) k) as [f|]; cbn.
    + eexists. by split_and!.
    + rewrite (bool_decide_eq_true_2 (ErrNotExist = ErrNotExist)) by done. cbn. eexists. by split_and!.
  - cbn. eexists. by split_and!.
Qed.

Lemma evict_victims_ok stop vs : forall s n b, io s = [] -> NoDup (map v_Key vs) ->
  (forall v, In v vs -> exists e, entries s !! v_Key v = Some e /\ e_gen e = v_Gen v) ->
  exists pre post s' b', vs = pre ++ post /\
    evict_victims stop vs n b s = (Ok (n + Z.of_nat (length pre), b'), s') /\
    io s' = [] /\ entries s' = drop_keys pre (entries s) /\ root s' = root s /\
    (post = [] \/ exists v rest, post = v :: rest /\ stop v s' = true) /\
    (forall v, In v pre -> exists si, stop v si = false) /\ (pre = [] -> s' = s).
Proof.
  induction vs as [|v vs IH]; intros s n b Hio Hnd Hin.
  { exists [], [], s, b. cbn. rewrite Z.add_0_r. split_and!; try done. by left. }
  cbn [evict_victims]. unfold mbind at 1, ST_bind at 1, get. destruct (stop v s) eqn:Hstop.
  { exists [], (v :: vs), s, b. cbn. rewrite Z.add_0_r. split_and!; try done. right. by exists v, vs. }
  destruct (Hin v (or_introl eq_refl)) as (e & He & Hg).
  destruct (DropGen_ok (v_Key v) (v_Gen v) e s Hio He Hg) as (s1 & Hd & Hio1 & E1 & _ & R1).
  unfold mbind at 1, ST_bind at 1. rewrite Hd. cbn in Hnd. inversion Hnd as [|? ? Hv Hnd']; subst.
  destruct (IH s1 (n + 1) (add64 b (v_Size v)) Hio1 Hnd') as (pre & post & s' & b' & -> & Hr & Hio' & E' & R' & Hpost & Hpre & _).
  { intros w Hw. destruct (Hin w (or_intror Hw)) as (x & Hx & Hgx). exists x. split; [|done].
    rewrite E1, lookup_delete_ne; [done|]. intros Heq. apply Hv. rewrite Heq. apply list_elem_of_In. by apply in_map. }
  exists (v :: pre), post, s', b'. split; [done|]. split; [rewrite Hr; do 3 f_equal; cbn [length]; lia|].
  split_and!; [done|by rewrite E', E1|congruence|done| |done]. intros w [<-|Hw]; [by exists s|by apply Hpre].
Qed.

(** One batch over a fresh snapshot. *)
Lemma evict_batch_ok stop batch s : io s = [] -> 0 < batch ->
  exists pre post s' b', sorted_victims s = pre ++ post /\
    (vs ← gets (Oldest batch); evict_victims stop vs 0 0) s = (Ok (Z.of_nat (length pre), b'), s') /\
    io s' = [] /\ entries s' = drop_keys pre (entries s) /\ root s' = root s /\
    (pre = [] -> post = [] \/ exists v rest, post = v :: rest /\ stop v s = true) /\
    (forall v, In v pre -> exists si, stop v si = false) /\ (pre = [] -> s' = s).
Proof.
  intros Hio Hb. destruct (Oldest_sorted batch s) as (rest & Hso & Hnil & _).
  destruct (evict_victims_ok stop (Oldest batch s) s 0 0 Hio) as (pre & post & s' & b' & Hsplit & Hr & Hio' & E & R & Hpost & Hpre & Hsame).
  - pose proof (sorted_victims_nodup s) as Hnd. rewrite Hso, map_app in Hnd. by apply NoDup_app in Hnd as [Hnd _].
  - intros v Hv. assert (In v (sorted_victims s)) as Hin by (rewrite Hso; apply in_or_app; by left).
    apply sorted_victims_in, victims_in in Hin as (e & He & ->). exists e. by split.
  - exists pre, (post ++ rest), s', b'. rewrite Hso, Hsplit, <- app_assoc. split_and!; try done.
    intros ->. rewrite (Hsame eq_refl) in Hpost. cbn in Hsplit. destruct Hpost as [->|(v & r & -> & Hstop)].
    + left. by rewrite Hnil.
    + right. by exists v, (r ++ rest).
Qed.

(** What evictions did to the index: some entries that [old] allowed are gone,
    none fresher than one that stayed. *)
Record evicted (old : entry -> Prop) (es es' : gmap string entry) : Prop := {
  ev_sub : forall k e, es' !! k = Some e -> es !! k = Some e;
  ev_old : forall k e, es !! k = Some e -> es' !! k = None -> old e;
  ev_lru : forall k e k' e', es !! k = Some e -> es' !! k = None -> es' !! k' = Some e' -> e_lastAccess e <= e_lastAccess e';
}.

Lemma evicted_refl old es : evicted old es es.
Proof. split; [done|congruence|congruence]. Qed.

Lemma evicted_trans old es1 es2 es3 : evicted old es1 es2 -> evicted old es2 es3 -> evicted old es1 es3.
Proof.
  intros [S1 O1 L1] [S2 O2 L2]. split.
  - auto.
  - intros k e H1 H3. destruct (es2 !! k) as [e2|] eqn:H2; [|by eapply O1].
    pose proof (S1 k e2 H2). assert (e2 = e) as -> by congruence. by eapply O2.
  - intros k e k' e' H1 H3 H'. destruct (es2 !! k) as [e2|] eqn:H2.
    + pose proof (S1 k e2 H2). assert (e2 = e) as -> by congruence. by eapply L2.
    + eapply L1; [done|done|]. by apply S2.
Qed.

Lemma drop_prefix_evicted stop (old : entry -> Prop) s pre post : sorted_victims s = pre ++ post ->
  (forall v, In v pre -> exists si : Store, stop v si = false) ->
  (forall v si e, stop v si = false -> v_LastAccess v = e_lastAccess e -> old e) ->
  evicted old (entries s) (drop_keys pre (entries s)).
Proof.
  intros Hso Hpre Hold. pose proof (sorted_victims_nodup s) as Hnd.
  assert (forall k e, entries s !! k = Some e -> drop_keys pre (entries s) !! k = None ->
    In (mkVictim k (e_gen e) (e_size e) (e_lastAccess e)) pre) as Hin.
  { intros k e He. rewrite drop_keys_lookup. destruct (existsb _ pre) eqn:Hx; [|congruence]. intros _.
    apply existsb_exists in Hx as (v & Hv & Hk%String.eqb_eq).
    assert (In v (victims s)) as Hvi by (apply sorted_victims_in; rewrite Hso; apply in_or_app; by left).
    apply victims_in in Hvi as (e' & He' & Hv'). rewrite Hk in *. assert (e' = e) as -> by congruence. by rewrite <- Hv'. }
  split.
  - intros k e. rewrite drop_keys_lookup. by case_match.
  - intros k e H1 H2. destruct (Hpre _ (Hin k e H1 H2)) as [si Hsi]. by eapply Hold.
  - intros k e k' e' H1 H2 H3. pose proof (Hin k e H1 H2) as Hv.
    assert (In (mkVictim k' (e_gen e') (e_size e') (e_lastAccess e')) post) as Hv'.
    { rewrite drop_keys_lookup in H3. destruct (existsb _ pre) eqn:Hx; [done|].
      assert (In (mkVictim k' (e_gen e') (e_size e') (e_lastAccess e')) (victims s)) as Hin'
        by (apply victims_in; exists e'; by split).
      apply sorted_victims_in in Hin'. rewrite Hso in Hin'. apply in_app_or in Hin' as [Hp|Hp]; [|done].
      apply not_true_iff_false in Hx. exfalso. apply Hx, existsb_exists. eexists. split; [exact Hp|].
      cbn. apply String.eqb_refl. }
    pose proof (order_by_sorted v_LastAccess (victims s)) as Hs. fold (sorted_victims s) in Hs. rewrite Hso in Hs.
    rewrite <- !list_elem_of_In in *. apply (StronglySorted_app_1_elem_of _ pre post _ _ Hs Hv Hv').
Qed.

Lemma drop_keys_shrinks v pre post s : sorted_victims s = (v :: pre) ++ post ->
  (size (drop_keys (v :: pre) (entries s)) < size (entries s))%nat.
Proof.
  intros Hso. assert (In v (victims s)) as Hv by (apply sorted_victims_in; rewrite Hso; by left).
  apply victims_in in Hv as (e & He & _). apply map_subset_size. split.
  - apply map_subseteq_spec. intros k x. rewrite drop_keys_lookup. by case_match.
  - intros Hsub. rewrite map_subseteq_spec in Hsub. specialize (Hsub _ _ He). rewrite drop_keys_lookup in Hsub.
    cbn in Hsub. by rewrite String.eqb_refl in Hsub.
Qed.

Section loop.
Context (enough : SweepM bool) (batch : Z) (stop : Victim -> Store -> bool) (old : entry -> Prop).
Context (Henough : forall s, exists e, enough s = (Ok e, s)).
Context (Hold : forall v si e, stop v si = false -> v_LastAccess v = e_lastAccess e -> old e).
Context (Hbatch : 0 < batch).

Definition step : SweepM (Z * Z) := sstore (vs ← gets (Oldest batch); evict_victims stop vs 0 0).

(** Nothing is left to evict. *)
Definition settled_loop (s : SweepState) : Prop :=
  fst (enough s) = Ok true \/ entries (sw_store s) = ∅ \/
  exists v rest, sorted_victims (sw_store s) = v :: rest /\ stop v (sw_store s) = true.

Lemma evict_loop_ok fuel : forall s n b, io (sw_store s) = [] -> sw_ctx s = None ->
  (size (entries (sw_store s)) < fuel)%nat ->
  exists nb s', evict_loop fuel enough step n b s = (Ok nb, s') /\ settled_loop s' /\ io (sw_store s') = [] /\
    evicted old (entries (sw_store s)) (entries (sw_store s')).
Proof using Henough Hold Hbatch.
  induction fuel as [|fuel IH]; intros s n b Hio Hctx Hsz; [lia|]. cbn [evict_loop].
  assert (ctx_err s = (Ok false, s)) as Hc by (unfold ctx_err, mbind, ST_bind, get; by rewrite Hctx).
  unfold mbind at 1, ST_bind at 1. rewrite Hc.
  unfold mbind at 1, ST_bind at 1. destruct (Henough s) as [e He]. rewrite He. destruct e.
  { exists (n, b), s. split_and!; [done|left; by rewrite He|done|apply evicted_refl]. }
  unfold mbind at 1, ST_bind at 1, step, sstore, zoom.
  destruct (evict_batch_ok stop batch (sw_store s) Hio Hbatch) as
    (pre & post & c & b' & Hso & Hr & Hio' & E & _ & Hpost & Hpre & Hsame). rewrite Hr.
  pose proof (drop_prefix_evicted stop old (sw_store s) pre post Hso Hpre Hold) as Hev.
  destruct (Z.eqb_spec (Z.of_nat (length pre)) 0) as [Hz|Hz].
  - assert (pre = []) as -> by (destruct pre; [done|cbn in Hz; lia]).
    rewrite (Hsame eq_refl). exists (n, b), (put_sw_store (sw_store s) s). split; [done|].
    split_and!; [right|done|apply evicted_refl].
    destruct (Hpost eq_refl) as [->|(v & rest & -> & Hstop)]; [left|right; by exists v, rest].
    apply map_to_list_empty_iff. apply (f_equal length) in Hso. unfold sorted_victims in Hso.
    rewrite order_by_perm in Hso. unfold victims in Hso. rewrite length_map in Hso. by destruct (map_to_list _).
  - unfold mbind at 1, ST_bind at 1, batchPause at 1, modify.
    match goal with |- context [evict_loop fuel enough _ ?n' ?b' ?t] => destruct (IH t n' b') as (nb & s' & Hl & Hset & Hio2 & Hev2) end;
      [done|done| |].
    + cbn. rewrite E. eapply Nat.lt_le_trans; [|apply Nat.lt_succ_r, Hsz].
      destruct pre as [|v pre]; [done|]. by apply (drop_keys_shrinks v pre post).
    + exists nb, s'. split_and!; [exact Hl|done|done|]. eapply evicted_trans; [|exact Hev2]. cbn. by rewrite E.
Qed.
End loop.

(** The inactivity pass removes exactly the entries that were not read since
    the cutoff, however many batches it takes, when the disk answers and the
    sweeper is not being stopped. *)
Theorem sweepInactive_exact (cutoff : Z) (s : SweepState)
    (Hio : io (sw_store s) = []) (Hctx : sw_ctx s = None) (Hbatch : 0 < sw_batch s) :
  exists s', sweepInactive cutoff s = (Ok tt, s') /\
    entries (sw_store s') = filter (fun '(_, e) => cutoff <= e_lastAccess e) (entries (sw_store s)).
Proof.
  destruct (evict_loop_ok (mret false) (sw_batch s) (fun v _ => negb (v_LastAccess v <? cutoff))
    (fun e => e_lastAccess e < cutoff)) with (fuel := loop_fuel s) (s := s) (n := 0) (b := 0)
    as ([n b] & s' & Hl & Hset & _ & Hev); [by intros; exists false| |done|done|done|unfold loop_fuel; lia|].
  { intros v si e H <-. breflect. done. }
  assert (entries (sw_store s') = filter (fun '(_, e) => cutoff <= e_lastAccess e) (entries (sw_store s))) as Hes.
  { apply map_eq. intros k. apply option_eq. intros e. rewrite map_lookup_filter_Some. split.
    - intros He. split; [by apply (ev_sub _ _ _ Hev)|]. destruct Hset as [Hx|[Hx|(v & rest & Hso & Hx)]];
        [done|by rewrite Hx, lookup_empty in He|]. breflect.
      pose proof (order_by_head v_LastAccess (victims (sw_store s')) v rest Hso
        (mkVictim k (e_gen e) (e_size e) (e_lastAccess e))) as Hmin. cbn in Hmin.
      etransitivity; [exact Hx|]. apply Hmin, victims_in. by exists e.
    - intros [He Hc]. destruct (entries (sw_store s') !! k) as [e'|] eqn:He'.
      + apply (ev_sub _ _ _ Hev) in He'. congruence.
      + pose proof (ev_old _ _ _ Hev k e He He'). cbn in *. lia. }
  unfold sweepInactive. unfold mbind at 1, ST_bind at 1, get.
  unfold evictBatch. unfold step in Hl. unfold mbind at 1, ST_bind at 1. rewrite Hl. unfold record_evictions.
  destruct (0 <? n); eexists; (split; [reflexivity|exact Hes]).
Qed.

Lemma budget_target_spec budget maxObject : 0 <= budget -> 0 <= maxObject ->
  0 <= budget_target budget maxObject /\
  budget_target budget maxObject + Z.min (Z.max (budget / 10) maxObject) (budget / 2) = budget.
Proof.
  intros Hb Hm. unfold budget_target. rewrite !Z.quot_div_nonneg by lia.
  pose proof (Z.div_mod budget 2). pose proof (Z.mod_pos_bound budget 2).
  destruct (Z.ltb_spec (budget / 10) maxObject);
    match goal with |- context [if ?x <? ?y then _ else _] => destruct (Z.ltb_spec x y) end; lia.
Qed.

Lemma indexed_evict stop vs : forall n b, steps (keeps indexed) (evict_victims stop vs n b).
Proof.
  induction vs as [|v vs IH]; intros n b; cbn; steps_go. apply DropGen_indexed.
Qed.

Lemma indexed_loop enough batch stop fuel : (forall s, exists e, enough s = (Ok e, s)) -> forall n b,
  steps (keeps (fun s => indexed (sw_store s))) (evict_loop fuel enough (step batch stop) n b).
Proof.
  intros He. assert (steps (keeps (fun s => indexed (sw_store s))) enough) as Hs.
  { intros s. by destruct (He s) as [e ->]. }
  induction fuel as [|fuel IH]; intros n b; cbn; [steps_go|]. unfold ctx_err, batchPause, step, sstore. steps_go.
  - apply steps_modify. intros s0 H. exact H.
  - apply (steps_zoom _ (keeps indexed)); [intros t x H; exact H|]. steps_go. apply indexed_evict.
  - apply steps_modify. intros s0 [H1 H2]. by split.
Qed.

(** The budget pass makes room: with the disk answering, it leaves the cache
    at or below its low-water mark, so an object up to the headroom (a tenth of
    the budget or one object of the maximal size, at most half the budget) fits
    into the budget again. It evicts in least-recently-used order, and nothing
    at all while the cache is below the mark. *)
Theorem sweepBudget_headroom (s : SweepState) (Hio : io (sw_store s) = []) (Hctx : sw_ctx s = None)
    (Hbatch : 0 < sw_batch s) (Hidx : indexed (sw_store s)) :
  exists dbBudget maxObject c1 c2 s',
    GetIntWithBounds "download_cache_max_bytes" 0 0 (2 ^ 50) (sw_svc s) = (Ok dbBudget, c1) /\
    GetIntWithBounds "download_cache_max_object_bytes" (64 * 2 ^ 20) 1 (2 ^ 40) c1 = (Ok maxObject, c2) /\
    sweepBudget s = (Ok tt, s') /\
    evicted (fun _ => True) (entries (sw_store s)) (entries (sw_store s')) /\
    let budget := default dbBudget (sw_DownloadCacheMaxBytes s) in
    (0 <= budget -> bytes (sw_store s') + Z.min (Z.max (budget / 10) maxObject) (budget / 2) <= budget) /\
    (bytes (sw_store s) <= budget_target budget maxObject -> sw_store s' = sw_store s).
Proof.
  destruct (GetIntWithBounds_run "download_cache_max_bytes" 0 0 (2 ^ 50) (sw_svc s)) as (dbBudget & c1 & H1 & _).
  destruct (GetIntWithBounds_run "download_cache_max_object_bytes" (64 * 2 ^ 20) 1 (2 ^ 40) c1)
    as (maxObject & c2 & H2 & Hm).
  exists dbBudget, maxObject, c1, c2. set (budget := default dbBudget (sw_DownloadCacheMaxBytes s)).
  set (target := budget_target budget maxObject). set (s2 := put_sw_svc c2 (put_sw_svc c1 s)).
  destruct (evict_loop_ok (gets (fun s => snd (Stats (sw_store s)) <=? target)) (sw_batch s)
    (fun _ st => snd (Stats st) <=? target) (fun _ => True)) with (fuel := loop_fuel s2) (s := s2) (n := 0) (b := 0)
    as ([n b] & s' & Hl & Hset & _ & Hev);
    [by intros; eexists|done|done|done|done|cbn; unfold loop_fuel; cbn; lia|].
  assert (sweepBudget s = (record_evictions (fun n b => add_evicted n 0 0 b) n b) s') as Hrun.
  { unfold sweepBudget, sw_settings. unfold mbind at 1, ST_bind at 1, zoom at 1. rewrite H1.
    unfold mbind at 1, ST_bind at 1, zoom at 1. cbn [sw_svc put_sw_svc]. rewrite H2.
    unfold mbind at 1, ST_bind at 1, get. unfold mbind at 1, ST_bind at 1.
    change (evict_loop _ _ _ 0 0 (put_sw_svc c2 (put_sw_svc c1 s))) with
      (evict_loop (loop_fuel s2) (gets (fun s => snd (Stats (sw_store s)) <=? target))
        (step (sw_batch s) (fun _ st => snd (Stats st) <=? target)) 0 0 s2). by rewrite Hl. }
  assert (sw_store (snd (record_evictions (fun n b => add_evicted n 0 0 b) n b s')) = 
    (if 0 <? n then with_metrics (add_evicted n 0 0 b) (sw_store s') else sw_store s')) as Hst.
  { unfold record_evictions. by destruct (0 <? n). }
  exists (snd (record_evictions (fun n b => add_evicted n 0 0 b) n b s')). split_and!; [done|done| | |].
  - rewrite Hrun. unfold record_evictions. by destruct (0 <? n).
  - rewrite Hst. by destruct (0 <? n).
  - cbv zeta. fold budget. fold target. split.
    + intros Hb. destruct (budget_target_spec budget maxObject) as [Ht0 Ht]; [done|lia|]. fold target in Ht0, Ht.
      assert (bytes (sw_store s') <= target) as Hle.
      { destruct Hset as [Hx|[Hx|(v & rest & _ & Hx)]]; [injection Hx as Hx; by apply Z.leb_le in Hx| |by apply Z.leb_le in Hx].
        assert (indexed (sw_store s')) as [Hbytes _].
        { pose proof (indexed_loop (gets (fun s => snd (Stats (sw_store s)) <=? target)) (sw_batch s)
            (fun _ st => snd (Stats st) <=? target) (loop_fuel s2) ltac:(intros; by eexists) 0 0 s2 Hidx) as Hi.
          by rewrite Hl in Hi. }
        rewrite Hbytes, Hx. by change (0 <= target). }
      rewrite Hst. destruct (0 <? n); cbn; lia.
    + intros Hle. revert Hl. unfold loop_fuel. cbn [evict_loop]. unfold mbind at 1, ST_bind at 1.
      assert (ctx_err s2 = (Ok false, s2)) as -> by (unfold ctx_err, mbind, ST_bind, get; cbn; by rewrite Hctx).
      unfold mbind at 1, ST_bind at 1, gets at 1. change (sw_store s2) with (sw_store s).
      cbn [Stats snd]. rewrite (proj2 (Z.leb_le _ _) Hle). intros [= <- <- <-]. by rewrite Hst.
Qed.

(** ** Reconciliation *)

(** The policy lets this instance cache the key: a live row has it, and it is
    public or private caching is on. *)
Definition cacheable (d : Db) (privateAllowed : bool) (k : string) : Prop :=
  exists v, row_visibility k (uploads d) = Some v /\ (v = Public \/ privateAllowed = true).

Lemma drop_orphans_run vis pr vs : forall n s m s', drop_orphans vis pr vs n s = (Ok m, s') ->
  n <= m /\ sw_svc s' = sw_svc s /\ root (sw_store s') = root (sw_store s) /\
  (accounted (sw_store s) -> accounted (sw_store s')) /\
  (forall k, entries (sw_store s') !! k = entries (sw_store s) !! k \/
     (entries (sw_store s') !! k = None /\ keep_cached vis pr k = false)) /\
  (m = n -> forall v, In v vs -> keep_cached vis pr (v_Key v) = false -> entries (sw_store s') !! v_Key v = None).
Proof.
  induction vs as [|v vs IH]; intros n s m s'; cbn [drop_orphans].
  { intros [= <- <-]. split_and!; try done. by intros; left. }
  intros Hr. apply bind_ok in Hr as (stop & s1 & Hc & Hr).
  assert (sw_svc s1 = sw_svc s /\ sw_store s1 = sw_store s) as [<- <-].
  { revert Hc. unfold ctx_err, mbind, ST_bind, get. destruct (sw_ctx s) as [[|c]|]; by intros [= _ <-]. }
  clear Hc. destruct stop; [done|]. destruct (keep_cached vis pr (v_Key v)) eqn:Hk.
  { apply IH in Hr as (H1 & H2 & H3 & H4 & H5 & H6). split_and!; try done.
    intros Hm w [<-|Hw]; [congruence|by apply H6]. }
  apply bind_ok in Hr as (r & s2 & Hd & Hr). revert Hd. unfold try, sstore, zoom.
  pose proof (Drop_cases (v_Key v) (sw_store s1)) as Hcase. pose proof (Drop_accounted (v_Key v) (sw_store s1)) as Hacc.
  assert (root (snd (Drop (v_Key v) (sw_store s1))) = root (sw_store s1)) as Hroot by apply Drop_root.
  destruct (Drop (v_Key v) (sw_store s1)) as [[[]|e] c]; cbn [fst snd] in *; intros [= <- <-]; cbn [is_ok] in Hr;
    apply IH in Hr as (H1 & H2 & H3 & H4 & H5 & H6); cbn [sw_svc sw_store put_sw_store] in *.
  - destruct Hcase as (E & _). split_and!; [done|done|congruence|auto| |].
    + intros k. destruct (H5 k) as [Hk'|Hk']; [|by right]. rewrite Hk', E.
      destruct (decide (k = v_Key v)) as [->|Hne]; [|left; by rewrite lookup_delete_ne]. right. by rewrite lookup_delete_eq.
    + intros -> w [<-|Hw]; [|by apply H6]. intros _. destruct (H5 (v_Key v)) as [Hk'|[Hk' _]]; [|done].
      rewrite Hk', E. apply lookup_delete_eq.
  - destruct Hcase as [(E & _) _]. split_and!; [lia|done|congruence|auto| |lia].
    intros k. destruct (H5 k) as [Hk'|Hk']; [left; congruence|by right].
Qed.

(** A clean reconciliation erases: afterwards every indexed key, and every
    file in the place of a key, belongs to a live upload row that the policy
    lets this instance cache, the entries of such rows are all kept, and the
    log mark stands at the newest purge, so that nothing logged before is ever
    needed again. An opt-out of private caching thus removes the private
    plaintext already on disk. *)
Theorem reconcile_erases (privateAllowed : bool) (s s' : SweepState)
    (Hrun : reconcile privateAllowed s = (Ok true, s')) :
  let d := sw_db s in
  (forall k e, entries (sw_store s') !! k = Some e <-> entries (sw_store s) !! k = Some e /\ cacheable d privateAllowed k) /\
  (accounted (sw_store s) -> forall k f, keyValid k = true ->
     disk (sw_store s') !! path (root (sw_store s)) k = Some f -> cacheable d privateAllowed k) /\
  sw_lastPurgeID s' = default 0 (max_by p_id (cache_purge_log d)).
Proof.
  cbv zeta. revert Hrun. unfold reconcile. intros Hr. apply bind_ok in Hr as (maxID & s1 & Hm & Hr).
  revert Hm. unfold sdb, sw_settings, inner, zoom. destruct (MaxPurgeLogID (c_db (sw_svc s))) as [[i|] d1] eqn:Hq; [|done].
  apply query_ok in Hq as (fs & -> & ->). intros [= <- <-].
  apply bind_ok in Hr as (count & s1' & Hc & Hr). injection Hc as <- <-. cbn [Stats fst sw_store put_sw_svc] in Hr.
  destruct (Z.eqb_spec (Z.of_nat (size (entries (sw_store s)))) 0) as [Hz|Hz].
  { apply bind_ok in Hr as ([] & s3 & Hmod & Hr). injection Hmod as <-. injection Hr as <-.
    assert (entries (sw_store s) = ∅) as He by (apply map_size_empty_iff; lia). split_and!; [| |done].
    - intros k e. cbn. rewrite He, lookup_empty. by split; [|intros []].
    - intros Ha k f Hk Hd. destruct (Ha k f Hk Hd) as (e & Hx & _). by rewrite He, lookup_empty in Hx. }
  apply bind_ok in Hr as (vs & s2 & Hvs & Hr). injection Hvs as <- <-. cbn [sw_store put_sw_svc] in Hr.
  set (vs := Oldest _ (sw_store s)) in Hr.
  assert (forall k e, entries (sw_store s) !! k = Some e -> exists v, In v vs /\ v_Key v = k) as Hall.
  { intros k e He. destruct (Oldest_sorted (Z.of_nat (size (entries (sw_store s)))) (sw_store s)) as (rest & Hso & _ & Hrest).
    rewrite (Hrest ltac:(lia)), app_nil_r in Hso. exists (mkVictim k (e_gen e) (e_size e) (e_lastAccess e)).
    split; [|done]. unfold vs. rewrite <- Hso. apply sorted_victims_in, victims_in. by exists e. }
  apply bind_ok in Hr as (vis & s3 & Hvis & Hr). revert Hvis. cbn [sw_svc put_sw_svc set_c_db c_db].
  unfold sdb, sw_settings, inner, zoom. cbn [sw_svc put_sw_svc set_c_db c_db].
  destruct (CacheKeyVisibility (map v_Key vs) _) as [[m|] d3] eqn:Hv; [|done].
  pose proof (CacheKeyVisibility_ok _ _ _ _ Hv) as Hvis. intros [= <- <-].
  apply bind_ok in Hr as (stuck & s4 & Hdrop & Hr). apply drop_orphans_run in Hdrop as (_ & _ & Hroot & Hacc & Hk & Hgone).
  apply bind_ok in Hr as ([] & s5 & Hmod & Hr). injection Hmod as <-. injection Hr as Hstuck <-.
  apply Z.eqb_eq in Hstuck. subst stuck. cbn [sw_store sw_lastPurgeID put_lastPurgeID put_sw_svc] in *.
  assert (forall k, In k (map v_Key vs) -> keep_cached m privateAllowed k = true <-> cacheable (sw_db s) privateAllowed k) as Hkeep.
  { intros k Hin. unfold keep_cached, cacheable. rewrite Hvis. cbn [uploads set_faults].
    assert (in_batch k (map v_Key vs) = true) as ->.
    { apply existsb_exists. exists k. split; [done|]. apply String.eqb_refl. }
    change (c_db (sw_svc s)) with (sw_db s). destruct (row_visibility k (uploads (sw_db s))) as [v|]; [|by split; [|intros (? & ? & _)]].
    rewrite orb_true_iff, bool_decide_eq_true. split; [by exists v|]. by intros (v' & [= <-] & H). }
  assert (forall k e, entries (sw_store s4) !! k = Some e <->
    entries (sw_store s) !! k = Some e /\ cacheable (sw_db s) privateAllowed k) as Hent.
  { intros k e. split.
    - intros He. destruct (Hk k) as [Hk'|[Hk' _]]; [|congruence]. rewrite He in Hk'. split; [done|].
      destruct (Hall k e) as (v & Hv1 & Hv2); [done|]. apply Hkeep; [subst k; by apply in_map|].
      destruct (keep_cached m privateAllowed k) eqn:Hx; [done|]. subst k. by rewrite (Hgone eq_refl v Hv1 Hx) in He.
    - intros [He Hc]. destruct (Hk k) as [Hk'|[_ Hx]]; [congruence|]. destruct (Hall k e) as (v & Hv1 & Hv2); [done|].
      apply Hkeep in Hc; [congruence|]. subst k. by apply in_map. }
  split_and!; [done| |done]. intros Ha k f Hkv Hd. rewrite <- Hroot in Hd.
  destruct (Hacc Ha k f Hkv Hd) as (e & He & _). by apply Hent in He as [_ He].
Qed.

(** ** The purge log *)

Definition gone (c : Store) (k : string) : Prop :=
  entries c !! k = None /\ (keyValid k = true -> disk c !! path (root c) k = None).

(** Nothing was added to the cache. *)
Definition shrinks (c c' : Store) : Prop :=
  root c' = root c /\ (forall k, entries c !! k = None -> entries c' !! k = None) /\
  (forall p, disk c !! p = None -> disk c' !! p = None).

#[export] Instance shrinks_preorder : PreOrder shrinks.
Proof. split; [done|]. intros a b c (R1 & E1 & D1) (R2 & E2 & D2). split_and!; [congruence|auto|auto]. Qed.

Lemma shrinks_gone c c' k : shrinks c c' -> gone c k -> gone c' k.
Proof. intros (R & E & D) [H1 H2]. split; [auto|]. intros Hk. rewrite R. auto. Qed.

Lemma Drop_shrinks k c : shrinks c (snd (Drop k c)).
Proof.
  pose proof (Drop_cases k c) as H. pose proof (Drop_root k c) as Hr. destruct (Drop k c) as [[[]|e] c']; cbn in *.
  - destruct H as (E & D1 & D2). split_and!; [done| |].
    + intros k' H. rewrite E. destruct (decide (k' = k)) as [->|]; [apply lookup_delete_eq|by rewrite lookup_delete_ne].
    + intros p H. destruct (keyValid k); [rewrite D1 by done|by rewrite D2].
      destruct (decide (p = path (root c) k)) as [->|]; [apply lookup_delete_eq|by rewrite lookup_delete_ne].
  - destruct H as [(E & _) D]. split_and!; [done|by rewrite E|by rewrite D].
Qed.

Lemma Drop_gone k c x c' : Drop k c = (Ok x, c') -> gone c' k.
Proof.
  intros H. pose proof (Drop_cases k c) as Hc. pose proof (Drop_root k c) as Hr. rewrite H in *. cbn in *.
  destruct Hc as (E & D & _). split; [rewrite E; apply lookup_delete_eq|]. intros Hk. rewrite D, Hr by done.
  apply lookup_delete_eq.
Qed.

Lemma ctx_err_same s stop s1 : ctx_err s = (Ok stop, s1) ->
  sw_svc s1 = sw_svc s /\ sw_store s1 = sw_store s /\ sw_lastPurgeID s1 = sw_lastPurgeID s.
Proof. unfold ctx_err, mbind, ST_bind, get. destruct (sw_ctx s) as [[|c]|]; by intros [= _ <-]. Qed.

(** The id of the last of these entries. *)
Definition last_id (es : list PurgeLogEntry) (i : Z) : Z := match last es with Some e => p_id e | None => i end.

Lemma drop_logged_run es : forall stalled s r s', drop_logged es stalled s = (r, s') ->
  sw_svc s' = sw_svc s /\ shrinks (sw_store s) (sw_store s') /\
  exists pre post, es = pre ++ post /\ sw_lastPurgeID s' = last_id pre (sw_lastPurgeID s) /\
    (stalled = true -> pre = []) /\ forall e, In e pre -> gone (sw_store s') (p_cache_key e).
Proof.
  induction es as [|e es IH]; intros stalled s r s'; cbn [drop_logged].
  { intros [= <- <-]. split_and!; [done|done|]. by exists [], []. }
  unfold mbind at 1, ST_bind at 1. destruct (ctx_err s) as [[stop|x] s1] eqn:Hc.
  2: { exfalso. revert Hc. unfold ctx_err, mbind, ST_bind, get. by destruct (sw_ctx s) as [[|]|]. }
  apply ctx_err_same in Hc as (<- & <- & <-). destruct stop.
  { intros [= <- <-]. split_and!; [done|done|]. by exists [], (e :: es). }
  unfold mbind at 1, ST_bind at 1, try, sstore, zoom. pose proof (Drop_shrinks (p_cache_key e) (sw_store s1)) as Hsh.
  destruct (Drop (p_cache_key e) (sw_store s1)) as [[x|x] c] eqn:Hd; cbn [fst snd] in Hsh.
  2: { intros Hr. apply IH in Hr as (H1 & H2 & pre & post & -> & Hl & Hst & Hg). rewrite (Hst eq_refl) in *.
       split_and!; [done|by etransitivity|]. by exists [], (e :: post). }
  apply Drop_gone in Hd. unfold mbind, ST_bind. destruct stalled; cbn [mret ST_ret modify]; intros Hr;
    apply IH in Hr as (H1 & H2 & pre & post & -> & Hl & Hst & Hg).
  - rewrite (Hst eq_refl) in *. split_and!; [done|by etransitivity|]. by exists [], (e :: post).
  - split_and!; [done|by etransitivity|]. exists (e :: pre), post. split_and!; [done| |done|].
    + rewrite Hl. unfold last_id. cbn [sw_lastPurgeID put_lastPurgeID]. destruct pre as [|e' pre]; [done|].
      rewrite last_cons_cons. destruct (last (e' :: pre)) eqn:Hx; [done|]. by apply last_None in Hx.
    + intros e' [<-|He']; [by eapply shrinks_gone|by apply Hg].
Qed.

Lemma in_map_inj_nodup {A B} (f : A -> B) l x y : List.NoDup (map f l) -> In x l -> In y l -> f x = f y -> x = y.
Proof.
  induction l as [|z l IH]; [done|]. cbn. inversion 1 as [|? ? Hz Hnd]; subst. intros [<-|Hx] [<-|Hy] Hf; [done| | |auto].
  - exfalso. apply Hz. rewrite Hf. by apply in_map.
  - exfalso. apply Hz. rewrite <- Hf. by apply in_map.
Qed.

(** What one read and its drops do. *)
Lemma purge_round log i n pre post e : List.NoDup (map p_id log) ->
  limit n (order_by (fun a b => p_id a <=? p_id b) (select (fun e => i <? p_id e) log)) = pre ++ post ->
  In e log -> i < p_id e -> p_id e <= last_id pre i -> In e pre.
Proof.
  intros Hnd Hes Hin Hlt Hle. set (sorted := order_by _ _) in Hes.
  assert (exists rest, sorted = pre ++ rest) as [rest Hso].
  { exists (post ++ skipn (Z.to_nat n) sorted). rewrite app_assoc, <- Hes. unfold limit. by rewrite firstn_skipn. }
  assert (In e sorted) as He by (apply order_by_in, in_select; split; [done|by apply Z.ltb_lt]).
  rewrite Hso in He. apply in_app_or in He as [He|He]; [done|].
  unfold last_id in Hle. destruct (last pre) as [x|] eqn:Hx; [|lia].
  assert (In x pre) as Hxp by (apply list_elem_of_In; by apply last_Some_elem_of).
  pose proof (order_by_sorted p_id (select (fun e => i <? p_id e) log)) as Hsrt. fold sorted in Hsrt. rewrite Hso in Hsrt.
  pose proof (StronglySorted_app_1_elem_of _ pre rest x e Hsrt) as Hxe. rewrite !list_elem_of_In in Hxe.
  specialize (Hxe Hxp He). assert (In x log) as Hxl.
  { assert (In x sorted) as Hxs by (rewrite Hso; apply in_or_app; by left). apply order_by_in, in_select in Hxs. tauto. }
  assert (x = e) as <-; [|done]. apply (in_map_inj_nodup p_id log); [done..|lia].
Qed.

Lemma last_id_ge log i n pre post :
  limit n (order_by (fun a b => p_id a <=? p_id b) (select (fun e => i <? p_id e) log)) = pre ++ post ->
  i <= last_id pre i.
Proof.
  intros Hes. unfold last_id. destruct (last pre) as [x|] eqn:Hx; [|lia].
  apply last_Some_elem_of, list_elem_of_In in Hx.
  assert (In x (limit n (order_by (fun a b => p_id a <=? p_id b) (select (fun e => i <? p_id e) log)))) as Hin
    by (rewrite Hes; apply in_or_app; by left).
  unfold limit in Hin. apply list_elem_of_In, (subseteq_take _ _ x), list_elem_of_In, order_by_in, in_select in Hin as [_ Hin]. apply Z.ltb_lt in Hin. lia.
Qed.

Lemma purge_tail_run fuel : forall s r s', List.NoDup (map p_id (cache_purge_log (sw_db s))) ->
  purge_tail fuel s = (r, s') ->
  shrinks (sw_store s) (sw_store s') /\ sw_lastPurgeID s <= sw_lastPurgeID s' /\
  forall e, In e (cache_purge_log (sw_db s)) -> sw_lastPurgeID s < p_id e <= sw_lastPurgeID s' ->
    gone (sw_store s') (p_cache_key e).
Proof.
  assert (forall s s', sw_store s' = sw_store s -> sw_lastPurgeID s' = sw_lastPurgeID s ->
    shrinks (sw_store s) (sw_store s') /\ sw_lastPurgeID s <= sw_lastPurgeID s' /\
    forall e, In e (cache_purge_log (sw_db s)) -> sw_lastPurgeID s < p_id e <= sw_lastPurgeID s' ->
      gone (sw_store s') (p_cache_key e)) as Hsame.
  { intros s s' -> ->. split_and!; [done|lia|lia]. }
  induction fuel as [|fuel IH]; intros s r s' Hnd; cbn [purge_tail]; [intros [= _ <-]; by apply Hsame|].
  unfold mbind at 1, ST_bind at 1, gets. unfold mbind at 1, ST_bind at 1, try at 1, sdb, sw_settings, inner, zoom.
  destruct (PurgeLogSince (sw_lastPurgeID s) cachePurgeBatch (c_db (sw_svc s))) as [[es|x] d] eqn:Hq.
  2: { intros [= _ <-]. by apply Hsame. }
  apply query_ok in Hq as (fs & -> & Hes). destruct (length es =? 0)%nat; [intros [= _ <-]; by apply Hsame|].
  unfold mbind at 1, ST_bind at 1. set (s1 := put_sw_svc _ s). destruct (drop_logged es false s1) as [q s2] eqn:Hd.
  apply drop_logged_run in Hd as (Hsvc & Hsh & pre & post & -> & Hl & _ & Hg).
  cbn [cache_purge_log set_faults] in Hes. change (sw_lastPurgeID s1) with (sw_lastPurgeID s) in Hl.
  change (sw_store s1) with (sw_store s) in Hsh.
  pose proof (last_id_ge _ _ _ _ _ (eq_sym Hes)) as Hge. rewrite <- Hl in Hge.
  assert (forall e, In e (cache_purge_log (sw_db s)) -> sw_lastPurgeID s < p_id e <= sw_lastPurgeID s2 ->
    gone (sw_store s2) (p_cache_key e)) as Hround.
  { intros e He [Hlt Hle]. apply Hg. rewrite Hl in Hle. by eapply purge_round. }
  assert (s' = s2 -> shrinks (sw_store s) (sw_store s') /\ sw_lastPurgeID s <= sw_lastPurgeID s' /\
    forall e, In e (cache_purge_log (sw_db s)) -> sw_lastPurgeID s < p_id e <= sw_lastPurgeID s' ->
      gone (sw_store s') (p_cache_key e)) as Hend by (by intros ->).
  destruct q as [[stalled|]|x]; [|intros [= _ <-]; by apply Hend..].
  destruct (stalled || _); [intros [= _ <-]; by apply Hend|].
  intros Hr. assert (cache_purge_log (sw_db s2) = cache_purge_log (sw_db s)) as Hlog by (unfold sw_db; by rewrite Hsvc).
  apply IH in Hr as (H1 & H2 & H3); [|by rewrite Hlog].
  split; [by etransitivity|]. split; [lia|]. intros e He Hi. destruct (Z.le_gt_cases (p_id e) (sw_lastPurgeID s2)).
  - eapply shrinks_gone; [exact H1|]. apply Hround; [done|lia].
  - apply H3; [by rewrite Hlog|lia].
Qed.

(** C7. The purge mark never runs ahead of the disk: however the tail is cut
    short (a failing read, a failing unlink, a shutdown), every purge logged
    between the old mark and the new one has been applied, so its key is
    neither indexed nor on disk, and none is skipped for good. *)
Theorem purge_tail_sound (fuel : nat) (s : SweepState) (Hnd : List.NoDup (map p_id (cache_purge_log (sw_db s)))) :
  let s' := snd (purge_tail fuel s) in
  sw_lastPurgeID s <= sw_lastPurgeID s' /\
  forall e, In e (cache_purge_log (sw_db s)) -> sw_lastPurgeID s < p_id e <= sw_lastPurgeID s' ->
    gone (sw_store s') (p_cache_key e).
Proof.
  cbv zeta. destruct (purge_tail fuel s) as [r s'] eqn:Hr. apply purge_tail_run in Hr as (_ & H1 & H2); [|done].
  by split.
Qed.

(** Nothing fails and nobody stops the sweeper. *)
Definition calm (s : SweepState) : Prop := io (sw_store s) = [] /\ sw_ctx s = None.

Lemma Drop_calm k c : io c = [] -> exists c', Drop k c = (Ok tt, c') /\ io c' = [].
Proof.
  intros Hio. unfold Drop, unlinkLocked, Remove, try, mbind, ST_bind, get.
  destruct (keyValid k); cbn [negb].
  - rewrite syscall_ok by done. destruct (disk c !! path (root c) k) as [f|]; cbn.
    + destruct (entries c !! k); eexists; by split.
    + rewrite (bool_decide_eq_true_2 (ErrNotExist = ErrNotExist)) by done. cbn. destruct (entries c !! k); eexists; by split.
  - cbn. destruct (entries c !! k); eexists; by split.
Qed.

Lemma ctx_err_calm s : sw_ctx s = None -> ctx_err s = (Ok false, s).
Proof. intros H. unfold ctx_err, mbind, ST_bind, get. by rewrite H. Qed.

Lemma drop_logged_calm es : forall s, calm s -> exists s', drop_logged es false s = (Ok (Some false), s') /\ calm s' /\
  sw_lastPurgeID s' = last_id es (sw_lastPurgeID s).
Proof.
  induction es as [|e es IH]; intros s [Hio Hctx]; cbn [drop_logged]; [by exists s|].
  unfold mbind at 1, ST_bind at 1. rewrite ctx_err_calm by done. unfold mbind at 1, ST_bind at 1, try, sstore, zoom.
  destruct (Drop_calm (p_cache_key e) (sw_store s) Hio) as (c & -> & Hc). unfold mbind, ST_bind, modify.
  destruct (IH (put_lastPurgeID (p_id e) (put_sw_store c s))) as (s' & Hr & Hcalm & Hl); [done|].
  exists s'. split_and!; [done|by destruct Hcalm..|]. rewrite Hl. unfold last_id. cbn.
  destruct es as [|e' es]; [done|]. rewrite last_cons_cons. destruct (last (e' :: es)) eqn:Hx; [done|].
  by apply last_None in Hx.
Qed.

Definition pending (log : list PurgeLogEntry) (i : Z) : list PurgeLogEntry := select (fun e => i <? p_id e) log.

Lemma pending_shrinks log i j : i <= j -> (exists e, In e log /\ i < p_id e <= j) ->
  (length (pending log j) < length (pending log i))%nat.
Proof.
  intros Hij (e & He & Hi). unfold pending, select. induction log as [|x log IH]; [done|]. cbn.
  assert (length (List.filter (fun e => (j <? p_id e)%Z) log) <= length (List.filter (fun e => (i <? p_id e)%Z) log))%nat as Hle.
  { clear -Hij. induction log as [|y log IH]; cbn; [lia|].
    destruct (Z.ltb_spec j (p_id y)), (Z.ltb_spec i (p_id y)); cbn; lia. }
  destruct He as [->|He].
  - destruct (Z.ltb_spec j (p_id e)), (Z.ltb_spec i (p_id e)); cbn; lia.
  - specialize (IH He). destruct (Z.ltb_spec j (p_id x)), (Z.ltb_spec i (p_id x)); cbn; lia.
Qed.

Lemma sorted_last_max log i n e : In e (limit n (order_by (fun a b => p_id a <=? p_id b) (pending log i))) ->
  p_id e <= last_id (limit n (order_by (fun a b => p_id a <=? p_id b) (pending log i))) i.
Proof.
  pose proof (order_by_sorted p_id (pending log i)) as Hs. unfold limit.
  rewrite <- (firstn_skipn (Z.to_nat n)) in Hs. apply StronglySorted_app_1_l in Hs. revert Hs.
  generalize (firstn (Z.to_nat n) (order_by (fun a b => p_id a <=? p_id b) (pending log i))). intros l Hs.
  revert e. unfold last_id. induction Hs as [|x l Hs IH Hx]; [done|]. intros e Hin. destruct l as [|y l]; [destruct Hin as [->|[]]; cbn; lia|].
  rewrite last_cons_cons. destruct Hin as [->|Hin]; [|by apply IH].
  inversion Hx; subst. etransitivity; [done|]. apply IH. by left.
Qed.

Lemma limit_pending log i n e : In e (limit n (order_by (fun a b => p_id a <=? p_id b) (pending log i))) ->
  In e log /\ i < p_id e.
Proof.
  intros Hin. unfold limit in Hin. apply list_elem_of_In, (subseteq_take _ _ e), list_elem_of_In, order_by_in, in_select in Hin.
  by destruct Hin as [H1 H2%Z.ltb_lt].
Qed.

Lemma purge_tail_calm fuel : forall s, calm s -> healthy (sw_db s) ->
  (length (pending (cache_purge_log (sw_db s)) (sw_lastPurgeID s)) < fuel)%nat ->
  exists s', purge_tail fuel s = (Ok true, s') /\ forall e, In e (cache_purge_log (sw_db s)) -> p_id e <= sw_lastPurgeID s'.
Proof.
  induction fuel as [|fuel IH]; intros s Hcalm Hh Hlen; [lia|]. cbn [purge_tail].
  unfold mbind at 1, ST_bind at 1, gets. unfold mbind at 1, ST_bind at 1, try at 1, sdb, sw_settings, inner, zoom.
  unfold PurgeLogSince. change (c_db (sw_svc s)) with (sw_db s). rewrite query_healthy by done.
  fold (pending (cache_purge_log (sw_db s)) (sw_lastPurgeID s)).
  set (log := cache_purge_log (sw_db s)) in *. set (s1 := put_sw_svc _ s).
  pose proof (sorted_last_max log (sw_lastPurgeID s) cachePurgeBatch) as Hmax.
  assert (forall e, In e log -> sw_lastPurgeID s < p_id e -> In e (order_by (fun a b => p_id a <=? p_id b)
    (pending log (sw_lastPurgeID s)))) as Hall.
  { intros e He Hlt. apply order_by_in, in_select. split; [done|by apply Z.ltb_lt]. }
  pose proof (limit_pending log (sw_lastPurgeID s) cachePurgeBatch) as Hpend.
  set (es := limit _ _) in *.
  assert ((length es < Z.to_nat cachePurgeBatch)%nat -> forall e, In e log -> sw_lastPurgeID s < p_id e -> In e es) as Hshort.
  { intros Hl e He Hlt. specialize (Hall e He Hlt). unfold es, limit in *. rewrite length_firstn in Hl.
    by rewrite firstn_all2 by lia. }
  destruct (Nat.eqb_spec (length es) 0) as [Hz|Hz].
  { exists s1. split; [done|]. intros e He. destruct (Z.le_gt_cases (p_id e) (sw_lastPurgeID s)); [done|].
    assert (In e es) as Hin by (apply Hshort; [unfold cachePurgeBatch; lia|done|done]).
    destruct es; [by destruct Hin|done]. }
  unfold mbind at 1, ST_bind at 1. destruct (drop_logged_calm es s1) as (s2 & Hd & Hcalm2 & Hl); [done|].
  rewrite Hd. cbn [orb]. apply drop_logged_run in Hd as (Hsvc & _).
  change (sw_lastPurgeID s1) with (sw_lastPurgeID s) in Hl. rewrite <- Hl in Hmax.
  destruct (Z.ltb_spec (Z.of_nat (length es)) cachePurgeBatch) as [Hb|Hb].
  - exists s2. split; [done|]. intros e He. destruct (Z.le_gt_cases (p_id e) (sw_lastPurgeID s)) as [Hle|Hlt].
    + assert (exists e0, In e0 es) as [e0 H0] by (destruct es as [|e0]; [done|exists e0; by left]).
      destruct (Hpend e0 H0). specialize (Hmax e0 H0). lia.
    + apply Hmax, Hshort; [lia|done|done].
  - assert (exists e0, In e0 es) as [e0 H0] by (destruct es as [|e0]; [done|exists e0; by left]).
    destruct (Hpend e0 H0) as [Hin0 Hlt0]. specialize (Hmax e0 H0).
    assert (cache_purge_log (sw_db s2) = log) as Hlog by (unfold sw_db; by rewrite Hsvc).
    rewrite <- Hlog. apply IH; [done|unfold sw_db; by rewrite Hsvc|]. rewrite Hlog.
    eapply Nat.lt_le_trans; [|apply Nat.lt_succ_r, Hlen]. apply pending_shrinks; [lia|by exists e0].
Qed.

(** Deletes propagate: when nothing fails, one tick applies every purge in
    the log that is newer than the mark, in as many reads of 500 as it takes,
    and leaves the mark at the end of the log. *)
Theorem purge_tail_complete (s : SweepState) (Hcalm : calm s) (Hdb : healthy (sw_db s))
    (Hnd : List.NoDup (map p_id (cache_purge_log (sw_db s)))) :
  exists s', purge_tail (S (length (cache_purge_log (sw_db s)))) s = (Ok true, s') /\
    forall e, In e (cache_purge_log (sw_db s)) -> p_id e <= sw_lastPurgeID s' /\
      (sw_lastPurgeID s < p_id e -> gone (sw_store s') (p_cache_key e)).
Proof.
  destruct (purge_tail_calm (S (length (cache_purge_log (sw_db s)))) s) as (s' & Hr & Hall); [done|done| |].
  { unfold pending, select. pose proof (filter_length_le (fun e => sw_lastPurgeID s <? p_id e) (cache_purge_log (sw_db s))). lia. }
  exists s'. split; [done|]. intros e He. split; [by apply Hall|]. intros Hlt.
  apply purge_tail_run in Hr as (_ & _ & Hg); [|done]. apply Hg; [done|]. specialize (Hall e He). lia.
Qed.

(** ** Termination *)

Lemma evict_victims_count stop vs : forall s n b, exists m b' s',
  evict_victims stop vs n b s = (Ok (m, b'), s') /\ n <= m /\
  Z.of_nat (size (entries s')) = Z.of_nat (size (entries s)) - (m - n).
Proof.
  induction vs as [|v vs IH]; intros s n b; cbn [evict_victims].
  { exists n, b, s. split_and!; [done|lia|lia]. }
  unfold mbind at 1, ST_bind at 1, get. destruct (stop v s); [exists n, b, s; split_and!; [done|lia|lia]|].
  unfold mbind at 1, ST_bind at 1. pose proof (DropGen_cases (v_Key v) (v_Gen v) s) as Hc.
  destruct (DropGen (v_Key v) (v_Gen v) s) as [[d|x] s1] eqn:Hd.
  - destruct d.
    + destruct Hc as ((e & He & _) & E & _). destruct (IH s1 (n + 1) (add64 b (v_Size v))) as (m & b' & s' & Hr & Hm & Hs).
      exists m, b', s'. split_and!; [done|lia|]. rewrite Hs, E.
      assert (size (delete (v_Key v) (entries s)) = pred (size (entries s))) as Hsz by (apply map_size_delete_Some; eauto).
      assert (size (entries s) <> 0%nat) by (apply map_size_ne_0_lookup; eauto). lia.
    + destruct Hc as [(E & _) _]. destruct (IH s1 n b) as (m & b' & s' & Hr & Hm & Hs). exists m, b', s'.
      by rewrite Hs, E.
  - exfalso. revert Hd. unfold DropGen, mbind, ST_bind, get, try. destruct (entries s !! v_Key v); [|done].
    destruct (negb _); [done|]. by destruct (unlinkLocked (v_Key v) s) as [[]?].
Qed.

Lemma ctx_err_total s : exists c s1, ctx_err s = (Ok c, s1).
Proof. unfold ctx_err, mbind, ST_bind, get. destruct (sw_ctx s) as [[|c]|]; eauto. Qed.

(** The eviction loops terminate, whatever fails and however the disk-pressure
    readings change between rounds: a round that goes on has dropped an entry,
    so with as many rounds as there are entries, plus one, the result no longer
    depends on the bound. *)
Theorem evict_loop_terminates (enough : SweepM bool) (batch : Z) (stop : Victim -> Store -> bool)
    (He : forall s, exists e s', enough s = (Ok e, s') /\ sw_store s' = sw_store s) :
  forall (s : SweepState) (more : nat) (n b : Z),
    evict_loop (loop_fuel s + more) enough (step batch stop) n b s =
    evict_loop (loop_fuel s) enough (step batch stop) n b s.
Proof.
  assert (forall f1 f2 s n b, (size (entries (sw_store s)) < f1)%nat -> (size (entries (sw_store s)) < f2)%nat ->
    evict_loop f1 enough (step batch stop) n b s = evict_loop f2 enough (step batch stop) n b s) as Hgen.
  2: { intros s more n b. apply Hgen; unfold loop_fuel; lia. }
  induction f1 as [|f1 IH]; intros f2 s n b H1 H2; [lia|]. destruct f2 as [|f2]; [lia|]. cbn [evict_loop].
  destruct (ctx_err_total s) as (c & s1 & Hc). rewrite !(bind_run _ _ _ _ _ Hc).
  apply ctx_err_same in Hc as (_ & Hst & _). destruct c; [done|].
  destruct (He s1) as (e & s2 & Hen & Hst2). rewrite !(bind_run _ _ _ _ _ Hen). destruct e; [done|].
  destruct (evict_victims_count stop (Oldest batch (sw_store s2)) (sw_store s2) 0 0) as (m & b' & c & Hr & Hm & Hsz).
  assert (step batch stop s2 = (Ok (m, b'), put_sw_store c s2)) as Hstep.
  { unfold step, sstore, zoom. change ((vs ← gets (Oldest batch); evict_victims stop vs 0 0) (sw_store s2)) with
      (evict_victims stop (Oldest batch (sw_store s2)) 0 0 (sw_store s2)). by rewrite Hr. }
  rewrite !(bind_run _ _ _ _ _ Hstep). destruct (Z.eqb_spec m 0); [done|]. rewrite Hst2, Hst in Hsz.
  unfold mbind, ST_bind, batchPause, modify. apply IH; cbn; lia.
Qed.

(** ** Witnesses *)

Definition key1 : string := "1111111111111111".
Definition key2 : string := "2222222222222222".

(** Two cached files: key1 read at time 3, key2 at time 8. *)
Definition sweep_store (l : list (option string)) : Store :=
  mkStore "/c" {[key1 := mkEntry 10 3 1; key2 := mkEntry 20 8 2]} 30 true 2 no_metrics
    {[path "/c" key1 := mkFile true 10 ""; path "/c" key2 := mkFile true 20 ""]} 9 l.

(** key1 belongs to a private row; key2 to none. *)
Definition sweep_db (sets : list (string * string)) (log : list PurgeLogEntry) : Db :=
  set_settings sets (set_cache_purge_log log (set_uploads [set_u_cache_key (Some key1) paid_upload] queue_db)).

Definition sweep_state (d : Db) (st : Store) (private : bool) (last : option Z) : SweepState :=
  mkSweep (mkCached d ∅) st 0 false None last private (Some 25) 100 no_metrics [] None.

Definition keys_left (s : SweepState) : list string := map fst (map_to_list (entries (sw_store s))).

Example sweepInactive_exact_witness :
  exists s', sweepInactive 5 (sweep_state (sweep_db [] []) (sweep_store []) false None) = (Ok tt, s') /\
    entries (sw_store s') = filter (fun '(_, e) => 5 <= e_lastAccess e) (entries (sweep_store [])).
Proof.
  apply (sweepInactive_exact 5 (sweep_state (sweep_db [] []) (sweep_store []) false None)); reflexivity.
Defined.

(** The budget is 25 and an object at most 64 MiB, so the mark is 13. *)
Example budget_evicts_oldest :
  keys_left (snd (sweepBudget (sweep_state (sweep_db [] []) (sweep_store []) false None))) = [] /\
  keys_left (snd (sweepBudget (sweep_state (sweep_db [("download_cache_max_object_bytes", "1")] []) (sweep_store []) false None))) = [key2].
Proof. split; vm_compute; reflexivity. Qed.

Lemma sweep_store_indexed l : indexed (sweep_store l).
Proof.
  split; [reflexivity|]. intros k e. unfold sweep_store. cbn [entries].
  rewrite lookup_insert_Some, lookup_singleton_Some. intros [[<- _]|[_ [<- _]]]; reflexivity.
Qed.

Example sweepBudget_headroom_witness :
  let s := sweep_state (sweep_db [] []) (sweep_store []) false None in
  exists dbBudget maxObject c1 c2 s',
    GetIntWithBounds "download_cache_max_bytes" 0 0 (2 ^ 50) (sw_svc s) = (Ok dbBudget, c1) /\
    GetIntWithBounds "download_cache_max_object_bytes" (64 * 2 ^ 20) 1 (2 ^ 40) c1 = (Ok maxObject, c2) /\
    sweepBudget s = (Ok tt, s') /\
    evicted (fun _ => True) (entries (sw_store s)) (entries (sw_store s')) /\
    let budget := default dbBudget (sw_DownloadCacheMaxBytes s) in
    (0 <= budget -> bytes (sw_store s') + Z.min (Z.max (budget / 10) maxObject) (budget / 2) <= budget) /\
    (bytes (sw_store s) <= budget_target budget maxObject -> sw_store s' = sw_store s).
Proof.
  intros s. apply (sweepBudget_headroom s); [reflexivity|reflexivity|reflexivity|apply sweep_store_indexed].
Defined.

Definition reconciled (private : bool) : SweepState :=
  snd (reconcile private (sweep_state (sweep_db [] [mkPurgeLogEntry 4 key2 0]) (sweep_store []) false None)).

Example reconcile_erases_witness :
  let s := sweep_state (sweep_db [] [mkPurgeLogEntry 4 key2 0]) (sweep_store []) false None in
  ((forall k e, entries (sw_store (reconciled true)) !! k = Some e <->
      entries (sw_store s) !! k = Some e /\ cacheable (sw_db s) true k) /\
   (accounted (sw_store s) -> forall k f, keyValid k = true ->
      disk (sw_store (reconciled true)) !! path (root (sw_store s)) k = Some f -> cacheable (sw_db s) true k) /\
   sw_lastPurgeID (reconciled true) = 4) /\
  keys_left (reconciled true) = [key1] /\ keys_left (reconciled false) = [].
Proof.
  intros s. split; [|split; vm_compute; reflexivity].
  apply (reconcile_erases true s (reconciled true)). vm_compute. reflexivity.
Defined.

Definition purge_state (l : list (option string)) : SweepState :=
  sweep_state (sweep_db [] [mkPurgeLogEntry 1 key1 0; mkPurgeLogEntry 2 key2 0]) (sweep_store l) false (Some 0).

Lemma purge_state_nodup l : List.NoDup (map p_id (cache_purge_log (sw_db (purge_state l)))).
Proof. cbn. repeat constructor; cbn; lia. Qed.

(** The unlink of key1 fails: key2 is purged, the mark stays. *)
Example purge_tail_sound_witness :
  (let s := purge_state [Some "EBUSY"] in let s' := snd (purge_tail 3 s) in
   sw_lastPurgeID s <= sw_lastPurgeID s' /\
   forall e, In e (cache_purge_log (sw_db s)) -> sw_lastPurgeID s < p_id e <= sw_lastPurgeID s' ->
     gone (sw_store s') (p_cache_key e)) /\
  keys_left (snd (purge_tail 3 (purge_state [Some "EBUSY"]))) = [key1].
Proof.
  split; [|vm_compute; reflexivity]. apply (purge_tail_sound 3 (purge_state [Some "EBUSY"])), purge_state_nodup.
Defined.

Example purge_tail_complete_witness :
  exists s', purge_tail 3 (purge_state []) = (Ok true, s') /\
    forall e, In e (cache_purge_log (sw_db (purge_state []))) -> p_id e <= sw_lastPurgeID s' /\
      (sw_lastPurgeID (purge_state []) < p_id e -> gone (sw_store s') (p_cache_key e)).
Proof. apply (purge_tail_complete (purge_state [])); [by split|reflexivity|apply purge_state_nodup]. Defined.

Lemma no_pressure_store s : exists e s', no_pressure s = (Ok e, s') /\ sw_store s' = sw_store s.
Proof.
  unfold no_pressure, usage, mbind, ST_bind, get. destruct (sw_usage s) as [|[[t u] ok] rest]; cbn; eauto.
Qed.

(** The volume stays above 90% for two rounds. *)
Definition full_volume : SweepState :=
  put_env [(100, 95, true); (100, 93, true); (100, 80, true)] None
    (sweep_state (sweep_db [] []) (sweep_store []) false None).

Example evict_loop_terminates_witness :
  evict_loop (loop_fuel full_volume + 7) no_pressure (step 1 (fun _ _ => false)) 0 0 full_volume =
  evict_loop (loop_fuel full_volume) no_pressure (step 1 (fun _ _ => false)) 0 0 full_volume /\
  loop_fuel full_volume = 3%nat /\
  keys_left (snd (evict_loop 3 no_pressure (step 1 (fun _ _ => false)) 0 0 full_volume)) = [].
Proof.
  split; [|split; vm_compute; reflexivity].
  apply (evict_loop_terminates no_pressure 1 (fun _ _ => false) no_pressure_store full_volume).
Defined.

(** ** Two gaps in the purge propagation *)

(** An opt-out of private caching whose unlink fails once: the next tick, with
    everything healthy again, does not retry it. *)
Definition opted_out : SweepState :=
  sweep_state (sweep_db [("download_cache_private", "false")] [])
    (mkStore "/c" {[key1 := mkEntry 10 3 1]} 10 true 1 no_metrics {[path "/c" key1 := mkFile true 10 ""]} 9 [Some "EBUSY"])
    true (Some (50 * second)).

Example optout_not_retried :
  let s1 := snd (propagatePurges opted_out) in
  let s2 := snd (propagatePurges s1) in
  (io (sw_store s1), keys_left s1, keys_left s2) = ([], [key1], [key1]).
Proof. vm_compute. reflexivity. Qed.

(** One key that cannot be unlinked, 500 purges after it, and a purge of key2:
    key2 stays cached tick after tick. *)
Definition stuck_log : list PurgeLogEntry :=
  mkPurgeLogEntry 1 key1 0 :: map (fun i => mkPurgeLogEntry (2 + Z.of_nat i) "-" 0) (seq 0 499)
  ++ [mkPurgeLogEntry 501 key2 0].

Definition stuck_state : SweepState :=
  sweep_state (sweep_db [] stuck_log) (sweep_store [Some "EBUSY"; Some "EBUSY"]) false (Some (50 * second)).

Example stuck_key_delays_later_purges :
  let s1 := snd (propagatePurges stuck_state) in
  let s2 := snd (propagatePurges s1) in
  (keys_left s1, keys_left s2, sw_lastPurgeID s2) = ([key1; key2], [key1; key2], 0) \/
  (keys_left s1, keys_left s2, sw_lastPurgeID s2) = ([key2; key1], [key2; key1], 0).
Proof. vm_compute. auto. Qed.
