(* ===== verification/AuditLog.v ===== *)
(** * The audit log and its hash chain

    src/internal/services/log.go and file_access.go: the chained writes, the
    verification against the latest anchor, the plain logs, the filters and the
    retention. [LogTables] holds the tables; [auditChainMu] makes a write one
    step of a process. *)

From S2P Require Import Prelude GoLib Hex Sql Stmt Clock.
From Stdlib Require Import Ascii.
From stdpp Require Import pretty.

Open Scope Z_scope.

(** ** Rows *)

(** A row of audit_log or of file_access_log (which has no hashes). *)
Record AuditRow := mkAudit {
  a_id : Z;
  a_event_type : string;
  a_severity : string;
  a_user_id : option Z;
  a_detail : string;
  a_ip_address : option string;
  a_user_agent : option string;
  a_request_id : string;
  a_created_at : string;   (* as stored *)
  a_prev_hash : string;
  a_row_hash : string;
}.

Record AuditAnchor := mkAnchor {
  an_ID : Z;
  an_HeadHash : string;
  an_RowCount : Z;
  an_NetworkAddress : string;
  an_TxHash : string;
  an_AnchoredAt : string;
}.

Record SystemRow := mkSystem {
  s_id : Z;
  s_level : string;
  s_component : string;
  s_message : string;
  s_detail : option string;
  s_request_id : string;
  s_created_at : string;
}.

Record LogTables := mkLogs {
  audit_log : list AuditRow;
  seq_audit : Z;
  audit_anchors : list AuditAnchor;
  seq_anchors : Z;
  system_log : list SystemRow;
  seq_system : Z;
  file_access_log : list AuditRow;
  seq_access : Z;
  clock : Civil;
}.

#[export] Instance AuditRow_keyed : Keyed AuditRow := a_id.
#[export] Instance AuditAnchor_keyed : Keyed AuditAnchor := an_ID.

Abbreviation LogM := (ST error (World LogTables)).

Definition put_audit_log (v : list AuditRow) (n : Z) (t : LogTables) : LogTables :=
  mkLogs v n (audit_anchors t) (seq_anchors t) (system_log t) (seq_system t) (file_access_log t) (seq_access t) (clock t).
Definition put_anchors (v : list AuditAnchor) (n : Z) (t : LogTables) : LogTables :=
  mkLogs (audit_log t) (seq_audit t) v n (system_log t) (seq_system t) (file_access_log t) (seq_access t) (clock t).
Definition put_system_log (v : list SystemRow) (n : Z) (t : LogTables) : LogTables :=
  mkLogs (audit_log t) (seq_audit t) (audit_anchors t) (seq_anchors t) v n (file_access_log t) (seq_access t) (clock t).
Definition put_access_log (v : list AuditRow) (n : Z) (t : LogTables) : LogTables :=
  mkLogs (audit_log t) (seq_audit t) (audit_anchors t) (seq_anchors t) (system_log t) (seq_system t) v n (clock t).

(** ** The chain *)

Definition auditGenesisHash : string := "".

Definition nul : ascii := ascii_of_N 0.

(** Each field followed by a NUL byte. *)
Definition framed (fields : list string) : string :=
  fold_right (fun f rest => f +:+ String nul rest) "" fields.

Definition auditRowHash (prevHash eventType severity userID detail ipAddress userAgent requestID : string) : string :=
  sha256_hex (framed [prevHash; eventType; severity; userID; detail; ipAddress; userAgent; requestID]).

(** [strconv.FormatInt(id, 10)], and the empty text for NULL. *)
Definition user_text (u : option Z) : string := match u with Some id => pretty id | None => "" end.

Definition chained (r : AuditRow) : bool := negb (String.eqb (a_row_hash r) "").

Definition id_asc (a b : AuditRow) : bool := a_id a <=? a_id b.
Definition id_desc (a b : AuditRow) : bool := a_id b <=? a_id a.

(** [SELECT row_hash ... WHERE row_hash != '' ORDER BY id DESC LIMIT 1]. *)
Definition chain_head (t : LogTables) : option string :=
  a_row_hash <$> head (limit 1 (order_by id_desc (select chained (audit_log t)))).

Definition insert_audit (r : Z -> string -> AuditRow) (t : LogTables) : LogTables :=
  let id := seq_audit t + 1 in
  put_audit_log (audit_log t ++ [r id (db_text (clock t))]) id t.

Definition WriteAudit (eventType severity : string) (userID : option Z)
    (detail ipAddress userAgent requestID : string) : LogM unit :=
  let userIDStr := user_text userID in
  r ← try (read_row chain_head);
  prevHash ← match r with
             | Ok h => mret h
             | Err err => if errors_is err ErrNoRows then mret auditGenesisHash else fail err
             end;
  let rowHash := auditRowHash prevHash eventType severity userIDStr detail ipAddress userAgent requestID in
  write (insert_audit (fun id at_ =>
    mkAudit id eventType severity userID detail (Some ipAddress) (Some userAgent) requestID at_ prevHash rowHash)).

Record AuditChainResult := mkChainResult {
  Intact : bool;
  Count : Z;
  BrokenAt : Z;
  AnchorChecked : bool;
  AnchorMatches : bool;
  AnchorAddress : string;
  AnchoredAt : string;
}.

Definition anchor_newest (a b : AuditAnchor) : bool := an_ID b <=? an_ID a.

Definition LatestAuditAnchor : LogM (option AuditAnchor) :=
  r ← try (read_row (fun t => head (limit 1 (order_by anchor_newest (audit_anchors t)))));
  match r with
  | Ok a => mret (Some a)
  | Err err => if errors_is err ErrNoRows then mret None else fail err
  end.

(** A NULL address or agent scans to the empty string. *)
Definition row_digest (prev : string) (r : AuditRow) : string :=
  auditRowHash prev (a_event_type r) (a_severity r) (user_text (a_user_id r)) (a_detail r)
    (default "" (a_ip_address r)) (default "" (a_user_agent r)) (a_request_id r).

(** The walk: the id of the first bad row and the rows before it, or the count
    and the head at the anchored count. *)
Fixpoint verify_rows (anchorCount : option Z) (rows : list AuditRow) (prev : string) (count : Z)
  (headAtAnchorCount : string) : (Z * Z) + (Z * string) :=
  match rows with
  | [] => inr (count, headAtAnchorCount)
  | r :: rest =>
      let expected := row_digest prev r in
      if negb (String.eqb (a_prev_hash r) prev) || negb (String.eqb (a_row_hash r) expected)
      then inl (a_id r, count)
      else
        let count := count + 1 in
        let h := if bool_decide (anchorCount = Some count) then a_row_hash r else headAtAnchorCount in
        verify_rows anchorCount rest (a_row_hash r) count h
  end.

Definition chain_rows (t : LogTables) : list AuditRow := order_by id_asc (select chained (audit_log t)).

Definition VerifyAuditChain : LogM AuditChainResult :=
  rows ← read chain_rows;
  r ← try LatestAuditAnchor;
  let anchor := match r with Ok a => a | Err _ => None end in
  match verify_rows (an_RowCount <$> anchor) rows auditGenesisHash 0 "" with
  | inl (id, count) => mret (mkChainResult false count id false false "" "")
  | inr (count, headAtAnchorCount) =>
      match anchor with
      | None => mret (mkChainResult true count 0 false false "" "")
      | Some a =>
          mret (mkChainResult true count 0 true
            (negb (String.eqb headAtAnchorCount "") && String.eqb headAtAnchorCount (an_HeadHash a))
            (an_NetworkAddress a) (an_AnchoredAt a))
      end
  end.

Definition AuditChainHead : LogM (string * Z) :=
  count ← read (fun t => affected chained (audit_log t));
  if count =? 0 then mret ("", 0) else
  headHash ← read_row chain_head;
  mret (headHash, count).

Definition RecordAuditAnchor (headHash : string) (rowCount : Z) (networkAddress txHash : string) : LogM unit :=
  write (fun t =>
    let id := seq_anchors t + 1 in
    put_anchors (audit_anchors t ++ [mkAnchor id headHash rowCount networkAddress txHash (db_text (clock t))]) id t).

(** ** The plain logs *)

Definition WriteSystem (level component message detail requestID : string) : LogM unit :=
  let d := if String.eqb detail "" then None else Some detail in
  write (fun t =>
    let id := seq_system t + 1 in
    put_system_log (system_log t ++ [mkSystem id level component message d requestID (db_text (clock t))]) id t).

Definition WriteFileAccess (eventType severity : string) (userID : option Z)
    (detail ipAddress userAgent requestID : string) : LogM unit :=
  write (fun t =>
    let id := seq_access t + 1 in
    put_access_log (file_access_log t ++
      [mkAudit id eventType severity userID detail (Some ipAddress) (Some userAgent) requestID (db_text (clock t)) "" ""]) id t).

(** ** Filters and listings *)

Definition since_ok (since : option Civil) (at_ : string) : bool :=
  match since with None => true | Some s => text_le (iso_text s) at_ end.
Definition until_ok (until : option Civil) (at_ : string) : bool :=
  match until with None => true | Some u => text_le at_ (iso_text u) end.
Definition text_filter (want have : string) : bool := String.eqb want "" || String.eqb have want.
Definition id_filter (want have : option Z) : bool :=
  match want with None => true | Some i => bool_decide (have = Some i) end.

Definition buildLogFilter (eventType severity : string) (userID : option Z) (since until : option Civil)
    (r : AuditRow) : bool :=
  text_filter eventType (a_event_type r) && text_filter severity (a_severity r) &&
  id_filter userID (a_user_id r) && since_ok since (a_created_at r) && until_ok until (a_created_at r).

Definition page_limit (n : Z) : Z := if (n <=? 0) || (100 <? n) then 50 else n.

Definition ExportMaxRows : Z := 1000000.

Definition ErrExportCapExceeded : error := ENew "export exceeded cap of %d rows; narrow the date range and retry".

(** The listings and exports of the log tables differ in the table, the filter
    and the columns alone. *)
Section listing.
Context {S A : Type} (tb : Table S A) (created_at : A -> string).

Definition newest (a b : A) : bool := text_le (created_at b) (created_at a).

(** The count's error is dropped: the total is then 0. *)
Definition list_page (p : A -> bool) (n off : Z) : ST error S (list A * Z) :=
  let n := page_limit n in
  r ← try (scan tb (affected p));
  let total := match r with Ok x => x | Err _ => 0 end in
  rows ← scan tb (fun t => limit n (offset off (order_by newest (select p t))));
  mret (rows, total).

(** The rows [emit] took (it may stop the walk) and the outcome. *)
Fixpoint stream_rows (emit : A -> option error) (rows : list A) (n : Z) : list A * (Z * option error) :=
  match rows with
  | [] => ([], (n, None))
  | r :: rest =>
      let n := n + 1 in
      if ExportMaxRows <? n then ([], (ExportMaxRows, Some ErrExportCapExceeded)) else
      match emit r with
      | Some err => ([], (n, Some err))
      | None => let '(out, res) := stream_rows emit rest n in (r :: out, res)
      end
  end.

(** [columns]: what the SELECT leaves of a row. *)
Definition stream_page (columns : A -> A) (p : A -> bool) (emit : A -> option error) : ST error S (list A * (Z * option error)) :=
  rows ← scan tb (fun t => map columns (limit (ExportMaxRows + 1) (order_by newest (select p t))));
  mret (stream_rows emit rows 0).
End listing.

Definition audit_table : Table (World LogTables) AuditRow := world_table audit_log.
Definition file_access_table : Table (World LogTables) AuditRow := world_table file_access_log.
Definition system_table : Table (World LogTables) SystemRow := world_table system_log.

Definition QueryAuditLogs (eventType severity : string) (userID : option Z) (since until : option Civil) (n off : Z) :=
  list_page audit_table a_created_at (buildLogFilter eventType severity userID since until) n off.

Definition QueryUserActivity (severity : string) (userID : option Z) (since until : option Civil) (n off : Z) :=
  QueryAuditLogs "" severity userID since until n off.

Definition QueryFileAccessLogs (eventType severity : string) (userID : option Z) (since until : option Civil) (n off : Z) :=
  list_page file_access_table a_created_at (buildLogFilter eventType severity userID since until) n off.

(** The exports do not select request_id, nor the hashes. *)
Definition export_columns (r : AuditRow) : AuditRow :=
  mkAudit (a_id r) (a_event_type r) (a_severity r) (a_user_id r) (a_detail r) (a_ip_address r) (a_user_agent r) "" (a_created_at r) "" "".

Definition StreamAuditLogs (eventType severity : string) (userID : option Z) (since until : option Civil)
    (emit : AuditRow -> option error) : LogM (list AuditRow * (Z * option error)) :=
  stream_page audit_table a_created_at export_columns (buildLogFilter eventType severity userID since until) emit.

Definition StreamFileAccessLogs (eventType severity : string) (userID : option Z) (since until : option Civil)
    (emit : AuditRow -> option error) : LogM (list AuditRow * (Z * option error)) :=
  stream_page file_access_table a_created_at export_columns (buildLogFilter eventType severity userID since until) emit.

(** [cutoff]: the current time less the retention, in days. *)
Definition CleanupOldLogs (cutoff : Civil) : LogM Z :=
  write_ret (fun t =>
    let old r := text_lt (s_created_at r) (db_text cutoff) in
    (affected old (system_log t), put_system_log (delete_where old (system_log t)) (seq_system t) t)).
