(* ===== verification/AuditChain.v ===== *)
(** * The audit chain: what it guarantees

    Every history of operations keeps the chain intact, and a verification that
    matches the anchor pins every row up to the anchored count. *)

From S2P Require Import Prelude GoLib Hex Sql Stmt Clock AuditLog.
From Stdlib Require Import Ascii.
From stdpp Require Import pretty.

Open Scope Z_scope.

(** ** Framing *)

Definition nul_free (s : string) : bool := string_forallb (fun c => negb (Ascii.eqb c nul)) s.

Lemma frame_inj f g x y : nul_free f = true -> nul_free g = true ->
  f +:+ String nul x = g +:+ String nul y -> f = g /\ x = y.
Proof.
  revert g. induction f as [|c f IH]; intros [|d g]; cbn.
  - by intros _ _ [= <-].
  - intros _ [Hd _]%andb_prop [= <- _]. by rewrite Ascii.eqb_refl in Hd.
  - intros [Hc _]%andb_prop _ [= -> _]. by rewrite Ascii.eqb_refl in Hc.
  - intros [_ Hf]%andb_prop [_ Hg]%andb_prop [= -> H]. destruct (IH g Hf Hg H) as [-> ->]. done.
Qed.

Lemma framed_inj fs : forall gs, forallb nul_free fs = true -> forallb nul_free gs = true ->
  framed fs = framed gs -> fs = gs.
Proof.
  induction fs as [|f fs IH]; intros [|g gs]; cbn; [done|by destruct g|by destruct f|].
  intros [Hf Hfs]%andb_prop [Hg Hgs]%andb_prop H.
  apply frame_inj in H as [-> H]; [|done..]. f_equal. by apply IH.
Qed.

Lemma hex_nul_free s : string_forallb is_lower_hex s = true -> nul_free s = true.
Proof.
  unfold nul_free. induction s as [|c s IH]; cbn [string_forallb]; [done|]. intros [Hc Hs]%andb_prop. rewrite IH, andb_true_r by done.
  destruct (Ascii.eqb_spec c nul) as [->|]; [|done]. done.
Qed.

(** ** Chains *)

(** What a row says, apart from its id, its date and its hashes. *)
Definition content (r : AuditRow) : list string :=
  [a_event_type r; a_severity r; user_text (a_user_id r); a_detail r;
   default "" (a_ip_address r); default "" (a_user_agent r); a_request_id r].

Lemma row_digest_content prev r : row_digest prev r = sha256_hex (framed (prev :: content r)).
Proof. done. Qed.

Fixpoint chain (prev : string) (rows : list AuditRow) : Prop :=
  match rows with
  | [] => True
  | r :: rest => a_prev_hash r = prev /\ a_row_hash r = row_digest prev r /\ chain (a_row_hash r) rest
  end.

Definition end_hash (prev : string) (rows : list AuditRow) : string :=
  fold_left (fun _ r => a_row_hash r) rows prev.

Lemma end_hash_snoc prev rows r : end_hash prev (rows ++ [r]) = a_row_hash r.
Proof. unfold end_hash. by rewrite fold_left_app. Qed.

Lemma chain_snoc rows : forall prev r, chain prev (rows ++ [r]) <->
  chain prev rows /\ a_prev_hash r = end_hash prev rows /\ a_row_hash r = row_digest (end_hash prev rows) r.
Proof.
  induction rows as [|x rows IH]; intros prev r; cbn; [naive_solver|]. rewrite IH. unfold end_hash. naive_solver.
Qed.

Lemma chain_app rows1 : forall prev rows2, chain prev (rows1 ++ rows2) ->
  chain prev rows1 /\ chain (end_hash prev rows1) rows2.
Proof.
  induction rows1 as [|x rows1 IH]; intros prev rows2; cbn; [done|]. intros (H1 & H2 & H3).
  apply IH in H3 as [H3 H4]. unfold end_hash. naive_solver.
Qed.

(** The head at the anchored count, as the walk records it. *)
Definition head_at (ac : option Z) (rows : list AuditRow) (count : Z) (h : string) : string :=
  match ac with
  | Some n => if (count <? n) && (n <=? count + Z.of_nat (length rows))
              then end_hash h (firstn (Z.to_nat (n - count)) rows) else h
  | None => h
  end.

Lemma verify_rows_intact ac rows : forall prev count h, verify_rows ac rows prev count h =
  inr (count + Z.of_nat (length rows), head_at ac rows count h) <-> chain prev rows.
Proof.
  induction rows as [|r rows IH]; intros prev count h; cbn [verify_rows chain].
  { split; [done|]. intros _. cbn [length]. unfold head_at. rewrite Z.add_0_r. destruct ac as [n|]; [|done].
    destruct (Z.ltb_spec count n), (Z.leb_spec n (count + Z.of_nat (length (@nil AuditRow)))); try done. cbn in *. lia. }
  destruct (String.eqb_spec (a_prev_hash r) prev) as [<-|Hne]; cbn [negb orb]; [|by split; [|intros []]].
  destruct (String.eqb_spec (a_row_hash r) (row_digest (a_prev_hash r) r)) as [Hh|Hne]; cbn [negb]; [|by split; [|intros (_ & ? & _)]].
  rewrite <- (IH (a_row_hash r) (count + 1) (if bool_decide (ac = Some (count + 1)) then a_row_hash r else h)).
  replace (count + 1 + Z.of_nat (length rows)) with (count + Z.of_nat (length (r :: rows))) by (cbn [length]; lia).
  assert (head_at ac rows (count + 1) (if bool_decide (ac = Some (count + 1)) then a_row_hash r else h)
          = head_at ac (r :: rows) count h) as <-; [|naive_solver].
  unfold head_at. destruct ac as [n|]; [|done]. cbn [length].
  destruct (decide (n = count + 1)) as [->|Hn].
  - rewrite (bool_decide_eq_true_2 (Some (count + 1) = Some (count + 1))) by done.
    rewrite Z.ltb_irrefl. cbn [andb]. rewrite (proj2 (Z.ltb_lt count (count + 1))) by lia.
    rewrite (proj2 (Z.leb_le _ _)) by lia. cbn [andb].
    replace (Z.to_nat (count + 1 - count)) with 1%nat by lia. by cbn.
  - rewrite (bool_decide_eq_false_2 (Some n = Some (count + 1))) by congruence.
    destruct (Z.ltb_spec (count + 1) n), (Z.ltb_spec count n), (Z.leb_spec n (count + 1 + Z.of_nat (length rows))),
      (Z.leb_spec n (count + Z.of_nat (S (length rows)))); cbn [andb]; try lia; try done.
    replace (Z.to_nat (n - count)) with (S (Z.to_nat (n - (count + 1)))) by lia. cbn [firstn]. unfold end_hash. cbn [fold_left].
    destruct (Z.to_nat (n - (count + 1))) as [|m] eqn:Em; [lia|]. destruct rows as [|r' rows]; [cbn in *; lia|]. done.
Qed.

Lemma verify_rows_sum ac rows : forall prev count h,
  (exists id c, verify_rows ac rows prev count h = inl (id, c)) \/
  (verify_rows ac rows prev count h = inr (count + Z.of_nat (length rows), head_at ac rows count h) /\ chain prev rows).
Proof.
  intros prev count h.
  destruct (verify_rows ac rows prev count h) as [[id c]|[c x]] eqn:E; [eauto|right].
  revert prev count h E. induction rows as [|r rows IH]; intros prev count h; cbn [verify_rows].
  { intros [= <- <-]. split; [|done]. change (verify_rows ac [] prev count h = inr (count + Z.of_nat (length (@nil AuditRow)), head_at ac [] count h)).
    by apply verify_rows_intact. }
  destruct (negb _ || negb _) eqn:Hc; [done|]. intros E. pose proof E as E'. apply IH in E as [Heq Hch].
  rewrite orb_false_iff, !negb_false_iff, !String.eqb_eq in Hc. destruct Hc as [Hp Hr].
  assert (chain prev (r :: rows)) as Hch' by done.
  split; [|done]. rewrite <- E'. etransitivity; [|apply (verify_rows_intact ac (r :: rows) prev count h), Hch'].
  cbn [verify_rows]. by rewrite Hp, Hr, <- Hr, !String.eqb_refl.
Qed.

(** ** The invariant *)

Definition ids_ascend (a b : AuditRow) : Prop := a_id a < a_id b.

Definition intact (t : LogTables) : Prop :=
  StronglySorted ids_ascend (audit_log t) /\ (forall r, In r (audit_log t) -> a_id r <= seq_audit t) /\
  chain auditGenesisHash (select chained (audit_log t)).

Lemma chain_rows_sorted t : StronglySorted ids_ascend (audit_log t) -> chain_rows t = select chained (audit_log t).
Proof.
  intros H. unfold chain_rows. apply order_by_sorted_id.
  apply (StronglySorted_impl ids_ascend); [intros a b; unfold ids_ascend, id_asc; lia|]. by apply StronglySorted_select.
Qed.

Lemma chain_head_sorted t : StronglySorted ids_ascend (audit_log t) ->
  chain_head t = a_row_hash <$> last (select chained (audit_log t)).
Proof.
  intros H. unfold chain_head, limit. rewrite order_by_reverse.
  - f_equal. destruct (select chained (audit_log t)) as [|r l _] using List.rev_ind; [done|]. by rewrite rev_app_distr, last_snoc.
  - apply (StronglySorted_impl ids_ascend); [intros a b; unfold ids_ascend, id_desc; lia|]. by apply StronglySorted_select.
Qed.

Lemma end_hash_last rows : end_hash auditGenesisHash rows = default auditGenesisHash (a_row_hash <$> last rows).
Proof. destruct rows as [|r l _] using List.rev_ind; [done|]. by rewrite end_hash_snoc, last_snoc. Qed.

Lemma digest_chained prev r : negb (String.eqb (row_digest prev r) "") = true.
Proof.
  unfold row_digest, auditRowHash. destruct (String.eqb_spec (sha256_hex (framed [prev; a_event_type r; a_severity r;
    user_text (a_user_id r); a_detail r; default "" (a_ip_address r); default "" (a_user_agent r); a_request_id r])) "") as [E|]; [|done].
  apply (f_equal String.length) in E. by rewrite sha256_hex_length in E.
Qed.

Definition linked (t : LogTables) (r : AuditRow) : Prop :=
  a_id r = seq_audit t + 1 /\
  a_prev_hash r = default auditGenesisHash (chain_head t) /\
  a_row_hash r = row_digest (a_prev_hash r) r.

Lemma intact_snoc t r : intact t -> linked t r -> intact (put_audit_log (audit_log t ++ [r]) (seq_audit t + 1) t).
Proof.
  intros (Hs & Hb & Hc) (Hid & Hp & Hh). assert (chained r = true) as Hr.
  { unfold chained. rewrite Hh. apply digest_chained. }
  split_and!; cbn.
  - apply StronglySorted_snoc; [done|]. intros y Hy. unfold ids_ascend. specialize (Hb y Hy). lia.
  - intros x [Hx|[<-|[]]]%in_app_iff; [specialize (Hb x Hx)|]; lia.
  - rewrite select_app. unfold select at 2. cbn [List.filter]. rewrite Hr. apply chain_snoc.
    assert (a_prev_hash r = end_hash auditGenesisHash (select chained (audit_log t))) as E.
    { by rewrite Hp, end_hash_last, chain_head_sorted. }
    split; [done|]. split; [done|]. by rewrite <- E.
Qed.

(** What [WriteAudit] did: one linked row, or nothing. *)
Lemma WriteAudit_run et sev u det ip ua rid w r w' : WriteAudit et sev u det ip ua rid w = (r, w') ->
  (r = Ok tt /\ exists x, linked (tables w) x /\
     content x = [et; sev; user_text u; det; ip; ua; rid] /\
     tables w' = put_audit_log (audit_log (tables w) ++ [x]) (seq_audit (tables w) + 1) (tables w)) \/
  (is_ok r = false /\ tables w' = tables w).
Proof.
  unfold WriteAudit, mbind, ST_bind, try. destruct (read_row chain_head w) as [h w1] eqn:Eh.
  apply read_row_run in Eh as [[Ht Hh]|[Ht [e ->]]].
  2: { cbn. intros [= <- <-]. by right. }
  set (prev := default auditGenesisHash (chain_head (tables w))).
  assert ((match h with Ok h => mret h | Err err => if errors_is err ErrNoRows then mret auditGenesisHash else fail err end : LogM string) w1
          = (Ok prev, w1)) as ->.
  { subst prev. destruct (chain_head (tables w)); by rewrite Hh. }
  intros Hw. apply write_run in Hw as [[-> E]|(e & -> & E)]; [|right; by rewrite E, Ht].
  left. split; [done|]. rewrite E, Ht. unfold insert_audit. rewrite <- Ht. eexists. split; [|split; [|reflexivity]]; [|done].
  rewrite Ht. by split_and!.
Qed.

(** ** Histories of operations *)

Inductive log_op :=
| OAudit (eventType severity : string) (userID : option Z) (detail ipAddress userAgent requestID : string)
| OSystem (level component message detail requestID : string)
| OAccess (eventType severity : string) (userID : option Z) (detail ipAddress userAgent requestID : string)
| OAnchor (headHash : string) (rowCount : Z) (networkAddress txHash : string)
| OCleanup (cutoff : Civil)
| OVerify
| OFaults (l : list (option string))
| OTime (c : Civil).

Definition run_op (o : log_op) (w : World LogTables) : World LogTables :=
  match o with
  | OAudit et sev u det ip ua rid => snd (WriteAudit et sev u det ip ua rid w)
  | OSystem l c m det rid => snd (WriteSystem l c m det rid w)
  | OAccess et sev u det ip ua rid => snd (WriteFileAccess et sev u det ip ua rid w)
  | OAnchor h n a tx => snd (RecordAuditAnchor h n a tx w)
  | OCleanup c => snd (CleanupOldLogs c w)
  | OVerify => snd (VerifyAuditChain w)
  | OFaults l => set_sched l w
  | OTime c => set_tables (mkLogs (audit_log (tables w)) (seq_audit (tables w)) (audit_anchors (tables w))
      (seq_anchors (tables w)) (system_log (tables w)) (seq_system (tables w)) (file_access_log (tables w))
      (seq_access (tables w)) c) w
  end.

Definition run_ops (os : list log_op) (w : World LogTables) : World LogTables := fold_left (fun w o => run_op o w) os w.

(** An operation that leaves audit_log as it is. *)
Definition same_audit (t t' : LogTables) : Prop := audit_log t' = audit_log t /\ seq_audit t' = seq_audit t.

#[export] Instance same_audit_preorder : PreOrder same_audit.
Proof. split; unfold same_audit; [done|]. intros a b c [? ?] [? ?]. split; congruence. Qed.

(** audit_log only grows. *)
Definition extends (t t' : LogTables) : Prop := exists new, audit_log t' = audit_log t ++ new.

#[export] Instance extends_preorder : PreOrder extends.
Proof.
  split; [intros t; exists []; by rewrite app_nil_r|].
  intros a b c [x Hx] [y Hy]. exists (x ++ y). by rewrite Hy, Hx, app_assoc.
Qed.

Lemma steps_LatestAuditAnchor : steps (on_tables same_audit) LatestAuditAnchor.
Proof. unfold LatestAuditAnchor. steps_go. Qed.

Lemma steps_VerifyAuditChain : steps (on_tables same_audit) VerifyAuditChain.
Proof. pose proof steps_LatestAuditAnchor. unfold VerifyAuditChain. steps_go. Qed.

Lemma run_op_audit o w : (exists et sev u det ip ua rid, o = OAudit et sev u det ip ua rid) \/
  same_audit (tables w) (tables (run_op o w)).
Proof.
  destruct o; [left; eauto 10|right..].
  1-3: refine (steps_write same_audit _ _ w); intros t; done.
  - refine (steps_write_ret same_audit _ _ w); intros t; done.
  - apply steps_VerifyAuditChain.
  - done.
  - done.
Qed.

Lemma intact_same t t' : same_audit t t' -> intact t -> intact t'.
Proof. intros [E1 E2]. unfold intact. by rewrite E1, E2. Qed.

Lemma run_op_intact o w : intact (tables w) -> intact (tables (run_op o w)) /\ extends (tables w) (tables (run_op o w)).
Proof.
  intros H. destruct (run_op_audit o w) as [(et & sev & u & det & ip & ua & rid & ->)|Hs].
  - cbn. destruct (WriteAudit et sev u det ip ua rid w) as [r w'] eqn:E. cbn.
    apply WriteAudit_run in E as [(_ & x & Hx & _ & ->)|[_ ->]]; [|by split].
    split; [by apply intact_snoc|]. by exists [x].
  - split; [by eapply intact_same|]. destruct Hs as [E _]. exists []. by rewrite E, app_nil_r.
Qed.

Lemma run_ops_intact os : forall w, intact (tables w) ->
  intact (tables (run_ops os w)) /\ extends (tables w) (tables (run_ops os w)).
Proof.
  induction os as [|o os IH]; intros w H; [by split|]. cbn. destruct (run_op_intact o w H) as [H1 H2].
  destruct (IH _ H1) as [H3 H4]. split; [done|]. by etransitivity.
Qed.

(** What a fault-free verification answers. *)
Definition newest_anchor (t : LogTables) : option AuditAnchor :=
  head (limit 1 (order_by anchor_newest (audit_anchors t))).

Lemma LatestAuditAnchor_healthy w : sched w = [] -> LatestAuditAnchor w = (Ok (newest_anchor (tables w)), w).
Proof.
  intros H. unfold LatestAuditAnchor, mbind, ST_bind, try. rewrite read_row_healthy by done.
  unfold newest_anchor. by destruct (head _).
Qed.

Lemma VerifyAuditChain_healthy w : sched w = [] ->
  VerifyAuditChain w =
    (Ok match verify_rows (an_RowCount <$> newest_anchor (tables w)) (chain_rows (tables w)) auditGenesisHash 0 "" with
        | inl (id, count) => mkChainResult false count id false false "" ""
        | inr (count, h) =>
            match newest_anchor (tables w) with
            | None => mkChainResult true count 0 false false "" ""
            | Some a => mkChainResult true count 0 true (negb (String.eqb h "") && String.eqb h (an_HeadHash a))
                          (an_NetworkAddress a) (an_AnchoredAt a)
            end
        end, w).
Proof.
  intros H. unfold VerifyAuditChain, mbind, ST_bind, try. rewrite read_healthy, LatestAuditAnchor_healthy by done.
  destruct (verify_rows _ _ _ _ _) as [[id c]|[c h]]; [done|]. by destruct (newest_anchor (tables w)).
Qed.

(** C16. The audit chain survives every history: after any sequence of audited
    events, other log writes, anchors, cleanups, verifications and database
    failures, no audit row was changed or removed, and a verification reports
    the chain intact with all its rows counted. *)
Theorem audit_chain_intact (os : list log_op) (w : World LogTables) (H : intact (tables w)) :
  let w' := run_ops os w in
  extends (tables w) (tables w') /\
  exists res, fst (VerifyAuditChain (set_sched [] w')) = Ok res /\ Intact res = true /\ BrokenAt res = 0 /\
    Count res = affected chained (audit_log (tables w')).
Proof.
  destruct (run_ops_intact os w H) as [(Hs & Hb & Hc) Hext]. split; [done|].
  rewrite VerifyAuditChain_healthy by done. cbn [fst tables set_sched]. rewrite chain_rows_sorted by done.
  rewrite (proj2 (verify_rows_intact _ _ _ _ _) Hc). eexists. split; [reflexivity|].
  by destruct (newest_anchor _).
Qed.

(** ** Tamper evidence *)

(** The hash inputs of a table's chained rows. *)
Definition preimages (rows : list AuditRow) : list string := map (fun r => framed (a_prev_hash r :: content r)) rows.

(** SHA-256 does not collide on these inputs. *)
Definition collision_free (l : list string) : Prop :=
  forall x y, In x l -> In y l -> sha256_hex x = sha256_hex y -> x = y.

Definition plain_rows (rows : list AuditRow) : Prop := Forall (fun r => forallb nul_free (content r) = true) rows.

Lemma end_hash_nul_free rows : chain auditGenesisHash rows -> nul_free (end_hash auditGenesisHash rows) = true.
Proof.
  destruct rows as [|r l _] using List.rev_ind; [done|]. intros (_ & _ & Hr)%chain_snoc. rewrite end_hash_snoc, Hr.
  apply hex_nul_free, sha256_hex_lower.
Qed.

Lemma collision_free_sub l l' : collision_free l -> (forall x, In x l' -> In x l) -> collision_free l'.
Proof. intros H Hs x y Hx Hy. by apply H; apply Hs. Qed.

Lemma chain_determined rows : forall rows', chain auditGenesisHash rows -> chain auditGenesisHash rows' ->
  length rows = length rows' -> end_hash auditGenesisHash rows = end_hash auditGenesisHash rows' ->
  collision_free (preimages rows ++ preimages rows') -> plain_rows rows -> plain_rows rows' ->
  map content rows = map content rows'.
Proof.
  induction rows as [|r rows IH] using List.rev_ind; intros rows' Hc Hc' Hlen Hend Hcf Hp Hp'.
  { by destruct rows'. }
  destruct rows' as [|r' rows' _] using List.rev_ind; [rewrite length_app in Hlen; cbn in Hlen; lia|].
  rewrite !length_app in Hlen. cbn in Hlen. rewrite !end_hash_snoc in Hend.
  apply chain_snoc in Hc as (Hc & Hprev & Hr), Hc' as (Hc' & Hprev' & Hr').
  apply Forall_app in Hp as [Hp Hpr%Forall_inv], Hp' as [Hp' Hpr'%Forall_inv].
  assert (framed (a_prev_hash r :: content r) = framed (a_prev_hash r' :: content r')) as Hf.
  { apply Hcf.
    - apply in_or_app. left. unfold preimages. rewrite map_app. apply in_or_app. right. by left.
    - apply in_or_app. right. unfold preimages. rewrite map_app. apply in_or_app. right. by left.
    - rewrite <- !row_digest_content. rewrite Hprev, Hprev'. congruence. }
  apply framed_inj in Hf as [= Hpe Hcont]; cycle 1.
  { cbn [forallb]. rewrite Hprev, end_hash_nul_free by done. done. }
  { cbn [forallb]. rewrite Hprev', end_hash_nul_free by done. done. }
  rewrite !map_app. f_equal; [|unfold content; cbn; congruence].
  apply IH; try done; [lia|congruence|].
  eapply collision_free_sub; [exact Hcf|]. unfold preimages. rewrite !map_app. intros x. rewrite !in_app_iff. naive_solver.
Qed.

Lemma AuditChainHead_healthy w : sched w = [] -> StronglySorted ids_ascend (audit_log (tables w)) ->
  AuditChainHead w = (Ok (end_hash auditGenesisHash (select chained (audit_log (tables w))),
                          affected chained (audit_log (tables w))), w).
Proof.
  intros H Hs. unfold AuditChainHead, mbind, ST_bind. rewrite read_healthy by done.
  unfold affected. rewrite end_hash_last. destruct (select chained (audit_log (tables w))) as [|r l] eqn:E; [done|].
  rewrite (proj2 (Z.eqb_neq _ _)) by (cbn; lia). rewrite read_row_healthy, chain_head_sorted, E by done.
  by destruct (last (r :: l)) eqn:El; [|apply last_None in El].
Qed.

Lemma chain_firstn n rows : chain auditGenesisHash rows -> chain auditGenesisHash (firstn n rows).
Proof. rewrite <- (take_drop n rows) at 1. by intros [H _]%chain_app. Qed.

Lemma plain_firstn n rows : plain_rows rows -> plain_rows (firstn n rows).
Proof. unfold plain_rows. rewrite <- (take_drop n rows) at 1. by intros [H _]%Forall_app. Qed.

(** C17. An anchor pins history: let the chain of [w] have head [h] over [n] rows
    when it was anchored. If a later database, however it came about, carries
    that anchor as its newest and verifies as intact and matching, then its
    first [n] chained rows say exactly what the anchored rows said: nothing
    was edited, removed, inserted or reordered. *)
Theorem anchor_pins_history (w w' : World LogTables) (h : string) (n : Z) (a : AuditAnchor) (res : AuditChainResult)
    (Hw : intact (tables w)) (Hhead : fst (AuditChainHead (set_sched [] w)) = Ok (h, n)) (Hn : 0 < n)
    (Ha : newest_anchor (tables w') = Some a) (Hah : an_HeadHash a = h) (Han : an_RowCount a = n)
    (Hres : fst (VerifyAuditChain (set_sched [] w')) = Ok res) (Hok : Intact res = true) (Hm : AnchorMatches res = true)
    (Hp : plain_rows (chain_rows (tables w))) (Hp' : plain_rows (chain_rows (tables w')))
    (Hcf : collision_free (preimages (chain_rows (tables w)) ++ preimages (chain_rows (tables w')))) :
  map content (firstn (Z.to_nat n) (chain_rows (tables w'))) = map content (chain_rows (tables w)).
Proof.
  destruct Hw as (Hs & _ & Hc). rewrite AuditChainHead_healthy in Hhead by done. injection Hhead as <- <-. cbn [tables set_sched] in *.
  rewrite (chain_rows_sorted (tables w)) in Hp, Hcf |- * by done. set (rows := select chained (audit_log (tables w))) in *.
  rewrite VerifyAuditChain_healthy in Hres by done. cbn [fst tables set_sched] in Hres. rewrite Ha in Hres. cbn [fmap option_fmap option_map] in Hres.
  set (rows' := chain_rows (tables w')) in *. unfold affected in *. fold rows in Han, Hn |- *.
  destruct (verify_rows_sum (Some (an_RowCount a)) rows' auditGenesisHash 0 "") as [(id & c & E)|[E Hc']];
    rewrite E in Hres; injection Hres as <-; [done|]. cbn [AnchorMatches] in Hm.
  apply andb_prop in Hm as [Hne Heq]. apply negb_true_iff, String.eqb_neq in Hne. apply String.eqb_eq in Heq.
  unfold head_at in *. rewrite Han, Z.add_0_l, Z.sub_0_r in *. rewrite (proj2 (Z.ltb_lt 0 _) Hn) in *. cbn [andb] in *.
  destruct (Z.leb_spec (Z.of_nat (length rows)) (Z.of_nat (length rows'))) as [Hle|]; [|done].
  rewrite Nat2Z.id in *. symmetry. apply chain_determined; try done.
  - by apply chain_firstn.
  - rewrite length_firstn. lia.
  - by rewrite <- Hah, <- Heq.
  - eapply collision_free_sub; [exact Hcf|]. intros x. rewrite !in_app_iff. intros [?|Hx]; [by left|right].
    unfold preimages in *. apply in_map_iff in Hx as (r & <- & Hr). apply in_map_iff. exists r. split; [done|].
    rewrite <- (firstn_skipn (length rows) rows'). apply in_or_app. by left.
  - by apply plain_firstn.
Qed.

(** The newest rows can be removed without breaking the chain: only an anchor
    notices. *)
Lemma truncation_verifies t kept cut : intact t -> audit_log t = kept ++ cut ->
  intact (put_audit_log kept (seq_audit t) t).
Proof.
  intros (Hs & Hb & Hc) E. rewrite E in *. split_and!; cbn.
  - clear -Hs. induction kept as [|x kept IH]; [constructor|]. inversion Hs as [|? ? Ht Hx]; subst. constructor; [by apply IH|].
    by apply Forall_app in Hx as [Hx _].
  - intros r Hr. apply Hb, in_or_app. by left.
  - rewrite select_app in Hc. by apply chain_app in Hc as [Hc _].
Qed.

(** ** Filters by date *)

(** A date filter keeps whole days only: on rows stored by this database
    [since] drops every row of its own day, whatever the hour, and [until]
    keeps every row of its day, however late. *)
Theorem buildLogFilter_dates (et sev : string) (u : option Z) (since until at_ : Civil) (r : AuditRow)
    (Hs : civil_ok since) (Hu : civil_ok until) (Hc : civil_ok at_) (Hr : a_created_at r = db_text at_) :
  buildLogFilter et sev u (Some since) (Some until) r =
  buildLogFilter et sev u None None r && (date_num since <? date_num at_) && (date_num at_ <=? date_num until).
Proof.
  unfold buildLogFilter, since_ok, until_ok. rewrite Hr, since_text, until_text by done.
  by rewrite !andb_true_r.
Qed.

(** [CleanupOldLogs] deletes exactly the entries before the cutoff. *)
Lemma CleanupOldLogs_exact (w : World LogTables) cutoff n w' : CleanupOldLogs cutoff w = (Ok n, w') ->
  civil_ok cutoff -> (forall r, In r (system_log (tables w)) -> exists c, civil_ok c /\ s_created_at r = db_text c) ->
  forall r, In r (system_log (tables w')) <->
    In r (system_log (tables w)) /\ forall c, civil_ok c -> s_created_at r = db_text c -> civil_num cutoff <= civil_num c.
Proof.
  intros H Hcut Hst r. apply write_ret_run in H as [[_ E]|(e & [=] & _)]. rewrite E. cbn. rewrite in_delete.
  split; intros [Hin H]; (split; [done|]).
  - intros c Hc Hr. rewrite Hr, db_text_lt in H by done. lia.
  - destruct (Hst r Hin) as (c & Hc & Hr). rewrite Hr, db_text_lt by done. specialize (H c Hc Hr). lia.
Qed.

(** ** Witnesses *)

Definition day1 : Civil := mkCivil 2026 1 31 23 59 7.
Definition fresh_logs : World LogTables := mkWorld (mkLogs [] 0 [] 0 [] 0 [] 0 day1) [].

Definition two_events : list log_op :=
  [OAudit "login" "info" (Some 7) "ok" "10.0.0.1" "curl" "r-1"; OFaults [Some "disk full"];
   OAudit "lost" "info" None "" "" "" ""; OAudit "upload" "warn" None "f" "10.0.0.1" "curl" "r-2"].

Definition anchored_logs : World LogTables :=
  let w := run_ops two_events fresh_logs in
  match fst (AuditChainHead w) with
  | Ok (h, n) => run_ops [OAnchor h n "addr" ""; OAudit "logout" "info" (Some 7) "" "" "" ""] w
  | Err _ => w
  end.

Lemma fresh_intact : intact (tables fresh_logs).
Proof. split_and!; [constructor|by intros r []|done]. Qed.

Example audit_chain_intact_witness :
  (let w' := run_ops two_events fresh_logs in
   extends (tables fresh_logs) (tables w') /\
   exists res, fst (VerifyAuditChain (set_sched [] w')) = Ok res /\ Intact res = true /\ BrokenAt res = 0 /\
     Count res = affected chained (audit_log (tables w'))) /\
  map a_event_type (audit_log (tables (run_ops two_events fresh_logs))) = ["login"; "upload"].
Proof.
  split; [|vm_compute; reflexivity]. apply (audit_chain_intact two_events fresh_logs), fresh_intact.
Defined.

(** Two instances of the service, each with a mutex of its own, read the same
    head: the second row forks the chain. *)
Example two_instances_fork_the_chain :
  let w := run_ops two_events fresh_logs in
  let prev := default auditGenesisHash (chain_head (tables w)) in
  let row id := mkAudit id "e" "info" None "" (Some "") (Some "") "" "" prev (auditRowHash prev "e" "info" "" "" "" "" "") in
  let t := put_audit_log (audit_log (tables w) ++ [row 3; row 4]) 4 (tables w) in
  match fst (VerifyAuditChain (mkWorld t [])) with
  | Ok res => (Intact res, BrokenAt res) = (false, 4)
  | Err _ => False
  end.
Proof. vm_compute. reflexivity. Qed.

(** A NUL in a field moves the border between two fields: the rows differ, the
    hashes do not. *)
Example nul_moves_the_border :
  let agent := "a" +:+ String nul "b" in
  auditRowHash "" "e" "info" "" "d" "ip" agent "r" = auditRowHash "" "e" "info" "" "d" ("ip" +:+ String nul "a") "b" "r".
Proof. vm_compute. reflexivity. Qed.

(** Dropping the newest row verifies; the anchor taken before does not match. *)
Example truncation_needs_the_anchor :
  let t := tables anchored_logs in
  let cut n := fst (VerifyAuditChain (mkWorld (put_audit_log (firstn n (audit_log t)) 9 t) [])) in
  match cut 2%nat, cut 1%nat with
  | Ok r2, Ok r1 => (Intact r2, AnchorMatches r2, Intact r1, AnchorMatches r1) = (true, true, true, false)
  | _, _ => False
  end.
Proof. vm_compute. reflexivity. Qed.

Example buildLogFilter_dates_witness :
  let r := mkAudit 1 "e" "info" None "" None None "" (db_text day1) "" "" in
  let midnight := mkCivil 2026 1 31 0 0 0 in
  buildLogFilter "" "" None (Some midnight) (Some midnight) r =
    buildLogFilter "" "" None None None r && (date_num midnight <? date_num day1) && (date_num day1 <=? date_num midnight) /\
  buildLogFilter "" "" None (Some midnight) None r = false /\ buildLogFilter "" "" None None (Some midnight) r = true.
Proof.
  split; [|vm_compute; done].
  apply (buildLogFilter_dates "" "" None (mkCivil 2026 1 31 0 0 0) (mkCivil 2026 1 31 0 0 0) day1); unfold civil_ok; cbn; try lia.
  vm_compute. reflexivity.
Defined.

Definition collision_check (l : list string) : bool :=
  forallb (fun x => forallb (fun y => negb (String.eqb (sha256_hex x) (sha256_hex y)) || String.eqb x y) l) l.

Lemma collision_check_ok l : collision_check l = true -> collision_free l.
Proof.
  unfold collision_check. rewrite forallb_forall. intros H x y Hx Hy Hh. specialize (H x Hx).
  rewrite forallb_forall in H. specialize (H y Hy). apply String.eqb_eq in Hh. rewrite Hh in H. by apply String.eqb_eq.
Qed.

Lemma plain_check rows : forallb (fun r => forallb nul_free (content r)) rows = true -> plain_rows rows.
Proof. rewrite forallb_forall. intros H. apply List.Forall_forall. auto. Qed.

Definition anchored_head : string :=
  match fst (AuditChainHead (run_ops two_events fresh_logs)) with Ok (h, _) => h | Err _ => "" end.
Definition the_anchor : AuditAnchor := mkAnchor 1 anchored_head 2 "addr" "" (db_text day1).
Definition the_result : AuditChainResult := mkChainResult true 3 0 true true "addr" (db_text day1).

Example anchor_pins_history_witness :
  let w := run_ops two_events fresh_logs in
  map content (firstn 2 (chain_rows (tables anchored_logs))) = map content (chain_rows (tables w)) /\
  length (chain_rows (tables anchored_logs)) = 3%nat.
Proof.
  split; [|vm_compute; reflexivity].
  apply (anchor_pins_history (run_ops two_events fresh_logs) anchored_logs anchored_head 2 the_anchor the_result);
    [apply run_ops_intact, fresh_intact|vm_compute; reflexivity..|apply plain_check; vm_compute; reflexivity|
     apply plain_check; vm_compute; reflexivity|apply collision_check_ok; vm_compute; reflexivity].
Defined.
