(* ===== verification/Publish.v ===== *)
(** * Publishing chunks: the datamap migration and the audit anchors

    src/internal/migrate/publish_datamaps.go and
    src/internal/worker/audit_anchor.go. The chunk calls of the antd daemon are
    the class [ChunkPublisher]; the payer is the worker's [Payer]. *)

From S2P Require Import Prelude GoLib Hex Sql Schema UploadStore Settings Keyring Payer.
From S2P Require Import Stmt Clock AuditLog AuditChain.
From Stdlib Require Import Ascii.
From stdpp Require Import pretty.

Open Scope Z_scope.

(** antd's answer to a prepared chunk. *)
Record PrepareChunkResult := mkPrepareChunk {
  ch_AlreadyStored : bool;
  ch_Address : string;
  ch_UploadID : string;
  ch_Payments : list PaymentInfo;
  ch_PaymentTokenAddress : string;
  ch_PaymentVaultAddress : string;
}.

Class ChunkPublisher (W : Type) := {
  PrepareChunkUpload : list Z -> ST error W PrepareChunkResult;
  FinalizeChunkUpload : string -> gmap string string -> ST error W string;
  ChunkGet : string -> ST error W (list Z);
}.

Inductive outcome := OutPublished | OutVerified | OutSkipped | OutAlreadyStored | OutFailed | OutDryRun.

#[export] Instance outcome_eq_dec : EqDecision outcome.
Proof. solve_decision. Defined.

(** The database, the logs, the payer, the daemon, the answers of the next
    [ctx.Err()] checks, and the number of payment calls so far. *)
Record PubState (P W : Type) := mkPub {
  pb_db : Db;
  pb_logs : World LogTables;
  pb_pay : P;
  pb_world : W;
  pb_ctx : list bool;
  pb_paid : Z;
}.
Arguments mkPub {P W}. Arguments pb_db {P W}. Arguments pb_logs {P W}. Arguments pb_pay {P W}.
Arguments pb_world {P W}. Arguments pb_ctx {P W}. Arguments pb_paid {P W}.

Section publish.
Context {P W : Type} {payer : Payer P} {publisher : ChunkPublisher W}.
Abbreviation M := (ST error (PubState P W)).
Implicit Types (s : PubState P W).

Definition put_pb_db (d : Db) s := mkPub d (pb_logs s) (pb_pay s) (pb_world s) (pb_ctx s) (pb_paid s).
Definition put_pb_logs (l : World LogTables) s := mkPub (pb_db s) l (pb_pay s) (pb_world s) (pb_ctx s) (pb_paid s).
Definition put_pb_pay (p : P) s := mkPub (pb_db s) (pb_logs s) p (pb_world s) (pb_ctx s) (pb_paid s).
Definition put_pb_world (w : W) s := mkPub (pb_db s) (pb_logs s) (pb_pay s) w (pb_ctx s) (pb_paid s).
Definition put_pb_ctx (c : list bool) s := mkPub (pb_db s) (pb_logs s) (pb_pay s) (pb_world s) c (pb_paid s).
Definition put_pb_paid (n : Z) s := mkPub (pb_db s) (pb_logs s) (pb_pay s) (pb_world s) (pb_ctx s) n.

Definition pdb {A} (m : DbM A) : M A := zoom pb_db put_pb_db m.
Definition plogs {A} (m : LogM A) : M A := zoom pb_logs put_pb_logs m.
Definition ppay {A} (m : ST error P A) : M A := zoom pb_pay put_pb_pay m.
Definition pworld {A} (m : ST error W A) : M A := zoom pb_world put_pb_world m.

Definition wrapf (msg : string) (e : error) : error := EWrap msg [e].

(** The address comes back beside an error of the verification. *)
Definition PublishChunk (walletKey : string) (raw : list Z) (verify : bool) :
    M (string * result error outcome) :=
  p ← try (pworld (PrepareChunkUpload raw));
  match p with
  | Err err => mret ("", Err (wrapf "prepare: " err))
  | Ok prep =>
      if ch_AlreadyStored prep then mret (ch_Address prep, Ok OutAlreadyStored) else
      if String.eqb (ch_UploadID prep) "" || (length (ch_Payments prep) =? 0)%nat
      then mret ("", Err (ENew "prepare returned no payment shape for a non-stored chunk")) else
      n ← gets pb_paid; modify (put_pb_paid (n + 1)) ;;
      t ← try (ppay (PayForQuotes_ walletKey (ch_Payments prep) (ch_PaymentTokenAddress prep) (ch_PaymentVaultAddress prep)));
      match t with
      | Err err => mret ("", Err (wrapf "pay: " err))
      | Ok txHashes =>
          f ← try (pworld (FinalizeChunkUpload (ch_UploadID prep) txHashes));
          match f with
          | Err err => mret ("", Err (wrapf "finalize: " err))
          | Ok addr =>
              if negb (String.eqb addr (ch_Address prep)) then mret ("", Err (ENew "address mismatch")) else
              if (verify : bool) then
                g ← try (pworld (ChunkGet addr));
                match g with
                | Err err => mret (addr, Err (wrapf "verify chunk_get: " err))
                | Ok got => if bool_decide (got = raw) then mret (addr, Ok OutVerified)
                            else mret (addr, Err (ENew "verify mismatch"))
                end
              else mret (addr, Ok OutPublished)
          end
      end
  end.

(** ** The migration *)

Record Options := mkOptions { op_DryRun : bool; op_Limit : Z; op_UUID : string; op_Verify : bool }.

Record RowResult := mkRowResult {
  rr_UUID : string; rr_ID : Z; rr_Outcome : outcome; rr_DatamapAddress : string; rr_Error : option error;
}.

Record Run := mkRun {
  rn_Candidates : Z; rn_Published : Z; rn_Verified : Z; rn_AlreadyStored : Z; rn_Failed : Z;
  rn_DryRun : bool; rn_Rows : list RowResult;
}.

Definition add_row (r : RowResult) (n : Run) : Run :=
  let one o := if bool_decide (rr_Outcome r = o) then 1 else 0 in
  mkRun (rn_Candidates n) (rn_Published n + (one OutPublished + one OutVerified + one OutAlreadyStored))
    (rn_Verified n + one OutVerified) (rn_AlreadyStored n + one OutAlreadyStored) (rn_Failed n + one OutFailed)
    (rn_DryRun n) (rn_Rows n ++ [r]).

Definition ctx_Err : M (option error) :=
  c ← gets pb_ctx;
  match c with
  | [] => mret None
  | b :: l => modify (put_pb_ctx l) ;; mret (if (b : bool) then Some (ESentinel ErrCanceled) else None)
  end.

(** One candidate past the dry-run check. *)
Definition publish_row (walletKey : string) (opts : Options) (u : Upload) : M RowResult :=
  let row o addr err := mkRowResult (u_uuid u) (u_id u) o addr err in
  match u_data_map u with
  | None => mret (row OutSkipped "" (Some (ENew "no data_map")))
  | Some m =>
      if String.eqb m "" then mret (row OutSkipped "" (Some (ENew "no data_map"))) else
      match DecodeString m with
      | None => mret (row OutFailed "" (Some (ENew "hex decode: ")))
      | Some raw =>
          '(addr, r) ← PublishChunk walletKey raw (op_Verify opts);
          match r with
          | Err err => mret (row OutFailed addr (Some err))
          | Ok out =>
              m ← try (pdb (MarkPublished (u_id u) addr));
              match m with
              | Err err => mret (row OutFailed addr (Some (wrapf "db update: " err)))
              | Ok _ => mret (row out addr None)
              end
          end
      end
  end.

Fixpoint publish_rows (walletKey : string) (opts : Options) (us : list Upload) (run : Run) : M (Run * option error) :=
  match us with
  | [] => mret (run, None)
  | u :: rest =>
      e ← ctx_Err;
      match e with
      | Some err => mret (run, Some err)
      | None =>
          row ← (if op_DryRun opts then mret (mkRowResult (u_uuid u) (u_id u) OutDryRun "" None)
                 else publish_row walletKey opts u);
          publish_rows walletKey opts rest (add_row row run)
      end
  end.

Definition PublishDataMaps (walletKey : string) (opts : Options) : M (Run * option error) :=
  candidates ← map_err (wrapf "list candidates: ") (pdb (ListPrivatePublishCandidates (op_Limit opts)));
  let candidates := if String.eqb (op_UUID opts) "" then candidates
                    else List.filter (fun u => String.eqb (u_uuid u) (op_UUID opts)) candidates in
  publish_rows walletKey opts candidates
    (mkRun (Z.of_nat (length candidates)) 0 0 0 0 (op_DryRun opts) []).

(** ** The anchor *)

Definition auditAnchorEnabledSetting : string := "audit_anchor_enabled".
Definition auditAnchorIntervalSetting : string := "audit_anchor_interval_hours".
Definition hour : Z := 3600 * second.
Definition defaultAuditAnchorInterval : Z := 24 * hour.

Definition anchor_interval : M Z :=
  r ← try (pdb (Get auditAnchorIntervalSetting));
  mret (match r with
        | Ok v => match Atoi v with Some n => if 0 <? n then wrap64 (n * hour) else defaultAuditAnchorInterval
                               | None => defaultAuditAnchorInterval end
        | Err _ => defaultAuditAnchorInterval
        end).

(** [json.Marshal] of the map: the keys sorted. *)
Definition anchor_payload (headHash : string) (count : Z) : string :=
  "{" +:+ json_string "head_hash" +:+ ":" +:+ json_string headHash +:+ "," +:+ json_string "kind" +:+ ":" +:+
  json_string "indelible-audit-anchor" +:+ "," +:+ json_string "row_count" +:+ ":" +:+ pretty count +:+ "}".

Definition head_anchored (headHash : string) (count : Z) (a : AuditAnchor) : bool :=
  (an_RowCount a =? count) && String.eqb (an_HeadHash a) headHash.

Definition anchorOnce {aead : Aead} (kr : Keyring) (rpcURL : string) : M bool :=
  v ← try (pdb (Get auditAnchorEnabledSetting));
  if negb (String.eqb (match v with Ok v => v | Err _ => "" end) "true") then mret false else
  w ← try (pdb GetDefault);
  match w with
  | Err _ => mret false
  | Ok wallet =>
      '(headHash, count) ← plogs AuditChainHead;
      if String.eqb headHash "" then mret false else
      l ← try (plogs LatestAuditAnchor);
      if match l with Ok (Some latest) => head_anchored headHash count latest | _ => false end then mret false else
      if String.eqb rpcURL "" then mret false else
      walletKey ← map_err (wrapf "decrypt wallet key: ") (of_result (DecryptKey kr wallet));
      map_err (wrapf "build payer: ") (ppay (NewSigner_ rpcURL)) ;;
      '(addr, r) ← PublishChunk walletKey (bytes_of (anchor_payload headHash count)) true;
      map_err (wrapf "publish anchor: ") (of_result r) ;;
      map_err (wrapf "record anchor: ") (plogs (RecordAuditAnchor headHash count addr "")) ;;
      mret true
  end.
End publish.

(** * Properties *)

Section properties.
Context {P W : Type} {payer : Payer P} {publisher : ChunkPublisher W}.
Implicit Types (s : PubState P W).

(** ** A chunk *)

(** Only the payer, the daemon and the count of payments may change. *)
Definition same_stores s s' : Prop := pb_db s' = pb_db s /\ pb_logs s' = pb_logs s /\ pb_ctx s' = pb_ctx s.

(** A chunk costs at most one payment call, and none when it is stored already. *)
Ltac pub_fin := eexists _, _; split_and!; try reflexivity; cbn; first [lia|done|by left|by right].

Lemma PublishChunk_run key raw v s r s' : PublishChunk key raw v s = (r, s') ->
  exists addr o, r = Ok (addr, o) /\ same_stores s s' /\
    pb_paid s <= pb_paid s' <= pb_paid s + match o with Ok OutAlreadyStored => 0 | _ => 1 end /\
    match o with Ok out => out = OutAlreadyStored \/ (out = if (v : bool) then OutVerified else OutPublished) | Err _ => True end.
Proof.
  unfold PublishChunk, mbind, ST_bind, mret, ST_ret, try, pworld, ppay, zoom, gets, modify, same_stores.
  destruct (PrepareChunkUpload raw (pb_world s)) as [[prep|e] w1].
  2: { intros [= <- <-]. cbn. pub_fin. }
  destruct (ch_AlreadyStored prep).
  { intros [= <- <-]. cbn. pub_fin. }
  destruct (_ || _). { intros [= <- <-]. cbn. pub_fin. }
  destruct (PayForQuotes_ _ _ _ _ _) as [[m|e] p1].
  2: { intros [= <- <-]. cbn. pub_fin. }
  cbn. destruct (FinalizeChunkUpload _ _ _) as [[a|e] w2].
  2: { intros [= <- <-]. cbn. pub_fin. }
  destruct (negb _). { intros [= <- <-]. cbn. pub_fin. }
  destruct v. 2: { intros [= <- <-]. cbn. pub_fin. }
  destruct (ChunkGet _ _) as [[g|e] w3].
  - destruct (bool_decide (g = raw)); intros [= <- <-]; cbn; pub_fin.
  - intros [= <- <-]. cbn. pub_fin.
Qed.

(** ** The migration *)

Definition published (addr : string) (u : Upload) : Upload :=
  set_u_datamap_address (Some addr) (set_u_visibility Public u).

Definition row_published (r : RowResult) : bool :=
  match rr_Outcome r with OutPublished | OutVerified | OutAlreadyStored => true | _ => false end.

(** The uploads after the rows of a run. *)
Definition apply_rows (rows : list RowResult) (t : list Upload) : list Upload :=
  fold_left (fun t r => update (by_id (rr_ID r)) (published (rr_DatamapAddress r)) t) (List.filter row_published rows) t.

Definition row_cost (r : RowResult) : Z :=
  match rr_Outcome r with OutPublished | OutVerified | OutFailed => 1 | _ => 0 end.

Definition only_uploads (d : Db) (t : list Upload) (d' : Db) : Prop := exists fs, d' = set_faults fs (set_uploads t d).

Lemma mark_run id f d r d' : mark id f d = (r, d') ->
  (r = Ok tt /\ exists fs, d' = set_faults fs (set_uploads (update (by_id id) (f (current_timestamp d)) (uploads d)) d)) \/
  (exists e, r = Err e) /\ exists fs, d' = set_faults fs d.
Proof.
  unfold mark, exec_uploads, mbind, ST_bind, mret, ST_ret, gets, modify.
  destruct (stmt_cases d) as [[fs ->]|(e & fs & ->)]; intros [= <- <-]; [left|right; eauto].
  split; [done|]. exists fs. by destruct d.
Qed.

(** One row: its upload is marked exactly when the row says published. *)
Lemma publish_row_run key opts u s x s' : publish_row key opts u s = (x, s') ->
  exists r, x = Ok r /\ rr_ID r = u_id u /\ rr_Outcome r <> OutDryRun /\
    only_uploads (pb_db s) (apply_rows [r] (uploads (pb_db s))) (pb_db s') /\
    pb_logs s' = pb_logs s /\ pb_paid s <= pb_paid s' <= pb_paid s + row_cost r.
Proof.
  assert (forall d, only_uploads d (uploads d) d) as Hsame by (intros d; exists (faults d); by destruct d).
  unfold publish_row. destruct (u_data_map u) as [m|].
  2: { intros [= <- <-]. eexists. split; [reflexivity|]. split_and!; try done; cbn; lia. }
  destruct (String.eqb m "").
  { intros [= <- <-]. eexists. split; [reflexivity|]. split_and!; try done; cbn; lia. }
  destruct (DecodeString m) as [raw|].
  2: { intros [= <- <-]. eexists. split; [reflexivity|]. split_and!; try done; cbn; lia. }
  unfold mbind at 1, ST_bind at 1. destruct (PublishChunk key raw (op_Verify opts) s) as [y s1] eqn:Hp.
  apply PublishChunk_run in Hp as (addr & o & -> & (Hd & Hl & Hc) & Hpaid & Ho). destruct o as [out|e].
  - unfold mbind, ST_bind, try, pdb, zoom. destruct (MarkPublished (u_id u) addr (pb_db s1)) as [m' d'] eqn:Hm.
    unfold MarkPublished in Hm. apply mark_run in Hm as [(-> & fs & ->)|([e ->] & fs & ->)]; intros [= <- <-];
      eexists; (split; [reflexivity|]); rewrite ?Hd; cbn.
    + split_and!; try done; try (destruct Ho as [->| ->]; [done|by destruct (op_Verify opts)]).
      * exists fs. f_equal. unfold apply_rows, row_published. cbn.
        destruct Ho as [->| ->]; [done|by destruct (op_Verify opts)].
      * lia.
      * destruct Ho as [->| ->]; [cbn in *; lia|]. revert Hpaid. unfold row_cost. cbn.
        destruct (op_Verify opts); cbn; lia.
    + split_and!; try done; [exists fs; by destruct (pb_db s)|lia|]. unfold row_cost. cbn. destruct out; lia.
  - intros [= <- <-]. eexists. split; [reflexivity|]. rewrite Hd. split_and!; try done; cbn; lia.
Qed.

(** The tallies of a run agree with its rows. *)
Definition counts (p : RowResult -> bool) (rows : list RowResult) : Z := Z.of_nat (length (List.filter p rows)).
Definition is_outcome (o : outcome) (r : RowResult) : bool := bool_decide (rr_Outcome r = o).

Definition tallied (n : Run) : Prop :=
  rn_Published n = counts row_published (rn_Rows n) /\ rn_Verified n = counts (is_outcome OutVerified) (rn_Rows n) /\
  rn_AlreadyStored n = counts (is_outcome OutAlreadyStored) (rn_Rows n) /\ rn_Failed n = counts (is_outcome OutFailed) (rn_Rows n).

Lemma counts_snoc p rows r : counts p (rows ++ [r]) = counts p rows + if p r then 1 else 0.
Proof. unfold counts. rewrite List.filter_app, length_app. cbn. destruct (p r); cbn; lia. Qed.

Lemma add_row_tallied r n : tallied n -> tallied (add_row r n).
Proof.
  unfold tallied. intros (H1 & H2 & H3 & H4). unfold add_row. cbn [rn_Published rn_Verified rn_AlreadyStored rn_Failed rn_Rows].
  rewrite !counts_snoc, <- H1, <- H2, <- H3, <- H4. unfold row_published, is_outcome.
  destruct (rr_Outcome r); repeat (case_bool_decide; try done); lia.
Qed.

Lemma apply_rows_cons r rows t : apply_rows (r :: rows) t = apply_rows rows (apply_rows [r] t).
Proof. unfold apply_rows. cbn. by destruct (row_published r). Qed.

Lemma only_uploads_trans d t d1 f d2 : only_uploads d t d1 -> only_uploads d1 (f (uploads d1)) d2 -> only_uploads d (f t) d2.
Proof. intros [fs ->] [fs' ->]. exists fs'. cbn. by destruct d. Qed.

Lemma publish_rows_run key opts us : forall run s x s', publish_rows key opts us run s = (x, s') ->
  exists run' e rows, x = Ok (run', e) /\ rn_Rows run' = rn_Rows run ++ rows /\ rn_Candidates run' = rn_Candidates run /\
    (tallied run -> tallied run') /\ (e = None -> map rr_ID rows = map u_id us) /\ (length rows <= length us)%nat /\
    (forall r, In r rows -> (rr_Outcome r = OutDryRun <-> op_DryRun opts = true)) /\
    only_uploads (pb_db s) (apply_rows rows (uploads (pb_db s))) (pb_db s') /\
    pb_logs s' = pb_logs s /\ pb_paid s <= pb_paid s' <= pb_paid s + sum_by row_cost rows.
Proof.
  assert (forall d, only_uploads d (uploads d) d) as Hsame by (intros d; exists (faults d); by destruct d).
  induction us as [|u us IH]; intros run s x s'; cbn [publish_rows].
  { intros [= <- <-]. exists run, None, []. rewrite app_nil_r. split_and!; try done; cbn; lia. }
  unfold mbind at 1, ST_bind at 1. destruct (ctx_Err s) as [c s1] eqn:Hc.
  assert (exists e, c = Ok e /\ pb_db s1 = pb_db s /\ pb_logs s1 = pb_logs s /\ pb_paid s1 = pb_paid s) as (e & -> & Hd & Hl & Hp).
  { revert Hc. unfold ctx_Err, mbind, ST_bind, gets. destruct (pb_ctx s); intros [= <- <-]; eauto. }
  destruct e as [err|].
  { intros [= <- <-]. exists run, (Some err), []. rewrite app_nil_r, Hd, Hl, Hp. split_and!; try done; cbn; lia. }
  unfold mbind at 1, ST_bind at 1.
  destruct ((if op_DryRun opts then mret (mkRowResult (u_uuid u) (u_id u) OutDryRun "" None) else publish_row key opts u) s1)
    as [y s2] eqn:Hy.
  assert (exists r, y = Ok r /\ rr_ID r = u_id u /\ (rr_Outcome r = OutDryRun <-> op_DryRun opts = true) /\
    only_uploads (pb_db s1) (apply_rows [r] (uploads (pb_db s1))) (pb_db s2) /\ pb_logs s2 = pb_logs s1 /\
    pb_paid s1 <= pb_paid s2 <= pb_paid s1 + row_cost r) as (r & -> & Hid & Hdry & Hu & Hl2 & Hp2).
  { destruct (op_DryRun opts).
    - injection Hy as <- <-. eexists. split; [reflexivity|]. split_and!; try done; cbn; lia.
    - apply publish_row_run in Hy as (r & -> & ? & ? & ? & ? & ?). exists r. split_and!; try done; lia. }
  intros Hrun. apply IH in Hrun as (run' & e & rows & -> & Hrows & Hcand & Ht & Hids & Hlen & Hdr & Hup & Hl3 & Hp3).
  exists run', e, (r :: rows). cbn [map length]. rewrite Hrows, Hcand, Hl3, Hl2, Hl. cbn [rn_Rows add_row rn_Candidates].
  rewrite <- app_assoc. split_and!; try done.
  - intros H. apply Ht. by apply add_row_tallied.
  - intros ->. by rewrite Hid, Hids.
  - lia.
  - intros r' [<-|Hr']; [done|by apply Hdr].
  - rewrite apply_rows_cons. rewrite <- Hd. eapply only_uploads_trans; [exact Hu|done].
  - lia.
  - unfold sum_by in *. cbn [fold_right]. lia.
Qed.

(** The migration reports what it did: the uploads it leaves are the old ones
    with exactly the rows reported as published made public under the reported
    address; the tallies agree with the rows; it made at most one payment call
    per row it reports as published or failed, and none for a dry run, which
    changes nothing; unless cancelled, every candidate has its row. *)
Theorem PublishDataMaps_reports (key : string) (opts : Options) (s s' : PubState P W) (run : Run) (e : option error)
    (Hrun : PublishDataMaps key opts s = (Ok (run, e), s')) :
  only_uploads (pb_db s) (apply_rows (rn_Rows run) (uploads (pb_db s))) (pb_db s') /\ tallied run /\
  pb_paid s <= pb_paid s' <= pb_paid s + sum_by row_cost (rn_Rows run) /\
  (e = None -> rn_Candidates run = Z.of_nat (length (rn_Rows run))) /\
  (op_DryRun opts = true -> pb_paid s' = pb_paid s /\ same_data (pb_db s) (pb_db s')).
Proof.
  unfold PublishDataMaps in Hrun. apply bind_ok in Hrun as (cs & s1 & Hc & Hrun).
  apply map_err_ok in Hc. unfold pdb, zoom in Hc.
  destruct (ListPrivatePublishCandidates _ (pb_db s)) as [q d] eqn:Hq. injection Hc as -> <-.
  apply query_ok in Hq as (fs & -> & _).
  apply publish_rows_run in Hrun as (run' & e' & rows & [= <- <-] & Hrows & Hcand & Ht & Hids & Hlen & Hdr & Hup & _ & Hp).
  cbn [rn_Rows rn_Candidates app] in *. subst rows. cbn [pb_db put_pb_db pb_paid uploads set_faults] in *.
  assert (only_uploads (pb_db s) (apply_rows (rn_Rows run) (uploads (pb_db s))) (pb_db s')) as Hup'.
  { destruct Hup as [fs' ->]. exists fs'. by destruct (pb_db s). }
  split_and!; try done; try lia.
  - by apply Ht.
  - intros ->. rewrite Hcand. specialize (Hids eq_refl). apply (f_equal length) in Hids. rewrite !length_map in Hids. lia.
  - intros Hd. assert (forall l, (forall r, In r l -> rr_Outcome r = OutDryRun) ->
      apply_rows l (uploads (pb_db s)) = uploads (pb_db s) /\ sum_by row_cost l = 0) as Hall.
    { induction l as [|r l IH]; [done|]. intros Hl. destruct IH as [I1 I2]; [intros; apply Hl; by right|].
      specialize (Hl r (or_introl eq_refl)). rewrite apply_rows_cons. unfold sum_by in *. cbn [fold_right].
      rewrite I2. unfold apply_rows at 2, row_published. cbn. unfold row_cost. by rewrite Hl. }
    destruct (Hall (rn_Rows run)) as [H1 H2]; [intros r Hr; by apply Hdr|].
    split; [lia|]. destruct Hup' as [fs' ->]. rewrite H1. unfold same_data. by destruct (pb_db s).
Qed.
End properties.

(** ** The anchor *)

Section anchor.
Context {P W : Type} {payer : Payer P} {publisher : ChunkPublisher W} {aead : Aead}.
Context (kr : Keyring) (rpcURL : string).
Implicit Types (s : PubState P W).

Lemma AuditChainHead_run w r w' : StronglySorted ids_ascend (audit_log (tables w)) -> AuditChainHead w = (r, w') ->
  tables w' = tables w /\
  (r = Ok (end_hash auditGenesisHash (select chained (audit_log (tables w))), affected chained (audit_log (tables w))) \/
   exists e, r = Err e).
Proof.
  intros Hs. unfold AuditChainHead, mbind, ST_bind. destruct (read _ w) as [x w1] eqn:E.
  apply read_run in E as [Ht [->|[e ->]]]; [|intros [= <- <-]; eauto].
  unfold affected. rewrite end_hash_last. destruct (select chained (audit_log (tables w))) as [|r0 l] eqn:El.
  { cbn. intros [= <- <-]. eauto. }
  rewrite (proj2 (Z.eqb_neq _ _)) by (cbn; lia). destruct (read_row chain_head w1) as [y w2] eqn:Er.
  apply read_row_run in Er as [[Ht2 Hy]|[Ht2 [e ->]]]; [|intros [= <- <-]; rewrite Ht2; eauto].
  rewrite Ht, chain_head_sorted, El in Hy by done.
  destruct (last (r0 :: l)) eqn:Ell; [|by apply last_None in Ell]. cbn [fmap option_fmap option_map] in Hy. subst y.
  intros [= <- <-]. split; [congruence|]. by left.
Qed.

Lemma LatestAuditAnchor_run w r w' : LatestAuditAnchor w = (r, w') ->
  tables w' = tables w /\ (r = Ok (newest_anchor (tables w)) \/ exists e, r = Err e).
Proof.
  unfold LatestAuditAnchor, mbind, ST_bind, try. destruct (read_row _ w) as [x w1] eqn:E.
  apply read_row_run in E as [[Ht Hx]|[Ht [e ->]]].
  - unfold newest_anchor. destruct (head _); subst x; intros [= <- <-]; eauto.
  - cbn. intros [= <- <-]. eauto.
Qed.

Definition anchors_ascend (a b : AuditAnchor) : Prop := an_ID a < an_ID b.
Definition anchors_ok (t : LogTables) : Prop :=
  StronglySorted anchors_ascend (audit_anchors t) /\ forall a, In a (audit_anchors t) -> an_ID a <= seq_anchors t.

Definition record_anchor (h : string) (n : Z) (addr : string) (t : LogTables) : LogTables :=
  put_anchors (audit_anchors t ++ [mkAnchor (seq_anchors t + 1) h n addr "" (db_text (AuditLog.clock t))]) (seq_anchors t + 1) t.

Lemma newest_recorded h n addr t : anchors_ok t ->
  newest_anchor (record_anchor h n addr t) = Some (mkAnchor (seq_anchors t + 1) h n addr "" (db_text (AuditLog.clock t))).
Proof.
  intros [Hs Hb]. unfold newest_anchor, limit. cbn [audit_anchors record_anchor put_anchors]. rewrite order_by_reverse.
  - by rewrite rev_app_distr.
  - apply StronglySorted_snoc.
    + apply (StronglySorted_impl anchors_ascend); [intros a b; unfold anchors_ascend, anchor_newest; lia|done].
    + intros a Ha. unfold anchor_newest. cbn. specialize (Hb a Ha). lia.
Qed.

Definition chain_at (t : LogTables) : string * Z :=
  (end_hash auditGenesisHash (select chained (audit_log t)), affected chained (audit_log t)).

(** Nothing was bought or written. *)
Definition idle s s' : Prop :=
  pb_paid s' = pb_paid s /\ tables (pb_logs s') = tables (pb_logs s) /\ same_data (pb_db s) (pb_db s').

#[export] Instance idle_preorder : PreOrder idle.
Proof.
  split; unfold idle; [done|]. intros a b c (? & ? & ?) (? & ? & ?). split_and!; try congruence. by etransitivity.
Qed.

Lemma steps_idle_pdb {A} (m : DbM A) : steps same_data m -> steps idle (pdb (P := P) (W := W) m).
Proof. intros H. apply (steps_zoom idle same_data); [|done]. by intros s d Hd. Qed.

Lemma steps_idle_logs {A} (m : LogM A) : steps (on_tables eq) m -> steps idle (plogs (P := P) (W := W) m).
Proof. intros H. apply (steps_zoom idle (on_tables eq)); [|done]. by intros s w Hw. Qed.

Lemma steps_Get k : steps same_data (Get k).
Proof. unfold Get. steps_go. Qed.
Lemma steps_GetDefault : steps same_data GetDefault.
Proof. unfold GetDefault. steps_go. Qed.

(** The part of the pass that decides whether to buy. *)
Lemma anchorOnce_run s r s' : StronglySorted ids_ascend (audit_log (tables (pb_logs s))) ->
  anchorOnce kr rpcURL s = (r, s') ->
  let '(h, n) := chain_at (tables (pb_logs s)) in
  (r <> Ok true /\ idle s s') \/
  (h <> "" /\ tables (pb_logs s') = tables (pb_logs s) /\ r <> Ok true /\ r <> Ok false /\ pb_paid s <= pb_paid s' <= pb_paid s + 1) \/
  (h <> "" /\ exists addr, r = Ok true /\ tables (pb_logs s') = record_anchor h n addr (tables (pb_logs s)) /\
     pb_paid s <= pb_paid s' <= pb_paid s + 1).
Proof.
  intros Hs. cbn [chain_at]. set (h := end_hash _ _). set (n := affected _ _). unfold anchorOnce.
  unfold mbind at 1, ST_bind at 1. destruct (try (pdb (Get auditAnchorEnabledSetting)) s) as [v s1] eqn:Hv.
  assert (idle s s1) as I1 by (eapply (steps_run idle); [apply steps_try, steps_idle_pdb, steps_Get|exact Hv]).
  destruct v as [v|e]; [|intros [= <- <-]; left; by split].
  destruct (negb _); [intros [= <- <-]; left; by split|].
  unfold mbind at 1, ST_bind at 1. destruct (try (pdb GetDefault) s1) as [w s2] eqn:Hw.
  assert (idle s s2) as I2.
  { etransitivity; [exact I1|]. eapply (steps_run idle); [apply steps_try, steps_idle_pdb, steps_GetDefault|exact Hw]. }
  destruct w as [[wallet|e]|e]; [|intros [= <- <-]; left; by split..].
  unfold mbind at 1, ST_bind at 1. destruct (plogs AuditChainHead s2) as [hd s3] eqn:Hh.
  pose proof I2 as (Hp2 & Ht2 & Hd2).
  assert (idle s s3 /\ (hd = Ok (h, n) \/ exists e, hd = Err e)) as [I3 [->|[e ->]]].
  { unfold plogs, zoom in Hh. destruct (AuditChainHead (pb_logs s2)) as [x l] eqn:E. injection Hh as <- <-.
    apply AuditChainHead_run in E as [Et E]; [|by rewrite Ht2]. rewrite Ht2 in Et, E. by split. }
  2: { intros [= <- <-]. left. by split. }
  destruct (String.eqb_spec h "") as [Hh0|Hh0]; [intros [= <- <-]; left; by split|].
  unfold mbind at 1, ST_bind at 1. destruct (try (plogs LatestAuditAnchor) s3) as [l s4] eqn:Hl.
  assert (idle s s4) as I4.
  { etransitivity; [exact I3|]. eapply (steps_run idle); [|exact Hl]. apply steps_try, steps_idle_logs.
    intros w0. destruct (LatestAuditAnchor w0) eqn:E. apply LatestAuditAnchor_run in E as [E _]. unfold on_tables. cbn. by rewrite E. }
  destruct l as [l|e]; [|intros [= <- <-]; left; by split].
  match goal with |- context [if ?c then _ else _] => destruct c end; [intros [= <- <-]; left; by split|].
  destruct (String.eqb rpcURL ""); [intros [= <- <-]; left; by split|].
  unfold mbind at 1, ST_bind at 1, map_err at 1, of_result at 1.
  destruct (DecryptKey kr wallet) as [walletKey|e]; [|intros [= <- <-]; left; by split].
  unfold mbind at 1, ST_bind at 1, map_err at 1, ppay at 1, zoom at 1.
  pose proof I4 as (Hp4 & Ht4 & Hd4).
  destruct (NewSigner_ rpcURL (pb_pay s4)) as [[[]|e] p5].
  2: { intros [= <- <-]. left. by split. }
  unfold mbind at 1, ST_bind at 1. destruct (PublishChunk _ _ _ _) as [y s6] eqn:Hpub.
  apply PublishChunk_run in Hpub as (addr & o & -> & (_ & Hl6 & _) & Hp6 & _). cbn in Hl6, Hp6.
  assert (pb_paid s <= pb_paid s6 <= pb_paid s + 1) as Hpaid by (destruct o as [[]|]; lia).
  right. revert H. destruct o as [out|e].
  2: { intros [= <- <-]. left. cbn. rewrite Hl6. split_and!; try done; lia. }
  unfold mbind, ST_bind, map_err, of_result, plogs, zoom, mret, ST_ret.
  destruct (RecordAuditAnchor h n addr "" (pb_logs s6)) as [x l7] eqn:Hrec.
  apply write_run in Hrec as [[-> E]|(e & -> & E)]; intros [= <- <-]; cbn.
  - right. split; [done|]. exists addr. rewrite E, Hl6, Ht4. split; [reflexivity|]. split; [reflexivity|exact Hpaid].
  - left. rewrite E, Hl6. split_and!; try done; lia.
Qed.

(** Once the head is anchored a pass without log failures stops early. *)
Lemma anchored_idle t addr s2 r2 s3 : anchors_ok t ->
  tables (pb_logs s2) = (let '(h, n) := chain_at t in record_anchor h n addr t) -> sched (pb_logs s2) = [] ->
  StronglySorted ids_ascend (audit_log t) -> fst (chain_at t) <> "" ->
  anchorOnce kr rpcURL s2 = (r2, s3) -> r2 = Ok false /\ pb_paid s3 = pb_paid s2.
Proof.
  cbn [chain_at fst]. intros Ha Ht Hsch Hs Hh. unfold anchorOnce.
  assert (forall s4, pb_logs s4 = pb_logs s2 -> plogs AuditChainHead s4 = (Ok (chain_at t), s4) /\
    plogs LatestAuditAnchor s4 = (Ok (newest_anchor (tables (pb_logs s2))), s4)) as Hlogs.
  { intros s4 E. unfold plogs, zoom. rewrite E, AuditChainHead_healthy, LatestAuditAnchor_healthy by (done || by rewrite Ht).
    rewrite Ht. unfold put_pb_logs. rewrite <- E. by destruct s4. }
  unfold mbind at 1, ST_bind at 1, try at 1, pdb at 1, zoom at 1.
  destruct (Get auditAnchorEnabledSetting (pb_db s2)) as [v d1].
  destruct (negb _); [intros [= <- <-]; by split|].
  unfold mbind at 1, ST_bind at 1, try at 1, pdb at 1, zoom at 1.
  destruct (GetDefault _) as [[wallet|e] d2]; [|intros [= <- <-]; by split].
  match goal with |- context [plogs AuditChainHead] => idtac end.
  unfold mbind at 1, ST_bind at 1. match goal with |- context [plogs AuditChainHead ?x] => destruct (Hlogs x eq_refl) as [-> Hl] end.
  unfold chain_at. rewrite (proj2 (String.eqb_neq _ _)) by done.
  unfold mbind at 1, ST_bind at 1, try at 1. rewrite Hl, Ht. unfold chain_at. rewrite newest_recorded by done.
  unfold head_anchored. cbn [an_RowCount an_HeadHash]. rewrite Z.eqb_refl, String.eqb_refl. intros [= <- <-]. by split.
Qed.

(** A pass of the anchor worker pays at most once. It reports an anchor only
    when it recorded the current head and count; when it reports none it has
    neither paid nor written; and after an anchor no later pass over the same
    log pays again, whatever else changed. *)
Theorem anchorOnce_commits (s s' : PubState P W) (r : result error bool)
    (Hi : intact (tables (pb_logs s))) (Ha : anchors_ok (tables (pb_logs s)))
    (Hrun : anchorOnce kr rpcURL s = (r, s')) :
  let '(h, n) := chain_at (tables (pb_logs s)) in
  pb_paid s <= pb_paid s' <= pb_paid s + 1 /\
  (r = Ok false -> pb_paid s' = pb_paid s /\ tables (pb_logs s') = tables (pb_logs s)) /\
  (r = Ok true ->
    (exists addr, tables (pb_logs s') = record_anchor h n addr (tables (pb_logs s))) /\
    forall s2 r2 s3, tables (pb_logs s2) = tables (pb_logs s') -> sched (pb_logs s2) = [] ->
      anchorOnce kr rpcURL s2 = (r2, s3) -> r2 = Ok false /\ pb_paid s3 = pb_paid s2).
Proof.
  pose proof (anchorOnce_run s r s' (proj1 Hi) Hrun) as Hcase. unfold chain_at in *.
  destruct Hcase as [(Hr & Hp & Ht & _)|[(Hh & Ht & Hr & Hr' & Hp)|(Hh & addr & -> & Ht & Hp)]].
  - split_and!; [lia|lia|done|done].
  - split_and!; [lia|lia|done|done].
  - split_and!; [lia|lia|done|]. intros _. split; [eauto|]. intros s2 r2 s3 Ht2 Hsch Hrun2.
    by apply (anchored_idle (tables (pb_logs s)) addr s2 r2 s3 Ha); [rewrite Ht2, Ht| |apply Hi| |].
Qed.
End anchor.

(** ** Witnesses *)

(** A payer that takes every payment and a daemon that stores nothing yet, or
    claims to hold everything and can return nothing. *)
Definition open_payer : Payer unit := {|
  NewSigner_ := fun _ => mret tt; RPCUrl_ := fun _ => None; SetConfirmationTimeout_ := fun _ p => p;
  PayForQuotes_ := fun _ _ _ _ => mret ∅; PayForMerkleTree_ := fun _ _ _ _ _ _ => mret ("", "");
  EnsureMerkleAllowance_ := fun _ _ _ _ => mret tt; GetBalances_ := fun _ _ => mret ("0", "0") |}.

Definition chunk_store : ChunkPublisher (list Z) := {|
  PrepareChunkUpload := fun raw w => (Ok (mkPrepareChunk false "addr" "up" [mkPayment "q" "r" "1"] "t" "v"), raw);
  FinalizeChunkUpload := fun _ _ => mret "addr";
  ChunkGet := fun _ w => (Ok w, w) |}.

Definition boastful : ChunkPublisher (list Z) := {|
  PrepareChunkUpload := fun _ => mret (mkPrepareChunk true "addr" "" [] "" "");
  FinalizeChunkUpload := fun _ _ => mret "addr";
  ChunkGet := fun _ => fail (ENew "not found") |}.

Definition two_logs : World LogTables := Eval vm_compute in run_ops two_events fresh_logs.

Lemma two_logs_intact : intact (tables two_logs).
Proof.
  assert (two_logs = run_ops two_events fresh_logs) as -> by (vm_compute; reflexivity).
  exact (proj1 (run_ops_intact two_events fresh_logs fresh_intact)).
Qed.

Definition anchor_db : Db :=
  set_settings [("audit_anchor_enabled", "true")] (set_wallets [mkWallet 1 "w" "0x1" envelope true "0" "0" 0 0] queue_db).
Definition anchor_state (d : Db) : PubState unit (list Z) :=
  mkPub d two_logs tt [] [] 0.

Example anchorOnce_commits_witness :
  let s := anchor_state anchor_db in
  let run := anchorOnce (payer := open_payer) (publisher := chunk_store) (aead := clear_aead) (ring (test_key "a"%char) []) "rpc" in
  (let '(h, n) := chain_at (tables (pb_logs s)) in
   pb_paid s <= pb_paid (snd (run s)) <= pb_paid s + 1 /\
   (fst (run s) = Ok false -> pb_paid (snd (run s)) = pb_paid s /\ tables (pb_logs (snd (run s))) = tables (pb_logs s)) /\
   (fst (run s) = Ok true ->
     (exists addr, tables (pb_logs (snd (run s))) = record_anchor h n addr (tables (pb_logs s))) /\
     forall s2 r2 s3, tables (pb_logs s2) = tables (pb_logs (snd (run s))) -> sched (pb_logs s2) = [] ->
       run s2 = (r2, s3) -> r2 = Ok false /\ pb_paid s3 = pb_paid s2)) /\
  fst (run s) = Ok true.
Proof.
  intros s run. split; [|vm_compute; reflexivity].
  apply (anchorOnce_commits (payer := open_payer) (publisher := chunk_store) (aead := clear_aead)
    (ring (test_key "a"%char) []) "rpc" s (snd (run s)) (fst (run s))).
  - exact two_logs_intact.
  - split; [constructor|by intros a []].
  - exact (surjective_pairing _).
Defined.

(** The pass asks for a verified chunk, but a chunk the daemon says it holds is
    recorded without being read back. *)
Example stored_anchor_is_not_verified :
  fst (anchorOnce (payer := open_payer) (publisher := boastful) (aead := clear_aead) (ring (test_key "a"%char) []) "rpc"
    (anchor_state anchor_db)) = Ok true.
Proof. vm_compute. reflexivity. Qed.

Definition private_pair : Db :=
  set_uploads [set_u_visibility Private paid_upload; set_u_data_map (Some "zz") paid_upload] queue_db.

Example PublishDataMaps_reports_witness :
  let s := anchor_state private_pair in
  let out := PublishDataMaps (payer := open_payer) (publisher := chunk_store) "key" (mkOptions false 0 "" true) s in
  match fst out with
  | Ok (run, e) =>
      (only_uploads (pb_db s) (apply_rows (rn_Rows run) (uploads (pb_db s))) (pb_db (snd out)) /\ tallied run /\
       pb_paid s <= pb_paid (snd out) <= pb_paid s + sum_by row_cost (rn_Rows run) /\
       (e = None -> rn_Candidates run = Z.of_nat (length (rn_Rows run))) /\
       (false = true -> pb_paid (snd out) = pb_paid s /\ same_data (pb_db s) (pb_db (snd out)))) /\
      map rr_Outcome (rn_Rows run) = [OutVerified; OutFailed]
  | Err _ => False
  end.
Proof.
  intros s out. destruct out as [[[run e]|err] s'] eqn:E; [|vm_compute in E; discriminate].
  split; [apply (PublishDataMaps_reports (payer := open_payer) (publisher := chunk_store) "key" (mkOptions false 0 "" true) s s' run e E)|].
  vm_compute in E. by injection E as <- _ _.
Defined.
