(* ===== verification/Selector.v ===== *)
(** * Label selectors

    src/internal/services/selector.go: the parser of label selectors and the
    SQL clauses they become. *)

From S2P Require Import Prelude GoLib.
From Stdlib Require Import Ascii.
From stdpp Require Import pretty.

Open Scope Z_scope.

(** [Operator]: "=", "!=", "in", "notin", "exists", "notexists". *)
Inductive operator := OpEq | OpNe | OpIn | OpNotIn | OpExists | OpNotExists.

#[export] Instance operator_eq_dec : EqDecision operator.
Proof. solve_decision. Defined.

Record Requirement := mkReq { r_Key : string; r_Operator : operator; r_Values : list string }.

#[export] Instance Requirement_eq_dec : EqDecision Requirement.
Proof. solve_decision. Defined.

Definition maxRequirements : nat := 10.
Definition maxValues : nat := 20.

(** ** The classes of keyRegex and valueRegex *)

Definition in_range (lo hi : N) (c : ascii) : bool := (lo <=? N_of_ascii c)%N && (N_of_ascii c <=? hi)%N.
Definition is_alnum (c : ascii) : bool := in_range 97 122 c || in_range 65 90 c || in_range 48 57 c.
Definition one_of (s : string) (c : ascii) : bool := existsb (Ascii.eqb c) (String.list_ascii_of_string s).

(** [^first rest{0,n}$]. *)
Definition matches_class (first rest : ascii -> bool) (n : nat) (s : string) : bool :=
  match s with
  | EmptyString => false
  | String c s' => first c && string_forallb rest s' && (String.length s' <=? n)%nat
  end.

Definition key_rest (c : ascii) : bool := is_alnum c || one_of "._-" c.
Definition keyRegex : string -> bool := matches_class is_alnum key_rest 62.

Definition value_rest (c : ascii) : bool := is_alnum c || one_of "._/ -" c.
Definition valueRegex : string -> bool := matches_class (fun c => is_alnum c || one_of "/" c) value_rest 253.

Definition validateKey (key : string) : result error unit :=
  if String.eqb key "" then Err (ENew "key must not be empty") else
  if negb (keyRegex key) then Err (ENew "invalid key") else Ok tt.

Definition validateValue (value : string) : result error unit :=
  if String.eqb value "" then Err (ENew "value must not be empty") else
  if negb (valueRegex value) then Err (ENew "invalid value") else Ok tt.

(** ** The parser *)

Abbreviation R A := (result error A).

Definition rbind {A B} (r : R A) (f : A -> R B) : R B := match r with Ok a => f a | Err e => Err e end.

(** The loop of splitSelector: [part] is [input[start:i]]; the parts found. *)
Fixpoint split_go (input : string) (depth : Z) (part : string) : R (list string) :=
  let emit rest := let p := TrimSpace part in if String.eqb p "" then rest else p :: rest in
  match input with
  | EmptyString => if negb (depth =? 0) then Err (ENew "unclosed '(' in selector") else Ok (emit [])
  | String c rest =>
      if Ascii.eqb c "(" then split_go rest (depth + 1) (part +:+ String c EmptyString)
      else if Ascii.eqb c ")" then
        if depth - 1 <? 0 then Err (ENew "unexpected ')'") else split_go rest (depth - 1) (part +:+ String c EmptyString)
      else if Ascii.eqb c "," && (depth =? 0) then rbind (split_go rest depth "") (fun l => Ok (emit l))
      else split_go rest depth (part +:+ String c EmptyString)
  end.

Definition splitSelector (input : string) : R (list string) := split_go input 0 "".

Definition parseComparisonRequirement (s : string) (idx : nat) (op : operator) (opLen : nat) : R Requirement :=
  let key := TrimSpace (take_str idx s) in
  let value := TrimSpace (drop_str (idx + opLen) s) in
  rbind (validateKey key) (fun _ => rbind (validateValue value) (fun _ => Ok (mkReq key op [value]))).

Fixpoint check_values (rawVals : list string) : R (list string) :=
  match rawVals with
  | [] => Ok []
  | v :: rest =>
      let v := TrimSpace v in
      if String.eqb v "" then Err (ENew "operator contains empty value") else
      rbind (validateValue v) (fun _ => rbind (check_values rest) (fun vs => Ok (v :: vs)))
  end.

(** [rest[1 : len(rest)-1]]. *)
Definition inner_of (rest : string) : string := take_str (String.length rest - 2) (drop_str 1 rest).

Definition parseSetRequirement (s : string) (idx : nat) (keyword : string) (op : operator) : R Requirement :=
  let key := TrimSpace (take_str idx s) in
  let rest := TrimSpace (drop_str (idx + String.length keyword) s) in
  rbind (validateKey key) (fun _ =>
  if negb (HasPrefix rest "(") || negb (HasSuffix rest ")")
  then Err (ENew "operator requires parenthesised value list") else
  let rawVals := Split (inner_of rest) "," in
  if (maxValues <? length rawVals)%nat then Err (ENew "too many values") else
  rbind (check_values rawVals) (fun values => Ok (mkReq key op values))).

Definition parseRequirement (s : string) : R Requirement :=
  let s := TrimSpace s in
  if HasPrefix s "!" then
    let key := TrimSpace (drop_str 1 s) in
    rbind (validateKey key) (fun _ => Ok (mkReq key OpNotExists []))
  else match Index s " notin " with
  | Some idx => parseSetRequirement s idx " notin " OpNotIn
  | None =>
  match Index s " in " with
  | Some idx => parseSetRequirement s idx " in " OpIn
  | None =>
  match Index s "!=" with
  | Some idx => parseComparisonRequirement s idx OpNe 2
  | None =>
  match Index s "=" with
  | Some idx => parseComparisonRequirement s idx OpEq 1
  | None => rbind (validateKey s) (fun _ => Ok (mkReq s OpExists []))
  end end end end.

Fixpoint parse_all (parts : list string) : R (list Requirement) :=
  match parts with
  | [] => Ok []
  | p :: rest => rbind (parseRequirement p) (fun r => rbind (parse_all rest) (fun rs => Ok (r :: rs)))
  end.

Definition ParseSelector (input : string) : R (list Requirement) :=
  let input := TrimSpace input in
  if String.eqb input "" then Ok [] else
  rbind (splitSelector input) (fun parts =>
  if (maxRequirements <? length parts)%nat then Err (ENew "too many requirements") else parse_all parts).

(** ** The SQL clauses *)

Definition subquery (neg : bool) (cond : string) : string :=
  (if neg then "NOT EXISTS " else "EXISTS ") +:+
  "(SELECT 1 FROM file_tags ft WHERE ft.upload_id = u.id AND ft.tag_key = ?" +:+ cond +:+ ")".

Definition placeholders (vs : list string) : string := GoLib.Join (map (fun _ => "?") vs) ",".

Definition clause (r : Requirement) : string :=
  match r_Operator r with
  | OpEq => subquery false " AND ft.tag_value = ?"
  | OpNe => subquery true " AND ft.tag_value = ?"
  | OpIn => subquery false (" AND ft.tag_value IN (" +:+ placeholders (r_Values r) +:+ ")")
  | OpNotIn => subquery true (" AND ft.tag_value IN (" +:+ placeholders (r_Values r) +:+ ")")
  | OpExists => subquery false ""
  | OpNotExists => subquery true ""
  end.

(** [r.Values[0]] panics on a requirement without values: [None]. *)
Definition clause_args (r : Requirement) : option (list string) :=
  match r_Operator r with
  | OpEq | OpNe => v ← head (r_Values r); Some [r_Key r; v]
  | OpIn | OpNotIn => Some (r_Key r :: r_Values r)
  | OpExists | OpNotExists => Some [r_Key r]
  end.

Fixpoint BuildSelectorSQL (reqs : list Requirement) : option (list string * list string) :=
  match reqs with
  | [] => Some ([], [])
  | r :: rest =>
      a ← clause_args r; '(cs, args) ← BuildSelectorSQL rest;
      Some (clause r :: cs, a ++ args)
  end.

(** * Properties *)

(** ** What the parser accepts *)

Definition valid_req (r : Requirement) : bool :=
  keyRegex (r_Key r) && forallb valueRegex (r_Values r) &&
  match r_Operator r with
  | OpEq | OpNe => (length (r_Values r) =? 1)%nat
  | OpIn | OpNotIn => (1 <=? length (r_Values r))%nat && (length (r_Values r) <=? maxValues)%nat
  | OpExists | OpNotExists => (length (r_Values r) =? 0)%nat
  end.

Lemma rbind_ok {A B} (r : R A) (f : A -> R B) b : rbind r f = Ok b -> exists a, r = Ok a /\ f a = Ok b.
Proof. destruct r; cbn; [eauto|done]. Qed.

Lemma validateKey_ok k u : validateKey k = Ok u -> keyRegex k = true.
Proof. unfold validateKey. destruct (String.eqb k ""); [done|]. by destruct (keyRegex k). Qed.

Lemma validateValue_ok v u : validateValue v = Ok u -> valueRegex v = true.
Proof. unfold validateValue. destruct (String.eqb v ""); [done|]. by destruct (valueRegex v). Qed.

Lemma check_values_ok raw : forall vs, check_values raw = Ok vs -> length vs = length raw /\ forallb valueRegex vs = true.
Proof.
  induction raw as [|v raw IH]; intros vs; cbn; [by intros [= <-]|]. destruct (String.eqb _ _); [done|].
  intros (u & Hv%validateValue_ok & (rest & Hr & [= <-])%rbind_ok)%rbind_ok.
  apply IH in Hr as [Hl Hr]. cbn. by rewrite Hl, Hv, Hr.
Qed.

Lemma parseComparison_valid s i op n r : op = OpEq \/ op = OpNe -> parseComparisonRequirement s i op n = Ok r -> valid_req r = true.
Proof.
  intros Hop. unfold parseComparisonRequirement.
  intros (u & Hk%validateKey_ok & (u' & Hv%validateValue_ok & [= <-])%rbind_ok)%rbind_ok.
  unfold valid_req. cbn [r_Key r_Values r_Operator forallb]. rewrite Hk, Hv. by destruct Hop as [->| ->].
Qed.

Lemma parseSet_valid s i kw op r : op = OpIn \/ op = OpNotIn -> parseSetRequirement s i kw op = Ok r -> valid_req r = true.
Proof.
  intros Hop. unfold parseSetRequirement. intros (u & Hk%validateKey_ok & H)%rbind_ok.
  destruct (_ || _); [done|]. destruct (Nat.ltb_spec maxValues (length (Split (inner_of (TrimSpace (drop_str (i + String.length kw) s))) ","))); [done|].
  apply rbind_ok in H as (vs & [Hl Hv]%check_values_ok & [= <-]).
  unfold valid_req. cbn [r_Key r_Values r_Operator]. rewrite Hk, Hv, Hl. cbn [andb].
  set (raw := Split _ _) in *. assert (1 <= length raw)%nat.
  { pose proof (Split_not_nil (inner_of (TrimSpace (drop_str (i + String.length kw) s))) ","). subst raw. by destruct (Split _ _); cbn; [|lia]. }
  destruct Hop as [->| ->]; apply andb_true_intro; split; apply Nat.leb_le; lia.
Qed.

Lemma parseRequirement_valid s r : parseRequirement s = Ok r -> valid_req r = true.
Proof.
  unfold parseRequirement. generalize (TrimSpace s). intros t. cbv zeta. destruct (HasPrefix t "!").
  { generalize (TrimSpace (drop_str 1 t)). intros key (u & Hk%validateKey_ok & [= <-])%rbind_ok. unfold valid_req. cbn [r_Key r_Values r_Operator]. by rewrite Hk. }
  destruct (Index t " notin "); [apply parseSet_valid; auto|]. destruct (Index t " in "); [apply parseSet_valid; auto|].
  destruct (Index t "!="); [apply parseComparison_valid; auto|]. destruct (Index t "="); [apply parseComparison_valid; auto|].
  intros (u & Hk%validateKey_ok & [= <-])%rbind_ok. unfold valid_req. cbn [r_Key r_Values r_Operator]. by rewrite Hk.
Qed.

Lemma parse_all_valid parts : forall rs, parse_all parts = Ok rs -> length rs = length parts /\ forallb valid_req rs = true.
Proof.
  induction parts as [|p parts IH]; intros rs; cbn; [by intros [= <-]|].
  intros (r & Hr%parseRequirement_valid & (rest & Hrest & [= <-])%rbind_ok)%rbind_ok.
  apply IH in Hrest as [Hl Hrest]. cbn. by rewrite Hl, Hr, Hrest.
Qed.

Lemma ParseSelector_valid input rs : ParseSelector input = Ok rs ->
  forallb valid_req rs = true /\ (length rs <= maxRequirements)%nat.
Proof.
  unfold ParseSelector. destruct (String.eqb _ _); [intros [= <-]; cbn; split; [done|lia]|].
  intros (parts & _ & H)%rbind_ok. destruct (Nat.ltb_spec maxRequirements (length parts)); [done|].
  apply parse_all_valid in H as [Hl H]. split; [done|lia].
Qed.

(** ** What the clauses mean *)

(** A clause without its text: the subquery over the tags of one upload. *)
Inductive condition := CKey | CValue | CValueIn (n : nat).
Record Clause := mkClause { cl_neg : bool; cl_cond : condition }.

Definition render (c : Clause) : string :=
  subquery (cl_neg c) match cl_cond c with
    | CKey => ""
    | CValue => " AND ft.tag_value = ?"
    | CValueIn n => " AND ft.tag_value IN (" +:+ GoLib.Join (repeat "?" n) "," +:+ ")"
    end.

Definition arity (c : Clause) : nat := match cl_cond c with CKey => 1 | CValue => 2 | CValueIn n => S n end.

(** The clause on an upload with these tags, its placeholders bound in order. *)
Definition sql_holds (tags : list (string * string)) (c : Clause) (args : list string) : bool :=
  let matching := existsb (fun t => match args with
    | [] => false
    | k :: vs => String.eqb (fst t) k && match cl_cond c with CKey => true | _ => existsb (String.eqb (snd t)) vs end
    end) tags in
  if cl_neg c then negb matching else matching.

Fixpoint sql_where (tags : list (string * string)) (cs : list Clause) (args : list string) : bool :=
  match cs with
  | [] => true
  | c :: rest => sql_holds tags c (firstn (arity c) args) && sql_where tags rest (skipn (arity c) args)
  end.

(** What a requirement promises. *)
Definition req_holds (tags : list (string * string)) (r : Requirement) : Prop :=
  let has v := In (r_Key r, v) tags in
  match r_Operator r with
  | OpEq | OpIn => exists v, In v (r_Values r) /\ has v
  | OpNe | OpNotIn => forall v, In v (r_Values r) -> ~ has v
  | OpExists => exists v, has v
  | OpNotExists => forall v, ~ has v
  end.

Fixpoint count_char (c : ascii) (s : string) : nat :=
  match s with EmptyString => 0 | String d s' => (if Ascii.eqb d c then 1 else 0) + count_char c s' end.

Definition clause_of (r : Requirement) : Clause :=
  match r_Operator r with
  | OpEq => mkClause false CValue | OpNe => mkClause true CValue
  | OpIn => mkClause false (CValueIn (length (r_Values r))) | OpNotIn => mkClause true (CValueIn (length (r_Values r)))
  | OpExists => mkClause false CKey | OpNotExists => mkClause true CKey
  end.

Lemma map_const {A B} (b : B) (l : list A) : map (fun _ => b) l = repeat b (length l).
Proof. induction l as [|x l IH]; cbn; [done|]. by f_equal. Qed.

Lemma clause_render r : clause r = render (clause_of r).
Proof. unfold clause, render, clause_of, placeholders. rewrite map_const. by destruct (r_Operator r). Qed.

Lemma count_app c a b : count_char c (a +:+ b) = (count_char c a + count_char c b)%nat.
Proof.
  induction a as [|x a IH]; [done|].
  change (((if Ascii.eqb x c then 1 else 0) + count_char c (a +:+ b))%nat = ((if Ascii.eqb x c then 1 else 0) + count_char c a + count_char c b)%nat).
  rewrite IH. lia.
Qed.

Lemma count_placeholders n : count_char "?" (GoLib.Join (repeat "?" n) ",") = n.
Proof.
  induction n as [|n IH]; [done|]. destruct n as [|n]; [done|].
  change (GoLib.Join (repeat "?" (S (S n))) ",") with ("?" +:+ "," +:+ GoLib.Join (repeat "?" (S n)) ",").
  rewrite !count_app, IH. done.
Qed.

Lemma render_placeholders c : count_char "?" (render c) = arity c.
Proof.
  unfold render, subquery, arity. destruct c as [neg cond]. cbn [cl_neg cl_cond]. rewrite !count_app.
  destruct cond as [| |n]; [by destruct neg..|]. rewrite !count_app, count_placeholders. destruct neg; cbn; lia.
Qed.

Lemma clause_args_valid r : valid_req r = true -> exists args, clause_args r = Some args /\
  args = r_Key r :: r_Values r /\ length args = arity (clause_of r).
Proof.
  unfold valid_req, clause_args, clause_of, arity. intros [_ H]%andb_prop.
  destruct (r_Operator r); cbn; try apply Nat.eqb_eq in H; try (eexists; split; [reflexivity|]; by rewrite ?H).
  - destruct (r_Values r) as [|v [|]]; try done. by eexists.
  - destruct (r_Values r) as [|v [|]]; try done. by eexists.
  - destruct (r_Values r); [|done]. by eexists.
  - destruct (r_Values r); [|done]. by eexists.
Qed.

Lemma existsb_In {A} (p : A -> bool) l : existsb p l = true <-> exists x, In x l /\ p x = true.
Proof. apply existsb_exists. Qed.

Lemma matching_spec tags k vs (any : bool) :
  existsb (fun t : string * string => String.eqb (fst t) k && (any || existsb (String.eqb (snd t)) vs)) tags = true <->
  exists v, (any = true \/ In v vs) /\ In (k, v) tags.
Proof.
  rewrite existsb_In. split.
  - intros ([k' v] & Hin & [Hk%String.eqb_eq Hv]%andb_prop). cbn in *. subst k'. exists v. split; [|done].
    apply orb_prop in Hv as [Hv|(w & Hw & Hv%String.eqb_eq)%existsb_In]; [by left|]. subst w. by right.
  - intros (v & Hv & Hin). exists (k, v). split; [done|]. cbn. rewrite String.eqb_refl. cbn.
    destruct Hv as [->|Hv]; [done|]. apply orb_true_iff. right. apply existsb_In. exists v. by rewrite String.eqb_refl.
Qed.

Lemma sql_holds_req tags r : valid_req r = true ->
  sql_holds tags (clause_of r) (r_Key r :: r_Values r) = true <-> req_holds tags r.
Proof.
  intros Hv. unfold sql_holds, clause_of, req_holds.
  pose proof (matching_spec tags (r_Key r) (r_Values r) false) as Hval. cbn [orb] in Hval.
  pose proof (matching_spec tags (r_Key r) (r_Values r) true) as Hkey. cbn [orb] in Hkey.
  destruct (r_Operator r); cbn [cl_neg cl_cond]; rewrite ?negb_true_iff, <- ?not_true_iff_false, ?Hval, ?Hkey; naive_solver.
Qed.

Lemma build_valid rs : forallb valid_req rs = true ->
  exists args, BuildSelectorSQL rs = Some (map clause rs, args) /\
    length args = sum_list_with arity (map clause_of rs) /\
    forall tags, sql_where tags (map clause_of rs) args = true <-> Forall (req_holds tags) rs.
Proof.
  induction rs as [|r rs IH]; cbn.
  { intros _. exists []. by split_and!. }
  intros [Hr Hrs]%andb_prop. destruct (IH Hrs) as (args & -> & Hlen & Hsem).
  destruct (clause_args_valid r Hr) as (a & -> & Ha & Hal). cbn. exists (a ++ args). split; [done|].
  rewrite length_app, Hal, Hlen. split; [done|]. intros tags. rewrite <- Hal, take_app_length, drop_app_length.
  rewrite andb_true_iff, Hsem, Ha, sql_holds_req by done. by rewrite Forall_cons.
Qed.

Lemma total_placeholders cs : sum_list_with (count_char "?") (map render cs) = sum_list_with arity cs.
Proof.
  induction cs as [|c cs IH]; [done|]. cbn [map sum_list_with]. by rewrite render_placeholders, IH.
Qed.

(** An accepted selector becomes the SQL it means: the clauses never panic,
    their text is made of fixed templates that hold no input and one
    placeholder per argument, and on the tags of an upload they hold exactly
    when every requirement does. *)
Theorem selector_refines (input : string) (rs : list Requirement) (H : ParseSelector input = Ok rs) :
  exists cs args, BuildSelectorSQL rs = Some (map render cs, args) /\ length cs = length rs /\
    length args = sum_list_with (count_char "?") (map render cs) /\
    forall tags, sql_where tags cs args = true <-> Forall (req_holds tags) rs.
Proof.
  apply ParseSelector_valid in H as [Hv _]. destruct (build_valid rs Hv) as (args & Hb & Hlen & Hsem).
  exists (map clause_of rs), args. split_and!; [| by rewrite length_map| |done].
  - rewrite Hb, map_map. do 2 f_equal. apply map_ext. apply clause_render.
  - by rewrite Hlen, total_placeholders.
Qed.

(** * Label selectors: printing and parsing back

    A requirement printed in the documented syntax parses back to itself, and so
    does a whole selector, unless a value holds one of the words the parser
    takes for an operator. *)

Open Scope Z_scope.

(** ** Printing *)

Definition set_text (vs : list string) : string := "(" +:+ GoLib.Join vs "," +:+ ")".

Definition print_req (r : Requirement) : string :=
  match r_Operator r with
  | OpEq => r_Key r +:+ "=" +:+ default "" (head (r_Values r))
  | OpNe => r_Key r +:+ "!=" +:+ default "" (head (r_Values r))
  | OpIn => r_Key r +:+ " in " +:+ set_text (r_Values r)
  | OpNotIn => r_Key r +:+ " notin " +:+ set_text (r_Values r)
  | OpExists => r_Key r
  | OpNotExists => "!" +:+ r_Key r
  end.

Definition print_selector (rs : list Requirement) : string := GoLib.Join (map print_req rs) ",".

(** A value the parser can see as one: no white space at its end, no operator
    word inside. *)
Definition plain_value (v : string) : bool :=
  last_ok v && negb (Contains v " in ") && negb (Contains v " notin ").

Definition printable (r : Requirement) : bool := valid_req r && forallb plain_value (r_Values r).

(** ** Characters *)

Lemma avoid p c s : p c = false -> string_forallb p s = true -> string_forallb (all_but c) s = true.
Proof.
  intros Hc. apply string_forallb_impl. intros x Hx. unfold all_but. destruct (Ascii.eqb_spec x c) as [->|]; [congruence|done].
Qed.

Lemma class_chars first rest n s : (forall c, first c = true -> rest c = true) -> matches_class first rest n s = true ->
  exists c s', s = String c s' /\ first c = true /\ string_forallb rest s = true.
Proof.
  intros H. destruct s as [|c s]; [done|]. cbn. intros [[Hc Hs]%andb_prop _]%andb_prop.
  exists c, s. by rewrite (H c Hc), Hs.
Qed.

Lemma key_chars k : keyRegex k = true -> exists c k', k = String c k' /\ is_alnum c = true /\ string_forallb key_rest k = true.
Proof. apply class_chars. intros c H. unfold key_rest. by rewrite H. Qed.

Lemma value_chars v : valueRegex v = true -> exists c v', v = String c v' /\ (is_alnum c || one_of "/" c) = true /\ string_forallb value_rest v = true.
Proof.
  apply class_chars. intros c H. unfold value_rest. apply orb_prop in H as [H|H]; [by rewrite H|].
  apply orb_true_iff. right. unfold one_of in *. cbn in *. rewrite orb_false_r in H. rewrite H. by rewrite !orb_true_r.
Qed.

Lemma alnum_not_space c : is_alnum c = true -> is_space c = false.
Proof. destruct c as [[] [] [] [] [] [] [] []]; by vm_compute. Qed.

Lemma slash_not_space c : one_of "/" c = true -> is_space c = false.
Proof. destruct c as [[] [] [] [] [] [] [] []]; by vm_compute. Qed.

Lemma key_rest_not_space c : key_rest c = true -> negb (is_space c) = true.
Proof. destruct c as [[] [] [] [] [] [] [] []]; by vm_compute. Qed.

Lemma key_trim k : keyRegex k = true -> TrimSpace k = k.
Proof.
  intros (c & k' & -> & _ & H)%key_chars. apply (string_forallb_impl _ _ _ key_rest_not_space), all_ok_ends in H as [H1 H2].
  by apply TrimSpace_id.
Qed.

Lemma value_first v : valueRegex v = true -> first_ok v = true.
Proof.
  intros (c & v' & -> & Hc & _)%value_chars. cbn. apply orb_prop in Hc as [Hc|Hc];
    [by rewrite alnum_not_space|by rewrite slash_not_space].
Qed.

Lemma value_trim v : valueRegex v = true -> plain_value v = true -> TrimSpace v = v.
Proof. intros H [[Hl _]%andb_prop _]%andb_prop. by apply TrimSpace_id; [apply value_first|]. Qed.

Lemma key_nonempty k : keyRegex k = true -> k <> EmptyString.
Proof. by intros (c & k' & -> & _)%key_chars. Qed.

Lemma value_nonempty v : valueRegex v = true -> v <> EmptyString.
Proof. by intros (c & v' & -> & _)%value_chars. Qed.

Lemma validateKey_true k : keyRegex k = true -> validateKey k = Ok tt.
Proof. intros H. unfold validateKey. rewrite (proj2 (String.eqb_neq k "")) by by apply key_nonempty. by rewrite H. Qed.

Lemma validateValue_true v : valueRegex v = true -> validateValue v = Ok tt.
Proof. intros H. unfold validateValue. rewrite (proj2 (String.eqb_neq v "")) by by apply value_nonempty. by rewrite H. Qed.

(** ** Needles and separators *)

Lemma Contains_false s p : Contains s p = false <-> ~ exists a b, s = a +:+ p +:+ b.
Proof. rewrite <- Contains_spec. by rewrite not_true_iff_false. Qed.

Lemma prefix_of p : forall d a b y, string_forallb (all_but d) p = true -> p +:+ y = a +:+ String d b -> exists a', a = p +:+ a'.
Proof.
  intros d a b y Hp H. symmetry in H. apply split_at_byte in H as (a' & -> & _); [|done]. eauto.
Qed.

Lemma Contains_sep d p b : string_forallb (all_but d) p = true -> Contains b p = false ->
  forall a, Contains a p = false -> Contains (a +:+ String d b) p = false.
Proof.
  intros Hp Hb. induction a as [|c a IH]; intros Ha; apply Contains_false; intros (x & y & H).
  - destruct x as [|e x].
    + symmetry in H. change (p +:+ y = EmptyString +:+ String d b) in H. apply prefix_of in H as [a' Ha']; [|done]. destruct p; [|exfalso; apply (f_equal String.length) in Ha'; rewrite string_app_length in Ha'; cbn in Ha'; lia].
      apply Contains_false in Hb. apply Hb. by exists "", b.
    + injection H as _ H. apply Contains_false in Hb. apply Hb. by exists x, y.
  - destruct x as [|e x].
    + symmetry in H. change (p +:+ y = String c a +:+ String d b) in H. apply prefix_of in H as [a' Ha']; [|done]. apply Contains_false in Ha. apply Ha. by exists "", a'.
    + injection H as -> H. assert (Contains a p = false) as Ha'.
      { apply Contains_false. intros (u & v & Huv). apply Contains_false in Ha. apply Ha. exists (String e u), v. by rewrite Huv. }
      specialize (IH Ha'). apply Contains_false in IH. apply IH. by exists x, y.
Qed.

Lemma Contains_Join d p vs : string_forallb (all_but d) p = true -> p <> EmptyString ->
  forallb (fun v => negb (Contains v p)) vs = true -> Contains (GoLib.Join vs (String d EmptyString)) p = false.
Proof.
  intros Hp Hne. induction vs as [|v vs IH]; cbn [forallb].
  { intros _. by destruct p. }
  intros [Hv%negb_true_iff Hvs]%andb_prop. destruct vs as [|w vs]; [done|].
  change (GoLib.Join (v :: w :: vs) (String d EmptyString)) with (v +:+ String d (GoLib.Join (w :: vs) (String d EmptyString))).
  apply Contains_sep; [done|by apply IH|done].
Qed.

Lemma drop_str_app_more a n b : drop_str (String.length a + n) (a +:+ b) = drop_str n b.
Proof. induction a as [|c a IH]; [done|]. exact IH. Qed.

Lemma HasSuffix_app a p : HasSuffix (a +:+ p) p = true.
Proof.
  unfold HasSuffix. rewrite string_app_length. apply andb_true_intro. split; [apply Nat.leb_le; lia|].
  replace (String.length a + String.length p - String.length p)%nat with (String.length a + 0)%nat by lia.
  rewrite drop_str_app_more. apply String.eqb_refl.
Qed.

(** ** One requirement *)

Section requirement.
Context (k : string) (Hk : keyRegex k = true).

Lemma key_but c : key_rest c = false -> string_forallb (all_but c) k = true.
Proof. intros Hc. destruct (key_chars k Hk) as (x & k' & _ & _ & H). by apply (avoid key_rest). Qed.

Lemma key_no_bang w : HasPrefix (k +:+ w) "!" = false.
Proof.
  destruct (key_chars k Hk) as (x & k' & -> & Hx & _). change (String x k' +:+ w) with (String x (k' +:+ w)).
  cbn [HasPrefix]. destruct (Ascii.eqb_spec "!" x) as [<-|]; done.
Qed.

Lemma find_after_key c p w : key_rest c = false ->
  Index (k +:+ w) (String c p) = (fun n => (String.length k + n)%nat) <$> Index w (String c p).
Proof. intros Hc. by apply Index_skip, key_but. Qed.

Lemma parse_comparison (v op : string) (o : operator) n :
  valueRegex v = true -> plain_value v = true -> String.length op = n ->
  parseComparisonRequirement (k +:+ op +:+ v) (String.length k + 0) o n = Ok (mkReq k o [v]).
Proof.
  intros Hv Hp <-. unfold parseComparisonRequirement. rewrite Nat.add_0_r, take_str_app, key_trim by done.
  rewrite drop_str_app_more. replace (String.length op) with (String.length op + 0)%nat by lia. rewrite drop_str_app_more.
  cbn [drop_str]. rewrite value_trim, validateKey_true, validateValue_true by done. done.
Qed.

Lemma check_values_true vs : forallb valueRegex vs = true -> forallb plain_value vs = true -> check_values vs = Ok vs.
Proof.
  induction vs as [|v vs IH]; [done|]. cbn [forallb check_values]. intros [Hv Hvs]%andb_prop [Hp Hps]%andb_prop.
  rewrite value_trim, validateValue_true by done. rewrite (proj2 (String.eqb_neq v "")) by by apply value_nonempty.
  cbn [rbind]. by rewrite IH.
Qed.

Lemma set_text_trim vs : TrimSpace (set_text vs) = set_text vs.
Proof. apply TrimSpace_id; [done|]. unfold set_text. by rewrite <- string_app_assoc, last_ok_app. Qed.

Lemma inner_set_text vs : inner_of (set_text vs) = GoLib.Join vs ",".
Proof.
  unfold inner_of, set_text. rewrite !string_app_length. change (drop_str 1 ("(" +:+ GoLib.Join vs "," +:+ ")")) with (GoLib.Join vs "," +:+ ")").
  replace (String.length "(" + (String.length (GoLib.Join vs ",") + String.length ")") - 2)%nat with (String.length (GoLib.Join vs ",")) by (cbn; lia).
  apply take_str_app.
Qed.

Lemma values_no_comma vs : forallb valueRegex vs = true -> forallb (string_forallb (all_but ",")) vs = true.
Proof.
  rewrite !forallb_forall. intros H v Hv. destruct (value_chars v (H v Hv)) as (c & v' & _ & _ & Hall). by apply (avoid value_rest).
Qed.

Lemma parse_set (vs : list string) (kw : string) (o : operator) :
  vs <> [] -> (length vs <= maxValues)%nat -> forallb valueRegex vs = true -> forallb plain_value vs = true ->
  parseSetRequirement (k +:+ kw +:+ set_text vs) (String.length k + 0) kw o = Ok (mkReq k o vs).
Proof.
  intros Hne Hlen Hv Hp. unfold parseSetRequirement. rewrite Nat.add_0_r, take_str_app, key_trim by done.
  rewrite drop_str_app_more. replace (String.length kw) with (String.length kw + 0)%nat by lia. rewrite drop_str_app_more.
  cbn [drop_str]. rewrite set_text_trim, validateKey_true by done. cbn [rbind].
  assert (HasPrefix (set_text vs) "(" = true) as -> by done.
  assert (HasSuffix (set_text vs) ")" = true) as ->.
  { unfold set_text. rewrite <- string_app_assoc. apply HasSuffix_app. }
  cbn [negb orb]. rewrite inner_set_text, Split_Join by (done || by apply values_no_comma).
  rewrite (proj2 (Nat.ltb_ge _ _)) by done. by rewrite check_values_true.
Qed.

(** No operator word in a set of plain values. *)
Lemma set_text_no_notin vs : forallb plain_value vs = true -> Index (" in " +:+ set_text vs) " notin " = None.
Proof.
  intros Hp. unfold set_text.
  change (" in " +:+ ("(" +:+ GoLib.Join vs "," +:+ ")")) with (String " " ("in" +:+ " (" +:+ GoLib.Join vs "," +:+ ")")).
  rewrite Index_cons, Index_skip by done. change (" (" +:+ GoLib.Join vs "," +:+ ")") with (String " " ("(" +:+ GoLib.Join vs "," +:+ ")")).
  rewrite Index_cons, Index_skip by done. rewrite (Index_none (GoLib.Join vs "," +:+ ")")); [done|].
  apply Contains_sep; [done|done|]. apply Contains_Join; [done..|]. revert Hp. rewrite !forallb_forall.
  intros H v Hv. specialize (H v Hv). by apply andb_prop in H as [_ H].
Qed.
End requirement.

Lemma parse_print r : printable r = true -> parseRequirement (print_req r) = Ok r /\ TrimSpace (print_req r) = print_req r.
Proof.
  intros [Hv Hp]%andb_prop. unfold valid_req in Hv. apply andb_prop in Hv as [[Hk Hvs]%andb_prop Hop].
  destruct r as [k op vs]. cbn [r_Key r_Operator r_Values] in *.
  assert (TrimSpace (print_req (mkReq k op vs)) = print_req (mkReq k op vs)) as Ht.
  { unfold print_req. cbn [r_Key r_Operator r_Values].
    assert (first_ok k = true) as Hf.
    { destruct (key_chars k Hk) as (c & k' & -> & Hc & _). cbn. by rewrite alnum_not_space. }
    pose proof (key_nonempty k Hk) as Hkne.
    destruct op; cbn [r_Operator] in *.
    1, 2: destruct vs as [|v [|]]; try done; cbn [head default forallb] in *; rewrite andb_true_r in *;
      pose proof (value_nonempty v Hvs); apply andb_prop in Hp as [[Hl _]%andb_prop _];
      apply TrimSpace_id; [by rewrite first_ok_app|]; by rewrite <- string_app_assoc, last_ok_app.
    1, 2: apply TrimSpace_id; [by rewrite first_ok_app|]; unfold set_text; by rewrite <- !string_app_assoc, last_ok_app.
    - by apply key_trim.
    - apply TrimSpace_id; [done|]. rewrite last_ok_app by done. rewrite <- (key_trim k Hk). apply TrimSpace_ends. }
  split; [|done]. unfold parseRequirement. rewrite Ht. clear Ht. unfold print_req. cbn [r_Key r_Operator r_Values].
  destruct op.
  - destruct vs as [|v [|]]; try done. cbn [head default forallb] in *. unfold id. rewrite andb_true_r in *.
    pose proof Hp as [[_ Hin]%andb_prop Hnotin]%andb_prop. apply negb_true_iff in Hin, Hnotin.
    rewrite key_no_bang, !(find_after_key k Hk) by done. rewrite !(Index_skip "=") by done. rewrite !Index_none by done. cbn [fmap option_fmap option_map].
    rewrite (Index_absent "!") by (destruct (value_chars v Hvs) as (c & v' & _ & _ & H); by apply (avoid value_rest)).
    cbn [fmap option_fmap option_map]. rewrite (Index_prefix ("=" +:+ v) "=") by done. cbn [fmap option_fmap option_map].
    by apply parse_comparison.
  - destruct vs as [|v [|]]; try done. cbn [head default forallb] in *. unfold id. rewrite andb_true_r in *.
    pose proof Hp as [[_ Hin]%andb_prop Hnotin]%andb_prop. apply negb_true_iff in Hin, Hnotin.
    rewrite key_no_bang, !(find_after_key k Hk) by done. rewrite !(Index_skip "!=") by done. rewrite !Index_none by done. cbn [fmap option_fmap option_map].
    rewrite (Index_prefix ("!=" +:+ v) "!=") by done. cbn [fmap option_fmap option_map]. by apply parse_comparison.
  - apply andb_prop in Hop as [H1%Nat.leb_le H2%Nat.leb_le].
    rewrite key_no_bang, !(find_after_key k Hk) by done. rewrite set_text_no_notin by done. cbn [fmap option_fmap option_map].
    rewrite (Index_prefix (" in " +:+ set_text vs) " in ") by done. cbn [fmap option_fmap option_map].
    apply parse_set; try done. by destruct vs; [cbn in H1; lia|].
  - apply andb_prop in Hop as [H1%Nat.leb_le H2%Nat.leb_le].
    rewrite key_no_bang, !(find_after_key k Hk) by done. rewrite (Index_prefix (" notin " +:+ set_text vs) " notin ") by done. cbn [fmap option_fmap option_map].
    apply parse_set; try done. by destruct vs; [cbn in H1; lia|].
  - pose proof (key_no_bang k Hk "") as Hb. rewrite string_app_nil in Hb. rewrite Hb.
    rewrite !Index_absent by (by apply key_but). rewrite validateKey_true by done. by destruct vs.
  - change (HasPrefix ("!" +:+ k) "!") with true. cbv iota. change (drop_str 1 ("!" +:+ k)) with k.
    rewrite key_trim, validateKey_true by done. by destruct vs.
Qed.

(** ** Whole selectors *)

Definition no_paren (c : ascii) : bool := negb (Ascii.eqb c "(") && negb (Ascii.eqb c ")").
Definition no_split (c : ascii) : bool := no_paren c && negb (Ascii.eqb c ",").

Lemma split_plain p : forall rest d part, string_forallb no_split p = true -> split_go (p +:+ rest) d part = split_go rest d (part +:+ p).
Proof.
  induction p as [|c p IH]; intros rest d part; cbn [string_forallb].
  - intros _. by rewrite string_app_nil.
  - intros [Hc Hp]%andb_prop. change (String c p +:+ rest) with (String c (p +:+ rest)). cbn [split_go].
    unfold no_split, no_paren in Hc. apply andb_prop in Hc as [[Hc1%negb_true_iff Hc2%negb_true_iff]%andb_prop Hc3%negb_true_iff].
    rewrite Hc1, Hc2, Hc3. cbn [andb]. rewrite IH by done. by rewrite string_app_assoc.
Qed.

Lemma split_inner p : forall rest d part, 0 < d -> string_forallb no_paren p = true ->
  split_go (p +:+ rest) d part = split_go rest d (part +:+ p).
Proof.
  induction p as [|c p IH]; intros rest d part Hd; cbn [string_forallb].
  - intros _. by rewrite string_app_nil.
  - intros [Hc Hp]%andb_prop. change (String c p +:+ rest) with (String c (p +:+ rest)). cbn [split_go].
    unfold no_paren in Hc. apply andb_prop in Hc as [Hc1%negb_true_iff Hc2%negb_true_iff].
    rewrite Hc1, Hc2, (proj2 (Z.eqb_neq d 0)), andb_false_r by lia. rewrite IH by done. by rewrite string_app_assoc.
Qed.

Lemma split_set vs rest part : string_forallb no_paren (GoLib.Join vs ",") = true ->
  split_go (set_text vs +:+ rest) 0 part = split_go rest 0 (part +:+ set_text vs).
Proof.
  intros H. unfold set_text. rewrite !string_app_assoc. 
  change ("(" +:+ GoLib.Join vs "," +:+ ")" +:+ rest) with (String "(" (GoLib.Join vs "," +:+ String ")" rest)).
  cbn [split_go]. change (Ascii.eqb "(" "(") with true. cbv iota. rewrite split_inner by (done || lia).
  cbn [split_go]. change (Ascii.eqb ")" "(") with false. change (Ascii.eqb ")" ")") with true. cbv iota.
  change (0 + 1 - 1 <? 0) with false. cbv iota. change (0 + 1 - 1) with 0. by rewrite !string_app_assoc.
Qed.

Lemma value_no_split c : value_rest c = true -> no_split c = true.
Proof. destruct c as [[] [] [] [] [] [] [] []]; by vm_compute. Qed.
Lemma key_no_split c : key_rest c = true -> no_split c = true.
Proof. destruct c as [[] [] [] [] [] [] [] []]; by vm_compute. Qed.
Lemma no_split_paren c : no_split c = true -> no_paren c = true.
Proof. unfold no_split. by intros [? _]%andb_prop. Qed.

Lemma values_no_paren vs : forallb valueRegex vs = true -> string_forallb no_paren (GoLib.Join vs ",") = true.
Proof.
  assert (forall v, valueRegex v = true -> string_forallb no_paren v = true) as Hv.
  { intros v (c & v' & _ & _ & H)%value_chars. eapply string_forallb_impl; [|exact H]. intros x Hx. by apply no_split_paren, value_no_split. }
  induction vs as [|v vs IH]; [done|]. cbn [forallb]. intros [H1 H2]%andb_prop. destruct vs as [|w vs]; [by apply Hv|].
  change (GoLib.Join (v :: w :: vs) ",") with (v +:+ "," +:+ GoLib.Join (w :: vs) ",").
  rewrite !string_forallb_app, Hv, IH by done. done.
Qed.

Lemma split_req r rest part : printable r = true ->
  split_go (print_req r +:+ rest) 0 part = split_go rest 0 (part +:+ print_req r).
Proof.
  intros [Hv _]%andb_prop. unfold valid_req in Hv. apply andb_prop in Hv as [[Hk Hvs]%andb_prop Hop].
  destruct r as [k op vs]. cbn [r_Key r_Operator r_Values] in *. unfold print_req. cbn [r_Key r_Operator r_Values].
  assert (string_forallb no_split k = true) as Hks.
  { destruct (key_chars k Hk) as (c & k' & _ & _ & H). eapply string_forallb_impl; [|exact H]. apply key_no_split. }
  assert (forall v, valueRegex v = true -> string_forallb no_split v = true) as Hvv.
  { intros v (c & v' & _ & _ & H)%value_chars. eapply string_forallb_impl; [|exact H]. apply value_no_split. }
  destruct op.
  1, 2: destruct vs as [|v [|]]; try done; cbn [forallb head default] in *; rewrite andb_true_r in Hvs; unfold id;
    apply split_plain; rewrite !string_forallb_app, Hks, (Hvv v) by done; done.
  1, 2: rewrite !string_app_assoc, split_plain by done; rewrite split_plain by done; rewrite split_set by (by apply values_no_paren);
    by rewrite !string_app_assoc.
  - by apply split_plain.
  - apply split_plain. by rewrite string_forallb_app, Hks.
Qed.

Lemma print_nonempty r : printable r = true -> print_req r <> EmptyString.
Proof.
  intros [Hv _]%andb_prop. unfold valid_req in Hv. apply andb_prop in Hv as [[Hk _]%andb_prop _].
  unfold print_req. destruct (key_chars _ Hk) as (c & k' & -> & _). by destruct (r_Operator r).
Qed.

Lemma split_printed r rs : forallb printable (r :: rs) = true ->
  splitSelector (print_selector (r :: rs)) = Ok (map print_req (r :: rs)).
Proof.
  unfold splitSelector, print_selector. revert r. induction rs as [|x rs IH]; intros r; cbn [forallb].
  - rewrite andb_true_r. intros Hr. cbn [map GoLib.Join]. rewrite <- (string_app_nil (print_req r)) at 1.
    rewrite split_req by done. cbn [split_go]. change (EmptyString +:+ print_req r) with (print_req r).
    destruct (parse_print r Hr) as [_ ->]. change (negb (0 =? 0)) with false. cbv iota zeta.
    rewrite (proj2 (String.eqb_neq _ _)) by by apply print_nonempty. done.
  - intros [Hr Hx]%andb_prop.
    change (GoLib.Join (map print_req (r :: x :: rs)) ",") with (print_req r +:+ String "," (GoLib.Join (map print_req (x :: rs)) ",")).
    rewrite split_req by done. cbn [split_go]. change (Ascii.eqb "," "(") with false. change (Ascii.eqb "," ")") with false.
    change (Ascii.eqb "," "," && (0 =? 0)) with true. cbv iota zeta. change (EmptyString +:+ print_req r) with (print_req r).
    rewrite IH by done. cbn [rbind]. destruct (parse_print r Hr) as [_ ->].
    rewrite (proj2 (String.eqb_neq _ _)) by by apply print_nonempty. done.
Qed.

Lemma print_selector_trim r rs : forallb printable (r :: rs) = true ->
  TrimSpace (print_selector (r :: rs)) = print_selector (r :: rs) /\ print_selector (r :: rs) <> EmptyString.
Proof.
  intros H. assert (forall x, printable x = true -> first_ok (print_req x) = true /\ last_ok (print_req x) = true) as Hx.
  { intros x [_ <-]%parse_print. apply TrimSpace_ends. }
  assert (first_ok (print_selector (r :: rs)) = true /\ last_ok (print_selector (r :: rs)) = true /\ print_selector (r :: rs) <> EmptyString)
    as (H1 & H2 & H3); [|split; [by apply TrimSpace_id|done]].
  unfold print_selector. revert r H. induction rs as [|x rs IH]; intros r H; cbn [forallb] in H.
  - rewrite andb_true_r in H. destruct (Hx r H). cbn [map GoLib.Join]. split_and!; try done. by apply print_nonempty.
  - apply andb_prop in H as [Hr H]. destruct (IH x H) as (I1 & I2 & I3). pose proof (print_nonempty r Hr) as Hne.
    change (GoLib.Join (map print_req (r :: x :: rs)) ",") with (print_req r +:+ "," +:+ GoLib.Join (map print_req (x :: rs)) ",").
    split_and!; [rewrite first_ok_app by done; apply Hx, Hr|by rewrite <- string_app_assoc, last_ok_app|by destruct (print_req r)].
Qed.

(** Selectors round trip: a list of at most ten valid requirements, printed in
    the documented syntax, parses back to itself, provided no value ends in
    white space or holds " in " or " notin ". *)
Theorem selector_roundtrip (rs : list Requirement) (Hp : forallb printable rs = true)
    (Hn : (length rs <= maxRequirements)%nat) :
  ParseSelector (print_selector rs) = Ok rs.
Proof.
  destruct rs as [|r rs]; [done|]. unfold ParseSelector. destruct (print_selector_trim r rs Hp) as [-> Hne].
  rewrite (proj2 (String.eqb_neq _ _)) by done. rewrite split_printed by done. cbn [rbind].
  rewrite length_map, (proj2 (Nat.ltb_ge _ _)) by done. clear Hn Hne. generalize (r :: rs), Hp. clear r rs Hp.
  induction l as [|r l IH]; [done|]. cbn [forallb]. intros [Hr Hl]%andb_prop. cbn [map parse_all].
  destruct (parse_print r Hr) as [-> _]. cbn [rbind]. by rewrite IH.
Qed.

Example selector_roundtrip_witness :
  let rs := [mkReq "env" OpEq ["prod"]; mkReq "tier" OpNe ["free trial"]; mkReq "region" OpIn ["eu-1"; "us"];
             mkReq "st" OpNotIn ["a/b"]; mkReq "seen" OpExists []; mkReq "old" OpNotExists []] in
  ParseSelector (print_selector rs) = Ok rs /\
  print_selector rs = "env=prod,tier!=free trial,region in (eu-1,us),st notin (a/b),seen,!old".
Proof.
  intros rs. split; [|vm_compute; reflexivity]. apply (selector_roundtrip rs); [vm_compute; reflexivity|]. unfold maxRequirements. cbn. lia.
Defined.

Example selector_refines_witness :
  let rs := [mkReq "env" OpEq ["prod"]; mkReq "region" OpNotIn ["eu"; "us"]] in
  (exists cs args, BuildSelectorSQL rs = Some (map render cs, args) /\ length cs = length rs /\
    length args = sum_list_with (count_char "?") (map render cs) /\
    forall tags, sql_where tags cs args = true <-> Forall (req_holds tags) rs) /\
  ParseSelector " env=prod , region notin ( eu,us )" = Ok rs.
Proof.
  intros rs. split; [|vm_compute; reflexivity].
  apply (selector_refines " env=prod , region notin ( eu,us )" rs). vm_compute. reflexivity.
Defined.

(** A valid value with an operator word inside cannot be selected by equality. *)
Example in_hides_equality :
  valueRegex "made in china" = true /\ is_ok (ParseSelector "origin=made in china") = false /\
  is_ok (ParseSelector "origin in (made in china)") = true.
Proof. vm_compute. done. Qed.
