(* ===== verification/Rebind.v ===== *)
(** * Opening the database, rewriting the placeholders

    src/internal/database/db.go and database.go: the statements are written
    with [?]; on Postgres [rebindPostgres] numbers them. [parseURL] turns the
    configured URL into a driver and a DSN, [sqliteFilePath] finds the file
    behind a DSN. *)

From stdpp Require Import strings pretty.
From Stdlib Require Import Ascii.
From S2P Require Import Prelude GoLib.

Open Scope Z_scope.

(** ** The rewriting *)

Definition quote1 : ascii := "'".
Definition quote2 : ascii := ascii_of_N 34.
Definition newline : ascii := ascii_of_N 10.

(** inLineCmt, inBlockCmt, inSingle, inDouble: at most one is set. *)
Inductive mode := Outside | InLineCmt | InBlockCmt | InSingle | InDouble.

Definition json_op (next : ascii) : bool := Ascii.eqb next "|" || Ascii.eqb next "&" || Ascii.eqb next "?".

Definition placeholder (n : Z) : string := "$" +:+ pretty n.

(** The loop, from the byte at [i] on; [n] is the next number. *)
Fixpoint rebind_loop (m : mode) (n : Z) (q : string) : string :=
  match q with
  | EmptyString => EmptyString
  | String c q1 =>
      match m with
      | InLineCmt => String c (rebind_loop (if Ascii.eqb c newline then Outside else m) n q1)
      | InBlockCmt =>
          match q1 with
          | String d q2 =>
              if Ascii.eqb c "*" && Ascii.eqb d "/" then String c (String d (rebind_loop Outside n q2))
              else String c (rebind_loop m n q1)
          | EmptyString => String c EmptyString
          end
      | InSingle =>
          if Ascii.eqb c quote1 then
            match q1 with
            | String d q2 =>
                if Ascii.eqb d quote1 then String c (String d (rebind_loop m n q2))
                else String c (rebind_loop Outside n q1)
            | EmptyString => String c EmptyString
            end
          else String c (rebind_loop m n q1)
      | InDouble =>
          if Ascii.eqb c quote2 then
            match q1 with
            | String d q2 =>
                if Ascii.eqb d quote2 then String c (String d (rebind_loop m n q2))
                else String c (rebind_loop Outside n q1)
            | EmptyString => String c EmptyString
            end
          else String c (rebind_loop m n q1)
      | Outside =>
          if Ascii.eqb c quote1 then String c (rebind_loop InSingle n q1) else
          if Ascii.eqb c quote2 then String c (rebind_loop InDouble n q1) else
          if Ascii.eqb c "-" then
            match q1 with
            | String d q2 =>
                if Ascii.eqb d "-" then String c (String d (rebind_loop InLineCmt n q2))
                else String c (rebind_loop m n q1)
            | EmptyString => String c EmptyString
            end else
          if Ascii.eqb c "/" then
            match q1 with
            | String d q2 =>
                if Ascii.eqb d "*" then String c (String d (rebind_loop InBlockCmt n q2))
                else String c (rebind_loop m n q1)
            | EmptyString => String c EmptyString
            end else
          if Ascii.eqb c "?" then
            match q1 with
            | String next q2 =>
                if json_op next then String c (String next (rebind_loop m n q2))
                else placeholder n +:+ rebind_loop m (n + 1) q1
            | EmptyString => placeholder n
            end
          else String c (rebind_loop m n q1)
      end
  end.

Definition rebindPostgres (q : string) : string := rebind_loop Outside 1 q.

(** [DB.rebind] and [Tx.rebind]. *)
Definition rebind (driver q : string) : string :=
  if negb (String.eqb driver "postgres") then q else rebindPostgres q.

(** ** Opening *)

Definition sqlite_scheme : string := "sqlite://".
Definition fk_pragma : string := "_pragma=foreign_keys(1)".

Definition sqliteFilePath (dsn : string) : string :=
  let s := TrimPrefix dsn "file:" in
  let s := match Index s "?" with Some i => take_str i s | None => s end in
  if String.eqb s "" || String.eqb s ":memory:" || HasPrefix s "memdb" then "" else s.

(** The driver, the DSN and the counter of in-memory databases. *)
Definition parseURL (dbURL : string) (memDBCounter : Z) : result error (string * string) * Z :=
  if HasPrefix dbURL sqlite_scheme then
    let dsn := TrimPrefix dbURL sqlite_scheme in
    let mem := String.eqb dsn ":memory:" in
    let id := memDBCounter + 1 in
    let dsn := if mem then "file:memdb" +:+ pretty id +:+ "?mode=memory&cache=shared" else dsn in
    let sep := if Contains dsn "?" then "&" else "?" in
    (Ok ("sqlite", dsn +:+ (sep +:+ fk_pragma)), if mem then id else memDBCounter)
  else if HasPrefix dbURL "postgres://" || HasPrefix dbURL "postgresql://" then (Ok ("postgres", dbURL), memDBCounter)
  else (Err (ENew "unsupported database URL scheme: %s (use sqlite:// or postgres://)"), memDBCounter).

(** ** The lexical structure of SQL

    What the comment of [rebindPostgres] lists: literals and quoted identifiers
    with doubled quotes, the two kinds of comment, the JSON operators, and
    bytes that open none of these. *)

Inductive tok :=
| TPlain (c : ascii)
| TQuoted (q : ascii) (body : string)  (* the value, before the quotes in it are doubled *)
| TLine (body : string)
| TBlock (body : string)
| TJson (c : ascii)
| TParam.

Fixpoint double (q : ascii) (body : string) : string :=
  match body with
  | EmptyString => EmptyString
  | String c b => if Ascii.eqb c q then String q (String q (double q b)) else String c (double q b)
  end.

Definition text (t : tok) (param : string) : string :=
  match t with
  | TPlain c => String c EmptyString
  | TQuoted q body => String q (double q body +:+ String q EmptyString)
  | TLine body => String "-" (String "-" (body +:+ String newline EmptyString))
  | TBlock body => String "/" (String "*" (body +:+ "*/"))
  | TJson c => String "?" (String c EmptyString)
  | TParam => param
  end.

(** The query as written, and with the parameters numbered from [n]. *)
Fixpoint written (ts : list tok) : string :=
  match ts with [] => EmptyString | t :: ts => text t "?" +:+ written ts end.

Definition next_number (t : tok) (n : Z) : Z := match t with TParam => n + 1 | _ => n end.

Fixpoint numbered (n : Z) (ts : list tok) : string :=
  match ts with [] => EmptyString | t :: ts => text t (placeholder n) +:+ numbered (next_number t n) ts end.

Definition starts (p : ascii -> bool) (s : string) : bool := match s with String c _ => p c | EmptyString => false end.

(** Bytes that need no look at the next one. *)
Definition inert (c : ascii) : bool :=
  negb (Ascii.eqb c quote1) && negb (Ascii.eqb c quote2) && negb (Ascii.eqb c "-") && negb (Ascii.eqb c "/") && negb (Ascii.eqb c "?").

(** A token that the text after it does not extend or change. *)
Definition tok_ok (t : tok) (rest : string) : bool :=
  match t with
  | TPlain c => inert c
                || (Ascii.eqb c "-" && negb (starts (Ascii.eqb "-") rest))
                || (Ascii.eqb c "/" && negb (starts (Ascii.eqb "*") rest))
  | TQuoted q _ => (Ascii.eqb q quote1 || Ascii.eqb q quote2) && negb (starts (Ascii.eqb q) rest)
  | TLine body => string_forallb (all_but newline) body
  | TBlock body => negb (Contains body "*/")
  | TJson c => json_op c
  | TParam => negb (starts json_op rest)
  end.

Fixpoint lexed (ts : list tok) : bool :=
  match ts with [] => true | t :: ts => tok_ok t (written ts) && lexed ts end.

Definition is_param (t : tok) : bool := match t with TParam => true | _ => false end.

(** ** One token *)

Lemma rebind_line body n w : string_forallb (all_but newline) body = true ->
  rebind_loop InLineCmt n (body +:+ String newline w) = body +:+ String newline (rebind_loop Outside n w).
Proof.
  induction body as [|c b IH]; [done|]. cbn [string_forallb]. intros [Hc Hb]%andb_prop.
  change (String c b +:+ String newline w) with (String c (b +:+ String newline w)). cbn [rebind_loop].
  unfold all_but in Hc. apply negb_true_iff in Hc. rewrite Hc, IH by done. done.
Qed.

Lemma Contains_cons c s p : Contains (String c s) p = false -> HasPrefix (String c s) p = false /\ Contains s p = false.
Proof.
  unfold Contains. cbn [Index]. destruct (HasPrefix (String c s) p); [done|]. by destruct (Index s p).
Qed.

Lemma rebind_block body n w : Contains body "*/" = false ->
  rebind_loop InBlockCmt n (body +:+ ("*/" +:+ w)) = body +:+ ("*/" +:+ rebind_loop Outside n w).
Proof.
  induction body as [|c b IH]; [done|]. intros [Hp Hb]%Contains_cons.
  change (String c b +:+ ("*/" +:+ w)) with (String c (b +:+ ("*/" +:+ w))).
  change (String c b +:+ ("*/" +:+ rebind_loop Outside n w)) with (String c (b +:+ ("*/" +:+ rebind_loop Outside n w))).
  rewrite <- IH by done. destruct b as [|d b].
  - cbn. destruct (Ascii.eqb c "*"); reflexivity.
  - change (String d b +:+ ("*/" +:+ w)) with (String d (b +:+ ("*/" +:+ w))). cbn [rebind_loop].
    assert (Ascii.eqb c "*" && Ascii.eqb d "/" = false) as ->; [|done].
    cbn in Hp. rewrite (Ascii.eqb_sym c), (Ascii.eqb_sym d). by rewrite andb_true_r in Hp.
Qed.

Definition in_quote (q : ascii) : mode := if Ascii.eqb q quote1 then InSingle else InDouble.

Lemma rebind_quote q body n w : Ascii.eqb q quote1 || Ascii.eqb q quote2 = true -> starts (Ascii.eqb q) w = false ->
  rebind_loop (in_quote q) n (double q body +:+ String q w) = double q body +:+ String q (rebind_loop Outside n w).
Proof.
  intros Hq Hw. assert (forall d, Ascii.eqb d (if Ascii.eqb q quote1 then quote1 else quote2) = Ascii.eqb d q) as Hsame.
  { intros d. apply orb_prop in Hq as [Hq|Hq]; apply Ascii.eqb_eq in Hq as ->; done. }
  unfold in_quote. induction body as [|c b IH].
  - cbn [double]. change ("" +:+ String q w) with (String q w). destruct (Ascii.eqb q quote1); cbn [rebind_loop];
      rewrite Hsame, Ascii.eqb_refl; (destruct w as [|d w]; [done|]; cbn in Hw; rewrite Hsame, Ascii.eqb_sym, Hw; done).
  - cbn [double]. destruct (Ascii.eqb_spec c q) as [->|Hne].
    + change (String q (String q (double q b)) +:+ String q w) with (String q (String q (double q b +:+ String q w))).
      change (String q (String q (double q b)) +:+ String q (rebind_loop Outside n w))
        with (String q (String q (double q b +:+ String q (rebind_loop Outside n w)))).
      rewrite <- IH. destruct (Ascii.eqb q quote1); cbn [rebind_loop]; by rewrite Hsame, Ascii.eqb_refl.
    + change (String c (double q b) +:+ String q w) with (String c (double q b +:+ String q w)).
      change (String c (double q b) +:+ String q (rebind_loop Outside n w))
        with (String c (double q b +:+ String q (rebind_loop Outside n w))).
      rewrite <- IH. apply Ascii.eqb_neq in Hne. destruct (Ascii.eqb q quote1); cbn [rebind_loop]; by rewrite Hsame, Hne.
Qed.

Lemma rebind_inert c n w : inert c = true -> rebind_loop Outside n (String c w) = String c (rebind_loop Outside n w).
Proof.
  unfold inert. intros H. repeat apply andb_prop in H as [H ?]. cbn [rebind_loop]. breflect.
  repeat match goal with H : Ascii.eqb c _ = false |- _ => rewrite H; clear H end. done.
Qed.

Lemma rebind_dash n w : starts (Ascii.eqb "-") w = false ->
  rebind_loop Outside n (String "-" w) = String "-" (rebind_loop Outside n w).
Proof.
  destruct w as [|d w]; [done|]. unfold starts. rewrite Ascii.eqb_sym. intros H.
  remember (String d w) as q1 eqn:Eq.
  change (rebind_loop Outside n (String "-" q1)) with
    (match q1 with
     | String d q2 => if Ascii.eqb d "-" then String "-" (String d (rebind_loop InLineCmt n q2)) else String "-" (rebind_loop Outside n q1)
     | EmptyString => "-"
     end).
  subst q1. by rewrite H.
Qed.

Lemma rebind_slash n w : starts (Ascii.eqb "*") w = false ->
  rebind_loop Outside n (String "/" w) = String "/" (rebind_loop Outside n w).
Proof.
  destruct w as [|d w]; [done|]. unfold starts. rewrite Ascii.eqb_sym. intros H.
  remember (String d w) as q1 eqn:Eq.
  change (rebind_loop Outside n (String "/" q1)) with
    (match q1 with
     | String d q2 => if Ascii.eqb d "*" then String "/" (String d (rebind_loop InBlockCmt n q2)) else String "/" (rebind_loop Outside n q1)
     | EmptyString => "/"
     end).
  subst q1. by rewrite H.
Qed.

Lemma rebind_param n w : starts json_op w = false ->
  rebind_loop Outside n (String "?" w) = placeholder n +:+ rebind_loop Outside (n + 1) w.
Proof.
  destruct w as [|d w]; [intros _; by rewrite string_app_nil|]. unfold starts. intros H. remember (String d w) as q1 eqn:Eq.
  change (rebind_loop Outside n (String "?" q1)) with
    (match q1 with
     | String next q2 => if json_op next then String "?" (String next (rebind_loop Outside n q2))
                         else placeholder n +:+ rebind_loop Outside (n + 1) q1
     | EmptyString => placeholder n
     end).
  subst q1. by rewrite H.
Qed.

Lemma rebind_tok t n w : tok_ok t w = true ->
  rebind_loop Outside n (text t "?" +:+ w) = text t (placeholder n) +:+ rebind_loop Outside (next_number t n) w.
Proof.
  destruct t as [c|q body|body|body|c|]; cbn [tok_ok text next_number]; intros H.
  - change (String c "" +:+ w) with (String c w). change (String c "" +:+ rebind_loop Outside n w) with (String c (rebind_loop Outside n w)).
    apply orb_prop in H as [[H|H]%orb_prop|H]; [by apply rebind_inert|..]; apply andb_prop in H as [Hc Hw%negb_true_iff];
      apply Ascii.eqb_eq in Hc as ->; [by apply rebind_dash|by apply rebind_slash].
  - apply andb_prop in H as [Hq Hw]. apply negb_true_iff in Hw. pose proof (rebind_quote q body n w Hq Hw) as Hr. unfold in_quote in Hr.
    change (String q (double q body +:+ String q "") +:+ w) with (String q ((double q body +:+ String q "") +:+ w)).
    change (String q (double q body +:+ String q "") +:+ rebind_loop Outside n w)
      with (String q ((double q body +:+ String q "") +:+ rebind_loop Outside n w)).
    rewrite !string_app_assoc. change (String q "" +:+ w) with (String q w).
    change (String q "" +:+ rebind_loop Outside n w) with (String q (rebind_loop Outside n w)). rewrite <- Hr.
    apply orb_prop in Hq as [Hq|Hq]; apply Ascii.eqb_eq in Hq as ->; reflexivity.
  - rewrite !string_app_cons, string_app_assoc, string_app_cons. change ("" +:+ w) with w.
    change (rebind_loop Outside n (String "-" (String "-" (body +:+ String newline w))))
      with (String "-" (String "-" (rebind_loop InLineCmt n (body +:+ String newline w)))).
    rewrite rebind_line by done. by rewrite string_app_assoc.
  - apply negb_true_iff in H. rewrite !string_app_cons, string_app_assoc.
    change (rebind_loop Outside n (String "/" (String "*" (body +:+ ("*/" +:+ w)))))
      with (String "/" (String "*" (rebind_loop InBlockCmt n (body +:+ ("*/" +:+ w))))).
    rewrite rebind_block by done. by rewrite string_app_assoc.
  - change (rebind_loop Outside n (String "?" (String c w)) = String "?" (String c (rebind_loop Outside n w))).
    change (rebind_loop Outside n (String "?" (String c w))) with
      (if json_op c then String "?" (String c (rebind_loop Outside n w))
       else placeholder n +:+ rebind_loop Outside (n + 1) (String c w)). by rewrite H.
  - apply rebind_param. by apply negb_true_iff.
Qed.

Lemma rebind_written ts n : lexed ts = true -> rebind_loop Outside n (written ts) = numbered n ts.
Proof.
  revert n. induction ts as [|t ts IH]; intros n; [done|]. cbn [lexed written numbered]. intros [Ht Hts]%andb_prop.
  by rewrite rebind_tok, IH.
Qed.

(** ** What the rewriting does *)

Lemma numbered_closed ts n : forallb (fun t => negb (is_param t)) ts = true -> numbered n ts = written ts.
Proof.
  revert n. induction ts as [|t ts IH]; intros n; [done|]. cbn. intros [Ht Hts]%andb_prop. rewrite IH by done. by destruct t.
Qed.

(** On Postgres the parameters of a query become $1, $2, ... in order, and
    nothing else of it changes: not the question marks inside literals, quoted
    identifiers and comments, nor the JSON operators. A query without
    parameters, and any query on SQLite, is handed on as it is. *)
Theorem rebind_numbers_parameters (driver : string) (ts : list tok) (H : lexed ts = true) :
  rebind driver (written ts) = (if String.eqb driver "postgres" then numbered 1 ts else written ts) /\
  (forallb (fun t => negb (is_param t)) ts = true -> rebind driver (written ts) = written ts).
Proof.
  assert (rebind driver (written ts) = (if String.eqb driver "postgres" then numbered 1 ts else written ts)) as Hr.
  { unfold rebind, rebindPostgres. rewrite rebind_written by done. by destruct (String.eqb driver "postgres"). }
  split; [done|]. intros Hp. rewrite Hr. destruct (String.eqb driver "postgres"); [|done]. by apply numbered_closed.
Qed.

(** [WHERE a = ? AND b = 'it''s ?' AND c ?| d -- ?] and a second parameter. *)
Definition plain_text (s : string) : list tok := map TPlain (String.list_ascii_of_string s).
Definition mixed_query : list tok :=
  plain_text "WHERE a = " ++ [TParam] ++ plain_text " AND b = " ++ [TQuoted quote1 "it's ?"] ++
  plain_text " AND c " ++ [TJson "|"] ++ plain_text " d - " ++ [TQuoted quote2 "e?"; TLine " what?"; TBlock " * ? "; TParam].

Example rebind_numbers_parameters_witness :
  rebind "postgres" (written mixed_query) = numbered 1 mixed_query /\
  TrimPrefix (written mixed_query) "WHERE a = ? AND b = 'it''s ?' AND c ?| d - " <> written mixed_query /\
  TrimPrefix (numbered 1 mixed_query) "WHERE a = $1 AND b = 'it''s ?' AND c ?| d - " <> numbered 1 mixed_query /\
  HasSuffix (numbered 1 mixed_query) "/* * ? */$2" = true.
Proof.
  split; [|vm_compute; repeat split; done].
  apply (rebind_numbers_parameters "postgres" mixed_query). vm_compute. reflexivity.
Defined.

(** ** What opening does *)

Lemma TrimPrefix_app p s : TrimPrefix (p +:+ s) p = s.
Proof.
  unfold TrimPrefix. rewrite HasPrefix_app. induction p as [|c p IH]; [done|]. exact IH.
Qed.

(** A path that [sqliteFilePath] does not take for something else. *)
Definition plain_path (p : string) : bool :=
  string_forallb (all_but "?") p && negb (String.eqb p "") && negb (String.eqb p ":memory:") &&
  negb (HasPrefix p "memdb") && negb (HasPrefix p "file:").

Lemma HasPrefix_before p c w q : string_forallb (all_but c) q = true -> HasPrefix (p +:+ String c w) q = HasPrefix p q.
Proof.
  revert p. induction q as [|d q IH]; intros p; cbn [string_forallb]; [by destruct p|]. intros [Hd Hq]%andb_prop.
  unfold all_but in Hd. apply negb_true_iff in Hd. destruct p as [|e p].
  - cbn [HasPrefix]. change ("" +:+ String c w) with (String c w). cbn [HasPrefix]. by rewrite Hd.
  - rewrite string_app_cons. cbn [HasPrefix]. by rewrite IH.
Qed.

(** The file of a SQLite URL: foreign keys are enforced on every connection,
    the rest of the URL is the file, whose directory is then created. *)
Theorem parseURL_file (p : string) (n : Z) (H : plain_path p = true) :
  parseURL (sqlite_scheme +:+ p) n = (Ok ("sqlite", p +:+ ("?" +:+ fk_pragma)), n) /\
  sqliteFilePath (p +:+ ("?" +:+ fk_pragma)) = p.
Proof.
  unfold plain_path in H. repeat apply andb_prop in H as [H ?]. breflect. unfold parseURL.
  rewrite HasPrefix_app, TrimPrefix_app.
  match goal with E : (p =? ":memory:")%string = false |- _ => rewrite E end. unfold Contains.
  rewrite Index_absent by done. split; [done|]. unfold sqliteFilePath.
  change ("?" +:+ fk_pragma) with (String "?" fk_pragma).
  assert (TrimPrefix (p +:+ String "?" fk_pragma) "file:" = p +:+ String "?" fk_pragma) as ->.
  { unfold TrimPrefix. rewrite HasPrefix_before by done.
    match goal with E : HasPrefix p "file:" = false |- _ => by rewrite E end. }
  rewrite Index_skip by done. change (Index (String "?" fk_pragma) "?") with (Some 0%nat).
  cbn [fmap option_fmap option_map]. cbv beta iota zeta. rewrite Nat.add_0_r, take_str_app.
  repeat match goal with E : _ = false |- _ => rewrite E; clear E end. done.
Qed.

Example memory_databases_are_apart :
  parseURL "sqlite://:memory:" 0 = (Ok ("sqlite", "file:memdb1?mode=memory&cache=shared&_pragma=foreign_keys(1)"), 1) /\
  parseURL "sqlite://:memory:" 1 = (Ok ("sqlite", "file:memdb2?mode=memory&cache=shared&_pragma=foreign_keys(1)"), 2) /\
  sqliteFilePath "file:memdb1?mode=memory&cache=shared&_pragma=foreign_keys(1)" = "".
Proof. vm_compute. done. Qed.

(** A relative file whose name starts with memdb is taken for an in-memory
    database, so its directory is not created. *)
Example memdb_directory_is_not_created :
  fst (parseURL "sqlite://memdb/prod.sqlite" 0) = Ok ("sqlite", "memdb/prod.sqlite?_pragma=foreign_keys(1)") /\
  sqliteFilePath "memdb/prod.sqlite?_pragma=foreign_keys(1)" = "".
Proof. vm_compute. done. Qed.

(** * Connecting

    [Open], the statements of a database and of its transactions, and the
    migrations (src/internal/database/migrate.go). database/sql with its
    drivers, the file system and goose are the interface [SqlDriver]; a call is
    a step of its state. *)

(** [filepath.Clean] over the parts of a path, the result reversed. *)
Fixpoint clean_parts (rooted : bool) (out parts : list string) : list string :=
  match parts with
  | [] => out
  | p :: parts =>
      clean_parts rooted
        (if String.eqb p "" || String.eqb p "." then out
         else if String.eqb p ".." then
           match out with
           | top :: rest => if String.eqb top ".." then ".." :: out else rest
           | [] => if rooted then [] else [".."]
           end
         else p :: out) parts
  end.

(** [filepath.Dir]. *)
Definition filepath_Dir (path : string) : string :=
  let rooted := HasPrefix path "/" in
  let dir := Join (rev (clean_parts rooted [] (removelast (Split path "/"%char)))) "/" in
  if rooted then "/" +:+ dir else if String.eqb dir "" then "." else dir.

(** [sqliteOpenError] of an error. *)
Definition sqliteOpenError (err : error) (dsn : string) : error :=
  if negb (Contains (Error_ err) "(14)") then EWrap "setting SQLite pragmas: " [err] else
  let path := sqliteFilePath dsn in
  let dir := if String.eqb path "" then "" else filepath_Dir path in
  let hint := if String.eqb dir "" then "set INDELIBLE_DB_URL to point at a writable path"
              else "data directory %q does not exist or is not writable — create it or override with INDELIBLE_DB_URL / INDELIBLE_DATA_DIR" in
  ENew ("cannot open SQLite database: " +:+ hint +:+ " (driver said: " +:+ Error_ err +:+ ")").

(** The calls of database/sql that run a statement, with a context or not. *)
Inductive sql_call := CallExec | CallQuery | CallQueryRow | CallPrepare.

(** What [database] calls: [D] is an open *sql.DB or *sql.Tx, [V] an argument, [R]
    what a statement gives. *)
Class SqlDriver (N D V R : Type) := {
  os_MkdirAll : string -> N -> result error unit * N;
  sql_Open : string -> string -> N -> result error D * N;
  sql_Pool : D -> Z -> Z -> Z -> N -> N;
  sql_Ping : D -> N -> result error unit * N;
  sql_Close : D -> N -> N;
  sql_Begin : D -> N -> result error D * N;
  sql_Run : D -> sql_call -> string -> list V -> N -> result error R * N;
  goose_SetBaseFS : string -> N -> N;
  goose_SetDialect : string -> N -> result error unit * N;
  goose_Up : D -> string -> N -> result error unit * N;
  goose_Down : D -> string -> N -> result error unit * N;
}.

Section open.
Context {N D V R : Type} {driver_ : SqlDriver N D V R}.
(** The drivers, and memDBCounter. *)
Record Sys := mkSys { sy_world : N; sy_memDBCounter : Z }.

Record DB := mkDB { db_DB : D; db_driver : string }.
Record Tx := mkTx { tx_Tx : D; tx_driver : string }.

Abbreviation SysM := (ST error Sys).

Definition sys {A} (f : N -> result error A * N) : SysM A := fun s =>
  let '(r, n) := f (sy_world s) in (r, mkSys n (sy_memDBCounter s)).
Definition sys_do (f : N -> N) : SysM unit := fun s => (Ok tt, mkSys (f (sy_world s)) (sy_memDBCounter s)).

Definition pragmas : string := "PRAGMA journal_mode=WAL; PRAGMA busy_timeout=5000; PRAGMA synchronous=NORMAL;".

(** The database is closed again when [m] fails. *)
Definition or_close (db : D) (f : error -> error) (m : SysM unit) : SysM unit :=
  r ← try m;
  match r with Ok _ => mret tt | Err err => sys_do (sql_Close db) ;; fail (f err) end.

Definition create_parent (driver dsn : string) : SysM unit :=
  let path := sqliteFilePath dsn in
  if String.eqb driver "sqlite" && negb (String.eqb path "")
  then map_err (fun err => EWrap "creating SQLite data directory %q: " [err]) (sys (os_MkdirAll (filepath_Dir path)))
  else mret tt.

Definition set_pragmas (driver dsn : string) (db : D) : SysM unit :=
  if String.eqb driver "sqlite"
  then or_close db (fun err => sqliteOpenError err dsn) (sys (sql_Run db CallExec pragmas []) ;; mret tt)
  else mret tt.

Definition tune_pool (driver : string) (db : D) : SysM unit :=
  if String.eqb driver "postgres" then sys_do (sql_Pool db 25 5 (5 * 60 * 1000000000)) else mret tt.

Definition ping (driver dsn : string) (db : D) : SysM unit :=
  or_close db (fun err => if String.eqb driver "sqlite" then sqliteOpenError err dsn else EWrap "pinging database: " [err]) (sys (sql_Ping db)).

Definition Open (dbURL : string) : SysM DB :=
  '(driver, dsn) ← (fun s => let '(r, c) := parseURL dbURL (sy_memDBCounter s) in (r, mkSys (sy_world s) c));
  create_parent driver dsn ;;
  db ← map_err (fun err => EWrap "opening database: " [err]) (sys (sql_Open driver dsn));
  set_pragmas driver dsn db ;;
  tune_pool driver db ;;
  ping driver dsn db ;;
  mret (mkDB db driver).

(** [Exec], [Query], [QueryRow], [Prepare] and their ...Context forms. *)
Definition DB_run (d : DB) (c : sql_call) (query : string) (args : list V) : SysM R :=
  sys (sql_Run (db_DB d) c (rebind (db_driver d) query) args).

Definition DB_Begin (d : DB) : SysM Tx :=
  tx ← sys (sql_Begin (db_DB d)); mret (mkTx tx (db_driver d)).

Definition Tx_run (t : Tx) (c : sql_call) (query : string) (args : list V) : SysM R :=
  sys (sql_Run (tx_Tx t) c (rebind (tx_driver t) query) args).

(** The embedded directory of a driver. *)
Definition migrations_of (driver : string) : option string :=
  if String.eqb driver "sqlite" then Some "migrations/sqlite" else
  if String.eqb driver "postgres" then Some "migrations/postgres" else None.

Definition migrating (msg : string) (run : D -> string -> N -> result error unit * N) (d : DB) (driver : string) : SysM unit :=
  match migrations_of driver with
  | None => fail (ENew "unsupported driver for migrations: %s")
  | Some dir =>
      sys_do (goose_SetBaseFS dir) ;;
      map_err (fun err => EWrap "setting goose dialect: " [err]) (sys (goose_SetDialect driver)) ;;
      map_err (fun err => EWrap msg [err]) (sys (run (db_DB d) dir))
  end.

Definition Migrate : DB -> string -> SysM unit := migrating "running migrations: " goose_Up.
Definition MigrateDown : DB -> string -> SysM unit := migrating "rolling back migration: " goose_Down.
End open.
Arguments Sys N : clear implicits. Arguments DB D : clear implicits. Arguments Tx D : clear implicits.
Arguments mkSys {N}. Arguments mkDB {D}.

(** ** A database that does not open leaves nothing open *)

(** How many databases are open; only [sql_Open] opens one, and [sql_Close]
    closes it. *)
Class OpenCount (N D V R : Type) {dr : SqlDriver N D V R} := {
  open_count : N -> Z;
  count_open : forall d dsn n r n', sql_Open d dsn n = (r, n') -> open_count n' = open_count n + match r with Ok _ => 1 | Err _ => 0 end;
  count_close : forall db n, open_count (sql_Close db n) = open_count n - 1;
  count_mkdir : forall p n, open_count (snd (os_MkdirAll p n)) = open_count n;
  count_run : forall db c q args n, open_count (snd (sql_Run db c q args n)) = open_count n;
  count_pool : forall db a b c n, open_count (sql_Pool db a b c n) = open_count n;
  count_ping : forall db n, open_count (snd (sql_Ping db n)) = open_count n;
}.

Section opened.
Context {N D V R : Type} {driver_ : SqlDriver N D V R} {counted : OpenCount N D V R}.
Abbreviation SysM := (ST error (Sys N)).
Abbreviation count s := (open_count (sy_world s)).
Definition kept (s s' : Sys N) : Prop := count s' = count s /\ sy_memDBCounter s' = sy_memDBCounter s.

#[export] Instance kept_preorder : PreOrder kept.
Proof. split; [by intros s|]. intros a b c [A1 A2] [B1 B2]. split; congruence. Qed.

Lemma steps_sys {A} (f : N -> result error A * N) : (forall n, open_count (snd (f n)) = open_count n) -> steps kept (sys f).
Proof. intros H s. specialize (H (sy_world s)). unfold sys. by destruct (f (sy_world s)). Qed.

Lemma steps_sys_do f : (forall n, open_count (f n) = open_count n) -> steps kept (sys_do f).
Proof. intros H s. split; [apply H|done]. Qed.

Lemma or_close_run db f (m : SysM unit) s : steps kept m -> 
  match or_close db f m s with
  | (Ok _, s') => kept s s'
  | (Err _, s') => count s' = count s - 1
  end.
Proof.
  intros H. specialize (H s). unfold or_close, try, mbind, ST_bind. destruct (m s) as [[u|e] s1]; [exact H|].
  cbn. rewrite count_close. destruct H as [H _]. cbn in H. lia.
Qed.

Lemma parseURL_driver url c d dsn c' : parseURL url c = (Ok (d, dsn), c') -> In d ["sqlite"; "postgres"].
Proof. unfold parseURL. repeat case_match; intros [=]; subst; cbn; auto. Qed.

Lemma steps_create_parent d dsn : steps kept (create_parent d dsn).
Proof. unfold create_parent. cbv zeta. case_match; [apply (steps_map_err kept), steps_sys, count_mkdir|apply (steps_ret kept)]. Qed.

Lemma steps_tune_pool d db : steps kept (tune_pool d db).
Proof. unfold tune_pool. case_match; [apply steps_sys_do; intros n; apply count_pool|apply (steps_ret kept)]. Qed.

Lemma set_pragmas_run d dsn db s : match set_pragmas d dsn db s with (Ok _, s') => kept s s' | (Err _, s') => count s' = count s - 1 end.
Proof.
  unfold set_pragmas. destruct (String.eqb d "sqlite"); [|by cbn]. apply or_close_run, (steps_bind kept); [apply steps_sys, count_run|intros _; apply (steps_ret kept)].
Qed.

Lemma ping_run d dsn db s : match ping d dsn db s with (Ok _, s') => kept s s' | (Err _, s') => count s' = count s - 1 end.
Proof. apply or_close_run, steps_sys, count_ping. Qed.

(** Opening. A database that is returned runs the driver that its URL names and
    is the one more that is open; when opening fails, whichever step fails, no
    more databases are open than before. *)
Theorem Open_leaves_nothing_open (dbURL : string) (s s' : Sys N) (r : result error (DB D)) (H : Open (V := V) (R := R) dbURL s = (r, s')) :
  match r with
  | Ok db => count s' = count s + 1 /\ In (db_driver db) ["sqlite"; "postgres"] /\
      exists dsn, fst (parseURL dbURL (sy_memDBCounter s)) = Ok (db_driver db, dsn)
  | Err _ => count s' = count s
  end.
Proof.
  unfold Open, mbind, ST_bind, mret, ST_ret, map_err in H.
  destruct (parseURL dbURL (sy_memDBCounter s)) as [[[d dsn]|e] c] eqn:Ep; [|by injection H as <- <-].
  apply parseURL_driver in Ep as Hd. set (s1 := mkSys (sy_world s) c) in H.
  destruct (steps_create_parent d dsn s1) as [H2 _]. destruct (create_parent d dsn s1) as [[[]|e] s2]; [|by injection H as <- <-].
  unfold sys in H. destruct (sql_Open d dsn (sy_world s2)) as [[db|e] n] eqn:Eo; apply count_open in Eo; [|injection H as <- <-; cbn in *; lia].
  set (s3 := mkSys n (sy_memDBCounter s2)) in H. assert (count s3 = count s + 1) as H3 by (cbn in *; lia).
  pose proof (set_pragmas_run d dsn db s3) as H4. destruct (set_pragmas d dsn db s3) as [[[]|e] s4]; [|injection H as <- <-; lia].
  destruct (steps_tune_pool d db s4) as [H5 _]. destruct (tune_pool d db s4) as [[[]|e] s5] eqn:Et; cbn [snd] in H5;
    [|unfold tune_pool in Et; by case_match].
  destruct H4 as [H4 _]. pose proof (ping_run d dsn db s5) as H6. destruct (ping d dsn db s5) as [[[]|e] s6]; injection H as <- <-; [|lia].
  destruct H6 as [H6 _]. split_and!; [lia|done|by exists dsn].
Qed.
End opened.

(** ** A file that cannot be opened *)

(** A system that counts; a database outside /data cannot be created. *)
#[local] Instance one_directory : SqlDriver Z string string unit := {|
  os_MkdirAll _ n := (Ok tt, n); sql_Open _ dsn n := (Ok dsn, n + 1); sql_Pool _ _ _ _ n := n; sql_Ping _ n := (Ok tt, n);
  sql_Close _ n := n - 1; sql_Begin d n := (Ok d, n);
  sql_Run d _ _ _ n := (if HasPrefix d "/data/" then Ok tt else Err (ENew "unable to open database file: out of memory (14)"), n);
  goose_SetBaseFS _ n := n; goose_SetDialect _ n := (Ok tt, n); goose_Up _ _ n := (Ok tt, n); goose_Down _ _ n := (Ok tt, n);
|}.

#[local] Instance one_directory_counts : OpenCount Z string string unit.
Proof. refine {| open_count (n : Z) := n |}; cbn; try done. intros d dsn n r n' [= <- <-]. done. Defined.

Lemma Open_leaves_nothing_open_witness :
  let s := mkSys 0 0 in
  let good := Open (V := string) (R := unit) "sqlite:///data/indelible.db" s in
  let bad := Open (V := string) (R := unit) "sqlite:///root/indelible.db" s in
  (match fst good with Ok db => sy_world (snd good) = 1 /\ db_driver db = "sqlite" | Err _ => False end) /\
  (match fst bad with Ok _ => False | Err _ => sy_world (snd bad) = 0 end).
Proof.
  intros s good bad. split.
  - pose proof (Open_leaves_nothing_open (V := string) (R := unit) "sqlite:///data/indelible.db" s _ _ (surjective_pairing good)) as H.
    unfold good in *. vm_compute. by split.
  - exact (Open_leaves_nothing_open (V := string) (R := unit) "sqlite:///root/indelible.db" s _ _ (surjective_pairing bad)).
Defined.

Example directories_of_files :
  map filepath_Dir ["/data/indelible.db"; "indelible.db"; "./a/../b//c.db"; "/x"; "../../y/z"; "/../q/r"] = ["/data"; "."; "b"; "/"; "../../y"; "/q"].
Proof. vm_compute. done. Qed.

(** A statement of a transaction is numbered as one of the database; SQLite is
    handed what was written. *)
Example placeholders_reach_the_driver :
  rebind (db_driver (mkDB tt "postgres")) "UPDATE t SET a = ? WHERE b = ?" = "UPDATE t SET a = $1 WHERE b = $2" /\
  rebind (db_driver (mkDB tt "sqlite")) "UPDATE t SET a = ? WHERE b = ?" = "UPDATE t SET a = ? WHERE b = ?".
Proof. vm_compute. done. Qed.
