(* ===== verification/AccountSchema.v ===== *)
(** * The account tables

    The rows and tables behind src/internal/services/user.go, permission.go,
    group.go, token.go, scim_token.go, reset_token.go, email_verification.go,
    notification_pref.go, oidc_provider.go and oidc_login.go, with the
    constraints the migrations put on them. Timestamps the database sets are
    whole seconds, those Go computes nanoseconds. *)

From S2P Require Import Prelude GoLib Sql Stmt.

Open Scope Z_scope.

(** ** Rows *)

(** A row of users: services.User. *)
Record User := mkUser {
  us_ID : Z;
  us_Email : string;
  us_PasswordHash : option string;
  us_FirstName : string;
  us_LastName : string;
  us_IsActive : bool;
  us_IsServiceAccount : bool;
  us_EmailVerified : bool;
  us_ExternalID : option string;
  us_LastLoginAt : option Z;
  us_MaxFileSizeBytes : option Z;
  us_AllowedFileTypes : option string;  (* JSON array *)
  us_PasswordChangedAt : option Z;  (* seconds *)
  us_CreatedAt : Z;
  us_UpdatedAt : Z;
  us_DeletedAt : option Z;
}.

Definition set_us_Email (v : string) (u : User) : User :=
  mkUser (us_ID u) v (us_PasswordHash u) (us_FirstName u) (us_LastName u) (us_IsActive u) (us_IsServiceAccount u) (us_EmailVerified u) (us_ExternalID u) (us_LastLoginAt u) (us_MaxFileSizeBytes u) (us_AllowedFileTypes u) (us_PasswordChangedAt u) (us_CreatedAt u) (us_UpdatedAt u) (us_DeletedAt u).
Definition set_us_PasswordHash (v : option string) (u : User) : User :=
  mkUser (us_ID u) (us_Email u) v (us_FirstName u) (us_LastName u) (us_IsActive u) (us_IsServiceAccount u) (us_EmailVerified u) (us_ExternalID u) (us_LastLoginAt u) (us_MaxFileSizeBytes u) (us_AllowedFileTypes u) (us_PasswordChangedAt u) (us_CreatedAt u) (us_UpdatedAt u) (us_DeletedAt u).
Definition set_us_FirstName (v : string) (u : User) : User :=
  mkUser (us_ID u) (us_Email u) (us_PasswordHash u) v (us_LastName u) (us_IsActive u) (us_IsServiceAccount u) (us_EmailVerified u) (us_ExternalID u) (us_LastLoginAt u) (us_MaxFileSizeBytes u) (us_AllowedFileTypes u) (us_PasswordChangedAt u) (us_CreatedAt u) (us_UpdatedAt u) (us_DeletedAt u).
Definition set_us_LastName (v : string) (u : User) : User :=
  mkUser (us_ID u) (us_Email u) (us_PasswordHash u) (us_FirstName u) v (us_IsActive u) (us_IsServiceAccount u) (us_EmailVerified u) (us_ExternalID u) (us_LastLoginAt u) (us_MaxFileSizeBytes u) (us_AllowedFileTypes u) (us_PasswordChangedAt u) (us_CreatedAt u) (us_UpdatedAt u) (us_DeletedAt u).
Definition set_us_IsActive (v : bool) (u : User) : User :=
  mkUser (us_ID u) (us_Email u) (us_PasswordHash u) (us_FirstName u) (us_LastName u) v (us_IsServiceAccount u) (us_EmailVerified u) (us_ExternalID u) (us_LastLoginAt u) (us_MaxFileSizeBytes u) (us_AllowedFileTypes u) (us_PasswordChangedAt u) (us_CreatedAt u) (us_UpdatedAt u) (us_DeletedAt u).
Definition set_us_EmailVerified (v : bool) (u : User) : User :=
  mkUser (us_ID u) (us_Email u) (us_PasswordHash u) (us_FirstName u) (us_LastName u) (us_IsActive u) (us_IsServiceAccount u) v (us_ExternalID u) (us_LastLoginAt u) (us_MaxFileSizeBytes u) (us_AllowedFileTypes u) (us_PasswordChangedAt u) (us_CreatedAt u) (us_UpdatedAt u) (us_DeletedAt u).
Definition set_us_ExternalID (v : option string) (u : User) : User :=
  mkUser (us_ID u) (us_Email u) (us_PasswordHash u) (us_FirstName u) (us_LastName u) (us_IsActive u) (us_IsServiceAccount u) (us_EmailVerified u) v (us_LastLoginAt u) (us_MaxFileSizeBytes u) (us_AllowedFileTypes u) (us_PasswordChangedAt u) (us_CreatedAt u) (us_UpdatedAt u) (us_DeletedAt u).
Definition set_us_LastLoginAt (v : option Z) (u : User) : User :=
  mkUser (us_ID u) (us_Email u) (us_PasswordHash u) (us_FirstName u) (us_LastName u) (us_IsActive u) (us_IsServiceAccount u) (us_EmailVerified u) (us_ExternalID u) v (us_MaxFileSizeBytes u) (us_AllowedFileTypes u) (us_PasswordChangedAt u) (us_CreatedAt u) (us_UpdatedAt u) (us_DeletedAt u).
Definition set_us_MaxFileSizeBytes (v : option Z) (u : User) : User :=
  mkUser (us_ID u) (us_Email u) (us_PasswordHash u) (us_FirstName u) (us_LastName u) (us_IsActive u) (us_IsServiceAccount u) (us_EmailVerified u) (us_ExternalID u) (us_LastLoginAt u) v (us_AllowedFileTypes u) (us_PasswordChangedAt u) (us_CreatedAt u) (us_UpdatedAt u) (us_DeletedAt u).
Definition set_us_AllowedFileTypes (v : option string) (u : User) : User :=
  mkUser (us_ID u) (us_Email u) (us_PasswordHash u) (us_FirstName u) (us_LastName u) (us_IsActive u) (us_IsServiceAccount u) (us_EmailVerified u) (us_ExternalID u) (us_LastLoginAt u) (us_MaxFileSizeBytes u) v (us_PasswordChangedAt u) (us_CreatedAt u) (us_UpdatedAt u) (us_DeletedAt u).
Definition set_us_PasswordChangedAt (v : option Z) (u : User) : User :=
  mkUser (us_ID u) (us_Email u) (us_PasswordHash u) (us_FirstName u) (us_LastName u) (us_IsActive u) (us_IsServiceAccount u) (us_EmailVerified u) (us_ExternalID u) (us_LastLoginAt u) (us_MaxFileSizeBytes u) (us_AllowedFileTypes u) v (us_CreatedAt u) (us_UpdatedAt u) (us_DeletedAt u).
Definition set_us_UpdatedAt (v : Z) (u : User) : User :=
  mkUser (us_ID u) (us_Email u) (us_PasswordHash u) (us_FirstName u) (us_LastName u) (us_IsActive u) (us_IsServiceAccount u) (us_EmailVerified u) (us_ExternalID u) (us_LastLoginAt u) (us_MaxFileSizeBytes u) (us_AllowedFileTypes u) (us_PasswordChangedAt u) (us_CreatedAt u) v (us_DeletedAt u).
Definition set_us_DeletedAt (v : option Z) (u : User) : User :=
  mkUser (us_ID u) (us_Email u) (us_PasswordHash u) (us_FirstName u) (us_LastName u) (us_IsActive u) (us_IsServiceAccount u) (us_EmailVerified u) (us_ExternalID u) (us_LastLoginAt u) (us_MaxFileSizeBytes u) (us_AllowedFileTypes u) (us_PasswordChangedAt u) (us_CreatedAt u) (us_UpdatedAt u) v.

(** A row of user_permissions, one per user. *)
Record Perm := mkPerm {
  pm_user_id : Z;
  pm_level : string;
  pm_granted_by : option Z;
}.

(** A row of groups: services.Group. *)
Record Group := mkGroup {
  g_ID : Z;
  g_Name : string;
  g_Description : string;
  g_PermissionLevel : string;
  g_IsActive : bool;
  g_ExternalID : option string;
  g_CreatedAt : Z;
  g_UpdatedAt : Z;
}.

Definition set_g_ExternalID (v : option string) (g : Group) : Group :=
  mkGroup (g_ID g) (g_Name g) (g_Description g) (g_PermissionLevel g) (g_IsActive g) v (g_CreatedAt g) (g_UpdatedAt g).
Definition set_g_UpdatedAt (v : Z) (g : Group) : Group :=
  mkGroup (g_ID g) (g_Name g) (g_Description g) (g_PermissionLevel g) (g_IsActive g) (g_ExternalID g) (g_CreatedAt g) v.

(** A row of group_members. *)
Record Member := mkMember {
  gm_group_id : Z;
  gm_user_id : Z;
  gm_added_by : option Z;
}.

(** A row of api_tokens: services.Token. *)
Record ApiToken := mkApiToken {
  tk_ID : Z;
  tk_UUID : string;
  tk_Name : string;
  tk_Description : string;
  tk_TokenHash : string;
  tk_UserID : Z;
  tk_Permissions : string;  (* JSON array *)
  tk_Department : option string;
  tk_MaxFileSizeBytes : option Z;
  tk_AllowedFileTypes : option string;
  tk_ExpiresAt : option Z;  (* nanoseconds *)
  tk_RevokedAt : option Z;
  tk_RevokedBy : option Z;
  tk_RevokeReason : option string;
  tk_UsageCount : Z;
  tk_LastUsedAt : option Z;
  tk_CreatedAt : Z;
}.

Definition set_tk_RevokedAt (v : option Z) (t : ApiToken) : ApiToken :=
  mkApiToken (tk_ID t) (tk_UUID t) (tk_Name t) (tk_Description t) (tk_TokenHash t) (tk_UserID t) (tk_Permissions t) (tk_Department t) (tk_MaxFileSizeBytes t) (tk_AllowedFileTypes t) (tk_ExpiresAt t) v (tk_RevokedBy t) (tk_RevokeReason t) (tk_UsageCount t) (tk_LastUsedAt t) (tk_CreatedAt t).
Definition set_tk_RevokedBy (v : option Z) (t : ApiToken) : ApiToken :=
  mkApiToken (tk_ID t) (tk_UUID t) (tk_Name t) (tk_Description t) (tk_TokenHash t) (tk_UserID t) (tk_Permissions t) (tk_Department t) (tk_MaxFileSizeBytes t) (tk_AllowedFileTypes t) (tk_ExpiresAt t) (tk_RevokedAt t) v (tk_RevokeReason t) (tk_UsageCount t) (tk_LastUsedAt t) (tk_CreatedAt t).
Definition set_tk_RevokeReason (v : option string) (t : ApiToken) : ApiToken :=
  mkApiToken (tk_ID t) (tk_UUID t) (tk_Name t) (tk_Description t) (tk_TokenHash t) (tk_UserID t) (tk_Permissions t) (tk_Department t) (tk_MaxFileSizeBytes t) (tk_AllowedFileTypes t) (tk_ExpiresAt t) (tk_RevokedAt t) (tk_RevokedBy t) v (tk_UsageCount t) (tk_LastUsedAt t) (tk_CreatedAt t).
Definition set_tk_UsageCount (v : Z) (t : ApiToken) : ApiToken :=
  mkApiToken (tk_ID t) (tk_UUID t) (tk_Name t) (tk_Description t) (tk_TokenHash t) (tk_UserID t) (tk_Permissions t) (tk_Department t) (tk_MaxFileSizeBytes t) (tk_AllowedFileTypes t) (tk_ExpiresAt t) (tk_RevokedAt t) (tk_RevokedBy t) (tk_RevokeReason t) v (tk_LastUsedAt t) (tk_CreatedAt t).
Definition set_tk_LastUsedAt (v : option Z) (t : ApiToken) : ApiToken :=
  mkApiToken (tk_ID t) (tk_UUID t) (tk_Name t) (tk_Description t) (tk_TokenHash t) (tk_UserID t) (tk_Permissions t) (tk_Department t) (tk_MaxFileSizeBytes t) (tk_AllowedFileTypes t) (tk_ExpiresAt t) (tk_RevokedAt t) (tk_RevokedBy t) (tk_RevokeReason t) (tk_UsageCount t) v (tk_CreatedAt t).

(** A row of token_usage_log. *)
Record UsageEntry := mkUsage {
  ul_token_id : Z;
  ul_endpoint : string;
  ul_method : string;
  ul_ip_address : string;
  ul_user_agent : string;
  ul_status_code : Z;
  ul_created_at : Z;
}.

(** A row of scim_tokens: services.ScimToken. *)
Record ScimToken := mkScimToken {
  sc_ID : Z;
  sc_Name : string;
  sc_TokenHash : string;
  sc_IsActive : bool;
  sc_CreatedBy : Z;
  sc_LastUsedAt : option Z;
  sc_CreatedAt : Z;
  sc_RevokedAt : option Z;
}.

Definition set_sc_IsActive (v : bool) (t : ScimToken) : ScimToken :=
  mkScimToken (sc_ID t) (sc_Name t) (sc_TokenHash t) v (sc_CreatedBy t) (sc_LastUsedAt t) (sc_CreatedAt t) (sc_RevokedAt t).
Definition set_sc_LastUsedAt (v : option Z) (t : ScimToken) : ScimToken :=
  mkScimToken (sc_ID t) (sc_Name t) (sc_TokenHash t) (sc_IsActive t) (sc_CreatedBy t) v (sc_CreatedAt t) (sc_RevokedAt t).
Definition set_sc_RevokedAt (v : option Z) (t : ScimToken) : ScimToken :=
  mkScimToken (sc_ID t) (sc_Name t) (sc_TokenHash t) (sc_IsActive t) (sc_CreatedBy t) (sc_LastUsedAt t) (sc_CreatedAt t) v.

(** A row of password_reset_tokens or email_verification_tokens. *)
Record OneTimeToken := mkOneTime {
  ot_user_id : Z;
  ot_token : string;
  ot_expires_at : Z;  (* nanoseconds *)
  ot_used_at : option Z;
}.

Definition set_ot_used_at (v : option Z) (t : OneTimeToken) : OneTimeToken :=
  mkOneTime (ot_user_id t) (ot_token t) (ot_expires_at t) v.

(** A row of user_notification_prefs: services.NotificationPref. *)
Record NotificationPref := mkPref {
  np_UserID : Z;
  np_WebhookURL : option string;
  np_Events : string;  (* JSON array *)
  np_DigestMode : string;
}.

(** A row of oidc_providers: services.OIDCProvider. *)
Record OIDCProvider := mkProvider {
  op_ID : Z;
  op_Name : string;
  op_DisplayName : string;
  op_IssuerURL : string;
  op_ClientID : string;
  op_EncryptedSecret : string;
  op_Scopes : string;
  op_IsEnabled : bool;
  op_DefaultGroupID : option Z;
  op_AutoProvision : bool;
  op_RequireEmailVerified : bool;
  op_ExtraAuthorizeParams : string;  (* JSON object or empty *)
}.

Definition set_op_DefaultGroupID (v : option Z) (p : OIDCProvider) : OIDCProvider :=
  mkProvider (op_ID p) (op_Name p) (op_DisplayName p) (op_IssuerURL p) (op_ClientID p) (op_EncryptedSecret p) (op_Scopes p) (op_IsEnabled p) v (op_AutoProvision p) (op_RequireEmailVerified p) (op_ExtraAuthorizeParams p).
Definition set_op_AutoProvision (v : bool) (p : OIDCProvider) : OIDCProvider :=
  mkProvider (op_ID p) (op_Name p) (op_DisplayName p) (op_IssuerURL p) (op_ClientID p) (op_EncryptedSecret p) (op_Scopes p) (op_IsEnabled p) (op_DefaultGroupID p) v (op_RequireEmailVerified p) (op_ExtraAuthorizeParams p).
Definition set_op_RequireEmailVerified (v : bool) (p : OIDCProvider) : OIDCProvider :=
  mkProvider (op_ID p) (op_Name p) (op_DisplayName p) (op_IssuerURL p) (op_ClientID p) (op_EncryptedSecret p) (op_Scopes p) (op_IsEnabled p) (op_DefaultGroupID p) (op_AutoProvision p) v (op_ExtraAuthorizeParams p).
Definition set_op_ExtraAuthorizeParams (v : string) (p : OIDCProvider) : OIDCProvider :=
  mkProvider (op_ID p) (op_Name p) (op_DisplayName p) (op_IssuerURL p) (op_ClientID p) (op_EncryptedSecret p) (op_Scopes p) (op_IsEnabled p) (op_DefaultGroupID p) (op_AutoProvision p) (op_RequireEmailVerified p) v.

(** A row of oidc_identities: services.OIDCIdentity, without its date. *)
Record OIDCIdentity := mkIdentity {
  oi_ID : Z;
  oi_UserID : Z;
  oi_ProviderID : Z;
  oi_Subject : string;
}.

#[export] Instance User_keyed : Keyed User := us_ID.
#[export] Instance Group_keyed : Keyed Group := g_ID.
#[export] Instance ApiToken_keyed : Keyed ApiToken := tk_ID.
#[export] Instance ScimToken_keyed : Keyed ScimToken := sc_ID.
#[export] Instance OIDCProvider_keyed : Keyed OIDCProvider := op_ID.
#[export] Instance OIDCIdentity_keyed : Keyed OIDCIdentity := oi_ID.

(** The tables and the clock. *)
Record Accounts := mkAccounts {
  ac_users : list User;
  ac_seq_users : Z;  (* AUTOINCREMENT *)
  ac_permissions : list Perm;
  ac_groups : list Group;
  ac_seq_groups : Z;
  ac_members : list Member;
  ac_tokens : list ApiToken;
  ac_seq_tokens : Z;
  ac_usage : list UsageEntry;
  ac_scim : list ScimToken;
  ac_seq_scim : Z;
  ac_reset : list OneTimeToken;  (* password_reset_tokens *)
  ac_verify : list OneTimeToken;  (* email_verification_tokens *)
  ac_prefs : list NotificationPref;
  ac_providers : list OIDCProvider;
  ac_seq_providers : Z;
  ac_identities : list OIDCIdentity;
  ac_seq_identities : Z;
  ac_now : Z;  (* nanoseconds since the epoch *)
}.

Definition set_ac_users (v : list User) (a : Accounts) : Accounts :=
  mkAccounts v (ac_seq_users a) (ac_permissions a) (ac_groups a) (ac_seq_groups a) (ac_members a) (ac_tokens a) (ac_seq_tokens a) (ac_usage a) (ac_scim a) (ac_seq_scim a) (ac_reset a) (ac_verify a) (ac_prefs a) (ac_providers a) (ac_seq_providers a) (ac_identities a) (ac_seq_identities a) (ac_now a).
Definition set_ac_seq_users (v : Z) (a : Accounts) : Accounts :=
  mkAccounts (ac_users a) v (ac_permissions a) (ac_groups a) (ac_seq_groups a) (ac_members a) (ac_tokens a) (ac_seq_tokens a) (ac_usage a) (ac_scim a) (ac_seq_scim a) (ac_reset a) (ac_verify a) (ac_prefs a) (ac_providers a) (ac_seq_providers a) (ac_identities a) (ac_seq_identities a) (ac_now a).
Definition set_ac_permissions (v : list Perm) (a : Accounts) : Accounts :=
  mkAccounts (ac_users a) (ac_seq_users a) v (ac_groups a) (ac_seq_groups a) (ac_members a) (ac_tokens a) (ac_seq_tokens a) (ac_usage a) (ac_scim a) (ac_seq_scim a) (ac_reset a) (ac_verify a) (ac_prefs a) (ac_providers a) (ac_seq_providers a) (ac_identities a) (ac_seq_identities a) (ac_now a).
Definition set_ac_groups (v : list Group) (a : Accounts) : Accounts :=
  mkAccounts (ac_users a) (ac_seq_users a) (ac_permissions a) v (ac_seq_groups a) (ac_members a) (ac_tokens a) (ac_seq_tokens a) (ac_usage a) (ac_scim a) (ac_seq_scim a) (ac_reset a) (ac_verify a) (ac_prefs a) (ac_providers a) (ac_seq_providers a) (ac_identities a) (ac_seq_identities a) (ac_now a).
Definition set_ac_seq_groups (v : Z) (a : Accounts) : Accounts :=
  mkAccounts (ac_users a) (ac_seq_users a) (ac_permissions a) (ac_groups a) v (ac_members a) (ac_tokens a) (ac_seq_tokens a) (ac_usage a) (ac_scim a) (ac_seq_scim a) (ac_reset a) (ac_verify a) (ac_prefs a) (ac_providers a) (ac_seq_providers a) (ac_identities a) (ac_seq_identities a) (ac_now a).
Definition set_ac_members (v : list Member) (a : Accounts) : Accounts :=
  mkAccounts (ac_users a) (ac_seq_users a) (ac_permissions a) (ac_groups a) (ac_seq_groups a) v (ac_tokens a) (ac_seq_tokens a) (ac_usage a) (ac_scim a) (ac_seq_scim a) (ac_reset a) (ac_verify a) (ac_prefs a) (ac_providers a) (ac_seq_providers a) (ac_identities a) (ac_seq_identities a) (ac_now a).
Definition set_ac_tokens (v : list ApiToken) (a : Accounts) : Accounts :=
  mkAccounts (ac_users a) (ac_seq_users a) (ac_permissions a) (ac_groups a) (ac_seq_groups a) (ac_members a) v (ac_seq_tokens a) (ac_usage a) (ac_scim a) (ac_seq_scim a) (ac_reset a) (ac_verify a) (ac_prefs a) (ac_providers a) (ac_seq_providers a) (ac_identities a) (ac_seq_identities a) (ac_now a).
Definition set_ac_seq_tokens (v : Z) (a : Accounts) : Accounts :=
  mkAccounts (ac_users a) (ac_seq_users a) (ac_permissions a) (ac_groups a) (ac_seq_groups a) (ac_members a) (ac_tokens a) v (ac_usage a) (ac_scim a) (ac_seq_scim a) (ac_reset a) (ac_verify a) (ac_prefs a) (ac_providers a) (ac_seq_providers a) (ac_identities a) (ac_seq_identities a) (ac_now a).
Definition set_ac_usage (v : list UsageEntry) (a : Accounts) : Accounts :=
  mkAccounts (ac_users a) (ac_seq_users a) (ac_permissions a) (ac_groups a) (ac_seq_groups a) (ac_members a) (ac_tokens a) (ac_seq_tokens a) v (ac_scim a) (ac_seq_scim a) (ac_reset a) (ac_verify a) (ac_prefs a) (ac_providers a) (ac_seq_providers a) (ac_identities a) (ac_seq_identities a) (ac_now a).
Definition set_ac_scim (v : list ScimToken) (a : Accounts) : Accounts :=
  mkAccounts (ac_users a) (ac_seq_users a) (ac_permissions a) (ac_groups a) (ac_seq_groups a) (ac_members a) (ac_tokens a) (ac_seq_tokens a) (ac_usage a) v (ac_seq_scim a) (ac_reset a) (ac_verify a) (ac_prefs a) (ac_providers a) (ac_seq_providers a) (ac_identities a) (ac_seq_identities a) (ac_now a).
Definition set_ac_seq_scim (v : Z) (a : Accounts) : Accounts :=
  mkAccounts (ac_users a) (ac_seq_users a) (ac_permissions a) (ac_groups a) (ac_seq_groups a) (ac_members a) (ac_tokens a) (ac_seq_tokens a) (ac_usage a) (ac_scim a) v (ac_reset a) (ac_verify a) (ac_prefs a) (ac_providers a) (ac_seq_providers a) (ac_identities a) (ac_seq_identities a) (ac_now a).
Definition set_ac_reset (v : list OneTimeToken) (a : Accounts) : Accounts :=
  mkAccounts (ac_users a) (ac_seq_users a) (ac_permissions a) (ac_groups a) (ac_seq_groups a) (ac_members a) (ac_tokens a) (ac_seq_tokens a) (ac_usage a) (ac_scim a) (ac_seq_scim a) v (ac_verify a) (ac_prefs a) (ac_providers a) (ac_seq_providers a) (ac_identities a) (ac_seq_identities a) (ac_now a).
Definition set_ac_verify (v : list OneTimeToken) (a : Accounts) : Accounts :=
  mkAccounts (ac_users a) (ac_seq_users a) (ac_permissions a) (ac_groups a) (ac_seq_groups a) (ac_members a) (ac_tokens a) (ac_seq_tokens a) (ac_usage a) (ac_scim a) (ac_seq_scim a) (ac_reset a) v (ac_prefs a) (ac_providers a) (ac_seq_providers a) (ac_identities a) (ac_seq_identities a) (ac_now a).
Definition set_ac_prefs (v : list NotificationPref) (a : Accounts) : Accounts :=
  mkAccounts (ac_users a) (ac_seq_users a) (ac_permissions a) (ac_groups a) (ac_seq_groups a) (ac_members a) (ac_tokens a) (ac_seq_tokens a) (ac_usage a) (ac_scim a) (ac_seq_scim a) (ac_reset a) (ac_verify a) v (ac_providers a) (ac_seq_providers a) (ac_identities a) (ac_seq_identities a) (ac_now a).
Definition set_ac_providers (v : list OIDCProvider) (a : Accounts) : Accounts :=
  mkAccounts (ac_users a) (ac_seq_users a) (ac_permissions a) (ac_groups a) (ac_seq_groups a) (ac_members a) (ac_tokens a) (ac_seq_tokens a) (ac_usage a) (ac_scim a) (ac_seq_scim a) (ac_reset a) (ac_verify a) (ac_prefs a) v (ac_seq_providers a) (ac_identities a) (ac_seq_identities a) (ac_now a).
Definition set_ac_seq_providers (v : Z) (a : Accounts) : Accounts :=
  mkAccounts (ac_users a) (ac_seq_users a) (ac_permissions a) (ac_groups a) (ac_seq_groups a) (ac_members a) (ac_tokens a) (ac_seq_tokens a) (ac_usage a) (ac_scim a) (ac_seq_scim a) (ac_reset a) (ac_verify a) (ac_prefs a) (ac_providers a) v (ac_identities a) (ac_seq_identities a) (ac_now a).
Definition set_ac_identities (v : list OIDCIdentity) (a : Accounts) : Accounts :=
  mkAccounts (ac_users a) (ac_seq_users a) (ac_permissions a) (ac_groups a) (ac_seq_groups a) (ac_members a) (ac_tokens a) (ac_seq_tokens a) (ac_usage a) (ac_scim a) (ac_seq_scim a) (ac_reset a) (ac_verify a) (ac_prefs a) (ac_providers a) (ac_seq_providers a) v (ac_seq_identities a) (ac_now a).
Definition set_ac_seq_identities (v : Z) (a : Accounts) : Accounts :=
  mkAccounts (ac_users a) (ac_seq_users a) (ac_permissions a) (ac_groups a) (ac_seq_groups a) (ac_members a) (ac_tokens a) (ac_seq_tokens a) (ac_usage a) (ac_scim a) (ac_seq_scim a) (ac_reset a) (ac_verify a) (ac_prefs a) (ac_providers a) (ac_seq_providers a) (ac_identities a) v (ac_now a).
Definition set_ac_now (v : Z) (a : Accounts) : Accounts :=
  mkAccounts (ac_users a) (ac_seq_users a) (ac_permissions a) (ac_groups a) (ac_seq_groups a) (ac_members a) (ac_tokens a) (ac_seq_tokens a) (ac_usage a) (ac_scim a) (ac_seq_scim a) (ac_reset a) (ac_verify a) (ac_prefs a) (ac_providers a) (ac_seq_providers a) (ac_identities a) (ac_seq_identities a) v.

Abbreviation AcM := (ST error (World Accounts)).

(** [CURRENT_TIMESTAMP], in seconds. *)
Definition ac_second : Z := 1000000000.
Definition stamp (a : Accounts) : Z := ac_now a / ac_second.

(** [time.Now()]. *)
Definition clock_now : AcM Z := gets (fun w => ac_now (tables w)).

(** ** Errors of constraints *)

(** [contains] of user.go, its own substring search. *)
Fixpoint searchString (s substr : string) : bool :=
  HasPrefix s substr || match s with String _ s' => searchString s' substr | EmptyString => false end.

Definition contains (s substr : string) : bool := (String.length substr <=? String.length s)%nat && searchString s substr.

(** A driver error is told by its text; that of a violated UNIQUE constraint
    holds the words this looks for. *)
Definition isUniqueViolation (err : error) : bool :=
  match err with
  | ENew msg => contains msg "UNIQUE constraint failed" || contains msg "duplicate key"
  | _ => errors_is err ErrUniqueViolation
  end.

Lemma NoDup_snoc {A} (l : list A) x : List.NoDup l -> ~ In x l -> List.NoDup (l ++ [x]).
Proof.
  induction l as [|y l IH]; cbn; intros H Hx; [by repeat constructor|].
  apply NoDup_cons_iff in H as [Hy H]. constructor; [rewrite in_app_iff; cbn; naive_solver|]. apply IH; [done|tauto].
Qed.

Definition user_exists (a : Accounts) (id : Z) : bool := existsb (by_id id) (ac_users a).
Definition group_exists (a : Accounts) (id : Z) : bool := existsb (by_id id) (ac_groups a).
(** A nullable reference. *)
Definition user_ref (a : Accounts) (id : option Z) : bool := match id with Some i => user_exists a i | None => true end.

(** The levels the CHECK constraints admit. *)
Definition level_ok (level : string) : bool :=
  String.eqb level "read" || String.eqb level "write" || String.eqb level "admin".

(** [bcrypt.GenerateFromPassword] with a salt, and [CompareHashAndPassword]. *)
Class Bcrypt := {
  bc_generate : string -> Z -> result error string;
  bc_compare : string -> string -> bool;
}.

(** What is relied on: a hash accepts the text it was made from. *)
Class BcryptLaws {B : Bcrypt} := {
  bc_accepts : forall pw salt h, bc_generate pw salt = Ok h -> bc_compare h pw = true;
}.
