(* ===== verification/Users.v ===== *)
(** * Users and permissions

    src/internal/services/user.go, permission.go and admin_seed.go. *)

From S2P Require Import Prelude GoLib Sql Stmt AccountSchema.
From stdpp Require Import pretty.

Open Scope Z_scope.

(** [err == sql.ErrNoRows]: the service's own error. *)
Definition or_missing (s : sentinel) (e : error) : error := if errors_is e ErrNoRows then ESentinel s else e.

(** A violated UNIQUE constraint: the service's own error. *)
Definition or_taken (s : sentinel) (e : error) : error := if isUniqueViolation e then ESentinel s else e.

(** ** user.go *)

Definition live (u : User) : bool := bool_decide (us_DeletedAt u = None).

Definition has_email (email : string) (u : User) : bool := String.eqb (us_Email u) email.
Definition has_external (x : string) (u : User) : bool := bool_decide (us_ExternalID u = Some x).

(** users.email, and users.external_id where it is not NULL. *)
Definition user_unique (u : User) (others : list User) : bool :=
  negb (existsb (has_email (us_Email u)) others) &&
  match us_ExternalID u with Some x => negb (existsb (has_external x) others) | None => true end.

Definition insert_user (row : Z -> Z -> User) (a : Accounts) : result error (Z * Accounts) :=
  let id := ac_seq_users a + 1 in
  let u := row id (stamp a) in
  constrained true (user_unique u (ac_users a)) true (id, set_ac_users (ac_users a ++ [u]) (set_ac_seq_users id a)).

(** [UPDATE users SET f WHERE p]: refused when a row would share a key. *)
Definition update_users (p : User -> bool) (f : Z -> User -> User) (a : Accounts) : result error (unit * Accounts) :=
  let changed := update p (f (stamp a)) (ac_users a) in
  let clash u := p u && negb (user_unique (f (stamp a) u) (delete_where (by_id (us_ID u)) changed)) in
  constrained true (negb (existsb clash (ac_users a))) true (tt, set_ac_users changed a).

Definition GetByID (id : Z) : AcM User :=
  map_err (or_missing ErrUserNotFound)
    (read_row (fun a => List.find (fun u => by_id id u && live u) (ac_users a))).

Definition GetByEmail (email : string) : AcM User :=
  map_err (or_missing ErrUserNotFound)
    (read_row (fun a => List.find (fun u => has_email email u && live u) (ac_users a))).

Definition GetByExternalID (externalID : string) : AcM User :=
  map_err (or_missing ErrUserNotFound)
    (read_row (fun a => List.find (fun u => has_external externalID u && live u) (ac_users a))).

Definition new_user (email : string) (hash : option string) (first last : string) (service : bool) (external : option string)
    (id at_ : Z) : User :=
  mkUser id email hash first last true service false external None None None None at_ at_ None.

Definition Create (email passwordHash firstName lastName : string) : AcM User :=
  id ← map_err (or_taken ErrEmailTaken) (write_if (insert_user (new_user email (Some passwordHash) firstName lastName false None)));
  GetByID id.

Definition CreateServiceAccount (email firstName lastName : string) : AcM User :=
  id ← map_err (or_taken ErrEmailTaken) (write_if (insert_user (new_user email None firstName lastName true None)));
  GetByID id.

Definition CreateFromSCIM (email firstName lastName externalID : string) : AcM User :=
  let extID := if String.eqb externalID "" then None else Some externalID in
  id ← map_err (or_taken ErrEmailTaken) (write_if (insert_user (new_user email None firstName lastName false extID)));
  GetByID id.

Definition UpdateLastLogin (id : Z) : AcM unit :=
  write_if (update_users (by_id id) (fun t u => set_us_LastLoginAt (Some t) (set_us_UpdatedAt t u))).

Definition UserCount : AcM Z := read (fun a => affected live (ac_users a)).

Definition user_newest (x y : User) : bool := us_CreatedAt y <=? us_CreatedAt x.

(** The callers pass a positive limit. *)
Definition UserList (n off : Z) : AcM (list User * Z) :=
  total ← read (fun a => affected live (ac_users a));
  rows ← read (fun a => limit n (offset off (order_by user_newest (select live (ac_users a)))));
  mret (rows, total).

Definition UserUpdate (id : Z) (firstName lastName : string) (isActive : option bool) : AcM unit :=
  u ← GetByID id;
  let first := if String.eqb firstName "" then us_FirstName u else firstName in
  let last := if String.eqb lastName "" then us_LastName u else lastName in
  let active := default (us_IsActive u) isActive in
  write_if (update_users (by_id id) (fun t r =>
    set_us_FirstName first (set_us_LastName last (set_us_IsActive active (set_us_UpdatedAt t r))))).

Definition UpdateRestrictions (id : Z) (maxFileSize : option Z) (allowedTypes : string) : AcM unit :=
  let types := if String.eqb allowedTypes "" then None else Some allowedTypes in
  write_if (update_users (by_id id) (fun t r =>
    set_us_MaxFileSizeBytes maxFileSize (set_us_AllowedFileTypes types (set_us_UpdatedAt t r)))).

Definition deleted_suffix (now : Z) : string := ".deleted." +:+ pretty (now / ac_second).

Definition SoftDelete (id : Z) : AcM unit :=
  transact (
    write (fun a => set_ac_identities (delete_where (fun i => oi_UserID i =? id) (ac_identities a)) a) ;;
    now ← clock_now;
    let suffix := deleted_suffix now in
    write_if (update_users (by_id id) (fun t r =>
      set_us_Email (us_Email r +:+ suffix) (set_us_DeletedAt (Some t) (set_us_UpdatedAt t r))))).

Definition UpdatePassword (id : Z) (passwordHash : string) : AcM unit :=
  write_if (update_users (by_id id) (fun t r =>
    set_us_PasswordHash (Some passwordHash) (set_us_PasswordChangedAt (Some t) (set_us_UpdatedAt t r)))).

Definition UpdateFromSCIM (id : Z) (email firstName lastName : string) (externalID : option string) (isActive : option bool) : AcM unit :=
  let extID := match externalID with Some x => if String.eqb x "" then None else Some x | None => None end in
  write_if (update_users (fun u => by_id id u && live u) (fun t r =>
    set_us_Email email (set_us_FirstName firstName (set_us_LastName lastName (set_us_ExternalID extID
      (set_us_IsActive (default (us_IsActive r) isActive) (set_us_UpdatedAt t r))))))).

Definition SetUserExternalID (id : Z) (externalID : string) : AcM unit :=
  write_if (update_users (by_id id) (fun t r => set_us_ExternalID (Some externalID) (set_us_UpdatedAt t r))).

(** ** permission.go *)

Definition upsert_permission (userID : Z) (level : string) (grantedBy : Z) (a : Accounts) : result error (unit * Accounts) :=
  let row := mkPerm userID level (Some grantedBy) in
  let mine p := pm_user_id p =? userID in
  let t := if existsb mine (ac_permissions a) then update mine (fun _ => row) (ac_permissions a)
           else ac_permissions a ++ [row] in
  constrained (level_ok level) true (user_exists a userID && user_exists a grantedBy) (tt, set_ac_permissions t a).

Definition SetDirect (userID : Z) (level : string) (grantedBy : Z) : AcM unit :=
  write_if (upsert_permission userID level grantedBy).

Definition GetDirect (userID : Z) : AcM string :=
  r ← try (read_row (fun a => pm_level <$> List.find (fun p => pm_user_id p =? userID) (ac_permissions a)));
  match r with
  | Ok level => mret level
  | Err err => if errors_is err ErrNoRows then mret "" else fail err
  end.

(** The CASE of the ORDER BY, and the map of [highest]. *)
Definition rank (level : string) : Z :=
  if String.eqb level "admin" then 3 else
  if String.eqb level "write" then 2 else
  if String.eqb level "read" then 1 else 0.

Definition highest (x y : string) : string := if rank y <=? rank x then x else y.

(** [groups g JOIN group_members gm ON gm.group_id = g.id WHERE gm.user_id = ? AND g.is_active]. *)
Definition member_groups (userID : Z) (a : Accounts) : list Group :=
  flat_map (fun g => map (fun _ => g)
    (select (fun m => (gm_group_id m =? g_ID g) && (gm_user_id m =? userID)) (ac_members a)))
    (select g_IsActive (ac_groups a)).

Definition rank_desc (x y : Group) : bool := rank (g_PermissionLevel y) <=? rank (g_PermissionLevel x).

Definition GetEffective (userID : Z) : AcM string :=
  direct ← GetDirect userID;
  r ← try (read_row (fun a => g_PermissionLevel <$> head (limit 1 (order_by rank_desc (member_groups userID a)))));
  group ← match r with
          | Ok level => mret level
          | Err err => if errors_is err ErrNoRows then mret "" else fail err
          end;
  mret (highest direct group).

Definition IsAdmin (userID : Z) : AcM bool :=
  level ← GetEffective userID;
  mret (String.eqb level "admin").

(** [LEFT JOIN]: one row of NULLs where nothing matches. *)
Definition left_join {A} (on : A -> bool) (t : list A) : list (option A) :=
  match select on t with [] => [None] | l => map Some l end.

Definition level_is_admin (l : option string) : bool := bool_decide (l = Some "admin").

(** The joined rows of a user: its permission and its active groups. *)
Definition admin_rows (a : Accounts) (u : User) : list (option Perm * option Group) :=
  flat_map (fun up =>
    flat_map (fun gm =>
      map (fun g => (up, g))
        (left_join (fun g => bool_decide (gm_group_id <$> gm = Some (g_ID g)) && g_IsActive g) (ac_groups a)))
      (left_join (fun m => gm_user_id m =? us_ID u) (ac_members a)))
    (left_join (fun p => pm_user_id p =? us_ID u) (ac_permissions a)).

Definition admin_row (r : option Perm * option Group) : bool :=
  level_is_admin (pm_level <$> fst r) || level_is_admin (g_PermissionLevel <$> snd r).

(** [COUNT(DISTINCT u.id)] over the join. *)
Definition CountAdmins : AcM Z :=
  read (fun a =>
    Z.of_nat (length (nodup Z.eq_dec
      (flat_map (fun u => map (fun _ => us_ID u) (select admin_row (admin_rows a u)))
        (select (fun u => us_IsActive u && live u) (ac_users a)))))).

(** ** admin_seed.go *)

Section seed.
Context {B : Bcrypt}.

Definition SeedAdmin (AdminEmail AdminPassword : string) (salt : Z) : AcM bool :=
  if String.eqb AdminEmail "" || String.eqb AdminPassword "" then mret false else
  n ← map_err (fun e => EWrap "counting admins" [e]) CountAdmins;
  if 0 <? n then mret false else
  hash ← map_err (fun e => EWrap "hashing seed admin password" [e]) (of_result (bc_generate AdminPassword salt));
  r ← try (Create AdminEmail hash "Admin" "User");
  match r with
  | Err err =>
      if errors_is err ErrEmailTaken then mret false else fail (EWrap "creating seed admin" [err])
  | Ok user =>
      map_err (fun e => EWrap "granting seed admin permission" [e]) (SetDirect (us_ID user) "admin" (us_ID user)) ;;
      mret true
  end.
End seed.

(** * Groups

    src/internal/services/group.go. *)

Open Scope Z_scope.

Definition has_name (name : string) (g : Group) : bool := String.eqb (g_Name g) name.
Definition group_external (x : string) (g : Group) : bool := bool_decide (g_ExternalID g = Some x).

(** groups.name, and groups.external_id where it is not NULL. *)
Definition group_unique (g : Group) (others : list Group) : bool :=
  negb (existsb (has_name (g_Name g)) others) &&
  match g_ExternalID g with Some x => negb (existsb (group_external x) others) | None => true end.

Definition name_le (x y : Group) : bool := match String.compare (g_Name x) (g_Name y) with Gt => false | _ => true end.

Definition GroupListByUser (userID : Z) : AcM (list Group) :=
  read (fun a => order_by name_le
    (flat_map (fun g => map (fun _ => g)
      (select (fun m => (gm_group_id m =? g_ID g) && (gm_user_id m =? userID)) (ac_members a))) (ac_groups a))).

Definition GroupGetByID (id : Z) : AcM Group :=
  map_err (or_missing ErrGroupNotFound) (read_row (fun a => find_id id (ac_groups a))).

Definition insert_group (name description permissionLevel : string) (a : Accounts) : result error (Z * Accounts) :=
  let id := ac_seq_groups a + 1 in
  let g := mkGroup id name description permissionLevel true None (stamp a) (stamp a) in
  constrained (level_ok permissionLevel) (group_unique g (ac_groups a)) true
    (id, set_ac_groups (ac_groups a ++ [g]) (set_ac_seq_groups id a)).

Definition GroupCreate (name description permissionLevel : string) : AcM Group :=
  id ← map_err (or_taken ErrGroupNameTaken) (write_if (insert_group name description permissionLevel));
  GroupGetByID id.

Definition GroupList : AcM (list Group) := read (fun a => order_by name_le (ac_groups a)).

(** [UPDATE groups SET f WHERE id = ?]. *)
Definition update_group (id : Z) (f : Z -> Group -> Group) (a : Accounts) : result error (unit * Accounts) :=
  let changed := update (by_id id) (f (stamp a)) (ac_groups a) in
  let rows := select (by_id id) changed in
  constrained (forallb (fun g => level_ok (g_PermissionLevel g)) rows)
    (forallb (fun g => group_unique g (delete_where (by_id id) changed)) rows) true (tt, set_ac_groups changed a).

Definition GroupUpdate (id : Z) (name description permissionLevel : string) (isActive : option bool) : AcM unit :=
  g ← GroupGetByID id;
  let name := if String.eqb name "" then g_Name g else name in
  let description := if String.eqb description "" then g_Description g else description in
  let permissionLevel := if String.eqb permissionLevel "" then g_PermissionLevel g else permissionLevel in
  let active := default (g_IsActive g) isActive in
  write_if (update_group id (fun t r =>
    mkGroup (g_ID r) name description permissionLevel active (g_ExternalID r) (g_CreatedAt r) t)).

(** A group is referenced by its members and by providers that default to it. *)
Definition group_free (id : Z) (a : Accounts) : bool :=
  negb (existsb (fun m => gm_group_id m =? id) (ac_members a)) &&
  negb (existsb (fun p => bool_decide (op_DefaultGroupID p = Some id)) (ac_providers a)).

(** Two statements, not one transaction. *)
Definition GroupDelete (id : Z) : AcM unit :=
  write (fun a => set_ac_members (delete_where (fun m => gm_group_id m =? id) (ac_members a)) a) ;;
  write_if (fun a => constrained true true (group_free id a || negb (group_exists a id))
    (tt, set_ac_groups (delete_where (by_id id) (ac_groups a)) a)).

Definition nullableAddedBy (addedBy : Z) : option Z := if addedBy =? 0 then None else Some addedBy.

Definition insert_member (groupID userID : Z) (added : option Z) (a : Accounts) : result error (unit * Accounts) :=
  let same m := (gm_group_id m =? groupID) && (gm_user_id m =? userID) in
  constrained true (negb (existsb same (ac_members a)))
    (group_exists a groupID && user_exists a userID && user_ref a added)
    (tt, set_ac_members (ac_members a ++ [mkMember groupID userID added]) a).

Definition AddMember (groupID userID addedBy : Z) : AcM unit :=
  map_err (or_taken ErrAlreadyMember) (write_if (insert_member groupID userID (nullableAddedBy addedBy))).

Definition RemoveMember (groupID userID : Z) : AcM unit :=
  let mine m := (gm_group_id m =? groupID) && (gm_user_id m =? userID) in
  n ← write_ret (fun a => (affected mine (ac_members a), set_ac_members (delete_where mine (ac_members a)) a));
  if n =? 0 then fail (ESentinel ErrNotMember) else mret tt.

Definition members_of (groupID : Z) (a : Accounts) : list Z :=
  map gm_user_id (select (fun m => gm_group_id m =? groupID) (ac_members a)).

Definition ListMembers (groupID : Z) : AcM (list Z) := read (members_of groupID).

Definition MemberCount (groupID : Z) : AcM Z :=
  read (fun a => affected (fun m => gm_group_id m =? groupID) (ac_members a)).

Definition GroupGetByExternalID (externalID : string) : AcM Group :=
  map_err (or_missing ErrGroupNotFound) (read_row (fun a => List.find (group_external externalID) (ac_groups a))).

Definition SetGroupExternalID (id : Z) (externalID : string) : AcM unit :=
  write_if (update_group id (fun t r => set_g_ExternalID (Some externalID) (set_g_UpdatedAt t r))).

Fixpoint insert_members (groupID : Z) (userIDs : list Z) (added : option Z) : AcM unit :=
  match userIDs with
  | [] => mret tt
  | uid :: rest => write_if (insert_member groupID uid added) ;; insert_members groupID rest added
  end.

Definition ReplaceMembers (groupID : Z) (userIDs : list Z) (addedBy : Z) : AcM unit :=
  transact (
    write (fun a => set_ac_members (delete_where (fun m => gm_group_id m =? groupID) (ac_members a)) a) ;;
    insert_members groupID userIDs (nullableAddedBy addedBy)).

(** ** The members of a group are replaced as a whole *)

Lemma insert_member_ok g u added a x a' : insert_member g u added a = Ok (x, a') ->
  ac_members a' = ac_members a ++ [mkMember g u added] /\ ac_users a' = ac_users a /\ ac_groups a' = ac_groups a.
Proof.
  unfold insert_member. intros (E & _)%constrained_ok. injection E as _ <-. done.
Qed.

Lemma insert_members_ok g us added : forall w x w', insert_members g us added w = (Ok x, w') ->
  ac_members (tables w') = ac_members (tables w) ++ map (fun u => mkMember g u added) us.
Proof.
  induction us as [|u us IH]; intros w x w' H.
  - injection H as _ <-. cbn. by rewrite app_nil_r.
  - cbn [insert_members] in H. apply bind_ok in H as ([] & w1 & H1 & H).
    apply write_if_run in H1 as [(y & _ & H1)|(e & [=] & _)]. apply insert_member_ok in H1 as [H1 _].
    rewrite (IH _ _ _ H), H1, <- app_assoc. done.
Qed.

Lemma select_delete_none {A} (p : A -> bool) t : select p (delete_where p t) = [].
Proof. unfold select, delete_where. induction t as [|x t IH]; cbn; [done|]. destruct (p x) eqn:E; cbn; by rewrite ?E. Qed.

Lemma select_all {A B} (p : B -> bool) (f : A -> B) l : (forall x, p (f x) = true) -> select p (map f l) = map f l.
Proof. intros H. unfold select. induction l as [|x l IH]; cbn; [done|]. by rewrite H, IH. Qed.

Lemma select_none_map {A B} (p : B -> bool) (f : A -> B) l : (forall x, p (f x) = false) -> select p (map f l) = [].
Proof. intros H. unfold select. induction l as [|x l IH]; cbn; [done|]. by rewrite H. Qed.

Lemma select_delete_other {A} (p q : A -> bool) t : (forall x, p x = true -> q x = false) ->
  select p (delete_where q t) = select p t.
Proof.
  intros H. unfold select, delete_where. induction t as [|x t IH]; cbn; [done|].
  specialize (H x). destruct (p x) eqn:Ep, (q x); cbn; rewrite ?Ep, ?IH; try done. by discriminate H.
Qed.

(** ReplaceMembers is all or nothing: on success the group has exactly the
    listed users, in order, and every other group is as it was; on an error
    (an unknown user, one listed twice, a failed statement) nothing changed. *)
Theorem ReplaceMembers_atomic (g : Z) (us : list Z) (by_ : Z) (w w' : World Accounts) (r : result error unit)
    (H : ReplaceMembers g us by_ w = (r, w')) :
  match r with
  | Ok _ => members_of g (tables w') = us /\ (forall g', g' <> g -> members_of g' (tables w') = members_of g' (tables w))
  | Err _ => tables w' = tables w
  end.
Proof.
  destruct r as [[]|e]; [|by apply transact_err in H].
  apply transact_ok in H as (l & w1 & H & ->). apply bind_ok in H as ([] & w2 & H1 & H).
  apply write_run in H1 as [[_ H1]|(e & [=] & _)]. apply insert_members_ok in H.
  cbn in H1. unfold members_of. rewrite H, H1. cbn. set (t := ac_members (tables w)).
  split.
  - rewrite select_app, map_app, select_delete_none, select_all by (intros; apply Z.eqb_refl). cbn. rewrite map_map. by rewrite map_id.
  - intros g' Hne. rewrite select_app, map_app, (select_none_map (fun m => gm_group_id m =? g') (fun u => mkMember g u (nullableAddedBy by_)) us)
      by (intros; apply Z.eqb_neq; cbn; congruence).
    cbn [map]. rewrite app_nil_r.
    rewrite select_delete_other; [done|]. intros m Hm. breflect. apply Z.eqb_neq. congruence.
Qed.

Definition team : World Accounts :=
  mkWorld (set_ac_members [mkMember 1 1 None; mkMember 2 1 None]
    (set_ac_groups [mkGroup 1 "a" "" "read" true None 0 0; mkGroup 2 "b" "" "write" true None 0 0]
      (mkAccounts [mkUser 1 "x" None "" "" true false false None None None None None 0 0 None;
                   mkUser 2 "y" None "" "" true false false None None None None None 0 0 None]
        2 [] [] 2 [] [] 0 [] [] 0 [] [] [] [] 0 [] 0 0))) [].

Example ReplaceMembers_atomic_witness :
  members_of 1 (tables (snd (ReplaceMembers 1 [2; 1] 0 team))) = [2; 1] /\
  tables (snd (ReplaceMembers 1 [2; 9] 0 team)) = tables team.
Proof.
  split.
  - apply (ReplaceMembers_atomic 1 [2; 1] 0 team (snd (ReplaceMembers 1 [2; 1] 0 team)) (Ok tt)). vm_compute. reflexivity.
  - apply (ReplaceMembers_atomic 1 [2; 9] 0 team (snd (ReplaceMembers 1 [2; 9] 0 team)) (Err (ESentinel ErrForeignKey))).
    vm_compute. reflexivity.
Defined.
