(* ===== verification/Admins.v ===== *)
(** * Who is an administrator

    [CountAdmins] counts exactly the users [IsAdmin] accepts, the bootstrap
    administrator is seeded at most once, a user changes only as an operation on
    it says, and a deleted user gives up its address. *)

From S2P Require Import Prelude GoLib Sql Stmt AccountSchema Users.
From stdpp Require Import pretty.

Open Scope Z_scope.

(** ** Levels *)

Lemma rank_admin l : rank l = 3 <-> l = "admin".
Proof.
  unfold rank. destruct (String.eqb_spec l "admin"); [done|].
  destruct (String.eqb l "write"), (String.eqb l "read"); split; (lia || done).
Qed.

Lemma rank_bound l : 0 <= rank l <= 3.
Proof. unfold rank. destruct (String.eqb l "admin"), (String.eqb l "write"), (String.eqb l "read"); lia. Qed.

Lemma highest_admin x y : String.eqb (highest x y) "admin" = String.eqb x "admin" || String.eqb y "admin".
Proof.
  unfold highest. pose proof (rank_bound x). pose proof (rank_bound y).
  destruct (String.eqb_spec x "admin") as [->|Hx]; cbn [orb].
  - change (rank "admin") with 3. destruct (Z.leb_spec (rank y) 3); [done|lia].
  - assert (rank x <> 3) by (by rewrite rank_admin). destruct (Z.leb_spec (rank y) (rank x)).
    + destruct (String.eqb_spec y "admin") as [->|]; [change (rank "admin") with 3 in *; lia|].
      by apply String.eqb_neq.
    + done.
Qed.

(** What the tables say about a user. *)
Definition perm_admin (a : Accounts) (id : Z) : bool :=
  existsb (fun p => (pm_user_id p =? id) && String.eqb (pm_level p) "admin") (ac_permissions a).
Definition group_admin (a : Accounts) (id : Z) : bool :=
  existsb (fun g => String.eqb (g_PermissionLevel g) "admin") (member_groups id a).
Definition has_admin (a : Accounts) (id : Z) : bool := perm_admin a id || group_admin a id.

(** One permission per user, one row per id: the keys of the tables. *)
Definition accounts_ok (a : Accounts) : Prop :=
  List.NoDup (ids (ac_users a)) /\ List.NoDup (map pm_user_id (ac_permissions a)).

Lemma find_perm_admin t id : List.NoDup (map pm_user_id t) ->
  match List.find (fun p => pm_user_id p =? id) t with Some p => String.eqb (pm_level p) "admin" | None => false end
  = existsb (fun p => (pm_user_id p =? id) && String.eqb (pm_level p) "admin") t.
Proof.
  induction t as [|p t IH]; [done|]. intros [Hp Hnd]%NoDup_cons_iff. cbn [List.find existsb].
  destruct (Z.eqb_spec (pm_user_id p) id) as [<-|]; cbn; [|by apply IH].
  destruct (String.eqb (pm_level p) "admin"); [done|]. cbn. symmetry.
  apply not_true_is_false. intros (q & Hq & Heq)%existsb_exists. breflect. apply Hp. rewrite <- H. by apply in_map.
Qed.

Lemma head_rank_admin l : 
  match head (limit 1 (order_by rank_desc l)) with Some g => String.eqb (g_PermissionLevel g) "admin" | None => false end
  = existsb (fun g => String.eqb (g_PermissionLevel g) "admin") l.
Proof.
  destruct (order_by rank_desc l) as [|x t] eqn:E.
  - destruct l as [|y l]; [done|]. exfalso. assert (In y (order_by rank_desc (y :: l))) as Hin by (apply order_by_in; by left).
    by rewrite E in Hin.
  - change (limit 1 (x :: t)) with [x]. cbn [head].
    pose proof (order_by_desc_head (fun g => rank (g_PermissionLevel g)) l x t E) as Hmax. cbn in Hmax.
    destruct (String.eqb_spec (g_PermissionLevel x) "admin") as [Hx|Hx].
    + symmetry. apply existsb_exists. exists x. split; [|by apply String.eqb_eq].
      apply (order_by_in rank_desc). rewrite E. by left.
    + symmetry. apply not_true_is_false. intros (r & Hr & Hadm%String.eqb_eq)%existsb_exists.
      specialize (Hmax r Hr). rewrite Hadm in Hmax. change (rank "admin") with 3 in Hmax.
      pose proof (rank_bound (g_PermissionLevel x)). apply Hx, rank_admin. lia.
Qed.

(** ** What [IsAdmin] answers *)

Section healthy.
Context (w : World Accounts) (Hw : sched w = []).

Lemma GetDirect_healthy id :
  GetDirect id w = (Ok (default "" (pm_level <$> List.find (fun p => pm_user_id p =? id) (ac_permissions (tables w)))), w).
Proof.
  unfold GetDirect, try, mbind, ST_bind. rewrite read_row_healthy by done. by destruct (pm_level <$> _).
Qed.

Lemma GetEffective_healthy id :
  GetEffective id w =
  (Ok (highest (default "" (pm_level <$> List.find (fun p => pm_user_id p =? id) (ac_permissions (tables w))))
               (default "" (g_PermissionLevel <$> head (limit 1 (order_by rank_desc (member_groups id (tables w))))))), w).
Proof.
  unfold GetEffective. rewrite (bind_run _ _ _ _ _ (GetDirect_healthy id)).
  unfold try, mbind, ST_bind. rewrite read_row_healthy by done. by destruct (g_PermissionLevel <$> _).
Qed.

Lemma IsAdmin_healthy id : List.NoDup (map pm_user_id (ac_permissions (tables w))) ->
  IsAdmin id w = (Ok (has_admin (tables w) id), w).
Proof.
  intros Hp. unfold IsAdmin. rewrite (bind_run _ _ _ _ _ (GetEffective_healthy id)).
  unfold mret, ST_ret. rewrite highest_admin. unfold has_admin, perm_admin, group_admin.
  rewrite <- find_perm_admin, <- head_rank_admin by done.
  by destruct (List.find _ _), (head _).
Qed.
End healthy.

(** ** What the join of [CountAdmins] finds *)

Lemma left_join_exists {A} (on : A -> bool) t (q : option A -> bool) : q None = false ->
  existsb q (left_join on t) = existsb (fun x => on x && q (Some x)) t.
Proof.
  intros Hq. assert (existsb q (map Some (select on t)) = existsb (fun x => on x && q (Some x)) t) as H.
  { unfold select. induction t as [|x t IH]; cbn; [done|]. destruct (on x); cbn; by rewrite IH. }
  unfold left_join. destruct (select on t) eqn:E; [|done]. rewrite <- H. cbn. by rewrite Hq.
Qed.

Lemma left_join_some {A} (on : A -> bool) t (b : bool) : existsb (fun _ => b) (left_join on t) = b.
Proof. unfold left_join. destruct (select on t); cbn; [by rewrite orb_false_r|]. destruct b; [done|]. by induction (map Some l). Qed.

Lemma existsb_flat_map {A B} (f : A -> list B) (p : B -> bool) l : existsb p (flat_map f l) = existsb (fun x => existsb p (f x)) l.
Proof. induction l as [|x l IH]; cbn; [done|]. by rewrite existsb_app, IH. Qed.

Lemma existsb_map {A B} (f : A -> B) (p : B -> bool) l : existsb p (map f l) = existsb (fun x => p (f x)) l.
Proof. induction l as [|x l IH]; cbn; [done|]. by rewrite IH. Qed.

Lemma existsb_or {A} (p q : A -> bool) l : existsb (fun x => p x || q x) l = existsb p l || existsb q l.
Proof. induction l as [|x l IH]; cbn; [done|]. rewrite IH. by destruct (p x), (q x), (existsb p l), (existsb q l). Qed.

Lemma existsb_ext {A} (p q : A -> bool) l : (forall x, p x = q x) -> existsb p l = existsb q l.
Proof. intros H. induction l as [|x l IH]; cbn; [done|]. by rewrite H, IH. Qed.

Definition joined_admin (a : Accounts) (m : option Member) : bool :=
  existsb (fun g => level_is_admin (g_PermissionLevel <$> g))
    (left_join (fun g => bool_decide (gm_group_id <$> m = Some (g_ID g)) && g_IsActive g) (ac_groups a)).

Lemma group_join a id : existsb (joined_admin a) (left_join (fun m => gm_user_id m =? id) (ac_members a)) = group_admin a id.
Proof.
  rewrite left_join_exists.
  2:{ unfold joined_admin. rewrite left_join_exists by done. cbn. by induction (ac_groups a). }
  apply eq_true_iff_eq. unfold group_admin, member_groups. rewrite existsb_flat_map, !existsb_exists. split.
  - intros (m & Hm & [Hu Hj]%andb_prop). unfold joined_admin in Hj. rewrite left_join_exists in Hj by done.
    apply existsb_exists in Hj as (g & Hg & [Hon Hadm]%andb_prop). apply andb_prop in Hon as [Hgm Hact].
    apply bool_decide_eq_true in Hgm. cbn in Hgm. injection Hgm as Hgm. apply bool_decide_eq_true in Hadm. cbn in Hadm. injection Hadm as Hadm.
    exists g. split; [by apply in_select|]. rewrite existsb_map. apply existsb_exists. exists m. split; [|by apply String.eqb_eq].
    apply in_select. split; [done|]. rewrite Hgm, Z.eqb_refl. exact Hu.
  - intros (g & [Hg Hact]%in_select & Hx). rewrite existsb_map in Hx. apply existsb_exists in Hx as (m & [Hm Hmu]%in_select & Hadm).
    apply andb_prop in Hmu as [Hgm Hu]. exists m. split; [done|]. apply andb_true_intro. split; [done|].
    unfold joined_admin. rewrite left_join_exists by done. apply existsb_exists. exists g. split; [done|].
    apply Z.eqb_eq in Hgm. apply String.eqb_eq in Hadm. cbn. unfold level_is_admin. rewrite Hgm, Hact, Hadm. by rewrite !bool_decide_true.
Qed.

Lemma admin_rows_admin a u : existsb admin_row (admin_rows a u) = has_admin a (us_ID u).
Proof.
  unfold admin_rows. rewrite existsb_flat_map.
  rewrite (existsb_ext _ (fun up => level_is_admin (pm_level <$> up) || group_admin a (us_ID u))).
  - rewrite existsb_or, left_join_some. unfold has_admin. f_equal. rewrite left_join_exists by done. unfold perm_admin.
    apply existsb_ext. intros p. f_equal. unfold level_is_admin. cbn. destruct (String.eqb_spec (pm_level p) "admin") as [->|Hne].
    + by rewrite bool_decide_true.
    + rewrite bool_decide_false by congruence. done.
  - intros up. rewrite existsb_flat_map. rewrite <- (group_join a (us_ID u)).
    rewrite (existsb_ext _ (fun gm => level_is_admin (pm_level <$> up) || joined_admin a gm)).
    + by rewrite existsb_or, left_join_some.
    + intros gm. rewrite existsb_map. unfold admin_row, joined_admin. cbn. by rewrite existsb_or, left_join_some.
Qed.

Lemma filter_nil_existsb {A} (p : A -> bool) l : existsb p l = false -> select p l = [].
Proof. unfold select. induction l as [|x l IH]; cbn; [done|]. by destruct (p x). Qed.

(** Distinct ids of rows grouped by user: one per user with a row. *)
Lemma distinct_ids a t : List.NoDup (ids t) ->
  nodup Z.eq_dec (flat_map (fun u => map (fun _ => us_ID u) (select admin_row (admin_rows a u))) t)
  ≡ₚ map us_ID (select (fun u => has_admin a (us_ID u)) t).
Proof.
  intros Hnd. apply NoDup_Permutation.
  - apply NoDup_ListNoDup, NoDup_nodup.
  - apply NoDup_ListNoDup. unfold ids in Hnd. clear -Hnd. unfold select. induction t as [|u t IH]; cbn; [constructor|].
    apply NoDup_cons_iff in Hnd as [Hu Hnd]. destruct (has_admin a (us_ID u)); [|by apply IH]. cbn. constructor; [|by apply IH].
    intros (v & Hv & [Hin _]%filter_In)%in_map_iff. apply Hu. change (key u) with (us_ID u). rewrite <- Hv. by apply (in_map key).
  - intros i. rewrite !list_elem_of_In, nodup_In, in_flat_map, in_map_iff. split.
    + intros (u & Hu & (r & <- & [Hr Hadm]%in_select)%in_map_iff). exists u. split; [done|]. apply in_select. split; [done|].
      rewrite <- admin_rows_admin. apply existsb_exists. eauto.
    + intros (u & <- & [Hu Hadm]%in_select). exists u. split; [done|]. rewrite <- admin_rows_admin in Hadm.
      apply existsb_exists in Hadm as (r & Hr & Hx). apply in_map_iff. exists r. split; [done|]. by apply in_select.
Qed.

(** The users that count: active, not deleted, administrators. *)
Definition counted (a : Accounts) (u : User) : bool := us_IsActive u && live u && has_admin a (us_ID u).

Lemma NoDup_ids_select {A} `{!Keyed A} (p : A -> bool) t : List.NoDup (ids t) -> List.NoDup (ids (select p t)).
Proof.
  unfold ids, select. induction t as [|x t IH]; cbn; [done|]. intros [Hx Hnd]%NoDup_cons_iff.
  destruct (p x); [|by apply IH]. cbn. constructor; [|by apply IH].
  intros (y & Hy & [Hin _]%filter_In)%in_map_iff. apply Hx. rewrite <- Hy. by apply in_map.
Qed.

Lemma select_and {A} (p q : A -> bool) t : select q (select p t) = select (fun x => p x && q x) t.
Proof. unfold select. induction t as [|x t IH]; cbn; [done|]. destruct (p x); cbn; [|done]. by rewrite IH. Qed.

Definition admin_count (a : Accounts) : Z :=
  Z.of_nat (length (nodup Z.eq_dec
    (flat_map (fun u => map (fun _ => us_ID u) (select admin_row (admin_rows a u)))
      (select (fun u => us_IsActive u && live u) (ac_users a))))).

Lemma admin_count_counted a : List.NoDup (ids (ac_users a)) -> admin_count a = affected (counted a) (ac_users a).
Proof.
  intros Hu. unfold admin_count, affected, counted.
  rewrite (Permutation_length (distinct_ids a _ (NoDup_ids_select _ _ Hu))), length_map. by rewrite select_and.
Qed.

(** CountAdmins counts the active, undeleted users for whom IsAdmin answers
    true, directly or through an active group: the two queries agree on who is
    an administrator. *)
Theorem CountAdmins_counts_admins (w : World Accounts) (Hw : sched w = []) (Hok : accounts_ok (tables w)) :
  CountAdmins w = (Ok (affected (counted (tables w)) (ac_users (tables w))), w) /\
  forall id, IsAdmin id w = (Ok (has_admin (tables w) id), w).
Proof.
  destruct Hok as [Hu Hp]. split.
  - unfold CountAdmins. rewrite read_healthy by done. fold (admin_count (tables w)). by rewrite admin_count_counted.
  - intros id. by apply IsAdmin_healthy.
Qed.

(** ** Well-formed user tables *)

Definition distinct_emails (t : list User) : Prop :=
  forall x y, In x t -> In y t -> us_Email x = us_Email y -> us_ID x = us_ID y.
Definition distinct_externals (t : list User) : Prop :=
  forall x y e, In x t -> In y t -> us_ExternalID x = Some e -> us_ExternalID y = Some e -> us_ID x = us_ID y.

Record well_formed (a : Accounts) : Prop := {
  wf_ids : List.NoDup (ids (ac_users a));
  wf_seq : forall u, In u (ac_users a) -> us_ID u <= ac_seq_users a;
  wf_emails : distinct_emails (ac_users a);
  wf_externals : distinct_externals (ac_users a);
  wf_perms : List.NoDup (map pm_user_id (ac_permissions a));
  wf_levels : forall p, In p (ac_permissions a) -> level_ok (pm_level p) = true;
}.

Lemma user_unique_spec u t : user_unique u t = true ->
  (forall v, In v t -> us_Email v <> us_Email u) /\
  (forall v e, In v t -> us_ExternalID u = Some e -> us_ExternalID v <> Some e).
Proof.
  unfold user_unique. intros [Hm%negb_true_iff Hx]%andb_prop. split.
  - intros v Hv He. apply (not_true_iff_false (existsb (has_email (us_Email u)) t)) in Hm. apply Hm.
    apply existsb_exists. exists v. split; [done|]. by apply String.eqb_eq.
  - intros v e Hv He Hve. rewrite He in Hx. apply negb_true_iff in Hx.
    apply (not_true_iff_false (existsb (has_external e) t)) in Hx. apply Hx.
    apply existsb_exists. exists v. split; [done|]. by apply bool_decide_eq_true.
Qed.

Lemma insert_user_wf row a id a' : (forall i t, us_ID (row i t) = i) -> well_formed a ->
  insert_user row a = Ok (id, a') ->
  well_formed a' /\ id = ac_seq_users a + 1 /\ ac_users a' = ac_users a ++ [row id (stamp a)] /\
  ac_permissions a' = ac_permissions a /\ user_unique (row id (stamp a)) (ac_users a) = true.
Proof.
  intros Hrow [Hids Hseq Hem Hex Hp Hl] H. unfold insert_user in H. apply constrained_ok in H as (E & _ & Hu & _).
  injection E as <- <-. split; [|done]. pose proof (user_unique_spec _ _ Hu) as [He Hx]. split; cbn; [| | | |done|done].
  - unfold ids. rewrite map_app. apply NoDup_snoc; [done|]. intros (v & Hv & Hin)%in_map_iff. apply Hseq in Hin.
    change (key v) with (us_ID v) in Hv. change (key (row (ac_seq_users a + 1) (stamp a))) with (us_ID (row (ac_seq_users a + 1) (stamp a))) in Hv.
    rewrite Hrow in Hv. lia.
  - intros u [Hin|[<-|[]]]%in_app_or; [specialize (Hseq u Hin); lia|]. rewrite Hrow. lia.
  - intros x y [Hx1|[<-|[]]]%in_app_or [Hy1|[<-|[]]]%in_app_or E; [by apply Hem| | |done]; exfalso.
    + by apply (He x Hx1).
    + by apply (He y Hy1).
  - intros x y e [Hx1|[<-|[]]]%in_app_or [Hy1|[<-|[]]]%in_app_or Ex Ey; [by eapply Hex| | |done]; exfalso.
    + by apply (Hx x e Hx1).
    + by apply (Hx y e Hy1).
Qed.

Lemma update_users_wf p f a x a' : (forall t u, us_ID (f t u) = us_ID u) -> well_formed a ->
  update_users p f a = Ok (x, a') ->
  well_formed a' /\ ac_users a' = update p (f (stamp a)) (ac_users a) /\ ac_permissions a' = ac_permissions a.
Proof.
  intros Hf [Hids Hseq Hem Hex Hp Hl] H. unfold update_users in H. apply constrained_ok in H as (E & _ & Hu & _).
  injection E as <- <-. split; [|done]. apply negb_true_iff in Hu.
  set (t' := update p (f (stamp a)) (ac_users a)) in *.
  assert (forall v, In v t' -> (exists u, In u (ac_users a) /\ p u = true /\ v = f (stamp a) u /\
    user_unique v (delete_where (by_id (us_ID v)) t') = true) \/ In v (ac_users a)) as Hin.
  { intros v (u & Hu0 & [[Hpu ->]|[Hpu ->]])%in_update; [left|by right]. exists u. repeat split; [done|done|].
    rewrite Hf. apply not_false_is_true. intros Hbad. apply (not_true_iff_false (existsb _ _)) in Hu. apply Hu.
    apply existsb_exists. exists u. split; [done|]. rewrite Hpu. cbn. by rewrite Hbad. }
  assert (forall v w, In v t' -> In w t' -> us_ID v <> us_ID w -> In w (delete_where (by_id (us_ID v)) t')) as Hother.
  { intros v w _ Hw Hne. apply in_delete. split; [done|]. unfold by_id. apply Z.eqb_neq. intros E. apply Hne. symmetry. exact E. }
  split; cbn; [| | | |done|done].
  - change (List.NoDup (ids (update p (f (stamp a)) (ac_users a)))). rewrite ids_update; [done|]. intros u. apply Hf.
  - intros u (v & Hv & [[_ ->]|[_ ->]])%in_update; [rewrite Hf|]; by apply Hseq.
  - intros v w Hv Hw E. destruct (Z.eq_dec (us_ID v) (us_ID w)) as [|Hne]; [done|]. exfalso.
    destruct (Hin v Hv) as [(u & _ & _ & _ & Hun)|Hv0].
    { apply user_unique_spec in Hun as [Hun _]. apply (Hun w); [by apply Hother|done]. }
    destruct (Hin w Hw) as [(u & _ & _ & _ & Hun)|Hw0].
    { apply user_unique_spec in Hun as [Hun _]. apply (Hun v); [apply Hother; congruence|done]. }
    by apply Hne, Hem.
  - intros v w e Hv Hw Ev Ew. destruct (Z.eq_dec (us_ID v) (us_ID w)) as [|Hne]; [done|]. exfalso.
    destruct (Hin v Hv) as [(u & _ & _ & _ & Hun)|Hv0].
    { apply user_unique_spec in Hun as [_ Hun]. apply (Hun w e); [by apply Hother|done..]. }
    destruct (Hin w Hw) as [(u & _ & _ & _ & Hun)|Hw0].
    { apply user_unique_spec in Hun as [_ Hun]. apply (Hun v e); [apply Hother; congruence|done..]. }
    by apply Hne, (Hex _ _ e).
Qed.

Lemma upsert_permission_wf id level by_ a x a' : well_formed a -> upsert_permission id level by_ a = Ok (x, a') ->
  well_formed a' /\ ac_users a' = ac_users a /\ user_exists a id = true /\
  In (mkPerm id level (Some by_)) (ac_permissions a') /\
  (forall p, pm_user_id p <> id -> In p (ac_permissions a') <-> In p (ac_permissions a)).
Proof.
  intros [Hids Hseq Hem Hex Hp Hl] H. unfold upsert_permission in H. apply constrained_ok in H as (E & Hlev & _ & Hfk).
  apply andb_prop in Hfk as [Hfk _]. injection E as <- <-. cbn. set (row := mkPerm id level (Some by_)).
  destruct (existsb (fun p => pm_user_id p =? id) (ac_permissions a)) eqn:Emine.
  - split; [|split; [done|split; [done|split]]].
    + split; cbn; [done..| |].
      * replace (map pm_user_id _) with (map pm_user_id (ac_permissions a)); [done|]. unfold update. rewrite map_map.
        apply map_ext. intros p. destruct (Z.eqb_spec (pm_user_id p) id); done.
      * intros p (q & Hq & [[_ ->]|[_ ->]])%in_update; [done|by apply Hl].
    + apply in_update. apply existsb_exists in Emine as (q & Hq & Hid). exists q. split; [done|]. by left.
    + intros p Hne. rewrite in_update. split.
      * intros (q & Hq & [[_ ->]|[_ ->]]); [done|done].
      * intros Hin. exists p. split; [done|]. right. split; [by apply Z.eqb_neq|done].
  - split; [|split; [done|split; [done|split]]].
    + split; cbn; [done..| |].
      * rewrite map_app. apply NoDup_snoc; [done|]. intros (q & Hq & Hin)%in_map_iff.
        apply not_true_iff_false in Emine. apply Emine, existsb_exists. exists q. split; [done|]. by apply Z.eqb_eq.
      * intros p [Hin|[<-|[]]]%in_app_or; [by apply Hl|done].
    + apply in_or_app. right. by left.
    + intros p Hne. rewrite in_app_iff. cbn. split; [|by left]. by intros [Hin|[<-|[]]].
Qed.

(** Every statement of the services keeps the tables well formed. *)
Abbreviation keeps_wf m := (steps (on_tables (keeps well_formed)) m).

Lemma keeps_insert row : (forall i t, us_ID (row i t) = i) -> keeps_wf (write_if (insert_user row)).
Proof. intros Hrow. apply steps_write_if; [apply _|]. intros a id a' H Hwf. apply (insert_user_wf row a id a' Hrow Hwf H). Qed.

Lemma keeps_update p f : (forall t u, us_ID (f t u) = us_ID u) -> keeps_wf (write_if (update_users p f)).
Proof. intros Hf. apply steps_write_if; [apply _|]. intros a x a' H Hwf. apply (update_users_wf p f a x a' Hf Hwf H). Qed.

Lemma keeps_upsert id level by_ : keeps_wf (write_if (upsert_permission id level by_)).
Proof. apply steps_write_if; [apply _|]. intros a x a' H Hwf. apply (upsert_permission_wf id level by_ a x a' Hwf H). Qed.

Lemma keeps_identities f : keeps_wf (write (fun a => set_ac_identities (f a) a)).
Proof. apply steps_write; [apply _|]. intros a [? ? ? ? ? ?]. by split. Qed.

Lemma keeps_clock : keeps_wf clock_now.
Proof. apply steps_gets, _. Qed.

#[local] Hint Extern 1 (steps _ (write_if (insert_user _))) => (by apply keeps_insert) : steps_db.
#[local] Hint Extern 1 (steps _ (write_if (update_users _ _))) => (by apply keeps_update) : steps_db.
#[local] Hint Resolve keeps_upsert keeps_clock : steps_db.
#[local] Hint Extern 1 (steps _ (write (fun _ => set_ac_identities _ _))) => (apply keeps_identities) : steps_db.

Section ops.
Context {B : Bcrypt}.

(** The operations of user.go, permission.go and admin_seed.go that write. *)
Inductive user_op :=
| OpCreate (email hash first last : string)
| OpCreateServiceAccount (email first last : string)
| OpCreateFromSCIM (email first last externalID : string)
| OpUpdateLastLogin (id : Z)
| OpUpdate (id : Z) (first last : string) (active : option bool)
| OpUpdateRestrictions (id : Z) (maxSize : option Z) (types : string)
| OpSoftDelete (id : Z)
| OpUpdatePassword (id : Z) (hash : string)
| OpUpdateFromSCIM (id : Z) (email first last : string) (ext : option string) (active : option bool)
| OpSetExternalID (id : Z) (ext : string)
| OpSetDirect (id : Z) (level : string) (by_ : Z)
| OpSeedAdmin (email password : string) (salt : Z)
| OpTick (now : Z).

Definition run_user_op (o : user_op) (w : World Accounts) : World Accounts :=
  match o with
  | OpCreate e h f l => snd (Create e h f l w)
  | OpCreateServiceAccount e f l => snd (CreateServiceAccount e f l w)
  | OpCreateFromSCIM e f l x => snd (CreateFromSCIM e f l x w)
  | OpUpdateLastLogin i => snd (UpdateLastLogin i w)
  | OpUpdate i f l x => snd (UserUpdate i f l x w)
  | OpUpdateRestrictions i m t => snd (UpdateRestrictions i m t w)
  | OpSoftDelete i => snd (SoftDelete i w)
  | OpUpdatePassword i h => snd (UpdatePassword i h w)
  | OpUpdateFromSCIM i e f l x b => snd (UpdateFromSCIM i e f l x b w)
  | OpSetExternalID i x => snd (SetUserExternalID i x w)
  | OpSetDirect i l b => snd (SetDirect i l b w)
  | OpSeedAdmin e p s => snd (SeedAdmin e p s w)
  | OpTick n => set_tables (set_ac_now n (tables w)) w
  end.

Lemma keeps_GetByID id : keeps_wf (GetByID id).
Proof. unfold GetByID. apply steps_map_err, steps_read_row, _. Qed.

#[local] Hint Resolve keeps_GetByID : steps_db.

Lemma run_user_op_wf o w : well_formed (tables w) -> well_formed (tables (run_user_op o w)).
Proof.
  intros Hwf. destruct o; cbn [run_user_op];
    try (match goal with |- well_formed (tables (snd (?m w))) => enough (keeps_wf m) as Hk by exact (Hk w Hwf) end).
  1-3: unfold Create, CreateServiceAccount, CreateFromSCIM; cbv zeta; steps_go.
  - unfold UpdateLastLogin. steps_go.
  - unfold UserUpdate. cbv zeta. steps_go.
  - unfold UpdateRestrictions. cbv zeta. steps_go.
  - unfold SoftDelete. apply steps_transact; [apply _|]. cbv zeta. steps_go.
  - unfold UpdatePassword. steps_go.
  - unfold UpdateFromSCIM. cbv zeta. steps_go.
  - unfold SetUserExternalID. steps_go.
  - apply keeps_upsert.
  - unfold SeedAdmin, CountAdmins, SetDirect, Create. cbv zeta. steps_go.
  - destruct Hwf. by split.
Qed.

Definition run_user_ops (os : list user_op) (w : World Accounts) : World Accounts := fold_left (fun w o => run_user_op o w) os w.

Lemma run_user_ops_wf os w : well_formed (tables w) -> well_formed (tables (run_user_ops os w)).
Proof. unfold run_user_ops. revert w. induction os as [|o os IH]; intros w H; [done|]. cbn. apply IH. by apply run_user_op_wf. Qed.
End ops.

(** ** The bootstrap administrator *)

Lemma GetByID_run id w r w' : GetByID id w = (r, w') -> tables w' = tables w /\
  match r with
  | Ok u => List.find (fun u => by_id id u && live u) (ac_users (tables w)) = Some u
  | Err e => errors_is e ErrEmailTaken = false
  end.
Proof.
  unfold GetByID, map_err. destruct (read_row _ w) as [x w1] eqn:E.
  apply read_row_run in E as [E|[E1 [e ->]]]; [destruct E as [E1 E2]|by intros [= <- <-]].
  destruct (List.find _ _) eqn:Ef; subst x; by intros [= <- <-].
Qed.

(** A new user: the row that was added, or no change to the users. *)
Lemma Create_run email hash first last w r w' : well_formed (tables w) -> Create email hash first last w = (r, w') ->
  match r with
  | Ok u => ac_users (tables w') = ac_users (tables w) ++ [u] /\ us_ID u = ac_seq_users (tables w) + 1 /\
            us_Email u = email /\ us_IsActive u && live u = true /\ well_formed (tables w') /\
            ac_permissions (tables w') = ac_permissions (tables w) /\ ac_members (tables w') = ac_members (tables w) /\
            ac_groups (tables w') = ac_groups (tables w)
  | Err e => errors_is e ErrEmailTaken = true -> tables w' = tables w
  end.
Proof.
  intros Hwf. unfold Create. set (row := new_user email (Some hash) first last false None).
  assert (forall i t, us_ID (row i t) = i) as Hrow by done.
  unfold mbind, ST_bind, map_err. destruct (write_if (insert_user row) w) as [[id|e] w1] eqn:E.
  - apply write_if_run in E as [(i & [= ->] & Hi)|(e & [=] & _)].
    pose proof (insert_user_wf row _ _ _ Hrow Hwf Hi) as (Hwf1 & -> & Husers & Hperms & Huniq).
    assert (ac_members (tables w1) = ac_members (tables w) /\ ac_groups (tables w1) = ac_groups (tables w)) as [Hm Hg].
    { unfold insert_user in Hi. apply constrained_ok in Hi as (E & _). injection E as E. by rewrite <- E. }
    destruct (GetByID _ w1) as [[u|e] w2] eqn:Eg; apply GetByID_run in Eg as [Ht Hf]; intros [= <- <-]; [|by rewrite Hf].
    rewrite Ht. apply find_some in Hf as [Hin [Hid Hlive]%andb_prop]. rewrite Husers in Hin.
    unfold by_id in Hid. apply Z.eqb_eq in Hid. change (key u) with (us_ID u) in Hid.
    apply in_app_or in Hin as [Hin|[<-|[]]]; [apply (wf_seq _ Hwf) in Hin; lia|]. split_and!; done.
  - apply write_if_run in E as [(i & [=] & _)|(e' & [= <-] & Ht)]. intros [= <- <-] _. by rewrite Ht.
Qed.

Section evolution.
Context {B : Bcrypt}.

(** ** What happens to a user *)

(** What an operation writes into a row of the user [id], field by field. *)
Definition sets_password (id : Z) (o : user_op) (x : option string) : Prop :=
  match o with OpUpdatePassword i h => i = id /\ x = Some h | _ => False end.
Definition sets_active (id : Z) (o : user_op) (x : bool) : Prop :=
  match o with OpUpdate i _ _ (Some b) | OpUpdateFromSCIM i _ _ _ _ (Some b) => i = id /\ x = b | _ => False end.
Definition sets_live (id : Z) (o : user_op) (x : bool) : Prop :=
  match o with OpSoftDelete i => i = id /\ x = false | _ => False end.
Definition sets_email (id : Z) (o : user_op) (x : string) : Prop :=
  match o with
  | OpUpdateFromSCIM i e _ _ _ _ => i = id /\ x = e
  | OpSoftDelete i => i = id /\ exists old now, x = old +:+ deleted_suffix now
  | _ => False
  end.
Definition sets_external (id : Z) (o : user_op) (x : option string) : Prop :=
  match o with
  | OpUpdateFromSCIM i _ _ _ e _ => i = id /\ x = (if bool_decide (e = Some "") then None else e)
  | OpSetExternalID i e => i = id /\ x = Some e
  | _ => False
  end.
Definition sets_limits (id : Z) (o : user_op) (x : option Z * option string) : Prop :=
  match o with OpUpdateRestrictions i m t => i = id /\ x = (m, if String.eqb t "" then None else Some t) | _ => False end.
Definition sets_first (id : Z) (o : user_op) (x : string) : Prop :=
  match o with OpUpdate i f _ _ => i = id /\ x = f /\ f <> "" | OpUpdateFromSCIM i _ f _ _ _ => i = id /\ x = f | _ => False end.
Definition sets_last (id : Z) (o : user_op) (x : string) : Prop :=
  match o with OpUpdate i _ l _ => i = id /\ x = l /\ l <> "" | OpUpdateFromSCIM i _ _ l _ _ => i = id /\ x = l | _ => False end.
(** The stamps: of the last login, of the last password, of the deletion, of the
    last change. *)
Definition stamps_login (id : Z) (o : user_op) (x : option Z) : Prop :=
  match o with OpUpdateLastLogin i => i = id /\ is_Some x | _ => False end.
Definition stamps_password (id : Z) (o : user_op) (x : option Z) : Prop :=
  match o with OpUpdatePassword i _ => i = id /\ is_Some x | _ => False end.
Definition stamps_deleted (id : Z) (o : user_op) (x : option Z) : Prop :=
  match o with OpSoftDelete i => i = id /\ is_Some x | _ => False end.
Definition stamps_updated (id : Z) (o : user_op) (_ : Z) : Prop :=
  match o with
  | OpUpdateLastLogin i | OpUpdate i _ _ _ | OpUpdateRestrictions i _ _ | OpSoftDelete i | OpUpdatePassword i _
  | OpUpdateFromSCIM i _ _ _ _ _ | OpSetExternalID i _ => i = id
  | _ => False
  end.
Definition sets_level (id : Z) (o : user_op) (x : option string) : Prop :=
  match o with OpSetDirect i l _ => i = id /\ x = Some l | _ => False end.

(** A value is the old one, or one an operation of the history wrote. *)
Definition asked {A} (os : list user_op) (sets : user_op -> A -> Prop) (old new : A) : Prop :=
  new = old \/ exists o, In o os /\ sets o new.

Lemma asked_trans {A} os (sets : user_op -> A -> Prop) x y z : asked os sets x y -> asked os sets y z -> asked os sets x z.
Proof. intros H [->|H']; [done|by right]. Qed.

(** The row of a user before and after a history. *)
Record history (os : list user_op) (u u' : User) : Prop := {
  hi_same : us_ID u' = us_ID u /\ us_CreatedAt u' = us_CreatedAt u /\ us_IsServiceAccount u' = us_IsServiceAccount u /\
    us_EmailVerified u' = us_EmailVerified u;
  hi_password : asked os (sets_password (us_ID u)) (us_PasswordHash u) (us_PasswordHash u');
  hi_active : asked os (sets_active (us_ID u)) (us_IsActive u) (us_IsActive u');
  hi_live : asked os (sets_live (us_ID u)) (live u) (live u');
  hi_email : asked os (sets_email (us_ID u)) (us_Email u) (us_Email u');
  hi_external : asked os (sets_external (us_ID u)) (us_ExternalID u) (us_ExternalID u');
  hi_limits : asked os (sets_limits (us_ID u)) (us_MaxFileSizeBytes u, us_AllowedFileTypes u) (us_MaxFileSizeBytes u', us_AllowedFileTypes u');
  hi_first : asked os (sets_first (us_ID u)) (us_FirstName u) (us_FirstName u');
  hi_last : asked os (sets_last (us_ID u)) (us_LastName u) (us_LastName u');
  hi_login_at : asked os (stamps_login (us_ID u)) (us_LastLoginAt u) (us_LastLoginAt u');
  hi_password_at : asked os (stamps_password (us_ID u)) (us_PasswordChangedAt u) (us_PasswordChangedAt u');
  hi_deleted_at : asked os (stamps_deleted (us_ID u)) (us_DeletedAt u) (us_DeletedAt u');
  hi_updated_at : asked os (stamps_updated (us_ID u)) (us_UpdatedAt u) (us_UpdatedAt u');
  hi_deleted : live u = false -> live u' = false /\ us_IsActive u' = us_IsActive u;
}.

Lemma history_trans os u v w : history os u v -> history os v w -> history os u w.
Proof.
  intros [(Hi & ? & ? & ?) ? ? ? ? ? ? ? ? ? ? ? ? Hd] [(Hj & ? & ? & ?) ? ? ? ? ? ? ? ? ? ? ? ? Hd']. rewrite Hi in *.
  split; try (by eapply asked_trans); [repeat split; congruence|].
  intros Hu. destruct (Hd Hu) as [Hv Ha]. destruct (Hd' Hv) as [Hw Ha']. split; congruence.
Qed.

Lemma history_refl os u : history os u u.
Proof. split; try by left. - done. - by intros. Qed.

Definition direct (a : Accounts) (id : Z) : option string := pm_level <$> List.find (fun p => pm_user_id p =? id) (ac_permissions a).

(** Every row stays and has a history; a level of its own changes by SetDirect alone. *)
Definition evolves (os : list user_op) (a a' : Accounts) : Prop :=
  ac_seq_users a <= ac_seq_users a' /\
  (forall u, In u (ac_users a) -> exists u', In u' (ac_users a') /\ history os u u') /\
  forall id, id <= ac_seq_users a -> asked os (sets_level id) (direct a id) (direct a' id).

#[local] Instance evolves_preorder os : PreOrder (evolves os).
Proof.
  split.
  - intros a. split_and!; [lia| |by left]. intros u Hu. exists u. split; [done|]. apply history_refl.
  - intros a b c (H1 & H2 & H3) (H1' & H2' & H3'). split_and!; [lia| |].
    + intros u Hu. destruct (H2 u Hu) as (v & Hv & Hh). destruct (H2' v Hv) as (x & Hx & Hh'). exists x. split; [done|]. by eapply history_trans.
    + intros id Hid. eapply asked_trans; [by apply H3|]. apply H3'. lia.
Qed.

Abbreviation evolving os m := (steps (on_tables (evolves os)) m).

Lemma evolving_insert os row : evolving os (write_if (insert_user row)).
Proof.
  apply steps_write_if; [apply _|]. intros a id a' H. unfold insert_user in H. apply constrained_ok in H as (E & _). injection E as _ <-.
  split_and!; cbn; [lia| |by left]. intros u Hu. exists u. split; [apply in_or_app; by left|apply history_refl].
Qed.

Lemma evolves_update os p f a x a' : (forall t u, In u (ac_users a) -> p u = true -> history os u (f t u)) -> update_users p f a = Ok (x, a') -> evolves os a a'.
Proof.
  intros Hf H. unfold update_users in H. apply constrained_ok in H as (E & _). injection E as _ <-.
  split_and!; cbn; [lia| |by left]. intros u Hu. destruct (p u) eqn:Ep.
  - exists (f (stamp a) u). split; [apply in_update; exists u; auto|by apply Hf].
  - exists u. split; [apply in_update; exists u; auto|apply history_refl].
Qed.

Lemma evolving_update os p f : (forall t u, p u = true -> history os u (f t u)) -> evolving os (write_if (update_users p f)).
Proof. intros Hf. apply steps_write_if; [apply _|]. intros a x a'. apply evolves_update. auto. Qed.

Lemma find_upsert id level by_ i t :
  let row := mkPerm id level (Some by_) in
  let mine p := pm_user_id p =? id in
  pm_level <$> List.find (fun p => pm_user_id p =? i) (if existsb mine t then update mine (fun _ => row) t else t ++ [row]) =
  if i =? id then Some level else pm_level <$> List.find (fun p => pm_user_id p =? i) t.
Proof.
  cbv zeta. unfold update. destruct (existsb _ t) eqn:E.
  - revert E. induction t as [|p t IH]; [done|]. cbn. intros E. destruct (Z.eqb_spec (pm_user_id p) id) as [Ep|Ep]; cbn.
    + destruct (Z.eqb_spec i id) as [->|Hne]; [by rewrite Z.eqb_refl|]. rewrite (proj2 (Z.eqb_neq _ _)) by congruence.
      rewrite (proj2 (Z.eqb_neq (pm_user_id p) i)) by congruence. f_equal.
      clear -Hne. induction t as [|q t IH]; [done|]. cbn. destruct (Z.eqb_spec (pm_user_id q) id) as [Eq|Eq]; cbn; [|by rewrite IH].
      rewrite (proj2 (Z.eqb_neq _ _)) by congruence. rewrite (proj2 (Z.eqb_neq (pm_user_id q) i)) by congruence. done.
    + destruct (Z.eqb_spec (pm_user_id p) i) as [Ei|Ei]; [by rewrite (proj2 (Z.eqb_neq _ _)) by congruence|]. by apply IH.
  - revert E. induction t as [|p t IH]; cbn.
    + intros _. rewrite Z.eqb_sym. by destruct (i =? id).
    + intros [Ep E]%orb_false_elim. destruct (Z.eqb_spec (pm_user_id p) i) as [<-|]; [by rewrite Ep|]. by apply IH.
Qed.

Lemma direct_upsert id level by_ a x a' : upsert_permission id level by_ a = Ok (x, a') ->
  ac_users a' = ac_users a /\ ac_seq_users a' = ac_seq_users a /\ forall i, direct a' i = if i =? id then Some level else direct a i.
Proof.
  unfold upsert_permission. intros (E & _)%constrained_ok. injection E as _ <-. split_and!; [done..|]. intros i. apply find_upsert.
Qed.

Lemma evolving_upsert os id level by_ : In (OpSetDirect id level by_) os -> evolving os (write_if (upsert_permission id level by_)).
Proof.
  intros Ho. apply steps_write_if; [apply _|]. intros a x a' (Hu & Hs & Hd)%direct_upsert. split_and!; [lia| |].
  - intros u Hin. exists u. rewrite Hu. split; [done|apply history_refl].
  - intros i _. rewrite Hd. destruct (Z.eqb_spec i id) as [->|]; [|by left]. right. by exists (OpSetDirect id level by_).
Qed.

#[local] Hint Extern 1 (steps _ (write_if (insert_user _))) => (apply evolving_insert) : steps_db.

(** An update of the row [id] that writes what [o] asks for. *)
Ltac row_history o := let t := fresh in let u := fresh "u" in intros t u; intros;
  repeat match goal with H : _ && _ = true |- _ => apply andb_prop in H as [? ?] end;
  repeat match goal with H : by_id _ _ = true |- _ => unfold by_id in H; apply Z.eqb_eq in H; change (key u) with (us_ID u) in H end;
  split; cbn; try (by left); try (right; exists o; split; [assumption|]; cbn; by eauto); try done.

Lemma evolving_identities os f : evolving os (write (fun a => set_ac_identities (f a) a)).
Proof. apply steps_write; [apply _|]. intros a. split_and!; cbn; [lia| |by left]. intros u Hu. exists u. split; [done|apply history_refl]. Qed.

Lemma evolving_clock os : evolving os clock_now.
Proof. apply steps_gets, _. Qed.

Lemma evolving_GetByID os id : evolving os (GetByID id).
Proof. unfold GetByID. apply steps_map_err, steps_read_row, _. Qed.

#[local] Hint Resolve evolving_identities evolving_clock evolving_GetByID : steps_db.

Lemma evolving_SoftDelete os id : In (OpSoftDelete id) os -> evolving os (SoftDelete id).
Proof.
  intros Ho. unfold SoftDelete. apply steps_transact; [apply _|]. cbv zeta. apply steps_bind; [apply _|apply evolving_identities|]. intros _.
  apply steps_bind; [apply _|apply evolving_clock|]. intros now. apply evolving_update. row_history (OpSoftDelete id).
Qed.

Lemma find_by_id t u : List.NoDup (ids t) -> In u t -> forall v, List.find (fun u => by_id (us_ID v) u && live u) t = Some v -> us_ID u = us_ID v -> u = v.
Proof.
  intros Hn Hu v Hf Hid. apply find_some in Hf as [Hv _]. pose proof (find_id_In t u Hn Hu) as E. pose proof (find_id_In t v Hn Hv) as E'.
  change (key u) with (us_ID u) in E. change (key v) with (us_ID v) in E'. congruence.
Qed.

Lemma evolving_UserUpdate os id first last active w : In (OpUpdate id first last active) os -> well_formed (tables w) ->
  evolves os (tables w) (tables (snd (UserUpdate id first last active w))).
Proof.
  intros Ho Hwf. unfold UserUpdate, mbind, ST_bind. destruct (GetByID id w) as [[u|e] w1] eqn:E; apply GetByID_run in E as [Et Hf]; [|cbn; by rewrite Et].
  cbv zeta. rewrite <- Et in Hf, Hwf |- *. destruct (write_if _ w1) as [r w2] eqn:Ew. cbn [snd].
  apply write_if_run in Ew as [(x & _ & H)|(e & _ & ->)]; [|done]. eapply evolves_update; [|exact H]. intros t v Hv Hid. unfold by_id in Hid. apply Z.eqb_eq in Hid. change (key v) with (us_ID v) in Hid.
  pose proof (find_some _ _ Hf) as [_ [Hu Hl]%andb_prop]. unfold by_id in Hu. apply Z.eqb_eq in Hu. change (key u) with (us_ID u) in Hu.
  assert (v = u) as ->. { apply (find_by_id _ v (wf_ids _ Hwf) Hv u); [by rewrite Hu|congruence]. }
  split; cbn; try (by left); try done.
  - destruct active as [b|]; [|by left]. right. by exists (OpUpdate id first last (Some b)).
  - destruct (String.eqb_spec first ""); [by left|]. right. by exists (OpUpdate id first last active).
  - destruct (String.eqb_spec last ""); [by left|]. right. by exists (OpUpdate id first last active).
  - right. by exists (OpUpdate id first last active).
  - rewrite Hl. done.
Qed.

Lemma evolving_SeedAdmin os email password salt w : well_formed (tables w) ->
  evolves os (tables w) (tables (snd (SeedAdmin email password salt w))).
Proof.
  intros Hwf. unfold SeedAdmin. destruct (_ || _); [done|]. unfold map_err, CountAdmins. cbn.
  unfold mbind, ST_bind. destruct (read _ w) as [[n|e] w1] eqn:E; apply read_run in E as [E _]; [|cbn; by rewrite E].
  destruct (0 <? n); [cbn; by rewrite E|]. destruct (bc_generate password salt) as [hash|e]; [|cbn; by rewrite E]. cbn [of_result].
  rewrite <- E in Hwf |- *. unfold try. pose proof (Create_run email hash "Admin" "User" w1) as Hc.
  assert (evolving os (Create email hash "Admin" "User")) as Hs by (unfold Create; steps_go).
  specialize (Hs w1). destruct (Create email hash "Admin" "User" w1) as [[u|e] w2] eqn:Ec; cbn in Hs |- *.
  2:{ by destruct (errors_is e ErrEmailTaken). }
  destruct (Hc _ _ Hwf eq_refl) as (_ & Hid & _ & _ & _ & Hp & _).
  unfold SetDirect. destruct (write_if _ w2) as [r w3] eqn:Ew. assert (evolves os (tables w1) (tables w3)) as Hgoal.
  { apply write_if_run in Ew as [(x & _ & H)|(e & _ & ->)]; [|done]. apply direct_upsert in H as (Hu & Hq & Hd).
    destruct Hs as (H1 & H2 & H3). split_and!; [lia|by rewrite Hu|]. intros i Hi. rewrite Hd, (proj2 (Z.eqb_neq _ _)) by lia. by apply H3. }
  by destruct r.
Qed.

Lemma run_user_op_evolves os o w : In o os -> well_formed (tables w) -> evolves os (tables w) (tables (run_user_op o w)).
Proof.
  intros Ho Hwf. destruct o as [e h f l|e f l|e f l x|i|i f l b|i m t|i|i h|i e f l x b|i x|i l b|e p s|n]; cbn [run_user_op];
    [| | | |by apply evolving_UserUpdate| | | | | | |by apply evolving_SeedAdmin|];
    try (match goal with |- evolves _ _ (tables (snd (?m w))) => enough (evolving os m) as Hk by exact (Hk w) end).
  1-3: unfold Create, CreateServiceAccount, CreateFromSCIM; cbv zeta; steps_go.
  - apply evolving_update. row_history (OpUpdateLastLogin i).
  - apply evolving_update. row_history (OpUpdateRestrictions i m t).
  - by apply evolving_SoftDelete.
  - apply evolving_update. row_history (OpUpdatePassword i h).
  - apply evolving_update. row_history (OpUpdateFromSCIM i e f l x b).
    + destruct b as [b|]; [|by left]. right. by exists (OpUpdateFromSCIM i e f l x (Some b)).
    + right. exists (OpUpdateFromSCIM i e f l x b). split; [done|]. cbn. split; [done|]. destruct x as [x|]; [|done].
      destruct (String.eqb_spec x "") as [->|Hx]; [done|]. by rewrite bool_decide_eq_false_2 by congruence.
    + intros Hl. congruence.
  - apply evolving_update. row_history (OpSetExternalID i x).
  - by apply (evolving_upsert os i l b).
  - split_and!; cbn; [lia| |by left]. intros u Hu. exists u. split; [done|apply history_refl].
Qed.

Lemma run_user_ops_evolve os w : well_formed (tables w) ->
  well_formed (tables (run_user_ops os w)) /\ evolves os (tables w) (tables (run_user_ops os w)).
Proof.
  unfold run_user_ops. enough (forall l, (forall o, In o l -> In o os) -> forall w, well_formed (tables w) ->
    let w' := fold_left (fun w o => run_user_op o w) l w in well_formed (tables w') /\ evolves os (tables w) (tables w')) as H by (intros Hwf; by apply H).
  induction l as [|o l IH]; intros Hl x Hx; cbn; [done|]. pose proof (run_user_op_wf o x Hx) as Hx'.
  destruct (IH (fun o Ho => Hl o (or_intror Ho)) _ Hx') as [H1 H2]. split; [done|]. etransitivity; [|exact H2]. apply run_user_op_evolves; [apply Hl; by left|done].
Qed.

(** ** What an operation that answers without an error did *)

Definition user_op_ok (o : user_op) (w : World Accounts) : bool :=
  match o with
  | OpCreate e h f l => is_ok (fst (Create e h f l w))
  | OpCreateServiceAccount e f l => is_ok (fst (CreateServiceAccount e f l w))
  | OpCreateFromSCIM e f l x => is_ok (fst (CreateFromSCIM e f l x w))
  | OpUpdateLastLogin i => is_ok (fst (UpdateLastLogin i w))
  | OpUpdate i f l x => is_ok (fst (UserUpdate i f l x w))
  | OpUpdateRestrictions i m t => is_ok (fst (UpdateRestrictions i m t w))
  | OpSoftDelete i => is_ok (fst (SoftDelete i w))
  | OpUpdatePassword i h => is_ok (fst (UpdatePassword i h w))
  | OpUpdateFromSCIM i e f l x b => is_ok (fst (UpdateFromSCIM i e f l x b w))
  | OpSetExternalID i x => is_ok (fst (SetUserExternalID i x w))
  | OpSetDirect i l b => is_ok (fst (SetDirect i l b w))
  | OpSeedAdmin e p s => is_ok (fst (SeedAdmin e p s w))
  | OpTick _ => true
  end.

Definition took_effect (o : user_op) (a : Accounts) : Prop :=
  match o with
  | OpUpdate i _ _ (Some b) => forall u, In u (ac_users a) -> us_ID u = i -> us_IsActive u = b
  | OpUpdateRestrictions i m _ => forall u, In u (ac_users a) -> us_ID u = i -> us_MaxFileSizeBytes u = m
  | OpSoftDelete i => forall u, In u (ac_users a) -> us_ID u = i -> live u = false
  | OpUpdatePassword i h => forall u, In u (ac_users a) -> us_ID u = i -> us_PasswordHash u = Some h
  | OpUpdateFromSCIM i e _ _ _ b => forall u, In u (ac_users a) -> us_ID u = i -> live u = true -> us_Email u = e /\ us_IsActive u = default (us_IsActive u) b
  | OpSetExternalID i x => forall u, In u (ac_users a) -> us_ID u = i -> us_ExternalID u = Some x
  | OpSetDirect i l _ => direct a i = Some l
  | _ => True
  end.

Lemma update_effect p f w (Q : User -> Prop) : (forall t u, p u = true -> Q (f t u)) -> (forall u, p u = false -> Q u) ->
  is_ok (fst (write_if (update_users p f) w)) = true -> forall u, In u (ac_users (tables (snd (write_if (update_users p f) w)))) -> Q u.
Proof.
  intros Hf Hn Hok u Hu. destruct (write_if _ w) as [[x|e] w'] eqn:E; [|done]. apply write_if_run in E as [(y & _ & H)|(e & [=] & _)].
  unfold update_users in H. apply constrained_ok in H as (E & _). injection E as _ E. cbn in Hu. rewrite <- E in Hu. cbn in Hu.
  apply in_update in Hu as (v & _ & [[Hp ->]|[Hp ->]]); auto.
Qed.

Ltac row_effect := match goal with |- _ -> forall u, _ -> @?Q u => refine (update_effect _ _ _ Q _ _) end; [
  intros ? ? Hp; try (apply andb_prop in Hp as [Hp _]); cbn; auto |
  intros v Hp Hi; unfold by_id in Hp; change (key v) with (us_ID v) in Hp; rewrite Hi, Z.eqb_refl in Hp; try done].

Lemma SoftDelete_took id w : is_ok (fst (SoftDelete id w)) = true -> took_effect (OpSoftDelete id) (tables (snd (SoftDelete id w))).
Proof.
  intros Hok. destruct (SoftDelete id w) as [[x|e] w'] eqn:H; [|done]. unfold SoftDelete in H. apply transact_ok in H as (l & w1 & H & Ht).
  cbn in Ht |- *. rewrite Ht. clear w' Ht Hok. apply bind_ok in H as ([] & w2 & _ & H). apply bind_ok in H as (now & w3 & _ & H). cbv zeta in H.
  revert H. match goal with |- ?m _ = _ -> _ => set (stm := m) end. intros H. pose proof (f_equal snd H) as Hs. pose proof (f_equal fst H) as Hf. cbn in Hs, Hf.
  rewrite <- Hs. assert (is_ok (fst (stm w3)) = true) as Hok by (by rewrite Hf). revert Hok. subst stm. row_effect.
Qed.

Lemma UserUpdate_took id first last b w : is_ok (fst (UserUpdate id first last (Some b) w)) = true ->
  took_effect (OpUpdate id first last (Some b)) (tables (snd (UserUpdate id first last (Some b) w))).
Proof.
  unfold UserUpdate, mbind, ST_bind. destruct (GetByID id w) as [[u|e] w1]; [|done]. cbv zeta. cbn [took_effect default]. row_effect.
Qed.

Lemma SetDirect_took id level by_ w : is_ok (fst (SetDirect id level by_ w)) = true ->
  took_effect (OpSetDirect id level by_) (tables (snd (SetDirect id level by_ w))).
Proof.
  unfold SetDirect. destruct (write_if _ w) as [[x|e] w'] eqn:E; [|done]. intros _. apply write_if_run in E as [(y & _ & H)|(e & [=] & _)].
  apply direct_upsert in H as (_ & _ & Hd). cbn. by rewrite Hd, Z.eqb_refl.
Qed.

Lemma op_took_effect o w : user_op_ok o w = true -> took_effect o (tables (run_user_op o w)).
Proof.
  destruct o as [e h f l|e f l|e f l x|i|i f l [b|]|i m t|i|i h|i e f l x b|i x|i l b|e p s|n]; try done; cbn [user_op_ok run_user_op].
  - apply UserUpdate_took.
  - unfold UpdateRestrictions. cbv zeta. cbn [took_effect]. row_effect.
  - apply SoftDelete_took.
  - unfold UpdatePassword. cbn [took_effect]. row_effect.
  - unfold UpdateFromSCIM. cbv zeta. cbn [took_effect]. match goal with |- _ -> forall u, _ -> @?Q u => refine (update_effect _ _ _ Q _ _) end.
    + intros t u _ _ _. cbn. split; [done|]. by destruct b.
    + intros u Hp Hi Hl. unfold by_id in Hp. change (key u) with (us_ID u) in Hp. by rewrite Hi, Z.eqb_refl, Hl in Hp.
  - unfold SetUserExternalID. cbn [took_effect]. row_effect.
  - apply SetDirect_took.
Qed.

End evolution.

Lemma has_admin_same a a' id : ac_groups a' = ac_groups a -> ac_members a' = ac_members a ->
  (forall p, pm_user_id p = id -> In p (ac_permissions a') <-> In p (ac_permissions a)) ->
  has_admin a' id = has_admin a id.
Proof.
  intros Hg Hm Hp. unfold has_admin, group_admin, member_groups. rewrite Hg, Hm. f_equal. unfold perm_admin.
  apply eq_true_iff_eq. rewrite !existsb_exists. split; intros (p & Hin & Hok); exists p; (split; [|done]);
    apply andb_prop in Hok as [Hid%Z.eqb_eq _]; by apply Hp.
Qed.

Lemma affected_ext {A} (p q : A -> bool) t : (forall x, In x t -> p x = q x) -> affected p t = affected q t.
Proof.
  unfold affected, select. induction t as [|x t IH]; [done|]. intros H. cbn. rewrite (H x) by (by left).
  destruct (q x); cbn [length]; [|apply IH; intros; apply H; by right].
  rewrite !Nat2Z.inj_succ. f_equal. apply IH. intros; apply H; by right.
Qed.

Lemma affected_app {A} (p : A -> bool) t1 t2 : affected p (t1 ++ t2) = affected p t1 + affected p t2.
Proof. unfold affected. rewrite select_app, length_app. lia. Qed.

Section seed.
Context {B : Bcrypt}.

(** The bootstrap administrator is created at most once: SeedAdmin reports
    success only when there was no administrator, and then there is exactly
    one, the new user with the configured address; with an administrator in
    place, and whenever it reports that it skipped, it changes nothing. *)
Theorem SeedAdmin_once (email password : string) (salt : Z) (w w' : World Accounts) (r : result error bool)
    (Hwf : well_formed (tables w)) (Hrun : SeedAdmin email password salt w = (r, w')) :
  (0 < affected (counted (tables w)) (ac_users (tables w)) -> tables w' = tables w /\ r <> Ok true) /\
  (r = Ok false -> tables w' = tables w) /\
  (r = Ok true ->
     affected (counted (tables w)) (ac_users (tables w)) = 0 /\
     affected (counted (tables w')) (ac_users (tables w')) = 1 /\
     exists u, ac_users (tables w') = ac_users (tables w) ++ [u] /\ us_Email u = email /\ counted (tables w') u = true).
Proof.
  unfold SeedAdmin in Hrun. destruct (_ || _); [by injection Hrun as <- <-|].
  unfold mbind at 1, ST_bind at 1, map_err at 1 in Hrun.
  destruct (CountAdmins w) as [x w1] eqn:Ec. unfold CountAdmins in Ec. apply read_run in Ec as [Ht1 [->|[e ->]]].
  2:{ injection Hrun as <- <-. by rewrite Ht1. }
  change (Z.of_nat _) with (admin_count (tables w)) in Hrun. rewrite admin_count_counted in Hrun by apply Hwf.
  set (n := affected (counted (tables w)) (ac_users (tables w))) in *.
  assert (0 <= n) by (unfold n, affected; lia).
  destruct (Z.ltb_spec 0 n) as [|Hn]; [injection Hrun as <- <-; by rewrite Ht1|].
  assert (n = 0) as Hn0 by lia. rewrite Hn0. split; [lia|].
  unfold mbind at 1, ST_bind at 1, map_err at 1, of_result in Hrun.
  destruct (bc_generate password salt) as [hash|e]; [|by injection Hrun as <- <-].
  unfold mbind at 1, ST_bind at 1, try in Hrun.
  destruct (Create email hash "Admin" "User" w1) as [[u|e] w2] eqn:Ecr;
    (apply Create_run in Ecr; [|by rewrite Ht1]).
  2:{ destruct (errors_is e ErrEmailTaken); injection Hrun as <- <-; split; [|done| |done]; rewrite <- Ht1; [|done].
      intros _. by apply Ecr. }
  destruct Ecr as (Hus & Hid & Hem & Hact & Hwf2 & Hperm & Hmem & Hgrp). rewrite Ht1 in *.
  unfold mbind, ST_bind, map_err, SetDirect in Hrun.
  destruct (write_if _ w2) as [[[]|e] w3] eqn:Ew; [|by injection Hrun as <- <-].
  injection Hrun as <- <-. split; [done|]. intros _. split; [done|].
  apply write_if_run in Ew as [([] & _ & Hup)|(e & [=] & _)].
  assert (ac_groups (tables w3) = ac_groups (tables w2) /\ ac_members (tables w3) = ac_members (tables w2)) as [Hg3 Hm3].
  { unfold upsert_permission in Hup. apply constrained_ok in Hup as (E & _). injection E as E. by rewrite <- E. }
  pose proof (upsert_permission_wf _ _ _ _ _ _ Hwf2 Hup) as (_ & Hus3 & _ & Hin & Hothers).
  assert (counted (tables w3) u = true) as Hcu.
  { unfold counted, has_admin. rewrite Hact. cbn. apply orb_true_intro. left. unfold perm_admin. apply existsb_exists.
    eexists. split; [exact Hin|]. cbn. by rewrite Z.eqb_refl. }
  split; [|exists u; by rewrite Hus3].
  rewrite Hus3, Hus, affected_app. replace (affected (counted (tables w3)) [u]) with 1.
  2:{ unfold affected, select. cbn. by rewrite Hcu. }
  rewrite (affected_ext _ (counted (tables w))); [fold n; lia|].
  intros v Hv. unfold counted. f_equal. rewrite <- (has_admin_same (tables w) (tables w3)); [done|by rewrite Hg3, Hgrp|by rewrite Hm3, Hmem|].
  intros p Hp. rewrite <- Hperm. apply Hothers. apply (wf_seq _ Hwf) in Hv. lia.
Qed.
End seed.

(** ** Concrete tables *)

(** A hash that keeps the text: enough for the interface. *)
#[local] Instance open_bcrypt : Bcrypt := {|
  bc_generate := fun pw salt => Ok (pretty salt +:+ ":" +:+ pw);
  bc_compare := fun h pw => HasSuffix h (":" +:+ pw);
|}.

Definition fresh_accounts : Accounts := mkAccounts [] 0 [] [] 0 [] [] 0 [] [] 0 [] [] [] [] 0 [] 0 (1700000000 * ac_second).
Definition fresh_world : World Accounts := mkWorld fresh_accounts [].

Lemma fresh_well_formed : well_formed fresh_accounts.
Proof. split; cbn; try done; try apply List.NoDup_nil; by intros ?. Qed.

Definition two_users : list user_op :=
  [OpSeedAdmin "root@example.com" "secret pw" 1; OpCreate "ann@example.com" "h" "Ann" "B"; OpSetDirect 2 "write" 1;
   OpCreate "ann@example.com" "h" "Ann" "C"; OpCreateFromSCIM "bob@example.com" "Bob" "D" "sub-1"; OpSetDirect 3 "owner" 1;
   OpUpdateFromSCIM 2 "bob@example.com" "x" "y" None None; OpTick (1700000060 * ac_second); OpSoftDelete 3].

Definition after_two : World Accounts := Eval vm_compute in run_user_ops two_users fresh_world.

Definition second_day : list user_op :=
  [OpUpdatePassword 2 "new"; OpUpdate 3 "Bob" "D" (Some true); OpSoftDelete 2; OpUpdatePassword 9 "x"; OpSetDirect 1 "owner" 1].


Lemma after_two_ok : accounts_ok (tables after_two).
Proof. split; cbn; repeat constructor; cbn; naive_solver. Qed.

Example CountAdmins_counts_admins_witness :
  CountAdmins after_two = (Ok 1, after_two) /\ IsAdmin 1 after_two = (Ok true, after_two).
Proof.
  destruct (CountAdmins_counts_admins after_two eq_refl after_two_ok) as [Hc Hi]. split; [exact Hc|exact (Hi 1)].
Defined.

Example SeedAdmin_once_witness :
  affected (counted (tables (snd (SeedAdmin "root@example.com" "secret pw" 7 fresh_world))))
    (ac_users (tables (snd (SeedAdmin "root@example.com" "secret pw" 7 fresh_world)))) = 1 /\
  fst (SeedAdmin "a@b.c" "other pw" 7 after_two) = Ok false.
Proof.
  split; [|vm_compute; reflexivity].
  apply (SeedAdmin_once "root@example.com" "secret pw" 7 fresh_world
    (snd (SeedAdmin "root@example.com" "secret pw" 7 fresh_world)) (Ok true)); [exact fresh_well_formed| |reflexivity].
  vm_compute. reflexivity.
Defined.

(** Creating the user and granting the permission are two statements: when the
    second fails the address is taken, every later boot skips, and the instance
    stays without an administrator. *)
Definition grant_fails : World Accounts := mkWorld fresh_accounts [None; None; None; Some "disk I/O error"].

Example failed_grant_leaves_no_admin :
  is_ok (fst (SeedAdmin "root@example.com" "secret pw" 7 grant_fails)) = false /\
  let w := mkWorld (tables (snd (SeedAdmin "root@example.com" "secret pw" 7 grant_fails))) [] in
  SeedAdmin "root@example.com" "secret pw" 7 w = (Ok false, w) /\ CountAdmins w = (Ok 0, w).
Proof. vm_compute. done. Qed.

(** ** Deleting a user *)

(** A deletion that succeeds ends every OIDC login of the user and takes the row
    out of every lookup; one that fails changes nothing. *)
Lemma SoftDelete_effect id w r w' : SoftDelete id w = (r, w') ->
  match r with
  | Ok _ => forall i, In i (ac_identities (tables w')) -> oi_UserID i <> id
  | Err _ => tables w' = tables w
  end.
Proof.
  intros H. unfold SoftDelete in H. destruct r as [[]|e]; [|by apply transact_err in H].
  apply transact_ok in H as (l & w1 & H & ->). apply bind_ok in H as ([] & w2 & H1 & H).
  apply write_run in H1 as [[_ H1]|(e & [=] & _)]. apply bind_ok in H as (now & w3 & H2 & H). injection H2 as <- <-.
  apply write_if_run in H as [(x & _ & H)|(e & [=] & _)].
  unfold update_users in H. apply constrained_ok in H as (E & _). injection E as _ <-. cbn. rewrite H1. cbn.
  intros i [_ Hi]%in_delete Heq. by rewrite Heq, Z.eqb_refl in Hi.
Qed.
