(* ===== verification/Tokens.v ===== *)
(** * Tokens

    src/internal/services/token.go, scim_token.go, reset_token.go,
    email_verification.go and notification_pref.go. What [rand.Read],
    [uuid.New] and bcrypt's salt return are arguments. *)

From S2P Require Import Prelude GoLib Hex Sql Stmt AccountSchema Users.

Open Scope Z_scope.

(** The JSON text of a list with the one word read. *)
Definition json_read_only : string := "[" +:+ json_string "read" +:+ "]".

Section tokens.
Context {B : Bcrypt}.

(** ** API tokens *)

Definition TokenGetByID (id : Z) : AcM ApiToken :=
  map_err (or_missing ErrTokenNotFound) (read_row (fun a => find_id id (ac_tokens a))).

Definition TokenGetByUUID (uuid : string) : AcM ApiToken :=
  map_err (or_missing ErrTokenNotFound) (read_row (fun a => List.find (fun t => String.eqb (tk_UUID t) uuid) (ac_tokens a))).

(** api_tokens.uuid and api_tokens.token_hash are unique. *)
Definition insert_token (row : Z -> Z -> ApiToken) (a : Accounts) : result error (Z * Accounts) :=
  let id := ac_seq_tokens a + 1 in
  let t := row id (stamp a) in
  let same r := String.eqb (tk_UUID r) (tk_UUID t) || String.eqb (tk_TokenHash r) (tk_TokenHash t) in
  constrained true (negb (existsb same (ac_tokens a))) (user_exists a (tk_UserID t))
    (id, set_ac_tokens (ac_tokens a ++ [t]) (set_ac_seq_tokens id a)).

Definition optional (s : string) : option string := if String.eqb s "" then None else Some s.

Definition TokenCreate (raw : result error (list Z)) (salt : Z) (tokenUUID : string) (userID : Z) (name description permissions department : string)
    (maxFileSize : option Z) (allowedTypes : string) (expiresAt : option Z) : AcM (string * ApiToken) :=
  raw ← of_result raw;
  let secret := "ind_" +:+ EncodeToString raw in
  hash ← of_result (bc_generate secret salt);
  let permissions := if String.eqb permissions "" then json_read_only else permissions in
  id ← write_if (insert_token (fun id at_ =>
    mkApiToken id tokenUUID name description hash userID permissions (optional department) maxFileSize (optional allowedTypes)
      expiresAt None None None 0 None at_));
  token ← TokenGetByID id;
  mret (secret, token).

Definition not_revoked (t : ApiToken) : bool := bool_decide (tk_RevokedAt t = None).

(** [t.ExpiresAt.Valid && time.Now().After(t.ExpiresAt.Time)]. *)
Definition expired (now : Z) (t : ApiToken) : bool := match tk_ExpiresAt t with Some e => e <? now | None => false end.

Fixpoint first_match (now : Z) (secret : string) (rows : list ApiToken) : option ApiToken :=
  match rows with
  | [] => None
  | t :: rest =>
      if expired now t then first_match now secret rest else
      if bc_compare (tk_TokenHash t) secret then Some t else first_match now secret rest
  end.

Definition ValidateSecret (secret : string) : AcM ApiToken :=
  rows ← read (fun a => select not_revoked (ac_tokens a));
  now ← clock_now;
  match first_match now secret rows with
  | Some t => mret t
  | None => fail (ESentinel ErrTokenNotFound)
  end.

Definition update_tokens (p : ApiToken -> bool) (f : Z -> ApiToken -> ApiToken) (a : Accounts) : Z * Accounts :=
  (affected p (ac_tokens a), set_ac_tokens (update p (f (stamp a)) (ac_tokens a)) a).

Definition RecordUsage (tokenID : Z) : AcM unit :=
  ignore (write_ret (update_tokens (by_id tokenID)
    (fun t r => set_tk_UsageCount (tk_UsageCount r + 1) (set_tk_LastUsedAt (Some t) r)))).

Definition LogUsage (tokenID : Z) (endpoint method ip userAgent : string) (statusCode : Z) : AcM unit :=
  ignore (write_if (fun a =>
    constrained true true (existsb (by_id tokenID) (ac_tokens a))
      (tt, set_ac_usage (ac_usage a ++ [mkUsage tokenID endpoint method ip userAgent statusCode (stamp a)]) a))).

Definition token_newest (x y : ApiToken) : bool := tk_CreatedAt y <=? tk_CreatedAt x.

Definition TokenListByUser (userID : Z) : AcM (list ApiToken) :=
  read (fun a => order_by token_newest (select (fun t => tk_UserID t =? userID) (ac_tokens a))).

Definition TokenListAll (n off : Z) : AcM (list ApiToken * Z) :=
  total ← read (fun a => Z.of_nat (length (ac_tokens a)));
  rows ← read (fun a => limit n (offset off (order_by token_newest (ac_tokens a))));
  mret (rows, total).

Definition nullableRevokedBy (revokedBy : Z) : option Z := if revokedBy =? 0 then None else Some revokedBy.

(** The revocation of the rows [p] that are not revoked yet. *)
Definition revoke_tokens (p : ApiToken -> bool) (revokedBy : Z) (reason : string) (a : Accounts) : result error (Z * Accounts) :=
  let q t := p t && not_revoked t in
  let by_ := nullableRevokedBy revokedBy in
  constrained true true (user_ref a by_ || (affected q (ac_tokens a) =? 0))
    (update_tokens q (fun at_ r => set_tk_RevokedAt (Some at_) (set_tk_RevokedBy by_ (set_tk_RevokeReason (Some reason) r))) a).

Definition Revoke (tokenID revokedBy : Z) (reason : string) : AcM unit :=
  n ← write_if (revoke_tokens (by_id tokenID) revokedBy reason);
  if n =? 0 then fail (ESentinel ErrTokenNotFound) else mret tt.

Definition RevokeAllByUser (userID revokedBy : Z) (reason : string) : AcM Z :=
  write_if (revoke_tokens (fun t => tk_UserID t =? userID) revokedBy reason).

Definition BulkRevoke (tokenIDs : list Z) (revokedBy : Z) (reason : string) : AcM Z :=
  match tokenIDs with
  | [] => mret 0
  | _ => write_if (revoke_tokens (fun t => existsb (Z.eqb (tk_ID t)) tokenIDs) revokedBy reason)
  end.

(** ** SCIM tokens *)

Definition ScimGetByID (id : Z) : AcM ScimToken :=
  map_err (or_missing ErrScimTokenNotFound) (read_row (fun a => find_id id (ac_scim a))).

Definition ScimCreate (raw : result error (list Z)) (salt : Z) (name : string) (createdBy : Z) : AcM (string * ScimToken) :=
  raw ← of_result raw;
  let secret := "scim_" +:+ EncodeToString raw in
  hash ← of_result (bc_generate secret salt);
  id ← write_if (fun a =>
    let id := ac_seq_scim a + 1 in
    constrained true true (user_exists a createdBy)
      (id, set_ac_scim (ac_scim a ++ [mkScimToken id name hash true createdBy None (stamp a) None]) (set_ac_seq_scim id a)));
  token ← ScimGetByID id;
  mret (secret, token).

Definition scim_active (t : ScimToken) : bool := sc_IsActive t && bool_decide (sc_RevokedAt t = None).

Definition ScimValidate (secret : string) : AcM ScimToken :=
  rows ← read (fun a => select scim_active (ac_scim a));
  match List.find (fun t => bc_compare (sc_TokenHash t) secret) rows with
  | Some t => mret t
  | None => fail (ESentinel ErrScimTokenNotFound)
  end.

Definition scim_newest (x y : ScimToken) : bool := sc_CreatedAt y <=? sc_CreatedAt x.

Definition ScimList : AcM (list ScimToken) := read (fun a => order_by scim_newest (ac_scim a)).

Definition ScimRevoke (id : Z) : AcM unit :=
  n ← write_ret (fun a =>
    let p t := by_id id t && bool_decide (sc_RevokedAt t = None) in
    (affected p (ac_scim a),
     set_ac_scim (update p (fun t => set_sc_IsActive false (set_sc_RevokedAt (Some (stamp a)) t)) (ac_scim a)) a));
  if n =? 0 then fail (ESentinel ErrScimTokenNotFound) else mret tt.

Definition ScimRecordUsage (id : Z) : AcM unit :=
  ignore (write (fun a => set_ac_scim (update (by_id id) (set_sc_LastUsedAt (Some (stamp a))) (ac_scim a)) a)).

(** ** One-time tokens *)

Definition unused (t : OneTimeToken) : bool := bool_decide (ot_used_at t = None).

(** The statements of reset_token.go and email_verification.go differ only in
    the table, [get] and [put]. *)
Definition spend (p : OneTimeToken -> bool) (at_ : Z) (t : list OneTimeToken) : list OneTimeToken :=
  update p (set_ot_used_at (Some at_)) t.

Definition insert_one_time (row : OneTimeToken) (t : list OneTimeToken) (a : Accounts) : result error (list OneTimeToken) :=
  constrained true (negb (existsb (fun r => String.eqb (ot_token r) (ot_token row)) t)) (user_exists a (ot_user_id row)) (t ++ [row]).

Definition minute : Z := 60 * ac_second.

Definition ResetCreate (raw : result error (list Z)) (userID : Z) : AcM string :=
  raw ← of_result raw;
  let token := EncodeToString raw in
  ignore (write (fun a => set_ac_reset (spend (fun r => (ot_user_id r =? userID) && unused r) (stamp a) (ac_reset a)) a)) ;;
  now ← clock_now;
  write_if (fun a =>
    match insert_one_time (mkOneTime userID token (now + 60 * minute) None) (ac_reset a) a with
    | Ok t => Ok (tt, set_ac_reset t a)
    | Err e => Err e
    end) ;;
  mret token.

Definition ResetValidate (token : string) : AcM Z :=
  r ← map_err (or_missing ErrInvalidCredentials)
    (read_row (fun a => List.find (fun r => String.eqb (ot_token r) token && unused r) (ac_reset a)));
  now ← clock_now;
  if ot_expires_at r <? now then fail (ESentinel ErrInvalidCredentials) else
  ignore (write (fun a => set_ac_reset (spend (fun r => String.eqb (ot_token r) token) (stamp a) (ac_reset a)) a)) ;;
  mret (ot_user_id r).

Definition VerifyCreate (raw : result error (list Z)) (userID : Z) : AcM string :=
  raw ← of_result raw;
  let token := EncodeToString raw in
  ignore (write (fun a => set_ac_verify (spend (fun r => (ot_user_id r =? userID) && unused r) (stamp a) (ac_verify a)) a)) ;;
  now ← clock_now;
  write_if (fun a =>
    match insert_one_time (mkOneTime userID token (now + 24 * 60 * minute) None) (ac_verify a) a with
    | Ok t => Ok (tt, set_ac_verify t a)
    | Err e => Err e
    end) ;;
  mret token.

Definition VerifyValidate (token : string) : AcM Z :=
  r ← map_err (or_missing ErrInvalidCredentials)
    (read_row (fun a => List.find (fun r => String.eqb (ot_token r) token && unused r) (ac_verify a)));
  now ← clock_now;
  if ot_expires_at r <? now then fail (ESentinel ErrInvalidCredentials) else
  ignore (write (fun a => set_ac_verify (spend (fun r => String.eqb (ot_token r) token) (stamp a) (ac_verify a)) a)) ;;
  write (fun a => set_ac_users (update (fun u => by_id (ot_user_id r) u && live u) (set_us_EmailVerified true) (ac_users a)) a) ;;
  mret (ot_user_id r).

(** ** Notification preferences *)

Definition default_pref (userID : Z) : NotificationPref := mkPref userID None "[]" "realtime".

Definition PrefGet (userID : Z) : AcM NotificationPref :=
  r ← try (read_row (fun a => List.find (fun p => np_UserID p =? userID) (ac_prefs a)));
  match r with
  | Ok p => mret p
  | Err err => if errors_is err ErrNoRows then mret (default_pref userID) else fail err
  end.

Definition digest_ok (m : string) : bool := String.eqb m "realtime" || String.eqb m "daily" || String.eqb m "weekly".

Definition PrefUpdate (userID : Z) (webhookURL : option string) (events digestMode : string) : AcM NotificationPref :=
  let url := match webhookURL with Some u => optional u | None => None end in
  let events := if String.eqb events "" then "[]" else events in
  let digestMode := if String.eqb digestMode "" then "realtime" else digestMode in
  write_if (fun a =>
    let row := mkPref userID url events digestMode in
    let mine p := np_UserID p =? userID in
    let t := if existsb mine (ac_prefs a) then update mine (fun _ => row) (ac_prefs a) else ac_prefs a ++ [row] in
    constrained (digest_ok digestMode) true (user_exists a userID) (tt, set_ac_prefs t a)) ;;
  PrefGet userID.
End tokens.
