(* ===== verification/TokenLife.v ===== *)
(** * The life of a token

    An API token is accepted from its creation until it is revoked or expires,
    and a revocation is final; reset tokens are spent once. *)

From S2P Require Import Prelude GoLib Hex Sql Stmt AccountSchema Users Tokens.

Open Scope Z_scope.

(** ** Tables *)

Definition tokens_ok (a : Accounts) : Prop :=
  List.NoDup (ids (ac_tokens a)) /\ forall t, In t (ac_tokens a) -> tk_ID t <= ac_seq_tokens a.

Definition revoked (t : ApiToken) : bool := negb (not_revoked t).

(** What no operation changes of a token, and a revocation is never undone. *)
Definition same_token (t t' : ApiToken) : Prop :=
  tk_ID t' = tk_ID t /\ tk_TokenHash t' = tk_TokenHash t /\ tk_UserID t' = tk_UserID t /\
  tk_Permissions t' = tk_Permissions t /\ tk_Department t' = tk_Department t /\
  tk_MaxFileSizeBytes t' = tk_MaxFileSizeBytes t /\ tk_AllowedFileTypes t' = tk_AllowedFileTypes t /\
  tk_ExpiresAt t' = tk_ExpiresAt t /\ (revoked t = true -> revoked t' = true).

#[export] Instance same_token_preorder : PreOrder same_token.
Proof.
  split; [by intros t|]. unfold same_token. intros t1 t2 t3 H12 H23. destruct_and!. split_and!; (congruence || auto).
Qed.

(** Rows stay, and new ones have new ids. *)
Definition tokens_grow (a a' : Accounts) : Prop :=
  tokens_ok a -> tokens_ok a' /\ ac_seq_tokens a <= ac_seq_tokens a' /\
    (forall t, In t (ac_tokens a) -> exists t', In t' (ac_tokens a') /\ same_token t t') /\
    (forall t', In t' (ac_tokens a') -> ac_seq_tokens a < tk_ID t' \/ exists t, In t (ac_tokens a) /\ same_token t t').

#[export] Instance tokens_grow_preorder : PreOrder tokens_grow.
Proof.
  split.
  - intros a H. split_and!; [done|lia|..]; intros t Ht; [exists t|right; exists t]; split; (done || reflexivity).
  - intros a b c Hab Hbc Ha. destruct (Hab Ha) as (Hb & S1 & F1 & B1). destruct (Hbc Hb) as (Hc & S2 & F2 & B2).
    split_and!; [done|lia|..].
    + intros t Ht. destruct (F1 t Ht) as (t1 & H1 & E1). destruct (F2 t1 H1) as (t2 & H2 & E2). exists t2.
      split; [done|]. by transitivity t1.
    + intros t' Ht'. destruct (B2 t' Ht') as [|(t1 & H1 & E1)]; [left; lia|].
      destruct (B1 t1 H1) as [|(t & Ht & E2)]; [left; destruct E1 as [-> _]; lia|]. right. exists t.
      split; [done|]. by transitivity t1.
Qed.

Lemma update_tokens_grow p f a : (forall t, same_token t (f (stamp a) t)) -> tokens_grow a (snd (update_tokens p f a)).
Proof.
  intros Hf [Hnd Hseq]. unfold update_tokens. cbn. split_and!; [split|lia|..]; cbn.
  - change (List.NoDup (ids (update p (f (stamp a)) (ac_tokens a)))). rewrite ids_update; [done|]. intros t. apply Hf.
  - intros t (t0 & Ht0 & [[_ ->]|[_ ->]])%in_update; [destruct (Hf t0) as [-> _]|]; by apply Hseq.
  - intros t Ht. exists (if p t then f (stamp a) t else t). split; [|by destruct (p t); [apply Hf|]].
    apply in_update. exists t. split; [done|]. destruct (p t); [by left|by right].
  - intros t (t0 & Ht0 & [[_ ->]|[_ ->]])%in_update; right; exists t0; split; (done || apply Hf).
Qed.

Lemma insert_token_grow row a id a' : (forall i t, tk_ID (row i t) = i) -> insert_token row a = Ok (id, a') -> tokens_grow a a'.
Proof.
  intros Hrow H [Hnd Hseq]. unfold insert_token in H. apply constrained_ok in H as (E & _). injection E as <- <-. cbn.
  split_and!; [split|lia|..]; cbn.
  - rewrite map_app. assert (~ In (ac_seq_tokens a + 1) (map key (ac_tokens a))) as Hnew.
    { intros (t & Ht & Hin)%in_map_iff. apply Hseq in Hin. change (key t) with (tk_ID t) in Ht. lia. }
    apply NoDup_snoc; [exact Hnd|]. change (key (row ?i ?t)) with (tk_ID (row i t)). by rewrite Hrow.
  - intros t [Hin|[<-|[]]]%in_app_or; [specialize (Hseq t Hin); lia|]. rewrite Hrow. lia.
  - intros t Ht. exists t. split; [apply in_or_app; by left|reflexivity].
  - intros t [Hin|[<-|[]]]%in_app_or; [right; exists t; split; [done|reflexivity]|]. left. rewrite Hrow. lia.
Qed.

(** ** Operations *)

Section life.
Context {B : Bcrypt}.

Abbreviation grows m := (steps (on_tables tokens_grow) m).

Lemma grows_write_ret p f : (forall at_ t, same_token t (f at_ t)) -> grows (write_ret (update_tokens p f)).
Proof. intros Hf. apply steps_write_ret; [apply _|]. intros a. by apply update_tokens_grow. Qed.

Lemma grows_revoke p by_ reason : grows (write_if (revoke_tokens p by_ reason)).
Proof.
  apply steps_write_if; [apply _|]. intros a n a' H. unfold revoke_tokens in H. apply constrained_ok in H as (E & _).
  apply (f_equal snd) in E. change (snd (n, a')) with a' in E. rewrite <- E. apply update_tokens_grow. intros t. by split_and!.
Qed.

Lemma grows_insert row : (forall i t, tk_ID (row i t) = i) -> grows (write_if (insert_token row)).
Proof. intros Hrow. apply steps_write_if; [apply _|]. intros a id a' H. by apply (insert_token_grow row a id a' Hrow). Qed.

Lemma grows_GetByID id : grows (TokenGetByID id).
Proof. apply steps_map_err, steps_read_row, _. Qed.

#[local] Hint Resolve grows_revoke grows_GetByID : steps_db.
#[local] Hint Extern 1 (steps _ (write_if (insert_token _))) => (by apply grows_insert) : steps_db.

Lemma grows_Create raw salt uuid user name desc perms dept mx types exp :
  grows (TokenCreate raw salt uuid user name desc perms dept mx types exp).
Proof. unfold TokenCreate. cbv zeta. steps_go. Qed.

Lemma grows_LogUsage id e m i ua c : grows (LogUsage id e m i ua c).
Proof.
  unfold LogUsage. apply steps_ignore, steps_write_if; [apply _|]. intros a x a' H Hok. apply constrained_ok in H as (E & _).
  injection E as <- <-. assert (tokens_grow a a) as Hg by reflexivity. exact (Hg Hok).
Qed.

(** The operations of token.go that write, and the clock. *)
Inductive token_op :=
| TOpCreate (raw : result error (list Z)) (salt : Z) (uuid : string) (user : Z) (name desc perms dept : string)
    (mx : option Z) (types : string) (exp : option Z)
| TOpRecordUsage (id : Z)
| TOpLogUsage (id : Z) (endpoint method ip ua : string) (code : Z)
| TOpRevoke (id by_ : Z) (reason : string)
| TOpRevokeAllByUser (user by_ : Z) (reason : string)
| TOpBulkRevoke (ids : list Z) (by_ : Z) (reason : string)
| TOpTick (now : Z).

Definition run_token_op (o : token_op) (w : World Accounts) : World Accounts :=
  match o with
  | TOpCreate raw salt uuid user name desc perms dept mx types exp =>
      snd (TokenCreate raw salt uuid user name desc perms dept mx types exp w)
  | TOpRecordUsage id => snd (RecordUsage id w)
  | TOpLogUsage id e m i ua c => snd (LogUsage id e m i ua c w)
  | TOpRevoke id b r => snd (Revoke id b r w)
  | TOpRevokeAllByUser u b r => snd (RevokeAllByUser u b r w)
  | TOpBulkRevoke l b r => snd (BulkRevoke l b r w)
  | TOpTick n => set_tables (set_ac_now n (tables w)) w
  end.

Definition run_token_ops (os : list token_op) (w : World Accounts) : World Accounts := fold_left (fun w o => run_token_op o w) os w.

Lemma run_token_op_grow o w : tokens_grow (tables w) (tables (run_token_op o w)).
Proof.
  destruct o; cbn [run_token_op];
    try (match goal with |- tokens_grow (tables w) (tables (snd (?m w))) => enough (grows m) as Hk by exact (Hk w) end).
  - apply grows_Create.
  - unfold RecordUsage. apply steps_ignore, grows_write_ret. intros at_ t. by split_and!.
  - apply grows_LogUsage.
  - unfold Revoke. steps_go.
  - apply grows_revoke.
  - unfold BulkRevoke. destruct ids; [by apply steps_ret, _|apply grows_revoke].
  - intros Hok. assert (tokens_grow (tables w) (tables w)) as Hg by reflexivity. exact (Hg Hok).
Qed.

Lemma run_token_ops_grow os w : tokens_grow (tables w) (tables (run_token_ops os w)).
Proof.
  unfold run_token_ops. revert w. induction os as [|o os IH]; intros w; [reflexivity|]. cbn.
  transitivity (tables (run_token_op o w)); [apply run_token_op_grow|apply IH].
Qed.

(** ** What validation accepts *)

Lemma first_match_Some now s rows t : first_match now s rows = Some t ->
  In t rows /\ expired now t = false /\ bc_compare (tk_TokenHash t) s = true.
Proof.
  induction rows as [|x rows IH]; [done|]. cbn. destruct (expired now x) eqn:Ex; [naive_solver|].
  destruct (bc_compare (tk_TokenHash x) s) eqn:Ec; [intros [= <-]|]; naive_solver.
Qed.

Lemma first_match_None now s rows : first_match now s rows = None ->
  forall t, In t rows -> expired now t = false -> bc_compare (tk_TokenHash t) s = false.
Proof.
  induction rows as [|x rows IH]; [done|]. cbn. destruct (expired now x) eqn:Ex.
  - intros H t [->|Hin]; [congruence|]. by apply IH.
  - destruct (bc_compare (tk_TokenHash x) s) eqn:Ec; [done|]. intros H t [->|Hin]; [done|]. by apply IH.
Qed.

Lemma ValidateSecret_ok s w t w' : ValidateSecret s w = (Ok t, w') ->
  In t (ac_tokens (tables w)) /\ revoked t = false /\ expired (ac_now (tables w)) t = false /\
  bc_compare (tk_TokenHash t) s = true.
Proof.
  intros H. unfold ValidateSecret in H. apply bind_ok in H as (rows & w1 & H1 & H).
  apply read_run in H1 as [Ht [[= ->]|[e [=]]]]. apply bind_ok in H as (now & w2 & H2 & H). injection H2 as <- <-.
  destruct (first_match _ _ _) as [t0|] eqn:E; [|done]. injection H as <- <-.
  apply first_match_Some in E as ([Hin Hr]%in_select & He & Hc). rewrite Ht in He. unfold revoked. by rewrite Hr.
Qed.

Lemma ValidateSecret_healthy s w : sched w = [] ->
  ValidateSecret s w = (match first_match (ac_now (tables w)) s (select not_revoked (ac_tokens (tables w))) with
                        | Some t => Ok t | None => Err (ESentinel ErrTokenNotFound) end, w).
Proof.
  intros Hw. unfold ValidateSecret. rewrite (bind_run _ _ _ _ _ (read_healthy _ w Hw)).
  unfold clock_now, mbind, ST_bind, gets. by destruct (first_match _ _ _).
Qed.

(** C14. A token that was created is accepted, as the same token of the same
    user with the same limits, by every later validation of its secret until it
    is revoked or expires, whatever is done to tokens in between (no other
    token's hash accepting the secret). *)
Theorem token_accepted_until_revoked raw salt uuid user name desc perms dept mx types exp
    (w w1 : World Accounts) (secret : string) (tok : ApiToken) (os : list token_op)
    (Hok : tokens_ok (tables w))
    (Hc : TokenCreate raw salt uuid user name desc perms dept mx types exp w = (Ok (secret, tok), w1))
    (Hbc : BcryptLaws)
    (Hsolo : forall t, In t (ac_tokens (tables (run_token_ops os w1))) -> bc_compare (tk_TokenHash t) secret = true ->
             tk_ID t = tk_ID tok)
    (Hs : sched (run_token_ops os w1) = []) :
  exists t, In t (ac_tokens (tables (run_token_ops os w1))) /\ same_token tok t /\ tk_UserID t = user /\ tk_ExpiresAt t = exp /\
    fst (ValidateSecret secret (run_token_ops os w1)) =
      if revoked t || expired (ac_now (tables (run_token_ops os w1))) t then Err (ESentinel ErrTokenNotFound) else Ok t.
Proof.
  pose proof (steps_run _ _ _ _ _ (grows_Create raw salt uuid user name desc perms dept mx types exp) Hc Hok) as (Hok1 & _).
  assert (In tok (ac_tokens (tables w1)) /\ bc_compare (tk_TokenHash tok) secret = true /\ tk_UserID tok = user /\ tk_ExpiresAt tok = exp)
    as (Hin & Hcmp & Hu & He).
  { unfold TokenCreate in Hc. apply bind_ok in Hc as (bs & wa & Ha & Hc). injection Ha as Ha <-. apply bind_ok in Hc as (h & wb & Hb & Hc).
    injection Hb as Hb <-. apply bind_ok in Hc as (id & wc & Hi & Hc). apply bind_ok in Hc as (t & wd & Hg & Hc).
    injection Hc as <- <- <-. apply write_if_run in Hi as [(i & [= <-] & Hi)|(e & [=] & _)].
    unfold insert_token in Hi. apply constrained_ok in Hi as (E & _ & Huniq & _). injection E as Eid Etab.
    apply map_err_ok in Hg. apply read_row_run in Hg as [[Ht Hf]|[_ [e [=]]]]. rewrite Ht in *.
    destruct (find_id id _) as [t0|] eqn:Ef; [|done]. injection Hf as <-. apply find_id_Some in Ef as [Hin Hid].
    split; [done|]. rewrite <- Etab in Hin. cbn in Hin. apply in_app_or in Hin as [Hin|[<-|[]]].
    - exfalso. destruct Hok as [_ Hseq]. apply Hseq in Hin. change (key t) with (tk_ID t) in Hid. lia.
    - cbn. split; [|done]. by eapply bc_accepts. }
  destruct (run_token_ops_grow os w1 Hok1) as (Hok2 & _ & F & _). destruct (F tok Hin) as (t & Ht & Hsame).
  exists t. split; [done|]. split; [done|]. pose proof Hsame as (Hid & Hh & Hus & _ & _ & _ & _ & Hex & _).
  split; [congruence|]. split; [congruence|]. rewrite ValidateSecret_healthy by done. cbn [fst].
  set (now := ac_now _). destruct (first_match now secret _) as [t'|] eqn:Ef.
  - apply first_match_Some in Ef as ([Hin' Hr']%in_select & He' & Hc').
    assert (t' = t) as ->. 
    { assert (key t' = key t) as Hk by (change (tk_ID t' = tk_ID t); rewrite Hid; by apply Hsolo).
      assert (find_id (key t') (ac_tokens (tables (run_token_ops os w1))) = Some t') as E1 by (apply find_id_In; [apply Hok2|done]).
      rewrite Hk, (find_id_In _ t) in E1; [congruence|apply Hok2|done]. }
    unfold revoked. by rewrite Hr', He'.
  - destruct (revoked t) eqn:Er; [done|]. destruct (expired now t) eqn:Ee; [done|]. exfalso.
    assert (bc_compare (tk_TokenHash t) secret = false) as Hbad; [|congruence].
    apply (first_match_None now secret _ Ef); [|done]. apply in_select. split; [done|]. unfold revoked in Er. by apply negb_false_iff in Er.
Qed.

(** A revocation is final: after a token is revoked by its id, or with all
    tokens of its user, no validation accepts it again whatever is done later;
    what is accepted for that user was created afterwards. *)
Theorem revocation_is_final (id user by_ : Z) (reason secret : string) (w w' : World Accounts) (os : list token_op) (t : ApiToken) (v : World Accounts)
    (Hok : tokens_ok (tables w))
    (Hv : ValidateSecret secret (run_token_ops os w') = (Ok t, v)) :
  (Revoke id by_ reason w = (Ok tt, w') -> tk_ID t <> id) /\
  (forall n, RevokeAllByUser user by_ reason w = (Ok n, w') -> tk_UserID t = user -> ac_seq_tokens (tables w) < tk_ID t).
Proof.
  apply ValidateSecret_ok in Hv as (Hin & Hrev & _).
  assert (forall p n, write_if (revoke_tokens p by_ reason) w = (Ok n, w') ->
    ac_seq_tokens (tables w) < tk_ID t \/ exists t0, In t0 (ac_tokens (tables w)) /\ p t0 = false /\ tk_ID t = tk_ID t0 /\ tk_UserID t = tk_UserID t0) as Hmain.
  { intros p n H. pose proof (steps_run _ _ _ _ _ (grows_revoke p by_ reason) H Hok) as (Hok' & Hseq & _ & _).
    apply write_if_run in H as [(m & _ & H)|(e & [=] & _)]. unfold revoke_tokens in H. apply constrained_ok in H as (E & _).
    apply (f_equal snd) in E. cbn in E.
    destruct (run_token_ops_grow os w' Hok') as (_ & _ & _ & Bk). destruct (Bk t Hin) as [|(t1 & Ht1 & Hs1)]; [left; lia|].
    rewrite <- E in Ht1. cbn in Ht1. apply in_update in Ht1 as (t0 & Ht0 & [[Hq ->]|[Hq ->]]).
    - destruct Hs1 as (_ & _ & _ & _ & _ & _ & _ & _ & Hmono). rewrite Hmono in Hrev by done. done.
    - right. exists t0. split; [done|]. destruct (p t0) eqn:Ep; [|split; [done|split; apply Hs1]].
      cbn in Hq. destruct Hs1 as (_ & _ & _ & _ & _ & _ & _ & _ & Hmono).
      unfold revoked in *. rewrite Hq in Hmono. by rewrite Hmono in Hrev. }
  split.
  - intros H Hid. unfold Revoke in H. apply bind_ok in H as (n & w1 & H & H').
    destruct (Z.eqb_spec n 0) as [|Hn]; [done|]. injection H' as <-. destruct (Hmain _ _ H) as [Hnew|(t0 & Ht0 & Hp & Ht & _)].
    + apply write_if_run in H as [(m & [= <-] & H)|(e & [=] & _)]. unfold revoke_tokens in H. apply constrained_ok in H as (E & _).
      apply (f_equal fst) in E. cbn in E. assert (affected (fun t => by_id id t && not_revoked t) (ac_tokens (tables w)) <> 0) as Hpos by congruence.
      apply affected_pos in Hpos as (r & Hr & [Hb _]%andb_prop). destruct Hok as [_ Hseq]. apply Hseq in Hr.
      unfold by_id in Hb. apply Z.eqb_eq in Hb. change (key r) with (tk_ID r) in Hb. lia.
    + unfold by_id in Hp. apply Z.eqb_neq in Hp. change (key t0) with (tk_ID t0) in Hp. congruence.
  - intros n H Hu. destruct (Hmain _ _ H) as [Hnew|(t0 & _ & Hp & _ & Ht)]; [done|]. apply Z.eqb_neq in Hp. congruence.
Qed.
End life.

(** ** Reset tokens *)

(** The token is stored, and every row with it has been used. *)
Definition spent (token : string) (a : Accounts) : Prop :=
  existsb (fun r => String.eqb (ot_token r) token) (ac_reset a) = true /\
  existsb (fun r => String.eqb (ot_token r) token && unused r) (ac_reset a) = false.

Lemma existsb_update {A} (p q : A -> bool) f t : (forall x, p (f x) = p x) -> existsb p (update q f t) = existsb p t.
Proof. intros H. unfold update. induction t as [|x t IH]; cbn; [done|]. rewrite IH. destruct (q x); by rewrite ?H. Qed.

Lemma existsb_update_false {A} (p q : A -> bool) f t : (forall x, p (f x) = true -> p x = true) ->
  existsb p t = false -> existsb p (update q f t) = false.
Proof.
  intros H. unfold update. induction t as [|x t IH]; cbn; [done|]. intros [Hx Ht]%orb_false_elim. rewrite IH by done.
  rewrite orb_false_r. destruct (q x); [|done]. specialize (H x). destruct (p (f x)); [|done]. rewrite H in Hx; done.
Qed.

Lemma spend_keeps token p at_ a : keeps (spent token) a (set_ac_reset (spend p at_ (ac_reset a)) a).
Proof.
  intros [H1 H2]. split; cbn; unfold spend.
  - by rewrite existsb_update.
  - apply existsb_update_false; [|done]. intros x Hx. cbn in Hx. by rewrite andb_false_r in Hx.
Qed.

Section reset.
Context {B : Bcrypt}.

Abbreviation keeps_spent token m := (steps (on_tables (keeps (spent token))) m).

Inductive reset_op :=
| ROpCreate (raw : result error (list Z)) (user : Z)
| ROpValidate (token : string)
| ROpTick (now : Z).

Definition run_reset_op (o : reset_op) (w : World Accounts) : World Accounts :=
  match o with
  | ROpCreate raw u => snd (ResetCreate raw u w)
  | ROpValidate t => snd (ResetValidate t w)
  | ROpTick n => set_tables (set_ac_now n (tables w)) w
  end.

Definition run_reset_ops (os : list reset_op) (w : World Accounts) : World Accounts := fold_left (fun w o => run_reset_op o w) os w.

Lemma keeps_spend token p : keeps_spent token (write (fun a => set_ac_reset (spend p (stamp a) (ac_reset a)) a)).
Proof. apply steps_write; [apply _|]. intros a. apply spend_keeps. Qed.

#[local] Hint Extern 1 (steps _ (write (fun _ => set_ac_reset (spend _ _ _) _))) => (apply keeps_spend) : steps_db.
#[local] Hint Extern 1 (steps _ clock_now) => (apply steps_gets, _) : steps_db.
#[local] Hint Extern 1 (steps _ (read_row _)) => (apply steps_read_row, _) : steps_db.

Lemma keeps_insert_reset token user tok e : keeps_spent token (write_if (fun a =>
    match insert_one_time (mkOneTime user tok e None) (ac_reset a) a with
    | Ok t => Ok (tt, set_ac_reset t a)
    | Err e => Err e
    end)).
Proof.
  apply steps_write_if; [apply _|]. intros a x a' H [H1 H2]. destruct (insert_one_time _ _ _) as [t|] eqn:E; [|done].
  injection H as <- <-. unfold insert_one_time in E. apply constrained_ok in E as (<- & _ & Hu & _). split; cbn.
  - by rewrite existsb_app, H1.
  - rewrite existsb_app, H2. cbn. rewrite orb_false_r. destruct (String.eqb_spec tok token) as [->|]; [|done].
    apply negb_true_iff in Hu. cbn in Hu. by rewrite H1 in Hu.
Qed.

#[local] Hint Extern 2 (steps _ (write_if _)) => (apply keeps_insert_reset) : steps_db.

Lemma run_reset_op_spent token o w : spent token (tables w) -> spent token (tables (run_reset_op o w)).
Proof.
  intros H. destruct o; cbn [run_reset_op];
    try (match goal with |- spent _ (tables (snd (?m w))) => enough (keeps_spent token m) as Hk by exact (Hk w H) end); [| |done].
  - unfold ResetCreate. cbv zeta. steps_go.
  - unfold ResetValidate. cbv zeta. steps_go.
Qed.

(** A password reset token is spent once: when every statement of the
    validation that accepted it succeeded, no later validation accepts it,
    whatever tokens are created or validated in between. *)
Theorem reset_token_single_use (token : string) (user : Z) (w w' : World Accounts) (os : list reset_op)
    (Hs : sched w = []) (H : ResetValidate token w = (Ok user, w')) :
  is_ok (fst (ResetValidate token (run_reset_ops os w'))) = false.
Proof.
  assert (spent token (tables w')) as Hspent.
  { unfold ResetValidate in H. apply bind_ok in H as (r & w1 & Hr & H). apply map_err_ok in Hr. rewrite read_row_healthy in Hr by done.
    destruct (List.find _ _) as [r0|] eqn:Ef; [|done]. injection Hr as <- <-. apply find_some in Ef as [Hin [Htok _]%andb_prop].
    apply bind_ok in H as (now & w2 & Hn & H). injection Hn as <- <-. destruct (_ <? _); [done|].
    unfold mbind, ST_bind, ignore in H. rewrite write_healthy in H by done. injection H as _ <-. cbn. split; cbn; unfold spend.
    - rewrite existsb_update by done. apply existsb_exists. eauto.
    - apply not_true_is_false. intros (x & (y & Hy & [[_ ->]|[Hp ->]])%in_update & [Ht Hu]%andb_prop)%existsb_exists; [done|congruence]. }
  assert (spent token (tables (run_reset_ops os w'))) as [_ Hno].
  { clear -Hspent. unfold run_reset_ops. revert w' Hspent. induction os as [|o os IH]; intros w' H; [done|]. cbn.
    apply IH. by apply run_reset_op_spent. }
  unfold ResetValidate, mbind at 1, ST_bind at 1, map_err at 1.
  destruct (read_row _ (run_reset_ops os w')) as [r w1] eqn:E.
  apply read_row_run in E as [[_ E]|[_ [e ->]]]; [|done]. destruct (List.find _ _) eqn:Ef; [|by subst r].
  apply find_some in Ef as [Hin Hp]. exfalso. apply not_true_iff_false in Hno. apply Hno, existsb_exists. eauto.
Qed.
End reset.

(** ** Concrete runs *)

#[local] Instance plain_bcrypt : Bcrypt := {|
  bc_generate := fun pw salt => if (72 <? Z.of_nat (String.length pw)) then Err (ENew "bcrypt: password length exceeds 72 bytes") else Ok pw;
  bc_compare := String.eqb;
|}.

#[local] Instance plain_bcrypt_laws : BcryptLaws.
Proof. constructor. intros pw salt h. cbn. destruct (_ <? _); [done|]. intros [= <-]. apply String.eqb_refl. Qed.

Definition one_user : World Accounts :=
  mkWorld (mkAccounts [mkUser 1 "x" None "" "" true false false None None None None None 0 0 None]
    1 [] [] 0 [] [] 0 [] [] 0 [] [] [] [] 0 [] 0 (1700000000 * ac_second)) [].

Definition issue : World Accounts -> result error (string * ApiToken) * World Accounts :=
  TokenCreate (Ok [1; 171]) 0 "uuid-1" 1 "ci" "" "" "" None "" (Some (1700003600 * ac_second)).

Definition issued : ApiToken :=
  mkApiToken 1 "uuid-1" "ci" "" "ind_01ab" 1 json_read_only None None None (Some (1700003600 * ac_second)) None None None 0 None 1700000000.

Definition some_ops : list token_op :=
  [TOpRecordUsage 1; TOpCreate (Ok [2]) 0 "uuid-2" 1 "b" "" "" "" None "" None; TOpRevoke 2 0 "old"; TOpTick (1700000100 * ac_second)].

Lemma one_user_ok : tokens_ok (tables one_user).
Proof. split; [apply List.NoDup_nil|done]. Qed.

Example token_accepted_until_revoked_witness :
  exists t, In t (ac_tokens (tables (run_token_ops some_ops (snd (issue one_user))))) /\ same_token issued t /\ tk_UserID t = 1 /\
    tk_ExpiresAt t = Some (1700003600 * ac_second) /\
    fst (ValidateSecret "ind_01ab" (run_token_ops some_ops (snd (issue one_user)))) =
      if revoked t || expired (ac_now (tables (run_token_ops some_ops (snd (issue one_user))))) t then Err (ESentinel ErrTokenNotFound) else Ok t.
Proof.
  apply (token_accepted_until_revoked (Ok [1; 171]) 0 "uuid-1" 1 "ci" "" "" "" None "" (Some (1700003600 * ac_second))
    one_user (snd (issue one_user)) "ind_01ab" issued some_ops).
  - exact one_user_ok.
  - vm_compute. reflexivity.
  - apply _.
  - intros t Ht Hc. vm_compute in Ht. destruct Ht as [<-|[<-|[]]]; vm_compute in Hc |- *; [reflexivity|discriminate Hc].
  - vm_compute. reflexivity.
Defined.

Definition second_token : World Accounts := snd (TokenCreate (Ok [2]) 0 "uuid-2" 1 "b" "" "" "" None "" None (snd (issue one_user))).

Example revocation_is_final_witness :
  2 <> 1 /\ fst (ValidateSecret "ind_01ab" (run_token_ops [TOpTick 5] (snd (Revoke 1 0 "gone" second_token)))) = Err (ESentinel ErrTokenNotFound).
Proof.
  split; [|vm_compute; reflexivity].
  eapply (revocation_is_final 1 1 0 "gone" "ind_02" second_token (snd (Revoke 1 0 "gone" second_token)) [TOpTick 5]
    (mkApiToken 2 "uuid-2" "b" "" "ind_02" 1 json_read_only None None None None None None None 0 None 1700000000)).
  - split; [vm_compute; repeat constructor; vm_compute; intuition discriminate|].
    intros t Ht. vm_compute in Ht. destruct Ht as [<-|[<-|[]]]; vm_compute; discriminate.
  - vm_compute. reflexivity.
  - vm_compute. reflexivity.
Defined.

Definition reset_world (l : list (option string)) : World Accounts :=
  mkWorld (set_ac_reset [mkOneTime 1 "aa" (1700003600 * ac_second) None] (tables one_user)) l.

Example reset_token_single_use_witness :
  fst (ResetValidate "aa" (reset_world [])) = Ok 1 /\
  is_ok (fst (ResetValidate "aa" (run_reset_ops [ROpCreate (Ok [170]) 1; ROpTick 7] (snd (ResetValidate "aa" (reset_world [])))))) = false.
Proof.
  split; [vm_compute; reflexivity|].
  apply (reset_token_single_use "aa" 1 (reset_world []) (snd (ResetValidate "aa" (reset_world [])))); [reflexivity|].
  vm_compute. reflexivity.
Defined.

(** The error of marking the token used is dropped: the token is accepted, and
    stays good for another reset. *)
Example reset_token_reused_after_fault :
  let w := reset_world [None; Some "database is locked"] in
  fst (ResetValidate "aa" w) = Ok 1 /\ fst (ResetValidate "aa" (snd (ResetValidate "aa" w))) = Ok 1.
Proof. vm_compute. done. Qed.
