(* ===== verification/Oidc.v ===== *)
(** * Single sign-on

    src/internal/services/oidc_provider.go and oidc_login.go: the providers, the
    identities linked to users, and the login that resolves an identity. The
    discovery, the code exchange and the verification of the ID token are those
    of the OIDC library, the class [Idp]; the e-mail syntax is net/mail's. *)

From S2P Require Import Prelude GoLib Hex Sql Stmt AccountSchema Users Keyring.
From Stdlib Require Import Ascii.

Open Scope Z_scope.

(** ** Providers *)

Section providers.
Context {aead : Aead} (kr : Keyring).

Definition ProviderGetByID (id : Z) : AcM OIDCProvider :=
  map_err (or_missing ErrOIDCProviderNotFound) (read_row (fun a => find_id id (ac_providers a))).

Definition default_scopes : string := "openid,email,profile".

(** [rnd]: the nonce of the envelope. *)
Definition ProviderCreate (rnd : option (list Z)) (name displayName issuerURL clientID clientSecret scopes : string) : AcM OIDCProvider :=
  encryptedSecret ← of_result (kr_Encrypt rnd kr clientSecret);
  let scopes := if String.eqb scopes "" then default_scopes else scopes in
  id ← write_ret (fun a =>
    let id := ac_seq_providers a + 1 in
    (id, set_ac_providers (ac_providers a ++
      [mkProvider id name displayName issuerURL clientID encryptedSecret scopes true None false true ""]) (set_ac_seq_providers id a)));
  ProviderGetByID id.

Definition provider_le (x y : OIDCProvider) : bool := match String.compare (op_Name x) (op_Name y) with Gt => false | _ => true end.

Definition ProviderList : AcM (list OIDCProvider) := read (fun a => order_by provider_le (ac_providers a)).

Definition update_providers (id : Z) (f : OIDCProvider -> OIDCProvider) : AcM unit :=
  write (fun a => set_ac_providers (update (by_id id) f (ac_providers a)) a).

Definition ProviderUpdate (rnd : option (list Z)) (id : Z) (name displayName issuerURL clientID clientSecret scopes : string)
    (isEnabled : bool) : AcM OIDCProvider :=
  let changed secret p := mkProvider (op_ID p) name displayName issuerURL clientID secret scopes isEnabled
    (op_DefaultGroupID p) (op_AutoProvision p) (op_RequireEmailVerified p) (op_ExtraAuthorizeParams p) in
  (if negb (String.eqb clientSecret "") then
     encrypted ← of_result (kr_Encrypt rnd kr clientSecret);
     update_providers id (changed encrypted)
   else update_providers id (fun p => changed (op_EncryptedSecret p) p)) ;;
  ProviderGetByID id.

(** [raw]: the map as JSON, empty for an empty map. *)
Definition SetExtraAuthorizeParams (id : Z) (raw : string) : AcM unit := update_providers id (set_op_ExtraAuthorizeParams raw).

Definition SetAutoProvision (id : Z) (autoProvision : bool) (defaultGroupID : Z) : AcM unit :=
  let gid := if 0 <? defaultGroupID then Some defaultGroupID else None in
  write_if (fun a =>
    constrained true true
      (match gid with Some g => group_exists a g || negb (existsb (by_id id) (ac_providers a)) | None => true end)
      (tt, set_ac_providers (update (by_id id) (fun p => set_op_AutoProvision autoProvision (set_op_DefaultGroupID gid p)) (ac_providers a)) a)).

Definition SetRequireEmailVerified (id : Z) (require : bool) : AcM unit := update_providers id (set_op_RequireEmailVerified require).

Definition ProviderDelete (id : Z) : AcM unit :=
  transact (
    write (fun a => set_ac_identities (delete_where (fun i => oi_ProviderID i =? id) (ac_identities a)) a) ;;
    n ← write_ret (fun a => (affected (by_id id) (ac_providers a), set_ac_providers (delete_where (by_id id) (ac_providers a)) a));
    if n =? 0 then fail (ESentinel ErrOIDCProviderNotFound) else mret tt).
End providers.

(** ** Identities *)

Definition identity_of (providerID : Z) (sub : string) (i : OIDCIdentity) : bool :=
  (oi_ProviderID i =? providerID) && String.eqb (oi_Subject i) sub.

Definition lookupIdentityUserID (providerID : Z) (sub : string) : AcM Z :=
  read_row (fun a => oi_UserID <$> List.find (identity_of providerID sub) (ac_identities a)).

Definition countIdentities (userID : Z) : AcM Z := read (fun a => affected (fun i => oi_UserID i =? userID) (ac_identities a)).

(** The provider is referenced, and (provider_id, subject) is unique. *)
Definition insert_identity (userID providerID : Z) (sub : string) (a : Accounts) : result error (unit * Accounts) :=
  let id := ac_seq_identities a + 1 in
  constrained true (negb (existsb (identity_of providerID sub) (ac_identities a)))
    (user_exists a userID && existsb (by_id providerID) (ac_providers a))
    (tt, set_ac_identities (ac_identities a ++ [mkIdentity id userID providerID sub]) (set_ac_seq_identities id a)).

Definition LinkIdentity (userID providerID : Z) (sub : string) : AcM unit :=
  r ← try (lookupIdentityUserID providerID sub);
  match r with
  | Ok existing => if existing =? userID then mret tt else fail (ESentinel ErrOIDCIdentityLinkedOther)
  | Err err =>
      if negb (errors_is err ErrNoRows) then fail err else
      write_if (insert_identity userID providerID sub)
  end.

Definition UnlinkIdentity (identityID currentUserID : Z) : AcM unit :=
  ownerID ← map_err (fun e => if errors_is e ErrNoRows then ENew "oidc identity not found" else e)
    (read_row (fun a => oi_UserID <$> find_id identityID (ac_identities a)));
  if negb (ownerID =? currentUserID) then fail (ENew "oidc identity does not belong to current user") else
  user ← GetByID currentUserID;
  let hasPassword := match us_PasswordHash user with Some h => negb (String.eqb h "") | None => false end in
  count ← countIdentities currentUserID;
  if negb hasPassword && (count <=? 1) then fail (ESentinel ErrOIDCCannotUnlinkLast) else
  write (fun a => set_ac_identities (delete_where (by_id identityID) (ac_identities a)) a).

Definition ListIdentitiesForUser (userID : Z) : AcM (list OIDCIdentity) :=
  read (fun a => select (fun i => oi_UserID i =? userID) (ac_identities a)).

(** ** Names and scopes *)

Definition splitName (given family full : string) : string * string :=
  let given := TrimSpace given in
  let family := TrimSpace family in
  if negb (String.eqb given "") || negb (String.eqb family "") then (given, family) else
  let full := TrimSpace full in
  if String.eqb full "" then ("", "") else
  match Cut full " " with
  | None => (full, "")
  | Some parts => parts
  end.

(** [strings.FieldsFunc]: the maximal runs without a separator. *)
Fixpoint FieldsFunc (sep : ascii -> bool) (cur : string) (s : string) : list string :=
  match s with
  | EmptyString => if String.eqb cur "" then [] else [cur]
  | String c s' =>
      if sep c then (if String.eqb cur "" then [] else [cur]) ++ FieldsFunc sep "" s'
      else FieldsFunc sep (cur +:+ String c EmptyString) s'
  end.

Definition scope_sep (c : ascii) : bool :=
  Ascii.eqb c "," || Ascii.eqb c " " || Ascii.eqb c (ascii_of_N 9) || Ascii.eqb c (ascii_of_N 10).

Definition splitScopes (s : string) : list string :=
  if String.eqb s "" then ["openid"; "email"; "profile"] else
  let out := List.filter (fun t => negb (String.eqb t "")) (map TrimSpace (FieldsFunc scope_sep "" s)) in
  if existsb (String.eqb "openid") out then out else "openid" :: out.

(** ** The login *)

Record Claims := mkClaims {
  cl_Sub : string; cl_Email : string; cl_EmailVerified : bool; cl_GivenName : string; cl_FamilyName : string; cl_Name : string;
}.

(** The state cookie. *)
Record oidcStatePayload := mkState {
  sp_ProviderID : Z; sp_State : string; sp_Nonce : string; sp_CodeVerifier : string; sp_RedirectURL : string;
  sp_LinkToUserID : Z; sp_Exp : Z;
}.

Record CallbackOutcome := mkOutcome { co_LoggedInUser : option User; co_IsNewUser : bool; co_LinkedUserID : Z }.

(** The OIDC library: discovery of an issuer, the exchange of a code for the
    raw ID token ([None]: no id_token in the response), and its verification,
    which yields the nonce and the claims. *)
Class Idp := {
  idp_discover : string -> result error unit;
  idp_exchange : string -> string -> string -> string -> result error (option string);
  idp_verify : string -> string -> string -> result error (string * result error Claims);
  idp_valid_email : string -> bool;
}.

Section login.
Context {aead : Aead} {idp : Idp} (kr : Keyring).

Definition resolveOrProvisionUser (providerID : Z) (sub email : string) (emailVerified : bool) (givenName familyName name : string)
    (provider : OIDCProvider) : AcM (User * bool) :=
  r1 ← try (lookupIdentityUserID providerID sub);
  match r1 with
  | Ok uid => u ← GetByID uid; mret (u, false)
  | Err err =>
    if negb (errors_is err ErrNoRows) then fail err else
    r2 ← try (GetByExternalID sub);
    match r2 with
    | Ok u => LinkIdentity (us_ID u) providerID sub ;; mret (u, false)
    | Err err =>
      if negb (errors_is err ErrUserNotFound) then fail err else
      if negb (op_AutoProvision provider) then fail (ESentinel ErrOIDCNoAccount) else
      if String.eqb email "" || negb (idp_valid_email email) then fail (ESentinel ErrOIDCMissingEmail) else
      if op_RequireEmailVerified provider && negb emailVerified then fail (ESentinel ErrOIDCMissingEmail) else
      r3 ← try (GetByEmail email);
      match r3 with
      | Ok _ => fail (ESentinel ErrOIDCEmailCollision)
      | Err err =>
        if negb (errors_is err ErrUserNotFound) then fail err else
        let '(first, last) := splitName givenName familyName name in
        created ← CreateFromSCIM email first last sub;
        LinkIdentity (us_ID created) providerID sub ;;
        match op_DefaultGroupID provider with
        | Some g =>
            r4 ← try (AddMember g (us_ID created) 0);
            match r4 with
            | Err err => if negb (errors_is err ErrAlreadyMember) then fail (EWrap "add to default group" [err]) else mret (created, true)
            | Ok _ => mret (created, true)
            end
        | None => mret (created, true)
        end
      end
    end
  end.

(** [decode]: [decodeOIDCStateCookie] with the primary key: base64, AES-GCM, JSON. *)
Definition HandleCallback (decode : string -> result error oidcStatePayload) (cookieValue queryState code : string) : AcM CallbackOutcome :=
  if String.eqb cookieValue "" then fail (ESentinel ErrOIDCStateCookieMissing) else
  payload ← map_err (fun e => EWrap "decode state cookie" [e]) (of_result (decode cookieValue));
  now ← clock_now;
  if sp_Exp payload <? now / ac_second then fail (ESentinel ErrOIDCStateExpired) else
  if String.eqb queryState "" || negb (String.eqb queryState (sp_State payload)) then fail (ESentinel ErrOIDCStateMismatch) else
  provider ← ProviderGetByID (sp_ProviderID payload);
  if negb (op_IsEnabled provider) then fail (ESentinel ErrOIDCProviderDisabled) else
  map_err (fun e => EWrap "oidc discovery" [e]) (of_result (idp_discover (op_IssuerURL provider))) ;;
  secret ← map_err (fun e => EWrap "decrypt provider secret" [e]) (of_result (kr_Decrypt kr (op_EncryptedSecret provider)));
  token ← map_err (fun e => EWrap "code exchange" [e])
    (of_result (idp_exchange (op_ClientID provider) secret code (sp_CodeVerifier payload)));
  rawIDToken ← match token with
               | Some t => if String.eqb t "" then fail (ENew "oidc: no id_token in token response") else mret t
               | None => fail (ENew "oidc: no id_token in token response")
               end;
  '(nonce, claims) ← map_err (fun e => EWrap "verify id_token" [e])
    (of_result (idp_verify (op_IssuerURL provider) (op_ClientID provider) rawIDToken));
  if negb (String.eqb nonce (sp_Nonce payload)) then fail (ESentinel ErrOIDCNonceMismatch) else
  claims ← map_err (fun e => EWrap "parse id_token claims" [e]) (of_result claims);
  if String.eqb (cl_Sub claims) "" then fail (ENew "oidc: id_token missing sub claim") else
  if 0 <? sp_LinkToUserID payload then
    LinkIdentity (sp_LinkToUserID payload) (sp_ProviderID payload) (cl_Sub claims) ;;
    mret (mkOutcome None false (sp_LinkToUserID payload))
  else
    '(user, isNew) ← resolveOrProvisionUser (sp_ProviderID payload) (cl_Sub claims) (cl_Email claims) (cl_EmailVerified claims)
                       (cl_GivenName claims) (cl_FamilyName claims) (cl_Name claims) provider;
    mret (mkOutcome (Some user) isNew 0).
End login.
