(* ===== verification/OidcSafety.v ===== *)
(** * Single sign-on: who is logged in

    A callback that logs a user in does so for the user the identity table
    links to the verified subject, and a login never relinks an identity. *)

From S2P Require Import Prelude GoLib Hex Sql Stmt AccountSchema Users Keyring Oidc.

Open Scope Z_scope.

(** The identity table maps the subject of a provider to a user. *)
Definition linked (a : Accounts) (p : Z) (s : string) (u : Z) : Prop :=
  oi_UserID <$> List.find (identity_of p s) (ac_identities a) = Some u.

Definition links_kept (a a' : Accounts) : Prop := forall p s u, linked a p s u -> linked a' p s u.

#[export] Instance links_kept_preorder : PreOrder links_kept.
Proof. split; unfold links_kept; [by intros a|]. intros a b c. auto. Qed.

Lemma find_app {A} (p : A -> bool) t1 t2 :
  List.find p (t1 ++ t2) = match List.find p t1 with Some x => Some x | None => List.find p t2 end.
Proof. induction t1 as [|x t1 IH]; cbn; [done|]. by destruct (p x). Qed.

Lemma find_none_existsb {A} (p : A -> bool) t : existsb p t = false -> List.find p t = None.
Proof. induction t as [|x t IH]; cbn; [done|]. by destruct (p x). Qed.

Lemma insert_identity_ok u p s a x a' : insert_identity u p s a = Ok (x, a') ->
  linked a' p s u /\ links_kept a a' /\ ac_users a' = ac_users a.
Proof.
  unfold insert_identity. intros (E & _ & Hu & _)%constrained_ok. injection E as _ <-. split; [|split; [|done]].
  - unfold linked. cbn. rewrite find_app, find_none_existsb by (by apply negb_true_iff). cbn.
    unfold identity_of at 1. cbn. by rewrite Z.eqb_refl, String.eqb_refl.
  - intros p' s' u' H. unfold linked in *. cbn. rewrite find_app. by destruct (List.find (identity_of p' s') (ac_identities a)).
Qed.

Lemma lookup_run p s w r w' : lookupIdentityUserID p s w = (r, w') -> tables w' = tables w /\
  match r with
  | Ok u => linked (tables w) p s u
  | Err e => errors_is e ErrNoRows = true -> forall u, ~ linked (tables w) p s u
  end.
Proof.
  unfold lookupIdentityUserID. intros H. apply read_row_run in H as [[Ht H]|[Ht [e ->]]]; [|done].
  split; [done|]. unfold linked. destruct (oi_UserID <$> _); subst r; [done|]. by intros _ u [=].
Qed.

Lemma LinkIdentity_run u p s w r w' : LinkIdentity u p s w = (r, w') ->
  links_kept (tables w) (tables w') /\ ac_users (tables w') = ac_users (tables w) /\
  (r = Ok tt -> linked (tables w') p s u).
Proof.
  unfold LinkIdentity, mbind, ST_bind, try. destruct (lookupIdentityUserID p s w) as [[v|e] w1] eqn:E; apply lookup_run in E as [Ht Hl].
  - destruct (Z.eqb_spec v u) as [->|]; intros [= <- <-]; rewrite Ht; (split; [reflexivity|split; [done|]]); [by intros _|done].
  - destruct (negb (errors_is e ErrNoRows)); [intros [= <- <-]; rewrite Ht; split; [reflexivity|done]|].
    intros H. apply write_if_run in H as [([] & -> & H)|(e' & -> & Ht')].
    + rewrite Ht in H. apply insert_identity_ok in H as (H1 & H2 & H3). done.
    + rewrite Ht', Ht. split; [reflexivity|done].
Qed.

(** Statements on other tables. *)
Definition same_identities (a a' : Accounts) : Prop := ac_identities a' = ac_identities a.

#[export] Instance same_identities_preorder : PreOrder same_identities.
Proof. split; unfold same_identities; [by intros a|]. intros a b c. congruence. Qed.

Lemma same_identities_links a a' : same_identities a a' -> forall p s u, linked a' p s u <-> linked a p s u.
Proof. unfold same_identities, linked. by intros ->. Qed.

Lemma GetByID_reads id w r w' : GetByID id w = (r, w') -> tables w' = tables w /\
  match r with Ok u => In u (ac_users (tables w)) /\ us_ID u = id /\ live u = true | Err _ => True end.
Proof.
  unfold GetByID, map_err. destruct (read_row _ w) as [x w1] eqn:E.
  apply read_row_run in E as [[E1 E2]|[E1 [e ->]]]; [|by intros [= <- <-]].
  destruct (List.find _ _) eqn:Ef; subst x; intros [= <- <-]; [|done].
  apply find_some in Ef as [Hin [Hid Hl]%andb_prop]. unfold by_id in Hid. by apply Z.eqb_eq in Hid.
Qed.

Lemma find_reads (p : User -> bool) s w r w' :
  map_err (or_missing s) (read_row (fun a => List.find (fun u => p u && live u) (ac_users a))) w = (r, w') -> tables w' = tables w /\
  match r with
  | Ok u => In u (ac_users (tables w)) /\ p u = true /\ live u = true
  | Err e => errors_is e s = true -> forall u, In u (ac_users (tables w)) -> live u = true -> p u = false
  end.
Proof.
  unfold map_err. destruct (read_row _ w) as [x w1] eqn:E.
  apply read_row_run in E as [[E1 E2]|[E1 [e ->]]]; [|by intros [= <- <-]].
  destruct (List.find _ _) eqn:Ef; subst x; intros [= <- <-]; (split; [done|]).
  - by apply find_some in Ef as [Hin [Hp Hl]%andb_prop].
  - intros _ u Hu Hl. apply (find_none _ _ Ef) in Hu. cbn in Hu. by rewrite Hl, andb_true_r in Hu.
Qed.

Lemma Create_identities e f l x : steps (on_tables same_identities) (CreateFromSCIM e f l x).
Proof.
  unfold CreateFromSCIM. cbv zeta. apply steps_bind; [apply _| |intros id].
  - apply steps_map_err, steps_write_if; [apply _|]. intros a i a' H. unfold insert_user in H.
    apply constrained_ok in H as (E & _). by injection E as _ <-.
  - apply steps_map_err, steps_read_row, _.
Qed.

Lemma AddMember_identities g u b : steps (on_tables same_identities) (AddMember g u b).
Proof.
  unfold AddMember. apply steps_map_err, steps_write_if; [apply _|]. intros a i a' H. unfold insert_member in H.
  apply constrained_ok in H as (E & _). by injection E as _ <-.
Qed.

Section login.
Context {aead : Aead} {idp : Idp} (kr : Keyring).

(** What a resolution that succeeds did. *)
Lemma resolve_ok p s email ver given family name prov w u b w' :
  resolveOrProvisionUser p s email ver given family name prov w = (Ok (u, b), w') ->
  linked (tables w') p s (us_ID u) /\ links_kept (tables w) (tables w') /\
  if (b : bool) then
    op_AutoProvision prov = true /\ idp_valid_email email = true /\ (op_RequireEmailVerified prov = true -> ver = true) /\
    (forall v, In v (ac_users (tables w)) -> live v = true -> us_Email v <> email)
  else ac_users (tables w') = ac_users (tables w) /\ In u (ac_users (tables w)) /\ live u = true.
Proof.
  unfold resolveOrProvisionUser. unfold mbind at 1, ST_bind at 1, try at 1.
  destruct (lookupIdentityUserID p s w) as [[uid|e1] w1] eqn:E1; apply lookup_run in E1 as [T1 L1].
  { intros H. apply bind_ok in H as (u' & w2 & Hg & H). injection H as <- <- <-.
    apply GetByID_reads in Hg as [T2 (Hin & Hid & Hl)]. rewrite T2, T1 in *. rewrite Hid.
    split; [done|]. split; [reflexivity|]. done. }
  destruct (errors_is e1 ErrNoRows); cbn [negb]; [|done]. unfold mbind at 1, ST_bind at 1, try at 1.
  destruct (GetByExternalID s w1) as [[v|e2] w2] eqn:E2; apply find_reads in E2 as [T2 R2].
  { intros H. apply bind_ok in H as ([] & w3 & Hl & H). injection H as <- <- <-. apply LinkIdentity_run in Hl as (Hk & Hu & Hl).
    rewrite T2, T1 in *. destruct R2 as (Hin & _ & Hlive). split; [by apply Hl|]. done. }
  destruct (errors_is e2 ErrUserNotFound); cbn [negb]; [|done].
  destruct (op_AutoProvision prov) eqn:Hauto; cbn [negb]; [|done].
  destruct (String.eqb email "" || negb (idp_valid_email email)) eqn:Hmail; [done|]. apply orb_false_elim in Hmail as [_ Hmail%negb_false_iff].
  destruct (op_RequireEmailVerified prov && negb ver) eqn:Hver; [done|].
  unfold mbind at 1, ST_bind at 1, try at 1.
  destruct (GetByEmail email w2) as [[v|e3] w3] eqn:E3; apply find_reads in E3 as [T3 R3]; [done|].
  destruct (errors_is e3 ErrUserNotFound) eqn:H3; cbn [negb]; [|done].
  destruct (splitName given family name) as [first last].
  intros H. apply bind_ok in H as (c & w4 & Hc & H). apply bind_ok in H as ([] & w5 & Hl & H).
  pose proof (steps_run _ _ _ _ _ (Create_identities email first last s) Hc) as Hsame. unfold on_tables in Hsame. rewrite T3, T2, T1 in Hsame.
  apply LinkIdentity_run in Hl as (Hk & _ & Hl).
  assert (same_identities (tables w5) (tables w') /\ u = c /\ b = true) as (Hsame' & -> & ->).
  { destruct (op_DefaultGroupID prov) as [g|]; [|by injection H as <- <- <-].
    unfold mbind, ST_bind, try in H. destruct (AddMember g (us_ID c) 0 w5) as [r w6] eqn:Ea.
    apply (steps_run _ _ _ _ _ (AddMember_identities g (us_ID c) 0)) in Ea. unfold on_tables in Ea.
    destruct r as [[]|e]; [by injection H as <- <- <-|]. destruct (errors_is e ErrAlreadyMember); [|done]. by injection H as <- <- <-. }
  split; [|split; [|split; [done|split; [done|split]]]].
  - apply (same_identities_links _ _ Hsame'). by apply Hl.
  - intros p' s' u' Hlk. apply (same_identities_links _ _ Hsame'). apply Hk. by apply (same_identities_links _ _ Hsame).
  - intros Hreq. rewrite Hreq in Hver. by destruct ver.
  - intros v Hv Hlive Heq. rewrite T2, T1 in R3. specialize (R3 eq_refl v Hv Hlive). apply String.eqb_neq in R3. by apply R3.
Qed.

(** C10. A callback that logs somebody in found a fresh cookie with the state and
    the nonce of this login and a verified token of an enabled provider, and the
    user it logs in is the one the identity table links to the subject of that
    token. No link that existed is lost or moved; unless the user is new no user
    row was touched, and a new user is created only where the provider allows
    it and no other user has the address. *)
Theorem HandleCallback_logs_in_linked_user (decode : string -> result error oidcStatePayload) (cookie state code : string)
    (w w' : World Accounts) (u : User) (isNew : bool) (lk : Z)
    (H : HandleCallback kr decode cookie state code w = (Ok (mkOutcome (Some u) isNew lk), w')) :
  exists payload prov claims secret raw,
    decode cookie = Ok payload /\ ac_now (tables w) / ac_second <= sp_Exp payload /\ state = sp_State payload /\ state <> "" /\
    In prov (ac_providers (tables w)) /\ op_ID prov = sp_ProviderID payload /\ op_IsEnabled prov = true /\
    idp_exchange (op_ClientID prov) secret code (sp_CodeVerifier payload) = Ok (Some raw) /\
    idp_verify (op_IssuerURL prov) (op_ClientID prov) raw = Ok (sp_Nonce payload, Ok claims) /\ cl_Sub claims <> "" /\
    linked (tables w') (sp_ProviderID payload) (cl_Sub claims) (us_ID u) /\ links_kept (tables w) (tables w') /\
    if isNew then
      op_AutoProvision prov = true /\ (op_RequireEmailVerified prov = true -> cl_EmailVerified claims = true) /\
      (forall v, In v (ac_users (tables w)) -> live v = true -> us_Email v <> cl_Email claims)
    else ac_users (tables w') = ac_users (tables w) /\ In u (ac_users (tables w)) /\ live u = true.
Proof.
  unfold HandleCallback in H. destruct (String.eqb cookie ""); [done|].
  apply bind_ok in H as (pl & w1 & H1 & H). apply map_err_ok in H1. injection H1 as Hdec <-.
  apply bind_ok in H as (now & w2 & H2 & H). injection H2 as <- <-.
  destruct (Z.ltb_spec (sp_Exp pl) (ac_now (tables w) / ac_second)) as [|Hexp]; [done|].
  destruct (String.eqb_spec state "") as [|Hne]; [done|]. cbn [orb] in H. destruct (String.eqb_spec state (sp_State pl)) as [Hst|]; [|done].
  cbn [negb] in H. apply bind_ok in H as (prov & w3 & Hp & H). apply map_err_ok in Hp.
  apply read_row_run in Hp as [[T3 Hf]|[_ [e [=]]]]. destruct (find_id _ _) as [prov'|] eqn:Ef; [|done]. injection Hf as <-.
  apply find_id_Some in Ef as [Hin Hid]. destruct (op_IsEnabled prov) eqn:Hen; [|done]. cbn [negb] in H.
  apply bind_ok in H as ([] & w4 & H4 & H). apply map_err_ok in H4. injection H4 as _ <-.
  apply bind_ok in H as (secret & w5 & H5 & H). apply map_err_ok in H5. injection H5 as _ <-.
  apply bind_ok in H as (tok & w6 & H6 & H). apply map_err_ok in H6. injection H6 as Hex <-.
  apply bind_ok in H as (raw & w7 & H7 & H). destruct tok as [t|]; [|done]. destruct (String.eqb t ""); [done|]. injection H7 as <- <-.
  apply bind_ok in H as ([nonce rc] & w8 & H8 & H). apply map_err_ok in H8. injection H8 as Hver <-.
  destruct (String.eqb_spec nonce (sp_Nonce pl)) as [->|]; [|done]. cbn [negb] in H.
  apply bind_ok in H as (cl & w9 & H9 & H). apply map_err_ok in H9. injection H9 as -> <-.
  destruct (String.eqb_spec (cl_Sub cl) "") as [|Hsub]; [done|]. destruct (0 <? sp_LinkToUserID pl).
  { apply bind_ok in H as ([] & w10 & _ & [=]). }
  apply bind_ok in H as ([v b] & w10 & Hr & H). injection H as <- <- _ <-. apply resolve_ok in Hr as (Hl & Hk & Hb).
  rewrite T3 in Hk, Hb. exists pl, prov, cl, secret, t. split_and!; try done. destruct b; naive_solver.
Qed.
End login.

(** ** Witness and boundary cases *)

#[local] Existing Instance clear_aead.

(** Issuers whose tokens read back the code: the subject is the code, the nonce "n". *)
#[local] Instance echo_idp : Idp := {|
  idp_discover := fun _ => Ok tt;
  idp_exchange := fun _ _ code _ => Ok (Some code);
  idp_verify := fun _ _ raw => Ok ("n", Ok (mkClaims raw (raw +:+ "@example.com") true "Ada" "L" ""));
  idp_valid_email := fun s => negb (String.eqb s "");
|}.

Definition sso_ring : Keyring := mkKeyring "k" ["k"] {["k" := Keyring.test_key (Ascii.ascii_of_N 97)]}.

Definition sso_provider (id : Z) (name : string) : OIDCProvider :=
  mkProvider id name name (name +:+ ".example.com") "client" "k:000000000000000000000000" "" true None true true "".

(** Two providers that create accounts, and nobody yet. *)
Definition sso_accounts : Accounts :=
  mkAccounts [] 0 [] [] 0 [] [] 0 [] [] 0 [] [] [] [sso_provider 1 "acme"; sso_provider 2 "umbra"] 2 [] 0 (1700000000 * ac_second).

(** The cookie names the provider by its length. *)
Definition sso_cookie (c : string) : result error oidcStatePayload :=
  Ok (mkState (Z.of_nat (String.length c)) "s" "n" "v" "/" 0 1700000600).

Definition sso_login (cookie code : string) : AcM CallbackOutcome := HandleCallback sso_ring sso_cookie cookie "s" code.

Definition first_login := Eval vm_compute in sso_login "x" "ada" (mkWorld sso_accounts []).

Definition ada : User :=
  mkUser 1 "ada@example.com" None "Ada" "L" true false false (Some "ada") None None None None (1700000000) (1700000000) None.

Definition ada_linked : World Accounts := snd first_login.

Example HandleCallback_logs_in_linked_user_witness : exists payload prov claims secret raw,
  sso_cookie "x" = Ok payload /\ ac_now (tables (mkWorld sso_accounts [])) / ac_second <= sp_Exp payload /\ "s" = sp_State payload /\ "s" <> "" /\
  In prov (ac_providers sso_accounts) /\ op_ID prov = sp_ProviderID payload /\ op_IsEnabled prov = true /\
  idp_exchange (op_ClientID prov) secret "ada" (sp_CodeVerifier payload) = Ok (Some raw) /\
  idp_verify (op_IssuerURL prov) (op_ClientID prov) raw = Ok (sp_Nonce payload, Ok claims) /\ cl_Sub claims <> "" /\
  linked (tables ada_linked) (sp_ProviderID payload) (cl_Sub claims) (us_ID ada) /\ links_kept sso_accounts (tables ada_linked) /\
  (op_AutoProvision prov = true /\ (op_RequireEmailVerified prov = true -> cl_EmailVerified claims = true) /\
   (forall v, In v (ac_users sso_accounts) -> live v = true -> us_Email v <> cl_Email claims)).
Proof. apply (HandleCallback_logs_in_linked_user sso_ring sso_cookie "x" "s" "ada" (mkWorld sso_accounts []) ada_linked ada true 0). vm_compute. reflexivity. Defined.

(** A deleted user keeps the external id, which is unique over all rows: the
    same subject signing in again is refused as if the address were taken. *)
Example deleted_subject_is_locked_out :
  is_ok (fst (SoftDelete 1 ada_linked)) = true /\
  fst (sso_login "x" "ada" (snd (SoftDelete 1 ada_linked))) = Err (ESentinel ErrEmailTaken).
Proof. vm_compute. done. Qed.

(** The subject of one provider is taken for the external id another provider
    gave: both log in as the same user. *)
Example subjects_of_two_providers_collide :
  fst (sso_login "xx" "ada" ada_linked) = Ok (mkOutcome (Some ada) false 0).
Proof. vm_compute. done. Qed.
