(* ===== verification/Webhooks.v ===== *)
(** * Webhooks

    src/internal/services/webhook.go and webhook_delivery.go: the configured
    endpoints, the signed deliveries with their retries, the delivery log and
    the queue of dead letters. The HTTP client is the class [HttpClient], URL
    parsing and the decoding of JSON the class [Decoders]; encoding is written
    out. Goroutines that a Fire function starts are the list it returns. *)

From stdpp Require Import pretty.
From Stdlib Require Import Ascii.
From S2P Require Import Prelude GoLib Hex Sql Stmt Clock AuditLog.

Open Scope Z_scope.

(** ** HMAC-SHA256 *)

Definition hmac_sha256 (key msg : list Z) : list Z :=
  let k := if (64 <? length key)%nat then Sha256.Sum256 key else key in
  let k := k ++ repeat 0 (64 - length k) in
  Sha256.Sum256 (map (Z.lxor 92) k ++ Sha256.Sum256 (map (Z.lxor 54) k ++ msg)).

Example hmac_rfc4231_2 :
  EncodeToString (hmac_sha256 (bytes_of "Jefe") (bytes_of "what do ya want for nothing?")) =
  "5bdcc146bf60754e6a042426089575c75a003f089d2739839dec58b964ec3843".
Proof. vm_compute. reflexivity. Qed.

(** ** Rows *)

(** A row of webhook_config: services.Webhook. *)
Record Webhook := mkWebhook {
  wb_ID : Z; wb_URL : string; wb_IntegrationType : string; wb_IsEnabled : bool;
  wb_Events : string;  (* JSON array *)
  wb_Secret : string; wb_CreatedAt : Z; wb_UpdatedAt : Z;
}.

(** A row of webhook_delivery_log: services.WebhookDelivery. *)
Record WebhookDelivery := mkDelivery {
  wd_ID : Z; wd_WebhookID : Z; wd_EventType : string; wd_StatusCode : option Z; wd_Success : bool;
  wd_Attempts : Z; wd_ErrorMessage : option string; wd_CreatedAt : Z;
}.

(** A row of webhook_dead_letter: services.WebhookDeadLetter, whose URL is
    joined where it is shown. *)
Record WebhookDeadLetter := mkDead {
  dl_ID : Z; dl_WebhookID : Z; dl_EventType : string; dl_Payload : string; dl_LastStatusCode : option Z;
  dl_LastError : option string; dl_Attempts : Z; dl_ResendCount : Z; dl_IsAuth : bool; dl_CreatedAt : Z;
  dl_ResolvedAt : option Z;
}.

#[export] Instance webhook_keyed : Keyed Webhook := wb_ID.
#[export] Instance dead_keyed : Keyed WebhookDeadLetter := dl_ID.

Record HookTables := mkHooks {
  ht_hooks : list Webhook; ht_seq_hooks : Z;
  ht_log : list WebhookDelivery; ht_seq_log : Z;
  ht_dead : list WebhookDeadLetter; ht_seq_dead : Z;
  ht_now : Z;  (* nanoseconds since the epoch *)
}.

Definition set_ht_hooks v t := mkHooks v (ht_seq_hooks t) (ht_log t) (ht_seq_log t) (ht_dead t) (ht_seq_dead t) (ht_now t).
Definition set_ht_seq_hooks v t := mkHooks (ht_hooks t) v (ht_log t) (ht_seq_log t) (ht_dead t) (ht_seq_dead t) (ht_now t).
Definition set_ht_log v t := mkHooks (ht_hooks t) (ht_seq_hooks t) v (ht_seq_log t) (ht_dead t) (ht_seq_dead t) (ht_now t).
Definition set_ht_seq_log v t := mkHooks (ht_hooks t) (ht_seq_hooks t) (ht_log t) v (ht_dead t) (ht_seq_dead t) (ht_now t).
Definition set_ht_dead v t := mkHooks (ht_hooks t) (ht_seq_hooks t) (ht_log t) (ht_seq_log t) v (ht_seq_dead t) (ht_now t).
Definition set_ht_seq_dead v t := mkHooks (ht_hooks t) (ht_seq_hooks t) (ht_log t) (ht_seq_log t) (ht_dead t) v (ht_now t).
Definition set_ht_now v t := mkHooks (ht_hooks t) (ht_seq_hooks t) (ht_log t) (ht_seq_log t) (ht_dead t) (ht_seq_dead t) v.

Abbreviation HookM := (ST error (World HookTables)).

Definition hook_second : Z := 1000000000.
Definition ht_stamp (t : HookTables) : Z := ht_now t / hook_second.

(** ** The payload *)

Record WebhookUploadData := mkUploadData {
  wu_UUID : string; wu_UserID : Z; wu_TokenID : option Z; wu_Filename : string; wu_Status : string; wu_FileSize : Z;
  wu_Visibility : string; wu_ActualCost : option string; wu_ErrorMessage : option string;
}.

Record WebhookTagData := mkTagData { wg_UploadUUID : string; wg_Tags : list (string * list string) (* by key *) }.

Record WebhookCollectionData := mkCollectionData { wc_UploadUUID : string; wc_CollectionID : Z; wc_CollectionName : string }.

Record WebhookAuthData := mkAuthData { wa_To : string; wa_URL : string }.

(** [F]: float64. *)
Record WebhookSystemData (F : Type) := mkSystemData { ws_AlertType : string; ws_Message : string; ws_Value : F }.
Arguments mkSystemData {F} _ _ _.
Arguments ws_AlertType {F} _.
Arguments ws_Message {F} _.
Arguments ws_Value {F} _.

Record WebhookPayload (F : Type) := mkPayload {
  wp_EventType : string; wp_Timestamp : string; wp_Upload : option WebhookUploadData; wp_System : option (WebhookSystemData F);
  wp_Tags : option WebhookTagData; wp_Collection : option WebhookCollectionData; wp_Auth : option WebhookAuthData;
}.
Arguments mkPayload {F} _ _ _ _ _ _ _.
Arguments wp_EventType {F} _.
Arguments wp_Timestamp {F} _.
Arguments wp_Upload {F} _.
Arguments wp_System {F} _.
Arguments wp_Tags {F} _.
Arguments wp_Collection {F} _.
Arguments wp_Auth {F} _.

(** The text of a float64 in JSON, which has no NaN, and under [%.1f]. *)
Class Float64 (F : Type) := {
  json_float : F -> result error string;
  fixed1 : F -> string;
}.

(** [url.Parse], down to scheme and host; and [json.Unmarshal] of a list of
    strings and of a payload. *)
Class Decoders (F : Type) := {
  url_Parse : string -> result error (string * string);
  decode_events : string -> result error (list string);
  decode_payload : string -> result error (WebhookPayload F);
}.

(** net/http: a request is a URL, headers and a body; the answer is the status
    code, whatever the redirects. *)
Record HttpRequest := mkRequest { rq_URL : string; rq_Header : list (string * string); rq_Body : string }.

Class HttpClient (N : Type) := {
  http_NewRequest : string -> result error unit;
  http_Do : HttpRequest -> ST error N Z;
}.

(** ** Encoding *)

(** A JSON object of rendered members. *)
Definition json_object (fields : list (string * string)) : string :=
  "{" +:+ Join (map (fun '(k, v) => json_string k +:+ ":" +:+ v) fields) "," +:+ "}".

Definition json_array (items : list string) : string := "[" +:+ Join items "," +:+ "]".

Definition json_int (z : Z) : string := pretty z.

(** A member with [omitempty]. *)
Definition member {A} (k : string) (f : A -> string) (o : option A) : list (string * string) :=
  match o with Some a => [(k, f a)] | None => [] end.

Definition marshal_upload (u : WebhookUploadData) : string :=
  json_object ([("uuid", json_string (wu_UUID u)); ("user_id", json_int (wu_UserID u))] ++ member "token_id" json_int (wu_TokenID u) ++
    [("filename", json_string (wu_Filename u)); ("status", json_string (wu_Status u)); ("file_size", json_int (wu_FileSize u));
     ("visibility", json_string (wu_Visibility u))] ++
    member "actual_cost" json_string (wu_ActualCost u) ++ member "error_message" json_string (wu_ErrorMessage u)).

Definition marshal_tags (g : WebhookTagData) : string :=
  json_object [("upload_uuid", json_string (wg_UploadUUID g));
               ("tags", json_object (map (fun '(k, vs) => (k, json_array (map json_string vs))) (wg_Tags g)))].

Definition marshal_collection (c : WebhookCollectionData) : string :=
  json_object [("upload_uuid", json_string (wc_UploadUUID c)); ("collection_id", json_int (wc_CollectionID c));
               ("collection_name", json_string (wc_CollectionName c))].

Definition marshal_auth (a : WebhookAuthData) : string :=
  json_object [("to", json_string (wa_To a)); ("url", json_string (wa_URL a))].

(** [strings.NewReplacer]: one byte at a time. *)
Definition slack_escape (c : ascii) : string :=
  if Ascii.eqb c "&" then "&amp;" else if Ascii.eqb c "<" then "&lt;" else if Ascii.eqb c ">" then "&gt;" else String c "".

Fixpoint escapeSlackText (s : string) : string :=
  match s with
  | EmptyString => EmptyString
  | String c s' => slack_escape c +:+ escapeSlackText s'
  end.

(** The line feed of the format strings. *)
Definition lf : string := String (ascii_of_N 10) "".

Section codec.
Context {F : Type} {flt : Float64 F} {dec : Decoders F}.

Definition marshal_system (d : WebhookSystemData F) : result error string :=
  match json_float (ws_Value d) with
  | Err e => Err e
  | Ok v => Ok (json_object [("alert_type", json_string (ws_AlertType d)); ("message", json_string (ws_Message d)); ("value", v)])
  end.

(** [json.Marshal(payload)]. *)
Definition Marshal (p : WebhookPayload F) : result error string :=
  match match wp_System p with None => Ok None | Some d => match marshal_system d with Ok t => Ok (Some t) | Err e => Err e end end with
  | Err e => Err e
  | Ok system =>
      Ok (json_object ([("event_type", json_string (wp_EventType p)); ("timestamp", json_string (wp_Timestamp p))] ++
        member "upload" marshal_upload (wp_Upload p) ++ member "system" (fun t => t) system ++ member "tags" marshal_tags (wp_Tags p) ++
        member "collection" marshal_collection (wp_Collection p) ++ member "auth" marshal_auth (wp_Auth p)))
  end.

Definition slack_text (p : WebhookPayload F) : string :=
  match wp_Upload p, wp_Tags p, wp_Collection p, wp_System p, wp_Auth p with
  | Some u, _, _, _, _ =>
      "*" +:+ wp_EventType p +:+ "*: `" +:+ escapeSlackText (wu_Filename u) +:+ "` — " +:+ escapeSlackText (wu_Status u) +:+ " (" +:+
        json_int (wu_FileSize u) +:+ " bytes)" +:+
      match wu_ActualCost u with Some c => " | Cost: " +:+ escapeSlackText c +:+ " atto" | None => "" end +:+
      match wu_ErrorMessage u with Some m => lf +:+ "Error: " +:+ escapeSlackText m | None => "" end
  | None, Some g, _, _, _ =>
      "*" +:+ wp_EventType p +:+ "*: `" +:+ escapeSlackText (wg_UploadUUID g) +:+ "` — " +:+ json_int (Z.of_nat (length (wg_Tags g))) +:+ " tags"
  | None, None, Some c, _, _ =>
      "*" +:+ wp_EventType p +:+ "*: `" +:+ escapeSlackText (wc_UploadUUID c) +:+ "` — collection `" +:+ escapeSlackText (wc_CollectionName c) +:+ "`"
  | None, None, None, Some d, _ =>
      "*" +:+ wp_EventType p +:+ "*: " +:+ escapeSlackText (ws_Message d) +:+ " (" +:+ fixed1 (ws_Value d) +:+ "%)"
  | None, None, None, None, Some a =>
      "*" +:+ wp_EventType p +:+ "*" +:+ lf +:+ "Deliver to: `" +:+ escapeSlackText (wa_To a) +:+ "`" +:+ lf +:+
        "<" +:+ wa_URL a +:+ "|Click here to continue>"
  | None, None, None, None, None => "*" +:+ wp_EventType p +:+ "* — Indelible test ping at " +:+ wp_Timestamp p
  end.

(** A Go map is encoded with its keys sorted. *)
Definition formatSlack (p : WebhookPayload F) : result error string :=
  let text := slack_text p in
  let block := json_object [("text", json_object [("text", json_string text); ("type", json_string "mrkdwn")]); ("type", json_string "section")] in
  Ok (json_object [("blocks", json_array [block]); ("text", json_string text)]).

Definition formatPayload (integrationType : string) (p : WebhookPayload F) : result error string :=
  if String.eqb integrationType "slack" then formatSlack p else Marshal p.

Definition RedactWebhookURL (raw : string) : string :=
  match url_Parse raw with
  | Ok (scheme, host) => if String.eqb host "" then "redacted" else scheme +:+ "://" +:+ host
  | Err _ => "redacted"
  end.

(** safehttp.go. *)
Definition validateOutboundURL (raw : string) : result error unit :=
  match url_Parse raw with
  | Err e => Err (EWrap "invalid URL" [ESentinel ErrInvalidURL])
  | Ok (scheme, host) =>
      if negb (String.eqb scheme "http") && negb (String.eqb scheme "https") then Err (EWrap "scheme must be http or https" [ESentinel ErrInvalidURL]) else
      if String.eqb host "" then Err (EWrap "must include a host" [ESentinel ErrInvalidURL]) else Ok tt
  end.

Definition webhookSubscribedTo (wh : Webhook) (eventType : string) : bool :=
  match decode_events (wb_Events wh) with
  | Err _ => false
  | Ok events => existsb (fun e => String.eqb e eventType) events
  end.
End codec.

(** ** The configured endpoints *)

Definition newest_hook_first (x y : Webhook) : bool := wb_CreatedAt x <=? wb_CreatedAt y.

Definition hook_type_ok (t : string) : bool := String.eqb t "generic" || String.eqb t "slack".

Section webhooks.
Context {F : Type} {dec : Decoders F}.

Definition HookGetByID (id : Z) : HookM Webhook :=
  map_err (fun e => if errors_is e ErrNoRows then ESentinel ErrWebhookNotFound else e) (read_row (fun t => find_id id (ht_hooks t))).

(** [raw]: the 32 bytes of the random source. *)
Definition new_secret (raw : list Z) : string := "whsec_" +:+ EncodeToString raw.

Definition default_events : string := json_array [json_string "completed"; json_string "failed"].

Definition HookCreate (raw : result error (list Z)) (url integrationType events : string) : HookM Webhook :=
  of_result (validateOutboundURL (F := F) url) ;;
  let integrationType := if String.eqb integrationType "" then "generic" else integrationType in
  let events := if String.eqb events "" then default_events else events in
  raw ← of_result raw;
  id ← write_if (fun t =>
    let id := ht_seq_hooks t + 1 in
    constrained (hook_type_ok integrationType) true true
      (id, set_ht_hooks (ht_hooks t ++ [mkWebhook id url integrationType true events (new_secret raw) (ht_stamp t) (ht_stamp t)])
             (set_ht_seq_hooks id t)));
  HookGetByID id.

Definition HookList : HookM (list Webhook) := read (fun t => order_by newest_hook_first (ht_hooks t)).

Definition HookUpdate (id : Z) (url integrationType events : string) (isEnabled : bool) : HookM Webhook :=
  of_result (validateOutboundURL (F := F) url) ;;
  write_if (fun t =>
    constrained (hook_type_ok integrationType || negb (existsb (by_id id) (ht_hooks t))) true true
      (tt, set_ht_hooks (update (by_id id) (fun h =>
        mkWebhook (wb_ID h) url integrationType isEnabled events (wb_Secret h) (wb_CreatedAt h) (ht_stamp t)) (ht_hooks t)) t)) ;;
  HookGetByID id.

(** The log and the dead letters of the endpoint go with it. *)
Definition HookDelete (id : Z) : HookM unit :=
  n ← write_ret (fun t => (affected (by_id id) (ht_hooks t),
    set_ht_hooks (delete_where (by_id id) (ht_hooks t))
      (set_ht_log (delete_where (fun d => wd_WebhookID d =? id) (ht_log t))
        (set_ht_dead (delete_where (fun d => dl_WebhookID d =? id) (ht_dead t)) t))));
  if n =? 0 then fail (ESentinel ErrWebhookNotFound) else mret tt.

Definition RotateSecret (raw : result error (list Z)) (id : Z) : HookM string :=
  raw ← of_result raw;
  let secret := new_secret raw in
  n ← write_ret (fun t => (affected (by_id id) (ht_hooks t),
    set_ht_hooks (update (by_id id) (fun h =>
      mkWebhook (wb_ID h) (wb_URL h) (wb_IntegrationType h) (wb_IsEnabled h) (wb_Events h) secret (wb_CreatedAt h) (ht_stamp t)) (ht_hooks t)) t));
  if n =? 0 then fail (ESentinel ErrWebhookNotFound) else mret secret.

Definition GetEnabled : HookM (list Webhook) := read (fun t => select wb_IsEnabled (ht_hooks t)).
End webhooks.

(** ** The delivery service *)

Record HookState (N : Type) := mkHookState {
  hs_db : World HookTables;
  hs_logs : World LogTables;
  hs_net : N;
  hs_sent : list HttpRequest;  (* handed to the client, in order *)
  hs_slept : list Z;
  hs_backoffBase : Z;
}.
Arguments mkHookState {N} _ _ _ _ _ _.
Arguments hs_db {N} _.
Arguments hs_logs {N} _.
Arguments hs_net {N} _.
Arguments hs_sent {N} _.
Arguments hs_slept {N} _.
Arguments hs_backoffBase {N} _.

Definition is_auth_event (eventType : string) : bool := HasPrefix eventType "auth.".
Arguments is_auth_event : simpl never.

Section delivery.
Context {F N : Type} {flt : Float64 F} {dec : Decoders F} {client : HttpClient N}.
Implicit Types s : HookState N.

Abbreviation M := (ST error (HookState N)).

Definition put_hs_db v s := mkHookState v (hs_logs s) (hs_net s) (hs_sent s) (hs_slept s) (hs_backoffBase s).
Definition put_hs_logs v s := mkHookState (hs_db s) v (hs_net s) (hs_sent s) (hs_slept s) (hs_backoffBase s).
Definition put_hs_net (v : N) s := mkHookState (hs_db s) (hs_logs s) v (hs_sent s) (hs_slept s) (hs_backoffBase s).
Definition note_sent r s := mkHookState (hs_db s) (hs_logs s) (hs_net s) (hs_sent s ++ [r]) (hs_slept s) (hs_backoffBase s).
(** The clock goes on while the delivery sleeps. *)
Definition slept d s :=
  let w := hs_db s in
  mkHookState (set_tables (set_ht_now (ht_now (tables w) + d) (tables w)) w) (hs_logs s) (hs_net s) (hs_sent s) (hs_slept s ++ [d]) (hs_backoffBase s).

Definition hdb {A} (m : HookM A) : M A := zoom hs_db put_hs_db m.
Definition hlogs {A} (m : LogM A) : M A := zoom hs_logs put_hs_logs m.
Definition hnow : M Z := gets (fun s => ht_now (tables (hs_db s))).

(** [s.client.Do]. *)
Definition post (req : HttpRequest) : M Z := modify (note_sent req) ;; zoom hs_net put_hs_net (http_Do req).

Definition signature (secret ts body : string) : string :=
  "sha256=" +:+ EncodeToString (hmac_sha256 (bytes_of secret) (bytes_of (ts +:+ "." +:+ body))).

(** [http.NewRequest] and [setSignedHeaders]. *)
Definition setSignedHeaders (now : Z) (wh : Webhook) (body : string) : list (string * string) :=
  let ts := pretty (now / hook_second) in
  [("Content-Type", "application/json"); ("User-Agent", "Indelible-Webhook/2.0"); ("X-Webhook-Timestamp", ts)] ++
  if String.eqb (wb_Secret wh) "" then [] else [("X-Signature-256", signature (wb_Secret wh) ts body)].

Definition hook_exists (t : HookTables) (id : Z) : bool := existsb (by_id id) (ht_hooks t).

Definition positive (sc : Z) : option Z := if 0 <? sc then Some sc else None.
Definition nonempty_text (m : string) : option string := if String.eqb m "" then None else Some m.

Definition insert_delivery (webhookID : Z) (eventType : string) (sc : Z) (success : bool) (attempts : Z) (errMsg : string)
    (t : HookTables) : result error (unit * HookTables) :=
  let id := ht_seq_log t + 1 in
  constrained true true (hook_exists t webhookID)
    (tt, set_ht_log (ht_log t ++ [mkDelivery id webhookID eventType (positive sc) success attempts (nonempty_text errMsg) (ht_stamp t)])
           (set_ht_seq_log id t)).

Definition logDelivery (webhookID : Z) (eventType : string) (sc : Z) (success : bool) (attempts : Z) (errMsg : string) : M unit :=
  ignore (hdb (write_if (insert_delivery webhookID eventType sc success attempts errMsg))).

Definition is_2xx (sc : Z) : bool := (200 <=? sc) && (sc <? 300).
Definition http_text (sc : Z) : string := "HTTP " +:+ pretty sc.

Definition insert_dead (webhookID : Z) (eventType body : string) (sc : Z) (lastErr : string) (isAuth : bool)
    (t : HookTables) : result error (unit * HookTables) :=
  let id := ht_seq_dead t + 1 in
  constrained true true (hook_exists t webhookID)
    (tt, set_ht_dead (ht_dead t ++ [mkDead id webhookID eventType body (positive sc) (nonempty_text lastErr) 3 0 isAuth (ht_stamp t) None])
           (set_ht_seq_dead id t)).

Definition recordDeadLetter (wh : Webhook) (p : WebhookPayload F) (lastStatusCode : Z) (lastErr : string) : M unit :=
  match Marshal p with
  | Err _ => mret tt
  | Ok body =>
      let isAuth := is_auth_event (wp_EventType p) in
      r ← try (hdb (write_if (insert_dead (wb_ID wh) (wp_EventType p) body lastStatusCode lastErr isAuth)));
      match r with
      | Err _ => mret tt
      | Ok _ =>
          if isAuth then
            let to := match wp_Auth p with Some a => wa_To a | None => "" end in
            ignore (hlogs (WriteSystem "error" "webhook"
              ("auth notification delivery failed (" +:+ wp_EventType p +:+ ") — recovery link queued in dead-letter")
              ("webhook_id=" +:+ pretty (wb_ID wh) +:+ " to=" +:+ to +:+ " last_error=" +:+ lastErr) ""))
          else mret tt
      end
  end.

(** The attempts that are left, with what the last one saw. *)
Fixpoint attempts (wh : Webhook) (p : WebhookPayload F) (body : string) (todo : list Z) (lastStatusCode : Z) (lastErr : string) : M unit :=
  match todo with
  | [] =>
      logDelivery (wb_ID wh) (wp_EventType p) lastStatusCode false 3 lastErr ;;
      recordDeadLetter wh p lastStatusCode lastErr
  | attempt :: todo =>
      (if 0 <? attempt then s ← get; modify (slept (wrap64 (Z.shiftl (hs_backoffBase s) attempt))) else mret tt) ;;
      match http_NewRequest (wb_URL wh) with
      | Err err => logDelivery (wb_ID wh) (wp_EventType p) 0 false (attempt + 1) (Error_ err)
      | Ok _ =>
          now ← hnow;
          r ← try (post (mkRequest (wb_URL wh) (setSignedHeaders now wh body) body));
          match r with
          | Err err => attempts wh p body todo lastStatusCode (Error_ err)
          | Ok sc =>
              if is_2xx sc then logDelivery (wb_ID wh) (wp_EventType p) sc true (attempt + 1) ""
              else attempts wh p body todo sc (http_text sc)
          end
      end
  end.

Definition deliver (wh : Webhook) (p : WebhookPayload F) : M unit :=
  match formatPayload (wb_IntegrationType wh) p with
  | Err err => logDelivery (wb_ID wh) (wp_EventType p) 0 false 0 (Error_ err)
  | Ok body => attempts wh p body [0; 1; 2] 0 ""
  end.

(** ** Events

    A Fire function reads the enabled endpoints once and starts a delivery for
    each that subscribed; the result is the deliveries started. *)

(** [now.Format(time.RFC3339)]. *)
Context (rfc3339 : Z -> string).

Definition fire (eventType : string) (payload : string -> WebhookPayload F) : M (list (Webhook * WebhookPayload F)) :=
  r ← try (hdb GetEnabled);
  match r with
  | Err _ => mret []
  | Ok [] => mret []
  | Ok webhooks =>
      now ← hnow;
      mret (map (fun wh => (wh, payload (rfc3339 now))) (List.filter (fun wh => webhookSubscribedTo (F := F) wh eventType) webhooks))
  end.

Definition FireUploadEvent (eventType : string) (upload : WebhookUploadData) :=
  fire eventType (fun ts => mkPayload eventType ts (Some upload) None None None None).
Definition FireSystemEvent (eventType : string) (data : WebhookSystemData F) :=
  fire eventType (fun ts => mkPayload eventType ts None (Some data) None None None).
Definition FireTagEvent (eventType uploadUUID : string) (tags : list (string * list string)) :=
  fire eventType (fun ts => mkPayload eventType ts None None (Some (mkTagData uploadUUID tags)) None None).
Definition FireCollectionEvent (eventType uploadUUID : string) (collectionID : Z) (collectionName : string) :=
  fire eventType (fun ts => mkPayload eventType ts None None None (Some (mkCollectionData uploadUUID collectionID collectionName)) None).
Definition FireAuthEvent (eventType : string) (data : WebhookAuthData) :=
  fire eventType (fun ts => mkPayload eventType ts None None None None (Some data)).

Definition FireTestPing (wh : Webhook) : M (Z * bool) :=
  now ← hnow;
  let payload := mkPayload "test_ping" (rfc3339 now) None None None None None in
  let refuse err := logDelivery (wb_ID wh) "test_ping" 0 false 1 (Error_ err) ;; fail err in
  match formatPayload (wb_IntegrationType wh) payload with
  | Err err => refuse err
  | Ok body =>
      match http_NewRequest (wb_URL wh) with
      | Err err => refuse err
      | Ok _ =>
          r ← try (post (mkRequest (wb_URL wh) (setSignedHeaders now wh body) body));
          match r with
          | Err err => refuse err
          | Ok sc =>
              let ok := is_2xx sc in
              logDelivery (wb_ID wh) "test_ping" sc ok 1 (if ok then "" else http_text sc) ;;
              mret (sc, ok)
          end
      end
  end.

(** ** The log and the dead letters *)

Definition newest_delivery (x y : WebhookDelivery) : bool := wd_CreatedAt y <=? wd_CreatedAt x.

Definition GetDeliveryLog (webhookID n : Z) : M (list WebhookDelivery) :=
  let n := if n <=? 0 then 20 else n in
  hdb (read (fun t => limit n (order_by newest_delivery (select (fun d => wd_WebhookID d =? webhookID) (ht_log t))))).

(** A stored second against a time of the zone of the server, both as text. *)
Definition bound_before (z : Zone) (cutoff at_ : Z) : bool := text_lt (db_text (civil_of at_)) (time_String z cutoff).

Definition PruneDeliveryLog (z : Zone) (olderThan : Z) : M Z :=
  hdb (write_ret (fun t =>
    let old d := bound_before z (ht_now t - olderThan) (wd_CreatedAt d) in
    (affected old (ht_log t), set_ht_log (delete_where old (ht_log t)) t))).

Definition newest_dead (x y : WebhookDeadLetter) : bool := dl_CreatedAt y <=? dl_CreatedAt x.
Definition unresolved (d : WebhookDeadLetter) : bool := bool_decide (dl_ResolvedAt d = None).

(** With the URL of the endpoint. *)
Definition ListDeadLetters (includeResolved : bool) (n : Z) : M (list (WebhookDeadLetter * string)) :=
  let n := if (n <=? 0) || (200 <? n) then 50 else n in
  hdb (read (fun t =>
    limit n (order_by (fun x y => newest_dead (fst x) (fst y))
      (flat_map (fun d => map (fun h => (d, wb_URL h)) (select (by_id (dl_WebhookID d)) (ht_hooks t)))
        (select (fun d => includeResolved || unresolved d) (ht_dead t)))))).

Definition getDeadLetter (id : Z) : M WebhookDeadLetter :=
  map_err (fun e => if errors_is e ErrNoRows then ESentinel ErrDeadLetterNotFound else e) (hdb (read_row (fun t => find_id id (ht_dead t)))).

Definition resolved_by_resend (sc at_ : Z) (d : WebhookDeadLetter) : WebhookDeadLetter :=
  mkDead (dl_ID d) (dl_WebhookID d) (dl_EventType d) (dl_Payload d) (Some sc) None (dl_Attempts d) (dl_ResendCount d + 1) (dl_IsAuth d)
    (dl_CreatedAt d) (Some at_).
Definition failed_resend (sc : Z) (err : string) (d : WebhookDeadLetter) : WebhookDeadLetter :=
  mkDead (dl_ID d) (dl_WebhookID d) (dl_EventType d) (dl_Payload d) (positive sc) (nonempty_text err) (dl_Attempts d) (dl_ResendCount d + 1)
    (dl_IsAuth d) (dl_CreatedAt d) (dl_ResolvedAt d).
Definition dismissed (at_ : Z) (d : WebhookDeadLetter) : WebhookDeadLetter :=
  mkDead (dl_ID d) (dl_WebhookID d) (dl_EventType d) (dl_Payload d) (dl_LastStatusCode d) (dl_LastError d) (dl_Attempts d) (dl_ResendCount d)
    (dl_IsAuth d) (dl_CreatedAt d) (Some at_).

Definition Resend (id : Z) : M unit :=
  dl ← getDeadLetter id;
  wh ← hdb (HookGetByID (dl_WebhookID dl));
  payload ← map_err (fun e => EWrap "decode dead-letter payload" [e]) (of_result (decode_payload (dl_Payload dl)));
  body ← of_result (formatPayload (wb_IntegrationType wh) payload);
  of_result (http_NewRequest (wb_URL wh)) ;;
  now ← hnow;
  r ← try (post (mkRequest (wb_URL wh) (setSignedHeaders now wh body) body));
  let '(sc, errMsg, ok) := match r with
    | Err derr => (0, Error_ derr, false)
    | Ok sc => (sc, if is_2xx sc then "" else http_text sc, is_2xx sc)
    end in
  logDelivery (wb_ID wh) (wp_EventType payload) sc ok (dl_ResendCount dl + 1) errMsg ;;
  if (ok : bool) then
    hdb (write (fun t => set_ht_dead (update (by_id id) (resolved_by_resend sc (ht_stamp t)) (ht_dead t)) t))
  else
    ignore (hdb (write (fun t => set_ht_dead (update (by_id id) (failed_resend sc errMsg) (ht_dead t)) t))) ;;
    fail (ENew ("resend failed: " +:+ errMsg)).

Definition ResolveDeadLetter (id : Z) : M unit :=
  n ← hdb (write_ret (fun t =>
    let q d := by_id id d && unresolved d in
    (affected q (ht_dead t), set_ht_dead (update q (dismissed (ht_stamp t)) (ht_dead t)) t)));
  if n =? 0 then getDeadLetter id ;; mret tt else mret tt.

Definition PruneDeadLetters (z : Zone) (olderThan : Z) : M Z :=
  hdb (write_ret (fun t =>
    let old d := match dl_ResolvedAt d with Some at_ => bound_before z (ht_now t - olderThan) at_ | None => false end in
    (affected old (ht_dead t), set_ht_dead (delete_where old (ht_dead t)) t))).
End delivery.
