(* ===== verification/HookLife.v ===== *)
(** * Webhooks: what a delivery does and what becomes of a dead letter *)

From stdpp Require Import pretty.
From Stdlib Require Import Ascii.
From S2P Require Import Prelude GoLib Hex Sql Stmt Clock AuditLog Webhooks.

Open Scope Z_scope.

Section delivery.
Context {F N : Type} {flt : Float64 F} {dec : Decoders F} {client : HttpClient N}.
Implicit Types s : HookState N.

(** What the statements of a delivery need to succeed. *)
Definition healthy s : Prop := sched (hs_db s) = [] /\ sched (hs_logs s) = [].

Definition known (wh : Webhook) s : Prop := hook_exists (tables (hs_db s)) (wb_ID wh) = true.

Definition delivered (r : result error Z) : bool := match r with Ok sc => is_2xx sc | Err _ => false end.

Definition status_of (r : result error Z) (before : Z) : Z := match r with Ok sc => sc | Err _ => before end.
Definition failure_text (r : result error Z) : string := match r with Ok sc => http_text sc | Err e => Error_ e end.

(** What the client answers to requests in order. *)
Fixpoint answers (reqs : list HttpRequest) (n : N) : list (result error Z) * N :=
  match reqs with
  | [] => ([], n)
  | q :: reqs => let '(r, n1) := http_Do q n in let '(rs, n2) := answers reqs n1 in (r :: rs, n2)
  end.

(** The pause before an attempt, and when the attempts start. *)
Definition pause (base : Z) (i : Z) : list Z := if 0 <? i then [wrap64 (Z.shiftl base i)] else [].

Fixpoint starts (base now : Z) (todo : list Z) : list Z :=
  match todo with
  | [] => []
  | i :: todo => let t := now + sum_by (fun d => d) (pause base i) in t :: starts base t todo
  end.

Definition request (wh : Webhook) (body : string) (t : Z) : HttpRequest := mkRequest (wb_URL wh) (setSignedHeaders t wh body) body.

Lemma set_tables_same {T} (w : World T) : set_tables (tables w) w = w.
Proof. by destruct w. Qed.

Lemma logDelivery_healthy wid ev sc ok n msg s : sched (hs_db s) = [] -> hook_exists (tables (hs_db s)) wid = true ->
  logDelivery wid ev sc ok n msg s =
    let t := tables (hs_db s) in
    (Ok tt, put_hs_db (mkWorld (set_ht_log (ht_log t ++ [mkDelivery (ht_seq_log t + 1) wid ev (positive sc) ok n (nonempty_text msg) (ht_stamp t)])
      (set_ht_seq_log (ht_seq_log t + 1) t)) []) s).
Proof.
  intros Hs Hw. unfold logDelivery, ignore, hdb, zoom, write_if, mbind, ST_bind, get. rewrite round_trip_healthy by done. cbn.
  unfold insert_delivery, constrained. rewrite Hw. cbn. unfold set_tables. by rewrite Hs.
Qed.

Definition dead_row (wh : Webhook) (p : WebhookPayload F) (json : string) (sc : Z) (err : string) (t : HookTables) : WebhookDeadLetter :=
  mkDead (ht_seq_dead t + 1) (wb_ID wh) (wp_EventType p) json (positive sc) (nonempty_text err) 3 0 (is_auth_event (wp_EventType p)) (ht_stamp t) None.

Lemma recordDeadLetter_healthy wh p sc err s json : healthy s -> known wh s -> Marshal p = Ok json ->
  exists s', recordDeadLetter wh p sc err s = (Ok tt, s') /\
    let t := tables (hs_db s) in
    tables (hs_db s') = set_ht_dead (ht_dead t ++ [dead_row wh p json sc err t]) (set_ht_seq_dead (ht_seq_dead t + 1) t) /\
    hs_net s' = hs_net s /\ hs_sent s' = hs_sent s /\ hs_slept s' = hs_slept s /\
    if is_auth_event (wp_EventType p) then exists r, system_log (tables (hs_logs s')) = system_log (tables (hs_logs s)) ++ [r] /\ s_level r = "error"
    else hs_logs s' = hs_logs s.
Proof.
  intros [Hd Hl] Hk Hj. unfold recordDeadLetter, dead_row. rewrite Hj. unfold mbind, ST_bind, try, hdb, zoom, write_if, get.
  unfold mbind, ST_bind. rewrite round_trip_healthy by done. cbn. unfold insert_dead, constrained. red in Hk. rewrite Hk. cbn.
  destruct (is_auth_event (wp_EventType p)); [|eexists; split; [reflexivity|]; cbn; done].
  unfold ignore, hlogs, zoom, WriteSystem, write, mbind, ST_bind. cbn. rewrite round_trip_healthy by done. cbn.
  eexists. split; [done|]. cbn. split_and!; try done. by eexists.
Qed.

Definition log_row (wh : Webhook) (p : WebhookPayload F) (sc : Z) (ok : bool) (n : Z) (msg : string) (t : HookTables) : WebhookDelivery :=
  mkDelivery (ht_seq_log t + 1) (wb_ID wh) (wp_EventType p) (positive sc) ok n (nonempty_text msg) (ht_stamp t).

(** The tables when a delivery of pauses [ds] ends. *)
Definition later (ds : list Z) (t : HookTables) : HookTables := set_ht_now (ht_now t + sum_by (fun d => d) ds) t.

(** How a delivery ended: at a first 2xx answer, logged as a success, or after
    the last attempt, logged as a failure and kept as a dead letter. *)
Definition ended (wh : Webhook) (p : WebhookPayload F) (json : string) (todo : list Z) (rs : list (result error Z)) (sc0 : Z) (err0 : string)
    s s' (t : HookTables) : Prop :=
  let t' := tables (hs_db s') in
  (exists sc, rs <> [] /\ forallb (fun r => negb (delivered r)) (removelast rs) = true /\ last rs = Some (Ok sc) /\ is_2xx sc = true /\
     ht_log t' = ht_log t ++ [log_row wh p sc true (nth (length rs - 1) todo 0 + 1) "" t] /\ ht_dead t' = ht_dead t /\ hs_logs s' = hs_logs s) \/
  (length rs = length todo /\ forallb (fun r => negb (delivered r)) rs = true /\
     let sc := fold_left (fun b r => status_of r b) rs sc0 in
     let err := match last rs with Some r => failure_text r | None => err0 end in
     ht_log t' = ht_log t ++ [log_row wh p sc false 3 err t] /\ ht_dead t' = ht_dead t ++ [dead_row wh p json sc err t] /\
     if is_auth_event (wp_EventType p) then exists r, system_log (tables (hs_logs s')) = system_log (tables (hs_logs s)) ++ [r] /\ s_level r = "error"
     else hs_logs s' = hs_logs s).

Definition concluded (wh : Webhook) (p : WebhookPayload F) (body json : string) (todo : list Z) (sc0 : Z) (err0 : string) s s' : Prop :=
  exists rs,
    let k := length rs in
    let base := hs_backoffBase s in
    let now := ht_now (tables (hs_db s)) in
    let reqs := map (request wh body) (firstn k (starts base now todo)) in
    let ds := flat_map (pause base) (firstn k todo) in
    (k <= length todo)%nat /\ answers reqs (hs_net s) = (rs, hs_net s') /\
    hs_sent s' = hs_sent s ++ reqs /\ hs_slept s' = hs_slept s ++ ds /\
    ended wh p json todo rs sc0 err0 s s' (later ds (tables (hs_db s))).

Lemma fold_last_cons {A} (x : A) (l : list A) : last (x :: l) = match last l with Some y => Some y | None => Some x end.
Proof. destruct l as [|y l]; [done|]. cbn. revert y. induction l as [|z l IH]; intros y; [done|]. apply IH. Qed.

Lemma removelast_cons {A} (x : A) (l : list A) : l <> [] -> removelast (x :: l) = x :: removelast l.
Proof. by destruct l. Qed.

(** The pause of an attempt, run. *)
Lemma pause_run i s : (if 0 <? i then s ← get; modify (E := error) (slept (wrap64 (Z.shiftl (hs_backoffBase s) i))) else mret tt) s =
  (Ok tt, match pause (hs_backoffBase s) i with d :: _ => slept d s | [] => s end).
Proof. unfold pause. by destruct (0 <? i). Qed.

Lemma later_app a b t : later (a ++ b) t = later b (later a t).
Proof. unfold later, set_ht_now. cbn. by rewrite sum_by_app, Z.add_assoc. Qed.

(** The state when an attempt posts. *)
Definition at_attempt i s : HookState N := match pause (hs_backoffBase s) i with d :: _ => slept d s | [] => s end.

Lemma at_attempt_spec i s : let s1 := at_attempt i s in
  tables (hs_db s1) = later (pause (hs_backoffBase s) i) (tables (hs_db s)) /\ sched (hs_db s1) = sched (hs_db s) /\ hs_logs s1 = hs_logs s /\
  hs_net s1 = hs_net s /\ hs_sent s1 = hs_sent s /\ hs_slept s1 = hs_slept s ++ pause (hs_backoffBase s) i /\ hs_backoffBase s1 = hs_backoffBase s.
Proof.
  unfold at_attempt, pause. destruct (0 <? i); cbn; unfold later; cbn; rewrite ?Z.add_0_r, ?app_nil_r; split_and!; try done.
  by destruct (tables (hs_db s)).
Qed.

Lemma post_run q s : post q s = let '(r, n1) := http_Do q (hs_net s) in (r, put_hs_net n1 (note_sent q s)).
Proof. done. Qed.

(** One attempt. *)
Lemma attempts_cons wh p body i todo sc0 err0 s : http_NewRequest (wb_URL wh) = Ok tt ->
  attempts wh p body (i :: todo) sc0 err0 s =
  let s1 := at_attempt i s in
  let q := request wh body (ht_now (tables (hs_db s1))) in
  let '(r, n1) := http_Do q (hs_net s1) in
  let s2 := put_hs_net n1 (note_sent q s1) in
  if delivered r then logDelivery (wb_ID wh) (wp_EventType p) (status_of r 0) true (i + 1) "" s2
  else attempts wh p body todo (status_of r sc0) (failure_text r) s2.
Proof.
  intros Hr. cbn [attempts]. unfold mbind at 1, ST_bind at 1. rewrite pause_run, Hr. fold (at_attempt i s).
  cbv zeta. set (s1 := at_attempt i s). unfold mbind at 1, ST_bind at 1, hnow, gets. fold (request wh body (ht_now (tables (hs_db s1)))).
  unfold mbind, ST_bind, try. rewrite post_run. destruct (http_Do _ _) as [[sc|e] n1]; [|done]. cbn. by destruct (is_2xx sc).
Qed.

Lemma ended_cons wh p json i todo r rs sc0 err0 s s1 s' t : delivered r = false -> hs_logs s1 = hs_logs s ->
  ended wh p json todo rs (status_of r sc0) (failure_text r) s1 s' t -> ended wh p json (i :: todo) (r :: rs) sc0 err0 s s' t.
Proof.
  intros Hdel HL [(sc & Hne & Hf & Hlast & H2 & Hlog & Hdead & Hsys)|(Hlen & Hf & Hlog & Hdead & Hsys)].
  - left. exists sc. rewrite fold_last_cons, Hlast, removelast_cons by done. cbn. rewrite Hdel, Hf. split_and!; try done; [|congruence].
    rewrite Hlog. do 3 f_equal. destruct rs as [|r' rs]; [done|]. cbn. by rewrite Nat.sub_0_r.
  - right. rewrite fold_last_cons. cbn. rewrite Hlen, Hf, Hdel, HL in *. split_and!; try done; rewrite ?Hlog, ?Hdead; by destruct (last rs).
Qed.

Lemma known_later wh ds s s1 : tables (hs_db s1) = later ds (tables (hs_db s)) -> known wh s -> known wh s1.
Proof. unfold known. by intros ->. Qed.

Lemma attempts_run wh p body json : http_NewRequest (wb_URL wh) = Ok tt -> Marshal p = Ok json -> forall todo sc0 err0 s,
  healthy s -> known wh s -> exists s', attempts wh p body todo sc0 err0 s = (Ok tt, s') /\ concluded wh p body json todo sc0 err0 s s'.
Proof.
  intros Hr Hj. induction todo as [|i todo IH]; intros sc0 err0 s [Hd Hl] Hk.
  - cbn [attempts]. unfold mbind, ST_bind. rewrite logDelivery_healthy by done. cbv zeta.
    set (s1 := put_hs_db _ s). destruct (recordDeadLetter_healthy wh p sc0 err0 s1 json) as (s' & -> & Ht & Hn & Hs & Hp & Ha); [done|done|done|].
    exists s'. split; [done|]. exists []. cbn. rewrite !app_nil_r. split_and!; [lia|by rewrite Hn|done|done|].
    right. split_and!; try done; rewrite ?Ht; unfold later; cbn; by rewrite Z.add_0_r.
  - rewrite attempts_cons by done. cbv zeta. destruct (at_attempt_spec i s) as (T1 & C1 & L1 & N1 & S1 & P1 & B1).
    set (s1 := at_attempt i s) in *. remember (request wh body (ht_now (tables (hs_db s1)))) as q eqn:Hq. rewrite T1 in Hq. cbn in Hq.
    destruct (http_Do q (hs_net s1)) as [r n1] eqn:Eq.
    set (s2 := put_hs_net n1 (note_sent q s1)).
    assert (healthy s2 /\ known wh s2) as [Hh2 Hk2].
    { split; [split; cbn; congruence|]. by apply (known_later wh (pause (hs_backoffBase s) i) s). }
    destruct (delivered r) eqn:Hdel.
    + destruct Hh2 as [Hd2 _]. rewrite logDelivery_healthy by done. eexists. split; [done|]. exists [r]. cbn.
      rewrite <- N1, S1, P1, app_nil_r, <- Hq, Eq. split_and!; [lia|done|done|done|].
      destruct r as [sc|]; [|done]. left. exists sc. cbn. rewrite T1. by split_and!.
    + destruct (IH (status_of r sc0) (failure_text r) s2 Hh2 Hk2) as (s' & -> & rs & Hlen & Ha & Hsent & Hslept & Hend).
      exists s'. split; [done|]. exists (r :: rs). cbn in Ha, Hsent, Hslept, Hend |- *. rewrite B1 in Ha, Hsent, Hslept, Hend. rewrite T1 in Ha, Hsent, Hend.
      rewrite <- N1, <- Hq, Eq. cbn in Ha. rewrite Ha. rewrite Hsent, S1, Hslept, P1, <- !app_assoc. split_and!; [lia|done|done|done|].
      rewrite later_app. by apply (ended_cons wh p json i todo r rs sc0 err0 s s2).
Qed.

(** C12. A delivery posts the formatted payload, signed anew each time, at most
    three times, with the doubling pauses between, and stops at the first 2xx
    answer. It ends with exactly one row in the delivery log; only when all three
    attempts failed it also ends with exactly one dead letter that holds the
    whole payload, and for an auth event with an error in the system log. *)
Theorem deliver_outcome (wh : Webhook) (p : WebhookPayload F) (body json : string) (s : HookState N)
    (Hb : formatPayload (wb_IntegrationType wh) p = Ok body) (Hj : Marshal p = Ok json) (Hr : http_NewRequest (wb_URL wh) = Ok tt)
    (Hh : healthy s) (Hk : known wh s) :
  exists s', deliver wh p s = (Ok tt, s') /\ concluded wh p body json [0; 1; 2] 0 "" s s'.
Proof. unfold deliver. rewrite Hb. by apply attempts_run. Qed.
End delivery.

(** ** Dead letters *)

Section kept.
Context {F N : Type} {flt : Float64 F} {dec : Decoders F} {client : HttpClient N} (rfc3339 : Z -> string).
Context (id wid : Z) (payload : string).

(** The letter is in the queue, unresolved, with its payload. *)
Definition actionable (t : HookTables) : Prop :=
  exists d, In d (ht_dead t) /\ dl_ID d = id /\ dl_WebhookID d = wid /\ dl_Payload d = payload /\ dl_ResolvedAt d = None.

Abbreviation stays := (keeps actionable).
Definition hstays (s s' : HookState N) : Prop := stays (tables (hs_db s)) (tables (hs_db s')).

#[export] Instance hstays_preorder : PreOrder hstays.
Proof. split; unfold hstays, keeps; [by intros s|]. intros a b c. auto. Qed.

Lemma stays_dead (f : HookTables -> HookTables) t : ht_dead (f t) = ht_dead t -> stays t (f t).
Proof. intros E (d & Hd & H). exists d. by rewrite E. Qed.

Lemma stays_update q g t : (forall d, q d = true -> dl_ID d = id -> dl_ResolvedAt d = None -> False) ->
  (forall t', t' = set_ht_dead (update q g (ht_dead t)) t -> stays t t').
Proof.
  intros Hq t' -> (d & Hd & Hid & Hrest). exists d. split; [|done]. cbn. apply in_update. exists d. split; [done|]. right. split; [|done].
  destruct (q d) eqn:E; [|done]. destruct Hrest as (_ & _ & Hr). by destruct (Hq d).
Qed.

Lemma hdb_stays {A} (m : HookM A) : steps (on_tables stays) m -> steps hstays (hdb (N := N) m).
Proof. intros H. apply (steps_zoom hstays (on_tables stays)); [|done]. by intros s w Hw. Qed.

Lemma hlogs_stays {A} (m : LogM A) : steps hstays (hlogs (N := N) m).
Proof. apply (steps_zoom hstays (fun _ _ => True)); [|by intros w; destruct (m w)]. by intros s w _ Hs. Qed.

Lemma post_stays q : steps hstays (post q).
Proof. intros s. rewrite post_run. destruct (http_Do q (hs_net s)). by intros Hs. Qed.

Lemma logDelivery_stays w ev sc ok n msg : steps hstays (logDelivery (N := N) w ev sc ok n msg).
Proof.
  unfold logDelivery. apply steps_ignore, hdb_stays, steps_write_if; [apply _|]. intros t a t' H. unfold insert_delivery in H.
  apply constrained_ok in H as (E & _). injection E as _ <-. by apply (stays_dead (fun _ => _)).
Qed.

Lemma recordDeadLetter_stays wh (p : WebhookPayload F) sc err : steps hstays (recordDeadLetter (N := N) wh p sc err).
Proof.
  unfold recordDeadLetter. destruct (Marshal p) as [body|]; [|apply steps_ret, _]. apply steps_bind; [apply _| |intros [[]|e]].
  - apply steps_try, hdb_stays, steps_write_if; [apply _|]. intros t a t' H. unfold insert_dead in H.
    apply constrained_ok in H as (E & _). injection E as _ <-. intros (d & Hd & H). exists d. cbn. rewrite in_app_iff. auto.
  - destruct (is_auth_event _); [apply steps_ignore, hlogs_stays|apply steps_ret, _].
  - apply steps_ret, _.
Qed.

#[local] Hint Resolve hdb_stays hlogs_stays post_stays logDelivery_stays recordDeadLetter_stays : steps_db.

Lemma attempts_stays wh (p : WebhookPayload F) body todo : forall sc err, steps hstays (attempts (N := N) wh p body todo sc err).
Proof.
  induction todo as [|i todo IH]; intros sc err; cbn [attempts]; unfold hnow; steps_go; try apply IH.
  apply steps_modify. intros s. by apply (stays_dead (fun _ => _)).
Qed.

Lemma deliver_stays wh (p : WebhookPayload F) : steps hstays (deliver (N := N) wh p).
Proof. unfold deliver. destruct (formatPayload _ _); [apply attempts_stays|apply logDelivery_stays]. Qed.

Lemma FireTestPing_stays wh : steps hstays (FireTestPing (F := F) (N := N) rfc3339 wh).
Proof. unfold FireTestPing. cbv zeta. unfold hnow. steps_go. Qed.

Lemma getDeadLetter_stays i : steps hstays (getDeadLetter (N := N) i).
Proof. unfold getDeadLetter. apply steps_map_err, hdb_stays, steps_read_row, _. Qed.

(** The letter a resend or a dismissal names. *)
Lemma update_other i q g t : i <> id -> (forall d, q d = true -> by_id i d = true) -> stays t (set_ht_dead (update q g (ht_dead t)) t).
Proof.
  intros Hne Hq. apply (stays_update q g); [|done]. intros d Hd Hid _. apply Hq, Z.eqb_eq in Hd.
  apply Hne. by rewrite <- Hd, <- Hid.
Qed.

Lemma ResolveDeadLetter_stays i : i <> id -> steps hstays (ResolveDeadLetter (N := N) i).
Proof.
  intros Hne. unfold ResolveDeadLetter. apply steps_bind; [apply _| |intros n; pose proof (getDeadLetter_stays i); steps_go].
  apply hdb_stays, steps_write_ret; [apply _|]. intros t. apply (update_other i); [done|]. by intros d [H _]%andb_prop.
Qed.

Lemma Resend_stays i : i <> id -> steps hstays (Resend (F := F) (N := N) i).
Proof.
  intros Hne. unfold Resend. pose proof (getDeadLetter_stays i) as Hg. unfold hnow, HookGetByID. steps_go; try done.
  all: apply hdb_stays, steps_write; [apply _|]; intros t; by apply (update_other i).
Qed.

(** A call that fails keeps the letter. *)
Definition stays_on_error {A} (m : ST error (HookState N) A) : Prop := forall s e s', m s = (Err e, s') -> hstays s s'.

Lemma stays_error_steps {A} (m : ST error (HookState N) A) : steps hstays m -> stays_on_error m.
Proof. intros H s e s' E. by apply (steps_run _ _ _ _ _ H E). Qed.

Lemma stays_error_bind {A B} (m : ST error (HookState N) A) (f : A -> ST error (HookState N) B) :
  steps hstays m -> (forall a, stays_on_error (f a)) -> stays_on_error (m ≫= f).
Proof.
  intros Hm Hf s e s'. unfold mbind, ST_bind. destruct (m s) as [[a|e1] s1] eqn:E; apply (steps_run _ _ _ _ _ Hm) in E.
  - intros H. etransitivity; [done|]. by apply (Hf a _ e).
  - by intros [= _ <-].
Qed.

Lemma failed_resend_stays i sc err t : stays t (set_ht_dead (update (by_id i) (failed_resend sc err) (ht_dead t)) t).
Proof.
  intros (d & Hd & Hid & Hw & Hp & Hr). destruct (by_id i d) eqn:E.
  - exists (failed_resend sc err d). cbn. split; [|done]. apply in_update. exists d. auto.
  - exists d. cbn. split; [|done]. apply in_update. exists d. auto.
Qed.

Lemma Resend_failed i : stays_on_error (Resend (F := F) i).
Proof.
  unfold Resend. pose proof (getDeadLetter_stays i) as Hg. unfold hnow, HookGetByID.
  do 7 (apply stays_error_bind; [steps_go; done|intros ?]).
  destruct (match a5 with Ok sc => _ | Err derr => _ end) as [[sc errMsg] ok].
  apply stays_error_bind; [steps_go|intros _]. destruct ok.
  - intros s e s' H. unfold hdb, zoom in H. destruct (write _ (hs_db s)) as [r w] eqn:E. injection H as -> <-.
    apply write_run in E as [[[=] _]|(e' & _ & E)]. intros Ha. cbn. by rewrite E.
  - apply stays_error_steps, steps_bind; [apply _|apply steps_ignore, hdb_stays, steps_write; [apply _|]; intros t; apply failed_resend_stays|].
    intros _. apply steps_fail, _.
Qed.

Lemma PruneDeadLetters_stays z d : steps hstays (PruneDeadLetters (N := N) z d).
Proof.
  apply hdb_stays, steps_write_ret; [apply _|]. intros t (r & Hr & Hrest). exists r. split; [|done]. cbn. apply in_delete. split; [done|].
  destruct Hrest as (_ & _ & _ & ->). done.
Qed.

Lemma PruneDeliveryLog_stays z d : steps hstays (PruneDeliveryLog (N := N) z d).
Proof. apply hdb_stays, steps_write_ret; [apply _|]. intros t. by apply (stays_dead (fun _ => _)). Qed.

Lemma GetByID_stays i : steps (on_tables stays) (HookGetByID i).
Proof. unfold HookGetByID. apply steps_map_err, steps_read_row, _. Qed.

Lemma HookCreate_stays raw u ty ev : steps (on_tables stays) (HookCreate (F := F) raw u ty ev).
Proof.
  unfold HookCreate. pose proof GetByID_stays. steps_go; try done.
  apply steps_write_if; [apply _|]. intros t x t' Hx. apply constrained_ok in Hx as (E & _). injection E as _ <-. by apply (stays_dead (fun _ => _)).
Qed.

Lemma HookUpdate_stays i u ty ev en : steps (on_tables stays) (HookUpdate (F := F) i u ty ev en).
Proof.
  unfold HookUpdate. pose proof GetByID_stays. steps_go; try done.
  apply steps_write_if; [apply _|]. intros t x t' Hx. apply constrained_ok in Hx as (E & _). injection E as _ <-. by apply (stays_dead (fun _ => _)).
Qed.

Lemma RotateSecret_stays raw i : steps (on_tables stays) (RotateSecret raw i).
Proof.
  unfold RotateSecret. steps_go. apply steps_write_ret; [apply _|]. intros t. by apply (stays_dead (fun _ => _)).
Qed.

Lemma HookDelete_stays i : i <> wid -> steps (on_tables stays) (HookDelete i).
Proof.
  intros Hne. unfold HookDelete. steps_go. apply steps_write_ret; [apply _|]. intros t (d & Hd & Hrest). exists d. split; [|done]. cbn.
  apply in_delete. split; [done|]. destruct Hrest as (_ & -> & _). by apply Z.eqb_neq.
Qed.
End kept.

(** Every call of the two services that writes. *)
Inductive hook_op (F : Type) :=
| OpDeliver (wh : Webhook) (p : WebhookPayload F)
| OpTestPing (wh : Webhook)
| OpResend (id : Z)
| OpResolve (id : Z)
| OpPruneDead (z : Zone) (olderThan : Z)
| OpPruneLog (z : Zone) (olderThan : Z)
| OpCreate (raw : result error (list Z)) (url ty events : string)
| OpUpdate (id : Z) (url ty events : string) (enabled : bool)
| OpRotate (raw : result error (list Z)) (id : Z)
| OpDelete (id : Z).
Arguments OpDeliver {F} _ _.
Arguments OpTestPing {F} _.
Arguments OpResend {F} _.
Arguments OpResolve {F} _.
Arguments OpPruneDead {F} _ _.
Arguments OpPruneLog {F} _ _.
Arguments OpCreate {F} _ _ _ _.
Arguments OpUpdate {F} _ _ _ _ _.
Arguments OpRotate {F} _ _.
Arguments OpDelete {F} _.

Section histories.
Context {F N : Type} {flt : Float64 F} {dec : Decoders F} {client : HttpClient N} (rfc3339 : Z -> string).
Implicit Types s : HookState N.

(** Whether the call succeeded, and the state after it. *)
Definition done_by {A} (m : ST error (HookState N) A) s : bool * HookState N := let '(r, s') := m s in (is_ok r, s').

Definition run_hook_op (op : hook_op F) s : bool * HookState N :=
  match op with
  | OpDeliver wh p => done_by (deliver wh p) s
  | OpTestPing wh => done_by (FireTestPing (F := F) rfc3339 wh) s
  | OpResend id => done_by (Resend (F := F) id) s
  | OpResolve id => done_by (ResolveDeadLetter id) s
  | OpPruneDead z d => done_by (PruneDeadLetters z d) s
  | OpPruneLog z d => done_by (PruneDeliveryLog z d) s
  | OpCreate raw u ty ev => done_by (hdb (HookCreate (F := F) raw u ty ev)) s
  | OpUpdate id u ty ev en => done_by (hdb (HookUpdate (F := F) id u ty ev en)) s
  | OpRotate raw id => done_by (hdb (RotateSecret raw id)) s
  | OpDelete id => done_by (hdb (HookDelete id)) s
  end.

(** The calls of a history that take the letter off the queue: a resend that
    was answered with a 2xx, a dismissal, the deletion of its endpoint. *)
Definition releases (id wid : Z) (op : hook_op F) (ok : bool) : bool :=
  match op with
  | OpResend i => (i =? id) && ok
  | OpResolve i => i =? id
  | OpDelete w => w =? wid
  | _ => false
  end.

Fixpoint run_hook_ops (id wid : Z) (ops : list (hook_op F)) s : bool * HookState N :=
  match ops with
  | [] => (false, s)
  | op :: ops =>
      let '(ok, s1) := run_hook_op op s in
      let '(released, s2) := run_hook_ops id wid ops s1 in
      (releases id wid op ok || released, s2)
  end.

Lemma done_by_stays {A} id wid payload (m : ST error (HookState N) A) s :
  steps (hstays id wid payload) m -> hstays id wid payload s (snd (done_by m s)).
Proof. intros H. specialize (H s). unfold done_by. by destruct (m s). Qed.

Lemma run_hook_op_stays id wid payload op s :
  releases id wid op (fst (run_hook_op op s)) = false -> hstays id wid payload s (snd (run_hook_op op s)).
Proof.
  destruct op as [wh p|wh|i|i|d|d|raw u ty ev|i u ty ev en|raw i|i]; cbn [releases run_hook_op]; intros H.
  - apply done_by_stays, deliver_stays.
  - apply done_by_stays, FireTestPing_stays.
  - destruct (Z.eqb_spec i id) as [->|Hne]; [|by apply done_by_stays, Resend_stays].
    unfold done_by in *. destruct (Resend id s) as [[x|e] s'] eqn:E; [done|]. by apply (Resend_failed id wid payload) in E.
  - apply done_by_stays, ResolveDeadLetter_stays. by apply Z.eqb_neq.
  - apply done_by_stays, PruneDeadLetters_stays.
  - apply done_by_stays, PruneDeliveryLog_stays.
  - apply done_by_stays, hdb_stays, HookCreate_stays.
  - apply done_by_stays, hdb_stays, HookUpdate_stays.
  - apply done_by_stays, hdb_stays, RotateSecret_stays.
  - apply done_by_stays, hdb_stays, HookDelete_stays. by apply Z.eqb_neq.
Qed.

(** A dead letter is never lost: under every history of the webhook services
    and every schedule of database errors and answers, it stays in the queue,
    unresolved and with its payload, until a resend of it succeeds, an operator
    dismisses it, or its endpoint is deleted. Age does not remove it. *)
Theorem dead_letter_kept (id wid : Z) (payload : string) (ops : list (hook_op F)) (s s' : HookState N)
    (H : actionable id wid payload (tables (hs_db s))) (Hrun : run_hook_ops id wid ops s = (false, s')) :
  actionable id wid payload (tables (hs_db s')).
Proof.
  revert s H Hrun. induction ops as [|op ops IH]; intros s H; cbn [run_hook_ops]; [by intros [= <-]|].
  pose proof (run_hook_op_stays id wid payload op s) as Hop. destruct (run_hook_op op s) as [ok s1].
  destruct (run_hook_ops id wid ops s1) as [rel s2] eqn:E. intros [= Hrel <-]. apply orb_false_elim in Hrel as [Hr ->].
  apply (IH s1); [|done]. by apply Hop.
Qed.
End histories.

(** ** A client that refuses twice *)

(** The world is the answers to come. *)
#[local] Instance scripted : HttpClient (list (result error Z)) := {|
  http_NewRequest := fun _ => Ok tt;
  http_Do := fun _ n => match n with r :: n => (r, n) | [] => (Err (ENew "connection refused"), []) end;
|}.

#[local] Instance no_floats : Float64 unit := {| json_float := fun _ => Ok "0"; fixed1 := fun _ => "0.0" |}.

#[local] Instance plain_decoders : Decoders unit := {|
  url_Parse := fun _ => Ok ("https", "hooks.example.com");
  decode_events := fun _ => Ok ["completed"; "auth.password_reset"];
  decode_payload := fun t => Ok (mkPayload "auth.password_reset" t None None None None (Some (mkAuthData "a@x" "https://x/r")));
|}.

Definition test_hook : Webhook := mkWebhook 1 "https://hooks.example.com/T0/s3cret" "generic" true "" "whsec_00" 0 0.

Definition reset_event : WebhookPayload unit :=
  mkPayload "auth.password_reset" "2023-11-14T22:13:20Z" None None None None (Some (mkAuthData "a@x" "https://x/r?t=1&u=2")).

Definition hook_state (rs : list (result error Z)) : HookState (list (result error Z)) :=
  mkHookState (mkWorld (mkHooks [test_hook] 1 [] 0 [] 0 (1700000000 * hook_second)) [])
    (mkWorld (mkLogs [] 0 [] 0 [] 0 [] 0 (mkCivil 2023 11 14 22 13 20)) []) rs [] [] hook_second.

Definition reset_json : string := Eval vm_compute in match Marshal reset_event with Ok b => b | Err _ => "" end.

Example deliver_outcome_witness : exists s',
  deliver test_hook reset_event (hook_state [Ok 503; Err (ENew "timeout"); Ok 500]) = (Ok tt, s') /\
  concluded test_hook reset_event reset_json reset_json [0; 1; 2] 0 "" (hook_state [Ok 503; Err (ENew "timeout"); Ok 500]) s'.
Proof. apply (deliver_outcome test_hook reset_event reset_json reset_json); vm_compute; done. Defined.

(** The second attempt gets through. *)
Example deliver_retries :
  let s' := snd (deliver test_hook reset_event (hook_state [Ok 503; Ok 204])) in
  length (hs_sent s') = 2%nat /\ hs_slept s' = [2 * hook_second] /\
  map (fun d => (wd_Success d, wd_Attempts d, wd_StatusCode d)) (ht_log (tables (hs_db s'))) = [(true, 2, Some 204)] /\
  ht_dead (tables (hs_db s')) = [].
Proof. vm_compute. done. Qed.

(** A letter, a resend that fails, a prune, another delivery. *)
Definition after_failure : HookState (list (result error Z)) :=
  Eval vm_compute in snd (deliver test_hook reset_event (hook_state [Ok 500; Ok 500; Ok 500; Ok 502; Ok 200])).

Definition no_stamp (_ : Z) : string := "".

Definition hook_history : list (hook_op unit) := [OpResend 1; OpPruneDead (mkZone 0 "+0000 UTC") 0; OpDeliver test_hook reset_event; OpDelete 2].

Example dead_letter_kept_witness : actionable 1 1 reset_json (tables (hs_db (snd (run_hook_ops no_stamp 1 1 hook_history after_failure)))).
Proof.
  apply (dead_letter_kept no_stamp 1 1 reset_json hook_history after_failure).
  - eexists. split; [left; reflexivity|]. vm_compute. done.
  - vm_compute. reflexivity.
Defined.

(** The resend that is answered resolves it. *)
Example resend_resolves :
  let s := snd (Resend (F := unit) 1 after_failure) in
  map dl_ResolvedAt (ht_dead (tables (hs_db s))) = [None] /\
  map dl_ResolvedAt (ht_dead (tables (hs_db (snd (Resend (F := unit) 1 s))))) = [Some 1700000006].
Proof. vm_compute. done. Qed.
