(* ===== verification/Limiter.v ===== *)
(** * Admission control

    The rate limiter of src/internal/middleware/ratelimit.go and the gate that
    bounds concurrent downloads, src/internal/handlers/download_gate.go. Both
    are a counter behind a mutex, so a history is a sequence of their critical
    sections; times are nanoseconds. *)

From stdpp Require Import gmap strings.
From S2P Require Import Prelude GoLib.

Open Scope Z_scope.

Module RateLimit.

Record rateLimitEntry := mkEntry { e_count : Z; e_resetAt : Z }.

Record RateLimitResult := mkResult { rr_Allowed : bool; rr_Limit : Z; rr_Remaining : Z; rr_ResetAt : Z }.

Record RateLimiter := mkLimiter { rl_entries : gmap string rateLimitEntry; rl_max : Z; rl_window : Z }.

Definition NewRateLimiter (max window : Z) : RateLimiter := mkLimiter ∅ max window.

Definition set_entries (m : gmap string rateLimitEntry) (rl : RateLimiter) : RateLimiter := mkLimiter m (rl_max rl) (rl_window rl).

(** [now.After(e.resetAt)]. *)
Definition over (now : Z) (e : rateLimitEntry) : bool := e_resetAt e <? now.

Definition cleanup (now : Z) (rl : RateLimiter) : RateLimiter :=
  set_entries (filter (fun '(_, e) => over now e = false) (rl_entries rl)) rl.

Definition Check (now : Z) (key : string) (rl : RateLimiter) : RateLimitResult * RateLimiter :=
  match match rl_entries rl !! key with Some e => if over now e then None else Some e | None => None end with
  | None =>
      (mkResult true (rl_max rl) (sub64 (rl_max rl) 1) (now + rl_window rl),
       set_entries (<[key := mkEntry 1 (now + rl_window rl)]> (rl_entries rl)) rl)
  | Some e =>
      let count := add64 (e_count e) 1 in
      let remaining := sub64 (rl_max rl) count in
      (mkResult (count <=? rl_max rl) (rl_max rl) (if remaining <? 0 then 0 else remaining) (e_resetAt e),
       set_entries (<[key := mkEntry count (e_resetAt e)]> (rl_entries rl)) rl)
  end.

Definition Allow (now : Z) (key : string) (rl : RateLimiter) : bool * RateLimiter :=
  let '(r, rl) := Check now key rl in (rr_Allowed r, rl).

(** ** Histories *)

Inductive event := ECheck (now : Z) (key : string) | ECleanup (now : Z).

Definition when (e : event) : Z := match e with ECheck t _ => t | ECleanup t => t end.

(** The answers to the checks, in order, with their time and key. *)
Fixpoint run (es : list event) (rl : RateLimiter) : list (Z * string * bool) :=
  match es with
  | [] => []
  | ECheck t k :: es => let '(r, rl) := Check t k rl in (t, k, rr_Allowed r) :: run es rl
  | ECleanup t :: es => run es (cleanup t rl)
  end.

(** Time does not go back. *)
Fixpoint ordered (from : Z) (es : list event) : Prop :=
  match es with
  | [] => True
  | e :: es => from <= when e /\ ordered (when e) es
  end.

Definition granted (k : string) (from to : Z) (a : Z * string * bool) : bool :=
  let '(t, k', ok) := a in String.eqb k' k && (from <=? t) && (t <=? to) && ok.

Definition asked (k : string) (from to : Z) (a : Z * string * bool) : bool :=
  let '(t, k', _) := a in String.eqb k' k && (from <=? t) && (t <=? to).

Definition count (p : Z * string * bool -> bool) (l : list (Z * string * bool)) : Z := Z.of_nat (length (List.filter p l)).

Lemma count_cons p a l : count p (a :: l) = (if p a then 1 else 0) + count p l.
Proof. unfold count. cbn. destruct (p a); cbn [length]; lia. Qed.

Lemma count_nonneg p l : 0 <= count p l.
Proof. unfold count. lia. Qed.

Lemma ordered_weaken from from' es : from' <= from -> ordered from es -> ordered from' es.
Proof. destruct es as [|e es]; cbn; [done|]. intros H [H1 H2]. split; [lia|done]. Qed.

(** What the entry of [k] still grants until [to], a window after [from]. *)
Definition room (max to : Z) (o : option rateLimitEntry) : Z :=
  match o with
  | Some e => Z.max 0 (max - e_count e) + if e_resetAt e <? to then Z.max 1 max else 0
  | None => Z.max 1 max
  end.

(** No counter wraps in a history this short. *)
Definition fits (n : Z) (rl : RateLimiter) : Prop :=
  forall k e, rl_entries rl !! k = Some e -> 1 <= e_count e /\ e_count e + n <= int64_max.

Lemma fits_check n t k rl : 1 <= n <= int64_max -> fits n rl -> fits (n - 1) (snd (Check t k rl)).
Proof.
  intros Hn Hf k' e'. unfold Check. destruct (rl_entries rl !! k) as [e|] eqn:E; [destruct (over t e)|]; cbn;
    (destruct (decide (k = k')) as [->|Hne]; [rewrite lookup_insert_eq; intros [= <-]; cbn|rewrite lookup_insert_ne by done; intros H; apply Hf in H; lia]).
  all: try lia. apply Hf in E. rewrite add64_exact by (unfold in_int64, int64_min, int64_max in *; lia). lia.
Qed.

Lemma fits_cleanup n t rl : fits n rl -> fits n (cleanup t rl).
Proof. intros Hf k e H. cbn in H. apply map_lookup_filter_Some in H as [H _]. by apply Hf in H. Qed.

Lemma fits_weaken n m rl : m <= n -> fits n rl -> fits m rl.
Proof. intros H Hf k e He. apply Hf in He. lia. Qed.

Lemma cleanup_lookup t k rl : rl_entries (cleanup t rl) !! k =
  match rl_entries rl !! k with Some e => if over t e then None else Some e | None => None end.
Proof.
  cbn. destruct (rl_entries rl !! k) as [e|] eqn:E.
  - destruct (over t e) eqn:Eo.
    + apply map_lookup_filter_None. right. intros e' H. rewrite E in H. injection H as <-. by rewrite Eo.
    + by apply map_lookup_filter_Some.
  - apply map_lookup_filter_None. by left.
Qed.

Lemma run_ordered es : forall lo rl, ordered lo es -> Forall (fun '(t, _, _) => lo <= t) (run es rl).
Proof.
  induction es as [|[t k|t] es IH]; intros lo rl; cbn; [by constructor|..]; intros [Ht H].
  - destruct (Check t k rl) as [r rl']. constructor; [done|]. eapply Forall_impl; [by apply IH|]. intros [[t' k'] b]. cbn. lia.
  - eapply Forall_impl; [by apply IH|]. intros [[t' k'] b]. cbn. lia.
Qed.

Lemma granted_none k from to l : Forall (fun '(t, _, _) => to < t) l -> count (granted k from to) l = 0.
Proof.
  induction 1 as [|[[t k'] b] l Ht _ IH]; [done|]. rewrite count_cons, IH. unfold granted.
  by destruct (Z.leb_spec t to); [lia|]; rewrite andb_false_r.
Qed.

Lemma granted_after k from to es lo rl : ordered lo es -> to < lo -> count (granted k from to) (run es rl) = 0.
Proof.
  intros H Hlo. apply granted_none. eapply Forall_impl; [by apply run_ordered|]. intros [[t k'] b]. lia.
Qed.

Lemma Check_max t k rl : rl_max (snd (Check t k rl)) = rl_max rl /\ rl_window (snd (Check t k rl)) = rl_window rl.
Proof. unfold Check. by destruct (match rl_entries rl !! k with Some e => _ | None => _ end). Qed.

Lemma Check_other t k k' rl : k' <> k -> rl_entries (snd (Check t k' rl)) !! k = rl_entries rl !! k.
Proof.
  intros H. unfold Check. destruct (match rl_entries rl !! k' with Some e => _ | None => _ end); cbn; by rewrite lookup_insert_ne.
Qed.

(** A check within the interval uses up what it grants. *)
Lemma room_check k from to t rl : from <= t <= to -> to = from + rl_window rl -> fits 1 rl ->
  (if rr_Allowed (fst (Check t k rl)) then 1 else 0) + room (rl_max rl) to (rl_entries (snd (Check t k rl)) !! k) <=
  room (rl_max rl) to (rl_entries rl !! k).
Proof.
  intros Ht Hto Hf. unfold Check. destruct (rl_entries rl !! k) as [e|] eqn:E.
  - unfold over. destruct (Z.ltb_spec (e_resetAt e) t); cbn; rewrite lookup_insert_eq; cbn.
    + destruct (Z.ltb_spec (t + rl_window rl) to), (Z.ltb_spec (e_resetAt e) to); lia.
    + apply Hf in E. rewrite add64_exact by (unfold in_int64, int64_min, int64_max in *; lia).
      destruct (Z.leb_spec (e_count e + 1) (rl_max rl)), (Z.ltb_spec (e_resetAt e) to); lia.
  - cbn. rewrite lookup_insert_eq. cbn. destruct (Z.ltb_spec (t + rl_window rl) to); lia.
Qed.

Lemma grants_bounded k from to es : forall lo rl, to = from + rl_window rl -> from <= lo -> ordered lo es ->
  fits (Z.of_nat (length es)) rl -> Z.of_nat (length es) <= int64_max ->
  count (granted k from to) (run es rl) <= room (rl_max rl) to (rl_entries rl !! k).
Proof.
  assert (forall o m, 0 <= room m to o) as Hroom by (intros [e|] m; cbn; [destruct (e_resetAt e <? to)|]; lia).
  induction es as [|[t k'|t] es IH]; intros lo rl Hto Hlo; cbn [ordered when run length]; [intros _ _ _; apply Hroom|..]; intros [Ht Ho] Hf Hn.
  - pose proof (Check_max t k' rl) as [Hm Hw]. pose proof (fits_check (Z.of_nat (S (length es))) t k' rl ltac:(lia) Hf) as Hf'.
    pose proof (room_check k from to t rl) as Hrc. pose proof (Check_other t k k' rl) as Hother.
    destruct (Check t k' rl) as [r rl'] eqn:E. cbn [fst snd] in *. rewrite count_cons. unfold granted at 1.
    destruct (Z.leb_spec t to) as [Hle|Hgt].
    + specialize (IH t rl' ltac:(lia) ltac:(lia) Ho ltac:(eapply fits_weaken; [|done]; lia) ltac:(lia)). rewrite Hm in IH.
      destruct (String.eqb_spec k' k) as [->|Hne]; cbn.
      * rewrite E in Hrc. cbn in Hrc. specialize (Hrc ltac:(lia) Hto ltac:(eapply fits_weaken; [|done]; lia)).
        destruct (from <=? t), (rr_Allowed r); cbn; lia.
      * rewrite Hother in IH by done. lia.
    + rewrite !andb_false_r. cbn. rewrite (granted_after k from to es t rl') by (done || lia). apply Hroom.
  - specialize (IH t (cleanup t rl) Hto ltac:(lia) Ho ltac:(apply fits_cleanup; eapply fits_weaken; [|done]; lia) ltac:(lia)).
    rewrite cleanup_lookup in IH. destruct (rl_entries rl !! k) as [e|]; [|done].
    unfold over in IH. destruct (Z.ltb_spec (e_resetAt e) t); [|done]. destruct (Z.leb_spec t to).
    + cbn in IH |- *. destruct (Z.ltb_spec (e_resetAt e) to); lia.
    + rewrite (granted_after k from to es t) by (done || lia). apply Hroom.
Qed.

Lemma room_bound max to o : (forall e, o = Some e -> 1 <= e_count e) -> room max to o <= 2 * Z.max 1 max.
Proof. destruct o as [e|]; cbn; [|lia]. intros H. specialize (H e eq_refl). destruct (e_resetAt e <? to); lia. Qed.

Lemma grants_anywhere k from to es : forall lo rl, to = from + rl_window rl -> ordered lo es ->
  fits (Z.of_nat (length es)) rl -> Z.of_nat (length es) <= int64_max ->
  count (granted k from to) (run es rl) <= 2 * Z.max 1 (rl_max rl).
Proof.
  induction es as [|e es IH]; intros lo rl Hto Ho Hf Hn; [unfold count; cbn; lia|].
  destruct (Z.ltb_spec (when e) from) as [Hlt|Hge].
  - destruct e as [t k'|t]; cbn [run ordered when length] in *.
    + pose proof (Check_max t k' rl) as [Hm Hw]. pose proof (fits_check (Z.of_nat (S (length es))) t k' rl ltac:(lia) Hf) as Hf'.
      destruct (Check t k' rl) as [r rl'] eqn:E. cbn [fst snd] in *. rewrite count_cons. unfold granted at 1.
      destruct (Z.leb_spec from t); [lia|]. rewrite andb_false_r. cbn. rewrite <- Hm. destruct Ho as [_ Ho].
      apply (IH t); [lia|done| |lia]. eapply fits_weaken; [|done]. lia.
    + destruct Ho as [_ Ho]. apply (IH t (cleanup t rl)); try done; [|lia]. apply fits_cleanup. eapply fits_weaken; [|done]. lia.
  - etransitivity; [apply (grants_bounded k from to (e :: es) (when e)); try done; destruct Ho as [_ Ho]; cbn; split; [lia|done]|].
    apply room_bound. intros e' He. apply Hf in He. lia.
Qed.

Fixpoint after (es : list event) (rl : RateLimiter) : RateLimiter :=
  match es with
  | [] => rl
  | ECheck t k :: es => after es (snd (Check t k rl))
  | ECleanup t :: es => after es (cleanup t rl)
  end.

Lemma run_app a b rl : run (a ++ b) rl = run a rl ++ run b (after a rl).
Proof.
  revert rl. induction a as [|[t k|t] a IH]; intros rl; cbn; [done|..]; [|apply IH].
  destruct (Check t k rl) as [r rl'] eqn:E. cbn. by rewrite IH.
Qed.

(** Every counter is the checks of its window that were made. *)
Definition since (k : string) (from : Z) (a : Z * string * bool) : bool := let '(t, k', _) := a in String.eqb k' k && (from <=? t).

Definition backed (now : Z) (h : list (Z * string * bool)) (rl : RateLimiter) : Prop :=
  forall k e, rl_entries rl !! k = Some e ->
    e_resetAt e - rl_window rl <= now /\ e_count e <= count (since k (e_resetAt e - rl_window rl)) h.

Lemma tally_app p a b : count p (a ++ b) = count p a + count p b.
Proof. unfold count. rewrite List.filter_app, length_app. lia. Qed.

Lemma backed_check now h t k rl : 0 <= rl_window rl -> now <= t -> fits 1 rl -> backed now h rl ->
  backed t (h ++ [(t, k, rr_Allowed (fst (Check t k rl)))]) (snd (Check t k rl)).
Proof.
  intros Hw Ht Hf Hb k' e'. rewrite (proj2 (Check_max t k rl)), tally_app.
  assert (forall x, count (since k x) [(t, k, rr_Allowed (fst (Check t k rl)))] = if x <=? t then 1 else 0) as Hone.
  { intros x. rewrite count_cons. cbn. rewrite String.eqb_refl. cbn. by destruct (x <=? t). }
  destruct (decide (k' = k)) as [->|Hne].
  2: { rewrite Check_other by congruence. intros H. apply Hb in H as [H1 H2].
       pose proof (count_nonneg (since k' (e_resetAt e' - rl_window rl)) [(t, k, rr_Allowed (fst (Check t k rl)))]). lia. }
  rewrite Hone. unfold Check. destruct (rl_entries rl !! k) as [e|] eqn:E; [unfold over; destruct (Z.ltb_spec (e_resetAt e) t)|]; cbn;
    rewrite lookup_insert_eq; intros [= <-]; cbn.
  2: { destruct (Hb k e E) as [H1 H2]. apply Hf in E. rewrite add64_exact by (unfold in_int64, int64_min, int64_max in *; lia).
       destruct (Z.leb_spec (e_resetAt e - rl_window rl) t); lia. }
  all: pose proof (count_nonneg (since k (t + rl_window rl - rl_window rl)) h); destruct (Z.leb_spec (t + rl_window rl - rl_window rl) t); lia.
Qed.

Lemma backed_cleanup now h t rl : now <= t -> backed now h rl -> backed t h (cleanup t rl).
Proof. intros Ht Hb k e H. cbn in H. apply map_lookup_filter_Some in H as [H _]. apply Hb in H. cbn. lia. Qed.

Lemma backed_run es : forall now h rl, 0 <= rl_window rl -> ordered now es -> fits (Z.of_nat (length es) + 1) rl -> Z.of_nat (length es) < int64_max ->
  backed now h rl -> exists now', backed now' (h ++ run es rl) (after es rl) /\ fits 1 (after es rl) /\
    rl_window (after es rl) = rl_window rl /\ rl_max (after es rl) = rl_max rl /\ now <= now' /\ (forall e, ordered now (es ++ [e]) -> now' <= when e) /\
    Forall (fun '(t, _, _) => t <= now') (run es rl).
Proof.
  induction es as [|[t k|t] es IH]; intros now h rl Hw; cbn [ordered when run after length app].
  - intros _ Hf _ Hb. exists now. rewrite app_nil_r. split_and!; try done. by intros e [H _].
  - intros [Ht Ho] Hf Hn Hb. pose proof (Check_max t k rl) as [Hm Hwin].
    assert (fits 1 rl) as Hf1 by (eapply fits_weaken; [|done]; lia).
    pose proof (backed_check now h t k rl Hw Ht Hf1 Hb) as Hb'.
    pose proof (fits_check (Z.of_nat (S (length es)) + 1) t k rl ltac:(lia) Hf) as Hf'. destruct (Check t k rl) as [r rl'] eqn:E. cbn [fst snd] in *.
    destruct (IH t (h ++ [(t, k, rr_Allowed r)]) rl' ltac:(lia) Ho ltac:(eapply fits_weaken; [|done]; lia) ltac:(lia) Hb') as (now' & B & F & W & X & L & O & T).
    exists now'. rewrite <- app_assoc in B. split_and!; try done; [congruence|congruence|lia| |constructor; [lia|done]].
    intros e [_ He]. by apply O.
  - intros [Ht Ho] Hf Hn Hb.
    destruct (IH t h (cleanup t rl) Hw Ho ltac:(apply fits_cleanup; eapply fits_weaken; [|done]; lia) ltac:(lia) ltac:(by apply (backed_cleanup now)))
      as (now' & B & F & W & X & L & O & T).
    exists now'. split_and!; try done; [lia|]. intros e [_ He]. by apply O.
Qed.

Lemma refused_entry t k rl : let '(r, _) := Check t k rl in rr_Allowed r = false ->
  exists e, rl_entries rl !! k = Some e /\ t <= e_resetAt e /\ rl_max rl < add64 (e_count e) 1.
Proof.
  unfold Check. destruct (rl_entries rl !! k) as [e|]; [|done]. unfold over. destruct (Z.ltb_spec (e_resetAt e) t); [done|].
  cbn. intros Hr. exists e. apply Z.leb_gt in Hr. done.
Qed.

Lemma count_impl p q l : Forall (fun a => p a = true -> q a = true) l -> count p l <= count q l.
Proof.
  induction 1 as [|a l Ha _ IH]; [done|]. rewrite !count_cons. destruct (p a); [rewrite Ha by done; lia|]. destruct (q a); lia.
Qed.

(** The limiter grants a key at most twice its limit in any interval of one
    window, whatever other keys and cleanups do, and refuses a key only when
    more than its limit of requests, this one included, came within the window
    that ends now. *)
Theorem limiter_bounds (max window : Z) (es : list event) (t from : Z) (k : string)
    (Hw : 0 <= window) (Ho : ordered 0 (es ++ [ECheck t k])) (Hn : Z.of_nat (length es) < int64_max) :
  let answers := run (es ++ [ECheck t k]) (NewRateLimiter max window) in
  (forall k', count (granted k' from (from + window)) answers <= 2 * Z.max 1 max) /\
  (last answers = Some (t, k, false) -> max < count (asked k (t - window) t) answers).
Proof.
  assert (forall n, fits n (NewRateLimiter max window)) as Hf by (intros n k' e H; cbn in H; by rewrite lookup_empty in H).
  cbv zeta. split.
  - intros k'. apply (grants_anywhere k' from (from + window) (es ++ [ECheck t k]) 0 (NewRateLimiter max window)); try done.
    rewrite length_app. cbn. lia.
  - intros Hlast. rewrite run_app in *. cbn [run] in *.
    destruct (backed_run es 0 [] (NewRateLimiter max window)) as (now & B & F & W & X & _ & O & T); try done; [|].
    { clear -Ho. revert Ho. generalize 0. induction es as [|e es IH]; intros lo; cbn; [done|]. intros [H1 H2]. split; [done|by apply IH]. }
    specialize (O (ECheck t k) Ho). cbn in O. set (rl := after es _) in *. cbn in B.
    pose proof (refused_entry t k rl) as Href. destruct (Check t k rl) as [r rl'] eqn:E. rewrite last_snoc in Hlast. injection Hlast as Hr.
    destruct (Href Hr) as (e & He & Hover & Hmax). destruct (B k e He) as [_ Hcount]. apply F in He as Hc.
    rewrite tally_app, count_cons, Hr. cbn. rewrite String.eqb_refl, Z.leb_refl. cbn.
    rewrite add64_exact in Hmax by (unfold in_int64, int64_min, int64_max in *; lia).
    assert (count (since k (e_resetAt e - rl_window rl)) (run es (NewRateLimiter max window)) <=
            count (asked k (t - window) t) (run es (NewRateLimiter max window))) as Hle.
    { apply count_impl. eapply Forall_impl; [exact T|]. intros [[t' k'] b] Ht'. cbn. rewrite !andb_true_iff, !Z.leb_le, W. cbn.
      intros [Hk' Hs]. split; [split; [done|]|]; lia. }
    destruct (Z.leb_spec (t - window) t); [|lia]. rewrite X in Hmax. cbn in Hmax. unfold count at 2. cbn. lia.
Qed.

(** Two a minute: the third is refused, the one after the minute is not, and
    a cleanup in between changes nothing. *)
Definition minute : Z := 60000000000.
Definition login_history : list event :=
  [ECheck 0 "a"; ECheck 1 "b"; ECheck minute "a"; ECleanup minute; ECheck minute "a"; ECheck (minute + 1) "a"; ECheck (minute + 2) "a"].

Example limiter_bounds_witness :
  (forall k', count (granted k' 5 (5 + minute)) (run (login_history ++ [ECheck (minute + 3) "a"]) (NewRateLimiter 2 minute)) <= 2 * Z.max 1 2) /\
  2 < count (asked "a" (minute + 3 - minute) (minute + 3)) (run (login_history ++ [ECheck (minute + 3) "a"]) (NewRateLimiter 2 minute)).
Proof.
  destruct (limiter_bounds 2 minute login_history (minute + 3) 5 "a") as [H1 H2].
  - unfold minute. lia.
  - vm_compute. done.
  - vm_compute. done.
  - split; [exact H1|]. apply H2. vm_compute. reflexivity.
Defined.

(** Twice the limit is reached, around the end of a window; and a limit of zero
    still lets one request of a window through. *)
Example limiter_burst :
  count (granted "a" 5 (5 + minute)) (run [ECheck 0 "a"; ECheck 5 "a"; ECheck minute "a"; ECheck (minute + 1) "a"; ECheck (minute + 2) "a"]
    (NewRateLimiter 3 minute)) = 4 /\
  map snd (run [ECheck 0 "a"; ECheck 1 "a"] (NewRateLimiter 0 minute)) = [true; false] /\
  rr_Remaining (fst (Check 0 "a" (NewRateLimiter 0 minute))) = -1.
Proof. vm_compute. done. Qed.
End RateLimit.

Module Gate.

(** [g_gen]: how often the notify channel was replaced. *)
Record downloadGate := mkGate { g_inFlight : Z; g_gen : Z }.

(** A request on its way through [acquire]: about to read the limit, about to
    lock with the limit it read, parked on the channel of a generation (with
    the limit it read), and what became of it. *)
Inductive request := Reading | Locking (limit : Z) | Parked (limit gen : Z) | Holding | TimedOut | Released.

Record system := mkSystem { s_gate : downloadGate; s_limit : Z (* limitFn *); s_requests : list request }.

Inductive action := SetLimit (l : Z) | Arrive | Read (i : nat) | Lock (i : nat) | Wake (i : nat) | GiveUp (i : nat) | Release (i : nat).

(** The critical section of [acquire]. *)
Definition try_acquire (limit : Z) (g : downloadGate) : request * downloadGate :=
  if g_inFlight g <? limit then (Holding, mkGate (g_inFlight g + 1) (g_gen g)) else (Parked limit (g_gen g), g).

Definition release (g : downloadGate) : downloadGate := mkGate (g_inFlight g - 1) (g_gen g + 1).

Definition put (i : nat) (r : request) (s : system) : system := mkSystem (s_gate s) (s_limit s) (<[i := r]> (s_requests s)).
Definition put_gate (g : downloadGate) (s : system) : system := mkSystem g (s_limit s) (s_requests s).

(** [None]: the action is not possible. *)
Definition step (a : action) (s : system) : option system :=
  match a with
  | SetLimit l => Some (mkSystem (s_gate s) l (s_requests s))
  | Arrive => Some (mkSystem (s_gate s) (s_limit s) (s_requests s ++ [Reading]))
  | Read i => match s_requests s !! i with Some Reading => Some (put i (Locking (s_limit s)) s) | _ => None end
  | Lock i =>
      match s_requests s !! i with
      | Some (Locking l) => let '(r, g) := try_acquire l (s_gate s) in Some (put i r (put_gate g s))
      | _ => None
      end
  | Wake i =>  (* the channel of an earlier generation is closed *)
      match s_requests s !! i with
      | Some (Parked _ n) => if n <? g_gen (s_gate s) then Some (put i Reading s) else None
      | _ => None
      end
  | GiveUp i => match s_requests s !! i with Some (Parked _ _) => Some (put i TimedOut s) | _ => None end
  | Release i => match s_requests s !! i with Some Holding => Some (put i Released (put_gate (release (s_gate s)) s)) | _ => None end
  end.

Definition idle (l : Z) : system := mkSystem (mkGate 0 0) l [].

(** The systems that interleavings of requests and an operator lead to, with
    the largest limit that was ever set. *)
Inductive reachable (l0 : Z) : system -> Z -> Prop :=
| reach_start : reachable l0 (idle l0) l0
| reach_step a s s' top : reachable l0 s top -> step a s = Some s' ->
    reachable l0 s' (match a with SetLimit l => Z.max l top | _ => top end).

Definition holds (r : request) : Z := match r with Holding => 1 | _ => 0 end.
Definition held (s : system) : Z := fold_right (fun r n => holds r + n) 0 (s_requests s).

Definition limit_of (r : request) : option Z := match r with Locking l | Parked l _ => Some l | _ => None end.

Record gate_ok (s : system) (top : Z) : Prop := {
  ok_count : g_inFlight (s_gate s) = held s;
  ok_top : g_inFlight (s_gate s) <= Z.max 0 top;
  ok_limit : s_limit s <= top;
  ok_read : forall i r l, s_requests s !! i = Some r -> limit_of r = Some l -> l <= top;
  ok_parked : forall i l n, s_requests s !! i = Some (Parked l n) ->
    n <= g_gen (s_gate s) /\ (n = g_gen (s_gate s) -> l <= g_inFlight (s_gate s));
}.

Lemma held_insert i r r0 l : l !! i = Some r0 ->
  fold_right (fun r n => holds r + n) 0 (<[i := r]> l) = fold_right (fun r n => holds r + n) 0 l - holds r0 + holds r.
Proof.
  revert i. induction l as [|x l IH]; intros [|i]; [done..| |].
  - intros [= ->]. change (<[0%nat := r]> (r0 :: l)) with (r :: l). cbn. lia.
  - intros H. change (<[S i := r]> (x :: l)) with (x :: <[i := r]> l). cbn [fold_right]. rewrite (IH i) by done. lia.
Qed.

Lemma held_nonneg l : 0 <= fold_right (fun r n => holds r + n) 0 l.
Proof. induction l as [|r l IH]; cbn; [lia|]. destruct r; cbn; lia. Qed.

(** A request changes, the gate does not. *)
Lemma put_ok i r r0 s top : gate_ok s top -> s_requests s !! i = Some r0 -> holds r0 = 0 -> holds r = 0 ->
  (forall l, limit_of r = Some l -> l <= top) ->
  (forall l n, r = Parked l n -> n <= g_gen (s_gate s) /\ (n = g_gen (s_gate s) -> l <= g_inFlight (s_gate s))) -> gate_ok (put i r s) top.
Proof.
  intros [H1 H2 H3 H4 H5] Hi Hr0 Hr Hl Hp. split; try done.
  - cbn. unfold held. cbn. rewrite (held_insert i r r0) by done. unfold held in H1. lia.
  - intros j r' l. cbn. rewrite list_lookup_insert_Some. intros [(-> & <- & _)|[_ Hj]]; [apply Hl|]. by eapply H4.
  - intros j l n. cbn. rewrite list_lookup_insert_Some. intros [(-> & Hj & _)|[_ Hj]]; [by apply Hp|]. by eapply H5.
Qed.

Lemma step_ok a s s' top : gate_ok s top -> step a s = Some s' -> gate_ok s' (match a with SetLimit l => Z.max l top | _ => top end).
Proof.
  intros Hok Hs. pose proof Hok as [H1 H2 H3 H4 H5].
  destruct a as [l| |i|i|i|i|i]; cbn in Hs.
  - injection Hs as <-. split; cbn; try done; [lia|lia|]. intros i r l' Hi Hl. specialize (H4 i r l' Hi Hl). lia.
  - injection Hs as <-. split; try done.
    + cbn. unfold held in *. cbn. rewrite fold_right_app. cbn. by rewrite H1.
    + intros j r l. cbn. rewrite lookup_app_Some. intros [Hj|[_ Hj]]; [by eapply H4|]. apply list_lookup_singleton_Some in Hj as [_ <-]. done.
    + intros j l n. cbn. rewrite lookup_app_Some. intros [Hj|[_ Hj]]; [by eapply H5|]. by apply list_lookup_singleton_Some in Hj as [_ ?].
  - destruct (s_requests s !! i) as [[]|] eqn:E; try done. injection Hs as <-. apply (put_ok i _ Reading); try done. by intros l [= <-].
  - destruct (s_requests s !! i) as [[|l| | | |]|] eqn:E; try done. unfold try_acquire in Hs. destruct (Z.ltb_spec (g_inFlight (s_gate s)) l).
    + injection Hs as <-. pose proof (H4 i _ l E eq_refl). split; try done.
      * cbn. unfold held in *. cbn. rewrite (held_insert i _ (Locking l)) by done. cbn. lia.
      * cbn. lia.
      * intros j r l'. cbn. rewrite list_lookup_insert_Some. intros [(-> & <- & _)|[_ Hj]]; [done|]. by eapply H4.
      * intros j l' n. cbn. rewrite list_lookup_insert_Some. intros [(-> & [=] & _)|[_ Hj]]. apply H5 in Hj. lia.
    + injection Hs as <-. apply (put_ok i _ (Locking l)); try done.
      * intros l' [= <-]. by apply (H4 i (Locking l)).
      * intros l' n [= <- <-]. cbn. lia.
  - destruct (s_requests s !! i) as [[]|] eqn:E; try done. destruct (_ <? _); [|done]. injection Hs as <-. by apply (put_ok i _ (Parked limit gen)).
  - destruct (s_requests s !! i) as [[]|] eqn:E; try done. injection Hs as <-. by apply (put_ok i _ (Parked limit gen)).
  - destruct (s_requests s !! i) as [[]|] eqn:E; try done. injection Hs as <-. split; try done.
    + cbn. unfold held in *. cbn. rewrite (held_insert i _ Holding) by done. cbn. lia.
    + cbn. lia.
    + intros j r l'. cbn. rewrite list_lookup_insert_Some. intros [(-> & <- & _)|[_ Hj]]; [done|]. by eapply H4.
    + intros j l' n. cbn. rewrite list_lookup_insert_Some. intros [(-> & [=] & _)|[_ Hj]]. apply H5 in Hj. lia.
Qed.

(** C13. Whatever the interleaving of requests, releases, timeouts and changes of
    the limit, the counter is the number of downloads that hold a slot and never
    exceeds the largest limit that was set; and no wake-up is lost: a request
    still parked on the open channel saw a limit that the downloads in flight
    still fill. *)
Theorem gate_invariant (l0 : Z) (s : system) (top : Z) (H : reachable l0 s top) :
  g_inFlight (s_gate s) = held s /\ 0 <= held s <= Z.max 0 top /\
  (forall i l n, s_requests s !! i = Some (Parked l n) -> step (Wake i) s = None -> l <= g_inFlight (s_gate s)).
Proof.
  assert (gate_ok s top) as [H1 H2 _ _ H5].
  { induction H as [|a s s' top _ IH Hs]; [split; cbn; try done; lia|]. by eapply step_ok. }
  split; [done|]. split; [rewrite <- H1; pose proof (held_nonneg (s_requests s)) as Hn; unfold held in H1; lia|].
  intros i l n Hi. cbn. rewrite Hi. destruct (Z.ltb_spec n (g_gen (s_gate s))) as [|Hge]; [done|]. intros _. apply H5 in Hi as [Hle Hl]. apply Hl. lia.
Qed.

Fixpoint play (acts : list action) (s : system) (top : Z) : option (system * Z) :=
  match acts with
  | [] => Some (s, top)
  | a :: acts =>
      match step a s with
      | Some s' => play acts s' (match a with SetLimit l => Z.max l top | _ => top end)
      | None => None
      end
  end.

Lemma play_reachable l0 acts : forall s top s' top', reachable l0 s top -> play acts s top = Some (s', top') -> reachable l0 s' top'.
Proof.
  induction acts as [|a acts IH]; intros s top s' top' H; cbn; [by intros [= <- <-]|].
  destruct (step a s) as [s1|] eqn:E; [|done]. apply IH. by apply (reach_step l0 a s).
Qed.

(** One slot, two requests; the first is released and the second woken. *)
Definition handover : list action := [Arrive; Arrive; Read 0; Read 1; Lock 0; Lock 1; Release 0; Wake 1; Read 1; Lock 1].

Definition handed_over : system := mkSystem (mkGate 1 1) 1 [Released; Holding].

Example gate_invariant_witness :
  g_inFlight (s_gate handed_over) = held handed_over /\ 0 <= held handed_over <= Z.max 0 1 /\
  (forall i l n, s_requests handed_over !! i = Some (Parked l n) -> step (Wake i) handed_over = None -> l <= g_inFlight (s_gate handed_over)).
Proof.
  apply (gate_invariant 1 handed_over 1). apply (play_reachable 1 handover (idle 1) 1); [constructor|]. vm_compute. reflexivity.
Defined.

(** The limit is read before the lock is taken: a request that read 1 is
    admitted although the operator has set 0 in between. *)
Example obsolete_limit_admits :
  play [Arrive; Read 0; SetLimit 0; Lock 0] (idle 1) 1 = Some (mkSystem (mkGate 1 0) 0 [Holding], 1).
Proof. vm_compute. reflexivity. Qed.
End Gate.
