(* ===== verification/Guards.v ===== *)
(** * Request guards

    src/internal/middleware/: who a request is from (clientip.go, auth.go,
    scim_auth.go), and what may not pass (csrf.go, maintenance.go, ratelimit.go,
    idempotency.go, bodylimit.go); and the egress guard of
    src/internal/services/safehttp.go. A guard either hands a request, perhaps
    with more in its context, to the next handler, or answers it. JWT is the
    class [Jwt], the parsing of addresses the class [NetAddr]. *)

From stdpp Require Import gmap strings pretty.
From Stdlib Require Import Ascii.
From S2P Require Import Prelude GoLib Hex Sql Schema Stmt Settings Keyring AccountSchema Users Tokens Limiter.

Open Scope Z_scope.

(** ** Requests and answers *)

(** The values the guards put into the context of a request; 0 and the empty
    string are what the getters return when there is none. *)
Record Context_ := mkCtx {
  cx_UserID : Z; cx_TokenID : Z; cx_AuthMethod : string; cx_AuthSource : string; cx_ScimTokenID : Z; cx_ClientIP : string;
}.

Definition no_context : Context_ := mkCtx 0 0 "" "" 0 "".

Record Request := mkReq {
  q_Method : string;
  q_Path : string;
  q_RemoteAddr : string;
  q_Header : string -> string;  (* Header.Get: empty when absent *)
  q_Cookie : string -> option string;
  q_ctx : Context_;
}.

Definition with_ctx (c : Context_) (r : Request) : Request := mkReq (q_Method r) (q_Path r) (q_RemoteAddr r) (q_Header r) (q_Cookie r) c.

Definition GetUserID (r : Request) : Z := cx_UserID (q_ctx r).
Definition GetTokenID (r : Request) : Z := cx_TokenID (q_ctx r).
Definition GetAuthSource (r : Request) : string := cx_AuthSource (q_ctx r).
Definition GetScimTokenID (r : Request) : Z := cx_ScimTokenID (q_ctx r).

Record Response := mkResp { rs_Status : Z; rs_Header : list (string * string); rs_Body : string }.

(** A body of the guards: the message and its code. *)
Definition refusal (status : Z) (msg code : string) : Response :=
  mkResp status [] (String (ascii_of_N 123) (json_string "error" +:+ ":" +:+ json_string msg +:+ "," +:+ json_string "code" +:+ ":" +:+ json_string code +:+ "}")).

Definition AuthSourceCookie : string := "cookie".
Definition AuthSourceHeader : string := "header".

(** ** Addresses *)

(** net.ParseIP (16 bytes, 4-in-6 for IPv4; [None] for nil), net.SplitHostPort
    and net.ParseCIDR (network and mask of the same length). *)
Class NetAddr := {
  ParseIP : string -> option (list Z);
  SplitHostPort : string -> result error (string * string);
  ParseCIDR : string -> option (list Z * list Z);
}.

Definition To4 (ip : list Z) : option (list Z) :=
  if (length ip =? 4)%nat then Some ip else
  if ((length ip =? 16)%nat && forallb (Z.eqb 0) (firstn 10 ip) && forallb (Z.eqb 255) (firstn 2 (skipn 10 ip)))%bool then Some (skipn 12 ip)
  else None.

Definition byte_at (ip : list Z) (i : nat) : Z := nth i ip 0.

Definition is6 (ip : list Z) : bool := (length ip =? 16)%nat.

Definition IsLoopback (ip : list Z) : bool :=
  match To4 ip with Some ip4 => byte_at ip4 0 =? 127 | None => bool_decide (ip = repeat 0 15 ++ [1]) end.

Definition IsPrivate (ip : list Z) : bool :=
  match To4 ip with
  | Some ip4 =>
      (byte_at ip4 0 =? 10) || ((byte_at ip4 0 =? 172) && (Z.land (byte_at ip4 1) 240 =? 16)) ||
      ((byte_at ip4 0 =? 192) && (byte_at ip4 1 =? 168))
  | None => is6 ip && (Z.land (byte_at ip 0) 254 =? 252)
  end.

Definition IsLinkLocalUnicast (ip : list Z) : bool :=
  match To4 ip with
  | Some ip4 => (byte_at ip4 0 =? 169) && (byte_at ip4 1 =? 254)
  | None => is6 ip && (byte_at ip 0 =? 254) && (Z.land (byte_at ip 1) 192 =? 128)
  end.

Definition IsLinkLocalMulticast (ip : list Z) : bool :=
  match To4 ip with
  | Some ip4 => (byte_at ip4 0 =? 224) && (byte_at ip4 1 =? 0) && (byte_at ip4 2 =? 0)
  | None => is6 ip && (byte_at ip 0 =? 255) && (Z.land (byte_at ip 1) 15 =? 2)
  end.

Definition IsUnspecified (ip : list Z) : bool :=
  match To4 ip with Some ip4 => bool_decide (ip4 = [0; 0; 0; 0]) | None => bool_decide (ip = repeat 0 16) end.

Definition IsMulticast (ip : list Z) : bool :=
  match To4 ip with Some ip4 => Z.land (byte_at ip4 0) 240 =? 224 | None => is6 ip && (byte_at ip 0 =? 255) end.

Definition isBlockedIP (ip : option (list Z)) : bool :=
  match ip with
  | None => true
  | Some ip => IsLoopback ip || IsPrivate ip || IsLinkLocalUnicast ip || IsLinkLocalMulticast ip || IsUnspecified ip || IsMulticast ip
  end.

(** [cidr.Contains]. *)
Definition cidr_contains (cidr : list Z * list Z) (ip : list Z) : bool :=
  let ip := default ip (To4 ip) in
  (length ip =? length (fst cidr))%nat &&
  forallb (fun '(n, (m, b)) => Z.land n m =? Z.land b m) (combine (fst cidr) (combine (snd cidr) ip)).

Section addresses.
Context {net : NetAddr}.

(** The production build: [testing.Testing] is false. *)
Definition ssrfControl (address : string) : result error unit :=
  match SplitHostPort address with
  | Err err => Err (EWrap "ssrf guard: bad address" [err])
  | Ok (host, _) =>
      if isBlockedIP (ParseIP host) then Err (ENew "ssrf guard: refusing to connect to non-public address") else Ok tt
  end.

Definition isTrustedProxy (ip : string) (trusted : list string) : bool :=
  match ParseIP ip with
  | None => false
  | Some parsed =>
      existsb (fun t =>
        if Contains t "/" then match ParseCIDR t with Some cidr => cidr_contains cidr parsed | None => false end
        else String.eqb t ip) trusted
  end.

(** The host of the peer, or the whole address when it has no port. *)
Definition peer (r : Request) : string :=
  let host := match SplitHostPort (q_RemoteAddr r) with Ok (h, _) => h | Err _ => "" end in
  if String.eqb host "" then q_RemoteAddr r else host.

Definition ClientIP (r : Request) (trustedProxies : list string) : string :=
  let remoteIP := peer r in
  match trustedProxies with
  | [] => remoteIP
  | _ =>
      if negb (isTrustedProxy remoteIP trustedProxies) then remoteIP else
      let fwd := q_Header r "X-Forwarded-For" in
      if String.eqb fwd "" then remoteIP else
      let clientIP := TrimSpace (match Cut fwd "," with Some (p, _) => p | None => fwd end) in
      if String.eqb clientIP "" then remoteIP else clientIP
  end.

Definition RequestClientIP (r : Request) : string :=
  if String.eqb (cx_ClientIP (q_ctx r)) "" then peer r else cx_ClientIP (q_ctx r).
End addresses.

(** ** Session tokens: internal/auth/jwt.go *)

(** [jc_IssuedAt], [jc_ExpiresAt]: seconds. *)
Record JwtClaims := mkClaims { jc_UserID : Z; jc_Email : string; jc_IssuedAt : option Z; jc_ExpiresAt : option Z; jc_Issuer : string }.

(** golang-jwt under HS256: [jwt_sign secret claims], and [jwt_parse secret now
    token], which checks the signature, the algorithm and the expiry. *)
Class Jwt := {
  jwt_sign : string -> JwtClaims -> result error string;
  jwt_parse : string -> Z -> string -> result error JwtClaims;
}.

Section jwt.
Context {jwt : Jwt}.

Definition GenerateToken (now : Z) (secret : string) (userID : Z) (email : string) (expiryHours : Z) : result error string :=
  let s := now / ac_second in
  jwt_sign secret (mkClaims userID email (Some s) (Some ((now + wrap64 (wrap64 expiryHours * (3600 * ac_second))) / ac_second)) "indelible").

Definition parseWithSecret (secret : string) (now : Z) (tokenString : string) : result error JwtClaims :=
  jwt_parse secret (now / ac_second) tokenString.

Fixpoint try_secrets (secrets : list string) (now : Z) (tokenString : string) (firstErr : option error) : result error JwtClaims :=
  match secrets with
  | [] => Err (default (ENew "") firstErr)
  | s :: rest =>
      match parseWithSecret s now tokenString with
      | Ok claims => Ok claims
      | Err err => try_secrets rest now tokenString (match firstErr with Some e => Some e | None => Some err end)
      end
  end.

Definition ValidateToken (now : Z) (primary tokenString : string) (previous : list string) : result error JwtClaims :=
  try_secrets (primary :: previous) now tokenString None.
End jwt.

(** ** The state behind the guards *)

(** A row of idempotency_keys. *)
Record IdemRow := mkIdem { id_key : string; id_user_id : Z; id_status_code : Z; id_response_body : string; id_created_at : Z }.

Record IdemTable := mkIdemTable { it_rows : list IdemRow; it_now : Z (* nanoseconds *) }.

(** The accounts and settings, the limiters by the route that mounts them, and
    the recorded answers. *)
Record Guarded := mkGuarded {
  gs_ac : World Accounts;
  gs_db : Db;
  gs_limiters : gmap string RateLimit.RateLimiter;
  gs_idem : World IdemTable;
}.

Abbreviation GuardM := (ST error Guarded).

Definition put_gs_ac v s := mkGuarded v (gs_db s) (gs_limiters s) (gs_idem s).
Definition put_gs_db v s := mkGuarded (gs_ac s) v (gs_limiters s) (gs_idem s).
Definition put_gs_limiters v s := mkGuarded (gs_ac s) (gs_db s) v (gs_idem s).
Definition put_gs_idem v s := mkGuarded (gs_ac s) (gs_db s) (gs_limiters s) v.

Definition gac {A} (m : AcM A) : GuardM A := zoom gs_ac put_gs_ac m.
Definition gdb {A} (m : DbM A) : GuardM A := zoom gs_db put_gs_db m.

(** What a guard decides: hand the request on, or answer it. *)
Inductive verdict := Pass (r : Request) | Stop (a : Response).

(** ** Guards *)

Section guards.
Context {bc : Bcrypt} {jwt : Jwt} {net : NetAddr}.

Definition ResolveClientIP (trustedProxies : list string) (r : Request) : GuardM verdict :=
  let c := q_ctx r in
  mret (Pass (with_ctx (mkCtx (cx_UserID c) (cx_TokenID c) (cx_AuthMethod c) (cx_AuthSource c) (cx_ScimTokenID c) (ClientIP r trustedProxies)) r)).

Definition unauthorized (msg : string) : verdict := Stop (refusal 401 msg "unauthorized").
Definition forbidden (msg : string) : verdict := Stop (refusal 403 msg "forbidden").

(** The credential of a request and where it was. *)
Definition credential (r : Request) : (string * string) + verdict :=
  match q_Cookie r "session" with
  | Some v =>
      if negb (String.eqb v "") then inl (v, AuthSourceCookie) else
      let authHeader := q_Header r "Authorization" in
      if String.eqb authHeader "" then inr (unauthorized "missing authorization") else
      let tokenStr := TrimPrefix authHeader "Bearer " in
      if String.eqb tokenStr authHeader then inr (unauthorized "invalid authorization format") else inl (tokenStr, AuthSourceHeader)
  | None =>
      let authHeader := q_Header r "Authorization" in
      if String.eqb authHeader "" then inr (unauthorized "missing authorization") else
      let tokenStr := TrimPrefix authHeader "Bearer " in
      if String.eqb tokenStr authHeader then inr (unauthorized "invalid authorization format") else inl (tokenStr, AuthSourceHeader)
  end.

(** [kr]: the keyring of JWT secrets. *)
Definition Authenticate (kr : Keyring) (r : Request) : GuardM verdict :=
  match credential r with
  | inr v => mret v
  | inl (tokenStr, authSource) =>
      let c := q_ctx r in
      now ← gac clock_now;
      match ValidateToken now (Primary kr) tokenStr (Previous kr) with
      | Ok claims =>
          u ← try (gac (GetByID (jc_UserID claims)));
          match u with
          | Err _ => mret (unauthorized "user not found or inactive")
          | Ok user =>
              if negb (us_IsActive user) then mret (unauthorized "user not found or inactive") else
              if match us_PasswordChangedAt user, jc_IssuedAt claims with Some p, Some iat => iat <? p | _, _ => false end
              then mret (unauthorized "session invalidated by password change") else
              mret (Pass (with_ctx (mkCtx (jc_UserID claims) (cx_TokenID c) "jwt" authSource (cx_ScimTokenID c) (cx_ClientIP c)) r))
          end
      | Err _ =>
          t ← try (gac (ValidateSecret tokenStr));
          match t with
          | Err _ => mret (unauthorized "invalid or expired token")
          | Ok apiToken =>
              u ← try (gac (GetByID (tk_UserID apiToken)));
              match u with
              | Err _ => mret (unauthorized "token owner not found or inactive")
              | Ok user =>
                  if negb (us_IsActive user) then mret (unauthorized "token owner not found or inactive") else
                  ignore (gac (RecordUsage (tk_ID apiToken))) ;;
                  mret (Pass (with_ctx (mkCtx (tk_UserID apiToken) (tk_ID apiToken) "api_token" authSource (cx_ScimTokenID c) (cx_ClientIP c)) r))
              end
          end
      end
  end.

Definition RequireAdmin (r : Request) : GuardM verdict :=
  a ← try (gac (IsAdmin (GetUserID r)));
  match a with
  | Ok true => mret (Pass r)
  | _ => mret (forbidden "admin access required")
  end.

Definition CSRFCookieName : string := "csrf_token".
Definition CSRFHeaderName : string := "X-CSRF-Token".

Definition CSRF (enforce : bool) (r : Request) : GuardM verdict :=
  if String.eqb (q_Method r) "GET" || String.eqb (q_Method r) "HEAD" || String.eqb (q_Method r) "OPTIONS" then mret (Pass r) else
  if negb (String.eqb (GetAuthSource r) AuthSourceCookie) then mret (Pass r) else
  let header := q_Header r CSRFHeaderName in
  let mismatch := match q_Cookie r CSRFCookieName with
                  | None => true
                  | Some v => String.eqb header "" || String.eqb v "" || negb (String.eqb header v)
                  end in
  if mismatch && enforce then mret (forbidden "csrf token invalid or missing") else mret (Pass r).

(** The message is put between the quotes as it is. *)
Definition maintenance_body (msg : string) : string :=
  let q := String (ascii_of_N 34) "" in
  "{" +:+ json_string "error" +:+ ":" +:+ q +:+ msg +:+ q +:+ "," +:+ json_string "code" +:+ ":" +:+ json_string "maintenance_mode" +:+ "}".

Definition value_or_empty (r : result error string) : string := match r with Ok v => v | Err _ => "" end.

Definition MaintenanceMode (r : Request) : GuardM verdict :=
  mode ← try (gdb (Get "maintenance_mode"));
  if negb (String.eqb (value_or_empty mode) "true") then mret (Pass r) else
  admin ← (if negb (GetUserID r =? 0) then
             a ← try (gac (IsAdmin (GetUserID r)));
             mret (match a with Ok b => b | Err _ => false end)
           else mret false);
  if (admin : bool) then mret (Pass r) else
  msg ← try (gdb (Get "maintenance_message"));
  let msg := value_or_empty msg in
  let msg := if String.eqb msg "" then "System is under maintenance. Please try again later." else msg in
  mret (Stop (mkResp 503 [("Content-Type", "application/json")] (maintenance_body msg))).

(** The SCIM errors. *)
Definition scim_refusal (status : Z) (detail : string) : verdict :=
  Stop (mkResp status [("Content-Type", "application/scim+json")]
    ("{" +:+ json_string "schemas" +:+ ":[" +:+ json_string "urn:ietf:params:scim:api:messages:2.0:Error" +:+ "]," +:+
     json_string "detail" +:+ ":" +:+ json_string detail +:+ "," +:+ json_string "status" +:+ ":" +:+ pretty status +:+ "}")).

Definition SCIMAuth (r : Request) : GuardM verdict :=
  enabled ← try (gdb (Get "scim_enabled"));
  if negb (String.eqb (value_or_empty enabled) "true") then mret (scim_refusal 404 "SCIM is not enabled") else
  let authHeader := q_Header r "Authorization" in
  if String.eqb authHeader "" then mret (scim_refusal 401 "missing authorization header") else
  let tokenStr := TrimPrefix authHeader "Bearer " in
  if negb (HasPrefix tokenStr "scim_") then mret (scim_refusal 401 "invalid authorization format") else
  t ← try (gac (ScimValidate tokenStr));
  match t with
  | Err _ => mret (scim_refusal 401 "invalid or revoked SCIM token")
  | Ok scimToken =>
      ignore (gac (ScimRecordUsage (sc_ID scimToken))) ;;
      let c := q_ctx r in
      mret (Pass (with_ctx (mkCtx (cx_UserID c) (cx_TokenID c) (cx_AuthMethod c) (cx_AuthSource c) (sc_ID scimToken) (cx_ClientIP c)) r))
  end.
End guards.

(** ** Rate limits *)

Section limits.
Context {net : NetAddr}.

(** The limiter a mount made when the router was built. *)
Definition limiter_of (mount : string) (max window : Z) (s : Guarded) : RateLimit.RateLimiter :=
  default (RateLimit.NewRateLimiter max window) (gs_limiters s !! mount).

Definition rate_headers (res : RateLimit.RateLimitResult) : list (string * string) :=
  [("X-RateLimit-Limit", pretty (RateLimit.rr_Limit res)); ("X-RateLimit-Remaining", pretty (RateLimit.rr_Remaining res));
   ("X-RateLimit-Reset", pretty (RateLimit.rr_ResetAt res / ac_second))].

(** [time.Until(reset).Seconds()], truncated, and one more. *)
Definition retry_after (now reset : Z) : Z := Z.quot (reset - now) ac_second + 1.

(** The headers an answer gets that is not the limiter's are left out. *)
Definition limit_key (mount : string) (max window : Z) (key msg : string) (r : Request) : GuardM verdict :=
  now ← gac clock_now;
  s ← get;
  let '(res, rl) := RateLimit.Check now key (limiter_of mount max window s) in
  modify (put_gs_limiters (<[mount := rl]> (gs_limiters s))) ;;
  if RateLimit.rr_Allowed res then mret (Pass r) else
  let a := refusal 429 msg "rate_limit_exceeded" in
  mret (Stop (mkResp 429 (rate_headers res ++ [("Retry-After", pretty (retry_after now (RateLimit.rr_ResetAt res))); ("Content-Type", "application/json")]) (rs_Body a))).

Definition RateLimit_ (mount : string) (max window : Z) (trustedProxies : list string) (r : Request) : GuardM verdict :=
  limit_key mount max window (ClientIP r trustedProxies) "too many requests, please try again later" r.

Definition RateLimitByUser (mount : string) (max window : Z) (r : Request) : GuardM verdict :=
  limit_key mount max window ("user:" +:+ pretty (GetUserID r)) "upload rate limit exceeded, please try again later" r.
End limits.

(** Whether the body of a request is cut off at the limit for JSON. *)
Definition MaxBodySize (r : Request) : bool :=
  let ct := q_Header r "Content-Type" in
  negb (HasPrefix ct "multipart/form-data") && negb (HasPrefix ct "application/x-ndjson").

(** ** Idempotent answers *)

Definition idem_of (key : string) (userID : Z) (i : IdemRow) : bool := String.eqb (id_key i) key && (id_user_id i =? userID).

Definition gidem {A} (m : ST error (World IdemTable) A) : GuardM A := zoom gs_idem put_gs_idem m.

Definition replayed (i : IdemRow) : Response :=
  mkResp (id_status_code i) [("Content-Type", "application/json"); ("X-Idempotent-Replayed", "true")] (id_response_body i).

(** The handler that follows may change everything. *)
Definition Idempotency (next : Request -> GuardM Response) (r : Request) : GuardM Response :=
  if negb (String.eqb (q_Method r) "POST") then next r else
  let key := q_Header r "Idempotency-Key" in
  if String.eqb key "" then next r else
  let userID := GetUserID r in
  e ← try (gidem (read_row (fun t => List.find (idem_of key userID) (it_rows t))));
  match e with
  | Ok i => mret (replayed i)
  | Err _ =>
      rec ← next r;
      (if (200 <=? rs_Status rec) && (rs_Status rec <? 500) then
         ignore (gidem (write_if (fun t =>
           constrained true (negb (existsb (idem_of key userID) (it_rows t))) true
             (tt, mkIdemTable (it_rows t ++ [mkIdem key userID (rs_Status rec) (rs_Body rec) (it_now t / ac_second)]) (it_now t)))))
       else mret tt) ;;
      mret rec
  end.

(** The cutoff has the seconds the rows have. *)
Definition CleanupIdempotencyKeys : GuardM unit :=
  ignore (gidem (write (fun t =>
    let cutoff := it_now t / ac_second - 24 * 3600 in
    mkIdemTable (delete_where (fun i => id_created_at i <? cutoff) (it_rows t)) (it_now t)))).
