(* ===== verification/Router.v ===== *)
(** * Routes and who reaches them

    src/internal/handlers/router.go: the routes of /api/v2 and /scim/v2 with
    the guards in front of each, and what the guards promise of a request that
    reaches a handler. The handlers are parameters here; matching a path to a
    route is chi's. The middleware of third parties (request ids, logging,
    panics, compression, CORS) and the headers of security.go decide nothing. *)

From stdpp Require Import gmap strings pretty.
From S2P Require Import Prelude GoLib Hex Sql Schema Stmt Settings Keyring AccountSchema Users Admins Tokens TokenLife Limiter Guards.

Open Scope Z_scope.

Inductive guard :=
| GRateLimit (mount : string) (max window : Z)
| GRateLimitByUser (mount : string) (max window : Z)
| GIdempotency
| GAuthenticate
| GCSRF (enforce : bool)
| GMaintenance
| GRequireAdmin
| GSCIMAuth.

#[export] Instance guard_eq_dec : EqDecision guard.
Proof. solve_decision. Defined.

Record route := mkRoute { rt_method : string; rt_pattern : string; rt_handler : string; rt_guards : list guard }.

Definition sixty_seconds : Z := 60 * ac_second.
Definition loginRL : guard := GRateLimit "login" 5 sixty_seconds.
Definition resetRL : guard := GRateLimit "reset" 3 sixty_seconds.
Definition uploadRL : guard := GRateLimitByUser "uploads" 60 sixty_seconds.

(** The public group of /api/v2. *)
Definition public_routes : list route :=
  [mkRoute "POST" "/auth/login" "Login" [loginRL];
   mkRoute "POST" "/auth/register" "Register" [];
   mkRoute "POST" "/auth/logout" "Logout" [];
   mkRoute "POST" "/auth/forgot-password" "ForgotPassword" [resetRL];
   mkRoute "POST" "/auth/reset-password" "ResetPassword" [resetRL];
   mkRoute "GET" "/auth/verify-email" "VerifyEmail" [];
   mkRoute "GET" "/auth/oidc/providers" "ListOIDCProviders" [];
   mkRoute "GET" "/auth/oidc/authorize/{providerId}" "OIDCAuthorize" [];
   mkRoute "GET" "/auth/oidc/callback" "OIDCCallback" []].

(** The authenticated group. *)
Definition user_routes : list route :=
  [mkRoute "GET" "/system/wallet-status" "WalletStatus" [];
   mkRoute "GET" "/system/queue-status" "QueueStatus" [];
   mkRoute "GET" "/me" "GetProfile" [];
   mkRoute "PUT" "/me" "UpdateProfile" [];
   mkRoute "POST" "/me/resend-verification" "ResendVerification" [];
   mkRoute "PUT" "/me/password" "ChangePassword" [];
   mkRoute "POST" "/uploads" "CreateUpload" [uploadRL; GIdempotency];
   mkRoute "GET" "/uploads" "ListUploads" [];
   mkRoute "GET" "/uploads/{id}" "GetUpload" [];
   mkRoute "POST" "/uploads/quote" "QuoteUpload" [];
   mkRoute "GET" "/uploads/{id}/download" "DownloadUpload" [];
   mkRoute "POST" "/uploads/{id}/cancel" "CancelUpload" [];
   mkRoute "POST" "/uploads/{id}/retry" "RetryUpload" [];
   mkRoute "POST" "/uploads/{id}/force-retry" "ForceRetryUpload" [];
   mkRoute "DELETE" "/uploads/{id}" "DeleteUpload" [];
   mkRoute "GET" "/uploads/{id}/collections" "UploadCollections" [];
   mkRoute "GET" "/uploads/{id}/tags" "GetTags" [];
   mkRoute "PUT" "/uploads/{id}/tags" "UpdateTags" [];
   mkRoute "GET" "/tags/keys" "ListTagKeys" [];
   mkRoute "GET" "/tags/values" "ListTagValues" [];
   mkRoute "GET" "/tags/search" "SearchByTags" [];
   mkRoute "POST" "/tags/bulk" "BulkTagUploads" [];
   mkRoute "GET" "/tags/facets" "TagFacets" [];
   mkRoute "GET" "/search" "GlobalSearch" [];
   mkRoute "POST" "/collections" "CreateCollection" [];
   mkRoute "GET" "/collections" "ListCollections" [];
   mkRoute "GET" "/collections/{id}" "GetCollection" [];
   mkRoute "PUT" "/collections/{id}" "UpdateCollection" [];
   mkRoute "DELETE" "/collections/{id}" "DeleteCollection" [];
   mkRoute "POST" "/collections/{id}/files" "AddToCollection" [];
   mkRoute "DELETE" "/collections/{id}/files/{uploadId}" "RemoveFromCollection" [];
   mkRoute "GET" "/collections/{id}/tags" "GetCollectionTags" [];
   mkRoute "PUT" "/collections/{id}/tags" "UpdateCollectionTags" [];
   mkRoute "POST" "/tokens" "CreateToken" [];
   mkRoute "GET" "/tokens" "ListTokens" [];
   mkRoute "DELETE" "/tokens/{id}" "RevokeToken" [];
   mkRoute "GET" "/notifications/preferences" "GetNotificationPrefs" [];
   mkRoute "PUT" "/notifications/preferences" "UpdateNotificationPrefs" [];
   mkRoute "POST" "/auth/oidc/link/{providerId}" "OIDCLinkStart" [];
   mkRoute "DELETE" "/auth/oidc/identities/{identityId}" "OIDCUnlinkIdentity" [];
   mkRoute "GET" "/me/oidc/identities" "ListMyOIDCIdentities" []].

(** The admin group. *)
Definition admin_routes : list route :=
  [mkRoute "GET" "/admin/tag-rules" "ListTagRules" [];
   mkRoute "POST" "/admin/tag-rules" "CreateTagRule" [];
   mkRoute "PUT" "/admin/tag-rules/{id}" "UpdateTagRule" [];
   mkRoute "DELETE" "/admin/tag-rules/{id}" "DeleteTagRule" [];
   mkRoute "POST" "/admin/users" "AdminCreateUser" [];
   mkRoute "GET" "/admin/users" "AdminListUsers" [];
   mkRoute "GET" "/admin/users/{id}" "AdminGetUser" [];
   mkRoute "GET" "/admin/users/{id}/details" "AdminUserDetails" [];
   mkRoute "PUT" "/admin/users/{id}" "AdminUpdateUser" [];
   mkRoute "DELETE" "/admin/users/{id}" "AdminDeleteUser" [];
   mkRoute "POST" "/admin/users/service-accounts" "AdminCreateServiceAccount" [];
   mkRoute "PUT" "/admin/users/{id}/permissions" "AdminSetPermissions" [];
   mkRoute "GET" "/admin/groups" "AdminListGroups" [];
   mkRoute "POST" "/admin/groups" "AdminCreateGroup" [];
   mkRoute "PUT" "/admin/groups/{id}" "AdminUpdateGroup" [];
   mkRoute "DELETE" "/admin/groups/{id}" "AdminDeleteGroup" [];
   mkRoute "POST" "/admin/groups/{id}/members" "AdminAddGroupMember" [];
   mkRoute "DELETE" "/admin/groups/{id}/members/{userId}" "AdminRemoveGroupMember" [];
   mkRoute "GET" "/admin/groups/{id}/members" "AdminListGroupMembers" [];
   mkRoute "GET" "/admin/tokens" "AdminListAllTokens" [];
   mkRoute "DELETE" "/admin/tokens/bulk" "AdminBulkRevokeTokens" [];
   mkRoute "GET" "/admin/wallets" "AdminListWallets" [];
   mkRoute "POST" "/admin/wallets" "AdminCreateWallet" [];
   mkRoute "PUT" "/admin/wallets/{id}/default" "AdminSetDefaultWallet" [];
   mkRoute "DELETE" "/admin/wallets/{id}" "AdminDeleteWallet" [];
   mkRoute "POST" "/admin/wallets/{id}/balance" "AdminRefreshWalletBalance" [];
   mkRoute "GET" "/admin/wallets/{id}/transactions" "AdminWalletTransactions" [];
   mkRoute "GET" "/admin/transactions" "AdminCrossWalletTransactions" [];
   mkRoute "GET" "/admin/settings" "AdminGetSettings" [];
   mkRoute "PATCH" "/admin/settings" "AdminUpdateSettings" [];
   mkRoute "GET" "/admin/settings/export" "AdminExportSettings" [];
   mkRoute "POST" "/admin/settings/import" "AdminImportSettings" [];
   mkRoute "GET" "/admin/uploads/export" "AdminExportUploads" [];
   mkRoute "POST" "/admin/uploads/import" "AdminImportUploads" [];
   mkRoute "GET" "/admin/webhooks" "AdminGetWebhooks" [];
   mkRoute "POST" "/admin/webhooks" "AdminCreateWebhook" [];
   mkRoute "PUT" "/admin/webhooks/{id}" "AdminUpdateWebhook" [];
   mkRoute "PATCH" "/admin/webhooks/{id}" "AdminUpdateWebhook" [];
   mkRoute "DELETE" "/admin/webhooks/{id}" "AdminDeleteWebhook" [];
   mkRoute "POST" "/admin/webhooks/{id}/test" "AdminTestWebhook" [];
   mkRoute "POST" "/admin/webhooks/{id}/rotate-secret" "AdminRotateWebhookSecret" [];
   mkRoute "GET" "/admin/webhooks/{id}/deliveries" "AdminGetWebhookDeliveries" [];
   mkRoute "GET" "/admin/webhooks/dead-letters" "AdminGetWebhookDeadLetters" [];
   mkRoute "POST" "/admin/webhooks/dead-letters/{id}/resend" "AdminResendWebhookDeadLetter" [];
   mkRoute "DELETE" "/admin/webhooks/dead-letters/{id}" "AdminDismissWebhookDeadLetter" [];
   mkRoute "POST" "/admin/scim/tokens" "AdminCreateScimToken" [];
   mkRoute "GET" "/admin/scim/tokens" "AdminListScimTokens" [];
   mkRoute "DELETE" "/admin/scim/tokens/{id}" "AdminRevokeScimToken" [];
   mkRoute "GET" "/admin/oidc/providers" "AdminListOIDCProviders" [];
   mkRoute "POST" "/admin/oidc/providers" "AdminCreateOIDCProvider" [];
   mkRoute "PUT" "/admin/oidc/providers/{id}" "AdminUpdateOIDCProvider" [];
   mkRoute "DELETE" "/admin/oidc/providers/{id}" "AdminDeleteOIDCProvider" [];
   mkRoute "PUT" "/admin/oidc/providers/{id}/auto-provision" "AdminSetOIDCAutoProvision" [];
   mkRoute "PUT" "/admin/oidc/providers/{id}/require-email-verified" "AdminSetOIDCRequireEmailVerified" [];
   mkRoute "PUT" "/admin/oidc/providers/{id}/extra-params" "AdminSetOIDCExtraAuthorizeParams" [];
   mkRoute "GET" "/admin/analytics/uploads" "AdminUploadAnalytics" [];
   mkRoute "GET" "/admin/analytics/tokens" "AdminTokenAnalytics" [];
   mkRoute "GET" "/admin/analytics/costs" "AdminCostAnalytics" [];
   mkRoute "GET" "/admin/logs/audit" "AdminAuditLogs" [];
   mkRoute "GET" "/admin/logs/system" "AdminSystemLogs" [];
   mkRoute "GET" "/admin/logs/config" "AdminConfigAuditLogs" [];
   mkRoute "GET" "/admin/logs/user" "AdminUserLogs" [];
   mkRoute "GET" "/admin/logs/config" "AdminConfigAuditLogs" [];
   mkRoute "GET" "/admin/logs/audit/export" "AdminExportAuditLogs" [];
   mkRoute "GET" "/admin/logs/system/export" "AdminExportSystemLogs" [];
   mkRoute "GET" "/admin/logs/user/export" "AdminExportUserLogs" [];
   mkRoute "GET" "/admin/logs/config/export" "AdminExportConfigAuditLogs" [];
   mkRoute "GET" "/admin/logs/audit/stats" "AdminAuditStats" [];
   mkRoute "GET" "/admin/logs/audit/verify" "AdminVerifyAuditChain" [];
   mkRoute "GET" "/admin/logs/system/stats" "AdminSystemStats" [];
   mkRoute "GET" "/admin/logs/config/stats" "AdminConfigAuditStats" [];
   mkRoute "GET" "/admin/logs/file-access" "AdminFileAccessLogs" [];
   mkRoute "GET" "/admin/logs/file-access/export" "AdminExportFileAccessLogs" [];
   mkRoute "GET" "/admin/logs/file-access/stats" "AdminFileAccessStats" [];
   mkRoute "GET" "/admin/quotas" "AdminListQuotas" [];
   mkRoute "POST" "/admin/quotas" "AdminCreateQuota" [];
   mkRoute "PUT" "/admin/quotas/{id}" "AdminUpdateQuota" [];
   mkRoute "DELETE" "/admin/quotas/{id}" "AdminDeleteQuota" [];
   mkRoute "GET" "/admin/departments" "AdminListDepartments" [];
   mkRoute "GET" "/admin/version-check" "AdminVersionCheck" [];
   mkRoute "GET" "/admin/storage" "AdminStorage" [];
   mkRoute "GET" "/admin/upload-requeue-window" "AdminGetUploadRequeueWindow" [];
   mkRoute "PUT" "/admin/upload-requeue-window" "AdminSetUploadRequeueWindow" [];
   mkRoute "DELETE" "/admin/upload-requeue-window" "AdminResetUploadRequeueWindow" []].

(** [r.Route], [r.Group] and [r.Use]: a prefix and guards for a group. *)
Definition mounted (prefix : string) (gs : list guard) (rs : list route) : list route :=
  map (fun rt => mkRoute (rt_method rt) (prefix +:+ rt_pattern rt) (rt_handler rt) (gs ++ rt_guards rt)) rs.

Definition NewRouter : list route :=
  [mkRoute "GET" "/health" "Health" []; mkRoute "GET" "/api/docs/*" "WrapHandler" []] ++
  mounted "/api/v2"
    [] public_routes ++
  mounted "/api/v2"
    [GAuthenticate; GCSRF true; GMaintenance] user_routes ++
  mounted "/api/v2"
    [GAuthenticate; GCSRF true; GRequireAdmin] admin_routes ++
  mounted "/scim/v2" [GSCIMAuth] [mkRoute "*" "/*" "SCIMServer" []] ++
  [mkRoute "*" "/*" "spaHandler" []].

Section serving.
Context {bc : Bcrypt} {jwt : Jwt} {net : NetAddr}.
Context (kr : Keyring) (trustedProxies : list string).

(** [None]: the guard wraps its handler. *)
Definition interp (g : guard) : option (Request -> GuardM verdict) :=
  match g with
  | GRateLimit mount max window => Some (RateLimit_ mount max window trustedProxies)
  | GRateLimitByUser mount max window => Some (RateLimitByUser mount max window)
  | GAuthenticate => Some (Authenticate kr)
  | GCSRF enforce => Some (CSRF enforce)
  | GMaintenance => Some MaintenanceMode
  | GRequireAdmin => Some RequireAdmin
  | GSCIMAuth => Some SCIMAuth
  | GIdempotency => None
  end.

Fixpoint guarded (gs : list guard) (handler : Request -> GuardM Response) (r : Request) : GuardM Response :=
  match gs with
  | [] => handler r
  | g :: gs =>
      match interp g with
      | Some f => v ← f r; match v with Pass r' => guarded gs handler r' | Stop a => mret a end
      | None => Idempotency (guarded gs handler) r
      end
  end.

Definition serve (rt : route) (handler : Request -> GuardM Response) (r : Request) : GuardM Response :=
  v ← ResolveClientIP trustedProxies r;
  match v with Pass r' => guarded (rt_guards rt) handler r' | Stop a => mret a end.
End serving.

(** ** What a guard that passes a request knows *)

(** What makes a SCIM token good. *)
Definition scim_key (t : ScimToken) : Z * string * bool := (sc_ID t, sc_TokenHash t, scim_active t).

(** The tables that say who is who and who may do what. *)
Definition same_people (a a' : Accounts) : Prop :=
  ac_users a' = ac_users a /\ ac_permissions a' = ac_permissions a /\ ac_groups a' = ac_groups a /\ ac_members a' = ac_members a /\
  map scim_key (ac_scim a') = map scim_key (ac_scim a).

#[export] Instance same_people_preorder : PreOrder same_people.
Proof. split; unfold same_people; [by intros a|]. intros a b c (? & ? & ? & ? & ?) (? & ? & ? & ? & ?). split_and!; congruence. Qed.

(** A guard changes the context of a request at most. *)
Definition same_request (r r' : Request) : Prop :=
  q_Method r' = q_Method r /\ q_Header r' = q_Header r /\ q_Cookie r' = q_Cookie r.

Lemma same_people_has_admin a a' id : same_people a a' -> has_admin a' id = has_admin a id.
Proof. intros (_ & Hp & Hg & Hm & _). unfold has_admin, perm_admin, group_admin, member_groups. by rewrite Hp, Hg, Hm. Qed.

(** A lookup that answers the empty string where there is no row. *)
Lemma row_or_empty_run (f : Accounts -> option string) w v w' :
  (r ← try (read_row f); match r with Ok l => mret l | Err e => if errors_is e ErrNoRows then mret "" else fail e end) w = (Ok v, w') ->
  v = default "" (f (tables w)) /\ tables w' = tables w.
Proof.
  unfold mbind, ST_bind, try. destruct (read_row f w) as [r w1] eqn:E.
  apply read_row_run in E as [[Ht E]|[Ht [e ->]]]; [|done].
  destruct (f (tables w)) as [x|]; subst r; cbn; intros [= <- <-]; done.
Qed.

Lemma GetEffective_run id w v w' : GetEffective id w = (Ok v, w') ->
  v = highest (default "" (pm_level <$> List.find (fun p => pm_user_id p =? id) (ac_permissions (tables w))))
              (default "" (g_PermissionLevel <$> head (limit 1 (order_by rank_desc (member_groups id (tables w)))))) /\
  tables w' = tables w.
Proof.
  unfold GetEffective, GetDirect. intros H. apply bind_ok in H as (d & w1 & Hd & H). apply row_or_empty_run in Hd as [-> T1].
  unfold mbind at 1, ST_bind at 1, try in H.
  destruct (read_row _ w1) as [r w2] eqn:E. apply read_row_run in E as [[T2 E]|[T2 [e ->]]]; [|done]. rewrite T1 in E.
  destruct (g_PermissionLevel <$> _); subst r; cbn in H; injection H as <- <-; (split; [done|congruence]).
Qed.

Lemma IsAdmin_run id w b w' : List.NoDup (map pm_user_id (ac_permissions (tables w))) -> IsAdmin id w = (Ok b, w') ->
  b = has_admin (tables w) id /\ tables w' = tables w.
Proof.
  intros Hp H. unfold IsAdmin in H. apply bind_ok in H as (l & w1 & Hl & H). injection H as <- <-.
  apply GetEffective_run in Hl as [-> Ht]. split; [|done]. rewrite highest_admin. unfold has_admin, perm_admin, group_admin.
  rewrite <- find_perm_admin, <- head_rank_admin by done. by destruct (List.find _ _), (head _).
Qed.

Lemma IsAdmin_reads id : steps (on_tables eq) (IsAdmin id).
Proof. unfold IsAdmin, GetEffective, GetDirect. steps_go. Qed.

Section admission.
Context {bc : Bcrypt} {jwt : Jwt} {net : NetAddr}.
Context (kr : Keyring) (trustedProxies : list string).

Abbreviation people s := (tables (gs_ac s)).

(** The caller is a live, active user. *)
Definition identified (r : Request) (s : Guarded) : Prop :=
  exists u, In u (ac_users (people s)) /\ us_ID u = GetUserID r /\ live u = true /\ us_IsActive u = true.

(** A mutation that a browser's cookie authenticates repeats the token of the
    other cookie in its header. *)
Definition csrf_ok (r : Request) : Prop :=
  existsb (String.eqb (q_Method r)) ["GET"; "HEAD"; "OPTIONS"] = false -> GetAuthSource r = AuthSourceCookie ->
  q_Header r CSRFHeaderName <> "" /\ q_Cookie r CSRFCookieName = Some (q_Header r CSRFHeaderName).

Lemma gac_run {A} (m : AcM A) s x s' : gac m s = (x, s') -> exists w, m (gs_ac s) = (x, w) /\ s' = put_gs_ac w s.
Proof. unfold gac, zoom. destruct (m (gs_ac s)) as [y w]. intros [= <- <-]. eauto. Qed.

Lemma GetByID_find id w u w' : GetByID id w = (Ok u, w') -> In u (ac_users (tables w)) /\ us_ID u = id /\ live u = true /\ tables w' = tables w.
Proof.
  intros H. apply GetByID_run in H as [Ht Hf]. apply find_some in Hf as [Hin [Hid Hl]%andb_prop]. unfold by_id in Hid. by apply Z.eqb_eq in Hid.
Qed.

Lemma RecordUsage_people id : steps (on_tables same_people) (RecordUsage id).
Proof. unfold RecordUsage. apply steps_ignore, steps_write_ret; [apply _|]. done. Qed.

Lemma ValidateSecret_reads t : steps (on_tables eq) (ValidateSecret t).
Proof. unfold ValidateSecret, clock_now. steps_go. Qed.

Lemma try_secrets_ok secrets now t e claims : try_secrets secrets now t e = Ok claims ->
  exists secret, In secret secrets /\ jwt_parse secret (now / ac_second) t = Ok claims.
Proof.
  revert e. induction secrets as [|x secrets IH]; intros e; cbn; [done|]. unfold parseWithSecret.
  destruct (jwt_parse x _ t) eqn:E; [intros [= <-]; eauto|]. intros H. apply IH in H as (y & Hy & H). eauto.
Qed.

Lemma credential_stop r v : credential r = inr v -> exists a, v = Stop a.
Proof. unfold credential. repeat case_match; intros [= <-]; by eexists. Qed.

(** What stands behind the credential of a request that passed. *)
Definition vouched (tokenStr : string) (r' : Request) (s : Guarded) (u : User) : Prop :=
  (exists secret claims, In secret (Primary kr :: Previous kr) /\
     jwt_parse secret (ac_now (people s) / ac_second) tokenStr = Ok claims /\ jc_UserID claims = us_ID u /\
     (forall p iat, us_PasswordChangedAt u = Some p -> jc_IssuedAt claims = Some iat -> p <= iat)) \/
  (exists t, In t (ac_tokens (people s)) /\ revoked t = false /\ expired (ac_now (people s)) t = false /\
     bc_compare (tk_TokenHash t) tokenStr = true /\ tk_UserID t = us_ID u /\ GetTokenID r' = tk_ID t).

Lemma admits (r r' : Request) (s s' : Guarded) (H : Authenticate kr r s = (Ok (Pass r'), s')) :
  exists tokenStr source u,
    credential r = inl (tokenStr, source) /\ GetAuthSource r' = source /\ same_request r r' /\ same_people (people s) (people s') /\
    In u (ac_users (people s)) /\ us_ID u = GetUserID r' /\ live u = true /\ us_IsActive u = true /\ vouched tokenStr r' s u.
Proof.
  unfold Authenticate in H. destruct (credential r) as [[tok src]|v] eqn:Ec; [|by apply credential_stop in Ec as [a ->]].
  apply bind_ok in H as (now & s1 & Hn & H). apply gac_run in Hn as (w & [= <- <-] & ->).
  destruct s as [ac db lim idem]. change (put_gs_ac _ _) with (mkGuarded ac db lim idem) in H.
  destruct (ValidateToken _ _ _ _) as [claims|e] eqn:Ev.
  - apply try_secrets_ok in Ev as (secret & Hs & Hp).
    unfold mbind, ST_bind, try in H. destruct (gac _ _) as [[u|] s2] eqn:Eu; [|done].
    apply gac_run in Eu as (w2 & (Hin & Hid & Hl & Ht)%GetByID_find & ->).
    destruct (us_IsActive u) eqn:Ha; [|done]. destruct (match us_PasswordChangedAt u with Some _ => _ | None => _ end) eqn:Epw; [done|].
    injection H as <- <-. exists tok, src, u. cbn in *. rewrite Ht. split_and!; try done.
    left. exists secret, claims. split_and!; try done. intros p iat Hp' Hi. rewrite Hp', Hi in Epw. by apply Z.ltb_ge.
  - unfold mbind at 1, ST_bind at 1, try at 1 in H. destruct (gac _ _) as [[t|] s2] eqn:Et; [|done].
    apply gac_run in Et as (w2 & Hv & ->). pose proof (steps_run _ _ _ _ _ (ValidateSecret_reads tok) Hv) as T2. red in T2.
    apply ValidateSecret_ok in Hv as (Hin & Hr & He & Hc).
    unfold mbind at 1, ST_bind at 1, try at 1 in H. destruct (gac _ _) as [[u|] s3] eqn:Eu; [|done].
    apply gac_run in Eu as (w3 & (Hu & Hid & Hl & T3)%GetByID_find & ->). cbn in Hu, T3. rewrite <- T2 in Hu, T3.
    destruct (us_IsActive u) eqn:Ha; [|done]. cbn [negb] in H.
    apply bind_ok in H as ([] & s4 & Hrec & H). unfold ignore in Hrec. destruct (gac _ _) as [x s5] eqn:Er. injection Hrec as <-.
    apply gac_run in Er as (w4 & Hr4 & ->). apply (steps_run _ _ _ _ _ (RecordUsage_people (tk_ID t))) in Hr4. unfold on_tables in Hr4.
    injection H as <- <-. exists tok, src, u. cbn in *. rewrite T3 in Hr4. split_and!; try done.
    right. exists t. split_and!; done.
Qed.

(** A request passes the authentication only as a user that exists, is not
    deleted and is active, on a credential that is a session token under one of
    the current secrets, issued no earlier than the last change of the password,
    or the secret of an API token of that user that is neither revoked nor
    expired. No table but the usage of tokens changes. *)
Theorem Authenticate_admits (r r' : Request) (s s' : Guarded) (H : Authenticate kr r s = (Ok (Pass r'), s')) :
  exists tokenStr source u,
    credential r = inl (tokenStr, source) /\ GetAuthSource r' = source /\ same_request r r' /\ same_people (people s) (people s') /\
    In u (ac_users (people s)) /\ us_ID u = GetUserID r' /\ live u = true /\ us_IsActive u = true /\ vouched tokenStr r' s u.
Proof. by apply admits. Qed.

(** What the passing of a guard establishes, for the request and the state
    that reach the handler. *)
Definition known (g : guard) (r : Request) (s : Guarded) : Prop :=
  match g with
  | GAuthenticate => identified r s
  | GCSRF true => csrf_ok r
  | GRequireAdmin => has_admin (people s) (GetUserID r) = true
  | GSCIMAuth =>
      exists k, In k (map scim_key (ac_scim (people s))) /\
        fst (fst k) = GetScimTokenID r /\ snd k = true /\
        bc_compare (snd (fst k)) (TrimPrefix (q_Header r "Authorization") "Bearer ") = true
  | _ => True
  end.

(** The guards that say who a request is from. *)
Definition identifies (g : guard) : bool := match g with GAuthenticate | GSCIMAuth => true | _ => false end.

Definition one_level (s : Guarded) : Prop := List.NoDup (map pm_user_id (ac_permissions (people s))).

Lemma one_level_same s s' : same_people (people s) (people s') -> one_level s -> one_level s'.
Proof. intros (_ & H & _). unfold one_level. by rewrite H. Qed.

Lemma known_same g r s s' : same_people (people s) (people s') -> known g r s -> known g r s'.
Proof.
  intros H. destruct g as [| | | |[|]| | |]; cbn; try done.
  - unfold identified. destruct H as (-> & _). done.
  - by rewrite (same_people_has_admin _ _ _ H).
  - destruct H as (_ & _ & _ & _ & ->). done.
Qed.

Lemma limit_key_pass mount max window key msg r r' s s' : limit_key mount max window key msg r s = (Ok (Pass r'), s') ->
  r' = r /\ same_people (people s) (people s').
Proof.
  unfold limit_key. intros H. apply bind_ok in H as (now & s1 & Hn & H). apply gac_run in Hn as (w & [= <- <-] & ->).
  apply bind_ok in H as (s2 & s3 & [= <- <-] & H). destruct (RateLimit.Check _ _ _) as [res rl].
  apply bind_ok in H as ([] & s3 & [= <-] & H). destruct (RateLimit.rr_Allowed res); [|done].
  injection H as <- <-. destruct s as [[? ?] ? ? ?]. cbn. split; [done|reflexivity].
Qed.

Lemma csrf_pass enforce r r' s s' : CSRF enforce r s = (Ok (Pass r'), s') ->
  r' = r /\ s' = s /\ known (GCSRF enforce) r s.
Proof.
  unfold CSRF. cbn [known]. unfold csrf_ok. cbn [existsb].
  destruct (String.eqb (q_Method r) "GET") eqn:E1; [by intros [= <- <-]; destruct enforce|].
  destruct (String.eqb (q_Method r) "HEAD") eqn:E2; [by intros [= <- <-]; destruct enforce|].
  destruct (String.eqb (q_Method r) "OPTIONS") eqn:E3; [by intros [= <- <-]; destruct enforce|]. cbn [orb].
  destruct (String.eqb_spec (GetAuthSource r) AuthSourceCookie) as [Hc|Hc]; cbn [negb].
  2:{ intros [= <- <-]. split_and!; [done..|]. by destruct enforce. }
  destruct enforce; [rewrite andb_true_r|by rewrite andb_false_r; intros [= <- <-]].
  destruct (q_Cookie r CSRFCookieName) as [v|] eqn:Ev; [|done].
  destruct (String.eqb_spec (q_Header r CSRFHeaderName) ""); [done|]. destruct (String.eqb_spec v ""); [done|].
  destruct (String.eqb_spec (q_Header r CSRFHeaderName) v) as [->|]; [|done]. by intros [= <- <-].
Qed.

Lemma IsAdmin_gac id s b s' : one_level s -> gac (IsAdmin id) s = (Ok b, s') ->
  b = has_admin (people s) id /\ same_people (people s) (people s').
Proof.
  intros Hl H. apply gac_run in H as (w & H & ->). apply IsAdmin_run in H as [-> Ht]; [|done]. cbn. rewrite Ht. done.
Qed.

Lemma IsAdmin_gac_same id s x s' : gac (IsAdmin id) s = (x, s') -> same_people (people s) (people s').
Proof.
  intros H. apply gac_run in H as (w & H & ->). apply (steps_run _ _ _ _ _ (IsAdmin_reads id)) in H. red in H.
  cbn. rewrite H. reflexivity.
Qed.

Lemma gdb_people {A} (m : DbM A) s x s' : gdb m s = (x, s') -> people s' = people s.
Proof. unfold gdb, zoom. destruct (m (gs_db s)). by intros [= _ <-]. Qed.

Lemma admin_pass r r' s s' : one_level s -> RequireAdmin r s = (Ok (Pass r'), s') ->
  r' = r /\ same_people (people s) (people s') /\ known GRequireAdmin r s'.
Proof.
  intros Hl H. unfold RequireAdmin, mbind, ST_bind, try in H. destruct (gac _ s) as [[[|]|] s1] eqn:E; [|done..].
  injection H as <- <-. pose proof (IsAdmin_gac_same _ _ _ _ E) as Hs. apply IsAdmin_gac in E as [Hb _]; [|done].
  split_and!; [done..|]. cbn. by rewrite (same_people_has_admin _ _ _ Hs).
Qed.

Lemma maintenance_pass r r' s s' : MaintenanceMode r s = (Ok (Pass r'), s') -> r' = r /\ same_people (people s) (people s').
Proof.
  intros H. unfold MaintenanceMode in H. unfold mbind at 1, ST_bind at 1, try at 1 in H.
  destruct (gdb _ s) as [mode s1] eqn:E1. apply gdb_people in E1.
  destruct (negb _); [injection H as <- <-; rewrite E1; done|].
  apply bind_ok in H as (admin & s2 & Ha & H).
  assert (same_people (people s1) (people s2)) as Hs.
  { destruct (negb _) in Ha; [|by injection Ha as _ <-]. unfold mbind, ST_bind, try in Ha.
    destruct (gac _ s1) as [a s3] eqn:E. injection Ha as _ <-. by eapply IsAdmin_gac_same. }
  rewrite E1 in Hs. destruct admin; [by injection H as <- <-|].
  unfold mbind at 1, ST_bind at 1, try at 1 in H. by destruct (gdb _ s2).
Qed.

Lemma ScimRecordUsage_people id : steps (on_tables same_people) (ScimRecordUsage id).
Proof.
  unfold ScimRecordUsage. apply steps_ignore, steps_write; [apply _|]. intros a. unfold same_people. cbn. split_and!; try done.
  apply map_update. by intros [].
Qed.

Lemma scim_pass r r' s s' : SCIMAuth r s = (Ok (Pass r'), s') -> same_people (people s) (people s') /\ known GSCIMAuth r' s'.
Proof.
  intros H. unfold SCIMAuth in H. unfold mbind at 1, ST_bind at 1, try at 1 in H.
  destruct (gdb _ s) as [mode s1] eqn:E1. apply gdb_people in E1. destruct (negb _); [done|].
  destruct (String.eqb _ _); [done|]. destruct (negb _); [done|].
  unfold mbind at 1, ST_bind at 1, try at 1 in H. destruct (gac _ s1) as [[t|] s2] eqn:E2; [|done].
  apply gac_run in E2 as (w2 & Hv & ->). unfold ScimValidate in Hv. apply bind_ok in Hv as (rows & w3 & Hr & Hv).
  apply read_run in Hr as [Ht [[= ->]|[e [=]]]]. destruct (List.find _ _) as [t'|] eqn:Ef; [|done]. injection Hv as -> ->.
  apply find_some in Ef as [Hin Hc]. apply in_select in Hin as [Hin Ha].
  apply bind_ok in H as ([] & s4 & Hrec & H). unfold ignore in Hrec. destruct (gac _ _) as [x s5] eqn:Er. injection Hrec as <-.
  apply gac_run in Er as (w4 & Hr4 & ->). apply (steps_run _ _ _ _ _ (ScimRecordUsage_people (sc_ID t))) in Hr4. unfold on_tables in Hr4.
  injection H as <- <-. cbn in Hr4 |- *. rewrite Ht, E1 in Hr4. split; [done|].
  exists (scim_key t). rewrite E1 in Hin. destruct Hr4 as (_ & _ & _ & _ & ->). split_and!; [by apply in_map|done..].
Qed.

Lemma Authenticate_pass r r' s s' : Authenticate kr r s = (Ok (Pass r'), s') -> same_people (people s) (people s') /\ known GAuthenticate r' s'.
Proof.
  intros H. apply admits in H as (tok & src & u & _ & _ & _ & Hs & Hin & Hid & Hl & Ha & _). split; [done|].
  exists u. by rewrite (proj1 Hs).
Qed.

Lemma interp_pass g f r r' s s' : one_level s -> interp kr trustedProxies g = Some f -> f r s = (Ok (Pass r'), s') ->
  same_people (people s) (people s') /\ known g r' s' /\ (identifies g = false -> r' = r).
Proof.
  intros Hl Hi H. destruct g; cbn in Hi; (try discriminate Hi); injection Hi as <-.
  - apply limit_key_pass in H as []. done.
  - apply limit_key_pass in H as []. done.
  - apply Authenticate_pass in H as []. done.
  - apply csrf_pass in H as (-> & -> & H). split; [reflexivity|done].
  - apply maintenance_pass in H as []. done.
  - apply admin_pass in H as (-> & ? & ?); done.
  - apply scim_pass in H as []. done.
Qed.

(** Two handlers that agree on what the guards let through serve alike. *)
Definition agree (gs : list guard) (h h' : Request -> GuardM Response) (s : Guarded) (r : Request) : Prop :=
  forall s', same_people (people s) (people s') -> Forall (fun g => known g r s') gs -> h r s' = h' r s'.

Lemma Idempotency_agree h h' r s :
  (forall s', same_people (people s) (people s') -> h r s' = h' r s') -> Idempotency h r s = Idempotency h' r s.
Proof.
  intros H. unfold Idempotency. destruct (negb _); [apply H; reflexivity|]. destruct (String.eqb _ _); [apply H; reflexivity|].
  unfold mbind, ST_bind, try. destruct (gidem _ s) as [[i|e] s1] eqn:E; [reflexivity|]. rewrite H; [reflexivity|]. unfold gidem, zoom in E. destruct (read_row _ _). injection E as _ <-. reflexivity.
Qed.

Lemma guarded_agree_plain gs h h' r s : forallb (fun g => negb (identifies g)) gs = true -> one_level s -> agree gs h h' s r ->
  guarded kr trustedProxies gs h r s = guarded kr trustedProxies gs h' r s.
Proof.
  revert s. induction gs as [|g gs IH]; intros s Hp Hl H; cbn [guarded].
  - by apply H.
  - apply andb_prop in Hp as [Hg%negb_true_iff Hp]. destruct (interp kr trustedProxies g) as [f|] eqn:Ei.
    + unfold mbind, ST_bind. destruct (f r s) as [[[r1|a]|e] s1] eqn:Ef; [|done..].
      destruct (interp_pass _ _ _ _ _ _ Hl Ei Ef) as (Hs & Hk & Hr). rewrite (Hr Hg) in *.
      apply IH; [done|by eapply one_level_same|]. intros s2 Hs2 Hk2. apply H; [by etransitivity|].
      constructor; [by eapply known_same|done].
    + apply Idempotency_agree. intros s1 Hs. apply IH; [done|by eapply one_level_same|].
      intros s2 Hs2 Hk2. apply H; [by etransitivity|]. constructor; [|done]. by destruct g.
Qed.

Lemma guarded_agree g gs h h' r s : forallb (fun g => negb (identifies g)) gs = true -> one_level s ->
  (forall r', agree (g :: gs) h h' s r') ->
  guarded kr trustedProxies (g :: gs) h r s = guarded kr trustedProxies (g :: gs) h' r s.
Proof.
  intros Hp Hl H. destruct (identifies g) eqn:Eg.
  2:{ apply guarded_agree_plain; [cbn; by rewrite Eg, Hp|done|apply H]. }
  cbn [guarded]. destruct (interp kr trustedProxies g) as [f|] eqn:Ei; [|by destruct g].
  unfold mbind, ST_bind. destruct (f r s) as [[[r1|a]|e] s1] eqn:Ef; [|done..].
  destruct (interp_pass _ _ _ _ _ _ Hl Ei Ef) as (Hs & Hk & _).
  apply guarded_agree_plain; [done|by eapply one_level_same|]. intros s2 Hs2 Hk2. apply H; [by etransitivity|].
  constructor; [by eapply known_same|done].
Qed.

(** Whom a route is for, by its path alone. *)
Inductive access := Anyone | Member | Administrator | Provisioner.

Definition open_paths : list string :=
  ["/api/v2/auth/login"; "/api/v2/auth/register"; "/api/v2/auth/logout"; "/api/v2/auth/forgot-password"; "/api/v2/auth/reset-password";
   "/api/v2/auth/verify-email"; "/api/v2/auth/oidc/providers"; "/api/v2/auth/oidc/authorize/{providerId}"; "/api/v2/auth/oidc/callback"].

Definition access_of (pattern : string) : access :=
  if HasPrefix pattern "/api/v2/admin/" then Administrator else
  if HasPrefix pattern "/scim/v2/" then Provisioner else
  if HasPrefix pattern "/api/v2/" then (if existsb (String.eqb pattern) open_paths then Anyone else Member) else Anyone.

(** What must hold where the handler of such a route runs. *)
Definition cleared (a : access) (r : Request) (s : Guarded) : Prop :=
  match a with
  | Anyone => True
  | Member => identified r s /\ csrf_ok r
  | Administrator => identified r s /\ csrf_ok r /\ has_admin (people s) (GetUserID r) = true
  | Provisioner => known GSCIMAuth r s
  end.

Definition demands (a : access) : list guard :=
  match a with
  | Anyone => []
  | Member => [GAuthenticate; GCSRF true]
  | Administrator => [GAuthenticate; GCSRF true; GRequireAdmin]
  | Provisioner => [GSCIMAuth]
  end.

Definition mounted_well (rt : route) : bool :=
  forallb (fun g => bool_decide (g ∈ rt_guards rt)) (demands (access_of (rt_pattern rt))) &&
  forallb (fun g => negb (identifies g)) (tail (rt_guards rt)).

Lemma router_mounted_well : forallb mounted_well NewRouter = true.
Proof. vm_compute. reflexivity. Qed.

Lemma demands_clear a gs r s : forallb (fun g => bool_decide (g ∈ gs)) (demands a) = true -> Forall (fun g => known g r s) gs -> cleared a r s.
Proof.
  intros Hd Hk. assert (forall g, In g (demands a) -> known g r s) as H.
  { intros g Hg. rewrite forallb_forall in Hd. apply Hd, bool_decide_eq_true in Hg. rewrite Forall_forall in Hk. by apply Hk. }
  destruct a; cbn in Hd, H |- *; [done| | |apply (H GSCIMAuth); auto].
  - split; [apply (H GAuthenticate); auto|apply (H (GCSRF true)); auto].
  - split_and!; [apply (H GAuthenticate); auto|apply (H (GCSRF true)); auto|apply (H GRequireAdmin); auto].
Qed.

(** C11. The handler of a route under /api/v2 other than the nine public ones
    only counts for requests of a live, active user whose mutation, if a browser
    sent it, carries the CSRF token; under /api/v2/admin that user is an
    administrator, and under /scim/v2 the caller holds a SCIM token that is not
    revoked: handlers that agree on those requests cannot be told apart, by the
    answer or by what is left in the tables. No guard changes who is who. *)
Theorem routes_guarded (rt : route) (h h' : Request -> GuardM Response) (r : Request) (s : Guarded)
    (Hrt : In rt NewRouter) (Hl : List.NoDup (map pm_user_id (ac_permissions (people s))))
    (Hh : forall r' s', same_people (people s) (people s') -> cleared (access_of (rt_pattern rt)) r' s' -> h r' s' = h' r' s') :
  serve kr trustedProxies rt h r s = serve kr trustedProxies rt h' r s.
Proof.
  unfold serve, ResolveClientIP. unfold mbind, ST_bind, mret, ST_ret.
  pose proof router_mounted_well as Hw. rewrite forallb_forall in Hw. apply Hw, andb_prop in Hrt as [Hd Ht].
  assert (forall r', agree (rt_guards rt) h h' s r') as Ha.
  { intros r' s' Hs Hk. apply Hh; [done|]. by eapply demands_clear. }
  destruct (rt_guards rt) as [|g gs] eqn:Eg.
  - apply Ha; [reflexivity|done].
  - by apply guarded_agree.
Qed.
End admission.

(** ** Concrete requests *)

#[local] Instance plain_secrets : Bcrypt := {| bc_generate := fun pw salt => Ok pw; bc_compare := String.eqb |}.

(** A session token is the secret and the number of the user, issued at 100. *)
#[local] Instance plain_jwt : Jwt := {|
  jwt_sign := fun secret claims => Ok (secret +:+ ":" +:+ pretty (jc_UserID claims));
  jwt_parse := fun secret now token =>
    if String.eqb token (secret +:+ ":1") then Ok (mkClaims 1 "root@example.com" (Some 100) (Some 200) "indelible") else
    if String.eqb token (secret +:+ ":2") then Ok (mkClaims 2 "ann@example.com" (Some 100) (Some 200) "indelible") else Err (ENew "signature");
|}.

#[local] Instance no_addresses : NetAddr := {|
  ParseIP := fun _ => None; SplitHostPort := fun _ => Err (ENew "no port"); ParseCIDR := fun _ => None
|}.

Definition jwt_ring : Keyring := mkKeyring "new" ["new"; "old"] {["new" := "s1"; "old" := "s0"]}.

Definition a_user (id : Z) (email : string) (changed : option Z) : User :=
  mkUser id email None "" "" true false false None None None None changed 0 0 None.

(** An administrator with a token that only permits reading, and a user who
    changed the password at 150. *)
Definition front_door : Guarded :=
  mkGuarded
    (mkWorld (mkAccounts [a_user 1 "root@example.com" None; a_user 2 "ann@example.com" (Some 150)] 2 [mkPerm 1 "admin" None; mkPerm 2 "read" None]
      [] 0 [] [mkApiToken 7 "u" "ci" "" "ind_ro" 1 json_read_only None None None None None None None 0 None 0] 7 [] [] 0 [] [] [] [] 0 [] 0 (120 * ac_second)) [])
    (Schema.set_settings [("maintenance_mode", "true"); ("maintenance_message", "Back at 5")] (mkDb [] 0 [] 0 [] 0 [] [] [] [] [] 0 [] [] [] [] [] 0 [] 0 [])) ∅ (mkWorld (mkIdemTable [] 0) []).

Definition request (method auth cookie : string) : Request :=
  mkReq method "/" "192.0.2.1:4711" (fun h => if String.eqb h "Authorization" then auth else "")
    (fun c => if String.eqb c "session" then Some cookie else None) no_context.

Definition ok_handler : Request -> GuardM Response := fun _ => mret (mkResp 200 [] "done").

(** The handler that answers only administrators. *)
Definition wary_handler : Request -> GuardM Response := fun r =>
  s ← get; mret (if has_admin (tables (gs_ac s)) (GetUserID r) then mkResp 200 [] "done" else mkResp 500 [] "").

Example Authenticate_admits_witness :
  exists tokenStr source u, credential (request "GET" "Bearer s0:1" "") = inl (tokenStr, source) /\
    u = a_user 1 "root@example.com" None /\ tokenStr = "s0:1" /\ source = AuthSourceHeader.
Proof.
  destruct (Authenticate_admits jwt_ring (request "GET" "Bearer s0:1" "")
    (with_ctx (mkCtx 1 0 "jwt" AuthSourceHeader 0 "") (request "GET" "Bearer s0:1" "")) front_door front_door) as (t & src & u & Hc & _ & _ & _ & Hin & Hid & _).
  - vm_compute. reflexivity.
  - exists t, src, u. split; [exact Hc|]. vm_compute in Hc. injection Hc as <- <-.
    vm_compute in Hin, Hid. destruct Hin as [<-|[<-|[]]]; [done|discriminate Hid].
Defined.

Definition update_settings : route := mkRoute "PATCH" "/api/v2/admin/settings" "AdminUpdateSettings" [GAuthenticate; GCSRF true; GRequireAdmin].

Example routes_guarded_witness :
  serve jwt_ring [] update_settings ok_handler (request "PATCH" "Bearer s1:2" "") front_door =
  serve jwt_ring [] update_settings wary_handler (request "PATCH" "Bearer s1:2" "") front_door.
Proof.
  apply (routes_guarded jwt_ring [] update_settings ok_handler wary_handler).
  - do 85 (try (left; reflexivity); right).
  - vm_compute. repeat constructor; vm_compute; intuition discriminate.
  - intros r' s' _ (_ & _ & H). unfold ok_handler, wary_handler, mbind, ST_bind, get, mret, ST_ret. by rewrite H.
Defined.

(** A token whose permissions say it only reads, used by an administrator,
    changes the settings: nothing reads the permissions of a token. *)
Example read_only_token_administers :
  map tk_Permissions (ac_tokens (tables (gs_ac front_door))) = [json_read_only] /\
  fst (serve jwt_ring [] update_settings ok_handler (request "PATCH" "Bearer ind_ro" "") front_door) = Ok (mkResp 200 [] "done").
Proof. vm_compute. done. Qed.

(** Nor does anything read the level of a user but the guard for
    administrators: a user with the level "read" deletes. *)
Example read_only_user_deletes :
  let rt := mkRoute "DELETE" "/api/v2/collections/{id}" "DeleteCollection" [GAuthenticate; GCSRF true] in
  fst (GetEffective 2 (gs_ac front_door)) = Ok "read" /\
  fst (serve jwt_ring [] rt ok_handler (request "DELETE" "Bearer ind_rw" "")
    (put_gs_ac (mkWorld (set_ac_tokens [mkApiToken 8 "v" "ci" "" "ind_rw" 2 json_read_only None None None None None None None 0 None 0]
       (tables (gs_ac front_door))) []) front_door)) = Ok (mkResp 200 [] "done").
Proof. vm_compute. done. Qed.

(** A session from before the change of the password is refused. *)
Example old_session_refused :
  fst (serve jwt_ring [] update_settings ok_handler (request "PATCH" "Bearer s1:2" "") front_door) =
  Ok (refusal 401 "session invalidated by password change" "unauthorized").
Proof. vm_compute. done. Qed.

(** A cookie without the header is refused for a change, not for a read. *)
Example cookie_needs_csrf_token :
  fst (serve jwt_ring [] update_settings ok_handler (request "PATCH" "" "s1:1") front_door) =
    Ok (refusal 403 "csrf token invalid or missing" "forbidden") /\
  fst (serve jwt_ring [] update_settings ok_handler (request "GET" "" "s1:1") front_door) = Ok (mkResp 200 [] "done").
Proof. vm_compute. done. Qed.

(** The route to log out has no guard. *)
Example logout_is_public :
  List.find (fun rt => String.eqb (rt_handler rt) "Logout") NewRouter = Some (mkRoute "POST" "/api/v2/auth/logout" "Logout" []).
Proof. vm_compute. done. Qed.

(** The lifetime of a session overflows int64 from 2562048 hours on: the token
    expires before it is issued. *)
#[local] Instance expiry_jwt : Jwt := {|
  jwt_sign := fun _ c => Ok (if default 0 (jc_ExpiresAt c) <? default 0 (jc_IssuedAt c) then "expired" else "fresh");
  jwt_parse := fun _ _ _ => Err (ENew "");
|}.

Example expiry_overflows :
  @GenerateToken expiry_jwt (1700000000 * ac_second) "s1" 1 "a@b.c" 2562048 = Ok "expired" /\
  @GenerateToken expiry_jwt (1700000000 * ac_second) "s1" 1 "a@b.c" 2562047 = Ok "fresh".
Proof. vm_compute. done. Qed.

(** Shared address space (RFC 6598) and the benchmarking networks pass the
    egress guard; a private address in 4-in-6 form does not. *)
Example carrier_grade_nat_passes :
  isBlockedIP (Some [100; 64; 0; 1]) = false /\ isBlockedIP (Some [198; 18; 0; 1]) = false /\
  isBlockedIP (Some [0;0;0;0;0;0;0;0;0;0;255;255;10;0;0;1]) = true.
Proof. vm_compute. done. Qed.

(** A quote in the message ends the string of the body. *)
Example maintenance_message_is_not_escaped :
  let q := String (Ascii.ascii_of_N 34) "" in
  maintenance_body ("see " +:+ q +:+ "status" +:+ q) =
  "{" +:+ q +:+ "error" +:+ q +:+ ":" +:+ q +:+ "see " +:+ q +:+ "status" +:+ q +:+ q +:+ "," +:+ q +:+ "code" +:+ q +:+ ":" +:+ q +:+ "maintenance_mode" +:+ q +:+ "}".
Proof. vm_compute. done. Qed.
