(* ===== verification/Http.v ===== *)
(** * Handlers

    How a handler ends: src/internal/handlers/json.go, and the cursor of
    pagination.go. A handler is a computation whose error is the refusal it
    answers with; what it returns is its status and the value it encodes. *)

From Stdlib Require Import Ascii.
From S2P Require Import Prelude GoLib Clock.

Open Scope Z_scope.

(** The bodies of jsonError and jsonErrorWithCode. *)
Record Refusal := mkRefusal { rf_status : Z; rf_error : string; rf_code : option string }.

Definition jsonError (message : string) (status : Z) : Refusal := mkRefusal status message None.
Definition jsonErrorWithCode (message code : string) (status : Z) : Refusal := mkRefusal status message (Some code).

Definition is_antd (p : antd_error -> bool) (err : error) : bool := bool_decide (is_Some (errors_as p err)).

(** Of antd's types the worker's model tells network failures, unavailability,
    bad requests and too large files apart; [payment] and [notFound] say whether
    the error is one of the other two. *)
Definition jsonAntdError (payment notFound : bool) (context : string) (err : error) : Refusal :=
  if is_antd (fun a => match a with BadRequestError => true | _ => false end) err then jsonErrorWithCode (context +:+ ": invalid request") "antd_bad_request" 400 else
  if payment then jsonErrorWithCode (context +:+ ": payment failed") "antd_payment_error" 402 else
  if notFound then jsonErrorWithCode (context +:+ ": not found on network") "antd_not_found" 404 else
  if is_antd (fun a => match a with TooLargeError => true | _ => false end) err then jsonErrorWithCode (context +:+ ": file too large for network") "antd_too_large" 413 else
  if is_antd (fun a => match a with NetworkError => true | _ => false end) err then jsonErrorWithCode (context +:+ ": network unreachable") "antd_network_error" 502 else
  if is_antd (fun a => match a with ServiceUnavailableError => true | _ => false end) err then jsonErrorWithCode (context +:+ ": storage daemon unavailable") "antd_unavailable" 503 else
  jsonErrorWithCode (context +:+ ": operation failed") "antd_error" 502.

Section handlers.
Context {S : Type}.

Abbreviation H := (ST Refusal S).

(** [if err != nil { jsonError(...); return }]. *)
Definition or_refuse {A} (f : error -> Refusal) (m : ST error S A) : H A := fun s =>
  let '(r, s') := m s in (match r with Ok a => Ok a | Err e => Err (f e) end, s').

(** A service call whose error the handler looks at itself. *)
Definition attempt {A} (m : ST error S A) : H (result error A) := fun s => let '(r, s') := m s in (Ok r, s').

Definition refuse {A} (r : Refusal) : H A := fail r.
Definition require (b : bool) (r : Refusal) : H unit := if b then mret tt else fail r.

(** A value that was parsed from the request. *)
Definition decoded {A} (o : option A) (r : Refusal) : H A := match o with Some a => mret a | None => fail r end.

Definition answer {A} (status : Z) (body : A) : H (Z * A) := mret (status, body).

Lemma or_refuse_ok {A} f (m : ST error S A) s a s' : or_refuse f m s = (Ok a, s') -> m s = (Ok a, s').
Proof. unfold or_refuse. destruct (m s) as [[x|e] s1]; [by intros [= <- <-]|done]. Qed.

Lemma require_ok b r s x s' : require b r s = (Ok x, s') -> b = true /\ s' = s.
Proof. unfold require. destruct b; [by intros [= _ <-]|done]. Qed.

Lemma decoded_ok {A} (o : option A) r s a s' : decoded o r s = (Ok a, s') -> o = Some a /\ s' = s.
Proof. unfold decoded. destruct o; [by intros [= <- <-]|done]. Qed.

Lemma attempt_ok {A} (m : ST error S A) s r s' : attempt m s = (Ok r, s') -> m s = (r, s').
Proof. unfold attempt. destruct (m s) as [x s1]. by intros [= <- <-]. Qed.

Section steps.
Context (R : S -> S -> Prop) `{!PreOrder R}.

Lemma steps_or_refuse {A} f (m : ST error S A) : steps R m -> steps R (or_refuse f m).
Proof. intros Hm s. specialize (Hm s). unfold or_refuse. by destruct (m s). Qed.

Lemma steps_attempt {A} (m : ST error S A) : steps R m -> steps R (attempt m).
Proof. intros Hm s. specialize (Hm s). unfold attempt. by destruct (m s). Qed.

Lemma steps_require b r : steps R (require b r).
Proof. unfold require. destruct b; eauto with steps_db. Qed.

Lemma steps_decoded {A} (o : option A) r : steps R (decoded o r).
Proof. unfold decoded. destruct o; eauto with steps_db. Qed.
End steps.
End handlers.

#[export] Hint Resolve steps_or_refuse steps_attempt steps_require steps_decoded : steps_db.

Definition invalid_body : Refusal := jsonError "invalid request body" 400.

(** ** Times in answers *)

(** [t.Format("2006-01-02T15:04:05Z")] of a UTC time. *)
Definition format_z (seconds : Z) : string := iso_text (civil_of seconds) +:+ "Z".

Example format_epoch : format_z 0 = "1970-01-01T00:00:00Z". Proof. reflexivity. Qed.
Example format_leap_day : format_z 1709251199 = "2024-02-29T23:59:59Z". Proof. reflexivity. Qed.

(** [strconv.ParseInt(s, 10, 64)] and [strconv.Atoi] whose error is dropped: 0
    for a syntax error, the nearest int64 for a number out of range. *)
Definition parse_int_value (s : string) : Z := match parse_big s with Some z => Z.max int64_min (Z.min int64_max z) | None => 0 end.
Definition atoi_or_zero : string -> Z := parse_int_value.

Lemma parse_int_value_ok s n : ParseInt s = Some n -> parse_int_value s = n.
Proof.
  unfold ParseInt, parse_int_value. destruct (parse_big s) as [z|]; [|done]. cbn.
  destruct (Z.leb_spec int64_min z), (Z.leb_spec z int64_max); cbn; intros [= <-]. lia.
Qed.

Example parse_int_value_clamps : parse_int_value "99999999999999999999" = int64_max /\ parse_int_value "-99999999999999999999" = int64_min /\ parse_int_value "12x" = 0.
Proof. done. Qed.

(** ** Cursors: base64 of a JSON object *)

Record Cursor := mkCursor { cu_ID : Z; cu_Dir : string }.

(** The URL alphabet of base64. *)
Definition b64_char (n : N) : ascii :=
  ascii_of_N (if n <? 26 then 65 + n else if n <? 52 then 71 + n else if n <? 62 then n - 4 else if n =? 62 then 45 else 95)%N.

Fixpoint b64_encode (bs : list N) : string :=
  match bs with
  | a :: b :: c :: rest =>
      let n := (a * 65536 + b * 256 + c)%N in
      String (b64_char (n / 262144)) (String (b64_char (n / 4096 mod 64)) (String (b64_char (n / 64 mod 64)) (String (b64_char (n mod 64)) (b64_encode rest))))
  | [a; b] => let n := (a * 65536 + b * 256)%N in
      String (b64_char (n / 262144)) (String (b64_char (n / 4096 mod 64)) (String (b64_char (n / 64 mod 64)) "="))
  | [a] => let n := (a * 65536)%N in String (b64_char (n / 262144)) (String (b64_char (n / 4096 mod 64)) "==")
  | [] => ""
  end.

Definition bytes_N (s : string) : list N := map N_of_ascii (String.list_ascii_of_string s).

(** The directions hold no character JSON escapes. *)
Definition EncodeCursor (c : Cursor) : string :=
  b64_encode (bytes_N ("{" +:+ json_string "id" +:+ ":" +:+ big_String (cu_ID c) +:+ "," +:+ json_string "dir" +:+ ":" +:+ json_string (cu_Dir c) +:+ "}")).
