(* ===== verification/Library.v ===== *)
(** * The tables of tags and collections

    The rows and tables behind src/internal/services/tag.go, tag_rule.go,
    collection.go, collection_tags.go and search.go, with the keys, references
    and cascades the migrations put on them, and the LIKE of SQLite. *)

From S2P Require Import Prelude GoLib Sql Schema Stmt.
From Stdlib Require Import Ascii.

Open Scope Z_scope.

(** ** Rows *)

(** A row of file_tags: services.Tag. *)
Record Tag := mkTag { ft_ID : Z; ft_UploadID : Z; ft_Key : string; ft_Value : string; ft_CreatedAt : Z }.

(** A row of collections. *)
Record CollectionRow := mkCollection {
  cl_ID : Z;
  cl_Name : string;
  cl_Description : string;
  cl_ParentID : option Z;
  cl_CreatedBy : Z;
  cl_CreatedAt : Z;
  cl_UpdatedAt : Z;
}.

(** services.Collection: the row with the number of its files. *)
Record Collection := mkCounted { co_row : CollectionRow; co_FileCount : Z }.

(** A row of collection_files. *)
Record CollectionFile := mkCollectionFile { cf_collection_id : Z; cf_upload_id : Z; cf_added_at : Z }.

(** A row of collection_tags. *)
Record CollectionTag := mkCollectionTag { ct_id : Z; ct_collection_id : Z; ct_key : string; ct_value : string }.

(** A row of tag_rules: services.TagRule. *)
Record TagRule := mkRule {
  ru_ID : Z;
  ru_Name : string;
  ru_Description : string;
  ru_MatchField : string;
  ru_MatchOp : string;
  ru_MatchValue : string;
  ru_ApplyKey : string;
  ru_ApplyValue : string;
  ru_Priority : Z;
  ru_IsEnabled : bool;
  ru_CreatedBy : Z;
  ru_CreatedAt : Z;
  ru_UpdatedAt : Z;
}.

#[export] Instance Tag_keyed : Keyed Tag := ft_ID.
#[export] Instance Collection_keyed : Keyed CollectionRow := cl_ID.
#[export] Instance TagRule_keyed : Keyed TagRule := ru_ID.

(** ** Tables *)

Record Library := mkLibrary {
  lb_uploads : list Upload;
  lb_seq_uploads : Z;  (* AUTOINCREMENT *)
  lb_users : list (Z * string);  (* id and email *)
  lb_tags : list Tag;
  lb_seq_tags : Z;
  lb_collections : list CollectionRow;
  lb_seq_collections : Z;
  lb_files : list CollectionFile;
  lb_ctags : list CollectionTag;
  lb_seq_ctags : Z;
  lb_rules : list TagRule;
  lb_seq_rules : Z;
  lb_now : Z;  (* nanoseconds since the epoch *)
}.

Abbreviation LibM := (ST error (World Library)).

Definition set_lb_uploads v l := mkLibrary v (lb_seq_uploads l) (lb_users l) (lb_tags l) (lb_seq_tags l) (lb_collections l) (lb_seq_collections l) (lb_files l) (lb_ctags l) (lb_seq_ctags l) (lb_rules l) (lb_seq_rules l) (lb_now l).
Definition set_lb_seq_uploads v l := mkLibrary (lb_uploads l) v (lb_users l) (lb_tags l) (lb_seq_tags l) (lb_collections l) (lb_seq_collections l) (lb_files l) (lb_ctags l) (lb_seq_ctags l) (lb_rules l) (lb_seq_rules l) (lb_now l).
Definition set_lb_users v l := mkLibrary (lb_uploads l) (lb_seq_uploads l) v (lb_tags l) (lb_seq_tags l) (lb_collections l) (lb_seq_collections l) (lb_files l) (lb_ctags l) (lb_seq_ctags l) (lb_rules l) (lb_seq_rules l) (lb_now l).
Definition set_lb_tags v l := mkLibrary (lb_uploads l) (lb_seq_uploads l) (lb_users l) v (lb_seq_tags l) (lb_collections l) (lb_seq_collections l) (lb_files l) (lb_ctags l) (lb_seq_ctags l) (lb_rules l) (lb_seq_rules l) (lb_now l).
Definition set_lb_seq_tags v l := mkLibrary (lb_uploads l) (lb_seq_uploads l) (lb_users l) (lb_tags l) v (lb_collections l) (lb_seq_collections l) (lb_files l) (lb_ctags l) (lb_seq_ctags l) (lb_rules l) (lb_seq_rules l) (lb_now l).
Definition set_lb_collections v l := mkLibrary (lb_uploads l) (lb_seq_uploads l) (lb_users l) (lb_tags l) (lb_seq_tags l) v (lb_seq_collections l) (lb_files l) (lb_ctags l) (lb_seq_ctags l) (lb_rules l) (lb_seq_rules l) (lb_now l).
Definition set_lb_seq_collections v l := mkLibrary (lb_uploads l) (lb_seq_uploads l) (lb_users l) (lb_tags l) (lb_seq_tags l) (lb_collections l) v (lb_files l) (lb_ctags l) (lb_seq_ctags l) (lb_rules l) (lb_seq_rules l) (lb_now l).
Definition set_lb_files v l := mkLibrary (lb_uploads l) (lb_seq_uploads l) (lb_users l) (lb_tags l) (lb_seq_tags l) (lb_collections l) (lb_seq_collections l) v (lb_ctags l) (lb_seq_ctags l) (lb_rules l) (lb_seq_rules l) (lb_now l).
Definition set_lb_ctags v l := mkLibrary (lb_uploads l) (lb_seq_uploads l) (lb_users l) (lb_tags l) (lb_seq_tags l) (lb_collections l) (lb_seq_collections l) (lb_files l) v (lb_seq_ctags l) (lb_rules l) (lb_seq_rules l) (lb_now l).
Definition set_lb_seq_ctags v l := mkLibrary (lb_uploads l) (lb_seq_uploads l) (lb_users l) (lb_tags l) (lb_seq_tags l) (lb_collections l) (lb_seq_collections l) (lb_files l) (lb_ctags l) v (lb_rules l) (lb_seq_rules l) (lb_now l).
Definition set_lb_rules v l := mkLibrary (lb_uploads l) (lb_seq_uploads l) (lb_users l) (lb_tags l) (lb_seq_tags l) (lb_collections l) (lb_seq_collections l) (lb_files l) (lb_ctags l) (lb_seq_ctags l) v (lb_seq_rules l) (lb_now l).
Definition set_lb_seq_rules v l := mkLibrary (lb_uploads l) (lb_seq_uploads l) (lb_users l) (lb_tags l) (lb_seq_tags l) (lb_collections l) (lb_seq_collections l) (lb_files l) (lb_ctags l) (lb_seq_ctags l) (lb_rules l) v (lb_now l).

Definition lb_second : Z := 1000000000.

(** [datetime('now')]. *)
Definition lb_stamp (l : Library) : Z := lb_now l / lb_second.

Definition upload_exists (l : Library) (id : Z) : bool := existsb (by_id id) (lb_uploads l).
Definition collection_exists (l : Library) (id : Z) : bool := existsb (by_id id) (lb_collections l).
Definition collection_ref (l : Library) (id : option Z) : bool := match id with Some i => collection_exists l i | None => true end.
Definition library_user (l : Library) (id : Z) : bool := existsb (fun u => fst u =? id) (lb_users l).

(** A Go map of tags; where the code ranges over one, the pairs come in the
    order the runtime picks, which is an argument of the operations. *)
Abbreviation TagMap := (gmap string (list string)).

(** [rows.Next]: the values of a key in the order of the rows. *)
Definition collect (rows : list (string * string)) : TagMap :=
  fold_left (fun m kv => <[fst kv := default [] (m !! fst kv) ++ [snd kv]]> m) rows ∅.

Fixpoint distinct {A} `{EqDecision A} (l : list A) : list A :=
  match l with
  | [] => []
  | x :: l => if bool_decide (x ∈ l) then distinct l else x :: distinct l
  end.

(** ** LIKE

    [%] stands for any text, [_] for one character, letters of ASCII match in
    either case; after the escape a character stands for itself. Texts are
    UTF-8. *)

Inductive like_token := Lit (c : ascii) | One | Many.

(** [None]: the pattern ends in the escape and matches nothing. *)
Fixpoint like_tokens (esc : option ascii) (p : string) : option (list like_token) :=
  match p with
  | EmptyString => Some []
  | String c p' =>
      if match esc with Some e => Ascii.eqb c e | None => false end then
        match p' with EmptyString => None | String d p'' => ts ← like_tokens esc p''; Some (Lit d :: ts) end
      else
        ts ← like_tokens esc p';
        Some ((if Ascii.eqb c "%" then Many else if Ascii.eqb c "_" then One else Lit c) :: ts)
  end.

Definition fold_case (c : ascii) : ascii :=
  let n := N_of_ascii c in if (65 <=? n)%N && (n <=? 90)%N then ascii_of_N (n + 32) else c.

Definition continues (c : ascii) : bool := let n := N_of_ascii c in (128 <=? n)%N && (n <=? 191)%N.

Fixpoint skip_continuation (s : string) : string :=
  match s with String c s' => if continues c then skip_continuation s' else s | EmptyString => s end.

Fixpoint like_match (ts : list like_token) : string -> bool :=
  match ts with
  | [] => fun s => String.eqb s ""
  | Lit c :: ts => fun s => match s with String d s' => Ascii.eqb (fold_case c) (fold_case d) && like_match ts s' | EmptyString => false end
  | One :: ts => fun s => match s with String _ s' => like_match ts (skip_continuation s') | EmptyString => false end
  | Many :: ts =>
      fix any s := like_match ts s || match s with String _ s' => any s' | EmptyString => false end
  end.

Definition sql_like (esc : option ascii) (pattern text : string) : bool :=
  match like_tokens esc pattern with Some ts => like_match ts text | None => false end.
