(* ===== verification/Tags.v ===== *)
(** * Tags of files and the rules that set them

    src/internal/services/tag.go, tag_rule.go and collection_tags.go. A map of
    tags given to an operation is the list of its pairs in the order the loop
    visits them; one that is read back is a finite map. *)

From stdpp Require Import gmap strings pretty.
From Stdlib Require Import Ascii.
From S2P Require Import Prelude GoLib Sql Schema Stmt Clock UploadStore AccountSchema Users Selector Library.

Open Scope Z_scope.

(** ** tag.go *)

Definition of_upload (uploadID : Z) (t : Tag) : bool := ft_UploadID t =? uploadID.

Definition insert_tag (uploadID : Z) (k v : string) : LibM unit :=
  write_if (fun l =>
    let id := lb_seq_tags l + 1 in
    constrained true true (upload_exists l uploadID)
      (tt, set_lb_tags (lb_tags l ++ [mkTag id uploadID k v (lb_stamp l)]) (set_lb_seq_tags id l))).

(** One INSERT per value, in the order of the loops; the first error ends them. *)
Fixpoint insert_values (insert : string -> string -> LibM unit) (k : string) (vals : list string) : LibM unit :=
  match vals with
  | [] => mret tt
  | v :: vals => insert k v ;; insert_values insert k vals
  end.

Fixpoint insert_all (insert : string -> string -> LibM unit) (tags : list (string * list string)) : LibM unit :=
  match tags with
  | [] => mret tt
  | (k, vals) :: tags => insert_values insert k vals ;; insert_all insert tags
  end.

Definition SetTags (uploadID : Z) (tags : list (string * list string)) : LibM unit :=
  transact (
    write (fun l => set_lb_tags (delete_where (of_upload uploadID) (lb_tags l)) l) ;;
    insert_all (insert_tag uploadID) tags).

(** ORDER BY tag_key, id. *)
Definition key_then_id (a b : Tag) : bool :=
  match String.compare (ft_Key a) (ft_Key b) with Lt => true | Gt => false | Eq => ft_ID a <=? ft_ID b end.

Definition tag_pair (t : Tag) : string * string := (ft_Key t, ft_Value t).

Definition GetTags (uploadID : Z) : LibM TagMap :=
  read (fun l => collect (map tag_pair (order_by key_then_id (select (of_upload uploadID) (lb_tags l))))).

Record SearchResult := mkFound { sr_Upload : Upload; sr_Tags : TagMap }.

(** The tags of the uploads of a user, joined. *)
Definition tags_of_user (userID : Z) (l : Library) : list Tag :=
  flat_map (fun t => map (fun _ => t) (select (fun u => (u_id u =? ft_UploadID t) && (u_user_id u =? userID)) (lb_uploads l))) (lb_tags l).

Definition ListKeys (userID : Z) : LibM (list string) :=
  read (fun l => order_by text_le (distinct (map ft_Key (tags_of_user userID l)))).

Definition ListValues (userID : Z) (key : string) : LibM (list string) :=
  read (fun l => order_by text_le (distinct (map ft_Value (select (fun t => String.eqb (ft_Key t) key) (tags_of_user userID l))))).

(** [t] and the character [i] places after 0. *)
Definition alias (i : nat) : string := "t" +:+ String (ascii_of_nat (48 + i)) "".

(** The eleventh alias holds a colon, which no statement parses with. *)
Definition alias_ok (i : nat) : bool := string_forallb (fun c => is_alnum c) (alias i).

Definition statement_of (filters : nat) : result error unit :=
  if forallb alias_ok (seq 0 filters) then Ok tt else Err (ENew "unrecognized token: :").

Definition has_tag (l : Library) (u : Upload) (kv : string * string) : bool :=
  existsb (fun t => of_upload (u_id u) t && String.eqb (ft_Key t) (fst kv) && String.eqb (ft_Value t) (snd kv)) (lb_tags l).

(** [LIKE ?] without an escape: the query keeps its wildcards. *)
Definition name_like (query : string) (u : Upload) : bool :=
  String.eqb query "" ||
  (let wildcard := "%" +:+ query +:+ "%" in sql_like None wildcard (u_original_filename u) || sql_like None wildcard (u_filename u)).

Definition of_user (userID : Z) (u : Upload) : bool := (userID <=? 0) || (u_user_id u =? userID).

(** The tags of each upload; an error leaves none. *)
Fixpoint with_tags (us : list Upload) : LibM (list SearchResult) :=
  match us with
  | [] => mret []
  | u :: us =>
      tags ← try (GetTags (u_id u));
      rest ← with_tags us;
      mret (mkFound u (match tags with Ok t => t | Err _ => ∅ end) :: rest)
  end.

(** The count and the page of the uploads that match. *)
Definition found (sql : result error unit) (p : Library -> Upload -> bool) (n off : Z) : LibM (list SearchResult * Z) :=
  total ← (round_trip ;; of_result sql ;; gets (fun w => affected (p (tables w)) (lb_uploads (tables w))));
  us ← read (fun l => page n off (select (p l) (lb_uploads l)));
  results ← with_tags us;
  mret (results, total).

Definition Search (tagFilters : list (string * string)) (query : string) (userID n off : Z) : LibM (list SearchResult * Z) :=
  found (statement_of (length tagFilters))
    (fun l u => forallb (has_tag l u) tagFilters && name_like query u && of_user userID u) (clamp_limit n) off.

(** The text of a clause read back; any other text is not SQL. *)
Definition read_clause (text : string) : option Clause :=
  let n := count_char "?" text in
  List.find (fun c => String.eqb (render c) text)
    (flat_map (fun neg => [mkClause neg CKey; mkClause neg CValue; mkClause neg (CValueIn (n - 1))]) [false; true]).

Fixpoint read_clauses (texts : list string) : option (list Clause) :=
  match texts with
  | [] => Some []
  | t :: texts => c ← read_clause t; cs ← read_clauses texts; Some (c :: cs)
  end.

Definition clauses_sql (texts : list string) : result error unit :=
  match read_clauses texts with Some _ => Ok tt | None => Err (ENew "syntax error") end.

Definition tags_on (l : Library) (u : Upload) : list (string * string) := map tag_pair (select (of_upload (u_id u)) (lb_tags l)).

Definition clauses_hold (texts args : list string) (l : Library) (u : Upload) : bool :=
  match read_clauses texts with Some cs => sql_where (tags_on l u) cs args | None => false end.

Definition SearchBySelector (userID : Z) (selectorClauses selectorArgs : list string) (n : Z) : LibM (list Upload) :=
  let n := if (n <=? 0) || (10000 <? n) then 100 else n in
  round_trip ;; of_result (clauses_sql selectorClauses) ;;
  gets (fun w => let l := tables w in
    limit n (order_by created_desc (select (fun u => (u_user_id u =? userID) && clauses_hold selectorClauses selectorArgs l u) (lb_uploads l)))).

Definition SearchWithSelector (selectorClauses selectorArgs : list string) (query : string) (userID n off : Z) : LibM (list SearchResult * Z) :=
  found (clauses_sql selectorClauses)
    (fun l u => clauses_hold selectorClauses selectorArgs l u && name_like query u && of_user userID u) (clamp_limit n) off.

(** ** collection_tags.go *)

Definition of_collection (collectionID : Z) (t : CollectionTag) : bool := ct_collection_id t =? collectionID.

Definition insert_ctag (collectionID : Z) (k v : string) : LibM unit :=
  write_if (fun l =>
    let id := lb_seq_ctags l + 1 in
    constrained true true (collection_exists l collectionID)
      (tt, set_lb_ctags (lb_ctags l ++ [mkCollectionTag id collectionID k v]) (set_lb_seq_ctags id l))).

Definition CollSetTags (collectionID : Z) (tags : list (string * list string)) : LibM unit :=
  transact (
    write (fun l => set_lb_ctags (delete_where (of_collection collectionID) (lb_ctags l)) l) ;;
    insert_all (insert_ctag collectionID) tags).

Definition ckey_then_id (a b : CollectionTag) : bool :=
  match String.compare (ct_key a) (ct_key b) with Lt => true | Gt => false | Eq => ct_id a <=? ct_id b end.

Definition CollGetTags (collectionID : Z) : LibM TagMap :=
  read (fun l => collect (map (fun t => (ct_key t, ct_value t)) (order_by ckey_then_id (select (of_collection collectionID) (lb_ctags l))))).

(** The inserts that went through; the errors of the others are dropped. *)
Fixpoint add_values (uploadID : Z) (k : string) (vals : list string) (added : Z) : LibM Z :=
  match vals with
  | [] => mret added
  | v :: vals =>
      r ← try (insert_tag uploadID k v);
      add_values uploadID k vals (if is_ok r then added + 1 else added)
  end.

Fixpoint add_missing (uploadID : Z) (existing : list string) (tags : list (string * list string)) (added : Z) : LibM Z :=
  match tags with
  | [] => mret added
  | (k, vals) :: tags =>
      if existsb (String.eqb k) existing then add_missing uploadID existing tags added else
      added ← add_values uploadID k vals added;
      add_missing uploadID existing tags added
  end.

(** [visit]: the order in which the loop visits the map. *)
Definition InheritToFile (visit : TagMap -> list (string * list string)) (collectionID uploadID : Z) : LibM Z :=
  collTags ← CollGetTags collectionID;
  if bool_decide (collTags = ∅) then mret 0 else
  existing ← read (fun l => distinct (map ft_Key (select (of_upload uploadID) (lb_tags l))));
  add_missing uploadID existing (visit collTags) 0.

(** ** tag_rule.go *)

Definition validApplyKey : string -> bool := keyRegex.

Definition validOpsForField (field : string) : option (list string) :=
  if String.eqb field "content_type" then Some ["equals"; "regex"; "contains"] else
  if String.eqb field "filename" then Some ["equals"; "regex"; "contains"] else
  if String.eqb field "file_size" then Some ["gt"; "lt"] else
  if String.eqb field "visibility" then Some ["equals"] else None.

Definition validateRule (matchField matchOp applyKey : string) : result error unit :=
  match validOpsForField matchField with
  | None => Err (ESentinel ErrInvalidMatchField)
  | Some ops =>
      if negb (existsb (String.eqb matchOp) ops) then Err (EWrap "is not valid for field" [ESentinel ErrInvalidMatchOp]) else
      if negb (validApplyKey applyKey) then Err (ESentinel ErrInvalidApplyKey) else Ok tt
  end.

Definition RuleGetByID (id : Z) : LibM TagRule :=
  map_err (or_missing ErrTagRuleNotFound) (read_row (fun l => find_id id (lb_rules l))).

Definition RuleCreate (name description matchField matchOp matchValue applyKey applyValue : string) (priority createdBy : Z) : LibM TagRule :=
  of_result (validateRule matchField matchOp applyKey) ;;
  id ← write_if (fun l =>
    let id := lb_seq_rules l + 1 in
    constrained true true (library_user l createdBy)
      (id, set_lb_rules (lb_rules l ++ [mkRule id name description matchField matchOp matchValue applyKey applyValue priority true createdBy (lb_stamp l) (lb_stamp l)])
             (set_lb_seq_rules id l)));
  RuleGetByID id.

(** ORDER BY priority ASC, id ASC. *)
Definition rule_le (a b : TagRule) : bool := (ru_Priority a <? ru_Priority b) || ((ru_Priority a =? ru_Priority b) && (ru_ID a <=? ru_ID b)).

Definition RuleList : LibM (list TagRule) := read (fun l => order_by rule_le (lb_rules l)).

Definition RuleUpdate (id : Z) (name description matchField matchOp matchValue applyKey applyValue : string) (priority : Z) (isEnabled : bool) : LibM TagRule :=
  of_result (validateRule matchField matchOp applyKey) ;;
  n ← write_ret (fun l => (affected (by_id id) (lb_rules l),
    set_lb_rules (update (by_id id) (fun r =>
      mkRule (ru_ID r) name description matchField matchOp matchValue applyKey applyValue priority isEnabled (ru_CreatedBy r) (ru_CreatedAt r) (lb_stamp l))
      (lb_rules l)) l));
  if n =? 0 then fail (ESentinel ErrTagRuleNotFound) else RuleGetByID id.

Definition RuleDelete (id : Z) : LibM unit :=
  n ← write_ret (fun l => (affected (by_id id) (lb_rules l), set_lb_rules (delete_where (by_id id) (lb_rules l)) l));
  if n =? 0 then fail (ESentinel ErrTagRuleNotFound) else mret tt.

(** [regexp.Compile] and [MatchString] of a pattern that compiled. *)
Class Regexp := { rx_Compile : string -> result error (string -> bool) }.

Section rules.
Context {rx : Regexp}.

(** The cache of a service: the compiled pattern, or the text of its error. *)
Abbreviation RegexCache := (gmap string (result string (string -> bool))).

Definition getOrCompileRegex (pattern : string) (cache : RegexCache) : result error (string -> bool) * RegexCache :=
  match cache !! pattern with
  | Some (Ok re) => (Ok re, cache)
  | Some (Err _) => (Err (ENew "previously failed to compile regex"), cache)
  | None =>
      match rx_Compile pattern with
      | Err err => (Err err, <[pattern := Err (Error_ err)]> cache)
      | Ok re => (Ok re, <[pattern := Ok re]> cache)
      end
  end.

Definition matchRegex (pattern value : string) (cache : RegexCache) : bool * RegexCache :=
  let '(re, cache) := getOrCompileRegex pattern cache in
  (match re with Ok f => f value | Err _ => false end, cache).

Definition matchString (r : TagRule) (value : string) (cache : RegexCache) : bool * RegexCache :=
  if String.eqb (ru_MatchOp r) "equals" then (String.eqb value (ru_MatchValue r), cache) else
  if String.eqb (ru_MatchOp r) "contains" then (Contains value (ru_MatchValue r), cache) else
  if String.eqb (ru_MatchOp r) "regex" then matchRegex (ru_MatchValue r) value cache else (false, cache).

Definition matchSize (r : TagRule) (fileSize : Z) : bool :=
  match ParseInt (ru_MatchValue r) with
  | None => false
  | Some threshold =>
      if String.eqb (ru_MatchOp r) "gt" then threshold <? fileSize else
      if String.eqb (ru_MatchOp r) "lt" then fileSize <? threshold else false
  end.

Definition ruleMatches (r : TagRule) (filename contentType : string) (fileSize : Z) (visibility : string) (cache : RegexCache) : bool * RegexCache :=
  if String.eqb (ru_MatchField r) "content_type" then matchString r contentType cache else
  if String.eqb (ru_MatchField r) "filename" then matchString r filename cache else
  if String.eqb (ru_MatchField r) "file_size" then (matchSize r fileSize, cache) else
  if String.eqb (ru_MatchField r) "visibility" then (String.eqb (ru_MatchOp r) "equals" && String.eqb visibility (ru_MatchValue r), cache) else
  (false, cache).

Fixpoint apply_rules (rules : list TagRule) (filename contentType : string) (fileSize : Z) (visibility : string)
    (tags : TagMap) (cache : RegexCache) : TagMap * RegexCache :=
  match rules with
  | [] => (tags, cache)
  | r :: rules =>
      match tags !! ru_ApplyKey r with
      | Some _ => apply_rules rules filename contentType fileSize visibility tags cache
      | None =>
          let '(m, cache) := ruleMatches r filename contentType fileSize visibility cache in
          apply_rules rules filename contentType fileSize visibility (if m then <[ru_ApplyKey r := [ru_ApplyValue r]]> tags else tags) cache
      end
  end.

Definition EvaluateRules (filename contentType : string) (fileSize : Z) (visibility : string) (cache : RegexCache) : LibM (TagMap * RegexCache) :=
  rows ← read (fun l => order_by rule_le (select ru_IsEnabled (lb_rules l)));
  mret (apply_rules rows filename contentType fileSize visibility ∅ cache).
End rules.
