(* ===== verification/Collections.v ===== *)
(** * Collections

    src/internal/services/collection.go. *)

From stdpp Require Import gmap.
From S2P Require Import Prelude GoLib Sql Schema Stmt Clock UploadStore AccountSchema Users Library.

Open Scope Z_scope.

Definition in_collection (id : Z) (f : CollectionFile) : bool := cf_collection_id f =? id.
Definition child_of (id : Z) (c : CollectionRow) : bool := bool_decide (cl_ParentID c = Some id).

Definition counted_row (l : Library) (c : CollectionRow) : Collection := mkCounted c (affected (in_collection (cl_ID c)) (lb_files l)).

Definition CollGetByID (id : Z) : LibM Collection :=
  map_err (or_missing ErrCollectionNotFound) (read_row (fun l => counted_row l <$> find_id id (lb_collections l))).

(** The error of the lookup of the parent is dropped: the parent is missing. *)
Definition verify_parent (parentID : option Z) : LibM unit :=
  match parentID with
  | Some p =>
      exists_ ← try (read (fun l => collection_exists l p));
      match exists_ with Ok true => mret tt | _ => fail (ESentinel ErrCollectionNotFound) end
  | None => mret tt
  end.

Definition CollCreate (name description : string) (parentID : option Z) (createdBy : Z) : LibM Collection :=
  verify_parent parentID ;;
  id ← map_err (or_taken ErrCollectionNameTaken) (write_if (fun l =>
    let id := lb_seq_collections l + 1 in
    constrained true true (collection_ref l parentID && library_user l createdBy)
      (id, set_lb_collections (lb_collections l ++ [mkCollection id name description parentID createdBy (lb_stamp l) (lb_stamp l)])
             (set_lb_seq_collections id l))));
  CollGetByID id.

Definition coll_name_le (a b : Collection) : bool := text_le (cl_Name (co_row a)) (cl_Name (co_row b)).

(** The top level, or the children of a collection. *)
Definition CollList (userID : Z) (parentID : option Z) : LibM (list Collection) :=
  read (fun l => order_by coll_name_le (map (counted_row l)
    (select (fun c => (cl_CreatedBy c =? userID) && bool_decide (cl_ParentID c = parentID)) (lb_collections l)))).

Definition CollUpdate (id : Z) (name description : string) : LibM Collection :=
  write (fun l => set_lb_collections (update (by_id id) (fun c =>
    mkCollection (cl_ID c) name description (cl_ParentID c) (cl_CreatedBy c) (cl_CreatedAt c) (lb_stamp l)) (lb_collections l)) l) ;;
  CollGetByID id.

(** [DELETE FROM collections WHERE id = ?]: refused while a child refers to
    it; the files and tags of the collection go with it. *)
Definition delete_collection_row (id : Z) (l : Library) : result error (unit * Library) :=
  let rest := delete_where (by_id id) (lb_collections l) in
  constrained true true (negb (existsb (child_of id) rest) || negb (collection_exists l id))
    (tt, set_lb_ctags (delete_where (fun t => ct_collection_id t =? id) (lb_ctags l))
           (set_lb_files (delete_where (in_collection id) (lb_files l)) (set_lb_collections rest l))).

Definition too_deep : error := ENew "stack overflow".

Fixpoint each (f : Z -> LibM unit) (ids : list Z) : LibM unit :=
  match ids with
  | [] => mret tt
  | id :: ids => f id ;; each f ids
  end.

(** [fuel]: the depth of the calls. *)
Fixpoint deleteCollectionRecursive (fuel : nat) (id : Z) : LibM unit :=
  match fuel with
  | O => fail too_deep
  | S fuel =>
      childIDs ← read (fun l => map cl_ID (select (child_of id) (lb_collections l)));
      each (deleteCollectionRecursive fuel) childIDs ;;
      write (fun l => set_lb_files (delete_where (in_collection id) (lb_files l)) l) ;;
      write_if (delete_collection_row id)
  end.

(** No chain of collections is longer than the table. *)
Definition CollDelete (id : Z) : LibM unit :=
  w ← get;
  transact (deleteCollectionRecursive (S (length (lb_collections (tables w)))) id).

Definition AddFile (collectionID uploadID : Z) : LibM unit :=
  map_err (or_taken ErrFileAlreadyInCollection) (write_if (fun l =>
    let same f := in_collection collectionID f && (cf_upload_id f =? uploadID) in
    constrained true (negb (existsb same (lb_files l))) (collection_exists l collectionID && upload_exists l uploadID)
      (tt, set_lb_files (lb_files l ++ [mkCollectionFile collectionID uploadID (lb_stamp l)]) l))).

Definition CollectionIDsForUpload (uploadID : Z) : LibM (list Z) :=
  read (fun l => map cf_collection_id (select (fun f => cf_upload_id f =? uploadID) (lb_files l))).

Definition RemoveFile (collectionID uploadID : Z) : LibM unit :=
  n ← write_ret (fun l =>
    let same f := in_collection collectionID f && (cf_upload_id f =? uploadID) in
    (affected same (lb_files l), set_lb_files (delete_where same (lb_files l)) l));
  if n =? 0 then fail (ESentinel ErrFileNotInCollection) else mret tt.

(** The files of a collection joined with their rows, last added first. *)
Definition added_desc (a b : CollectionFile * Upload) : bool := cf_added_at (fst b) <=? cf_added_at (fst a).

Definition joined (collectionID : Z) (l : Library) : list (CollectionFile * Upload) :=
  flat_map (fun u => map (fun f => (f, u)) (select (fun f => in_collection collectionID f && (cf_upload_id f =? u_id u)) (lb_files l))) (lb_uploads l).

(** The error of the count is dropped. *)
Definition ListFiles (collectionID n off : Z) : LibM (list Upload * Z) :=
  let n := clamp_limit n in
  total ← try (read (fun l => affected (in_collection collectionID) (lb_files l)));
  rows ← read (fun l => map snd (limit n (offset off (order_by added_desc (joined collectionID l)))));
  mret (rows, match total with Ok t => t | Err _ => 0 end).

Definition AddedTimes (collectionID : Z) : LibM (gmap Z Z) :=
  read (fun l => fold_left (fun m f => <[cf_upload_id f := cf_added_at f]> m) (select (in_collection collectionID) (lb_files l)) ∅).
