(* ===== verification/CollectionTree.v ===== *)
(** * The tree of collections

    Every history of the operations keeps the collections a forest, so the
    recursion of deleteCollectionRecursive ends, and it removes the subtree,
    with its files and tags, and nothing else. *)

From stdpp Require Import gmap.
From S2P Require Import Prelude GoLib Sql Schema Stmt AccountSchema Library Tags Collections.

Open Scope Z_scope.

(** ** Forests *)

(** A parent was there before its child. *)
Record forest (l : Library) : Prop := {
  fo_ids : List.NoDup (ids (lb_collections l));
  fo_seq : forall c, In c (lb_collections l) -> cl_ID c <= lb_seq_collections l;
  fo_parent : forall c p, In c (lb_collections l) -> cl_ParentID c = Some p -> p < cl_ID c /\ collection_exists l p = true;
  fo_files : forall f, In f (lb_files l) -> collection_exists l (cf_collection_id f) = true;
  fo_tags : forall t, In t (lb_ctags l) -> collection_exists l (ct_collection_id t) = true;
}.

(** [x] is [a] or below it. *)
Inductive under (l : Library) (a : Z) : Z -> Prop :=
| under_self : under l a a
| under_child c p : In c (lb_collections l) -> cl_ParentID c = Some p -> under l a p -> under l a (cl_ID c).

Lemma exists_spec l i : collection_exists l i = true <-> exists c, In c (lb_collections l) /\ cl_ID c = i.
Proof.
  unfold collection_exists. rewrite existsb_exists. unfold by_id, key, Collection_keyed.
  split; intros (c & Hin & H); exists c; (split; [done|]); by apply Z.eqb_eq.
Qed.

Section tree.
Context (l : Library) (Hf : forest l).

Lemma same_row c c' : In c (lb_collections l) -> In c' (lb_collections l) -> cl_ID c = cl_ID c' -> c = c'.
Proof.
  intros H H' E. pose proof (find_id_In _ _ (fo_ids _ Hf) H) as F. pose proof (find_id_In _ _ (fo_ids _ Hf) H') as F'.
  unfold key, Collection_keyed in *. rewrite E in F. congruence.
Qed.

Lemma under_le a x : under l a x -> a <= x.
Proof. induction 1 as [|c p Hin Hp _ IH]; [lia|]. apply (fo_parent _ Hf) in Hp as [Hp _]; [lia|done]. Qed.

Lemma under_comparable y y' x : under l y x -> under l y' x -> under l y y' \/ under l y' y.
Proof.
  intros H. revert y'. induction H as [|c p Hin Hp Hu IH]; intros y' H'; [by right|].
  inversion H' as [E|c' p' Hin' Hp' Hu' E].
  - left. by eapply under_child.
  - assert (c' = c) as -> by by apply same_row. rewrite Hp in Hp'. injection Hp' as <-. by apply IH.
Qed.

(** Siblings. *)
Definition child (id y : Z) : Prop := exists c, In c (lb_collections l) /\ cl_ID c = y /\ cl_ParentID c = Some id.

Lemma child_gt id y : child id y -> id < y.
Proof. intros (c & Hin & <- & Hp). by apply (fo_parent _ Hf). Qed.

Lemma siblings_apart id y y' : child id y -> child id y' -> under l y y' -> y = y'.
Proof.
  intros Hy (c & Hin & <- & Hp) H. inversion H as [|c' p' Hin' Hp' Hu E]; [done|].
  apply same_row in E as ->; [|done..]. rewrite Hp in Hp'. injection Hp' as <-.
  apply under_le in Hu. apply child_gt in Hy. lia.
Qed.

Lemma siblings_disjoint id y y' x : child id y -> child id y' -> under l y x -> under l y' x -> y = y'.
Proof.
  intros Hy Hy' H H'. destruct (under_comparable _ _ _ H H') as [Hu|Hu].
  - by eapply siblings_apart.
  - symmetry. by eapply siblings_apart.
Qed.

Lemma under_top id x : under l id x <-> x = id \/ exists y, child id y /\ under l y x.
Proof.
  split.
  - induction 1 as [|c p Hin Hp _ IH]; [by left|]. right. destruct IH as [->|(y & Hy & Hu)].
    + exists (cl_ID c). split; [by exists c|constructor].
    + exists y. split; [done|]. by eapply under_child.
  - intros [->|(y & (c & Hin & <- & Hp) & Hu)]; [constructor|].
    induction Hu as [|c' p' Hin' Hp' _ IH]; [eapply under_child; [done..|constructor]|by eapply under_child].
Qed.
End tree.

(** ** Dropping a set of collections *)

Definition among (gone : list Z) (i : Z) : bool := existsb (Z.eqb i) gone.

Lemma among_spec gone i : among gone i = true <-> In i gone.
Proof.
  unfold among. rewrite existsb_exists. split; [intros (x & H & E); by apply Z.eqb_eq in E as ->|]. intros H. exists i. by rewrite Z.eqb_refl.
Qed.

(** What the tables are without the collections [gone]. *)
Definition drop_collections (gone : list Z) (l : Library) : Library :=
  set_lb_ctags (delete_where (fun t => among gone (ct_collection_id t)) (lb_ctags l))
    (set_lb_files (delete_where (fun f => among gone (cf_collection_id f)) (lb_files l))
       (set_lb_collections (delete_where (fun c => among gone (cl_ID c)) (lb_collections l)) l)).

Lemma delete_delete {A} (p q : A -> bool) t : delete_where p (delete_where q t) = delete_where (fun r => q r || p r) t.
Proof.
  unfold delete_where. induction t as [|r t IH]; cbn; [done|]. destruct (q r) eqn:Eq; cbn; [done|]. destruct (p r); cbn; by rewrite IH.
Qed.

Lemma delete_ext {A} (p q : A -> bool) t : (forall r, p r = q r) -> delete_where p t = delete_where q t.
Proof. intros H. unfold delete_where. apply List.filter_ext. intros r. by rewrite H. Qed.

Lemma among_app g1 g2 i : among (g1 ++ g2) i = among g1 i || among g2 i.
Proof. apply existsb_app. Qed.

Lemma drop_drop g1 g2 l : drop_collections g2 (drop_collections g1 l) = drop_collections (g1 ++ g2) l.
Proof.
  unfold drop_collections. cbn. rewrite !delete_delete. destruct l. cbn. unfold set_lb_ctags, set_lb_files, set_lb_collections. cbn.
  f_equal; apply delete_ext; intros r; by rewrite among_app.
Qed.

Lemma delete_none {A} (p : A -> bool) t : (forall r, In r t -> p r = false) -> delete_where p t = t.
Proof.
  unfold delete_where. induction t as [|r t IH]; cbn; [done|]. intros H. rewrite (H r) by auto. cbn. f_equal. apply IH. auto.
Qed.

Lemma drop_nil l : drop_collections [] l = l.
Proof.
  destruct l. unfold drop_collections, set_lb_ctags, set_lb_files, set_lb_collections. cbn. by rewrite !delete_none.
Qed.

Lemma in_drop gone l c : In c (lb_collections (drop_collections gone l)) <-> In c (lb_collections l) /\ ~ In (cl_ID c) gone.
Proof. cbn. rewrite in_delete, <- not_true_iff_false, among_spec. done. Qed.

(** A set that no kept collection is below of. *)
Lemma under_drop gone l y x : (forall z, under l y z -> ~ In z gone) -> under (drop_collections gone l) y x <-> under l y x.
Proof.
  intros Hd. split.
  - induction 1 as [|c p Hin Hp _ IH]; [constructor|]. apply in_drop in Hin as [Hin _]. by eapply under_child.
  - induction 1 as [|c p Hin Hp Hu IH]; [constructor|]. eapply under_child; [|done|done]. apply in_drop. split; [done|].
    apply Hd. by eapply under_child.
Qed.

(** Dropping what is below a collection keeps a forest. *)
Lemma drop_forest gone l : forest l -> (forall c p, In c (lb_collections l) -> cl_ParentID c = Some p -> In p gone -> In (cl_ID c) gone) ->
  forest (drop_collections gone l).
Proof.
  intros [H1 H2 H3 H4 H5] Hg.
  assert (forall i, collection_exists l i = true -> ~ In i gone -> collection_exists (drop_collections gone l) i = true) as He.
  { intros i (c & Hin & <-)%exists_spec Hi. apply exists_spec. exists c. rewrite in_drop. done. }
  split.
  - by apply NoDup_ids_delete.
  - intros c [Hin _]%in_drop. by apply H2.
  - intros c p [Hin Hn]%in_drop Hp. destruct (H3 _ _ Hin Hp) as [? ?]. split; [done|]. apply He; [done|]. intros Hi. by eapply Hn, Hg.
  - intros f. cbn. rewrite in_delete, <- not_true_iff_false, among_spec. intros [Hin Hn]. apply He; [by apply H4|done].
  - intros t. cbn. rewrite in_delete, <- not_true_iff_false, among_spec. intros [Hin Hn]. apply He; [by apply H5|done].
Qed.

Lemma under_closed l id gone : (forall x, In x gone <-> under l id x) ->
  forall c p, In c (lb_collections l) -> cl_ParentID c = Some p -> In p gone -> In (cl_ID c) gone.
Proof. intros Hg c p Hin Hp H. apply Hg. eapply under_child; [done..|]. by apply Hg. Qed.

(** ** The recursion *)

Definition above (id : Z) (l : Library) : Z := affected (fun c => id <? cl_ID c) (lb_collections l).

Lemma affected_le {A} (p q : A -> bool) t : (forall r, In r t -> p r = true -> q r = true) -> affected p t <= affected q t.
Proof.
  unfold affected, select. induction t as [|r t IH]; cbn; [lia|]. intros H. specialize (IH (fun r Hr => H r (or_intror Hr))).
  specialize (H r (or_introl eq_refl)). destruct (p r); [rewrite H by done|destruct (q r)]; cbn; lia.
Qed.

Lemma affected_lt {A} (p q : A -> bool) t r : (forall r, In r t -> p r = true -> q r = true) -> In r t -> p r = false -> q r = true ->
  affected p t < affected q t.
Proof.
  intros H Hin Hp Hq. induction t as [|x t IH]; [done|]. unfold affected, select in *. cbn.
  destruct Hin as [->|Hin].
  - rewrite Hp, Hq. cbn. pose proof (affected_le p q t (fun r Hr => H r (or_intror Hr))) as Hle. unfold affected, select in Hle. lia.
  - specialize (IH (fun r Hr => H r (or_intror Hr)) Hin). pose proof (H x (or_introl eq_refl)) as Hx.
    destruct (p x); [rewrite Hx by done|destruct (q x)]; cbn; lia.
Qed.

Lemma affected_delete {A} (p d : A -> bool) t : affected p (delete_where d t) <= affected p t.
Proof.
  unfold affected, select, delete_where. induction t as [|r t IH]; cbn; [lia|]. destruct (d r), (p r) eqn:E; cbn; rewrite ?E; cbn; lia.
Qed.

Lemma above_child l id y : forest l -> child l id y -> above y l < above id l.
Proof.
  intros Hf Hc. pose proof (child_gt _ Hf _ _ Hc) as Hlt. destruct Hc as (c & Hin & <- & _).
  apply (affected_lt _ _ _ c); [|done|apply Z.ltb_irrefl|by apply Z.ltb_lt]. intros r _ Hr%Z.ltb_lt. apply Z.ltb_lt. lia.
Qed.

Lemma above_drop id gone l : above id (drop_collections gone l) <= above id l.
Proof. apply affected_delete. Qed.

Lemma above_all id l : above id l <= Z.of_nat (length (lb_collections l)).
Proof. unfold above, affected, select. pose proof (List.filter_length_le (fun c => id <? cl_ID c) (lb_collections l)). lia. Qed.

(** What a deletion did. *)
Definition removed (roots : Z -> Prop) (w : World Library) (r : result error unit) (w' : World Library) : Prop :=
  (r = Ok tt -> exists gone, (forall x, In x gone <-> exists y, roots y /\ under (tables w) y x) /\ tables w' = drop_collections gone (tables w)) /\
  (sched w = [] -> r = Ok tt /\ sched w' = []).

Section loop.
Context (f f' : Z -> LibM unit) (id n : Z).
Context (Hrec : forall y w, forest (tables w) -> child (tables w) id y -> above y (tables w) < n ->
  f' y w = f y w /\ removed (eq y) w (fst (f y w)) (snd (f y w))).

Lemma each_run ids w : forest (tables w) -> List.NoDup ids -> (forall y, In y ids -> child (tables w) id y /\ above y (tables w) < n) ->
  each f' ids w = each f ids w /\ removed (fun y => In y ids) w (fst (each f ids w)) (snd (each f ids w)).
Proof.
  revert w. induction ids as [|y ids IH]; intros w Hf Hnd Hc.
  { split; [done|]. split; [|done]. intros _. exists []. rewrite drop_nil. split; [|done]. intros x. split; [done|]. by intros (? & [] & _). }
  apply NoDup_cons_iff in Hnd as [Hy Hnd]. destruct (Hc y (or_introl eq_refl)) as [Hcy Hay].
  destruct (Hrec y w Hf Hcy Hay) as [Eq [Hok Hh]]. cbn [each]. unfold mbind, ST_bind. rewrite Eq.
  destruct (f y w) as [[[]|e] w1]; cbn in Hok, Hh |- *; [|split; [done|split; [done|intros H; by apply Hh in H as [? _]]]].
  destruct (Hok eq_refl) as (gone & Hg & Ht).
  assert (forall z, In z gone <-> under (tables w) y z) as Hg'.
  { intros z. rewrite Hg. split; [by intros (? & <- & ?)|eauto]. }
  assert (forest (tables w1)) as Hf1.
  { rewrite Ht. apply drop_forest; [done|]. by apply (under_closed _ y). }
  assert (forall y', In y' ids -> forall z, under (tables w) y' z -> ~ In z gone) as Hd.
  { intros y' Hy' z Hz Hgz%Hg'. destruct (Hc y' (or_intror Hy')) as [Hcy' _].
    pose proof (siblings_disjoint _ Hf id y y' z Hcy Hcy' Hgz Hz) as ->. done. }
  destruct (IH w1 Hf1 Hnd) as [Eq1 [Hok1 Hh1]].
  { intros y' Hy'. destruct (Hc y' (or_intror Hy')) as [(c & Hin & Hid & Hp) Ha]. rewrite Ht. split; [|pose proof (above_drop y' gone (tables w)); lia].
    exists c. rewrite in_drop. split_and!; try done. apply (Hd y' Hy'). rewrite Hid. constructor. }
  split; [done|]. split.
  - intros H. destruct (Hok1 H) as (gone1 & Hg1 & Ht1). exists (gone ++ gone1). split; [|by rewrite Ht1, Ht, drop_drop].
    intros x. rewrite in_app_iff, Hg', Hg1. rewrite Ht. split.
    + intros [Hx|(y' & Hy' & Hx)]; [exists y; split; [by left|done]|]. apply under_drop in Hx; [|by apply Hd]. exists y'. split; [by right|done].
    + intros (y' & [<-|Hy'] & Hx); [by left|]. right. exists y'. split; [done|]. apply under_drop; [by apply Hd|done].
  - intros H. by apply Hh in H as [_ H%Hh1].
Qed.
End loop.

Lemma child_ids l id y : In y (map cl_ID (select (child_of id) (lb_collections l))) <-> child l id y.
Proof.
  rewrite in_map_iff. unfold child, child_of. split.
  - intros (c & <- & [Hin Hp%bool_decide_eq_true]%in_select). by exists c.
  - intros (c & Hin & <- & Hp). exists c. rewrite in_select, bool_decide_eq_true. done.
Qed.

Lemma NoDup_map_select {A} (p : A -> bool) (g : A -> Z) t : List.NoDup (map g t) -> List.NoDup (map g (select p t)).
Proof.
  unfold select. induction t as [|r t IH]; cbn; [done|]. intros [Hr H]%NoDup_cons_iff. destruct (p r); [|by apply IH]. cbn.
  apply NoDup_cons_iff. split; [|by apply IH]. intros (x & Hx & [Hin _]%filter_In)%in_map_iff. apply Hr, in_map_iff. eauto.
Qed.

(** The two last statements, once the children are gone. *)
Lemma delete_row_run gone l id : (forall y, child l id y -> In y gone) -> ~ In id gone ->
  let l1 := drop_collections gone l in
  delete_collection_row id (set_lb_files (delete_where (in_collection id) (lb_files l1)) l1) = Ok (tt, drop_collections (gone ++ [id]) l).
Proof.
  intros Hg Hid. cbv zeta. unfold delete_collection_row, constrained. cbn [negb].
  replace (existsb (child_of id) _) with false; cbn [negb orb].
  - do 2 f_equal. rewrite <- drop_drop. generalize (drop_collections gone l). intros l1. unfold drop_collections. cbn.
    unfold set_lb_ctags, set_lb_files, set_lb_collections. cbn. rewrite delete_delete. f_equal; apply delete_ext; intros r; unfold by_id, in_collection, among; cbn.
    + by rewrite orb_false_r.
    + by rewrite orb_false_r, orb_diag.
    + by rewrite orb_false_r.
  - symmetry. apply not_true_iff_false. rewrite existsb_exists. intros (c & [Hin _]%in_delete & Hc%bool_decide_eq_true).
    apply in_drop in Hin as [Hin Hn]. apply Hn, Hg. by exists c.
Qed.

Lemma delete_run fuel fuel' id w : forest (tables w) -> above id (tables w) < Z.of_nat fuel -> above id (tables w) < Z.of_nat fuel' ->
  deleteCollectionRecursive fuel' id w = deleteCollectionRecursive fuel id w /\
  removed (eq id) w (fst (deleteCollectionRecursive fuel id w)) (snd (deleteCollectionRecursive fuel id w)).
Proof.
  revert fuel' id w. induction fuel as [|fuel IH]; intros fuel' id w Hf Hb Hb'; [unfold above, affected in Hb; lia|].
  destruct fuel' as [|fuel']; [unfold above, affected in Hb'; lia|]. cbn [deleteCollectionRecursive]. unfold mbind, ST_bind.
  destruct (read _ w) as [r w1] eqn:Er. pose proof (read_run _ _ _ _ Er) as [Ht Hr].
  destruct Hr as [->|[e ->]].
  2:{ split; [done|]. split; [done|]. intros Hs. by rewrite read_healthy in Er. }
  set (n := Z.of_nat (Nat.min fuel fuel')).
  destruct (each_run (deleteCollectionRecursive fuel) (deleteCollectionRecursive fuel') id n) with (ids := map cl_ID (select (child_of id) (lb_collections (tables w)))) (w := w1) as [Eq [Hok Hh]].
  - intros y w0 Hf0 _ Ha. apply IH; [done|lia..].
  - by rewrite Ht.
  - apply NoDup_map_select. apply (fo_ids _ Hf).
  - intros y Hy%child_ids. rewrite Ht. split; [done|]. pose proof (above_child _ _ _ Hf Hy). lia.
  - rewrite Eq. clear Eq. destruct (each (deleteCollectionRecursive fuel) _ w1) as [[[]|e] w2]; cbn in Hok, Hh |- *.
    2:{ split; [done|]. split; [done|]. intros Hs. rewrite read_healthy in Er by done. injection Er as <-. by apply Hh in Hs as [? _]. }
    split; [done|]. destruct (Hok eq_refl) as (gone & Hg & Ht2). rewrite Ht in Hg, Ht2.
    assert (forall x, In x gone <-> exists y, child (tables w) id y /\ under (tables w) y x) as Hg'.
    { intros x. rewrite Hg. split; intros (y & Hy & Hx); exists y; (split; [by apply child_ids|done]). }
    assert (forall y, child (tables w) id y -> In y gone) as Hc by (intros y Hy; apply Hg'; exists y; split; [done|constructor]).
    assert (~ In id gone) as Hid.
    { intros (y & Hy & Hu)%Hg'. apply (under_le _ Hf) in Hu. apply (child_gt _ Hf) in Hy. lia. }
    pose proof (delete_row_run gone (tables w) id Hc Hid) as Hrow. cbv zeta in Hrow. rewrite <- Ht2 in Hrow.
    destruct (write _ w2) as [r3 w3] eqn:E3. pose proof (write_run _ _ _ _ E3) as H3.
    destruct (write_if (delete_collection_row id) w3) as [r4 w4] eqn:E4. pose proof (write_if_run _ _ _ _ E4) as H4.
    split.
    + destruct H3 as [[-> Ht3]|(e & -> & _)]; [|done]. cbn. intros ->. destruct H4 as [([] & _ & H4)|(e & [=] & _)].
      rewrite Ht3, Hrow in H4. injection H4 as H4. exists (gone ++ [id]). split; [|by rewrite <- H4].
      intros x. rewrite in_app_iff, Hg'. setoid_rewrite (under_top (tables w)) at 2. cbn. split.
      * intros [H|[<-|[]]]; exists id; (split; [done|]); [by right|by left].
      * intros (y & <- & [Hx|H]); [right; left; by rewrite Hx|by left].
    + intros Hs. rewrite read_healthy in Er by done. injection Er as <-. destruct (Hh Hs) as [_ Hs2].
      rewrite write_healthy in E3 by done. injection E3 as <- <-. cbn.
      rewrite write_if_healthy in E4 by done. cbn [tables set_tables] in E4. rewrite Hrow in E4. injection E4 as <- <-. done.
Qed.

Lemma CollDelete_run (id : Z) (w : World Library) (Hf : forest (tables w)) :
  (forall fuel, (length (lb_collections (tables w)) < fuel)%nat -> transact (deleteCollectionRecursive fuel id) w = CollDelete id w) /\
  (sched w = [] -> fst (CollDelete id w) = Ok tt) /\
  match CollDelete id w with
  | (Ok _, w') => exists gone, (forall x, In x gone <-> under (tables w) id x) /\ tables w' = drop_collections gone (tables w)
  | (Err _, w') => tables w' = tables w
  end.
Proof.
  set (n := S (length (lb_collections (tables w)))).
  change (CollDelete id w) with (transact (deleteCollectionRecursive n id) w).
  pose proof (above_all id (tables w)) as Ha.
  assert (forall fuel l, (length (lb_collections (tables w)) < fuel)%nat ->
    deleteCollectionRecursive fuel id (set_sched l w) = deleteCollectionRecursive n id (set_sched l w) /\
    removed (eq id) (set_sched l w) (fst (deleteCollectionRecursive n id (set_sched l w))) (snd (deleteCollectionRecursive n id (set_sched l w)))) as Hrun.
  { intros fuel l Hl. apply delete_run; [done|subst n; cbn; lia|cbn; lia]. }
  split; [|split].
  - intros fuel Hl. unfold transact, finish_body, mbind, ST_bind. destruct (round_trip_cases w) as [[l ->]|(e & l & ->)]; [|done].
    destruct (Hrun fuel l Hl) as [-> _]. done.
  - intros Hs. destruct (Hrun n [] ltac:(subst n; lia)) as [_ [_ Hh]]. replace (set_sched [] w) with w in Hh by (destruct w; cbn in *; by subst).
    destruct (deleteCollectionRecursive n id w) as [r w1] eqn:E. destruct (Hh Hs) as [Hr Hs1]. cbn in Hr, Hs1. subst r.
    by rewrite (transact_healthy _ _ _ _ Hs E Hs1).
  - destruct (transact _ w) as [[[]|e] w'] eqn:E; [|by apply transact_err in E].
    apply transact_ok in E as (l & w1 & E & ->). destruct (Hrun n l ltac:(subst n; lia)) as [_ [Hok _]]. rewrite E in Hok.
    destruct (Hok eq_refl) as (gone & Hg & Ht). exists gone. split; [|done]. intros x. rewrite Hg. split; [by intros (? & <- & ?)|eauto].
Qed.

(** C21. Deleting a collection of a forest ends, whatever depth is allowed above
    the number of collections, and while the database answers it succeeds. When
    it succeeds, exactly the collection and those below it are gone, with their
    files and tags; when it does not, nothing has changed. *)
Theorem CollDelete_subtree (id : Z) (w : World Library) (Hf : forest (tables w)) :
  (forall fuel, (length (lb_collections (tables w)) < fuel)%nat -> transact (deleteCollectionRecursive fuel id) w = CollDelete id w) /\
  (sched w = [] -> fst (CollDelete id w) = Ok tt) /\
  match CollDelete id w with
  | (Ok _, w') => exists gone, (forall x, In x gone <-> under (tables w) id x) /\ tables w' = drop_collections gone (tables w)
  | (Err _, w') => tables w' = tables w
  end.
Proof. by apply CollDelete_run. Qed.

(** ** Histories *)

Inductive coll_op :=
| OpCollCreate (name description : string) (parentID : option Z) (createdBy : Z)
| OpCollUpdate (id : Z) (name description : string)
| OpCollDelete (id : Z)
| OpAddFile (collectionID uploadID : Z)
| OpRemoveFile (collectionID uploadID : Z)
| OpCollSetTags (collectionID : Z) (tags : list (string * list string))
| OpSetTags (uploadID : Z) (tags : list (string * list string))
| OpInherit (visit : TagMap -> list (string * list string)) (collectionID uploadID : Z).

Definition done_by {A} (m : LibM A) (w : World Library) : World Library := snd (m w).

Definition run_coll_op (op : coll_op) : World Library -> World Library :=
  match op with
  | OpCollCreate n d p u => done_by (CollCreate n d p u)
  | OpCollUpdate id n d => done_by (CollUpdate id n d)
  | OpCollDelete id => done_by (CollDelete id)
  | OpAddFile c u => done_by (AddFile c u)
  | OpRemoveFile c u => done_by (RemoveFile c u)
  | OpCollSetTags c tags => done_by (CollSetTags c tags)
  | OpSetTags u tags => done_by (SetTags u tags)
  | OpInherit visit c u => done_by (InheritToFile visit c u)
  end.

Definition run_coll_ops (ops : list coll_op) (w : World Library) : World Library := fold_left (fun w op => run_coll_op op w) ops w.

Abbreviation stays := (keeps forest).

Lemma forest_same l l' : lb_collections l' = lb_collections l -> lb_seq_collections l' = lb_seq_collections l ->
  (forall f, In f (lb_files l') -> collection_exists l (cf_collection_id f) = true) ->
  (forall t, In t (lb_ctags l') -> collection_exists l (ct_collection_id t) = true) -> forest l -> forest l'.
Proof.
  intros Hc Hs Hf Ht [H1 H2 H3 _ _].
  assert (forall i, collection_exists l' i = collection_exists l i) as He by (intros i; unfold collection_exists; by rewrite Hc).
  split; rewrite ?Hc, ?Hs; try done; intros; rewrite He; eauto.
Qed.

Lemma insert_tag_stays u k v : steps (on_tables stays) (insert_tag u k v).
Proof.
  unfold insert_tag. apply steps_write_if; [apply _|]. intros l a l' (E & _)%constrained_ok Hf. injection E as _ <-.
  apply (forest_same l); try done; cbn; [apply (fo_files _ Hf)|apply (fo_tags _ Hf)].
Qed.

Lemma insert_ctag_stays c k v : steps (on_tables stays) (insert_ctag c k v).
Proof.
  unfold insert_ctag. apply steps_write_if; [apply _|]. intros l a l' (E & _ & _ & He)%constrained_ok Hf. injection E as _ <-.
  apply (forest_same l); try done; cbn; [apply (fo_files _ Hf)|]. intros t [Ht|[<-|[]]]%in_app_iff; [by apply (fo_tags _ Hf)|done].
Qed.

Lemma insert_all_stays insert tags : (forall k v, steps (on_tables stays) (insert k v)) -> steps (on_tables stays) (insert_all insert tags).
Proof.
  intros Hi. induction tags as [|[k vals] tags IH]; cbn; [steps_go|]. apply steps_bind; [apply _| |intros _; apply IH].
  induction vals as [|v vals IHv]; cbn; [steps_go|]. apply steps_bind; [apply _|apply Hi|intros _; apply IHv].
Qed.

Lemma SetTags_stays u tags : steps (on_tables stays) (SetTags u tags).
Proof.
  unfold SetTags. apply steps_transact; [apply _|]. apply steps_bind; [apply _| |intros _; apply insert_all_stays; intros; apply insert_tag_stays].
  apply steps_write; [apply _|]. intros l Hf. apply (forest_same l); try done; cbn; [apply (fo_files _ Hf)|apply (fo_tags _ Hf)].
Qed.

Lemma CollSetTags_stays c tags : steps (on_tables stays) (CollSetTags c tags).
Proof.
  unfold CollSetTags. apply steps_transact; [apply _|]. apply steps_bind; [apply _| |intros _; apply insert_all_stays; intros; apply insert_ctag_stays].
  apply steps_write; [apply _|]. intros l Hf. apply (forest_same l); try done; cbn; [apply (fo_files _ Hf)|].
  intros t [Hin _]%in_delete. by apply (fo_tags _ Hf).
Qed.

Lemma InheritToFile_stays visit c u : steps (on_tables stays) (InheritToFile visit c u).
Proof.
  unfold InheritToFile, CollGetTags. apply steps_bind; [apply _|steps_go|]. intros tags. destruct (bool_decide _); [steps_go|].
  apply steps_bind; [apply _|steps_go|]. intros existing. generalize 0. generalize (visit tags). intros l. induction l as [|[k vals] l IH]; intros n; cbn; [steps_go|].
  destruct (existsb _ _); [apply IH|]. apply steps_bind; [apply _| |intros m; apply IH]. revert n.
  induction vals as [|v vals IHv]; intros n; cbn; [steps_go|]. apply steps_bind; [apply _|apply steps_try, insert_tag_stays|intros r; apply IHv].
Qed.

Lemma CollCreate_stays n d p u : steps (on_tables stays) (CollCreate n d p u).
Proof.
  unfold CollCreate, CollGetByID. apply steps_bind; [apply _|unfold verify_parent; destruct p; steps_go|]. intros _.
  apply steps_bind; [apply _| |intros id; steps_go]. apply steps_map_err, steps_write_if; [apply _|].
  intros l a l' (E & _ & _ & [Hp _]%andb_prop)%constrained_ok Hf. injection E as _ <-.
  assert (forall i, collection_exists l i = true -> existsb (by_id i) (lb_collections l ++ [mkCollection (lb_seq_collections l + 1) n d p u (lb_stamp l) (lb_stamp l)]) = true) as He.
  { intros i Hi. rewrite existsb_app. by apply orb_true_intro; left. }
  split; cbn.
  - unfold ids. rewrite map_app. apply NoDup_snoc; [apply (fo_ids _ Hf)|]. intros (c & Hc & Hin)%in_map_iff. apply (fo_seq _ Hf) in Hin.
    unfold key, Collection_keyed in Hc. cbn in Hc. lia.
  - intros c [Hin|[<-|[]]]%in_app_iff; cbn; [|lia]. apply (fo_seq _ Hf) in Hin. lia.
  - intros c q [Hin|[<-|[]]]%in_app_iff Hq.
    + destruct (fo_parent _ Hf _ _ Hin Hq) as [? Hx]. split; [done|by apply He].
    + cbn in Hq. subst p. cbn in Hp. split; [|by apply He]. apply exists_spec in Hp as (c & Hin & <-). apply (fo_seq _ Hf) in Hin. cbn. lia.
  - intros f Hin. by apply He, (fo_files _ Hf).
  - intros t Hin. by apply He, (fo_tags _ Hf).
Qed.

Lemma CollUpdate_stays id n d : steps (on_tables stays) (CollUpdate id n d).
Proof.
  unfold CollUpdate, CollGetByID. apply steps_bind; [apply _| |intros _; steps_go]. apply steps_write; [apply _|]. intros l Hf.
  assert (forall i, collection_exists (set_lb_collections (update (by_id id) (fun c =>
    mkCollection (cl_ID c) n d (cl_ParentID c) (cl_CreatedBy c) (cl_CreatedAt c) (lb_stamp l)) (lb_collections l)) l) i = collection_exists l i) as He.
  { intros i. apply eq_true_iff_eq. rewrite !exists_spec. cbn. split.
    - intros (c & (c0 & Hin & [[_ ->]|[_ ->]])%in_update & Hc); exists c0; done.
    - intros (c & Hin & Hc). destruct (by_id id c) eqn:E; eexists; (split; [apply in_update; exists c; split; [done|]; rewrite E; eauto|done]). }
  split.
  - change (List.NoDup (ids (update (by_id id) (fun c => mkCollection (cl_ID c) n d (cl_ParentID c) (cl_CreatedBy c) (cl_CreatedAt c) (lb_stamp l)) (lb_collections l)))).
    rewrite ids_update; [apply (fo_ids _ Hf)|done].
  - cbn. intros c (c0 & Hin & [[_ ->]|[_ ->]])%in_update; cbn; by apply (fo_seq _ Hf).
  - intros c p Hc Hp. rewrite He. apply in_update in Hc as (c0 & Hin & [[_ ->]|[_ ->]]); exact (fo_parent _ Hf _ _ Hin Hp).
  - intros f Hin. rewrite He. by apply (fo_files _ Hf).
  - intros t Hin. rewrite He. by apply (fo_tags _ Hf).
Qed.

Lemma AddFile_stays c u : steps (on_tables stays) (AddFile c u).
Proof.
  unfold AddFile. apply steps_map_err, steps_write_if; [apply _|]. intros l a l' (E & _ & _ & [Hc _]%andb_prop)%constrained_ok Hf. injection E as _ <-.
  apply (forest_same l); try done; cbn; [|apply (fo_tags _ Hf)]. intros f [Hin|[<-|[]]]%in_app_iff; [by apply (fo_files _ Hf)|done].
Qed.

Lemma RemoveFile_stays c u : steps (on_tables stays) (RemoveFile c u).
Proof.
  unfold RemoveFile. apply steps_bind; [apply _| |intros n; steps_go]. apply steps_write_ret; [apply _|]. intros l Hf.
  apply (forest_same l); try done; cbn; [|apply (fo_tags _ Hf)]. intros f [Hin _]%in_delete. by apply (fo_files _ Hf).
Qed.

Lemma CollDelete_stays id w : stays (tables w) (tables (snd (CollDelete id w))).
Proof.
  intros Hf. destruct (CollDelete_run id w Hf) as (_ & _ & H). destruct (CollDelete id w) as [[u|e] w']; cbn; [|by rewrite H].
  destruct H as (gone & Hg & ->). apply drop_forest; [done|]. by apply (under_closed _ id).
Qed.

(** Every history of the collection and tag operations, under every
    schedule of database errors, keeps the collections a forest: identifiers are
    unique, a parent exists and is older than its child, and files and tags
    belong to collections that exist. *)
Theorem collections_form_a_forest (ops : list coll_op) (w : World Library) (Hf : forest (tables w)) :
  forest (tables (run_coll_ops ops w)).
Proof.
  revert w Hf. induction ops as [|op ops IH]; intros w Hf; [done|]. cbn. apply IH.
  destruct op; cbn; unfold done_by.
  - by apply CollCreate_stays.
  - by apply CollUpdate_stays.
  - by apply CollDelete_stays.
  - by apply AddFile_stays.
  - by apply RemoveFile_stays.
  - by apply CollSetTags_stays.
  - by apply SetTags_stays.
  - by apply InheritToFile_stays.
Qed.

(** ** Concrete tables *)

Definition coll (id : Z) (parent : option Z) (by_ : Z) : CollectionRow := mkCollection id "c" "" parent by_ 0 0.

(** Collections 1, 2 below 1, 3 below 2, and 4. *)
Definition grove : Library :=
  mkLibrary [] 0 [(7, "a")] [] 0 [coll 1 None 7; coll 2 (Some 1) 7; coll 3 (Some 2) 7; coll 4 None 7] 4
    [mkCollectionFile 3 1 0; mkCollectionFile 4 1 0] [mkCollectionTag 1 2 "k" "v"] 1 [] 0 0.

Definition grove_forest : forest grove.
Proof.
  split.
  - cbn. repeat constructor; cbn; intuition discriminate.
  - cbn. intros c [<-|[<-|[<-|[<-|[]]]]]; cbn; lia.
  - cbn. intros c p [<-|[<-|[<-|[<-|[]]]]]; cbn; intros [= <-]; (split; [lia|reflexivity]).
  - cbn. intros f [<-|[<-|[]]]; reflexivity.
  - cbn. intros t [<-|[]]; reflexivity.
Defined.

(** Deleting 2 takes 3 with its file along, and the tag of 2. *)
Example CollDelete_subtree_witness :
  tables (snd (CollDelete 2 (mkWorld grove []))) = drop_collections [3; 2] grove /\ ids (lb_collections (drop_collections [3; 2] grove)) = [1; 4] /\
  transact (deleteCollectionRecursive 5 2) (mkWorld grove []) = CollDelete 2 (mkWorld grove []) /\ fst (CollDelete 2 (mkWorld grove [])) = Ok tt.
Proof.
  destruct (CollDelete_subtree 2 (mkWorld grove []) grove_forest) as (H1 & H2 & _).
  split; [vm_compute; reflexivity|]. split; [reflexivity|]. split; [apply H1; cbn; lia|by apply H2].
Defined.

(** A collection made below one that is gone is refused; the forest stays. *)
Example collections_form_a_forest_witness :
  let w := run_coll_ops [OpCollDelete 2; OpCollCreate "x" "" (Some 3) 7; OpCollCreate "y" "" (Some 4) 7] (mkWorld grove []) in
  forest (tables w) /\ map (fun c => (cl_ID c, cl_ParentID c)) (lb_collections (tables w)) = [(1, None); (4, None); (5, Some 4)].
Proof. split; [exact (collections_form_a_forest _ (mkWorld grove []) grove_forest)|vm_compute; reflexivity]. Defined.
