(* ===== verification/TagLaws.v ===== *)
(** * What tags, rules and searches promise

    Tags that were set are read back; a rule decides a key exactly when it is
    the first that matches, whatever the cache of patterns holds; a selector
    finds exactly the uploads whose tags meet it. *)

From stdpp Require Import gmap strings.
From Stdlib Require Import Ascii.
From S2P Require Import Prelude GoLib Sql Schema Stmt Clock UploadStore Users Selector Library Tags.

Open Scope Z_scope.

(** ** Reading tags back *)

Definition values_of (k : string) (rows : list (string * string)) : list string :=
  map snd (List.filter (fun kv => String.eqb (fst kv) k) rows).

Definition some_values (vs : list string) : option (list string) := match vs with [] => None | _ => Some vs end.

Lemma collect_from rows (m : TagMap) k :
  fold_left (fun m kv => <[fst kv := default [] (m !! fst kv) ++ [snd kv]]> m) rows m !! k =
  match values_of k rows with [] => m !! k | vs => Some (default [] (m !! k) ++ vs) end.
Proof.
  revert m. induction rows as [|[k' v] rows IH]; intros m; [done|]. cbn [fold_left fst snd]. rewrite IH. unfold values_of. cbn.
  destruct (String.eqb_spec k' k) as [->|Hn]; cbn.
  - rewrite lookup_insert_eq. cbn. destruct (map snd _) as [|v' vs]; [done|]. by rewrite <- app_assoc.
  - by rewrite lookup_insert_ne.
Qed.

Lemma collect_lookup rows k : collect rows !! k = some_values (values_of k rows).
Proof. unfold collect. rewrite collect_from, lookup_empty. unfold some_values. by destruct (values_of k rows). Qed.

(** Sorting by key and id keeps the order of one key. *)
Lemma insert_tag_row k x t : (forall y, In y t -> ft_ID x <= ft_ID y) ->
  List.filter (fun r => String.eqb (ft_Key r) k) (insert_by key_then_id x t) = List.filter (fun r => String.eqb (ft_Key r) k) (x :: t).
Proof.
  induction t as [|y t IH]; intros H; [done|]. cbn [insert_by]. destruct (key_then_id x y) eqn:E; [done|].
  cbn [List.filter] in *. rewrite IH by (intros z Hz; apply H; by right).
  destruct (String.eqb_spec (ft_Key x) k) as [Hx|], (String.eqb_spec (ft_Key y) k) as [Hy|]; try done.
  unfold key_then_id in E. rewrite Hx, Hy, Clock.compare_refl in E. apply Z.leb_gt in E. specialize (H y (or_introl eq_refl)). lia.
Qed.

Lemma order_keeps_values k t : StronglySorted (fun a b => ft_ID a <= ft_ID b) t ->
  List.filter (fun r => String.eqb (ft_Key r) k) (order_by key_then_id t) = List.filter (fun r => String.eqb (ft_Key r) k) t.
Proof.
  induction 1 as [|x t Ht IH Hx]; [done|]. change (order_by key_then_id (x :: t)) with (insert_by key_then_id x (order_by key_then_id t)).
  rewrite insert_tag_row.
  - cbn. by rewrite IH.
  - intros y Hy%order_by_in. rewrite List.Forall_forall in Hx. by apply Hx.
Qed.

Definition pairs (tags : list (string * list string)) : list (string * string) := flat_map (fun '(k, vs) => map (pair k) vs) tags.

(** The rows an insertion of pairs appends. *)
Fixpoint numbered (uploadID seq at_ : Z) (kvs : list (string * string)) : list Tag :=
  match kvs with
  | [] => []
  | (k, v) :: kvs => mkTag (seq + 1) uploadID k v at_ :: numbered uploadID (seq + 1) at_ kvs
  end.

Lemma numbered_app u seq at_ a b : numbered u seq at_ (a ++ b) = numbered u seq at_ a ++ numbered u (seq + Z.of_nat (length a)) at_ b.
Proof.
  revert seq. induction a as [|[k v] a IH]; intros seq; cbn [app numbered length]; [by rewrite Z.add_0_r|].
  rewrite IH. cbn [app]. do 3 f_equal. lia.
Qed.

Lemma numbered_above u seq at_ kvs t : In t (numbered u seq at_ kvs) -> seq < ft_ID t /\ ft_UploadID t = u.
Proof. revert seq. induction kvs as [|[k v] kvs IH]; intros seq; cbn; [done|]. intros [<-|H%IH]; cbn; [lia|]. split; [lia|tauto]. Qed.

Lemma numbered_sorted u seq at_ kvs : StronglySorted (fun a b => ft_ID a <= ft_ID b) (numbered u seq at_ kvs).
Proof.
  revert seq. induction kvs as [|[k v] kvs IH]; intros seq; cbn; constructor; [done|]. apply List.Forall_forall.
  intros t [H _]%numbered_above. cbn. lia.
Qed.

Lemma numbered_pairs u seq at_ kvs : map tag_pair (numbered u seq at_ kvs) = kvs.
Proof. revert seq. induction kvs as [|[k v] kvs IH]; intros seq; cbn; [done|]. by rewrite IH. Qed.

Definition appended (u : Z) (kvs : list (string * string)) (l l' : Library) : Prop :=
  lb_tags l' = lb_tags l ++ numbered u (lb_seq_tags l) (lb_stamp l) kvs /\
  lb_seq_tags l' = lb_seq_tags l + Z.of_nat (length kvs) /\ lb_now l' = lb_now l.

Lemma appended_trans u a b l l' l'' : appended u a l l' -> appended u b l' l'' -> appended u (a ++ b) l l''.
Proof.
  intros (T & S & N) (T' & S' & N'). unfold appended, lb_stamp in *. rewrite T', T, S', S, N', N, numbered_app, <- app_assoc, length_app.
  split_and!; [done|lia|done].
Qed.

Lemma insert_tag_ok u k v w r w' : insert_tag u k v w = (Ok r, w') -> appended u [(k, v)] (tables w) (tables w').
Proof.
  intros H. apply write_if_run in H as [(a & _ & H)|(e & [=] & _)]. apply constrained_ok in H as (E & _). injection E as _ <-. done.
Qed.

Lemma insert_values_ok u k vs w r w' : insert_values (insert_tag u) k vs w = (Ok r, w') -> appended u (map (pair k) vs) (tables w) (tables w').
Proof.
  revert w. induction vs as [|v vs IH]; intros w; cbn.
  - intros [= _ <-]. unfold appended. cbn. rewrite app_nil_r, Z.add_0_r. done.
  - intros ([] & w1 & H1%insert_tag_ok & H%IH)%bind_ok. by eapply (appended_trans u [(k, v)]).
Qed.

Lemma insert_all_ok u tags w r w' : insert_all (insert_tag u) tags w = (Ok r, w') -> appended u (pairs tags) (tables w) (tables w').
Proof.
  revert w. induction tags as [|[k vs] tags IH]; intros w; cbn [insert_all pairs flat_map].
  - intros [= _ <-]. unfold appended. cbn. rewrite app_nil_r, Z.add_0_r. done.
  - intros ([] & w1 & H1%insert_values_ok & H%IH)%bind_ok. by eapply appended_trans.
Qed.

Lemma values_other k l : (forall vs, ~ In (k, vs) l) -> values_of k (pairs l) = [].
Proof.
  unfold values_of. induction l as [|[k' vs] l IH]; [done|]. intros H. cbn [pairs flat_map]. rewrite List.filter_app, map_app.
  change (flat_map _ l) with (pairs l). rewrite IH by (intros vs' Hin; by eapply H; right). rewrite app_nil_r.
  induction vs as [|v vs IHv]; [done|]. cbn. destruct (String.eqb_spec k' k) as [->|]; [destruct (H (v :: vs)); by left|].
  apply IHv. intros vs' [[= -> ->]|Hin]; [by eapply H; left|by eapply H; right].
Qed.

Lemma values_pairs k tags : List.NoDup (map fst tags) ->
  values_of k (pairs tags) = match List.find (fun kv => String.eqb (fst kv) k) tags with Some kv => snd kv | None => [] end.
Proof.
  induction tags as [|[k' vs] tags IH]; [done|]. cbn [map]. intros [Hk Hnd]%NoDup_cons_iff. cbn [pairs flat_map List.find fst].
  unfold values_of. rewrite List.filter_app, map_app. change (flat_map _ tags) with (pairs tags).
  destruct (String.eqb_spec k' k) as [->|Hn].
  - pose proof (values_other k tags) as Ho. unfold values_of in Ho. rewrite Ho, app_nil_r; [|intros vs' Hin; by apply Hk, (in_map fst _ (k, vs'))].
    clear. cbn [snd]. induction vs as [|v vs IHv]; [done|]. cbn. rewrite String.eqb_refl. cbn. by f_equal.
  - replace (List.filter _ (map (pair k') vs)) with (@nil (string * string)); [by apply IH|].
    clear -Hn. induction vs as [|v vs IHv]; [done|]. cbn. by destruct (String.eqb_spec k' k).
Qed.

Lemma select_none {A} (p : A -> bool) t : (forall r, In r t -> p r = false) -> select p t = [].
Proof. unfold select. induction t as [|r t IH]; cbn; [done|]. intros H. rewrite H by (by left). apply IH. auto. Qed.

Lemma select_all_in {A} (p : A -> bool) t : (forall r, In r t -> p r = true) -> select p t = t.
Proof. unfold select. induction t as [|r t IH]; cbn; [done|]. intros H. rewrite H by (by left). f_equal. apply IH. auto. Qed.

Lemma GetTags_reads u l : fst (GetTags u (mkWorld l [])) = Ok (collect (map tag_pair (order_by key_then_id (select (of_upload u) (lb_tags l))))).
Proof. done. Qed.

Lemma values_of_rows k t : values_of k (map tag_pair t) = map ft_Value (List.filter (fun r => String.eqb (ft_Key r) k) t).
Proof. unfold values_of. induction t as [|r t IH]; [done|]. cbn. destruct (String.eqb (ft_Key r) k); cbn; by rewrite IH. Qed.

(** Replacing the tags of an upload either fails and changes nothing, or
    afterwards the upload has exactly the given tags, each key with its values in
    order, and every other upload has the tags it had. *)
Theorem SetTags_roundtrip (uploadID : Z) (tags : list (string * list string)) (w w' : World Library) (r : result error unit)
    (Hk : List.NoDup (map fst tags)) (H : SetTags uploadID tags w = (r, w')) :
  match r with
  | Err _ => tables w' = tables w
  | Ok _ =>
      (exists m, fst (GetTags uploadID (mkWorld (tables w') [])) = Ok m /\
        forall k, m !! k = match List.find (fun kv => String.eqb (fst kv) k) tags with Some (_, v :: vs) => Some (v :: vs) | _ => None end) /\
      (forall other, other <> uploadID -> select (of_upload other) (lb_tags (tables w')) = select (of_upload other) (lb_tags (tables w)))
  end.
Proof.
  unfold SetTags in H. destruct r as [[]|e]; [|by apply transact_err in H].
  apply transact_ok in H as (l & w1 & H & Ht). apply bind_ok in H as ([] & w2 & H2 & H).
  apply write_run in H2 as [[_ H2]|(e & [=] & _)]. apply insert_all_ok in H as (T & _ & _). rewrite <- Ht, H2 in T. cbn in T.
  set (new := numbered _ _ _ _) in T.
  assert (forall t, In t new -> ft_UploadID t = uploadID) as Hnew by (intros t Hin; by apply numbered_above in Hin as [_ ?]).
  split.
  - eexists. split; [apply GetTags_reads|]. intros k. rewrite T, select_app, (select_none _ (delete_where _ _)), select_all_in.
    2:{ intros t Hin. unfold of_upload. rewrite (Hnew t Hin). apply Z.eqb_refl. }
    2:{ by intros t [_ Hd]%in_delete. }
    cbn [app]. rewrite collect_lookup, values_of_rows, order_keeps_values by apply numbered_sorted. rewrite <- values_of_rows.
    unfold new. rewrite numbered_pairs, values_pairs by done. by destruct (List.find _ tags) as [[k' [|v vs]]|].
  - intros other Hne. rewrite T, select_app, (select_none _ new), app_nil_r.
    + clear -Hne. unfold select, delete_where. induction (lb_tags (tables w)) as [|t ts IH]; [done|]. cbn.
      destruct (of_upload uploadID t) eqn:E; cbn; [|by rewrite IH].
      unfold of_upload in *. apply Z.eqb_eq in E. destruct (Z.eqb_spec (ft_UploadID t) other); [congruence|done].
    + intros t Hin. unfold of_upload. rewrite (Hnew t Hin). by apply Z.eqb_neq.
Qed.

(** ** Rules *)

Section rules.
Context {rx : Regexp}.

(** The match of a rule, patterns compiled afresh. *)
Definition text_matches (r : TagRule) (value : string) : bool :=
  if String.eqb (ru_MatchOp r) "equals" then String.eqb value (ru_MatchValue r) else
  if String.eqb (ru_MatchOp r) "contains" then Contains value (ru_MatchValue r) else
  if String.eqb (ru_MatchOp r) "regex" then match rx_Compile (ru_MatchValue r) with Ok f => f value | Err _ => false end else false.

Definition matches (filename contentType : string) (fileSize : Z) (visibility : string) (r : TagRule) : bool :=
  if String.eqb (ru_MatchField r) "content_type" then text_matches r contentType else
  if String.eqb (ru_MatchField r) "filename" then text_matches r filename else
  if String.eqb (ru_MatchField r) "file_size" then matchSize r fileSize else
  String.eqb (ru_MatchField r) "visibility" && (String.eqb (ru_MatchOp r) "equals" && String.eqb visibility (ru_MatchValue r)).

(** A cache that earlier calls filled. *)
Definition faithful (cache : gmap string (result string (string -> bool))) : Prop :=
  forall p c, cache !! p = Some c -> match rx_Compile p with Ok f => c = Ok f | Err _ => exists m, c = Err m end.

Lemma faithful_empty : faithful ∅.
Proof. intros p c H. by rewrite lookup_empty in H. Qed.

Lemma matchRegex_ok p v cache : faithful cache ->
  fst (matchRegex p v cache) = match rx_Compile p with Ok f => f v | Err _ => false end /\ faithful (snd (matchRegex p v cache)).
Proof.
  intros Hc. unfold matchRegex, getOrCompileRegex. destruct (cache !! p) as [c|] eqn:E.
  - pose proof (Hc _ _ E) as H. destruct (rx_Compile p) as [f|e]; [subst c; done|]. by destruct H as [m ->].
  - assert (forall c, match rx_Compile p with Ok f => c = Ok f | Err _ => exists m, c = Err m end -> faithful (<[p := c]> cache)) as Hi.
    { intros c Hp q d. destruct (decide (q = p)) as [->|]; [rewrite lookup_insert_eq; by intros [= <-]|rewrite lookup_insert_ne by done; apply Hc]. }
    destruct (rx_Compile p) as [f|e] eqn:Ep; (split; [done|apply Hi; eauto]).
Qed.

Lemma matchString_ok r v cache : faithful cache -> fst (matchString r v cache) = text_matches r v /\ faithful (snd (matchString r v cache)).
Proof.
  intros Hc. unfold matchString, text_matches. destruct (String.eqb _ "equals"); [done|]. destruct (String.eqb _ "contains"); [done|].
  destruct (String.eqb _ "regex"); [by apply matchRegex_ok|done].
Qed.

Lemma ruleMatches_ok r fn ct fs vis cache : faithful cache ->
  fst (ruleMatches r fn ct fs vis cache) = matches fn ct fs vis r /\ faithful (snd (ruleMatches r fn ct fs vis cache)).
Proof.
  intros Hc. unfold ruleMatches, matches. destruct (String.eqb _ "content_type"); [by apply matchString_ok|].
  destruct (String.eqb _ "filename"); [by apply matchString_ok|]. destruct (String.eqb _ "file_size"); [done|]. by destruct (String.eqb _ "visibility").
Qed.

(** The first rule for a key that matches. *)
Definition decides (k fn ct : string) (fs : Z) (vis : string) (r : TagRule) : bool := String.eqb (ru_ApplyKey r) k && matches fn ct fs vis r.

Lemma apply_rules_ok rules fn ct fs vis : forall tags cache, faithful cache ->
  (forall k, fst (apply_rules rules fn ct fs vis tags cache) !! k =
     match tags !! k with Some vs => Some vs | None => (fun r => [ru_ApplyValue r]) <$> List.find (decides k fn ct fs vis) rules end) /\
  faithful (snd (apply_rules rules fn ct fs vis tags cache)).
Proof.
  induction rules as [|r rules IH]; intros tags cache Hc; cbn [apply_rules List.find].
  - split; [intros k; cbn [fst]; by destruct (tags !! k)|done].
  - destruct (tags !! ru_ApplyKey r) as [vs|] eqn:Et.
    + destruct (IH tags cache Hc) as [Hk Hf]. split; [|done]. intros k. rewrite Hk. destruct (tags !! k) eqn:E; [done|].
      unfold decides at 2. destruct (String.eqb_spec (ru_ApplyKey r) k) as [<-|]; [congruence|done].
    + pose proof (ruleMatches_ok r fn ct fs vis cache Hc) as [Hm Hf]. destruct (ruleMatches r fn ct fs vis cache) as [m cache'].
      cbn in Hm, Hf. subst m. destruct (IH (if matches fn ct fs vis r then <[ru_ApplyKey r := [ru_ApplyValue r]]> tags else tags) cache' Hf) as [Hk Hf'].
      split; [|done]. intros k. rewrite Hk. unfold decides at 2. destruct (String.eqb_spec (ru_ApplyKey r) k) as [<-|Hn].
      * destruct (matches fn ct fs vis r); [by rewrite lookup_insert_eq, Et|by rewrite Et].
      * cbn. destruct (matches fn ct fs vis r); [by rewrite lookup_insert_ne|done].
Qed.

(** The rules give a key the value of the first enabled rule for that key,
    by priority and then by age, whose condition holds of the upload, and no
    value when there is none; what earlier evaluations left in the cache of
    patterns makes no difference, and an invalid pattern matches nothing. *)
Theorem EvaluateRules_first_match (fn ct : string) (fs : Z) (vis : string) (cache : gmap string (result string (string -> bool)))
    (w : World Library) (Hc : faithful cache) (Hs : sched w = []) :
  exists tags cache', EvaluateRules fn ct fs vis cache w = (Ok (tags, cache'), w) /\ faithful cache' /\
    forall k, tags !! k =
      (fun r => [ru_ApplyValue r]) <$> List.find (decides k fn ct fs vis) (order_by rule_le (select ru_IsEnabled (lb_rules (tables w)))).
Proof.
  unfold EvaluateRules, mbind, ST_bind. rewrite read_healthy by done.
  destruct (apply_rules_ok (order_by rule_le (select ru_IsEnabled (lb_rules (tables w)))) fn ct fs vis ∅ cache Hc) as [Hk Hf].
  destruct (apply_rules _ _ _ _ _ _ _) as [tags cache']. exists tags, cache'. split_and!; [done|done|]. intros k. by rewrite Hk, lookup_empty.
Qed.
End rules.

(** ** Selectors *)

Lemma subquery_neg c d : String.eqb (subquery true c) (subquery false d) = false /\ String.eqb (subquery false c) (subquery true d) = false.
Proof. split; reflexivity. Qed.

Lemma String_eqb_app a b c : String.eqb (a +:+ b) (a +:+ c) = String.eqb b c.
Proof. induction a as [|x a IH]; [done|]. change (String.eqb (String x (a +:+ b)) (String x (a +:+ c)) = String.eqb b c). cbn. by rewrite Ascii.eqb_refl. Qed.

Lemma read_clause_render c : read_clause (render c) = Some c.
Proof.
  unfold read_clause. rewrite render_placeholders. destruct c as [neg cond].
  assert (forall x y, String.eqb (subquery neg x) (subquery neg y) = String.eqb (x +:+ ")") (y +:+ ")")) as Hsub.
  { intros x y. unfold subquery. by rewrite !String_eqb_app. }
  assert (forall x y, String.eqb (subquery (negb neg) x) (subquery neg y) = false) as Hneg.
  { intros x y. destruct neg; apply subquery_neg. }
  unfold render. destruct neg, cond as [| |n]; cbn [flat_map app List.find cl_neg cl_cond arity negb] in *;
    rewrite ?Hneg, ?Hsub; cbn [String.eqb]; try reflexivity; cbn [Nat.sub];
    rewrite ?Nat.sub_0_r; cbv [String.append]; cbn; rewrite ?String.eqb_refl; reflexivity.
Qed.

Lemma read_clauses_render rs : read_clauses (map clause rs) = Some (map clause_of rs).
Proof. induction rs as [|r rs IH]; [done|]. cbn [map read_clauses]. rewrite clause_render, read_clause_render. cbn. by rewrite IH. Qed.

(** C18. From the text of a selector to the rows: a selector that parses becomes
    clauses that run, and the search returns, newest first and up to the limit,
    exactly the uploads of the user whose tags meet every requirement. *)
Theorem selector_search (input : string) (reqs : list Requirement) (userID n : Z) (w : World Library)
    (Hp : ParseSelector input = Ok reqs) (Hs : sched w = []) :
  exists texts args p, BuildSelectorSQL reqs = Some (texts, args) /\
    SearchBySelector userID texts args n w =
      (Ok (limit (if (n <=? 0) || (10000 <? n) then 100 else n) (order_by created_desc (select p (lb_uploads (tables w))))), w) /\
    forall u, p u = true <-> u_user_id u = userID /\ Forall (req_holds (tags_on (tables w) u)) reqs.
Proof.
  apply ParseSelector_valid in Hp as [Hv _]. destruct (build_valid reqs Hv) as (args & Hb & _ & Hsem).
  exists (map clause reqs), args, (fun u => (u_user_id u =? userID) && clauses_hold (map clause reqs) args (tables w) u).
  split_and!; [done| |].
  - unfold SearchBySelector, clauses_sql. rewrite read_clauses_render. unfold mbind, ST_bind. by rewrite round_trip_healthy.
  - intros u. unfold clauses_hold. by rewrite read_clauses_render, andb_true_iff, Z.eqb_eq, Hsem.
Qed.

(** ** Concrete tables *)

Definition an_upload (id user : Z) (name : string) (created : Z) : Upload :=
  mkUpload id "u" user None name name 10 "text/plain" Private Completed None None None None None None None None 0 None 0 None None None created None 0.

Definition shelf : Library :=
  mkLibrary [an_upload 1 7 "report_1.txt" 100; an_upload 2 7 "report21.txt" 200; an_upload 3 8 "x" 300] 3 [(7, "a"); (8, "b")]
    [mkTag 1 1 "dept" "eng" 0; mkTag 2 2 "dept" "eng" 0; mkTag 3 2 "status" "archived" 0; mkTag 4 3 "dept" "eng" 0] 4 [] 0 [] [] 0
    [mkRule 1 "a" "" "filename" "contains" "report" "dept" "ops" 50 true 7 0 0; mkRule 2 "b" "" "file_size" "gt" "5" "dept" "big" 10 true 7 0 0;
     mkRule 3 "c" "" "filename" "regex" "(" "kind" "x" 1 true 7 0 0] 3 (500 * lb_second).

Definition at_rest (l : Library) : World Library := mkWorld l [].

Example selector_search_witness :
  fst (SearchBySelector 7 (map clause [mkReq "dept" OpEq ["eng"]; mkReq "status" OpNe ["archived"]]) ["dept"; "eng"; "status"; "archived"] 10 (at_rest shelf)) =
    Ok [an_upload 1 7 "report_1.txt" 100] /\
  exists p, forall u, p u = true <-> u_user_id u = 7 /\ Forall (req_holds (tags_on shelf u)) [mkReq "dept" OpEq ["eng"]; mkReq "status" OpNe ["archived"]].
Proof.
  split; [vm_compute; reflexivity|].
  destruct (selector_search "dept=eng, status!=archived" [mkReq "dept" OpEq ["eng"]; mkReq "status" OpNe ["archived"]] 7 10 (at_rest shelf)) as (texts & args & p & _ & _ & H).
  - vm_compute. reflexivity.
  - reflexivity.
  - exists p. exact H.
Defined.

Definition two_tags : list (string * list string) := [("b", ["2"; "1"]); ("a", ["x"]); ("c", [])].

Example SetTags_roundtrip_witness : exists m,
  fst (GetTags 1 (mkWorld (tables (snd (SetTags 1 two_tags (at_rest shelf)))) [])) = Ok m /\
  m !! "b" = Some ["2"; "1"] /\ m !! "c" = None /\ m !! "dept" = None.
Proof.
  destruct (SetTags_roundtrip 1 two_tags (at_rest shelf) (snd (SetTags 1 two_tags (at_rest shelf))) (Ok tt)) as [(m & Hm & H) _].
  - repeat constructor; cbn; intuition discriminate.
  - vm_compute. reflexivity.
  - exists m. split; [exact Hm|]. rewrite !H. done.
Defined.

(** Patterns that hold a parenthesis do not compile here. *)
#[local] Instance plain_patterns : Regexp := {|
  rx_Compile := fun p => if Contains p "(" then Err (ENew "missing closing )") else Ok (fun s => Contains s p)
|}.

Example EvaluateRules_first_match_witness : exists tags cache',
  EvaluateRules "report.txt" "text/plain" 10 "private" ∅ (at_rest shelf) = (Ok (tags, cache'), at_rest shelf) /\
  tags !! "dept" = Some ["big"] /\ tags !! "kind" = None.
Proof.
  destruct (EvaluateRules_first_match "report.txt" "text/plain" 10 "private" ∅ (at_rest shelf) faithful_empty eq_refl) as (tags & cache & H & _ & Hk).
  exists tags, cache. split; [exact H|]. rewrite !Hk. vm_compute. done.
Defined.

(** An eleventh filter of the old search gets a name no statement parses with. *)
Example eleven_filters_fail :
  is_ok (fst (Search (repeat ("dept", "eng") 10) "" 7 10 0 (at_rest shelf))) = true /\
  is_ok (fst (Search (repeat ("dept", "eng") 11) "" 7 10 0 (at_rest shelf))) = false /\ alias 10 = "t:".
Proof. vm_compute. done. Qed.

(** The underscore of a query for a file name stands for any character. *)
Example query_wildcards_are_live :
  (fun r => (map (fun f => u_id (sr_Upload f)) (fst r), snd r)) <$> match fst (Search [] "report_1" 7 10 0 (at_rest shelf)) with Ok x => Some x | Err _ => None end =
  Some ([2; 1], 2).
Proof. vm_compute. done. Qed.
