(* ===== verification/LibraryHandlers.v ===== *)
(** * The handlers of collections and tags

    src/internal/handlers/collections.go, collection_tags.go, tags.go,
    tags_bulk.go and tag_rules.go. Path and query parameters are texts, a body is
    what it decodes to, or nothing. Events that a handler hands to a goroutine
    are listed in the order of the calls. *)

From stdpp Require Import gmap strings.
From S2P Require Import Prelude GoLib Sql Schema Stmt UploadStore Users Selector Library Tags Collections Http.

Open Scope Z_scope.

(** ** State *)

Inductive fired :=
| FiredTags (eventType uploadUUID : string) (tags : TagMap)
| FiredCollection (eventType uploadUUID : string) (collectionID : Z) (name : string).

Record Shelf := mkShelf { sh_lib : World Library; sh_fired : list fired }.

Definition put_sh_lib v s := mkShelf v (sh_fired s).

Abbreviation HandlerM := (ST Refusal Shelf).

Definition lib {A} (m : LibM A) : ST error Shelf A := zoom sh_lib put_sh_lib m.

(** [go webhookSvc.Fire...]. *)
Definition fire_event (e : fired) : HandlerM unit := modify (fun s => mkShelf (sh_lib s) (sh_fired s ++ [e])).

(** UploadService.GetByUUID on these tables. *)
Definition GetByUUID (uid : string) : LibM Upload :=
  map_err (or_missing ErrUploadNotFound) (read_row (fun l => List.find (fun u => String.eqb (u_uuid u) uid) (lb_uploads l))).

(** ** Answers *)

Record collectionResponse := mkCollResp {
  cr_ID : Z; cr_Name : string; cr_Description : string; cr_ParentID : option Z; cr_FileCount : Z; cr_CreatedAt : string; cr_UpdatedAt : string;
}.

Definition toCollectionResponse (c : Collection) : collectionResponse :=
  let r := co_row c in
  mkCollResp (cl_ID r) (cl_Name r) (cl_Description r) (cl_ParentID r) (co_FileCount c) (format_z (cl_CreatedAt r)) (format_z (cl_UpdatedAt r)).

Record createCollectionRequest := mkCreateColl { cc_Name : string; cc_Description : string; cc_ParentID : option Z }.
Record updateCollectionRequest := mkUpdateColl { uc_Name : string; uc_Description : string }.

Definition refused (message : string) (status : Z) : error -> Refusal := fun _ => jsonError message status.
Definition failed (message : string) : error -> Refusal := refused message 500.

(** A collection of the caller; of any error nothing is told. *)
Definition own_collection (userID id : Z) : HandlerM Collection :=
  coll ← or_refuse (refused "collection not found" 404) (lib (CollGetByID id));
  require (cl_CreatedBy (co_row coll) =? userID) (jsonError "collection not found" 404) ;;
  mret coll.

Definition collection_id (id : string) : HandlerM Z := decoded (ParseInt id) (jsonError "invalid collection id" 400).

Definition CreateCollection (userID : Z) (body : option createCollectionRequest) : HandlerM (Z * collectionResponse) :=
  req ← decoded body invalid_body;
  require (negb (String.eqb (cc_Name req) "")) (jsonError "name is required" 400) ;;
  coll ← or_refuse (fun err => if errors_is err ErrCollectionNotFound then jsonError "parent collection not found" 404
                               else jsonError "failed to create collection" 500)
           (lib (CollCreate (cc_Name req) (cc_Description req) (cc_ParentID req) userID));
  answer 201 (toCollectionResponse coll).

Definition ListCollections (userID : Z) (parent_id : string) : HandlerM (Z * list collectionResponse) :=
  let parentID := if String.eqb parent_id "" then None else ParseInt parent_id in
  colls ← or_refuse (failed "failed to list collections") (lib (CollList userID parentID));
  answer 200 (map toCollectionResponse colls).

(** The collection, a page of its files with the time each was added, and
    their number; the errors of the last two are dropped. *)
Record collectionDetail := mkDetail { cd_collection : collectionResponse; cd_files : list (Upload * string); cd_total_files : Z }.

Definition GetCollection (userID : Z) (id limit offset : string) : HandlerM (Z * collectionDetail) :=
  id ← collection_id id;
  coll ← or_refuse (fun err => if errors_is err ErrCollectionNotFound then jsonError "collection not found" 404 else jsonError "failed to get collection" 500)
           (lib (CollGetByID id));
  require (cl_CreatedBy (co_row coll) =? userID) (jsonError "collection not found" 404) ;;
  let off := atoi_or_zero offset in
  files ← attempt (lib (ListFiles id (atoi_or_zero limit) (if off <? 0 then 0 else off)));
  added ← attempt (lib (AddedTimes id));
  let '(us, total) := match files with Ok r => r | Err _ => ([], 0) end in
  let times := match added with Ok m => m | Err _ => ∅ end in
  answer 200 (mkDetail (toCollectionResponse coll)
    (map (fun u => (u, match times !! u_id u with Some t => format_z t | None => "" end)) us) total).

Definition UpdateCollection (userID : Z) (id : string) (body : option updateCollectionRequest) : HandlerM (Z * collectionResponse) :=
  id ← collection_id id;
  own_collection userID id ;;
  req ← decoded body invalid_body;
  require (negb (String.eqb (uc_Name req) "")) (jsonError "name is required" 400) ;;
  updated ← or_refuse (failed "failed to update collection") (lib (CollUpdate id (uc_Name req) (uc_Description req)));
  answer 200 (toCollectionResponse updated).

Definition DeleteCollection (userID : Z) (id : string) : HandlerM (Z * string) :=
  id ← collection_id id;
  own_collection userID id ;;
  or_refuse (failed "failed to delete collection") (lib (CollDelete id)) ;;
  answer 200 "collection deleted".

Section visits.
(** The orders in which the loops visit maps. *)
Context (visit : TagMap -> list (string * list string)).

Definition AddToCollection (userID : Z) (id : string) (body : option string) : HandlerM (Z * string) :=
  collID ← collection_id id;
  coll ← own_collection userID collID;
  uploadUUID ← decoded body invalid_body;
  upload ← or_refuse (refused "upload not found" 404) (lib (GetByUUID uploadUUID));
  require (u_user_id upload =? userID) (jsonError "upload not found" 404) ;;
  or_refuse (fun err => if errors_is err ErrFileAlreadyInCollection then jsonError "file already in collection" 409 else jsonError "failed to add file" 500)
    (lib (AddFile collID (u_id upload))) ;;
  attempt (lib (InheritToFile visit collID (u_id upload))) ;;
  fire_event (FiredCollection "collection_file_added" (u_uuid upload) collID (cl_Name (co_row coll))) ;;
  answer 200 "file added to collection".

Definition RemoveFromCollection (userID : Z) (id uploadUUID : string) : HandlerM (Z * string) :=
  collID ← collection_id id;
  coll ← own_collection userID collID;
  upload ← or_refuse (refused "upload not found" 404) (lib (GetByUUID uploadUUID));
  or_refuse (fun err => if errors_is err ErrFileNotInCollection then jsonError "file not in collection" 404 else jsonError "failed to remove file" 500)
    (lib (RemoveFile collID (u_id upload))) ;;
  fire_event (FiredCollection "collection_file_removed" (u_uuid upload) collID (cl_Name (co_row coll))) ;;
  answer 200 "file removed from collection".

Definition UploadCollections (userID : Z) (uploadUUID : string) : HandlerM (Z * list Z) :=
  upload ← or_refuse (refused "upload not found" 404) (lib (GetByUUID uploadUUID));
  require (u_user_id upload =? userID) (jsonError "upload not found" 404) ;;
  ids ← or_refuse (failed "failed to get collections") (lib (CollectionIDsForUpload (u_id upload)));
  answer 200 ids.

(** ** collection_tags.go *)

Definition tagged_collection (userID : Z) (id : string) : HandlerM Z :=
  id ← decoded (ParseInt id) (jsonError "invalid collection ID" 400);
  coll ← or_refuse (refused "collection not found" 404) (lib (CollGetByID id));
  require (cl_CreatedBy (co_row coll) =? userID) (jsonError "not your collection" 403) ;;
  mret id.

Definition GetCollectionTags (userID : Z) (id : string) : HandlerM (Z * TagMap) :=
  id ← tagged_collection userID id;
  tags ← or_refuse (failed "failed to get tags") (lib (CollGetTags id));
  answer 200 tags.

Definition UpdateCollectionTags (userID : Z) (id : string) (body : option TagMap) : HandlerM (Z * TagMap) :=
  id ← tagged_collection userID id;
  tags ← decoded body invalid_body;
  or_refuse (failed "failed to update tags") (lib (CollSetTags id (visit tags))) ;;
  answer 200 tags.

(** ** tags.go *)

Definition ListTagKeys (userID : Z) : HandlerM (Z * list string) :=
  keys ← or_refuse (failed "failed to list tag keys") (lib (ListKeys userID)); answer 200 keys.

Definition ListTagValues (userID : Z) (key : string) : HandlerM (Z * list string) :=
  require (negb (String.eqb key "")) (jsonError "key query parameter is required" 400) ;;
  values ← or_refuse (failed "failed to list tag values") (lib (ListValues userID key));
  answer 200 values.

Definition own_upload (userID : Z) (uploadUUID : string) : HandlerM Upload :=
  upload ← or_refuse (fun err => if errors_is err ErrUploadNotFound then jsonError "upload not found" 404 else jsonError "failed to get upload" 500)
             (lib (GetByUUID uploadUUID));
  require (u_user_id upload =? userID) (jsonError "upload not found" 404) ;;
  mret upload.

Definition GetTags_ (userID : Z) (uploadUUID : string) : HandlerM (Z * TagMap) :=
  upload ← own_upload userID uploadUUID;
  tags ← or_refuse (failed "failed to get tags") (lib (GetTags (u_id upload)));
  answer 200 tags.

Definition UpdateTags (userID : Z) (uploadUUID : string) (body : option TagMap) : HandlerM (Z * TagMap) :=
  upload ← own_upload userID uploadUUID;
  tags ← decoded body invalid_body;
  or_refuse (failed "failed to update tags") (lib (SetTags (u_id upload) (visit tags))) ;;
  fire_event (FiredTags "tags_updated" (u_uuid upload) tags) ;;
  answer 200 tags.

(** The filters of the query parameters that begin with "tag.", one value each. *)
Definition tag_filters (params : list (string * list string)) : list (string * string) :=
  flat_map (fun '(k, vals) =>
    if (4 <? String.length k)%nat && String.eqb (take_str 4 k) "tag." then map (pair (drop_str 4 k)) (firstn 1 vals) else []) params.

(** [params]: the query parameters in the order the loop visits them. *)
Definition SearchByTags (userID : Z) (limit offset query selector : string) (params : list (string * list string)) : HandlerM (Z * (list SearchResult * Z)) :=
  let n := atoi_or_zero limit in
  let off := atoi_or_zero offset in
  r ← (if negb (String.eqb selector "") then
         match ParseSelector selector with
         | Err parseErr => refuse (jsonError ("invalid selector: " +:+ Error_ parseErr) 400)
         | Ok reqs =>
             match BuildSelectorSQL reqs with
             | None => refuse (jsonError "search failed" 500)  (* not reached: no accepted requirement lacks its value *)
             | Some (clauses, args) => or_refuse (failed "search failed") (lib (SearchWithSelector clauses args query userID n off))
             end
         end
       else or_refuse (failed "search failed") (lib (Search (tag_filters params) query userID n off)));
  answer 200 r.

(** ** tags_bulk.go *)

Definition maxBulkTagUUIDs : nat := 1000.

Record bulkTagRequest := mkBulk { bk_UploadUUIDs : list string; bk_Selector : string; bk_AddTags : TagMap; bk_RemoveTags : list string }.

(** The uploads of the caller among the named ones. *)
Fixpoint own_targets (userID : Z) (uuids : list string) : HandlerM (list Upload) :=
  match uuids with
  | [] => mret []
  | uid :: uuids =>
      r ← attempt (lib (GetByUUID uid));
      rest ← own_targets userID uuids;
      mret (match r with Ok u => if u_user_id u =? userID then u :: rest else rest | Err _ => rest end)
  end.

(** A read that fails leaves no tags to merge with. *)
Definition tags_or_none (uploadID : Z) : HandlerM TagMap :=
  r ← attempt (lib (GetTags uploadID)); mret (match r with Ok m => m | Err _ => ∅ end).

Definition bulk_tag (req : bulkTagRequest) (u : Upload) : HandlerM Z :=
  added ← (if bool_decide (bk_AddTags req = ∅) then mret 0 else
             existing ← tags_or_none (u_id u);
             let merged := bk_AddTags req ∪ existing in
             r ← attempt (lib (SetTags (u_id u) (visit merged)));
             if is_ok r then fire_event (FiredTags "tags_updated" (u_uuid u) merged) ;; mret 1 else mret 0);
  removed ← (match bk_RemoveTags req with
             | [] => mret 0
             | keys =>
                 existing ← tags_or_none (u_id u);
                 let left := fold_left (fun m k => delete k m) keys existing in
                 r ← attempt (lib (SetTags (u_id u) (visit left)));
                 if is_ok r then
                   fire_event (FiredTags "tags_updated" (u_uuid u) left) ;;
                   mret (if bool_decide (bk_AddTags req = ∅) then 1 else 0)
                 else mret 0
             end);
  mret (added + removed).

Fixpoint bulk_all (req : bulkTagRequest) (targets : list Upload) (affected : Z) : HandlerM Z :=
  match targets with
  | [] => mret affected
  | u :: targets => n ← bulk_tag req u; bulk_all req targets (affected + n)
  end.

Definition BulkTagUploads (userID : Z) (body : option bulkTagRequest) : HandlerM (Z * Z) :=
  req ← decoded body invalid_body;
  require (negb (bool_decide (bk_AddTags req = ∅) && bool_decide (bk_RemoveTags req = []))) (jsonError "add_tags or remove_tags required" 400) ;;
  targets ←
    match bk_UploadUUIDs req with
    | _ :: _ =>
        require (length (bk_UploadUUIDs req) <=? maxBulkTagUUIDs)%nat (jsonError "too many upload_uuids (max 1000)" 400) ;;
        own_targets userID (bk_UploadUUIDs req)
    | [] =>
        if negb (String.eqb (bk_Selector req) "") then
          match ParseSelector (bk_Selector req) with
          | Err err => refuse (jsonError ("invalid selector: " +:+ Error_ err) 400)
          | Ok reqs =>
              match BuildSelectorSQL reqs with
              | None => refuse (jsonError "search failed" 500)
              | Some (clauses, args) => or_refuse (failed "search failed") (lib (SearchBySelector userID clauses args 1000))
              end
          end
        else refuse (jsonError "upload_uuids or selector required" 400)
    end;
  n ← bulk_all req targets 0;
  answer 200 n.
End visits.

(** GROUP BY key and value, ordered by key, the most frequent first. *)
Definition facet_le (a b : string * string * Z) : bool :=
  match String.compare (fst (fst a)) (fst (fst b)) with Lt => true | Gt => false | Eq => snd b <=? snd a end.

Definition TagFacets (userID : Z) : HandlerM (Z * list (string * string * Z)) :=
  facets ← or_refuse (failed "failed to query tag facets") (lib (read (fun l =>
    let rows := map tag_pair (tags_of_user userID l) in
    order_by facet_le (map (fun kv => (kv, affected (fun r => bool_decide (r = kv)) rows)) (distinct rows)))));
  answer 200 facets.

(** ** tag_rules.go *)

Record tagRuleRequest := mkRuleReq {
  tr_Name : string; tr_Description : string; tr_MatchField : string; tr_MatchOp : string; tr_MatchValue : string;
  tr_ApplyKey : string; tr_ApplyValue : string; tr_Priority : Z; tr_IsEnabled : option bool;
}.

Definition ListTagRules : HandlerM (Z * list TagRule) :=
  rules ← or_refuse (failed "failed to list rules") (lib RuleList); answer 200 rules.

Definition CreateTagRule (userID : Z) (body : option tagRuleRequest) : HandlerM (Z * TagRule) :=
  req ← decoded body invalid_body;
  require (negb (String.eqb (tr_Name req) "" || String.eqb (tr_MatchField req) "" || String.eqb (tr_MatchOp req) "" || String.eqb (tr_ApplyKey req) ""))
    (jsonError "name, match_field, match_op, and apply_key are required" 400) ;;
  let priority := if tr_Priority req =? 0 then 100 else tr_Priority req in
  rule ← or_refuse (fun err => jsonError (Error_ err) 400)
    (lib (RuleCreate (tr_Name req) (tr_Description req) (tr_MatchField req) (tr_MatchOp req) (tr_MatchValue req) (tr_ApplyKey req) (tr_ApplyValue req) priority userID));
  answer 201 rule.

Definition rule_id (id : string) : HandlerM Z := decoded (ParseInt id) (jsonError "invalid rule ID" 400).

Definition UpdateTagRule (id : string) (body : option tagRuleRequest) : HandlerM (Z * TagRule) :=
  id ← rule_id id;
  req ← decoded body invalid_body;
  rule ← or_refuse (fun err => jsonError (Error_ err) 400)
    (lib (RuleUpdate id (tr_Name req) (tr_Description req) (tr_MatchField req) (tr_MatchOp req) (tr_MatchValue req) (tr_ApplyKey req) (tr_ApplyValue req)
       (tr_Priority req) (default true (tr_IsEnabled req))));
  answer 200 rule.

Definition DeleteTagRule (id : string) : HandlerM (Z * string) :=
  id ← rule_id id;
  or_refuse (failed "failed to delete rule") (lib (RuleDelete id)) ;;
  answer 200 "rule deleted".
