(* ===== verification/LibrarySafety.v ===== *)
(** * Requests keep to the rows of their user

    What the handlers of LibraryHandlers change, whatever the request and
    however the database fails; and where they reach further. *)

From stdpp Require Import gmap strings.
From S2P Require Import Prelude GoLib Sql Schema Stmt UploadStore Users Selector Library Tags Collections Http CollectionTree LibraryHandlers.

Open Scope Z_scope.

(** The requests, but for the deletion of a collection. *)
Inductive lib_request :=
| RqCreateCollection (body : option createCollectionRequest)
| RqListCollections (parent_id : string)
| RqGetCollection (id limit offset : string)
| RqUpdateCollection (id : string) (body : option updateCollectionRequest)
| RqAddToCollection (id : string) (body : option string)
| RqRemoveFromCollection (id uploadUUID : string)
| RqUploadCollections (uploadUUID : string)
| RqGetCollectionTags (id : string)
| RqUpdateCollectionTags (id : string) (body : option TagMap)
| RqListTagKeys
| RqListTagValues (key : string)
| RqGetTags (uploadUUID : string)
| RqUpdateTags (uploadUUID : string) (body : option TagMap)
| RqSearchByTags (limit offset query selector : string) (params : list (string * list string))
| RqBulkTagUploads (body : option bulkTagRequest)
| RqTagFacets
| RqListTagRules.

Definition handled {A} (m : HandlerM A) : HandlerM unit := m ;; mret tt.

Definition serve (visit : TagMap -> list (string * list string)) (userID : Z) (rq : lib_request) : HandlerM unit :=
  match rq with
  | RqCreateCollection body => handled (CreateCollection userID body)
  | RqListCollections p => handled (ListCollections userID p)
  | RqGetCollection id n o => handled (GetCollection userID id n o)
  | RqUpdateCollection id body => handled (UpdateCollection userID id body)
  | RqAddToCollection id body => handled (AddToCollection visit userID id body)
  | RqRemoveFromCollection id u => handled (RemoveFromCollection userID id u)
  | RqUploadCollections u => handled (UploadCollections userID u)
  | RqGetCollectionTags id => handled (GetCollectionTags userID id)
  | RqUpdateCollectionTags id body => handled (UpdateCollectionTags visit userID id body)
  | RqListTagKeys => handled (ListTagKeys userID)
  | RqListTagValues k => handled (ListTagValues userID k)
  | RqGetTags u => handled (GetTags_ userID u)
  | RqUpdateTags u body => handled (UpdateTags visit userID u body)
  | RqSearchByTags n o q sel params => handled (SearchByTags userID n o q sel params)
  | RqBulkTagUploads body => handled (BulkTagUploads visit userID body)
  | RqTagFacets => handled (TagFacets userID)
  | RqListTagRules => handled ListTagRules
  end.

Section isolation.
Context (userID : Z).

Definition others_upload (l : Library) (i : Z) : Prop := exists u, In u (lb_uploads l) /\ u_id u = i /\ u_user_id u <> userID.
Definition others_collection (l : Library) (i : Z) : Prop := exists c, In c (lb_collections l) /\ cl_ID c = i /\ cl_CreatedBy c <> userID.

(** The tags of the uploads of others, the collections of others, and the files
    and tags of these are as they were. *)
Record spares (l l' : Library) : Prop := {
  sp_uploads : lb_uploads l' = lb_uploads l;
  sp_rules : lb_rules l' = lb_rules l;
  sp_tags : forall i, others_upload l i -> select (of_upload i) (lb_tags l') = select (of_upload i) (lb_tags l);
  sp_collections : forall c, In c (lb_collections l) -> cl_CreatedBy c <> userID -> In c (lb_collections l');
  sp_files : forall i, others_collection l i -> select (in_collection i) (lb_files l') = select (in_collection i) (lb_files l);
  sp_ctags : forall i, others_collection l i -> select (of_collection i) (lb_ctags l') = select (of_collection i) (lb_ctags l);
}.

#[local] Instance spares_preorder : PreOrder spares.
Proof.
  split; [by intros l; split|]. intros l l' l'' H H'.
  assert (forall i, others_upload l i -> others_upload l' i) as Hu by (intros i (u & Hin & Hu); exists u; by rewrite (sp_uploads _ _ H)).
  assert (forall i, others_collection l i -> others_collection l' i) as Hc.
  { intros i (c & Hin & Hi & Hc). exists c. split_and!; try done. by apply (sp_collections _ _ H). }
  split.
  - by rewrite (sp_uploads _ _ H'), (sp_uploads _ _ H).
  - by rewrite (sp_rules _ _ H'), (sp_rules _ _ H).
  - intros i Hi. by rewrite (sp_tags _ _ H'), (sp_tags _ _ H) by auto.
  - intros c Hin Hn. apply (sp_collections _ _ H'); [|done]. by apply (sp_collections _ _ H).
  - intros i Hi. by rewrite (sp_files _ _ H'), (sp_files _ _ H) by auto.
  - intros i Hi. by rewrite (sp_ctags _ _ H'), (sp_ctags _ _ H) by auto.
Qed.

Lemma select_delete_apart {A} (p q : A -> bool) t : (forall r, p r = true -> q r = false) -> select p (delete_where q t) = select p t.
Proof.
  intros H. unfold select, delete_where. induction t as [|r t IH]; cbn; [done|].
  destruct (q r) eqn:Eq, (p r) eqn:Ep; cbn; rewrite ?Ep, ?IH; try done. by rewrite (H r Ep) in Eq.
Qed.

Lemma select_snoc_other {A} (p : A -> bool) t x : p x = false -> select p (t ++ [x]) = select p t.
Proof. intros H. unfold select. rewrite List.filter_app. cbn. by rewrite H, app_nil_r. Qed.

(** ** Operations *)

Definition own_uploads (id : Z) (l : Library) : Prop := ~ others_upload l id.

Lemma insert_tag_spares id k v w r w' : own_uploads id (tables w) -> insert_tag id k v w = (r, w') -> spares (tables w) (tables w').
Proof.
  intros Ho H. apply write_if_run in H as [(a & _ & H)|(e & _ & ->)]; [|reflexivity]. apply constrained_ok in H as (E & _). injection E as _ <-.
  split; try done. intros i Hi. cbn. apply select_snoc_other. apply Z.eqb_neq. cbn. by intros ->.
Qed.

Lemma insert_ctag_spares id k v w r w' : ~ others_collection (tables w) id -> insert_ctag id k v w = (r, w') -> spares (tables w) (tables w').
Proof.
  intros Ho H. apply write_if_run in H as [(a & _ & H)|(e & _ & ->)]; [|reflexivity]. apply constrained_ok in H as (E & _). injection E as _ <-.
  split; try done. intros i Hi. cbn. apply select_snoc_other. apply Z.eqb_neq. cbn. by intros ->.
Qed.

(** An insertion repeated, when each spares and keeps what allows it. *)
Lemma insert_all_spares (P : Library -> Prop) insert tags w r w' :
  (forall l l', P l -> spares l l' -> lb_collections l' = lb_collections l -> P l') ->
  (forall k v w r w', P (tables w) -> insert k v w = (r, w') -> spares (tables w) (tables w') /\ lb_collections (tables w') = lb_collections (tables w)) ->
  P (tables w) -> insert_all insert tags w = (r, w') -> spares (tables w) (tables w') /\ lb_collections (tables w') = lb_collections (tables w).
Proof.
  intros HP Hi Hw H.
  assert (forall k vals w r w', P (tables w) -> insert_values insert k vals w = (r, w') ->
    spares (tables w) (tables w') /\ lb_collections (tables w') = lb_collections (tables w)) as Hv.
  { clear -HP Hi. intros k vals. induction vals as [|v vals IH]; intros w r w' Hw; cbn; [by intros [= <- <-]|].
    unfold mbind, ST_bind. destruct (insert k v w) as [[[]|e] w1] eqn:E; apply Hi in E as [S1 C1]; [|done|by intros [= <- <-]|done].
    intros H. apply IH in H as [S2 C2]; [|by eapply HP]. split; [by etransitivity|congruence]. }
  revert w r w' Hw H. induction tags as [|[k vals] tags IH]; intros w r w' Hw; cbn; [by intros [= <- <-]|].
  unfold mbind, ST_bind. destruct (insert_values insert k vals w) as [[[]|e] w1] eqn:E; apply Hv in E as [S1 C1]; [|done|by intros [= <- <-]|done].
  intros H. apply IH in H as [S2 C2]; [|by eapply HP]. split; [by etransitivity|congruence].
Qed.

Lemma insert_tag_collections id k v w r w' : insert_tag id k v w = (r, w') -> lb_collections (tables w') = lb_collections (tables w).
Proof.
  intros H. apply write_if_run in H as [(a & _ & H)|(e & _ & ->)]; [|done]. apply constrained_ok in H as (E & _). by injection E as _ <-.
Qed.

Lemma insert_ctag_collections id k v w r w' : insert_ctag id k v w = (r, w') -> lb_collections (tables w') = lb_collections (tables w).
Proof.
  intros H. apply write_if_run in H as [(a & _ & H)|(e & _ & ->)]; [|done]. apply constrained_ok in H as (E & _). by injection E as _ <-.
Qed.

Lemma own_uploads_kept id l l' : own_uploads id l -> lb_uploads l' = lb_uploads l -> own_uploads id l'.
Proof. unfold own_uploads, others_upload. by intros H ->. Qed.

Lemma SetTags_spares id tags w r w' : own_uploads id (tables w) -> SetTags id tags w = (r, w') -> spares (tables w) (tables w').
Proof.
  intros Ho H. unfold SetTags in H. destruct r as [[]|e]; [|apply transact_err in H as ->; reflexivity].
  apply transact_ok in H as (l & w1 & H & ->). apply bind_ok in H as ([] & w2 & H2 & H). apply write_run in H2 as [[_ H2]|(e & [=] & _)].
  assert (spares (tables w) (tables w2)) as S2.
  { rewrite H2. split; try done. intros i Hi. cbn. apply select_delete_apart. intros t Ht. unfold of_upload in *. apply Z.eqb_eq in Ht. apply Z.eqb_neq.
    intros E. apply Ho. by rewrite <- E, Ht. }
  apply (insert_all_spares (own_uploads id)) in H as [S3 _]; [by etransitivity| | |].
  - intros l1 l2 H1 S _. eapply own_uploads_kept; [done|apply (sp_uploads _ _ S)].
  - intros k v x y z Hx Hy. split; [by eapply insert_tag_spares|by eapply insert_tag_collections].
  - eapply own_uploads_kept; [done|apply (sp_uploads _ _ S2)].
Qed.

Lemma CollSetTags_spares id tags w r w' : ~ others_collection (tables w) id -> CollSetTags id tags w = (r, w') -> spares (tables w) (tables w').
Proof.
  intros Ho H. unfold CollSetTags in H. destruct r as [[]|e]; [|apply transact_err in H as ->; reflexivity].
  apply transact_ok in H as (l & w1 & H & ->). apply bind_ok in H as ([] & w2 & H2 & H). apply write_run in H2 as [[_ H2]|(e & [=] & _)].
  assert (spares (tables w) (tables w2)) as S2.
  { rewrite H2. split; try done. intros i Hi. cbn. apply select_delete_apart. intros t Ht. unfold of_collection in *. apply Z.eqb_eq in Ht. apply Z.eqb_neq.
    intros E. apply Ho. by rewrite <- E, Ht. }
  apply (insert_all_spares (fun l => ~ others_collection l id)) in H as [S3 _]; [by etransitivity| | |].
  - intros l1 l2 H1 _ Hc. unfold others_collection. by rewrite Hc.
  - intros k v x y z Hx Hy. split; [by eapply insert_ctag_spares|by eapply insert_ctag_collections].
  - unfold others_collection. by rewrite H2.
Qed.

Lemma InheritToFile_spares visit c id w r w' : own_uploads id (tables w) -> InheritToFile visit c id w = (r, w') -> spares (tables w) (tables w').
Proof.
  intros Ho H. unfold InheritToFile, CollGetTags, mbind, ST_bind in H. destruct (read _ w) as [[tags|e] w1] eqn:E1; apply read_run in E1 as [T1 _].
  2:{ injection H as <- <-. rewrite T1. reflexivity. }
  rewrite <- T1 in Ho |- *. clear T1. destruct (bool_decide _); [injection H as <- <-; reflexivity|].
  destruct (read _ w1) as [[existing|e] w2] eqn:E2; apply read_run in E2 as [T2 _]; [|injection H as <- <-; rewrite T2; reflexivity].
  rewrite <- T2 in Ho |- *. clear T2 w w1. rename w2 into w. revert H. generalize (visit tags). generalize 0. intros n l.
  revert n w Ho r. induction l as [|[k vals] l IH]; intros n w Ho r; cbn; [intros [= _ <-]; reflexivity|].
  destruct (existsb _ existing); [by apply IH|]. unfold mbind, ST_bind.
  destruct (add_values id k vals n w) as [x w1] eqn:E.
  assert (spares (tables w) (tables w1)) as S1.
  { clear -Ho E. revert n w Ho E. induction vals as [|v vals IHv]; intros n w Ho; cbn; [intros [= _ <-]; reflexivity|].
    unfold mbind, ST_bind, try. destruct (insert_tag id k v w) as [y w2] eqn:Ei. pose proof (insert_tag_spares _ _ _ _ _ _ Ho Ei) as S2.
    intros H. etransitivity; [exact S2|]. eapply IHv; [|exact H]. eapply own_uploads_kept; [done|apply (sp_uploads _ _ S2)]. }
  destruct x as [m|e]; [|intros [= _ <-]; done]. intros H. etransitivity; [exact S1|]. eapply IH; [|exact H].
  eapply own_uploads_kept; [done|apply (sp_uploads _ _ S1)].
Qed.

Lemma AddFile_spares c u w r w' : ~ others_collection (tables w) c -> AddFile c u w = (r, w') -> spares (tables w) (tables w').
Proof.
  intros Ho H. unfold AddFile, map_err in H. destruct (write_if _ w) as [x w1] eqn:E.
  assert (w' = w1) as -> by (destruct x; by injection H as _ <-). apply write_if_run in E as [(a & _ & E)|(e & _ & ->)]; [|reflexivity].
  apply constrained_ok in E as (E & _). injection E as _ <-. split; try done. intros i Hi. cbn. apply select_snoc_other. apply Z.eqb_neq. cbn. by intros ->.
Qed.

Lemma RemoveFile_spares c u w r w' : ~ others_collection (tables w) c -> RemoveFile c u w = (r, w') -> spares (tables w) (tables w').
Proof.
  intros Ho H. unfold RemoveFile, mbind, ST_bind in H. destruct (write_ret _ w) as [x w1] eqn:E.
  assert (w' = w1) as -> by (destruct x as [n|]; [destruct (n =? 0)|]; by injection H as _ <-).
  apply write_ret_run in E as [[_ ->]|(e & _ & ->)]; [|reflexivity]. split; try done. intros i Hi. cbn. apply select_delete_apart.
  intros f Hf. apply andb_false_iff. left. unfold in_collection in *. apply Z.eqb_eq in Hf. apply Z.eqb_neq. intros E. apply Ho. by rewrite <- E, Hf.
Qed.

Lemma CollGetByID_reads id w r w' : CollGetByID id w = (r, w') -> tables w' = tables w /\
  forall c, r = Ok c -> find_id id (lb_collections (tables w)) = Some (co_row c).
Proof.
  unfold CollGetByID, map_err. destruct (read_row _ w) as [x w1] eqn:E. apply read_row_run in E as [[Ht E]|[Ht [e ->]]].
  - destruct (find_id id _) as [c|] eqn:Ef; cbn in E; subst x; intros [= <- <-]; (split; [done|]); [by intros ? [= <-]|done].
  - by intros [= <- <-].
Qed.

Lemma CollUpdate_spares id n d w r w' : ~ others_collection (tables w) id -> CollUpdate id n d w = (r, w') -> spares (tables w) (tables w').
Proof.
  intros Ho H. unfold CollUpdate, mbind, ST_bind in H. destruct (write _ w) as [x w1] eqn:E.
  assert (tables w' = tables w1) as ->.
  { destruct x as [[]|e]; [by apply CollGetByID_reads in H as [? _]|by injection H as _ <-]. }
  apply write_run in E as [[_ ->]|(e & _ & ->)]; [|reflexivity]. split; try done. intros c Hin Hc. cbn. apply in_update. exists c. split; [done|].
  right. split; [|done]. apply Z.eqb_neq. intros E. apply Ho. by exists c.
Qed.

Lemma CollCreate_spares n d p u w r w' : CollCreate n d p u w = (r, w') -> spares (tables w) (tables w').
Proof.
  intros H. unfold CollCreate in H. unfold mbind at 1, ST_bind at 1 in H.
  destruct (verify_parent p w) as [x w1] eqn:E1. unfold verify_parent in E1.
  assert (tables w1 = tables w) as T1.
  { destruct p as [p|]; [|by injection E1 as _ <-]. unfold mbind, ST_bind, try in E1. destruct (read _ w) as [y w2] eqn:E. apply read_run in E as [E _].
    rewrite <- E. destruct y as [[|]|]; by injection E1 as _ <-. }
  rewrite <- T1. destruct x as [[]|e]; [|injection H as _ <-; reflexivity]. unfold mbind, ST_bind, map_err in H. destruct (write_if _ w1) as [y w2] eqn:E2.
  assert (tables w' = tables w2) as -> by (destruct y; [by apply CollGetByID_reads in H as [? _]|by injection H as _ <-]).
  apply write_if_run in E2 as [(a & _ & E)|(e & _ & ->)]; [|reflexivity]. apply constrained_ok in E as (E & _). injection E as _ <-.
  split; try done. intros c Hin _. cbn. apply in_or_app. by left.
Qed.

(** ** Handlers: a Hoare triple whose computation spares the others *)

Abbreviation on s := (tables (sh_lib s)).

Definition safe {A} (P : Library -> Prop) (m : HandlerM A) (Q : A -> Library -> Prop) : Prop :=
  forall s, P (on s) -> let '(r, s') := m s in spares (on s) (on s') /\ match r with Ok a => Q a (on s') | Err _ => True end.

Lemma safe_bind {A B} P Q R (m : HandlerM A) (f : A -> HandlerM B) : safe P m Q -> (forall a, safe (Q a) (f a) R) -> safe P (m ≫= f) R.
Proof.
  intros Hm Hf s Hs. specialize (Hm s Hs). unfold mbind, ST_bind. destruct (m s) as [[a|e] s1]; [|done]. destruct Hm as [S1 Ha].
  specialize (Hf a s1 Ha). destruct (f a s1) as [r s2]. destruct Hf as [S2 Hr]. split; [by etransitivity|done].
Qed.

Lemma safe_ret {A} (P : Library -> Prop) (a : A) (Q : A -> Library -> Prop) : (forall l, P l -> Q a l) -> safe P (mret a) Q.
Proof. intros H s Hs. cbn. split; [reflexivity|auto]. Qed.

Lemma safe_answer {A} (P : Library -> Prop) n (a : A) : safe P (answer n a) (fun _ => P).
Proof. by apply safe_ret. Qed.

Lemma safe_refuse {A} P r (Q : A -> Library -> Prop) : safe P (refuse r) Q.
Proof. intros s _. cbn. split; [reflexivity|done]. Qed.

Lemma safe_decoded {A} (P : Library -> Prop) (o : option A) r : safe P (decoded o r) (fun _ => P).
Proof. intros s Hs. destruct o; cbn; (split; [reflexivity|done]). Qed.

Lemma safe_require (P : Library -> Prop) b r : safe P (require b r) (fun _ l => P l /\ b = true).
Proof. intros s Hs. destruct b; cbn; (split; [reflexivity|done]). Qed.

Lemma safe_fire (P : Library -> Prop) e : safe P (fire_event e) (fun _ => P).
Proof. intros s Hs. cbn. split; [reflexivity|done]. Qed.

Lemma safe_weaken {A} (P P' : Library -> Prop) (Q Q' : A -> Library -> Prop) m :
  (forall l, P l -> P' l) -> (forall a l, Q' a l -> Q a l) -> safe P' m Q' -> safe P m Q.
Proof. intros HP HQ Hm s Hs. specialize (Hm s (HP _ Hs)). destruct (m s) as [[a|e] s']; [|done]. destruct Hm. split; [done|auto]. Qed.

Lemma safe_pre {A} (P P' : Library -> Prop) (m : HandlerM A) Q : (forall l, P l -> P' l) -> safe P' m Q -> safe P m Q.
Proof. intros HP. by apply safe_weaken. Qed.

(** A service call, its error answered or looked at. *)
Definition spares_from {A} (P : Library -> Prop) (m : LibM A) (Q : result error A -> Library -> Prop) : Prop :=
  forall w r w', P (tables w) -> m w = (r, w') -> spares (tables w) (tables w') /\ Q r (tables w').

Lemma safe_call {A} P (m : LibM A) f Q : spares_from P m (fun r l => match r with Ok a => Q a l | Err _ => True end) -> safe P (or_refuse f (lib m)) Q.
Proof.
  intros Hm s Hs. unfold or_refuse, lib, zoom. destruct (m (sh_lib s)) as [r w'] eqn:E. destruct (Hm _ _ _ Hs E) as [H1 H2]. cbn. by destruct r.
Qed.

Lemma safe_attempt {A} P (m : LibM A) Q : spares_from P m Q -> safe P (attempt (lib m)) Q.
Proof. intros Hm s Hs. unfold attempt, lib, zoom. destruct (m (sh_lib s)) as [r w'] eqn:E. by destruct (Hm _ _ _ Hs E). Qed.

(** A call that reads. *)
Lemma reads_from {A} (P : Library -> Prop) (m : LibM A) : steps (on_tables eq) m -> spares_from P m (fun _ => P).
Proof. intros Hm w r w' Hw E. apply (steps_run _ _ _ _ _ Hm) in E. red in E. rewrite <- E. split; [reflexivity|done]. Qed.

(** What holds of every request's tables. *)
Definition keyed (l : Library) : Prop := List.NoDup (ids (lb_uploads l)) /\ List.NoDup (ids (lb_collections l)).

Lemma same_key {A} `{Keyed A} (t : list A) r r' : List.NoDup (ids t) -> In r t -> In r' t -> key r = key r' -> r = r'.
Proof.
  intros Hnd Hr Hr' E. pose proof (find_id_In _ _ Hnd Hr) as F. pose proof (find_id_In _ _ Hnd Hr') as F'. rewrite E in F. congruence.
Qed.

Lemma own_row l c : keyed l -> In c (lb_collections l) -> cl_CreatedBy c = userID -> ~ others_collection l (cl_ID c).
Proof. intros [_ Hk] Hin Hc (c' & Hin' & Hid & Hn). apply Hn. by rewrite (same_key _ c' c Hk Hin' Hin Hid). Qed.

Lemma own_upload_row l u : keyed l -> In u (lb_uploads l) -> u_user_id u = userID -> own_uploads (u_id u) l.
Proof. intros [Hk _] Hin Hu (u' & Hin' & Hid & Hn). apply Hn. by rewrite (same_key _ u' u Hk Hin' Hin Hid). Qed.

Lemma CollGetByID_from P id : spares_from P (CollGetByID id)
  (fun r l => P l /\ match r with Ok c => In (co_row c) (lb_collections l) /\ cl_ID (co_row c) = id | Err _ => True end).
Proof.
  intros w r w' Hw H. apply CollGetByID_reads in H as [-> Hf]. split; [reflexivity|]. split; [done|]. destruct r as [c|]; [|done].
  specialize (Hf _ eq_refl). apply find_id_Some in Hf as [Hin Hid]. done.
Qed.

Lemma GetByUUID_from P uid : spares_from P (GetByUUID uid) (fun r l => P l /\ match r with Ok u => In u (lb_uploads l) | Err _ => True end).
Proof.
  intros w r w' Hw H. unfold GetByUUID, map_err in H. destruct (read_row _ w) as [x w1] eqn:E.
  assert (w' = w1) as -> by (destruct x; by injection H as _ <-). apply read_row_run in E as [[-> E]|[-> [e ->]]].
  - split; [reflexivity|]. split; [done|]. destruct (List.find _ _) as [u|] eqn:Ef; subst x; injection H as <-; [|done]. by apply find_some in Ef as [? _].
  - injection H as <-. split; [reflexivity|done].
Qed.

Definition mine (id : Z) (l : Library) : Prop := keyed l /\ ~ others_collection l id.

Lemma spares_from_weaken {A} P (m : LibM A) Q Q' : spares_from P m Q -> (forall r l, Q r l -> Q' r l) -> spares_from P m Q'.
Proof. intros Hm HQ w r w' Hw E. destruct (Hm _ _ _ Hw E). auto. Qed.

Lemma safe_any {A} P (m : HandlerM A) Q : safe P m Q -> safe P m (fun _ _ => True).
Proof. intros H. by eapply safe_weaken; [..|exact H]. Qed.

Lemma CollGetByID_call P f id : safe P (or_refuse f (lib (CollGetByID id))) (fun c l => P l /\ In (co_row c) (lb_collections l) /\ cl_ID (co_row c) = id).
Proof. eapply safe_call, spares_from_weaken; [apply CollGetByID_from|]. by intros [c|] l H. Qed.

Lemma GetByUUID_call P f uid : safe P (or_refuse f (lib (GetByUUID uid))) (fun u l => P l /\ In u (lb_uploads l)).
Proof. eapply safe_call, spares_from_weaken; [apply GetByUUID_from|]. by intros [u|] l H. Qed.

(** The row read, then the owner asked for. *)
Lemma read_collection_safe f id (r : Refusal) :
  safe keyed (coll ← or_refuse f (lib (CollGetByID id)); require (cl_CreatedBy (co_row coll) =? userID) r ;; mret coll) (fun _ => mine id).
Proof.
  eapply safe_bind; [apply CollGetByID_call|]. intros c. cbn beta.
  eapply safe_bind; [apply safe_require|]. intros []. cbn beta.
  apply safe_ret. intros l [(Hk & Hin & <-) Ho]. split; [done|]. apply own_row; [done..|]. by apply Z.eqb_eq.
Qed.

Lemma read_collection_safe_id f id (r : Refusal) :
  safe keyed (coll ← or_refuse f (lib (CollGetByID id)); require (cl_CreatedBy (co_row coll) =? userID) r ;; mret id) (fun _ => mine id).
Proof.
  eapply safe_bind; [apply CollGetByID_call|]. intros c. cbn beta.
  eapply safe_bind; [apply safe_require|]. intros []. cbn beta.
  apply safe_ret. intros l [(Hk & Hin & <-) Ho]. split; [done|]. apply own_row; [done..|]. by apply Z.eqb_eq.
Qed.

Lemma own_collection_safe id : safe keyed (own_collection userID id) (fun _ => mine id).
Proof. apply read_collection_safe. Qed.

Lemma read_upload_safe P f uid (r : Refusal) : (forall l, P l -> keyed l) ->
  safe P (upload ← or_refuse f (lib (GetByUUID uid)); require (u_user_id upload =? userID) r ;; mret upload) (fun u l => P l /\ own_uploads (u_id u) l).
Proof.
  intros HP. eapply safe_bind; [apply (GetByUUID_call P)|]. intros u. cbn beta.
  eapply safe_bind; [apply safe_require|]. intros []. cbn beta.
  apply safe_ret. intros l [(Hk & Hin) Ho].
  split; [exact Hk|]. apply own_upload_row; [by apply HP|done|]. by apply Z.eqb_eq.
Qed.

(** ** Reads *)

Lemma eq_reads : PreOrder (on_tables (@eq Library)).
Proof. apply _. Qed.

Lemma safe_read {A} P f (m : LibM A) : steps (on_tables eq) m -> safe P (or_refuse f (lib m)) (fun _ => P).
Proof. intros H. eapply safe_call, spares_from_weaken; [by apply reads_from|]. by intros [a|] l HP. Qed.

Lemma GetTags_only_reads id : steps (on_tables eq) (GetTags id).
Proof. unfold GetTags. steps_go. Qed.

Lemma CollGetTags_reads id : steps (on_tables eq) (CollGetTags id).
Proof. unfold CollGetTags. steps_go. Qed.

Lemma CollList_reads u p : steps (on_tables eq) (CollList u p).
Proof. unfold CollList. steps_go. Qed.

Lemma ListFiles_reads c n o : steps (on_tables eq) (ListFiles c n o).
Proof. unfold ListFiles. steps_go. Qed.

Lemma AddedTimes_reads c : steps (on_tables eq) (AddedTimes c).
Proof. unfold AddedTimes. steps_go. Qed.

Lemma CollectionIDsForUpload_reads u : steps (on_tables eq) (CollectionIDsForUpload u).
Proof. unfold CollectionIDsForUpload. steps_go. Qed.

Lemma ListKeys_reads u : steps (on_tables eq) (ListKeys u).
Proof. unfold ListKeys. steps_go. Qed.

Lemma ListValues_reads u k : steps (on_tables eq) (ListValues u k).
Proof. unfold ListValues. steps_go. Qed.

Lemma found_reads sql p n o : steps (on_tables eq) (found sql p n o).
Proof.
  unfold found. assert (forall us, steps (on_tables (@eq Library)) (with_tags us)) as Hw.
  { intros us. induction us as [|u us IH]; cbn; [steps_go|]. apply steps_bind; [apply _| |intros t; apply steps_bind; [apply _|done|steps_go]].
    apply steps_try, GetTags_only_reads. }
  steps_go.
Qed.

Lemma SearchBySelector_reads u cs args n : steps (on_tables eq) (SearchBySelector u cs args n).
Proof. unfold SearchBySelector. steps_go. Qed.

Lemma limit_in {A} n (t : list A) r : In r (limit n t) -> In r t.
Proof. unfold limit. intros H. rewrite <- (firstn_skipn (Z.to_nat n) t). apply in_or_app. by left. Qed.

Lemma SearchBySelector_owned cs args n w us w' : SearchBySelector userID cs args n w = (Ok us, w') ->
  forall u, In u us -> In u (lb_uploads (tables w)) /\ u_user_id u = userID.
Proof.
  unfold SearchBySelector. intros H u Hu. apply bind_ok in H as ([] & w1 & H1 & H). apply bind_ok in H as ([] & w2 & H2 & H).
  assert (tables w1 = tables w) as <- by (destruct (round_trip_cases w) as [[l E]|(e & l & E)]; rewrite E in H1; by inversion H1).
  assert (w2 = w1) as -> by (unfold of_result in H2; destruct (clauses_sql cs); by inversion H2).
  injection H as <- _. apply limit_in in Hu. apply order_by_in, in_select in Hu as [Hin Hp].
  apply andb_prop in Hp as [Hp _]. by apply Z.eqb_eq in Hp.
Qed.

(** ** Requests *)

Lemma stable_own_uploads id (l l' : Library) : own_uploads id l -> spares l l' -> own_uploads id l'.
Proof. intros H S. eapply own_uploads_kept; [done|apply (sp_uploads _ _ S)]. Qed.

Lemma SetTags_from (P : Library -> Prop) id tags : (forall l, P l -> own_uploads id l) -> (forall l l', P l -> spares l l' -> P l') ->
  spares_from P (SetTags id tags) (fun _ => P).
Proof. intros Ho HP w r w' Hw E. apply SetTags_spares in E as S; [|by apply Ho]. split; [done|by eapply HP]. Qed.

Lemma CreateCollection_safe body : safe keyed (CreateCollection userID body) (fun _ _ => True).
Proof.
  unfold CreateCollection. eapply safe_bind; [apply safe_decoded|intros req]. eapply safe_bind; [apply safe_require|intros []].
  eapply safe_bind; [|intros c; by apply safe_ret].
  apply safe_call with (Q := fun _ _ => True). intros w r w' _ E. split; [by eapply CollCreate_spares|by destruct r].
Qed.

Lemma UpdateCollection_safe id body : safe keyed (UpdateCollection userID id body) (fun _ _ => True).
Proof.
  unfold UpdateCollection, collection_id. eapply safe_bind; [apply safe_decoded|intros i]. eapply safe_bind; [apply own_collection_safe|intros c].
  eapply safe_bind; [apply safe_decoded|intros req]. eapply safe_bind; [apply safe_require|intros []].
  eapply safe_bind; [|intros ?; by apply safe_ret].
  apply safe_call with (Q := fun _ _ => True). intros w r w' [[_ Ho] _] E. split; [by eapply CollUpdate_spares|by destruct r].
Qed.

Lemma AddToCollection_safe visit id body : safe keyed (AddToCollection visit userID id body) (fun _ _ => True).
Proof.
  unfold AddToCollection, collection_id. eapply safe_bind; [apply safe_decoded|intros i]. eapply safe_bind; [apply own_collection_safe|intros c].
  eapply safe_bind; [apply safe_decoded|intros uid]. eapply safe_bind; [apply GetByUUID_call|intros u]. eapply safe_bind; [apply safe_require|intros []].
  eapply safe_bind with (Q := fun _ => own_uploads (u_id u)).
  - apply safe_call. intros w r w' [[[Hk Ho] Hin] Hu] E. apply Z.eqb_eq in Hu. apply AddFile_spares in E as S; [|done]. split; [done|].
    destruct r; [|done]. eapply stable_own_uploads; [|exact S]. by apply own_upload_row.
  - intros []. eapply safe_bind with (Q := fun _ _ => True).
    + apply safe_attempt. intros w r w' Ho E. split; [by eapply InheritToFile_spares|done].
    + intros _. eapply safe_bind; [apply safe_fire|intros []; by apply safe_ret].
Qed.

Lemma RemoveFromCollection_safe id uid : safe keyed (RemoveFromCollection userID id uid) (fun _ _ => True).
Proof.
  unfold RemoveFromCollection, collection_id. eapply safe_bind; [apply safe_decoded|intros i]. eapply safe_bind; [apply own_collection_safe|intros c].
  eapply safe_bind; [apply GetByUUID_call|intros u]. eapply safe_bind with (Q := fun _ _ => True).
  - apply safe_call. intros w r w' [[Hk Ho] Hin] E. split; [by eapply RemoveFile_spares|by destruct r].
  - intros []. eapply safe_bind; [apply safe_fire|intros []; by apply safe_ret].
Qed.

Lemma UpdateCollectionTags_safe visit id body : safe keyed (UpdateCollectionTags visit userID id body) (fun _ _ => True).
Proof.
  unfold UpdateCollectionTags, tagged_collection.
  eapply safe_bind; [eapply safe_bind; [apply safe_decoded|intros i; cbn beta]|].
  2:{ intros i. cbn beta. eapply safe_bind with (Q := fun _ => mine i); [apply safe_decoded|intros tags].
      eapply safe_bind with (Q := fun _ _ => True); [|intros []; by apply safe_ret].
      apply safe_call. intros w r w' [_ Ho] E. split; [by eapply CollSetTags_spares|by destruct r]. }
  eapply safe_bind; [apply CollGetByID_call|intros c]. eapply safe_bind; [apply safe_require|intros []].
  apply safe_ret. intros l [(Hk & Hin & <-) Ho]. split; [done|]. apply own_row; [done..|]. by apply Z.eqb_eq.
Qed.

Lemma own_upload_safe uid : safe keyed (own_upload userID uid) (fun u => own_uploads (u_id u)).
Proof. eapply safe_weaken; [intros l H; exact H| |apply read_upload_safe; done]. by intros u l [_ H]. Qed.

Lemma UpdateTags_safe visit uid body : safe keyed (UpdateTags visit userID uid body) (fun _ _ => True).
Proof.
  unfold UpdateTags. eapply safe_bind; [apply own_upload_safe|intros u]. eapply safe_bind; [apply safe_decoded|intros tags].
  eapply safe_bind with (Q := fun _ _ => True).
  - apply safe_call. intros w r w' Ho E. split; [by eapply SetTags_spares|by destruct r].
  - intros []. eapply safe_bind; [apply safe_fire|intros []; by apply safe_ret].
Qed.

(** The targets of a bulk request. *)
Definition all_own (us : list Upload) (l : Library) : Prop := Forall (fun u => own_uploads (u_id u) l) us.

Lemma stable_all_own us l l' : all_own us l -> spares l l' -> all_own us l'.
Proof. intros H S. unfold all_own in *. rewrite List.Forall_forall in *. intros u Hu. eapply stable_own_uploads; [by apply H|done]. Qed.

Lemma own_targets_safe uuids : safe keyed (own_targets userID uuids) (fun us l => keyed l /\ all_own us l).
Proof.
  induction uuids as [|uid uuids IH]; cbn [own_targets]; [apply safe_ret; intros l Hk; split; [done|constructor]|].
  eapply safe_bind; [apply safe_attempt, GetByUUID_from|]. intros r s [Hk Hr].
  pose proof (IH s Hk) as H. unfold mbind, ST_bind. destruct (own_targets userID uuids s) as [[us|e] s1]; [|done].
  destruct H as [S [Hk1 Hus]]. split; [done|]. cbn. destruct r as [u|]; [|done]. destruct (Z.eqb_spec (u_user_id u) userID) as [E|]; [|done].
  split; [done|]. constructor; [|done]. apply own_upload_row; [done| |done]. by rewrite (sp_uploads _ _ S).
Qed.

Lemma tags_or_none_safe P id : safe P (tags_or_none id) (fun _ => P).
Proof.
  unfold tags_or_none. eapply safe_bind; [apply safe_attempt, reads_from, GetTags_only_reads|]. intros r. by apply safe_ret.
Qed.

Lemma bulk_tag_safe visit req u (P : Library -> Prop) : (forall l, P l -> own_uploads (u_id u) l) -> (forall l l', P l -> spares l l' -> P l') ->
  safe P (bulk_tag visit req u) (fun _ => P).
Proof.
  intros Ho HP. unfold bulk_tag. assert (forall tags, safe P (attempt (lib (SetTags (u_id u) tags))) (fun _ => P)) as HS.
  { intros tags. by apply safe_attempt, SetTags_from. }
  eapply safe_bind with (Q := fun _ => P).
  - destruct (bool_decide _); [by apply safe_ret|]. eapply safe_bind; [apply tags_or_none_safe|intros m]. eapply safe_bind; [apply HS|intros r].
    destruct (is_ok r); [|by apply safe_ret]. eapply safe_bind; [apply safe_fire|intros []; by apply safe_ret].
  - intros n. eapply safe_bind with (Q := fun _ => P); [|intros n'; by apply safe_ret]. destruct (bk_RemoveTags req) as [|k ks]; [by apply safe_ret|].
    eapply safe_bind; [apply tags_or_none_safe|intros m]. eapply safe_bind; [apply HS|intros r].
    destruct (is_ok r); [|by apply safe_ret]. eapply safe_bind; [apply safe_fire|intros []; by apply safe_ret].
Qed.

Lemma bulk_all_safe visit req us n : safe (all_own us) (bulk_all visit req us n) (fun _ _ => True).
Proof.
  revert n. induction us as [|u us IH]; intros n; cbn [bulk_all]; [by apply safe_ret|].
  eapply safe_bind; [apply (bulk_tag_safe visit req u (all_own (u :: us)))|].
  - intros l H. by apply Forall_inv in H.
  - intros l l' H S. by eapply stable_all_own.
  - intros m. eapply safe_pre; [|apply IH]. intros l H. by apply Forall_inv_tail in H.
Qed.

Lemma BulkTagUploads_safe visit body : safe keyed (BulkTagUploads visit userID body) (fun _ _ => True).
Proof.
  unfold BulkTagUploads. eapply safe_bind; [apply safe_decoded|intros req]. eapply safe_bind; [apply safe_require|intros []].
  eapply safe_bind with (Q := all_own).
  - destruct (bk_UploadUUIDs req) as [|uid uuids].
    + destruct (negb (String.eqb (bk_Selector req) "")); [|apply safe_refuse]. destruct (ParseSelector _) as [reqs|]; [|apply safe_refuse].
      destruct (BuildSelectorSQL reqs) as [[cs args]|]; [|apply safe_refuse]. apply safe_call. intros w r w' [Hk _] E.
      pose proof (steps_run _ _ _ _ _ (SearchBySelector_reads _ _ _ _) E) as Et. red in Et. rewrite <- Et. split; [reflexivity|].
      destruct r as [us|]; [|done]. pose proof (SearchBySelector_owned _ _ _ _ _ _ E) as Hus. unfold all_own. rewrite List.Forall_forall. intros u Hu. destruct (Hus u Hu). by apply own_upload_row.
    + eapply safe_bind; [apply safe_require|intros []]. eapply safe_weaken; [| |apply own_targets_safe].
      * by intros l [[H _] _].
      * by intros us l [_ H].
  - intros us. eapply safe_bind; [apply bulk_all_safe|intros n; by apply safe_ret].
Qed.

(** *** Requests that read *)

Lemma SearchByTags_safe n o q sel params : safe keyed (SearchByTags userID n o q sel params) (fun _ _ => True).
Proof.
  unfold SearchByTags. eapply safe_bind with (Q := fun _ => keyed); [|intros r; by apply safe_ret].
  destruct (negb _); [|apply safe_read, found_reads]. destruct (ParseSelector sel) as [reqs|]; [|apply safe_refuse].
  destruct (BuildSelectorSQL reqs) as [[cs args]|]; [|apply safe_refuse]. apply safe_read, found_reads.
Qed.

Lemma GetCollection_safe id n o : safe keyed (GetCollection userID id n o) (fun _ _ => True).
Proof.
  unfold GetCollection, collection_id. eapply safe_bind; [apply safe_decoded|intros i]. eapply safe_bind; [apply CollGetByID_call|intros c].
  eapply safe_bind; [apply safe_require|intros []]. eapply safe_bind; [apply safe_attempt, reads_from, ListFiles_reads|intros files].
  eapply safe_bind; [apply safe_attempt, reads_from, AddedTimes_reads|intros added]. destruct files as [[us total]|]; by apply safe_ret.
Qed.

Lemma handled_safe {A} (m : HandlerM A) : safe keyed m (fun _ _ => True) -> safe keyed (handled m) (fun _ _ => True).
Proof. intros H. eapply safe_bind; [exact H|]. intros a. by apply safe_ret. Qed.

Lemma read_and_answer {A B} P f (m : LibM A) n (g : A -> B) : steps (on_tables eq) m ->
  safe P (x ← or_refuse f (lib m); answer n (g x)) (fun _ _ => True).
Proof. intros H. eapply safe_bind; [by apply safe_read|]. intros a. by apply safe_ret. Qed.

Lemma serve_safe visit rq : safe keyed (serve visit userID rq) (fun _ _ => True).
Proof.
  destruct rq; cbn; apply handled_safe.
  - apply CreateCollection_safe.
  - apply read_and_answer, CollList_reads.
  - apply GetCollection_safe.
  - apply UpdateCollection_safe.
  - apply AddToCollection_safe.
  - apply RemoveFromCollection_safe.
  - unfold UploadCollections. eapply safe_bind; [apply GetByUUID_call|intros u]. eapply safe_bind; [apply safe_require|intros []].
    apply (read_and_answer _ _ _ _ (fun ids => ids)), CollectionIDsForUpload_reads.
  - unfold GetCollectionTags, tagged_collection.
    eapply safe_bind with (Q := fun _ _ => True); [|intros i; apply (read_and_answer _ _ _ _ (fun t => t)), CollGetTags_reads].
    eapply safe_bind; [apply safe_decoded|intros i]. eapply safe_any, read_collection_safe_id.
  - apply UpdateCollectionTags_safe.
  - apply (read_and_answer _ _ _ _ (fun t => t)), ListKeys_reads.
  - unfold ListTagValues. eapply safe_bind; [apply safe_require|intros []]. apply (read_and_answer _ _ _ _ (fun t => t)), ListValues_reads.
  - unfold GetTags_. eapply safe_bind; [apply own_upload_safe|intros u]. apply (read_and_answer _ _ _ _ (fun t => t)), GetTags_only_reads.
  - apply UpdateTags_safe.
  - apply SearchByTags_safe.
  - apply BulkTagUploads_safe.
  - unfold TagFacets. apply (read_and_answer _ _ _ _ (fun t => t)). steps_go.
  - unfold ListTagRules, RuleList. apply (read_and_answer _ _ _ _ (fun t => t)). steps_go.
Qed.

End isolation.

(** C19. Whatever a user asks for, the deletion of a collection aside, and
    however the database fails: the tags of the uploads of others, the
    collections of others and the files and tags in these are as they were, and
    so are uploads and rules. *)
Theorem requests_spare_others (visit : TagMap -> list (string * list string)) (userID : Z) (rq : lib_request) (s : Shelf)
    (Hkeys : keyed (tables (sh_lib s))) :
  spares userID (tables (sh_lib s)) (tables (sh_lib (snd (serve visit userID rq s)))).
Proof. pose proof (serve_safe userID visit rq s Hkeys) as H. destruct (serve visit userID rq s). by destruct H. Qed.

(** ** Concrete requests *)

Definition some_upload (id user : Z) (uid : string) : Upload :=
  mkUpload id uid user None "f" "f" 10 "text/plain" Private Completed None None None None None None None None 0 None 0 None None None 0 None 0.

(** Users 7 and 8, with an upload and a collection each. *)
Definition two_users : Library :=
  mkLibrary [some_upload 1 7 "u7"; some_upload 2 8 "u8"] 2 [(7, "a"); (8, "b")] [mkTag 1 1 "k" "v" 0; mkTag 2 2 "k" "w" 0] 2
    [mkCollection 1 "c7" "" None 7 0 0; mkCollection 2 "c8" "" None 8 0 0] 2 [mkCollectionFile 2 2 0] [mkCollectionTag 1 2 "p" "q"] 1 [] 0 0.

Definition shelf_of (l : Library) (sched : list (option string)) : Shelf := mkShelf (mkWorld l sched) [].

Definition in_order (m : TagMap) : list (string * list string) := map_to_list m.

(** User 7 asks for the tags of an upload of user 8 to be set, along with the
    own ones. *)
Definition grab : lib_request := RqBulkTagUploads (Some (mkBulk ["u7"; "u8"] "" {["new" := ["x"]]} [])).

Example requests_spare_others_witness :
  let l' := tables (sh_lib (snd (serve in_order 7 grab (shelf_of two_users [])))) in
  select (fun t => ft_UploadID t =? 2) (lb_tags l') = [mkTag 2 2 "k" "w" 0] /\ affected (fun t => ft_UploadID t =? 1) (lb_tags l') = 2.
Proof.
  split; [|vm_compute; reflexivity].
  assert (keyed two_users) as Hk by (split; cbn; repeat constructor; cbn; intuition discriminate).
  pose proof (sp_tags _ _ _ (requests_spare_others in_order 7 grab (shelf_of two_users []) Hk) 2) as H.
  apply H. exists (some_upload 2 8 "u8"). split; [cbn; auto|]. split; [reflexivity|discriminate].
Defined.

(** The exception. User 8 may create a collection below one of user 7, whose
    deletion of the parent then takes it along. *)
Example parent_of_another_user :
  let s := snd (CreateCollection 8 (Some (mkCreateColl "mine" "" (Some 1))) (shelf_of two_users [])) in
  map (fun c => (cl_ID c, cl_CreatedBy c)) (lb_collections (tables (sh_lib s))) = [(1, 7); (2, 8); (3, 8)] /\
  map cl_ID (lb_collections (tables (sh_lib (snd (DeleteCollection 7 "1" s))))) = [2].
Proof. vm_compute. done. Qed.

(** A failing read of the tags loses them: user 7 adds the tag [new], the query
    for what is there fails, and [k] is gone. *)
Example failed_read_drops_tags :
  let '(r, s) := BulkTagUploads in_order 7 (Some (mkBulk ["u7"] "" {["new" := ["x"]]} [])) (shelf_of two_users [None; Some "busy"]) in
  r = Ok (200, 1) /\ map (fun t => (ft_UploadID t, ft_Key t)) (lb_tags (tables (sh_lib s))) = [(2, "k"); (1, "new")].
Proof. vm_compute. done. Qed.
