(* ===== verification/OmniSearch.v ===== *)
(** * The search over everything

    src/internal/services/search.go and src/internal/handlers/search.go. What a
    pattern made of a query matches, and whose rows an answer shows. *)

From stdpp Require Import gmap strings pretty.
From Stdlib Require Import Ascii.
From S2P Require Import Prelude GoLib Sql Schema Stmt Clock UploadStore AccountSchema Users Webhooks Library Tags Collections Http LibraryHandlers.

Open Scope Z_scope.

(** ** services/search.go *)

Record SearchHit := mkHit { hit_Type : string; hit_ID : string; hit_Label : string; hit_Sublabel : string }.

(** [strings.NewReplacer]: one byte at a time. *)
Definition like_escape (c : ascii) : string :=
  if Ascii.eqb c "\" then "\\" else if Ascii.eqb c "%" then "\%" else if Ascii.eqb c "_" then "\_" else String c "".

Fixpoint like_escaped (q : string) : string :=
  match q with EmptyString => "" | String c q' => like_escape c +:+ like_escaped q' end.

Definition likePattern (q : string) : string := "%" +:+ like_escaped q +:+ "%".

(** [LIKE ? ESCAPE '\']. *)
Definition like (pattern text : string) : bool := sql_like (Some "\"%char) pattern text.

Definition file_hits (userID : Z) (q : string) (n : Z) (l : Library) : list SearchHit :=
  let p := likePattern q in
  map (fun u => mkHit "file" (u_uuid u) (u_original_filename u) (status_str (u_status u)))
    (limit n (order_by created_desc (select (fun u => (u_user_id u =? userID) && (like p (u_original_filename u) || like p (u_filename u))) (lb_uploads l)))).

Definition SearchFiles (userID : Z) (q : string) (n : Z) : LibM (list SearchHit) := read (file_hits userID q n).

Definition coll_row_le (a b : CollectionRow) : bool := text_le (cl_Name a) (cl_Name b).

Definition collection_hits (userID : Z) (q : string) (n : Z) (l : Library) : list SearchHit :=
  let p := likePattern q in
  map (fun c => mkHit "collection" (big_String (cl_ID c)) (cl_Name c) (cl_Description c))
    (limit n (order_by coll_row_le (select (fun c => (cl_CreatedBy c =? userID) && (like p (cl_Name c) || like p (cl_Description c))) (lb_collections l)))).

Definition SearchCollections (userID : Z) (q : string) (n : Z) : LibM (list SearchHit) := read (collection_hits userID q n).

(** ORDER BY key, value. *)
Definition pair_le (a b : string * string) : bool :=
  match String.compare (fst a) (fst b) with Lt => true | Gt => false | Eq => text_le (snd a) (snd b) end.

Definition tag_hits (userID : Z) (q : string) (n : Z) (l : Library) : list SearchHit :=
  let p := likePattern q in
  map (fun kv => mkHit "tag" (fst kv +:+ "=" +:+ snd kv) (fst kv +:+ ": " +:+ snd kv) "")
    (limit n (order_by pair_le (distinct (map tag_pair (select (fun t => like p (ft_Key t) || like p (ft_Value t)) (tags_of_user userID l)))))).

Definition SearchTags (userID : Z) (q : string) (n : Z) : LibM (list SearchHit) := read (tag_hits userID q n).

Definition email_le (a b : User) : bool := text_le (us_Email a) (us_Email b).

Definition user_hits (q : string) (n : Z) (t : Accounts) : list SearchHit :=
  let p := likePattern q in
  map (fun u => mkHit "user" (big_String (us_ID u)) (us_Email u) (TrimSpace (us_FirstName u +:+ " " +:+ us_LastName u)))
    (limit n (order_by email_le (select (fun u => bool_decide (us_DeletedAt u = None) && (like p (us_Email u) || like p (us_FirstName u) || like p (us_LastName u))) (ac_users t)))).

Definition SearchUsers (q : string) (n : Z) : AcM (list SearchHit) := read (user_hits q n).

Definition token_desc (a b : ApiToken) : bool := tk_CreatedAt b <=? tk_CreatedAt a.

Definition token_hits (q : string) (n : Z) (t : Accounts) : list SearchHit :=
  let p := likePattern q in
  map (fun k => mkHit "token" (tk_UUID k) (tk_Name k) (tk_Description k))
    (limit n (order_by token_desc (select (fun k => like p (tk_Name k) || like p (tk_Description k)) (ac_tokens t)))).

Definition SearchTokens (q : string) (n : Z) : AcM (list SearchHit) := read (token_hits q n).

Definition hook_asc (a b : Webhook) : bool := wb_CreatedAt a <=? wb_CreatedAt b.

Definition hook_hits (q : string) (n : Z) (t : HookTables) : list SearchHit :=
  let p := likePattern q in
  map (fun h => mkHit "webhook" (big_String (wb_ID h)) (wb_URL h) (wb_IntegrationType h))
    (limit n (order_by hook_asc (select (fun h => like p (wb_URL h) || like p (wb_IntegrationType h)) (ht_hooks t)))).

Definition SearchWebhooks (q : string) (n : Z) : HookM (list SearchHit) := read (hook_hits q n).

(** ** handlers/search.go *)

Definition searchMinQuery : nat := 2.
Definition searchPerCategory : Z := 6.

Record Everything := mkEverything { ev_lib : World Library; ev_ac : World Accounts; ev_hooks : World HookTables }.

Definition put_ev_lib v s := mkEverything v (ev_ac s) (ev_hooks s).
Definition put_ev_ac v s := mkEverything (ev_lib s) v (ev_hooks s).
Definition put_ev_hooks v s := mkEverything (ev_lib s) (ev_ac s) v.

Abbreviation SearchM := (ST error Everything).

Record HitGroups := mkGroups {
  in_files : list SearchHit; in_collections : list SearchHit; in_tags : list SearchHit;
  in_users : list SearchHit; in_tokens : list SearchHit; in_webhooks : list SearchHit;
}.

(** [if hits, err := ...; err == nil]. *)
Definition hits_of (m : SearchM (list SearchHit)) : SearchM (list SearchHit) :=
  r ← try m; mret (match r with Ok hits => hits | Err _ => [] end).

(** [len([]rune(s))] of a UTF-8 text. *)
Fixpoint rune_count (s : string) : nat :=
  match s with EmptyString => O | String c s' => if continues c then rune_count s' else S (rune_count s') end.

Definition GlobalSearch (userID : Z) (q scope : string) : SearchM (Z * HitGroups) :=
  let q := TrimSpace q in
  if (rune_count q <? searchMinQuery)%nat then mret (200, mkGroups [] [] [] [] [] []) else
  files ← hits_of (zoom ev_lib put_ev_lib (SearchFiles userID q searchPerCategory));
  collections ← hits_of (zoom ev_lib put_ev_lib (SearchCollections userID q searchPerCategory));
  tags ← hits_of (zoom ev_lib put_ev_lib (SearchTags userID q searchPerCategory));
  if negb (String.eqb scope "all") then mret (200, mkGroups files collections tags [] [] []) else
  isAdmin ← try (zoom ev_ac put_ev_ac (IsAdmin userID));
  match isAdmin with
  | Ok true =>
      users ← hits_of (zoom ev_ac put_ev_ac (SearchUsers q searchPerCategory));
      tokens ← hits_of (zoom ev_ac put_ev_ac (SearchTokens q searchPerCategory));
      webhooks ← hits_of (zoom ev_hooks put_ev_hooks (SearchWebhooks q searchPerCategory));
      mret (200, mkGroups files collections tags users tokens webhooks)
  | _ => mret (200, mkGroups files collections tags [] [] [])
  end.

(** ** Patterns *)

Fixpoint folded (s : string) : string :=
  match s with EmptyString => "" | String c s' => String (fold_case c) (folded s') end.

Fixpoint lits (q : string) : list like_token :=
  match q with EmptyString => [] | String c q' => Lit c :: lits q' end.

Lemma tokens_escaped c p : like_tokens (Some "\"%char) (like_escape c +:+ p) = (ts ← like_tokens (Some "\"%char) p; Some (Lit c :: ts)).
Proof.
  unfold like_escape. destruct (Ascii.eqb_spec c "\") as [->|H1]; [done|]. destruct (Ascii.eqb_spec c "%") as [->|H2]; [done|].
  destruct (Ascii.eqb_spec c "_") as [->|H3]; [done|]. change (String c "" +:+ p) with (String c p). cbn [like_tokens].
  rewrite (proj2 (Ascii.eqb_neq c "\")), (proj2 (Ascii.eqb_neq c "%")), (proj2 (Ascii.eqb_neq c "_")) by done. done.
Qed.

Lemma likePattern_tokens q : like_tokens (Some "\"%char) (likePattern q) = Some (Many :: lits q ++ [Many]).
Proof.
  unfold likePattern. assert (like_tokens (Some "\"%char) (like_escaped q +:+ "%") = Some (lits q ++ [Many])) as H.
  { induction q as [|c q IH]; [done|]. cbn [like_escaped]. rewrite string_app_assoc, tokens_escaped, IH. done. }
  change ("%" +:+ like_escaped q +:+ "%") with (String "%" (like_escaped q +:+ "%")). cbn [like_tokens]. by rewrite H.
Qed.

Lemma many_any s : like_match [Many] s = true.
Proof. induction s as [|c s IH]; [done|]. cbn in *. by rewrite IH. Qed.

Lemma lits_prefix q s : like_match (lits q ++ [Many]) s = HasPrefix (folded s) (folded q).
Proof.
  revert s. induction q as [|c q IH]; intros s; [apply many_any|]. destruct s as [|d s]; [done|]. cbn. by rewrite IH.
Qed.

Lemma like_query q s : like (likePattern q) s = Contains (folded s) (folded q).
Proof.
  unfold like, sql_like. rewrite likePattern_tokens. unfold Contains.
  induction s as [|c s IH].
  - change (like_match (lits q ++ [Many]) "" || false = match (if HasPrefix (folded "") (folded q) then Some O else None) with Some _ => true | None => false end).
    rewrite lits_prefix, orb_false_r. by destruct (HasPrefix _ _).
  - change (like_match (Many :: lits q ++ [Many]) (String c s)) with (like_match (lits q ++ [Many]) (String c s) || like_match (Many :: lits q ++ [Many]) s).
    rewrite IH, lits_prefix. cbn [folded]. destruct (HasPrefix _ _) eqn:E; [by rewrite (Index_prefix (String _ _))|]. rewrite Index_cons by done.
    cbn. by destruct (Index _ _).
Qed.

(** ** Whose rows an answer shows *)

Definition finds (q text : string) : Prop := Contains (folded text) (folded q) = true.

(** What every group of an answer holds. *)
Record within (userID : Z) (q : string) (admin : Prop) (s : Everything) (g : HitGroups) : Prop := {
  wi_files : forall h, In h (in_files g) -> exists u, In u (lb_uploads (tables (ev_lib s))) /\ u_user_id u = userID /\
    (finds q (u_original_filename u) \/ finds q (u_filename u)) /\ h = mkHit "file" (u_uuid u) (u_original_filename u) (status_str (u_status u));
  wi_collections : forall h, In h (in_collections g) -> exists c, In c (lb_collections (tables (ev_lib s))) /\ cl_CreatedBy c = userID /\
    (finds q (cl_Name c) \/ finds q (cl_Description c)) /\ hit_ID h = big_String (cl_ID c);
  wi_tags : forall h, In h (in_tags g) -> exists t u, In t (lb_tags (tables (ev_lib s))) /\ In u (lb_uploads (tables (ev_lib s))) /\
    u_id u = ft_UploadID t /\ u_user_id u = userID /\ (finds q (ft_Key t) \/ finds q (ft_Value t)) /\ hit_ID h = ft_Key t +:+ "=" +:+ ft_Value t;
  wi_admin : in_users g <> [] \/ in_tokens g <> [] \/ in_webhooks g <> [] -> admin;
  wi_users : forall h, In h (in_users g) -> exists u, In u (ac_users (tables (ev_ac s))) /\ us_DeletedAt u = None /\
    (finds q (us_Email u) \/ finds q (us_FirstName u) \/ finds q (us_LastName u)) /\ hit_ID h = big_String (us_ID u);
  wi_size : Forall (fun l => (length l <= 6)%nat) [in_files g; in_collections g; in_tags g; in_users g; in_tokens g; in_webhooks g];
}.

Definition same_tables (s s' : Everything) : Prop :=
  tables (ev_lib s') = tables (ev_lib s) /\ tables (ev_ac s') = tables (ev_ac s) /\ tables (ev_hooks s') = tables (ev_hooks s).

#[local] Instance same_tables_preorder : PreOrder same_tables.
Proof. split; [by intros s|]. intros s1 s2 s3 (? & ? & ?) (? & ? & ?). unfold same_tables. intuition congruence. Qed.

(** A group is empty or what its query selects. *)
Lemma hits_of_run (m : SearchM (list SearchHit)) s r s' : hits_of m s = (r, s') ->
  (exists l, m s = (Ok l, s') /\ r = Ok l) \/ (exists e, m s = (Err e, s') /\ r = Ok []).
Proof. unfold hits_of, try, mbind, ST_bind. destruct (m s) as [[l|e] s1]; intros [= <- <-]; [left|right]; eauto. Qed.

Lemma zoomed_hits {T} (get : Everything -> World T) put (f : T -> list SearchHit) s r s' :
  (forall v, tables v = tables (get s) -> same_tables s (put v s)) ->
  hits_of (zoom get put (read f)) s = (r, s') -> same_tables s s' /\ exists l, r = Ok l /\ (l = [] \/ l = f (tables (get s))).
Proof.
  intros Hst H. unfold zoom in H. apply hits_of_run in H as [(l & H & ->)|(e & H & ->)]; destruct (read _ _) as [x w] eqn:E;
    apply read_run in E as [Et Ex]; injection H as -> <-; (split; [by apply Hst|]); eexists; (split; [done|]); [right|by left].
  destruct Ex as [[= ->]|[e [=]]]. done.
Qed.

Lemma length_limit {A} (t : list A) : (length (limit searchPerCategory t) <= 6)%nat.
Proof. unfold limit. rewrite length_firstn. apply Nat.le_min_l. Qed.

Lemma in_page {A} (le : A -> A -> bool) p t r : In r (limit searchPerCategory (order_by le (select p t))) -> In r t /\ p r = true.
Proof.
  intros H. apply in_select, (order_by_in le). unfold limit in H.
  rewrite <- (firstn_skipn (Z.to_nat searchPerCategory) (order_by le (select p t))). apply in_or_app. by left.
Qed.

Lemma in_distinct {A} `{EqDecision A} (l : list A) x : In x (distinct l) -> In x l.
Proof. induction l as [|y l IH]; cbn; [done|]. destruct (bool_decide _); cbn; intuition. Qed.

Lemma either_finds q a b : like (likePattern q) a || like (likePattern q) b = true -> finds q a \/ finds q b.
Proof. rewrite !like_query. apply orb_prop. Qed.

Ltac group_of H := intros h Hh; destruct H as [->| ->]; [done|]; apply in_map_iff in Hh as (x & <- & Hx).

Section answer.
Context (userID : Z) (q : string) (s : Everything).
Let lb := tables (ev_lib s).

Lemma files_of l : l = [] \/ l = file_hits userID q searchPerCategory lb ->
  forall h, In h l -> exists u, In u (lb_uploads lb) /\ u_user_id u = userID /\
    (finds q (u_original_filename u) \/ finds q (u_filename u)) /\ h = mkHit "file" (u_uuid u) (u_original_filename u) (status_str (u_status u)).
Proof.
  intros H. group_of H. apply in_page in Hx as [Hin [Hu%Z.eqb_eq Hq]%andb_prop]. exists x. split_and!; try done. by apply either_finds.
Qed.

Lemma collections_of l : l = [] \/ l = collection_hits userID q searchPerCategory lb ->
  forall h, In h l -> exists c, In c (lb_collections lb) /\ cl_CreatedBy c = userID /\
    (finds q (cl_Name c) \/ finds q (cl_Description c)) /\ hit_ID h = big_String (cl_ID c).
Proof.
  intros H. group_of H. apply in_page in Hx as [Hin [Hu%Z.eqb_eq Hq]%andb_prop]. exists x. split_and!; try done. by apply either_finds.
Qed.

Lemma tags_of l : l = [] \/ l = tag_hits userID q searchPerCategory lb ->
  forall h, In h l -> exists t u, In t (lb_tags lb) /\ In u (lb_uploads lb) /\
    u_id u = ft_UploadID t /\ u_user_id u = userID /\ (finds q (ft_Key t) \/ finds q (ft_Value t)) /\ hit_ID h = ft_Key t +:+ "=" +:+ ft_Value t.
Proof.
  intros H. group_of H. assert (In x (distinct (map tag_pair (select (fun t => like (likePattern q) (ft_Key t) || like (likePattern q) (ft_Value t)) (tags_of_user userID lb))))) as Hd.
  { apply (order_by_in pair_le). rewrite <- (firstn_skipn (Z.to_nat searchPerCategory)). apply in_or_app. by left. }
  apply in_distinct, in_map_iff in Hd as (t & <- & [Ht Hq]%in_select). unfold tags_of_user in Ht.
  apply in_flat_map in Ht as (t' & Hin & (u & -> & [Hu [E1%Z.eqb_eq E2%Z.eqb_eq]%andb_prop]%in_select)%in_map_iff).
  exists t, u. split_and!; try done. by apply either_finds.
Qed.

Lemma users_of l : l = [] \/ l = user_hits q searchPerCategory (tables (ev_ac s)) ->
  forall h, In h l -> exists u, In u (ac_users (tables (ev_ac s))) /\ us_DeletedAt u = None /\
    (finds q (us_Email u) \/ finds q (us_FirstName u) \/ finds q (us_LastName u)) /\ hit_ID h = big_String (us_ID u).
Proof.
  intros H. group_of H. apply in_page in Hx as [Hin [Hd%bool_decide_eq_true Hq]%andb_prop]. exists x. split_and!; try done.
  rewrite !like_query in Hq. apply orb_prop in Hq as [[Hq|Hq]%orb_prop|Hq]; auto.
Qed.
End answer.

Lemma at_most_six {A} (l : list SearchHit) (f : A -> SearchHit) t : l = [] \/ l = map f (limit searchPerCategory t) -> (length l <= 6)%nat.
Proof. intros [->| ->]; [apply Nat.le_0_l|]. rewrite length_map. apply length_limit. Qed.

Lemma IsAdmin_only_reads id : steps (on_tables eq) (IsAdmin id).
Proof. unfold IsAdmin, GetEffective, GetDirect. steps_go. Qed.

Lemma no_hits userID q P s : within userID q P s (mkGroups [] [] [] [] [] []).
Proof. split; cbn; try done; [intuition|repeat constructor; lia]. Qed.

(** What the groups are made of. *)
Lemma groups_within userID q s (P : Prop) files colls tags users toks hooks :
  (files = [] \/ files = file_hits userID q searchPerCategory (tables (ev_lib s))) ->
  (colls = [] \/ colls = collection_hits userID q searchPerCategory (tables (ev_lib s))) ->
  (tags = [] \/ tags = tag_hits userID q searchPerCategory (tables (ev_lib s))) ->
  (users = [] \/ users = user_hits q searchPerCategory (tables (ev_ac s))) ->
  (toks = [] \/ toks = token_hits q searchPerCategory (tables (ev_ac s))) ->
  (hooks = [] \/ hooks = hook_hits q searchPerCategory (tables (ev_hooks s))) ->
  (users <> [] \/ toks <> [] \/ hooks <> [] -> P) -> within userID q P s (mkGroups files colls tags users toks hooks).
Proof.
  intros Hf Hc Ht Hu Hk Hw HP. split; cbn [in_files in_collections in_tags in_users in_tokens in_webhooks].
  - by apply files_of.
  - by apply collections_of.
  - by apply tags_of.
  - exact HP.
  - by eapply users_of.
  - repeat apply List.Forall_cons; try apply List.Forall_nil; eapply at_most_six; eassumption.
Qed.

Lemma lib_put s v : tables v = tables (ev_lib s) -> same_tables s (put_ev_lib v s). Proof. by intros ?. Qed.
Lemma ac_put s v : tables v = tables (ev_ac s) -> same_tables s (put_ev_ac v s). Proof. by intros ?. Qed.
Lemma hooks_put s v : tables v = tables (ev_hooks s) -> same_tables s (put_ev_hooks v s). Proof. by intros ?. Qed.

(** One search and what follows; the tables are those of the start, [s0]. *)
Lemma hits_then {T B} (get : Everything -> World T) put (f : T -> list SearchHit) (k : list SearchHit -> SearchM B) s0 s r s' :
  (forall s v, tables v = tables (get s) -> same_tables s (put v s)) -> (same_tables s0 s -> tables (get s) = tables (get s0)) ->
  same_tables s0 s -> (hits_of (zoom get put (read f)) ≫= k) s = (r, s') ->
  exists l s1, same_tables s0 s1 /\ (l = [] \/ l = f (tables (get s0))) /\ k l s1 = (r, s').
Proof.
  intros Hput Hget Hs H. unfold mbind, ST_bind in H. destruct (hits_of _ s) as [x s1] eqn:E.
  apply zoomed_hits in E as [E (l & -> & Hl)]; [|by apply Hput]. exists l, s1. rewrite Hget in Hl by done.
  split; [by etransitivity|done].
Qed.

(** C20. A search answers 200 and changes nothing. What it shows of files,
    collections and tags belongs to the caller and holds the trimmed query as a
    text, letters in either case and wildcards as themselves; accounts, tokens
    and webhooks appear only for scope=all and a caller IsAdmin accepted; no
    group has more than six hits. *)
Theorem GlobalSearch_shows_own (userID : Z) (q scope : string) (s : Everything) :
  let '(r, s') := GlobalSearch userID q scope s in
  same_tables s s' /\ exists g, r = Ok (200, g) /\
  within userID (TrimSpace q) (scope = "all" /\ exists w, tables w = tables (ev_ac s) /\ fst (IsAdmin userID w) = Ok true) s g.
Proof.
  destruct (GlobalSearch userID q scope s) as [r s'] eqn:H. unfold GlobalSearch in H. set (q' := TrimSpace q) in *.
  destruct (_ <? _)%nat; [injection H as <- <-; split; [done|]; eexists; split; [done|]; apply no_hits|].
  apply (hits_then _ _ _ _ s s) in H as (files & s1 & S1 & Hf & H); [|apply lib_put|done|done].
  apply (hits_then _ _ _ _ s s1) in H as (colls & s2 & S2 & Hc & H); [|apply lib_put|by intros (? & _)|done].
  apply (hits_then _ _ _ _ s s2) in H as (tags & s3 & S3 & Ht & H); [|apply lib_put|by intros (? & _)|done].
  assert (forall P : Prop, within userID q' P s (mkGroups files colls tags [] [] [])) as Hno.
  { intros P. apply groups_within; auto. intuition. }
  destruct (String.eqb_spec scope "all") as [->|]; cbn [negb] in H; [|injection H as <- <-; split; [done|]; eauto].
  unfold mbind at 1, ST_bind at 1, try, zoom at 1 in H. destruct (IsAdmin userID (ev_ac s3)) as [a w] eqn:Ea.
  pose proof (steps_run _ _ _ _ _ (IsAdmin_only_reads userID) Ea) as Ew. red in Ew.
  assert (same_tables s (put_ev_ac w s3)) as S4 by (etransitivity; [exact S3|by apply ac_put]).
  destruct a as [[]|e]; [|injection H as <- <-; split; [done|]; eauto..].
  apply (hits_then _ _ _ _ s (put_ev_ac w s3)) in H as (users & s5 & S5 & Hu & H); [|apply ac_put|by intros (_ & ? & _)|done].
  apply (hits_then _ _ _ _ s s5) in H as (toks & s6 & S6 & Hk & H); [|apply ac_put|by intros (_ & ? & _)|done].
  apply (hits_then _ _ _ _ s s6) in H as (hooks & s7 & S7 & Hw & H); [|apply hooks_put|by intros (_ & _ & ?)|done].
  injection H as <- <-. split; [done|]. eexists. split; [done|]. apply groups_within; try done.
  intros _. split; [done|]. exists (ev_ac s3). split; [apply S3|]. by rewrite Ea.
Qed.

(** A query of wildcards finds the texts that hold them. *)
Example wildcards_are_literal :
  like (likePattern "50%") "Up 50% more" = true /\ like (likePattern "50%") "500" = false /\ like (likePattern "A_b") "a_B" = true /\ like (likePattern "a_b") "axb" = false.
Proof. vm_compute. done. Qed.
