(* ===== verification/Base64.v ===== *)
(** * The URL alphabet of base64 without padding

    [base64.RawURLEncoding], as the session cookies and the state cookies of
    src/internal/handlers/auth.go and src/internal/services/oidc_login.go use
    it: bytes to groups of six bits to characters, and back. *)

From Stdlib Require Import Ascii.
From S2P Require Import Prelude GoLib Http.

Open Scope N_scope.

Fixpoint to_sextets (bs : list N) : list N :=
  match bs with
  | a :: b :: c :: rest => (a / 4) :: (a mod 4 * 16 + b / 16) :: (b mod 16 * 4 + c / 64) :: (c mod 64) :: to_sextets rest
  | [a; b] => [a / 4; a mod 4 * 16 + b / 16; b mod 16 * 4]
  | [a] => [a / 4; a mod 4 * 16]
  | [] => []
  end.

(** The bits left over at the end are not looked at. *)
Fixpoint of_sextets (l : list N) : option (list N) :=
  match l with
  | a :: b :: c :: d :: rest => r ← of_sextets rest; Some ((a * 4 + b / 16) :: (b mod 16 * 16 + c / 4) :: (c mod 4 * 64 + d) :: r)
  | [a; b; c] => Some [a * 4 + b / 16; b mod 16 * 16 + c / 4]
  | [a; b] => Some [a * 4 + b / 16]
  | [a] => None
  | [] => Some []
  end.

Definition raw_encode (bs : list N) : string := String.string_of_list_ascii (map b64_char (to_sextets bs)).

Definition b64_value (c : ascii) : option N :=
  let n := N_of_ascii c in
  if (65 <=? n) && (n <=? 90) then Some (n - 65) else
  if (97 <=? n) && (n <=? 122) then Some (n - 71) else
  if (48 <=? n) && (n <=? 57) then Some (n + 4) else
  if n =? 45 then Some 62 else if n =? 95 then Some 63 else None.

(** Line breaks are passed over. *)
Definition line_break (c : ascii) : bool := (N_of_ascii c =? 10) || (N_of_ascii c =? 13).

Fixpoint all_values (l : list ascii) : option (list N) :=
  match l with
  | [] => Some []
  | c :: l => v ← b64_value c; vs ← all_values l; Some (v :: vs)
  end.

Definition raw_decode (s : string) : option (list N) :=
  vs ← all_values (List.filter (fun c => negb (line_break c)) (String.list_ascii_of_string s)); of_sextets vs.

(** ** Round trip *)

Definition below (k : N) (l : list N) : Prop := Forall (fun n => n < k) l.

Definition sextets_all : list N := map N.of_nat (seq 0 64).

Lemma char_check : forallb (fun n => match b64_value (b64_char n) with Some v => (v =? n) && negb (line_break (b64_char n)) | None => false end) sextets_all = true.
Proof. vm_compute. reflexivity. Qed.

Lemma b64_char_spec n : n < 64 -> b64_value (b64_char n) = Some n /\ line_break (b64_char n) = false.
Proof.
  intros H. pose proof char_check as Hc. rewrite forallb_forall in Hc. specialize (Hc n).
  destruct (b64_value (b64_char n)) as [v|].
  - destruct (proj1 (andb_true_iff _ _) (Hc ltac:(apply in_map_iff; exists (N.to_nat n); rewrite N2Nat.id, in_seq; split; [done|lia]))) as [E L].
    apply N.eqb_eq in E as ->. by destruct (line_break _).
  - discriminate Hc. apply in_map_iff. exists (N.to_nat n). rewrite N2Nat.id, in_seq. split; [done|lia].
Qed.

(** A property of lists shown three elements at a time. *)
Lemma list_ind3 {A} (P : list A -> Prop) :
  P [] -> (forall a, P [a]) -> (forall a b, P [a; b]) -> (forall a b c l, P l -> P (a :: b :: c :: l)) -> forall l, P l.
Proof.
  intros H0 H1 H2 H3 l. cut (P l /\ (forall a, P (a :: l)) /\ (forall a b, P (a :: b :: l))); [by intros []|].
  induction l as [|c l (IH0 & IH1 & IH2)]; [auto|]. split; [auto|]. split; [auto|]. intros a b. by apply H3.
Qed.

Ltac each_byte := repeat match goal with H : Forall _ (_ :: _) |- _ => apply Forall_cons in H as [? H] end.
Ltac bits := zify; Z.to_euclidean_division_equations; lia.

Lemma to_sextets_below bs : below 256 bs -> below 64 (to_sextets bs).
Proof.
  unfold below. induction bs as [|a|a b|a b c l IH] using list_ind3; cbn; intros H;
    each_byte; repeat apply Forall_cons_2; try apply Forall_nil_2; try bits. by apply IH.
Qed.

Lemma sextets_roundtrip bs : below 256 bs -> of_sextets (to_sextets bs) = Some bs.
Proof.
  unfold below. induction bs as [|a|a b|a b c l IH] using list_ind3; cbn [to_sextets of_sextets]; intros H;
    each_byte; [done|..].
  - repeat f_equal; bits.
  - repeat f_equal; bits.
  - rewrite IH by done. cbn. repeat f_equal; bits.
Qed.

Lemma raw_roundtrip bs : below 256 bs -> raw_decode (raw_encode bs) = Some bs.
Proof.
  intros H. unfold raw_decode, raw_encode. rewrite String.list_ascii_of_string_of_list_ascii.
  assert (forall l, below 64 l -> List.filter (fun c => negb (line_break c)) (map b64_char l) = map b64_char l /\ all_values (map b64_char l) = Some l) as Hl.
  { intros l Hl. induction Hl as [|n l Hn _ [IH1 IH2]]; [done|]. destruct (b64_char_spec n Hn) as [Hv Hb]. cbn. rewrite Hb, Hv. cbn. rewrite IH1, IH2. done. }
  destruct (Hl (to_sextets bs) (to_sextets_below _ H)) as [-> ->]. cbn. by apply sextets_roundtrip.
Qed.
