(* ===== verification/Front.v ===== *)
(** * What the handlers of accounts work on

    The state behind the handlers of src/internal/handlers/ that manage users,
    groups, tokens and logins: the account tables, the tables of the uploads and
    settings, and what a request leaves besides: its events in the audit log
    (audit.go; the errors of the writes are dropped), its mails, its cookies. *)

From stdpp Require Import gmap strings pretty.
From Stdlib Require Import Ascii.
From S2P Require Import Prelude GoLib Sql Schema Stmt AccountSchema Users Http.

Open Scope Z_scope.

Record Cookie := mkCookie { ck_Name : string; ck_Value : string; ck_MaxAge : Z; ck_HttpOnly : bool; ck_Secure : bool }.

Inductive told :=
| Audited (eventType severity : string) (userID : option Z) (detail : string)
| MailPasswordReset (to url : string)
| MailEmailVerification (to url : string)
| SetCookie (c : Cookie).

Record Front := mkFront { fr_ac : World Accounts; fr_db : Db; fr_told : list told }.

Definition put_fr_ac v s := mkFront v (fr_db s) (fr_told s).
Definition put_fr_db v s := mkFront (fr_ac s) v (fr_told s).

Abbreviation FrontM := (ST Refusal Front).

Definition acc {A} (m : AcM A) : ST error Front A := zoom fr_ac put_fr_ac m.
Definition fdb {A} (m : DbM A) : ST error Front A := zoom fr_db put_fr_db m.

Definition tell (t : told) : FrontM unit := modify (fun s => mkFront (fr_ac s) (fr_db s) (fr_told s ++ [t])).

Definition auditEvent (eventType severity : string) (userID : option Z) (detail : string) : FrontM unit :=
  tell (Audited eventType severity userID detail).

(** A value whose error is dropped: the zero value. *)
Definition or_zero {A} (zero : A) (m : ST error Front A) : FrontM A :=
  r ← attempt m; mret (match r with Ok a => a | Err _ => zero end).

(** The server's recovery from a nil dereference: 500 without a body. *)
Definition panicked : Refusal := mkRefusal 500 "" None.

(** [x, _ := f(); use(x)] where [use] reads the fields of a pointer. *)
Definition or_panic {A} (m : ST error Front A) : FrontM A := or_refuse (fun _ => panicked) m.

Definition path_id (id message : string) : FrontM Z := decoded (ParseInt id) (jsonError message 400).

(** Unicode's lower case, and the addresses net/mail reads back as they are. *)
Class Mailbox := { ToLower : string -> string; IsValidEmail : string -> bool }.

(** The default of the limits of the admin listings. *)
Definition list_limit (n : Z) : Z := if (n <=? 0) || (100 <? n) then 50 else n.

Definition format_opt (t : option Z) : option string := format_z <$> t.

(** Columns hold seconds or nanoseconds; an answer shows seconds. *)
Definition ns_z (t : Z) : string := format_z (t / ac_second).
