(* ===== verification/AuthHandlers.v ===== *)
(** * Logins, registrations and passwords

    src/internal/handlers/auth.go. Bodies are what they decode to, or nothing;
    what [rand.Read] and the salt of bcrypt return are arguments, and so is
    whether the request came over TLS. *)

From stdpp Require Import gmap strings pretty.
From Stdlib Require Import Ascii.
From S2P Require Import Users Prelude GoLib Sql Schema Stmt Settings Keyring AccountSchema Tokens Webhooks Guards Http Base64 Front.

Open Scope Z_scope.

(** [rnd]: the 32 random bytes, or the error of reading them. *)
Definition newCSRFToken (rnd : result error (list Z)) : result error string :=
  match rnd with Ok b => Ok (raw_encode (map Z.to_N b)) | Err e => Err e end.

Definition setSessionCookies (rnd : result error (list Z)) (secure : bool) (jwtToken : string) (expiryHours : Z) : FrontM string :=
  csrfToken ← or_refuse (fun _ => jsonError "failed to set session cookies" 500) (of_result (newCSRFToken rnd));
  let maxAge := wrap64 (expiryHours * 3600) in
  tell (SetCookie (mkCookie "session" jwtToken maxAge true secure)) ;;
  tell (SetCookie (mkCookie CSRFCookieName csrfToken maxAge false secure)) ;;
  mret csrfToken.

Definition clearSessionCookies (secure : bool) : FrontM unit :=
  tell (SetCookie (mkCookie "session" "" (-1) true secure)) ;;
  tell (SetCookie (mkCookie CSRFCookieName "" (-1) false secure)).

Record loginRequest := mkLogin { lr_Email : string; lr_Password : string }.
Record registerRequest := mkRegister { rr_Email : string; rr_Password : string; rr_FirstName : string; rr_LastName : string }.
Record userResponse := mkUserResp {
  ur_ID : Z; ur_Email : string; ur_FirstName : string; ur_LastName : string; ur_IsActive : bool; ur_IsServiceAccount : bool;
  ur_EmailVerified : bool; ur_Permissions : string; ur_CreatedAt : string;
}.
Record authResponse := mkAuthResp { ar_Token : string; ar_User : userResponse }.
Record changePasswordRequest := mkChange { cp_CurrentPassword : string; cp_NewPassword : string }.
Record updateProfileRequest := mkProfile { pr_FirstName : string; pr_LastName : string }.
Record resetPasswordRequest := mkReset { rp_Token : string; rp_NewPassword : string }.

Definition toUserResponse (u : User) (perms : string) : userResponse :=
  mkUserResp (us_ID u) (us_Email u) (us_FirstName u) (us_LastName u) (us_IsActive u) (us_IsServiceAccount u) (us_EmailVerified u) perms
    (format_z (us_CreatedAt u)).

Definition validation_error (message : string) : Refusal := jsonErrorWithCode message "validation_error" 400.
Definition invalid_credentials : Refusal := jsonErrorWithCode "invalid email or password" "invalid_credentials" 401.

Section auth.
Context {bc : Bcrypt} {jwt : Jwt} {mb : Mailbox}.
(** The keyring of session secrets and the configured base URL. *)
Context (kr : Keyring) (BaseURL : string).

Definition password_matches (u : User) (password : string) : bool :=
  match us_PasswordHash u with Some h => bc_compare h password | None => false end.

Definition jwt_expiry_hours : FrontM Z :=
  v ← attempt (fdb (Get "jwt_expiry_hours"));
  mret (match v with
        | Ok v => match Atoi v with Some n => if 0 <? n then n else 24 | None => 24 end
        | Err _ => 24
        end).

Definition Login (rnd : result error (list Z)) (secure : bool) (body : option loginRequest) : FrontM (Z * authResponse) :=
  req ← decoded body invalid_body;
  let email := TrimSpace (ToLower (lr_Email req)) in
  require (negb (String.eqb email "" || String.eqb (lr_Password req) "")) (validation_error "email and password are required") ;;
  u ← attempt (acc (GetByEmail email));
  match u with
  | Err _ =>
      auditEvent "login_failed" "warn" None ("unknown email: " +:+ email) ;;
      refuse invalid_credentials
  | Ok user =>
      if negb (us_IsActive user) then
        auditEvent "login_failed" "warn" (Some (us_ID user)) "account inactive" ;;
        refuse (jsonErrorWithCode "account is inactive" "account_inactive" 403)
      else if negb (password_matches user (lr_Password req)) then
        auditEvent "login_failed" "warn" (Some (us_ID user)) "incorrect password" ;;
        refuse invalid_credentials
      else
        expiryHours ← jwt_expiry_hours;
        now ← gets (fun s => ac_now (tables (fr_ac s)));
        token ← or_refuse (fun _ => jsonError "failed to generate token" 500)
                  (of_result (GenerateToken now (Primary kr) (us_ID user) (us_Email user) expiryHours));
        attempt (acc (UpdateLastLogin (us_ID user))) ;;
        auditEvent "login" "info" (Some (us_ID user)) "password" ;;
        setSessionCookies rnd secure token expiryHours ;;
        perms ← or_zero "" (acc (GetEffective (us_ID user)));
        answer 200 (mkAuthResp token (toUserResponse user perms))
  end.

Definition registrationEnabled : FrontM bool :=
  v ← attempt (fdb (Get "registration_enabled"));
  mret (match v with Ok v => String.eqb v "true" | Err _ => false end).

Definition base_url : string := if String.eqb BaseURL "" then "http://localhost:8080" else BaseURL.

Definition neutral : string := "if this address can be registered, you'll receive a verification email".

(** [salt]: of the hash; [rnd]: of the token. *)
Definition Register (salt : Z) (rnd : result error (list Z)) (body : option registerRequest) : FrontM (Z * string) :=
  enabled ← registrationEnabled;
  require enabled (jsonErrorWithCode "self-registration is disabled" "registration_disabled" 403) ;;
  req ← decoded body invalid_body;
  let email := TrimSpace (ToLower (rr_Email req)) in
  let first := TrimSpace (rr_FirstName req) in
  let last := TrimSpace (rr_LastName req) in
  require (negb (String.eqb email "" || String.eqb (rr_Password req) "" || String.eqb first "" || String.eqb last ""))
    (jsonError "email, password, first_name, and last_name are required" 400) ;;
  require (IsValidEmail email) (jsonError "email is not a valid address" 400) ;;
  require (8 <=? String.length (rr_Password req))%nat (jsonError "password must be at least 8 characters" 400) ;;
  hash ← or_refuse (fun _ => jsonError "failed to hash password" 500) (of_result (bc_generate (rr_Password req) salt));
  created ← attempt (acc (Create email hash first last));
  match created with
  | Ok user =>
      attempt (acc (SetDirect (us_ID user) "read" (us_ID user))) ;;
      token ← attempt (acc (VerifyCreate rnd (us_ID user)));
      match token with
      | Ok token => tell (MailEmailVerification (us_Email user) (base_url +:+ "/verify-email?token=" +:+ token))
      | Err _ => mret tt
      end ;;
      answer 202 neutral
  | Err err => if errors_is err ErrEmailTaken then answer 202 neutral else refuse (jsonError "failed to create user" 500)
  end.

(** [userID]: 0 where no guard authenticated the request. *)
Definition Logout (secure : bool) (userID : Z) : FrontM (Z * string) :=
  auditEvent "logout" "info" (if userID =? 0 then None else Some userID) "" ;;
  clearSessionCookies secure ;;
  answer 200 "logged out".

Definition GetProfile (userID : Z) : FrontM (Z * userResponse) :=
  user ← or_refuse (fun _ => jsonError "user not found" 404) (acc (GetByID userID));
  perms ← or_zero "" (acc (GetEffective userID));
  answer 200 (toUserResponse user perms).

Definition UpdateProfile (userID : Z) (body : option updateProfileRequest) : FrontM (Z * userResponse) :=
  req ← decoded body invalid_body;
  or_refuse (fun _ => jsonError "failed to update profile" 500)
    (acc (UserUpdate userID (TrimSpace (pr_FirstName req)) (TrimSpace (pr_LastName req)) None)) ;;
  user ← attempt (acc (GetByID userID));
  perms ← or_zero "" (acc (GetEffective userID));
  match user with Ok user => answer 200 (toUserResponse user perms) | Err _ => refuse panicked end.

Definition ChangePassword (salt userID : Z) (body : option changePasswordRequest) : FrontM (Z * string) :=
  req ← decoded body invalid_body;
  require (8 <=? String.length (cp_NewPassword req))%nat (jsonError "new password must be at least 8 characters" 400) ;;
  user ← or_refuse (fun _ => jsonError "user not found" 404) (acc (GetByID userID));
  require (password_matches user (cp_CurrentPassword req)) (jsonError "current password is incorrect" 401) ;;
  hash ← or_refuse (fun _ => jsonError "failed to hash password" 500) (of_result (bc_generate (cp_NewPassword req) salt));
  or_refuse (fun _ => jsonError "failed to update password" 500) (acc (UpdatePassword userID hash)) ;;
  auditEvent "password_changed" "info" (Some userID) "" ;;
  answer 200 "password updated".

Definition reset_answer : Z * string := (200, "if that email exists, a reset link has been sent").

(** The answer is deferred: every return gives it. *)
Definition ForgotPassword (rnd : result error (list Z)) (body : option string) : FrontM (Z * string) :=
  req ← decoded body invalid_body;
  let email := TrimSpace (ToLower req) in
  u ← attempt (acc (GetByEmail email));
  match u with
  | Err _ => auditEvent "password_reset_requested" "warn" None ("unknown email: " +:+ email) ;; mret reset_answer
  | Ok user =>
      if negb (us_IsActive user) || us_IsServiceAccount user then
        auditEvent "password_reset_requested" "warn" (Some (us_ID user)) "inactive or service account" ;; mret reset_answer
      else
        token ← attempt (acc (ResetCreate rnd (us_ID user)));
        match token with
        | Err _ => mret reset_answer
        | Ok token =>
            tell (MailPasswordReset (us_Email user) (base_url +:+ "/reset-password?token=" +:+ token)) ;;
            auditEvent "password_reset_requested" "info" (Some (us_ID user)) "" ;;
            mret reset_answer
        end
  end.

Definition ResetPassword (salt : Z) (body : option resetPasswordRequest) : FrontM (Z * string) :=
  req ← decoded body invalid_body;
  require (8 <=? String.length (rp_NewPassword req))%nat (jsonError "password must be at least 8 characters" 400) ;;
  v ← attempt (acc (ResetValidate (rp_Token req)));
  match v with
  | Err _ =>
      auditEvent "password_reset_completed" "warn" None "invalid or expired token" ;;
      refuse (jsonError "invalid or expired reset token" 401)
  | Ok userID =>
      hash ← or_refuse (fun _ => jsonError "failed to hash password" 500) (of_result (bc_generate (rp_NewPassword req) salt));
      or_refuse (fun _ => jsonError "failed to update password" 500) (acc (UpdatePassword userID hash)) ;;
      auditEvent "password_reset_completed" "info" (Some userID) "" ;;
      answer 200 "password reset successfully"
  end.

Definition VerifyEmail (token : string) : FrontM (Z * string) :=
  require (negb (String.eqb token "")) (jsonError "token is required" 400) ;;
  v ← attempt (acc (VerifyValidate token));
  match v with
  | Err _ =>
      auditEvent "email_verified" "warn" None "invalid or expired token" ;;
      refuse (jsonError "invalid or expired verification token" 401)
  | Ok userID =>
      auditEvent "email_verified" "info" (Some userID) "" ;;
      answer 200 "email verified successfully"
  end.

Definition ResendVerification (rnd : result error (list Z)) (userID : Z) : FrontM (Z * string) :=
  user ← or_refuse (fun _ => jsonError "user not found" 404) (acc (GetByID userID));
  if us_EmailVerified user then answer 200 "email already verified" else
  token ← or_refuse (fun _ => jsonError "failed to generate verification token" 500) (acc (VerifyCreate rnd (us_ID user)));
  tell (MailEmailVerification (us_Email user) (base_url +:+ "/verify-email?token=" +:+ token)) ;;
  auditEvent "email_verification_requested" "info" (Some userID) "" ;;
  answer 200 "verification email sent".
End auth.

(** * The handlers of tokens and notification preferences

    src/internal/handlers/tokens.go, admin_scim.go and notifications.go. *)

Open Scope Z_scope.

(** [json.Unmarshal] into a slice of strings. *)
Class JsonStrings := { Unmarshal_strings : string -> result error (list string) }.

Definition Marshal_strings (l : list string) : string := json_array (map json_string l).

Record createTokenRequest := mkTokenReq {
  ct_Name : string; ct_Description : string; ct_Permissions : list string; ct_Department : string;
  ct_ExpiresInDays : option Z; ct_MaxFileSizeBytes : option Z; ct_AllowedFileTypes : list string;
}.

Record tokenResponse := mkTokenResp {
  tr_UUID : string; tr_Name : string; tr_Description : string; tr_Permissions : string; tr_Department : option string;
  tr_MaxFileSizeBytes : option Z; tr_AllowedFileTypes : list string; tr_UsageCount : Z; tr_LastUsedAt : option string;
  tr_ExpiresAt : option string; tr_RevokedAt : option string; tr_RevokedBy : option Z; tr_RevokeReason : option string;
  tr_CreatedAt : string; tr_OwnerID : Z;
}.

Record createTokenResponse := mkTokenMade { cr_Secret : string; cr_Token : tokenResponse }.
Record bulkRevokeRequest := mkBulkRevoke { br_TokenUUIDs : list string; br_Reason : string }.

Section tokens.
Context {bc : Bcrypt} {js : JsonStrings}.

(** A column of file types; what does not parse is shown as none. *)
Definition shown_types (column : option string) : list string :=
  match column with
  | Some t => if String.eqb t "" then [] else match Unmarshal_strings t with Ok types => types | Err _ => [] end
  | None => []
  end.

Definition toTokenResponse (t : ApiToken) : tokenResponse :=
  mkTokenResp (tk_UUID t) (tk_Name t) (tk_Description t) (tk_Permissions t) (tk_Department t) (tk_MaxFileSizeBytes t)
    (shown_types (tk_AllowedFileTypes t)) (tk_UsageCount t) (format_opt (tk_LastUsedAt t)) (ns_z <$> tk_ExpiresAt t)
    (format_opt (tk_RevokedAt t)) (tk_RevokedBy t) (tk_RevokeReason t) (format_z (tk_CreatedAt t)) (tk_UserID t).

Definition valid_level (p : string) : bool := String.eqb p "read" || String.eqb p "write" || String.eqb p "admin".

(** [time.Now().AddDate(0, 0, days)] of a clock in UTC, for a lifetime within
    ten years; any other makes a token that does not expire. *)
Definition expiry_of (now days : Z) : option Z :=
  if (0 <? days) && (days <=? 3650) then Some (now + days * (86400 * ac_second)) else None.

Definition default_token_days : FrontM Z :=
  v ← attempt (fdb (Get "default_token_expiry_days"));
  mret (match v with
        | Ok v => match Atoi v with Some n => if 0 <? n then n else 90 | None => 90 end
        | Err _ => 90
        end).

Definition CreateToken (raw : result error (list Z)) (salt : Z) (tokenUUID : string) (userID : Z) (body : option createTokenRequest)
    : FrontM (Z * createTokenResponse) :=
  req ← decoded body invalid_body;
  let name := TrimSpace (ct_Name req) in
  require (negb (String.eqb name "")) (jsonError "name is required" 400) ;;
  let permissions := match ct_Permissions req with [] => ["read"] | ps => ps end in
  require (forallb valid_level permissions) (jsonError "permissions must be read, write, or admin" 400) ;;
  isAdmin ← or_zero false (acc (IsAdmin userID));
  require (negb (existsb (String.eqb "admin") permissions && negb isAdmin)) (jsonError "only admins can create admin tokens" 403) ;;
  defaultDays ← default_token_days;
  now ← gets (fun s => ac_now (tables (fr_ac s)));
  let expiresAt := expiry_of now (default defaultDays (ct_ExpiresInDays req)) in
  let permsJSON := Marshal_strings permissions in
  let maxFileSize := match ct_MaxFileSizeBytes req with Some n => if 0 <? n then Some n else None | None => None end in
  let allowedTypesJSON := match ct_AllowedFileTypes req with [] => "" | ts => Marshal_strings ts end in
  '(secret, token) ← or_refuse (fun _ => jsonError "failed to create token" 500)
    (acc (TokenCreate raw salt tokenUUID userID name (ct_Description req) permsJSON (ct_Department req) maxFileSize allowedTypesJSON expiresAt));
  auditEvent "api_token_issued" "info" (Some userID) ("token=" +:+ tk_UUID token +:+ " scopes=" +:+ permsJSON) ;;
  answer 201 (mkTokenMade secret (toTokenResponse token)).

Definition ListTokens (userID : Z) : FrontM (Z * list tokenResponse) :=
  tokens ← or_refuse (fun _ => jsonError "failed to list tokens" 500) (acc (TokenListByUser userID));
  answer 200 (map toTokenResponse tokens).

(** [reason]: of the body, or empty when it does not decode. *)
Definition RevokeToken (userID : Z) (tokenUUID reason : string) : FrontM (Z * string) :=
  token ← or_refuse (fun err => if errors_is err ErrTokenNotFound then jsonError "token not found" 404 else jsonError "failed to find token" 500)
            (acc (TokenGetByUUID tokenUUID));
  require (tk_UserID token =? userID) (jsonError "token not found" 404) ;;
  or_refuse (fun _ => jsonError "failed to revoke token" 500) (acc (Revoke (tk_ID token) userID reason)) ;;
  auditEvent "api_token_revoked" "info" (Some userID) ("token=" +:+ tk_UUID token +:+ " reason=" +:+ reason) ;;
  answer 200 "token revoked".

Definition AdminListAllTokens (limit offset : string) : FrontM (Z * (list tokenResponse * Z)) :=
  '(tokens, total) ← or_refuse (fun _ => jsonError "failed to list tokens" 500)
    (acc (TokenListAll (list_limit (atoi_or_zero limit)) (atoi_or_zero offset)));
  answer 200 (map toTokenResponse tokens, total).

(** The ids of the tokens found; the others are passed over. *)
Fixpoint resolve_tokens (uuids : list string) : FrontM (list Z) :=
  match uuids with
  | [] => mret []
  | u :: uuids =>
      t ← attempt (acc (TokenGetByUUID u));
      rest ← resolve_tokens uuids;
      mret (match t with Ok t => tk_ID t :: rest | Err _ => rest end)
  end.

Definition AdminBulkRevokeTokens (adminID : Z) (body : option bulkRevokeRequest) : FrontM (Z * Z) :=
  req ← decoded body invalid_body;
  require (negb (bool_decide (br_TokenUUIDs req = []))) (jsonError "token_uuids is required" 400) ;;
  ids ← resolve_tokens (br_TokenUUIDs req);
  revoked ← or_refuse (fun _ => jsonError "failed to revoke tokens" 500) (acc (BulkRevoke ids adminID (br_Reason req)));
  auditEvent "api_token_bulk_revoked" "info" (Some adminID) ("count=" +:+ big_String revoked +:+ " reason=" +:+ br_Reason req) ;;
  answer 200 revoked.

(** ** admin_scim.go *)

Record scimTokenResponse := mkScimTokenResp {
  st_ID : Z; st_Name : string; st_IsActive : bool; st_CreatedBy : Z; st_LastUsedAt : option string; st_CreatedAt : string; st_RevokedAt : option string;
}.

Definition toScimTokenResponse (t : ScimToken) : scimTokenResponse :=
  mkScimTokenResp (sc_ID t) (sc_Name t) (sc_IsActive t) (sc_CreatedBy t) (format_opt (sc_LastUsedAt t)) (format_z (sc_CreatedAt t)) (format_opt (sc_RevokedAt t)).

Definition AdminCreateScimToken (raw : result error (list Z)) (salt userID : Z) (body : option string) : FrontM (Z * (string * scimTokenResponse)) :=
  name ← decoded body invalid_body;
  require (negb (String.eqb name "")) (jsonError "name is required" 400) ;;
  '(secret, token) ← or_refuse (fun _ => jsonError "failed to create SCIM token" 500) (acc (ScimCreate raw salt name userID));
  auditEvent "scim_token_issued" "warn" (Some userID) ("id=" +:+ big_String (sc_ID token) +:+ " name=" +:+ sc_Name token) ;;
  answer 201 (secret, toScimTokenResponse token).

Definition AdminListScimTokens : FrontM (Z * list scimTokenResponse) :=
  tokens ← or_refuse (fun _ => jsonError "failed to list SCIM tokens" 500) (acc ScimList);
  answer 200 (map toScimTokenResponse tokens).

Definition AdminRevokeScimToken (callerID : Z) (id : string) : FrontM (Z * string) :=
  id ← path_id id "invalid token id";
  or_refuse (fun err => if errors_is err ErrScimTokenNotFound then jsonError "SCIM token not found" 404 else jsonError "failed to revoke SCIM token" 500)
    (acc (ScimRevoke id)) ;;
  auditEvent "scim_token_revoked" "info" (Some callerID) ("id=" +:+ big_String id) ;;
  answer 200 "SCIM token revoked".

(** ** notifications.go *)

Record updateNotificationPrefRequest := mkPrefReq { np_url : option string; np_events : string; np_digest : string }.

Definition GetNotificationPrefs (userID : Z) : FrontM (Z * NotificationPref) :=
  pref ← or_refuse (fun _ => jsonError "failed to get notification preferences" 500) (acc (PrefGet userID));
  answer 200 pref.

Definition UpdateNotificationPrefs (userID : Z) (body : option updateNotificationPrefRequest) : FrontM (Z * NotificationPref) :=
  req ← decoded body invalid_body;
  require (String.eqb (np_digest req) "" || digest_ok (np_digest req)) (jsonError "digest_mode must be realtime, daily, or weekly" 400) ;;
  pref ← or_refuse (fun _ => jsonError "failed to update notification preferences" 500)
    (acc (PrefUpdate userID (np_url req) (np_events req) (np_digest req)));
  answer 200 pref.
End tokens.
