(* ===== verification/AdminHandlers.v ===== *)
(** * The administration of users and groups

    src/internal/handlers/admin_users.go and admin_groups.go. *)

From stdpp Require Import gmap strings pretty.
From S2P Require Import Prelude GoLib Sql Schema Stmt QuotaSvc AccountSchema Users Tokens Keyring Oidc Http Front AuthHandlers.

Open Scope Z_scope.

Record adminUserResponse := mkAdminUser {
  au_ID : Z; au_Email : string; au_FirstName : string; au_LastName : string; au_IsActive : bool; au_IsServiceAccount : bool;
  au_EmailVerified : bool; au_Permissions : string; au_MaxFileSizeBytes : option Z; au_AllowedFileTypes : list string;
  au_LastLoginAt : option string; au_CreatedAt : string;
}.

Record adminListUsersResponse := mkUserPage { ul_Users : list adminUserResponse; ul_Total : Z; ul_Limit : Z; ul_Offset : Z }.

(** A linked identity; the time of the link is not among the columns read. *)
Record oidcIdentityResponse := mkIdentityResp { ir_ID : Z; ir_ProviderID : Z; ir_ProviderName : string; ir_Subject : string }.

(** Of a quota its bytes and those used, of which the answer shows the share too. *)
Record adminUserDetailsResponse := mkUserDetails {
  ud_Groups : list (Z * string * string); ud_Tokens : list tokenResponse; ud_Quota : option (Z * Z); ud_Identities : list oidcIdentityResponse;
}.

Record adminCreateUserRequest := mkNewUser { nu_Email : string; nu_Password : string; nu_FirstName : string; nu_LastName : string; nu_Permissions : string }.
Record createServiceAccountRequest := mkNewService { ns_Email : string; ns_FirstName : string; ns_LastName : string; ns_Permissions : string }.
Record updateUserRequest := mkUserChange {
  uq_FirstName : option string; uq_LastName : option string; uq_IsActive : option bool; uq_MaxFileSizeBytes : option Z; uq_AllowedFileTypes : option (list string);
}.

Section admin.
Context {bc : Bcrypt} {js : JsonStrings} {mb : Mailbox}.

Definition toAdminUserResponse (u : User) (perms : string) : adminUserResponse :=
  mkAdminUser (us_ID u) (us_Email u) (us_FirstName u) (us_LastName u) (us_IsActive u) (us_IsServiceAccount u) (us_EmailVerified u) perms
    (us_MaxFileSizeBytes u) (shown_types (us_AllowedFileTypes u)) (format_opt (us_LastLoginAt u)) (format_z (us_CreatedAt u)).

Fixpoint with_perms (us : list User) : FrontM (list adminUserResponse) :=
  match us with
  | [] => mret []
  | u :: us =>
      perms ← or_zero "" (acc (GetEffective (us_ID u)));
      rest ← with_perms us;
      mret (toAdminUserResponse u perms :: rest)
  end.

Definition AdminListUsers (limit offset : string) : FrontM (Z * adminListUsersResponse) :=
  let n := list_limit (atoi_or_zero limit) in
  let off := atoi_or_zero offset in
  '(us, total) ← or_refuse (fun _ => jsonError "failed to list users" 500) (acc (UserList n off));
  rows ← with_perms us;
  answer 200 (mkUserPage rows total n off).

Definition found_user (id : Z) : FrontM User :=
  or_refuse (fun err => if errors_is err ErrUserNotFound then jsonError "user not found" 404 else jsonError "failed to get user" 500) (acc (GetByID id)).

Definition AdminGetUser (id : string) : FrontM (Z * adminUserResponse) :=
  id ← path_id id "invalid user id";
  user ← found_user id;
  perms ← or_zero "" (acc (GetEffective id));
  answer 200 (toAdminUserResponse user perms).

Definition provider_name (ps : list OIDCProvider) (id : Z) : string :=
  fold_left (fun n p => if op_ID p =? id then op_DisplayName p else n) ps "".

Definition AdminUserDetails (id : string) : FrontM (Z * adminUserDetailsResponse) :=
  id ← path_id id "invalid user id";
  found_user id ;;
  groups ← or_zero [] (acc (GroupListByUser id));
  tokens ← or_zero [] (acc (TokenListByUser id));
  quota ← or_zero None (fdb (UserQuota id));
  identities ← or_zero [] (acc (ListIdentitiesForUser id));
  providers ← match identities with [] => mret [] | _ => or_zero [] (acc ProviderList) end;
  answer 200 (mkUserDetails (map (fun g => (g_ID g, g_Name g, g_PermissionLevel g)) groups) (map toTokenResponse tokens)
    (match quota with Some (q, used) => if 0 <? q_max_bytes q then Some (q_max_bytes q, used) else None | None => None end)
    (map (fun i => mkIdentityResp (oi_ID i) (oi_ProviderID i) (provider_name providers (oi_ProviderID i)) (oi_Subject i)) identities)).

(** The limit and the types after the request. *)
Definition new_max (current : User) (req : updateUserRequest) : option Z :=
  match uq_MaxFileSizeBytes req with Some n => if 0 <? n then Some n else None | None => us_MaxFileSizeBytes current end.

Definition new_types (current : User) (req : updateUserRequest) : string :=
  match uq_AllowedFileTypes req with
  | Some [] => ""
  | Some ts => Marshal_strings ts
  | None => default "" (us_AllowedFileTypes current)
  end.

Definition AdminUpdateUser (callerID : Z) (id : string) (body : option updateUserRequest) : FrontM (Z * adminUserResponse) :=
  id ← path_id id "invalid user id";
  req ← decoded body invalid_body;
  preActive ← match uq_IsActive req with
              | Some _ => pre ← attempt (acc (GetByID id)); mret (match pre with Ok pre => Some (us_IsActive pre) | Err _ => None end)
              | None => mret None
              end;
  let deactivating := bool_decide (uq_IsActive req = Some false) && bool_decide (preActive = Some true) in
  or_refuse (fun err => if errors_is err ErrUserNotFound then jsonError "user not found" 404 else jsonError "failed to update user" 500)
    (acc (UserUpdate id (TrimSpace (default "" (uq_FirstName req))) (TrimSpace (default "" (uq_LastName req))) (uq_IsActive req))) ;;
  (if bool_decide (is_Some (uq_MaxFileSizeBytes req)) || bool_decide (is_Some (uq_AllowedFileTypes req)) then
     current ← or_refuse (fun _ => jsonError "failed to load user" 500) (acc (GetByID id));
     or_refuse (fun _ => jsonError "failed to update user restrictions" 500) (acc (UpdateRestrictions id (new_max current req) (new_types current req)))
   else mret tt) ;;
  (if deactivating then attempt (acc (RevokeAllByUser id callerID "user deactivated")) ;; mret tt else mret tt) ;;
  match preActive, uq_IsActive req with
  | Some was, Some is_ =>
      if Bool.eqb was is_ then mret tt else
      auditEvent (if is_ then "user_enabled" else "user_disabled") "info" (Some callerID) ("target=" +:+ big_String id)
  | _, _ => mret tt
  end ;;
  user ← attempt (acc (GetByID id));
  perms ← or_zero "" (acc (GetEffective id));
  match user with Ok user => answer 200 (toAdminUserResponse user perms) | Err _ => refuse panicked end.

Definition AdminDeleteUser (callerID : Z) (id : string) : FrontM (Z * string) :=
  id ← path_id id "invalid user id";
  require (negb (id =? callerID)) (jsonError "cannot delete yourself" 400) ;;
  or_refuse (fun _ => jsonError "failed to revoke user tokens" 500) (acc (RevokeAllByUser id callerID "user deleted")) ;;
  or_refuse (fun _ => jsonError "failed to delete user" 500) (acc (SoftDelete id)) ;;
  auditEvent "user_deleted" "warn" (Some callerID) ("target=" +:+ big_String id) ;;
  answer 200 "user deleted".

Definition taken_or (message : string) (err : error) : Refusal :=
  if errors_is err ErrEmailTaken then jsonError "email already registered" 409 else jsonError message 500.

Definition created_detail (prefix : string) (u : User) (permissions : string) : string :=
  prefix +:+ "id=" +:+ big_String (us_ID u) +:+ " email=" +:+ us_Email u +:+ " permissions=" +:+ permissions.

Definition AdminCreateUser (salt callerID : Z) (body : option adminCreateUserRequest) : FrontM (Z * adminUserResponse) :=
  req ← decoded body invalid_body;
  let email := TrimSpace (ToLower (nu_Email req)) in
  let first := TrimSpace (nu_FirstName req) in
  let last := TrimSpace (nu_LastName req) in
  require (negb (String.eqb email "" || String.eqb (nu_Password req) "" || String.eqb first "" || String.eqb last ""))
    (jsonError "email, password, first_name, and last_name are required" 400) ;;
  require (IsValidEmail email) (jsonError "email is not a valid address" 400) ;;
  require (8 <=? String.length (nu_Password req))%nat (jsonError "password must be at least 8 characters" 400) ;;
  let permissions := if String.eqb (nu_Permissions req) "" then "read" else nu_Permissions req in
  hash ← or_refuse (fun _ => jsonError "failed to hash password" 500) (of_result (bc_generate (nu_Password req) salt));
  user ← or_refuse (taken_or "failed to create user") (acc (Create email hash first last));
  attempt (acc (SetDirect (us_ID user) permissions callerID)) ;;
  auditEvent "user_created" "info" (Some callerID) (created_detail "" user permissions) ;;
  answer 201 (toAdminUserResponse user permissions).

Definition AdminCreateServiceAccount (callerID : Z) (body : option createServiceAccountRequest) : FrontM (Z * adminUserResponse) :=
  req ← decoded body invalid_body;
  let email := TrimSpace (ToLower (ns_Email req)) in
  require (negb (String.eqb email "" || String.eqb (ns_FirstName req) "")) (jsonError "email and first_name are required" 400) ;;
  let permissions := if String.eqb (ns_Permissions req) "" then "read" else ns_Permissions req in
  require (valid_level permissions) (jsonError "permissions must be read, write, or admin" 400) ;;
  user ← or_refuse (taken_or "failed to create service account") (acc (CreateServiceAccount email (ns_FirstName req) (ns_LastName req)));
  attempt (acc (SetDirect (us_ID user) permissions callerID)) ;;
  auditEvent "user_created" "info" (Some callerID) (created_detail "service_account " user permissions) ;;
  answer 201 (toAdminUserResponse user permissions).

Definition AdminSetPermissions (callerID : Z) (id : string) (body : option string) : FrontM (Z * string) :=
  id ← path_id id "invalid user id";
  permission ← decoded body invalid_body;
  require (valid_level permission) (jsonError "permission must be read, write, or admin" 400) ;;
  oldPerm ← or_zero "" (acc (GetEffective id));
  (if negb (String.eqb permission "admin") && String.eqb oldPerm "admin" then
     count ← or_zero 0 (acc CountAdmins);
     require (1 <? count) (jsonError "cannot remove the last admin" 409)
   else mret tt) ;;
  or_refuse (fun _ => jsonError "failed to set permissions" 500) (acc (SetDirect id permission callerID)) ;;
  auditEvent "user_permissions_changed" "warn" (Some callerID) ("target=" +:+ big_String id +:+ " old=" +:+ oldPerm +:+ " new=" +:+ permission) ;;
  answer 200 permission.

(** ** admin_groups.go *)

Record groupResponse := mkGroupResp {
  gp_ID : Z; gp_Name : string; gp_Description : string; gp_PermissionLevel : string; gp_IsActive : bool; gp_ExternalID : option string;
  gp_MemberCount : Z; gp_CreatedAt : string;
}.
Record groupMemberResponse := mkMemberResp { gmr_ID : Z; gmr_Email : string; gmr_Name : string }.
Record createGroupRequest := mkNewGroup { ng_Name : string; ng_Description : string; ng_PermissionLevel : string }.
Record updateGroupRequest := mkGroupChange { gu_Name : string; gu_Description : string; gu_PermissionLevel : string; gu_IsActive : option bool }.

Definition toGroupResponse (g : Group) (memberCount : Z) : groupResponse :=
  mkGroupResp (g_ID g) (g_Name g) (g_Description g) (g_PermissionLevel g) (g_IsActive g) (g_ExternalID g) memberCount (format_z (g_CreatedAt g)).

Definition validPermissionLevel : string -> bool := valid_level.

Fixpoint with_counts (gs : list Group) : FrontM (list groupResponse) :=
  match gs with
  | [] => mret []
  | g :: gs =>
      count ← or_zero 0 (acc (MemberCount (g_ID g)));
      rest ← with_counts gs;
      mret (toGroupResponse g count :: rest)
  end.

Definition AdminListGroups : FrontM (Z * list groupResponse) :=
  groups ← or_refuse (fun _ => jsonError "failed to list groups" 500) (acc GroupList);
  rows ← with_counts groups;
  answer 200 rows.

Definition AdminCreateGroup (callerID : Z) (body : option createGroupRequest) : FrontM (Z * groupResponse) :=
  req ← decoded body invalid_body;
  let name := TrimSpace (ng_Name req) in
  require (negb (String.eqb name "")) (jsonError "name is required" 400) ;;
  require (validPermissionLevel (ng_PermissionLevel req)) (jsonError "permission_level must be read, write, or admin" 400) ;;
  group ← or_refuse (fun err => if errors_is err ErrGroupNameTaken then jsonError "group name already exists" 409 else jsonError "failed to create group" 500)
    (acc (GroupCreate name (ng_Description req) (ng_PermissionLevel req)));
  auditEvent "group_created" "info" (Some callerID)
    ("id=" +:+ big_String (g_ID group) +:+ " name=" +:+ g_Name group +:+ " permission=" +:+ ng_PermissionLevel req) ;;
  answer 201 (toGroupResponse group 0).

Definition AdminUpdateGroup (callerID : Z) (id : string) (body : option updateGroupRequest) : FrontM (Z * groupResponse) :=
  id ← path_id id "invalid group id";
  req ← decoded body invalid_body;
  require (String.eqb (gu_PermissionLevel req) "" || validPermissionLevel (gu_PermissionLevel req)) (jsonError "permission_level must be read, write, or admin" 400) ;;
  or_refuse (fun err => if errors_is err ErrGroupNotFound then jsonError "group not found" 404 else jsonError "failed to update group" 500)
    (acc (GroupUpdate id (TrimSpace (gu_Name req)) (gu_Description req) (gu_PermissionLevel req) (gu_IsActive req))) ;;
  auditEvent "group_updated" "info" (Some callerID) ("id=" +:+ big_String id) ;;
  group ← attempt (acc (GroupGetByID id));
  count ← or_zero 0 (acc (MemberCount id));
  match group with Ok group => answer 200 (toGroupResponse group count) | Err _ => refuse panicked end.

Definition AdminDeleteGroup (callerID : Z) (id : string) : FrontM (Z * string) :=
  id ← path_id id "invalid group id";
  or_refuse (fun _ => jsonError "failed to delete group" 500) (acc (GroupDelete id)) ;;
  auditEvent "group_deleted" "warn" (Some callerID) ("id=" +:+ big_String id) ;;
  answer 200 "group deleted".

Definition member_detail (groupID userID : Z) : string := "group=" +:+ big_String groupID +:+ " user=" +:+ big_String userID.

Definition AdminAddGroupMember (addedBy : Z) (id : string) (body : option Z) : FrontM (Z * string) :=
  groupID ← path_id id "invalid group id";
  userID ← decoded body invalid_body;
  or_refuse (fun err => if errors_is err ErrAlreadyMember then jsonError "user is already a member" 409 else jsonError "failed to add member" 500)
    (acc (AddMember groupID userID addedBy)) ;;
  auditEvent "group_member_added" "info" (Some addedBy) (member_detail groupID userID) ;;
  answer 201 "member added".

Definition AdminRemoveGroupMember (callerID : Z) (id userId : string) : FrontM (Z * string) :=
  groupID ← path_id id "invalid group id";
  userID ← path_id userId "invalid user id";
  or_refuse (fun err => if errors_is err ErrNotMember then jsonError "user is not a member" 404 else jsonError "failed to remove member" 500)
    (acc (RemoveMember groupID userID)) ;;
  auditEvent "group_member_removed" "info" (Some callerID) (member_detail groupID userID) ;;
  answer 200 "member removed".

(** The members that can be read; the others are left out. *)
Fixpoint with_names (ids : list Z) : FrontM (list groupMemberResponse) :=
  match ids with
  | [] => mret []
  | uid :: ids =>
      u ← attempt (acc (GetByID uid));
      rest ← with_names ids;
      mret (match u with
            | Ok u => mkMemberResp (us_ID u) (us_Email u) (TrimSpace (us_FirstName u +:+ " " +:+ us_LastName u)) :: rest
            | Err _ => rest
            end)
  end.

Definition AdminListGroupMembers (id : string) : FrontM (Z * list groupMemberResponse) :=
  id ← path_id id "invalid group id";
  memberIDs ← or_refuse (fun _ => jsonError "failed to list members" 500) (acc (ListMembers id));
  rows ← with_names memberIDs;
  answer 200 rows.
End admin.
