(* ===== verification/ScimHandlers.v ===== *)
(** * Provisioning by SCIM

    src/internal/handlers/scim.go: the handlers of the resource types User and
    Group. The protocol around them, and the parsing of filters and paths, is
    the SCIM library's; a value it hands over is a JSON value. *)

From stdpp Require Import gmap strings pretty.
From Stdlib Require Import Ascii.
From S2P Require Import Prelude GoLib Sql Schema Stmt AccountSchema Users Tokens Http Front.

Open Scope Z_scope.

(** [interface{}] of a decoded JSON value; numbers and null are not looked at. *)
Inductive any :=
| AnyBool (b : bool)
| AnyString (s : string)
| AnyList (l : list any)
| AnyMap (m : list (string * any))
| AnyOther.

Abbreviation Attributes := (list (string * any)).

(** [m[k]]: keys are distinct. *)
Definition attr (m : Attributes) (k : string) : option any := snd <$> List.find (fun kv => String.eqb (fst kv) k) m.

Definition as_string (v : option any) : option string := match v with Some (AnyString s) => Some s | _ => None end.
Definition as_bool (v : option any) : option bool := match v with Some (AnyBool b) => Some b | _ => None end.
Definition as_map (v : option any) : option Attributes := match v with Some (AnyMap m) => Some m | _ => None end.
Definition as_list (v : option any) : option (list any) := match v with Some (AnyList l) => Some l | _ => None end.

(** ** Helpers *)

Definition nested (m : Attributes) (k sub : string) : option string :=
  inner ← as_map (attr m k); as_string (attr inner sub).

Definition scimAttrsToUser (attrs : Attributes) : string * string * string * string * option bool :=
  (default "" (as_string (attr attrs "userName")), default "" (nested attrs "name" "givenName"), default "" (nested attrs "name" "familyName"),
   default "" (as_string (attr attrs "externalId")), as_bool (attr attrs "active")).

(** The member ids of a list: what is not an object with a number as text is
    passed over. *)
Definition member_id (v : any) : list Z :=
  match v with
  | AnyMap m => match as_string (attr m "value") with
                | Some val => match ParseInt val with Some uid => [uid] | None => [] end
                | None => []
                end
  | _ => []
  end.

Definition scimAttrsToGroup (attrs : Attributes) : string * string * list Z :=
  (default "" (as_string (attr attrs "displayName")), default "" (as_string (attr attrs "externalId")),
   match as_list (attr attrs "members") with Some l => flat_map member_id l | None => [] end).

Definition parseMemberValues (value : any) : list Z :=
  match value with
  | AnyList l => flat_map member_id l
  | AnyMap m => member_id (AnyMap m)
  | _ => []
  end.

Definition quote : ascii := ascii_of_N 34.

(** The text up to the next quote. *)
Fixpoint until_quote (s : string) : string :=
  match s with
  | EmptyString => ""
  | String c s' => if Ascii.eqb c quote then "" else String c (until_quote s')
  end.

Definition member_prefix : string := "value eq " +:+ String quote "".

(** 0: no member named. *)
Definition parseMemberPathFilter (pathStr : string) : Z :=
  match Index pathStr member_prefix with
  | None => 0
  | Some i => default 0 (ParseInt (until_quote (drop_str (i + String.length member_prefix) pathStr)))
  end.

(** ** Resources *)

Record UserResource := mkUserRes {
  ures_ID : string; ures_ExternalID : option string; ures_userName : string; ures_givenName : string; ures_familyName : string; ures_active : bool;
  ures_Created : Z; ures_LastModified : Z;
}.

Definition userToSCIMResource (u : User) : UserResource :=
  mkUserRes (big_String (us_ID u)) (us_ExternalID u) (us_Email u) (us_FirstName u) (us_LastName u) (us_IsActive u) (us_CreatedAt u) (us_UpdatedAt u).

(** A member: value, $ref and display. *)
Record GroupResource := mkGroupRes {
  gres_ID : string; gres_ExternalID : option string; gres_displayName : string; gres_members : list (string * string * string);
  gres_Created : Z; gres_LastModified : Z;
}.

Record Page (R : Type) := mkPage { pg_TotalResults : Z; pg_Resources : list R }.
Arguments mkPage {R} _ _.
Arguments pg_TotalResults {R} _.
Arguments pg_Resources {R} _.

(** Op, Path as text, Value. *)
Record PatchOperation := mkOp { po_Op : string; po_Path : option string; po_Value : any }.

Abbreviation ScimM := (ST error Front).

Definition ScimErrorResourceNotFound (id : string) : error := ENew ("Resource " +:+ id +:+ " not found.").

Definition scim_audit (eventType detail : string) : ScimM unit :=
  modify (fun s => mkFront (fr_ac s) (fr_db s) (fr_told s ++ [Audited eventType "info" None detail])).

Definition scim_id (id : string) : ScimM Z := match ParseInt id with Some n => mret n | None => fail (ScimErrorResourceNotFound id) end.

Definition text_id (z : Z) : string := big_String z.

(** ** Users *)

Definition ScimUserCreate (attributes : Attributes) : ScimM UserResource :=
  let '(email, firstName, lastName, externalID, _) := scimAttrsToUser attributes in
  user ← acc (CreateFromSCIM email firstName lastName externalID);
  ignore (acc (SetDirect (us_ID user) "read" 0)) ;;
  scim_audit "scim.user.create" ("created user " +:+ email +:+ " (id=" +:+ text_id (us_ID user) +:+ ")") ;;
  mret (userToSCIMResource user).

Definition ScimUserGet (id : string) : ScimM UserResource :=
  uid ← scim_id id;
  user ← map_err (fun _ => ScimErrorResourceNotFound id) (acc (GetByID uid));
  mret (userToSCIMResource user).

(** [emailFilter]: the text of a filter [userName eq "..."]. *)
Definition ScimUserGetAll (emailFilter : option string) (StartIndex Count : Z) : ScimM (Page UserResource) :=
  match emailFilter with
  | Some e =>
      u ← try (acc (GetByEmail e));
      mret (match u with Ok u => mkPage 1 [userToSCIMResource u] | Err _ => mkPage 0 [] end)
  | None =>
      let off := if 0 <? StartIndex then StartIndex - 1 else 0 in
      let count := if Count <=? 0 then 100 else Count in
      '(us, total) ← acc (UserList count off);
      mret (mkPage total (map userToSCIMResource us))
  end.

Definition is_active_now (uid : Z) : ScimM bool :=
  pre ← try (acc (GetByID uid)); mret (match pre with Ok pre => us_IsActive pre | Err _ => false end).

Definition revoke_deactivated (deactivating : bool) (uid : Z) : ScimM unit :=
  if deactivating then ignore (acc (RevokeAllByUser uid 0 "user deactivated via SCIM")) else mret tt.

Definition ScimUserReplace (id : string) (attributes : Attributes) : ScimM UserResource :=
  uid ← scim_id id;
  let '(email, firstName, lastName, externalID, isActive) := scimAttrsToUser attributes in
  let ext := if String.eqb externalID "" then None else Some externalID in
  deactivating ← (if bool_decide (isActive = Some false) then is_active_now uid else mret false);
  acc (UpdateFromSCIM uid email firstName lastName ext isActive) ;;
  revoke_deactivated deactivating uid ;;
  user ← acc (GetByID uid);
  scim_audit "scim.user.replace" ("replaced user " +:+ text_id uid) ;;
  mret (userToSCIMResource user).

Definition ScimUserDelete (id : string) : ScimM unit :=
  uid ← scim_id id;
  acc (RevokeAllByUser uid 0 "user deleted via SCIM") ;;
  acc (SoftDelete uid) ;;
  scim_audit "scim.user.delete" ("soft-deleted user " +:+ text_id uid).

(** The attributes a patch changes. *)
Record patched := mkPatched { pt_email : string; pt_first : string; pt_last : string; pt_ext : string; pt_active : bool }.

Definition applyUserAttrsFromMap (m : Attributes) (p : patched) : patched :=
  mkPatched (default (pt_email p) (as_string (attr m "userName"))) (default (pt_first p) (nested m "name" "givenName"))
    (default (pt_last p) (nested m "name" "familyName")) (default (pt_ext p) (as_string (attr m "externalId")))
    (default (pt_active p) (as_bool (attr m "active"))).

Definition apply_user_op (p : patched) (op : PatchOperation) : patched :=
  let path := default "" (po_Path op) in
  let v := Some (po_Value op) in
  if negb (String.eqb (po_Op op) "replace" || String.eqb (po_Op op) "add") then p else
  if String.eqb path "active" then mkPatched (pt_email p) (pt_first p) (pt_last p) (pt_ext p) (default (pt_active p) (as_bool v)) else
  if String.eqb path "name.givenName" then mkPatched (pt_email p) (default (pt_first p) (as_string v)) (pt_last p) (pt_ext p) (pt_active p) else
  if String.eqb path "name.familyName" then mkPatched (pt_email p) (pt_first p) (default (pt_last p) (as_string v)) (pt_ext p) (pt_active p) else
  if String.eqb path "userName" then mkPatched (default (pt_email p) (as_string v)) (pt_first p) (pt_last p) (pt_ext p) (pt_active p) else
  if String.eqb path "externalId" then mkPatched (pt_email p) (pt_first p) (pt_last p) (default (pt_ext p) (as_string v)) (pt_active p) else
  if String.eqb path "" then match as_map v with Some m => applyUserAttrsFromMap m p | None => p end else p.

Definition ScimUserPatch (id : string) (operations : list PatchOperation) : ScimM UserResource :=
  uid ← scim_id id;
  user ← map_err (fun _ => ScimErrorResourceNotFound id) (acc (GetByID uid));
  let p := fold_left apply_user_op operations
             (mkPatched (us_Email user) (us_FirstName user) (us_LastName user) (default "" (us_ExternalID user)) (us_IsActive user)) in
  acc (UpdateFromSCIM uid (pt_email p) (pt_first p) (pt_last p) (Some (pt_ext p)) (Some (pt_active p))) ;;
  revoke_deactivated (us_IsActive user && negb (pt_active p)) uid ;;
  user ← acc (GetByID uid);
  scim_audit "scim.user.patch" ("patched user " +:+ text_id uid) ;;
  mret (userToSCIMResource user).

(** ** Groups *)

Fixpoint member_rows (ids : list Z) : ScimM (list (string * string * string)) :=
  match ids with
  | [] => mret []
  | uid :: ids =>
      u ← try (acc (GetByID uid));
      rest ← member_rows ids;
      mret ((text_id uid, "Users/" +:+ text_id uid, match u with Ok u => us_Email u | Err _ => "" end) :: rest)
  end.

Definition groupToResource (g : Group) : ScimM GroupResource :=
  ids ← try (acc (ListMembers (g_ID g)));
  members ← member_rows (match ids with Ok ids => ids | Err _ => [] end);
  mret (mkGroupRes (text_id (g_ID g)) (g_ExternalID g) (g_Name g) members (g_CreatedAt g) (g_UpdatedAt g)).

(** The members one by one, the errors dropped. *)
Fixpoint each_member (f : Z -> AcM unit) (ids : list Z) : ScimM unit :=
  match ids with
  | [] => mret tt
  | uid :: ids => ignore (acc (f uid)) ;; each_member f ids
  end.

Definition set_external (gid : Z) (externalID : string) : ScimM unit :=
  if String.eqb externalID "" then mret tt else ignore (acc (SetGroupExternalID gid externalID)).

Definition ScimGroupCreate (attributes : Attributes) : ScimM GroupResource :=
  let '(displayName, externalID, memberIDs) := scimAttrsToGroup attributes in
  group ← acc (GroupCreate displayName "" "read");
  set_external (g_ID group) externalID ;;
  each_member (fun uid => AddMember (g_ID group) uid 0) memberIDs ;;
  group ← acc (GroupGetByID (g_ID group));
  scim_audit "scim.group.create" ("created group " +:+ displayName +:+ " (id=" +:+ text_id (g_ID group) +:+ ")") ;;
  groupToResource group.

Definition ScimGroupGet (id : string) : ScimM GroupResource :=
  gid ← scim_id id;
  group ← map_err (fun _ => ScimErrorResourceNotFound id) (acc (GroupGetByID gid));
  groupToResource group.

Fixpoint group_rows (gs : list Group) : ScimM (list GroupResource) :=
  match gs with
  | [] => mret []
  | g :: gs =>
      r ← try (groupToResource g);
      rest ← group_rows gs;
      mret (match r with Ok r => r :: rest | Err _ => rest end)
  end.

Definition ScimGroupGetAll (StartIndex Count : Z) : ScimM (Page GroupResource) :=
  groups ← acc GroupList;
  let total := Z.of_nat (length groups) in
  let start := if 0 <? StartIndex then StartIndex - 1 else 0 in
  let start := if total <? start then total else start in
  let end_ := start + Count in
  let end_ := if (total <? end_) || (Count <=? 0) then total else end_ in
  rows ← group_rows (firstn (Z.to_nat (end_ - start)) (skipn (Z.to_nat start) groups));
  mret (mkPage total rows).

Definition ScimGroupReplace (id : string) (attributes : Attributes) : ScimM GroupResource :=
  gid ← scim_id id;
  let '(displayName, externalID, memberIDs) := scimAttrsToGroup attributes in
  acc (GroupUpdate gid displayName "" "" None) ;;
  set_external gid externalID ;;
  acc (ReplaceMembers gid memberIDs 0) ;;
  group ← acc (GroupGetByID gid);
  scim_audit "scim.group.replace" ("replaced group " +:+ text_id gid) ;;
  groupToResource group.

Definition ScimGroupDelete (id : string) : ScimM unit :=
  gid ← scim_id id;
  acc (GroupDelete gid) ;;
  scim_audit "scim.group.delete" ("deleted group " +:+ text_id gid).

Definition apply_group_op (gid : Z) (op : PatchOperation) : ScimM unit :=
  let path := default "" (po_Path op) in
  if String.eqb (po_Op op) "replace" then
    if String.eqb path "displayName" then
      match po_Value op with AnyString v => ignore (acc (GroupUpdate gid v "" "" None)) | _ => mret tt end
    else mret tt
  else if String.eqb (po_Op op) "add" then
    if String.eqb path "members" then each_member (fun uid => AddMember gid uid 0) (parseMemberValues (po_Value op)) else mret tt
  else if String.eqb (po_Op op) "remove" then
    (if String.eqb path "members" then each_member (RemoveMember gid) (parseMemberValues (po_Value op)) else mret tt) ;;
    match po_Path op with
    | Some pathStr => let uid := parseMemberPathFilter pathStr in if 0 <? uid then ignore (acc (RemoveMember gid uid)) else mret tt
    | None => mret tt
    end
  else mret tt.

Fixpoint apply_group_ops (gid : Z) (ops : list PatchOperation) : ScimM unit :=
  match ops with
  | [] => mret tt
  | op :: ops => apply_group_op gid op ;; apply_group_ops gid ops
  end.

Definition ScimGroupPatch (id : string) (operations : list PatchOperation) : ScimM GroupResource :=
  gid ← scim_id id;
  apply_group_ops gid operations ;;
  group ← acc (GroupGetByID gid);
  scim_audit "scim.group.patch" ("patched group " +:+ text_id gid) ;;
  groupToResource group.
