(* ===== verification/OidcHandlers.v ===== *)
(** * Single sign-on, as requests see it

    src/internal/handlers/oidc_auth.go and admin_oidc.go, and of
    src/internal/services/oidc_login.go the start of a login and the state
    cookie. The random texts, the random bytes of the envelopes and the PKCE
    verifier are arguments; the authorize URL is the OAuth library's. *)

From stdpp Require Import gmap strings pretty.
From Stdlib Require Import Ascii.
From S2P Require Import Prelude GoLib Hex Sql Schema Stmt Settings Keyring AccountSchema Users Oidc Guards Webhooks Http Base64 Front AuthHandlers AdminHandlers.

Open Scope Z_scope.

(** ** The state cookie *)

(** [json.Unmarshal] into the payload, and into a map of strings. *)
Class OidcJson := {
  Unmarshal_state : string -> result error oidcStatePayload;
  Unmarshal_params : string -> result error (list (string * string));
}.

Definition Marshal_state (p : oidcStatePayload) : string :=
  json_object ([("p", json_int (sp_ProviderID p)); ("s", json_string (sp_State p)); ("n", json_string (sp_Nonce p)); ("v", json_string (sp_CodeVerifier p));
    ("r", json_string (sp_RedirectURL p))] ++ (if sp_LinkToUserID p =? 0 then [] else [("l", json_int (sp_LinkToUserID p))]) ++ [("e", json_int (sp_Exp p))]).

Section cookie.
Context {aead : Aead} {oj : OidcJson}.

Definition encodeOIDCStateCookie (rnd : option (list Z)) (key : string) (p : oidcStatePayload) : result error string :=
  match Encrypt rnd key (Marshal_state p) with
  | Err e => Err e
  | Ok enc => Ok (raw_encode (bytes_N enc))
  end.

Definition decodeOIDCStateCookie (key cookieValue : string) : result error oidcStatePayload :=
  match raw_decode cookieValue with
  | None => Err (ENew "base64 decode: ")
  | Some encBytes =>
      match Decrypt key (String.string_of_list_ascii (map ascii_of_N encBytes)) with
      | Err e => Err (EWrap "aes decrypt" [e])
      | Ok plain => match Unmarshal_state plain with Err e => Err (EWrap "json decode" [e]) | Ok p => Ok p end
      end
  end.

Definition marshalExtraAuthorizeParams (params : list (string * string)) : string :=
  match params with
  | [] => ""
  | _ => json_object (map (fun '(k, v) => (k, json_string v)) (order_by (fun a b => match String.compare (fst a) (fst b) with Gt => false | _ => true end) params))
  end.

Definition unmarshalExtraAuthorizeParams (raw : string) : list (string * string) :=
  if String.eqb raw "" then [] else match Unmarshal_params raw with Ok m => m | Err _ => [] end.
End cookie.

Definition OIDCStateCookieName : string := "oidc_login_state".
Definition OIDCStateCookieTTL : Z := 10 * 60 * ac_second.

(** [cfg.AuthCodeURL(state, opts...)] of golang.org/x/oauth2: the options are
    set in their order. And the S256 challenge of a verifier. *)
Record OauthConfig := mkOauth { oc_ClientID : string; oc_ClientSecret : string; oc_Issuer : string; oc_RedirectURL : string; oc_Scopes : list string }.

Class Oauth := { AuthCodeURL : OauthConfig -> string -> list (string * string) -> string; S256Challenge : string -> string }.

Section handlers.
Context {aead : Aead} {idp : Idp} {oj : OidcJson} {oa : Oauth} {jwt : Jwt}.
(** The keyrings of the wallets and of the sessions, and the configured base URL. *)
Context (walletKR jwtKR : Keyring) (BaseURL : string).

(** What a login draws: state, nonce, verifier, and the nonce of the cookie. *)
Record Draws := mkDraws { dr_state : string; dr_nonce : string; dr_verifier : string; dr_cookie : option (list Z) }.

Definition BuildAuthorizeURL (d : Draws) (providerID : Z) (RedirectURL : string) (LinkToUserID : Z) : AcM (string * string) :=
  provider ← ProviderGetByID providerID;
  if negb (op_IsEnabled provider) then fail (ESentinel ErrOIDCProviderDisabled) else
  map_err (fun e => EWrap "oidc discovery" [e]) (of_result (idp_discover (op_IssuerURL provider))) ;;
  secret ← map_err (fun e => EWrap "decrypt provider secret" [e]) (of_result (kr_Decrypt walletKR (op_EncryptedSecret provider)));
  let cfg := mkOauth (op_ClientID provider) secret (op_IssuerURL provider) RedirectURL (splitScopes (op_Scopes provider)) in
  let authOpts := [("nonce", dr_nonce d); ("code_challenge_method", "S256"); ("code_challenge", S256Challenge (dr_verifier d))]
                  ++ unmarshalExtraAuthorizeParams (op_ExtraAuthorizeParams provider) in
  let authURL := AuthCodeURL cfg (dr_state d) authOpts in
  now ← clock_now;
  let payload := mkState providerID (dr_state d) (dr_nonce d) (dr_verifier d) RedirectURL LinkToUserID ((now + OIDCStateCookieTTL) / ac_second) in
  cookieValue ← of_result (encodeOIDCStateCookie (dr_cookie d) (Primary walletKR) payload);
  mret (authURL, cookieValue).

Record publicOIDCProvider := mkPublicProvider { pp_ID : Z; pp_Name : string; pp_DisplayName : string }.

Definition ListOIDCProviders : FrontM (Z * list publicOIDCProvider) :=
  providers ← or_refuse (fun _ => jsonError "failed to list providers" 500) (acc ProviderList);
  answer 200 (map (fun p => mkPublicProvider (op_ID p) (op_Name p) (op_DisplayName p)) (select op_IsEnabled providers)).

(** [strings.TrimRight(s, "/")]. *)
Definition trim_slashes (s : string) : string :=
  String.string_of_list_ascii (rev ((fix drop l := match l with c :: l' => if Ascii.eqb c "/" then drop l' else l | [] => [] end) (rev (String.list_ascii_of_string s)))).

(** [secure]: TLS, or the proxy says so. *)
Definition oidcCallbackURL (secure : bool) (Host : string) : string :=
  if negb (String.eqb BaseURL "") then trim_slashes BaseURL +:+ "/api/v2/auth/oidc/callback"
  else (if secure then "https" else "http") +:+ "://" +:+ Host +:+ "/api/v2/auth/oidc/callback".

Definition setOIDCStateCookie (secure : bool) (value : string) : FrontM unit :=
  tell (SetCookie (mkCookie OIDCStateCookieName value (Z.quot OIDCStateCookieTTL ac_second) true secure)).

Definition clearOIDCStateCookie (secure : bool) : FrontM unit := tell (SetCookie (mkCookie OIDCStateCookieName "" (-1) true secure)).

Definition authorize_refusal (err : error) : Refusal :=
  if errors_is err ErrOIDCProviderDisabled then jsonError "provider is disabled" 403 else
  if errors_is err ErrOIDCProviderNotFound then jsonError "provider not found" 404 else
  jsonError ("failed to build authorize URL: " +:+ Error_ err) 500.

(** Answers 302 with the target. *)
Definition OIDCAuthorize (d : Draws) (secure : bool) (Host providerId : string) : FrontM (Z * string) :=
  providerID ← path_id providerId "invalid provider id";
  '(authURL, cookieValue) ← or_refuse authorize_refusal (acc (BuildAuthorizeURL d providerID (oidcCallbackURL secure Host) 0));
  auditEvent "sso_authorize_started" "info" None ("provider=" +:+ big_String providerID) ;;
  setOIDCStateCookie secure cookieValue ;;
  answer 302 authURL.

Definition oidcErrorCode (err : error) : string :=
  if errors_is err ErrOIDCNoAccount then "no_account" else
  if errors_is err ErrOIDCEmailCollision then "email_exists" else
  if errors_is err ErrOIDCStateCookieMissing || errors_is err ErrOIDCStateExpired || errors_is err ErrOIDCStateMismatch || errors_is err ErrOIDCNonceMismatch
  then "session_expired" else
  if errors_is err ErrOIDCMissingEmail then "missing_email" else
  if errors_is err ErrOIDCProviderDisabled then "provider_disabled" else "internal".

(** [idpErr], [state], [code]: of the query. [rnd]: the bytes of the CSRF token. *)
Definition OIDCCallback (rnd : result error (list Z)) (secure : bool) (cookieValue idpErr state code : string) : FrontM (Z * string) :=
  if negb (String.eqb idpErr "") then
    auditEvent "sso_login_failed" "warn" None ("idp_error: " +:+ idpErr) ;;
    clearOIDCStateCookie secure ;;
    answer 302 ("/login?error=" +:+ idpErr)
  else
  clearOIDCStateCookie secure ;;
  r ← attempt (acc (HandleCallback walletKR (decodeOIDCStateCookie (Primary walletKR)) cookieValue state code));
  match r with
  | Err err =>
      auditEvent "sso_login_failed" "warn" None (oidcErrorCode err) ;;
      answer 302 ("/login?error=" +:+ oidcErrorCode err)
  | Ok outcome =>
      if negb (co_LinkedUserID outcome =? 0) then
        auditEvent "sso_identity_linked" "info" (Some (co_LinkedUserID outcome)) "" ;;
        answer 302 "/profile?linked=1"
      else
      match co_LoggedInUser outcome with
      | None => answer 302 "/login?error=internal"
      | Some user =>
          expiryHours ← jwt_expiry_hours;
          now ← gets (fun s => ac_now (tables (fr_ac s)));
          match GenerateToken now (Primary jwtKR) (us_ID user) (us_Email user) expiryHours with
          | Err _ => answer 302 "/login?error=internal"
          | Ok token =>
              attempt (acc (UpdateLastLogin (us_ID user))) ;;
              auditEvent "sso_login" "info" (Some (us_ID user)) (if co_IsNewUser outcome then "sso auto-provisioned" else "sso") ;;
              match newCSRFToken rnd with
              | Err _ => answer 302 "/login?error=internal"
              | Ok _ =>
                  setSessionCookies rnd secure token expiryHours ;;
                  answer 302 (if co_IsNewUser outcome then "/?welcome=1" else "/")
              end
          end
      end
  end.

Definition signed_in (userID : Z) : FrontM unit := require (negb (userID =? 0)) (jsonError "unauthorized" 401).

Definition OIDCLinkStart (d : Draws) (secure : bool) (Host : string) (userID : Z) (providerId : string) : FrontM (Z * string) :=
  signed_in userID ;;
  providerID ← path_id providerId "invalid provider id";
  '(authURL, cookieValue) ← or_refuse authorize_refusal (acc (BuildAuthorizeURL d providerID (oidcCallbackURL secure Host) userID));
  setOIDCStateCookie secure cookieValue ;;
  answer 200 authURL.

Definition OIDCUnlinkIdentity (userID : Z) (identityId : string) : FrontM (Z * string) :=
  signed_in userID ;;
  identityID ← path_id identityId "invalid identity id";
  or_refuse (fun err => if errors_is err ErrOIDCCannotUnlinkLast then jsonErrorWithCode "cannot unlink your only login method" "last_login_method" 409
                        else jsonError (Error_ err) 400)
    (acc (UnlinkIdentity identityID userID)) ;;
  auditEvent "sso_identity_unlinked" "info" (Some userID) ("identity=" +:+ big_String identityID) ;;
  answer 204 "".

Definition ListMyOIDCIdentities (userID : Z) : FrontM (Z * list oidcIdentityResponse) :=
  signed_in userID ;;
  identities ← or_refuse (fun _ => jsonError "failed to list identities" 500) (acc (ListIdentitiesForUser userID));
  providers ← or_zero [] (acc ProviderList);
  answer 200 (map (fun i => mkIdentityResp (oi_ID i) (oi_ProviderID i) (provider_name providers (oi_ProviderID i)) (oi_Subject i)) identities).

Definition update_failed (err : error) : Refusal := jsonError ("failed to update provider: " +:+ Error_ err) 500.

Definition AdminSetOIDCExtraAuthorizeParams (id : string) (body : option (list (string * string))) : FrontM (Z * bool) :=
  id ← path_id id "invalid provider id";
  params ← decoded body invalid_body;
  require (forallb (fun kv => negb (String.eqb (TrimSpace (fst kv)) "")) params) (jsonError "extra_authorize_params keys must be non-empty" 400) ;;
  or_refuse update_failed (acc (SetExtraAuthorizeParams id (marshalExtraAuthorizeParams params))) ;;
  answer 200 true.

Definition bool_text (b : bool) : string := if b then "true" else "false".

Definition AdminSetOIDCAutoProvision (callerID : Z) (id : string) (body : option (bool * Z)) : FrontM (Z * bool) :=
  id ← path_id id "invalid provider id";
  '(auto, group) ← decoded body invalid_body;
  or_refuse update_failed (acc (SetAutoProvision id auto group)) ;;
  auditEvent "oidc_auto_provision_changed" "info" (Some callerID)
    ("provider=" +:+ big_String id +:+ " auto_provision=" +:+ bool_text auto +:+ " default_group=" +:+ big_String group) ;;
  answer 200 true.

Definition AdminSetOIDCRequireEmailVerified (callerID : Z) (id : string) (body : option bool) : FrontM (Z * bool) :=
  id ← path_id id "invalid provider id";
  req ← decoded body invalid_body;
  or_refuse update_failed (acc (SetRequireEmailVerified id req)) ;;
  auditEvent "oidc_require_email_verified_changed" "info" (Some callerID) ("provider=" +:+ big_String id +:+ " require_email_verified=" +:+ bool_text req) ;;
  answer 200 true.

(** ** admin_oidc.go *)

(** The provider without its secret. *)
Record oidcProviderResponse := mkProviderResp {
  or_ID : Z; or_Name : string; or_DisplayName : string; or_IssuerURL : string; or_ClientID : string; or_Scopes : string; or_IsEnabled : bool;
  or_AutoProvision : bool; or_RequireEmailVerified : bool; or_DefaultGroupID : option Z; or_ExtraAuthorizeParams : list (string * string);
}.

Definition toOIDCProviderResponse (p : OIDCProvider) : oidcProviderResponse :=
  mkProviderResp (op_ID p) (op_Name p) (op_DisplayName p) (op_IssuerURL p) (op_ClientID p) (op_Scopes p) (op_IsEnabled p) (op_AutoProvision p)
    (op_RequireEmailVerified p) (op_DefaultGroupID p) (unmarshalExtraAuthorizeParams (op_ExtraAuthorizeParams p)).

Record oidcRequest := mkOidcReq {
  oq_Name : string; oq_DisplayName : string; oq_IssuerURL : string; oq_ClientID : string; oq_ClientSecret : string; oq_Scopes : string; oq_IsEnabled : bool;
}.

(** admin_wallets.go: [configured]: the instance has a wallet key. *)
Definition requireWalletKey (configured : bool) : FrontM unit :=
  require configured (jsonError "wallet/OIDC management is unavailable on this instance (no wallet encryption key configured); perform it on the writer instance" 503).

Definition AdminListOIDCProviders : FrontM (Z * list oidcProviderResponse) :=
  providers ← or_refuse (fun _ => jsonError "failed to list OIDC providers" 500) (acc ProviderList);
  answer 200 (map toOIDCProviderResponse providers).

Definition AdminCreateOIDCProvider (configured : bool) (rnd : option (list Z)) (callerID : Z) (body : option oidcRequest) : FrontM (Z * oidcProviderResponse) :=
  requireWalletKey configured ;;
  req ← decoded body invalid_body;
  require (negb (String.eqb (oq_Name req) "" || String.eqb (oq_IssuerURL req) "" || String.eqb (oq_ClientID req) "" || String.eqb (oq_ClientSecret req) ""))
    (jsonError "name, issuer_url, client_id, and client_secret are required" 400) ;;
  let display := if String.eqb (oq_DisplayName req) "" then oq_Name req else oq_DisplayName req in
  provider ← or_refuse (fun _ => jsonError "failed to create OIDC provider" 500)
    (acc (ProviderCreate walletKR rnd (oq_Name req) display (oq_IssuerURL req) (oq_ClientID req) (oq_ClientSecret req) (oq_Scopes req)));
  auditEvent "oidc_provider_created" "info" (Some callerID)
    ("id=" +:+ big_String (op_ID provider) +:+ " name=" +:+ op_Name provider +:+ " issuer=" +:+ op_IssuerURL provider +:+ " client_id=" +:+ op_ClientID provider) ;;
  answer 201 (toOIDCProviderResponse provider).

Definition AdminUpdateOIDCProvider (configured : bool) (rnd : option (list Z)) (callerID : Z) (id : string) (body : option oidcRequest) : FrontM (Z * oidcProviderResponse) :=
  requireWalletKey configured ;;
  id ← path_id id "invalid provider id";
  req ← decoded body invalid_body;
  pre ← attempt (acc (ProviderGetByID id));
  provider ← or_refuse (fun err => if errors_is err ErrOIDCProviderNotFound then jsonError "OIDC provider not found" 404 else jsonError "failed to update OIDC provider" 500)
    (acc (ProviderUpdate walletKR rnd id (oq_Name req) (oq_DisplayName req) (oq_IssuerURL req) (oq_ClientID req) (oq_ClientSecret req) (oq_Scopes req) (oq_IsEnabled req)));
  auditEvent "oidc_provider_updated" "info" (Some callerID) ("id=" +:+ big_String id) ;;
  match pre with
  | Ok pre =>
      if Bool.eqb (op_IsEnabled pre) (op_IsEnabled provider) then mret tt else
      auditEvent (if op_IsEnabled provider then "oidc_provider_enabled" else "oidc_provider_disabled") "info" (Some callerID) ("id=" +:+ big_String id)
  | Err _ => mret tt
  end ;;
  answer 200 (toOIDCProviderResponse provider).

Definition AdminDeleteOIDCProvider (callerID : Z) (id : string) : FrontM (Z * string) :=
  id ← path_id id "invalid provider id";
  or_refuse (fun err => if errors_is err ErrOIDCProviderNotFound then jsonError "OIDC provider not found" 404 else jsonError "failed to delete OIDC provider" 500)
    (acc (ProviderDelete id)) ;;
  auditEvent "oidc_provider_deleted" "warn" (Some callerID) ("id=" +:+ big_String id) ;;
  answer 200 "OIDC provider deleted".
End handlers.
