(* ===== verification/Triple.v ===== *)
(** * Hoare triples for handlers

    [triple P m Q X]: from a state with [P], [m] ends with a value and a state
    that [Q] relates, or with an error in a state with [X]. *)

From S2P Require Import Prelude GoLib Schema Http.

Definition triple {E S A} (P : S -> Prop) (m : ST E S A) (Q : A -> S -> Prop) (X : S -> Prop) : Prop :=
  forall s, P s -> wp m (fun r s' => match r with Ok a => Q a s' | Err _ => X s' end) s.

(** Compute a goal's primitive effects. *)
Ltac run_goal := unfold mbind, ST_bind, mret, ST_ret, get, gets, modify, fail; cbn.

Section rules.
Context {E S : Type}.
Implicit Types (P X : S -> Prop).

Lemma triple_run {A} P (m : ST E S A) Q X s r s' : triple P m Q X -> P s -> m s = (r, s') -> match r with Ok a => Q a s' | Err _ => X s' end.
Proof. intros Hm HP Hr. specialize (Hm s HP). unfold wp in Hm. by rewrite Hr in Hm. Qed.

Lemma triple_bind {A B} P (m : ST E S A) Q X (f : A -> ST E S B) R :
  triple P m Q X -> (forall a, triple (Q a) (f a) R X) -> triple P (m ≫= f) R X.
Proof.
  intros Hm Hf s HP. apply wp_bind. eapply wp_mono; [by apply Hm|]. intros [a|e] s' H; [|done]. by apply Hf.
Qed.

Lemma triple_conseq {A} P P' (m : ST E S A) Q Q' X X' :
  triple P' m Q' X' -> (forall s, P s -> P' s) -> (forall a s, Q' a s -> Q a s) -> (forall s, X' s -> X s) -> triple P m Q X.
Proof. intros Hm HP HQ HX s Hs. eapply wp_mono; [by apply Hm, HP|]. intros [a|e] s'; eauto. Qed.

Lemma triple_pre {A} P P' (m : ST E S A) Q X : triple P' m Q X -> (forall s, P s -> P' s) -> triple P m Q X.
Proof. intros Hm HP. eapply triple_conseq; eauto. Qed.

Lemma triple_post {A} P (m : ST E S A) Q Q' X X' :
  triple P m Q' X' -> (forall a s, Q' a s -> Q a s) -> (forall s, X' s -> X s) -> triple P m Q X.
Proof. intros Hm HQ HX. eapply triple_conseq; eauto. Qed.

Lemma triple_ret {A} P (a : A) (Q : A -> S -> Prop) X : (forall s, P s -> Q a s) -> triple P (mret a : ST E S A) Q X.
Proof. intros H s Hs. apply wp_ret. by apply H. Qed.

Lemma triple_fail {A} P (e : E) (Q : A -> S -> Prop) X : (forall s, P s -> X s) -> triple P (fail e : ST E S A) Q X.
Proof. intros H s Hs. apply wp_fail. by apply H. Qed.

Lemma triple_get P X : triple P (get : ST E S S) (fun a s => P s /\ a = s) X.
Proof. intros s Hs. by split. Qed.

Lemma triple_modify P (f : S -> S) (Q : unit -> S -> Prop) X : (forall s, P s -> Q tt (f s)) -> triple P (modify f : ST E S unit) Q X.
Proof. intros H s Hs. by apply H. Qed.

Lemma triple_of_result {A} P (r : result E A) (Q : A -> S -> Prop) X :
  (forall s, P s -> match r with Ok a => Q a s | Err _ => X s end) -> triple P (of_result r : ST E S A) Q X.
Proof. intros H s Hs. apply wp_of_result. by apply H. Qed.

Lemma triple_try {A} P (m : ST E S A) (Q : result E A -> S -> Prop) X X' :
  triple P m (fun a => Q (Ok a)) X' -> (forall e s, X' s -> Q (Err e) s) -> triple P (try m) Q X.
Proof. intros Hm HX s Hs. apply wp_try. eapply wp_mono; [by apply Hm|]. intros [a|e] s'; eauto. Qed.

Lemma triple_try_keeps {A} P (m : ST E S A) X : triple P m (fun _ => P) P -> triple P (try m) (fun _ => P) X.
Proof. intros Hm. by eapply triple_try with (Q := fun _ => P); [exact Hm|]. Qed.

Lemma triple_ignore {A} P (m : ST E S A) (Q : unit -> S -> Prop) X : triple P m (fun _ => Q tt) (Q tt) -> triple P (ignore m) Q X.
Proof. intros Hm s Hs. apply wp_ignore. eapply wp_mono; [by apply Hm|]. by intros [a|e] s'. Qed.

Lemma triple_ignore_keeps {A} P (m : ST E S A) X : triple P m (fun _ => P) P -> triple P (ignore m) (fun _ => P) X.
Proof. intros Hm. by apply (triple_ignore _ _ (fun _ => P)). Qed.

(** What every run respects keeps what is closed under it. *)
Lemma triple_steps {A} (R : S -> S -> Prop) P (m : ST E S A) : steps R m -> (forall s s', R s s' -> P s -> P s') -> triple P m (fun _ => P) P.
Proof. intros Hm HR s Hs. unfold wp. specialize (HR _ _ (Hm s) Hs). by destruct (m s) as [[a|e] s']. Qed.

Lemma triple_zoom {T A} (g : T -> S) (p : S -> T -> T) (m : ST E S A) P Q X (P' : T -> Prop) (Q' : A -> T -> Prop) (X' : T -> Prop) :
  triple P m Q X -> (forall t, P' t -> P (g t)) -> (forall t a s, P' t -> Q a s -> Q' a (p s t)) -> (forall t s, P' t -> X s -> X' (p s t)) ->
  triple P' (zoom g p m) Q' X'.
Proof.
  intros Hm HP HQ HX t Ht. apply wp_zoom. eapply wp_mono; [by apply Hm, HP|]. intros [a|e] s H; eauto.
Qed.
End rules.

(** A fact the precondition states of no state. *)
Lemma triple_pull {E S A} (F : Prop) (P : S -> Prop) (m : ST E S A) Q X : (F -> triple P m Q X) -> triple (fun s => P s /\ F) m Q X.
Proof. intros H s [HP HF]. by apply H. Qed.

Lemma triple_false {E S A} (P : S -> Prop) (m : ST E S A) Q X : (forall s, P s -> False) -> triple P m Q X.
Proof. intros H s Hs. by destruct (H s). Qed.

Section handlers.
Context {S : Type}.
Implicit Types (P X : S -> Prop).

Lemma triple_or_refuse {A} P f (m : ST error S A) Q X : triple P m Q X -> triple P (or_refuse f m) Q X.
Proof. intros Hm s Hs. specialize (Hm s Hs). unfold wp, or_refuse in *. by destruct (m s) as [[a|e] s']. Qed.

Lemma triple_attempt {A} P (m : ST error S A) (Q : result error A -> S -> Prop) X X' :
  triple P m (fun a => Q (Ok a)) X' -> (forall e s, X' s -> Q (Err e) s) -> triple P (attempt m) Q X.
Proof. intros Hm HX s Hs. specialize (Hm s Hs). unfold wp, attempt in *. destruct (m s) as [[a|e] s']; cbn in *; eauto. Qed.

Lemma triple_attempt_keeps {A} P (m : ST error S A) X : triple P m (fun _ => P) P -> triple P (attempt m) (fun _ => P) X.
Proof. intros Hm. by eapply triple_attempt with (Q := fun _ => P); [exact Hm|]. Qed.

Lemma triple_require P b r X : (forall s, P s -> X s) -> triple P (require b r) (fun _ s => P s /\ b = true) X.
Proof. intros H s Hs. unfold require. destruct b; cbn; [done|]. by apply H. Qed.

Lemma triple_refuse {A} P r (Q : A -> S -> Prop) X : (forall s, P s -> X s) -> triple P (refuse r) Q X.
Proof. apply triple_fail. Qed.

Lemma triple_decoded {A} P (o : option A) r X : (forall s, P s -> X s) -> triple P (decoded o r) (fun a s => P s /\ o = Some a) X.
Proof. intros H s Hs. unfold decoded. destruct o; cbn; [done|]. by apply H. Qed.
End handlers.

(** * Two runs side by side

    [rel I R m1 m2]: from states that [I] relates, the computations [m1] and [m2]
    end alike: in states that [I] relates, with values that [R] relates or with
    the same error. *)

Definition ends_alike {E A B} (R : A -> B -> Prop) (r1 : result E A) (r2 : result E B) : Prop :=
  match r1, r2 with Ok a, Ok b => R a b | Err e, Err e' => e = e' | _, _ => False end.

Definition rel {E S A B} (I : S -> S -> Prop) (R : A -> B -> Prop) (m1 : ST E S A) (m2 : ST E S B) : Prop :=
  forall s1 s2, I s1 s2 -> I (snd (m1 s1)) (snd (m2 s2)) /\ ends_alike R (fst (m1 s1)) (fst (m2 s2)).

Section rules.
Context {E S : Type} (I : S -> S -> Prop).

Lemma rel_ret {A B} (R : A -> B -> Prop) a b : R a b -> rel I R (mret a : ST E S A) (mret b : ST E S B).
Proof. by intros H s1 s2 Hs. Qed.

Lemma rel_fail {A B} (R : A -> B -> Prop) (e : E) : rel I R (fail e) (fail e).
Proof. by intros s1 s2 Hs. Qed.

Lemma rel_bind {A B C D} (Q : A -> B -> Prop) (R : C -> D -> Prop) (m1 : ST E S A) (m2 : ST E S B) f1 f2 :
  rel I Q m1 m2 -> (forall a b, Q a b -> rel I R (f1 a) (f2 b)) -> rel I R (m1 ≫= f1) (m2 ≫= f2).
Proof.
  intros Hm Hf s1 s2 Hs. destruct (Hm s1 s2 Hs) as [Hi Hr]. unfold mbind, ST_bind.
  destruct (m1 s1) as [[a|e] t1], (m2 s2) as [[b|e'] t2]; cbn in *; try done. by apply Hf.
Qed.

Lemma rel_weaken {A B} (Q R : A -> B -> Prop) (m1 : ST E S A) (m2 : ST E S B) : rel I Q m1 m2 -> (forall a b, Q a b -> R a b) -> rel I R m1 m2.
Proof.
  intros Hm Hqr s1 s2 Hs. destruct (Hm s1 s2 Hs) as [Hi Hr]. split; [done|]. unfold ends_alike in *.
  destruct (fst (m1 s1)), (fst (m2 s2)); auto.
Qed.

Lemma rel_try {A B} (R : A -> B -> Prop) (m1 : ST E S A) (m2 : ST E S B) : rel I R m1 m2 -> rel I (ends_alike R) (try m1) (try m2).
Proof. intros Hm s1 s2 Hs. destruct (Hm s1 s2 Hs) as [Hi Hr]. unfold try. by destruct (m1 s1), (m2 s2). Qed.

Lemma rel_map_err {A B} (R : A -> B -> Prop) f (m1 : ST E S A) (m2 : ST E S B) : rel I R m1 m2 -> rel I R (map_err f m1) (map_err f m2).
Proof.
  intros Hm s1 s2 Hs. destruct (Hm s1 s2 Hs) as [Hi Hr]. unfold map_err.
  destruct (m1 s1) as [[a|e] t1], (m2 s2) as [[b|e'] t2]; cbn in *; try done. by rewrite Hr.
Qed.

Lemma rel_gets {A B} (R : A -> B -> Prop) (f : S -> A) (g : S -> B) : (forall s1 s2, I s1 s2 -> R (f s1) (g s2)) -> rel I R (gets f : ST E S A) (gets g).
Proof. intros H s1 s2 Hs. split; [done|]. by apply H. Qed.

Lemma rel_modify (f g : S -> S) : (forall s1 s2, I s1 s2 -> I (f s1) (g s2)) -> rel I eq (modify f : ST E S unit) (modify g).
Proof. intros H s1 s2 Hs. split; [by apply H|done]. Qed.

Lemma rel_of_result {A B} (R : A -> B -> Prop) (r1 : result E A) (r2 : result E B) : ends_alike R r1 r2 -> rel I R (of_result r1) (of_result r2).
Proof. by intros H s1 s2 Hs. Qed.

Lemma rel_zoom {T A B} (J : T -> T -> Prop) (R : A -> B -> Prop) (get : S -> T) (put : T -> S -> S) (m1 : ST E T A) (m2 : ST E T B) :
  rel J R m1 m2 -> (forall s1 s2, I s1 s2 -> J (get s1) (get s2)) ->
  (forall s1 s2 t1 t2, I s1 s2 -> J t1 t2 -> I (put t1 s1) (put t2 s2)) -> rel I R (zoom get put m1) (zoom get put m2).
Proof.
  intros Hm Hg Hp s1 s2 Hs. destruct (Hm _ _ (Hg _ _ Hs)) as [Hi Hr]. unfold zoom.
  destruct (m1 (get s1)) as [r1 t1], (m2 (get s2)) as [r2 t2]. split; [by apply Hp|done].
Qed.
End rules.

Section handlers.
Context {S : Type} (I : S -> S -> Prop).

Lemma rel_or_refuse {A B} (R : A -> B -> Prop) f (m1 : ST error S A) (m2 : ST error S B) : rel I R m1 m2 -> rel I R (or_refuse f m1) (or_refuse f m2).
Proof.
  intros Hm s1 s2 Hs. destruct (Hm s1 s2 Hs) as [Hi Hr]. unfold or_refuse.
  destruct (m1 s1) as [[a|e] t1], (m2 s2) as [[b|e'] t2]; cbn in *; try done. by rewrite Hr.
Qed.

Lemma rel_attempt {A B} (R : A -> B -> Prop) (m1 : ST error S A) (m2 : ST error S B) :
  rel I R m1 m2 -> rel I (ends_alike R) (attempt m1) (attempt m2).
Proof. intros Hm s1 s2 Hs. destruct (Hm s1 s2 Hs) as [Hi Hr]. unfold attempt. by destruct (m1 s1), (m2 s2). Qed.

Lemma rel_require b r : rel I eq (require b r) (require b r).
Proof. unfold require. destruct b; [by apply rel_ret|apply rel_fail]. Qed.

Lemma rel_decoded {A} (o : option A) r : rel I eq (decoded o r) (decoded o r).
Proof. unfold decoded. destruct o; [by apply rel_ret|apply rel_fail]. Qed.

Lemma rel_answer {A B} (R : A -> B -> Prop) status a b : R a b -> rel I (fun x y => fst x = fst y /\ R (snd x) (snd y)) (answer status a) (answer status b).
Proof. intros H. by apply rel_ret. Qed.
End handlers.

(** ** Statements over the tables *)

Section statements.
Context (I : Db -> Db -> Prop).
Context (I_faults : forall d1 d2, I d1 d2 -> faults d1 = faults d2).
Context (I_set_faults : forall d1 d2 fs, I d1 d2 -> I (set_faults fs d1) (set_faults fs d2)).

Lemma rel_stmt : rel I eq stmt stmt.
Proof.
  intros d1 d2 H. unfold stmt. rewrite (I_faults d1 d2 H). destruct (faults d2) as [|[e|] fs]; [done|..]; (split; [by apply I_set_faults|done]).
Qed.

Lemma rel_query {A B} (R : A -> B -> Prop) (f : Db -> A) (g : Db -> B) : (forall d1 d2, I d1 d2 -> R (f d1) (g d2)) -> rel I R (query f) (query g).
Proof. intros H. eapply rel_bind; [exact rel_stmt|]. intros _ _ _. by apply rel_gets. Qed.

Lemma rel_query_row {A B} (R : A -> B -> Prop) (f : Db -> option A) (g : Db -> option B) :
  (forall d1 d2, I d1 d2 -> option_relation R (fun _ => False) (fun _ => False) (f d1) (g d2)) -> rel I R (query_row f) (query_row g).
Proof. intros H. eapply rel_bind; [apply rel_query, H|]. intros [a|] [b|] Hab; cbn in *; try done; by apply rel_of_result. Qed.

Lemma rel_exec (f g : Db -> Db) : (forall d1 d2, I d1 d2 -> I (f d1) (g d2)) -> rel I eq (exec f) (exec g).
Proof. intros H. eapply rel_bind; [exact rel_stmt|]. intros _ _ _. by apply rel_modify. Qed.

Definition exits_alike {A B} (R : A -> B -> Prop) (x : tx_exit A) (y : tx_exit B) : Prop :=
  match x, y with Commit a, Commit b => R a b | Abandon a, Abandon b => R a b | _, _ => False end.

Lemma rel_in_tx {A B} (R : A -> B -> Prop) (m1 : DbM (tx_exit A)) (m2 : DbM (tx_exit B)) : rel I (exits_alike R) m1 m2 -> rel I R (in_tx m1) (in_tx m2).
Proof.
  intros Hm. eapply rel_bind; [exact rel_stmt|]. intros _ _ _ d1 d2 Hd. destruct (Hm d1 d2 Hd) as [Hi Hr]. unfold finish_tx, rollback.
  destruct (m1 d1) as [[x|e] t1], (m2 d2) as [[y|e'] t2]; cbn in *; try done.
  - destruct x as [a|a], y as [b|b]; cbn in Hr; try done.
    + destruct (rel_stmt t1 t2 Hi) as [Hi' Hr']. destruct (stmt t1) as [[[]|e] u1], (stmt t2) as [[[]|e'] u2]; cbn in *; try done.
      rewrite (I_faults u1 u2 Hi'). split; [by apply I_set_faults|done].
    + rewrite (I_faults t1 t2 Hi). split; [by apply I_set_faults|done].
  - rewrite (I_faults t1 t2 Hi). split; [by apply I_set_faults|done].
Qed.
End statements.

#[export] Hint Resolve rel_ret rel_fail rel_require rel_decoded rel_answer : rel_db.
