(* ===== verification/Download.v ===== *)
(** * Downloads

    DownloadUpload of src/internal/handlers/uploads.go, over the cache
    (src/internal/downloadcache/), the gate (download_gate.go) and the network.
    A request is one computation; what other requests, the sweeper and the
    operator do to the state they share with it is a schedule of changes, one
    taken before each access to the cache, the flights or the gate, and what the
    selects choose is a schedule of outcomes. Ranges are [http.ServeContent]'s. *)

From stdpp Require Import gmap strings pretty.
From Stdlib Require Import Ascii.
From S2P Require Import Prelude GoLib Hex Sql Schema UploadStore Settings Cache Limiter Http.

Open Scope Z_scope.

(** ** State *)

(** The counters of metrics.go that the handler touches. *)
Record DlMetrics := mkDlMetrics {
  dm_Misses : Z; dm_BytesFetch : Z; dm_PromotedReadThrough : Z; dm_MinUsesRejects : Z; dm_CoalescedWaits : Z; dm_CoalesceTimeouts : Z;
}.

(** What the requests share. *)
Record Shared := mkShared {
  sh_svc : CachedSettings;  (* with the database *)
  sh_store : Store;
  sh_flights : Flight;
  sh_counter : Counter;
  sh_gate : Gate.downloadGate;
  sh_metrics : DlMetrics;
}.

(** The cases of the selects: the channel closed, the timer fired, the client
    went away. *)
Inductive wait := WaitDone | WaitTimeout | WaitGone.

Inductive noted :=
| FileAccess (eventType severity : string) (userID : option Z) (detail : string)
| RetryAfter (seconds : Z).

Record Dl := mkDl {
  d_shared : Shared;
  d_others : list (Shared -> Shared);
  d_waits : list wait;  (* empty: the timer *)
  d_noted : list noted;
}.

Abbreviation DlM := (ST Refusal Dl).

Definition put_sh_svc v s := mkShared v (sh_store s) (sh_flights s) (sh_counter s) (sh_gate s) (sh_metrics s).
Definition put_sh_store v s := mkShared (sh_svc s) v (sh_flights s) (sh_counter s) (sh_gate s) (sh_metrics s).
Definition put_sh_flights v s := mkShared (sh_svc s) (sh_store s) v (sh_counter s) (sh_gate s) (sh_metrics s).
Definition put_sh_counter v s := mkShared (sh_svc s) (sh_store s) (sh_flights s) v (sh_gate s) (sh_metrics s).
Definition put_sh_gate v s := mkShared (sh_svc s) (sh_store s) (sh_flights s) (sh_counter s) v (sh_metrics s).
Definition put_sh_metrics v s := mkShared (sh_svc s) (sh_store s) (sh_flights s) (sh_counter s) (sh_gate s) v.

Definition put_d_shared v s := mkDl v (d_others s) (d_waits s) (d_noted s).

Definition on_shared {A} (m : ST error Shared A) : ST error Dl A := zoom d_shared put_d_shared m.
Definition cached {A} (m : CacheM A) : ST error Dl A := on_shared (zoom sh_store put_sh_store m).
Definition svc {A} (m : SetM A) : ST error Dl A := on_shared (zoom sh_svc put_sh_svc m).

Definition note (n : noted) : DlM unit := modify (fun s => mkDl (d_shared s) (d_others s) (d_waits s) (d_noted s ++ [n])).

Definition meanwhile : DlM unit := modify (fun s =>
  match d_others s with
  | [] => s
  | f :: fs => mkDl (f (d_shared s)) fs (d_waits s) (d_noted s)
  end).

Definition next_wait : DlM wait := fun s =>
  match d_waits s with
  | [] => (Ok WaitTimeout, s)
  | w :: ws => (Ok w, mkDl (d_shared s) (d_others s) ws (d_noted s))
  end.

(** [defer cleanup()]. *)
Definition finally {S A} (m : ST Refusal S A) (cleanup : ST Refusal S unit) : ST Refusal S A := fun s =>
  let '(r, s1) := m s in let '(_, s2) := cleanup s1 in (r, s2).

Definition count (f : DlMetrics -> DlMetrics) : DlM unit := modify (fun s => put_d_shared (put_sh_metrics (f (sh_metrics (d_shared s))) (d_shared s)) s).

Definition add_misses (m : DlMetrics) := mkDlMetrics (dm_Misses m + 1) (dm_BytesFetch m) (dm_PromotedReadThrough m) (dm_MinUsesRejects m) (dm_CoalescedWaits m) (dm_CoalesceTimeouts m).
Definition add_bytes (n : Z) (m : DlMetrics) := mkDlMetrics (dm_Misses m) (dm_BytesFetch m + n) (dm_PromotedReadThrough m) (dm_MinUsesRejects m) (dm_CoalescedWaits m) (dm_CoalesceTimeouts m).
Definition add_promoted (m : DlMetrics) := mkDlMetrics (dm_Misses m) (dm_BytesFetch m) (dm_PromotedReadThrough m + 1) (dm_MinUsesRejects m) (dm_CoalescedWaits m) (dm_CoalesceTimeouts m).
Definition add_rejects (m : DlMetrics) := mkDlMetrics (dm_Misses m) (dm_BytesFetch m) (dm_PromotedReadThrough m) (dm_MinUsesRejects m + 1) (dm_CoalescedWaits m) (dm_CoalesceTimeouts m).
Definition add_waits (m : DlMetrics) := mkDlMetrics (dm_Misses m) (dm_BytesFetch m) (dm_PromotedReadThrough m) (dm_MinUsesRejects m) (dm_CoalescedWaits m + 1) (dm_CoalesceTimeouts m).
Definition add_timeouts (m : DlMetrics) := mkDlMetrics (dm_Misses m) (dm_BytesFetch m) (dm_PromotedReadThrough m) (dm_MinUsesRejects m) (dm_CoalescedWaits m) (dm_CoalesceTimeouts m + 1).

(** Settings whose getters return no error. *)
Definition int_setting (key : string) (fallback lo hi : Z) : DlM Z :=
  r ← attempt (svc (GetIntWithBounds key fallback lo hi)); mret (match r with Ok n => n | Err _ => fallback end).
Definition bool_setting (key : string) (fallback : bool) : DlM bool :=
  r ← attempt (svc (GetBool key fallback)); mret (match r with Ok b => b | Err _ => fallback end).

(** [cache.Open]. *)
Definition cache_open (key : string) : DlM (option File) :=
  meanwhile ;; r ← attempt (cached (Open key)); mret (match r with Ok o => o | Err _ => None end).

Definition begin_flight (key : string) : DlM bool :=
  meanwhile ;;
  s ← get;
  let '((leader, _), f) := Begin key (sh_flights (d_shared s)) in
  modify (fun s => put_d_shared (put_sh_flights f (d_shared s)) s) ;; mret leader.

Definition finish_flight (key : string) : DlM unit :=
  meanwhile ;; modify (fun s => put_d_shared (put_sh_flights (Finish key (sh_flights (d_shared s))) (d_shared s)) s).

Definition bump (key : string) : DlM Z :=
  s ← get;
  let '(n, c) := Bump key (sh_counter (d_shared s)) in
  modify (fun s => put_d_shared (put_sh_counter c (d_shared s)) s) ;; mret n.

Definition release : DlM unit :=
  meanwhile ;; modify (fun s => put_d_shared (put_sh_gate (Gate.release (sh_gate (d_shared s))) (d_shared s)) s).

(** [gate.acquire]: [fuel] wakings. *)
Fixpoint acquire (fuel : nat) : DlM bool :=
  limit ← int_setting "max_concurrent_downloads" 8 1 1000;
  meanwhile ;;
  s ← get;
  let '(r, g) := Gate.try_acquire limit (sh_gate (d_shared s)) in
  modify (fun s => put_d_shared (put_sh_gate g (d_shared s)) s) ;;
  match r with
  | Gate.Holding => mret true
  | _ =>
      w ← next_wait;
      match w, fuel with
      | WaitDone, S fuel => acquire fuel
      | _, _ => mret false
      end
  end.

(** ** Validators *)

Definition downloadCacheControl : string := "private, max-age=31536000, immutable".

Definition dquote : string := String (ascii_of_N 34) "".

Definition some_text (o : option string) : option string := match o with Some s => if String.eqb s "" then None else Some s | None => None end.

(** The identifier the validator and the cache key are made of. *)
Definition content_id (u : Upload) : option string :=
  match some_text (u_data_map u) with Some id => Some id | None => some_text (u_datamap_address u) end.

Definition downloadETag (u : Upload) : string :=
  match content_id u with Some id => dquote +:+ KeyForIdentifier id +:+ dquote | None => "" end.

Definition etagMatches (ifNoneMatch etag : string) : bool :=
  if String.eqb ifNoneMatch "" then false else
  if String.eqb (TrimSpace ifNoneMatch) "*" then true else
  existsb (fun c => String.eqb (TrimPrefix (TrimSpace c) "W/") etag) (Split ifNoneMatch ",").

(** ** The handler *)

(** The headers of a download. *)
Record download_headers := mkHeaders { dh_Disposition : string; dh_ContentType : string; dh_ETag : option string (* with Cache-Control *) }.

Inductive download_answer :=
| NotModified (etag : string)
| Served (h : download_headers) (fd : File)
| Disconnected.

(** antd: what a fetch leaves at the path it writes to, and its outcome; which
    errors it means by payment and not found. *)
Class Network := {
  net_FileGet : string -> option File * result error unit;
  net_FileGetPublic : string -> option File * result error unit;
  net_is_payment : error -> bool;
  net_is_not_found : error -> bool;
}.

Section download.
Context {net : Network}.
(** The configured override of the byte budget, and the name drawn for the
    temporary file in its directory. *)
Context (DownloadCacheMaxBytes : option Z) (tempPath : string).

Definition serve_headers (u : Upload) : download_headers :=
  mkHeaders ("attachment; filename=" +:+ dquote +:+ u_original_filename u +:+ dquote) (u_content_type u)
    (if String.eqb (downloadETag u) "" then None else Some (downloadETag u)).

Definition visibility_text (u : Upload) : string := match u_visibility u with Public => "public" | Private => "private" end.

Definition access_detail (u : Upload) : string :=
  "uuid=" +:+ u_uuid u +:+ " filename=" +:+ u_original_filename u +:+ " visibility=" +:+ visibility_text u.

Definition serveCacheHit (userID : Z) (u : Upload) (fd : File) : DlM download_answer :=
  note (FileAccess "file_downloaded" "info" (Some userID) (access_detail u +:+ " cache=hit")) ;;
  mret (Served (serve_headers u) fd).

Inductive fill := Hit (fd : File) | Lead | Alone | Gone.

Definition maxFillRounds : nat := 4.

(** [rounds]: the rounds a follower has left. *)
Fixpoint fill_loop (rounds : nat) (waited : bool) (key : string) : DlM fill :=
  o ← cache_open key;
  match o with
  | Some fd => mret (Hit fd)
  | None =>
      leader ← begin_flight key;
      if (leader : bool) then mret Lead else
      match rounds with
      | O => count add_timeouts ;; mret Alone
      | S rounds =>
          (if waited then mret tt else count add_waits) ;;
          w ← next_wait;
          match w with
          | WaitDone => fill_loop rounds true key
          | WaitTimeout => count add_timeouts ;; mret Alone
          | WaitGone => mret Gone
          end
      end
  end.

(** A file written, whole or in part, by the daemon. *)
Definition write_file (p : string) (f : option File) (s : Store) : Store :=
  match f with Some f => with_disk (<[p := f]> (disk s)) s | None => s end.

Definition fetch (get : string -> option File * result error unit) (id : string) : DlM unit :=
  meanwhile ;;
  let '(file, out) := get id in
  modify (fun s => put_d_shared (put_sh_store (write_file tempPath file (sh_store (d_shared s))) (d_shared s)) s) ;;
  match out with
  | Ok _ => mret tt
  | Err err => refuse (jsonAntdError (net_is_payment err) (net_is_not_found err) "download from network failed" err)
  end.

Definition fetch_upload (u : Upload) : DlM unit :=
  match u_data_map u, u_datamap_address u with
  | Some dm, _ => fetch net_FileGet dm
  | None, Some addr => if bool_decide (u_visibility u = Public) then fetch net_FileGetPublic addr else fetch net_FileGet addr
  | None, None => refuse (jsonError "upload has no data map or network address" 500)
  end.

(** [os.Open] of the temporary file. *)
Definition open_temp : CacheM File :=
  syscall ;; s ← get; match disk s !! tempPath with Some f => mret f | None => fail (ESentinel ErrNotExist) end.

(** The guard against a row deleted meanwhile, after a promotion. *)
Definition resurrection_guard (u : Upload) (key : string) : DlM unit :=
  meanwhile ;;
  row ← attempt (svc (inner (GetByUUID (u_uuid u))));
  match row with
  | Err gerr => if errors_is gerr ErrUploadNotFound then meanwhile ;; attempt (cached (Drop key)) ;; mret tt else mret tt
  | Ok _ => mret tt
  end.

Definition promote (u : Upload) (key : string) (budget : Z) : DlM unit :=
  maxObject ← int_setting "download_cache_max_object_bytes" (64 * 2 ^ 20) 1 (2 ^ 40);
  minUses ← int_setting "download_cache_min_uses" 1 1 100;
  rejected ← (if 1 <? minUses then n ← bump key; mret (n <? minUses) else mret false);
  if (rejected : bool) then count add_rejects else
  fi ← attempt (cached (Lstat tempPath));
  match fi with
  | Err _ => mret tt
  | Ok f =>
      if maxObject <? f_size f then mret tt else
      meanwhile ;;
      r ← attempt (cached (PromoteIfFits key tempPath budget));
      match r with
      | Ok _ => count add_promoted ;; resurrection_guard u key
      | Err _ => mret tt
      end
  end.

(** With a slot: fetch, promote, serve. [eligible]: the request may use the cache. *)
Definition download (userID : Z) (u : Upload) (cacheKey : option string) (eligible : bool) (budget : Z) : DlM download_answer :=
  finally (
    int_setting "antd_download_timeout_secs" 1800 1 86400 ;;
    fetch_upload u ;;
    f ← or_refuse (fun _ => jsonError "failed to read downloaded file" 500) (cached open_temp);
    st ← attempt (cached syscall);
    (if is_ok st then count (add_bytes (f_size f)) else mret tt) ;;
    (if eligible then count add_misses else mret tt) ;;
    match cacheKey with Some key => promote u key budget | None => mret tt end ;;
    note (FileAccess "file_downloaded" "info" (Some userID) (access_detail u)) ;;
    mret (Served (serve_headers u) f))
  (attempt (cached (Remove tempPath)) ;; mret tt).

Definition admitted_download (userID : Z) (u : Upload) (cacheKey : option string) (eligible : bool) (budget queueWait : Z) : DlM download_answer :=
  s ← get;
  got ← acquire (length (d_waits s));
  if negb got then
    int_setting "max_concurrent_downloads" 8 1 1000 ;;
    note (RetryAfter (if 30 <? queueWait then queueWait else 30)) ;;
    refuse (jsonErrorWithCode "concurrent download limit reached, retry shortly" "downloads_saturated" 503)
  else
  hit ← match cacheKey with Some key => cache_open key | None => mret None end;
  match hit with
  | Some fd => release ;; serveCacheHit userID u fd
  | None => finally (download userID u cacheKey eligible budget) release
  end.

Definition DownloadUpload (userID : Z) (uploadUUID ifNoneMatch : string) : DlM download_answer :=
  u ← or_refuse (fun err => if errors_is err ErrUploadNotFound then jsonError "upload not found" 404 else jsonError "failed to get upload" 500)
        (svc (inner (GetByUUID uploadUUID)));
  if negb (u_user_id u =? userID) then
    note (FileAccess "file_download_denied" "warn" (Some userID) ("uuid=" +:+ uploadUUID +:+ " reason=not_owner")) ;;
    refuse (jsonError "upload not found" 404)
  else
  require (bool_decide (u_status u = Completed) || bool_decide (u_status u = AlreadyStored))
    (jsonError ("upload is " +:+ status_str (u_status u) +:+ ", not ready for download") 409) ;;
  let etag := downloadETag u in
  if negb (String.eqb etag "") && etagMatches ifNoneMatch etag then mret (NotModified etag) else
  dbBudget ← int_setting "download_cache_max_bytes" 0 0 (2 ^ 50);
  let cacheBudget := default dbBudget DownloadCacheMaxBytes in
  queueWait ← int_setting "download_queue_wait_secs" 30 0 600;
  eligible ← (if (0 <? cacheBudget) && negb (String.eqb etag "") then
                if bool_decide (u_visibility u = Public) then mret true else bool_setting "download_cache_private" false
              else mret false);
  match (if (eligible : bool) then KeyForIdentifier <$> content_id u else None) with
  | None => admitted_download userID u None eligible cacheBudget queueWait
  | Some key =>
      f ← fill_loop maxFillRounds false key;
      match f with
      | Hit fd => serveCacheHit userID u fd
      | Gone => mret Disconnected
      | Alone => admitted_download userID u None eligible cacheBudget queueWait
      | Lead => finally (admitted_download userID u (Some key) eligible cacheBudget queueWait) (finish_flight key)
      end
  end.
End download.
