(* ===== verification/DownloadSafety.v ===== *)
(** * What a download serves, and what it gives back

    Whatever the interleaving: the bytes served are those of the caller's own
    upload and the cache never holds bytes under the key of others; the slot of
    the gate, the flight and the temporary file are returned on every path. *)

From stdpp Require Import gmap strings pretty.
From S2P Require Import Prelude GoLib Hex Sql Schema UploadStore Settings Cache Limiter Http Triple Download.

Open Scope Z_scope.

(** ** The cache holds what its keys say *)

Section genuine.
Context {net : Network} (tempPath r0 : string).
(** What the network stores under an identifier. *)
Context (content : string -> string).

Definition genuine (st : Store) : Prop :=
  root st = r0 /\
  forall id f, id <> "" -> disk st !! path r0 (KeyForIdentifier id) = Some f -> f_data f = content id.

(** And the temporary file, if there is one, holds the bytes of [id]. *)
Definition fetched (id : string) (st : Store) : Prop :=
  genuine st /\ forall f, disk st !! tempPath = Some f -> f_data f = content id.

(** What a run that only removes files respects. *)
Definition shrinks (s s' : Store) : Prop :=
  root s' = root s /\ forall p f, disk s' !! p = Some f -> disk s !! p = Some f.

#[export] Instance shrinks_preorder : PreOrder shrinks.
Proof. split; [by intros s; split|]. intros a b c [R1 H1] [R2 H2]. split; [congruence|]. eauto. Qed.

Lemma genuine_shrinks s s' : shrinks s s' -> genuine s -> genuine s'.
Proof. intros [R H] [E G]. split; [congruence|]. eauto. Qed.

Lemma fetched_shrinks id s s' : shrinks s s' -> fetched id s -> fetched id s'.
Proof. intros Hs [G H]. split; [by eapply genuine_shrinks|]. destruct Hs as [_ Hs]. eauto. Qed.

Lemma shrinks_syscall : steps shrinks syscall.
Proof. intros s. unfold syscall. by destruct (io s) as [|[?|] ?]. Qed.

#[local] Hint Resolve shrinks_syscall : steps_db.

Lemma shrinks_Lstat p : steps shrinks (Lstat p).
Proof. unfold Lstat. steps_go. Qed.

Lemma shrinks_Remove p : steps shrinks (Remove p).
Proof.
  unfold Remove. steps_go. apply steps_modify. intros st. split; [done|]. cbn. intros q g Hq. by apply lookup_delete_Some in Hq as [_ Hq].
Qed.

#[local] Hint Resolve shrinks_Lstat shrinks_Remove : steps_db.

Lemma shrinks_index (f : Store -> Store) : (forall s, root (f s) = root s /\ disk (f s) = disk s) -> steps shrinks (modify f : CacheM unit).
Proof. intros H. apply steps_modify. intros s. destruct (H s) as [R D]. split; [done|]. by rewrite D. Qed.

Lemma shrinks_Drop key : steps shrinks (Drop key).
Proof. unfold Drop, unlinkLocked. steps_go; by apply shrinks_index. Qed.

Lemma shrinks_selfHeal key g : steps shrinks (selfHeal key g).
Proof. unfold selfHeal, DropGen, unlinkLocked. steps_go; by apply shrinks_index. Qed.

Lemma shrinks_touch key : steps shrinks (touch key).
Proof. apply shrinks_index. intros s. by destruct (entries s !! key). Qed.

Lemma shrinks_open_temp : steps shrinks (open_temp tempPath).
Proof. unfold open_temp. steps_go. Qed.

(** A run that respects [shrinks] keeps both. *)
Lemma keeps_genuine {A} (m : CacheM A) : steps shrinks m -> triple genuine m (fun _ => genuine) genuine.
Proof. intros H. eapply triple_steps; [exact H|]. intros s s'. apply genuine_shrinks. Qed.

Lemma keeps_fetched {A} id (m : CacheM A) : steps shrinks m -> triple (fetched id) m (fun _ => fetched id) (fetched id).
Proof. intros H. eapply triple_steps; [exact H|]. intros s s'. apply fetched_shrinks. Qed.

(** What a hit hands out is the file under the key. *)
Lemma Open_genuine id : id <> "" ->
  triple genuine (Open (KeyForIdentifier id)) (fun o st => genuine st /\ match o with Some fd => f_data fd = content id | None => True end) genuine.
Proof.
  intros Hid. unfold Open. eapply triple_bind; [apply triple_get|]. intros s0.
  destruct (entries s0 !! _) as [e|]; [|apply triple_ret; by intros s [Hs _]].
  eapply (triple_pre _ genuine); [|by intros s [Hs _]]. unfold Open_after.
  eapply triple_bind; [apply triple_get|]. intros s1.
  eapply (triple_pre _ (fun s => genuine s /\ root s1 = r0)); [|intros s [Hs ->]; split; [done|apply Hs]]. apply triple_pull. intros Hroot.
  assert (triple genuine (selfHeal (KeyForIdentifier id) (e_gen e) ;; mret (None : option File))
            (fun o st => genuine st /\ match o with Some fd => f_data fd = content id | None => True end) genuine) as Hmiss.
  { eapply triple_bind; [apply keeps_genuine, shrinks_selfHeal|]. intros ?. apply triple_ret. by intros s Hs. }
  eapply triple_bind; [apply triple_try_keeps, keeps_genuine, shrinks_Lstat|].
  intros [f|]; [|done]. destruct (negb _); [done|].
  eapply (triple_bind _ _ (fun o st => genuine st /\ match o with Ok fd => f_data fd = content id | Err _ => True end)).
  - eapply (triple_try _ _ (fun o st => genuine st /\ match o with Ok fd => f_data fd = content id | Err _ => True end) _ genuine); [|done]. eapply triple_bind; [apply keeps_genuine, shrinks_syscall|]. intros ?.
    eapply triple_bind; [apply triple_get|]. intros s2. apply triple_of_result. intros s [Hs <-].
    rewrite Hroot. destruct (disk s2 !! _) as [fd|] eqn:Ef; [|done]. split; [done|]. by eapply (proj2 Hs).
  - intros [fd|]; [|eapply triple_pre; [exact Hmiss|by intros s [Hs _]]]. apply triple_pull. intros Hfd.
    eapply triple_bind; [apply triple_try_keeps, keeps_genuine, shrinks_syscall|]. intros st.
    destruct (negb _); [done|]. eapply triple_bind; [apply keeps_genuine, shrinks_touch|]. intros ?.
    eapply triple_bind; [apply keeps_genuine; by apply shrinks_index|]. intros ?. by apply triple_ret.
Qed.

(** What the derivation of keys must not do. *)
Context (Hkeys : forall a b, a <> "" -> b <> "" -> KeyForIdentifier a = KeyForIdentifier b -> content a = content b).
(** The directory of the temporary files is none of the cache's. *)
Context (Htemp : forall id, tempPath <> path r0 (KeyForIdentifier id)).

Lemma genuine_disk id f k st : id <> "" -> f_data f = content id -> genuine st ->
  (forall p, k !! p = disk st !! p \/ k !! p = None \/ p = path r0 (KeyForIdentifier id) /\ k !! p = Some f) ->
  genuine (with_disk k st).
Proof.
  intros Hid Hf [R G] Hk. split; [done|]. cbn. intros id' f' Hid' H.
  destruct (Hk (path r0 (KeyForIdentifier id'))) as [E|[E|[Hp E]]]; rewrite E in H; [by eapply G|done|].
  injection H as <-. rewrite Hf. apply Hkeys; [done|done|]. symmetry.
  eapply path_inj; [by apply KeyForIdentifier_valid|by apply KeyForIdentifier_valid|exact Hp].
Qed.

(** The temporary file moves under the key of the identifier it was fetched for. *)
Lemma Rename_fetched id : id <> "" -> triple (fetched id) (Rename tempPath (path r0 (KeyForIdentifier id))) (fun _ => fetched id) (fetched id).
Proof.
  intros Hid. unfold Rename. eapply triple_bind; [apply keeps_fetched, shrinks_syscall|]. intros ?.
  eapply triple_bind; [apply triple_get|]. intros s0. destruct (disk s0 !! tempPath) as [f|] eqn:Ef; [|apply triple_fail; by intros s [Hs _]].
  apply triple_modify. intros s [[Hs Ht] <-]. split.
  - apply (genuine_disk id f); [done|by apply Ht|done|]. intros p. destruct (decide (p = path r0 (KeyForIdentifier id))) as [->|Hp].
    + right; right. by rewrite lookup_insert_eq.
    + rewrite lookup_insert_ne by done. destruct (decide (p = tempPath)) as [->|Hp']; [rewrite lookup_delete_eq; auto|].
      rewrite lookup_delete_ne by done. auto.
  - cbn. intros g. rewrite lookup_insert_ne by (intros E; by eapply Htemp). by rewrite lookup_delete_eq.
Qed.

Lemma Promote_fetched id budget : id <> "" ->
  triple (fetched id) (PromoteIfFits (KeyForIdentifier id) tempPath budget) (fun _ => fetched id) (fetched id).
Proof.
  intros Hid. unfold PromoteIfFits. destruct (negb _); [by apply triple_fail|].
  eapply triple_bind; [apply keeps_fetched, shrinks_Lstat|]. intros fi. destruct (negb _); [by apply triple_fail|].
  unfold promote_locked. eapply triple_bind; [apply triple_get|]. intros s0.
  eapply (triple_pre _ (fun s => fetched id s /\ root s0 = r0)); [|intros s [Hs ->]; split; [done|apply Hs]]. apply triple_pull. intros ->.
  destruct (negb _); [by apply triple_fail|]. destruct (_ <? _); [by apply triple_fail|].
  eapply triple_bind; [apply keeps_fetched, shrinks_syscall|]. intros ?.
  eapply triple_bind; [by apply Rename_fetched|]. intros ?.
  eapply triple_bind; [apply triple_ignore_keeps, keeps_fetched, shrinks_syscall|]. intros ?.
  eapply triple_bind; [apply keeps_fetched; by apply shrinks_index|]. intros ?. by apply triple_ret.
Qed.

(** The daemon writes the temporary file. *)
Lemma write_genuine o st : genuine st -> genuine (write_file tempPath o st).
Proof.
  intros [R G]. destruct o as [f|]; [|done]. split; [done|]. cbn. intros id g Hid.
  rewrite lookup_insert_ne by apply Htemp. by apply G.
Qed.

Lemma write_fetched id f st : f_data f = content id -> genuine st -> fetched id (write_file tempPath (Some f) st).
Proof. intros Hf Hg. split; [by apply write_genuine|]. cbn. intros g. rewrite lookup_insert_eq. by intros [= <-]. Qed.

(** ** The others *)

(** Another request, the sweeper or the operator: the cache stays as its keys
    say, and the temporary file is nobody else's. *)
Definition honest (f : Shared -> Shared) : Prop := forall sh,
  (genuine (sh_store sh) -> genuine (sh_store (f sh))) /\
  (forall g, disk (sh_store (f sh)) !! tempPath = Some g -> disk (sh_store sh) !! tempPath = Some g).

Definition holds (P : Store -> Prop) (s : Dl) : Prop := P (sh_store (d_shared s)) /\ Forall honest (d_others s).

Abbreviation J := (holds genuine).
Abbreviation F id := (holds (fetched id)).

Definition closed_under_others (P : Store -> Prop) : Prop := forall f sh, honest f -> P (sh_store sh) -> P (sh_store (f sh)).

Lemma genuine_closed : closed_under_others genuine.
Proof. intros f sh Hf. apply (Hf sh). Qed.

Lemma fetched_closed id : closed_under_others (fetched id).
Proof. intros f sh Hf [G H]. destruct (Hf sh) as [Hg Hd]. split; [auto|]. eauto. Qed.

Lemma holds_genuine id s : F id s -> J s.
Proof. intros [[H _] Ho]. by split. Qed.

(** ** The handler *)

Abbreviation kept P m := (triple (holds P) m (fun _ => holds P) (holds P)).

(** Neither the cache nor the schedule of the others. *)
Definition aside (s s' : Dl) : Prop := sh_store (d_shared s') = sh_store (d_shared s) /\ d_others s' = d_others s.

#[local] Instance aside_preorder : PreOrder aside.
Proof. split; [done|]. intros a b c [? ?] [? ?]. split; congruence. Qed.

Lemma aside_kept {E A} P (m : ST E Dl A) : steps aside m -> kept P m.
Proof. intros H. eapply triple_steps; [exact H|]. intros s s' [R1 R2] [H1 H2]. split; congruence. Qed.

Lemma aside_modify f : (forall s, aside s (f s)) -> steps aside (modify f : DlM unit).
Proof. apply steps_modify. Qed.

Lemma aside_svc {A} (m : SetM A) : steps aside (svc m).
Proof. intros s. unfold svc, on_shared, zoom. by destruct (m _). Qed.

Lemma aside_setting {A B} (m : SetM A) (f : result error A -> B) : steps aside (r ← attempt (svc m); mret (f r)).
Proof. steps_go. apply steps_attempt, aside_svc. Qed.

Lemma aside_int key d lo hi : steps aside (int_setting key d lo hi).
Proof. apply (aside_setting _ (fun r => match r with Ok n => n | Err _ => d end)). Qed.

Lemma aside_bool key d : steps aside (bool_setting key d).
Proof. apply (aside_setting _ (fun r => match r with Ok b => b | Err _ => d end)). Qed.

Lemma aside_note n : steps aside (note n).
Proof. by apply aside_modify. Qed.

Lemma aside_count f : steps aside (count f).
Proof. by apply aside_modify. Qed.

Lemma aside_next_wait : steps aside next_wait.
Proof. intros s. unfold next_wait. by destruct (d_waits s). Qed.

Lemma aside_bump key : steps aside (bump key).
Proof. intros s. unfold bump. run_goal. by destruct (Bump key (sh_counter (d_shared s))). Qed.

Section closed.
Context (P : Store -> Prop) (HP : closed_under_others P).

Lemma meanwhile_kept : kept P meanwhile.
Proof.
  apply triple_modify. intros s [H1 H2]. destruct (d_others s) as [|f fs] eqn:E; [split; [done|by rewrite E]|].
  apply Forall_cons in H2 as [Hf Hfs]. split; [|done]. by apply HP.
Qed.

Lemma cached_kept {A} (m : CacheM A) Q X : triple P m Q X -> triple (holds P) (cached m) (fun a => holds (Q a)) (holds X).
Proof.
  intros Hm. unfold cached, on_shared. eapply triple_zoom with (P := fun sh => P (sh_store sh)) (Q := fun a sh => Q a (sh_store sh)) (X := fun sh => X (sh_store sh)).
  - by eapply triple_zoom; [exact Hm|..].
  - by intros s [H _].
  - by intros s a sh [_ H] HQ.
  - by intros s sh [_ H] HX.
Qed.

Lemma begin_kept key : kept P (begin_flight key).
Proof.
  unfold begin_flight. eapply triple_bind; [apply meanwhile_kept|]. intros ?. apply aside_kept. intros s. run_goal.
  by destruct (Begin key (sh_flights (d_shared s))) as [[l c] f].
Qed.

Lemma finish_kept key : kept P (finish_flight key).
Proof. unfold finish_flight. eapply triple_bind; [apply meanwhile_kept|]. intros ?. apply aside_kept. by apply aside_modify. Qed.

Lemma release_kept : kept P release.
Proof. unfold release. eapply triple_bind; [apply meanwhile_kept|]. intros ?. apply aside_kept. by apply aside_modify. Qed.

Lemma acquire_kept fuel : kept P (acquire fuel).
Proof.
  induction fuel as [|fuel IH]; cbn -[int_setting meanwhile next_wait Gate.try_acquire];
    (eapply triple_bind; [apply aside_kept, aside_int|intros limit]; eapply triple_bind; [apply meanwhile_kept|intros ?];
     eapply triple_bind; [apply triple_get|intros s0]; eapply (triple_pre _ (holds P)); [|by intros s [H _]];
     destruct (Gate.try_acquire _ _) as [r g]; eapply triple_bind; [apply aside_kept; by apply aside_modify|intros ?];
     destruct r; try (by apply triple_ret); (eapply triple_bind; [apply aside_kept, aside_next_wait|intros w]); destruct w; try (by apply triple_ret); done).
Qed.
End closed.

(** What is served carries the bytes of [id]. *)
Definition carries (id : string) (o : option File) : Prop := match o with Some fd => f_data fd = content id | None => True end.

Lemma cache_open_ok id : id <> "" -> triple J (cache_open (KeyForIdentifier id)) (fun o s => J s /\ carries id o) J.
Proof.
  intros Hid. unfold cache_open. eapply triple_bind; [apply meanwhile_kept, genuine_closed|]. intros ?.
  eapply (triple_bind _ _ (fun r s => J s /\ match r with Ok o => carries id o | Err _ => True end)).
  - eapply (triple_attempt _ _ _ _ J); [|by intros e s H].
    eapply triple_post; [apply cached_kept, (Open_genuine id Hid)| |done]. by intros o s [[H1 H2] H3].
  - intros [o|e]; apply triple_ret; [done|]. by intros s [H _].
Qed.

Lemma fill_loop_ok id rounds waited : id <> "" ->
  triple J (fill_loop rounds waited (KeyForIdentifier id)) (fun f s => J s /\ match f with Hit fd => f_data fd = content id | _ => True end) J.
Proof.
  intros Hid. revert waited. induction rounds as [|rounds IH]; intros waited;
    cbn -[cache_open begin_flight next_wait count];
    (eapply triple_bind; [by apply cache_open_ok|intros [fd|]; [by apply triple_ret|]];
     eapply (triple_pre _ J); [|by intros s [H _]];
     eapply triple_bind; [apply begin_kept, genuine_closed|intros [|]; [apply triple_ret; by split|]]).
  - eapply triple_bind; [apply aside_kept, aside_count|]. intros ?. apply triple_ret. by split.
  - eapply triple_bind; [destruct waited; [by apply (triple_ret _ _ (fun _ => J))|apply aside_kept, aside_count]|]. intros ?.
    eapply triple_bind; [apply aside_kept, aside_next_wait|]. intros [| |]; [apply IH| |apply triple_ret; by split].
    eapply triple_bind; [apply aside_kept, aside_count|]. intros ?. apply triple_ret. by split.
Qed.

(** What the daemon promises: a fetch that succeeds leaves the bytes stored
    under the identifier. *)
Definition fetches (get : string -> option File * result error unit) : Prop :=
  forall id, snd (get id) = Ok tt -> exists f, fst (get id) = Some f /\ f_data f = content id.

Context (Hget : fetches net_FileGet) (Hpublic : fetches net_FileGetPublic).

(** What a row is fetched by. *)
Definition identifier (u : Upload) : option string :=
  match u_data_map u with Some dm => Some dm | None => u_datamap_address u end.

Lemma fetch_ok get id : fetches get -> triple J (fetch tempPath get id) (fun _ => F id) J.
Proof.
  intros Hg. unfold fetch. eapply triple_bind; [apply meanwhile_kept, genuine_closed|]. intros ?. specialize (Hg id).
  destruct (get id) as [o out]. cbn in Hg. destruct out as [[]|err].
  - destruct (Hg eq_refl) as (f & -> & Hf). eapply (triple_bind _ _ (fun _ => F id)); [|intros ?; by apply triple_ret].
    apply triple_modify. intros s [H Ho]. split; [|done]. by apply write_fetched.
  - eapply (triple_bind _ _ (fun _ => J)); [|intros ?; by apply triple_refuse].
    apply triple_modify. intros s [H Ho]. split; [|done]. by apply write_genuine.
Qed.

Lemma fetch_upload_ok u id : (forall i, identifier u = Some i -> i = id) ->
  triple J (fetch_upload tempPath u) (fun _ s => F id s /\ identifier u = Some id) J.
Proof.
  unfold identifier, fetch_upload. intros Hi.
  assert (forall get, fetches get -> Some id = identifier u ->
    triple J (fetch tempPath get id) (fun _ s => F id s /\ identifier u = Some id) J) as Hf.
  { intros get Hg E. eapply triple_post; [by apply fetch_ok| |done]. intros x s H. by split. }
  unfold identifier in Hf. destruct (u_data_map u) as [dm|]; [rewrite (Hi dm eq_refl) in *; by apply Hf|].
  destruct (u_datamap_address u) as [a|]; [rewrite (Hi a eq_refl) in *|by apply triple_refuse].
  case_bool_decide; by apply Hf.
Qed.

Lemma attempt_cached_kept {A} P (m : CacheM A) : triple P m (fun _ => P) P -> kept P (attempt (cached m)).
Proof. intros Hm. by apply triple_attempt_keeps, (cached_kept P m (fun _ => P)). Qed.

Lemma resurrection_kept id u key : kept (fetched id) (resurrection_guard u key).
Proof.
  unfold resurrection_guard. eapply triple_bind; [apply meanwhile_kept, fetched_closed|]. intros ?.
  eapply triple_bind; [apply aside_kept, steps_attempt, aside_svc|]. intros [x|e]; [by apply triple_ret|].
  destruct (errors_is _ _); [|by apply triple_ret]. eapply triple_bind; [apply meanwhile_kept, fetched_closed|]. intros ?.
  eapply triple_bind; [apply attempt_cached_kept, keeps_fetched, shrinks_Drop|]. intros ?. by apply triple_ret.
Qed.

Lemma promote_kept id u budget : id <> "" -> kept (fetched id) (promote tempPath u (KeyForIdentifier id) budget).
Proof.
  intros Hid. unfold promote. do 2 (eapply triple_bind; [apply aside_kept, aside_int|intros ?]).
  eapply triple_bind; [destruct (1 <? _); [eapply triple_bind; [apply aside_kept, aside_bump|intros ?]|]; by apply (triple_ret _ _ (fun _ => F id))|].
  intros [|]; [apply aside_kept, aside_count|].
  eapply triple_bind; [apply attempt_cached_kept, keeps_fetched, shrinks_Lstat|]. intros [f|e]; [|by apply triple_ret].
  destruct (_ <? _); [by apply triple_ret|]. eapply triple_bind; [apply meanwhile_kept, fetched_closed|]. intros ?.
  eapply triple_bind; [apply attempt_cached_kept; by apply Promote_fetched|]. intros [x|e]; [|by apply triple_ret].
  eapply triple_bind; [apply aside_kept, aside_count|]. intros ?. apply resurrection_kept.
Qed.

Lemma triple_finally {S A} (P : S -> Prop) (m : ST Refusal S A) c Q Q' X X' :
  triple P m Q X -> (forall a, triple (Q a) c (fun _ => Q' a) (Q' a)) -> triple X c (fun _ => X') X' -> triple P (finally m c) Q' X'.
Proof.
  intros Hm HQ HX s Hs. specialize (Hm s Hs). unfold wp, finally in *. destruct (m s) as [[a|e] s1]; cbn in Hm.
  - specialize (HQ a s1 Hm). unfold wp in HQ. by destruct (c s1) as [[x|x] s2].
  - specialize (HX s1 Hm). unfold wp in HX. by destruct (c s1) as [[x|x] s2].
Qed.

(** [served u a]: what [a] says and carries is [u]'s. *)
Definition served (u : Upload) (id : string) (a : download_answer) : Prop :=
  match a with Served h fd => h = serve_headers u /\ identifier u = Some id /\ f_data fd = content id | NotModified _ => False | Disconnected => True end.

Lemma hit_ok userID u id fd : identifier u = Some id -> f_data fd = content id -> triple J (serveCacheHit userID u fd) (fun a s => J s /\ served u id a) J.
Proof.
  intros Hu Hfd. unfold serveCacheHit. eapply triple_bind; [apply aside_kept, aside_note|]. intros ?. by apply triple_ret.
Qed.

Lemma cleanup_kept : kept genuine (attempt (cached (Remove tempPath)) ;; mret tt).
Proof. eapply triple_bind; [apply attempt_cached_kept, keeps_genuine, shrinks_Remove|]. intros ?. by apply triple_ret. Qed.

Lemma download_ok userID u id cacheKey el budget : (forall i, identifier u = Some i -> i = id) ->
  (forall key, cacheKey = Some key -> id <> "" /\ key = KeyForIdentifier id) ->
  triple J (download tempPath userID u cacheKey el budget) (fun a s => J s /\ served u id a) J.
Proof.
  intros Hu Hkey. unfold download. eapply (triple_finally _ _ _ (fun a s => J s /\ served u id a) _ J).
  - eapply triple_bind; [apply aside_kept, aside_int|]. intros ?. eapply triple_bind; [by apply fetch_upload_ok|]. intros ?. apply triple_pull. intros Hid.
    eapply (triple_bind _ _ (fun f s => F id s /\ f_data f = content id)).
    { apply triple_or_refuse. eapply triple_post; [apply (cached_kept (fetched id) _ (fun f s => fetched id s /\ f_data f = content id) (fetched id))| |].
      - unfold open_temp. eapply triple_bind; [apply keeps_fetched, shrinks_syscall|]. intros ?. eapply triple_bind; [apply triple_get|]. intros s0.
        destruct (disk s0 !! tempPath) as [f|] eqn:Ef; [apply triple_ret|apply triple_fail; by intros s [Hs _]].
        intros s [Hs ->]. split; [done|]. by apply (proj2 Hs).
      - by intros f s [[H1 H2] H3].
      - intros s. apply holds_genuine. }
    intros f. apply triple_pull. intros Hf. eapply (triple_post _ _ _ (fun a s => F id s /\ served u id a) _ (F id));
      [|intros b s [H1 H2]; split; [by eapply holds_genuine|done]|intros s; apply holds_genuine].
    eapply triple_bind; [apply attempt_cached_kept, keeps_fetched, shrinks_syscall|]. intros st.
    eapply triple_bind; [destruct (is_ok st); [apply aside_kept, aside_count|by apply (triple_ret _ _ (fun _ => F id))]|]. intros ?.
    eapply triple_bind; [destruct el; [apply aside_kept, aside_count|by apply (triple_ret _ _ (fun _ => F id))]|]. intros ?.
    eapply triple_bind; [destruct cacheKey as [key|]; [destruct (Hkey key eq_refl) as [Hne ->]; by apply promote_kept|by apply (triple_ret _ _ (fun _ => F id))]|]. intros ?.
    eapply triple_bind; [apply aside_kept, aside_note|]. intros ?. by apply triple_ret.
  - intros a. apply triple_pull. intros Ha. eapply triple_post; [apply cleanup_kept|by split|by split].
  - apply cleanup_kept.
Qed.

(** Taking the slot, looking again, fetching. *)
Lemma admitted_ok userID u id cacheKey el budget wait : (forall i, identifier u = Some i -> i = id) ->
  (forall key, cacheKey = Some key -> identifier u = Some id /\ id <> "" /\ key = KeyForIdentifier id) ->
  triple J (admitted_download tempPath userID u cacheKey el budget wait) (fun a s => J s /\ served u id a) J.
Proof.
  intros Hu Hkey. unfold admitted_download. eapply triple_bind; [apply triple_get|]. intros s0.
  eapply (triple_pre _ J); [|by intros s [H _]]. eapply triple_bind; [apply acquire_kept, genuine_closed|]. intros got.
  destruct (negb got).
  { eapply triple_bind; [apply aside_kept, aside_int|]. intros ?. eapply triple_bind; [apply aside_kept, aside_note|]. intros ?. by apply triple_refuse. }
  eapply (triple_bind _ _ (fun o s => J s /\ match o with Some fd => identifier u = Some id /\ f_data fd = content id | None => True end)).
  { destruct cacheKey as [key|]; [destruct (Hkey key eq_refl) as (_ & Hid & ->)|by apply triple_ret].
    eapply triple_post; [by apply cache_open_ok| |done]. intros o s [H Ho]. split; [done|]. destruct o; [|done]. by destruct (Hkey _ eq_refl). }
  intros [fd|]; apply triple_pull.
  1: intros [Hid Hfd].
  2: intros _.
  - eapply triple_bind; [apply release_kept, genuine_closed|]. intros ?. by apply hit_ok.
  - eapply triple_finally; [apply download_ok; [done|by intros key Hk; destruct (Hkey key Hk)]| |apply release_kept, genuine_closed].
    intros b. apply triple_pull. intros Ha. eapply triple_post; [apply release_kept, genuine_closed|by split|by split].
Qed.

Definition nonempty_maps (d : Db) : Prop := forall u, In u (uploads d) -> u_data_map u <> Some "".

Lemma content_id_identifier u id : u_data_map u <> Some "" -> content_id u = Some id -> id <> "" /\ identifier u = Some id.
Proof.
  unfold content_id, identifier, some_text. intros Hn. destruct (u_data_map u) as [dm|].
  - destruct (String.eqb_spec dm ""); [by subst|]. by intros [= ->].
  - destruct (u_datamap_address u) as [a|]; [|done]. destruct (String.eqb_spec a ""); [done|]. by intros [= ->].
Qed.

(** The row an answer is about. *)
Definition own_row (userID : Z) (uid : string) (d : Db) (u : Upload) : Prop :=
  In u (uploads d) /\ u_uuid u = uid /\ u_user_id u = userID /\ (u_status u = Completed \/ u_status u = AlreadyStored).

Definition rightly (u : Upload) (a : download_answer) : Prop :=
  match a with
  | Served h fd => h = serve_headers u /\ exists id, identifier u = Some id /\ f_data fd = content id
  | NotModified e => e = downloadETag u /\ e <> ""
  | Disconnected => True
  end.

Abbreviation db s := (c_db (sh_svc (d_shared s))).

Lemma row_found d uid f : triple (fun s => J s /\ db s = d) (or_refuse f (svc (inner (GetByUUID uid))))
  (fun u s => J s /\ In u (uploads d) /\ u_uuid u = uid) J.
Proof.
  apply triple_or_refuse. intros s [HJ <-]. unfold wp.
  destruct (svc (inner (GetByUUID uid)) s) as [r s'] eqn:E. cbn.
  pose proof (triple_run _ _ _ _ _ _ _ (aside_kept genuine _ (aside_svc (inner (GetByUUID uid)))) HJ E) as HJ'.
  destruct r as [u|e]; [|done]. split; [done|]. unfold svc, on_shared, inner, zoom in E. cbn in E.
  destruct (GetByUUID uid (db s)) as [r d'] eqn:Eg. cbn in E. injection E as -> _.
  apply map_err_ok, query_row_ok in Eg as (fs & Hf & _). apply List.find_some in Hf as [Hin Hu]. split; [done|]. by apply String.eqb_eq in Hu.
Qed.

Lemma budgeted_ok u userID key el b w : u_data_map u <> Some "" -> (if (el : bool) then KeyForIdentifier <$> content_id u else None) = Some key ->
  triple J (f ← fill_loop maxFillRounds false key;
            match f with
            | Hit fd => serveCacheHit userID u fd
            | Gone => mret Disconnected
            | Alone => admitted_download tempPath userID u None el b w
            | Lead => finally (admitted_download tempPath userID u (Some key) el b w) (finish_flight key)
            end)
    (fun a s => J s /\ exists id, served u id a) J.
Proof.
  intros Hn Hk. destruct el; [|done]. destruct (content_id u) as [id|] eqn:Ec; [|done]. injection Hk as <-.
  apply (content_id_identifier _ _ Hn) in Ec as [Hid Hi].
  eapply triple_post with (Q' := fun a s => J s /\ served u id a); [|by intros a s [H Ha]; eauto|by intros s H; exact H].
  eapply triple_bind; [by apply fill_loop_ok|]. intros [fd| | |]; apply triple_pull; intros Hf.
  - by apply hit_ok.
  - eapply triple_finally; [apply (admitted_ok _ _ id); [intros i; congruence|by intros k [= <-]]| |apply finish_kept, genuine_closed].
    intros a. apply triple_pull. intros Ha. eapply triple_post; [apply finish_kept, genuine_closed|by split|by split].
  - apply admitted_ok; [intros i; congruence|done].
  - by apply triple_ret.
Qed.

Lemma DownloadUpload_triple override userID uid inm d : nonempty_maps d ->
  triple (fun s => J s /\ db s = d) (DownloadUpload override tempPath userID uid inm)
    (fun a s => J s /\ (a = Disconnected \/ exists u, own_row userID uid d u /\ rightly u a)) J.
Proof.
  intros Hd. unfold DownloadUpload. eapply triple_bind; [apply row_found|]. intros u. apply triple_pull. intros [Hin Hu].
  destruct (negb (u_user_id u =? userID)) eqn:Eo.
  { eapply triple_bind; [apply aside_kept, aside_note|]. intros ?. by apply triple_refuse. }
  breflect. eapply triple_bind; [by apply triple_require|]. intros ?. apply triple_pull. intros Hs.
  assert (own_row userID uid d u) as Hown.
  { split_and!; try done. apply orb_prop in Hs as [Hs|Hs]; breflect; auto. }
  eapply triple_post with (Q' := fun a s => J s /\ (rightly u a \/ exists id, served u id a));
    [|intros b s [H [Ha|[id Ha]]]; split; try done|by intros s H; exact H].
  2: by right; exists u.
  2: { destruct b as [e|h fd|]; [done| |by left]. right. exists u. split; [done|]. destruct Ha as (-> & Hi & Hf). split; eauto. }
  destruct (negb _ && _) eqn:Em; [apply triple_ret; intros s H; split; [done|left]|].
  { apply andb_prop in Em as [Em _]. breflect. apply String.eqb_neq in Em. by split. }
  clear Em Hs.
  do 2 (eapply triple_bind; [apply aside_kept, aside_int|intros ?]).
  eapply (triple_bind _ _ (fun _ => J)).
  { destruct (_ && _); [destruct (bool_decide (u_visibility u = Public)); [by apply triple_ret|apply aside_kept, aside_bool]|by apply triple_ret]. }
  intros el. eapply triple_post with (Q' := fun a s => J s /\ exists id, served u id a); [|by intros a' s [H Ha]; eauto|by intros s H; exact H].
  destruct (if el then _ else None) as [key|] eqn:Ek; [apply budgeted_ok; [by apply Hd|done]|].
  eapply triple_post; [apply (admitted_ok _ _ (default "" (identifier u))); [by intros i ->|done]|by intros a' s [H Ha]; eauto|done].
Qed.
End genuine.

(** ** Nothing is told of the uploads of others *)

(** The same installation without the uploads of that uuid. *)
Definition without (uid : string) (s : Dl) : Dl :=
  let sh := d_shared s in
  let d := c_db (sh_svc sh) in
  put_d_shared (put_sh_svc (set_c_db (set_uploads (delete_where (fun u => String.eqb (u_uuid u) uid) (uploads d)) d) (sh_svc sh)) sh) s.

Definition stranger (userID : Z) (uid : string) (d : Db) : Prop := forall u, In u (uploads d) -> u_uuid u = uid -> u_user_id u <> userID.

Lemma find_deleted {A} (p : A -> bool) t : List.find p (delete_where p t) = None.
Proof. unfold delete_where. induction t as [|x t IH]; [done|]. cbn. destruct (p x) eqn:E; cbn; [done|]. by rewrite E. Qed.

Lemma stranger_learns_nothing `{net : Network} override tempPath userID uid ifNoneMatch s : stranger userID uid (c_db (sh_svc (d_shared s))) ->
  fst (DownloadUpload override tempPath userID uid ifNoneMatch s) = fst (DownloadUpload override tempPath userID uid ifNoneMatch (without uid s)).
Proof.
  intros Hs. destruct s as [[[d c] st fl ct g m] os ws ns]. cbn in Hs. unfold DownloadUpload.
  unfold or_refuse, svc, inner, GetByUUID, map_err, query_row, query, on_shared, zoom, mbind, ST_bind, stmt, without. cbn [d_shared sh_svc c_db put_d_shared put_sh_svc set_c_db].
  destruct d as [us ? ? ? ? ? ? ? ? ? ? ? ? ? ? ? ? ? ? ? fs]. cbn in Hs |- *.
  destruct fs as [|[e|] fs]; [|done|]; cbn; rewrite find_deleted; destruct (List.find _ us) as [u|] eqn:E; cbn; try done.
  all: apply find_some in E as [Hu Huid%String.eqb_eq]; pose proof (Hs u Hu Huid) as Hne; apply Z.eqb_neq in Hne; rewrite Hne; done.
Qed.

Lemma stranger_refused_early `{net : Network} override tempPath userID uid ifNoneMatch s : stranger userID uid (c_db (sh_svc (d_shared s))) ->
  let r := fst (DownloadUpload override tempPath userID uid ifNoneMatch s) in
  r = Err (jsonError "upload not found" 404) \/ r = Err (jsonError "failed to get upload" 500).
Proof.
  intros Hs. destruct s as [[[d c] st fl ct g m] os ws ns]. cbn in Hs. unfold DownloadUpload.
  unfold or_refuse, svc, inner, GetByUUID, map_err, query_row, query, on_shared, zoom, mbind, ST_bind, stmt. cbn [d_shared sh_svc c_db].
  destruct d as [us ? ? ? ? ? ? ? ? ? ? ? ? ? ? ? ? ? ? ? fs]. cbn in Hs |- *.
  destruct fs as [|[e|] fs]; [|by right|]; cbn; left; destruct (List.find _ us) as [u|] eqn:E; cbn; try done.
  all: apply find_some in E as [Hu Huid%String.eqb_eq]; pose proof (Hs u Hu Huid) as Hne; apply Z.eqb_neq in Hne; rewrite Hne; done.
Qed.

(** ** What is claimed *)

(** C22. Whatever other requests, the sweeper and the operator do meanwhile, and
    wherever a file-system call, a database read or the daemon fails: a download
    that is answered is answered about an upload of the caller, completed and of
    that uuid; the bytes it carries are those the network stores under the row's
    identifier, be they fetched, read from the cache, or fetched by another
    request while this one waited; and the cache still holds under every key
    the bytes of the identifier the key is made of. Who owns no upload of the
    uuid gets, word for word, the answer given where there is none, and that is
    a refusal: not found, or a failed read. *)
Theorem DownloadUpload_own `{net : Network} (tempPath r0 : string) (content : string -> string) (override : option Z)
    (userID : Z) (uid ifNoneMatch : string) (s : Dl) r s'
    (Hkeys : forall a b, a <> "" -> b <> "" -> KeyForIdentifier a = KeyForIdentifier b -> content a = content b)
    (Htemp : forall id, tempPath <> path r0 (KeyForIdentifier id))
    (Hget : fetches content net_FileGet) (Hpublic : fetches content net_FileGetPublic)
    (Hcache : genuine r0 content (sh_store (d_shared s))) (Hothers : Forall (honest tempPath r0 content) (d_others s))
    (Hmaps : nonempty_maps (c_db (sh_svc (d_shared s)))) :
  DownloadUpload override tempPath userID uid ifNoneMatch s = (r, s') ->
  genuine r0 content (sh_store (d_shared s')) /\
  match r with
  | Ok a => a = Disconnected \/ exists u, own_row userID uid (c_db (sh_svc (d_shared s))) u /\ rightly content u a
  | Err _ => True
  end /\
  (stranger userID uid (c_db (sh_svc (d_shared s))) ->
   r = fst (DownloadUpload override tempPath userID uid ifNoneMatch (without uid s)) /\
   (r = Err (jsonError "upload not found" 404) \/ r = Err (jsonError "failed to get upload" 500))).
Proof.
  intros Hrun. apply and_assoc. split.
  2:{ intros Hs. pose proof (stranger_learns_nothing override tempPath userID uid ifNoneMatch s Hs) as E.
      pose proof (stranger_refused_early override tempPath userID uid ifNoneMatch s Hs) as E'. rewrite Hrun in E, E'. by split. }
  pose proof (triple_run _ _ _ _ _ _ _ (DownloadUpload_triple tempPath r0 content Hkeys Htemp Hget Hpublic override userID uid ifNoneMatch _ Hmaps)
    (conj (conj Hcache Hothers) eq_refl) Hrun) as H.
  destruct r as [a|e]; [|split; [apply H|done]]. destruct H as [[H1 _] H2]. by split.
Qed.

(** A database with one upload, a network that answers with the digest of what
    it is asked for, and a cache of a thousand bytes. *)
Definition demo_content (id : string) : string := "bytes of " +:+ KeyForIdentifier id.
Definition demo_file (id : string) : File := mkFile true 73 (demo_content id).
Definition demo_net : Network :=
  Build_Network (fun id => (Some (demo_file id), Ok tt)) (fun id => (Some (demo_file id), Ok tt)) (fun _ => false) (fun _ => false).
Definition demo_upload : Upload :=
  mkUpload 1 "uuid-1" 7 None "a.txt" "a.txt" 73 "text/plain" Public Completed None (Some "addr-1") None None None None (Some "map-1") None 0 None 0 None None None 0 None 0.
Definition demo_db : Db :=
  mkDb [demo_upload] 1 [] 0 [] 0 [7; 8] [] [] [] [] 0 [] [] [("download_cache_max_bytes", "1000")] [] [] 0 [] 0 [].
Definition demo_shared : Shared :=
  mkShared (mkCached demo_db ∅) (with_ready true (New "/cache")) NewFlight (NewCounter 10) (Gate.mkGate 0 0) (mkDlMetrics 0 0 0 0 0 0).

(** Another request takes a slot; the sweeper drops a key. *)
Definition takes_slot (sh : Shared) : Shared := put_sh_gate (Gate.mkGate (Gate.g_inFlight (sh_gate sh) + 1) (Gate.g_gen (sh_gate sh))) sh.
Definition sweeps (key : string) (sh : Shared) : Shared := put_sh_store (snd (Drop key (sh_store sh))) sh.

Definition demo : Dl := mkDl demo_shared [takes_slot; sweeps "0123456789abcdef"; takes_slot] [] [].

Definition first_download := @DownloadUpload demo_net None "/tmp/dl-1" 7 "uuid-1" "" demo.

(** The first download fetches and promotes, the second is a hit. *)
Example first_promotes : dm_PromotedReadThrough (sh_metrics (d_shared (snd first_download))) = 1. Proof. vm_compute. reflexivity. Qed.
Example second_hits :
  let '(r, s) := @DownloadUpload demo_net None "/tmp/dl-2" 7 "uuid-1" "" (snd first_download) in
  r = Ok (Served (serve_headers demo_upload) (demo_file "map-1")) /\ dm_Misses (sh_metrics (d_shared s)) = 1.
Proof. vm_compute. split; reflexivity. Qed.
Example stranger_refused : fst (@DownloadUpload demo_net None "/tmp/dl-2" 8 "uuid-1" "*" demo) = Err (jsonError "upload not found" 404).
Proof. vm_compute. reflexivity. Qed.
Example current_copy : fst (@DownloadUpload demo_net None "/tmp/dl-2" 7 "uuid-1" "*" demo) = Ok (NotModified (downloadETag demo_upload)).
Proof. vm_compute. reflexivity. Qed.

Lemma temp_apart t k : "/tmp/" +:+ t <> path "/cache" k.
Proof. by unfold path. Qed.

Lemma sweeps_honest t key : honest ("/tmp/" +:+ t) "/cache" demo_content (sweeps key).
Proof.
  intros sh. destruct (shrinks_Drop key (sh_store sh)) as [R D]. split; [apply genuine_shrinks; by split|]. intros g. cbn. apply D.
Qed.

Lemma takes_slot_honest t : honest ("/tmp/" +:+ t) "/cache" demo_content takes_slot.
Proof. intros sh. by split. Qed.

Lemma DownloadUpload_own_witness : exists r s',
  @DownloadUpload demo_net None "/tmp/dl-1" 7 "uuid-1" "" demo = (r, s') /\ genuine "/cache" demo_content (sh_store (d_shared s')) /\
  match r with
  | Ok a => a = Disconnected \/ exists u, own_row 7 "uuid-1" demo_db u /\ rightly demo_content u a
  | Err _ => True
  end.
Proof.
  destruct (@DownloadUpload demo_net None "/tmp/dl-1" 7 "uuid-1" "" demo) as [r s'] eqn:E. exists r, s'. split; [exact eq_refl|].
  refine ((fun H => conj (proj1 H) (proj1 (proj2 H))) _).
  apply (@DownloadUpload_own demo_net "/tmp/dl-1" "/cache" demo_content None 7 "uuid-1" "" demo r s'); [..|exact E].
  - intros a b _ _ H. unfold demo_content. by rewrite H.
  - intros id. generalize (KeyForIdentifier id). intros k. exact (temp_apart "dl-1" k).
  - intros id _. exists (demo_file id). split; exact eq_refl.
  - intros id _. exists (demo_file id). split; exact eq_refl.
  - split; [exact eq_refl|]. intros id f _ H. change ((∅ : gmap string File) !! path "/cache" (KeyForIdentifier id) = Some f) in H. rewrite lookup_empty in H. discriminate H.
  - exact (Forall_cons_2 _ _ _ (takes_slot_honest "dl-1") (Forall_cons_2 _ _ _ (sweeps_honest "dl-1" "0123456789abcdef")
      (Forall_cons_2 _ _ _ (takes_slot_honest "dl-1") (Forall_nil_2 _)))).
  - intros u [<-|[]]. done.
Defined.
