(* ===== verification/DownloadReturns.v ===== *)
(** * What a download gives back

    On every path, whatever fails and the others do meanwhile: the slot of the
    gate and the flight it leads; where the file system works, the temporary
    file. *)

From stdpp Require Import gmap strings pretty.
From S2P Require Import Prelude GoLib Hex Sql Schema UploadStore Settings Cache Limiter Http Triple Download DownloadSafety.

Open Scope Z_scope.

(** What a run of the cache that makes no file respects. *)
Definition tidies (s s' : Store) : Prop :=
  root s' = root s /\ (io s = [] -> io s' = []) /\ forall p, disk s !! p = None -> disk s' !! p = None.

#[local] Instance tidies_preorder : PreOrder tidies.
Proof. split; [by intros s; split|]. intros a b c (R1 & I1 & H1) (R2 & I2 & H2). split_and!; [congruence|auto|auto]. Qed.

Section returns.
Context {net : Network} (tempPath k : string) (c : nat).
(** By how much another request changes the number of slots taken. *)
Context (delta : (Shared -> Shared) -> Z).

(** Others take and return slots of their own, and begin and end flights of [k] as
    they like, except the one on the channel [c]. *)
Definition polite (f : Shared -> Shared) : Prop := forall sh,
  Gate.g_inFlight (sh_gate (f sh)) = Gate.g_inFlight (sh_gate sh) + delta f /\
  (inflight (sh_flights (f sh)) !! k = Some c <-> inflight (sh_flights sh) !! k = Some c).

(** What is said of the store, between the requests' uses of the temporary file
    and within, and what it takes for that to last. *)
Context (idle busy : Store -> Prop).
Context (idle_busy : forall st, idle st -> busy st).
Context (keeps_idle : forall A (m : CacheM A), steps tidies m -> triple idle m (fun _ => idle) idle).
Context (keeps_busy : forall A (m : CacheM A), steps tidies m -> triple busy m (fun _ => busy) busy).
Context (write_busy : forall st f, busy st -> busy (write_file tempPath f st)).
Context (promote_busy : forall key budget, triple busy (PromoteIfFits key tempPath budget) (fun _ => busy) busy).
Context (clean_idle : triple busy (Remove tempPath) (fun _ => idle) idle).

Definition respects (f : Shared -> Shared) : Prop := forall sh,
  (idle (sh_store sh) -> idle (sh_store (f sh))) /\ (busy (sh_store sh) -> busy (sh_store (f sh))).

(** The slots taken, once the others have done all they will do. *)
Definition pending (s : Dl) : Z :=
  Gate.g_inFlight (sh_gate (d_shared s)) + fold_right (fun f n => delta f + n) 0 (d_others s).

Definition in_flight (s : Dl) : bool := bool_decide (inflight (sh_flights (d_shared s)) !! k = Some c).

Record books (n : Z) (o : bool) (P : Store -> Prop) (s : Dl) : Prop := {
  bk_pending : pending s = n;
  bk_flight : in_flight s = o;
  bk_store : P (sh_store (d_shared s));
  bk_polite : Forall (fun f => polite f /\ respects f) (d_others s);
}.

Abbreviation balanced n o P m := (triple (books n o P) m (fun _ => books n o P) (books n o P)).

(** Nothing of what is accounted for. *)
Definition untouched (s s' : Dl) : Prop :=
  sh_store (d_shared s') = sh_store (d_shared s) /\ sh_flights (d_shared s') = sh_flights (d_shared s) /\
  sh_gate (d_shared s') = sh_gate (d_shared s) /\ d_others s' = d_others s.

#[local] Instance untouched_preorder : PreOrder untouched.
Proof. split; [done|]. intros x y w (? & ? & ? & ?) (? & ? & ? & ?). split_and!; congruence. Qed.

Lemma untouched_balanced {E A} n o P (m : ST E Dl A) : steps untouched m -> balanced n o P m.
Proof.
  intros H. eapply triple_steps; [exact H|]. intros s s' (E1 & E2 & E3 & E4) [B1 B2 B3 B4].
  split; [unfold pending in *|unfold in_flight in *; by rewrite E2|..]; congruence.
Qed.

Lemma untouched_svc {A} (m : SetM A) : steps untouched (svc m).
Proof. intros s. unfold svc, on_shared, zoom. by destruct (m _). Qed.

Lemma untouched_setting {A B} (m : SetM A) (f : result error A -> B) : steps untouched (r ← attempt (svc m); mret (f r)).
Proof. steps_go. apply steps_attempt, untouched_svc. Qed.

Lemma untouched_int key d lo hi : steps untouched (int_setting key d lo hi).
Proof. apply (untouched_setting _ (fun r => match r with Ok n => n | Err _ => d end)). Qed.

Lemma untouched_bool key d : steps untouched (bool_setting key d).
Proof. apply (untouched_setting _ (fun r => match r with Ok b => b | Err _ => d end)). Qed.

Lemma untouched_note x : steps untouched (note x).
Proof. by apply steps_modify. Qed.

Lemma untouched_count f : steps untouched (count f).
Proof. by apply steps_modify. Qed.

Lemma untouched_next_wait : steps untouched next_wait.
Proof. intros s. unfold next_wait. by destruct (d_waits s). Qed.

Lemma untouched_bump key : steps untouched (bump key).
Proof. intros s. unfold bump. run_goal. by destruct (Bump key (sh_counter (d_shared s))). Qed.

(** Both are left alone by the others. *)
Definition left_alone (P : Store -> Prop) : Prop := forall f sh, respects f -> P (sh_store sh) -> P (sh_store (f sh)).

Lemma busy_alone : left_alone busy.
Proof. intros f sh Hf. apply (Hf sh). Qed.

Lemma idle_alone : left_alone idle.
Proof. intros f sh Hf. apply (Hf sh). Qed.

Lemma meanwhile_balanced n o P X : left_alone P -> triple (books n o P) meanwhile (fun _ => books n o P) X.
Proof.
  intros HP. apply triple_modify. intros s [B1 B2 B3 B4]. destruct (d_others s) as [|f fs] eqn:E; [split; by rewrite ?E|].
  apply Forall_cons in B4 as [[Hf Hr] Hfs]. destruct (Hf (d_shared s)) as (G & L). split; cbn.
  - unfold pending in *. cbn. rewrite G. rewrite E in B1. cbn in B1. lia.
  - rewrite <- B2. by apply bool_decide_ext.
  - by apply HP.
  - done.
Qed.

Lemma cached_balanced {A} n o P (m : CacheM A) Q X : triple P m Q X ->
  triple (books n o P) (cached m) (fun a => books n o (Q a)) (books n o X).
Proof.
  intros Hm s [B1 B2 B3 B4]. unfold wp, cached, on_shared, zoom. specialize (Hm _ B3). unfold wp in Hm.
  destruct (m (sh_store (d_shared s))) as [[a|e] st]; by split.
Qed.

Lemma attempt_balanced {A} n o P (m : CacheM A) : triple P m (fun _ => P) P -> balanced n o P (attempt (cached m)).
Proof. intros Hm. by apply triple_attempt_keeps, (cached_balanced n o P m (fun _ => P)). Qed.

(** ** The gate *)

Definition holding (r : Gate.request) : bool := match r with Gate.Holding => true | _ => false end.

Lemma acquire_balanced n o P fuel : left_alone P ->
  triple (books n o P) (acquire fuel) (fun got => books (if (got : bool) then n + 1 else n) o P) (books n o P).
Proof.
  intros HP.
  assert (forall limit s, books n o P s -> let '(r, g) := Gate.try_acquire limit (sh_gate (d_shared s)) in
    books (if holding r then n + 1 else n) o P (put_d_shared (put_sh_gate g (d_shared s)) s)) as Ht.
  { intros limit s [B1 B2 B3 B4]. unfold Gate.try_acquire. destruct (_ <? _); split; try done. unfold pending in *. cbn. lia. }
  induction fuel as [|fuel IH]; cbn -[int_setting meanwhile next_wait Gate.try_acquire];
    (eapply triple_bind; [apply untouched_balanced, untouched_int|intros limit]; eapply triple_bind; [by apply meanwhile_balanced|intros ?];
     eapply triple_bind; [apply triple_get|intros s0]; eapply (triple_pre _ (fun s => books n o P s0 /\ s = s0)); [|by intros s [H ->]];
     intros s [Hs ->]; pose proof (Ht limit s0 Hs) as Hg; clear Ht; destruct (Gate.try_acquire _ _) as [r g] eqn:Er;
     eapply (triple_bind (fun s => s = s0) _ (fun _ => books (if holding r then n + 1 else n) o P));
       [by apply triple_modify; intros s ->|intros ?|done]);
    clear Hg Hs; destruct r; try (by apply triple_ret); cbn [holding];
    (eapply triple_bind; [apply untouched_balanced, untouched_next_wait|intros w]); destruct w; try (by apply triple_ret); done.
Qed.

Lemma release_balanced n o P X : left_alone P -> triple (books (n + 1) o P) release (fun _ => books n o P) X.
Proof.
  intros HP. unfold release. eapply triple_bind; [by apply meanwhile_balanced|]. intros ?.
  apply triple_modify. intros s [B1 B2 B3 B4]. split; try done. unfold pending in *. cbn. lia.
Qed.

(** ** The flight *)

(** Led by this request, if it is [k]. *)
Definition led (key : string) (o o' : bool) : Prop := if decide (key = k) then o = false else o' = o.

Lemma begin_balanced n o P key X : left_alone P ->
  triple (books n o P) (begin_flight key) (fun leader s => if (leader : bool) then exists o', led key o o' /\ books n o' P s else books n o P s) X.
Proof.
  intros HP. unfold begin_flight. eapply triple_bind; [by apply meanwhile_balanced|]. intros ?.
  intros s [B1 B2 B3 B4]. unfold wp, Begin, led. run_goal. destruct (inflight _ !! key) as [ch|] eqn:E; cbn; [by split|].
  destruct (decide (key = k)) as [->|Hk].
  - eexists. split; [|split; [exact B1|reflexivity|exact B3|exact B4]]. rewrite <- B2. unfold in_flight. by rewrite E.
  - exists o. split; [done|]. split; try done. rewrite <- B2. unfold in_flight. cbn. by rewrite lookup_insert_ne.
Qed.

Lemma finish_balanced n o o' P key X : left_alone P -> led key o o' -> triple (books n o' P) (finish_flight key) (fun _ => books n o P) X.
Proof.
  intros HP Hl. unfold finish_flight. eapply triple_bind; [by apply meanwhile_balanced|]. intros ?.
  apply triple_modify. intros s [B1 B2 B3 B4]. split; try done. unfold in_flight, Finish, led in *. cbn.
  destruct (decide (key = k)) as [->|Hk]; subst.
  - destruct (inflight (sh_flights (d_shared s)) !! k) as [ch|] eqn:E; cbn; [by rewrite lookup_delete_eq|by rewrite E].
  - destruct (inflight (sh_flights (d_shared s)) !! key) as [ch|] eqn:E; cbn; [by rewrite lookup_delete_ne|done].
Qed.

(** ** The cache *)

Lemma tidies_syscall : steps tidies syscall.
Proof. intros s. unfold syscall. destruct (io s) as [|[?|] ?] eqn:E; unfold tidies; cbn; rewrite ?E; split_and!; done. Qed.

#[local] Hint Resolve tidies_syscall : steps_db.

Lemma tidies_index (f : Store -> Store) : (forall s, root (f s) = root s /\ disk (f s) = disk s /\ io (f s) = io s) -> steps tidies (modify f : CacheM unit).
Proof. intros H. apply steps_modify. intros s. destruct (H s) as (R & D & I). split_and!; [done|by rewrite I|by rewrite D]. Qed.

Lemma tidies_Lstat p : steps tidies (Lstat p).
Proof. unfold Lstat. steps_go. Qed.

Lemma tidies_Remove p : steps tidies (Remove p).
Proof.
  unfold Remove. steps_go. apply steps_modify. intros st. split_and!; [done|done|]. cbn. intros q Hq. apply lookup_delete_None. by right.
Qed.

#[local] Hint Resolve tidies_Lstat tidies_Remove : steps_db.

Lemma tidies_Open key : steps tidies (Open key).
Proof.
  unfold Open, Open_after, selfHeal, DropGen, unlinkLocked. steps_go; try by apply tidies_index.
  all: apply tidies_index; intros st; by destruct (entries st !! key).
Qed.

Lemma tidies_Drop key : steps tidies (Drop key).
Proof. unfold Drop, unlinkLocked. steps_go; by apply tidies_index. Qed.

(** The temporary file is removed. *)
Lemma cleanup_idle n o X : triple (books n o busy) (attempt (cached (Remove tempPath)) ;; mret tt) (fun _ => books n o idle) X.
Proof.
  intros s [B1 B2 B3 B4]. unfold wp, attempt, cached, on_shared, zoom. run_goal. specialize (clean_idle _ B3). unfold wp in clean_idle.
  destruct (Remove tempPath (sh_store (d_shared s))) as [[a|e] st]; cbn; by split.
Qed.

(** ** The handler *)

Lemma books_busy n o s : books n o idle s -> books n o busy s.
Proof. intros [B1 B2 B3 B4]. split; auto. Qed.

Lemma cache_open_balanced n o key : balanced n o idle (cache_open key).
Proof.
  unfold cache_open. eapply triple_bind; [apply meanwhile_balanced, idle_alone|]. intros ?.
  eapply triple_bind; [apply attempt_balanced, keeps_idle, tidies_Open|]. intros r. by apply triple_ret.
Qed.

Lemma fill_loop_balanced n o rounds waited key : triple (books n o idle) (fill_loop rounds waited key)
  (fun f s => match f with Lead => exists o', led key o o' /\ books n o' idle s | _ => books n o idle s end) (books n o idle).
Proof.
  revert waited. induction rounds as [|rounds IH]; intros waited;
    cbn -[cache_open begin_flight next_wait count];
    (eapply triple_bind; [apply cache_open_balanced|intros [fd|]; [by apply triple_ret|]];
     eapply triple_bind; [apply begin_balanced, idle_alone|intros [|]; [by apply triple_ret|]]).
  - eapply triple_bind; [apply untouched_balanced, untouched_count|]. intros ?. by apply triple_ret.
  - eapply triple_bind; [destruct waited; [by apply (triple_ret _ _ (fun _ => books n o idle))|apply untouched_balanced, untouched_count]|]. intros ?.
    eapply triple_bind; [apply untouched_balanced, untouched_next_wait|]. intros [| |]; [apply IH| |by apply triple_ret].
    eapply triple_bind; [apply untouched_balanced, untouched_count|]. intros ?. by apply triple_ret.
Qed.

Lemma fetch_balanced n o get id : balanced n o busy (fetch tempPath get id).
Proof.
  unfold fetch. eapply triple_bind; [apply meanwhile_balanced, busy_alone|]. intros ?. destruct (get id) as [file out].
  eapply (triple_bind _ _ (fun _ => books n o busy)).
  - apply triple_modify. intros s [B1 B2 B3 B4]. split; try done. by apply write_busy.
  - intros ?. destruct out; [by apply triple_ret|by apply triple_refuse].
Qed.

Lemma fetch_upload_balanced n o u : balanced n o busy (fetch_upload tempPath u).
Proof.
  unfold fetch_upload. destruct (u_data_map u); [apply fetch_balanced|]. destruct (u_datamap_address u); [|by apply triple_refuse].
  destruct (bool_decide _); apply fetch_balanced.
Qed.

Lemma promote_balanced n o u key budget : balanced n o busy (promote tempPath u key budget).
Proof.
  unfold promote, resurrection_guard. do 2 (eapply triple_bind; [apply untouched_balanced, untouched_int|intros ?]).
  eapply triple_bind; [destruct (1 <? _); [eapply triple_bind; [apply untouched_balanced, untouched_bump|intros ?]|]; by apply (triple_ret _ _ (fun _ => books n o busy))|].
  intros [|]; [apply untouched_balanced, untouched_count|].
  eapply triple_bind; [apply attempt_balanced, keeps_busy, tidies_Lstat|]. intros [f|e]; [|by apply triple_ret].
  destruct (_ <? _); [by apply triple_ret|]. eapply triple_bind; [apply meanwhile_balanced, busy_alone|]. intros ?.
  eapply triple_bind; [apply attempt_balanced, promote_busy|]. intros [x|e]; [|by apply triple_ret].
  eapply triple_bind; [apply untouched_balanced, untouched_count|]. intros ?. eapply triple_bind; [apply meanwhile_balanced, busy_alone|]. intros ?.
  eapply triple_bind; [apply untouched_balanced, steps_attempt, untouched_svc|]. intros [x'|e]; [by apply triple_ret|].
  destruct (errors_is _ _); [|by apply triple_ret]. eapply triple_bind; [apply meanwhile_balanced, busy_alone|]. intros ?.
  eapply triple_bind; [apply attempt_balanced, keeps_busy, tidies_Drop|]. intros ?. by apply triple_ret.
Qed.

Lemma download_balanced n o userID u cacheKey el budget : balanced n o idle (download tempPath userID u cacheKey el budget).
Proof.
  unfold download. eapply (triple_finally _ _ _ (fun _ => books n o busy) _ (books n o busy)); [|intros ?; apply cleanup_idle..|apply cleanup_idle].
  eapply triple_pre; [|intros s; apply books_busy].
  eapply triple_bind; [apply untouched_balanced, untouched_int|]. intros ?. eapply triple_bind; [apply fetch_upload_balanced|]. intros ?.
  eapply triple_bind; [apply triple_or_refuse, (cached_balanced n o busy _ (fun _ => busy)), keeps_busy; unfold open_temp; steps_go; apply tidies_syscall|].
  intros f. eapply triple_bind; [apply attempt_balanced, keeps_busy, tidies_syscall|]. intros st.
  eapply triple_bind; [destruct (is_ok st); [apply untouched_balanced, untouched_count|by apply (triple_ret _ _ (fun _ => books n o busy))]|]. intros ?.
  eapply triple_bind; [destruct el; [apply untouched_balanced, untouched_count|by apply (triple_ret _ _ (fun _ => books n o busy))]|]. intros ?.
  eapply triple_bind; [destruct cacheKey; [apply promote_balanced|by apply (triple_ret _ _ (fun _ => books n o busy))]|]. intros ?.
  eapply triple_bind; [apply untouched_balanced, untouched_note|]. intros ?. by apply triple_ret.
Qed.

Lemma hit_balanced n o userID u fd : balanced n o idle (serveCacheHit userID u fd).
Proof. unfold serveCacheHit. eapply triple_bind; [apply untouched_balanced, untouched_note|]. intros ?. by apply triple_ret. Qed.

Lemma admitted_balanced n o userID u cacheKey el budget wait : balanced n o idle (admitted_download tempPath userID u cacheKey el budget wait).
Proof.
  unfold admitted_download. eapply triple_bind; [apply triple_get|]. intros s0.
  eapply (triple_pre _ (books n o idle)); [|by intros s [H _]].
  eapply triple_bind; [apply acquire_balanced, idle_alone|]. intros [|]; cbn [negb].
  - assert (triple (books (n + 1) o idle) (match cacheKey with Some key => cache_open key | None => mret None end)
      (fun _ => books (n + 1) o idle) (books n o idle)) as Hopen.
    { destruct cacheKey as [key|]; [|by apply triple_ret]. unfold cache_open.
      eapply triple_bind; [apply meanwhile_balanced, idle_alone|]. intros ?.
      eapply triple_bind; [apply (triple_attempt_keeps (books (n + 1) o idle)), (cached_balanced _ o idle _ (fun _ => idle)), keeps_idle, tidies_Open|].
      intros r. by apply triple_ret. }
    eapply triple_bind; [exact Hopen|]. intros [fd|].
    + eapply triple_bind; [apply release_balanced, idle_alone|]. intros ?. apply hit_balanced.
    + eapply triple_finally; [apply download_balanced|intros ?; apply release_balanced, idle_alone|apply release_balanced, idle_alone].
  - eapply triple_bind; [apply untouched_balanced, untouched_int|]. intros ?.
    eapply triple_bind; [apply untouched_balanced, untouched_note|]. intros ?. by apply triple_refuse.
Qed.

Lemma DownloadUpload_balanced override n o userID uid inm : balanced n o idle (DownloadUpload override tempPath userID uid inm).
Proof.
  unfold DownloadUpload. eapply triple_bind; [apply untouched_balanced, steps_or_refuse, untouched_svc|]. intros u.
  destruct (negb (u_user_id u =? userID)).
  { eapply triple_bind; [apply untouched_balanced, untouched_note|]. intros ?. by apply triple_refuse. }
  eapply triple_bind; [by apply triple_require|]. intros ?. apply triple_pull. intros _.
  destruct (negb _ && _); [by apply triple_ret|]. do 2 (eapply triple_bind; [apply untouched_balanced, untouched_int|intros ?]).
  eapply (triple_bind _ _ (fun _ => books n o idle)).
  { destruct (_ && _); [destruct (bool_decide (u_visibility u = Public)); [by apply triple_ret|apply untouched_balanced, untouched_bool]|by apply triple_ret]. }
  intros el. destruct (if el then _ else None) as [key|]; [|apply admitted_balanced].
  eapply triple_bind; [apply fill_loop_balanced|]. intros [fd| | |]; [apply hit_balanced| |apply admitted_balanced|by apply triple_ret].
  intros s (o' & Hl & Hs). revert s Hs. apply (triple_finally _ _ _ (fun _ => books n o' idle) _ (books n o' idle));
    [apply admitted_balanced|intros ?; by apply finish_balanced; [apply idle_alone|]|by apply finish_balanced; [apply idle_alone|]].
Qed.
End returns.

(** ** The temporary file *)

Section tidy.
Context (tempPath r0 : string).

(** The file system works, and the temporary file is not there. *)
Definition working (st : Store) : Prop := io st = [] /\ root st = r0.
Definition tidy (st : Store) : Prop := working st /\ disk st !! tempPath = None.

#[local] Hint Resolve tidies_syscall tidies_Lstat tidies_Remove : steps_db.

Lemma keeps_tidy {A} (m : CacheM A) : steps tidies m -> triple tidy m (fun _ => tidy) tidy.
Proof. intros H. eapply triple_steps; [exact H|]. intros s s' (R & I & D) [[W1 W2] W3]. split; [split; [auto|congruence]|auto]. Qed.

Lemma keeps_working {A} (m : CacheM A) : steps tidies m -> triple working m (fun _ => working) working.
Proof. intros H. eapply triple_steps; [exact H|]. intros s s' (R & I & D) [W1 W2]. split; [auto|congruence]. Qed.

Lemma promote_working key budget : triple working (PromoteIfFits key tempPath budget) (fun _ => working) working.
Proof.
  eapply (triple_steps (fun s s' => root s' = root s /\ (io s = [] -> io s' = []))); [|by intros s s' [R I] [W1 W2]; split; [auto|congruence]].
  assert (forall A (m : CacheM A), steps tidies m -> steps (fun s s' => root s' = root s /\ (io s = [] -> io s' = [])) m) as Hm.
  { intros A m. apply steps_mono. intros s s' (R & I & _). by split. }
  assert (PreOrder (fun s s' => root s' = root s /\ (io s = [] -> io s' = []))) as Hp.
  { split; [by intros s|]. intros a b c [? ?] [? ?]. split; [congruence|auto]. }
  unfold PromoteIfFits, promote_locked, Rename. steps_go; try (by apply Hm; eauto with steps_db); try by apply steps_modify.
Qed.

Lemma clean_tidy : triple working (Remove tempPath) (fun _ => tidy) tidy.
Proof.
  intros st [W1 W2]. unfold wp, Remove, syscall. run_goal. rewrite W1. run_goal.
  destruct (disk st !! tempPath) as [f|] eqn:E; cbn; (split; [by split|]); [apply lookup_delete_eq|done].
Qed.

Lemma write_working st f : working st -> working (write_file tempPath f st).
Proof. by destruct f. Qed.
End tidy.

(** ** The wakings *)

Lemma bind_same {E S A B} (m : ST E S A) (f g : A -> ST E S B) s :
  (forall a s', m s = (Ok a, s') -> f a s' = g a s') -> (m ≫= f) s = (m ≫= g) s.
Proof. intros H. unfold mbind, ST_bind. destruct (m s) as [[a|e] s']; [by apply H|done]. Qed.

Lemma int_setting_waits key d lo hi s r s' : int_setting key d lo hi s = (r, s') -> d_waits s' = d_waits s.
Proof.
  unfold int_setting, svc, on_shared, attempt, zoom. run_goal.
  destruct (GetIntWithBounds _ _ _ _ _) as [[x|e] c]; by intros [= _ <-].
Qed.

(** A request wakes at most once per closed channel: its wait ends. *)
Lemma acquire_fuel n m s : (length (d_waits s) <= n)%nat -> (length (d_waits s) <= m)%nat -> acquire n s = acquire m s.
Proof.
  revert m s. induction n as [|n IH]; intros m s Hn Hm.
  all: destruct m as [|m]; cbn -[int_setting meanwhile next_wait Gate.try_acquire]; [try done|try done].
  all: apply bind_same; intros limit s1 E1; apply int_setting_waits in E1; apply bind_same; intros [] s2 E2; apply bind_same; intros s0 s3 [= <- <-].
  all: assert (d_waits s2 = d_waits s) as Ew by (unfold meanwhile in E2; injection E2 as <-; rewrite <- E1; by destruct (d_others s1)).
  all: destruct (Gate.try_acquire _ _) as [r g]; apply bind_same; intros [] s4 [= <-]; destruct r; try done.
  all: apply bind_same; intros w s5 E5; unfold next_wait in E5; cbn in E5; rewrite Ew in E5; destruct (d_waits s) as [|w' ws] eqn:E.
  all: cbn in Hn, Hm; try lia; injection E5 as <- <-; try done; destruct w'; try done; apply IH; cbn; lia.
Qed.

(** ** What is claimed *)

(** Nothing said of the store. *)
Lemma anything {A} (m : CacheM A) : triple (fun _ => True) m (fun _ _ => True) (fun _ => True).
Proof. intros s _. unfold wp. by destruct (m s) as [[a|e] s']. Qed.

(** C23. Whatever becomes of a download, served, refused, failed, timed out or
    abandoned by its client, and whatever the file system, the daemon, the
    database and the other requests do: it has returned to the gate the slot it
    took, no more and no less; and of no flight that the others leave alone has it
    changed whether it is in the air, so that one it led, in whichever round it
    was elected, has ended. If the file system works and nobody else touches the
    temporary file, that file is gone. *)
Theorem DownloadUpload_gives_back `{net : Network} (tempPath k : string) (c : nat) (delta : (Shared -> Shared) -> Z) (override : option Z)
    (userID : Z) (uid ifNoneMatch : string) (s : Dl) r s' (Hothers : Forall (polite k c delta) (d_others s)) :
  DownloadUpload override tempPath userID uid ifNoneMatch s = (r, s') ->
  pending delta s' = pending delta s /\
  (inflight (sh_flights (d_shared s')) !! k = Some c <-> inflight (sh_flights (d_shared s)) !! k = Some c) /\
  forall r0, Forall (respects (tidy tempPath r0) (working r0)) (d_others s) -> tidy tempPath r0 (sh_store (d_shared s)) ->
    disk (sh_store (d_shared s')) !! tempPath = None.
Proof.
  intros Hrun. apply Logic.and_assoc. split.
  - assert (books k c delta (fun _ => True) (fun _ => True) (pending delta s) (in_flight k c s) (fun _ => True) s) as Hb.
    { split; [done|done|done|]. eapply Forall_impl; [exact Hothers|]. intros f Hf. split; [exact Hf|by intros sh]. }
    pose proof (triple_run _ _ _ _ _ _ _ (DownloadUpload_balanced tempPath k c delta (fun _ => True) (fun _ => True) (fun _ H => H)
      (fun _ m _ => anything m) (fun _ m _ => anything m) (fun _ _ H => H) (fun _ _ => anything _) (anything _) override _ _ userID uid ifNoneMatch) Hb Hrun) as H.
    assert (pending delta s' = pending delta s /\ in_flight k c s' = in_flight k c s) as [H1 H2] by (by destruct r; destruct H).
    split; [done|]. unfold in_flight in H2. do 2 case_bool_decide; done.
  - intros r0 Hr Ht. assert (books k c delta (tidy tempPath r0) (working r0) (pending delta s) (in_flight k c s) (tidy tempPath r0) s) as Hb.
    { split; [done|done|done|]. apply Forall_and. by split. }
    pose proof (triple_run _ _ _ _ _ _ _ (DownloadUpload_balanced tempPath k c delta (tidy tempPath r0) (working r0) (fun _ H => proj1 H)
      (fun _ m => keeps_tidy tempPath r0 m) (fun _ m => keeps_working r0 m) (write_working tempPath r0) (promote_working tempPath r0)
      (clean_tidy tempPath r0) override _ _ userID uid ifNoneMatch) Hb Hrun) as H.
    destruct r; destruct H as [_ _ [_ H] _]; exact H.
Qed.

Definition demo_delta (f : Shared -> Shared) : Z := Gate.g_inFlight (sh_gate (f demo_shared)) - Gate.g_inFlight (sh_gate demo_shared).

Lemma takes_slot_polite k c : polite k c demo_delta takes_slot.
Proof. intros sh. by split. Qed.

Lemma sweeps_polite k c key : polite k c demo_delta (sweeps key).
Proof. intros sh. split; [change (Gate.g_inFlight (sh_gate sh) = Gate.g_inFlight (sh_gate sh) + 0); lia|done]. Qed.

Lemma takes_slot_respects t r0 : respects (tidy t r0) (working r0) takes_slot.
Proof. intros sh. by split. Qed.

Lemma sweeps_respects t r0 key : respects (tidy t r0) (working r0) (sweeps key).
Proof.
  intros sh. split; intros H.
  - apply (keeps_tidy t r0 _ (tidies_Drop key)) in H. unfold wp in H. cbn. by destruct (fst (Drop key (sh_store sh))).
  - apply (keeps_working r0 _ (tidies_Drop key)) in H. unfold wp in H. cbn. by destruct (fst (Drop key (sh_store sh))).
Qed.

(** Another request that leads the flight on channel 0 ends it. *)
Definition finishes (key : string) (sh : Shared) : Shared :=
  if bool_decide (inflight (sh_flights sh) !! key = Some 0%nat) then put_sh_flights (Finish key (sh_flights sh)) sh else sh.

Lemma finishes_polite key c : c <> 0%nat -> polite key c demo_delta (finishes key).
Proof.
  intros Hc sh. assert (demo_delta (finishes key) = 0) as ->.
  { unfold demo_delta, finishes. rewrite bool_decide_eq_false_2; [done|]. cbn. by rewrite lookup_empty. }
  unfold finishes. case_bool_decide as E; [|split; [lia|done]].
  split; [cbn; lia|]. unfold put_sh_flights, Finish. rewrite E. cbn. rewrite lookup_delete_eq. split; congruence.
Qed.

Definition demo_key : string := Eval vm_compute in KeyForIdentifier "map-1".

(** While another leads, this one waits; the flight ends, and it leads the next one,
    on channel 1. Two others take slots meanwhile. *)
Definition second_round : Dl :=
  let sh := put_sh_flights (snd (Begin demo_key NewFlight)) demo_shared in
  mkDl sh [takes_slot; takes_slot; finishes demo_key] [WaitDone] [].

Example second_round_leads :
  let s' := snd (@DownloadUpload demo_net None "/tmp/dl-1" 7 "uuid-1" "" second_round) in
  next_chan (sh_flights (d_shared s')) = 2%nat /\ inflight (sh_flights (d_shared s')) = ∅ /\ dm_CoalescedWaits (sh_metrics (d_shared s')) = 1.
Proof. vm_compute. done. Qed.

Lemma DownloadUpload_gives_back_witness :
  (exists r s', @DownloadUpload demo_net None "/tmp/dl-1" 7 "uuid-1" "" second_round = (r, s') /\ pending demo_delta s' = 2 /\
   (inflight (sh_flights (d_shared s')) !! demo_key = Some 1%nat <-> inflight (sh_flights (d_shared second_round)) !! demo_key = Some 1%nat)) /\
  exists r s', @DownloadUpload demo_net None "/tmp/dl-1" 7 "uuid-1" "" demo = (r, s') /\ disk (sh_store (d_shared s')) !! "/tmp/dl-1" = None.
Proof.
  split.
  - destruct (@DownloadUpload demo_net None "/tmp/dl-1" 7 "uuid-1" "" second_round) as [r s'] eqn:E. exists r, s'. split; [exact eq_refl|].
    refine ((fun H => conj (proj1 H) (proj1 (proj2 H))) _).
    apply (@DownloadUpload_gives_back demo_net "/tmp/dl-1" demo_key 1 demo_delta None 7 "uuid-1" "" second_round r s'); [|exact E].
    exact (Forall_cons_2 _ _ _ (takes_slot_polite _ _) (Forall_cons_2 _ _ _ (takes_slot_polite _ _)
      (Forall_cons_2 _ _ _ (finishes_polite demo_key 1 ltac:(discriminate)) (Forall_nil_2 _)))).
  - destruct (@DownloadUpload demo_net None "/tmp/dl-1" 7 "uuid-1" "" demo) as [r s'] eqn:E. exists r, s'. split; [exact eq_refl|].
    refine (proj2 (proj2 (@DownloadUpload_gives_back demo_net "/tmp/dl-1" "k" 0 demo_delta None 7 "uuid-1" "" demo r s' _ E)) "/cache" _ _).
    + exact (Forall_cons_2 _ _ _ (takes_slot_polite _ _) (Forall_cons_2 _ _ _ (sweeps_polite _ _ "0123456789abcdef")
        (Forall_cons_2 _ _ _ (takes_slot_polite _ _) (Forall_nil_2 _)))).
    + exact (Forall_cons_2 _ _ _ (takes_slot_respects _ _) (Forall_cons_2 _ _ _ (sweeps_respects _ _ "0123456789abcdef")
        (Forall_cons_2 _ _ _ (takes_slot_respects _ _) (Forall_nil_2 _)))).
    + split; [split; exact eq_refl|exact eq_refl].
Defined.
