(* ===== verification/UploadHandlers.v ===== *)
(** * Uploads

    The handlers of src/internal/handlers/uploads.go other than the download
    (Download.v): accepting a file, listing, quoting, cancelling, retrying,
    deleting; and ListByUserFiltered of src/internal/services/upload.go, which
    only the listing uses. The body of a multipart request is what its parts are
    and how many bytes the parser reads before it is done or gives up. *)

From stdpp Require Import gmap strings pretty.
From Stdlib Require Import Ascii.
From S2P Require Import Prelude GoLib Sql Schema Stmt Clock UploadStore QuotaSvc Settings Keyring Cache AccountSchema Users Tokens Library Tags Http Base64 Front AuthHandlers Download.

Open Scope Z_scope.

(** ** State *)

(** The tables, the disk with the download cache on it, the patterns the rule
    service has compiled, and the webhook events that were handed over. *)
Record Desk := mkDesk {
  dk_front : Front;
  dk_lib : World Library;
  dk_store : Store;
  dk_regex : gmap string (result string (string -> bool));
  dk_fired : list (string * Upload);
  dk_settings : gmap string (string * Z);  (* CachedSettingsService *)
}.

Abbreviation DeskM := (ST Refusal Desk).

Definition put_dk_front v s := mkDesk v (dk_lib s) (dk_store s) (dk_regex s) (dk_fired s) (dk_settings s).
Definition put_dk_lib v s := mkDesk (dk_front s) v (dk_store s) (dk_regex s) (dk_fired s) (dk_settings s).
Definition put_dk_store v s := mkDesk (dk_front s) (dk_lib s) v (dk_regex s) (dk_fired s) (dk_settings s).
Definition put_dk_regex v s := mkDesk (dk_front s) (dk_lib s) (dk_store s) v (dk_fired s) (dk_settings s).

Definition in_front {E A} (m : ST E Front A) : ST E Desk A := zoom dk_front put_dk_front m.
Definition udb {A} (m : DbM A) : ST error Desk A := in_front (fdb m).
Definition uacc {A} (m : AcM A) : ST error Desk A := in_front (acc m).
Definition disk_io {A} (m : CacheM A) : ST error Desk A := zoom dk_store put_dk_store m.

(** The cached settings, over the database. *)
Definition settings_of (s : Desk) : CachedSettings := mkCached (fr_db (dk_front s)) (dk_settings s).
Definition put_settings (c : CachedSettings) (s : Desk) : Desk :=
  mkDesk (put_fr_db (c_db c) (dk_front s)) (dk_lib s) (dk_store s) (dk_regex s) (dk_fired s) (c_cache c).
Definition cached_setting {A} (m : SetM A) : ST error Desk A := zoom settings_of put_settings m.

(** The tables of tags beside the uploads as they now are. *)
Definition beside (d : Db) (l : Library) : Library :=
  mkLibrary (uploads d) (seq_uploads d) (lb_users l) (lb_tags l) (lb_seq_tags l) (lb_collections l) (lb_seq_collections l) (lb_files l) (lb_ctags l) (lb_seq_ctags l)
    (lb_rules l) (lb_seq_rules l) (lb_now l).
Definition library_of (s : Desk) : World Library := mkWorld (beside (fr_db (dk_front s)) (tables (dk_lib s))) (sched (dk_lib s)).
Definition tagging {A} (m : LibM A) : ST error Desk A := zoom library_of put_dk_lib m.

Definition audit_upload (eventType severity : string) (userID : Z) (detail : string) : DeskM unit :=
  in_front (auditEvent eventType severity (Some userID) detail).
Definition fire_upload (eventType : string) (u : Upload) : DeskM unit :=
  modify (fun s => mkDesk (dk_front s) (dk_lib s) (dk_store s) (dk_regex s) (dk_fired s ++ [(eventType, u)]) (dk_settings s)).

(** A setting, when it can be read. *)
Definition read_setting (key : string) : DeskM (option string) :=
  r ← attempt (udb (Settings.Get key)); mret (match r with Ok v => Some v | Err _ => None end).

(** ** Answers *)

Record uploadResponse := mkUpResp {
  ur_UUID : string; ur_Filename : string; ur_OriginalFilename : string; ur_FileSize : Z; ur_ContentType : string; ur_Visibility : string;
  ur_Status : string; ur_StatusDetail : option string; ur_DatamapAddress : option string; ur_EstimatedCost : option string;
  ur_ActualCost : option string; ur_ErrorMessage : option string; ur_BackoffUntil : option string; ur_BackoffAttempt : Z;
  ur_LastQuotedCost : option string; ur_QueuedAt : string; ur_ProcessingAt : option string; ur_CompletedAt : option string;
  ur_FailedAt : option string; ur_CreatedAt : string;
}.

Definition toUploadResponse (u : Upload) : uploadResponse :=
  mkUpResp (u_uuid u) (u_filename u) (u_original_filename u) (u_file_size u) (u_content_type u) (visibility_text u)
    (status_str (u_status u)) (u_status_detail u) (u_datamap_address u) (u_estimated_cost u)
    (u_actual_cost u) (u_error_message u) (format_opt (u_backoff_until u)) (u_backoff_attempt u)
    (u_last_quoted_cost u) (format_z (u_queued_at u)) (format_opt (u_processing_at u)) (format_opt (u_completed_at u))
    (format_opt (u_failed_at u)) (format_z (u_created_at u)).

(** ** The content types a caller may upload *)

Definition default_types : string :=
  "image/*,application/pdf,text/*,application/json,application/zip,application/gzip,application/x-tar,video/*,audio/*,application/octet-stream".

Section types.
Context {js : JsonStrings} {mb : Mailbox}.

Definition jsonArrayToCSV (s : string) : string := match Unmarshal_strings s with Ok arr => Join arr "," | Err _ => "" end.

(** The list a tier sets, if it sets one. *)
Definition tier_types (column : option string) : option string :=
  types ← some_text column; some_text (Some (jsonArrayToCSV types)).

Definition effectiveAllowlist (tok : option ApiToken) (user : option User) : DeskM string :=
  match tok ≫= (fun t => tier_types (tk_AllowedFileTypes t)) with
  | Some csv => mret csv
  | None =>
      match user ≫= (fun u => tier_types (us_AllowedFileTypes u)) with
      | Some csv => mret csv
      | None => v ← read_setting "allowed_upload_content_types"; mret (default default_types (some_text v))
      end
  end.

(** Up to the first semicolon. *)
Definition media_type (ct : string) : string :=
  let ct := ToLower (TrimSpace ct) in
  match Cut ct ";" with Some (t, _) => TrimSpace t | None => ct end.

Definition matches_pattern (ct pattern : string) : bool :=
  let pattern := ToLower (TrimSpace pattern) in
  if String.eqb pattern "" then false else
  String.eqb pattern ct || (HasSuffix pattern "/*" && HasPrefix ct (take_str (String.length pattern - 1) pattern)).

Definition matchContentType (ct allowlist : string) : bool :=
  if String.eqb (TrimSpace allowlist) "" then false else existsb (matches_pattern (media_type ct)) (Split allowlist ",").
End types.

(** ** Names *)

Fixpoint strip_slashes (s : list ascii) : list ascii :=
  match s with c :: s' => if Ascii.eqb c "/" then strip_slashes s' else s | [] => [] end.

Fixpoint until_char (c : ascii) (s : list ascii) : option (list ascii) :=
  match s with
  | [] => None
  | d :: s' => if Ascii.eqb c d then Some [] else (cons d) <$> until_char c s'
  end.

(** [filepath.Base]; texts are reversed here. *)
Definition path_base (p : string) : string :=
  if String.eqb p "" then "." else
  let s := strip_slashes (rev (String.list_ascii_of_string p)) in
  if bool_decide (s = []) then "/" else String.string_of_list_ascii (rev (default s (until_char "/" s))).

(** [filepath.Ext]: from the last dot of the last element. *)
Definition path_ext (p : string) : string :=
  let s := rev (String.list_ascii_of_string p) in
  let last := default s (until_char "/" s) in
  match until_char "." last with Some e => String "." (String.string_of_list_ascii (rev e)) | None => "" end.

(** Without null bytes. *)
Definition drop_nulls (s : string) : string :=
  String.string_of_list_ascii (List.filter (fun c => negb (Ascii.eqb c Ascii.zero)) (String.list_ascii_of_string s)).

Example base_of_path : path_base "a/b.txt" = "b.txt" /\ path_base "a/" = "a" /\ path_base "//" = "/" /\ path_base "" = ".". Proof. by vm_compute. Qed.
Example ext_of_path : path_ext "b.tar.gz" = ".gz" /\ path_ext "b" = "" /\ path_ext "b." = ".". Proof. by vm_compute. Qed.

(** ** The request *)

(** The part of the file: the name and type its header states, its bytes. *)
Record Part := mkPart { pt_Filename : string; pt_ContentType : string; pt_data : string }.
Record Form := mkForm { fm_file : option Part; fm_visibility : string; fm_tags : string }.

(** [by_form]: nothing, when it is malformed. *)
Record Body := mkBody { by_read : Z; by_form : option Form }.

Inductive parse_error := TooLarge | Malformed.

(** [MaxBytesReader] and [ParseMultipartForm]. *)
Definition ParseMultipartForm (limit : Z) (b : Body) : result parse_error Form :=
  if limit <? by_read b then Err TooLarge else match by_form b with Some f => Ok f | None => Err Malformed end.

(** [json.Unmarshal] into a map of lists, and into a map of texts. *)
Class JsonTags := { Unmarshal_multi : string -> result error TagMap; Unmarshal_single : string -> result error (gmap string string) }.

Definition file_too_large : Refusal := jsonErrorWithCode "file exceeds maximum upload size" "file_too_large" 413.

Definition file_length (data : string) : Z := Z.of_nat (String.length data).

(** [os.Create] and [io.Copy]: what fails on the way leaves a part. *)
Definition create_file (p : string) : CacheM unit :=
  syscall ;; modify (fun s => with_disk (<[p := mkFile true 0 ""]> (disk s)) s).
Definition copy_into (p data : string) : CacheM Z :=
  syscall ;; modify (fun s => with_disk (<[p := mkFile true (file_length data) data]> (disk s)) s) ;; mret (file_length data).

Definition remove_temp (p : string) : DeskM unit := attempt (disk_io (Remove p)) ;; mret tt.

(** [counts[k]]. *)
Definition count_of (k : string) (counts : list (string * Z)) : Z :=
  match List.find (fun p => String.eqb (fst p) k) counts with Some (_, n) => n | None => 0 end.

Section handlers.
Context {rx : Regexp} {js : JsonStrings} {jt : JsonTags} {mb : Mailbox}.
(** The orders in which the loops visit maps; where temporary files go. *)
Context (visit : TagMap -> list (string * list string)) (tempDir : string).

Record accepted := mkAccepted { ac_message : string; ac_upload : uploadResponse; ac_queue_position : Z }.

(** The checks before the body is read. *)
Definition admit_upload : DeskM unit :=
  wallet ← attempt (udb GetDefault);
  require (is_ok wallet) (jsonErrorWithCode "No wallet configured" "wallet_not_configured" 503) ;;
  paused ← read_setting "uploads_paused";
  require (negb (bool_decide (paused = Some "true"))) (jsonErrorWithCode "Uploads are temporarily paused due to low disk space" "uploads_paused" 503) ;;
  down ← read_setting "antd_unavailable";
  require (negb (bool_decide (down = Some "true")))
    (jsonErrorWithCode "The Autonomi network is currently unreachable, please try again shortly" "network_unavailable" 503).

Definition queue_has_room : DeskM unit :=
  v ← read_setting "max_queued_uploads";
  match v ≫= ParseInt with
  | Some maxQueued =>
      if 0 <? maxQueued then
        counts ← attempt (udb CountByStatus);
        let counts := match counts with Ok c => c | Err _ => [] end in
        require (count_of "queued" counts + count_of "processing" counts <? maxQueued)
          (jsonErrorWithCode "Upload queue is full, please try again later" "queue_full" 429)
      else mret tt
  | None => mret tt
  end.

Definition system_max_size : DeskM Z :=
  v ← read_setting "max_upload_size_bytes";
  mret (match v ≫= ParseInt with Some n => if 0 <? n then n else 10 * 2 ^ 30 | None => 10 * 2 ^ 30 end).

(** A limit that is set: above zero. *)
Definition set_limit (n : option Z) : option Z := match n with Some n => if 0 <? n then Some n else None | None => None end.

Definition max_upload_size (system : Z) (tok : option ApiToken) (user : User) : Z :=
  match tok ≫= (fun t => set_limit (tk_MaxFileSizeBytes t)) with
  | Some n => if n <? system then n else system
  | None => match set_limit (us_MaxFileSizeBytes user) with Some n => if n <? system then n else system | None => system end
  end.

Definition parse_visibility (s : string) : option visibility :=
  if String.eqb s "" then Some Private else if String.eqb s "public" then Some Public else if String.eqb s "private" then Some Private else None.

Definition parse_tags (s : string) : option TagMap :=
  if String.eqb s "" then Some ∅ else
  match Unmarshal_multi s with
  | Ok m => Some m
  | Err _ => match Unmarshal_single s with Ok m => Some ((fun v => [v]) <$> m) | Err _ => None end
  end.

(** The temporary file with the bytes of the part. *)
Definition save_part (tempPath data : string) : DeskM Z :=
  or_refuse (fun _ => jsonError "failed to create temp file" 500) (disk_io (create_file tempPath)) ;;
  r ← attempt (disk_io (copy_into tempPath data));
  match r with
  | Err _ => remove_temp tempPath ;; refuse (jsonError "failed to save file" 500)
  | Ok n => mret n
  end.

(** The tags of the rules, under those of the request; their errors are logged. *)
Definition tag_upload (u : Upload) (originalFilename contentType : string) (written : Z) (tags : TagMap) : DeskM unit :=
  s ← get;
  auto ← attempt (tagging (EvaluateRules originalFilename contentType written (visibility_text u) (dk_regex s)));
  auto ← match auto with Ok (m, cache) => modify (put_dk_regex cache) ;; mret m | Err _ => mret ∅ end;
  let all := tags ∪ auto in
  if bool_decide (all = ∅) then mret tt else attempt (tagging (SetTags (u_id u) (visit all))) ;; mret tt.

(** What is known of a request before its file is written. *)
Record Vetted := mkVetted {
  vt_max : Z; vt_part : Part; vt_visibility : visibility; vt_tags : TagMap; vt_name : string; vt_type : string;
}.

(** The record of the token; [tokenID] is 0 for a session. *)
Definition token_record (tokenID : Z) : DeskM (option ApiToken) :=
  if tokenID =? 0 then mret None else
  t ← attempt (uacc (TokenGetByID tokenID)); mret (match t with Ok t => Some t | Err _ => None end).

Definition sanitized (filename : string) : string := drop_nulls (path_base filename).
Definition stated_type (t : string) : string := default "application/octet-stream" (some_text (Some t)).

(** CreateUpload, up to the temporary file. *)
Definition vet_upload (userID tokenID : Z) (body : Body) : DeskM Vetted :=
  admit_upload ;;
  queue_has_room ;;
  systemMax ← system_max_size;
  tokenRec ← token_record tokenID;
  userRec ← or_refuse (fun _ => jsonError "failed to load user" 500) (uacc (GetByID userID));
  let maxUploadSize := max_upload_size systemMax tokenRec userRec in
  form ← match ParseMultipartForm maxUploadSize body with
         | Ok f => mret f
         | Err TooLarge => refuse file_too_large
         | Err Malformed => refuse (jsonErrorWithCode "invalid multipart form" "invalid_request" 400)
         end;
  part ← decoded (fm_file form) (jsonError "file field is required" 400);
  vis ← decoded (parse_visibility (fm_visibility form)) (jsonError "visibility must be 'public' or 'private'" 400);
  uploadTags ← decoded (parse_tags (fm_tags form)) (jsonError "tags must be a JSON object of key to string or string array" 400);
  let originalFilename := sanitized (pt_Filename part) in
  require (negb (String.eqb originalFilename "" || String.eqb originalFilename ".")) (jsonError "invalid filename" 400) ;;
  let contentType := stated_type (pt_ContentType part) in
  allowlist ← effectiveAllowlist tokenRec (Some userRec);
  require (matchContentType contentType allowlist) (jsonError ("file type not allowed: " +:+ contentType) 415) ;;
  mret (mkVetted maxUploadSize part vis uploadTags originalFilename contentType).

(** [fileUUID] and [rowUUID] are what uuid.New returns. *)
Definition CreateUpload (userID tokenID : Z) (fileUUID rowUUID : string) (body : Body) : DeskM (Z * accepted) :=
  v ← vet_upload userID tokenID body;
  let safeFilename := fileUUID +:+ path_ext (vt_name v) in
  let tempPath := tempDir +:+ "/" +:+ safeFilename in
  written ← save_part tempPath (pt_data (vt_part v));
  if vt_max v <? written then remove_temp tempPath ;; refuse file_too_large else
  let tID := if tokenID =? 0 then None else Some tokenID in
  quota ← attempt (udb (CheckUserQuota userID tID written));
  match quota with
  | Err err =>
      remove_temp tempPath ;;
      audit_upload "file_upload_denied" "warn" userID ("reason=quota_exceeded filename=" +:+ vt_name v +:+ " size=" +:+ pretty written) ;;
      refuse (jsonErrorWithCode ("quota exceeded: " +:+ Error_ err) "quota_exceeded" 403)
  | Ok _ =>
      made ← attempt (udb (UploadStore.Create rowUUID userID tID safeFilename (vt_name v) written (vt_type v) (vt_visibility v) tempPath None));
      match made with
      | Err _ => remove_temp tempPath ;; refuse (jsonError "failed to queue upload" 500)
      | Ok upload =>
          tag_upload upload (vt_name v) (vt_type v) written (vt_tags v) ;;
          fire_upload "queued" upload ;;
          audit_upload "file_uploaded" "info" userID
            ("uuid=" +:+ u_uuid upload +:+ " filename=" +:+ vt_name v +:+ " size=" +:+ pretty written +:+ " visibility=" +:+ visibility_text upload) ;;
          counts ← attempt (udb CountByStatus);
          answer 202 (mkAccepted "upload queued" (toUploadResponse upload) (match counts with Ok c => count_of "queued" c | Err _ => 0 end))
      end
  end.

(** ** Costs *)

Section quotes.
(** antd's estimate: for the file at the path, within a timeout in seconds. *)
Context {estimate : Type} (FileCost : Z -> option File -> bool -> result error estimate) (is_payment is_not_found : error -> bool).

Record quoted := mkQuoted { qt_estimated_cost : estimate; qt_file_size : Z; qt_original_filename : string; qt_visibility : string }.

Definition QuoteUpload (fileUUID : string) (body : Body) : DeskM (Z * quoted) :=
  timeout ← attempt (cached_setting (GetIntWithBounds "antd_quote_timeout_secs" 300 1 3600));
  form ← match ParseMultipartForm (10 * 2 ^ 30) body with Ok f => mret f | Err _ => refuse (jsonError "file too large or invalid form" 400) end;
  part ← decoded (fm_file form) (jsonError "file field required" 400);
  let vis := if String.eqb (fm_visibility form) "" then "private" else fm_visibility form in
  let tempPath := tempDir +:+ "/quote-" +:+ fileUUID in
  written ← save_part tempPath (pt_data part);
  finally (
    s ← get;
    match FileCost (match timeout with Ok n => n | Err _ => 300 end) (disk (dk_store s) !! tempPath) (String.eqb vis "public") with
    | Err err => refuse (jsonAntdError (is_payment err) (is_not_found err) "cost estimation failed" err)
    | Ok est => answer 200 (mkQuoted est written (path_base (pt_Filename part)) vis)
    end)
  (remove_temp tempPath).
End quotes.
End handlers.

(** ** One upload *)

Definition own_upload (denied : DeskM unit) (userID : Z) (uploadUUID : string) : DeskM Upload :=
  u ← or_refuse (fun err => if errors_is err ErrUploadNotFound then jsonError "upload not found" 404 else jsonError "failed to get upload" 500)
        (udb (GetByUUID uploadUUID));
  if negb (u_user_id u =? userID) then denied ;; refuse (jsonError "upload not found" 404) else mret u.

Definition silently : DeskM unit := mret tt.

Definition GetUpload (userID : Z) (uploadUUID : string) : DeskM (Z * uploadResponse) :=
  u ← own_upload silently userID uploadUUID; answer 200 (toUploadResponse u).

(** [jsonError(w, err.Error(), http.StatusConflict)]. *)
Definition conflict (err : error) : Refusal := jsonError (Error_ err) 409.

Definition CancelUpload (userID : Z) (uploadUUID : string) : DeskM (Z * string) :=
  u ← own_upload silently userID uploadUUID; or_refuse conflict (udb (Cancel (u_id u))) ;; answer 200 "upload cancelled".

Definition RetryUpload (userID : Z) (uploadUUID : string) : DeskM (Z * string) :=
  u ← own_upload silently userID uploadUUID; or_refuse conflict (udb (Retry (u_id u))) ;; answer 200 "upload requeued".

Definition ForceRetryUpload (userID : Z) (uploadUUID : string) : DeskM (Z * string) :=
  u ← own_upload silently userID uploadUUID; or_refuse conflict (udb (ForceRetry (u_id u))) ;; answer 200 "upload retry forced".

(** Before the row goes: the first copy that cannot be removed ends it. *)
Fixpoint purge_all (userID : Z) (uploadUUID : string) (keys : list string) : DeskM unit :=
  match keys with
  | [] => mret tt
  | k :: keys =>
      r ← attempt (disk_io (Drop k));
      match r with
      | Ok _ => purge_all userID uploadUUID keys
      | Err err =>
          audit_upload "file_delete_purge_failed" "warn" userID ("uuid=" +:+ uploadUUID +:+ " error=" +:+ Error_ err) ;;
          refuse (jsonError "failed to purge cached copy; upload not deleted" 500)
      end
  end.

(** After it has gone: as many as can be. *)
Fixpoint purge_again (keys : list string) : DeskM unit :=
  match keys with [] => mret tt | k :: keys => attempt (disk_io (Drop k)) ;; purge_again keys end.

(** [cache]: whether the instance has one. *)
Definition DeleteUpload (cache : bool) (userID : Z) (uploadUUID : string) : DeskM (Z * string) :=
  u ← own_upload (audit_upload "file_delete_denied" "warn" userID ("uuid=" +:+ uploadUUID +:+ " reason=not_owner")) userID uploadUUID;
  let keys := if cache then CacheKeys u else [] in
  purge_all userID uploadUUID keys ;;
  or_refuse conflict (udb (Delete (u_id u))) ;;
  purge_again keys ;;
  audit_upload "file_deleted" "info" userID ("uuid=" +:+ u_uuid u +:+ " filename=" +:+ u_original_filename u) ;;
  answer 200 "upload deleted".

(** ** Lists *)

Record UploadListOptions := mkListOptions {
  lo_UserID : Z; lo_Limit : Z; lo_Offset : Z; lo_SortBy : string; lo_SortOrder : string; lo_Status : string;
  lo_From : option Z; lo_To : option Z;  (* seconds since the epoch *)
}.

Definition flip {A} (le : A -> A -> bool) (a b : A) : bool := le b a.

(** The columns that can be sorted by. *)
Definition sort_column (name : string) : Upload -> Upload -> bool :=
  if String.eqb name "file_size" then fun a b => u_file_size a <=? u_file_size b else
  if String.eqb name "filename" then fun a b => text_le (u_original_filename a) (u_original_filename b) else
  if String.eqb name "status" then fun a b => text_le (status_str (u_status a)) (status_str (u_status b)) else
  fun a b => u_created_at a <=? u_created_at b.

(** The dates of the filter are in a layout of their own (Clock.v). *)
Definition filter_text (t : Z) : string := iso_text (civil_of t) +:+ "Z".

Definition listed (opts : UploadListOptions) (u : Upload) : bool :=
  (u_user_id u =? lo_UserID opts)
  && (String.eqb (lo_Status opts) "" || String.eqb (status_str (u_status u)) (lo_Status opts))
  && match lo_From opts with None => true | Some t => text_le (filter_text t) (db_text (civil_of (u_created_at u))) end
  && match lo_To opts with None => true | Some t => text_le (db_text (civil_of (u_created_at u))) (filter_text t) end.

Definition ListByUserFiltered (opts : UploadListOptions) : DbM (list Upload * Z) :=
  let n := clamp_limit (lo_Limit opts) in
  let le := sort_column (lo_SortBy opts) in
  total ← query (fun d => affected (listed opts) (uploads d));
  rows ← query (fun d => limit n (offset (lo_Offset opts)
    (order_by (if String.eqb (lo_SortOrder opts) "asc" then le else flip le) (select (listed opts) (uploads d)))));
  mret (rows, total).

(** [base64.URLEncoding], padded. *)
Fixpoint b64_groups (l : list ascii) : option (list N) :=
  match l with
  | [] => Some []
  | a :: b :: c :: d :: rest =>
      a ← b64_value a; b ← b64_value b;
      match b64_value c, b64_value d with
      | Some c, Some d => r ← b64_groups rest; Some ((a * 4 + b / 16) :: (b mod 16 * 16 + c / 4) :: (c mod 4 * 64 + d) :: r)%N
      | Some c, None => if Ascii.eqb d "=" && bool_decide (rest = []) then Some [a * 4 + b / 16; b mod 16 * 16 + c / 4]%N else None
      | None, _ => if Ascii.eqb c "=" && Ascii.eqb d "=" && bool_decide (rest = []) then Some [a * 4 + b / 16]%N else None
      end
  | _ => None
  end.

Definition b64_decode (s : string) : option (list N) :=
  b64_groups (List.filter (fun c => negb (line_break c)) (String.list_ascii_of_string s)).

Definition text_of_bytes (bs : list N) : string := String.string_of_list_ascii (map ascii_of_N bs).

(** [json.Unmarshal] into a cursor; [time.Parse(time.RFC3339, ...)]. *)
Class Parsers := { Unmarshal_cursor : string -> result error Cursor; parse_rfc3339 : string -> option Z }.

Section lists.
Context {ps : Parsers}.

Definition DecodeCursor (s : string) : option Cursor :=
  bs ← b64_decode s; match Unmarshal_cursor (text_of_bytes bs) with Ok c => Some c | Err _ => None end.

Record list_query := mkListQuery {
  lq_limit : string; lq_offset : string; lq_cursor : string; lq_sort : string; lq_status : string; lq_from : string; lq_to : string;
}.

Record uploadPage := mkUploadPage {
  pg_uploads : list Upload;  (* each shown by toUploadResponse *)
  pg_counted : option (Z * Z * Z);  (* total, limit, offset *)
  pg_next : option string;
  pg_prev : option string;
}.

Definition cursor_at (dir : string) (u : option Upload) : option string := (fun u => EncodeCursor (mkCursor (u_id u) dir)) <$> u.

Definition failed_list (_ : error) : Refusal := jsonError "failed to list uploads" 500.

Definition list_from_cursor (userID limit : Z) (cursor : string) : DeskM (Z * uploadPage) :=
  let limit := if limit <=? 0 then 50 else limit in
  c ← decoded (DecodeCursor cursor) (jsonErrorWithCode "invalid cursor" "validation_error" 400);
  us ← or_refuse failed_list (udb (ListByUserCursor userID (add64 limit 1) (cu_ID c) (negb (String.eqb (cu_Dir c) "prev"))));
  let hasMore := limit <? Z.of_nat (length us) in
  let us := if hasMore then firstn (Z.to_nat limit) us else us in
  answer 200 (mkUploadPage us None (if hasMore then cursor_at "next" (last us) else None) (cursor_at "prev" (head us))).

Definition list_options (userID : Z) (q : list_query) : UploadListOptions :=
  let '(by_, order) := match Cut (lq_sort q) ":" with Some (f, d) => (f, d) | None => (lq_sort q, "") end in
  mkListOptions userID (atoi_or_zero (lq_limit q)) (atoi_or_zero (lq_offset q)) by_ order (lq_status q)
    (f ← some_text (Some (lq_from q)); parse_rfc3339 f) (t ← some_text (Some (lq_to q)); parse_rfc3339 t).

Definition ListUploads (userID : Z) (q : list_query) : DeskM (Z * uploadPage) :=
  let limit := atoi_or_zero (lq_limit q) in
  let offset := atoi_or_zero (lq_offset q) in
  if negb (String.eqb (lq_cursor q) "") then list_from_cursor userID limit (lq_cursor q) else
  if negb (String.eqb (lq_sort q) "" && String.eqb (lq_status q) "" && String.eqb (lq_from q) "" && String.eqb (lq_to q) "") then
    r ← or_refuse failed_list (udb (ListByUserFiltered (list_options userID q)));
    answer 200 (mkUploadPage (fst r) (Some (snd r, limit, offset)) None None)
  else
    r ← or_refuse failed_list (udb (ListByUser userID limit offset));
    answer 200 (mkUploadPage (fst r) (Some (snd r, limit, offset)) (cursor_at "next" (last (fst r))) None).
End lists.
