(* ===== verification/UploadSafety.v ===== *)
(** * What accepting and listing uploads guarantees

    An upload is accepted exactly when every limit that applies to it holds, and
    then is queued as it was asked for; refused, it leaves nothing behind. The
    pages of a listing, followed from cursor to cursor. *)

From stdpp Require Import gmap strings pretty.
From Stdlib Require Import Ascii.
From S2P Require Import Prelude GoLib Sql Schema Stmt Clock UploadStore QuotaSvc Settings Keyring Cache AccountSchema Users Tokens Library Tags Http Base64 Front AuthHandlers Triple Download UploadHandlers.

Open Scope Z_scope.

Abbreviation ddb s := (fr_db (dk_front s)).
Abbreviation dac s := (tables (fr_ac (dk_front s))).

(** Nothing fails for reasons of its own. *)
Record calm (s : Desk) : Prop := {
  cm_db : healthy (ddb s);
  cm_ac : sched (fr_ac (dk_front s)) = [];
  cm_lib : sched (dk_lib s) = [];
  cm_io : io (dk_store s) = [];
}.

(** ** Decisions

    A computation that looks and decides: it changes nothing, returns a value
    with [P], or refuses and there is none. *)

Definition decides {A} (P : A -> Prop) (m : DeskM A) (s : Desk) : Prop :=
  (exists a, m s = (Ok a, s) /\ P a) \/ (exists r, m s = (Err r, s) /\ forall a, ~ P a).

Lemma decides_ret {A} (P : A -> Prop) a s : P a -> decides P (mret a) s.
Proof. intros H. left. by exists a. Qed.

Lemma decides_refuse {A} (P : A -> Prop) r s : (forall a, ~ P a) -> decides P (refuse r) s.
Proof. intros H. right. by exists r. Qed.

Lemma decides_bind {A B} (P : A -> Prop) (Q : B -> Prop) m (f : A -> DeskM B) s :
  decides P m s -> (forall a, P a -> decides Q (f a) s) -> (forall b, Q b -> exists a, P a) -> decides Q (m ≫= f) s.
Proof.
  intros [(a & Hm & Ha)|(r & Hm & Hn)] Hf HQ; unfold decides, mbind, ST_bind; rewrite Hm.
  - by apply Hf.
  - right. exists r. split; [done|]. intros b Hb. destruct (HQ b Hb) as [a Ha]. by apply (Hn a).
Qed.

Lemma decides_require b r s : decides (fun _ => b = true) (require b r) s.
Proof. unfold require. destruct b; [left; by exists tt|right; exists r; by split]. Qed.

Lemma decides_decoded {A} (o : option A) r s : decides (fun a => o = Some a) (decoded o r) s.
Proof. unfold decoded. destruct o as [a|]; [left; by exists a|right; by exists r]. Qed.

(** A computation that only looks. *)
Definition looks {A} (m : DeskM A) (a : A) (s : Desk) : Prop := m s = (Ok a, s).

Lemma decides_look {A B} (Q : B -> Prop) m (a : A) (f : A -> DeskM B) s : looks m a s -> decides Q (f a) s -> decides Q (m ≫= f) s.
Proof. unfold looks, decides, mbind, ST_bind. by intros ->. Qed.

Lemma decides_iff {A} (P Q : A -> Prop) m s : decides P m s -> (forall a, P a <-> Q a) -> decides Q m s.
Proof. intros [(a & Hm & Ha)|(r & Hm & Hn)] H; [left; exists a|right; exists r]; split; try done; [by apply H|]. intros a Ha. by apply (Hn a), H. Qed.

(** ** Reading on a calm desk *)

Lemma udb_run {A} (m : DbM A) s r : m (ddb s) = (r, ddb s) -> udb m s = (r, s).
Proof. intros H. unfold udb, in_front, fdb, zoom. cbn. rewrite H. cbn. by destruct s as [[] ? ? ? ? ?]. Qed.

Lemma uacc_run {A} (m : AcM A) s r : m (fr_ac (dk_front s)) = (r, fr_ac (dk_front s)) -> uacc m s = (r, s).
Proof. intros H. unfold uacc, in_front, acc, zoom. cbn. rewrite H. cbn. by destruct s as [[] ? ? ? ? ?]. Qed.

Lemma attempt_run {S A} (m : ST error S A) (s : S) r s' : m s = (r, s') -> attempt m s = (Ok r, s').
Proof. intros H. unfold attempt. by rewrite H. Qed.

Lemma query_calm {A} (f : Db -> A) d : healthy d -> query f d = (Ok (f d), d).
Proof. intros H. unfold query. by rewrite (bind_run _ _ _ _ _ (stmt_healthy d H)). Qed.

Lemma query_row_calm {A} (f : Db -> option A) d : healthy d ->
  query_row f d = (match f d with Some a => Ok a | None => Err (ESentinel ErrNoRows) end, d).
Proof. intros H. unfold query_row. rewrite (bind_run _ _ _ _ _ (query_calm f d H)). by destruct (f d). Qed.

Lemma map_err_run {S A} (f : error -> error) (m : ST error S A) (s : S) r s' : m s = (r, s') ->
  map_err f m s = (match r with Ok a => Ok a | Err e => Err (f e) end, s').
Proof. intros H. unfold map_err. rewrite H. by destruct r. Qed.

Lemma default_calm d : healthy d -> exists r, GetDefault d = (r, d) /\ is_ok r = bool_decide (is_Some (List.find w_is_default (wallets d))).
Proof.
  intros H. eexists. split; [apply map_err_run, (query_row_calm _ _ H)|]. by destruct (List.find _ _).
Qed.

(** ** The sizes of the queue *)

Definition of_status (st : status) (u : Upload) : bool := bool_decide (u_status u = st).

Lemma count_of_group p (f : status -> Z) l : NoDup l -> (forall a b, status_str a = status_str b -> a = b) ->
  count_of (status_str p) (List.filter (fun x => negb (snd x =? 0)) (map (fun st => (status_str st, f st)) l)) = if bool_decide (p ∈ l) then f p else 0.
Proof.
  intros Hnd Hinj. unfold count_of. induction l as [|q l IH]; [done|]. apply NoDup_cons in Hnd as [Hq Hl]. cbn.
  destruct (f q =? 0) eqn:Ez; cbn.
  - rewrite IH by done. apply Z.eqb_eq in Ez. case_bool_decide; case_bool_decide; set_solver.
  - destruct (String.eqb_spec (status_str q) (status_str p)) as [E|E].
    + apply Hinj in E as ->. rewrite bool_decide_eq_true_2 by set_solver. done.
    + rewrite IH by done. case_bool_decide; case_bool_decide; set_solver.
Qed.

Definition counts_of (d : Db) : list (string * Z) :=
  List.filter (fun p => negb (snd p =? 0))
    (map (fun st => (status_str st, affected (of_status st) (uploads d))) [Queued; Processing; Completed; Failed; AlreadyStored]).

Lemma count_of_counts d st : count_of (status_str st) (counts_of d) = affected (of_status st) (uploads d).
Proof.
  unfold counts_of. rewrite (count_of_group st (fun st => affected (of_status st) (uploads d))).
  - rewrite bool_decide_eq_true_2; [done|]. destruct st; set_solver.
  - repeat (apply NoDup_cons_2; [set_solver|]). apply NoDup_nil_2.
  - by intros [] [].
Qed.

Section calm.
Context {rx : Regexp} {js : JsonStrings} {jt : JsonTags} {mb : Mailbox}.
Context (visit : TagMap -> list (string * list string)) (tempDir : string).
Context (s : Desk) (Hcalm : calm s).

Lemma read_setting_calm key : looks (read_setting key) (setting key (ddb s)) s.
Proof.
  unfold looks, read_setting. unfold mbind, ST_bind.
  rewrite (attempt_run _ s _ s (udb_run (Settings.Get key) s _ (query_row_calm _ _ (cm_db _ Hcalm)))). by destruct (setting key (ddb s)).
Qed.

(** What the settings and accounts say of a request. *)
Definition system_max : Z :=
  match setting "max_upload_size_bytes" (ddb s) ≫= ParseInt with Some n => if 0 <? n then n else 10 * 2 ^ 30 | None => 10 * 2 ^ 30 end.
Definition token_of (tokenID : Z) : option ApiToken := if tokenID =? 0 then None else find_id tokenID (ac_tokens (dac s)).
Definition user_of (userID : Z) : option User := List.find (fun u => by_id userID u && live u) (ac_users (dac s)).
Definition allowlist_of (tok : option ApiToken) (user : User) : string :=
  match tok ≫= (fun t => tier_types (tk_AllowedFileTypes t)) with
  | Some csv => csv
  | None => match tier_types (us_AllowedFileTypes user) with
            | Some csv => csv
            | None => default default_types (some_text (setting "allowed_upload_content_types" (ddb s)))
            end
  end.
Definition in_queue (d : Db) : Z := affected (of_status Queued) (uploads d) + affected (of_status Processing) (uploads d).

Record open_for_uploads : Prop := {
  op_wallet : exists w, In w (wallets (ddb s)) /\ w_is_default w = true;
  op_paused : setting "uploads_paused" (ddb s) <> Some "true";
  op_network : setting "antd_unavailable" (ddb s) <> Some "true";
}.

Lemma admit_calm : decides (fun _ => open_for_uploads) admit_upload s.
Proof.
  unfold admit_upload.
  destruct (default_calm _ (cm_db _ Hcalm)) as (r & Hw & Hok).
  eapply decides_look; [apply attempt_run, (udb_run GetDefault), Hw|].
  eapply (decides_bind (fun _ => exists w, In w (wallets (ddb s)) /\ w_is_default w = true)).
  - eapply decides_iff; [apply decides_require|]. intros []. rewrite Hok, bool_decide_eq_true. split.
    + intros [w E]. apply List.find_some in E. by exists w.
    + intros (w & Hin & Hd). destruct (List.find _ _) as [w'|] eqn:E; [done|]. pose proof (List.find_none _ _ E w Hin). congruence.
  - intros [] Hwal. eapply decides_look; [apply read_setting_calm|].
    eapply (decides_bind (fun _ => setting "uploads_paused" (ddb s) <> Some "true")).
    + eapply decides_iff; [apply decides_require|]. intros []. rewrite negb_true_iff, bool_decide_eq_false. done.
    + intros [] Hp. eapply decides_look; [apply read_setting_calm|].
      eapply decides_iff; [apply decides_require|]. intros []. rewrite negb_true_iff, bool_decide_eq_false. split; [by split|apply op_network].
    + intros [] H. exists tt. apply H.
  - intros [] H. exists tt. apply H.
Qed.

Definition has_room : Prop := forall n, setting "max_queued_uploads" (ddb s) ≫= ParseInt = Some n -> 0 < n -> in_queue (ddb s) < n.

Lemma room_calm : decides (fun _ => has_room) queue_has_room s.
Proof.
  unfold queue_has_room. eapply decides_look; [apply read_setting_calm|]. unfold has_room.
  destruct (_ ≫= ParseInt) as [n|]; [|by apply decides_ret]. destruct (Z.ltb_spec 0 n) as [Hn|Hn].
  - eapply decides_look; [apply attempt_run, (udb_run CountByStatus), (query_calm _ _ (cm_db _ Hcalm))|].
    eapply decides_iff; [apply decides_require|]. intros [].
    change (count_of "queued" (counts_of (ddb s)) + count_of "processing" (counts_of (ddb s)) <? n = true <->
      forall m, Some n = Some m -> 0 < m -> in_queue (ddb s) < m).
    rewrite (count_of_counts _ Queued), (count_of_counts _ Processing), Z.ltb_lt. split; [by intros H m [= <-]|]. intros H. by apply H.
  - apply decides_ret. intros m [= <-]. lia.
Qed.

(** ** What is decided *)

(** The limits and the request, as far as they are looked at before the file
    is written. *)
Record vets (userID tokenID : Z) (body : Body) (v : Vetted) : Prop := {
  vs_open : open_for_uploads;
  vs_room : has_room;
  vs_user : exists user form, user_of userID = Some user /\ by_form body = Some form /\
    vt_max v = max_upload_size system_max (token_of tokenID) user /\ by_read body <= vt_max v /\
    fm_file form = Some (vt_part v) /\ parse_visibility (fm_visibility form) = Some (vt_visibility v) /\
    parse_tags (fm_tags form) = Some (vt_tags v) /\
    vt_name v = sanitized (pt_Filename (vt_part v)) /\ vt_name v <> "" /\ vt_name v <> "." /\
    vt_type v = stated_type (pt_ContentType (vt_part v)) /\
    matchContentType (vt_type v) (allowlist_of (token_of tokenID) user) = true;
}.

Lemma token_calm tokenID : looks (token_record tokenID) (token_of tokenID) s.
Proof.
  unfold looks, token_record, token_of. destruct (tokenID =? 0); [done|]. unfold mbind, ST_bind.
  erewrite attempt_run; [|apply (uacc_run (TokenGetByID tokenID)), map_err_run, read_row_healthy, cm_ac, Hcalm].
  by destruct (find_id tokenID _).
Qed.

Lemma user_calm userID r : decides (fun u => user_of userID = Some u) (or_refuse (fun _ => r) (uacc (GetByID userID))) s.
Proof.
  unfold decides, or_refuse. rewrite (uacc_run (GetByID userID) s _ (map_err_run _ _ _ _ _ (read_row_healthy _ _ (cm_ac _ Hcalm)))).
  unfold user_of. destruct (List.find _ _) as [u|]; [left; by exists u|right; by exists r].
Qed.

Lemma allowlist_calm tok user : looks (effectiveAllowlist tok (Some user)) (allowlist_of tok user) s.
Proof.
  unfold looks, effectiveAllowlist, allowlist_of. destruct (tok ≫= _); [done|]. cbn [mbind option_bind].
  destruct (tier_types (us_AllowedFileTypes user)); [done|]. unfold mbind, ST_bind. by rewrite (read_setting_calm _).
Qed.

Lemma system_calm : looks system_max_size system_max s.
Proof. unfold looks, system_max_size, mbind, ST_bind. by rewrite (read_setting_calm _). Qed.

Lemma parse_decides limit body : decides (fun f => by_form body = Some f /\ by_read body <= limit)
  (match ParseMultipartForm limit body with
   | Ok f => mret f
   | Err TooLarge => refuse file_too_large
   | Err Malformed => refuse (jsonErrorWithCode "invalid multipart form" "invalid_request" 400)
   end) s.
Proof.
  unfold ParseMultipartForm. destruct (Z.ltb_spec limit (by_read body)) as [H|H]; [apply decides_refuse; intros f [_ Hf]; lia|].
  destruct (by_form body) as [f|]; [by apply decides_ret|by apply decides_refuse; intros f []].
Qed.

Lemma vet_calm userID tokenID body : decides (vets userID tokenID body) (vet_upload userID tokenID body) s.
Proof.
  unfold vet_upload. eapply decides_bind; [apply admit_calm| |intros v H; exists tt; apply H]. intros [] Hopen.
  eapply decides_bind; [apply room_calm| |intros v H; exists tt; apply H]. intros [] Hroom.
  eapply decides_look; [apply system_calm|]. eapply decides_look; [apply token_calm|].
  eapply decides_bind; [apply user_calm| |intros v H; destruct (vs_user _ _ _ _ H) as (u & f & Hu); exists u; apply Hu]. intros user Huser.
  eapply decides_bind; [apply parse_decides| |]. 2: { intros v H; destruct (vs_user _ _ _ _ H) as (u & f & Hu & Hf & Hm & Hr & _). exists f. split; [done|]. congruence. }
  intros form [Hform Hread].
  eapply (decides_bind (fun p => fm_file form = Some p)); [apply decides_decoded| |]. 2: { intros v H; destruct (vs_user _ _ _ _ H) as (u & f & Hu & Hf & _ & _ & Hp & _). exists (vt_part v). congruence. }
  intros part Hpart.
  eapply (decides_bind (fun vis => parse_visibility (fm_visibility form) = Some vis)); [apply decides_decoded| |].
  2: { intros v H; destruct (vs_user _ _ _ _ H) as (u & f & Hu & Hf & _ & _ & Hp & Hv & _). exists (vt_visibility v). congruence. }
  intros vis Hvis.
  eapply (decides_bind (fun tags => parse_tags (fm_tags form) = Some tags)); [apply decides_decoded| |].
  2: { intros v H; destruct (vs_user _ _ _ _ H) as (u & f & Hu & Hf & _ & _ & Hp & Hv & Ht & _). exists (vt_tags v). congruence. }
  intros tags Htags.
  eapply decides_bind; [apply decides_require| |].
  2: { intros v H; destruct (vs_user _ _ _ _ H) as (u & f & Hu & Hf & _ & _ & Hp & Hv & Ht & Hn & H1 & H2 & _). exists tt.
       rewrite Hf in Hform. injection Hform as <-. rewrite Hpart in Hp. injection Hp as ->. rewrite <- Hn. cbn.
       destruct (String.eqb_spec (vt_name v) ""); [done|]. by destruct (String.eqb_spec (vt_name v) "."). }
  intros [] Hname. eapply decides_look; [apply allowlist_calm|].
  eapply decides_bind; [apply decides_require| |].
  2: { intros v H; destruct (vs_user _ _ _ _ H) as (u & f & Hu & Hf & _ & _ & Hp & Hv & Ht & Hn & H1 & H2 & H3 & H4). exists tt.
       rewrite Hf in Hform. injection Hform as <-. rewrite Hpart in Hp. injection Hp as ->. rewrite <- H3. congruence. }
  intros [] Htype. apply decides_ret. split; [done|done|]. exists user, form. cbn.
  apply negb_true_iff, orb_false_elim in Hname as [H1 H2]. apply String.eqb_neq in H1, H2. by split_and!.
Qed.
End calm.

(** ** Taking the file in *)

Section taking.
Context {rx : Regexp} {js : JsonStrings} {jt : JsonTags} {mb : Mailbox}.
Context (visit : TagMap -> list (string * list string)) (tempDir : string).

Definition temp_of (fileUUID : string) (v : Vetted) : string := tempDir +:+ "/" +:+ (fileUUID +:+ path_ext (vt_name v)).
Definition token_id (tokenID : Z) : option Z := if tokenID =? 0 then None else Some tokenID.
Definition size_of (v : Vetted) : Z := file_length (pt_data (vt_part v)).
Definition file_of (v : Vetted) : File := mkFile true (size_of v) (pt_data (vt_part v)).

(** The row of an accepted upload. *)
Definition queued_row (d : Db) (userID tokenID : Z) (fileUUID rowUUID : string) (v : Vetted) : Upload :=
  mkUpload (seq_uploads d + 1) rowUUID userID (token_id tokenID) (fileUUID +:+ path_ext (vt_name v)) (vt_name v) (size_of v) (vt_type v)
    (vt_visibility v) Queued None None None None None (Some (temp_of fileUUID v)) None None 0 None (current_timestamp d) None None None
    (current_timestamp d) None 0.

Definition with_store (k : gmap string File) (s : Desk) : Desk := put_dk_store (with_disk k (dk_store s)) s.

Lemma save_calm p data s : calm s -> save_part p data s =
  (Ok (file_length data), with_store (<[p := mkFile true (file_length data) data]> (disk (dk_store s))) s).
Proof.
  intros H. pose proof (cm_io _ H) as Hio. destruct s as [f l st rg fd se]. cbn in Hio.
  unfold save_part, or_refuse, attempt, disk_io, zoom, create_file, copy_into, syscall. run_goal. rewrite Hio. run_goal. rewrite Hio. run_goal.
  unfold with_store, put_dk_store, with_disk. cbn. by rewrite insert_insert_eq.
Qed.

Lemma remove_calm p f s : calm s -> disk (dk_store s) !! p = None ->
  remove_temp p (with_store (<[p := f]> (disk (dk_store s))) s) = (Ok tt, s).
Proof.
  intros H Hp. pose proof (cm_io _ H) as Hio. destruct s as [fr l [r es b rd g m dk cl io] rg fd se]. cbn in Hio, Hp. subst io.
  unfold remove_temp, attempt, disk_io, zoom, Remove, syscall. run_goal. rewrite lookup_insert_eq. run_goal.
  unfold with_disk, with_store, put_dk_store. cbn. by rewrite delete_insert_id.
Qed.

(** The tables let the row in. *)
Record admits_row (userID tokenID : Z) (rowUUID : string) (d : Db) : Prop := {
  ar_user : In userID (users d);
  ar_token : tokenID <> 0 -> exists t, In t (api_tokens d) /\ tok_id t = tokenID;
  ar_fresh : forall u, In u (uploads d) -> u_uuid u <> rowUUID;
  ar_seq : forall u, In u (uploads d) -> u_id u <= seq_uploads d;
}.

Lemma find_id_snoc u us : (forall x, In x us -> u_id x <> u_id u) -> find_id (u_id u) (us ++ [u]) = Some u.
Proof.
  intros H. unfold find_id. induction us as [|x us IH]; cbn.
  - unfold by_id, key, Upload_keyed. by rewrite Z.eqb_refl.
  - unfold by_id at 1, key at 1, Upload_keyed at 1. destruct (Z.eqb_spec (u_id x) (u_id u)) as [E|_]; [by destruct (H x (or_introl eq_refl))|]. apply IH. intros y Hy. by apply H; right.
Qed.

Lemma Create_calm userID tokenID fileUUID rowUUID v d : healthy d -> admits_row userID tokenID rowUUID d ->
  let row := queued_row d userID tokenID fileUUID rowUUID v in
  UploadStore.Create rowUUID userID (token_id tokenID) (fileUUID +:+ path_ext (vt_name v)) (vt_name v) (size_of v) (vt_type v) (vt_visibility v)
    (temp_of fileUUID v) None d
  = (Ok row, set_seq_uploads (seq_uploads d + 1) (set_uploads (uploads d ++ [row]) d)).
Proof.
  intros Hd [H1 H2 H3 H4] row. unfold UploadStore.Create. rewrite (bind_run _ _ _ _ _ (stmt_healthy d Hd)).
  unfold mbind, ST_bind, get. cbn beta iota.
  assert (existsb (Z.eqb userID) (users d) = true) as -> by (apply existsb_exists; exists userID; by rewrite Z.eqb_refl).
  assert (match token_id tokenID with Some t => negb (existsb (fun k => tok_id k =? t) (api_tokens d)) | None => false end = false) as ->.
  { unfold token_id. destruct (Z.eqb_spec tokenID 0) as [|Hn]; [done|]. destruct (H2 Hn) as (t & Hin & <-).
    apply negb_false_iff, existsb_exists. exists t. by rewrite Z.eqb_refl. }
  assert (existsb (fun u => String.eqb (u_uuid u) rowUUID) (uploads d) = false) as ->.
  { apply not_true_iff_false. intros (u & Hin & E)%existsb_exists. apply String.eqb_eq in E. by apply (H3 u). }
  cbn [negb orb]. unfold modify, mret, ST_ret. cbn beta iota. fold row.
  change (seq_uploads d + 1) with (u_id row). apply GetByID_healthy; [exact Hd|].
  change (find_id (u_id row) (uploads d ++ [row]) = Some row). apply find_id_snoc.
  intros x Hx E. specialize (H4 x Hx). change (u_id row) with (seq_uploads d + 1) in E. lia.
Qed.

(** Tagging reaches no further than the tags. *)
Lemma tag_upload_apart u name ct n tags s : exists s', tag_upload visit u name ct n tags s = (Ok tt, s') /\
  dk_front s' = dk_front s /\ dk_store s' = dk_store s /\ dk_fired s' = dk_fired s.
Proof.
  unfold tag_upload. unfold mbind at 1, ST_bind at 1, get. cbn beta iota.
  unfold mbind at 1, ST_bind at 1, attempt at 1, tagging at 1, zoom.
  destruct (EvaluateRules _ _ _ _ _ _) as [[[m cache]|e] w]; unfold mbind, ST_bind, modify, mret, ST_ret; cbn beta iota zeta.
  all: case_bool_decide; [by eexists|]; unfold attempt, tagging, zoom; destruct (SetTags _ _ _) as [r w']; by eexists.
Qed.

(** All of it: the checks, the size of the file, the quotas of every tier. *)
Definition acceptable (s : Desk) (userID tokenID : Z) (body : Body) (v : Vetted) : Prop :=
  vets s userID tokenID body v /\ size_of v <= vt_max v /\
  fits (size_of v) quotaCompletedStatuses (tiers userID (token_id tokenID) (ddb s)).

(** Nothing but the audit log is touched. *)
Definition untouched_desk (s s' : Desk) : Prop :=
  ddb s' = ddb s /\ fr_ac (dk_front s') = fr_ac (dk_front s) /\ dk_lib s' = dk_lib s /\ dk_store s' = dk_store s /\ dk_fired s' = dk_fired s.

(** Sums that can be read. *)
Definition sums_fit (s : Desk) (userID tokenID : Z) (body : Body) : Prop := forall f p, by_form body = Some f -> fm_file f = Some p ->
  no_overflow (file_length (pt_data p)) quotaCompletedStatuses (tiers userID (token_id tokenID) (ddb s)).

(** Queued as asked for: the row, the file, the event, the answer. *)
Definition taken_in (s : Desk) (userID tokenID : Z) (fileUUID rowUUID : string) (v : Vetted) (a : accepted) (s' : Desk) : Prop :=
  let row := queued_row (ddb s) userID tokenID fileUUID rowUUID v in
  uploads (ddb s') = uploads (ddb s) ++ [row] /\
  disk (dk_store s') = <[temp_of fileUUID v := file_of v]> (disk (dk_store s)) /\
  dk_fired s' = dk_fired s ++ [("queued", row)] /\
  ac_upload a = toUploadResponse row /\
  ac_queue_position a = affected (of_status Queued) (uploads (ddb s')).

Lemma quota_calm s userID tokenID v d : d = ddb s -> healthy d -> no_overflow (size_of v) quotaCompletedStatuses (tiers userID (token_id tokenID) d) ->
  exists r, CheckUserQuota userID (token_id tokenID) (size_of v) d = (r, d) /\
    (match r with Ok _ => True | Err _ => False end <-> fits (size_of v) quotaCompletedStatuses (tiers userID (token_id tokenID) d)).
Proof.
  intros -> Hd Hno. exists (verdict (size_of v) quotaCompletedStatuses (tiers userID (token_id tokenID) (ddb s))). split.
  - unfold CheckUserQuota. apply checkAllTiers_healthy; [done|]. eapply Forall_impl; [exact Hno|]. by intros t [].
  - rewrite <- (admits_fits _ _ _ Hno). unfold verdict. by destruct (forallb _ _).
Qed.

Lemma vets_unique s userID tokenID body v v' : vets s userID tokenID body v -> vets s userID tokenID body v' -> v' = v.
Proof.
  intros [_ _ (u & f & Hu & Hf & Hm & _ & Hp & Hv & Ht & Hn & _ & _ & Hc & _)] [_ _ (u' & f' & Hu' & Hf' & Hm' & _ & Hp' & Hv' & Ht' & Hn' & _ & _ & Hc' & _)].
  assert (u' = u) as -> by congruence. assert (f' = f) as -> by congruence. destruct v as [m p vi t n c], v' as [m' p' vi' t' n' c']. cbn in *.
  assert (p' = p) as -> by congruence. f_equal; congruence.
Qed.

(** The event, the audit log, the answer. *)
Lemma tell_calm s row userID detail : healthy (ddb s) -> exists s',
  (fire_upload "queued" row ;; audit_upload "file_uploaded" "info" userID detail ;;
   counts ← attempt (udb CountByStatus);
   answer 202 (mkAccepted "upload queued" (toUploadResponse row) (match counts with Ok c => count_of "queued" c | Err _ => 0 end))) s =
  (Ok (202, mkAccepted "upload queued" (toUploadResponse row) (affected (of_status Queued) (uploads (ddb s)))), s') /\
  ddb s' = ddb s /\ dk_store s' = dk_store s /\ dk_fired s' = dk_fired s ++ [("queued", row)].
Proof.
  intros Hd. set (s1 := mkDesk (mkFront (fr_ac (dk_front s)) (ddb s) (fr_told (dk_front s) ++ [Audited "file_uploaded" "info" (Some userID) detail]))
    (dk_lib s) (dk_store s) (dk_regex s) (dk_fired s ++ [("queued", row)]) (dk_settings s)).
  exists s1. split; [|done]. unfold fire_upload, audit_upload, auditEvent, tell, in_front, zoom. run_goal.
  match goal with |- context [attempt _ ?x] => change x with s1 end.
  rewrite (attempt_run _ _ _ _ (udb_run CountByStatus s1 _ (query_calm _ _ Hd))). unfold answer, mret, ST_ret.
  change (count_of "queued" _) with (count_of (status_str Queued) (counts_of (ddb s))). by rewrite count_of_counts.
Qed.

(** The half that is reached with the file written. *)
Lemma take_in_calm s userID tokenID fileUUID rowUUID body v : calm s -> admits_row userID tokenID rowUUID (ddb s) ->
  disk (dk_store s) !! temp_of fileUUID v = None -> sums_fit s userID tokenID body -> vets s userID tokenID body v ->
  forall m, vet_upload userID tokenID body s = (Ok v, s) -> CreateUpload visit tempDir userID tokenID fileUUID rowUUID body s = m ->
  match m with
  | (Ok (st, a), s') => st = 202 /\ acceptable s userID tokenID body v /\ taken_in s userID tokenID fileUUID rowUUID v a s'
  | (Err r, s') => ~ acceptable s userID tokenID body v /\ untouched_desk s s'
  end.
Proof.
  intros Hs Hrow Hdisk Hsums Hv m Hvet <-. unfold CreateUpload. rewrite (bind_run _ _ _ _ _ Hvet).
  fold (temp_of fileUUID v). rewrite (bind_run _ _ _ _ _ (save_calm _ _ _ Hs)). fold (size_of v) (file_of v).
  set (s1 := with_store _ s). pose proof (cm_db _ Hs) as Hd.
  assert (remove_temp (temp_of fileUUID v) s1 = (Ok tt, s)) as Hrm by (by apply remove_calm).
  destruct (Z.ltb_spec (vt_max v) (size_of v)) as [Hbig|Hsize].
  { rewrite (bind_run _ _ _ _ _ Hrm). cbn. split; [|by split_and!]. intros (_ & H & _). lia. }
  assert (no_overflow (size_of v) quotaCompletedStatuses (tiers userID (token_id tokenID) (ddb s))) as Hno.
  { destruct (vs_user _ _ _ _ _ Hv) as (u & f & _ & Hf & _ & _ & Hp & _). by apply (Hsums f). }
  destruct (quota_calm s userID tokenID v _ eq_refl Hd Hno) as (r & Hq & Hfits). fold (token_id tokenID).
  rewrite (bind_run _ _ _ _ _ (attempt_run _ _ _ _ (udb_run (CheckUserQuota _ _ _) s1 _ Hq))).
  destruct r as [[]|e].
  2: { rewrite (bind_run _ _ _ _ _ Hrm). unfold audit_upload, auditEvent, tell, in_front, zoom. run_goal. split; [|by split_and!].
       intros (_ & _ & H). by apply Hfits in H. }
  set (row := queued_row (ddb s) userID tokenID fileUUID rowUUID v).
  assert (udb (UploadStore.Create rowUUID userID (token_id tokenID) (fileUUID +:+ path_ext (vt_name v)) (vt_name v) (size_of v) (vt_type v)
    (vt_visibility v) (temp_of fileUUID v) None) s1 = (Ok row, put_dk_front (put_fr_db (set_seq_uploads (seq_uploads (ddb s) + 1)
      (set_uploads (uploads (ddb s) ++ [row]) (ddb s))) (dk_front s)) s1)) as Hmade.
  { unfold udb, in_front, fdb, zoom. cbn. by rewrite (Create_calm userID tokenID fileUUID rowUUID v _ Hd Hrow). }
  rewrite (bind_run _ _ _ _ _ (attempt_run _ _ _ _ Hmade)). set (s2 := put_dk_front _ s1).
  destruct (tag_upload_apart row (vt_name v) (vt_type v) (size_of v) (vt_tags v) s2) as (s3 & Ht & Hf3 & Hst3 & Hfi3).
  rewrite (bind_run _ _ _ _ _ Ht). destruct (tell_calm s3 row userID
    ("uuid=" +:+ u_uuid row +:+ " filename=" +:+ vt_name v +:+ " size=" +:+ pretty (size_of v) +:+ " visibility=" +:+ visibility_text row)) as (s' & -> & Hd' & Hst' & Hfi').
  { by rewrite Hf3. }
  split; [done|]. split; [split_and!; [done|done|by apply Hfits]|]. unfold taken_in. fold row.
  rewrite Hd', Hst', Hst3, Hfi', Hfi3, Hf3. by split_and!.
Qed.

Lemma CreateUpload_calm s userID tokenID fileUUID rowUUID body : calm s -> admits_row userID tokenID rowUUID (ddb s) ->
  (forall v, disk (dk_store s) !! temp_of fileUUID v = None) -> sums_fit s userID tokenID body ->
  match CreateUpload visit tempDir userID tokenID fileUUID rowUUID body s with
  | (Ok (st, a), s') => st = 202 /\ exists v, acceptable s userID tokenID body v /\ taken_in s userID tokenID fileUUID rowUUID v a s'
  | (Err r, s') => (forall v, ~ acceptable s userID tokenID body v) /\ untouched_desk s s'
  end.
Proof.
  intros Hs Hrow Hdisk Hsums. destruct (vet_calm s Hs userID tokenID body) as [(v & Hvet & Hv)|(r & Hvet & Hn)].
  - pose proof (take_in_calm s userID tokenID fileUUID rowUUID body v Hs Hrow (Hdisk v) Hsums Hv _ Hvet eq_refl) as H.
    destruct (CreateUpload _ _ _ _ _ _ _ s) as [[[st a]|r] s']; [destruct H as [H1 H2]; split; [done|by exists v]|].
    destruct H as [H1 H2]. split; [|done]. intros v' Hv'. rewrite (vets_unique s userID tokenID body v v' Hv (proj1 Hv')) in Hv'. done.
  - unfold CreateUpload, mbind at 1, ST_bind at 1. rewrite Hvet. split; [intros v [Hv _]; by apply (Hn v)|by split_and!].
Qed.
End taking.

(** ** Cursors *)

(** The JSON of a cursor, and what json.Unmarshal promises of it. *)
Definition cursor_json (c : Cursor) : string :=
  "{" +:+ json_string "id" +:+ ":" +:+ big_String (cu_ID c) +:+ "," +:+ json_string "dir" +:+ ":" +:+ json_string (cu_Dir c) +:+ "}".

Class ParsersLaws (P : Parsers) := {
  cursor_roundtrip : forall id dir, in_int64 id -> dir = "next" \/ dir = "prev" ->
    Unmarshal_cursor (cursor_json (mkCursor id dir)) = Ok (mkCursor id dir);
}.

Lemma bytes_below t : below 256 (bytes_N t).
Proof.
  unfold below, bytes_N. induction (String.list_ascii_of_string t) as [|c l IH]; cbn; [done|]. constructor; [|done].
  apply N_ascii_bounded.
Qed.

Lemma text_of_bytes_N t : text_of_bytes (bytes_N t) = t.
Proof.
  unfold text_of_bytes, bytes_N. rewrite map_map. rewrite <- (String.string_of_list_ascii_of_string t) at 2. f_equal.
  induction (String.list_ascii_of_string t) as [|c l IH]; cbn; [done|]. by rewrite ascii_N_embedding, IH.
Qed.

Lemma quad (a b c : N) : (a < 256 -> b < 256 -> c < 256 -> let n := a * 65536 + b * 256 + c in
  (n / 262144 < 64 /\ n / 4096 mod 64 < 64 /\ n / 64 mod 64 < 64 /\ n mod 64 < 64) /\
  n / 262144 * 4 + n / 4096 mod 64 / 16 = a /\ n / 4096 mod 64 mod 16 * 16 + n / 64 mod 64 / 4 = b /\ n / 64 mod 64 mod 4 * 64 + n mod 64 = c)%N.
Proof. intros Ha Hb Hc n. subst n. split_and!; bits. Qed.

(** Characters that carry six bits each. *)
Lemma filter_char n l : (n < 64)%N -> List.filter (fun c => negb (line_break c)) (b64_char n :: l) = b64_char n :: List.filter (fun c => negb (line_break c)) l.
Proof. intros H. cbn. by rewrite (proj2 (b64_char_spec n H)). Qed.

Lemma b64_roundtrip bs : below 256 bs -> b64_decode (b64_encode bs) = Some bs.
Proof.
  intros Hb. unfold b64_decode.
  cut (List.filter (fun c => negb (line_break c)) (String.list_ascii_of_string (b64_encode bs)) = String.list_ascii_of_string (b64_encode bs) /\
       b64_groups (String.list_ascii_of_string (b64_encode bs)) = Some bs); [by intros [-> ->]|].
  revert Hb. unfold below. induction bs as [|a|a b|a b c l IH] using list_ind3; intros H; each_byte; [done|..].
  - destruct (quad a 0 0) as ((K1 & K2 & K3 & K4) & E1 & E2 & E3); [done..|]. rewrite !N.add_0_r in *.
    cbn [b64_encode String.list_ascii_of_string]. split; [by rewrite !filter_char|].
    cbn [b64_groups]. rewrite (proj1 (b64_char_spec _ K1)), (proj1 (b64_char_spec _ K2)). cbn -[N.div N.modulo N.mul N.add]. by rewrite E1.
  - destruct (quad a b 0) as ((K1 & K2 & K3 & K4) & E1 & E2 & E3); [done..|]. rewrite !N.add_0_r in *.
    cbn [b64_encode String.list_ascii_of_string]. split; [by rewrite !filter_char|].
    cbn [b64_groups]. rewrite (proj1 (b64_char_spec _ K1)), (proj1 (b64_char_spec _ K2)), (proj1 (b64_char_spec _ K3)).
    cbn -[N.div N.modulo N.mul N.add]. by rewrite E1, E2.
  - destruct (quad a b c) as ((K1 & K2 & K3 & K4) & E1 & E2 & E3); [done..|]. destruct (IH H) as [IH1 IH2].
    cbn [b64_encode String.list_ascii_of_string]. split; [by rewrite !filter_char, IH1|].
    cbn [b64_groups]. rewrite (proj1 (b64_char_spec _ K1)), (proj1 (b64_char_spec _ K2)), (proj1 (b64_char_spec _ K3)), (proj1 (b64_char_spec _ K4)), IH2.
    cbn -[N.div N.modulo N.mul N.add]. by rewrite E1, E2, E3.
Qed.

Lemma cursor_decodes {ps : Parsers} {HP : ParsersLaws ps} id dir : in_int64 id -> dir = "next" \/ dir = "prev" ->
  DecodeCursor (EncodeCursor (mkCursor id dir)) = Some (mkCursor id dir).
Proof.
  intros Hid Hdir. unfold DecodeCursor, EncodeCursor. fold (cursor_json (mkCursor id dir)).
  rewrite b64_roundtrip by apply bytes_below. cbn -[text_of_bytes bytes_N cursor_json].
  rewrite text_of_bytes_N. fold (cursor_json (mkCursor id dir)). by rewrite cursor_roundtrip.
Qed.

(** ** Pages *)

Section pages.
Context {ps : Parsers} {HP : ParsersLaws ps}.

Definition from_cursor (limit cursor : string) : list_query := mkListQuery limit "" cursor "" "" "" "".

(** A client that follows the cursors, [fuel] pages at most. *)
Fixpoint follow (fuel : nat) (userID : Z) (limit cursor : string) : DeskM (list Upload) :=
  match fuel with
  | O => refuse (jsonError "" 0)
  | S fuel =>
      r ← ListUploads userID (from_cursor limit cursor);
      match pg_next (snd r) with
      | None => mret (pg_uploads (snd r))
      | Some c => rest ← follow fuel userID limit c; mret (pg_uploads (snd r) ++ rest)
      end
  end.

(** A user's uploads, the latest first. *)
Definition mine (userID : Z) (d : Db) : list Upload := rev (select (fun u => u_user_id u =? userID) (uploads d)).

Definition before (c : Z) (u : Upload) : bool := u_id u <? c.

Definition ascending (t : list Upload) : Prop := StronglySorted (fun a b => u_id a < u_id b) t.
Definition descending (t : list Upload) : Prop := StronglySorted (fun a b => u_id b < u_id a) t.

Lemma mine_descending userID d : ascending (uploads d) -> descending (mine userID d).
Proof.
  intros H. apply (StronglySorted_select _ (fun u => u_user_id u =? userID)) in H. unfold mine. revert H.
  generalize (select (fun u => u_user_id u =? userID) (uploads d)). intros t H. induction H as [|x t Ht IH Hx]; cbn; [constructor|].
  apply StronglySorted_snoc; [exact IH|]. intros y Hy. apply in_rev in Hy. rewrite List.Forall_forall in Hx. by apply Hx.
Qed.

Lemma select_rev {A} (p : A -> bool) t : select p (rev t) = rev (select p t).
Proof.
  unfold select. induction t as [|x t IH]; cbn; [done|]. rewrite List.filter_app, IH. cbn. destruct (p x); cbn; [done|by rewrite app_nil_r].
Qed.

(** What a page reads. *)
Lemma page_rows userID c n d : ascending (uploads d) ->
  order_by (fun a b => u_id b <=? u_id a) (select (fun u => (u_user_id u =? userID) && (u_id u <? c)) (uploads d)) = select (before c) (mine userID d) /\
  clamp_limit (add64 n 1) = if (1 <=? n) && (n <=? 99) then n + 1 else clamp_limit (add64 n 1).
Proof.
  intros Hs. split.
  - rewrite order_by_reverse; [|].
    + unfold mine. rewrite select_rev, select_select. done.
    + eapply StronglySorted_impl; [|by apply StronglySorted_select]. intros a b H. cbn in H. by apply Z.leb_gt.
  - destruct (Z.leb_spec 1 n), (Z.leb_spec n 99); cbn [andb]; try done. rewrite add64_exact by (unfold in_int64, int64_min, int64_max; lia).
    unfold clamp_limit. destruct (Z.leb_spec (n + 1) 0), (Z.ltb_spec 100 (n + 1)); cbn; lia.
Qed.

Lemma select_true {A} (p : A -> bool) t : (forall x, In x t -> p x = true) -> select p t = t.
Proof.
  unfold select. induction t as [|x t IH]; cbn; [done|]. intros H. rewrite H by (by left). f_equal. apply IH. intros y Hy. apply H. by right.
Qed.

(** Below the last of a page lies the rest. *)
Lemma rest_of_page a x b : descending (a ++ x :: b) -> select (before (u_id x)) (a ++ x :: b) = b.
Proof.
  unfold select, before. induction a as [|y a IH]; cbn; intros H; apply StronglySorted_inv in H as [H Hx].
  - rewrite Z.ltb_irrefl. rewrite List.Forall_forall in Hx. apply select_true. intros z Hz. apply Z.ltb_lt. by apply Hx.
  - rewrite List.Forall_forall in Hx. assert (u_id x < u_id y) by (apply Hx, in_app_iff; right; by left).
    destruct (Z.ltb_spec (u_id y) (u_id x)); [lia|]. by apply IH.
Qed.

Lemma EncodeCursor_shown c : String.eqb (EncodeCursor c) "" = false.
Proof. by destruct c. Qed.

(** The size of the pages for a limit that was asked for. *)
Definition page_size (limit : string) : Z := if atoi_or_zero limit <=? 0 then 50 else atoi_or_zero limit.

Lemma page_calm s userID limit n c : calm s -> ascending (uploads (ddb s)) -> page_size limit = n -> 1 <= n <= 99 -> in_int64 c ->
  let rows := select (before c) (mine userID (ddb s)) in
  let us := firstn (Z.to_nat n) rows in
  exists prev, ListUploads userID (from_cursor limit (EncodeCursor (mkCursor c "next"))) s =
    (Ok (200, mkUploadPage us None (if (Z.to_nat n <? length rows)%nat then cursor_at "next" (last us) else None) prev), s).
Proof.
  intros Hs Ha Hl Hn Hc rows us. unfold ListUploads, from_cursor. cbn [lq_cursor lq_limit]. rewrite EncodeCursor_shown. cbn [negb].
  unfold list_from_cursor. fold (page_size limit). rewrite Hl. rewrite cursor_decodes by auto. cbn [decoded cu_ID cu_Dir].
  destruct (page_rows userID c n (ddb s) Ha) as [Hrows Hclamp].
  assert (udb (ListByUserCursor userID (add64 n 1) c true) s = (Ok (firstn (Z.to_nat (n + 1)) rows), s)) as Hq.
  { apply udb_run. unfold ListByUserCursor. rewrite (query_calm _ _ (cm_db _ Hs)), Hrows, Hclamp.
    destruct (Z.leb_spec 1 n), (Z.leb_spec n 99); cbn [andb]; try lia. done. }
  unfold mbind, ST_bind, mret, ST_ret, or_refuse. cbn [cu_ID cu_Dir]. change (negb (String.eqb "next" "prev")) with true. rewrite Hq. cbn beta iota.
  rewrite length_firstn. replace (Z.to_nat (n + 1)) with (S (Z.to_nat n)) by lia.
  exists (cursor_at "prev" (head (if n <? Z.of_nat (S (Z.to_nat n) `min` length rows) then firstn (Z.to_nat n) (firstn (S (Z.to_nat n)) rows) else firstn (S (Z.to_nat n)) rows))).
  unfold answer, mret, ST_ret. destruct (Nat.ltb_spec (Z.to_nat n) (length rows)) as [Hlt|Hge].
  - assert (n <? Z.of_nat (S (Z.to_nat n) `min` length rows) = true) as -> by (apply Z.ltb_lt; lia).
    rewrite firstn_firstn. replace (Z.to_nat n `min` S (Z.to_nat n))%nat with (Z.to_nat n) by lia. done.
  - assert (n <? Z.of_nat (S (Z.to_nat n) `min` length rows) = false) as -> by (apply Z.ltb_ge; lia).
    unfold us. by rewrite !firstn_all2 by lia.
Qed.

Lemma follow_calm s userID limit n : calm s -> ascending (uploads (ddb s)) -> (forall u, In u (uploads (ddb s)) -> in_int64 (u_id u)) ->
  page_size limit = n -> 1 <= n <= 99 ->
  forall fuel c, in_int64 c -> (length (select (before c) (mine userID (ddb s))) < fuel)%nat ->
  follow fuel userID limit (EncodeCursor (mkCursor c "next")) s = (Ok (select (before c) (mine userID (ddb s))), s).
Proof.
  intros Hs Ha Hids Hl Hn. induction fuel as [|fuel IH]; intros c Hc Hf; [lia|]. cbn [follow].
  destruct (page_calm s userID limit n c Hs Ha Hl Hn Hc) as [prev Hp]. cbn zeta in Hp.
  set (rows := select (before c) (mine userID (ddb s))) in *. rewrite (bind_run _ _ _ _ _ Hp). cbn [snd pg_next pg_uploads].
  destruct (Nat.ltb_spec (Z.to_nat n) (length rows)) as [Hlt|Hge]; [|unfold mret, ST_ret; by rewrite firstn_all2].
  destruct (Z.to_nat n) as [|k] eqn:Ek; [lia|].
  destruct (lookup_lt_is_Some_2 rows k ltac:(lia)) as [x Hx].
  assert (rows = firstn k rows ++ x :: skipn (S k) rows) as Hsplit by (by rewrite <- (take_drop_middle rows k x Hx) at 1).
  assert (firstn (S k) rows = firstn k rows ++ [x]) as Hfirst by (by rewrite (take_S_r _ _ _ Hx)).
  assert (descending rows) as Hd by (apply StronglySorted_select, mine_descending, Ha).
  assert (In x rows) as Hin by (rewrite Hsplit; apply in_app_iff; right; by left).
  assert (In x (uploads (ddb s)) /\ u_id x < c) as [Hux Hxc].
  { apply in_select in Hin as [Hm Hb]. apply Z.ltb_lt in Hb. split; [|done]. apply in_rev in Hm. by apply in_select in Hm as [Hm _]. }
  rewrite Hfirst. unfold cursor_at. rewrite last_snoc. cbn [option_fmap option_map fmap].
  assert (select (before (u_id x)) (mine userID (ddb s)) = skipn (S k) rows) as Hrest.
  { rewrite <- (rest_of_page (firstn k rows) x (skipn (S k) rows)) by (by rewrite <- Hsplit). rewrite <- Hsplit. unfold rows. rewrite select_select.
    unfold select. apply List.filter_ext. intros y. unfold before. destruct (Z.ltb_spec (u_id y) c), (Z.ltb_spec (u_id y) (u_id x)); cbn; lia. }
  rewrite (bind_run _ _ _ _ _ (IH (u_id x) (Hids x Hux) ltac:(rewrite Hrest, length_skipn; lia))). unfold mret, ST_ret. rewrite Hrest.
  do 2 f_equal. rewrite Hsplit at 3. by rewrite <- app_assoc.
Qed.

(** Every upload of the user was made in a later second than the one before it. *)
Definition timely (userID : Z) (t : list Upload) : Prop :=
  StronglySorted (fun a b => u_created_at a < u_created_at b) (select (fun u => u_user_id u =? userID) t).

Lemma first_page_calm s userID limit n : calm s -> timely userID (uploads (ddb s)) -> page_size limit = n -> 1 <= n <= 99 ->
  let us := firstn (Z.to_nat n) (mine userID (ddb s)) in
  exists k prev, ListUploads userID (from_cursor limit "") s = (Ok (200, mkUploadPage us k (cursor_at "next" (last us)) prev), s).
Proof.
  intros Hs Ht Hl Hn us. unfold ListUploads, from_cursor. cbn [lq_cursor lq_limit lq_sort lq_status lq_from lq_to lq_offset]. cbn [String.eqb andb negb].
  assert (udb (ListByUser userID (atoi_or_zero limit) (atoi_or_zero "")) s =
    (Ok (us, affected (fun u => u_user_id u =? userID) (uploads (ddb s))), s)) as Hq.
  { apply udb_run. unfold ListByUser. rewrite (bind_run _ _ _ _ _ (query_calm _ _ (cm_db _ Hs))), (bind_run _ _ _ _ _ (query_calm _ _ (cm_db _ Hs))).
    unfold mret, ST_ret, page, us, mine. replace (clamp_limit (atoi_or_zero limit)) with n.
    2:{ subst n. unfold page_size, clamp_limit in *. destruct (Z.leb_spec (atoi_or_zero limit) 0), (Z.ltb_spec 100 (atoi_or_zero limit)); cbn; lia. }
    rewrite order_by_reverse; [done|]. eapply StronglySorted_impl; [|exact Ht]. intros a b H. unfold created_desc. by apply Z.leb_gt. }
  unfold mbind, ST_bind, or_refuse. rewrite Hq. cbn beta iota. do 2 eexists. reflexivity.
Qed.

Lemma follow_first s userID limit n : calm s -> ascending (uploads (ddb s)) -> (forall u, In u (uploads (ddb s)) -> in_int64 (u_id u)) ->
  timely userID (uploads (ddb s)) -> page_size limit = n -> 1 <= n <= 99 ->
  forall fuel, (length (mine userID (ddb s)) < fuel)%nat -> follow (S fuel) userID limit "" s = (Ok (mine userID (ddb s)), s).
Proof.
  intros Hs Ha Hids Ht Hl Hn fuel Hf. cbn [follow]. destruct (first_page_calm s userID limit n Hs Ht Hl Hn) as (k & prev & Hp). cbn zeta in Hp.
  rewrite (bind_run _ _ _ _ _ Hp). cbn [snd pg_next pg_uploads]. pose proof (mine_descending userID _ Ha) as Hd.
  set (rows := mine userID (ddb s)) in *. destruct (firstn (Z.to_nat n) rows) as [|y us0] eqn:E0 using rev_ind.
  { cbn. destruct (Z.to_nat n) eqn:En; [lia|]. destruct rows; [done|discriminate E0]. }
  clear IHus0. unfold cursor_at. rewrite last_snoc. cbn [option_fmap option_map fmap].
  assert (rows = us0 ++ y :: skipn (Z.to_nat n) rows) as Hsplit by (rewrite <- (firstn_skipn (Z.to_nat n) rows) at 1; by rewrite E0, <- app_assoc).
  assert (In y rows) as Hy by (rewrite Hsplit; apply in_app_iff; right; by left).
  assert (In y (uploads (ddb s))) as Hyu by (apply in_rev in Hy; by apply in_select in Hy as [Hy _]).
  assert (select (before (u_id y)) rows = skipn (Z.to_nat n) rows) as Hrest.
  { rewrite Hsplit at 1. apply rest_of_page. by rewrite <- Hsplit. }
  rewrite (bind_run _ _ _ _ _ (follow_calm s userID limit n Hs Ha Hids Hl Hn fuel (u_id y) (Hids y Hyu) ltac:(fold rows; rewrite Hrest, length_skipn; lia))).
  fold rows. unfold mret, ST_ret. rewrite Hrest. do 2 f_equal. by rewrite <- app_assoc.
Qed.
End pages.

(** ** What is claimed *)

(** C24. CreateUpload decides by the limits alone. With nothing failing, it
    accepts exactly the requests for which uploads are open (a default wallet,
    not paused, the network up), the queue has room, the body is a well-formed
    form no larger than the limit of the token, or else of the user, under that
    of the system, with a file whose name and stated content type are allowed,
    and the file fits every quota. An accepted file is queued as one row, for
    the caller, with the size, type, visibility and name that were vetted, its
    bytes are in the row's temporary file, and the answer and the webhook event
    show that row; a refused request leaves every table, every file and the
    webhooks as they were. *)
Theorem CreateUpload_decides {rx : Regexp} {js : JsonStrings} {jt : JsonTags} {mb : Mailbox}
    (visit : TagMap -> list (string * list string)) (tempDir : string)
    (userID tokenID : Z) (fileUUID rowUUID : string) (body : Body) (s : Desk)
    (Hcalm : calm s) (Hrow : admits_row userID tokenID rowUUID (ddb s))
    (Htemp : forall v, disk (dk_store s) !! temp_of tempDir fileUUID v = None) (Hsums : sums_fit s userID tokenID body) :
  match CreateUpload visit tempDir userID tokenID fileUUID rowUUID body s with
  | (Ok (st, a), s') => st = 202 /\ exists v, acceptable s userID tokenID body v /\ taken_in tempDir s userID tokenID fileUUID rowUUID v a s'
  | (Err r, s') => (forall v, ~ acceptable s userID tokenID body v) /\ untouched_desk s s'
  end.
Proof. by apply CreateUpload_calm. Qed.

(** C25. Following the cursors reads everything once. A client that starts without
    a cursor and asks for the next page as long as it is told of one is shown all
    of the caller's uploads, the latest first, none twice, none left out, and none
    of anybody else, with pages of any size up to 99 (50 where none is asked for),
    if the uploads were made in different seconds; it is done after at most two
    pages more than there are uploads. From any cursor on, the same holds of the
    uploads below it, whenever they were made. *)
Theorem ListUploads_pages {ps : Parsers} {HP : ParsersLaws ps} (s : Desk) (userID : Z) (limit : string)
    (Hcalm : calm s) (Ha : ascending (uploads (ddb s))) (Hids : forall u, In u (uploads (ddb s)) -> in_int64 (u_id u))
    (Hlimit : atoi_or_zero limit <= 99) :
  (timely userID (uploads (ddb s)) ->
   exists us, follow (S (S (length (uploads (ddb s))))) userID limit "" s = (Ok us, s) /\
    descending us /\ forall u, In u us <-> In u (uploads (ddb s)) /\ u_user_id u = userID) /\
  (forall c, in_int64 c ->
   exists us, follow (S (length (uploads (ddb s)))) userID limit (EncodeCursor (mkCursor c "next")) s = (Ok us, s) /\
    descending us /\ forall u, In u us <-> In u (uploads (ddb s)) /\ u_user_id u = userID /\ u_id u < c).
Proof.
  assert (1 <= page_size limit <= 99) as Hn by (unfold page_size; destruct (Z.leb_spec (atoi_or_zero limit) 0); lia).
  assert (forall A (p : A -> bool) t, (length (select p t) <= length t)%nat) as Hlen by (intros; apply List.filter_length_le).
  assert (length (mine userID (ddb s)) <= length (uploads (ddb s)))%nat as Hm by (unfold mine; rewrite length_rev; apply Hlen).
  pose proof (mine_descending userID _ Ha) as Hd.
  assert (forall u, In u (mine userID (ddb s)) <-> In u (uploads (ddb s)) /\ u_user_id u = userID) as Hin.
  { intros u. unfold mine. by rewrite <- in_rev, in_select, Z.eqb_eq. }
  split.
  - intros Ht. exists (mine userID (ddb s)). split; [|by split]. eapply (follow_first s userID limit); [done..|]. lia.
  - intros c Hc. exists (select (before c) (mine userID (ddb s))). split_and!.
    + eapply (follow_calm s userID limit); [done..|]. pose proof (Hlen _ (before c) (mine userID (ddb s))). lia.
    + by apply StronglySorted_select.
    + intros u. rewrite in_select, Hin. unfold before. rewrite Z.ltb_lt. tauto.
Qed.

(** ** Concrete requests *)

#[local] Instance plain_rules : Regexp := {| rx_Compile := fun p => Ok (fun t => Contains t p) |}.
#[local] Instance no_lists : JsonStrings := {| Unmarshal_strings := fun _ => Err (ENew "not a list") |}.
#[local] Instance no_tags : JsonTags := {| Unmarshal_multi := fun _ => Ok ∅; Unmarshal_single := fun _ => Ok ∅ |}.
#[local] Instance ascii_mail : Mailbox := {| ToLower := fun t => t; IsValidEmail := fun _ => true |}.

(** A reader of the JSON that is written. *)
Definition dir_text (d : string) : string := json_string "dir" +:+ ":" +:+ json_string d +:+ "}".
Definition read_cursor (t : string) : result error Cursor :=
  match Cut (drop_str 6 t) "," with
  | Some (i, rest) =>
      match ParseInt i with
      | Some id => if String.eqb rest (dir_text "next") then Ok (mkCursor id "next") else
                   if String.eqb rest (dir_text "prev") then Ok (mkCursor id "prev") else Err (ENew "not a cursor")
      | None => Err (ENew "not a cursor")
      end
  | None => Err (ENew "not a cursor")
  end.
#[local] Instance plain_parsers : Parsers := {| Unmarshal_cursor := read_cursor; parse_rfc3339 := fun _ => None |}.

#[local] Instance plain_parsers_laws : ParsersLaws plain_parsers.
Proof.
  split. intros id dir Hid Hdir. cbn [Unmarshal_cursor plain_parsers]. unfold read_cursor.
  change (drop_str 6 (cursor_json (mkCursor id dir))) with (big_String id +:+ String "," (dir_text dir)).
  rewrite (Cut_app (big_String id) "," (dir_text dir)) by (by apply big_String_without).
  rewrite (ParseInt_big_String id Hid). by destruct Hdir as [->| ->].
Qed.

Definition demo_user (id : Z) : User := mkUser id "u" None "" "" true false true None None (Some 50) None None 0 0 None.
Definition demo_accounts : Accounts := mkAccounts [demo_user 7] 7 [] [] 0 [] [] 0 [] [] 0 [] [] [] [] 0 [] 0 0.
Definition demo_made (at_ user id : Z) : Upload :=
  mkUpload id ("u" +:+ pretty id) user None "f" "f" 10 "text/plain" Private Completed None None None None None None None None 0 None 0 None None None at_ None 0.
Definition demo_row : Z -> Z -> Upload := demo_made 0.

(** A wallet, three uploads of user 7 between two of user 8, a quota of 45 bytes. *)
Definition demo_desk : Desk :=
  mkDesk (mkFront (mkWorld demo_accounts [])
      (mkDb [demo_row 7 1; demo_row 8 2; demo_row 7 3; demo_row 8 4; demo_row 7 5] 5 [] 0 [mkQuota 1 "user" (Some "7") 45 true 0 0] 1 [7; 8] [] [] [] [] 0 [] []
        [("max_queued_uploads", "3")] [] [mkWallet 1 "w" "0x1" "k" true "0" "0" 0 0] 1 [] 0 []) [])
    (mkWorld (mkLibrary [] 0 [(7, "a"); (8, "b")] [] 0 [] 0 [] [] 0 [mkRule 1 "r" "" "filename" "contains" "txt" "kind" "text" 0 true 7 0 0] 1 0) [])
    (New "/cache") ∅ [] ∅.

Definition demo_body (data : string) : Body := mkBody 40 (Some (mkForm (Some (mkPart "dir/a.txt" "text/plain; charset=utf-8" data)) "public" "")).

Definition in_visit (m : TagMap) : list (string * list string) := map_to_list m.
Definition demo_create (data : string) := CreateUpload in_visit "/tmp" 7 0 "f1" "row-1" (demo_body data) demo_desk.

Lemma demo_calm : calm demo_desk.
Proof. by split. Qed.

Lemma demo_ascending : ascending (uploads (ddb demo_desk)).
Proof. repeat constructor; done. Qed.

Lemma demo_admits : admits_row 7 0 "row-1" (ddb demo_desk).
Proof.
  split; cbn [fr_db dk_front demo_desk users uploads seq_uploads].
  - by left.
  - done.
  - intros u Hu. repeat destruct Hu as [<-|Hu]; done.
  - intros u Hu. repeat destruct Hu as [<-|Hu]; done.
Qed.

(** Fifteen bytes still fit the quota, sixteen do not. *)
Example fifteen_accepted : let '(r, s) := demo_create "fifteen bytes.." in
  map (fun x => ac_queue_position (snd x)) (match r with Ok x => [x] | Err _ => [] end) = [1] /\
  map u_original_filename (uploads (ddb s)) = ["f"; "f"; "f"; "f"; "f"; "a.txt"] /\
  map (fun t => (ft_UploadID t, ft_Key t, ft_Value t)) (lb_tags (tables (dk_lib s))) = [(6, "kind", "text")].
Proof. vm_compute. done. Qed.

Lemma demo_sums data : file_length data <= 50 -> sums_fit demo_desk 7 0 (demo_body data).
Proof.
  intros Hl f p [= <-] [= <-]. change (tiers 7 (token_id 0) (ddb demo_desk)) with [((fun sts => user_bytes sts 7 (ddb demo_desk)), 45)].
  constructor; [|constructor]. unfold fst. cbn [pt_data]. set (b := user_bytes _ _ _). assert (b = 30) as -> by (by vm_compute).
  assert (0 <= file_length data) by (unfold file_length; lia). unfold in_int64, int64_min, int64_max. lia.
Qed.

Lemma CreateUpload_decides_witness : exists a s',
  CreateUpload in_visit "/tmp" 7 0 "f1" "row-1" (demo_body "fifteen bytes..") demo_desk = (Ok (202, a), s') /\
  exists v, acceptable demo_desk 7 0 (demo_body "fifteen bytes..") v /\ taken_in "/tmp" demo_desk 7 0 "f1" "row-1" v a s'.
Proof.
  pose proof (CreateUpload_decides in_visit "/tmp" 7 0 "f1" "row-1" (demo_body "fifteen bytes..") demo_desk demo_calm demo_admits
    (fun v => lookup_empty _) (demo_sums "fifteen bytes.." ltac:(vm_compute; discriminate))) as H.
  destruct (CreateUpload in_visit "/tmp" 7 0 "f1" "row-1" (demo_body "fifteen bytes..") demo_desk) as [[[st a]|r] s'] eqn:E.
  - destruct H as [-> H]. exists a, s'. split; [exact eq_refl|exact H].
  - exfalso. revert E. vm_compute. discriminate.
Defined.

Example sixteen_refused : exists s', demo_create "sixteen bytes..." = (Err (jsonErrorWithCode "quota exceeded: storage quota exceeded" "quota_exceeded" 403), s') /\
  dk_store s' = dk_store demo_desk.
Proof. eexists. vm_compute. done. Qed.

(** Uploads made in different seconds: the id as the stamp. *)
Definition stamped (s : Desk) : Desk :=
  put_dk_front (put_fr_db (set_uploads (map (fun u => demo_made (u_id u) (u_user_id u) (u_id u)) (uploads (ddb s))) (ddb s)) (dk_front s)) s.

(** Three pages of one upload each, and then one that is empty. *)
Lemma ListUploads_pages_witness : exists us,
  follow 7 7 "1" "" (stamped demo_desk) = (Ok us, stamped demo_desk) /\ descending us /\
  forall u, In u us <-> In u (uploads (ddb (stamped demo_desk))) /\ u_user_id u = 7.
Proof.
  apply (ListUploads_pages (stamped demo_desk) 7 "1").
  - by split.
  - repeat constructor; done.
  - intros u Hu. repeat destruct Hu as [<-|Hu]; try done; unfold in_int64, int64_min, int64_max; cbn; lia.
  - vm_compute. discriminate.
  - repeat constructor; done.
Defined.

(** The first page is ordered by the second of the upload, the pages behind a
    cursor by id. Of three uploads made in one second the first page of one shows
    the oldest, and its cursor leads behind the two others. *)
Example same_second_skips : follow 7 7 "1" "" demo_desk = (Ok [demo_row 7 1], demo_desk).
Proof. vm_compute. done. Qed.

(** With pages of a hundred the service is asked for 101, which it takes for
    its default of 50: of sixty uploads ten are never shown. *)
Definition sixty : Desk :=
  put_dk_front (put_fr_db (set_uploads (map (fun n => demo_row 7 (Z.of_nat n)) (seq 1 60)) (ddb demo_desk)) (dk_front demo_desk)) demo_desk.

Example hundred_stops_early : exists us, follow 61 7 "100" (EncodeCursor (mkCursor 1000 "next")) sixty = (Ok us, sixty) /\ length us = 50%nat.
Proof. eexists. vm_compute. done. Qed.

(** Going back by pages of one from upload 1 shows upload 5: of the two rows
    read, reversed to 5 and 3 out of 1, 3, 5, the page keeps the first. *)
Example backwards_skips : exists p, ListUploads 7 (from_cursor "1" (EncodeCursor (mkCursor 1 "prev"))) demo_desk = (Ok (200, p), demo_desk) /\
  map u_id (pg_uploads p) = [5].
Proof. eexists. vm_compute. done. Qed.
