(* ===== verification/AccountSafety.v ===== *)
(** * What logins and lost passwords guarantee

    Who is let in, what the answers reveal, and the way from a forgotten password
    to a new one. *)

From stdpp Require Import gmap strings pretty.
From Stdlib Require Import Ascii.
From S2P Require Import Prelude GoLib Hex Sql Schema Stmt Settings Keyring AccountSchema Users Admins Tokens Guards Http Triple Base64 Front AuthHandlers.

Open Scope Z_scope.

(** ** Runs of the parts *)

Lemma acc_run {A} (m : AcM A) s r w : m (fr_ac s) = (r, w) -> acc m s = (r, put_fr_ac w s).
Proof. intros H. unfold acc, zoom. by rewrite H. Qed.

Lemma attempt_acc {A} (m : AcM A) s r w : m (fr_ac s) = (r, w) -> attempt (acc m) s = (Ok r, put_fr_ac w s).
Proof. intros H. unfold attempt. by rewrite (acc_run _ _ _ _ H). Qed.

Lemma attempt_look {A} (m : AcM A) s r : m (fr_ac s) = (r, fr_ac s) -> attempt (acc m) s = (Ok r, s).
Proof. intros H. rewrite (attempt_acc _ _ _ _ H). by destruct s. Qed.

Lemma refuse_acc {A} f (m : AcM A) s r w : m (fr_ac s) = (r, w) ->
  or_refuse f (acc m) s = (match r with Ok a => Ok a | Err e => Err (f e) end, put_fr_ac w s).
Proof. intros H. unfold or_refuse. by rewrite (acc_run _ _ _ _ H). Qed.

Lemma refuse_acc_ok {A} f (m : AcM A) s a w : m (fr_ac s) = (Ok a, w) -> or_refuse f (acc m) s = (Ok a, put_fr_ac w s).
Proof. intros H. by rewrite (refuse_acc _ _ _ _ _ H). Qed.

Lemma map_err_at {E S A} (f : E -> E) (m : ST E S A) s r s' : m s = (r, s') ->
  map_err f m s = (match r with Ok a => Ok a | Err e => Err (f e) end, s').
Proof. intros H. unfold map_err. rewrite H. by destruct r. Qed.

(** ** Columns that are no keys *)

(** An update that leaves the keys of well-formed tables alone is accepted. *)
Lemma update_users_accepted p f a : well_formed a ->
  (forall t u, us_ID (f t u) = us_ID u /\ us_Email (f t u) = us_Email u /\ us_ExternalID (f t u) = us_ExternalID u) ->
  update_users p f a = Ok (tt, set_ac_users (update p (f (stamp a)) (ac_users a)) a).
Proof.
  intros Hwf Hf. unfold update_users. set (t' := update p (f (stamp a)) (ac_users a)).
  assert (forall v, In v t' -> exists u, In u (ac_users a) /\ us_ID v = us_ID u /\ us_Email v = us_Email u /\ us_ExternalID v = us_ExternalID u) as Hin.
  { intros v (u & Hu & [[_ ->]|[_ ->]])%in_update; exists u; [|done]. destruct (Hf (stamp a) u) as (? & ? & ?). done. }
  unfold constrained. cbn. replace (existsb _ (ac_users a)) with false; [done|]. symmetry. apply not_true_iff_false.
  intros (u & Hu & [_ Hc]%andb_prop)%existsb_exists. apply negb_true_iff in Hc. revert Hc. apply not_false_iff_true.
  destruct (Hf (stamp a) u) as (Ei & Ee & Ex). unfold user_unique. rewrite Ee, Ex.
  assert (forall v, In v (delete_where (by_id (us_ID u)) t') -> exists v0, In v0 (ac_users a) /\ us_ID v0 <> us_ID u /\ us_Email v = us_Email v0 /\ us_ExternalID v = us_ExternalID v0) as Hrest.
  { intros v [Hv Hn]%in_delete. destruct (Hin v Hv) as (v0 & Hv0 & E1 & E2 & E3). exists v0. split_and!; try done. apply Z.eqb_neq in Hn. intros E. apply Hn.
    change (us_ID v = us_ID u). congruence. }
  apply andb_true_intro. split.
  - apply negb_true_iff, not_true_iff_false. intros (v & Hv & He)%existsb_exists. apply String.eqb_eq in He.
    destruct (Hrest v Hv) as (v0 & Hv0 & Hne & E2 & _). apply Hne, (wf_emails _ Hwf); [done..|congruence].
  - destruct (us_ExternalID u) as [e|] eqn:Eu; [|done]. apply negb_true_iff, not_true_iff_false. intros (v & Hv & He)%existsb_exists.
    apply bool_decide_eq_true in He. destruct (Hrest v Hv) as (v0 & Hv0 & Hne & _ & E3). apply Hne, (wf_externals _ Hwf v0 u e); [done..|congruence|done].
Qed.

(** ** Users by their address *)

Lemma find_unique {A} (p : A -> bool) (k : A -> Z) t x : In x t -> p x = true -> List.NoDup (map k t) ->
  (forall y, In y t -> p y = true -> k y = k x) -> List.find p t = Some x.
Proof.
  intros Hin Hp Hnd Hone. destruct (List.find p t) as [y|] eqn:E.
  - apply List.find_some in E as [Hy Hpy]. f_equal. specialize (Hone y Hy Hpy). clear -Hin Hy Hnd Hone.
    induction t as [|z t IH]; [done|]. cbn in Hnd. apply List.NoDup_cons_iff in Hnd as [Hz Ht].
    destruct Hin as [->|Hin], Hy as [->|Hy]; [done| | |by apply IH].
    + exfalso. apply Hz. rewrite <- Hone. by apply in_map.
    + exfalso. apply Hz. rewrite Hone. by apply in_map.
  - exfalso. by rewrite (List.find_none _ _ E x Hin) in Hp.
Qed.

Lemma GetByEmail_finds u email w : sched w = [] -> well_formed (tables w) -> In u (ac_users (tables w)) -> live u = true -> us_Email u = email ->
  GetByEmail email w = (Ok u, w).
Proof.
  intros Hw Hwf Hin Hl He. unfold GetByEmail. erewrite map_err_at; [|by apply read_row_healthy].
  rewrite (find_unique _ us_ID _ u); [done|done| |exact (wf_ids _ Hwf)|].
  - unfold has_email. by rewrite Hl, He, String.eqb_refl.
  - intros y Hy [Hye _]%andb_prop. apply String.eqb_eq in Hye. apply (wf_emails _ Hwf); [done..|]. congruence.
Qed.

(** ** From a forgotten password to a new one *)

Section flow.
Context {bc : Bcrypt} {bl : BcryptLaws} {jwt : Jwt} {mb : Mailbox} (kr : Keyring) (BaseURL : string).
Context (s : Front) (Hs : sched (fr_ac s) = []) (Hwf : well_formed (tables (fr_ac s))).

Abbreviation ac s := (tables (fr_ac s)).
Definition with_accounts (a : Accounts) (s : Front) : Front := put_fr_ac (set_tables a (fr_ac s)) s.

(** A user who may log in with a password. *)
Record may_reset (u : User) (email : string) : Prop := {
  mr_in : In u (ac_users (ac s));
  mr_live : live u = true;
  mr_active : us_IsActive u = true;
  mr_person : us_IsServiceAccount u = false;
  mr_email : us_Email u = TrimSpace (ToLower email);
}.

Lemma user_by_email u email : may_reset u email -> GetByEmail (TrimSpace (ToLower email)) (fr_ac s) = (Ok u, fr_ac s).
Proof. intros [Hin Hl Ha Hp He]. by apply GetByEmail_finds. Qed.

(** The tables with the new token, the older ones of the user spent. *)
Definition asked (u : User) (token : string) (a : Accounts) : Accounts :=
  set_ac_reset (spend (fun r => (ot_user_id r =? us_ID u) && unused r) (stamp a) (ac_reset a) ++ [mkOneTime (us_ID u) token (ac_now a + 60 * minute) None]) a.

Definition fresh_token (token : string) : Prop := forall r, In r (ac_reset (ac s)) -> ot_token r <> token.

Lemma spend_tokens p at_ t : map ot_token (spend p at_ t) = map ot_token t.
Proof. unfold spend, update. rewrite map_map. apply map_ext. intros r. by destruct (p r). Qed.

Lemma ResetCreate_calm u raw : In u (ac_users (ac s)) -> fresh_token (EncodeToString raw) ->
  ResetCreate (Ok raw) (us_ID u) (fr_ac s) = (Ok (EncodeToString raw), set_tables (asked u (EncodeToString raw) (ac s)) (fr_ac s)).
Proof.
  intros Hin Hfresh. unfold ResetCreate. unfold mbind at 1, ST_bind at 1, of_result.
  erewrite bind_run; [|unfold ignore; rewrite (write_healthy _ _ Hs); reflexivity].
  erewrite bind_run; [|reflexivity]. erewrite bind_run; [reflexivity|]. rewrite write_if_healthy by done. cbn [tables set_tables].
  unfold insert_one_time, constrained. cbn [ac_reset set_ac_reset ot_token ot_user_id andb negb].
  replace (existsb _ (spend _ _ _)) with false.
  - replace (user_exists _ (us_ID u)) with true; [done|]. symmetry. apply existsb_exists. exists u. split; [exact Hin|]. unfold by_id. apply Z.eqb_refl.
  - symmetry. apply not_true_iff_false. intros (r & Hr & E)%existsb_exists. apply String.eqb_eq in E.
    apply (in_map ot_token) in Hr. rewrite spend_tokens in Hr. apply in_map_iff in Hr as (r' & E' & Hr'). apply (Hfresh r' Hr'). congruence.
Qed.

(** The token is found until it is used. *)
Definition used_up (token : string) (a : Accounts) : Accounts := set_ac_reset (spend (fun r => String.eqb (ot_token r) token) (stamp a) (ac_reset a)) a.

Lemma find_asked u token : fresh_token token ->
  List.find (fun r => String.eqb (ot_token r) token && unused r) (ac_reset (asked u token (ac s))) = Some (mkOneTime (us_ID u) token (ac_now (ac s) + 60 * minute) None).
Proof.
  intros Hfresh. cbn [asked ac_reset set_ac_reset]. unfold fresh_token in Hfresh.
  assert (forall r, In r (spend (fun r => (ot_user_id r =? us_ID u) && unused r) (stamp (ac s)) (ac_reset (ac s))) -> ot_token r <> token) as H.
  { intros r Hr E. apply (in_map ot_token) in Hr. rewrite spend_tokens in Hr. apply in_map_iff in Hr as (r' & E' & Hr'). apply (Hfresh r' Hr'). congruence. }
  revert H. generalize (spend (fun r => (ot_user_id r =? us_ID u) && unused r) (stamp (ac s)) (ac_reset (ac s))).
  intros t. induction t as [|r t IH]; intros H; cbn.
  - by rewrite String.eqb_refl.
  - destruct (String.eqb_spec (ot_token r) token) as [E|E]; [by destruct (H r (or_introl eq_refl))|]. apply IH. intros r' Hr'. apply H. by right.
Qed.

Lemma find_used_up token a : List.find (fun r => String.eqb (ot_token r) token && unused r) (ac_reset (used_up token a)) = None.
Proof.
  cbn [used_up ac_reset set_ac_reset]. unfold spend, update. induction (ac_reset a) as [|r t IH]; cbn; [done|].
  destruct (String.eqb_spec (ot_token r) token) as [E|E]; cbn.
  - by rewrite andb_false_r.
  - apply String.eqb_neq in E. by rewrite E.
Qed.

Lemma ResetValidate_calm u token w : sched w = [] -> fresh_token token -> tables w = asked u token (ac s) ->
  ResetValidate token w = (Ok (us_ID u), set_tables (used_up token (tables w)) w).
Proof.
  intros Hw Hfresh Ht. unfold ResetValidate.
  erewrite bind_run; [|erewrite map_err_at by (by apply read_row_healthy); rewrite Ht, find_asked by done; reflexivity].
  erewrite bind_run; [|reflexivity]. cbn [ot_expires_at]. rewrite Ht.
  change (ac_now (asked u token (ac s))) with (ac_now (ac s)). destruct (Z.ltb_spec (ac_now (ac s) + 60 * minute) (ac_now (ac s))) as [H|_].
  { unfold minute, ac_second in H. lia. }
  erewrite bind_run; [|unfold ignore; rewrite (write_healthy _ _ Hw); reflexivity]. by rewrite Ht.
Qed.

Lemma ResetValidate_used token w : sched w = [] -> List.find (fun r => String.eqb (ot_token r) token && unused r) (ac_reset (tables w)) = None ->
  exists e, ResetValidate token w = (Err e, w).
Proof.
  intros Hw Hf. unfold ResetValidate, mbind, ST_bind. erewrite map_err_at by (by apply read_row_healthy). rewrite Hf. by eexists.
Qed.

(** The row with the new hash. *)
Definition rehashed (hash : string) (t : Z) (r : User) : User := set_us_PasswordHash (Some hash) (set_us_PasswordChangedAt (Some t) (set_us_UpdatedAt t r)).
Definition repassworded (id : Z) (hash : string) (a : Accounts) : Accounts := set_ac_users (update (by_id id) (rehashed hash (stamp a)) (ac_users a)) a.

Lemma UpdatePassword_calm id hash w : sched w = [] -> well_formed (tables w) ->
  UpdatePassword id hash w = (Ok tt, set_tables (repassworded id hash (tables w)) w).
Proof. intros Hw Hwf'. unfold UpdatePassword. rewrite write_if_healthy by done. by rewrite update_users_accepted. Qed.

Lemma asked_wf u token a : well_formed a -> well_formed (asked u token a).
Proof. intros []. by split. Qed.
Lemma used_up_wf token a : well_formed a -> well_formed (used_up token a).
Proof. intros []. by split. Qed.

Definition link (token : string) : string := base_url BaseURL +:+ "/reset-password?token=" +:+ token.

Lemma ForgotPassword_calm u email raw : may_reset u email -> fresh_token (EncodeToString raw) ->
  exists s1, ForgotPassword BaseURL (Ok raw) (Some email) s = (Ok reset_answer, s1) /\
    fr_ac s1 = set_tables (asked u (EncodeToString raw) (ac s)) (fr_ac s) /\ fr_db s1 = fr_db s /\
    In (MailPasswordReset (us_Email u) (link (EncodeToString raw))) (fr_told s1).
Proof.
  intros Hu Hfresh. unfold ForgotPassword. cbn [decoded]. erewrite bind_run; [|reflexivity].
  erewrite bind_run; [|apply attempt_look, (user_by_email u email Hu)]. cbn iota beta.
  rewrite (mr_active _ _ Hu), (mr_person _ _ Hu). cbn [negb orb].
  erewrite bind_run; [|apply attempt_acc, ResetCreate_calm; [apply Hu|done]]. unfold tell, auditEvent. run_goal. eexists. split; [reflexivity|].
  cbn. split_and!; [done|done|]. apply in_app_iff. left. apply in_app_iff. right. by left.
Qed.

Lemma ResetPassword_calm u token pw salt hash s1 : fresh_token token -> sched (fr_ac s1) = [] -> ac s1 = asked u token (ac s) ->
  (8 <= String.length pw)%nat -> bc_generate pw salt = Ok hash ->
  exists s2, ResetPassword salt (Some (mkReset token pw)) s1 = (Ok (200, "password reset successfully"), s2) /\
    fr_ac s2 = set_tables (repassworded (us_ID u) hash (used_up token (asked u token (ac s)))) (fr_ac s1) /\ fr_db s2 = fr_db s1.
Proof.
  intros Hfresh H1 Ht Hlen Hhash. unfold ResetPassword. cbn [decoded]. erewrite bind_run; [|reflexivity]. cbn [rp_NewPassword rp_Token].
  unfold require. destruct (Nat.leb_spec 8 (String.length pw)); [|lia]. erewrite bind_run; [|reflexivity].
  erewrite bind_run; [|apply attempt_acc, (ResetValidate_calm u); done]. cbn iota beta.
  erewrite bind_run; [|unfold or_refuse, of_result; rewrite Hhash; reflexivity].
  erewrite bind_run; [|apply refuse_acc_ok, UpdatePassword_calm; [done|cbn [fr_ac put_fr_ac tables set_tables]; rewrite Ht; by apply used_up_wf, asked_wf]].
  unfold auditEvent, tell. run_goal. eexists. split; [reflexivity|]. cbn. by rewrite Ht.
Qed.

Lemma ResetPassword_used token pw salt s2 : sched (fr_ac s2) = [] -> (8 <= String.length pw)%nat ->
  List.find (fun r => String.eqb (ot_token r) token && unused r) (ac_reset (ac s2)) = None ->
  fst (ResetPassword salt (Some (mkReset token pw)) s2) = Err (jsonError "invalid or expired reset token" 401).
Proof.
  intros H2 Hlen Hf. unfold ResetPassword. cbn [decoded]. erewrite bind_run; [|reflexivity]. cbn [rp_NewPassword rp_Token].
  unfold require. destruct (Nat.leb_spec 8 (String.length pw)); [|lia]. erewrite bind_run; [|reflexivity].
  destruct (ResetValidate_used token (fr_ac s2) H2 Hf) as [e He]. erewrite bind_run; [|apply attempt_look, He]. reflexivity.
Qed.
End flow.

(** ** Logging in *)

Section login.
Context {bc : Bcrypt} {jwt : Jwt} {mb : Mailbox} (kr : Keyring).

Lemma jwt_expiry_looks s : exists n d, jwt_expiry_hours s = (Ok n, put_fr_db d s).
Proof.
  unfold jwt_expiry_hours, attempt, fdb, zoom. run_goal. destruct (Get "jwt_expiry_hours" (fr_db s)) as [[v|e] d]; by eexists _, d.
Qed.

(** A user with this password, on tables that answer. *)
Lemma Login_calm u email pw hash raw secure s : sched (fr_ac s) = [] ->
  GetByEmail (TrimSpace (ToLower email)) (fr_ac s) = (Ok u, fr_ac s) -> us_IsActive u = true -> us_PasswordHash u = Some hash ->
  String.eqb (TrimSpace (ToLower email)) "" = false -> pw <> "" -> (forall k c, exists t, jwt_sign k c = Ok t) ->
  let r := fst (Login kr (Ok raw) secure (Some (mkLogin email pw)) s) in
  if bc_compare hash pw then exists a, r = Ok (200, a) /\ ur_ID (ar_User a) = us_ID u else r = Err invalid_credentials.
Proof.
  intros Hs Hu Ha Hp He Hpw Hsign r. subst r. unfold Login. cbn [decoded]. erewrite bind_run; [|reflexivity]. cbn [lr_Email lr_Password].
  apply String.eqb_neq in Hpw. rewrite He, Hpw. unfold require. cbn [orb negb]. erewrite bind_run; [|reflexivity].
  erewrite bind_run; [|by apply attempt_look]. cbn iota beta. rewrite Ha. unfold password_matches. rewrite Hp. cbn [negb].
  destruct (bc_compare hash pw); cbn [negb]; [|reflexivity].
  destruct (jwt_expiry_looks s) as (n & d & Hj). erewrite bind_run; [|exact Hj]. erewrite bind_run; [|reflexivity].
  destruct (Hsign (Primary kr) (mkClaims (us_ID u) (us_Email u) (Some (ac_now (tables (fr_ac (put_fr_db d s))) / ac_second))
    (Some ((ac_now (tables (fr_ac (put_fr_db d s))) + wrap64 (wrap64 n * (3600 * ac_second))) / ac_second)) "indelible")) as [t Ht].
  erewrite bind_run; [|unfold or_refuse, of_result, GenerateToken; rewrite Ht; reflexivity].
  unfold mbind at 1, ST_bind at 1, attempt at 1. destruct (acc (UpdateLastLogin _) _) as [x s4]. cbn iota beta.
  unfold auditEvent, setSessionCookies, newCSRFToken, tell, or_refuse, of_result, or_zero, attempt. run_goal.
  destruct (acc (GetEffective _) _) as [y s5]. eexists. by split.
Qed.

End login.

(** ** What is claimed *)

Lemma rehashed_in id hash t a u : In u (ac_users a) -> us_ID u = id -> In (rehashed hash t u) (update (by_id id) (rehashed hash t) (ac_users a)).
Proof. intros Hin <-. apply in_update. exists u. split; [done|]. left. split; [unfold by_id; apply Z.eqb_refl|done]. Qed.

(** C26. The way back in. Asked about a forgotten password of an active user, the
    server mails a link to the address of that user; the token in it sets a new
    password once; with the new password the user is logged in, with any
    password the new hash does not accept nobody is; the old sessions are dated
    as overtaken; and the token is refused from then on. *)
Theorem password_reset_flow {bc : Bcrypt} {bl : BcryptLaws} {jwt : Jwt} {mb : Mailbox} (kr : Keyring) (BaseURL : string) (s : Front)
    (u : User) (email pw hash : string) (salt : Z) (raw : list Z)
    (Hs : sched (fr_ac s) = []) (Hwf : well_formed (tables (fr_ac s)))
    (Hu : may_reset s u email) (He : us_Email u <> "") (Hfresh : fresh_token s (EncodeToString raw))
    (Hlen : (8 <= String.length pw)%nat) (Hhash : bc_generate pw salt = Ok hash)
    (Hsign : forall k c, exists t, jwt_sign k c = Ok t) :
  exists s1 s2,
    ForgotPassword BaseURL (Ok raw) (Some email) s = (Ok reset_answer, s1) /\
    In (MailPasswordReset (us_Email u) (link BaseURL (EncodeToString raw))) (fr_told s1) /\
    ResetPassword salt (Some (mkReset (EncodeToString raw) pw)) s1 = (Ok (200, "password reset successfully"), s2) /\
    (forall rnd secure, exists a, fst (Login kr (Ok rnd) secure (Some (mkLogin email pw)) s2) = Ok (200, a) /\ ur_ID (ar_User a) = us_ID u) /\
    (forall rnd secure other, other <> "" -> bc_compare hash other = false ->
       fst (Login kr (Ok rnd) secure (Some (mkLogin email other)) s2) = Err invalid_credentials) /\
    In (rehashed hash (stamp (tables (fr_ac s))) u) (ac_users (tables (fr_ac s2))) /\
    (forall salt' pw', (8 <= String.length pw')%nat ->
       fst (ResetPassword salt' (Some (mkReset (EncodeToString raw) pw')) s2) = Err (jsonError "invalid or expired reset token" 401)).
Proof.
  destruct (ForgotPassword_calm BaseURL s Hs Hwf u email raw Hu Hfresh) as (s1 & Hf & Ha1 & Hd1 & Hmail).
  destruct (ResetPassword_calm s Hwf u (EncodeToString raw) pw salt hash s1 Hfresh) as (s2 & Hr & Ha2 & Hd2); [by rewrite Ha1..|done|done|].
  exists s1, s2. split; [done|]. split; [done|]. split; [done|].
  assert (In (rehashed hash (stamp (tables (fr_ac s))) u) (ac_users (tables (fr_ac s2)))) as Hin.
  { rewrite Ha2. apply rehashed_in; [apply Hu|done]. }
  assert (forall rnd secure other, other <> "" -> let r := fst (Login kr (Ok rnd) secure (Some (mkLogin email other)) s2) in
    if bc_compare hash other then exists a, r = Ok (200, a) /\ ur_ID (ar_User a) = us_ID u else r = Err invalid_credentials) as Hlogin.
  { intros rnd secure other Ho. apply (Login_calm kr (rehashed hash (stamp (tables (fr_ac s))) u) email other hash rnd secure s2); try done.
    - by rewrite Ha2, Ha1.
    - apply GetByEmail_finds; [by rewrite Ha2, Ha1| |done| |].
      + rewrite Ha2. eapply (update_users_wf (by_id (us_ID u)) (rehashed hash)); [done| |apply update_users_accepted; [|done]];
          by apply used_up_wf, asked_wf.
      + apply (mr_live _ _ _ Hu).
      + apply (mr_email _ _ _ Hu).
    - apply (mr_active _ _ _ Hu).
    - apply String.eqb_neq. by rewrite <- (mr_email _ _ _ Hu). }
  split_and!; [|intros rnd secure other Ho Hc; specialize (Hlogin rnd secure other Ho); by rewrite Hc in Hlogin|done|].
  - intros rnd secure. specialize (Hlogin rnd secure pw). rewrite (bc_accepts _ _ _ Hhash) in Hlogin. apply Hlogin. by destruct pw.
  - intros salt' pw' Hl'. apply ResetPassword_used; [by rewrite Ha2, Ha1|done|]. rewrite Ha2. apply find_used_up.
Qed.

(** ** What the answers reveal *)

Section answers.
Context {bc : Bcrypt} {jwt : Jwt} {mb : Mailbox} (BaseURL : string).

Lemma Create_answers email hash first last w : sched w = [] -> well_formed (tables w) ->
  match fst (Create email hash first last w) with Ok _ => True | Err e => errors_is e ErrEmailTaken = true end.
Proof.
  intros Hw Hwf. unfold Create, mbind, ST_bind, map_err. rewrite write_if_healthy by done.
  destruct (insert_user _ (tables w)) as [[id a]|e] eqn:E; cbn.
  - destruct (insert_user_wf (new_user email (Some hash) first last false None) _ _ _ ltac:(done) Hwf E) as (_ & -> & Ha & _).
    unfold GetByID. erewrite map_err_at by (by apply read_row_healthy). cbn [tables set_tables].
    rewrite Ha. destruct (List.find _ _) as [u|] eqn:Ef; [done|]. exfalso.
    pose proof (List.find_none _ _ Ef (new_user email (Some hash) first last false None (ac_seq_users (tables w) + 1) (stamp (tables w)))) as H.
    rewrite in_app_iff in H. specialize (H (or_intror (or_introl eq_refl))). unfold by_id, key in H. cbn in H. by rewrite Z.eqb_refl in H.
  - unfold insert_user, constrained in E. cbn in E. destruct (user_unique _ _); cbn in E; [done|]. by injection E as <-.
Qed.

Lemma registration_looks s : exists d, registrationEnabled s = (Ok (match fst (Get "registration_enabled" (fr_db s)) with Ok v => String.eqb v "true" | Err _ => false end), put_fr_db d s).
Proof.
  unfold registrationEnabled, attempt, fdb, zoom. run_goal. destruct (Get "registration_enabled" (fr_db s)) as [[v|e] d]; by exists d.
Qed.

(** What becomes of a registration that passed the checks of the form. *)
Lemma Register_tail rnd hash email first last s : sched (fr_ac s) = [] -> well_formed (tables (fr_ac s)) ->
  fst ((created ← attempt (acc (Create email hash first last));
        match created with
        | Ok user =>
            attempt (acc (SetDirect (us_ID user) "read" (us_ID user))) ;;
            token ← attempt (acc (VerifyCreate rnd (us_ID user)));
            match token with
            | Ok token => tell (MailEmailVerification (us_Email user) (base_url BaseURL +:+ "/verify-email?token=" +:+ token))
            | Err _ => mret tt
            end ;;
            answer 202 neutral
        | Err err => if errors_is err ErrEmailTaken then answer 202 neutral else refuse (jsonError "failed to create user" 500)
        end) s) = Ok (202, neutral).
Proof.
  intros Hs Hwf. pose proof (Create_answers email hash first last (fr_ac s) Hs Hwf) as Hc.
  destruct (Create email hash first last (fr_ac s)) as [r w] eqn:E. cbn in Hc. erewrite bind_run; [|by apply attempt_acc].
  destruct r as [user|e]; [|by rewrite Hc].
  unfold mbind at 1, ST_bind at 1, attempt at 1. destruct (acc (SetDirect _ _ _) _) as [x s1]. cbn iota beta.
  unfold mbind at 1, ST_bind at 1, attempt at 1. destruct (acc (VerifyCreate _ _) _) as [[t|e] s2]; reflexivity.
Qed.

(** The answer to a registration, read off the request. *)
Definition registration_answer (enabled : bool) (salt : Z) (body : option registerRequest) : result Refusal (Z * string) :=
  if negb enabled then Err (jsonErrorWithCode "self-registration is disabled" "registration_disabled" 403)
  else match body with
       | None => Err invalid_body
       | Some req =>
           let email := TrimSpace (ToLower (rr_Email req)) in
           if String.eqb email "" || String.eqb (rr_Password req) "" || String.eqb (TrimSpace (rr_FirstName req)) "" || String.eqb (TrimSpace (rr_LastName req)) ""
           then Err (jsonError "email, password, first_name, and last_name are required" 400)
           else if negb (IsValidEmail email) then Err (jsonError "email is not a valid address" 400)
           else if negb (8 <=? String.length (rr_Password req))%nat then Err (jsonError "password must be at least 8 characters" 400)
           else match bc_generate (rr_Password req) salt with
                | Ok _ => Ok (202, neutral)
                | Err _ => Err (jsonError "failed to hash password" 500)
                end
       end.

Lemma Register_answers salt rnd body s : sched (fr_ac s) = [] -> well_formed (tables (fr_ac s)) ->
  fst (Register BaseURL salt rnd body s) =
  registration_answer (match fst (Get "registration_enabled" (fr_db s)) with Ok v => String.eqb v "true" | Err _ => false end) salt body.
Proof.
  intros Hs Hwf. destruct (registration_looks s) as [d R]. unfold Register, require. erewrite bind_run; [|exact R]. clear R.
  destruct (match fst (Get "registration_enabled" (fr_db s)) with Ok _ => _ | Err _ => _ end); [|reflexivity].
  erewrite bind_run; [|reflexivity]. destruct body as [req|]; [|reflexivity].
  unfold registration_answer. cbn [decoded negb]. erewrite bind_run; [|reflexivity].
  destruct (String.eqb _ "" || _ || _ || _); [reflexivity|]. cbn [negb]. erewrite bind_run; [|reflexivity].
  destruct (IsValidEmail _); [|reflexivity]. erewrite bind_run; [|reflexivity].
  destruct (8 <=? _)%nat; [|reflexivity]. cbn [negb]. erewrite bind_run; [|reflexivity].
  destruct (bc_generate _ _) as [hash|e]; [|reflexivity]. erewrite bind_run; [|reflexivity].
  by apply Register_tail.
Qed.

Lemma ForgotPassword_answers rnd email s : fst (ForgotPassword BaseURL rnd (Some email) s) = Ok reset_answer.
Proof.
  unfold ForgotPassword. cbn [decoded]. erewrite bind_run; [|reflexivity].
  unfold mbind at 1, ST_bind at 1, attempt at 1. destruct (acc (GetByEmail _) s) as [[u|e] s1]; cbn iota beta; [|reflexivity].
  destruct (_ || _); [reflexivity|]. unfold mbind at 1, ST_bind at 1, attempt at 1. by destruct (acc (ResetCreate _ _) s1) as [[t|e] s2].
Qed.

(** C27. Neither registering nor asking for a new password tells an outsider who
    has an account: as long as the tables answer, the answer to a registration
    is read off the request and the setting, whatever users there are; the
    answer about a forgotten password is always the same. *)
Theorem answers_hide_accounts (salt : Z) (rnd1 rnd2 : result error (list Z)) (body : option registerRequest) (s1 s2 : Front)
    (H1 : sched (fr_ac s1) = []) (W1 : well_formed (tables (fr_ac s1))) (H2 : sched (fr_ac s2) = []) (W2 : well_formed (tables (fr_ac s2)))
    (Hen : fst (Get "registration_enabled" (fr_db s1)) = fst (Get "registration_enabled" (fr_db s2))) :
  fst (Register BaseURL salt rnd1 body s1) = fst (Register BaseURL salt rnd2 body s2) /\
  forall rnd1' rnd2' e1 e2, fst (ForgotPassword BaseURL rnd1' (Some e1) s1) = fst (ForgotPassword BaseURL rnd2' (Some e2) s2).
Proof.
  split; [by rewrite !Register_answers, Hen|]. intros. by rewrite !ForgotPassword_answers.
Qed.
End answers.

(** ** Who is let in *)

Definition session_cookie (t : told) : bool := match t with SetCookie c => String.eqb (ck_Name c) "session" | _ => false end.

Section admits.
Context {bc : Bcrypt} {jwt : Jwt} {mb : Mailbox} (kr : Keyring).

Lemma GetByEmail_run email w r w' : GetByEmail email w = (r, w') ->
  tables w' = tables w /\ match r with Ok u => In u (ac_users (tables w)) /\ us_Email u = email /\ live u = true | Err _ => True end.
Proof.
  unfold GetByEmail, map_err. destruct (read_row _ w) as [x w1] eqn:E. apply read_row_run in E.
  destruct x as [u|e]; intros [= <- <-]; destruct E as [[Ht Hx]|[Ht [e' Hx]]]; try done.
  destruct (List.find _ _) as [v|] eqn:Ef; [|done]. injection Hx as ->.
  apply List.find_some in Ef as (Hin & [He Hl]%andb_prop). by apply String.eqb_eq in He.
Qed.

Lemma attempt_told {A} (m : AcM A) s : exists r w, attempt (acc m) s = (Ok r, put_fr_ac w s) /\ m (fr_ac s) = (r, w).
Proof. destruct (m (fr_ac s)) as [r w] eqn:E. exists r, w. split; [by apply attempt_acc|done]. Qed.

(** A user the answer may name: its row, found under the address, with the
    password's hash, and the token made for it. *)
Definition let_in (body : option loginRequest) (rows : list User) (a : authResponse) : Prop :=
  exists req u now hours, body = Some req /\ In u rows /\ live u = true /\ us_IsActive u = true /\
    us_Email u = TrimSpace (ToLower (lr_Email req)) /\ password_matches u (lr_Password req) = true /\
    GenerateToken now (Primary kr) (us_ID u) (us_Email u) hours = Ok (ar_Token a) /\ ur_ID (ar_User a) = us_ID u.

(** The end of a login: the token, the cookies, the answer. *)
Lemma Login_end rnd secure u s rows req body r s' :
  body = Some req -> In u rows -> live u = true -> us_IsActive u = true -> us_Email u = TrimSpace (ToLower (lr_Email req)) ->
  password_matches u (lr_Password req) = true ->
  (expiryHours ← jwt_expiry_hours;
   now ← gets (fun s => ac_now (tables (fr_ac s)));
   token ← or_refuse (fun _ => jsonError "failed to generate token" 500)
             (of_result (GenerateToken now (Primary kr) (us_ID u) (us_Email u) expiryHours));
   attempt (acc (UpdateLastLogin (us_ID u))) ;;
   auditEvent "login" "info" (Some (us_ID u)) "password" ;;
   setSessionCookies rnd secure token expiryHours ;;
   perms ← or_zero "" (acc (GetEffective (us_ID u)));
   answer 200 (mkAuthResp token (toUserResponse u perms))) s = (r, s') ->
  match r with
  | Ok (code, a) => code = 200 /\ let_in body rows a /\ exists c, In (SetCookie c) (fr_told s') /\ ck_Name c = "session" /\ ck_Value c = ar_Token a /\ ck_HttpOnly c = true
  | Err _ => forall t, In t (fr_told s') -> session_cookie t = true -> In t (fr_told s)
  end.
Proof.
  intros -> Hin Hl Ha He Hp. destruct (jwt_expiry_looks s) as (n & d & Hj). erewrite bind_run; [|exact Hj]. erewrite bind_run; [|reflexivity].
  set (now := ac_now _). unfold mbind at 1, ST_bind at 1, or_refuse at 1, of_result at 1.
  destruct (GenerateToken now (Primary kr) (us_ID u) (us_Email u) n) as [t|e] eqn:Et; cbn iota beta; [|intros [= <- <-]; by intros].
  destruct (attempt_told (UpdateLastLogin (us_ID u)) (put_fr_db d s)) as (x & w & E & _). erewrite bind_run; [|exact E]. clear E.
  erewrite bind_run; [|reflexivity]. unfold setSessionCookies, newCSRFToken. destruct rnd as [b|e]; cycle 1.
  { intros [= <- <-]. cbn. intros t' [|[<-|[]]]%in_app_iff; done. }
  erewrite bind_run; [|reflexivity]. set (s4 := mkFront _ _ _).
  destruct (attempt_told (GetEffective (us_ID u)) s4) as (y & w2 & E & _).
  erewrite bind_run; [|unfold or_zero; erewrite bind_run; [reflexivity|exact E]]. clear E.
  intros [= <- <-]. split; [done|]. split; [exists req, u, now, n; by split_and!|].
  eexists. split; [cbn; rewrite !in_app_iff; left; right; left; reflexivity|done].
Qed.

(** C28. Whatever the tables answer, a login succeeds only for a live active
    user found under the address given, whose hash accepts the password given,
    with a session token made for that user, and sets it as a cookie scripts
    cannot read; a refused login sets no session cookie. *)
Theorem Login_admits (rnd : result error (list Z)) (secure : bool) (body : option loginRequest) (s s' : Front) r
    (H : Login kr rnd secure body s = (r, s')) :
  match r with
  | Ok (code, a) => code = 200 /\ let_in body (ac_users (tables (fr_ac s))) a /\
      exists c, In (SetCookie c) (fr_told s') /\ ck_Name c = "session" /\ ck_Value c = ar_Token a /\ ck_HttpOnly c = true
  | Err _ => forall t, In t (fr_told s') -> session_cookie t = true -> In t (fr_told s)
  end.
Proof.
  revert H. unfold Login, require. destruct body as [req|]; [|intros [= <- <-]; by intros]. cbn [decoded]. erewrite bind_run; [|reflexivity].
  destruct (_ || _); cbn [negb]; [intros [= <- <-]; by intros|]. erewrite bind_run; [|reflexivity].
  destruct (GetByEmail (TrimSpace (ToLower (lr_Email req))) (fr_ac s)) as [[u|e] w] eqn:E; (erewrite bind_run; [|by apply attempt_acc]); cbn iota beta; cycle 1.
  { intros [= <- <-]. cbn. intros t' [|[<-|[]]]%in_app_iff; done. }
  apply GetByEmail_run in E as [Ht (Hin & He & Hl)].
  destruct (us_IsActive u) eqn:Ha; cbn [negb]; [|intros [= <- <-]; cbn; intros t' [|[<-|[]]]%in_app_iff; done].
  destruct (password_matches u (lr_Password req)) eqn:Hp; cbn [negb]; [|intros [= <- <-]; cbn; intros t' [|[<-|[]]]%in_app_iff; done].
  intros H. by eapply (Login_end rnd secure u (put_fr_ac w s)) in H.
Qed.
End admits.

(** ** Concrete tables *)

#[local] Instance text_bcrypt : Bcrypt := {| bc_generate := fun pw salt => Ok pw; bc_compare := String.eqb |}.
#[local] Instance text_bcrypt_laws : BcryptLaws.
Proof. constructor. intros pw salt h. cbn. intros [= <-]. apply String.eqb_refl. Qed.

#[local] Instance named_jwt : Jwt := {|
  jwt_sign := fun secret c => Ok (secret +:+ ":" +:+ pretty (jc_UserID c));
  jwt_parse := fun _ _ _ => Err (ENew "signature");
|}.
#[local] Instance ascii_mailbox : Mailbox := {| ToLower := fun s => s; IsValidEmail := fun _ => true |}.

Definition ann : User := mkUser 1 "ann@example.com" (Some "forgotten") "Ann" "B" true false true None None None None None 0 0 None.
Definition with_ann : Accounts := mkAccounts [ann] 1 [] [] 0 [] [] 0 [] [] 0 [] [] [] [] 0 [] 0 (1700000000 * ac_second).
Definition no_users : Accounts := mkAccounts [] 0 [] [] 0 [] [] 0 [] [] 0 [] [] [] [] 0 [] 0 (1700000000 * ac_second).
Definition open_db : Db := mkDb [] 0 [] 0 [] 0 [] [] [] [] [] 0 [] [] [("registration_enabled", "true")] [] [] 0 [] 0 [].
Definition front_of (a : Accounts) : Front := mkFront (mkWorld a []) open_db [].
Definition front_ring : Keyring := mkKeyring "new" ["new"] {["new" := "s1"]}.

Lemma with_ann_wf : well_formed with_ann.
Proof.
  split; cbn; try done; try apply List.NoDup_nil.
  - repeat constructor; naive_solver.
  - intros u [<-|[]]. done.
  - intros u v [<-|[]] [<-|[]]. done.
  - intros u v e [<-|[]] [<-|[]]. done.
Qed.

Lemma no_users_wf : well_formed no_users.
Proof. split; cbn; try done; try apply List.NoDup_nil; by intros ?. Qed.

Definition relogin (raw : list Z) (pw : string) : option (Z * string) :=
  let s1 := snd (ForgotPassword "" (Ok raw) (Some "ann@example.com") (front_of with_ann)) in
  let s2 := snd (ResetPassword 0 (Some (mkReset (EncodeToString raw) "remembered")) s1) in
  match fst (Login front_ring (Ok [7]) true (Some (mkLogin "ann@example.com" pw)) s2) with
  | Ok (code, a) => Some (code, ar_Token a)
  | Err _ => None
  end.

Example password_reset_flow_witness :
  relogin [1; 171] "remembered" = Some (200, "s1:1") /\ relogin [1; 171] "forgotten" = None /\
  exists s1 s2,
    ForgotPassword "" (Ok [1; 171]) (Some "ann@example.com") (front_of with_ann) = (Ok reset_answer, s1) /\
    In (MailPasswordReset "ann@example.com" "http://localhost:8080/reset-password?token=01ab") (fr_told s1) /\
    ResetPassword 0 (Some (mkReset "01ab" "remembered")) s1 = (Ok (200, "password reset successfully"), s2).
Proof.
  split; [vm_compute; reflexivity|]. split; [vm_compute; reflexivity|].
  destruct (password_reset_flow front_ring "" (front_of with_ann) ann "ann@example.com" "remembered" "remembered" 0 [1; 171]) as (s1 & s2 & F & M & R & _).
  - exact eq_refl.
  - exact with_ann_wf.
  - split; try exact eq_refl. by left.
  - done.
  - by intros r [].
  - vm_compute. lia.
  - exact eq_refl.
  - intros k c. by eexists.
  - exists s1, s2. by split_and!.
Defined.

Definition sign_up : registerRequest := mkRegister "ann@example.com" "long enough" "Ann" "B".

Example answers_hide_accounts_witness :
  fst (Register "" 0 (Ok [1]) (Some sign_up) (front_of with_ann)) = Ok (202, neutral) /\
  fst (Register "" 0 (Ok [1]) (Some sign_up) (front_of with_ann)) = fst (Register "" 0 (Ok [2]) (Some sign_up) (front_of no_users)).
Proof.
  split; [vm_compute; reflexivity|].
  apply (answers_hide_accounts "" 0 (Ok [1]) (Ok [2]) (Some sign_up) (front_of with_ann) (front_of no_users)); try exact eq_refl;
    [exact with_ann_wf|exact no_users_wf].
Defined.

Definition good_login : option loginRequest := Some (mkLogin "ann@example.com" "forgotten").

Example Login_admits_witness :
  match Login front_ring (Ok [7]) true good_login (front_of with_ann) with
  | (Ok (code, a), s') => code = 200 /\ let_in front_ring good_login [ann] a
  | (Err _, _) => False
  end.
Proof.
  destruct (Login front_ring (Ok [7]) true good_login (front_of with_ann)) as [r s'] eqn:E.
  pose proof (Login_admits front_ring (Ok [7]) true good_login (front_of with_ann) s' r E) as H.
  destruct r as [[code a]|e]; [destruct H as (Hc & Ha & _); by split|]. vm_compute in E. discriminate.
Defined.

(** The answer to a login tells an inactive account from a missing one, whatever
    the password. *)
Example inactive_is_told :
  let away := mkAccounts [set_us_IsActive false ann] 1 [] [] 0 [] [] 0 [] [] 0 [] [] [] [] 0 [] 0 0 in
  fst (Login front_ring (Ok [7]) true (Some (mkLogin "ann@example.com" "guess")) (front_of away)) =
    Err (jsonErrorWithCode "account is inactive" "account_inactive" 403) /\
  fst (Login front_ring (Ok [7]) true (Some (mkLogin "ann@example.com" "guess")) (front_of no_users)) = Err invalid_credentials.
Proof. vm_compute. done. Qed.
