(* ===== verification/AdminSafety.v ===== *)
(** * What the administration of users guarantees

    The last administrator stays, and a deleted user stays out. *)

From stdpp Require Import gmap strings pretty.
From Stdlib Require Import Ascii.
From S2P Require Import Prelude GoLib Sql Schema Stmt AccountSchema Users Admins Tokens TokenLife Guards Router Http Triple Front AuthHandlers AdminHandlers AccountSafety.

Open Scope Z_scope.

(** ** Rows that count *)

(** Two rows that count are two users. *)
Lemma another_counts {A} `{!Keyed A} (p : A -> bool) t i : List.NoDup (ids t) -> 1 < affected p t -> exists x, In x t /\ p x = true /\ key x <> i.
Proof.
  intros Hnd H. pose proof (NoDup_ids_select p t Hnd) as Hs. unfold affected in H.
  destruct (select p t) as [|x [|y l]] eqn:E; [cbn in H; lia..|].
  assert (forall z, In z (select p t) -> In z t /\ p z = true) as Hin by (intros z Hz; by apply in_select in Hz).
  rewrite E in Hin. destruct (Hin x (or_introl eq_refl)) as [Hx Px]. destruct (Hin y (or_intror (or_introl eq_refl))) as [Hy Py].
  destruct (Z.eq_dec (key x) i) as [Ei|]; [|by eauto]. exists y. split_and!; try done. intros Ey.
  apply NoDup_cons_iff in Hs as [Hn _]. apply Hn. left. congruence.
Qed.

Lemma affected_some {A} (p : A -> bool) t x : In x t -> p x = true -> 0 < affected p t.
Proof.
  intros Hin Hp. assert (affected p t <> 0) as H by (apply affected_pos; eauto). unfold affected in *. lia.
Qed.

(** ** The last administrator *)

Section last.
Abbreviation ac s := (tables (fr_ac s)).

(** An administrator who can act. *)
Definition has_an_admin (a : Accounts) : Prop := 0 < affected (counted a) (ac_users a).

(** Changing one user's level leaves the others as they are. *)
Lemma upsert_counted id level by_ a x a' u : well_formed a -> upsert_permission id level by_ a = Ok (x, a') -> us_ID u <> id ->
  counted a' u = counted a u.
Proof.
  intros Hwf H Hu. unfold counted. f_equal. pose proof (upsert_permission_wf _ _ _ _ _ _ Hwf H) as (_ & _ & _ & _ & Hp).
  unfold upsert_permission in H. apply constrained_ok in H as (E & _). injection E as _ <-.
  apply has_admin_same; [done|done|]. intros p Ep. apply Hp. by rewrite Ep.
Qed.

(** Raising one counts that user. *)
Lemma upsert_admin_counted id by_ a x a' u : well_formed a -> upsert_permission id "admin" by_ a = Ok (x, a') -> us_ID u = id ->
  counted a u = true -> counted a' u = true.
Proof.
  intros Hwf H Hu Hc. pose proof (upsert_permission_wf _ _ _ _ _ _ Hwf H) as (_ & _ & _ & Hrow & _).
  unfold counted in *. apply andb_prop in Hc as [-> _]. cbn. unfold has_admin. replace (perm_admin a' (us_ID u)) with true; [done|].
  symmetry. rewrite Hu. apply existsb_exists. exists (mkPerm id "admin" (Some by_)). split; [done|]. cbn. by rewrite Z.eqb_refl.
Qed.

(** A change of level that the check lets through keeps an administrator. *)
Lemma upsert_keeps_admin id level by_ a x a' : well_formed a -> upsert_permission id level by_ a = Ok (x, a') -> has_an_admin a ->
  level = "admin" \/ has_admin a id = false \/ 1 < affected (counted a) (ac_users a) -> has_an_admin a'.
Proof.
  intros Hwf H Hsome Hcase. pose proof (upsert_permission_wf _ _ _ _ _ _ Hwf H) as (_ & Hus & _).
  assert (exists u, In u (ac_users a) /\ counted a u = true /\ (us_ID u <> id \/ level = "admin")) as (u & Hin & Hc & Hu).
  { destruct Hcase as [-> | [Hno|Hmany]].
    - assert (affected (counted a) (ac_users a) <> 0) as (u & ? & ?)%affected_pos by (unfold has_an_admin in Hsome; lia). exists u. eauto.
    - assert (affected (counted a) (ac_users a) <> 0) as (u & Hu & Hc)%affected_pos by (unfold has_an_admin in Hsome; lia).
      exists u. split_and!; [done..|]. left. intros E. unfold counted in Hc. rewrite E, Hno, andb_false_r in Hc. done.
    - destruct (another_counts _ _ id (wf_ids _ Hwf) Hmany) as (u & ? & ? & ?). exists u. eauto. }
  unfold has_an_admin. rewrite Hus. apply affected_some with u; [done|].
  destruct (Z.eq_dec (us_ID u) id) as [E|E].
  - destruct Hu as [Hu| ->]; [done|]. by apply (upsert_admin_counted id by_ a x a' u).
  - by rewrite (upsert_counted id level by_ a x a' u).
Qed.

Lemma or_zero_acc {A} zero (m : AcM A) s a : m (fr_ac s) = (Ok a, fr_ac s) -> or_zero zero (acc m) s = (Ok a, s).
Proof. intros H. unfold or_zero. erewrite bind_run; [|by apply attempt_look]. done. Qed.

Lemma IsAdmin_level id w : sched w = [] -> accounts_ok (tables w) -> exists level, GetEffective id w = (Ok level, w) /\ String.eqb level "admin" = has_admin (tables w) id.
Proof.
  intros Hw [_ Hp]. pose proof (IsAdmin_healthy w Hw id Hp) as Hi. unfold IsAdmin in Hi. rewrite (bind_run _ _ _ _ _ (GetEffective_healthy w Hw id)) in Hi.
  injection Hi as Hi. eexists. split; [by apply GetEffective_healthy|exact Hi].
Qed.

(** C29. Setting permissions never takes the last administrator's away: while the
    tables answer and someone administers, someone still does afterwards,
    whatever the request; a refused request changes no table; an accepted one
    gives the user the level asked for and changes no one else's. *)
Theorem AdminSetPermissions_keeps_admin (callerID : Z) (id : string) (body : option string) (s s' : Front) r
    (Hs : sched (fr_ac s) = []) (Hwf : well_formed (ac s)) (Hsome : has_an_admin (ac s))
    (H : AdminSetPermissions callerID id body s = (r, s')) :
  has_an_admin (ac s') /\
  match r with
  | Err _ => ac s' = ac s
  | Ok _ => exists n level, ParseInt id = Some n /\ body = Some level /\
      In (mkPerm n level (Some callerID)) (ac_permissions (ac s')) /\
      (forall u, us_ID u <> n -> counted (ac s') u = counted (ac s) u) /\
      ac_users (ac s') = ac_users (ac s) /\ forall i, direct (ac s') i = if i =? n then Some level else direct (ac s) i
  end.
Proof.
  revert H. unfold AdminSetPermissions, path_id, require. destruct (ParseInt id) as [n|]; [|by intros [= <- <-]].
  cbn [decoded]. erewrite bind_run; [|reflexivity]. destruct body as [level|]; [|by intros [= <- <-]]. cbn [decoded]. erewrite bind_run; [|reflexivity].
  destruct (valid_level level); [|by intros [= <- <-]]. erewrite bind_run; [|reflexivity].
  assert (accounts_ok (ac s)) as Hok by (split; apply Hwf).
  destruct (IsAdmin_level n (fr_ac s) Hs Hok) as (old & Hold & Hadm). erewrite bind_run; [|by apply or_zero_acc]. rewrite Hadm.
  set (guard := if _ && _ then _ else _). destruct (guard s) as [[[]|e] s1] eqn:Eg.
  - assert (s1 = s /\ (level = "admin" \/ has_admin (ac s) n = false \/ 1 < affected (counted (ac s)) (ac_users (ac s)))) as [-> Hcase].
    { subst guard. destruct (String.eqb_spec level "admin") as [->|_]; [injection Eg as <-; eauto|].
      destruct (has_admin (ac s) n); [|injection Eg as <-; eauto]. cbn [negb andb] in Eg.
      erewrite bind_run in Eg; [|apply or_zero_acc; unfold CountAdmins; rewrite (read_healthy _ _ Hs); reflexivity].
      change (Z.of_nat _) with (admin_count (ac s)) in Eg. rewrite admin_count_counted in Eg by apply Hwf.
      destruct (Z.ltb_spec 1 (affected (counted (ac s)) (ac_users (ac s)))); [injection Eg as <-; eauto|done]. }
    erewrite bind_run; [|exact Eg]. unfold mbind at 1, ST_bind at 1, or_refuse, acc, zoom, SetDirect. rewrite (write_if_healthy _ _ Hs).
    destruct (upsert_permission n level callerID (ac s)) as [[[] a']|e] eqn:Eu; cbn; [|by intros [= <- <-]].
    intros [= <- <-]. cbn. split; [by eapply upsert_keeps_admin|]. exists n, level.
    pose proof (upsert_permission_wf _ _ _ _ _ _ Hwf Eu) as (_ & _ & _ & Hrow & _). split_and!; try done.
    + intros u Hu. by eapply upsert_counted.
    + apply (direct_upsert _ _ _ _ _ _ Eu).
    + apply (direct_upsert _ _ _ _ _ _ Eu).
  - assert (ac s1 = ac s) as E.
    { subst guard. destruct (_ && _) in Eg; [|done]. erewrite bind_run in Eg; [|apply or_zero_acc; unfold CountAdmins; rewrite (read_healthy _ _ Hs); reflexivity].
      destruct (1 <? _) in Eg; by injection Eg as _ <-. }
    unfold mbind at 1, ST_bind at 1. rewrite Eg. intros [= <- <-]. by rewrite E.
Qed.
End last.

(** ** A deleted user *)

Section deleted.
Context {bc : Bcrypt} {jwt : Jwt} {net : NetAddr}.
Abbreviation people s := (tables (fr_ac s)).

(** Nothing of the user lets anyone in: no row, no login elsewhere, no token. *)
Record locked_out (n : Z) (a : Accounts) : Prop := {
  lo_row : forall u, In u (ac_users a) -> us_ID u = n -> live u = false;
  lo_identity : forall i, In i (ac_identities a) -> oi_UserID i <> n;
  lo_token : forall t, In t (ac_tokens a) -> tk_UserID t = n -> revoked t = true;
}.

Lemma RevokeAllByUser_all n by_ reason w x w' : RevokeAllByUser n by_ reason w = (Ok x, w') ->
  ac_users (tables w') = ac_users (tables w) /\ ac_identities (tables w') = ac_identities (tables w) /\
  forall t, In t (ac_tokens (tables w')) -> tk_UserID t = n -> revoked t = true.
Proof.
  intros H. apply write_if_run in H as [(y & _ & H)|(e & [=] & _)]. unfold revoke_tokens in H.
  apply constrained_ok in H as (E & _). unfold update_tokens in E. injection E as _ E. rewrite <- E. split; [done|]. split; [done|].
  cbn. intros t (t0 & Ht0 & [[Hq ->]|[Hq ->]])%in_update Hu; [done|].
  apply Z.eqb_eq in Hu. rewrite Hu in Hq. cbn in Hq. unfold revoked. by rewrite Hq.
Qed.

Lemma SoftDelete_takes n w w' : SoftDelete n w = (Ok tt, w') ->
  ac_tokens (tables w') = ac_tokens (tables w) /\
  (forall u, In u (ac_users (tables w')) -> us_ID u = n -> live u = false) /\ forall i, In i (ac_identities (tables w')) -> oi_UserID i <> n.
Proof.
  intros H. unfold SoftDelete in H. apply transact_ok in H as (l & w1 & H & ->).
  apply bind_ok in H as ([] & w2 & H1 & H). apply write_run in H1 as [[_ H1]|(e & [=] & _)].
  apply bind_ok in H as (now & w3 & H2 & H). injection H2 as <- <-. apply write_if_run in H as [(x & _ & H)|(e & [=] & _)].
  unfold update_users in H. apply constrained_ok in H as (E & _). injection E as _ <-. cbn. rewrite H1. cbn. split; [done|]. split.
  - intros u (u0 & _ & [[_ ->]|[Hq ->]])%in_update Hu; [done|]. change (us_ID u0 =? n = false) in Hq. by rewrite Hu, Z.eqb_refl in Hq.
  - intros i [_ Hi]%in_delete E. by rewrite E, Z.eqb_refl in Hi.
Qed.

Lemma locked_out_stays_out kr r r' (g g' : Guarded) n : locked_out n (tables (gs_ac g)) ->
  Authenticate kr r g = (Ok (Pass r'), g') -> GetUserID r' <> n.
Proof.
  intros [Hrow _ _] H E. destruct (admits kr r r' g g' H) as (tok & src & u & _ & _ & _ & _ & Hin & Hu & Hl & _).
  rewrite (Hrow u Hin) in Hl by congruence. done.
Qed.

(** C30. Whatever the tables answer: when the deletion of a user is answered with
    success, the user was not the caller, no row of it is live, none of its
    logins elsewhere and no unrevoked token of it are left, and on those tables
    no request authenticates as it; a deletion that fails keeps every user and
    login. *)
Theorem AdminDeleteUser_locks_out (callerID : Z) (id : string) (s s' : Front) r (H : AdminDeleteUser callerID id s = (r, s')) :
  match r with
  | Ok _ => exists n, ParseInt id = Some n /\ n <> callerID /\ locked_out n (people s') /\
      forall kr q q' g g', tables (gs_ac g) = people s' -> Authenticate kr q g = (Ok (Pass q'), g') -> GetUserID q' <> n
  | Err _ => ac_users (people s') = ac_users (people s) /\ ac_identities (people s') = ac_identities (people s)
  end.
Proof.
  revert H. unfold AdminDeleteUser, path_id, require. destruct (ParseInt id) as [n|]; [|by intros [= <- <-]].
  cbn [decoded]. erewrite bind_run; [|reflexivity]. destruct (Z.eqb_spec n callerID) as [|Hn]; [by intros [= <- <-]|]. erewrite bind_run; [|reflexivity].
  unfold mbind at 1, ST_bind at 1. destruct (RevokeAllByUser n callerID "user deleted" (fr_ac s)) as [x w1] eqn:E1.
  rewrite (refuse_acc _ _ _ _ _ E1). destruct x as [x|e]; cycle 1.
  { apply write_if_run in E1 as [(a & [=] & _)|(e' & _ & Ht)]. intros [= <- <-]. cbn. by rewrite Ht. }
  apply RevokeAllByUser_all in E1 as (U1 & I1 & T1). cbn iota beta.
  unfold mbind at 1, ST_bind at 1. destruct (SoftDelete n (fr_ac (put_fr_ac w1 s))) as [y w2] eqn:E2. rewrite (refuse_acc _ _ _ _ _ E2).
  destruct y as [[]|e]; cycle 1.
  { apply transact_err in E2. intros [= <- <-]. cbn in *. by rewrite E2, U1, I1. }
  apply SoftDelete_takes in E2 as (T2 & U2 & I2). cbn in T2. intros [= <- <-]. cbn in *. exists n.
  assert (locked_out n (tables w2)) as Hout. { split; try done. rewrite T2. done. }
  split_and!; try done. intros kr q q' g g' Hg. apply locked_out_stays_out. by rewrite Hg.
Qed.
End deleted.

(** ** Concrete tables *)

#[local] Instance text_secrets : Bcrypt := {| bc_generate := fun pw salt => Ok pw; bc_compare := String.eqb |}.
#[local] Instance number_jwt : Jwt := {|
  jwt_sign := fun secret c => Ok (secret +:+ ":" +:+ pretty (jc_UserID c));
  jwt_parse := fun secret _ token => if String.eqb token (secret +:+ ":1") then Ok (mkClaims 1 "ann@example.com" (Some 100) (Some 200) "indelible") else Err (ENew "signature");
|}.
#[local] Instance no_strings : JsonStrings := {| Unmarshal_strings := fun _ => Ok [] |}.
#[local] Instance no_network : NetAddr := {|
  ParseIP := fun _ => None; SplitHostPort := fun _ => Err (ENew "no port"); ParseCIDR := fun _ => None
|}.

Definition bob : User := mkUser 2 "bob@example.com" None "Bob" "C" true false true None None None None None 0 0 None.
Definition ann_admin : Accounts :=
  mkAccounts [ann; bob] 2 [mkPerm 1 "admin" None; mkPerm 2 "read" (Some 1)] [] 0 []
    [mkApiToken 1 "uuid-1" "ci" "" "ind_01ab" 2 "[]" None None None None None None None 0 None 1700000000] 1 [] [] 0 [] [] [] [] 0
    [mkIdentity 1 2 1 "sub-2"] 1 (1700000000 * ac_second).

Lemma ann_admin_wf : well_formed ann_admin.
Proof.
  split; cbn.
  - repeat constructor; cbn; naive_solver lia.
  - intros u [<-|[<-|[]]]; cbn; lia.
  - intros u v [<-|[<-|[]]] [<-|[<-|[]]]; done.
  - intros u v e [<-|[<-|[]]] [<-|[<-|[]]]; done.
  - repeat constructor; cbn; naive_solver lia.
  - intros p [<-|[<-|[]]]; done.
Qed.

Example AdminSetPermissions_keeps_admin_witness :
  let s' := snd (AdminSetPermissions 1 "1" (Some "read") (front_of ann_admin)) in
  fst (AdminSetPermissions 1 "1" (Some "read") (front_of ann_admin)) = Err (jsonError "cannot remove the last admin" 409) /\
  has_an_admin (tables (fr_ac s')) /\ tables (fr_ac s') = ann_admin.
Proof.
  split; [vm_compute; reflexivity|].
  destruct (AdminSetPermissions 1 "1" (Some "read") (front_of ann_admin)) as [r s'] eqn:E.
  destruct (AdminSetPermissions_keeps_admin 1 "1" (Some "read") (front_of ann_admin) s' r eq_refl ann_admin_wf ltac:(vm_compute; reflexivity) E) as [Ha Hr].
  split; [exact Ha|]. destruct r as [a|e]; [vm_compute in E; discriminate|exact Hr].
Defined.

(** The check asks only whom the first read calls an administrator: when that
    read fails, its error is dropped and the last administrator is demoted. *)
Example failed_read_demotes_last_admin :
  let s := mkFront (mkWorld ann_admin [Some "disk I/O error"]) open_db [] in
  let (r, s') := AdminSetPermissions 1 "1" (Some "read") s in
  r = Ok (200, "read") /\ affected (counted (tables (fr_ac s'))) (ac_users (tables (fr_ac s'))) = 0.
Proof. vm_compute. done. Qed.

(** Nothing keeps the last administrator from being deactivated. *)
Example last_admin_deactivated :
  let (r, s') := AdminUpdateUser 1 "1" (Some (mkUserChange None None (Some false) None None)) (front_of ann_admin) in
  is_ok r = true /\ affected (counted (tables (fr_ac s'))) (ac_users (tables (fr_ac s'))) = 0.
Proof. vm_compute. done. Qed.

Example AdminDeleteUser_locks_out_witness :
  match AdminDeleteUser 1 "2" (front_of ann_admin) with
  | (Ok _, s') => locked_out 2 (tables (fr_ac s'))
  | (Err _, _) => False
  end.
Proof.
  destruct (AdminDeleteUser 1 "2" (front_of ann_admin)) as [r s'] eqn:E.
  pose proof (AdminDeleteUser_locks_out 1 "2" (front_of ann_admin) s' r E) as H.
  destruct r as [a|e]; [|vm_compute in E; discriminate].
  destruct H as (n & Hn & _ & Hl & _). injection Hn as <-. exact Hl.
Defined.
