(* ===== verification/Float.v ===== *)
(** * Floating point

    Go's float64 is binary64, rounding to nearest even: the Standard Library's
    SpecFloat at 53 bits. Here are the operations the monitors compute with, and
    the verbs [%.1f] and [%.0f], which round the exact binary value to the digits
    asked for, a tie to the even one. *)

From stdpp Require Import strings pretty.
From Stdlib Require Import SpecFloat.
From S2P Require Import Prelude GoLib.

Open Scope Z_scope.

Abbreviation float64 := spec_float.

(** [float64(z)]. *)
Definition float_of (z : Z) : float64 := binary_normalize 53 1024 z 0 false.

Definition f_div : float64 -> float64 -> float64 := SFdiv 53 1024.
Definition f_mul : float64 -> float64 -> float64 := SFmul 53 1024.
Definition f_add : float64 -> float64 -> float64 := SFadd 53 1024.

(** [float64(a) / float64(b) * 100]. *)
Definition percent (a b : Z) : float64 := f_mul (f_div (float_of a) (float_of b)) (float_of 100).

(** ** Text *)

(** [n / d] to the nearest integer, a tie to the even one. *)
Definition round_even (n d : Z) : Z :=
  let q := n / d in
  match Z.compare (2 * (n mod d)) d with
  | Lt => q
  | Gt => q + 1
  | Eq => if Z.even q then q else q + 1
  end.

(** The last [k] decimal digits of [n]. *)
Fixpoint low_digits (k : nat) (n : Z) : string :=
  match k with O => "" | S k => low_digits k (n / 10) +:+ String (digit_char (n mod 10)) "" end.

Definition decimal (k : nat) (n : Z) : string :=
  pretty (n / 10 ^ Z.of_nat k) +:+ (if (k =? 0)%nat then "" else "." +:+ low_digits k n).

(** [%.<k>f]. *)
Definition fixed (k : nat) (f : float64) : string :=
  match f with
  | S754_nan => "NaN"
  | S754_infinity s => if s then "-Inf" else "+Inf"
  | S754_zero s => (if s then "-" else "") +:+ decimal k 0
  | S754_finite s m e =>
      let n := Zpos m * 10 ^ Z.of_nat k in
      (if s then "-" else "") +:+ decimal k (if 0 <=? e then n * 2 ^ e else round_even n (2 ^ (- e)))
  end.

Example fixed_values :
  fixed 1 (percent 1 3) = "33.3" /\ fixed 0 (percent 1 8) = "12" /\ fixed 0 (percent 3 8) = "38" /\
  fixed 1 (float_of (-7)) = "-7.0" /\ fixed 1 (f_div (float_of 1) (float_of 20)) = "0.1".
Proof. vm_compute. done. Qed.

(** Rounding to the nearest integer is off by at most half. *)
Lemma round_even_near n d : 0 < d -> Z.abs (2 * (d * round_even n d - n)) <= d.
Proof.
  intros Hd. unfold round_even. pose proof (Z.div_mod n d ltac:(lia)). pose proof (Z.mod_pos_bound n d Hd).
  destruct (Z.compare_spec (2 * (n mod d)) d), (Z.even (n / d)); nia.
Qed.

(** ** Percentages against a bound *)

(** [a] of [b] is above [p] percent as float64 computes it. *)
Definition above (p a b : Z) : bool := SFltb (float_of p) (percent a b).

Definition upto (n : Z) : list Z := map Z.of_nat (seq 0 (Z.to_nat n)).

(** The roundings do not move a ratio of small numbers over the bounds the
    monitors use. *)
Lemma small_ratios_exact :
  forallb (fun b => forallb (fun a => Bool.eqb (above 25 a (b + 1)) (b + 1 <? 4 * a) && Bool.eqb (above 50 a (b + 1)) (b + 1 <? 2 * a)) (upto 100)) (upto 100) = true.
Proof. vm_compute. done. Qed.

Lemma in_upto n x : In x (upto n) <-> 0 <= x < n.
Proof.
  unfold upto. rewrite in_map_iff. split.
  - intros (k & <- & Hk%in_seq). lia.
  - intros H. exists (Z.to_nat x). rewrite Z2Nat.id by lia. split; [done|]. apply in_seq. lia.
Qed.

Lemma above_exact a b : 0 <= a < 100 -> 1 <= b <= 100 -> above 25 a b = (b <? 4 * a) /\ above 50 a b = (b <? 2 * a).
Proof.
  intros Ha Hb. pose proof small_ratios_exact as H. rewrite forallb_forall in H.
  specialize (H (b - 1) ltac:(apply in_upto; lia)). rewrite forallb_forall in H. specialize (H a ltac:(apply in_upto; lia)).
  rewrite Z.sub_add in H. apply andb_prop in H as [H1 H2]. by apply eqb_prop in H1, H2.
Qed.
