(* ===== verification/Monitors.v ===== *)
(** * The monitors

    src/internal/worker/system_monitor.go and disk_alert.go: the checks that run
    every 30 seconds and every 5 minutes, the alerts they raise and clear, and
    the two settings by which they make the server shed uploads.

    Outside are antd and the RPC endpoint, whose answers to a probe are
    arguments; the file systems, whose figures are; and the deliveries of the
    webhooks, of which the events handed over are kept. *)

From stdpp Require Import gmap strings pretty.
From Stdlib Require Import SpecFloat.
From S2P Require Import Prelude GoLib Sql Schema Stmt UploadStore WorkerBase Settings Keyring AuditLog Webhooks Http Float UploadHandlers.

Open Scope Z_scope.

Definition minute : Z := 60 * second.

(** ** State *)

(** [mo_lastDequeue]: nanoseconds, [None] the zero time; [mo_fired]: the events
    handed over to the webhooks, oldest first. *)
Record Monitor := mkMonitor {
  mo_db : Db;
  mo_cache : gmap string (string * Z);
  mo_logs : World LogTables;
  mo_hooks : World HookTables;
  mo_fired : list (string * WebhookSystemData float64);
  mo_lastAlerts : gmap string string;
  mo_lastDequeue : option Z;
  mo_antdSoftFailures : Z;
  mo_antdUnavailable : bool;
}.

Abbreviation MonM := (ST error Monitor).

Definition put_mo_db v s := mkMonitor v (mo_cache s) (mo_logs s) (mo_hooks s) (mo_fired s) (mo_lastAlerts s) (mo_lastDequeue s) (mo_antdSoftFailures s) (mo_antdUnavailable s).
Definition put_mo_logs v s := mkMonitor (mo_db s) (mo_cache s) v (mo_hooks s) (mo_fired s) (mo_lastAlerts s) (mo_lastDequeue s) (mo_antdSoftFailures s) (mo_antdUnavailable s).
Definition put_mo_hooks v s := mkMonitor (mo_db s) (mo_cache s) (mo_logs s) v (mo_fired s) (mo_lastAlerts s) (mo_lastDequeue s) (mo_antdSoftFailures s) (mo_antdUnavailable s).
Definition put_mo_fired v s := mkMonitor (mo_db s) (mo_cache s) (mo_logs s) (mo_hooks s) v (mo_lastAlerts s) (mo_lastDequeue s) (mo_antdSoftFailures s) (mo_antdUnavailable s).
Definition put_mo_lastAlerts v s := mkMonitor (mo_db s) (mo_cache s) (mo_logs s) (mo_hooks s) (mo_fired s) v (mo_lastDequeue s) (mo_antdSoftFailures s) (mo_antdUnavailable s).
Definition put_mo_lastDequeue v s := mkMonitor (mo_db s) (mo_cache s) (mo_logs s) (mo_hooks s) (mo_fired s) (mo_lastAlerts s) v (mo_antdSoftFailures s) (mo_antdUnavailable s).
Definition put_mo_soft v s := mkMonitor (mo_db s) (mo_cache s) (mo_logs s) (mo_hooks s) (mo_fired s) (mo_lastAlerts s) (mo_lastDequeue s) v (mo_antdUnavailable s).
Definition put_mo_unavailable v s := mkMonitor (mo_db s) (mo_cache s) (mo_logs s) (mo_hooks s) (mo_fired s) (mo_lastAlerts s) (mo_lastDequeue s) (mo_antdSoftFailures s) v.

Definition mdb {A} (m : DbM A) : MonM A := zoom mo_db put_mo_db m.
Definition mlog {A} (m : LogM A) : MonM A := zoom mo_logs put_mo_logs m.
Definition mhook {A} (m : ST error (World HookTables) A) : MonM A := zoom mo_hooks put_mo_hooks m.
Definition mo_settings (s : Monitor) : CachedSettings := mkCached (mo_db s) (mo_cache s).
Definition put_mo_settings (c : CachedSettings) (s : Monitor) : Monitor :=
  mkMonitor (c_db c) (c_cache c) (mo_logs s) (mo_hooks s) (mo_fired s) (mo_lastAlerts s) (mo_lastDequeue s) (mo_antdSoftFailures s) (mo_antdUnavailable s).
Definition mcached {A} (m : SetM A) : MonM A := zoom mo_settings put_mo_settings m.

(** A result whose error is dropped: the zero value. *)
Definition or_default {A} (zero : A) (m : MonM A) : MonM A := r ← try m; mret (match r with Ok a => a | Err _ => zero end).

(** ** Alerts *)

Definition FireSystemEvent (eventType message : string) (value : float64) : MonM unit :=
  modify (fun s => put_mo_fired (mo_fired s ++ [(eventType, mkSystemData eventType message value)]) s).

Definition write_system (level message : string) : MonM unit := ignore (mlog (WriteSystem level "system_monitor" message "" "")).

Definition last_alert (checkName : string) : MonM string := gets (fun s => default "" (mo_lastAlerts s !! checkName)).

Definition fireAlert (checkName level eventType message : string) (value : float64) : MonM unit :=
  prev ← last_alert checkName;
  if String.eqb prev level then mret tt else
  modify (fun s => put_mo_lastAlerts (<[checkName := level]> (mo_lastAlerts s)) s) ;;
  write_system level message ;;
  FireSystemEvent eventType message value.

Definition clearAlert (checkName eventType message : string) (value : float64) : MonM unit :=
  prev ← last_alert checkName;
  if String.eqb prev "" then mret tt else
  modify (fun s => put_mo_lastAlerts (delete checkName (mo_lastAlerts s)) s) ;;
  write_system "info" message ;;
  FireSystemEvent eventType message value.

Definition f_zero : float64 := float_of 0.

(** ** antd *)

Definition antdHealthCriticalThreshold : Z := 3.
Definition AntdUnavailableSetting : string := "antd_unavailable".

Definition bool_text (b : bool) : string := if b then "true" else "false".

(** The flag in memory follows the wish even when the write fails. *)
Definition setAntdUnavailable (unavailable : bool) : MonM unit :=
  is_ ← gets mo_antdUnavailable;
  if Bool.eqb is_ unavailable then mret tt else
  modify (put_mo_unavailable unavailable) ;;
  ignore (mdb (SetInternal AntdUnavailableSetting (bool_text unavailable))).

Section antd.
(** [deadline]: whether an error is the deadline of the probe. *)
Context (AntdURL : string) (deadline : error -> bool).

Definition isAntdHardDown (err : error) : bool :=
  if deadline err then false else
  if found (errors_as is_network err) || found (errors_as is_unavailable err) then false else true.

(** [probe]: what DataCost answers within the timeout. *)
Definition checkAntdHealth (probe : result error unit) : MonM unit :=
  if String.eqb AntdURL "" then mret tt else
  try (mcached (GetIntWithBounds "antd_health_probe_timeout_secs" 15 1 120)) ;;
  match probe with
  | Ok _ =>
      modify (put_mo_soft 0) ;;
      setAntdUnavailable false ;;
      clearAlert "antd_health" "antd_recovered" "antd is connected to the Autonomi network again" f_zero
  | Err err =>
      if isAntdHardDown err then
        setAntdUnavailable true ;;
        fireAlert "antd_health" "critical" "antd_unreachable"
          ("antd is unreachable at " +:+ AntdURL +:+ " (connection failed): " +:+ Error_ err) f_zero
      else
        modify (fun s => put_mo_soft (add64 (mo_antdSoftFailures s) 1) s) ;;
        n ← gets mo_antdSoftFailures;
        if antdHealthCriticalThreshold <=? n then
          setAntdUnavailable true ;;
          fireAlert "antd_health" "critical" "antd_unreachable"
            ("antd cannot reach the Autonomi network at " +:+ AntdURL +:+ " — " +:+ pretty n +:+ " consecutive failed probes") (float_of n)
        else
          fireAlert "antd_health" "warning" "antd_unreachable"
            ("antd network probe slow/degraded at " +:+ AntdURL +:+ " (" +:+ pretty n +:+ "/" +:+ pretty antdHealthCriticalThreshold
              +:+ " before critical): " +:+ Error_ err) (float_of n)
  end.
End antd.

(** ** The RPC endpoint *)

(** [reached]: [None] when no request could be made. *)
Definition checkEvmRpcHealth (EvmRPCURL : string) (reached : option bool) : MonM unit :=
  if String.eqb EvmRPCURL "" then mret tt else
  match reached with
  | None => mret tt
  | Some false => fireAlert "evm_rpc" "critical" "evm_rpc_unreachable" ("EVM RPC endpoint is unreachable at " +:+ EvmRPCURL) f_zero
  | Some true => clearAlert "evm_rpc" "evm_rpc_recovered" "EVM RPC endpoint is reachable again" f_zero
  end.

(** ** Wallet, queue, failures *)

(** The balances are numbers of atto tokens; the value is cut to an int64. *)
Definition parseAtto : string -> Z := parse_int_value.

Definition checkWalletBalance : MonM unit :=
  wallet ← try (mdb GetDefault);
  match wallet with
  | Err _ => mret tt
  | Ok wallet =>
      thresholdStr ← or_default "" (mcached (CachedGet "wallet_balance_alert_threshold"));
      if String.eqb thresholdStr "" || String.eqb thresholdStr "0" then mret tt else
      let balance := parseAtto (w_payment_balance wallet) in
      let threshold := parseAtto thresholdStr in
      if (0 <? threshold) && (balance <? threshold) then
        fireAlert "wallet_balance" "warning" "wallet_balance_low"
          ("Wallet balance is low: " +:+ w_payment_balance wallet +:+ " (threshold: " +:+ thresholdStr +:+ ")") (float_of balance)
      else clearAlert "wallet_balance" "wallet_balance_ok" "Wallet balance is above threshold" (float_of balance)
  end.

(** [maxQueued * 80 / 100] in int64, whose division truncates. *)
Definition eighty_percent (maxQueued : Z) : Z := Z.quot (wrap64 (maxQueued * 80)) 100.

Definition checkQueueBacklog : MonM unit :=
  counts ← try (mdb CountByStatus);
  match counts with
  | Err _ => mret tt
  | Ok counts =>
      let backlog := count_of "queued" counts + count_of "processing" counts in
      maxQueuedStr ← or_default "" (mcached (CachedGet "max_queued_uploads"));
      let maxQueued := match ParseInt maxQueuedStr with Some n => if 0 <? n then n else 500 | None => 500 end in
      let threshold := eighty_percent maxQueued in
      if threshold <? backlog then
        fireAlert "queue_backlog" "warning" "queue_backlog_high"
          ("Upload queue backlog is high: " +:+ pretty backlog +:+ " items (threshold: " +:+ pretty threshold +:+ ")") (float_of backlog)
      else clearAlert "queue_backlog" "queue_backlog_normal" ("Queue backlog normal: " +:+ pretty backlog +:+ " items") (float_of backlog)
  end.

(** A column of seconds against a time, formatted to the second. *)
Definition after (cutoff : Z) (at_ : option Z) : bool := match at_ with Some t => cutoff <? t | None => false end.

Definition count_uploads (p : Z -> Upload -> bool) : DbM Z := query (fun d => affected (p (now d)) (uploads d)).

Definition failed_lately (t : Z) (u : Upload) : bool := after ((t - 15 * minute) / second) (u_failed_at u).
Definition created_lately (t : Z) (u : Upload) : bool := after ((t - 15 * minute) / second) (Some (u_created_at u)).

Definition checkFailureRate : MonM unit :=
  recentFail ← or_default 0 (mdb (count_uploads failed_lately));
  recentTotal ← or_default 0 (mdb (count_uploads created_lately));
  if recentTotal <? 5 then mret tt else
  let failRate := percent recentFail recentTotal in
  if SFltb (float_of 25) failRate then
    fireAlert "failure_rate" "warning" "failure_rate_high"
      ("Upload failure rate is high: " +:+ fixed 0 failRate +:+ "% (" +:+ pretty recentFail +:+ "/" +:+ pretty recentTotal +:+ " in last 15 min)") failRate
  else clearAlert "failure_rate" "failure_rate_normal" ("Upload failure rate normal: " +:+ fixed 0 failRate +:+ "%") failRate.

Definition delivered_lately (t : Z) (w : WebhookDelivery) : bool := after ((t - 60 * minute) / second) (Some (wd_CreatedAt w)).

Definition checkWebhookDeliveryFailures : MonM unit :=
  failed ← or_default 0 (mhook (read (fun t => affected (fun w => delivered_lately (ht_now t) w && negb (wd_Success w)) (ht_log t))));
  total ← or_default 0 (mhook (read (fun t => affected (delivered_lately (ht_now t)) (ht_log t))));
  if total <? 3 then mret tt else
  let failRate := percent failed total in
  if SFltb (float_of 50) failRate then
    fireAlert "webhook_delivery" "warning" "webhook_delivery_failing"
      ("Webhook delivery failure rate: " +:+ fixed 0 failRate +:+ "% (" +:+ pretty failed +:+ "/" +:+ pretty total +:+ " in last hour)") failRate
  else clearAlert "webhook_delivery" "webhook_delivery_ok" "Webhook delivery rate normal" failRate.

Definition checkGasBackoffCount : MonM unit :=
  count ← or_default 0 (mdb (count_uploads (fun _ u => bool_decide (u_status_detail u = Some "gas_backoff"))));
  if 10 <=? count then
    fireAlert "gas_backoff" "warning" "gas_backoff_high"
      (pretty count +:+ " uploads waiting in gas backoff — network costs may be elevated") (float_of count)
  else clearAlert "gas_backoff" "gas_backoff_normal" ("Gas backoff count normal: " +:+ pretty count) (float_of count).

Definition stale (t : Z) (u : Upload) : bool :=
  bool_decide (u_status u = Processing) && match u_processing_at u with Some p => p <? (t - 10 * minute) / second | None => false end.

Definition checkStaleUploads : MonM unit :=
  count ← or_default 0 (mdb (count_uploads stale));
  if 0 <? count then
    fireAlert "stale_uploads" "warning" "stale_uploads_detected" (pretty count +:+ " uploads stuck in processing for >10 minutes") (float_of count)
  else clearAlert "stale_uploads" "stale_uploads_clear" "No stale uploads" f_zero.

(** [files]: the sizes of the files the walk of the directory comes to. *)
Definition temp_threshold : Z := 10 * 1024 * 1024 * 1024.

Definition checkTempDirSize (files : list Z) : MonM unit :=
  let totalSize := fold_left add64 files 0 in
  if temp_threshold <? totalSize then
    let sizeGB := f_div (float_of totalSize) (float_of (1024 * 1024 * 1024)) in
    fireAlert "temp_dir_size" "warning" "temp_dir_large"
      ("Temp upload directory is " +:+ fixed 1 sizeGB +:+ " GB — files may not be cleaning up") sizeGB
  else clearAlert "temp_dir_size" "temp_dir_ok" "Temp directory size normal" (float_of totalSize).

(** ** The upload worker *)

(** [m.RecordDequeue()]; nothing in the repository calls it. *)
Definition RecordDequeue : MonM unit := modify (fun s => put_mo_lastDequeue (Some (now (mo_db s))) s).

(** [d.Minutes()]. *)
Definition Minutes (d : Z) : float64 :=
  f_add (float_of (Z.quot d minute)) (f_div (float_of (Z.rem d minute)) (float_of minute)).

Definition checkWorkerLiveness : MonM unit :=
  lastDequeue ← gets mo_lastDequeue;
  match lastDequeue with
  | None => mret tt
  | Some last =>
      counts ← try (mdb CountByStatus);
      match counts with
      | Err _ => mret tt
      | Ok counts =>
          let alive := clearAlert "worker_liveness" "worker_alive" "Upload worker is processing normally" f_zero in
          if count_of "queued" counts =? 0 then alive else
          since ← gets (fun s => now (mo_db s) - last);
          if 5 * minute <? since then
            fireAlert "worker_liveness" "critical" "worker_stuck"
              ("Upload worker appears stuck — " +:+ pretty (count_of "queued" counts) +:+ " queued items but no dequeue in " +:+ fixed 0 (Minutes since) +:+ " minutes") (Minutes since)
          else alive
      end
  end.

(** ** The loops *)

(** What the outside shows at a tick. *)
Record outside := mkOutside {
  os_probe : result error unit;  (* antd *)
  os_rpc : option bool;
  os_temp : list Z;
}.

Section loops.
Context (AntdURL EvmRPCURL : string) (deadline : error -> bool).

Definition fastChecks (o : outside) : MonM unit :=
  checkAntdHealth AntdURL deadline (os_probe o) ;; checkWorkerLiveness ;; checkStaleUploads.

Definition slowChecks (o : outside) : MonM unit :=
  checkWalletBalance ;; checkQueueBacklog ;; checkFailureRate ;; checkEvmRpcHealth EvmRPCURL (os_rpc o) ;;
  checkWebhookDeliveryFailures ;; checkGasBackoffCount ;; checkTempDirSize (os_temp o).

(** The flag in memory as the start reads it. *)
Definition Start_monitor : MonM unit :=
  v ← try (mdb (Settings.Get AntdUnavailableSetting));
  match v with Ok v => modify (put_mo_unavailable (String.eqb v "true")) | Err _ => mret tt end.

(** The two loops tick on their own; the rest of the server acts in between. *)
Inductive tick := Fast (o : outside) | Slow (o : outside) | Others (f : Monitor -> Monitor).

Definition run_tick (t : tick) (s : Monitor) : Monitor :=
  match t with
  | Fast o => snd (fastChecks o s)
  | Slow o => snd (slowChecks o s)
  | Others f => f s
  end.

Definition run_ticks (ts : list tick) (s : Monitor) : Monitor := fold_left (fun s t => run_tick t s) ts s.
End loops.

(** ** The disk *)

Record DiskAlert := mkDiskAlert {
  da_db : Db;
  da_logs : World LogTables;
  da_fired : list (string * WebhookSystemData float64);
  da_IsPaused : bool;
  da_lastAlertLevel : string;
}.

Abbreviation DiskM := (ST error DiskAlert).

Definition put_da_db v s := mkDiskAlert v (da_logs s) (da_fired s) (da_IsPaused s) (da_lastAlertLevel s).
Definition put_da_logs v s := mkDiskAlert (da_db s) v (da_fired s) (da_IsPaused s) (da_lastAlertLevel s).
Definition put_da_IsPaused v s := mkDiskAlert (da_db s) (da_logs s) (da_fired s) v (da_lastAlertLevel s).
Definition put_da_level v s := mkDiskAlert (da_db s) (da_logs s) (da_fired s) (da_IsPaused s) v.

Definition ddb_ {A} (m : DbM A) : DiskM A := zoom da_db put_da_db m.
Definition disk_log (level message : string) : DiskM unit := ignore (zoom da_logs put_da_logs (WriteSystem level "disk_alert" message "" "")).
Definition disk_event (eventType message : string) (value : float64) : DiskM unit :=
  modify (fun s => mkDiskAlert (da_db s) (da_logs s) (da_fired s ++ [(eventType, mkSystemData eventType message value)]) (da_IsPaused s) (da_lastAlertLevel s)).

Definition UploadsPausedSetting : string := "uploads_paused".

Definition setPaused (paused : bool) : DiskM unit :=
  is_ ← gets da_IsPaused;
  if Bool.eqb is_ paused then mret tt else
  modify (put_da_IsPaused paused) ;;
  ignore (ddb_ (SetInternal UploadsPausedSetting (bool_text paused))).

(** [usage]: total and used bytes, [None] when they cannot be read. *)
Definition check (usage : option (Z * Z)) : DiskM unit :=
  match usage with
  | None => mret tt
  | Some (total, used) =>
      if total =? 0 then mret tt else
      let usagePct := percent used total in
      let pctStr := fixed 1 usagePct in
      isPaused ← gets da_IsPaused;
      lastAlertLevel ← gets da_lastAlertLevel;
      if SFleb (float_of 95) usagePct then
        (if negb isPaused then
           setPaused true ;;
           disk_log "error" ("Critical: disk usage at " +:+ pctStr +:+ "%, uploads paused")
         else mret tt) ;;
        (if negb (String.eqb lastAlertLevel "critical") then
           modify (put_da_level "critical") ;;
           disk_event "disk_critical" ("Disk usage at " +:+ pctStr +:+ "%, uploads paused") usagePct
         else mret tt)
      else if SFleb (float_of 80) usagePct then
        setPaused false ;;
        disk_log "warn" ("Warning: disk usage at " +:+ pctStr +:+ "%") ;;
        (if negb (String.eqb lastAlertLevel "warning") then
           modify (put_da_level "warning") ;;
           disk_event "disk_warning" ("Disk usage at " +:+ pctStr +:+ "%") usagePct
         else mret tt)
      else
        (if isPaused then
           setPaused false ;;
           disk_log "info" ("Disk usage back to normal (" +:+ pctStr +:+ "%)")
         else mret tt) ;;
        (if negb (String.eqb lastAlertLevel "") then
           disk_event "disk_recovered" ("Disk usage back to normal (" +:+ pctStr +:+ "%)") usagePct ;;
           modify (put_da_level "")
         else mret tt)
  end.

(** The persisted flag is read, then the first check is made at once. *)
Definition Start_disk (usage : option (Z * Z)) : DiskM unit :=
  v ← try (ddb_ (Settings.Get UploadsPausedSetting));
  match v with Ok v => modify (put_da_IsPaused (String.eqb v "true")) | Err _ => mret tt end ;;
  check usage.
