(* ===== verification/MonitorSafety.v ===== *)
(** * What the monitors guarantee

    The settings by which the monitors shed uploads follow the probes and the
    disk, as long as nobody else writes their rows, and an event of a check never
    repeats the one before it. *)

From stdpp Require Import gmap strings pretty.
From Stdlib Require Import SpecFloat.
From S2P Require Import Prelude GoLib Sql Schema Stmt Clock UploadStore Settings Keyring WorkerBase AuditLog Webhooks Http Triple UploadHandlers UploadSafety Float Monitors.

Open Scope Z_scope.

(** ** Statements that leave a setting alone *)

Definition quiet (flag : string) (d d' : Db) : Prop := setting flag d' = setting flag d /\ (healthy d -> healthy d').

#[local] Instance quiet_preorder flag : PreOrder (quiet flag).
Proof. split; [by split|]. intros a b c [H1 G1] [H2 G2]. split; [congruence|auto]. Qed.

Section quiet.
Context (flag : string).

Lemma quiet_stmt : steps (quiet flag) stmt.
Proof.
  intros d. unfold stmt. destruct (faults d) as [|[e|] fs] eqn:E; cbn; [by split| |]; (split; [done|]); unfold healthy; by rewrite E.
Qed.

Lemma quiet_query {A} (f : Db -> A) : steps (quiet flag) (query f).
Proof. unfold query. apply steps_bind; [apply _|apply quiet_stmt|]. intros _. apply steps_gets, _. Qed.

Lemma quiet_query_row {A} (f : Db -> option A) : steps (quiet flag) (query_row f).
Proof. unfold query_row. apply steps_bind; [apply _|apply quiet_query|]. intros o. apply steps_of_result, _. Qed.

Lemma quiet_GetDefault : steps (quiet flag) GetDefault.
Proof. apply steps_map_err, quiet_query_row. Qed.

Definition quiet_cached (c c' : CachedSettings) : Prop := quiet flag (c_db c) (c_db c').

#[export] Instance quiet_cached_preorder : PreOrder quiet_cached.
Proof. split; unfold quiet_cached; [by intros c|]. intros a b c H1 H2. by etransitivity. Qed.

Lemma quiet_CachedGet key : steps quiet_cached (CachedGet key).
Proof.
  assert (steps quiet_cached (inner (Get key))) as Hg by (apply (steps_zoom _ (quiet flag)); [done|apply quiet_query_row]).
  unfold CachedGet. apply steps_get_bind. intros c.
  assert (steps quiet_cached (v ← inner (Get key); modify (fun c => mkCached (c_db c) (<[key := (v, now (c_db c) + ttl)]> (c_cache c))) ;; mret v)) as Hf.
  { apply steps_bind; [apply _|done|]. intros v. apply steps_bind; [apply _|by apply steps_modify|]. intros _. apply steps_ret, _. }
  destruct (c_cache c !! key) as [[v e]|]; [|apply Hf]. destruct (_ <? e); [done|apply Hf].
Qed.

Lemma quiet_GetIntWithBounds key fb lo hi : steps quiet_cached (GetIntWithBounds key fb lo hi).
Proof. unfold GetIntWithBounds. apply steps_bind; [apply _|apply steps_try, quiet_CachedGet|]. intros r. steps_go. Qed.
End quiet.

#[local] Hint Resolve quiet_stmt quiet_query quiet_query_row quiet_GetDefault : steps_db.

(** ** Checks that leave the gate alone *)

(** What the gate of the uploads rests on. *)
Definition same_gate (s s' : Monitor) : Prop :=
  quiet AntdUnavailableSetting (mo_db s) (mo_db s') /\ mo_antdSoftFailures s' = mo_antdSoftFailures s /\ mo_antdUnavailable s' = mo_antdUnavailable s.

#[local] Instance same_gate_preorder : PreOrder same_gate.
Proof. split; unfold same_gate; [by intros s|]. intros a b c (Q1 & E1 & F1) (Q2 & E2 & F2). split_and!; [by etransitivity|congruence..]. Qed.

Lemma gate_mdb {A} (m : DbM A) : steps (quiet AntdUnavailableSetting) m -> steps same_gate (mdb m).
Proof. intros H. by apply (steps_zoom _ (quiet AntdUnavailableSetting)). Qed.

Lemma gate_mcached {A} (m : SetM A) : steps (quiet_cached AntdUnavailableSetting) m -> steps same_gate (mcached m).
Proof. intros H. by apply (steps_zoom _ (quiet_cached AntdUnavailableSetting)). Qed.

Lemma gate_mlog {A} (m : LogM A) : steps same_gate (mlog m).
Proof. apply (steps_zoom _ (fun _ _ => True)); [done|]. intros w. by destruct (m w). Qed.

Lemma gate_mhook {A} (m : ST error (World HookTables) A) : steps same_gate (mhook m).
Proof. apply (steps_zoom _ (fun _ _ => True)); [done|]. intros w. by destruct (m w). Qed.

Lemma gate_or_default {A} z (m : MonM A) : steps same_gate m -> steps same_gate (or_default z m).
Proof. intros H. unfold or_default. apply steps_bind; [apply _|by apply steps_try|]. intros r. apply steps_ret, _. Qed.

Lemma gate_fired e m v : steps same_gate (FireSystemEvent e m v).
Proof. by apply steps_modify. Qed.

Lemma gate_fire c l e m v : steps same_gate (fireAlert c l e m v).
Proof.
  unfold fireAlert, last_alert, write_system. steps_go; eauto using gate_mlog, gate_fired. by apply steps_modify.
Qed.

Lemma gate_clear c e m v : steps same_gate (clearAlert c e m v).
Proof.
  unfold clearAlert, last_alert, write_system. steps_go; eauto using gate_mlog, gate_fired. by apply steps_modify.
Qed.

#[local] Hint Resolve gate_mdb gate_mcached gate_mlog gate_mhook gate_or_default gate_fired gate_fire gate_clear quiet_CachedGet quiet_GetIntWithBounds : steps_db.

Ltac gate_go := unfold count_uploads, CountByStatus; steps_go; eauto 8 with steps_db typeclass_instances.

Lemma gate_wallet : steps same_gate checkWalletBalance. Proof. unfold checkWalletBalance. gate_go. Qed.
Lemma gate_backlog : steps same_gate checkQueueBacklog. Proof. unfold checkQueueBacklog. gate_go. Qed.
Lemma gate_failures : steps same_gate checkFailureRate. Proof. unfold checkFailureRate. gate_go. Qed.
Lemma gate_rpc url r : steps same_gate (checkEvmRpcHealth url r). Proof. unfold checkEvmRpcHealth. gate_go. Qed.
Lemma gate_deliveries : steps same_gate checkWebhookDeliveryFailures. Proof. unfold checkWebhookDeliveryFailures. gate_go. Qed.
Lemma gate_backoff : steps same_gate checkGasBackoffCount. Proof. unfold checkGasBackoffCount. gate_go. Qed.
Lemma gate_temp fs : steps same_gate (checkTempDirSize fs). Proof. unfold checkTempDirSize. gate_go. Qed.
Lemma gate_stale : steps same_gate checkStaleUploads. Proof. unfold checkStaleUploads. gate_go. Qed.
Lemma gate_liveness : steps same_gate checkWorkerLiveness. Proof. unfold checkWorkerLiveness. gate_go. Qed.

#[local] Hint Resolve gate_wallet gate_backlog gate_failures gate_rpc gate_deliveries gate_backoff gate_temp gate_stale gate_liveness : steps_db.

Lemma gate_slow url o : steps same_gate (slowChecks url o).
Proof. unfold slowChecks. steps_go. Qed.

(** ** The gate of the network *)

Section antd.
Context (AntdURL EvmRPCURL : string) (deadline : error -> bool).
Context (Hurl : AntdURL <> "").

(** How a probe went. *)
Inductive seen := Good | Slowly | Down.

Definition seen_in (probe : result error unit) : seen :=
  match probe with Ok _ => Good | Err err => if isAntdHardDown deadline err then Down else Slowly end.

(** The table answers, and the flag in memory is the flag in the table. *)
Definition tuned (s : Monitor) : Prop :=
  healthy (mo_db s) /\ mo_antdUnavailable s = bool_decide (setting AntdUnavailableSetting (mo_db s) = Some "true").

Lemma tuned_same s s' : same_gate s s' -> tuned s -> tuned s'.
Proof.
  intros ((Hset & Hh) & _ & Hu) [H1 H2]. split; [auto|]. rewrite Hset, Hu. exact H2.
Qed.

Definition verdict_step (v : Z * bool) (x : seen) : Z * bool :=
  match x with
  | Good => (0, false)
  | Down => (v.1, true)
  | Slowly => (v.1 + 1, v.2 || (antdHealthCriticalThreshold <=? v.1 + 1))
  end.

Definition gate_of (s : Monitor) : Z * bool := (mo_antdSoftFailures s, mo_antdUnavailable s).

Lemma set_gate b s : tuned s -> exists s', setAntdUnavailable b s = (Ok tt, s') /\ tuned s' /\ gate_of s' = (mo_antdSoftFailures s, b).
Proof.
  intros [Hh Hm]. unfold setAntdUnavailable, mbind, ST_bind, gets. destruct (Bool.eqb_spec (mo_antdUnavailable s) b) as [E|E].
  - exists s. split; [done|]. split; [by split|]. unfold gate_of. by rewrite E.
  - unfold modify, ignore, mdb, zoom, SetInternal, exec, mbind, ST_bind, modify. cbn. rewrite (stmt_healthy _ Hh). cbn.
    eexists. split; [reflexivity|]. split; [|done]. split; [exact Hh|]. cbn [mo_db put_mo_db put_mo_unavailable mo_antdUnavailable].
    rewrite (setting_upsert AntdUnavailableSetting (bool_text b) (mo_db s)) by done. rewrite String.eqb_refl. by destruct b.
Qed.

Lemma fire_ok c l e m v s : exists s', fireAlert c l e m v s = (Ok tt, s').
Proof.
  unfold fireAlert, last_alert, write_system, FireSystemEvent, ignore. run_goal. destruct (String.eqb _ l); [by eexists|].
  destruct (mlog _ _). by eexists.
Qed.

Lemma clear_ok c e m v s : exists s', clearAlert c e m v s = (Ok tt, s').
Proof.
  unfold clearAlert, last_alert, write_system, FireSystemEvent, ignore. run_goal. destruct (String.eqb _ ""); [by eexists|].
  destruct (mlog _ _). by eexists.
Qed.

Lemma gate_last (m : MonM unit) s x : steps same_gate m -> (exists s', m s = (Ok tt, s')) -> tuned s -> gate_of s = x ->
  exists s', m s = (Ok tt, s') /\ tuned s' /\ gate_of s' = x.
Proof.
  intros Hm [s' E] Ht Hx. exists s'. split; [done|]. specialize (Hm s). rewrite E in Hm. cbn in Hm.
  split; [by eapply tuned_same|]. destruct Hm as (_ & H1 & H2). unfold gate_of in *. by rewrite H1, H2.
Qed.

Lemma antd_check probe s : tuned s -> 0 <= mo_antdSoftFailures s < int64_max ->
  exists s', checkAntdHealth AntdURL deadline probe s = (Ok tt, s') /\ tuned s' /\ gate_of s' = verdict_step (gate_of s) (seen_in probe).
Proof.
  intros Ht Hn. unfold checkAntdHealth. apply String.eqb_neq in Hurl. rewrite Hurl.
  assert (steps same_gate (mcached (GetIntWithBounds "antd_health_probe_timeout_secs" 15 1 120))) as Hq by auto with steps_db.
  specialize (Hq s). unfold mbind at 1, ST_bind at 1, try at 1. destruct (mcached _ s) as [r s1]. cbn in Hq.
  pose proof (tuned_same _ _ Hq Ht) as Ht1. destruct Hq as (_ & Hs1 & Hu1). cbn iota beta.
  unfold seen_in, gate_of. destruct probe as [[]|err]; [|destruct (isAntdHardDown deadline err)].
  - erewrite bind_run; [|reflexivity]. destruct (set_gate false (put_mo_soft 0 s1)) as (s2 & E & Ht2 & G2); [exact Ht1|].
    erewrite bind_run; [|exact E]. apply gate_last; [auto with steps_db|apply clear_ok|done|exact G2].
  - destruct (set_gate true s1 Ht1) as (s2 & E & Ht2 & G2). erewrite bind_run; [|exact E].
    apply gate_last; [auto with steps_db|apply fire_ok|done|rewrite G2; cbn; by rewrite Hs1].
  - erewrite bind_run; [|reflexivity]. erewrite bind_run; [|reflexivity]. cbn [mo_antdSoftFailures put_mo_soft verdict_step fst snd]. rewrite Hs1.
    assert (add64 (mo_antdSoftFailures s) 1 = mo_antdSoftFailures s + 1) as -> by (unfold add64; rewrite wrap64_id; unfold in_int64, int64_min; lia).
    destruct (antdHealthCriticalThreshold <=? mo_antdSoftFailures s + 1); [|rewrite orb_false_r].
    + destruct (set_gate true (put_mo_soft (mo_antdSoftFailures s + 1) s1)) as (s2 & E & Ht2 & G2); [exact Ht1|].
      erewrite bind_run; [|exact E]. apply gate_last; [auto with steps_db|apply fire_ok|done|rewrite G2, orb_true_r; done].
    + apply gate_last; [auto with steps_db|apply fire_ok|exact Ht1|unfold gate_of; cbn; by rewrite Hu1].
Qed.

Lemma fast_gate o s : tuned s -> 0 <= mo_antdSoftFailures s < int64_max ->
  let s' := snd (fastChecks AntdURL deadline o s) in tuned s' /\ gate_of s' = verdict_step (gate_of s) (seen_in (os_probe o)).
Proof.
  intros Ht Hn s'. subst s'. unfold fastChecks. destruct (antd_check (os_probe o) s Ht Hn) as (s1 & E & Ht1 & G1). erewrite bind_run; [|exact E].
  assert (steps same_gate (checkWorkerLiveness ;; checkStaleUploads)) as H by (steps_go).
  specialize (H s1). split; [by eapply tuned_same|]. rewrite <- G1. destruct H as (_ & H1 & H2). unfold gate_of. by rewrite H1, H2.
Qed.

(** What the others do: anything that leaves the row of the flag and the monitor's
    own memory of it alone, and the table answering. *)
Definition bystander (t : tick) : Prop := match t with Others f => forall s, same_gate s (f s) | _ => True end.

Definition probes (ts : list tick) : list seen :=
  flat_map (fun t => match t with Fast o => [seen_in (os_probe o)] | _ => [] end) ts.

Lemma verdict_count v x : 0 <= v.1 -> 0 <= (verdict_step v x).1 <= v.1 + 1.
Proof. destruct x; cbn; lia. Qed.

Lemma probes_cons t ts : probes (t :: ts) = probes [t] ++ probes ts.
Proof. unfold probes. cbn [flat_map]. by rewrite app_nil_r. Qed.

Lemma tick_gate t s : tuned s -> bystander t -> 0 <= mo_antdSoftFailures s -> mo_antdSoftFailures s + Z.of_nat (length (probes [t])) <= int64_max ->
  let s' := run_tick AntdURL EvmRPCURL deadline t s in
  tuned s' /\ gate_of s' = fold_left verdict_step (probes [t]) (gate_of s) /\
  0 <= mo_antdSoftFailures s' <= mo_antdSoftFailures s + Z.of_nat (length (probes [t])).
Proof.
  intros Ht Hb H0 Hn. assert (forall s', same_gate s s' -> tuned s' /\ gate_of s' = gate_of s /\ 0 <= mo_antdSoftFailures s' <= mo_antdSoftFailures s + 0) as Hsame.
  { intros s' Hs. split; [by eapply tuned_same|]. destruct Hs as (_ & H1 & H2). unfold gate_of. rewrite H1, H2. split; [done|lia]. }
  destruct t as [o|o|f].
  - destruct (fast_gate o s Ht) as [Ht1 G1]; [cbn in Hn; lia|]. split; [done|]. split; [done|]. cbn [run_tick].
    change (mo_antdSoftFailures (snd _)) with ((gate_of (snd (fastChecks AntdURL deadline o s))).1). rewrite G1. by apply verdict_count.
  - apply Hsame, gate_slow.
  - apply Hsame, Hb.
Qed.

Lemma ticks_gate ts : forall s, tuned s -> Forall bystander ts -> 0 <= mo_antdSoftFailures s -> mo_antdSoftFailures s + Z.of_nat (length (probes ts)) <= int64_max ->
  let s' := run_ticks AntdURL EvmRPCURL deadline ts s in tuned s' /\ gate_of s' = fold_left verdict_step (probes ts) (gate_of s).
Proof.
  unfold run_ticks. induction ts as [|t ts IH]; intros s Ht Hb H0 Hn; cbn [fold_left]; [by split|]. apply Forall_cons in Hb as [Hb Hbs].
  rewrite probes_cons in *. rewrite length_app in Hn. destruct (tick_gate t s Ht Hb H0) as (Ht1 & G1 & H1); [lia|].
  rewrite fold_left_app, <- G1. apply IH; [done..|lia|lia].
Qed.

(** *** The verdict, read off the probes *)

Definition is_good (x : seen) : bool := match x with Good => true | _ => false end.
Definition is_down (x : seen) : bool := match x with Down => true | _ => false end.
Definition is_slow (x : seen) : bool := match x with Slowly => true | _ => false end.

(** The probes since the last good one. *)
Fixpoint outage (h : list seen) : list seen :=
  match h with [] => [] | x :: h => if existsb is_good h then outage h else if is_good x then h else x :: h end.

(** A daemon that is gone, or three probes that went slowly. *)
Definition cut_off (h : list seen) : bool :=
  existsb is_down (outage h) || (antdHealthCriticalThreshold <=? Z.of_nat (length (List.filter is_slow (outage h)))).

Definition unreachable (before : bool) (h : list seen) : bool := cut_off h || negb (existsb is_good h) && before.

Lemma outage_snoc h x : outage (h ++ [x]) = if is_good x then [] else outage h ++ [x].
Proof.
  induction h as [|y h IH]; [by destruct x|]. cbn [app outage]. rewrite existsb_app, IH. cbn [existsb]. rewrite orb_false_r.
  destruct (is_good x) eqn:E; [by rewrite orb_true_r|]. rewrite orb_false_r. destruct (existsb is_good h); [done|]. by destruct (is_good y).
Qed.

Lemma verdict_read h b : fold_left verdict_step h (0, b) = (Z.of_nat (length (List.filter is_slow (outage h))), unreachable b h).
Proof.
  induction h as [|x h IH] using rev_ind; [by destruct b|]. rewrite fold_left_app, IH. cbn [fold_left]. unfold unreachable, cut_off.
  rewrite outage_snoc, existsb_app. destruct x; cbn [is_good verdict_step fst snd existsb]; [by rewrite orb_true_r| |].
  - rewrite List.filter_app, length_app, existsb_app. cbn [List.filter is_slow length existsb is_down]. rewrite !orb_false_r.
    replace (Z.of_nat (_ + 1)) with (Z.of_nat (length (List.filter is_slow (outage h))) + 1) by lia. f_equal.
    unfold antdHealthCriticalThreshold. destruct (existsb is_down (outage h)), (negb (existsb is_good h) && b);
      destruct (Z.leb_spec 3 (Z.of_nat (length (List.filter is_slow (outage h))))), (Z.leb_spec 3 (Z.of_nat (length (List.filter is_slow (outage h))) + 1)); cbn; lia || done.
  - rewrite List.filter_app, existsb_app. cbn [List.filter is_slow existsb is_down]. rewrite app_nil_r, orb_true_r, !orb_false_r. done.
Qed.

End antd.

(** A desk over the table that the monitors write. *)
Definition desk_over (d : Db) (k : Desk) : Prop := calm k /\ ddb k = d.

Lemma shut_by_network d k : desk_over d k -> setting AntdUnavailableSetting d = Some "true" -> exists r, admit_upload k = (Err r, k).
Proof.
  intros [Hc Hd] Hset. destruct (admit_calm k Hc) as [([] & _ & Ho)|(r & E & _)]; [|by exists r].
  exfalso. apply (op_network _ Ho). by rewrite Hd.
Qed.

Lemma shut_by_disk d k : desk_over d k -> setting UploadsPausedSetting d = Some "true" -> exists r, admit_upload k = (Err r, k).
Proof.
  intros [Hc Hd] Hset. destruct (admit_calm k Hc) as [([] & _ & Ho)|(r & E & _)]; [|by exists r].
  exfalso. apply (op_paused _ Ho). by rewrite Hd.
Qed.

Lemma open_by_both d k : desk_over d k -> (exists w, In w (wallets d) /\ w_is_default w = true) ->
  setting AntdUnavailableSetting d <> Some "true" -> setting UploadsPausedSetting d <> Some "true" -> admit_upload k = (Ok tt, k).
Proof.
  intros [Hc Hd] Hw Hn Hp. destruct (admit_calm k Hc) as [([] & E & _)|(r & _ & Hno)]; [done|]. exfalso. apply (Hno tt).
  split; by rewrite Hd.
Qed.

(** C35. Uploads are shed while the network is cut off. On a table that answers,
    over every interleaving of the ticks of the monitor with steps of the rest of
    the server that may change anything, the other settings included, but the row
    of the flag: the flag says that antd is unavailable exactly if since the last
    good probe one found the daemon gone or three went slowly (or there was no
    good one and the flag was set at the start), and as long as it says so no
    upload is admitted; otherwise the network is no reason to refuse. Both
    provisos are needed: see [failed_write_of_the_flag] and
    [imported_flag_sticks]. *)
Theorem outage_sheds_uploads (AntdURL EvmRPCURL : string) (deadline : error -> bool) (ts : list tick) (s : Monitor)
    (Hurl : AntdURL <> "") (Ht : tuned s) (H0 : mo_antdSoftFailures s = 0) (Hb : Forall bystander ts)
    (Hlen : Z.of_nat (length (probes deadline ts)) <= int64_max) :
  let s' := run_ticks AntdURL EvmRPCURL deadline ts s in
  let cut := unreachable (mo_antdUnavailable s) (probes deadline ts) in
  healthy (mo_db s') /\ mo_antdUnavailable s' = cut /\
  (setting AntdUnavailableSetting (mo_db s') = Some "true" <-> cut = true) /\
  forall k, desk_over (mo_db s') k ->
    (cut = true -> exists r, admit_upload k = (Err r, k)) /\
    (cut = false -> (exists w, In w (wallets (mo_db s')) /\ w_is_default w = true) -> setting UploadsPausedSetting (mo_db s') <> Some "true" ->
       admit_upload k = (Ok tt, k)).
Proof.
  intros s' cut. destruct (ticks_gate AntdURL EvmRPCURL deadline Hurl ts s Ht Hb) as [[Hh Hm] G]; [lia..|].
  fold s' in Hh, Hm, G. unfold gate_of in G. rewrite H0, verdict_read in G. fold cut in G. injection G as _ G.
  assert (setting AntdUnavailableSetting (mo_db s') = Some "true" <-> cut = true) as Hset by (by rewrite <- G, Hm, bool_decide_eq_true).
  split; [done|]. split; [done|]. split; [done|]. intros k Hk. split.
  - intros Hc. eapply shut_by_network; [done|]. by apply Hset.
  - intros Hc Hw Hp. eapply open_by_both; try done. intros E. apply Hset in E. congruence.
Qed.

(** ** The gate of the disk *)

Lemma bind_assoc_run {E S A B C} (m : ST E S A) (f : A -> ST E S B) (g : B -> ST E S C) s :
  ((m ≫= f) ≫= g) s = (m ≫= (fun a => f a ≫= g)) s.
Proof. unfold mbind, ST_bind. by destruct (m s) as [[a|e] s1]. Qed.

Section disk.
(** The flag in memory is the flag in the table, which answers. *)
Definition level (s : DiskAlert) : Prop :=
  healthy (da_db s) /\ da_IsPaused s = bool_decide (setting UploadsPausedSetting (da_db s) = Some "true").

(** A reading that says something, and whether it is critical. *)
Definition reading (usage : option (Z * Z)) : option bool :=
  match usage with Some (total, used) => if total =? 0 then None else Some (SFleb (float_of 95) (percent used total)) | None => None end.

Lemma set_paused b s : level s -> exists s', setPaused b s = (Ok tt, s') /\ level s' /\ da_IsPaused s' = b /\ da_lastAlertLevel s' = da_lastAlertLevel s.
Proof.
  intros [Hh Hm]. unfold setPaused, mbind, ST_bind, gets. destruct (Bool.eqb_spec (da_IsPaused s) b) as [E|E]; [by exists s|].
  unfold modify, ignore, ddb_, zoom, SetInternal, exec, mbind, ST_bind, modify. cbn. rewrite (stmt_healthy _ Hh). cbn.
  eexists. split; [reflexivity|]. split; [|done]. split; [exact Hh|]. cbn [da_db put_da_db put_da_IsPaused da_IsPaused].
  rewrite (setting_upsert UploadsPausedSetting (bool_text b) (da_db s)) by done. rewrite String.eqb_refl. by destruct b.
Qed.

(** What logs and events do not touch. *)
Definition same_level (s s' : DiskAlert) : Prop := da_db s' = da_db s /\ da_IsPaused s' = da_IsPaused s.

#[local] Instance same_level_preorder : PreOrder same_level.
Proof. split; unfold same_level; [by intros s|]. intros a b c [] []. split; congruence. Qed.

Lemma level_log l m : steps same_level (disk_log l m).
Proof. apply steps_ignore. apply (steps_zoom _ (fun _ _ => True)); [done|]. intros w. by destruct (WriteSystem l "disk_alert" m "" "" w). Qed.

Lemma level_event e m v : steps same_level (disk_event e m v).
Proof. by apply steps_modify. Qed.

Lemma level_alert c : steps same_level (modify (put_da_level c) : DiskM unit).
Proof. by apply steps_modify. Qed.

#[local] Hint Resolve level_log level_event level_alert : steps_db.

Lemma level_rest (m : DiskM unit) s : steps same_level m -> level s -> let s' := snd (m s) in level s' /\ da_IsPaused s' = da_IsPaused s.
Proof. intros Hm [H1 H2]. specialize (Hm s). destruct Hm as [E1 E2]. cbn. unfold level. rewrite E1, E2. done. Qed.

Lemma check_level usage s : level s -> let s' := snd (check usage s) in
  level s' /\ da_IsPaused s' = default (da_IsPaused s) (reading usage).
Proof.
  intros Hl. unfold check, reading. destruct usage as [[total used]|]; [|done]. destruct (total =? 0); [done|]. cbn zeta.
  erewrite bind_run; [|reflexivity]. erewrite bind_run; [|reflexivity]. destruct (SFleb (float_of 95) (percent used total)); cbn [default].
  - destruct (da_IsPaused s) eqn:Ep; cbn [negb].
    + rewrite <- Ep. apply level_rest; [steps_go|done].
    + destruct (set_paused true s Hl) as (s1 & E & Hl1 & P1 & _). rewrite bind_assoc_run. erewrite bind_run; [|exact E]. rewrite <- P1.
      apply (level_rest (disk_log _ _ ;; _) s1); [steps_go|done].
  - destruct (SFleb (float_of 80) (percent used total)).
    + destruct (set_paused false s Hl) as (s1 & E & Hl1 & P1 & _). erewrite bind_run; [|exact E]. rewrite <- P1. apply level_rest; [steps_go|done].
    + destruct (da_IsPaused s) eqn:Ep.
      * destruct (set_paused false s Hl) as (s1 & E & Hl1 & P1 & _). rewrite bind_assoc_run. erewrite bind_run; [|exact E]. rewrite <- P1.
        apply (level_rest (disk_log _ _ ;; _) s1); [steps_go|done].
      * rewrite <- Ep. apply level_rest; [steps_go|done].
Qed.

Inductive disk_tick := Checked (usage : option (Z * Z)) | Meanwhile (f : DiskAlert -> DiskAlert).

Definition disk_run (ts : list disk_tick) (s : DiskAlert) : DiskAlert :=
  fold_left (fun s t => match t with Checked u => snd (check u s) | Meanwhile f => f s end) ts s.

(** What the others do in between leaves the flag and the worker alone. *)
Definition level_bystander (t : disk_tick) : Prop :=
  match t with Checked _ => True | Meanwhile f => forall s, quiet UploadsPausedSetting (da_db s) (da_db (f s)) /\ da_IsPaused (f s) = da_IsPaused s end.

(** Whether the last reading that said something was critical. *)
Definition last_reading (before : bool) (ts : list disk_tick) : bool :=
  fold_left (fun b t => match t with Checked u => default b (reading u) | Meanwhile _ => b end) ts before.

Lemma disk_run_level ts : forall s, level s -> Forall level_bystander ts ->
  level (disk_run ts s) /\ da_IsPaused (disk_run ts s) = last_reading (da_IsPaused s) ts.
Proof.
  unfold disk_run, last_reading. induction ts as [|t ts IH]; intros s Hl Hb; cbn [fold_left]; [done|]. apply Forall_cons in Hb as [Hb Hbs].
  destruct t as [u|f].
  - destruct (check_level u s Hl) as [Hl1 P1]. rewrite <- P1. by apply IH.
  - destruct (Hb s) as [[Hset Hh] P1]. rewrite <- P1. apply IH; [|done]. destruct Hl as [H1 H2]. split; [auto|].
    by rewrite P1, Hset.
Qed.

Lemma start_level u s : healthy (da_db s) -> da_IsPaused s = false -> level (snd (Start_disk u s)) /\
  da_IsPaused (snd (Start_disk u s)) = default (bool_decide (setting UploadsPausedSetting (da_db s) = Some "true")) (reading u).
Proof.
  intros Hh Hp. unfold Start_disk, Settings.Get.
  erewrite bind_run; [|unfold try, ddb_, zoom; rewrite (query_row_calm _ _ Hh); reflexivity].
  replace (put_da_db (da_db s) s) with s by (by destruct s).
  set (m := match _ with Ok _ => _ | Err _ => _ end).
  assert (m s = (Ok tt, put_da_IsPaused (bool_decide (setting UploadsPausedSetting (da_db s) = Some "true")) s)) as E.
  { subst m. destruct (setting UploadsPausedSetting (da_db s)) as [v|]; cbn; [|change (bool_decide _) with false; rewrite <- Hp; by destruct s].
    unfold modify. do 2 f_equal. destruct (String.eqb_spec v "true") as [->|H]; [done|]. symmetry. apply bool_decide_eq_false. congruence. }
  erewrite bind_run; [|exact E]. apply check_level. split; [exact Hh|done].
Qed.
End disk.

(** Uploads are shed while the disk is full. From the start of the worker, on a
    table that answers, over every interleaving of its checks with the rest of
    the server, the flag in the table says that uploads are paused exactly if the
    last reading of the disk was at 95 percent or more (before the first reading,
    as the table said), and as long as it says so no upload is admitted. *)
Theorem full_disk_sheds_uploads (usage : option (Z * Z)) (ts : list disk_tick) (s : DiskAlert)
    (Hh : healthy (da_db s)) (Hp : da_IsPaused s = false) (Hb : Forall level_bystander ts) :
  let s' := disk_run ts (snd (Start_disk usage s)) in
  let full := last_reading (bool_decide (setting UploadsPausedSetting (da_db s) = Some "true")) (Checked usage :: ts) in
  healthy (da_db s') /\ da_IsPaused s' = full /\ (setting UploadsPausedSetting (da_db s') = Some "true" <-> full = true) /\
  forall k, desk_over (da_db s') k ->
    (full = true -> exists r, admit_upload k = (Err r, k)) /\
    (full = false -> (exists w, In w (wallets (da_db s')) /\ w_is_default w = true) -> setting AntdUnavailableSetting (da_db s') <> Some "true" ->
       admit_upload k = (Ok tt, k)).
Proof.
  intros s' full. destruct (start_level usage s Hh Hp) as [Hl P]. destruct (disk_run_level ts _ Hl Hb) as [[Hh' Hm] P'].
  fold s' in Hh', Hm, P'. rewrite P in P'. change (last_reading _ ts) with full in P'.
  assert (setting UploadsPausedSetting (da_db s') = Some "true" <-> full = true) as Hset by (by rewrite <- P', Hm, bool_decide_eq_true).
  split; [done|]. split; [done|]. split; [done|]. intros k Hk. split.
  - intros Hc. eapply shut_by_disk; [done|]. by apply Hset.
  - intros Hc Hw Hn. eapply open_by_both; try done. intros E. apply Hset in E. congruence.
Qed.

(** ** Concrete tables *)

Definition monitor_db (settings : list (string * string)) (ws : list Wallet) (fs : list (option string)) : Db :=
  mkDb [] 0 [] 0 [] 0 [] [] [] [] [] 0 [] [] settings [] ws 0 [] (1700000000 * second) fs.
Definition no_logs : World LogTables := mkWorld (mkLogs [] 0 [] 0 [] 0 [] 0 (mkCivil 2023 11 14 22 13 20)) [].
Definition no_hooks : World HookTables := mkWorld (mkHooks [] 0 [] 0 [] 0 (1700000000 * second)) [].
Definition monitor_on (d : Db) : Monitor := mkMonitor d ∅ no_logs no_hooks [] ∅ None 0 false.

Definition slow_probe : result error unit := Err (EAntd NetworkError).
Definition dead_probe : result error unit := Err (ENew "connection refused").
Definition fast (p : result error unit) : tick := Fast (mkOutside p None []).

(** The worker of the disk pauses uploads; an administrator changes settings. *)
Definition disk_pauses : tick := Others (fun s => put_mo_db (snd (SetInternal UploadsPausedSetting "true" (mo_db s))) s).
Definition admin_sets (changes : list (string * string)) : tick := Others (fun s => put_mo_db (snd (Update changes 1 "" "" (mo_db s))) s).

Lemma disk_pauses_bystander : bystander disk_pauses.
Proof.
  intros s. split; [|done]. split.
  - cbn [mo_db put_mo_db]. unfold SetInternal, exec, mbind, ST_bind, modify. destruct (stmt_cases (mo_db s)) as [[fs ->]|(e & fs & ->)]; cbn [snd]; [|done].
    by rewrite (setting_upsert UploadsPausedSetting "true" (mo_db s)).
  - intros Hh. cbn [mo_db put_mo_db]. unfold SetInternal, exec, mbind, ST_bind, modify. rewrite (stmt_healthy _ Hh). exact Hh.
Qed.

Lemma healthy_apply_changes u ip ua changes d : healthy d -> healthy (snd (apply_changes u ip ua changes d)).
Proof.
  assert (steps (fun d d' => healthy d -> healthy d') (apply_changes u ip ua changes)) as H; [|exact (H d)].
  assert (PreOrder (fun d d' => healthy d -> healthy d')) as Hp by (split; [by intros ?|intros ??? H1 H2 H3; by apply H2, H1]).
  assert (steps (fun d d' => healthy d -> healthy d') stmt) as Hs by (intros d0 Hd; by rewrite (stmt_healthy _ Hd)).
  induction changes as [|[key v] rest IH]; cbn; [by intros d0|].
  unfold apply_change, check_user, query_row, query, log_change. steps_go; try exact Hs; try exact IH; by apply steps_modify.
Qed.

Lemma admin_sets_bystander changes : ~ In AntdUnavailableSetting (map fst changes) -> bystander (admin_sets changes).
Proof.
  intros Hno s. split; [|done]. cbn [mo_db put_mo_db]. split.
  - pose proof (Update_ok changes 1 "" "" (mo_db s)) as Hok. destruct (Update changes 1 "" "" (mo_db s)) as [[x|e] d'] eqn:E; cbn [snd].
    + destruct (Hok x d' eq_refl) as (_ & Hk & _). rewrite Hk. clear -Hno. unfold after_changes. generalize (setting AntdUnavailableSetting (mo_db s)).
      induction changes as [|[k v] rest IH]; intros o; [done|]. cbn [map fst In] in Hno. cbn [fold_left fst snd].
      destruct (String.eqb_spec AntdUnavailableSetting k) as [<-|]; [tauto|]. apply IH. tauto.
    + unfold Update, mbind, ST_bind, of_result in E. destruct (validate_changes changes); [|by injection E as _ <-].
      apply in_tx_err in E. by rewrite E.
  - intros Hh. unfold Update, mbind, ST_bind, of_result. destruct (validate_changes changes); [|done]. unfold in_tx, mbind, ST_bind.
    rewrite (stmt_healthy _ Hh). unfold finish_tx, mbind, ST_bind, mret, ST_ret. pose proof (healthy_apply_changes 1 "" "" changes (mo_db s) Hh) as Ha.
    destruct (apply_changes _ _ _ _ _) as [[[]|e] d1]; cbn [snd] in Ha; [rewrite (stmt_healthy _ Ha)|]; exact Ha.
Qed.

Definition three_slow : list tick :=
  [fast slow_probe; disk_pauses; Slow (mkOutside slow_probe (Some true) []); fast slow_probe; admin_sets [("max_queued_uploads", "7")]; fast slow_probe].

Example outage_sheds_uploads_witness :
  let s := monitor_on (set_users [1] (monitor_db [] [] [])) in
  let s' := run_ticks "http://antd" "" (fun _ => false) three_slow s in
  setting "antd_unavailable" (mo_db s') = Some "true" /\
  setting "antd_unavailable" (mo_db (run_ticks "http://antd" "" (fun _ => false) (firstn 5 three_slow) s)) = None /\
  setting "uploads_paused" (mo_db s') = Some "true" /\ setting "max_queued_uploads" (mo_db s') = Some "7" /\ unreachable false [Slowly; Slowly; Slowly] = true.
Proof.
  cbn zeta. destruct (outage_sheds_uploads "http://antd" "" (fun _ => false) three_slow (monitor_on (set_users [1] (monitor_db [] [] [])))) as (_ & _ & H & _).
  - done.
  - by split.
  - done.
  - apply Forall_cons_2; [done|]. apply Forall_cons_2; [exact disk_pauses_bystander|]. do 2 (apply Forall_cons_2; [done|]).
    apply Forall_cons_2; [apply admin_sets_bystander; by intros [|[]]|]. by repeat constructor.
  - done.
  - split; [apply H; reflexivity|]. split_and!; vm_compute; reflexivity.
Defined.

(** A write of the flag that fails is not tried again while the flag in memory
    says that it was made: uploads are accepted throughout the outage. *)
Example failed_write_of_the_flag :
  let s := run_ticks "http://antd" "" (fun _ => false) [fast dead_probe; fast dead_probe; fast dead_probe]
    (monitor_on (monitor_db [] [] [None; Some "database is locked"])) in
  mo_antdUnavailable s = true /\ setting "antd_unavailable" (mo_db s) = None.
Proof. vm_compute. done. Qed.

(** The flag is a setting like any other: an import of settings exported during an
    outage sets it, and good probes never clear it, since the monitor remembers
    that it is not set. *)
Example imported_flag_sticks :
  let flagged := Others (fun s => put_mo_db (snd (Import [("antd_unavailable", "true")] 1 "" "" (mo_db s))) s) in
  let s := run_ticks "http://antd" "" (fun _ => false) [fast (Ok tt); flagged; fast (Ok tt); fast (Ok tt)]
    (monitor_on (set_users [1] (monitor_db [] [] []))) in
  mo_antdUnavailable s = false /\ setting "antd_unavailable" (mo_db s) = Some "true".
Proof. vm_compute. done. Qed.

(** A dead daemon that comes back slowly: the alert goes down to a warning, within
    the debounce window, while uploads are still shed. *)
Example warning_while_cut_off :
  let s := run_ticks "http://antd" "" (fun _ => false) [fast dead_probe; fast slow_probe] (monitor_on (monitor_db [] [] [])) in
  mo_lastAlerts s !! "antd_health" = Some "warning" /\ setting "antd_unavailable" (mo_db s) = Some "true".
Proof. vm_compute. done. Qed.

Definition disk_on (d : Db) : DiskAlert := mkDiskAlert d no_logs [] false "".
Definition usage_of (used : Z) : option (Z * Z) := Some (1000, used).

Example full_disk_sheds_uploads_witness :
  let s := disk_on (monitor_db [] [] []) in
  let s' := disk_run [Checked (usage_of 949); Checked (usage_of 950); Checked None] (snd (Start_disk (usage_of 100) s)) in
  setting "uploads_paused" (da_db s') = Some "true" /\ da_IsPaused s' = true.
Proof.
  cbn zeta. destruct (full_disk_sheds_uploads (usage_of 100) [Checked (usage_of 949); Checked (usage_of 950); Checked None] (disk_on (monitor_db [] [] []))) as (_ & P & H & _).
  - done.
  - done.
  - repeat constructor.
  - split; [apply H; vm_compute; reflexivity|]. rewrite P. vm_compute. reflexivity.
Defined.

(** The flag in memory is set before the write: a write that fails is not tried
    again, and uploads are accepted on the full disk. *)
Example failed_write_keeps_open :
  let s := disk_run [Checked (usage_of 990); Checked (usage_of 990); Checked (usage_of 990)] (disk_on (monitor_db [] [] [Some "database is locked"])) in
  da_IsPaused s = true /\ setting "uploads_paused" (da_db s) = None.
Proof. vm_compute. done. Qed.

(** A start that cannot read the flag takes it for unset: uploads stay paused on a
    disk with room. *)
Example failed_read_keeps_paused :
  let s := disk_run [Checked (usage_of 10); Checked (usage_of 10)] (snd (Start_disk (usage_of 10) (disk_on (monitor_db [("uploads_paused", "true")] [] [Some "database is locked"])))) in
  da_IsPaused s = false /\ setting "uploads_paused" (da_db s) = Some "true".
Proof. vm_compute. done. Qed.

(** Ten tokens against a threshold of a hundred: both numbers of atto tokens are cut
    to the largest int64, and no alarm is raised. *)
Example ten_tokens_are_no_alarm :
  let d := monitor_db [("wallet_balance_alert_threshold", "100000000000000000000")] [mkWallet 1 "w" "0x1" "k" true "10000000000000000000" "0" 0 0] [] in
  mo_fired (snd (checkWalletBalance (monitor_on d))) = [] /\
  parseAtto "10000000000000000000" = parseAtto "100000000000000000000".
Proof. vm_compute. done. Qed.

(** An alarm about failures outlives them when nothing is uploaded any more. *)
Example alarm_outlives_failures :
  let u k := mkUpload k (pretty k) 7 None "f" "f" 10 "text/plain" Private Failed None None None None None None None None 0 None 0 None None (Some 1700000000) 1700000000 None 0 in
  let d := set_uploads [u 1; u 2; u 3; u 4; u 5] (monitor_db [] [] []) in
  let s := snd (checkFailureRate (monitor_on d)) in
  let later := snd (checkFailureRate (put_mo_db (set_now (1700086400 * second) (mo_db s)) s)) in
  map fst (mo_fired later) = ["failure_rate_high"] /\ mo_lastAlerts later !! "failure_rate" = Some "warning".
Proof. vm_compute. done. Qed.

(** * What the alerts tell

    An alarm is told when it starts and when its level changes, a recovery when
    it is over: no event of a check repeats the one before it. *)

Open Scope Z_scope.

(** ** Alarms *)

(** The checks: their name, the level of an alarm as its message tells it, and
    their two events. *)
Record alarm := mkAlarm { al_check : string; al_level : string -> string; al_raised : string; al_cleared : string }.

(** antd's alarm has two levels: only the message of the lesser begins so. *)
Definition antd_level (message : string) : string :=
  if HasPrefix message "antd network probe slow/degraded at " then "warning" else "critical".

Definition alarms : list alarm := [
  mkAlarm "antd_health" antd_level "antd_unreachable" "antd_recovered";
  mkAlarm "evm_rpc" (fun _ => "critical") "evm_rpc_unreachable" "evm_rpc_recovered";
  mkAlarm "wallet_balance" (fun _ => "warning") "wallet_balance_low" "wallet_balance_ok";
  mkAlarm "queue_backlog" (fun _ => "warning") "queue_backlog_high" "queue_backlog_normal";
  mkAlarm "failure_rate" (fun _ => "warning") "failure_rate_high" "failure_rate_normal";
  mkAlarm "webhook_delivery" (fun _ => "warning") "webhook_delivery_failing" "webhook_delivery_ok";
  mkAlarm "gas_backoff" (fun _ => "warning") "gas_backoff_high" "gas_backoff_normal";
  mkAlarm "stale_uploads" (fun _ => "warning") "stale_uploads_detected" "stale_uploads_clear";
  mkAlarm "temp_dir_size" (fun _ => "warning") "temp_dir_large" "temp_dir_ok";
  mkAlarm "worker_liveness" (fun _ => "critical") "worker_stuck" "worker_alive"].

(** What an event says of the alarm: on at a level, off, or nothing. *)
Definition event_kind (a : alarm) (e message : string) : option (option string) :=
  if String.eqb e (al_raised a) then Some (Some (al_level a message)) else if String.eqb e (al_cleared a) then Some None else None.

Definition heard (a : alarm) (s : Monitor) : list (option string) := omap (fun ev => event_kind a ev.1 (ws_Message ev.2)) (mo_fired s).

(** Where the events lead from [cur], if every one of them is news. *)
Fixpoint listen (cur : option string) (l : list (option string)) : option (option string) :=
  match l with
  | [] => Some cur
  | x :: l => if bool_decide (cur = x) then None else listen x l
  end.

Definition tells (a : alarm) (s : Monitor) : Prop :=
  listen None (heard a s) = Some (mo_lastAlerts s !! al_check a) /\ mo_lastAlerts s !! al_check a <> Some "".

Definition telling (s : Monitor) : Prop := forall a, In a alarms -> tells a s.

Lemma listen_snoc l : forall cur x, listen cur (l ++ [x]) =
  match listen cur l with Some now => if bool_decide (now = x) then None else Some x | None => None end.
Proof. induction l as [|y l IH]; intros cur x; [done|]. cbn [app listen]. destruct (bool_decide (cur = y)); [done|]. apply IH. Qed.

(** A monitor that keeps telling. *)
Definition keeps_telling (s s' : Monitor) : Prop := telling s -> telling s'.

#[local] Instance keeps_telling_preorder : PreOrder keeps_telling.
Proof. split; unfold keeps_telling; [by intros s|]. intros a b c H1 H2 H. auto. Qed.

(** What touches neither the last alerts nor the events. *)
Definition mute (s s' : Monitor) : Prop := mo_lastAlerts s' = mo_lastAlerts s /\ mo_fired s' = mo_fired s.

#[local] Instance mute_preorder : PreOrder mute.
Proof. split; unfold mute; [by intros s|]. intros a b c [] []. split; congruence. Qed.

Lemma mute_keeps s s' : mute s s' -> keeps_telling s s'.
Proof. intros [H1 H2] Ht a Ha. unfold tells, heard. rewrite H1, H2. by apply Ht. Qed.

Lemma mute_zoom {T A} (g : Monitor -> T) (p : T -> Monitor -> Monitor) (m : ST error T A) :
  (forall t s, mute s (p t s)) -> steps mute (zoom g p m).
Proof. intros H. apply (steps_zoom _ (fun _ _ => True)); [by intros|]. intros t. by destruct (m t). Qed.

Lemma steps_mute {A} (m : MonM A) : steps mute m -> steps keeps_telling m.
Proof. apply steps_mono, mute_keeps. Qed.

Lemma one_alarm a b e msg : In a alarms -> In b alarms -> is_Some (event_kind b e msg) ->
  a = b \/ al_check a <> al_check b /\ event_kind a e msg = None.
Proof.
  intros Ha Hb. unfold event_kind. destruct (String.eqb_spec e (al_raised b)) as [->|_]; [|destruct (String.eqb_spec e (al_cleared b)) as [->|_]; [|by intros []]];
    intros _; repeat (destruct Ha as [<-|Ha]; [repeat (destruct Hb as [<-|Hb]; [by auto|]); done|]); done.
Qed.

(** One event of one alarm, with the entry that goes with it. *)
Lemma tell_one b e (entry : option string) msg v s :
  In b alarms -> event_kind b e msg = Some entry -> entry <> Some "" -> mo_lastAlerts s !! al_check b <> entry -> telling s ->
  telling (put_mo_fired (mo_fired s ++ [(e, mkSystemData e msg v)]) (put_mo_lastAlerts (partial_alter (fun _ => entry) (al_check b) (mo_lastAlerts s)) s)).
Proof.
  intros Hb Hk Hne Hnew Ht a Ha. destruct (Ht a Ha) as [Hl Hv]. unfold tells, heard in *. cbn [mo_fired mo_lastAlerts put_mo_fired put_mo_lastAlerts].
  rewrite omap_app. cbn [omap list_omap fst snd ws_Message]. destruct (one_alarm a b e msg Ha Hb ltac:(by rewrite Hk)) as [->|[Hc Hno]].
  - rewrite lookup_partial_alter, decide_True by done. rewrite Hk, listen_snoc, Hl. by rewrite bool_decide_eq_false_2.
  - rewrite lookup_partial_alter_ne by done. rewrite Hno, app_nil_r. by split.
Qed.

(** What a check may raise and clear. *)
Definition may_fire (c l e m : string) : bool :=
  negb (String.eqb l "") && existsb (fun a => String.eqb (al_check a) c && String.eqb (al_level a m) l && String.eqb (al_raised a) e) alarms.
Definition may_clear (c e : string) : bool := existsb (fun a => String.eqb (al_check a) c && String.eqb (al_cleared a) e) alarms.

Lemma mute_log l m : steps mute (write_system l m).
Proof. apply steps_ignore. by apply mute_zoom. Qed.

Lemma log_run l m s : exists s1, write_system l m s = (Ok tt, s1) /\ mo_lastAlerts s1 = mo_lastAlerts s /\ mo_fired s1 = mo_fired s.
Proof. pose proof (mute_log l m s) as H. unfold write_system, ignore in *. destruct (mlog _ s) as [r s1]. cbn in H. destruct H. by exists s1. Qed.

Lemma telling_same s s' : mo_lastAlerts s' = mo_lastAlerts s -> mo_fired s' = mo_fired s -> telling s -> telling s'.
Proof. intros H1 H2. by apply mute_keeps. Qed.

Lemma tells_fire c l e m v : may_fire c l e m = true -> steps keeps_telling (fireAlert c l e m v).
Proof.
  intros [Hl (a & Ha & [[Hc Hlev]%andb_prop He]%andb_prop)%existsb_exists]%andb_prop s Ht.
  apply negb_true_iff, String.eqb_neq in Hl. apply String.eqb_eq in Hc, Hlev, He. subst c e.
  unfold fireAlert. erewrite bind_run; [|reflexivity]. destruct (String.eqb_spec (default "" (mo_lastAlerts s !! al_check a)) l) as [E|E]; [done|].
  erewrite bind_run; [|reflexivity]. destruct (log_run l m (put_mo_lastAlerts (<[al_check a := l]> (mo_lastAlerts s)) s)) as (s1 & Er & H1 & H2).
  erewrite bind_run; [|exact Er]. cbn. eapply telling_same; [| |apply (tell_one a (al_raised a) (Some l) m v s Ha); [|congruence| |exact Ht]].
  - cbn. by rewrite H1.
  - cbn. by rewrite H2.
  - unfold event_kind. by rewrite String.eqb_refl, Hlev.
  - intros El. apply E. by rewrite El.
Qed.

Lemma tells_clear c e m v : may_clear c e = true -> steps keeps_telling (clearAlert c e m v).
Proof.
  intros (a & Ha & [Hc He]%andb_prop)%existsb_exists s Ht. apply String.eqb_eq in Hc, He. subst c e.
  unfold clearAlert. erewrite bind_run; [|reflexivity]. destruct (Ht a Ha) as [_ Hv].
  destruct (mo_lastAlerts s !! al_check a) as [l|] eqn:El; [|done]. change (default "" (Some l)) with l.
  destruct (String.eqb_spec l "") as [->|_]; [done|].
  erewrite bind_run; [|reflexivity]. destruct (log_run "info" m (put_mo_lastAlerts (delete (al_check a) (mo_lastAlerts s)) s)) as (s1 & Er & H1 & H2).
  erewrite bind_run; [|exact Er]. cbn. eapply telling_same; [| |apply (tell_one a (al_cleared a) None m v s Ha); [|done|by rewrite El|exact Ht]].
  - cbn. by rewrite H1.
  - cbn. by rewrite H2.
  - clear -Ha. repeat (destruct Ha as [<-|Ha]; [done|]). done.
Qed.

Lemma tells_mdb {A} (m : DbM A) : steps keeps_telling (mdb m). Proof. apply steps_mute. by apply mute_zoom. Qed.
Lemma tells_mcached {A} (m : SetM A) : steps keeps_telling (mcached m). Proof. apply steps_mute. by apply mute_zoom. Qed.
Lemma tells_mhook {A} (m : ST error (World HookTables) A) : steps keeps_telling (mhook m). Proof. apply steps_mute. by apply mute_zoom. Qed.
Lemma tells_modify f : (forall s, mute s (f s)) -> steps keeps_telling (modify f : MonM unit).
Proof. intros H. apply steps_modify. intros s. apply mute_keeps, H. Qed.
Lemma tells_or_default {A} z (m : MonM A) : steps keeps_telling m -> steps keeps_telling (or_default z m).
Proof. intros H. unfold or_default. apply steps_bind; [apply _|by apply steps_try|]. intros r. apply steps_ret, _. Qed.

Ltac tells_go := repeat match goal with
  | |- steps _ (fireAlert _ _ _ _ _) => apply tells_fire; reflexivity
  | |- steps _ (clearAlert _ _ _ _) => apply tells_clear; reflexivity
  | |- steps _ (or_default _ _) => apply tells_or_default
  | |- steps _ (mdb _) => apply tells_mdb
  | |- steps _ (mcached _) => apply tells_mcached
  | |- steps _ (mhook _) => apply tells_mhook
  | |- steps _ (modify _) => by apply tells_modify
  | |- _ => steps_step
  end.

Lemma tells_antd url dl probe : steps keeps_telling (checkAntdHealth url dl probe).
Proof. unfold checkAntdHealth, setAntdUnavailable. tells_go. Qed.

Lemma tells_fast url dl o : steps keeps_telling (fastChecks url dl o).
Proof.
  unfold fastChecks. apply steps_bind; [apply _|apply tells_antd|]. intros _. apply steps_bind; [apply _| |intros _].
  - unfold checkWorkerLiveness. tells_go.
  - unfold checkStaleUploads. tells_go.
Qed.

Lemma tells_slow url o : steps keeps_telling (slowChecks url o).
Proof.
  unfold slowChecks, checkWalletBalance, checkQueueBacklog, checkFailureRate, checkEvmRpcHealth, checkWebhookDeliveryFailures, checkGasBackoffCount, checkTempDirSize.
  tells_go.
Qed.

(** C36. Every alert is news. Over every interleaving of the ticks with the rest of
    the server and whatever fails, and for every check: of the events handed over
    for it no one says what the one before it said. An alarm is not told again
    while it lasts at its level (only antd's changes between two, as its message
    tells), a recovery is told only of an alarm; and what the monitor remembers
    of the check is what its last event said. *)
Theorem alerts_alternate (AntdURL EvmRPCURL : string) (deadline : error -> bool) (ts : list tick) (s : Monitor)
    (Hnew : mo_lastAlerts s = ∅) (Hnone : mo_fired s = [])
    (Hb : Forall (fun t => match t with Others f => forall s, mute s (f s) | _ => True end) ts) (a : alarm) (Ha : In a alarms) :
  let s' := run_ticks AntdURL EvmRPCURL deadline ts s in
  listen None (heard a s') = Some (mo_lastAlerts s' !! al_check a).
Proof.
  assert (telling s) as Ht. { intros b _. unfold tells, heard. by rewrite Hnew, Hnone, lookup_empty. }
  enough (telling (run_ticks AntdURL EvmRPCURL deadline ts s)) as H by exact (proj1 (H a Ha)). clear Hnew Hnone Ha. unfold run_ticks. revert s Ht.
  induction ts as [|t ts IH]; intros s Ht; [done|]. apply Forall_cons in Hb as [Hb Hbs]. cbn [fold_left]. apply IH; [done|].
  destruct t as [o|o|f]; [exact (tells_fast _ _ o s Ht)|exact (tells_slow _ o s Ht)|exact (mute_keeps _ _ (Hb s) Ht)].
Qed.

Definition up_and_down : list tick := [fast dead_probe; fast dead_probe; fast slow_probe; fast (Ok tt); fast (Ok tt)].

Example alerts_alternate_witness :
  let s := run_ticks "http://antd" "" (fun _ => false) up_and_down (monitor_on (monitor_db [] [] [])) in
  let a := mkAlarm "antd_health" antd_level "antd_unreachable" "antd_recovered" in
  heard a s = [Some "critical"; Some "warning"; None] /\ listen None (heard a s) = Some (mo_lastAlerts s !! "antd_health").
Proof.
  cbv zeta. split; [vm_compute; reflexivity|].
  exact (alerts_alternate "http://antd" "" (fun _ => false) up_and_down (monitor_on (monitor_db [] [] [])) eq_refl eq_refl ltac:(repeat constructor)
    (mkAlarm "antd_health" antd_level "antd_unreachable" "antd_recovered") ltac:(by left)).
Defined.
