(* ===== verification/Calendar.v ===== *)
(** * The calendar

    [Http.civil_of] counts days in eras of 400 years that begin on the first of
    March. Here: its dates are well formed and grow with the day, so that two
    days have different texts and texts compare as times do. *)

From S2P Require Import Prelude GoLib Clock Http.

Open Scope Z_scope.

#[local] Ltac Zify.zify_post_hook ::= Z.to_euclidean_division_equations.

(** ** Checks on short ranges *)

Definition all_below (n : N) (p : Z -> bool) : bool :=
  snd (N.iter n (fun '(k, ok) => (k + 1, ok && p k)) (0, true)).

Lemma all_below_spec n p : all_below n p = true -> forall k, 0 <= k < Z.of_N n -> p k = true.
Proof.
  assert (forall n, fst (N.iter n (fun '(k, ok) => (k + 1, ok && p k)) (0, true)) = Z.of_N n) as Hfst.
  { clear n. intros n. induction n as [|n IH] using N.peano_ind; [done|]. rewrite N.iter_succ.
    destruct (N.iter n _ _). cbn in *. lia. }
  unfold all_below. induction n as [|n IH] using N.peano_ind; [lia|]. rewrite N.iter_succ.
  specialize (Hfst n). destruct (N.iter n _ _) as [j ok]. cbn in *. intros [H1 H2]%andb_prop k Hk.
  destruct (decide (k = j)) as [->|]; [done|]. apply IH; [done|lia].
Qed.

(** ** Years of March *)

(** Days before the first of March of year [y], counted from year 0. *)
Definition year_start (y : Z) : Z := 365 * y + y / 4 - y / 100 + y / 400.

Lemma year_start_step y : 365 <= year_start (y + 1) - year_start y <= 366.
Proof. unfold year_start. lia. Qed.

Lemma year_start_mono y1 y2 : y1 <= y2 -> year_start y1 <= year_start y2.
Proof. unfold year_start. lia. Qed.

(** The year within an era, as civil_of_days computes it. *)
Definition year_of_era (doe : Z) : Z := (doe - doe / 1460 + doe / 36524 - doe / 146096) / 365.

Lemma year_of_era_mono a b : 0 <= a <= b -> year_of_era a <= year_of_era b.
Proof.
  intros [Ha Hb]. unfold year_of_era.
  assert (forall n, 0 <= n -> n - n / 1460 + n / 36524 - n / 146096 <= n + 1 - (n + 1) / 1460 + (n + 1) / 36524 - (n + 1) / 146096) as Hstep
    by (intros; lia).
  apply Z.div_le_mono; [lia|]. revert b Hb. refine (Zlt_lower_bound_ind _ _ _). intros b IH Hb.
  destruct (decide (a = b)) as [->|]; [done|].
  specialize (IH (b - 1) ltac:(lia)). specialize (Hstep (b - 1) ltac:(lia)). replace (b - 1 + 1) with b in Hstep by lia. lia.
Qed.

Lemma year_of_era_ends y : 0 <= y < 400 ->
  year_of_era (year_start y) = y /\ year_of_era (year_start (y + 1) - 1) = y.
Proof.
  intros H.
  assert (all_below 400 (fun y => (year_of_era (year_start y) =? y) && (year_of_era (year_start (y + 1) - 1) =? y)) = true) as Hall
    by (vm_compute; reflexivity).
  apply all_below_spec with (k := y) in Hall; [|lia]. apply andb_prop in Hall as [H1 H2]. lia.
Qed.

(** Some year holds every day of an era. *)
Lemma year_exists doe : 0 <= doe < 146097 -> exists y, 0 <= y < 400 /\ year_start y <= doe < year_start (y + 1).
Proof.
  intros H. assert (forall n, 0 <= n <= 400 -> doe < year_start n -> exists y, 0 <= y < 400 /\ year_start y <= doe < year_start (y + 1)) as Hn.
  { intros n [Hn Hn']. revert n Hn Hn'. refine (natlike_ind _ _ _).
    - unfold year_start. lia.
    - intros n Hn IH Hn' Hlt. destruct (Z.lt_ge_cases doe (year_start n)) as [|Hge]; [apply IH; [lia|done]|].
      exists n. split; [lia|]. done. }
  apply (Hn 400); [lia|]. unfold year_start. lia.
Qed.

Lemma year_of_era_spec doe : 0 <= doe < 146097 ->
  0 <= year_of_era doe < 400 /\ year_start (year_of_era doe) <= doe < year_start (year_of_era doe + 1).
Proof.
  intros H. destruct (year_exists doe H) as (y & Hy & Hlo & Hhi).
  destruct (year_of_era_ends y Hy) as [E1 E2].
  pose proof (year_of_era_mono (year_start y) doe). pose proof (year_of_era_mono doe (year_start (y + 1) - 1)).
  assert (0 <= year_start y) by (unfold year_start; lia). assert (year_of_era doe = y) as -> by lia. done.
Qed.

(** ** Days of a year of March *)

Definition month_of_year (doy : Z) : Z := let mp := (5 * doy + 2) / 153 in if mp <? 10 then mp + 3 else mp - 9.
Definition day_of_month (doy : Z) : Z := doy - (153 * ((5 * doy + 2) / 153) + 2) / 5 + 1.

(** The place of a day in its year of March, January and February being of the
    next one. *)
Definition year_num (doy : Z) : Z :=
  (if month_of_year doy <=? 2 then 10000 else 0) + month_of_year doy * 100 + day_of_month doy.

Lemma doy_ok doy : 0 <= doy < 366 ->
  1 <= month_of_year doy <= 12 /\ 1 <= day_of_month doy <= 31 /\ 301 <= year_num doy <= 10229.
Proof.
  intros H.
  assert (all_below 366 (fun d => (1 <=? month_of_year d) && (month_of_year d <=? 12) && (1 <=? day_of_month d) && (day_of_month d <=? 31)
    && (301 <=? year_num d) && (year_num d <=? 10229)) = true) as Hall by (vm_compute; reflexivity).
  apply all_below_spec with (k := doy) in Hall; [|lia]. breflect. lia.
Qed.

Lemma year_num_mono a b : 0 <= a < b -> b < 366 -> year_num a < year_num b.
Proof.
  intros [Ha Hab] Hb.
  assert (forall d, 0 <= d < 365 -> year_num d < year_num (d + 1)) as Hstep.
  { assert (all_below 365 (fun d => year_num d <? year_num (d + 1)) = true) as Hall by (vm_compute; reflexivity).
    intros d Hd. apply all_below_spec with (k := d) in Hall; lia. }
  revert Hb. assert (a + 1 <= b) as Hle by lia. clear Hab. revert b Hle. refine (Zlt_lower_bound_ind _ _ _). intros b IH Hle Hb.
  specialize (Hstep (b - 1) ltac:(lia)). replace (b - 1 + 1) with b in Hstep by lia.
  destruct (decide (b = a + 1)) as [->|]; [by replace (a + 1 - 1) with a in Hstep by lia|].
  specialize (IH (b - 1) ltac:(lia) ltac:(lia)). lia.
Qed.

(** ** Days *)

Definition day_num (day : Z) : Z := let '(y, m, d) := civil_of_days day in (y * 100 + m) * 100 + d.

Lemma civil_of_days_spec day : exists y doy, 0 <= doy < 366 /\
  year_start y <= day + 719468 < year_start (y + 1) /\ doy = day + 719468 - year_start y /\
  civil_of_days day = (y + (if month_of_year doy <=? 2 then 1 else 0), month_of_year doy, day_of_month doy).
Proof.
  unfold civil_of_days. set (z := day + 719468). set (era := z / 146097). set (doe := z - era * 146097).
  assert (0 <= doe < 146097) as Hdoe by (subst doe era; lia).
  destruct (year_of_era_spec doe Hdoe) as [Hy Hs]. change ((doe - doe / 1460 + doe / 36524 - doe / 146096) / 365) with (year_of_era doe).
  set (yoe := year_of_era doe) in *.
  assert (forall y, year_start (y + era * 400) = year_start y + era * 146097) as Hera by (intros y; unfold year_start; lia).
  exists (yoe + era * 400), (doe - year_start yoe).
  replace (yoe + era * 400 + 1) with (yoe + 1 + era * 400) by lia. rewrite !Hera.
  assert (doe = z - era * 146097) as Hz by done.
  assert (doe - (365 * yoe + yoe / 4 - yoe / 100) = doe - year_start yoe) as -> by (unfold year_start; lia).
  pose proof (year_start_step yoe). repeat split; try lia.
Qed.

Lemma day_num_mono a b : a < b -> day_num a < day_num b.
Proof.
  intros Hab. unfold day_num.
  destruct (civil_of_days_spec a) as (y1 & d1 & Hd1 & Hs1 & E1 & ->). destruct (civil_of_days_spec b) as (y2 & d2 & Hd2 & Hs2 & E2 & ->).
  assert (forall y doy, ((y + (if month_of_year doy <=? 2 then 1 else 0)) * 100 + month_of_year doy) * 100 + day_of_month doy
    = y * 10000 + year_num doy) as Hnum by (intros y doy; unfold year_num; destruct (month_of_year doy <=? 2); lia).
  rewrite !Hnum. destruct (doy_ok d1 Hd1) as (_ & _ & Hr1), (doy_ok d2 Hd2) as (_ & _ & Hr2).
  destruct (Z.lt_trichotomy y1 y2) as [Hy|[->|Hy]]; [lia| |].
  - pose proof (year_num_mono d1 d2). lia.
  - pose proof (year_start_mono (y2 + 1) y1). lia.
Qed.

Lemma date_num_civil s : date_num (civil_of s) = day_num (s / 86400).
Proof. unfold civil_of, day_num, date_num. by destruct (civil_of_days (s / 86400)) as [[y m] d]. Qed.

Lemma date_num_compare a b : Z.compare (date_num (civil_of a)) (date_num (civil_of b)) = Z.compare (a / 86400) (b / 86400).
Proof.
  rewrite !date_num_civil. destruct (Z.compare_spec (a / 86400) (b / 86400)) as [->|H|H].
  - apply Z.compare_refl.
  - apply day_num_mono in H. by apply Z.compare_lt_iff.
  - apply day_num_mono in H. by apply Z.compare_gt_iff.
Qed.

(** ** Texts of times *)

(** The years the layouts write with four digits: 0 to 9999. *)
Definition datable (s : Z) : Prop := -62167219200 <= s < 253402300800.

Lemma day_num_le a b : a <= b -> day_num a <= day_num b.
Proof. intros H. destruct (decide (a = b)) as [->|]; [done|]. pose proof (day_num_mono a b). lia. Qed.

Lemma civil_of_ok s : datable s -> civil_ok (civil_of s).
Proof.
  unfold datable. intros Hs.
  pose proof (day_num_le (-719528) (s / 86400) ltac:(lia)) as Hlo. pose proof (day_num_le (s / 86400) 2932896 ltac:(lia)) as Hhi.
  change (day_num (-719528)) with 101 in Hlo. change (day_num 2932896) with 99991231 in Hhi.
  unfold day_num in *. unfold civil_of, civil_ok. destruct (civil_of_days_spec (s / 86400)) as (y & doy & Hd & _ & _ & E).
  rewrite E in *. cbn. destruct (doy_ok doy Hd) as (Hm & Hdm & _). repeat split; lia.
Qed.

(** What a filter of the log tables makes of a bound: only its day counts, and
    on the day itself [since] keeps nothing and [until] everything. *)
Lemma since_keeps_later_days bound at_ : datable bound -> datable at_ ->
  text_le (iso_text (civil_of bound)) (db_text (civil_of at_)) = (bound / 86400 <? at_ / 86400).
Proof.
  intros Hb Ha. rewrite since_text by auto using civil_of_ok. unfold Z.ltb. by rewrite date_num_compare.
Qed.

Lemma until_keeps_its_day bound at_ : datable bound -> datable at_ ->
  text_le (db_text (civil_of at_)) (iso_text (civil_of bound)) = (at_ / 86400 <=? bound / 86400).
Proof.
  intros Hb Ha. rewrite until_text by auto using civil_of_ok. unfold Z.leb. by rewrite date_num_compare.
Qed.

Lemma date_text_eqb a b : datable a -> datable b ->
  String.eqb (date_text (civil_of a)) (date_text (civil_of b)) = (a / 86400 =? b / 86400).
Proof.
  intros Ha Hb. pose proof (date_text_compare _ _ (civil_of_ok _ Ha) (civil_of_ok _ Hb)) as H. rewrite date_num_compare in H.
  destruct (String.eqb_spec (date_text (civil_of a)) (date_text (civil_of b))) as [E|E], (Z.eqb_spec (a / 86400) (b / 86400)) as [E'|E']; try done.
  - rewrite E, compare_refl in H. symmetry in H. by apply Z.compare_eq_iff in H.
  - rewrite E', Z.compare_refl in H. by apply String.compare_eq_iff in H.
Qed.

(** [date(created_at)] of a stored text. *)
Lemma stored_day c : take_str 10 (db_text c) = date_text c.
Proof. done. Qed.
