(* ===== verification/LogQueries.v ===== *)
(** * Reading the logs

    The rest of src/internal/services/log.go and file_access.go over the tables
    of AuditLog and the config_audit table of Settings: the listings and exports
    of the system log and of the settings' changes, and the statistics of all
    four logs. Times are Unix seconds; SQLite has no size per table. *)

From stdpp Require Import gmap strings pretty.
From S2P Require Import Prelude GoLib Sql Schema Stmt Clock AuditLog Http UploadHandlers Calendar.
From Stdlib Require Import Ascii.

Open Scope Z_scope.

(** ** config_audit *)

Lemma config_scan_run X (g : list ConfigAudit -> X) d r d' : query (fun d => g (config_audit d)) d = (r, d') ->
  config_audit d' = config_audit d /\ (r = Ok (g (config_audit d)) \/ exists e, r = Err e).
Proof.
  unfold query, mbind, ST_bind, gets. destruct (stmt_cases d) as [[fs ->]|(e & fs & ->)]; intros [= <- <-]; eauto.
Qed.

Lemma config_scan_answers X (g : list ConfigAudit -> X) d : healthy d ->
  query (fun d => g (config_audit d)) d = (Ok (g (config_audit d)), d).
Proof. intros H. unfold query, mbind, ST_bind. by rewrite stmt_healthy. Qed.

Definition config_table : Table Db ConfigAudit :=
  mkTable config_audit (fun X g => query (fun d => g (config_audit d))) healthy config_scan_run config_scan_answers.

Definition ca_text (e : ConfigAudit) : string := db_text (civil_of (ca_created_at e)).

Definition config_filter (settingKey : string) (changedBy : option Z) (since until : option Civil) (e : ConfigAudit) : bool :=
  text_filter settingKey (ca_setting_key e) && id_filter changedBy (Some (ca_changed_by e)) &&
  since_ok since (ca_text e) && until_ok until (ca_text e).

Definition QueryConfigAudit (settingKey : string) (changedBy : option Z) (since until : option Civil) (n off : Z) : DbM (list ConfigAudit * Z) :=
  list_page config_table ca_text (config_filter settingKey changedBy since until) n off.

Definition StreamConfigAudit (settingKey : string) (changedBy : option Z) (since until : option Civil)
    (emit : ConfigAudit -> option error) : DbM (list ConfigAudit * (Z * option error)) :=
  stream_page config_table ca_text (fun e => e) (config_filter settingKey changedBy since until) emit.

(** ** system_log *)

Definition system_filter (level component : string) (since until : option Civil) (r : SystemRow) : bool :=
  text_filter level (s_level r) && text_filter component (s_component r) &&
  since_ok since (s_created_at r) && until_ok until (s_created_at r).

Definition QuerySystemLogs (level component : string) (since until : option Civil) (n off : Z) : LogM (list SystemRow * Z) :=
  list_page system_table s_created_at (system_filter level component since until) n off.

Definition system_columns (r : SystemRow) : SystemRow :=
  mkSystem (s_id r) (s_level r) (s_component r) (s_message r) (s_detail r) "" (s_created_at r).

Definition StreamSystemLogs (level component : string) (since until : option Civil)
    (emit : SystemRow -> option error) : LogM (list SystemRow * (Z * option error)) :=
  stream_page system_table s_created_at system_columns (system_filter level component since until) emit.

(** ** Parsing times *)

Definition field (from n : nat) (s : string) : option Z := parse_nat (take_str n (drop_str from s)).
Definition char_at (i : nat) (c s : string) : bool := String.eqb (take_str 1 (drop_str i s)) c.

Definition leap (y : Z) : bool := (y mod 4 =? 0) && (negb (y mod 100 =? 0) || (y mod 400 =? 0)).

Definition daysIn (m y : Z) : Z :=
  if m =? 2 then (if leap y then 29 else 28) else
  if (m =? 4) || (m =? 6) || (m =? 9) || (m =? 11) then 30 else 31.

(** [time.Parse("2006-01-02", s)]. *)
Definition parse_date (s : string) : option Civil :=
  if negb ((String.length s =? 10)%nat && char_at 4 "-" s && char_at 7 "-" s) then None else
  y ← field 0 4 s; m ← field 5 2 s; d ← field 8 2 s;
  if (1 <=? m) && (m <=? 12) && (1 <=? d) && (d <=? daysIn m y) then Some (mkCivil y m d 0 0 0) else None.

(** [time.Parse] of a date, [sep] and a time; the fractions of seconds it also
    accepts are never stored. *)
Definition parse_stamp (sep s : string) : option Civil :=
  if negb ((String.length s =? 19)%nat && char_at 10 sep s && char_at 13 ":" s && char_at 16 ":" s) then None else
  c ← parse_date (take_str 10 s); h ← field 11 2 s; mi ← field 14 2 s; se ← field 17 2 s;
  if (h <? 24) && (mi <? 60) && (se <? 60) then Some (mkCivil (c_year c) (c_month c) (c_day c) h mi se) else None.

(** ** Statistics *)

Record DayCount := mkDayCount { dc_Date : string; dc_Count : Z }.

(** The maps a log type does not fill stay empty. *)
Record LogStats := mkLogStats {
  TotalEntries : Z;
  Earliest : option Civil;
  Latest : option Civil;
  DiskUsageBytes : Z;
  BySeverity : gmap string Z;
  ByEventType : gmap string Z;
  ByLevel : gmap string Z;
  ByComponent : gmap string Z;
  BySettingKey : gmap string Z;
  ByDay : list DayCount;
}.

(** [dayExpr]: [date(created_at)] of a stored text. *)
Definition dayExpr (created_at : string) : string := take_str 10 created_at.

Definition tableSize (table : string) : Z := 0.

(** [SELECT k, COUNT( * ) GROUP BY k]: a row per key, in the order of the keys. *)
Definition group_counts {A} (k : A -> string) (rows : list A) : list (string * Z) :=
  map (fun x => (x, affected (fun r => String.eqb (k r) x) rows)) (order_by text_le (remove_dups (map k rows))).

(** [ORDER BY c DESC LIMIT 10]; which of equally frequent keys come first is
    SQLite's choice. *)
Definition top_ten (counts : list (string * Z)) : list (string * Z) :=
  limit 10 (order_by (fun a b => snd b <=? snd a) counts).

Definition scanGroupCounts (rows : list (string * Z)) : gmap string Z :=
  fold_left (fun out kc => <[fst kc := snd kc]> out) rows ∅.

Definition day : Z := 86400.

(** The last 30 days, the oldest first, at the time the rows were read. *)
Definition scanByDay (now : Z) (rows : list (string * Z)) : list DayCount :=
  let got := scanGroupCounts rows in
  map (fun i => let d := date_text (civil_of (now - i * day)) in mkDayCount d (default 0 (got !! d))) (rev (seqZ 0 30)).

Definition thirtyDaysAgo (now : Z) : string := iso_text (civil_of (now - 30 * day)).

Section stats.
Context {ps : Parsers}.

(** The layouts in turn; NULL is no time. *)
Definition nullTime (v : option string) : result error (option Civil) :=
  match v with
  | None => Ok None
  | Some t =>
      match parse_stamp "T" t with
      | Some c => Ok (Some c)
      | None =>
          match parse_stamp " " t with
          | Some c => Ok (Some c)
          | None =>
              match parse_rfc3339 t with
              | Some s => Ok (Some (civil_of s))
              | None => Err (ENew "nullTime: unrecognized string %q")
              end
          end
      end
  end.

Section table.
Context {S A : Type} (tb : Table S A) (created_at : A -> string).

(** [MIN] and [MAX] of the texts: NULL on no row. *)
Definition min_text (rows : list A) : option string := head (order_by text_le (map created_at rows)).
Definition max_text (rows : list A) : option string := last (order_by text_le (map created_at rows)).

Definition span : ST error S (Z * option Civil * option Civil) :=
  r ← scan tb (fun rows => (Z.of_nat (length rows), min_text rows, max_text rows));
  let '(n, lo, hi) := r in
  lo ← of_result (nullTime lo);
  hi ← of_result (nullTime hi);
  mret (n, lo, hi).

Definition all_groups (k : A -> string) : ST error S (gmap string Z) :=
  rows ← scan tb (group_counts k); mret (scanGroupCounts rows).

Definition top_groups (k : A -> string) : ST error S (gmap string Z) :=
  rows ← scan tb (fun t => top_ten (group_counts k t)); mret (scanGroupCounts rows).

(** The clock is read before the query, at [t0], and after it, at [t1]. *)
Definition by_day (t0 t1 : Z) : ST error S (list DayCount) :=
  rows ← scan tb (fun t => group_counts (fun r => dayExpr (created_at r))
    (select (fun r => text_le (thirtyDaysAgo t0) (created_at r)) t));
  mret (scanByDay t1 rows).
End table.

Definition QueryAuditStats (t0 t1 : Z) : LogM LogStats :=
  '(n, lo, hi) ← span audit_table a_created_at;
  let size := tableSize "audit_log" in
  sev ← all_groups audit_table a_severity;
  types ← top_groups audit_table a_event_type;
  days ← by_day audit_table a_created_at t0 t1;
  mret (mkLogStats n lo hi size sev types ∅ ∅ ∅ days).

Definition QueryFileAccessStats (t0 t1 : Z) : LogM LogStats :=
  '(n, lo, hi) ← span file_access_table a_created_at;
  let size := tableSize "file_access_log" in
  sev ← all_groups file_access_table a_severity;
  types ← top_groups file_access_table a_event_type;
  days ← by_day file_access_table a_created_at t0 t1;
  mret (mkLogStats n lo hi size sev types ∅ ∅ ∅ days).

Definition QuerySystemStats (t0 t1 : Z) : LogM LogStats :=
  '(n, lo, hi) ← span system_table s_created_at;
  let size := tableSize "system_log" in
  levels ← all_groups system_table s_level;
  comps ← top_groups system_table s_component;
  days ← by_day system_table s_created_at t0 t1;
  mret (mkLogStats n lo hi size ∅ ∅ levels comps ∅ days).

Definition QueryConfigAuditStats (t0 t1 : Z) : DbM LogStats :=
  '(n, lo, hi) ← span config_table ca_text;
  let size := tableSize "config_audit" in
  keys ← top_groups config_table ca_setting_key;
  days ← by_day config_table ca_text t0 t1;
  mret (mkLogStats n lo hi size ∅ ∅ ∅ ∅ keys days).
End stats.

Example a_date_parses : parse_date "2024-02-29" = Some (mkCivil 2024 2 29 0 0 0) /\ parse_date "2023-02-29" = None /\
  parse_stamp " " "2026-01-31 23:59:58" = Some (mkCivil 2026 1 31 23 59 58).
Proof. vm_compute. done. Qed.

(** * The log handlers

    src/internal/handlers/admin_logs.go. The state is the log tables beside the
    database that holds config_audit. An export answers with its headers and then
    with one line per row: the list of the rows the client took, with the error
    line that is written to it when the export fails. *)

Open Scope Z_scope.

Record LogDesk := mkLogDesk { ld_logs : World LogTables; ld_db : Db }.

Definition put_logs (v : World LogTables) (s : LogDesk) : LogDesk := mkLogDesk v (ld_db s).
Definition put_db (v : Db) (s : LogDesk) : LogDesk := mkLogDesk (ld_logs s) v.

Abbreviation LogsM := (ST Refusal LogDesk).

Definition of_logs {A} (m : LogM A) : ST error LogDesk A := zoom ld_logs put_logs m.
Definition of_config {A} (m : DbM A) : ST error LogDesk A := zoom ld_db put_db m.

(** ** The request *)

(** The query parameters, empty when absent. *)
Record log_params := mkLogParams {
  lp_event_type : string; lp_severity : string; lp_user_id : string; lp_since : string; lp_until : string;
  lp_limit : string; lp_offset : string; lp_level : string; lp_component : string; lp_setting_key : string;
}.

Record log_filters := mkLogFilters {
  lf_event_type : string; lf_severity : string; lf_user_id : option Z; lf_since : option Civil; lf_until : option Civil;
  lf_limit : Z; lf_offset : Z;
}.

Definition validSeverity (s : string) : string :=
  if String.eqb s "info" || String.eqb s "warn" || String.eqb s "error" then s else "".

Section logs.
Context {ps : Parsers}.

Definition parseTimeParam (s : string) : option Civil :=
  if String.eqb s "" then None else
  match parse_rfc3339 s with
  | Some t => Some (civil_of t)
  | None => parse_date s
  end.

Definition parseLogFilters (q : log_params) : log_filters :=
  mkLogFilters (lp_event_type q) (validSeverity (lp_severity q))
    (if negb (String.eqb (lp_user_id q) "") then ParseInt (lp_user_id q) else None)
    (parseTimeParam (lp_since q)) (parseTimeParam (lp_until q)) (atoi_or_zero (lp_limit q)) (atoi_or_zero (lp_offset q)).

(** ** The answers *)

Record auditLogResponse := mkAuditResp {
  alr_ID : Z; alr_EventType : string; alr_Severity : string; alr_UserID : option Z; alr_Detail : string;
  alr_IPAddress : option string; alr_UserAgent : option string; alr_RequestID : string; alr_CreatedAt : string;
}.

Record systemLogResponse := mkSystemResp {
  slr_ID : Z; slr_Level : string; slr_Component : string; slr_Message : string; slr_Detail : option string;
  slr_RequestID : string; slr_CreatedAt : string;
}.

Record configAuditResponse := mkConfigResp {
  car_ID : Z; car_SettingKey : string; car_OldValue : option string; car_NewValue : string; car_ChangedBy : option Z;
  car_IPAddress : option string; car_UserAgent : option string; car_CreatedAt : string;
}.

(** [CreatedAt.Format] of the time the driver reads from a stored text. *)
Definition stored_z (at_ : string) : string := take_str 10 at_ +:+ "T" +:+ drop_str 11 at_ +:+ "Z".

Definition toAuditLogResponse (e : AuditRow) : auditLogResponse :=
  mkAuditResp (a_id e) (a_event_type e) (a_severity e) (a_user_id e) (a_detail e) (a_ip_address e) (a_user_agent e)
    (a_request_id e) (stored_z (a_created_at e)).

Definition toSystemLogResponse (e : SystemRow) : systemLogResponse :=
  mkSystemResp (s_id e) (s_level e) (s_component e) (s_message e) (s_detail e) (s_request_id e) (stored_z (s_created_at e)).

Definition toConfigAuditResponse (e : ConfigAudit) : configAuditResponse :=
  mkConfigResp (ca_id e) (ca_setting_key e) (ca_old_value e) (ca_new_value e) (Some (ca_changed_by e))
    (Some (ca_ip_address e)) (Some (ca_user_agent e)) (format_z (ca_created_at e)).

(** entries, total, limit, offset: the last two as they were asked for. *)
Record log_page (A : Type) := mkLogPage { lg_entries : list A; lg_total : Z; lg_limit : Z; lg_offset : Z }.
Arguments mkLogPage {A} _ _ _ _.

Definition page_answer {A B} (f : A -> B) (message : string) (limit offset : Z) (m : ST error LogDesk (list A * Z)) : LogsM (Z * log_page B) :=
  r ← or_refuse (fun _ => jsonError message 500) m;
  answer 200 (mkLogPage (map f (fst r)) (snd r) limit offset).

Definition AdminAuditLogs (q : log_params) : LogsM (Z * log_page auditLogResponse) :=
  let f := parseLogFilters q in
  page_answer toAuditLogResponse "failed to query audit logs" (lf_limit f) (lf_offset f)
    (of_logs (QueryAuditLogs (lf_event_type f) (lf_severity f) (lf_user_id f) (lf_since f) (lf_until f) (lf_limit f) (lf_offset f))).

Definition AdminSystemLogs (q : log_params) : LogsM (Z * log_page systemLogResponse) :=
  let f := parseLogFilters q in
  page_answer toSystemLogResponse "failed to query system logs" (lf_limit f) (lf_offset f)
    (of_logs (QuerySystemLogs (lp_level q) (lp_component q) (lf_since f) (lf_until f) (lf_limit f) (lf_offset f))).

Definition AdminFileAccessLogs (q : log_params) : LogsM (Z * log_page auditLogResponse) :=
  let f := parseLogFilters q in
  page_answer toAuditLogResponse "failed to query file-access logs" (lf_limit f) (lf_offset f)
    (of_logs (QueryFileAccessLogs (lf_event_type f) (lf_severity f) (lf_user_id f) (lf_since f) (lf_until f) (lf_limit f) (lf_offset f))).

Definition AdminConfigAuditLogs (q : log_params) : LogsM (Z * log_page configAuditResponse) :=
  let f := parseLogFilters q in
  page_answer toConfigAuditResponse "failed to query config audit" (lf_limit f) (lf_offset f)
    (of_config (QueryConfigAudit (lp_setting_key q) (lf_user_id f) (lf_since f) (lf_until f) (lf_limit f) (lf_offset f))).

Definition AdminUserLogs (q : log_params) : LogsM (Z * log_page auditLogResponse) :=
  let f := parseLogFilters q in
  page_answer toAuditLogResponse "failed to query user logs" (lf_limit f) (lf_offset f)
    (of_logs (QueryUserActivity (lf_severity f) (lf_user_id f) (lf_since f) (lf_until f) (lf_limit f) (lf_offset f))).

(** ** Exports *)

Definition exportFilename (now : Z) (logType : string) : string := logType +:+ "-" +:+ date_text (civil_of now) +:+ ".jsonl".

Definition quote : string := String (ascii_of_N 34) EmptyString.

Definition writeExportHeaders (now : Z) (logType : string) : list (string * string) :=
  [("Content-Type", "application/x-ndjson");
   ("Content-Disposition", "attachment; filename=" +:+ quote +:+ exportFilename now logType +:+ quote);
   ("X-Content-Type-Options", "nosniff")].

(** A line of the body; the text of an error as [err.Error()] gives it. *)
Inductive export_line (A : Type) := Line (a : A) | ErrorLine (err : error).
Arguments Line {A} _.
Arguments ErrorLine {A} _.

Definition writeExportError {A} (err : error) : list (export_line A) := [ErrorLine err].

Record export (A : Type) := mkExport { ex_headers : list (string * string); ex_lines : list (export_line A) }.
Arguments mkExport {A} _ _.

Definition export_answer {A B} (now : Z) (logType : string) (f : A -> B)
    (m : ST error LogDesk (list A * (Z * option error))) : LogsM (export B) :=
  r ← attempt m;
  let headers := writeExportHeaders now logType in
  mret (mkExport headers
    match r with
    | Err err => writeExportError err  (* the query failed *)
    | Ok (rows, (_, None)) => map (fun e => Line (f e)) rows
    | Ok (rows, (_, Some err)) => map (fun e => Line (f e)) rows ++ writeExportError err
    end).

Section exports.
(** The time, and what encoding a row to the client returns. *)
Context (now : Z) (Encode : forall {A}, A -> option error).

Definition AdminExportAuditLogs (q : log_params) : LogsM (export auditLogResponse) :=
  let f := parseLogFilters q in
  export_answer now "audit" toAuditLogResponse
    (of_logs (StreamAuditLogs (lf_event_type f) (lf_severity f) (lf_user_id f) (lf_since f) (lf_until f)
      (fun e => Encode _ (toAuditLogResponse e)))).

Definition AdminExportSystemLogs (q : log_params) : LogsM (export systemLogResponse) :=
  let f := parseLogFilters q in
  export_answer now "system" toSystemLogResponse
    (of_logs (StreamSystemLogs (lp_level q) (lp_component q) (lf_since f) (lf_until f) (fun e => Encode _ (toSystemLogResponse e)))).

Definition AdminExportFileAccessLogs (q : log_params) : LogsM (export auditLogResponse) :=
  let f := parseLogFilters q in
  export_answer now "file-access" toAuditLogResponse
    (of_logs (StreamFileAccessLogs (lf_event_type f) (lf_severity f) (lf_user_id f) (lf_since f) (lf_until f)
      (fun e => Encode _ (toAuditLogResponse e)))).

Definition AdminExportConfigAuditLogs (q : log_params) : LogsM (export configAuditResponse) :=
  let f := parseLogFilters q in
  export_answer now "config" toConfigAuditResponse
    (of_config (StreamConfigAudit (lp_setting_key q) (lf_user_id f) (lf_since f) (lf_until f) (fun e => Encode _ (toConfigAuditResponse e)))).

Definition AdminExportUserLogs (q : log_params) : LogsM (export auditLogResponse) :=
  let f := parseLogFilters q in
  export_answer now "user" toAuditLogResponse
    (of_logs (StreamAuditLogs "" (lf_severity f) (lf_user_id f) (lf_since f) (lf_until f) (fun e => Encode _ (toAuditLogResponse e)))).
End exports.

(** ** Statistics and verification *)

Definition stats_answer {A} (message : string) (m : ST error LogDesk A) : LogsM (Z * A) :=
  st ← or_refuse (fun _ => jsonError message 500) m; answer 200 st.

Definition AdminAuditStats (t0 t1 : Z) : LogsM (Z * LogStats) :=
  stats_answer "failed to compute audit stats" (of_logs (QueryAuditStats t0 t1)).

Definition AdminFileAccessStats (t0 t1 : Z) : LogsM (Z * LogStats) :=
  stats_answer "failed to compute file-access stats" (of_logs (QueryFileAccessStats t0 t1)).

Definition AdminSystemStats (t0 t1 : Z) : LogsM (Z * LogStats) :=
  stats_answer "failed to compute system stats" (of_logs (QuerySystemStats t0 t1)).

Definition AdminConfigAuditStats (t0 t1 : Z) : LogsM (Z * LogStats) :=
  stats_answer "failed to compute config audit stats" (of_config (QueryConfigAuditStats t0 t1)).

Definition AdminVerifyAuditChain : LogsM (Z * AuditChainResult) :=
  stats_answer "failed to verify audit chain" (of_logs VerifyAuditChain).
End logs.

#[global] Arguments mkLogPage {A} _ _ _ _.
#[global] Arguments lg_entries {A} _.
#[global] Arguments lg_total {A} _.
#[global] Arguments Line {A} _.
#[global] Arguments ErrorLine {A} _.
#[global] Arguments mkExport {A} _ _.
#[global] Arguments ex_headers {A} _.
#[global] Arguments ex_lines {A} _.
