(* ===== verification/LogLaws.v ===== *)
(** * The logs: what statistics and exports say

    The statistics count every row once, and the 30 day buckets hold exactly the
    rows of their days, although the cutoff compares two layouts. An export
    without an error line is complete. *)

From Stdlib Require Import String.
From stdpp Require Import gmap strings pretty sorting.
From S2P Require Import Prelude GoLib Sql Schema Stmt Clock AuditLog Http Calendar UploadHandlers Triple LogQueries.

Open Scope Z_scope.

#[local] Ltac Zify.zify_post_hook ::= Z.to_euclidean_division_equations.

(** ** Groups *)

Lemma scanGroupCounts_lookup l : NoDup (map fst l) -> forall k v, scanGroupCounts l !! k = Some v <-> In (k, v) l.
Proof.
  unfold scanGroupCounts. intros Hnd k v.
  assert (forall m : gmap string Z, fold_left (fun out kc => <[fst kc := snd kc]> out) l m !! k = Some v <->
    In (k, v) l \/ (~ In k (map fst l) /\ m !! k = Some v)) as Hl.
  { induction l as [|[k0 v0] l IH]; intros m; cbn; [naive_solver|]. cbn in Hnd. apply NoDup_cons in Hnd as [Hk0 Hnd].
    rewrite IH by done. rewrite list_elem_of_In in Hk0. destruct (decide (k0 = k)) as [->|Hne].
    - rewrite lookup_insert_eq. split; [|naive_solver]. intros [H|[_ [= ->]]]; [|naive_solver]. exfalso. apply Hk0. by apply (in_map fst) in H.
    - rewrite lookup_insert_ne by done. split; [naive_solver|]. intros [[[= -> ->]|H]|[H1 H2]]; naive_solver. }
  rewrite Hl, lookup_empty. naive_solver.
Qed.

Section groups.
Context {A : Type} (k : A -> string).

Definition freq (rows : list A) (x : string) : Z := affected (fun r => String.eqb (k r) x) rows.

Lemma group_keys rows : NoDup (map fst (group_counts k rows)).
Proof.
  unfold group_counts. rewrite map_map. cbn. rewrite map_id, order_by_perm. apply NoDup_remove_dups.
Qed.

Lemma group_counts_in rows x n : In (x, n) (group_counts k rows) <-> n = freq rows x /\ In x (map k rows).
Proof.
  unfold group_counts. rewrite in_map_iff. setoid_rewrite order_by_in. setoid_rewrite <- list_elem_of_In. setoid_rewrite elem_of_remove_dups.
  unfold freq. naive_solver.
Qed.

Lemma freq_pos rows x : In x (map k rows) <-> 0 < freq rows x.
Proof.
  unfold freq. pose proof (affected_pos (fun r => String.eqb (k r) x) rows) as H. unfold affected in *.
  rewrite in_map_iff. split.
  - intros (r & <- & Hr). assert (Z.of_nat (length (select (fun r0 => String.eqb (k r0) (k r)) rows)) <> 0); [|lia].
    apply H. exists r. by rewrite String.eqb_refl.
  - intros Hpos. destruct H as [H _]. destruct H as (r & Hr & E); [lia|]. apply String.eqb_eq in E. eauto.
Qed.

(** A map that holds every key with its number of rows. *)
Lemma all_groups_lookup rows x : default 0 (scanGroupCounts (group_counts k rows) !! x) = freq rows x.
Proof.
  destruct (scanGroupCounts (group_counts k rows) !! x) as [n|] eqn:E; cbn.
  - apply scanGroupCounts_lookup in E; [|apply group_keys]. by apply group_counts_in in E as [-> _].
  - destruct (in_dec string_dec x (map k rows)) as [Hin|Hout].
    + assert (scanGroupCounts (group_counts k rows) !! x = Some (freq rows x)) as E'; [|congruence].
      apply scanGroupCounts_lookup; [apply group_keys|]. by apply group_counts_in.
    + rewrite freq_pos in Hout. unfold freq, affected in *. lia.
Qed.
End groups.

(** The ten most frequent keys of [rows]: what the map holds is right, and no
    key that is left out is more frequent than one it holds. *)
Definition ten_most_frequent (f : string -> Z) (m : gmap string Z) : Prop :=
  (size m <= 10)%nat /\ (forall x n, m !! x = Some n -> n = f x /\ 0 < n) /\
  (forall x, m !! x = None -> 0 < f x -> size m = 10%nat /\ forall y n, m !! y = Some n -> f x <= n).

Lemma scanGroupCounts_size l : NoDup (map fst l) -> size (scanGroupCounts l) = length l.
Proof.
  intros H. rewrite <- (length_map fst), <- (size_list_to_set (C := gset string)) by done.
  rewrite <- size_dom. f_equal. apply set_eq. intros x. rewrite elem_of_dom, elem_of_list_to_set, list_elem_of_In, in_map_iff. unfold is_Some.
  setoid_rewrite scanGroupCounts_lookup; [|done]. split; [intros [n Hn]; by exists (x, n)|intros [[y n] [<- Hn]]; eauto].
Qed.

Lemma count_desc l : StronglySorted (fun a b : string * Z => snd b <= snd a) (order_by (fun a b => snd b <=? snd a) l).
Proof.
  rewrite (order_by_ext _ (fun a b => - snd a <=? - snd b)) by (intros; zcases).
  apply (StronglySorted_impl (fun a b => - snd a <= - snd b)); [lia|]. apply (order_by_sorted (fun a => - snd a)).
Qed.

Lemma top_ten_frequent {A} (k : A -> string) rows :
  ten_most_frequent (freq k rows) (scanGroupCounts (top_ten (group_counts k rows))).
Proof.
  set (sorted := order_by (fun a b => snd b <=? snd a) (group_counts k rows)).
  change (top_ten (group_counts k rows)) with (take 10 sorted).
  assert (NoDup (map fst sorted)) as Hnd by (unfold sorted; rewrite order_by_perm; apply group_keys).
  assert (forall x n, In (x, n) sorted <-> n = freq k rows x /\ In x (map k rows)) as Hin.
  { intros x n. unfold sorted. rewrite order_by_in. apply group_counts_in. }
  pose proof (count_desc (group_counts k rows)) as Hs. fold sorted in Hs. clearbody sorted.
  rewrite <- (take_drop 10 sorted) in Hnd, Hs. rewrite map_app in Hnd. apply NoDup_app in Hnd as (Hnd & _ & _).
  assert (forall p, In p sorted <-> In p (take 10 sorted) \/ In p (drop 10 sorted)) as Hsplit.
  { intros p. rewrite <- (take_drop 10 sorted) at 1. apply in_app_iff. }
  pose proof (fun x n => scanGroupCounts_lookup (take 10 sorted) Hnd x n) as Hlook.
  split; [|split].
  - rewrite scanGroupCounts_size by done. rewrite length_take. lia.
  - intros x n H%Hlook. assert (In (x, n) sorted) as [-> Hx]%Hin by (apply Hsplit; auto). by rewrite <- freq_pos.
  - intros x Hx Hpos. apply freq_pos in Hpos. assert (In (x, freq k rows x) (drop 10 sorted)) as Hd.
    { assert (In (x, freq k rows x) sorted) as [Ht|]%Hsplit by (by apply Hin); [|done]. apply Hlook in Ht. by rewrite Ht in Hx. }
    rewrite scanGroupCounts_size, length_take by done. split.
    + destruct (Nat.le_gt_cases (length sorted) 10) as [Hle|]; [|lia]. by rewrite drop_ge in Hd.
    + intros y n Hy%Hlook. apply (stdpp.sorting.StronglySorted_app_1_elem_of _ _ _ (y, n) (x, freq k rows x) Hs); by apply list_elem_of_In.
Qed.

(** ** Days *)

Lemma affected_select {A} (p q : A -> bool) rows : affected p (select q rows) = affected (fun r => q r && p r) rows.
Proof.
  unfold affected, select. f_equal. induction rows as [|r rows IH]; cbn; [done|].
  destruct (q r); cbn; [|done]. destruct (p r); cbn; by rewrite IH.
Qed.

Lemma affected_same {A} (p q : A -> bool) rows : (forall r, In r rows -> p r = q r) -> affected p rows = affected q rows.
Proof.
  unfold affected, select. intros H. f_equal. induction rows as [|r rows IH]; cbn; [done|].
  rewrite (H r) by (by left). destruct (q r); cbn; rewrite IH by (intros; apply H; by right); done.
Qed.

(** The texts of a table are those of times in the years of four digits. *)
Definition stamped {A} (created_at : A -> string) (stamp : A -> Z) (rows : list A) : Prop :=
  forall r, In r rows -> datable (stamp r) /\ created_at r = db_text (civil_of (stamp r)).

(** The number of rows of the day [i] days before [t]. *)
Definition rows_of_day {A} (stamp : A -> Z) (t i : Z) (rows : list A) : Z :=
  affected (fun r => stamp r / day =? t / day - i) rows.

Definition thirty_days {A} (stamp : A -> Z) (t : Z) (rows : list A) : list DayCount :=
  map (fun i => mkDayCount (date_text (civil_of (t - i * day))) (rows_of_day stamp t i rows)) (rev (seqZ 0 30)).

Lemma scanByDay_exact {A} (created_at : A -> string) stamp t0 t1 rows :
  stamped created_at stamp rows -> datable (t0 - 30 * day) -> t0 <= t1 -> datable t1 ->
  scanByDay t1 (group_counts (fun r => dayExpr (created_at r)) (select (fun r => text_le (thirtyDaysAgo t0) (created_at r)) rows)) =
  thirty_days stamp t1 rows.
Proof.
  intros Hst H0 H01 H1. unfold scanByDay, thirty_days. apply map_ext_in. intros i Hi.
  apply in_rev, list_elem_of_In, elem_of_seqZ in Hi. f_equal. rewrite all_groups_lookup. unfold freq, rows_of_day.
  rewrite affected_select. apply affected_same. intros r Hr. destruct (Hst r Hr) as [Hd ->].
  unfold dayExpr, thirtyDaysAgo. rewrite stored_day, since_keeps_later_days by done.
  assert (datable (t1 - i * day)) as Hi' by (unfold datable, day in *; lia). rewrite date_text_eqb by done.
  unfold day in *. replace ((t1 - i * 86400) / 86400) with (t1 / 86400 - i) by lia. lia.
Qed.

Section stats.
Context {ps : Parsers} {S A : Type} (tb : Table S A) (created_at : A -> string).

Lemma span_run s n lo hi s' : span tb created_at s = (Ok (n, lo, hi), s') ->
  rows_of tb s' = rows_of tb s /\ n = Z.of_nat (length (rows_of tb s)).
Proof.
  unfold span. intros H. apply bind_ok in H as ([[n0 lo0] hi0] & s1 & Hq & H). apply scan_run in Hq as [E [[= -> -> ->]|[e [=]]]].
  assert (forall (r : result error (option Civil)) a (s1 s2 : S), of_result r s1 = (Ok a, s2) -> s2 = s1) as Hpure by (by intros [] ? ? ? [=]).
  apply bind_ok in H as (lo1 & s2 & ->%Hpure & H). apply bind_ok in H as (hi1 & s3 & ->%Hpure & H).
  run_cbn H. by injection H as <- <- <- <-.
Qed.

Lemma groups_run {B} (f : list A -> list (string * Z)) (g : list (string * Z) -> B) s m s' :
  (rows ← scan tb f; mret (g rows)) s = (Ok m, s') -> rows_of tb s' = rows_of tb s /\ m = g (f (rows_of tb s)).
Proof.
  intros H. apply bind_ok in H as (l & s1 & Hq & H). apply scan_run in Hq as [E [[= ->]|[e [=]]]]. run_cbn H. by injection H as <- <-.
Qed.
End stats.

(** C38. The audit statistics count every row: the total is the number of rows, the
    count of a severity is the number of its rows, the event types shown are the
    ten most frequent with their numbers, and the thirty buckets are the last
    thirty days in order, each with exactly the rows written on it, although the
    cutoff is compared in another layout than the texts are stored in and
    midnight may pass between the query and the reading of the clock. *)
Theorem QueryAuditStats_counts {ps : Parsers} (t0 t1 : Z) (stamp : AuditRow -> Z) (w w' : World LogTables) (st : LogStats)
    (Hrun : QueryAuditStats t0 t1 w = (Ok st, w')) (Hst : stamped a_created_at stamp (audit_log (tables w)))
    (H0 : datable (t0 - 30 * day)) (H01 : t0 <= t1) (H1 : datable t1) :
  let rows := audit_log (tables w) in
  TotalEntries st = Z.of_nat (length rows) /\
  (forall sev, default 0 (BySeverity st !! sev) = freq a_severity rows sev) /\
  ten_most_frequent (freq a_event_type rows) (ByEventType st) /\
  ByDay st = thirty_days stamp t1 rows.
Proof.
  unfold QueryAuditStats in Hrun. apply bind_ok in Hrun as ([[n lo] hi] & w1 & Hs & Hrun). apply span_run in Hs as [E1 ->].
  apply bind_ok in Hrun as (sev & w2 & Hs & Hrun). apply groups_run in Hs as [E2 ->].
  apply bind_ok in Hrun as (ty & w3 & Hs & Hrun). apply (groups_run audit_table (fun t => top_ten (group_counts a_event_type t))) in Hs as [E3 ->].
  apply bind_ok in Hrun as (days & w4 & Hs & Hrun).
  apply (groups_run audit_table (fun t => group_counts (fun r => dayExpr (a_created_at r)) (select (fun r => text_le (thirtyDaysAgo t0) (a_created_at r)) t))) in Hs as [E4 ->].
  rewrite E3, E2, E1 in Hrun. run_cbn Hrun. injection Hrun as <- _. cbn. split; [done|]. split; [intros; apply all_groups_lookup|].
  split; [apply top_ten_frequent|]. by apply scanByDay_exact.
Qed.

(** ** Exports *)

Section exports.
Context {S A : Type} (emit : A -> option error).

(** What was taken is a prefix, no longer than the cap; a walk without an error
    took everything, and only a refused row or the cap causes one. *)
Lemma stream_rows_spec rows : forall k, 0 <= k <= ExportMaxRows ->
  let '(out, (_, err)) := stream_rows emit rows k in
  exists n, out = firstn n rows /\ Z.of_nat (length out) + k <= ExportMaxRows /\
    (err = None -> out = rows) /\
    ((forall r, In r rows -> emit r = None) -> (err = None <-> Z.of_nat (length rows) + k <= ExportMaxRows) /\
      (err <> None -> err = Some ErrExportCapExceeded)).
Proof.
  induction rows as [|r rows IH]; intros k Hk; cbn [stream_rows].
  { exists O. cbn. repeat split; intros; try done; lia. }
  destruct (Z.ltb_spec ExportMaxRows (k + 1)).
  { exists O. cbn. split; [done|]. split; [lia|]. split; [done|]. intros _. split; [|done]. split; [done|]. lia. }
  destruct (emit r) as [err|] eqn:Er.
  { exists O. cbn. split; [done|]. split; [lia|]. split; [done|]. intros H'. rewrite H' in Er by (by left). done. }
  specialize (IH (k + 1) ltac:(lia)). destruct (stream_rows emit rows (k + 1)) as [out [m err]].
  destruct IH as (n & -> & Hlen & Hall & Hcap). exists (Datatypes.S n). split; [done|]. cbn [length]. split; [lia|].
  split; [by intros ->%Hall|]. intros Hemit. destruct Hcap as [H1 H2]; [intros; apply Hemit; by right|].
  split; [|done]. rewrite H1. lia.
Qed.
End exports.

(** The rows of the audit log an export is asked for, newest first. *)
Definition wanted {ps : Parsers} (q : log_params) (w : World LogTables) : list AuditRow :=
  let f := parseLogFilters q in
  order_by (newest a_created_at)
    (select (buildLogFilter (lf_event_type f) (lf_severity f) (lf_user_id f) (lf_since f) (lf_until f)) (audit_log (tables w))).

Definition shown_line (r : AuditRow) : auditLogResponse := toAuditLogResponse (export_columns r).

(** The walk over the page: as the walk over all of the rows. *)
Lemma stream_page_spec {A} (columns : A -> A) (emit : A -> option error) rows :
  let '(out, (_, err)) := stream_rows emit (map columns (limit (ExportMaxRows + 1) rows)) 0 in
  exists n, out = map columns (firstn n rows) /\ Z.of_nat (length (firstn n rows)) <= ExportMaxRows /\
    (err = None -> firstn n rows = rows) /\
    ((forall r, emit r = None) -> (err = None <-> Z.of_nat (length rows) <= ExportMaxRows)).
Proof.
  unfold limit. assert (Z.of_nat (Z.to_nat (ExportMaxRows + 1)) = ExportMaxRows + 1) as Hm by (rewrite Z2Nat.id; [done|unfold ExportMaxRows; lia]).
  set (m := Z.to_nat (ExportMaxRows + 1)) in *. clearbody m.
  pose proof (stream_rows_spec emit (map columns (firstn m rows)) 0 ltac:(unfold ExportMaxRows; lia)) as H.
  destruct (stream_rows _ _ _) as [out [k err]]. destruct H as (n & -> & Hlen & Hall & Hcap).
  rewrite firstn_map, firstn_firstn in *. rewrite !length_map in *. exists (Nat.min n m). split; [done|]. split; [lia|].
  assert (Z.of_nat (length (firstn m rows)) <= ExportMaxRows <-> Z.of_nat (length rows) <= ExportMaxRows) as Hiff
    by (rewrite length_firstn; lia). split.
  - intros E. apply Hall in E. apply (f_equal length) in E. rewrite !length_map in E. rewrite E in Hlen.
    apply firstn_all2. rewrite !length_firstn in *. lia.
  - intros He. destruct Hcap as [-> _]; [done|]. rewrite <- Hiff. lia.
Qed.

(** An export of the audit log always answers; its lines are the first of the
    rows asked for, newest first and at most a million, then at most one error
    line. Without an error line it is complete, and while the tables answer and
    the client takes every line there is one exactly when more than a million
    rows were asked for. *)
Theorem AdminExportAuditLogs_complete {ps : Parsers} (now : Z) (Encode : forall A, A -> option error) (q : log_params) (s : LogDesk) :
  exists e s' n errs, AdminExportAuditLogs now Encode q s = (Ok e, s') /\
    ex_lines e = map (fun r => Line (shown_line r)) (firstn n (wanted q (ld_logs s))) ++ map ErrorLine errs /\
    Z.of_nat (length (firstn n (wanted q (ld_logs s)))) <= ExportMaxRows /\ (length errs <= 1)%nat /\
    (errs = [] -> firstn n (wanted q (ld_logs s)) = wanted q (ld_logs s)) /\
    (sched (ld_logs s) = [] -> (forall A (a : A), Encode A a = None) ->
      (errs = [] <-> Z.of_nat (length (wanted q (ld_logs s))) <= ExportMaxRows)).
Proof.
  unfold AdminExportAuditLogs, StreamAuditLogs, export_answer, wanted. set (f := parseLogFilters q).
  set (p := buildLogFilter _ _ _ _ _). set (emit := fun e => Encode _ (toAuditLogResponse e)).
  pose proof (stream_page_spec export_columns emit (order_by (newest a_created_at) (select p (audit_log (tables (ld_logs s)))))) as Hs.
  destruct (stream_page audit_table a_created_at export_columns p emit (ld_logs s)) as [r w'] eqn:E.
  erewrite bind_run; [|unfold attempt, of_logs, zoom; rewrite E; reflexivity].
  unfold stream_page, mbind, ST_bind in E. set (run := stream_rows _ _ _) in Hs.
  destruct (scan audit_table _ (ld_logs s)) as [r0 w0] eqn:Esc in E. pose proof (scan_run _ _ _ _ _ Esc) as [_ [->|[e ->]]].
  - injection E as <- <-. cbv beta. change (stream_rows emit _ 0) with run. destruct run as [out [k err]].
    destruct Hs as (n & -> & Hlen & Hall & Hcap).
    exists (mkExport (writeExportHeaders now "audit") (map (fun r => Line (shown_line r)) (firstn n (order_by (newest a_created_at) (select p (audit_log (tables (ld_logs s)))))) ++ map ErrorLine (option_list err))),
      (put_logs w0 s), n, (option_list err).
    split; [|split; [done|split; [done|split; [destruct err; cbn; lia|split]]]].
    + destruct err; cbn; rewrite map_map; by rewrite ?app_nil_r.
    + intros He. apply Hall. by destruct err.
    + intros _ Hec. rewrite <- Hcap by (intros; apply Hec). by destruct err.
  - injection E as <- <-. exists (mkExport (writeExportHeaders now "audit") [ErrorLine e]), (put_logs w0 s), O, [e].
    split; [done|split; [done|split; [unfold ExportMaxRows; rewrite length_firstn; lia|split; [cbn; lia|split; [done|]]]]].
    intros Hsched. by rewrite (scan_answers audit_table _ _ Hsched) in Esc.
Qed.

(** ** On concrete logs *)

#[local] Instance no_parsers : Parsers := {| Unmarshal_cursor := fun _ => Err (ENew "invalid"); parse_rfc3339 := fun _ => None |}.

Definition entry (id : Z) (event severity request : string) (at_ : Z) : AuditRow :=
  mkAudit id event severity None "" None None request (db_text (civil_of at_)) "" "".

Definition noon : Z := 1769860800.  (* 2026-01-31 12:00:00 *)

Definition three_entries : World LogTables :=
  mkWorld (mkLogs [entry 1 "login" "info" "r1" (noon - 30 * day); entry 2 "login" "warn" "r2" (noon - day); entry 3 "logout" "info" "r3" (noon - 100)] 3
    [] 0 [] 0 [] 0 (civil_of noon)) [].

Definition entry_time (r : AuditRow) : Z := if a_id r =? 1 then noon - 30 * day else if a_id r =? 2 then noon - day else noon - 100.

Lemma three_entries_stamped : stamped a_created_at entry_time (audit_log (tables three_entries)).
Proof. intros r [<-|[<-|[<-|[]]]]; (split; [unfold datable, entry_time, noon, day; cbn; lia|done]). Qed.

Lemma QueryAuditStats_counts_witness :
  match QueryAuditStats noon (noon + 1) three_entries with
  | (Ok st, _) => TotalEntries st = 3 /\ ByEventType st !! "login" = Some 2 /\
      ByDay st = thirty_days entry_time (noon + 1) (audit_log (tables three_entries)) /\ sum_by dc_Count (ByDay st) = 2
  | _ => False
  end.
Proof.
  destruct (QueryAuditStats noon (noon + 1) three_entries) as [[st|e] w'] eqn:E; [|by vm_compute in E].
  destruct (QueryAuditStats_counts noon (noon + 1) entry_time three_entries w' st E three_entries_stamped
    ltac:(unfold datable, noon, day; lia) ltac:(lia) ltac:(unfold datable, noon; lia)) as (H1 & _ & _ & H2).
  rewrite H2. split; [done|]. split; [|split; [done|vm_compute; reflexivity]].
  vm_compute in E. injection E as <- _. vm_compute. reflexivity.
Defined.

Definition no_changes : Db := mkDb [] 0 [] 0 [] 0 [] [] [] [] [] 0 [] [] [] [] [] 0 [] 0 [].

(** The rows of the first day of a window are not shown: a [since] of yesterday
    noon drops the entry of yesterday noon. *)
Definition since_yesterday : log_params := mkLogParams "" "" "" "2026-01-30" "" "" "" "" "" "".

Example since_drops_its_day :
  match AdminAuditLogs since_yesterday (mkLogDesk three_entries no_changes) with
  | (Ok (_, page), _) => map alr_ID (lg_entries page) = [3] /\ lg_total page = 1
  | _ => False
  end.
Proof. vm_compute. done. Qed.

(** The request id of an entry is listed but not exported. *)
Example exports_lose_request_ids :
  match AdminAuditLogs (mkLogParams "logout" "" "" "" "" "" "" "" "" "") (mkLogDesk three_entries no_changes),
        AdminExportAuditLogs noon (fun _ _ => None) (mkLogParams "logout" "" "" "" "" "" "" "" "" "") (mkLogDesk three_entries no_changes) with
  | (Ok (_, page), _), (Ok e, _) =>
      map alr_RequestID (lg_entries page) = ["r3"] /\
      map (fun l => match l with Line r => alr_RequestID r | ErrorLine _ => "" end) (ex_lines e) = [""]
  | _, _ => False
  end.
Proof. vm_compute. done. Qed.
