(* ===== verification/Backup.v ===== *)
(** * Export and import of the catalog

    src/internal/services/backup.go and handlers/admin_backup.go: the uploads of
    an instance, with their datamaps, tags and collections, as lines of JSON, and
    the restoring of such a file on another instance. JSON is the class
    [ExportCodec]; what the client's connection does to each line is an argument. *)

From stdpp Require Import gmap strings pretty.
From Stdlib Require Import Ascii.
From S2P Require Import Prelude GoLib Sql Schema Stmt Clock AccountSchema Library Tags Collections Http Front.

Open Scope Z_scope.

Definition uploadsExportKind : string := "indelible-uploads-export".
Definition uploadsExportSchema : Z := 1.
Definition exportBatchSize : Z := 500.

Record ExportHeader := mkHeader { eh_Kind : string; eh_Schema : Z; eh_ExportedAt : Z; eh_Count : Z }.

(** Times are Unix seconds; [zero_time] is the zero [time.Time]. *)
Record ExportUpload := mkExported {
  eu_UUID : string; eu_OwnerEmail : string; eu_Filename : string; eu_OriginalFilename : string; eu_ContentType : string;
  eu_FileSize : Z; eu_Visibility : string; eu_Status : string; eu_DataMap : string; eu_DatamapAddress : string;
  eu_ActualCost : string; eu_CreatedAt : Z; eu_CompletedAt : option Z; eu_Tags : TagMap; eu_Collections : list string;
}.

Definition zero_time : Z := -62135596800.

Record ImportResult := mkImport { im_Imported : Z; im_Skipped : Z; im_OwnerFallback : Z; im_Errors : list string }.

(** encoding/json, one value per line. *)
Class ExportCodec := {
  Marshal_header : ExportHeader -> string;
  Marshal_upload : ExportUpload -> string;
  Unmarshal_header : string -> result error ExportHeader;
  Unmarshal_upload : string -> result error ExportUpload;
}.

Definition newline : ascii := ascii_of_N 10.
Definition line_of (s : string) : string := s +:+ String newline EmptyString.

(** ** Shared reads *)

Definition emailByID (users : list (Z * string)) : gmap Z string := fold_left (fun out u => <[fst u := snd u]> out) users ∅.

(** ORDER BY upload_id, tag_key, id. *)
Definition tag_order (a b : Tag) : bool :=
  (ft_UploadID a <? ft_UploadID b) || ((ft_UploadID a =? ft_UploadID b) && key_then_id a b).

(** The map of each upload, the empty one when it has no row. *)
Definition tagsForUploads (upload_ids : list Z) : LibM (Z -> TagMap) :=
  rows ← read (fun l => order_by tag_order (select (fun t => existsb (Z.eqb (ft_UploadID t)) upload_ids) (lb_tags l)));
  mret (fun uid => collect (map tag_pair (select (of_upload uid) rows))).

Definition name_order (a b : Z * string) : bool := (fst a <? fst b) || ((fst a =? fst b) && text_le (snd a) (snd b)).

(** The join of collection_files with collections. *)
Definition memberships (l : Library) : list (Z * string) :=
  flat_map (fun f => map (fun c => (cf_upload_id f, cl_Name c)) (select (by_id (cf_collection_id f)) (lb_collections l))) (lb_files l).

Definition collectionsForUploads (upload_ids : list Z) : LibM (Z -> list string) :=
  rows ← read (fun l => order_by name_order (select (fun m => existsb (Z.eqb (fst m)) upload_ids) (memberships l)));
  mret (fun uid => map snd (select (fun m => fst m =? uid) rows)).

Definition nullStr (s : string) : option string := if String.eqb s "" then None else Some s.
Definition toNullTime (t : option Z) : option Z := match t with Some t => if t =? zero_time then None else Some t | None => None end.

(** ** Export *)

(** The lines that were written, their number and how it ended. *)
Abbreviation exported := (list string * (Z * option error))%type.

Section export.
Context {codec : ExportCodec}.
(** The outcome of writing the i-th line, and of the last flush. *)
Context (written_ok : nat -> option error) (flushed : option error).

(** A read whose error ends the export. *)
Definition or_end {A} (written : Z) (m : LibM A) (k : A -> LibM exported) : LibM exported :=
  r ← try m;
  match r with Err e => mret ([], (written, Some e)) | Ok a => k a end.

Definition export_record (emails : gmap Z string) (tags : Z -> TagMap) (colls : Z -> list string) (u : Upload) : ExportUpload :=
  mkExported (u_uuid u) (default "" (emails !! u_user_id u)) (u_filename u) (u_original_filename u) (u_content_type u) (u_file_size u)
    (match u_visibility u with Public => "public" | Private => "private" end) (status_str (u_status u))
    (default "" (u_data_map u)) (default "" (u_datamap_address u)) (default "" (u_actual_cost u))
    (u_created_at u) (u_completed_at u) (tags (u_id u)) (colls (u_id u)).

Fixpoint export_rows (line : Upload -> string) (batch : list Upload) (written : Z) : exported :=
  match batch with
  | [] => ([], (written, None))
  | u :: rest =>
      match written_ok (Z.to_nat (written + 1)) with
      | Some e => ([], (written, Some e))
      | None => let '(out, res) := export_rows line rest (written + 1) in (line u :: out, res)
      end
  end.

(** The batches after the row [lastID]; the fuel bounds their number. *)
Fixpoint export_batches (fuel : nat) (emails : gmap Z string) (lastID written : Z) : LibM exported :=
  match fuel with
  | O => fail (ENew "more batches than rows")
  | S fuel =>
      or_end written (read (fun l => limit exportBatchSize (order_by (fun a b => u_id a <=? u_id b) (select (fun u => lastID <? u_id u) (lb_uploads l)))))
        (fun batch =>
          match last batch with
          | None => mret ([], (written, flushed))
          | Some u =>
              or_end written (tagsForUploads (map u_id batch)) (fun tags =>
              or_end written (collectionsForUploads (map u_id batch)) (fun colls =>
              let '(out, (n, err)) := export_rows (fun u => Marshal_upload (export_record emails tags colls u)) batch written in
              match err with
              | Some e => mret (out, (n, Some e))
              | None => '(out', res) ← export_batches fuel emails (u_id u) n; mret (out ++ out', res)
              end))
          end)
  end.

Definition ExportUploads (now : Z) : LibM exported :=
  or_end 0 (read (fun l => Z.of_nat (length (lb_uploads l)))) (fun count =>
  or_end 0 (read (fun l => emailByID (lb_users l))) (fun emails =>
  let header := Marshal_header (mkHeader uploadsExportKind uploadsExportSchema now count) in
  match written_ok 0 with
  | Some e => mret ([], (0, Some e))
  | None =>
      w ← get;
      '(out, res) ← export_batches (S (length (lb_uploads (tables w)))) emails 0 0;
      mret (header :: out, res)
  end)).
End export.

(** ** Import *)

Section import.
Context {codec : ExportCodec} {mb : Mailbox}.
(** The order in which the loops visit a map. *)
Context (visit : TagMap -> list (string * list string)).

(** A later row of the same address wins. *)
Definition idByEmail (users : list (Z * string)) : gmap string Z := fold_left (fun out u => <[ToLower (snd u) := fst u]> out) users ∅.

Definition count_imported (r : ImportResult) := mkImport (im_Imported r + 1) (im_Skipped r) (im_OwnerFallback r) (im_Errors r).
Definition count_skipped (r : ImportResult) := mkImport (im_Imported r) (im_Skipped r + 1) (im_OwnerFallback r) (im_Errors r).
Definition count_fallback (r : ImportResult) := mkImport (im_Imported r) (im_Skipped r) (im_OwnerFallback r + 1) (im_Errors r).
Definition add_error (msg : string) (r : ImportResult) := mkImport (im_Imported r) (im_Skipped r) (im_OwnerFallback r) (im_Errors r ++ [msg]).

Definition parse_visibility (s : string) : option visibility :=
  if String.eqb s "public" then Some Public else if String.eqb s "private" then Some Private else None.
Definition parse_status (s : string) : option status := List.find (fun st => String.eqb (status_str st) s) [Queued; Processing; Completed; Failed; AlreadyStored].

(** The columns of the INSERT; the others have their defaults. *)
Definition imported_row (id : Z) (eu : ExportUpload) (ownerID createdAt : Z) (vis : visibility) (st : status) : Upload :=
  mkUpload id (eu_UUID eu) ownerID None (eu_Filename eu) (eu_OriginalFilename eu) (eu_FileSize eu) (eu_ContentType eu) vis st
    None (nullStr (eu_DatamapAddress eu)) None (nullStr (eu_ActualCost eu)) None None (nullStr (eu_DataMap eu)) None 0 None
    createdAt None (toNullTime (eu_CompletedAt eu)) None createdAt None 0.

(** The INSERT, with the CHECKs of visibility and status. *)
Definition insert_upload (eu : ExportUpload) (ownerID createdAt : Z) (l : Library) : result error (Z * Library) :=
  let id := lb_seq_uploads l + 1 in
  match parse_visibility (eu_Visibility eu), parse_status (eu_Status eu) with
  | Some vis, Some st =>
      constrained true (negb (existsb (fun u => String.eqb (u_uuid u) (eu_UUID eu)) (lb_uploads l))) (library_user l ownerID)
        (id, set_lb_uploads (lb_uploads l ++ [imported_row id eu ownerID createdAt vis st]) (set_lb_seq_uploads id l))
  | _, _ => Err (ESentinel ErrCheckViolation)
  end.

Definition report (eu : ExportUpload) (what : string) (e : error) : ImportResult -> ImportResult :=
  add_error ("uuid " +:+ eu_UUID eu +:+ ": " +:+ what +:+ Error_ e).

Fixpoint import_tags (eu : ExportUpload) (newID : Z) (tags : list (string * string)) (res : ImportResult) : LibM ImportResult :=
  match tags with
  | [] => mret res
  | (k, v) :: tags =>
      r ← try (insert_tag newID k v);
      import_tags eu newID tags (match r with Ok _ => res | Err e => report eu ("tag " +:+ k +:+ ": ") e res end)
  end.

Definition top_level (name : string) (ownerID : Z) (c : CollectionRow) : bool :=
  String.eqb (cl_Name c) name && (cl_CreatedBy c =? ownerID) && bool_decide (cl_ParentID c = None).

Definition findOrCreateCollection (name : string) (ownerID : Z) : LibM Z :=
  r ← try (read_row (fun l => cl_ID <$> List.find (top_level name ownerID) (lb_collections l)));
  match r with
  | Ok id => mret id
  | Err e =>
      if negb (errors_is e ErrNoRows) then fail e else
      write_if (fun l =>
        let id := lb_seq_collections l + 1 in
        constrained true true (library_user l ownerID)
          (id, set_lb_collections (lb_collections l ++ [mkCollection id name "" None ownerID (lb_stamp l) (lb_stamp l)])
                 (set_lb_seq_collections id l)))
  end.

Definition insert_membership (cid newID : Z) : LibM unit :=
  write_if (fun l =>
    let same f := in_collection cid f && (cf_upload_id f =? newID) in
    constrained true (negb (existsb same (lb_files l))) (collection_exists l cid && upload_exists l newID)
      (tt, set_lb_files (lb_files l ++ [mkCollectionFile cid newID (lb_stamp l)]) l)).

Fixpoint import_collections (eu : ExportUpload) (ownerID newID : Z) (names : list string) (res : ImportResult) : LibM ImportResult :=
  match names with
  | [] => mret res
  | name :: names =>
      r ← try (findOrCreateCollection name ownerID);
      res ← match r with
            | Err e => mret (report eu ("collection " +:+ name +:+ ": ") e res)
            | Ok cid =>
                r ← try (insert_membership cid newID);
                mret (match r with
                      | Err e => if isUniqueViolation e then res else report eu ("collection " +:+ name +:+ " membership: ") e res
                      | Ok _ => res
                      end)
            end;
      import_collections eu ownerID newID names res
  end.

(** The owner by address, else the importer. *)
Definition owner_of (emailToID : gmap string Z) (importerID : Z) (eu : ExportUpload) (res : ImportResult) : Z * ImportResult :=
  match emailToID !! ToLower (eu_OwnerEmail eu) with
  | Some id => if negb (String.eqb (eu_OwnerEmail eu) "") then (id, res) else (importerID, count_fallback res)
  | None => (importerID, count_fallback res)
  end.

(** The summary so far and the error the record ended in. *)
Definition importOne (now : Z) (eu : ExportUpload) (importerID : Z) (emailToID : gmap string Z) (res : ImportResult) : LibM (ImportResult * option error) :=
  if String.eqb (eu_UUID eu) "" then mret (res, Some (ENew "record has no uuid")) else
  let '(ownerID, res) := owner_of emailToID importerID eu res in
  r ← try (read (fun l => existsb (fun u => String.eqb (u_uuid u) (eu_UUID eu)) (lb_uploads l)));
  match r with
  | Err e => mret (res, Some e)
  | Ok true => mret (count_skipped res, None)
  | Ok false =>
      let createdAt := if eu_CreatedAt eu =? zero_time then now else eu_CreatedAt eu in
      r ← try (write_if (insert_upload eu ownerID createdAt));
      match r with
      | Err e => mret (res, Some e)
      | Ok newID =>
          let res := count_imported res in
          res ← import_tags eu newID (flat_map (fun '(k, vs) => map (pair k) vs) (visit (eu_Tags eu))) res;
          res ← import_collections eu ownerID newID (eu_Collections eu) res;
          mret (res, None)
      end
  end.

(** [bufio.Scanner] gives up on a line that does not fit its buffer. *)
Definition too_long (line : string) : bool := 8 * 1024 * 1024 <=? Z.of_nat (String.length line).

Fixpoint import_lines (now importerID : Z) (emailToID : gmap string Z) (lines : list string) (headerSeen : bool) (res : ImportResult) : LibM ImportResult :=
  match lines with
  | [] => if headerSeen then mret res else fail (ENew "empty or invalid export (no header line found)")
  | line :: lines =>
      if too_long line then fail (ENew "reading export: bufio.Scanner: token too long") else
      let line := TrimSpace line in
      if String.eqb line "" then import_lines now importerID emailToID lines headerSeen res else
      if negb headerSeen then
        match Unmarshal_header line with
        | Err _ => fail (ENew "not a valid %s: first line is not a recognised header")
        | Ok h =>
            if negb (String.eqb (eh_Kind h) uploadsExportKind) then fail (ENew "not a valid %s: first line is not a recognised header") else
            if negb (eh_Schema h =? uploadsExportSchema) then fail (ENew "unsupported export schema %d (this build supports %d)") else
            import_lines now importerID emailToID lines true res
        end
      else
        match Unmarshal_upload line with
        | Err e => import_lines now importerID emailToID lines headerSeen (add_error ("uuid ?: bad JSON line: " +:+ Error_ e) res)
        | Ok eu =>
            '(res, err) ← importOne now eu importerID emailToID res;
            import_lines now importerID emailToID lines headerSeen
              (match err with Some e => add_error ("uuid " +:+ eu_UUID eu +:+ ": " +:+ Error_ e) res | None => res end)
        end
  end.

Definition ImportUploads (now : Z) (body : string) (importerID : Z) : LibM ImportResult :=
  emailToID ← read (fun l => idByEmail (lb_users l));
  import_lines now importerID emailToID (Split body newline) false (mkImport 0 0 0 []).
End import.

(** ** The handlers *)

Record BackupDesk := mkBackupDesk { bd_lib : World Library; bd_told : list told }.

Definition put_bd_lib (v : World Library) (s : BackupDesk) : BackupDesk := mkBackupDesk v (bd_told s).
Definition catalog {A} (m : LibM A) : ST error BackupDesk A := zoom bd_lib put_bd_lib m.
Definition audit_backup (eventType : string) (callerID : Z) (detail : string) : ST Refusal BackupDesk unit :=
  modify (fun s => mkBackupDesk (bd_lib s) (bd_told s ++ [Audited eventType "warn" (Some callerID) detail])).

Section handlers.
Context {codec : ExportCodec} {mb : Mailbox}.

(** The status is 200 whatever happens; the lines are the body. *)
Definition AdminExportUploads (written_ok : nat -> option error) (flushed : option error) (now callerID : Z) : ST Refusal BackupDesk (list string) :=
  r ← attempt (catalog (ExportUploads written_ok flushed now));
  let '(lines, (n, err)) := match r with Ok x => x | Err e => ([], (0, Some e)) end in
  audit_backup "uploads_exported" callerID
    (match err with Some e => "count=" +:+ pretty n +:+ " error=" +:+ Error_ e | None => "count=" +:+ pretty n end) ;;
  mret lines.

Definition AdminImportUploads (visit : TagMap -> list (string * list string)) (now importerID : Z) (body : string) : ST Refusal BackupDesk (Z * ImportResult) :=
  res ← or_refuse (fun err => jsonError (Error_ err) 400) (catalog (ImportUploads visit now body importerID));
  audit_backup "uploads_imported" importerID
    ("imported=" +:+ pretty (im_Imported res) +:+ " skipped=" +:+ pretty (im_Skipped res) +:+ " owner_fallback=" +:+ pretty (im_OwnerFallback res) +:+
     " errors=" +:+ pretty (Z.of_nat (length (im_Errors res)))) ;;
  answer 200 res.
End handlers.
