(* ===== verification/BackupLaws.v ===== *)
(** * A restored catalog is the exported one

    An export of a healthy instance, imported by a healthy instance that knows
    the owners, restores every upload with its tags and collections; importing it
    once more changes nothing. *)

From stdpp Require Import gmap strings pretty sorting.
From Stdlib Require Import Ascii.
From S2P Require Import Prelude GoLib Sql Schema Stmt Clock Users Library Tags Collections TagLaws Http Front Calendar Backup.

Open Scope Z_scope.

(** ** Sorting and filtering *)

(** Sorting keeps the order of rows that are already in order. *)
Lemma insert_keeps {A} (p : A -> bool) le (x : A) t : (p x = true -> forall y, In y t -> p y = true -> le x y = true) ->
  List.filter p (insert_by le x t) = List.filter p (x :: t).
Proof.
  induction t as [|y t IH]; intros H; [done|]. cbn [insert_by]. destruct (le x y) eqn:E; [done|].
  cbn [List.filter] in *. rewrite IH by (intros Hp z Hz; apply H; [done|by right]).
  destruct (p x) eqn:Hx, (p y) eqn:Hy; try done. rewrite (H eq_refl y (or_introl eq_refl) Hy) in E. done.
Qed.

Lemma order_keeps {A} (p : A -> bool) le (t : list A) : StronglySorted (fun a b => p a = true -> p b = true -> le a b = true) t ->
  select p (order_by le t) = select p t.
Proof.
  unfold select. induction 1 as [|x t Ht IH Hx]; [done|]. change (order_by le (x :: t)) with (insert_by le x (order_by le t)).
  rewrite insert_keeps.
  - cbn. by rewrite IH.
  - intros Hp y Hy%order_by_in Hpy. rewrite List.Forall_forall in Hx. by apply Hx.
Qed.

Lemma select_same {A} (p q : A -> bool) t : (forall x, In x t -> p x = q x) -> select p t = select q t.
Proof.
  unfold select. induction t as [|x t IH]; cbn; [done|]. intros H. rewrite (H x) by (by left). rewrite IH by (intros; apply H; by right). done.
Qed.

Lemma text_le_cons c a d b : text_le (String c a) (String d b) = ((N_of_ascii c <? N_of_ascii d)%N || ((N_of_ascii c =? N_of_ascii d)%N && text_le a b)).
Proof.
  unfold text_le. cbn [String.compare]. unfold Ascii.compare.
  destruct (N.compare_spec (N_of_ascii c) (N_of_ascii d)) as [E|E|E].
  - rewrite E, N.ltb_irrefl, N.eqb_refl. done.
  - by rewrite (proj2 (N.ltb_lt _ _)).
  - rewrite (proj2 (N.ltb_ge _ _)) by lia. rewrite (proj2 (N.eqb_neq _ _)) by lia. done.
Qed.

Lemma text_le_trans a : forall b c, text_le a b = true -> text_le b c = true -> text_le a c = true.
Proof.
  induction a as [|x a IH]; intros [|y b] [|z c]; try done. rewrite !text_le_cons, !orb_true_iff, !andb_true_iff, !N.ltb_lt, !N.eqb_eq.
  intros [?|[? ?]] [?|[? ?]]; try (left; lia). right. split; [congruence|]. by eapply IH.
Qed.

Lemma text_le_total a : forall b, text_le a b = false -> text_le b a = true.
Proof.
  induction a as [|x a IH]; intros [|y b]; try done. rewrite !text_le_cons, !orb_true_iff, orb_false_iff, andb_true_iff, andb_false_iff, !N.ltb_lt, N.ltb_ge, !N.eqb_eq, N.eqb_neq.
  intros [H1 [H2|H2]]; [left; lia|]. destruct (N.eq_dec (N_of_ascii x) (N_of_ascii y)); [right; auto|left; lia].
Qed.

(** A stable sort commutes with a selection. *)
Section stable.
Context {A : Type} (le : A -> A -> bool).
Context (le_trans : forall a b c, le a b = true -> le b c = true -> le a c = true) (le_total : forall a b, le a b = false -> le b a = true).

Lemma insert_sorts x t : StronglySorted (fun a b => le a b = true) t -> StronglySorted (fun a b => le a b = true) (insert_by le x t).
Proof.
  induction 1 as [|y t Ht IH Hy]; cbn; [by repeat constructor|]. destruct (le x y) eqn:E.
  - constructor; [by constructor|]. constructor; [done|]. eapply List.Forall_impl; [|exact Hy]. intros z. by apply le_trans.
  - constructor; [done|]. rewrite List.Forall_forall in *. intros z [->|Hz]%insert_by_in; [by apply le_total|by apply Hy].
Qed.

Lemma order_sorts t : StronglySorted (fun a b => le a b = true) (order_by le t).
Proof. induction t as [|x t IH]; [constructor|]. by apply insert_sorts. Qed.

Lemma select_insert p x t : StronglySorted (fun a b => le a b = true) t ->
  select p (insert_by le x t) = if p x then insert_by le x (select p t) else select p t.
Proof.
  unfold select. induction 1 as [|y t Ht IH Hy]; cbn [insert_by List.filter]; [by destruct (p x)|]. destruct (le x y) eqn:E; cbn [List.filter].
  - destruct (p x) eqn:Hx; [|done]. destruct (p y) eqn:Hp; cbn [insert_by]; [by rewrite E|].
    destruct (List.filter p t) as [|z l] eqn:Ef; [done|]. cbn. assert (In z t) as Hz by (apply (filter_In p); rewrite Ef; by left).
    rewrite List.Forall_forall in Hy. by rewrite (le_trans x y z E (Hy z Hz)).
  - rewrite IH. destruct (p y) eqn:Hp; [|done]. destruct (p x); [|done]. cbn. by rewrite E.
Qed.

Lemma select_order p t : select p (order_by le t) = order_by le (select p t).
Proof.
  induction t as [|x t IH]; [done|]. change (order_by le (x :: t)) with (insert_by le x (order_by le t)).
  rewrite select_insert by apply order_sorts. unfold select in *. cbn [List.filter]. destruct (p x); [|done]. rewrite IH. done.
Qed.
End stable.

Lemma name_order_trans a b c : name_order a b = true -> name_order b c = true -> name_order a c = true.
Proof.
  unfold name_order. rewrite !orb_true_iff, !andb_true_iff, !Z.ltb_lt, !Z.eqb_eq. intros [?|[? H1]] [?|[? H2]]; try (left; lia).
  right. split; [lia|]. by eapply text_le_trans.
Qed.

Lemma name_order_total a b : name_order a b = false -> name_order b a = true.
Proof.
  unfold name_order. rewrite orb_false_iff, andb_false_iff, orb_true_iff, andb_true_iff, !Z.ltb_lt, Z.ltb_ge, !Z.eqb_eq, Z.eqb_neq.
  intros [H [H1|H1%text_le_total]]; [left; lia|]. destruct (Z.eq_dec (fst b) (fst a)); [by right|left; lia].
Qed.

(** ** What is exported of a row *)

Definition tags_of (l : Library) (u : Z) : TagMap := collect (map tag_pair (order_by key_then_id (select (of_upload u) (lb_tags l)))).
Definition names_of (l : Library) (u : Z) : list string := map snd (order_by name_order (select (fun m => fst m =? u) (memberships l))).

Lemma tags_of_read l u : fst (GetTags u (mkWorld l [])) = Ok (tags_of l u).
Proof. done. Qed.

Abbreviation ids_rise := (StronglySorted (fun a b : Tag => ft_ID a <= ft_ID b)).

Lemma tags_of_lookup l u k : ids_rise (lb_tags l) ->
  tags_of l u !! k = some_values (map ft_Value (List.filter (fun r => String.eqb (ft_Key r) k) (select (of_upload u) (lb_tags l)))).
Proof. intros H. unfold tags_of. rewrite collect_lookup, values_of_rows, order_keeps_values; [done|]. by apply StronglySorted_select. Qed.

Lemma tag_order_keeps u k t : ids_rise t ->
  select (fun x => of_upload u x && String.eqb (ft_Key x) k) (order_by tag_order t) = select (fun x => of_upload u x && String.eqb (ft_Key x) k) t.
Proof.
  intros H. apply order_keeps. eapply StronglySorted_impl; [|exact H]. intros a b Hab [Ha Ka]%andb_prop [Hb Kb]%andb_prop.
  unfold of_upload in *. apply Z.eqb_eq in Ha, Hb. apply String.eqb_eq in Ka, Kb. unfold tag_order, key_then_id.
  rewrite Ha, Hb, Ka, Kb, Clock.compare_refl, Z.eqb_refl. destruct (Z.leb_spec (ft_ID a) (ft_ID b)); [|lia]. by rewrite orb_true_r.
Qed.

(** The tags read for a batch are those of each upload. *)
Lemma batch_tags l ids u : ids_rise (lb_tags l) -> In u ids ->
  collect (map tag_pair (select (of_upload u) (order_by tag_order (select (fun t => existsb (Z.eqb (ft_UploadID t)) ids) (lb_tags l))))) = tags_of l u.
Proof.
  intros H Hu. apply map_eq. intros k. rewrite tags_of_lookup, collect_lookup, values_of_rows by done. do 2 f_equal.
  change (List.filter ?p ?t) with (select p t). rewrite !select_select, tag_order_keeps by by apply StronglySorted_select.
  rewrite select_select. apply select_same. intros t _. destruct (of_upload u t) eqn:E; [|by rewrite andb_false_r].
  unfold of_upload in E. apply Z.eqb_eq in E. replace (existsb _ ids) with true; [done|]. symmetry. apply existsb_exists. exists u.
  split; [done|]. by apply Z.eqb_eq.
Qed.

Lemma batch_names l ids u : In u ids ->
  map snd (select (fun m => fst m =? u) (order_by name_order (select (fun m => existsb (Z.eqb (fst m)) ids) (memberships l)))) = names_of l u.
Proof.
  intros Hu. unfold names_of. rewrite (select_order _ name_order_trans name_order_total), select_select. f_equal. f_equal.
  apply select_same. intros m _. destruct (Z.eqb_spec (fst m) u) as [->|]; [|by rewrite andb_false_r].
  rewrite andb_true_r. apply existsb_exists. exists u. split; [done|]. apply Z.eqb_refl.
Qed.

Lemma names_of_in l u name : In name (names_of l u) <-> In (u, name) (memberships l).
Proof.
  unfold names_of. rewrite in_map_iff. split.
  - intros ([i n] & <- & H). rewrite order_by_in, in_select in H. cbn in *. destruct H as [H ->%Z.eqb_eq]. done.
  - intros H. exists (u, name). split; [done|]. rewrite order_by_in, in_select. split; [done|]. apply Z.eqb_refl.
Qed.

(** ** The export *)

Section export.
Context {codec : ExportCodec}.

Definition ids_ascend (us : list Upload) : Prop := StronglySorted (fun a b => u_id a < u_id b) us.

(** The record of an upload, whatever batch it comes in. *)
Definition record_of (l : Library) (u : Upload) : ExportUpload := export_record (emailByID (lb_users l)) (tags_of l) (names_of l) u.

Lemma or_end_read {A} n (f : Library -> A) k l : or_end n (read f) k (mkWorld l []) = k (f l) (mkWorld l []).
Proof. done. Qed.

Lemma or_end_tags n ids k l : or_end n (tagsForUploads ids) k (mkWorld l []) =
  k (fun uid => collect (map tag_pair (select (of_upload uid) (order_by tag_order (select (fun t => existsb (Z.eqb (ft_UploadID t)) ids) (lb_tags l)))))) (mkWorld l []).
Proof. done. Qed.

Lemma or_end_names n ids k l : or_end n (collectionsForUploads ids) k (mkWorld l []) =
  k (fun uid => map snd (select (fun m => fst m =? uid) (order_by name_order (select (fun m => existsb (Z.eqb (fst m)) ids) (memberships l))))) (mkWorld l []).
Proof. done. Qed.

Lemma export_rows_all line batch n : export_rows (fun _ => None) line batch n = (map line batch, (n + Z.of_nat (length batch), None)).
Proof.
  revert n. induction batch as [|u batch IH]; intros n; cbn [export_rows map length]; [by rewrite Z.add_0_r|]. rewrite IH. do 2 f_equal. lia.
Qed.

(** The next batch is the head of the rows that are left. *)
Lemma next_batch pre rest lastID : ids_ascend (pre ++ rest) -> (forall u, In u pre -> u_id u <= lastID) -> (forall u, In u rest -> lastID < u_id u) ->
  limit exportBatchSize (order_by (fun a b => u_id a <=? u_id b) (select (fun u => lastID <? u_id u) (pre ++ rest))) = firstn (Z.to_nat exportBatchSize) rest.
Proof.
  intros Hs Hpre Hrest. unfold limit. f_equal. rewrite select_app, select_none, select_all_in.
  - apply order_by_sorted_id. apply StronglySorted_app in Hs as (_ & _ & Hs). eapply StronglySorted_impl; [|exact Hs]. intros a b. cbn. lia.
  - intros u Hu. apply Z.ltb_lt. by apply Hrest.
  - intros u Hu. apply Z.ltb_ge. by apply Hpre.
Qed.

Lemma last_bounds us x : ids_ascend us -> last us = Some x -> forall u, In u us -> u_id u <= u_id x.
Proof.
  induction 1 as [|y us Hs IH Hy]; [done|]. intros Hx u [<-|Hu].
  - destruct us as [|z us]; [by injection Hx as ->|]. rewrite List.Forall_forall in Hy. apply Z.lt_le_incl, Hy.
    change (last (z :: us) = Some x) in Hx. apply last_Some in Hx as [l' ->]. apply in_app_iff. by right; left.
  - apply IH; [|done]. by destruct us.
Qed.

Lemma after_last a b x : ids_ascend (a ++ b) -> last a = Some x -> forall u, In u b -> u_id x < u_id u.
Proof.
  intros Hs [l' ->]%last_Some u Hu. apply StronglySorted_app in Hs as (Hs & _ & _). apply Hs; apply list_elem_of_In; [|done].
  apply in_app_iff. by right; left.
Qed.

Lemma export_batches_all l : ids_ascend (lb_uploads l) -> ids_rise (lb_tags l) ->
  forall fuel pre rest lastID n, lb_uploads l = pre ++ rest -> (length rest < fuel)%nat ->
    (forall u, In u pre -> u_id u <= lastID) -> (forall u, In u rest -> lastID < u_id u) ->
    export_batches (fun _ => None) None fuel (emailByID (lb_users l)) lastID n (mkWorld l []) =
    (Ok (map (fun u => Marshal_upload (record_of l u)) rest, (n + Z.of_nat (length rest), None)), mkWorld l []).
Proof.
  intros Hs Ht. induction fuel as [|fuel IH]; intros pre rest lastID n Hl Hf Hpre Hrest; [lia|]. cbn [export_batches].
  rewrite or_end_read, Hl, next_batch by (rewrite <- ?Hl; done). rewrite Hl in Hs. set (k := Z.to_nat exportBatchSize).
  destruct (last (firstn k rest)) as [x|] eqn:Ex.
  2:{ apply last_None in Ex. destruct rest as [|u rest]; [by rewrite Z.add_0_r|]. by unfold k in Ex. }
  assert (rest = firstn k rest ++ skipn k rest) as Hr by (by rewrite firstn_skipn).
  rewrite or_end_tags, or_end_names, export_rows_all. cbv beta iota zeta.
  rewrite Hr, app_assoc in Hs, Hl. pose proof (StronglySorted_app_1_l _ _ _ Hs) as Hs1.
  erewrite bind_run; [|eapply IH; [exact Hl|..]].
  - unfold mret, ST_ret. do 3 f_equal.
    + rewrite Hr at 3. rewrite map_app. f_equal. apply map_ext_in. intros u Hu. unfold record_of, export_record.
      assert (In (u_id u) (map u_id (firstn k rest))) by by apply in_map. by rewrite batch_tags, batch_names.
    + f_equal. rewrite Hr at 3. rewrite length_app. lia.
  - rewrite length_skipn. destruct rest as [|u rest]; [by unfold k in Ex|]. unfold k. cbn [length] in *. unfold exportBatchSize. lia.
  - intros u [Hu|Hu]%in_app_iff; [|by eapply last_bounds; [|exact Ex|]; [by eapply StronglySorted_app_1_r|]].
    pose proof (Hpre u Hu). assert (In x rest) as Hx%Hrest; [|lia]. rewrite Hr. apply in_app_iff. left.
    apply last_Some in Ex as [l' ->]. apply in_app_iff. by right; left.
  - intros u Hu. eapply (after_last (pre ++ firstn k rest)); [exact Hs| |done]. rewrite last_app, Ex. done.
Qed.

Lemma ExportUploads_all l now : ids_ascend (lb_uploads l) -> (forall u, In u (lb_uploads l) -> 0 < u_id u) -> ids_rise (lb_tags l) ->
  ExportUploads (fun _ => None) None now (mkWorld l []) =
  (Ok (Marshal_header (mkHeader uploadsExportKind uploadsExportSchema now (Z.of_nat (length (lb_uploads l)))) :: map (fun u => Marshal_upload (record_of l u)) (lb_uploads l),
       (Z.of_nat (length (lb_uploads l)), None)), mkWorld l []).
Proof.
  intros Hs Hpos Ht. unfold ExportUploads. rewrite !or_end_read. cbv zeta. erewrite bind_run; [|done].
  erewrite bind_run; [|eapply (export_batches_all l Hs Ht _ [] (lb_uploads l)); [done|cbn; lia|done|exact Hpos]]. done.
Qed.
End export.

(** ** The import of one record *)

(** Collection ids are unique, and no larger one is referred to. *)
Definition shelves (l : Library) : Prop :=
  List.NoDup (map cl_ID (lb_collections l)) /\ (forall c, In c (lb_collections l) -> cl_ID c <= lb_seq_collections l) /\
  (forall f, In f (lb_files l) -> cf_collection_id f <= lb_seq_collections l).

(** The tables the collections are not in. *)
Definition elsewhere (l l' : Library) : Prop :=
  lb_uploads l' = lb_uploads l /\ lb_seq_uploads l' = lb_seq_uploads l /\ lb_users l' = lb_users l /\ lb_tags l' = lb_tags l /\ lb_seq_tags l' = lb_seq_tags l.

#[export] Instance elsewhere_preorder : PreOrder elsewhere.
Proof. split; [by intros l|]. intros a b c (?&?&?&?&?) (?&?&?&?&?). unfold elsewhere. split_and!; congruence. Qed.

Lemma memberships_in l u name : In (u, name) (memberships l) <->
  exists f c, In f (lb_files l) /\ In c (lb_collections l) /\ cf_upload_id f = u /\ cl_ID c = cf_collection_id f /\ cl_Name c = name.
Proof.
  unfold memberships. rewrite in_flat_map. split.
  - intros (f & Hf & (c & [= <- <-] & [Hc Hi%Z.eqb_eq]%in_select)%in_map_iff). eauto 10.
  - intros (f & c & Hf & Hc & <- & Hi & <-). exists f. split; [done|]. apply in_map_iff. exists c. split; [done|].
    apply in_select. split; [done|]. by apply Z.eqb_eq.
Qed.

Lemma NoDup_key_inj {A} (k : A -> Z) t a b : List.NoDup (map k t) -> In a t -> In b t -> k a = k b -> a = b.
Proof.
  induction t as [|x t IH]; [done|]. cbn. intros [Hx Ht]%NoDup_cons_iff [->|Ha] [->|Hb] He; [done|..|auto].
  - destruct Hx. rewrite He. by apply in_map.
  - destruct Hx. rewrite <- He. by apply in_map.
Qed.

Lemma findOrCreate_ok name owner l : shelves l -> library_user l owner = true ->
  exists cid l1, findOrCreateCollection name owner (mkWorld l []) = (Ok cid, mkWorld l1 []) /\ shelves l1 /\ elsewhere l l1 /\
    (exists c, In c (lb_collections l1) /\ cl_ID c = cid /\ cl_Name c = name) /\
    (forall u n, In (u, n) (memberships l1) <-> In (u, n) (memberships l)).
Proof.
  intros (Hn & Hc & Hf) Ho. unfold findOrCreateCollection. erewrite bind_run; [|unfold try; rewrite read_row_healthy by done; reflexivity].
  cbn [tables]. destruct (List.find (top_level name owner) (lb_collections l)) as [c|] eqn:E; cbn [fmap option_fmap option_map].
  - apply find_some in E as [Hin He]. unfold top_level in He. apply andb_prop in He as [[He _]%andb_prop _]. apply String.eqb_eq in He.
    exists (cl_ID c), l. split_and!; [done..| |done]. by exists c.
  - change (negb _) with false. cbv iota. rewrite write_if_healthy by done. cbn [tables]. rewrite Ho. eexists _, _. split; [reflexivity|].
    split; [|split; [done|split]].
    + split_and!; cbn.
      * rewrite map_app. apply List.NoDup_app; [done|constructor; [by intros []|constructor]|].
        intros i (c & <- & Hin%Hc)%in_map_iff [Hi|[]]. cbn in Hi. lia.
      * intros c [Hin|[<-|[]]]%in_app_iff; [apply Hc in Hin; lia|cbn; lia].
      * intros f Hin%Hf. lia.
    + eexists. split; [apply in_app_iff; right; left; reflexivity|done].
    + intros u n. rewrite !memberships_in. cbn. split; [|intros (f & c & H1 & H2 & H3); exists f, c; rewrite in_app_iff; tauto].
      intros (f & c & Hin & [H2|[<-|[]]]%in_app_iff & H3 & H4 & H5); [by eauto 10|]. apply Hf in Hin. cbn in H4. lia.
Qed.

Lemma insert_membership_ok cid newID name l : shelves l -> upload_exists l newID = true ->
  (exists c, In c (lb_collections l) /\ cl_ID c = cid /\ cl_Name c = name) ->
  exists r l1, insert_membership cid newID (mkWorld l []) = (r, mkWorld l1 []) /\ (r = Ok tt \/ r = Err (ESentinel ErrUniqueViolation)) /\
    shelves l1 /\ elsewhere l l1 /\ (forall u n, In (u, n) (memberships l1) <-> In (u, n) (memberships l) \/ u = newID /\ n = name).
Proof.
  intros (Hn & Hc & Hf) Hu (c & Hin & Hi & Hname). unfold insert_membership. rewrite write_if_healthy by done. cbn [tables].
  replace (collection_exists l cid) with true.
  2:{ symmetry. apply existsb_exists. exists c. split; [done|]. by apply Z.eqb_eq. }
  rewrite Hu. destruct (existsb _ (lb_files l)) eqn:E; cbn [negb constrained andb].
  - eexists _, _. split; [reflexivity|]. split; [by right|]. split; [done|]. split; [done|]. intros u n. split; [by left|].
    intros [H|[-> ->]]; [done|]. apply existsb_exists in E as (f & Hinf & [Ef%Z.eqb_eq En%Z.eqb_eq]%andb_prop). apply memberships_in.
    exists f, c. cbn in Ef. split_and!; congruence.
  - eexists _, _. split; [reflexivity|]. split; [by left|]. split; [|split; [done|]].
    + split_and!; cbn; [done..|]. intros f [Hinf|[<-|[]]]%in_app_iff; [by apply Hf|]. cbn. rewrite <- Hi. by apply Hc.
    + intros u n. rewrite !memberships_in. cbn. split.
      * intros (f & c' & [Hinf|[<-|[]]]%in_app_iff & Hinc & <- & Hic & <-); [left; by eauto 10|]. right. cbn in *. split; [done|].
        rewrite <- Hname. f_equal. eapply (NoDup_key_inj cl_ID); [done..|congruence].
      * intros [(f & c' & Hinf & Hrest)|[-> ->]]; [exists f, c'; rewrite in_app_iff; tauto|].
        eexists _, c. split; [apply in_app_iff; right; left; reflexivity|]. done.
Qed.

Definition tagged (newID : Z) (kvs : list (string * string)) (l : Library) : Library :=
  set_lb_tags (lb_tags l ++ numbered newID (lb_seq_tags l) (lb_stamp l) kvs) (set_lb_seq_tags (lb_seq_tags l + Z.of_nat (length kvs)) l).

Lemma tagged_app newID a b l : tagged newID b (tagged newID a l) = tagged newID (a ++ b) l.
Proof.
  unfold tagged, set_lb_tags, set_lb_seq_tags, lb_stamp. cbn. f_equal; [|rewrite length_app; lia].
  by rewrite numbered_app, app_assoc.
Qed.

Lemma import_tags_ok eu newID kvs res : forall l, upload_exists l newID = true ->
  import_tags eu newID kvs res (mkWorld l []) = (Ok res, mkWorld (tagged newID kvs l) []).
Proof.
  induction kvs as [|[k v] kvs IH]; intros l Hu; cbn [import_tags].
  - unfold tagged. cbn. rewrite app_nil_r, Z.add_0_r. by destruct l.
  - erewrite bind_run; [|unfold try, insert_tag; rewrite write_if_healthy by done; cbn [tables]; rewrite Hu; reflexivity].
    cbv iota beta. change (set_tables _ _) with (mkWorld (tagged newID [(k, v)] l) []). rewrite IH by done. by rewrite tagged_app.
Qed.

Lemma import_collections_ok eu owner newID names res : forall l, shelves l -> library_user l owner = true -> upload_exists l newID = true ->
  exists l', import_collections eu owner newID names res (mkWorld l []) = (Ok res, mkWorld l' []) /\ shelves l' /\ elsewhere l l' /\
    (forall u n, In (u, n) (memberships l') <-> In (u, n) (memberships l) \/ u = newID /\ In n names).
Proof.
  induction names as [|name names IH]; intros l Hs Ho Hu; cbn [import_collections].
  - exists l. split_and!; [done..|]. intros u n. cbn. tauto.
  - destruct (findOrCreate_ok name owner l Hs Ho) as (cid & l1 & E1 & Hs1 & H1 & Hc & Hm1).
    assert (upload_exists l1 newID = true) as Hu1 by (unfold upload_exists in *; by rewrite (proj1 H1)).
    destruct (insert_membership_ok cid newID name l1 Hs1 Hu1 Hc) as (r & l2 & E2 & Hr & Hs2 & H2 & Hm2).
    destruct (IH l2) as (l3 & E3 & Hs3 & H3 & Hm3); [done|..].
    { unfold library_user in *. by rewrite (proj1 (proj2 (proj2 H2))), (proj1 (proj2 (proj2 H1))). }
    { unfold upload_exists in *. by rewrite (proj1 H2). }
    exists l3. split; [|split; [done|split; [by transitivity l1; [|transitivity l2]|]]].
    + erewrite bind_run; [|unfold try; rewrite E1; reflexivity]. cbv iota beta.
      erewrite bind_run; [exact E3|]. erewrite bind_run; [|unfold try; rewrite E2; reflexivity].
      destruct Hr as [->| ->]; reflexivity.
    + intros u n. rewrite Hm3, Hm2, Hm1. cbn. intuition congruence.
Qed.

(** What the import of a record leaves in the tables. *)
Definition stored (owner : Z) (eu : ExportUpload) (kvs : list (string * string)) (v : Upload) (l l' : Library) : Prop :=
  lb_uploads l' = lb_uploads l ++ [v] /\ lb_seq_uploads l' = u_id v /\ u_id v = lb_seq_uploads l + 1 /\ lb_users l' = lb_users l /\
  lb_tags l' = lb_tags l ++ numbered (u_id v) (lb_seq_tags l) (lb_stamp l) kvs /\
  lb_seq_tags l' = lb_seq_tags l + Z.of_nat (length kvs) /\ shelves l' /\
  (forall u n, In (u, n) (memberships l') <-> In (u, n) (memberships l) \/ u = u_id v /\ In n (eu_Collections eu)).

Definition row_of (eu : ExportUpload) (owner : Z) (v : Upload) : Prop :=
  exists id vis st, parse_visibility (eu_Visibility eu) = Some vis /\ parse_status (eu_Status eu) = Some st /\
    v = imported_row id eu owner (eu_CreatedAt eu) vis st.

Section import.
Context {codec : ExportCodec} {mb : Mailbox} (visit : TagMap -> list (string * list string)).

Lemma importOne_ok now eu importer emails res l owner : eu_UUID eu <> "" -> eu_OwnerEmail eu <> "" ->
  emails !! ToLower (eu_OwnerEmail eu) = Some owner -> ~ In (eu_UUID eu) (map u_uuid (lb_uploads l)) -> library_user l owner = true ->
  is_Some (parse_visibility (eu_Visibility eu)) -> is_Some (parse_status (eu_Status eu)) -> eu_CreatedAt eu <> zero_time -> shelves l ->
  exists v l', importOne visit now eu importer emails res (mkWorld l []) = (Ok (count_imported res, None), mkWorld l' []) /\
    row_of eu owner v /\ stored owner eu (pairs (visit (eu_Tags eu))) v l l'.
Proof.
  intros Hid Hemail Hown Hnew Hu [vis Hvis] [st Hst] Hct Hs. unfold importOne. rewrite (proj2 (String.eqb_neq _ _) Hid). unfold owner_of.
  rewrite Hown, (proj2 (String.eqb_neq _ _) Hemail). cbn [negb].
  erewrite bind_run; [|unfold try; rewrite read_healthy by done; reflexivity]. cbn [tables].
  assert (existsb (fun u => String.eqb (u_uuid u) (eu_UUID eu)) (lb_uploads l) = false) as Hex.
  { apply not_true_iff_false. intros (u & Hin & He%String.eqb_eq)%existsb_exists. apply Hnew. rewrite <- He. by apply in_map. }
  rewrite Hex. cbv beta iota zeta. rewrite (proj2 (Z.eqb_neq _ _) Hct).
  erewrite bind_run; [|unfold try; rewrite write_if_healthy by done; unfold insert_upload; cbn [tables]; rewrite Hvis, Hst, Hex, Hu; reflexivity].
  cbv beta iota zeta. set (v := imported_row _ _ _ _ _ _). set (l1 := set_lb_uploads _ _).
  assert (upload_exists l1 (u_id v) = true) as Hv.
  { unfold upload_exists. apply existsb_exists. exists v. split; [apply in_app_iff; by right; left|apply Z.eqb_refl]. }
  change (lb_seq_uploads l + 1) with (u_id v).
  erewrite bind_run; [|change (set_tables _ _) with (mkWorld l1 []); apply (import_tags_ok _ _ _ _ l1 Hv)].
  set (kvs := flat_map _ _). destruct (import_collections_ok eu owner (u_id v) (eu_Collections eu) (count_imported res) (tagged (u_id v) kvs l1))
    as (l' & E & Hs' & (H1 & H2 & H3 & H4 & H5) & Hm); [exact Hs|exact Hu|exact Hv|].
  exists v, l'. split; [by erewrite bind_run; [|exact E]|]. split; [by exists (lb_seq_uploads l + 1), vis, st|].
  unfold stored. by rewrite H1, H2, H3, H4, H5.
Qed.

(** ** Later records leave earlier ones alone *)

(** Nothing refers to an upload that is still to come. *)
Definition roomy (l : Library) : Prop :=
  shelves l /\ (forall t, In t (lb_tags l) -> ft_UploadID t <= lb_seq_uploads l) /\
  (forall u n, In (u, n) (memberships l) -> u <= lb_seq_uploads l).

Definition keeps_upload (u : Z) (l l' : Library) : Prop :=
  tags_of l' u = tags_of l u /\ (forall n, In (u, n) (memberships l') <-> In (u, n) (memberships l)).

Lemma stored_roomy owner eu kvs v l l' : roomy l -> stored owner eu kvs v l l' -> roomy l'.
Proof.
  intros (_ & Ht & Hm) (_ & Es & Ev & _ & Et & _ & Hs & Em). split; [done|]. split.
  - intros t. rewrite Et, in_app_iff. intros [Hin%Ht|[_ Hin]%numbered_above]; lia.
  - intros u n [Hin%Hm|[-> _]]%Em; lia.
Qed.

Lemma stored_keeps owner eu kvs v l l' u : u <= lb_seq_uploads l -> stored owner eu kvs v l l' -> keeps_upload u l l'.
Proof.
  intros Hu (_ & _ & Ev & _ & Et & _ & _ & Em). split.
  - unfold tags_of. rewrite Et, select_app, (select_none _ (numbered _ _ _ _)), app_nil_r; [done|].
    intros t [_ Hin]%numbered_above. unfold of_upload. apply Z.eqb_neq. lia.
  - intros n. rewrite Em. split; [intros [H|[-> _]]; [done|lia]|by left].
Qed.

Lemma keeps_upload_trans u l l1 l2 : keeps_upload u l l1 -> keeps_upload u l1 l2 -> keeps_upload u l l2.
Proof. intros [H1 H2] [H3 H4]. split; [congruence|]. intros n. by rewrite H4, H2. Qed.

(** The visited pairs of a map are its content. *)
Lemma find_visited (m : TagMap) l k : l ≡ₚ map_to_list m -> List.find (fun kv => String.eqb (fst kv) k) l = (fun vs => (k, vs)) <$> m !! k.
Proof.
  intros Hp. destruct (List.find _ l) as [[k' vs]|] eqn:E.
  - apply find_some in E as [Hin He]. apply String.eqb_eq in He. cbn in He. subst k'. apply list_elem_of_In in Hin.
    rewrite Hp, elem_of_map_to_list in Hin. by rewrite Hin.
  - destruct (m !! k) as [vs|] eqn:Em; [|done]. apply elem_of_map_to_list in Em. rewrite <- Hp in Em. apply list_elem_of_In in Em.
    eapply find_none in E; [|exact Em]. cbn in E. by rewrite String.eqb_refl in E.
Qed.

Lemma visited_values (m : TagMap) l k : l ≡ₚ map_to_list m -> values_of k (pairs l) = default [] (m !! k).
Proof.
  intros Hp. rewrite values_pairs, (find_visited m) by first [done|rewrite Hp; apply NoDup_ListNoDup, NoDup_fst_map_to_list].
  by destruct (m !! k).
Qed.

(** A record in the tables. *)
Definition carried (l : Library) (owner : Z) (eu : ExportUpload) (v : Upload) : Prop :=
  row_of eu owner v /\ tags_of l (u_id v) = eu_Tags eu /\ (forall n, In (u_id v, n) (memberships l) <-> In n (eu_Collections eu)).

Lemma carried_keeps l l' owner eu v : keeps_upload (u_id v) l l' -> carried l owner eu v -> carried l' owner eu v.
Proof. intros [H1 H2] (R & T & C). split; [done|]. split; [congruence|]. intros n. by rewrite H2. Qed.

Lemma stored_carries owner eu kvs v l l' : roomy l -> row_of eu owner v -> kvs ≡ₚ map_to_list (eu_Tags eu) ->
  (forall k, eu_Tags eu !! k <> Some []) -> stored owner eu (pairs kvs) v l l' -> carried l' owner eu v.
Proof.
  intros (_ & Ht & Hm) Hr Hp Hne (_ & _ & Ev & _ & Et & _ & _ & Em). split; [done|]. split.
  - unfold tags_of. rewrite Et, select_app, select_none, select_all_in.
    + apply map_eq. intros k. cbn [app]. rewrite collect_lookup, values_of_rows, order_keeps_values by apply numbered_sorted.
      rewrite <- values_of_rows, numbered_pairs, (visited_values _ _ _ Hp). specialize (Hne k). by destruct (eu_Tags eu !! k) as [[|]|].
    + intros t [_ Hin]%numbered_above. unfold of_upload. by apply Z.eqb_eq.
    + intros t Hin%Ht. unfold of_upload. apply Z.eqb_neq. lia.
  - intros n. rewrite Em. split; [intros [Hin%Hm|[_ H]]; [lia|done]|by right].
Qed.

(** ** The lines of a file *)

Definition one_line (s : string) : Prop := s <> "" /\ string_forallb (all_but newline) s = true /\ TrimSpace s = s /\ too_long s = false.

(** A record the import can restore on tables with these users. *)
Definition importable (users : list (Z * string)) (eu : ExportUpload) : Prop :=
  (one_line (Marshal_upload eu) /\ Unmarshal_upload (Marshal_upload eu) = Ok eu) /\
  eu_UUID eu <> "" /\ eu_OwnerEmail eu <> "" /\ is_Some (idByEmail users !! ToLower (eu_OwnerEmail eu)) /\
  is_Some (parse_visibility (eu_Visibility eu)) /\ is_Some (parse_status (eu_Status eu)) /\ eu_CreatedAt eu <> zero_time /\
  (forall k, eu_Tags eu !! k <> Some []).

Lemma idByEmail_user users e id : idByEmail users !! e = Some id -> existsb (fun u => fst u =? id) users = true.
Proof.
  unfold idByEmail. cut (forall m : gmap string Z, fold_left (fun out u => <[ToLower (snd u) := fst u]> out) users m !! e = Some id ->
    m !! e = Some id \/ existsb (fun u => fst u =? id) users = true).
  { intros H E. by destruct (H _ E) as [?|?]. }
  induction users as [|[i a] users IH]; intros m; cbn; [by left|]. intros [H|H]%IH; [|right; by rewrite H, orb_true_r].
  destruct (decide (ToLower a = e)) as [<-|]; [|rewrite lookup_insert_ne in H by done; by left].
  rewrite lookup_insert_eq in H. injection H as ->. right. by rewrite Z.eqb_refl.
Qed.

Lemma import_record now importer emails line lines res l : one_line line ->
  import_lines visit now importer emails (line :: lines) true res (mkWorld l []) =
  match Unmarshal_upload line with
  | Err e => import_lines visit now importer emails lines true (add_error ("uuid ?: bad JSON line: " +:+ Error_ e) res) (mkWorld l [])
  | Ok eu => ('(res, err) ← importOne visit now eu importer emails res;
      import_lines visit now importer emails lines true
        (match err with Some e => add_error ("uuid " +:+ eu_UUID eu +:+ ": " +:+ Error_ e) res | None => res end)) (mkWorld l [])
  end.
Proof.
  intros (Hne & _ & Ht & Hl). cbn [import_lines]. rewrite Hl, Ht, (proj2 (String.eqb_neq _ _) Hne). cbn [negb]. by destruct (Unmarshal_upload line).
Qed.

Definition imports (n : nat) (r : ImportResult) : ImportResult := mkImport (im_Imported r + Z.of_nat n) (im_Skipped r) (im_OwnerFallback r) (im_Errors r).
Definition skips (n : nat) (r : ImportResult) : ImportResult := mkImport (im_Imported r) (im_Skipped r + Z.of_nat n) (im_OwnerFallback r) (im_Errors r).

Definition body_lines (eus : list ExportUpload) : list string := map Marshal_upload eus ++ [""].

Context (Hvisit : forall m, visit m ≡ₚ map_to_list m).

Lemma import_all now importer eus : forall l res, roomy l -> List.Forall (importable (lb_users l)) eus ->
  List.NoDup (map eu_UUID eus) -> (forall eu, In eu eus -> ~ In (eu_UUID eu) (map u_uuid (lb_uploads l))) ->
  exists l' new, import_lines visit now importer (idByEmail (lb_users l)) (body_lines eus) true res (mkWorld l []) =
      (Ok (imports (length eus) res), mkWorld l' []) /\
    lb_uploads l' = lb_uploads l ++ new /\ lb_users l' = lb_users l /\ lb_seq_uploads l <= lb_seq_uploads l' /\
    (forall u, u <= lb_seq_uploads l -> keeps_upload u l l') /\
    List.Forall2 (fun eu v => exists owner, idByEmail (lb_users l) !! ToLower (eu_OwnerEmail eu) = Some owner /\ carried l' owner eu v) eus new.
Proof.
  induction eus as [|eu eus IH]; intros l res Hr Hi Hn Hd.
  - exists l, []. rewrite app_nil_r. split_and!; [|done..|by constructor]. unfold imports. cbn. rewrite Z.add_0_r. by destruct res.
  - apply Forall_cons_iff in Hi as [Hi His]. cbn [map] in Hn. apply NoDup_cons_iff in Hn as [Hnew Hn].
    pose proof Hi as ((Hline & Hback) & Hid & Hemail & [owner Hown] & Hvis & Hst & Hct & Htags).
    destruct (importOne_ok now eu importer (idByEmail (lb_users l)) res l owner) as (v & l1 & E1 & Hrow & S1); try done.
    { apply Hd. by left. } { by eapply idByEmail_user. } { apply Hr. }
    pose proof S1 as (Eu & Es & Ev & Ew & _).
    destruct (IH l1 (count_imported res)) as (l' & new & E & Eup & Eus & Ele & Hk & Hf).
    { by eapply stored_roomy. } { by rewrite Ew. } { done. }
    { intros eu' Hin. rewrite Eu, map_app, in_app_iff. intros [H|[H|[]]]; [by eapply Hd; [right|]|].
      apply Hnew. destruct Hrow as (i & vis & st & _ & _ & ->). cbn in H. rewrite H. by apply in_map. }
    exists l', (v :: new). split_and!.
    + unfold body_lines. cbn [map app]. rewrite import_record, Hback by done. erewrite bind_run; [|exact E1]. cbv beta iota.
      rewrite Ew in E. unfold body_lines in E. rewrite E. unfold imports, count_imported. cbn [im_Imported im_Skipped im_OwnerFallback im_Errors length].
      do 3 f_equal. lia.
    + by rewrite Eup, Eu, <- app_assoc.
    + congruence.
    + lia.
    + intros u Hu. eapply keeps_upload_trans; [by eapply stored_keeps|]. apply Hk. lia.
    + constructor; [|by rewrite Ew in Hf]. exists owner. split; [done|]. eapply carried_keeps; [apply Hk; lia|]. eapply stored_carries; [exact Hr|exact Hrow|apply Hvisit|exact Htags|exact S1].
Qed.

(** Records that are there already change nothing. *)
Lemma import_again now importer eus : forall l res, List.Forall (importable (lb_users l)) eus ->
  (forall eu, In eu eus -> In (eu_UUID eu) (map u_uuid (lb_uploads l))) ->
  import_lines visit now importer (idByEmail (lb_users l)) (body_lines eus) true res (mkWorld l []) = (Ok (skips (length eus) res), mkWorld l []).
Proof.
  induction eus as [|eu eus IH]; intros l res Hi Hd.
  - unfold skips. cbn. rewrite Z.add_0_r. by destruct res.
  - apply Forall_cons_iff in Hi as [Hi His]. pose proof Hi as ((Hline & Hback) & Hid & Hemail & [owner Hown] & _).
    unfold body_lines. cbn [map app]. rewrite import_record, Hback by done. unfold importOne, owner_of.
    rewrite (proj2 (String.eqb_neq _ _) Hid), Hown, (proj2 (String.eqb_neq _ _) Hemail). cbn [negb].
    assert (existsb (fun u => String.eqb (u_uuid u) (eu_UUID eu)) (lb_uploads l) = true) as Hex.
    { destruct (proj1 (in_map_iff _ _ _) (Hd eu (or_introl eq_refl))) as (u & E & Hin). apply existsb_exists. exists u. split; [done|]. by apply String.eqb_eq. }
    erewrite bind_run; [|erewrite bind_run; [|unfold try; rewrite read_healthy by done; reflexivity]; cbn [tables]; rewrite Hex; reflexivity].
    cbv beta iota. fold (body_lines eus). rewrite IH; [|done|by intros eu' Hin; apply Hd; right].
    unfold skips, count_skipped. cbn [im_Imported im_Skipped im_OwnerFallback im_Errors length]. do 3 f_equal. lia.
Qed.
End import.

(** ** The round trip *)

(** What encoding/json promises of values that are [plain]: their texts are UTF-8
    and their times have years of four digits. *)
Class ExportLaws (codec : ExportCodec) (plain_header : ExportHeader -> Prop) (plain : ExportUpload -> Prop) : Prop := {
  header_back : forall h, plain_header h -> Unmarshal_header (Marshal_header h) = Ok h;
  upload_back : forall eu, plain eu -> Unmarshal_upload (Marshal_upload eu) = Ok eu;
}.

(** The file the lines make. *)
Definition file_of (lines : list string) : string := fold_right (fun s b => line_of s +:+ b) "" lines.

Lemma Split_file lines : List.Forall one_line lines -> Split (file_of lines) newline = lines ++ [""].
Proof.
  induction 1 as [|s lines (_ & Hs & _) _ IH]; [done|]. change (file_of (s :: lines)) with (line_of s +:+ file_of lines).
  unfold line_of. replace ((s +:+ String newline "") +:+ file_of lines) with (s +:+ String newline (file_of lines)).
  - rewrite Split_app by done. by rewrite IH.
  - clear. induction s as [|c s IH]; [done|]. exact (f_equal (String c) IH).
Qed.

(** An instance whose catalog is in order. *)
Definition orderly (l : Library) : Prop :=
  ids_ascend (lb_uploads l) /\ (forall u, In u (lb_uploads l) -> 0 < u_id u <= lb_seq_uploads l) /\ ids_rise (lb_tags l) /\
  List.NoDup (map u_uuid (lb_uploads l)) /\ shelves l /\ (forall t, In t (lb_tags l) -> ft_UploadID t <= lb_seq_uploads l) /\
  (forall f, In f (lb_files l) -> cf_upload_id f <= lb_seq_uploads l).

Lemma orderly_roomy l : orderly l -> roomy l.
Proof.
  intros (_ & _ & _ & _ & Hs & Ht & Hf). split_and!; [done..|]. intros u n (f & c & Hin%Hf & _ & <- & _)%memberships_in. done.
Qed.

(** The upload [v] of the catalog [l'] is the upload [u] of the catalog [l]. *)
Definition restores {mb : Mailbox} (l l' : Library) (u v : Upload) : Prop :=
  u_uuid v = u_uuid u /\ u_filename v = u_filename u /\ u_original_filename v = u_original_filename u /\ u_content_type v = u_content_type u /\
  u_file_size v = u_file_size u /\ u_visibility v = u_visibility u /\ u_status v = u_status u /\
  default "" (u_data_map v) = default "" (u_data_map u) /\ default "" (u_datamap_address v) = default "" (u_datamap_address u) /\
  default "" (u_actual_cost v) = default "" (u_actual_cost u) /\ u_created_at v = u_created_at u /\
  u_completed_at v = toNullTime (u_completed_at u) /\
  (exists e, emailByID (lb_users l) !! u_user_id u = Some e /\ idByEmail (lb_users l') !! ToLower e = Some (u_user_id v)) /\
  fst (GetTags (u_id v) (mkWorld l' [])) = fst (GetTags (u_id u) (mkWorld l [])) /\
  (forall name, In (u_id v, name) (memberships l') <-> In (u_id u, name) (memberships l)).

Lemma nullStr_default s : default "" (nullStr s) = s.
Proof. unfold nullStr. by destruct (String.eqb_spec s ""). Qed.

Lemma parse_visibility_back v : parse_visibility (match v with Public => "public" | Private => "private" end) = Some v.
Proof. by destruct v. Qed.

Lemma parse_status_back st : parse_status (status_str st) = Some st.
Proof. by destruct st. Qed.

Lemma carried_restores {mb : Mailbox} l l' u v owner e : emailByID (lb_users l) !! u_user_id u = Some e -> idByEmail (lb_users l') !! ToLower e = Some owner ->
  carried l' owner (record_of l u) v -> restores l l' u v.
Proof.
  intros He Ho ((i & vis & st & Hv & Hs & ->) & Ht & Hc). cbn -[parse_visibility parse_status status_str] in Hv, Hs. rewrite parse_visibility_back in Hv. rewrite parse_status_back in Hs.
  injection Hv as <-. injection Hs as <-. unfold restores. cbn -[GetTags toNullTime memberships]. rewrite !nullStr_default.
  split_and!; try done; [by exists e| |].
  - rewrite !tags_of_read. exact (f_equal Ok Ht).
  - intros name. rewrite <- (names_of_in l). apply Hc.
Qed.

Lemma tags_not_empty l u k : ids_rise (lb_tags l) -> tags_of l u !! k <> Some [].
Proof. intros H. rewrite tags_of_lookup by done. by destruct (map _ _). Qed.

Section roundtrip.
Context {codec : ExportCodec} {mb : Mailbox} (visit : TagMap -> list (string * list string)).
Context {plain_header : ExportHeader -> Prop} {plain : ExportUpload -> Prop} {laws : ExportLaws codec plain_header plain}.

(** What the export of [src] at [now] must be for [dst] to restore it. *)
Definition portable (src dst : Library) (now : Z) : Prop :=
  let h := mkHeader uploadsExportKind uploadsExportSchema now (Z.of_nat (length (lb_uploads src))) in
  plain_header h /\ one_line (Marshal_header h) /\
  forall u, In u (lb_uploads src) ->
    plain (record_of src u) /\ one_line (Marshal_upload (record_of src u)) /\ u_uuid u <> "" /\ u_created_at u <> zero_time /\
    ~ In (u_uuid u) (map u_uuid (lb_uploads dst)) /\
    exists e, emailByID (lb_users src) !! u_user_id u = Some e /\ e <> "" /\ is_Some (idByEmail (lb_users dst) !! ToLower e).

Lemma portable_importable src dst now : orderly src -> portable src dst now -> List.Forall (importable (lb_users dst)) (map (record_of src) (lb_uploads src)).
Proof.
  intros (_ & _ & Ht & _) (_ & _ & Hp). apply List.Forall_forall. intros eu (u & <- & Hin)%in_map_iff.
  destruct (Hp u Hin) as (Hplain & Hline & Hid & Hct & _ & e & He & Hne & Ho). unfold importable, record_of. cbn -[parse_visibility parse_status status_str].
  rewrite He, parse_visibility_back, parse_status_back. cbn [default]. split_and!; try done.
  - by apply upload_back.
  - intros k. by apply tags_not_empty.
Qed.

Lemma import_file src dst now now' importer l : portable src dst now -> orderly src ->
  let h := mkHeader uploadsExportKind uploadsExportSchema now (Z.of_nat (length (lb_uploads src))) in
  ImportUploads visit now' (file_of (Marshal_header h :: map (fun u => Marshal_upload (record_of src u)) (lb_uploads src))) importer (mkWorld l []) =
  import_lines visit now' importer (idByEmail (lb_users l)) (body_lines (map (record_of src) (lb_uploads src))) true (mkImport 0 0 0 []) (mkWorld l []).
Proof.
  intros Hp Ho h. pose proof (portable_importable src dst now Ho Hp) as Hi. destruct Hp as (Hh & Hline & _).
  unfold ImportUploads. erewrite bind_run; [|by rewrite read_healthy]. cbn [tables]. rewrite Split_file.
  - cbn [app import_lines]. destruct Hline as (Hne & _ & Htrim & Hlong). fold h in Hne, Htrim, Hlong, Hh |- *.
    rewrite Hlong, Htrim, (proj2 (String.eqb_neq _ _) Hne). cbn [negb]. rewrite (header_back h Hh). unfold body_lines. by rewrite map_map.
  - constructor; [done|]. rewrite <- map_map. rewrite List.Forall_map. eapply List.Forall_impl; [|exact Hi]. intros eu H. apply H.
Qed.

Lemma Forall2_map_left {A B C} (f : A -> B) (P : B -> C -> Prop) l k : List.Forall2 P (map f l) k -> List.Forall2 (fun a c => P (f a) c) l k.
Proof. revert k. induction l as [|a l IH]; intros k H; inversion H; subst; constructor; auto. Qed.

Lemma Forall2_impl_in {A B} (P Q : A -> B -> Prop) l k : List.Forall2 P l k -> (forall a b, In a l -> P a b -> Q a b) -> List.Forall2 Q l k.
Proof. induction 1 as [|a b l k H _ IH]; intros Hi; constructor; [by apply Hi; [left|]|]. apply IH. intros x y Hx. apply Hi. by right. Qed.

Lemma Forall2_in_left {A B} (P : A -> B -> Prop) l k a : List.Forall2 P l k -> In a l -> exists b, In b k /\ P a b.
Proof. induction 1 as [|x y l k H _ IH]; [done|]. intros [->|Hin]; [exists y; split; [by left|done]|]. destruct (IH Hin) as (b & ? & ?). exists b. split; [by right|done]. Qed.

(** C32. The catalog of an instance, exported and imported by an instance that
    knows the owners by their addresses, is restored: every upload is one new
    upload with the same name, size, status, datamap and times, the owner with
    the same address, the same tags and the same collections; nothing of the
    importing instance changes for the uploads it had, and importing the file
    once more changes nothing. *)
Theorem export_import_roundtrip (src dst : Library) (now now' importer : Z) (Hvisit : forall m, visit m ≡ₚ map_to_list m)
    (Hs : orderly src) (Hd : orderly dst) (Hp : portable src dst now) :
  let n := Z.of_nat (length (lb_uploads src)) in
  exists lines, ExportUploads (fun _ => None) None now (mkWorld src []) = (Ok (lines, (n, None)), mkWorld src []) /\
  exists dst' new, ImportUploads visit now' (file_of lines) importer (mkWorld dst []) = (Ok (mkImport n 0 0 []), mkWorld dst' []) /\
    lb_uploads dst' = lb_uploads dst ++ new /\ List.Forall2 (restores src dst') (lb_uploads src) new /\
    (forall u, In u (lb_uploads dst) -> keeps_upload (u_id u) dst dst') /\
    forall later, ImportUploads visit later (file_of lines) importer (mkWorld dst' []) = (Ok (mkImport 0 n 0 []), mkWorld dst' []).
Proof.
  intros n. pose proof Hs as (Ha & Hpos & Ht & Hn & _). pose proof (portable_importable _ _ _ Hs Hp) as Hi.
  eexists. split; [apply ExportUploads_all; [done|by intros u [? _]%Hpos|done]|].
  destruct (import_all visit Hvisit now' importer (map (record_of src) (lb_uploads src)) dst (mkImport 0 0 0 [])) as (dst' & new & E & Eu & Ew & _ & Hk & Hf).
  { by apply orderly_roomy. } { done. } { by rewrite map_map. }
  { intros eu (u & <- & Hin)%in_map_iff. by apply Hp. }
  exists dst', new. rewrite (import_file src dst) by done. split_and!; [|done|..].
  - rewrite E. unfold imports. by rewrite length_map.
  - apply Forall2_map_left in Hf. eapply Forall2_impl_in; [exact Hf|]. intros u v Hin (owner & Ho & Hc).
    destruct Hp as (_ & _ & Hp). destruct (Hp u Hin) as (_ & _ & _ & _ & _ & e & He & _). cbn in Ho. rewrite He in Ho. cbn in Ho.
    rewrite <- Ew in Ho. by eapply carried_restores.
  - intros u Hu. apply Hk. apply Hd in Hu. lia.
  - intros later. rewrite (import_file src dst), import_again; [|by rewrite Ew| |done..].
    + unfold skips. by rewrite length_map.
    + intros eu Hin. destruct (Forall2_in_left _ _ _ _ Hf Hin) as (v & Hv & owner & _ & (i & vis & st & _ & _ & ->) & _).
      rewrite Eu, map_app, in_app_iff. right. apply in_map_iff. eexists. split; [|exact Hv]. done.
Qed.
End roundtrip.

(** *** An instance with two uploads moves *)

Definition moved_upload (id user : Z) (uid : string) (v : visibility) (m : option string) : Upload :=
  mkUpload id uid user None "f" "f" 10 "text/plain" v Completed None None None (Some "5") None None m None 0 None 100 None (Some 200) None 100 None 0.

Definition source : Library :=
  mkLibrary [moved_upload 3 1 "uuid-3" Private (Some "map-3"); moved_upload 5 2 "uuid-5" Public None] 5 [(1, "ann@example.com"); (2, "bob@example.com")]
    [mkTag 1 3 "lang" "go" 0; mkTag 2 5 "lang" "en" 0; mkTag 4 3 "lang" "c" 0; mkTag 7 3 "kind" "a" 0] 7
    [mkCollection 1 "docs" "" None 1 0 0; mkCollection 2 "code" "" (Some 1) 1 0 0] 2
    [mkCollectionFile 2 3 0; mkCollectionFile 1 3 0; mkCollectionFile 1 5 0] [] 0 [] 0 (1000 * lb_second).

Definition target : Library :=
  mkLibrary [moved_upload 1 7 "uuid-1" Private (Some "map-1")] 1 [(7, "bob@example.com"); (9, "ann@example.com")]
    [mkTag 1 1 "lang" "go" 0] 1 [mkCollection 1 "docs" "" None 9 0 0] 1 [mkCollectionFile 1 1 0] [] 0 [] 0 (2000 * lb_second).

(** A codec for the records at hand. *)
Definition source_header : ExportHeader := mkHeader uploadsExportKind uploadsExportSchema 1000 2.
Definition source_records : list ExportUpload := map (record_of source) (lb_uploads source).

#[local] Instance source_codec : ExportCodec := {|
  Marshal_header _ := "header";
  Marshal_upload eu := eu_UUID eu;
  Unmarshal_header _ := Ok source_header;
  Unmarshal_upload s := match List.find (fun eu => String.eqb (eu_UUID eu) s) source_records with Some eu => Ok eu | None => Err (ENew "no such record") end;
|}.

#[local] Instance source_laws : ExportLaws source_codec (fun h => h = source_header) (fun eu => In eu source_records).
Proof. split; [by intros h ->|]. by intros eu [<-|[<-|[]]]. Qed.

#[local] Instance lower_mail : Mailbox := {| ToLower := fun s => s; IsValidEmail := fun _ => true |}.

Ltac each_row := cbn; repeat match goal with |- forall x, _ \/ _ -> _ => intros x [<-|H]; [|revert x H] | |- forall x, False -> _ => by intros x [] end; cbn; lia.
Ltac no_double := cbn; repeat (apply NoDup_cons_iff; split; [cbn; intuition (discriminate || lia)|]); constructor.

Lemma source_orderly : orderly source.
Proof.
  split_and!; try each_row; [by repeat constructor|by repeat constructor|no_double|]. split; [no_double|]. split; each_row.
Qed.

Lemma target_orderly : orderly target.
Proof.
  split_and!; try each_row; [by repeat constructor|by repeat constructor|no_double|]. split; [no_double|]. split; each_row.
Qed.

Lemma source_portable : portable (plain_header := fun h => h = source_header) (plain := fun eu => In eu source_records) source target 1000.
Proof.
  split; [done|]. split; [done|]. intros u Hu. split; [by apply in_map|].
  destruct Hu as [<-|[<-|[]]]; (split; [done|split; [done|split; [done|split]]]).
  - intros [[=]|[]].
  - by exists "ann@example.com".
  - intros [[=]|[]].
  - by exists "bob@example.com".
Qed.

Lemma export_import_roundtrip_witness : exists lines dst' new,
  ExportUploads (fun _ => None) None 1000 (mkWorld source []) = (Ok (lines, (2, None)), mkWorld source []) /\
  ImportUploads map_to_list 3000 (file_of lines) 7 (mkWorld target []) = (Ok (mkImport 2 0 0 []), mkWorld dst' []) /\
  lb_uploads dst' = lb_uploads target ++ new /\ List.Forall2 (restores source dst') (lb_uploads source) new.
Proof.
  destruct (export_import_roundtrip map_to_list source target 1000 3000 7 (fun m => reflexivity _) source_orderly target_orderly source_portable)
    as (lines & H1 & dst' & new & H2 & H3 & H4 & _). by exists lines, dst', new.
Defined.

(** The summary of the second import, and where the tags and names went. *)
Example moved_tags : let file := file_of ("header" :: map eu_UUID source_records) in
  let '(_, w) := ImportUploads map_to_list 3000 file 7 (mkWorld target []) in
  fst (ImportUploads map_to_list 4000 file 7 w) = Ok (mkImport 0 2 0 []) /\
  map (fun u => (u_id u, u_user_id u)) (lb_uploads (tables w)) = [(1, 7); (2, 9); (3, 7)] /\
  memberships (tables w) = [(1, "docs"); (2, "code"); (2, "docs"); (3, "docs")] /\
  map cl_CreatedBy (lb_collections (tables w)) = [9; 9; 7].
Proof. vm_compute. done. Qed.

(** A record that is there already still counts as one without its owner. *)
Example fallback_counts_skipped : let file := file_of ("header" :: map eu_UUID source_records) in
  let '(_, w) := ImportUploads map_to_list 3000 file 7 (mkWorld (set_lb_users [(7, "root@example.com")] target) []) in
  fst (ImportUploads map_to_list 4000 file 7 w) = Ok (mkImport 0 2 2 []).
Proof. vm_compute. done. Qed.
