(* ===== verification/WalletHandlers.v ===== *)
(** * The wallet handlers

    src/internal/handlers/admin_wallets.go and wallet_status.go, with the filtered
    listing of services/transaction.go. A wallet's key comes in with the request
    that creates it and is stored sealed; no answer shows it. *)

From stdpp Require Import gmap strings.
From Stdlib Require Import Ascii.
From S2P Require Import Prelude GoLib Sql Schema Stmt Clock UploadStore Ledger Keyring Evm AuditLog Http Calendar Front OidcHandlers UploadHandlers LogQueries.

Open Scope Z_scope.

(** ** TransactionService.List *)

Definition tx_filter (walletID : option Z) (txType : string) (since until : option Civil) (t : Transaction) : bool :=
  id_filter walletID (Some (t_wallet_id t)) && text_filter txType (t_tx_type t) &&
  since_ok since (db_text (civil_of (t_created_at t))) && until_ok until (db_text (civil_of (t_created_at t))).

Definition TxList (walletID : option Z) (txType : string) (since until : option Civil) (n off : Z) : DbM (list Transaction * Z) :=
  let n := clamp_limit n in
  let p := tx_filter walletID txType since until in
  total ← query (fun d => affected p (transactions d));
  rows ← query (fun d => limit n (offset off (order_by Ledger.newest_first (select p (transactions d)))));
  mret (rows, total).

(** ** Requests and answers *)

Record walletResponse := mkWalletResp {
  wr_ID : Z; wr_Name : string; wr_Address : string; wr_IsDefault : bool; wr_PaymentBalance : string; wr_GasBalance : string;
  wr_CreatedAt : string; wr_UpdatedAt : string;
}.

Definition toWalletResponse (w : Wallet) : walletResponse :=
  mkWalletResp (w_id w) (w_name w) (w_address w) (w_is_default w) (w_payment_balance w) (w_gas_balance w) (format_z (w_created_at w)) (format_z (w_updated_at w)).

Record createWalletRequest := mkCreateWallet { cw_Name : string; cw_Address : string; cw_PrivateKey : string }.

Record walletTransactionResponse := mkTxResp {
  tr_ID : Z; tr_WalletID : Z; tr_UploadID : option Z; tr_TxType : string; tr_Amount : string; tr_BalanceAfter : string;
  tr_TxHash : option string; tr_CreatedAt : string;
}.

Definition toWalletTransactionResponse (t : Transaction) : walletTransactionResponse :=
  mkTxResp (t_id t) (t_wallet_id t) (t_upload_id t) (t_tx_type t) (t_amount t) (t_balance_after t) (t_tx_hash t) (format_z (t_created_at t)).

(** With the name of the wallet. *)
Record crossWalletTransactionResponse := mkCrossTx { xt_row : walletTransactionResponse; xt_WalletName : string }.

Record tx_page (A : Type) := mkTxPage { tp_transactions : list A; tp_total : Z; tp_limit : Z; tp_offset : Z }.
Arguments mkTxPage {A} _ _ _ _.
Arguments tp_transactions {A} _.
Arguments tp_total {A} _.
Arguments tp_limit {A} _.
Arguments tp_offset {A} _.

(** ** The handlers *)

(** The tables beside the chain the signer talks to. *)
Record Vault (W : Type) := mkVault { va_front : Front; va_chain : Chain W }.
Arguments mkVault {W} _ _.
Arguments va_front {W} _.
Arguments va_chain {W} _.

Section handlers.
Context {aead : Aead} {ps : Parsers} {W : Type} {eth : EthClient W}.
(** [Address.Hex()]: the checksummed spelling. *)
Context (Hex : Address -> string).
(** The wallet keyring, whether it is configured, and the draws of the nonces. *)
Context (kr : Keyring) (configured : bool) (rnd : nat -> option (list Z)).
Context (EvmRPCURL EvmTokenAddress : string) (patience : nat).

Abbreviation VaultM := (ST Refusal (Vault W)).

Definition front {A} (m : FrontM A) : VaultM A := zoom va_front (fun f v => mkVault f (va_chain v)) m.
Definition vdb {A} (m : DbM A) : ST error (Vault W) A := zoom (fun v => fr_db (va_front v)) (fun d v => mkVault (put_fr_db d (va_front v)) (va_chain v)) m.
Definition on_chain {A} (m : ST error (Chain W) A) : ST error (Vault W) A := zoom va_chain (fun c v => mkVault (va_front v) c) m.

Definition AdminListWallets : VaultM (Z * list walletResponse) :=
  wallets ← or_refuse (fun _ => jsonError "failed to list wallets" 500) (vdb WalletList);
  answer 200 (map toWalletResponse wallets).

(** The address as given, or the one of the key. *)
Definition wallet_address (req : createWalletRequest) : result error string :=
  if String.eqb (cw_Address req) "" then
    match HexToECDSA (TrimPrefix (cw_PrivateKey req) "0x") with
    | Err e => Err e
    | Ok privKey => Ok (Hex (PubkeyToAddress privKey))
    end
  else Ok (cw_Address req).

Definition AdminCreateWallet (callerID : Z) (body : option createWalletRequest) : VaultM (Z * walletResponse) :=
  front (requireWalletKey configured) ;;
  req ← decoded body invalid_body;
  require (negb (String.eqb (cw_Name req) "" || String.eqb (cw_PrivateKey req) "")) (jsonError "name and private_key are required" 400) ;;
  address ← or_refuse (fun _ => jsonError "invalid private key" 400) (of_result (wallet_address req));
  wallet ← or_refuse (fun _ => jsonError "failed to create wallet" 500) (vdb (WalletCreate rnd kr (cw_Name req) address (cw_PrivateKey req)));
  front (auditEvent "wallet_created" "info" (Some callerID)
    ("id=" +:+ big_String (w_id wallet) +:+ " name=" +:+ w_name wallet +:+ " address=" +:+ w_address wallet)) ;;
  answer 201 (toWalletResponse wallet).

Definition AdminSetDefaultWallet (callerID : Z) (id : string) : VaultM (Z * string) :=
  id ← front (path_id id "invalid wallet id");
  or_refuse (fun err => if errors_is err ErrWalletNotFound then jsonError "wallet not found" 404 else jsonError "failed to set default wallet" 500)
    (vdb (SetDefault id)) ;;
  front (auditEvent "wallet_default_changed" "info" (Some callerID) ("id=" +:+ big_String id)) ;;
  answer 200 "default wallet updated".

Definition AdminDeleteWallet (callerID : Z) (id : string) : VaultM (Z * string) :=
  id ← front (path_id id "invalid wallet id");
  or_refuse (fun err => if errors_is err ErrWalletNotFound then jsonError "wallet not found" 404 else
                        if errors_is err ErrDeleteDefault then jsonError (Error_ err) 409 else jsonError (Error_ err) 400)
    (vdb (WalletDelete id)) ;;
  front (auditEvent "wallet_deleted" "warn" (Some callerID) ("id=" +:+ big_String id)) ;;
  answer 200 "wallet deleted".

(** The error of storing the balances is dropped. *)
Definition AdminRefreshWalletBalance (id : string) : VaultM (Z * (string * string)) :=
  id ← front (path_id id "invalid wallet id");
  wallet ← or_refuse (fun err => if errors_is err ErrWalletNotFound then jsonError "wallet not found" 404 else jsonError "failed to get wallet" 500)
    (vdb (WalletGetByID id));
  require (negb (String.eqb EvmRPCURL "" || String.eqb EvmTokenAddress ""))
    (jsonError "EVM not configured — start indelible with --network arbitrum-one (mainnet) or --network arbitrum-sepolia (testnet), or set INDELIBLE_EVM_RPC_URL and INDELIBLE_EVM_TOKEN_ADDRESS explicitly" 503) ;;
  or_refuse (fun _ => jsonError "failed to connect to EVM RPC" 502) (on_chain (NewSigner patience EvmRPCURL)) ;;
  '(tokenBal, gasBal) ← or_refuse (fun err => jsonError ("failed to query balance: " +:+ Error_ err) 502) (on_chain (GetBalances (w_address wallet) EvmTokenAddress));
  attempt (vdb (UpdateBalance id tokenBal gasBal)) ;;
  answer 200 (tokenBal, gasBal).

(** The page shows the limit that was asked for. *)
Definition AdminWalletTransactions (id limit offset : string) : VaultM (Z * tx_page walletTransactionResponse) :=
  id ← front (path_id id "invalid wallet id");
  let limit := atoi_or_zero limit in
  let offset := atoi_or_zero offset in
  '(txns, total) ← or_refuse (fun _ => jsonError "failed to list transactions" 500) (vdb (Ledger.ListByWallet id limit offset));
  answer 200 (mkTxPage (map toWalletTransactionResponse txns) total limit offset).

(** The name of each wallet; none when the lookup fails. *)
Definition wallet_name (wallets : list Wallet) (id : Z) : string := default "" (w_name <$> find_id id wallets).

Definition AdminCrossWalletTransactions (wallet_id type_ from to_ limit offset : string) : VaultM (Z * tx_page crossWalletTransactionResponse) :=
  walletID ← (if String.eqb wallet_id "" then mret None else id ← front (path_id wallet_id "invalid wallet_id"); mret (Some id));
  let limit := atoi_or_zero limit in
  let offset := atoi_or_zero offset in
  '(txns, total) ← or_refuse (fun _ => jsonError "failed to list transactions" 500)
    (vdb (TxList walletID type_ (parseTimeParam from) (parseTimeParam to_) limit offset));
  r ← attempt (vdb WalletList);
  let nameByID := match r with Ok wallets => wallet_name wallets | Err _ => fun _ => "" end in
  answer 200 (mkTxPage (map (fun t => mkCrossTx (toWalletTransactionResponse t) (nameByID (t_wallet_id t))) txns) total limit offset).

Definition WalletStatus : VaultM (Z * bool) :=
  r ← attempt (vdb GetDefault);
  answer 200 (match r with Ok _ => true | Err _ => false end).
End handlers.
