(* ===== verification/WalletLaws.v ===== *)
(** * The answers of the wallet handlers do not depend on the keys

    Two installations that differ only in the sealed keys of their wallets, served
    the same requests but for the keys in them and the nonces drawn, give the same
    answers and leave the same trail. *)

From stdpp Require Import gmap strings.
From Stdlib Require Import Ascii.
From S2P Require Import Prelude GoLib Sql Schema Stmt Clock AccountSchema UploadStore Ledger Keyring Evm AuditLog Http Calendar Front OidcHandlers UploadHandlers LogQueries WalletHandlers Triple.

Open Scope Z_scope.

(** ** Rows that differ in their keys *)

Definition same_wallet (w1 w2 : Wallet) : Prop := with_key "" w1 = with_key "" w2.

Definition same_but_keys (d1 d2 : Db) : Prop := List.Forall2 same_wallet (wallets d1) (wallets d2) /\ set_wallets [] d1 = set_wallets [] d2.

Lemma same_wallet_fields w1 w2 : same_wallet w1 w2 ->
  w_id w1 = w_id w2 /\ w_name w1 = w_name w2 /\ w_address w1 = w_address w2 /\ w_is_default w1 = w_is_default w2 /\
  w_payment_balance w1 = w_payment_balance w2 /\ w_gas_balance w1 = w_gas_balance w2 /\ w_created_at w1 = w_created_at w2 /\ w_updated_at w1 = w_updated_at w2.
Proof. unfold same_wallet, with_key. intros H. by injection H as -> -> -> -> -> -> -> ->. Qed.

(** A selection that does not look at the key. *)
Definition keyless {A} (f : Wallet -> A) : Prop := forall w1 w2, same_wallet w1 w2 -> f w1 = f w2.

Ltac by_fields := let H := fresh in intros ? ? H; apply same_wallet_fields in H as (?&?&?&?&?&?&?&?);
  unfold by_id, key, Wallet_keyed, same_wallet, with_key, touched in *; cbn in *; congruence.

Lemma keyless_by_id i : keyless (by_id i).
Proof. by_fields. Qed.

Lemma alike_find p t1 t2 : keyless p -> List.Forall2 same_wallet t1 t2 ->
  option_relation same_wallet (fun _ => False) (fun _ => False) (List.find p t1) (List.find p t2).
Proof. intros Hp. induction 1 as [|w1 w2 t1 t2 Hw _ IH]; [done|]. cbn. rewrite (Hp w1 w2 Hw). by destruct (p w2). Qed.

Lemma alike_update p f t1 t2 : keyless p -> (forall w1 w2, same_wallet w1 w2 -> same_wallet (f w1) (f w2)) -> List.Forall2 same_wallet t1 t2 ->
  List.Forall2 same_wallet (update p f t1) (update p f t2).
Proof. intros Hp Hf. unfold update. induction 1 as [|w1 w2 t1 t2 Hw _ IH]; cbn; constructor; [|done]. rewrite (Hp w1 w2 Hw). destruct (p w2); auto. Qed.

Lemma alike_delete p t1 t2 : keyless p -> List.Forall2 same_wallet t1 t2 -> List.Forall2 same_wallet (delete_where p t1) (delete_where p t2).
Proof. intros Hp. unfold delete_where. induction 1 as [|w1 w2 t1 t2 Hw _ IH]; cbn; [constructor|]. rewrite (Hp w1 w2 Hw). destruct (p w2); cbn; [done|]. by constructor. Qed.

Lemma alike_affected p t1 t2 : keyless p -> List.Forall2 same_wallet t1 t2 -> affected p t1 = affected p t2.
Proof. intros Hp H. unfold affected, select. f_equal. induction H as [|w1 w2 t1 t2 Hw _ IH]; cbn; [done|]. rewrite (Hp w1 w2 Hw). destruct (p w2); cbn; congruence. Qed.

Lemma alike_order le t1 t2 : (forall a1 a2 b1 b2, same_wallet a1 a2 -> same_wallet b1 b2 -> le a1 b1 = le a2 b2) -> List.Forall2 same_wallet t1 t2 ->
  List.Forall2 same_wallet (order_by le t1) (order_by le t2).
Proof.
  intros Hle. induction 1 as [|w1 w2 t1 t2 Hw _ IH]; [constructor|].
  change (order_by le (?w :: ?t)) with (insert_by le w (order_by le t)).
  induction IH as [|x1 x2 u1 u2 Hx Hu IHu]; cbn; [by constructor|]. rewrite (Hle w1 w2 x1 x2 Hw Hx). destruct (le w2 x2); constructor; try done. by constructor.
Qed.

Lemma alike_map {A} (f : Wallet -> A) t1 t2 : keyless f -> List.Forall2 same_wallet t1 t2 -> map f t1 = map f t2.
Proof. intros Hf. induction 1 as [|w1 w2 t1 t2 Hw _ IH]; [done|]. cbn. by rewrite (Hf w1 w2 Hw), IH. Qed.

(** A table of the database other than the wallets. *)
Lemma same_rest {A} (f : Db -> A) d1 d2 : (forall d, f (set_wallets [] d) = f d) -> same_but_keys d1 d2 -> f d1 = f d2.
Proof. intros Hf [_ H]. rewrite <- (Hf d1), H. apply Hf. Qed.

Lemma same_put d1 d2 t1 t2 : same_but_keys d1 d2 -> List.Forall2 same_wallet t1 t2 -> same_but_keys (set_wallets t1 d1) (set_wallets t2 d2).
Proof. intros [_ H] Ht. split; [done|]. exact H. Qed.

Lemma same_faults d1 d2 : same_but_keys d1 d2 -> faults d1 = faults d2.
Proof. by apply same_rest. Qed.

Lemma same_set_faults d1 d2 fs : same_but_keys d1 d2 -> same_but_keys (set_faults fs d1) (set_faults fs d2).
Proof. intros [Ht H]. split; [done|]. change (set_wallets [] (set_faults fs ?d)) with (set_faults fs (set_wallets [] d)). by rewrite H. Qed.

Abbreviation alike := (rel same_but_keys).

Lemma alike_query {A B} (R : A -> B -> Prop) f g : (forall d1 d2, same_but_keys d1 d2 -> R (f d1) (g d2)) -> alike R (query f) (query g).
Proof. apply rel_query; [exact same_faults|exact same_set_faults]. Qed.

Lemma alike_query_row {A B} (R : A -> B -> Prop) f g :
  (forall d1 d2, same_but_keys d1 d2 -> option_relation R (fun _ => False) (fun _ => False) (f d1) (g d2)) -> alike R (query_row f) (query_row g).
Proof. apply rel_query_row; [exact same_faults|exact same_set_faults]. Qed.

Lemma alike_exec f g : (forall d1 d2, same_but_keys d1 d2 -> same_but_keys (f d1) (g d2)) -> alike eq (exec f) (exec g).
Proof. apply rel_exec; [exact same_faults|exact same_set_faults]. Qed.

Lemma alike_stmt : alike eq stmt stmt.
Proof. apply rel_stmt; [exact same_faults|exact same_set_faults]. Qed.

(** ** The operations *)

#[local] Hint Resolve keyless_by_id : core.

Section operations.
Context {aead : Aead}.

Lemma alike_GetByID id : alike same_wallet (WalletGetByID id) (WalletGetByID id).
Proof. apply rel_map_err, alike_query_row. intros d1 d2 [Hw _]. by apply alike_find. Qed.

Lemma alike_List : alike (List.Forall2 same_wallet) WalletList WalletList.
Proof. apply alike_query. intros d1 d2 [Hw _]. apply alike_order; [|done]. intros a1 a2 b1 b2 Ha Hb. apply same_wallet_fields in Ha, Hb. f_equal; tauto. Qed.

Lemma alike_GetDefault : alike same_wallet GetDefault GetDefault.
Proof. apply rel_map_err, alike_query_row. intros d1 d2 [Hw _]. apply alike_find; [|done]. by_fields. Qed.

Lemma sealing_alike kr n1 n2 k1 k2 : (n1 = None <-> n2 = None) -> ends_alike (fun _ _ => True) (kr_Encrypt n1 kr k1) (kr_Encrypt n2 kr k2).
Proof.
  intros Hn. unfold kr_Encrypt, Encrypt. destruct (hexKey _); [|done].
  destruct n1 as [n1|], n2 as [n2|]; cbn; try done; [by destruct Hn as [_ H]; discriminate (H eq_refl)|by destruct Hn as [H _]; discriminate (H eq_refl)].
Qed.

Lemma alike_Create kr rnd1 rnd2 name address k1 k2 : (rnd1 0%nat = None <-> rnd2 0%nat = None) ->
  alike same_wallet (WalletCreate rnd1 kr name address k1) (WalletCreate rnd2 kr name address k2).
Proof.
  intros Hn. unfold WalletCreate. eapply rel_bind; [by apply rel_of_result, sealing_alike|]. intros c1 c2 _.
  eapply (rel_bind _ eq); [apply rel_map_err, alike_query|].
  { intros d1 d2 [Hw _]. by rewrite (Forall2_length _ _ _ Hw). }
  intros n ? <-. eapply rel_bind; [exact alike_stmt|]. intros _ _ _.
  eapply (rel_bind _ same_but_keys); [by intros d1 d2 Hd|]. intros d1 d2 Hd.
  assert (seq_wallets d1 = seq_wallets d2) as -> by by apply same_rest.
  eapply rel_bind; [apply rel_modify|intros _ _ _; apply alike_GetByID]. intros e1 e2 He.
  assert (current_timestamp e1 = current_timestamp e2) as -> by (unfold current_timestamp; by rewrite (same_rest now e1 e2)).
  change (set_seq_wallets ?i (set_wallets ?t ?e)) with (set_wallets t (set_seq_wallets i e)). apply same_put.
  - destruct He as [Hw He]. split; [done|]. change (set_wallets [] (set_seq_wallets ?i ?e)) with (set_seq_wallets i (set_wallets [] e)). by rewrite He.
  - apply Forall2_app; [apply He|]. by constructor.
Qed.

Lemma alike_SetDefault id : alike eq (SetDefault id) (SetDefault id).
Proof.
  unfold SetDefault. apply (rel_in_tx _ same_faults same_set_faults).
  eapply rel_bind; [apply rel_try, (alike_query eq)|].
  { intros d1 d2 [Hw _]. by rewrite (alike_affected _ _ _ (keyless_by_id id) Hw). }
  intros [b|e] [b'|e'] H; cbn in H; try done; subst. destruct b'; [|apply rel_fail].
  eapply rel_bind; [apply alike_exec; intros d1 d2 Hd; apply same_put; [done|]; apply alike_update; [by intros ? ?|by_fields|apply Hd]|]. intros _ _ _.
  eapply rel_bind; [apply alike_exec; intros d1 d2 Hd; apply same_put; [done|]|intros _ _ _; by apply rel_ret].
  assert (current_timestamp d1 = current_timestamp d2) as -> by (unfold current_timestamp; by rewrite (same_rest now d1 d2)).
  apply alike_update; [done| |apply Hd]. by_fields.
Qed.

Lemma alike_Delete id : alike eq (WalletDelete id) (WalletDelete id).
Proof.
  unfold WalletDelete. eapply rel_bind; [apply rel_try, (alike_query_row eq)|].
  { intros d1 d2 [Hw _]. pose proof (alike_find (by_id id) _ _ (keyless_by_id id) Hw) as H. unfold find_id.
    destruct (List.find _ (wallets d1)), (List.find _ (wallets d2)); cbn in *; try done. by apply same_wallet_fields in H as (_&_&_&H&_). }
  intros [b|e] [b'|e'] H; cbn in H; try done; subst. destruct b'; [apply rel_fail|].
  eapply rel_bind; [exact alike_stmt|]. intros _ _ _.
  eapply (rel_bind _ eq); [apply rel_gets; intros d1 d2 Hd; by rewrite (same_rest transactions d1 d2)|].
  intros refs ? <-. destruct refs; [apply rel_fail|]. apply rel_modify. intros d1 d2 Hd. apply same_put; [done|]. apply alike_delete; [done|apply Hd].
Qed.

Lemma alike_UpdateBalance id p g : alike eq (UpdateBalance id p g) (UpdateBalance id p g).
Proof.
  apply alike_exec. intros d1 d2 Hd. apply same_put; [done|].
  assert (current_timestamp d1 = current_timestamp d2) as -> by (unfold current_timestamp; by rewrite (same_rest now d1 d2)).
  apply alike_update; [done| |apply Hd]. by_fields.
Qed.

Lemma alike_ListByWallet id n off : alike eq (Ledger.ListByWallet id n off) (Ledger.ListByWallet id n off).
Proof.
  unfold Ledger.ListByWallet. eapply rel_bind; [apply rel_try, (alike_query eq)|].
  { intros d1 d2 Hd. by rewrite (same_rest transactions d1 d2). }
  intros r r' Hr. eapply (rel_bind _ eq); [apply alike_query; intros d1 d2 Hd; by rewrite (same_rest transactions d1 d2)|].
  intros rows ? <-. apply rel_ret. by destruct r, r'; cbn in Hr; subst.
Qed.

Lemma alike_TxList i ty since until n off : alike eq (TxList i ty since until n off) (TxList i ty since until n off).
Proof.
  unfold TxList. eapply (rel_bind _ eq); [apply alike_query; intros d1 d2 Hd; by rewrite (same_rest transactions d1 d2)|]. intros total ? <-.
  eapply (rel_bind _ eq); [apply alike_query; intros d1 d2 Hd; by rewrite (same_rest transactions d1 d2)|]. intros rows ? <-. by apply rel_ret.
Qed.
End operations.

(** ** The handlers *)

Definition same_front (f1 f2 : Front) : Prop := fr_ac f1 = fr_ac f2 /\ fr_told f1 = fr_told f2 /\ same_but_keys (fr_db f1) (fr_db f2).

Definition same_vault {W} (v1 v2 : Vault W) : Prop := va_chain v1 = va_chain v2 /\ same_front (va_front v1) (va_front v2).

Section handlers.
Context {aead : Aead} {ps : Parsers} {W : Type} {eth : EthClient W} (Hex : Address -> string).
Context (kr : Keyring) (configured : bool) (EvmRPCURL EvmTokenAddress : string) (patience : nat).

Inductive wallet_request :=
| ListWallets
| CreateWallet (nonce : option (list Z)) (callerID : Z) (body : option createWalletRequest)
| SetDefaultWallet (callerID : Z) (id : string)
| DeleteWallet (callerID : Z) (id : string)
| RefreshBalance (id : string)
| ListTransactions (id limit offset : string)
| ListAllTransactions (wallet_id type_ from to_ limit offset : string)
| AskStatus.

Inductive wallet_answer :=
| Wallets (l : list walletResponse)
| Created (w : walletResponse)
| Done (message : string)
| Balances (payment gas : string)
| Transactions (p : tx_page walletTransactionResponse)
| AllTransactions (p : tx_page crossWalletTransactionResponse)
| HasDefault (b : bool).

Definition answered {A} (f : A -> wallet_answer) (m : ST Refusal (Vault W) (Z * A)) : ST Refusal (Vault W) (Z * wallet_answer) :=
  '(status, a) ← m; mret (status, f a).

Definition serve (rq : wallet_request) : ST Refusal (Vault W) (Z * wallet_answer) :=
  match rq with
  | ListWallets => answered Wallets AdminListWallets
  | CreateWallet nonce callerID body => answered Created (AdminCreateWallet Hex kr configured (fun _ => nonce) callerID body)
  | SetDefaultWallet callerID id => answered Done (AdminSetDefaultWallet callerID id)
  | DeleteWallet callerID id => answered Done (AdminDeleteWallet callerID id)
  | RefreshBalance id => answered (fun b => Balances (fst b) (snd b)) (AdminRefreshWalletBalance EvmRPCURL EvmTokenAddress patience id)
  | ListTransactions id limit offset => answered Transactions (AdminWalletTransactions id limit offset)
  | ListAllTransactions wallet_id type_ from to_ limit offset => answered AllTransactions (AdminCrossWalletTransactions wallet_id type_ from to_ limit offset)
  | AskStatus => answered HasDefault WalletStatus
  end.

Fixpoint serve_all (rqs : list wallet_request) (v : Vault W) : list (result Refusal (Z * wallet_answer)) * Vault W :=
  match rqs with
  | [] => ([], v)
  | rq :: rqs => let '(r, v1) := serve rq v in let '(rs, v2) := serve_all rqs v1 in (r :: rs, v2)
  end.

(** Bodies that differ in a key at most. *)
Definition same_body (b1 b2 : createWalletRequest) : Prop :=
  cw_Name b1 = cw_Name b2 /\ (cw_PrivateKey b1 = "" <-> cw_PrivateKey b2 = "") /\
  match wallet_address Hex b1, wallet_address Hex b2 with Ok a1, Ok a2 => a1 = a2 | Err _, Err _ => True | _, _ => False end.

Definition same_request (rq1 rq2 : wallet_request) : Prop :=
  match rq1, rq2 with
  | CreateWallet n1 c1 (Some b1), CreateWallet n2 c2 (Some b2) => (n1 = None <-> n2 = None) /\ c1 = c2 /\ same_body b1 b2
  | _, _ => rq1 = rq2
  end.

Lemma rel_vdb {A B} (R : A -> B -> Prop) (m1 : DbM A) (m2 : DbM B) : alike R m1 m2 -> rel (@same_vault W) R (vdb m1) (vdb m2).
Proof.
  intros Hm. eapply rel_zoom; [exact Hm|by intros v1 v2 (_ & _ & _ & H)|]. intros v1 v2 d1 d2 (Hc & Ha & Ht & _) Hd. by split_and!.
Qed.

Lemma rel_on_chain {A} (m : ST error (Chain W) A) : rel same_vault eq (on_chain m) (on_chain m).
Proof.
  eapply (rel_zoom _ eq); [|by intros v1 v2 [H _]|by intros v1 v2 c1 c2 [_ Hf] ->]. intros c ? <-. split; [done|]. by destruct (fst (m c)).
Qed.

Lemma rel_front {A} (R : A -> A -> Prop) (m : FrontM A) : rel same_front R m m -> rel (@same_vault W) R (front m) (front m).
Proof. intros Hm. eapply rel_zoom; [exact Hm|by intros v1 v2 [_ H]|]. by intros v1 v2 f1 f2 [Hc _] Hf. Qed.

Lemma rel_audit e s u d : rel (@same_vault W) eq (front (auditEvent e s u d)) (front (auditEvent e s u d)).
Proof. apply rel_front, rel_modify. intros f1 f2 (Ha & Ht & Hd). split_and!; [done|cbn; by rewrite Ht|done]. Qed.

Lemma rel_path id msg : rel (@same_vault W) eq (front (path_id id msg)) (front (path_id id msg)).
Proof. apply rel_front, rel_decoded. Qed.

Lemma rel_answered {A} (f : A -> wallet_answer) m1 m2 : rel same_vault eq m1 m2 -> rel same_vault eq (answered f m1) (answered f m2).
Proof. intros Hm. eapply rel_bind; [exact Hm|]. intros [st a] ? <-. by apply rel_ret. Qed.

Lemma answers_map : keyless toWalletResponse.
Proof. intros w1 w2 (?&?&?&?&?&?&?&?)%same_wallet_fields. unfold toWalletResponse. congruence. Qed.

Lemma wallet_names t1 t2 i : List.Forall2 same_wallet t1 t2 -> wallet_name t1 i = wallet_name t2 i.
Proof.
  intros H. unfold wallet_name, find_id. pose proof (alike_find (by_id i) t1 t2 (keyless_by_id i) H) as Hf.
  destruct (List.find _ t1), (List.find _ t2); cbn in *; try done. by apply same_wallet_fields in Hf as (_ & H2 & _).
Qed.

#[local] Hint Resolve rel_audit rel_path : rel_db.

Lemma Create_alike n1 n2 callerID b1 b2 : (n1 = None <-> n2 = None) -> same_body b1 b2 ->
  rel same_vault eq (AdminCreateWallet Hex kr configured (fun _ => n1) callerID (Some b1)) (AdminCreateWallet Hex kr configured (fun _ => n2) callerID (Some b2)).
Proof.
  intros Hn (Hname & Hkey & Haddr). unfold AdminCreateWallet. eapply (rel_bind _ eq); [apply rel_front, rel_require|]. intros _ _ _.
  cbn [decoded]. eapply (rel_bind _ (fun a b => a = b1 /\ b = b2)); [by apply rel_ret|]. intros ? ? [-> ->]. rewrite <- Hname.
  replace (String.eqb (cw_PrivateKey b2) "") with (String.eqb (cw_PrivateKey b1) "").
  2:{ apply eq_true_iff_eq. by rewrite !String.eqb_eq. }
  eapply (rel_bind _ eq); [apply rel_require|]. intros _ _ _.
  eapply (rel_bind _ eq).
  { intros v1 v2 Hv. unfold or_refuse, of_result. by destruct (wallet_address Hex b1), (wallet_address Hex b2). }
  intros address ? <-. eapply rel_bind; [apply rel_or_refuse, rel_vdb, (alike_Create kr (fun _ => n1) (fun _ => n2)), Hn|].
  intros w1 w2 Hw. rewrite (answers_map w1 w2 Hw). apply same_wallet_fields in Hw as (-> & -> & -> & _).
  eapply (rel_bind _ eq); [apply rel_audit|]. intros _ _ _. by apply rel_ret.
Qed.

Lemma serve_alike rq1 rq2 : same_request rq1 rq2 -> rel same_vault eq (serve rq1) (serve rq2).
Proof.
  intros Hrq. assert (rq1 = rq2 \/ exists n1 n2 c b1 b2, rq1 = CreateWallet n1 c (Some b1) /\ rq2 = CreateWallet n2 c (Some b2) /\ (n1 = None <-> n2 = None) /\ same_body b1 b2)
    as [<-|(n1 & n2 & c & b1 & b2 & -> & -> & Hn & Hb)].
  { destruct rq1 as [|n1 c1 [b1|]|?|?|?|?|?|]; try (by left). destruct rq2 as [|n2 c2 [b2|]|?|?|?|?|?|]; try (by left).
    destruct Hrq as (Hn & <- & Hb). right. by exists n1, n2, c1, b1, b2. }
  2:{ by apply rel_answered, Create_alike. }
  clear Hrq. destruct rq1 as [|n c body|c id|c id|id|id li off|wid ty from to_ li off|]; apply rel_answered.
  - eapply rel_bind; [apply rel_or_refuse, rel_vdb, alike_List|]. intros l1 l2 Hl. apply rel_ret. by rewrite (alike_map _ _ _ answers_map Hl).
  - destruct body as [b|].
    + apply Create_alike; [done|]. split_and!; [done..|]. by destruct (wallet_address Hex b).
    + unfold AdminCreateWallet. eapply (rel_bind _ eq); [apply rel_front, rel_require|]. intros _ _ _. by apply (rel_bind _ (fun _ _ => False)); [apply rel_fail|].
  - eapply (rel_bind _ eq); [apply rel_path|]. intros i ? <-. eapply rel_bind; [apply rel_or_refuse, rel_vdb, alike_SetDefault|]. intros _ _ _.
    eapply (rel_bind _ eq); [apply rel_audit|]. intros _ _ _. by apply rel_ret.
  - eapply (rel_bind _ eq); [apply rel_path|]. intros i ? <-. eapply rel_bind; [apply rel_or_refuse, rel_vdb, alike_Delete|]. intros _ _ _.
    eapply (rel_bind _ eq); [apply rel_audit|]. intros _ _ _. by apply rel_ret.
  - eapply (rel_bind _ eq); [apply rel_path|]. intros i ? <-. eapply rel_bind; [apply rel_or_refuse, rel_vdb, alike_GetByID|].
    intros w1 w2 Hw. apply same_wallet_fields in Hw as (_ & _ & -> & _). eapply (rel_bind _ eq); [apply rel_require|]. intros _ _ _.
    eapply (rel_bind _ eq); [apply rel_or_refuse, rel_on_chain|]. intros _ _ _.
    eapply (rel_bind _ eq); [apply rel_or_refuse, rel_on_chain|]. intros [p g] ? <-.
    eapply rel_bind; [apply rel_attempt, rel_vdb, alike_UpdateBalance|]. intros _ _ _. by apply rel_ret.
  - eapply (rel_bind _ eq); [apply rel_path|]. intros i ? <-. eapply (rel_bind _ eq); [apply rel_or_refuse, rel_vdb, alike_ListByWallet|].
    intros [rows total] ? <-. by apply rel_ret.
  - eapply (rel_bind _ eq).
    { destruct (String.eqb wid ""); [by apply rel_ret|]. eapply (rel_bind _ eq); [apply rel_path|]. intros i ? <-. by apply rel_ret. }
    intros i ? <-. eapply (rel_bind _ eq); [apply rel_or_refuse, rel_vdb, alike_TxList|]. intros [rows total] ? <-.
    eapply rel_bind; [apply rel_attempt, rel_vdb, alike_List|]. intros r1 r2 Hr. apply rel_ret. do 2 f_equal. apply map_ext. intros t. f_equal.
    destruct r1, r2; cbn in Hr; try done. by apply wallet_names.
  - eapply rel_bind; [apply rel_attempt, rel_vdb, alike_GetDefault|]. intros r1 r2 Hr. apply rel_ret. by destruct r1, r2.
Qed.

(** C31. Whatever is asked of the wallet endpoints, and whatever fails, the
    answers and the audit trail do not depend on the private keys: neither on
    those that are stored nor on those the requests carry. *)
Theorem wallet_answers_hide_keys (rqs1 rqs2 : list wallet_request) (v1 v2 : Vault W) (Hrq : List.Forall2 same_request rqs1 rqs2) (Hv : same_vault v1 v2) :
  fst (serve_all rqs1 v1) = fst (serve_all rqs2 v2) /\ same_vault (snd (serve_all rqs1 v1)) (snd (serve_all rqs2 v2)).
Proof.
  revert v1 v2 Hv. induction Hrq as [|rq1 rq2 rqs1 rqs2 H _ IH]; intros v1 v2 Hv; [done|]. cbn [serve_all].
  destruct (serve_alike rq1 rq2 H v1 v2 Hv) as [Hv' Hr]. destruct (serve rq1 v1) as [r1 u1], (serve rq2 v2) as [r2 u2]. cbn in Hv', Hr.
  destruct (IH u1 u2 Hv') as [Ha Hs]. destruct (serve_all rqs1 u1) as [rs1 t1], (serve_all rqs2 u2) as [rs2 t2]. cbn in *. split; [|done].
  rewrite Ha. f_equal. destruct r1, r2; cbn in Hr; subst; done.
Qed.
End handlers.

(** *** Two installations with other keys *)

#[local] Existing Instance clear_aead.
#[local] Instance no_parsers : Parsers := {| Unmarshal_cursor _ := Err (ENew ""); parse_rfc3339 _ := None |}.

Definition vault_of (key : string) : Vault ToyWorld :=
  mkVault (mkFront (mkWorld (mkAccounts [] 0 [] [] 0 [] [] 0 [] [] 0 [] [] [] [] 0 [] 0 0) [])
    (set_seq_wallets 1 (set_wallets [mkWallet 1 "main" "0x1" key true "0" "0" 100 100] rotation_db)) []) (mkChain (mkToy None None false [1; 2]) []).

Definition day_of_requests (nonce : Z) (key : string) : list wallet_request :=
  [CreateWallet (Some (repeat nonce 12)) 7 (Some (mkCreateWallet "spare" "0x2" key)); ListWallets; SetDefaultWallet 7 "2"; RefreshBalance "1"; DeleteWallet 7 "1"; ListWallets].

Definition served_day (nonce : Z) (sent stored : string) := serve_all (fun a => a) (ring (test_key "a") []) true "http://node" "0xtoken" 0 (day_of_requests nonce sent) (vault_of stored).

Lemma wallet_answers_hide_keys_witness : fst (served_day 1 "0xabc" "sealed") = fst (served_day 2 "0xdef" "other").
Proof.
  refine (proj1 (wallet_answers_hide_keys (fun a => a) (ring (test_key "a") []) true "http://node" "0xtoken" 0%nat
    (day_of_requests 1 "0xabc") (day_of_requests 2 "0xdef") (vault_of "sealed") (vault_of "other") _ _)).
  - constructor; [by split_and!|]. repeat (constructor; [exact eq_refl|]). constructor.
  - split; [exact eq_refl|]. split; [exact eq_refl|]. split; [exact eq_refl|]. split; [constructor; [exact eq_refl|constructor]|exact eq_refl].
Defined.

(** The day was served. *)
Example served_answers : map (fun r => match r with Ok (status, _) => status | Err e => rf_status e end) (fst (served_day 1 "0xabc" "sealed")) = [201; 200; 200; 200; 200; 200].
Proof. vm_compute. done. Qed.
