(* ===== verification/Analytics.v ===== *)
(** * Analytics

    src/internal/services/analytics.go and handlers/admin_analytics.go: reports
    over the uploads, the tokens and their use. A report reads the tables of the
    uploads and of the accounts in one statement; GROUP BY gives its groups in
    the order of their keys, and rows that tie in an ORDER BY keep that order. *)

From stdpp Require Import gmap strings pretty.
From Stdlib Require Import Ascii.
From S2P Require Import Prelude GoLib Sql Schema Stmt Clock AuditLog AccountSchema Http Library Front Calendar.

Open Scope Z_scope.

(** ** SQL *)

(** [CAST(x AS INTEGER)] of a text: its longest prefix that is an integer, at
    the nearest int64. *)
Fixpoint leading_digits (acc : Z) (s : string) : Z :=
  match s with
  | String c s' => match digit_val c with Some d => leading_digits (10 * acc + d) s' | None => acc end
  | EmptyString => acc
  end.

Definition cast_integer (s : string) : Z :=
  let clamp z := Z.max int64_min (Z.min int64_max z) in
  match trim_left s with
  | String "-"%char s' => clamp (- leading_digits 0 s')
  | String "+"%char s' => clamp (leading_digits 0 s')
  | s' => clamp (leading_digits 0 s')
  end.

(** SUM fails when it leaves int64. *)
Definition sum_int64 {A} (f : A -> Z) (rows : list A) : result error Z :=
  let s := sum_by f rows in if (int64_min <=? s) && (s <=? int64_max) then Ok s else Err (ENew "integer overflow").

(** The rows of each key. *)
Definition group_by {A K} `{EqDecision K} (le : K -> K -> bool) (k : A -> K) (rows : list A) : list (K * list A) :=
  map (fun x => (x, select (fun r => bool_decide (k r = x)) rows)) (order_by le (distinct (map k rows))).

(** One result row per group; a failing one fails the statement. *)
Fixpoint each_group {K A B} (f : K -> list A -> result error B) (groups : list (K * list A)) : result error (list B) :=
  match groups with
  | [] => Ok []
  | (k, rows) :: groups =>
      match f k rows with
      | Err e => Err e
      | Ok b => match each_group f groups with Err e => Err e | Ok bs => Ok (b :: bs) end
      end
  end.

(** ** The service *)

Record UploaderStat := mkUploader { up_UserID : Z; up_Email : string; up_Count : Z; up_TotalBytes : Z }.
Record FailureStat := mkFailure { fl_UUID : string; fl_Filename : string; fl_ErrorMessage : string; fl_FailedAt : string }.
Record UploadStats := mkUploadStats {
  as_TotalUploads : Z; as_StatusCounts : gmap string Z; as_TotalBytes : Z; as_AvgFileSize : Z; as_AvgProcessingMs : Z;
  as_TopUploaders : list UploaderStat; as_RecentFailures : list FailureStat;
}.
Record TokenUsageStat := mkTokenUsage { tu_TokenUUID : string; tu_TokenName : string; tu_Requests : Z; tu_LastUsedAt : string }.
Record TokenStats := mkTokenStats { ts_TotalRequests : Z; ts_ActiveTokens : Z; ts_TopTokens : list TokenUsageStat }.
Record DepartmentCost := mkDeptCost { dc_Department : string; dc_TotalCost : string; dc_UploadCount : Z; dc_TotalBytes : Z }.
Record TokenCost := mkTokenCost { tc_TokenUUID : string; tc_TokenName : string; tc_TotalCost : string; tc_UploadCount : Z; tc_TotalBytes : Z }.
Record CostStats := mkCostStats {
  cs_TotalCost : string; cs_TotalUploads : Z; cs_TotalBytes : Z; cs_AvgCostPerUpload : string;
  cs_ByDepartment : list DepartmentCost; cs_ByToken : list TokenCost;
}.

(** One SELECT over both sets of tables. *)
Definition report {A} (f : list Upload -> Accounts -> result error A) : ST error Front A :=
  fdb stmt ;; s ← get; of_result (f (uploads (fr_db s)) (tables (fr_ac s))).

Definition created_since (since : Civil) (u : Upload) : bool := since_ok (Some since) (db_text (civil_of (u_created_at u))).
Definition used_since (since : Civil) (e : UsageEntry) : bool := since_ok (Some since) (db_text (civil_of (ul_created_at e))).

Definition text_key (a b : string) : bool := text_le a b.
Definition count_of {A} (rows : list A) : Z := Z.of_nat (length rows).

Definition status_groups (since : Civil) (us : list Upload) (_ : Accounts) : result error (list (string * (Z * Z))) :=
  each_group (fun k rows => match sum_int64 u_file_size rows with Err e => Err e | Ok b => Ok (k, (count_of rows, b)) end)
    (group_by text_key (fun u => status_str (u_status u)) (select (created_since since) us)).

Definition processing_ms (u : Upload) : option Z :=
  match u_status u, u_processing_at u, u_completed_at u with Completed, Some p, Some c => Some (1000 * (c - p)) | _, _, _ => None end.

(** LEFT JOIN users: the address of a live user. *)
Definition email_of (a : Accounts) (userID : Z) : string :=
  default "" (us_Email <$> List.find (fun u => (us_ID u =? userID) && bool_decide (us_DeletedAt u = None)) (ac_users a)).

Definition top_uploaders (since : Civil) (us : list Upload) (a : Accounts) : result error (list UploaderStat) :=
  match each_group (fun k rows => match sum_int64 u_file_size rows with Err e => Err e | Ok b => Ok (mkUploader k (email_of a k) (count_of rows) b) end)
          (group_by Z.leb u_user_id (select (created_since since) us)) with
  | Err e => Err e
  | Ok l => Ok (limit 10 (order_by (fun x y => up_Count y <=? up_Count x) l))
  end.

(** ORDER BY failed_at DESC: NULLs last. *)
Definition failed_later (x y : Upload) : bool :=
  match u_failed_at x, u_failed_at y with Some a, Some b => b <=? a | Some _, None => true | None, Some _ => false | None, None => true end.

Definition failure_of (u : Upload) : FailureStat :=
  mkFailure (u_uuid u) (u_original_filename u) (default "" (u_error_message u)) (format_z (default (u_created_at u) (u_failed_at u))).

Definition recent_failures (since : Civil) (us : list Upload) (_ : Accounts) : result error (list FailureStat) :=
  Ok (map failure_of (limit 10 (order_by failed_later (select (fun u => bool_decide (u_status u = Failed) && created_since since u) us)))).

Definition UploadAnalytics (since : Civil) : ST error Front UploadStats :=
  groups ← report (status_groups since);
  let total := sum_by (fun g => fst (snd g)) groups in
  let bytes := wrap64 (sum_by (fun g => snd (snd g)) groups) in
  times ← report (fun us _ => Ok (omap processing_ms (select (created_since since) us)));
  uploaders ← report (top_uploaders since);
  failures ← report (recent_failures since);
  mret (mkUploadStats total (list_to_map (map (fun g => (fst g, fst (snd g))) groups)) bytes
          (if 0 <? total then Z.quot bytes total else 0)
          (if 0 <? count_of times then Z.quot (wrap64 (sum_by id times)) (count_of times) else 0)
          uploaders failures).

(** A count whose error is dropped. *)
Definition count_or_zero (f : list Upload -> Accounts -> result error Z) : ST error Front Z :=
  r ← try (report f); mret (match r with Ok n => n | Err _ => 0 end).

(** MAX(created_at) has no declared type, so SQLite gives it as text, and a text
    does not scan into a time. *)
Definition top_tokens (since : Civil) (_ : list Upload) (a : Accounts) : result error (list TokenUsageStat) :=
  let joined := flat_map (fun e => map (fun t => (t, e)) (select (by_id (ul_token_id e)) (ac_tokens a))) (select (used_since since) (ac_usage a)) in
  match joined with [] => Ok [] | _ => Err (ENew "sql: Scan error on column index 3, name last_used: unsupported Scan, storing driver.Value type string into type *time.Time") end.

Definition TokenAnalytics (since : Civil) : ST error Front TokenStats :=
  total ← count_or_zero (fun _ a => Ok (affected (used_since since) (ac_usage a)));
  active ← count_or_zero (fun _ a => Ok (count_of (distinct (map ul_token_id (select (used_since since) (ac_usage a))))));
  top ← report (top_tokens since);
  mret (mkTokenStats total active top).

(** *** Costs *)

Definition cost_of (u : Upload) : Z := cast_integer (default "" (u_actual_cost u)).

Definition paid_since (since : Civil) (u : Upload) : bool :=
  bool_decide (u_status u = Completed) && match u_actual_cost u with Some c => negb (String.eqb c "0") | None => false end && created_since since u.

(** LEFT JOIN api_tokens. *)
Definition token_of (a : Accounts) (u : Upload) : option ApiToken :=
  match u_token_id u with Some id => find_id id (ac_tokens a) | None => None end.

Definition department_of (a : Accounts) (u : Upload) : string :=
  match token_of a u with Some t => default "unassigned" (tk_Department t) | None => "unassigned" end.

(** The count and the two sums of a group, and its cost. *)
Definition cost_row {B} (mk : Z -> Z -> Z -> B) (rows : list Upload) : result error (Z * B) :=
  match sum_int64 cost_of rows with
  | Err e => Err e
  | Ok cost => match sum_int64 u_file_size rows with Err e => Err e | Ok bytes => Ok (cost, mk (count_of rows) cost bytes) end
  end.

(** ORDER BY the sum of the costs, descending. *)
Definition dearest {B} (l : list (Z * B)) : list B := map snd (order_by (fun x y => fst y <=? fst x) l).

Definition cost_totals (since : Civil) (us : list Upload) (_ : Accounts) : result error (Z * (Z * Z)) :=
  match cost_row (fun n c b => (n, (c, b))) (select (paid_since since) us) with Err e => Err e | Ok r => Ok (snd r) end.

Definition by_department (since : Civil) (us : list Upload) (a : Accounts) : result error (list DepartmentCost) :=
  match each_group (fun d => cost_row (fun n c b => mkDeptCost d (pretty c) n b)) (group_by text_key (department_of a) (select (paid_since since) us)) with
  | Err e => Err e
  | Ok l => Ok (dearest l)
  end.

Definition option_key (a b : option Z) : bool := match a, b with None, _ => true | Some _, None => false | Some x, Some y => x <=? y end.

Definition by_token (since : Civil) (us : list Upload) (a : Accounts) : result error (list TokenCost) :=
  let paid := select (paid_since since) us in
  match each_group (fun k => cost_row (fun n c b =>
            let t := match k with Some id => find_id id (ac_tokens a) | None => None end in
            mkTokenCost (match t with Some t => tk_UUID t | None => "" end) (match t with Some t => tk_Name t | None => "direct" end) (pretty c) n b))
          (group_by option_key u_token_id paid) with
  | Err e => Err e
  | Ok l => Ok (limit 20 (dearest l))
  end.

(** The error of the totals is dropped, which leaves them zero. *)
Definition CostAnalytics (since : Civil) : ST error Front CostStats :=
  r ← try (report (cost_totals since));
  let '(n, (cost, bytes)) := match r with Ok (n, (c, b)) => (n, (pretty c, b)) | Err _ => (0, ("", 0)) end in
  let avg := if 0 <? n then match r with Ok (_, (c, _)) => pretty (Z.quot c n) | Err _ => "0" end else "0" in
  departments ← report (by_department since);
  tokens ← report (by_token since);
  mret (mkCostStats cost n bytes avg departments tokens).

(** ** The handlers *)

(** Now less the days asked for, 7 when none are, in the local zone [east]
    seconds east of Greenwich. *)
Definition parseSince (now east : Z) (days : string) : Civil :=
  let d := atoi_or_zero days in
  civil_of (now + east - (if d <=? 0 then 7 else d) * 86400).

Definition AdminUploadAnalytics (now east : Z) (days : string) : FrontM (Z * UploadStats) :=
  stats ← or_refuse (fun _ => jsonError "failed to get upload analytics" 500) (UploadAnalytics (parseSince now east days));
  answer 200 stats.

Definition AdminTokenAnalytics (now east : Z) (days : string) : FrontM (Z * TokenStats) :=
  stats ← or_refuse (fun _ => jsonError "failed to get token analytics" 500) (TokenAnalytics (parseSince now east days));
  answer 200 stats.

Definition AdminCostAnalytics (now east : Z) (days : string) : FrontM (Z * CostStats) :=
  stats ← or_refuse (fun _ => jsonError "failed to get cost analytics" 500) (CostAnalytics (parseSince now east days));
  answer 200 stats.

(** * The costs of the departments add up

    The report of the costs splits them by department without losing an upload,
    or fails because a sum leaves int64. *)

Open Scope Z_scope.

(** ** Groups *)

Lemma distinct_In {A} `{EqDecision A} (l : list A) x : In x (distinct l) <-> In x l.
Proof.
  induction l as [|y l IH]; [done|]. cbn. case_bool_decide as Hy; cbn; rewrite IH; [|done].
  split; [by right|]. intros [->|H]; [by apply list_elem_of_In|done].
Qed.

Lemma distinct_NoDup {A} `{EqDecision A} (l : list A) : List.NoDup (distinct l).
Proof.
  induction l as [|y l IH]; [constructor|]. cbn. case_bool_decide as Hy; [done|]. constructor; [|done].
  rewrite distinct_In. intros H. by apply Hy, list_elem_of_In.
Qed.

Lemma sum_by_perm {A} (f : A -> Z) t1 t2 : t1 ≡ₚ t2 -> sum_by f t1 = sum_by f t2.
Proof. unfold sum_by. induction 1; cbn; lia. Qed.

Lemma sum_by_ext_in {A} (f g : A -> Z) t : (forall x, In x t -> f x = g x) -> sum_by f t = sum_by g t.
Proof. unfold sum_by. induction t as [|x t IH]; [done|]. intros H. cbn. rewrite (H x) by (by left). rewrite IH; [done|]. intros. apply H. by right. Qed.

Lemma sum_by_one {A} `{EqDecision A} (ks : list A) (x : A) v : List.NoDup ks -> In x ks -> sum_by (fun k => if bool_decide (x = k) then v else 0) ks = v.
Proof.
  unfold sum_by. induction ks as [|k ks IH]; [done|]. intros [Hk Hn]%NoDup_cons_iff [->|Hx]; cbn.
  - rewrite bool_decide_eq_true_2 by done. cut (fold_right (fun k acc => (if bool_decide (x = k) then v else 0) + acc) 0 ks = 0); [lia|].
    clear IH Hn. induction ks as [|k ks IH]; [done|]. cbn. rewrite bool_decide_eq_false_2 by (intros ->; apply Hk; by left).
    rewrite IH; [done|]. intros H. apply Hk. by right.
  - rewrite bool_decide_eq_false_2 by (intros ->; done). rewrite IH by done. lia.
Qed.

Lemma sum_by_plus {A} (f g : A -> Z) t : sum_by (fun x => f x + g x) t = sum_by f t + sum_by g t.
Proof. unfold sum_by. induction t; cbn; lia. Qed.

Lemma sum_by_const0 {A} (t : list A) : sum_by (fun _ => 0) t = 0.
Proof. unfold sum_by. induction t; cbn; lia. Qed.

(** A sum over all rows is the sum over the keys of the sums of their rows. *)
Lemma sum_by_groups {A K} `{EqDecision K} (k : A -> K) (f : A -> Z) rows ks : List.NoDup ks -> (forall r, In r rows -> In (k r) ks) ->
  sum_by (fun x => sum_by f (select (fun r => bool_decide (k r = x)) rows)) ks = sum_by f rows.
Proof.
  intros Hn. induction rows as [|r rows IH]; intros Hk; [apply sum_by_const0|].
  transitivity (sum_by (fun x => (if bool_decide (k r = x) then f r else 0) + sum_by f (select (fun r => bool_decide (k r = x)) rows)) ks).
  - apply sum_by_ext_in. intros x _. unfold select. cbn. by case_bool_decide.
  - rewrite sum_by_plus, sum_by_one, IH by auto using in_eq, in_cons. done.
Qed.

Lemma each_group_ok {K A B} (f : K -> list A -> result error B) groups bs : each_group f groups = Ok bs -> List.Forall2 (fun g b => f (fst g) (snd g) = Ok b) groups bs.
Proof.
  revert bs. induction groups as [|[k rows] groups IH]; intros bs; cbn; [by intros [= <-]|]. destruct (f k rows) as [b|e] eqn:E; [|done].
  destruct (each_group f groups) as [l|e]; [|done]. intros [= <-]. constructor; [done|]. by apply IH.
Qed.

Lemma each_group_err {K A B} (f : K -> list A -> result error B) groups e : each_group f groups = Err e -> exists g, In g groups /\ f (fst g) (snd g) = Err e.
Proof.
  induction groups as [|[k rows] groups IH]; cbn; [done|]. destruct (f k rows) as [b|e'] eqn:E; [|intros [= ->]; exists (k, rows); auto].
  destruct (each_group f groups) as [l|e']; [done|]. intros [= ->]. destruct IH as (g & ? & ?); [done|]. exists g. auto.
Qed.

(** ** Costs *)

Definition fits_int64 (z : Z) : Prop := int64_min <= z <= int64_max.

Lemma sum_int64_cases {A} (f : A -> Z) rows : (fits_int64 (sum_by f rows) /\ sum_int64 f rows = Ok (sum_by f rows)) \/
  (~ fits_int64 (sum_by f rows) /\ sum_int64 f rows = Err (ENew "integer overflow")).
Proof.
  unfold sum_int64, fits_int64. destruct (Z.leb_spec int64_min (sum_by f rows)), (Z.leb_spec (sum_by f rows) int64_max); cbn; [left|right..]; split; try done; lia.
Qed.

(** The rows can be summed. *)
Definition summable (rows : list Upload) : Prop := fits_int64 (sum_by cost_of rows) /\ fits_int64 (sum_by u_file_size rows).

Lemma cost_row_cases {B} (mk : Z -> Z -> Z -> B) rows :
  (summable rows /\ cost_row mk rows = Ok (sum_by cost_of rows, mk (count_of rows) (sum_by cost_of rows) (sum_by u_file_size rows))) \/
  (~ summable rows /\ cost_row mk rows = Err (ENew "integer overflow")).
Proof.
  unfold cost_row, summable. destruct (sum_int64_cases cost_of rows) as [[H1 ->]|[H1 ->]]; [|right; tauto].
  destruct (sum_int64_cases u_file_size rows) as [[H2 ->]|[H2 ->]]; [left|right]; tauto.
Qed.

Definition of_department (a : Accounts) (paid : list Upload) (d : string) : list Upload := select (fun u => bool_decide (department_of a u = d)) paid.
Definition of_token (paid : list Upload) (k : option Z) : list Upload := select (fun u => bool_decide (u_token_id u = k)) paid.

(** The row of a department. *)
Definition department_row (a : Accounts) (paid : list Upload) (d : string) : DepartmentCost :=
  let rows := of_department a paid d in mkDeptCost d (pretty (sum_by cost_of rows)) (count_of rows) (sum_by u_file_size rows).

Lemma count_of_sum {A} (rows : list A) : count_of rows = sum_by (fun _ => 1) rows.
Proof. unfold count_of, sum_by. induction rows as [|r rows IH]; [done|]. cbn [length fold_right]. lia. Qed.

Lemma order_by_sorts {A} (k : A -> Z) t : StronglySorted (fun x y => k y <= k x) (order_by (fun x y => k y <=? k x) t).
Proof.
  induction t as [|x t IH]; [constructor|]. change (order_by ?le (x :: t)) with (insert_by le x (order_by le t)).
  induction IH as [|y u Hu IHu Hy]; cbn [insert_by]; [constructor; constructor|]. destruct (Z.leb_spec (k y) (k x)).
  - constructor; [by constructor|]. constructor; [done|]. eapply List.Forall_impl; [|exact Hy]. cbn. lia.
  - constructor; [done|]. rewrite List.Forall_forall in *. intros z [->|Hz]%insert_by_in; [lia|by apply Hy].
Qed.

Lemma order_by_map {A B} (g : A -> B) (k : B -> Z) t : order_by (fun x y => k y <=? k x) (map g t) = map g (order_by (fun x y => k (g y) <=? k (g x)) t).
Proof.
  induction t as [|x t IH]; [done|]. unfold order_by in *. cbn [map fold_right]. rewrite IH.
  generalize (fold_right (insert_by (fun x y => k (g y) <=? k (g x))) [] t) as u. clear.
  induction u as [|y u IH]; [done|]. cbn. destruct (_ <=? _); [done|]. cbn. by rewrite IH.
Qed.

(** The departments in the order they are shown. *)
Definition shown_departments (a : Accounts) (paid : list Upload) : list string :=
  order_by (fun d d' => sum_by cost_of (of_department a paid d') <=? sum_by cost_of (of_department a paid d)) (order_by text_key (distinct (map (department_of a) paid))).

Lemma by_department_ok since us a l : by_department since us a = Ok l ->
  l = map (department_row a (select (paid_since since) us)) (shown_departments a (select (paid_since since) us)).
Proof.
  unfold by_department. set (paid := select _ us). destruct (each_group _ _) as [bs|e] eqn:E; [|done]. intros [= <-].
  assert (bs = map (fun d => (sum_by cost_of (of_department a paid d), department_row a paid d)) (order_by text_key (distinct (map (department_of a) paid)))) as ->.
  - apply each_group_ok in E. unfold group_by in E. revert bs E. generalize (order_by text_key (distinct (map (department_of a) paid))).
    intros ds. induction ds as [|d ds IH]; intros bs E; inversion E as [|g b gs bs' Hb Hbs]; subst; [done|]. cbn in Hb. cbn [map]. f_equal; [|by apply IH].
    fold (of_department a paid d) in Hb. destruct (cost_row_cases (fun n c b => mkDeptCost d (pretty c) n b) (of_department a paid d)) as [[_ H]|[_ H]];
      rewrite H in Hb; [by injection Hb as <-|done].
  - unfold dearest. rewrite (order_by_map _ fst), map_map. done.
Qed.

Lemma by_department_err since us a e : by_department since us a = Err e ->
  e = ENew "integer overflow" /\ exists d, ~ summable (of_department a (select (paid_since since) us) d).
Proof.
  unfold by_department. set (paid := select _ us). destruct (each_group _ _) as [bs|e'] eqn:E; [done|]. intros [= ->].
  apply each_group_err in E as ([d rows] & Hin & Hf). unfold group_by in Hin. apply in_map_iff in Hin as (d' & [= -> <-] & _). cbn in Hf.
  destruct (cost_row_cases (fun n c b => mkDeptCost d (pretty c) n b) (of_department a paid d)) as [[_ H]|[Hs H]]; unfold of_department in *; [congruence|].
  split; [congruence|]. by exists d.
Qed.

Lemma by_token_err since us a e : by_token since us a = Err e ->
  e = ENew "integer overflow" /\ exists k, ~ summable (of_token (select (paid_since since) us) k).
Proof.
  unfold by_token. set (paid := select _ us). cbv zeta. destruct (each_group _ _) as [bs|e'] eqn:E; [done|]. intros [= ->].
  apply each_group_err in E as ([k rows] & Hin & Hf). unfold group_by in Hin. apply in_map_iff in Hin as (k' & [= -> <-] & _). cbn in Hf.
  match type of Hf with cost_row ?mk _ = _ => destruct (cost_row_cases mk (of_token paid k)) as [[_ H]|[Hs H]] end; unfold of_token in *; [congruence|].
  split; [congruence|]. by exists k.
Qed.

Lemma shown_departments_perm a paid : shown_departments a paid ≡ₚ distinct (map (department_of a) paid).
Proof. unfold shown_departments. by rewrite !order_by_perm. Qed.

(** What the departments' rows sum to. *)
Lemma departments_sum a paid (f : Upload -> Z) : sum_by (fun d => sum_by f (of_department a paid d)) (shown_departments a paid) = sum_by f paid.
Proof.
  rewrite (sum_by_perm _ _ _ (shown_departments_perm a paid)). apply sum_by_groups; [apply distinct_NoDup|].
  intros r Hr. apply distinct_In. by apply in_map.
Qed.

Lemma shown_departments_in a paid d : In d (shown_departments a paid) <-> exists u, In u paid /\ department_of a u = d.
Proof.
  unfold shown_departments. rewrite !order_by_in, distinct_In, in_map_iff. split; intros (u & H1 & H2); by exists u.
Qed.

Lemma shown_departments_sorted a paid :
  StronglySorted (fun d d' => sum_by cost_of (of_department a paid d') <= sum_by cost_of (of_department a paid d)) (shown_departments a paid).
Proof. apply (order_by_sorts (fun d => sum_by cost_of (of_department a paid d))). Qed.

Lemma shown_departments_NoDup a paid : List.NoDup (shown_departments a paid).
Proof. apply NoDup_ListNoDup. rewrite shown_departments_perm. apply NoDup_ListNoDup, distinct_NoDup. Qed.

Lemma department_rows_sum a paid ds f g : (forall rows, g rows = sum_by f rows) -> ds = shown_departments a paid ->
  sum_by (fun d => g (of_department a paid d)) ds = sum_by f paid.
Proof. intros Hg ->. rewrite <- (departments_sum a paid f). apply sum_by_ext_in. auto. Qed.

Lemma sum_by_map {A B} (h : A -> B) (f : B -> Z) t : sum_by f (map h t) = sum_by (fun x => f (h x)) t.
Proof. unfold sum_by. induction t as [|x t IH]; [done|]. cbn. by rewrite IH. Qed.

Lemma report_healthy {A} (f : list Upload -> Accounts -> result error A) s : healthy (fr_db s) ->
  report f s = (f (uploads (fr_db s)) (tables (fr_ac s)), s).
Proof.
  intros H. unfold report, fdb, zoom, mbind, ST_bind. rewrite stmt_healthy by done. by destruct s.
Qed.


(** *** Two departments *)

Definition paid_upload (id : Z) (token : option Z) (cost : string) (size : Z) : Upload :=
  mkUpload id "u" 1 token "f" "f" size "text/plain" Private Completed None None None (Some cost) None None None None 0 None 0 None (Some 1700000060) None 1700000000 None 0.

Definition dept_token (id : Z) (dept : option string) : ApiToken :=
  mkApiToken id "t" "ci" "" "" 1 "[]" dept None None None None None None 0 None 0.

Definition costs_of (us : list Upload) : Front :=
  mkFront (mkWorld (mkAccounts [] 0 [] [] 0 [] [dept_token 1 (Some "ops"); dept_token 2 (Some "lab"); dept_token 3 (Some "ops")] 3 [] [] 0 [] [] [] [] 0 [] 0 0) [])
    (mkDb us 9 [] 0 [] 0 [] [] [] [] [] 0 [] [] [] [] [] 0 [] 0 []) [].

Definition three_uploads : list Upload := [paid_upload 1 (Some 1) "5" 10; paid_upload 2 (Some 2) "6" 20; paid_upload 3 (Some 3) "7" 30; paid_upload 4 None "0" 40].

Definition last_month : Civil := civil_of 1690000000.


(** Costs are in attos: ten tokens do not fit, and the report of a department
    that spent them fails. *)
Example ten_tokens_overflow :
  fst (CostAnalytics last_month (costs_of [paid_upload 1 (Some 1) "5000000000000000000" 10; paid_upload 2 (Some 1) "5000000000000000000" 10])) = Err (ENew "integer overflow").
Proof. vm_compute. done. Qed.
