(* ===== verification/WebhookHandlers.v ===== *)
(** * The webhook handlers

    src/internal/handlers/admin_webhooks.go. A secret is answered twice: when a
    webhook is created and when its secret is rotated. *)

From stdpp Require Import gmap strings pretty.
From Stdlib Require Import Ascii.
From S2P Require Import Prelude GoLib Sql Schema Stmt Clock AccountSchema AuditLog Webhooks Http Front.

Open Scope Z_scope.

Definition hook_z (t : Z) : string := format_z t.

Record webhookResponse := mkHookResp {
  hr_ID : Z; hr_URL : string; hr_IntegrationType : string; hr_IsEnabled : bool; hr_Events : string; hr_CreatedAt : string; hr_UpdatedAt : string;
}.

Definition toWebhookResponse (w : Webhook) : webhookResponse :=
  mkHookResp (wb_ID w) (wb_URL w) (wb_IntegrationType w) (wb_IsEnabled w) (wb_Events w) (hook_z (wb_CreatedAt w)) (hook_z (wb_UpdatedAt w)).

Record createWebhookRequest := mkCreateHook { ch_URL : string; ch_IntegrationType : string; ch_Events : string }.
Record updateWebhookRequest := mkUpdateHook { uh_URL : string; uh_IntegrationType : string; uh_Events : string; uh_IsEnabled : bool }.

Record deliveryResponse := mkDeliveryResp {
  dr_ID : Z; dr_WebhookID : Z; dr_EventType : string; dr_StatusCode : option Z; dr_Success : bool; dr_Attempts : Z; dr_ErrorMessage : string; dr_CreatedAt : string;
}.

Definition toDeliveryResponse (d : WebhookDelivery) : deliveryResponse :=
  mkDeliveryResp (wd_ID d) (wd_WebhookID d) (wd_EventType d) (wd_StatusCode d) (wd_Success d) (wd_Attempts d) (default "" (wd_ErrorMessage d)) (hook_z (wd_CreatedAt d)).

Record deadLetterResponse := mkDeadResp {
  lr_ID : Z; lr_WebhookID : Z; lr_WebhookURL : string; lr_EventType : string; lr_LastStatusCode : option Z; lr_LastError : string; lr_Attempts : Z;
  lr_ResendCount : Z; lr_IsAuth : bool; lr_CreatedAt : string; lr_ResolvedAt : string;
}.

Definition toDeadLetterResponse (d : WebhookDeadLetter * string) : deadLetterResponse :=
  let '(d, url) := d in
  mkDeadResp (dl_ID d) (dl_WebhookID d) url (dl_EventType d) (dl_LastStatusCode d) (default "" (dl_LastError d)) (dl_Attempts d) (dl_ResendCount d) (dl_IsAuth d)
    (hook_z (dl_CreatedAt d)) (match dl_ResolvedAt d with Some t => hook_z t | None => "" end).

(** The delivery service beside the trail. *)
Record HookDesk (N : Type) := mkHookDesk { hk_state : HookState N; hk_told : list told }.
Arguments mkHookDesk {N} _ _.
Arguments hk_state {N} _.
Arguments hk_told {N} _.

Section handlers.
Context {F N : Type} {flt : Float64 F} {dec : Decoders F} {client : HttpClient N}.
(** The RFC 3339 text of a clock reading. *)
Context (rfc3339 : Z -> string).

Abbreviation DeskM := (ST Refusal (HookDesk N)).

Definition delivery {A} (m : ST error (HookState N) A) : ST error (HookDesk N) A := zoom hk_state (fun h s => mkHookDesk h (hk_told s)) m.
Definition hooks {A} (m : HookM A) : ST error (HookDesk N) A := delivery (hdb m).
Definition audit_hook (eventType severity : string) (callerID : Z) (detail : string) : DeskM unit :=
  modify (fun s => mkHookDesk (hk_state s) (hk_told s ++ [Audited eventType severity (Some callerID) detail])).

Definition hook_id (id message : string) : DeskM Z := decoded (ParseInt id) (jsonError message 400).

Definition AdminGetWebhooks : DeskM (Z * list webhookResponse) :=
  webhooks ← or_refuse (fun _ => jsonError "failed to list webhooks" 500) (hooks HookList);
  answer 200 (map toWebhookResponse webhooks).

Definition AdminCreateWebhook (raw : result error (list Z)) (callerID : Z) (body : option createWebhookRequest) : DeskM (Z * (webhookResponse * string)) :=
  req ← decoded body invalid_body;
  require (negb (String.eqb (ch_URL req) "")) (jsonError "url is required" 400) ;;
  webhook ← or_refuse (fun err => if errors_is err ErrInvalidURL then jsonError (Error_ err) 400 else jsonError "failed to create webhook" 500)
    (hooks (HookCreate (F := F) raw (ch_URL req) (ch_IntegrationType req) (ch_Events req)));
  audit_hook "webhook_created" "info" callerID
    ("id=" +:+ big_String (wb_ID webhook) +:+ " url=" +:+ RedactWebhookURL (F := F) (wb_URL webhook) +:+ " integration=" +:+ wb_IntegrationType webhook) ;;
  answer 201 (toWebhookResponse webhook, wb_Secret webhook).

Definition AdminUpdateWebhook (callerID : Z) (id : string) (body : option updateWebhookRequest) : DeskM (Z * webhookResponse) :=
  id ← hook_id id "invalid webhook id";
  req ← decoded body invalid_body;
  webhook ← or_refuse (fun err => if errors_is err ErrWebhookNotFound then jsonError "webhook not found" 404 else
                                  if errors_is err ErrInvalidURL then jsonError (Error_ err) 400 else jsonError "failed to update webhook" 500)
    (hooks (HookUpdate (F := F) id (uh_URL req) (uh_IntegrationType req) (uh_Events req) (uh_IsEnabled req)));
  audit_hook "webhook_updated" "info" callerID ("id=" +:+ big_String id) ;;
  answer 200 (toWebhookResponse webhook).

Definition AdminDeleteWebhook (callerID : Z) (id : string) : DeskM (Z * string) :=
  id ← hook_id id "invalid webhook id";
  or_refuse (fun err => if errors_is err ErrWebhookNotFound then jsonError "webhook not found" 404 else jsonError "failed to delete webhook" 500)
    (hooks (HookDelete id)) ;;
  audit_hook "webhook_deleted" "info" callerID ("id=" +:+ big_String id) ;;
  answer 200 "webhook deleted".

(** Success, status code and error of the ping. *)
Definition AdminTestWebhook (id : string) : DeskM (Z * (bool * Z * option string)) :=
  id ← hook_id id "invalid webhook id";
  webhook ← or_refuse (fun err => if errors_is err ErrWebhookNotFound then jsonError "webhook not found" 404 else jsonError "failed to get webhook" 500)
    (hooks (HookGetByID id));
  r ← attempt (delivery (FireTestPing (F := F) rfc3339 webhook));
  answer 200 (match r with Ok (statusCode, success) => (success, statusCode, None) | Err e => (false, 0, Some (Error_ e)) end).

(** A limit between 1 and [max], the default when it is none. *)
Definition hook_limit (dflt max : Z) (l : string) : Z :=
  match ParseInt l with Some n => if (0 <? n) && (n <=? max) then n else dflt | None => dflt end.

Definition AdminGetWebhookDeliveries (id limit : string) : DeskM (Z * list deliveryResponse) :=
  id ← hook_id id "invalid webhook id";
  deliveries ← or_refuse (fun _ => jsonError "failed to get delivery log" 500) (delivery (GetDeliveryLog id (hook_limit 20 100 limit)));
  answer 200 (map toDeliveryResponse deliveries).

Definition AdminGetWebhookDeadLetters (include_resolved limit : string) : DeskM (Z * list deadLetterResponse) :=
  entries ← or_refuse (fun _ => jsonError "failed to list dead-letters" 500)
    (delivery (ListDeadLetters (String.eqb include_resolved "true") (hook_limit 50 200 limit)));
  answer 200 (map toDeadLetterResponse entries).

(** Whether it was delivered, and the error. *)
Definition AdminResendWebhookDeadLetter (callerID : Z) (id : string) : DeskM (Z * (bool * string)) :=
  id ← hook_id id "invalid dead-letter id";
  r ← attempt (delivery (Resend (F := F) id));
  match r with
  | Err err =>
      if errors_is err ErrDeadLetterNotFound then refuse (jsonError "dead-letter entry not found" 404) else
      audit_hook "webhook_dead_letter_resend_failed" "warning" callerID ("id=" +:+ big_String id +:+ " error=" +:+ Error_ err) ;;
      answer 502 (false, Error_ err)
  | Ok _ =>
      audit_hook "webhook_dead_letter_resent" "info" callerID ("id=" +:+ big_String id) ;;
      answer 200 (true, "")
  end.

Definition AdminDismissWebhookDeadLetter (callerID : Z) (id : string) : DeskM (Z * string) :=
  id ← hook_id id "invalid dead-letter id";
  or_refuse (fun err => if errors_is err ErrDeadLetterNotFound then jsonError "dead-letter entry not found" 404 else jsonError "failed to dismiss dead-letter" 500)
    (delivery (ResolveDeadLetter id)) ;;
  audit_hook "webhook_dead_letter_dismissed" "info" callerID ("id=" +:+ big_String id) ;;
  answer 200 "dead-letter dismissed".

(** Leaves nothing in the audit log. *)
Definition AdminRotateWebhookSecret (raw : result error (list Z)) (id : string) : DeskM (Z * string) :=
  id ← hook_id id "invalid webhook id";
  secret ← or_refuse (fun err => if errors_is err ErrWebhookNotFound then jsonError "webhook not found" 404 else jsonError "failed to rotate secret" 500)
    (hooks (RotateSecret raw id));
  answer 200 secret.
End handlers.
