(* ===== verification/Versions.v ===== *)
(** * The version check

    src/internal/services/version_check.go: the latest releases on GitHub, kept
    for ten minutes, compared with the running versions. The request for a
    release is an interface; requests run one at a time. *)

From stdpp Require Import gmap strings pretty.
From Stdlib Require Import Ascii.
From S2P Require Import Prelude GoLib.

Open Scope Z_scope.

(** ** Comparing tags *)

(** [v[:strings.IndexAny(v, chars)]]. *)
Fixpoint until_any (stop : ascii -> bool) (s : string) : string :=
  match s with
  | EmptyString => EmptyString
  | String c s' => if stop c then EmptyString else String c (until_any stop s')
  end.

Definition is_metadata (c : ascii) : bool := Ascii.eqb c "-" || Ascii.eqb c "+".

(** The loop over the parts: [None] when the first is no number; a later one
    that is none ends it. *)
Definition version_numbers (parts : list string) : option (Z * Z * Z) :=
  match parts with
  | [] => Some (0, 0, 0)
  | p0 :: rest =>
      match Atoi p0 with
      | None => None
      | Some a =>
          match rest with
          | [] => Some (a, 0, 0)
          | p1 :: rest =>
              match Atoi p1 with
              | None => Some (a, 0, 0)
              | Some b =>
                  match rest with
                  | [] => Some (a, b, 0)
                  | p2 :: _ => match Atoi p2 with None => Some (a, b, 0) | Some c => Some (a, b, c) end
                  end
              end
          end
      end
  end.

Definition parseSemver (v : string) : option (Z * Z * Z) :=
  let v := until_any is_metadata (TrimPrefix (TrimSpace v) "v") in
  if String.eqb v "" then None else version_numbers (Split v ".").

Definition isNewer (latest current : string) : bool :=
  match parseSemver latest, parseSemver current with
  | Some (l0, l1, l2), Some (c0, c1, c2) =>
      if negb (l0 =? c0) then c0 <? l0 else
      if negb (l1 =? c1) then c1 <? l1 else
      if negb (l2 =? c2) then c2 <? l2 else false
  | _, _ => false
  end.

(** ** The service *)

Definition indelibleRepo : string := "WithAutonomi/indelible".
Definition antdRepo : string := "WithAutonomi/ant-sdk".
Definition versionCacheTTL : Z := 10 * 60 * 1000000000.

Record ComponentVersion := mkVersion {
  cv_Current : string; cv_Latest : string; cv_UpdateAvailable : bool; cv_ReleaseURL : string; cv_Checked : bool;
}.

Record VersionCheckResult := mkCheck { vr_Indelible : ComponentVersion; vr_Antd : ComponentVersion; vr_GitHubReachable : bool }.

Record cachedRelease := mkCached { cr_tag : string; cr_url : string; cr_fetchedAt : Z }.

(** The latest release of a repository: its tag and page, as GitHub answers. *)
Class GitHub (W : Type) := { http_latest : string -> ST error W (string * string) }.

(** [vc_asked]: when each repository was asked for, the last first. *)
Record VersionCheck (W : Type) := mkVersionCheck { vc_world : W; vc_cache : gmap string cachedRelease; vc_now : Z; vc_asked : list (string * Z) }.
Arguments mkVersionCheck {W} _ _ _ _.
Arguments vc_world {W} _.
Arguments vc_cache {W} _.
Arguments vc_now {W} _.
Arguments vc_asked {W} _.

Definition buildComponent (current : string) (latest : result error (string * string)) : ComponentVersion :=
  match latest with
  | Err _ => mkVersion current "" false "" false
  | Ok (tag, url) =>
      if String.eqb tag "" then mkVersion current "" false "" false
      else mkVersion current tag (isNewer tag current) url true
  end.

Section service.
Context {W : Type} {gh : GitHub W}.

Abbreviation M := (ST error (VersionCheck W)).

Definition fetchLatestRelease (repo : string) : M (string * string) :=
  modify (fun s => mkVersionCheck (vc_world s) (vc_cache s) (vc_now s) ((repo, vc_now s) :: vc_asked s)) ;;
  zoom vc_world (fun w s => mkVersionCheck w (vc_cache s) (vc_now s) (vc_asked s)) (http_latest repo).

Definition remember (repo tag url : string) (s : VersionCheck W) : VersionCheck W :=
  mkVersionCheck (vc_world s) (<[repo := mkCached tag url (vc_now s)]> (vc_cache s)) (vc_now s) (vc_asked s).

Definition fresh (now : Z) (c : cachedRelease) : bool := now - cr_fetchedAt c <? versionCacheTTL.

Definition latestRelease (repo : string) : M (string * string) :=
  s ← get;
  match vc_cache s !! repo with
  | Some c =>
      if fresh (vc_now s) c then mret (cr_tag c, cr_url c) else
      '(tag, url) ← fetchLatestRelease repo; modify (remember repo tag url) ;; mret (tag, url)
  | None => '(tag, url) ← fetchLatestRelease repo; modify (remember repo tag url) ;; mret (tag, url)
  end.

Definition Check_ (currentIndelible currentAntd : string) : M VersionCheckResult :=
  ind ← try (latestRelease indelibleRepo);
  antd ← try (latestRelease antdRepo);
  let ok (r : result error (string * string)) := match r with Ok _ => true | Err _ => false end in
  mret (mkCheck (buildComponent currentIndelible ind) (buildComponent currentAntd antd) (ok ind || ok antd)).
End service.

(** ** The order of releases *)

(** The tag of a release: three numbers, perhaps after a v, perhaps before a
    pre-release or build suffix. *)
Definition release_tag (v : bool) (a b c : Z) (suffix : string) : string :=
  (if v then "v" else "") +:+ big_String a +:+ "." +:+ big_String b +:+ "." +:+ big_String c +:+ suffix.

Definition number_ok (z : Z) : Prop := 0 <= z <= int64_max.

(** No suffix, or one that starts with a minus or plus sign and ends in no space. *)
Definition suffix_ok (s : string) : Prop := last_ok s = true /\ match s with EmptyString => True | String c _ => is_metadata c = true end.

Lemma nat_text (p : ascii -> bool) z : 0 <= z -> (forall y, (y < 10)%N -> p (pretty_N_char y) = true) -> string_forallb p (big_String z) = true.
Proof.
  intros Hz Hp. unfold big_String. destruct z as [|q|q]; [|by apply (pretty_N_chars p (N.pos q))|lia]. by apply (pretty_N_chars p 0%N).
Qed.

Lemma nat_text_ne z : 0 <= z -> big_String z <> "".
Proof. intros Hz. unfold big_String. destruct z as [|q|q]; [done|apply (pretty_N_ne (N.pos q))|lia]. Qed.

Lemma digit_not c y : digit_val c = None -> (y < 10)%N -> Ascii.eqb (pretty_N_char y) c = false.
Proof. intros Hc Hy. apply Ascii.eqb_neq. intros E. apply pretty_N_char_digit in Hy. congruence. Qed.

Lemma until_any_stop stop a b : string_forallb (fun c => negb (stop c)) a = true -> match b with EmptyString => True | String c _ => stop c = true end ->
  until_any stop (a +:+ b) = a.
Proof.
  intros Ha Hb. induction a as [|c a IH].
  - change (EmptyString +:+ b) with b. destruct b as [|c b]; [done|]. cbn. by rewrite Hb.
  - cbn in Ha. apply andb_prop in Ha as [Hc Ha]. apply negb_true_iff in Hc. change (String c a +:+ b) with (String c (a +:+ b)). cbn. by rewrite Hc, IH.
Qed.

Definition dotted (a b c : Z) : string := big_String a +:+ String "." (big_String b +:+ String "." (big_String c)).

Lemma all_app (p : ascii -> bool) a b : string_forallb p (a +:+ b) = string_forallb p a && string_forallb p b.
Proof. induction a as [|c a IH]; [done|]. change (String c a +:+ b) with (String c (a +:+ b)). cbn. by rewrite IH, andb_assoc. Qed.

Lemma dotted_chars (p : ascii -> bool) a b c : 0 <= a -> 0 <= b -> 0 <= c -> (forall y, (y < 10)%N -> p (pretty_N_char y) = true) -> p "."%char = true ->
  string_forallb p (dotted a b c) = true.
Proof. intros Ha Hb Hc Hp Hd. unfold dotted. rewrite all_app. cbn. rewrite all_app. cbn. by rewrite Hd, !nat_text. Qed.

Lemma app_text_assoc (a b c : string) : (a +:+ b) +:+ c = a +:+ (b +:+ c).
Proof. induction a as [|x a IH]; [done|]. exact (f_equal (String x) IH). Qed.

Lemma release_tag_dotted v a b c s : release_tag v a b c s = (if v then "v" else "") +:+ (dotted a b c +:+ s).
Proof.
  unfold release_tag, dotted. f_equal. rewrite app_text_assoc. f_equal. change (String "." ?x +:+ s) with (String "." (x +:+ s)).
  rewrite app_text_assoc. done.
Qed.

Lemma Atoi_number z : number_ok z -> Atoi (big_String z) = Some z.
Proof. intros [H1 H2]. apply ParseInt_big_String. split; unfold int64_min; lia. Qed.

Lemma dotted_numbers a b c : number_ok a -> number_ok b -> number_ok c -> version_numbers (Split (dotted a b c) ".") = Some (a, b, c).
Proof.
  intros Ha Hb Hc. assert (forall z, number_ok z -> string_forallb (all_but "."%char) (big_String z) = true) as Hd.
  { intros z [Hz _]. apply nat_text; [done|]. intros y Hy. unfold all_but. by rewrite digit_not. }
  unfold dotted. rewrite !Split_app, Split_single by auto. cbn [version_numbers]. by rewrite !Atoi_number.
Qed.

Lemma last_ok_suffix a b : last_ok a = true -> last_ok b = true -> last_ok (a +:+ b) = true.
Proof.
  intros Ha Hb. destruct b as [|c b]; [|by rewrite last_ok_app]. by rewrite string_app_nil.
Qed.

Lemma parse_release v a b c s : number_ok a -> number_ok b -> number_ok c -> suffix_ok s -> parseSemver (release_tag v a b c s) = Some (a, b, c).
Proof.
  intros Ha Hb Hc [Hl Hs]. pose proof Ha as [Ha0 _]. pose proof Hb as [Hb0 _]. pose proof Hc as [Hc0 _].
  assert (forall p, (forall y, (y < 10)%N -> p (pretty_N_char y) = true) -> p "."%char = true -> string_forallb p (dotted a b c) = true) as Hd by (intros; by apply dotted_chars).
  assert (string_forallb (fun c => negb (is_space c)) (dotted a b c) = true) as [Hf Hlast]%all_ok_ends.
  { apply Hd; [|done]. intros y Hy. destruct y as [|q]; [done|]. repeat (destruct q as [q|q|]; try lia; try done). }
  assert (dotted a b c <> "") as Hne by (unfold dotted; by destruct (big_String a)).
  assert (last_ok (dotted a b c +:+ s) = true) as Hlast' by by apply last_ok_suffix.
  unfold parseSemver. rewrite release_tag_dotted.
  assert (TrimPrefix (TrimSpace ((if v then "v" else "") +:+ (dotted a b c +:+ s))) "v" = dotted a b c +:+ s) as ->.
  - destruct v.
    + rewrite TrimSpace_id; [done|done|]. rewrite last_ok_app; [done|]. by destruct (dotted a b c).
    + change ("" +:+ ?x) with x. rewrite TrimSpace_id; [|by rewrite first_ok_app|done].
      unfold TrimPrefix. replace (HasPrefix (dotted a b c +:+ s) "v") with false; [done|]. symmetry.
      pose proof (Hd (fun c => negb (Ascii.eqb c "v"))) as Hv. cbv beta in Hv. specialize (Hv ltac:(intros y Hy; by rewrite digit_not) eq_refl).
      destruct (dotted a b c) as [|d t]; [done|]. cbn -[Ascii.eqb] in Hv. apply andb_prop in Hv as [Hv _]. apply negb_true_iff, Ascii.eqb_neq in Hv.
      change (String d t +:+ s) with (String d (t +:+ s)). cbn -[Ascii.eqb]. rewrite andb_true_r. apply Ascii.eqb_neq. congruence.
  - rewrite until_any_stop; [|apply Hd; [|done]|done].
    + rewrite (proj2 (String.eqb_neq _ _) Hne). by apply dotted_numbers.
    + intros y Hy. unfold is_metadata. by rewrite !digit_not.
Qed.

(** The order of releases. *)
Definition later_release (x y : Z * Z * Z) : Prop :=
  let '(a, b, c) := x in let '(d, e, f) := y in d < a \/ d = a /\ (e < b \/ e = b /\ f < c).

(** Of two release tags, with or without a leading v and a pre-release or
    build suffix, the first counts as newer exactly when its three numbers are
    later in the order of releases; so no release is newer than itself and being
    newer is transitive. *)
Theorem isNewer_orders_releases (v v' : bool) (x y : Z * Z * Z) (s s' : string)
    (Hx : let '(a, b, c) := x in number_ok a /\ number_ok b /\ number_ok c) (Hy : let '(a, b, c) := y in number_ok a /\ number_ok b /\ number_ok c)
    (Hs : suffix_ok s) (Hs' : suffix_ok s') :
  let '(a, b, c) := x in let '(d, e, f) := y in
  isNewer (release_tag v a b c s) (release_tag v' d e f s') = true <-> later_release x y.
Proof.
  destruct x as [[a b] c], y as [[d e] f], Hx as (Ha & Hb & Hc), Hy as (Hd & He & Hf). unfold isNewer. rewrite !parse_release by done. unfold later_release.
  destruct (Z.eqb_spec a d); cbn [negb]; [|rewrite Z.ltb_lt; lia]. destruct (Z.eqb_spec b e); cbn [negb]; [|rewrite Z.ltb_lt; lia].
  destruct (Z.eqb_spec c f); cbn [negb]; [|rewrite Z.ltb_lt; lia]. split; [done|lia].
Qed.

Example isNewer_orders_releases_witness : isNewer "v1.10.0-rc1" "1.9.7+build" = true.
Proof.
  apply (isNewer_orders_releases true false (1, 10, 0) (1, 9, 7) "-rc1" "+build").
  - unfold number_ok, int64_max. lia.
  - unfold number_ok, int64_max. lia.
  - by split.
  - by split.
  - vm_compute. tauto.
Defined.
