(* ===== verification/Config.v ===== *)
(** * The configuration of an instance

    src/internal/config/config.go and src/internal/secrets/secrets.go. The
    environment is a function (empty for an unset variable), so are the contents
    of files and what the TOML decoder makes of the configuration file. *)

From stdpp Require Import gmap strings pretty.
From Stdlib Require Import Ascii.
From S2P Require Import Prelude GoLib Keyring.

Open Scope Z_scope.

(** ** Secrets *)

Definition WalletEncryption : string := "wallet-encryption".
Definition JWT : string := "jwt".

(** [EnvProvider], the only provider there is. *)
Record Provider := mkProvider { pr_keyrings : gmap string Keyring }.

Definition Provider_Keyring (p : Provider) (name : string) : result error Keyring :=
  match pr_keyrings p !! name with Some kr => Ok kr | None => Err (ENew "secrets: no keyring configured for ") end.

Record EnvConfig := mkEnvConfig { ec_WalletKey : string; ec_WalletKeysPrevious : list string; ec_JWTSecret : string; ec_JWTSecretsPrevious : list string }.

Definition NewEnvProvider (c : EnvConfig) : result error Provider :=
  match NewKeyring (ec_WalletKey c) (ec_WalletKeysPrevious c) with
  | Err err => Err (EWrap (WalletEncryption +:+ " keyring: ") [err])
  | Ok walletKR =>
      match NewKeyringRaw (ec_JWTSecret c) (ec_JWTSecretsPrevious c) with
      | Err err => Err (EWrap (JWT +:+ " keyring: ") [err])
      | Ok jwtKR => Ok (mkProvider (<[JWT := jwtKR]> {[WalletEncryption := walletKR]}))
      end
  end.

Definition BackendEnv : string := "env".

Definition NewProvider (backend : string) (env : EnvConfig) : result error Provider :=
  if String.eqb backend "" || String.eqb backend BackendEnv then NewEnvProvider env
  else Err (ENew ("secrets: backend " +:+ backend +:+ " is not implemented")).

(** ** The configuration *)

Record SMTPConfig := mkSMTPConfig { sc_Host : string; sc_Port : Z; sc_Username : string; sc_Password : string; sc_From : string; sc_UseTLS : bool }.

Record Config := mkConfig {
  cf_Port : Z;
  cf_DBURL : string;
  cf_AntdURL : string;
  cf_DataDir : string;
  cf_JWTSecret : string;
  cf_JWTSecretsPrevious : list string;
  cf_Debug : bool;
  cf_CORSOrigins : list string;
  cf_TrustedProxies : list string;
  cf_BaseURL : string;
  cf_WalletEncryptionKey : string;
  cf_WalletEncryptionKeysPrevious : list string;
  cf_SecretsBackend : string;
  cf_WorkersEnabled : bool;
  cf_DownloadCacheMaxBytes : option Z;
  cf_AntdManaged : bool;
  cf_AntdBin : string;
  cf_Network : string;
  cf_EvmRPCURL : string;
  cf_EvmTokenAddress : string;
  cf_SMTP : SMTPConfig;
  cf_AdminEmail : string;
  cf_AdminPassword : string;
  cf_secrets : option Provider;
  cf_walletKeyring : option Keyring;
  cf_jwtKeyring : option Keyring;
  cf_walletKeyUnconfigured : bool;
}.

Definition set_cf_Port (v : Z) (c : Config) : Config :=
  mkConfig v (cf_DBURL c) (cf_AntdURL c) (cf_DataDir c) (cf_JWTSecret c) (cf_JWTSecretsPrevious c) (cf_Debug c) (cf_CORSOrigins c) (cf_TrustedProxies c) (cf_BaseURL c) (cf_WalletEncryptionKey c) (cf_WalletEncryptionKeysPrevious c) (cf_SecretsBackend c) (cf_WorkersEnabled c) (cf_DownloadCacheMaxBytes c) (cf_AntdManaged c) (cf_AntdBin c) (cf_Network c) (cf_EvmRPCURL c) (cf_EvmTokenAddress c) (cf_SMTP c) (cf_AdminEmail c) (cf_AdminPassword c) (cf_secrets c) (cf_walletKeyring c) (cf_jwtKeyring c) (cf_walletKeyUnconfigured c).
Definition set_cf_DBURL (v : string) (c : Config) : Config :=
  mkConfig (cf_Port c) v (cf_AntdURL c) (cf_DataDir c) (cf_JWTSecret c) (cf_JWTSecretsPrevious c) (cf_Debug c) (cf_CORSOrigins c) (cf_TrustedProxies c) (cf_BaseURL c) (cf_WalletEncryptionKey c) (cf_WalletEncryptionKeysPrevious c) (cf_SecretsBackend c) (cf_WorkersEnabled c) (cf_DownloadCacheMaxBytes c) (cf_AntdManaged c) (cf_AntdBin c) (cf_Network c) (cf_EvmRPCURL c) (cf_EvmTokenAddress c) (cf_SMTP c) (cf_AdminEmail c) (cf_AdminPassword c) (cf_secrets c) (cf_walletKeyring c) (cf_jwtKeyring c) (cf_walletKeyUnconfigured c).
Definition set_cf_AntdURL (v : string) (c : Config) : Config :=
  mkConfig (cf_Port c) (cf_DBURL c) v (cf_DataDir c) (cf_JWTSecret c) (cf_JWTSecretsPrevious c) (cf_Debug c) (cf_CORSOrigins c) (cf_TrustedProxies c) (cf_BaseURL c) (cf_WalletEncryptionKey c) (cf_WalletEncryptionKeysPrevious c) (cf_SecretsBackend c) (cf_WorkersEnabled c) (cf_DownloadCacheMaxBytes c) (cf_AntdManaged c) (cf_AntdBin c) (cf_Network c) (cf_EvmRPCURL c) (cf_EvmTokenAddress c) (cf_SMTP c) (cf_AdminEmail c) (cf_AdminPassword c) (cf_secrets c) (cf_walletKeyring c) (cf_jwtKeyring c) (cf_walletKeyUnconfigured c).
Definition set_cf_DataDir (v : string) (c : Config) : Config :=
  mkConfig (cf_Port c) (cf_DBURL c) (cf_AntdURL c) v (cf_JWTSecret c) (cf_JWTSecretsPrevious c) (cf_Debug c) (cf_CORSOrigins c) (cf_TrustedProxies c) (cf_BaseURL c) (cf_WalletEncryptionKey c) (cf_WalletEncryptionKeysPrevious c) (cf_SecretsBackend c) (cf_WorkersEnabled c) (cf_DownloadCacheMaxBytes c) (cf_AntdManaged c) (cf_AntdBin c) (cf_Network c) (cf_EvmRPCURL c) (cf_EvmTokenAddress c) (cf_SMTP c) (cf_AdminEmail c) (cf_AdminPassword c) (cf_secrets c) (cf_walletKeyring c) (cf_jwtKeyring c) (cf_walletKeyUnconfigured c).
Definition set_cf_JWTSecret (v : string) (c : Config) : Config :=
  mkConfig (cf_Port c) (cf_DBURL c) (cf_AntdURL c) (cf_DataDir c) v (cf_JWTSecretsPrevious c) (cf_Debug c) (cf_CORSOrigins c) (cf_TrustedProxies c) (cf_BaseURL c) (cf_WalletEncryptionKey c) (cf_WalletEncryptionKeysPrevious c) (cf_SecretsBackend c) (cf_WorkersEnabled c) (cf_DownloadCacheMaxBytes c) (cf_AntdManaged c) (cf_AntdBin c) (cf_Network c) (cf_EvmRPCURL c) (cf_EvmTokenAddress c) (cf_SMTP c) (cf_AdminEmail c) (cf_AdminPassword c) (cf_secrets c) (cf_walletKeyring c) (cf_jwtKeyring c) (cf_walletKeyUnconfigured c).
Definition set_cf_JWTSecretsPrevious (v : list string) (c : Config) : Config :=
  mkConfig (cf_Port c) (cf_DBURL c) (cf_AntdURL c) (cf_DataDir c) (cf_JWTSecret c) v (cf_Debug c) (cf_CORSOrigins c) (cf_TrustedProxies c) (cf_BaseURL c) (cf_WalletEncryptionKey c) (cf_WalletEncryptionKeysPrevious c) (cf_SecretsBackend c) (cf_WorkersEnabled c) (cf_DownloadCacheMaxBytes c) (cf_AntdManaged c) (cf_AntdBin c) (cf_Network c) (cf_EvmRPCURL c) (cf_EvmTokenAddress c) (cf_SMTP c) (cf_AdminEmail c) (cf_AdminPassword c) (cf_secrets c) (cf_walletKeyring c) (cf_jwtKeyring c) (cf_walletKeyUnconfigured c).
Definition set_cf_Debug (v : bool) (c : Config) : Config :=
  mkConfig (cf_Port c) (cf_DBURL c) (cf_AntdURL c) (cf_DataDir c) (cf_JWTSecret c) (cf_JWTSecretsPrevious c) v (cf_CORSOrigins c) (cf_TrustedProxies c) (cf_BaseURL c) (cf_WalletEncryptionKey c) (cf_WalletEncryptionKeysPrevious c) (cf_SecretsBackend c) (cf_WorkersEnabled c) (cf_DownloadCacheMaxBytes c) (cf_AntdManaged c) (cf_AntdBin c) (cf_Network c) (cf_EvmRPCURL c) (cf_EvmTokenAddress c) (cf_SMTP c) (cf_AdminEmail c) (cf_AdminPassword c) (cf_secrets c) (cf_walletKeyring c) (cf_jwtKeyring c) (cf_walletKeyUnconfigured c).
Definition set_cf_CORSOrigins (v : list string) (c : Config) : Config :=
  mkConfig (cf_Port c) (cf_DBURL c) (cf_AntdURL c) (cf_DataDir c) (cf_JWTSecret c) (cf_JWTSecretsPrevious c) (cf_Debug c) v (cf_TrustedProxies c) (cf_BaseURL c) (cf_WalletEncryptionKey c) (cf_WalletEncryptionKeysPrevious c) (cf_SecretsBackend c) (cf_WorkersEnabled c) (cf_DownloadCacheMaxBytes c) (cf_AntdManaged c) (cf_AntdBin c) (cf_Network c) (cf_EvmRPCURL c) (cf_EvmTokenAddress c) (cf_SMTP c) (cf_AdminEmail c) (cf_AdminPassword c) (cf_secrets c) (cf_walletKeyring c) (cf_jwtKeyring c) (cf_walletKeyUnconfigured c).
Definition set_cf_TrustedProxies (v : list string) (c : Config) : Config :=
  mkConfig (cf_Port c) (cf_DBURL c) (cf_AntdURL c) (cf_DataDir c) (cf_JWTSecret c) (cf_JWTSecretsPrevious c) (cf_Debug c) (cf_CORSOrigins c) v (cf_BaseURL c) (cf_WalletEncryptionKey c) (cf_WalletEncryptionKeysPrevious c) (cf_SecretsBackend c) (cf_WorkersEnabled c) (cf_DownloadCacheMaxBytes c) (cf_AntdManaged c) (cf_AntdBin c) (cf_Network c) (cf_EvmRPCURL c) (cf_EvmTokenAddress c) (cf_SMTP c) (cf_AdminEmail c) (cf_AdminPassword c) (cf_secrets c) (cf_walletKeyring c) (cf_jwtKeyring c) (cf_walletKeyUnconfigured c).
Definition set_cf_BaseURL (v : string) (c : Config) : Config :=
  mkConfig (cf_Port c) (cf_DBURL c) (cf_AntdURL c) (cf_DataDir c) (cf_JWTSecret c) (cf_JWTSecretsPrevious c) (cf_Debug c) (cf_CORSOrigins c) (cf_TrustedProxies c) v (cf_WalletEncryptionKey c) (cf_WalletEncryptionKeysPrevious c) (cf_SecretsBackend c) (cf_WorkersEnabled c) (cf_DownloadCacheMaxBytes c) (cf_AntdManaged c) (cf_AntdBin c) (cf_Network c) (cf_EvmRPCURL c) (cf_EvmTokenAddress c) (cf_SMTP c) (cf_AdminEmail c) (cf_AdminPassword c) (cf_secrets c) (cf_walletKeyring c) (cf_jwtKeyring c) (cf_walletKeyUnconfigured c).
Definition set_cf_WalletEncryptionKey (v : string) (c : Config) : Config :=
  mkConfig (cf_Port c) (cf_DBURL c) (cf_AntdURL c) (cf_DataDir c) (cf_JWTSecret c) (cf_JWTSecretsPrevious c) (cf_Debug c) (cf_CORSOrigins c) (cf_TrustedProxies c) (cf_BaseURL c) v (cf_WalletEncryptionKeysPrevious c) (cf_SecretsBackend c) (cf_WorkersEnabled c) (cf_DownloadCacheMaxBytes c) (cf_AntdManaged c) (cf_AntdBin c) (cf_Network c) (cf_EvmRPCURL c) (cf_EvmTokenAddress c) (cf_SMTP c) (cf_AdminEmail c) (cf_AdminPassword c) (cf_secrets c) (cf_walletKeyring c) (cf_jwtKeyring c) (cf_walletKeyUnconfigured c).
Definition set_cf_WalletEncryptionKeysPrevious (v : list string) (c : Config) : Config :=
  mkConfig (cf_Port c) (cf_DBURL c) (cf_AntdURL c) (cf_DataDir c) (cf_JWTSecret c) (cf_JWTSecretsPrevious c) (cf_Debug c) (cf_CORSOrigins c) (cf_TrustedProxies c) (cf_BaseURL c) (cf_WalletEncryptionKey c) v (cf_SecretsBackend c) (cf_WorkersEnabled c) (cf_DownloadCacheMaxBytes c) (cf_AntdManaged c) (cf_AntdBin c) (cf_Network c) (cf_EvmRPCURL c) (cf_EvmTokenAddress c) (cf_SMTP c) (cf_AdminEmail c) (cf_AdminPassword c) (cf_secrets c) (cf_walletKeyring c) (cf_jwtKeyring c) (cf_walletKeyUnconfigured c).
Definition set_cf_SecretsBackend (v : string) (c : Config) : Config :=
  mkConfig (cf_Port c) (cf_DBURL c) (cf_AntdURL c) (cf_DataDir c) (cf_JWTSecret c) (cf_JWTSecretsPrevious c) (cf_Debug c) (cf_CORSOrigins c) (cf_TrustedProxies c) (cf_BaseURL c) (cf_WalletEncryptionKey c) (cf_WalletEncryptionKeysPrevious c) v (cf_WorkersEnabled c) (cf_DownloadCacheMaxBytes c) (cf_AntdManaged c) (cf_AntdBin c) (cf_Network c) (cf_EvmRPCURL c) (cf_EvmTokenAddress c) (cf_SMTP c) (cf_AdminEmail c) (cf_AdminPassword c) (cf_secrets c) (cf_walletKeyring c) (cf_jwtKeyring c) (cf_walletKeyUnconfigured c).
Definition set_cf_WorkersEnabled (v : bool) (c : Config) : Config :=
  mkConfig (cf_Port c) (cf_DBURL c) (cf_AntdURL c) (cf_DataDir c) (cf_JWTSecret c) (cf_JWTSecretsPrevious c) (cf_Debug c) (cf_CORSOrigins c) (cf_TrustedProxies c) (cf_BaseURL c) (cf_WalletEncryptionKey c) (cf_WalletEncryptionKeysPrevious c) (cf_SecretsBackend c) v (cf_DownloadCacheMaxBytes c) (cf_AntdManaged c) (cf_AntdBin c) (cf_Network c) (cf_EvmRPCURL c) (cf_EvmTokenAddress c) (cf_SMTP c) (cf_AdminEmail c) (cf_AdminPassword c) (cf_secrets c) (cf_walletKeyring c) (cf_jwtKeyring c) (cf_walletKeyUnconfigured c).
Definition set_cf_DownloadCacheMaxBytes (v : option Z) (c : Config) : Config :=
  mkConfig (cf_Port c) (cf_DBURL c) (cf_AntdURL c) (cf_DataDir c) (cf_JWTSecret c) (cf_JWTSecretsPrevious c) (cf_Debug c) (cf_CORSOrigins c) (cf_TrustedProxies c) (cf_BaseURL c) (cf_WalletEncryptionKey c) (cf_WalletEncryptionKeysPrevious c) (cf_SecretsBackend c) (cf_WorkersEnabled c) v (cf_AntdManaged c) (cf_AntdBin c) (cf_Network c) (cf_EvmRPCURL c) (cf_EvmTokenAddress c) (cf_SMTP c) (cf_AdminEmail c) (cf_AdminPassword c) (cf_secrets c) (cf_walletKeyring c) (cf_jwtKeyring c) (cf_walletKeyUnconfigured c).
Definition set_cf_AntdManaged (v : bool) (c : Config) : Config :=
  mkConfig (cf_Port c) (cf_DBURL c) (cf_AntdURL c) (cf_DataDir c) (cf_JWTSecret c) (cf_JWTSecretsPrevious c) (cf_Debug c) (cf_CORSOrigins c) (cf_TrustedProxies c) (cf_BaseURL c) (cf_WalletEncryptionKey c) (cf_WalletEncryptionKeysPrevious c) (cf_SecretsBackend c) (cf_WorkersEnabled c) (cf_DownloadCacheMaxBytes c) v (cf_AntdBin c) (cf_Network c) (cf_EvmRPCURL c) (cf_EvmTokenAddress c) (cf_SMTP c) (cf_AdminEmail c) (cf_AdminPassword c) (cf_secrets c) (cf_walletKeyring c) (cf_jwtKeyring c) (cf_walletKeyUnconfigured c).
Definition set_cf_AntdBin (v : string) (c : Config) : Config :=
  mkConfig (cf_Port c) (cf_DBURL c) (cf_AntdURL c) (cf_DataDir c) (cf_JWTSecret c) (cf_JWTSecretsPrevious c) (cf_Debug c) (cf_CORSOrigins c) (cf_TrustedProxies c) (cf_BaseURL c) (cf_WalletEncryptionKey c) (cf_WalletEncryptionKeysPrevious c) (cf_SecretsBackend c) (cf_WorkersEnabled c) (cf_DownloadCacheMaxBytes c) (cf_AntdManaged c) v (cf_Network c) (cf_EvmRPCURL c) (cf_EvmTokenAddress c) (cf_SMTP c) (cf_AdminEmail c) (cf_AdminPassword c) (cf_secrets c) (cf_walletKeyring c) (cf_jwtKeyring c) (cf_walletKeyUnconfigured c).
Definition set_cf_Network (v : string) (c : Config) : Config :=
  mkConfig (cf_Port c) (cf_DBURL c) (cf_AntdURL c) (cf_DataDir c) (cf_JWTSecret c) (cf_JWTSecretsPrevious c) (cf_Debug c) (cf_CORSOrigins c) (cf_TrustedProxies c) (cf_BaseURL c) (cf_WalletEncryptionKey c) (cf_WalletEncryptionKeysPrevious c) (cf_SecretsBackend c) (cf_WorkersEnabled c) (cf_DownloadCacheMaxBytes c) (cf_AntdManaged c) (cf_AntdBin c) v (cf_EvmRPCURL c) (cf_EvmTokenAddress c) (cf_SMTP c) (cf_AdminEmail c) (cf_AdminPassword c) (cf_secrets c) (cf_walletKeyring c) (cf_jwtKeyring c) (cf_walletKeyUnconfigured c).
Definition set_cf_EvmRPCURL (v : string) (c : Config) : Config :=
  mkConfig (cf_Port c) (cf_DBURL c) (cf_AntdURL c) (cf_DataDir c) (cf_JWTSecret c) (cf_JWTSecretsPrevious c) (cf_Debug c) (cf_CORSOrigins c) (cf_TrustedProxies c) (cf_BaseURL c) (cf_WalletEncryptionKey c) (cf_WalletEncryptionKeysPrevious c) (cf_SecretsBackend c) (cf_WorkersEnabled c) (cf_DownloadCacheMaxBytes c) (cf_AntdManaged c) (cf_AntdBin c) (cf_Network c) v (cf_EvmTokenAddress c) (cf_SMTP c) (cf_AdminEmail c) (cf_AdminPassword c) (cf_secrets c) (cf_walletKeyring c) (cf_jwtKeyring c) (cf_walletKeyUnconfigured c).
Definition set_cf_EvmTokenAddress (v : string) (c : Config) : Config :=
  mkConfig (cf_Port c) (cf_DBURL c) (cf_AntdURL c) (cf_DataDir c) (cf_JWTSecret c) (cf_JWTSecretsPrevious c) (cf_Debug c) (cf_CORSOrigins c) (cf_TrustedProxies c) (cf_BaseURL c) (cf_WalletEncryptionKey c) (cf_WalletEncryptionKeysPrevious c) (cf_SecretsBackend c) (cf_WorkersEnabled c) (cf_DownloadCacheMaxBytes c) (cf_AntdManaged c) (cf_AntdBin c) (cf_Network c) (cf_EvmRPCURL c) v (cf_SMTP c) (cf_AdminEmail c) (cf_AdminPassword c) (cf_secrets c) (cf_walletKeyring c) (cf_jwtKeyring c) (cf_walletKeyUnconfigured c).
Definition set_cf_SMTP (v : SMTPConfig) (c : Config) : Config :=
  mkConfig (cf_Port c) (cf_DBURL c) (cf_AntdURL c) (cf_DataDir c) (cf_JWTSecret c) (cf_JWTSecretsPrevious c) (cf_Debug c) (cf_CORSOrigins c) (cf_TrustedProxies c) (cf_BaseURL c) (cf_WalletEncryptionKey c) (cf_WalletEncryptionKeysPrevious c) (cf_SecretsBackend c) (cf_WorkersEnabled c) (cf_DownloadCacheMaxBytes c) (cf_AntdManaged c) (cf_AntdBin c) (cf_Network c) (cf_EvmRPCURL c) (cf_EvmTokenAddress c) v (cf_AdminEmail c) (cf_AdminPassword c) (cf_secrets c) (cf_walletKeyring c) (cf_jwtKeyring c) (cf_walletKeyUnconfigured c).
Definition set_cf_AdminEmail (v : string) (c : Config) : Config :=
  mkConfig (cf_Port c) (cf_DBURL c) (cf_AntdURL c) (cf_DataDir c) (cf_JWTSecret c) (cf_JWTSecretsPrevious c) (cf_Debug c) (cf_CORSOrigins c) (cf_TrustedProxies c) (cf_BaseURL c) (cf_WalletEncryptionKey c) (cf_WalletEncryptionKeysPrevious c) (cf_SecretsBackend c) (cf_WorkersEnabled c) (cf_DownloadCacheMaxBytes c) (cf_AntdManaged c) (cf_AntdBin c) (cf_Network c) (cf_EvmRPCURL c) (cf_EvmTokenAddress c) (cf_SMTP c) v (cf_AdminPassword c) (cf_secrets c) (cf_walletKeyring c) (cf_jwtKeyring c) (cf_walletKeyUnconfigured c).
Definition set_cf_AdminPassword (v : string) (c : Config) : Config :=
  mkConfig (cf_Port c) (cf_DBURL c) (cf_AntdURL c) (cf_DataDir c) (cf_JWTSecret c) (cf_JWTSecretsPrevious c) (cf_Debug c) (cf_CORSOrigins c) (cf_TrustedProxies c) (cf_BaseURL c) (cf_WalletEncryptionKey c) (cf_WalletEncryptionKeysPrevious c) (cf_SecretsBackend c) (cf_WorkersEnabled c) (cf_DownloadCacheMaxBytes c) (cf_AntdManaged c) (cf_AntdBin c) (cf_Network c) (cf_EvmRPCURL c) (cf_EvmTokenAddress c) (cf_SMTP c) (cf_AdminEmail c) v (cf_secrets c) (cf_walletKeyring c) (cf_jwtKeyring c) (cf_walletKeyUnconfigured c).
Definition set_cf_secrets (v : option Provider) (c : Config) : Config :=
  mkConfig (cf_Port c) (cf_DBURL c) (cf_AntdURL c) (cf_DataDir c) (cf_JWTSecret c) (cf_JWTSecretsPrevious c) (cf_Debug c) (cf_CORSOrigins c) (cf_TrustedProxies c) (cf_BaseURL c) (cf_WalletEncryptionKey c) (cf_WalletEncryptionKeysPrevious c) (cf_SecretsBackend c) (cf_WorkersEnabled c) (cf_DownloadCacheMaxBytes c) (cf_AntdManaged c) (cf_AntdBin c) (cf_Network c) (cf_EvmRPCURL c) (cf_EvmTokenAddress c) (cf_SMTP c) (cf_AdminEmail c) (cf_AdminPassword c) v (cf_walletKeyring c) (cf_jwtKeyring c) (cf_walletKeyUnconfigured c).
Definition set_cf_walletKeyring (v : option Keyring) (c : Config) : Config :=
  mkConfig (cf_Port c) (cf_DBURL c) (cf_AntdURL c) (cf_DataDir c) (cf_JWTSecret c) (cf_JWTSecretsPrevious c) (cf_Debug c) (cf_CORSOrigins c) (cf_TrustedProxies c) (cf_BaseURL c) (cf_WalletEncryptionKey c) (cf_WalletEncryptionKeysPrevious c) (cf_SecretsBackend c) (cf_WorkersEnabled c) (cf_DownloadCacheMaxBytes c) (cf_AntdManaged c) (cf_AntdBin c) (cf_Network c) (cf_EvmRPCURL c) (cf_EvmTokenAddress c) (cf_SMTP c) (cf_AdminEmail c) (cf_AdminPassword c) (cf_secrets c) v (cf_jwtKeyring c) (cf_walletKeyUnconfigured c).
Definition set_cf_jwtKeyring (v : option Keyring) (c : Config) : Config :=
  mkConfig (cf_Port c) (cf_DBURL c) (cf_AntdURL c) (cf_DataDir c) (cf_JWTSecret c) (cf_JWTSecretsPrevious c) (cf_Debug c) (cf_CORSOrigins c) (cf_TrustedProxies c) (cf_BaseURL c) (cf_WalletEncryptionKey c) (cf_WalletEncryptionKeysPrevious c) (cf_SecretsBackend c) (cf_WorkersEnabled c) (cf_DownloadCacheMaxBytes c) (cf_AntdManaged c) (cf_AntdBin c) (cf_Network c) (cf_EvmRPCURL c) (cf_EvmTokenAddress c) (cf_SMTP c) (cf_AdminEmail c) (cf_AdminPassword c) (cf_secrets c) (cf_walletKeyring c) v (cf_walletKeyUnconfigured c).
Definition set_cf_walletKeyUnconfigured (v : bool) (c : Config) : Config :=
  mkConfig (cf_Port c) (cf_DBURL c) (cf_AntdURL c) (cf_DataDir c) (cf_JWTSecret c) (cf_JWTSecretsPrevious c) (cf_Debug c) (cf_CORSOrigins c) (cf_TrustedProxies c) (cf_BaseURL c) (cf_WalletEncryptionKey c) (cf_WalletEncryptionKeysPrevious c) (cf_SecretsBackend c) (cf_WorkersEnabled c) (cf_DownloadCacheMaxBytes c) (cf_AntdManaged c) (cf_AntdBin c) (cf_Network c) (cf_EvmRPCURL c) (cf_EvmTokenAddress c) (cf_SMTP c) (cf_AdminEmail c) (cf_AdminPassword c) (cf_secrets c) (cf_walletKeyring c) (cf_jwtKeyring c) v.

Definition set_smtp_Host (v : string) (c : Config) : Config :=
  let s := cf_SMTP c in set_cf_SMTP (mkSMTPConfig v (sc_Port s) (sc_Username s) (sc_Password s) (sc_From s) (sc_UseTLS s)) c.
Definition set_smtp_Port (v : Z) (c : Config) : Config :=
  let s := cf_SMTP c in set_cf_SMTP (mkSMTPConfig (sc_Host s) v (sc_Username s) (sc_Password s) (sc_From s) (sc_UseTLS s)) c.
Definition set_smtp_Username (v : string) (c : Config) : Config :=
  let s := cf_SMTP c in set_cf_SMTP (mkSMTPConfig (sc_Host s) (sc_Port s) v (sc_Password s) (sc_From s) (sc_UseTLS s)) c.
Definition set_smtp_Password (v : string) (c : Config) : Config :=
  let s := cf_SMTP c in set_cf_SMTP (mkSMTPConfig (sc_Host s) (sc_Port s) (sc_Username s) v (sc_From s) (sc_UseTLS s)) c.
Definition set_smtp_From (v : string) (c : Config) : Config :=
  let s := cf_SMTP c in set_cf_SMTP (mkSMTPConfig (sc_Host s) (sc_Port s) (sc_Username s) (sc_Password s) v (sc_UseTLS s)) c.
Definition set_smtp_UseTLS (v : bool) (c : Config) : Config :=
  let s := cf_SMTP c in set_cf_SMTP (mkSMTPConfig (sc_Host s) (sc_Port s) (sc_Username s) (sc_Password s) (sc_From s) v) c.

Definition WalletKeyConfigured (c : Config) : bool := negb (cf_walletKeyUnconfigured c).

(** A [Config] that [Load] did not build assembles its keyring; the error of a
    bad key is dropped and the keyring is nil. *)
Definition WalletKeyring (c : Config) : option Keyring :=
  match cf_walletKeyring c with
  | Some kr => Some kr
  | None => match NewKeyring (cf_WalletEncryptionKey c) (cf_WalletEncryptionKeysPrevious c) with Ok kr => Some kr | Err _ => None end
  end.

Definition JWTKeyring (c : Config) : option Keyring :=
  match cf_jwtKeyring c with
  | Some kr => Some kr
  | None => match NewKeyringRaw (cf_JWTSecret c) (cf_JWTSecretsPrevious c) with Ok kr => Some kr | Err _ => None end
  end.

Definition SMTPConfigured (c : Config) : bool :=
  negb (String.eqb (sc_Host (cf_SMTP c)) "") && negb (String.eqb (sc_From (cf_SMTP c)) "").

Definition NetworkArbitrumOne : string := "arbitrum-one".
Definition NetworkArbitrumSepolia : string := "arbitrum-sepolia".
Definition NetworkCustom : string := "custom".
Definition NetworkLocal : string := "local".

Definition arbitrumOneRPCURL : string := "https://arb1.arbitrum.io/rpc".
Definition arbitrumOneTokenAddress : string := "0xa78d8321B20c4Ef90eCd72f2588AA985A4BDb684".
Definition arbitrumSepoliaRPCURL : string := "https://sepolia-rollup.arbitrum.io/rpc".
Definition arbitrumSepoliaTokenAddress : string := "0x4bc1aCE0E66170375462cB4E6Af42Ad4D5EC689C".

Definition fill_evm (rpc token : string) (c : Config) : Config :=
  let c := if String.eqb (cf_EvmRPCURL c) "" then set_cf_EvmRPCURL rpc c else c in
  if String.eqb (cf_EvmTokenAddress c) "" then set_cf_EvmTokenAddress token c else c.

(** The receiver is changed on the error path too. *)
Definition ApplyNetworkPreset (c : Config) : result error unit * Config :=
  let c := if String.eqb (cf_Network c) "" then set_cf_Network NetworkArbitrumOne c else c in
  let c := if String.eqb (cf_Network c) NetworkLocal then set_cf_Network NetworkCustom c else c in
  if String.eqb (cf_Network c) NetworkArbitrumOne then (Ok tt, fill_evm arbitrumOneRPCURL arbitrumOneTokenAddress c) else
  if String.eqb (cf_Network c) NetworkArbitrumSepolia then (Ok tt, fill_evm arbitrumSepoliaRPCURL arbitrumSepoliaTokenAddress c) else
  if String.eqb (cf_Network c) NetworkCustom then (Ok tt, c) else
  (Err (ENew ("unknown network " +:+ cf_Network c)), c).

Definition DBDriver (c : Config) : string := if HasPrefix (cf_DBURL c) "postgres" then "postgres" else "sqlite".

(** ** Loading *)

Definition default_config : Config :=
  mkConfig 8080 "sqlite:///var/lib/indelible/data.db" "http://localhost:8082" "/var/lib/indelible" "" [] false [] [] "" "" [] "" true
    None false "" "" "" "" (mkSMTPConfig "" 0 "" "" "" false) "" "" None None None false.

Definition placeholderWalletKey : string := "0000000000000000000000000000000000000000000000000000000000000000".

(** A list of secrets between commas; blank ones are left out. *)
Definition secret_list (v : string) : list string :=
  List.filter (fun s => negb (String.eqb s "")) (map TrimSpace (Split v ",")).

Definition truthy (v : string) : bool := String.eqb v "true" || String.eqb v "1".

Section load.
Context (Getenv : string -> string) (ReadFile : string -> result error string) (ToLower : string -> string).
(** [toml.DecodeFile(path, cfg)]: the fields the file names. *)
Context (DecodeFile : string -> Config -> result error Config).

Abbreviation CfgM := (ST error Config).

(** [if v := os.Getenv(name); v != ""]. *)
Definition from_env (name : string) (f : string -> CfgM unit) : CfgM unit :=
  let v := Getenv name in if String.eqb v "" then mret tt else f v.

Definition env_to (name : string) (set : string -> Config -> Config) : CfgM unit := from_env name (fun v => modify (set v)).

(** The variant that names a file, whose text is trimmed. *)
Definition env_file (name : string) (set : string -> Config -> Config) : CfgM unit :=
  from_env name (fun v =>
    match ReadFile v with
    | Err err => fail (EWrap ("reading " +:+ name +:+ ": ") [err])
    | Ok b => modify (set (TrimSpace b))
    end).

Definition env_port : CfgM unit :=
  from_env "INDELIBLE_PORT" (fun v =>
    match Atoi v with None => fail (ENew "invalid INDELIBLE_PORT: ") | Some port => modify (set_cf_Port port) end).

(** A port that is no number is 0. *)
Definition atoi_value (v : string) : Z := match parse_big v with Some z => Z.max int64_min (Z.min int64_max z) | None => 0 end.

Definition env_budget : CfgM unit :=
  from_env "INDELIBLE_DOWNLOAD_CACHE_MAX_BYTES" (fun v =>
    match ParseInt v with
    | Some n => if n <? 0 then fail (ENew "invalid INDELIBLE_DOWNLOAD_CACHE_MAX_BYTES") else modify (set_cf_DownloadCacheMaxBytes (Some n))
    | None => fail (ENew "invalid INDELIBLE_DOWNLOAD_CACHE_MAX_BYTES")
    end).

(** The overrides, in the order of the code. *)
Definition overlay : CfgM unit :=
  env_port ;;
  env_to "INDELIBLE_DB_URL" set_cf_DBURL ;;
  env_to "INDELIBLE_ANTD_URL" set_cf_AntdURL ;;
  env_to "INDELIBLE_DATA_DIR" set_cf_DataDir ;;
  env_to "INDELIBLE_JWT_SECRET" set_cf_JWTSecret ;;
  env_file "INDELIBLE_JWT_SECRET_FILE" set_cf_JWTSecret ;;
  env_to "INDELIBLE_JWT_SECRET_PREVIOUS" (fun v => set_cf_JWTSecretsPrevious (secret_list v)) ;;
  env_to "INDELIBLE_DEBUG" (fun v => set_cf_Debug (truthy v)) ;;
  env_to "INDELIBLE_CORS_ORIGINS" (fun v => set_cf_CORSOrigins (Split v ",")) ;;
  env_to "INDELIBLE_TRUSTED_PROXIES" (fun v => set_cf_TrustedProxies (Split v ",")) ;;
  env_to "INDELIBLE_BASE_URL" set_cf_BaseURL ;;
  env_to "INDELIBLE_WALLET_ENCRYPTION_KEY" set_cf_WalletEncryptionKey ;;
  env_file "INDELIBLE_WALLET_ENCRYPTION_KEY_FILE" set_cf_WalletEncryptionKey ;;
  env_to "INDELIBLE_WALLET_ENCRYPTION_KEY_PREVIOUS" (fun v => set_cf_WalletEncryptionKeysPrevious (secret_list v)) ;;
  env_to "INDELIBLE_SECRETS_BACKEND" set_cf_SecretsBackend ;;
  env_to "INDELIBLE_SMTP_HOST" set_smtp_Host ;;
  env_to "INDELIBLE_SMTP_PORT" (fun v => set_smtp_Port (atoi_value v)) ;;
  env_to "INDELIBLE_SMTP_USERNAME" set_smtp_Username ;;
  env_to "INDELIBLE_SMTP_PASSWORD" set_smtp_Password ;;
  env_to "INDELIBLE_SMTP_FROM" set_smtp_From ;;
  env_to "INDELIBLE_SMTP_USE_TLS" (fun v => set_smtp_UseTLS (truthy v)) ;;
  env_to "INDELIBLE_ADMIN_EMAIL" (fun v => set_cf_AdminEmail (TrimSpace (ToLower v))) ;;
  env_to "INDELIBLE_ADMIN_PASSWORD" set_cf_AdminPassword ;;
  env_file "INDELIBLE_ADMIN_PASSWORD_FILE" set_cf_AdminPassword ;;
  env_to "INDELIBLE_WORKERS_ENABLED" (fun v => set_cf_WorkersEnabled (truthy v)) ;;
  env_budget ;;
  env_to "INDELIBLE_ANTD_MANAGED" (fun v => set_cf_AntdManaged (truthy v)) ;;
  env_to "INDELIBLE_ANTD_BIN" set_cf_AntdBin ;;
  env_to "INDELIBLE_NETWORK" set_cf_Network ;;
  env_to "INDELIBLE_EVM_RPC_URL" set_cf_EvmRPCURL ;;
  env_to "INDELIBLE_EVM_TOKEN_ADDRESS" set_cf_EvmTokenAddress.

Definition late_defaults (c : Config) : Config :=
  let c := if String.eqb (cf_AntdBin c) "" then set_cf_AntdBin "antd" c else c in
  if negb (String.eqb (sc_Host (cf_SMTP c)) "") && (sc_Port (cf_SMTP c) =? 0) then set_smtp_Port 587 c else c.

Definition long_enough (s : string) : bool := 32 <=? Z.of_nat (String.length s).

Definition check_jwt (c : Config) : result error unit :=
  if String.eqb (cf_JWTSecret c) "" then Err (ENew "jwt_secret is required") else
  if negb (long_enough (cf_JWTSecret c)) then Err (ENew "jwt_secret must be at least 32 characters") else
  if negb (forallb long_enough (cf_JWTSecretsPrevious c)) then Err (ENew "jwt_secrets_previous must be at least 32 characters") else Ok tt.

(** Only an instance without workers goes without the wallet key. *)
Definition check_wallet_key (c : Config) : result error Config :=
  if String.eqb (cf_WalletEncryptionKey c) "" || String.eqb (cf_WalletEncryptionKey c) placeholderWalletKey then
    if cf_WorkersEnabled c then Err (ENew "wallet_encryption_key is required")
    else Ok (set_cf_walletKeyUnconfigured true (set_cf_WalletEncryptionKey placeholderWalletKey c))
  else Ok c.

Definition build_keyrings (c : Config) : result error Config :=
  match NewProvider (cf_SecretsBackend c)
          (mkEnvConfig (cf_WalletEncryptionKey c) (cf_WalletEncryptionKeysPrevious c) (cf_JWTSecret c) (cf_JWTSecretsPrevious c)) with
  | Err err => Err err
  | Ok p =>
      match Provider_Keyring p WalletEncryption, Provider_Keyring p JWT with
      | Err err, _ => Err err
      | _, Err err => Err err
      | Ok w, Ok j => Ok (set_cf_jwtKeyring (Some j) (set_cf_walletKeyring (Some w) (set_cf_secrets (Some p) c)))
      end
  end.

Definition Load_config (path : string) : result error Config :=
  let start := if String.eqb path "" then Ok default_config else
    match DecodeFile path default_config with Err err => Err (EWrap ("reading config " +:+ path +:+ ": ") [err]) | Ok c => Ok c end in
  match start with
  | Err err => Err err
  | Ok c =>
      match overlay c with
      | (Err err, _) => Err err
      | (Ok _, c) =>
          let c := late_defaults c in
          match check_jwt c with
          | Err err => Err err
          | Ok _ => match check_wallet_key c with Err err => Err err | Ok c => build_keyrings c end
          end
      end
  end.
End load.

(** * What a configuration that loads is worth

    The secrets an instance signs, verifies and encrypts with. *)

Open Scope Z_scope.

(** ** Keyrings *)

(** Every id of a ring has its key, which is one of those it was made from. *)
Definition ring_of (p : string) (es : list string) (kr : Keyring) : Prop :=
  keys kr !! primary kr = Some p /\ Forall (fun i => is_Some (keys kr !! i)) (order kr) /\ map_Forall (fun _ k => In k (p :: es)) (keys kr).

Lemma add_extras_ring idFn p es1 : forall es2 kr kr', ring_of p es1 kr -> incl es2 es1 ->
  add_extras idFn kr es2 = Ok kr' -> ring_of p es1 kr'.
Proof.
  induction es2 as [|e es IH]; intros kr kr' Hr Hin H; cbn in H; [by injection H as <-|].
  destruct (idFn e) as [i|]; [|done]. assert (incl es es1) as Hin' by (intros x Hx; apply Hin; by right).
  destruct (keys kr !! i) as [k|] eqn:Ei; [by eapply IH|].
  eapply IH; [|exact Hin'|exact H]. destruct Hr as (Hp & Ho & Hk). split_and!; cbn.
  - rewrite lookup_insert_ne; [done|]. intros ->. congruence.
  - apply Forall_app. split.
    + eapply Forall_impl; [exact Ho|]. intros j Hj. destruct (decide (i = j)) as [->|]; [rewrite lookup_insert_eq; eauto|by rewrite lookup_insert_ne].
    + repeat constructor. rewrite lookup_insert_eq. eauto.
  - apply map_Forall_insert_2; [|done]. right. apply Hin. by left.
Qed.

Lemma newKeyring_ring idFn p es kr : newKeyring idFn p es = Ok kr -> ring_of p es kr.
Proof.
  unfold newKeyring. destruct (idFn p) as [i|]; [|done]. intros H. eapply add_extras_ring; [|apply incl_refl|exact H].
  split_and!; cbn.
  - by rewrite lookup_singleton_eq.
  - repeat constructor. rewrite lookup_singleton_eq. eauto.
  - apply map_Forall_singleton. by left.
Qed.

Lemma ring_primary p es kr : ring_of p es kr -> Primary kr = p.
Proof. intros (H & _). unfold Primary, key_of. by rewrite H. Qed.

Lemma ring_keys p es kr : ring_of p es kr -> Forall (fun k => In k (p :: es)) (Primary kr :: Previous kr).
Proof.
  intros H. constructor; [rewrite (ring_primary _ _ _ H); by left|]. destruct H as (_ & Ho & Hk).
  unfold Previous. apply Forall_map. destruct (order kr) as [|i o]; [constructor|]. cbn.
  apply Forall_inv_tail in Ho. eapply Forall_impl; [exact Ho|]. intros j [k Hj]. unfold key_of. cbn. rewrite Hj. by apply (Hk j).
Qed.

(** ** What the overrides leave alone *)

Definition hidden (c : Config) : option Provider * option Keyring * option Keyring * bool :=
  (cf_secrets c, cf_walletKeyring c, cf_jwtKeyring c, cf_walletKeyUnconfigured c).

Definition same_hidden (c c' : Config) : Prop := hidden c' = hidden c.

#[export] Instance same_hidden_preorder : PreOrder same_hidden.
Proof. split; unfold same_hidden; [done|]. intros a b c Hab Hbc. by rewrite Hbc. Qed.

Section load.
Context (Getenv : string -> string) (ReadFile : string -> result error string) (ToLower : string -> string).
Context (DecodeFile : string -> Config -> result error Config).

Lemma hidden_from_env name f : (forall v, steps same_hidden (f v)) -> steps same_hidden (from_env Getenv name f).
Proof. intros Hf. unfold from_env. destruct (String.eqb _ _); [apply steps_ret; apply _|apply Hf]. Qed.

Lemma hidden_env_to name set : (forall v c, hidden (set v c) = hidden c) -> steps same_hidden (env_to Getenv name set).
Proof. intros Hs. apply hidden_from_env. intros v. apply steps_modify. intros c. apply Hs. Qed.

Lemma hidden_env_file name set : (forall v c, hidden (set v c) = hidden c) -> steps same_hidden (env_file Getenv ReadFile name set).
Proof.
  intros Hs. apply hidden_from_env. intros v. destruct (ReadFile v); [|apply steps_fail; apply _]. apply steps_modify. intros c. apply Hs.
Qed.

Lemma hidden_overlay : steps same_hidden (overlay Getenv ReadFile ToLower).
Proof.
  unfold overlay. repeat (apply steps_bind; [apply _| |intros _]); try (by apply hidden_env_to); try (by apply hidden_env_file).
  - apply hidden_from_env. intros v. destruct (Atoi v); [apply steps_modify; intros c; red; done|apply steps_fail; apply _].
  - apply hidden_from_env. intros v. destruct (ParseInt v) as [n|]; [|apply steps_fail; apply _].
    destruct (n <? 0); [apply steps_fail; apply _|apply steps_modify; intros c; red; done].
Qed.

Lemma hidden_late c : hidden (late_defaults c) = hidden c.
Proof. unfold late_defaults. by repeat case_match. Qed.

(** A secret of the session keyring, and the state of the wallet key. *)
Definition strong (s : string) : Prop := 32 <= Z.of_nat (String.length s).

Definition wallet_key_sound (c : Config) : Prop :=
  if WalletKeyConfigured c then cf_WalletEncryptionKey c <> "" /\ cf_WalletEncryptionKey c <> placeholderWalletKey
  else cf_WorkersEnabled c = false /\ cf_WalletEncryptionKey c = placeholderWalletKey.

Lemma check_jwt_ok c u : check_jwt c = Ok u -> Forall strong (cf_JWTSecret c :: cf_JWTSecretsPrevious c).
Proof.
  unfold check_jwt, long_enough. intros H. destruct (String.eqb _ _); [done|].
  destruct (Z.leb_spec 32 (Z.of_nat (String.length (cf_JWTSecret c)))); [|done]. cbn [negb] in H.
  destruct (forallb _ _) eqn:E; [|done]. constructor; [done|]. apply List.Forall_forall. intros s Hs.
  rewrite forallb_forall in E. apply Z.leb_le. by apply E.
Qed.

Lemma check_wallet_key_ok c c' : cf_walletKeyUnconfigured c = false -> check_wallet_key c = Ok c' ->
  wallet_key_sound c' /\ cf_JWTSecret c' = cf_JWTSecret c /\ cf_JWTSecretsPrevious c' = cf_JWTSecretsPrevious c.
Proof.
  intros Hu. unfold check_wallet_key, wallet_key_sound, WalletKeyConfigured.
  destruct (String.eqb_spec (cf_WalletEncryptionKey c) "") as [|H1]; cbn [orb].
  2: destruct (String.eqb_spec (cf_WalletEncryptionKey c) placeholderWalletKey) as [|H2].
  1,2: destruct (cf_WorkersEnabled c) eqn:Ew; [done|]; intros [= <-]; by cbn.
  intros [= <-]. by rewrite Hu.
Qed.

Lemma build_keyrings_ok c c' : build_keyrings c = Ok c' ->
  exists p w j, c' = set_cf_jwtKeyring (Some j) (set_cf_walletKeyring (Some w) (set_cf_secrets (Some p) c)) /\
    NewKeyring (cf_WalletEncryptionKey c) (cf_WalletEncryptionKeysPrevious c) = Ok w /\
    NewKeyringRaw (cf_JWTSecret c) (cf_JWTSecretsPrevious c) = Ok j.
Proof.
  unfold build_keyrings, NewProvider, NewEnvProvider. destruct (_ || _); [|done]. cbn [ec_WalletKey ec_WalletKeysPrevious ec_JWTSecret ec_JWTSecretsPrevious].
  destruct (NewKeyring _ _) as [w|] eqn:Ew; [|done]. destruct (NewKeyringRaw _ _) as [j|] eqn:Ej; [|done].
  unfold Provider_Keyring. cbn [pr_keyrings]. rewrite lookup_insert_ne, lookup_singleton_eq, lookup_insert_eq by done.
  intros [= <-]. eauto 10.
Qed.

Definition secrets_sound (c : Config) : Prop :=
  (exists j, JWTKeyring c = Some j /\ Primary j = cf_JWTSecret c /\ Forall strong (Primary j :: Previous j)) /\
  (exists w, WalletKeyring c = Some w /\ Primary w = cf_WalletEncryptionKey c) /\
  wallet_key_sound c.

(** The decoder sees the exported fields alone. *)
Definition decodes_fields : Prop := forall p c0 c1, DecodeFile p c0 = Ok c1 -> hidden c1 = hidden c0.

Lemma Load_config_sound (path : string) (c : Config) : decodes_fields ->
  Load_config Getenv ReadFile ToLower DecodeFile path = Ok c -> secrets_sound c.
Proof.
  intros Hfile Hload. unfold Load_config in Hload.
  destruct (if String.eqb path "" then _ else _) as [c0|] eqn:E0; [|done].
  assert (hidden c0 = hidden default_config) as H0.
  { destruct (String.eqb path ""); [by injection E0 as <-|]. destruct (DecodeFile path default_config) as [c1|] eqn:Ed; [|done].
    injection E0 as <-. by apply Hfile in Ed. }
  pose proof (hidden_overlay c0) as H1. destruct (overlay _ _ _ c0) as [[u|] c1]; [|done]. red in H1. cbn [snd] in H1.
  pose proof (hidden_late c1) as H2. set (c2 := late_defaults c1) in *.
  destruct (check_jwt c2) as [u2|] eqn:Ej; [|done]. apply check_jwt_ok in Ej.
  destruct (check_wallet_key c2) as [c3|] eqn:Ew; [|done]. apply check_wallet_key_ok in Ew as (Hs & Hj & Hp).
  2: { rewrite H1, H0 in H2. by injection H2. }
  apply build_keyrings_ok in Hload as (p & w & j & -> & Hw & Hr). rewrite <- Hj, <- Hp in Ej.
  apply newKeyring_ring in Hw, Hr. split_and!.
  - exists j. split_and!; [done|by eapply ring_primary|]. apply List.Forall_forall. intros s Hin.
    rewrite List.Forall_forall in Ej. apply Ej. pose proof (ring_keys _ _ _ Hr) as Hk. rewrite List.Forall_forall in Hk. by apply Hk.
  - exists w. split; [done|by eapply ring_primary].
  - exact Hs.
Qed.

(** What a configuration that loads is worth. Whatever the environment and the
    configuration file say, an instance that starts signs its sessions with a
    secret of at least 32 bytes and verifies them under no weaker one; the
    wallet keyring it encrypts with has the configured key as its primary key;
    and that key is the all-zeros placeholder only on an instance that runs no
    workers, which then reports its key as not configured. *)
Theorem loaded_secrets_are_sound (path : string) (c : Config)
  (Hfile : forall p c0 c1, DecodeFile p c0 = Ok c1 -> hidden c1 = hidden c0)
  (Hload : Load_config Getenv ReadFile ToLower DecodeFile path = Ok c) :
  (exists j, JWTKeyring c = Some j /\ Primary j = cf_JWTSecret c /\ Forall strong (Primary j :: Previous j)) /\
  (exists w, WalletKeyring c = Some w /\ Primary w = cf_WalletEncryptionKey c) /\
  wallet_key_sound c.
Proof. by eapply Load_config_sound. Qed.
End load.

(** ** The network *)

(** What was set explicitly stays. *)
Lemma preset_keeps (c : Config) : 
  let c' := snd (ApplyNetworkPreset c) in
  (cf_EvmRPCURL c <> "" -> cf_EvmRPCURL c' = cf_EvmRPCURL c) /\ (cf_EvmTokenAddress c <> "" -> cf_EvmTokenAddress c' = cf_EvmTokenAddress c).
Proof.
  unfold ApplyNetworkPreset, fill_evm. cbv zeta.
  split; intros Hne; apply String.eqb_neq in Hne; repeat (case_match; cbn in *); congruence.
Qed.

(** ** An environment *)

Definition env_of (l : list (string * string)) (name : string) : string :=
  match List.find (fun kv => String.eqb (fst kv) name) l with Some kv => snd kv | None => "" end.

Abbreviation boot l := (Load_config (env_of l) (fun _ => Err (ENew "no file")) (fun s => s) (fun _ c => Ok c) "").

Definition a_secret : string := "0123456789abcdef0123456789abcdef".
Definition a_key : string := "1111111111111111111111111111111111111111111111111111111111111111".

(** What a boot that ends answers. *)
Definition loads (r : result error Config) (f : Config -> Prop) : Prop := match r with Ok c => f c | Err _ => False end.
Definition refused (r : result error Config) : bool := match r with Ok _ => false | Err _ => true end.

Example boot_environments :
  loads (boot [("INDELIBLE_JWT_SECRET", a_secret); ("INDELIBLE_WALLET_ENCRYPTION_KEY", a_key); ("INDELIBLE_PORT", "9000")])
    (fun c => cf_Port c = 9000 /\ cf_WorkersEnabled c = true /\ WalletKeyConfigured c = true) /\
  refused (boot [("INDELIBLE_JWT_SECRET", a_secret)]) = true /\
  refused (boot [("INDELIBLE_JWT_SECRET", "short"); ("INDELIBLE_WALLET_ENCRYPTION_KEY", a_key)]) = true /\
  refused (boot [("INDELIBLE_JWT_SECRET", a_secret); ("INDELIBLE_JWT_SECRET_PREVIOUS", "short"); ("INDELIBLE_WALLET_ENCRYPTION_KEY", a_key)]) = true.
Proof. vm_compute. done. Qed.

(** Any other way of saying yes turns the workers off. *)
Example workers_yes :
  loads (boot [("INDELIBLE_JWT_SECRET", a_secret); ("INDELIBLE_WORKERS_ENABLED", "yes")])
    (fun c => cf_WorkersEnabled c = false /\ WalletKeyConfigured c = false).
Proof. vm_compute. done. Qed.

Definition reader_env : list (string * string) := [("INDELIBLE_JWT_SECRET", a_secret); ("INDELIBLE_WORKERS_ENABLED", "false")].

Lemma loaded_secrets_are_sound_witness :
  loads (boot reader_env) (fun c => WalletKeyConfigured c = false /\ cf_WalletEncryptionKey c = placeholderWalletKey /\
    exists j, JWTKeyring c = Some j /\ Primary j = a_secret).
Proof.
  assert (match boot reader_env with Ok c => Some (cf_JWTSecret c, WalletKeyConfigured c) | Err _ => None end = Some (a_secret, false)) as Hv
    by (vm_compute; reflexivity).
  destruct (boot reader_env) as [c|e] eqn:E; [|discriminate]. injection Hv as Hs Hw.
  assert (forall (p : string) c0 c1, (Ok c0 : result error Config) = Ok c1 -> hidden c1 = hidden c0) as Hf by (intros p c0 c1 [= <-]; done).
  destruct (loaded_secrets_are_sound (env_of reader_env) (fun _ => Err (ENew "no file")) (fun s => s) (fun _ c => Ok c) "" c Hf E) as ((j & Hj & Hp & _) & _ & Hk).
  unfold wallet_key_sound in Hk. rewrite Hw in Hk. destruct Hk as [_ Hk]. split_and!; [done|done|].
  exists j. split; [done|]. by rewrite Hp.
Defined.
