(* ===== verification/Notifier.v ===== *)
(** * Which way messages take

    src/internal/services/email.go: messages to users go over SMTP, to the
    webhooks that subscribe to them, or nowhere. net/smtp is an interface. *)

From stdpp Require Import gmap strings pretty.
From Stdlib Require Import Ascii.
From S2P Require Import Prelude GoLib Sql Schema Stmt Settings Webhooks Http Front Config.

Open Scope Z_scope.

Inductive NotifierMethodName := NotifierSMTP | NotifierWebhook | NotifierNoop.

Definition method_text (m : NotifierMethodName) : string := match m with NotifierSMTP => "smtp" | NotifierWebhook => "webhook" | NotifierNoop => "noop" end.

(** [smtp.SendMail(addr, auth, from, to, msg)]; the authentication is a user
    name, a password and a host. *)
Class Smtp (N : Type) := { SendMail : string -> option (string * string * string) -> string -> list string -> string -> ST error N unit }.

(** The tables and the network a message may need, and the deliveries that were
    started: each runs on a goroutine of its own. *)
Record Post (F N : Type) := mkPost { po_db : Db; po_hooks : HookState N; po_started : list (Webhook * WebhookPayload F) }.
Arguments mkPost {F N} _ _ _.
Arguments po_db {F N} _.
Arguments po_hooks {F N} _.
Arguments po_started {F N} _.

Definition EventAuthPasswordResetRequested : string := "auth.password_reset_requested".
Definition EventAuthEmailVerificationRequested : string := "auth.email_verification_requested".
Definition AuthEventTypes : list string := [EventAuthPasswordResetRequested; EventAuthEmailVerificationRequested].

Section notifier.
Context {F N : Type} {flt : Float64 F} {dec : Decoders F} {client : HttpClient N} {smtp : Smtp N} (rfc3339 : Z -> string).
Context (cfg : Config).

Abbreviation PostM := (ST error (Post F N)).

Definition post_db {A} (m : DbM A) : PostM A := zoom po_db (fun d p => mkPost d (po_hooks p) (po_started p)) m.
Definition post_hooks {A} (m : ST error (HookState N) A) : PostM A := zoom po_hooks (fun h p => mkPost (po_db p) h (po_started p)) m.

Definition webhookSubscribedToAnyAuthEvent : PostM bool :=
  r ← try (post_hooks (hdb GetEnabled));
  mret (match r with
        | Err _ => false
        | Ok enabled => existsb (fun wh => existsb (webhookSubscribedTo (F := F) wh) AuthEventTypes) enabled
        end).

(** The error of reading the setting is dropped; an unknown method tries SMTP
    alone. *)
Definition resolveNotifierMethod : PostM NotifierMethodName :=
  r ← try (post_db (Get "notifier_method"));
  let v := match r with Ok v => v | Err _ => "" end in
  let smtp_or_noop := if SMTPConfigured cfg then NotifierSMTP else NotifierNoop in
  if String.eqb v "smtp" then mret smtp_or_noop else
  if String.eqb v "webhook" then mret NotifierWebhook else
  if String.eqb v "noop" then mret NotifierNoop else
  if String.eqb v "auto" || String.eqb v "" then
    if SMTPConfigured cfg then mret NotifierSMTP else
    any ← webhookSubscribedToAnyAuthEvent;
    mret (if (any : bool) then NotifierWebhook else NotifierNoop)
  else mret smtp_or_noop.

Definition crlf : string := String (ascii_of_N 13) (String (ascii_of_N 10) "").
Definition lf2 : string := String (ascii_of_N 10) (String (ascii_of_N 10) "").

Definition smtp_message (to subject body : string) : string :=
  Join ["From: " +:+ sc_From (cf_SMTP cfg); "To: " +:+ to; "Subject: " +:+ subject; "MIME-Version: 1.0"; "Content-Type: text/plain; charset=UTF-8"; ""; body] crlf.

Definition smtp_send (to subject body : string) : PostM unit :=
  let auth := if String.eqb (sc_Username (cf_SMTP cfg)) "" then None else Some (sc_Username (cf_SMTP cfg), sc_Password (cf_SMTP cfg), sc_Host (cf_SMTP cfg)) in
  post_hooks (zoom hs_net put_hs_net (SendMail (sc_Host (cf_SMTP cfg) +:+ ":" +:+ big_String (sc_Port (cf_SMTP cfg))) auth (sc_From (cf_SMTP cfg)) [to] (smtp_message to subject body))).

(** [FireAuthEvent]: the matching webhooks each get a delivery. *)
Definition fire_auth (eventType : string) (data : WebhookAuthData) : PostM unit :=
  jobs ← post_hooks (FireAuthEvent (F := F) rfc3339 eventType data);
  modify (fun p => mkPost (po_db p) (po_hooks p) (po_started p ++ jobs)).

Definition reset_body (resetURL : string) : string :=
  "You requested a password reset." +:+ lf2 +:+ "Click the link below to reset your password (valid for 1 hour):" +:+ lf2 +:+ resetURL +:+ lf2 +:+
  "If you did not request this, ignore this email.".
Definition verify_body (verifyURL : string) : string :=
  "Please verify your email address by clicking the link below:" +:+ lf2 +:+ verifyURL +:+ lf2 +:+ "If you did not create an account, ignore this email.".

Definition SendPasswordReset (m : NotifierMethodName) (to resetURL : string) : PostM unit :=
  match m with
  | NotifierSMTP => smtp_send to "Indelible — Password Reset" (reset_body resetURL)
  | NotifierWebhook => fire_auth EventAuthPasswordResetRequested (mkAuthData to resetURL)
  | NotifierNoop => mret tt
  end.

Definition SendEmailVerification (m : NotifierMethodName) (to verifyURL : string) : PostM unit :=
  match m with
  | NotifierSMTP => smtp_send to "Indelible — Verify Your Email" (verify_body verifyURL)
  | NotifierWebhook => fire_auth EventAuthEmailVerificationRequested (mkAuthData to verifyURL)
  | NotifierNoop => mret tt
  end.
End notifier.
