(* ===== verification/SettingsHandlers.v ===== *)
(** * Moving an instance's configuration

    The export and import of services/settings.go with the settings handlers of
    src/internal/handlers/admin_settings.go: the settings, the webhooks, the
    groups, and the login providers without their secrets. *)

From stdpp Require Import gmap strings pretty.
From Stdlib Require Import Ascii.
From S2P Require Import Prelude GoLib Sql Schema Stmt Settings AccountSchema Users Oidc Webhooks Http Front.

Open Scope Z_scope.

Record ExportWebhook := mkExportWebhook { xw_URL : string; xw_IntegrationType : string; xw_IsEnabled : bool; xw_Events : string }.
Record ExportOIDC := mkExportOIDC {
  xo_Name : string; xo_DisplayName : string; xo_IssuerURL : string; xo_ClientID : string; xo_Scopes : string; xo_IsEnabled : bool;
}.
Record ExportGroup := mkExportGroup { xg_Name : string; xg_Description : string; xg_PermissionLevel : string; xg_IsActive : bool }.

(** A nil map of settings is [None]. *)
Record ExportData := mkExportData {
  xd_Settings : option (gmap string string); xd_Webhooks : list ExportWebhook; xd_OIDCProviders : list ExportOIDC; xd_Groups : list ExportGroup;
}.

Definition export_hook (w : Webhook) : ExportWebhook := mkExportWebhook (wb_URL w) (wb_IntegrationType w) (wb_IsEnabled w) (wb_Events w).
Definition export_provider (p : OIDCProvider) : ExportOIDC :=
  mkExportOIDC (op_Name p) (op_DisplayName p) (op_IssuerURL p) (op_ClientID p) (op_Scopes p) (op_IsEnabled p).
Definition export_group (g : Group) : ExportGroup := mkExportGroup (g_Name g) (g_Description g) (g_PermissionLevel g) (g_IsActive g).

(** The accounts, the settings and the trail beside the webhooks. *)
Record Desk := mkDesk { dk_front : Front; dk_hooks : World HookTables }.

Definition put_dk_front (v : Front) (s : Desk) : Desk := mkDesk v (dk_hooks s).
Definition put_dk_hooks (v : World HookTables) (s : Desk) : Desk := mkDesk (dk_front s) v.

Abbreviation DeskM := (ST error Desk).

Definition kfront {A} (m : ST error Front A) : DeskM A := zoom dk_front put_dk_front m.
Definition kdb {A} (m : DbM A) : DeskM A := kfront (fdb m).
Definition kacc {A} (m : AcM A) : DeskM A := kfront (acc m).
Definition khook {A} (m : HookM A) : DeskM A := zoom dk_hooks put_dk_hooks m.

(** A listing that fails leaves its part of the export out. *)
Definition listed {A B} (f : A -> B) (m : DeskM (list A)) : DeskM (list B) :=
  r ← try m; mret (match r with Ok rows => map f rows | Err _ => [] end).

Definition Export : DeskM ExportData :=
  settings ← kdb GetAll;
  webhooks ← listed export_hook (khook HookList);
  providers ← listed export_provider (kacc ProviderList);
  groups ← listed export_group (kacc GroupList);
  mret (mkExportData (Some settings) webhooks providers groups).

Section import.
Context {F : Type} {dec : Decoders F}.
(** The order in which a loop meets the entries of a map, and the random bytes
    the i-th webhook's secret is made from. *)
Context (range : gmap string string -> list (string * string)) (rand : nat -> result error (list Z)).

Definition import_webhook (i : nat) (w : ExportWebhook) : HookM unit :=
  wh ← HookCreate (F := F) (rand i) (xw_URL w) (xw_IntegrationType w) (xw_Events w);
  if negb (xw_IsEnabled w)
  then HookUpdate (F := F) (wb_ID wh) (wb_URL wh) (wb_IntegrationType wh) (wb_Events wh) false ;; mret tt
  else mret tt.

Fixpoint import_webhooks (i : nat) (ws : list ExportWebhook) : HookM unit :=
  match ws with
  | [] => mret tt
  | w :: ws => import_webhook i w ;; import_webhooks (S i) ws
  end.

(** The flag of an inactive group is not looked at. *)
Fixpoint import_groups (gs : list ExportGroup) : AcM unit :=
  match gs with
  | [] => mret tt
  | g :: gs => GroupCreate (xg_Name g) (xg_Description g) (xg_PermissionLevel g) ;; import_groups gs
  end.

Definition entries (m : option (gmap string string)) : list (string * string) := range (default ∅ m).

Definition nonempty {A} (l : list A) : bool := match l with [] => false | _ => true end.

(** Three steps, not one transaction. The providers are skipped. *)
Definition ImportStructured (data : ExportData) (userID : Z) (ipAddress userAgent : string) : DeskM unit :=
  (if nonempty (entries (xd_Settings data)) then kdb (Update (entries (xd_Settings data)) userID ipAddress userAgent) else mret tt) ;;
  khook (import_webhooks 0 (xd_Webhooks data)) ;;
  kacc (import_groups (xd_Groups data)).

(** ** The handlers *)

Abbreviation PageM := (ST Refusal Desk).

Definition audit (eventType severity : string) (userID : Z) (detail : string) : PageM unit :=
  zoom dk_front put_dk_front (auditEvent eventType severity (Some userID) detail).

Definition AdminGetSettings : PageM (Z * gmap string string) :=
  settings ← or_refuse (fun _ => jsonError "failed to get settings" 500) (kdb GetAll);
  answer 200 settings.

Definition is_validation (e : error) : bool := match e with EValidation _ _ => true | _ => false end.

(** [body]: the changes in the order the loop meets them. *)
Definition AdminUpdateSettings (userID : Z) (ip ua : string) (body : option (list (string * string))) : PageM (Z * string) :=
  changes ← decoded body invalid_body;
  require (nonempty changes) (jsonError "no settings to update" 400) ;;
  or_refuse (fun err => if is_validation err then jsonError (Error_ err) 400 else jsonError "failed to update settings" 500)
    (kdb (Update changes userID ip ua)) ;;
  answer 200 "settings updated".

Definition AdminExportSettings (callerID : Z) : PageM ExportData :=
  data ← or_refuse (fun _ => jsonError "failed to export settings" 500) Export;
  audit "settings_exported" "warn" callerID "" ;;
  mret data.

(** What a body decodes to: nothing, or what each format makes of it. *)
Record import_body := mkImportBody { ib_structured : option ExportData; ib_flat : option (list (string * string)) }.

Definition count_text {A} (l : list A) : string := big_String (Z.of_nat (length l)).

Definition structured_of (b : import_body) : option ExportData :=
  match ib_structured b with Some d => if bool_decide (is_Some (xd_Settings d)) then Some d else None | None => None end.

(** The numbers of settings, webhooks and groups. *)
Definition AdminImportSettings (userID : Z) (ip ua : string) (body : option import_body) : PageM (Z * (Z * option (Z * Z))) :=
  raw ← decoded body (jsonError "invalid JSON" 400);
  match structured_of raw with
  | Some data =>
      or_refuse (fun _ => jsonError "failed to import settings" 500) (ImportStructured data userID ip ua) ;;
      let n := Z.of_nat (length (entries (xd_Settings data))) in
      audit "settings_imported" "warn" userID
        ("settings=" +:+ big_String n +:+ " webhooks=" +:+ count_text (xd_Webhooks data) +:+ " groups=" +:+ count_text (xd_Groups data)) ;;
      answer 200 (n, Some (Z.of_nat (length (xd_Webhooks data)), Z.of_nat (length (xd_Groups data))))
  | None =>
      flat ← decoded (ib_flat raw) (jsonError "invalid JSON format" 400);
      or_refuse (fun _ => jsonError "failed to import settings" 500) (kdb (Import flat userID ip ua)) ;;
      audit "settings_imported" "warn" userID ("settings=" +:+ count_text flat +:+ " (legacy flat)") ;;
      answer 200 (Z.of_nat (length flat), None)
  end.
End import.

(** * What an export carries over

    An export read back by another instance: the settings it names take their
    values there, the webhooks and groups are added. *)

Open Scope Z_scope.

(** ** The settings *)

Lemma after_changes_other l k o : k ∉ l.*1 -> after_changes l k o = o.
Proof.
  unfold after_changes. revert o. induction l as [|[k' v] l IH]; intros o Hk; [done|].
  cbn in *. rewrite not_elem_of_cons in Hk. destruct Hk as [Hne Hk]. rewrite IH by done.
  by rewrite (proj2 (String.eqb_neq k k')).
Qed.

Lemma after_changes_in l k v o : base.NoDup l.*1 -> (k, v) ∈ l -> after_changes l k o = Some v.
Proof.
  unfold after_changes. revert o. induction l as [|[k' v'] l IH]; intros o Hnd Hin; [by apply elem_of_nil in Hin|].
  cbn in *. apply NoDup_cons in Hnd as [Hk Hnd]. apply elem_of_cons in Hin as [[= -> ->]|Hin]; [|by apply IH].
  rewrite String.eqb_refl. by apply after_changes_other.
Qed.

(** Whatever order the loop takes, an update from a map sets its keys. *)
Lemma after_changes_map (l : list (string * string)) (m : gmap string string) k o : l ≡ₚ map_to_list m ->
  after_changes l k o = match m !! k with Some v => Some v | None => o end.
Proof.
  intros Hp. destruct (m !! k) as [v|] eqn:E.
  - apply after_changes_in; [rewrite Hp; apply NoDup_fst_map_to_list|]. rewrite Hp. by apply elem_of_map_to_list.
  - apply after_changes_other. rewrite Hp. intros ([k' v] & -> & Hin)%list_elem_of_fmap.
    apply elem_of_map_to_list in Hin. cbn in E. congruence.
Qed.

(** key is the primary key. *)
Definition keys_unique (d : Db) : Prop := base.NoDup (settings d).*1.

Lemma all_settings (l : list (string * string)) (m : gmap string string) k : base.NoDup l.*1 ->
  fold_left (fun m kv => <[fst kv := snd kv]> m) l m !! k =
  match List.find (fun kv => String.eqb (fst kv) k) l with Some kv => Some (snd kv) | None => m !! k end.
Proof.
  revert m. induction l as [|[k' v] l IH]; intros m Hnd; [done|]. cbn in *. apply NoDup_cons in Hnd as [Hk Hnd].
  rewrite IH by done. destruct (String.eqb_spec k' k) as [->|Hne].
  - destruct (List.find _ l) as [[k1 v1]|] eqn:E; [|by rewrite lookup_insert_eq].
    apply find_some in E as [Hin He]. apply String.eqb_eq in He as <-. destruct Hk. apply list_elem_of_fmap.
    exists (k1, v1). split; [done|]. by apply list_elem_of_In.
  - destruct (List.find _ l); [done|]. by rewrite lookup_insert_ne.
Qed.

(** ** The webhooks *)

(** Identifiers are given in sequence. *)
Definition hooks_numbered (t : HookTables) : Prop := Forall (fun h => wb_ID h <= ht_seq_hooks t) (ht_hooks t).

Definition default_to (x s : string) : string := if String.eqb s "" then x else s.

Definition restored_hook (w : ExportWebhook) : ExportWebhook :=
  mkExportWebhook (xw_URL w) (default_to "generic" (xw_IntegrationType w)) (xw_IsEnabled w) (default_to default_events (xw_Events w)).

Definition hook_configs (t : HookTables) : list ExportWebhook := map export_hook (ht_hooks t).

Lemma find_id_last {A} `{!Keyed A} (l : list A) (x : A) : Forall (fun y => key y <> key x) l -> find_id (key x) (l ++ [x]) = Some x.
Proof.
  intros Hl. unfold find_id. induction Hl as [|y l Hy Hl IH]; cbn; unfold by_id in *.
  - by rewrite Z.eqb_refl.
  - by rewrite (proj2 (Z.eqb_neq _ _) Hy).
Qed.

Lemma update_last {A} `{!Keyed A} (l : list A) (x : A) f : Forall (fun y => key y <> key x) l ->
  update (by_id (key x)) f (l ++ [x]) = l ++ [f x].
Proof.
  intros Hl. unfold update, by_id. rewrite map_app. cbn. rewrite Z.eqb_refl. f_equal.
  induction Hl as [|y l Hy Hl IH]; [done|]. cbn. by rewrite (proj2 (Z.eqb_neq _ _) Hy), IH.
Qed.

Section hooks.
Context {F : Type} {dec : Decoders F}.

Lemma HookGetByID_same id w r w' : HookGetByID id w = (r, w') ->
  tables w' = tables w /\ (forall h, r = Ok h -> find_id id (ht_hooks (tables w)) = Some h).
Proof.
  unfold HookGetByID, map_err. intros H. destruct (read_row (A := Webhook) _ w) as [r1 w1] eqn:E.
  apply read_row_run in E as [[Ht Hr]|(Ht & e & Hr)]; destruct r1 as [x|x]; try done; injection H as <- <-; split; try done.
  intros h [= <-]. destruct (find_id _ _); congruence.
Qed.

(** The row a creation adds, under the next number. *)
Lemma HookCreate_ok raw url ty ev w h w' : hooks_numbered (tables w) -> HookCreate (F := F) raw url ty ev w = (Ok h, w') ->
  ht_hooks (tables w') = ht_hooks (tables w) ++ [h] /\ hooks_numbered (tables w') /\
  Forall (fun y => wb_ID y <> wb_ID h) (ht_hooks (tables w)) /\
  export_hook h = restored_hook (mkExportWebhook url ty true ev).
Proof.
  intros Hn H. unfold HookCreate in H.
  apply bind_ok in H as ([] & w1 & E & H). unfold of_result in E. destruct (validateOutboundURL url); [|done]. injection E as _ <-.
  apply bind_ok in H as (bytes & w2 & E & H). unfold of_result in E. destruct raw; [|done]. injection E as -> <-.
  apply bind_ok in H as (id & w3 & E & H). apply write_if_run in E as [(i & [= <-] & E)|(e & [=] & _)].
  apply constrained_ok in E as ([= <- Ht] & _). apply HookGetByID_same in H as [Hw Hf]. specialize (Hf _ eq_refl). rewrite <- Hw in Ht.
  rewrite <- Hw in Hf. clear Hw w3.
  set (row := mkWebhook _ _ _ _ _ _ _ _) in Ht.
  assert (Forall (fun y => key y <> key row) (ht_hooks (tables w))) as Hfresh by (eapply Forall_impl; [exact Hn|]; intros y Hy; unfold key, webhook_keyed; cbn in *; lia).
  assert (h = row) as ->.
  { rewrite <- Ht in Hf. cbn in Hf. pose proof (find_id_last _ row Hfresh) as E. change (key row) with (ht_seq_hooks (tables w) + 1) in E. rewrite E in Hf. by injection Hf. }
  rewrite <- Ht. split_and!; try done. unfold hooks_numbered. cbn. apply Forall_app. split; [|repeat constructor; done].
  eapply Forall_impl; [exact Hn|]. cbn. lia.
Qed.

Lemma import_webhook_ok raw i x w u w' : hooks_numbered (tables w) -> import_webhook (F := F) raw i x w = (Ok u, w') ->
  hook_configs (tables w') = hook_configs (tables w) ++ [restored_hook x] /\ hooks_numbered (tables w').
Proof.
  intros Hn H. unfold import_webhook in H. apply bind_ok in H as (h & w1 & E & H).
  apply HookCreate_ok in E as (Hh & Hn1 & Hfresh & He); [|done]. unfold hook_configs.
  assert (forall w2, tables w2 = tables w1 -> map export_hook (ht_hooks (tables w2)) = map export_hook (ht_hooks (tables w)) ++ [export_hook h]) as Hadd.
  { intros w2 ->. by rewrite Hh, map_app. }
  destruct (xw_IsEnabled x) eqn:Een; cbn [negb] in H.
  - injection H as _ <-. rewrite (Hadd w1), He by done. split; [|done]. unfold restored_hook. cbn. by rewrite Een.
  - apply bind_ok in H as (h2 & w2 & E & H). injection H as _ <-. unfold HookUpdate in E.
    apply bind_ok in E as ([] & w3 & E' & E). unfold of_result in E'. destruct (validateOutboundURL (wb_URL h)); [|done]. injection E' as _ <-.
    apply bind_ok in E as ([] & w3 & E' & E). apply HookGetByID_same in E as [Hw _].
    apply write_if_run in E' as [(b & _ & E')|(e & [=] & _)]. apply constrained_ok in E' as ([= _ Ht] & _).
    rewrite Hw, <- Ht. cbn. rewrite Hh. change (wb_ID h) with (key h). rewrite update_last by exact Hfresh.
    split.
    + rewrite map_app. cbn. unfold export_hook, restored_hook in *. cbn in *. injection He as -> -> _ ->. by rewrite Een.
    + unfold hooks_numbered in *. cbn. rewrite Hh in Hn1. apply Forall_app in Hn1 as [Ha Hb]. apply Forall_app. split; [done|].
      repeat constructor. cbn. apply Forall_inv in Hb. exact Hb.
Qed.

Lemma import_webhooks_ok raw : forall ws i w u w', hooks_numbered (tables w) -> import_webhooks (F := F) raw i ws w = (Ok u, w') ->
  hook_configs (tables w') = hook_configs (tables w) ++ map restored_hook ws.
Proof.
  induction ws as [|x ws IH]; cbn; intros i w u w' Hn H.
  - injection H as _ <-. by rewrite app_nil_r.
  - apply bind_ok in H as (u1 & w1 & E & H). apply import_webhook_ok in E as [Hc Hn1]; [|done].
    apply IH in H; [|done]. by rewrite H, Hc, <- app_assoc.
Qed.
End hooks.

(** ** The groups *)

Definition group_configs (a : Accounts) : list ExportGroup := map export_group (ac_groups a).

Definition restored_group (g : ExportGroup) : ExportGroup := mkExportGroup (xg_Name g) (xg_Description g) (xg_PermissionLevel g) true.

Lemma import_groups_ok : forall gs w u w', import_groups gs w = (Ok u, w') ->
  group_configs (tables w') = group_configs (tables w) ++ map restored_group gs /\ ac_providers (tables w') = ac_providers (tables w).
Proof.
  induction gs as [|g gs IH]; cbn; intros w u w' H.
  - injection H as _ <-. by rewrite app_nil_r.
  - apply bind_ok in H as (x & w1 & E & H). apply IH in H as [H Hp]. rewrite H, Hp. unfold GroupCreate in E.
    apply bind_ok in E as (id & w2 & E & E2). unfold map_err in E. destruct (write_if _ w) as [r w3] eqn:Ew.
    apply write_if_run in Ew as [(i & -> & Ew)|(e & -> & _)]; [|done]. injection E as _ <-.
    apply constrained_ok in Ew as ([= _ Ht] & _).
    assert (tables w1 = tables w3) as ->.
    { unfold GroupGetByID, map_err in E2. destruct (read_row _ w3) as [r w4] eqn:Er.
      apply read_row_run in Er as [[Hr _]|(Hr & _)]; destruct r as [y|y]; try done; by injection E2 as _ <-. }
    rewrite <- Ht. split; [|done]. unfold group_configs. cbn. by rewrite map_app, <- app_assoc.
Qed.

(** ** The whole *)

Definition desk_db (s : Desk) : Db := fr_db (dk_front s).
Definition desk_ac (s : Desk) : Accounts := tables (fr_ac (dk_front s)).
Definition desk_hooks (s : Desk) : HookTables := tables (dk_hooks s).

(** No statement of an instance fails. *)
Definition answering (s : Desk) : Prop := faults (desk_db s) = [] /\ sched (fr_ac (dk_front s)) = [] /\ sched (dk_hooks s) = [].

Definition settings_map (d : Db) : gmap string string := fold_left (fun m kv => <[fst kv := snd kv]> m) (settings d) ∅.

Definition exported (s : Desk) : ExportData :=
  mkExportData (Some (settings_map (desk_db s))) (map export_hook (order_by newest_hook_first (ht_hooks (desk_hooks s))))
    (map export_provider (order_by provider_le (ac_providers (desk_ac s)))) (map export_group (order_by name_le (ac_groups (desk_ac s)))).

Lemma Export_answers s : answering s -> Export s = (Ok (exported s), s).
Proof.
  destruct s as [[[ac sa] db told] [ht sh]]. intros (Hd & Ha & Hh). cbn in Ha, Hh, Hd. subst sa sh.
  destruct db. cbn in Hd. subst. reflexivity.
Qed.

Lemma settings_map_lookup d k : keys_unique d -> settings_map d !! k = setting k d.
Proof.
  intros Hu. unfold settings_map, setting. rewrite all_settings by done. destruct (List.find _ _); [done|]. by rewrite lookup_empty.
Qed.

(** C33. Configuration travels. What an instance exports another imports: when the
    import succeeds, every setting of the first has its value in the second and
    no other setting has moved, the webhooks of the first stand behind those of
    the second with their addresses, types, events and flags, newest first, the
    groups too (all of them active), and no login provider was touched. *)
Theorem configuration_travels {F : Type} {dec : Decoders F} (range : gmap string string -> list (string * string)) (rand : nat -> result error (list Z))
  (s1 s2 : Desk) (data : ExportData) (s1' : Desk) (u : Z) (ip ua : string) (s2' : Desk)
  (Hrange : forall m, range m ≡ₚ map_to_list m) (Hkeys : keys_unique (desk_db s1)) (Hup : answering s1)
  (Hnum : hooks_numbered (desk_hooks s2))
  (Hexp : Export s1 = (Ok data, s1'))
  (Himp : ImportStructured (F := F) range rand data u ip ua s2 = (Ok tt, s2')) :
  (forall k, setting k (desk_db s2') = match setting k (desk_db s1) with Some v => Some v | None => setting k (desk_db s2) end) /\
  hook_configs (desk_hooks s2') = hook_configs (desk_hooks s2) ++
    map (fun h => restored_hook (export_hook h)) (order_by newest_hook_first (ht_hooks (desk_hooks s1))) /\
  group_configs (desk_ac s2') = group_configs (desk_ac s2) ++
    map (fun g => restored_group (export_group g)) (order_by name_le (ac_groups (desk_ac s1))) /\
  ac_providers (desk_ac s2') = ac_providers (desk_ac s2).
Proof.
  rewrite (Export_answers _ Hup) in Hexp. injection Hexp as <- <-.
  set (m := settings_map (desk_db s1)). assert (forall k, m !! k = setting k (desk_db s1)) as Hs by (intros k; by apply settings_map_lookup).
  apply bind_ok in Himp as (x1 & t1 & E1 & Himp). apply bind_ok in Himp as (x2 & t2 & E2 & E3).
  assert (desk_hooks t1 = desk_hooks s2 /\ desk_ac t1 = desk_ac s2 /\
    forall k, setting k (desk_db t1) = match setting k (desk_db s1) with Some v => Some v | None => setting k (desk_db s2) end) as (Eh & Ea & Ed).
  { pose proof (Hrange m) as Hr. unfold entries, exported in E1. cbn [xd_Settings default from_option id] in E1. fold m in E1.
    destruct (range m) as [|kv l]; cbn [nonempty] in E1.
    - injection E1 as _ <-. split_and!; try done. intros k. rewrite <- Hs. by rewrite <- (after_changes_map [] m k (setting k (desk_db s2))).
    - unfold kdb, kfront, fdb, zoom in E1. destruct (Update _ _ _ _ _) as [r d'] eqn:Eu. cbn in E1. injection E1 as -> <-.
      apply Update_ok in Eu as (_ & Hk & _). split_and!; try done. intros k. rewrite <- Hs. cbn. rewrite Hk. by apply after_changes_map. }
  unfold khook, zoom in E2. destruct (import_webhooks _ _ _ _) as [r h'] eqn:Eu. injection E2 as -> <-.
  apply import_webhooks_ok in Eu; [|change (hooks_numbered (desk_hooks t1)); by rewrite Eh].
  unfold kacc, kfront, acc, zoom in E3. destruct (import_groups _ _) as [r a'] eqn:Eg. cbn in E3. injection E3 as -> <-.
  apply import_groups_ok in Eg as [Eg Ep].
  change (tables (fr_ac (dk_front (put_dk_hooks h' t1)))) with (desk_ac t1) in Eg, Ep.
  change (tables (dk_hooks t1)) with (desk_hooks t1) in Eu. rewrite Ea in Eg, Ep. rewrite Eh in Eu.
  cbn [exported xd_Webhooks xd_Groups] in Eu, Eg. rewrite map_map in Eu, Eg. by split_and!.
Qed.

(** ** Two instances *)

#[local] Instance moved_decoders : Decoders unit := {|
  url_Parse u := Ok ("https", "a.example"); decode_events s := Ok []; decode_payload p := Err (ENew "not a payload");
|}.

Definition plain_accounts (gs : list Group) : Accounts :=
  mkAccounts [mkUser 1 "x" None "" "" true false false None None None None None 0 0 None] 1 [] gs (Z.of_nat (length gs)) [] [] 0 [] [] 0 [] [] [] [] 0 [] 0 0.

Definition config_db (s : list (string * string)) : Db := mkDb [] 0 [] 0 [] 0 [1] [] [] [] [] 0 [] [] s [] [] 0 [] 0 [].

Definition desk (s : list (string * string)) (hs : list Webhook) (gs : list Group) : Desk :=
  mkDesk (mkFront (mkWorld (plain_accounts gs) []) (config_db s) []) (mkWorld (mkHooks hs (Z.of_nat (length hs)) [] 0 [] 0 0) []).

(** A disabled webhook and a suspended group. *)
Definition old_instance : Desk :=
  desk [("registration_enabled", "false"); ("site", "old")] [mkWebhook 1 "https://a.example/x" "slack" false "[]" "whsec_" 0 0]
    [mkGroup 1 "ops" "on call" "write" false None 0 0].
Definition new_instance : Desk := desk [("site", "new"); ("motd", "hello")] [] [].

Definition imported : result error unit * Desk :=
  ImportStructured (F := unit) map_to_list (fun _ => Ok []) (exported old_instance) 1 "" "" new_instance.
Definition moved : Desk := snd imported.

Lemma configuration_travels_witness :
  map (fun k => setting k (desk_db moved)) ["registration_enabled"; "site"; "motd"] = [Some "false"; Some "old"; Some "hello"] /\
  hook_configs (desk_hooks moved) = [mkExportWebhook "https://a.example/x" "slack" false "[]"] /\
  group_configs (desk_ac moved) = [mkExportGroup "ops" "on call" "write" true].
Proof.
  assert (keys_unique (desk_db old_instance)) as Hk by (vm_compute; repeat constructor; set_solver).
  assert (answering old_instance) as Ha by done.
  assert (fst imported = Ok tt) as Hf by (vm_compute; reflexivity).
  assert (imported = (Ok tt, moved)) as Hi by (rewrite <- Hf; apply surjective_pairing).
  destruct (configuration_travels map_to_list (fun _ => Ok []) old_instance new_instance (exported old_instance) old_instance 1 "" "" moved
    (fun m => Permutation_refl _) Hk Ha (List.Forall_nil _) (Export_answers _ Ha) Hi) as (H1 & H2 & H3 & _).
  cbn [map]. rewrite !H1, H2, H3. split_and!; vm_compute; reflexivity.
Defined.

(** Importing it again stops at the group whose name is taken; by then the
    webhook is there twice. *)
Example imported_twice :
  let '(r, s) := ImportStructured (F := unit) map_to_list (fun _ => Ok []) (exported old_instance) 1 "" "" moved in
  r = Err (ESentinel ErrGroupNameTaken) /\ length (ht_hooks (desk_hooks s)) = 2%nat.
Proof. vm_compute. done. Qed.
