(* ===== verification/Retention.v ===== *)
(** * Log retention

    src/internal/worker/log_retention.go: once an hour the entries of the system
    log, the deliveries and the resolved dead letters that are older than the
    retention go, the latter two by a cutoff in the zone of the server. One state holds the settings and, as in Webhooks, the tables of
    the webhooks and the logs, with the clock. *)

From stdpp Require Import gmap strings pretty.
From Stdlib Require Import Ascii.
From S2P Require Import Prelude GoLib Sql Schema Stmt Clock AccountSchema AuditLog AuditChain Http Calendar Settings Webhooks LogQueries.

Open Scope Z_scope.

Section retention.
Context {N : Type}.

Record LogRetentionWorker := mkRetention { rt_db : Db; rt_hooks : HookState N }.

Abbreviation RetM := (ST error LogRetentionWorker).

Definition rdb {A} (m : DbM A) : RetM A := zoom rt_db (fun d s => mkRetention d (rt_hooks s)) m.
Definition rhook {A} (m : ST error (HookState N) A) : RetM A := zoom rt_hooks (fun h s => mkRetention (rt_db s) h) m.
Definition rlog {A} (m : LogM A) : RetM A := rhook (zoom hs_logs put_hs_logs m).

(** A setting whose error is dropped. *)
Definition or_empty (m : RetM string) : RetM string := r ← try m; mret (match r with Ok v => v | Err _ => "" end).

Definition retention_days (daysStr : string) : Z :=
  match Atoi daysStr with Some d => if 0 <? d then d else 30 | None => 30 end.

(** [time.Duration(days) * 24 * time.Hour]. *)
Definition days_duration (days : Z) : Z := wrap64 (wrap64 (days * 24) * (3600 * hook_second)).

(** [time.Now().UTC().AddDate(0, 0, -days)]. *)
Definition days_ago (now days : Z) : Civil := civil_of (now / hook_second - days * 86400).

Definition prune (z : Zone) (days : Z) : RetM unit :=
  now ← rhook (gets (fun h => ht_now (tables (hs_db h))));
  rlog (CleanupOldLogs (days_ago now days)) ;;
  rhook (PruneDeliveryLog z (days_duration days)) ;;
  rhook (PruneDeadLetters z (days_duration days)) ;;
  mret tt.

(** [w.run()] on a server in the zone [z]: an error is logged and ends the run. *)
Definition run (z : Zone) : RetM unit :=
  enabled ← or_empty (rdb (Get "log_retention_enabled"));
  if negb (String.eqb enabled "true") then mret tt else
  daysStr ← or_empty (rdb (Get "log_retention_days"));
  ignore (prune z (retention_days daysStr)).
End retention.
Arguments LogRetentionWorker N : clear implicits.
Arguments mkRetention {N} _ _.

(** ** What a run removes *)

#[local] Ltac Zify.zify_post_hook ::= Z.to_euclidean_division_equations.

Lemma civil_num_lt a b : datable a -> datable b -> (civil_num (civil_of a) <? civil_num (civil_of b)) = (a <? b).
Proof.
  intros Ha Hb. pose proof (date_num_compare a b) as Hd.
  assert (forall s, time_num (civil_of s) = (s mod 86400 / 3600 * 100 + s mod 86400 / 60 mod 60) * 100 + s mod 86400 mod 60) as Ht.
  { intros s. unfold civil_of, time_num. by destruct (civil_of_days (s / 86400)) as [[y m] d]. }
  unfold civil_num. rewrite !Ht. revert Hd. generalize (date_num (civil_of a)) (date_num (civil_of b)). intros x y.
  assert (86400 * (a / 86400) + a mod 86400 = a /\ 86400 * (b / 86400) + b mod 86400 = b /\ 0 <= a mod 86400 < 86400 /\ 0 <= b mod 86400 < 86400)
    as (Ea & Eb & Ra & Rb) by lia.
  assert (forall r, 0 <= r < 86400 -> 0 <= (r / 3600 * 100 + r / 60 mod 60) * 100 + r mod 60 < 240000) as Hr by (intros; lia).
  assert (forall r q, 0 <= r < q -> q < 86400 ->
    (r / 3600 * 100 + r / 60 mod 60) * 100 + r mod 60 < (q / 3600 * 100 + q / 60 mod 60) * 100 + q mod 60) as Hm by (intros; lia).
  revert Ea Eb Ra Rb. generalize (a / 86400) (b / 86400) (a mod 86400) (b mod 86400). intros qa qb ra rb Ea Eb Ra Rb Hd.
  pose proof (Hr ra Ra) as H1. pose proof (Hr rb Rb) as H2. pose proof (Hm ra rb) as H3. pose proof (Hm rb ra) as H4.
  assert (ra = rb -> (ra / 3600 * 100 + ra / 60 mod 60) * 100 + ra mod 60 = (rb / 3600 * 100 + rb / 60 mod 60) * 100 + rb mod 60) as H5 by (by intros ->).
  clear Hr Hm. revert H1 H2 H3 H4 H5.
  generalize ((ra / 3600 * 100 + ra / 60 mod 60) * 100 + ra mod 60) ((rb / 3600 * 100 + rb / 60 mod 60) * 100 + rb mod 60). intros ta tb H1 H2 H3 H4 H5.
  destruct (Z.compare_spec x y), (Z.compare_spec qa qb); try done; clear Hd;
    destruct (Z.ltb_spec a b); first [apply Z.ltb_lt|apply Z.ltb_ge]; lia.
Qed.

Lemma stored_before a b : datable a -> datable b -> text_lt (db_text (civil_of a)) (db_text (civil_of b)) = (a <? b).
Proof. intros Ha Hb. rewrite db_text_lt by auto using civil_of_ok. by apply civil_num_lt. Qed.

(** The retentions whose duration in nanoseconds fits an int64: 292 years. *)
Lemma days_duration_exact d : 0 <= d <= 106751 -> days_duration d = d * 86400 * hook_second.
Proof.
  intros Hd. unfold days_duration, hook_second. rewrite (wrap64_id (d * 24)) by (red; unfold int64_min, int64_max; lia).
  rewrite wrap64_id by (red; unfold int64_min, int64_max; lia). lia.
Qed.

Section exact.
Context {N : Type}.
Implicit Types s : LogRetentionWorker N.

Definition answering s : Prop := faults (rt_db s) = [] /\ sched (hs_db (rt_hooks s)) = [] /\ sched (hs_logs (rt_hooks s)) = [].

Definition rt_tables s : HookTables := tables (hs_db (rt_hooks s)).
Definition rt_logs s : LogTables := tables (hs_logs (rt_hooks s)).
Definition rt_now s : Z := ht_now (rt_tables s).

(** The tables a run leaves, for the days it goes by. *)
Definition pruned (z : Zone) (days : Z) s s' : Prop :=
  let dur := days_duration days in
  system_log (rt_logs s') = delete_where (fun r => text_lt (s_created_at r) (db_text (days_ago (rt_now s) days))) (system_log (rt_logs s)) /\
  ht_log (rt_tables s') = delete_where (fun x => bound_before z (rt_now s - dur) (wd_CreatedAt x)) (ht_log (rt_tables s)) /\
  ht_dead (rt_tables s') =
    delete_where (fun x => match dl_ResolvedAt x with Some at_ => bound_before z (rt_now s - dur) at_ | None => false end) (ht_dead (rt_tables s)).

Lemma prune_answers z days s : answering s -> exists s', prune z days s = (Ok tt, s') /\ pruned z days s s'.
Proof.
  destruct s as [d [[ht sh] [lt sl] net sent slept back]]. intros (Hd & Hh & Hl). cbn in Hh, Hl. subst sh sl.
  eexists. split; [reflexivity|]. done.
Qed.

Lemma setting_answers key s : answering s -> or_empty (rdb (Get key)) s = (Ok (default "" (setting key (rt_db s))), s).
Proof.
  destruct s as [d h]. intros (Hd & _). unfold or_empty, try, rdb, zoom, mbind, ST_bind. cbn [rt_db rt_hooks].
  unfold Get, query_row, mbind, ST_bind. rewrite query_healthy by done. by destruct (setting key d).
Qed.

Lemma run_answers z s days : answering s -> setting "log_retention_enabled" (rt_db s) = Some "true" ->
  retention_days (default "" (setting "log_retention_days" (rt_db s))) = days -> exists s', run z s = (Ok tt, s') /\ pruned z days s s'.
Proof.
  intros Ha Hen Hdays. destruct (prune_answers z days s Ha) as (s' & Hp & Hr). exists s'. split; [|done].
  unfold run. erewrite bind_run; [|by apply setting_answers]. rewrite Hen. cbn [default from_option id].
  change (negb (String.eqb "true" "true")) with false. cbv iota.
  erewrite bind_run; [|by apply setting_answers]. rewrite Hdays. unfold ignore. by rewrite Hp.
Qed.

(** A stored second against the cutoff of a run: the seconds are compared, those of
    the cutoff in the zone of the server. *)
Lemma bound_before_exact z t days at_ : datable at_ -> datable (t / hook_second + z_east z - days * 86400) ->
  bound_before z (t - days * 86400 * hook_second) at_ = (at_ <=? t / hook_second + z_east z - days * 86400).
Proof.
  intros Ha Hc. unfold bound_before. assert ((t - days * 86400 * hook_second) / nanoseconds + z_east z = t / hook_second + z_east z - days * 86400) as E.
  { unfold hook_second, nanoseconds. rewrite (ltac:(lia) : t - days * 86400 * 1000000000 = t + (- (days * 86400)) * 1000000000), Z_div_plus_full by lia. lia. }
  rewrite db_text_before, E by (rewrite ?E; auto using civil_of_ok). pose proof (civil_num_lt (t / hook_second + z_east z - days * 86400) at_ Hc Ha) as H.
  rewrite !Z.leb_antisym. by rewrite H.
Qed.

(** C37. Retention is exact, up to the zone of the server. While it is enabled with
    a period of at most 292 years, a run on a database that answers returns and
    removes of the system log just what is older than the period; of the
    deliveries, and of the dead letters that were resolved, just those whose
    second is at or before the cutoff as a clock in the zone of the server shows
    it: the stored texts are UTC, so in UTC this is the period, and elsewhere the
    period less the offset. A dead letter that is not resolved stays whatever its
    age. *)
Theorem retention_is_exact (z : Zone) (s : LogRetentionWorker N) (days : Z)
  (Ha : answering s) (Hen : setting "log_retention_enabled" (rt_db s) = Some "true")
  (Hdays : retention_days (default "" (setting "log_retention_days" (rt_db s))) = days)
  (Hfits : 0 <= days <= 106751) (Hdate : datable (rt_now s / hook_second - days * 86400))
  (Hlocal : datable (rt_now s / hook_second + z_east z - days * 86400)) :
  exists s', run z s = (Ok tt, s') /\
    (forall r t, In r (system_log (rt_logs s)) -> s_created_at r = db_text (civil_of t) -> datable t ->
      (In r (system_log (rt_logs s')) <-> rt_now s / hook_second - days * 86400 <= t)) /\
    (forall x, In x (ht_log (rt_tables s)) -> datable (wd_CreatedAt x) ->
      (In x (ht_log (rt_tables s')) <-> rt_now s / hook_second - days * 86400 + z_east z < wd_CreatedAt x)) /\
    (forall x, In x (ht_dead (rt_tables s)) -> (forall t, dl_ResolvedAt x = Some t -> datable t) ->
      (In x (ht_dead (rt_tables s')) <->
       dl_ResolvedAt x = None \/ exists t, dl_ResolvedAt x = Some t /\ rt_now s / hook_second - days * 86400 + z_east z < t)).
Proof.
  destruct (run_answers z s days Ha Hen Hdays) as (s' & Hrun & Hs & Hl & Hd). exists s'. split; [done|].
  rewrite days_duration_exact in Hl, Hd by done. split_and!.
  - intros r t Hin Hat Ht. rewrite Hs, in_delete, Hat. unfold days_ago. rewrite stored_before by done. split; [intros [_ H]|intros H; split; [done|]]; lia.
  - intros x Hin Hx. rewrite Hl, in_delete, bound_before_exact by done. split; [intros [_ H]|intros H; split; [done|]]; lia.
  - intros x Hin Hx. rewrite Hd, in_delete. destruct (dl_ResolvedAt x) as [t|].
    + rewrite bound_before_exact by auto. split; [intros [_ H]; right; exists t; split; [done|lia]|].
      intros [[=]|(t' & [= <-] & H)]. split; [done|]. lia.
    + split; [by left|done].
Qed.
End exact.

(** ** A server kept for a while *)

Definition retained_db (days : string) : Db :=
  mkDb [] 0 [] 0 [] 0 [] [] [] [] [] 0 [] [] [("log_retention_enabled", "true"); ("log_retention_days", days)] [] [] 0 [] 0 [].

(** At 2023-11-14 22:13:20. *)
Definition at_s : Z := 1700000000.

Definition kept_delivery (id created : Z) : WebhookDelivery := mkDelivery id 1 "completed" (Some 200) true 1 None created.
Definition letter (id : Z) (resolved : option Z) : WebhookDeadLetter := mkDead id 1 "completed" "{}" None None 3 0 false 0 resolved.

Definition aged_logs : LogTables :=
  mkLogs [] 0 [] 0 [mkSystem 1 "info" "c" "old" None "" "2023-10-01 00:00:00"; mkSystem 2 "info" "c" "new" None "" "2023-11-14 22:00:00"] 2 [] 0
    (civil_of at_s).

Definition aged (days : string) : LogRetentionWorker unit :=
  mkRetention (retained_db days)
    (mkHookState (mkWorld (mkHooks [] 0 [kept_delivery 1 (at_s - 40 * 86400); kept_delivery 2 (at_s - 86400)] 2
                             [letter 1 None; letter 2 (Some (at_s - 40 * 86400)); letter 3 (Some (at_s - 60))] 3 (at_s * hook_second)) [])
       (mkWorld aged_logs []) tt [] [] 0).

Definition utc : Zone := mkZone 0 "+0000 UTC m=+3600.000000001".

Definition after_run (z : Zone) (days : string) : list Z * list Z * list Z :=
  let s := snd (run z (aged days)) in (map s_id (system_log (rt_logs s)), map wd_ID (ht_log (rt_tables s)), map dl_ID (ht_dead (rt_tables s))).

Lemma retention_is_exact_witness : exists s', run utc (aged "30") = (Ok tt, s') /\ In (letter 1 None) (ht_dead (rt_tables s')) /\
  In (kept_delivery 2 (at_s - 86400)) (ht_log (rt_tables s')) /\ ~ In (kept_delivery 1 (at_s - 40 * 86400)) (ht_log (rt_tables s')).
Proof.
  destruct (retention_is_exact utc (aged "30") 30) as (s' & Hr & _ & Hl & Hd); [done|done|reflexivity|lia|split; vm_compute; congruence|split; vm_compute; congruence|].
  exists s'. split; [done|]. split_and!.
  - apply Hd; [cbn; tauto|done|]. by left.
  - apply Hl; [cbn; tauto|split; vm_compute; congruence|]. vm_compute. congruence.
  - intros H. apply Hl in H; [|cbn; tauto|split; vm_compute; congruence]. revert H. vm_compute. congruence.
Defined.

(** A period of more than 292 years overflows the duration: the cutoff is in the
    future, and every delivery and every resolved dead letter goes. *)
Example forever_keeps_nothing :
  after_run utc "30" = ([2], [2], [1; 3]) /\ after_run utc "200000" = ([1; 2], [], [1]).
Proof. vm_compute. done. Qed.

(** East of Greenwich entries go early: with a period of a day, the delivery of a
    day less an hour ago is gone on a server two hours east. *)
Definition hour_short (z : Zone) : list Z :=
  let h := rt_hooks (aged "1") in
  let t := set_ht_now ((at_s - 3600) * hook_second) (tables (hs_db h)) in
  map wd_ID (ht_log (rt_tables (snd (run z (mkRetention (retained_db "1") (put_hs_db (set_tables t (hs_db h)) h)))))).

Example zone_shifts_retention : hour_short utc = [2] /\ hour_short (mkZone 7200 "+0200 CEST") = [] /\ hour_short (mkZone (-18000) "-0500 EST") = [2].
Proof. vm_compute. done. Qed.
