(* ===== verification/SystemHandlers.v ===== *)
(** * Health, storage, queue and the requeue window

    src/internal/handlers/stubs.go, admin_system.go, queue_status.go and
    admin_upload_requeue.go. antd, the disk and the database's ping are what they
    answer; a context's deadline is part of that answer. *)

From stdpp Require Import gmap strings pretty.
From Stdlib Require Import Ascii.
From S2P Require Import Prelude GoLib Sql Schema Stmt Clock UploadStore QuotaSvc Settings Keyring WorkerBase AccountSchema Users Webhooks Guards Http Front Float Versions Config Notifier.

Open Scope Z_scope.

(** antd's /health. *)
Record HealthStatus := mkHealth {
  ah_OK : bool; ah_Version : string; ah_EvmNetwork : string; ah_UptimeSeconds : Z; ah_BuildCommit : string;
  ah_PaymentTokenAddress : string; ah_PaymentVaultAddress : string;
}.

Section system.
Context {F N : Type} {flt : Float64 F} {dec : Decoders F} {client : HttpClient N} {jwt : Jwt}.

(** [sy_cache]: the cached settings of the health handler; [sy_override]: the
    requeue window an operator set, 0 for none. *)
Record System := mkSystem { sy_front : Front; sy_cache : gmap string (string * Z); sy_hooks : HookState N; sy_override : Z }.

Abbreviation SysM := (ST Refusal System).

Definition sfront {R A} (m : ST R Front A) : ST R System A := zoom sy_front (fun f s => mkSystem f (sy_cache s) (sy_hooks s) (sy_override s)) m.
Definition sdb {A} (m : DbM A) : ST error System A := sfront (fdb m).
Definition sacc {A} (m : AcM A) : ST error System A := sfront (acc m).
Definition scached {A} (m : SetM A) : ST error System A :=
  zoom (fun s => Settings.mkCached (fr_db (sy_front s)) (sy_cache s))
    (fun c s => mkSystem (put_fr_db (c_db c) (sy_front s)) (c_cache c) (sy_hooks s) (sy_override s)) m.
Definition spost {A} (m : ST error (Post F N) A) : ST error System A :=
  zoom (fun s => mkPost (fr_db (sy_front s)) (sy_hooks s) [])
    (fun p s => mkSystem (put_fr_db (po_db p) (sy_front s)) (sy_cache s) (po_hooks p) (sy_override s)) m.

Definition sdefault {A} (zero : A) (m : ST error System A) : SysM A := r ← attempt m; mret (match r with Ok a => a | Err _ => zero end).

Definition count_in (status : string) (counts : list (string * Z)) : Z :=
  match List.find (fun p => String.eqb (fst p) status) counts with Some p => snd p | None => 0 end.

(** ** /health *)

(** The configuration and the outside: [pb_cost url seconds] and
    [pb_health url seconds] ask antd. *)
Record Probes := mkProbes {
  pb_ping : bool; pb_cost : string -> Z -> result error unit; pb_health : string -> Z -> result error HealthStatus;
}.

Definition healthRequesterIsAdmin (kr : Keyring) (r : Request) : SysM bool :=
  let tokenStr :=
    match q_Cookie r "session" with
    | Some c => if negb (String.eqb c "") then c else if HasPrefix (q_Header r "Authorization") "Bearer " then TrimPrefix (q_Header r "Authorization") "Bearer " else ""
    | None => if HasPrefix (q_Header r "Authorization") "Bearer " then TrimPrefix (q_Header r "Authorization") "Bearer " else ""
    end in
  if String.eqb tokenStr "" then mret false else
  now ← gets (fun s => ac_now (tables (fr_ac (sy_front s))));
  match ValidateToken now (Primary kr) tokenStr (Previous kr) with
  | Err _ => mret false
  | Ok claims => sdefault false (sacc (IsAdmin (jc_UserID claims)))
  end.

(** What only an administrator is shown. *)
Record Diagnostics := mkDiagnostics {
  di_version : string; di_antd_url : string; di_queued : Z; di_processing : Z; di_notifier : string; di_antd : option HealthStatus;
}.

Record HealthBody := mkBody { hb_status : string; hb_database : bool; hb_antd : bool; hb_detail : option Diagnostics }.

(** The snapshot of the managed daemon, else what the daemon itself says. *)
Definition antd_snapshot (antdInfo : option (option HealthStatus)) (AntdURL : string) (pb : Probes) (timeout : Z) : option HealthStatus :=
  match antdInfo with
  | Some (Some h) => Some h
  | _ => if negb (String.eqb AntdURL "") then match pb_health pb AntdURL timeout with Ok h => Some h | Err _ => None end else None
  end.

Definition Health (cfg : Config) (kr : Keyring) (version : string) (antdInfo : option (option HealthStatus)) (pb : Probes) (r : Request)
  : SysM (Z * HealthBody) :=
  let dbOK := pb_ping pb in
  let AntdURL := cf_AntdURL cfg in
  timeout ← sdefault 15 (scached (GetIntWithBounds "antd_health_probe_timeout_secs" 15 1 120));
  let antdOK := negb (String.eqb AntdURL "") && match pb_cost pb AntdURL timeout with Ok _ => true | Err _ => false end in
  let status := if negb dbOK then 503 else 200 in
  let statusText := if negb dbOK then "unhealthy" else if negb antdOK then "degraded" else "healthy" in
  admin ← healthRequesterIsAdmin kr r;
  if (admin : bool) then
    counts ← sdefault [] (sdb CountByStatus);
    m ← sdefault NotifierNoop (spost (resolveNotifierMethod (F := F) cfg));
    answer status (mkBody statusText dbOK antdOK
      (Some (mkDiagnostics version AntdURL (count_in "queued" counts) (count_in "processing" counts) (method_text m)
               (antd_snapshot antdInfo AntdURL pb timeout))))
  else answer status (mkBody statusText dbOK antdOK None).

(** ** Storage and versions *)

Record StorageQuota := mkStorageQuota { sq_MaxBytes : Z; sq_UsedBytes : Z; sq_UsedPct : float64 }.

Record StorageInfo := mkStorage {
  st_DataDir : string; st_Volume : string; st_Available : bool; st_TotalBytes : Z; st_UsedBytes : Z; st_FreeBytes : Z; st_UsedPct : float64;
  st_Quota : option StorageQuota;
}.

(** [Abs] with [VolumeName] of its result; the usage is total, free and used. *)
Definition AdminStorage (cfg : Config) (Abs : string -> option (string * string)) (Usage : string -> option (Z * Z * Z)) : SysM (Z * StorageInfo) :=
  let DataDir := cf_DataDir cfg in
  let '(probePath, volume) := match Abs DataDir with Some (abs, vol) => (abs, vol) | None => (DataDir, "") end in
  let usage := match Usage probePath with Some (total, free, used) => if 0 <? total then Some (total, free, used) else None | None => None end in
  q ← sdefault None (sdb SystemQuota);
  let quota := match q with
               | Some (q, used) => if 0 <? q_max_bytes q then Some (mkStorageQuota (q_max_bytes q) used (percent used (q_max_bytes q))) else None
               | None => None
               end in
  answer 200 (match usage with
              | Some (total, free, used) => mkStorage DataDir volume true total used free (percent used total) quota
              | None => mkStorage DataDir volume false 0 0 0 (float_of 0) quota
              end).

Definition currentAntdVersion (cfg : Config) (antdInfo : option (option HealthStatus)) (pb : Probes) : string :=
  let live := if String.eqb (cf_AntdURL cfg) "" then "" else match pb_health pb (cf_AntdURL cfg) 5 with Ok h => ah_Version h | Err _ => "" end in
  match antdInfo with
  | Some (Some h) => if negb (String.eqb (ah_Version h) "") then ah_Version h else live
  | _ => live
  end.

(** The service is the handler's own state. *)
Definition AdminVersionCheck {W : Type} {gh : GitHub W} (cfg : Config) (version : string) (antdInfo : option (option HealthStatus)) (pb : Probes)
  : ST Refusal (VersionCheck W) (Z * VersionCheckResult) :=
  res ← or_refuse (fun _ => panicked) (Check_ version (currentAntdVersion cfg antdInfo pb));
  answer 200 res.

(** ** The queue *)

Record QueueState := mkQueueState {
  qs_queued : Z; qs_processing : Z; qs_completed : Z; qs_failed : Z; qs_max_queued : Z; qs_max_concurrent : Z; qs_queue_available : Z;
  qs_estimated_wait_minutes : float64;
}.

Definition positive_or (fallback : Z) (v : result error string) : Z :=
  match v with
  | Ok v => match ParseInt v with Some n => if 0 <? n then n else fallback | None => fallback end
  | Err _ => fallback
  end.

(** Ten seconds an upload, shared by the workers. *)
Definition estimated_wait (queued maxConcurrent : Z) : float64 :=
  if (0 <? maxConcurrent) && (0 <? queued)
  then f_div (f_div (f_mul (float_of queued) (float_of 10)) (float_of maxConcurrent)) (float_of 60) else float_of 0.

Definition QueueStatus : SysM (Z * QueueState) :=
  counts ← or_refuse (fun _ => jsonError "failed to query queue status" 500) (sdb CountByStatus);
  mq ← attempt (sdb (Settings.Get "max_queued_uploads"));
  mc ← attempt (sdb (Settings.Get "max_concurrent_uploads"));
  let maxQueued := positive_or 500 mq in
  let maxConcurrent := positive_or 4 mc in
  let queued := count_in "queued" counts in
  let processing := count_in "processing" counts in
  answer 200 (mkQueueState queued processing (count_in "completed" counts) (count_in "failed" counts) maxQueued maxConcurrent
    (wrap64 (wrap64 (maxQueued - queued) - processing)) (estimated_wait queued maxConcurrent)).

(** ** The requeue window *)

Record UploadRequeueWindow := mkWindow {
  uw_Minutes : Z; uw_DefaultMinutes : Z; uw_MinMinutes : Z; uw_MaxMinutes : Z; uw_Overridden : bool; uw_WorkersEnabled : bool;
}.

Definition window_of (override : Z) (workersEnabled : bool) : UploadRequeueWindow :=
  let '(window, overridden) := StuckRequeueAfter override in
  mkWindow (Z.quot window minute) (Z.quot DefaultStuckRequeueAfter minute) (Z.quot MinStuckRequeueAfter minute) (Z.quot MaxStuckRequeueAfter minute)
    overridden workersEnabled.

Definition currentUploadRequeueWindow (cfg : Config) : SysM UploadRequeueWindow := gets (fun s => window_of (sy_override s) (cf_WorkersEnabled cfg)).

Definition put_override (v : Z) : SysM unit := modify (fun s => mkSystem (sy_front s) (sy_cache s) (sy_hooks s) v).

Definition no_workers : Refusal := jsonError "this instance runs no upload workers (reader role); set the window on the writer" 409.

Definition AdminGetUploadRequeueWindow (cfg : Config) : SysM (Z * UploadRequeueWindow) :=
  w ← currentUploadRequeueWindow cfg; answer 200 w.

Definition AdminSetUploadRequeueWindow (cfg : Config) (callerID : Z) (body : option Z) : SysM (Z * UploadRequeueWindow) :=
  require (cf_WorkersEnabled cfg) no_workers ;;
  minutes ← decoded body (jsonError "invalid JSON body" 400);
  before ← currentUploadRequeueWindow cfg;
  override ← gets sy_override;
  match SetStuckRequeueAfter (wrap64 (minutes * minute)) override with
  | (Err err, _) => refuse (jsonError (Error_ err) 400)
  | (Ok _, v) =>
      put_override v ;;
      after ← currentUploadRequeueWindow cfg;
      sfront (auditEvent "upload_requeue_window_changed" "warn" (Some callerID)
        ("minutes=" +:+ big_String (uw_Minutes after) +:+ " (was " +:+ big_String (uw_Minutes before) +:+ "); in memory until restart")) ;;
      answer 200 after
  end.

Definition AdminResetUploadRequeueWindow (cfg : Config) (callerID : Z) : SysM (Z * UploadRequeueWindow) :=
  require (cf_WorkersEnabled cfg) no_workers ;;
  before ← currentUploadRequeueWindow cfg;
  put_override ResetStuckRequeueAfter ;;
  after ← currentUploadRequeueWindow cfg;
  sfront (auditEvent "upload_requeue_window_changed" "warn" (Some callerID)
    ("reset to default minutes=" +:+ big_String (uw_Minutes after) +:+ " (was " +:+ big_String (uw_Minutes before) +:+ ")")) ;;
  answer 200 after.
End system.

(** ** The window in minutes *)

Definition empty_system : System (N := unit) :=
  mkSystem (mkFront (mkWorld (mkAccounts [] 0 [] [] 0 [] [] 0 [] [] 0 [] [] [] [] 0 [] 0 0) []) 
              (mkDb [] 0 [] 0 [] 0 [] [] [] [] [] 0 [] [] [] [] [] 0 [] 0 []) []) ∅
    (mkHookState (mkWorld (mkHooks [] 0 [] 0 [] 0 0) []) (mkWorld (AuditLog.mkLogs [] 0 [] 0 [] 0 [] 0 (Clock.mkCivil 2024 1 1 0 0 0)) []) tt [] [] 0) 0.

Definition asked_window (minutes : Z) : result Refusal Z :=
  match AdminSetUploadRequeueWindow default_config 1 (Some minutes) empty_system with (Ok (_, w), _) => Ok (uw_Minutes w) | (Err r, _) => Err r end.

(** Minutes beyond the bounds are refused, unless their product wraps around
    into them. *)
Example windows_asked :
  asked_window 90 = Ok 90 /\ asked_window 0 = Err (jsonError "requeue window must be between" 400) /\
  asked_window 10081 = Err (jsonError "requeue window must be between" 400) /\ asked_window (2 ^ 53 + 90) = Ok 90.
Proof. vm_compute. done. Qed.

(** Once minutes are within a week they are kept exactly. *)
Lemma window_kept minutes v : 1 <= minutes <= 7 * 24 * 60 -> SetStuckRequeueAfter (wrap64 (minutes * minute)) v = (Ok tt, minutes * minute) /\
  uw_Minutes (window_of (minutes * minute) true) = minutes.
Proof.
  intros H. unfold minute, Evm.seconds. rewrite wrap64_id by (red; unfold int64_min, int64_max; lia). unfold SetStuckRequeueAfter, window_of, StuckRequeueAfter, MinStuckRequeueAfter, MaxStuckRequeueAfter, hour, minute, Evm.seconds.
  rewrite (proj2 (Z.ltb_ge _ _)), (proj2 (Z.ltb_ge _ _)), (proj2 (Z.ltb_lt 0 _)) by lia. split; [done|]. cbn. by apply Z.quot_mul.
Qed.

(** * The quota handlers

    src/internal/handlers/admin_quotas.go, with the listing of
    services/quota.go. *)

Open Scope Z_scope.

(** ORDER BY entity_type, entity_id: NULL comes first. *)
Definition quota_order (a b : Quota) : bool :=
  match String.compare (q_entity_type a) (q_entity_type b) with
  | Lt => true
  | Gt => false
  | Eq => match q_entity_id a, q_entity_id b with None, _ => true | Some _, None => false | Some x, Some y => text_le x y end
  end.

Fixpoint with_usage (qs : list Quota) : DbM (list (Quota * Z)) :=
  match qs with
  | [] => mret []
  | q :: qs => used ← calcUsage (q_entity_type q) (q_entity_id q); rest ← with_usage qs; mret ((q, used) :: rest)
  end.

Definition QuotaList : DbM (list (Quota * Z)) :=
  rows ← query (fun d => order_by quota_order (quotas d));
  with_usage rows.

Record quotaResponse := mkQuotaResp {
  qr_ID : Z; qr_EntityType : string; qr_EntityID : option string; qr_MaxBytes : Z; qr_UsedBytes : Z; qr_IsEnabled : bool; qr_CreatedAt : string; qr_UpdatedAt : string;
}.

Definition toQuotaResponse (q : Quota * Z) : quotaResponse :=
  let '(q, used) := q in
  mkQuotaResp (q_id q) (q_entity_type q) (q_entity_id q) (q_max_bytes q) used (q_is_enabled q) (format_z (q_created_at q)) (format_z (q_updated_at q)).

Record createQuotaRequest := mkCreateQuota { cq_EntityType : string; cq_EntityID : string; cq_MaxBytes : Z }.
Record updateQuotaRequest := mkUpdateQuota { uq_MaxBytes : Z; uq_IsEnabled : bool }.

Definition AdminListQuotas : FrontM (Z * list quotaResponse) :=
  quotas ← or_refuse (fun _ => jsonError "failed to list quotas" 500) (fdb QuotaList);
  answer 200 (map toQuotaResponse quotas).

Definition create_quota_refusal (err : error) : Refusal :=
  if errors_is err ErrQuotaDuplicate then jsonError "quota already exists for this entity" 409 else
  if errors_is err ErrQuotaEntityRequired || errors_is err ErrQuotaEntityNotFound || errors_is err ErrQuotaInvalidEntityType
  then jsonError (Error_ err) 400 else jsonError "failed to create quota" 500.

Definition AdminCreateQuota (callerID : Z) (body : option createQuotaRequest) : FrontM (Z * quotaResponse) :=
  req ← decoded body invalid_body;
  require (negb (String.eqb (cq_EntityType req) "")) (jsonError "entity_type is required" 400) ;;
  require (0 <? cq_MaxBytes req) (jsonError "max_bytes must be positive" 400) ;;
  quota ← or_refuse create_quota_refusal (fdb (QuotaCreate (cq_EntityType req) (cq_EntityID req) (cq_MaxBytes req)));
  auditEvent "quota_created" "info" (Some callerID)
    ("id=" +:+ big_String (q_id (fst quota)) +:+ " entity_type=" +:+ cq_EntityType req +:+ " entity_id=" +:+ cq_EntityID req +:+ " max_bytes=" +:+ big_String (cq_MaxBytes req)) ;;
  answer 201 (toQuotaResponse quota).

Definition AdminListDepartments : FrontM (Z * list string) :=
  depts ← or_refuse (fun _ => jsonError "failed to list departments" 500) (fdb Departments);
  answer 200 depts.

(** The new limit is taken as it is. *)
Definition AdminUpdateQuota (callerID : Z) (id : string) (body : option updateQuotaRequest) : FrontM (Z * quotaResponse) :=
  id ← path_id id "invalid quota id";
  req ← decoded body invalid_body;
  quota ← or_refuse (fun err => if errors_is err ErrQuotaNotFound then jsonError "quota not found" 404 else jsonError "failed to update quota" 500)
    (fdb (QuotaUpdate id (uq_MaxBytes req) (uq_IsEnabled req)));
  auditEvent "quota_updated" "info" (Some callerID)
    ("id=" +:+ big_String id +:+ " max_bytes=" +:+ big_String (uq_MaxBytes req) +:+ " enabled=" +:+ (if uq_IsEnabled req then "true" else "false")) ;;
  answer 200 (toQuotaResponse quota).

Definition AdminDeleteQuota (callerID : Z) (id : string) : FrontM (Z * string) :=
  id ← path_id id "invalid quota id";
  or_refuse (fun err => if errors_is err ErrQuotaNotFound then jsonError "quota not found" 404 else jsonError "failed to delete quota" 500)
    (fdb (QuotaDelete id)) ;;
  auditEvent "quota_deleted" "info" (Some callerID) ("id=" +:+ big_String id) ;;
  answer 200 "quota deleted".
