(* ===== verification/Managed.v ===== *)
(** * The managed daemon

    src/internal/antd/manager.go: antd spawned as a child process, found through
    its port file, watched and restarted. The operating system and antd are an
    interface; a call is a step of its state, and time passes there. The monitor
    runs on a goroutine of its own: here the calls of its loop in order. *)

From stdpp Require Import gmap strings pretty.
From Stdlib Require Import Ascii.
From S2P Require Import Prelude GoLib Http Guards Notifier Versions WorkerBase SystemHandlers.

Open Scope Z_scope.

Definition millisecond : Z := 1000000.
Definition discoverPollInterval : Z := 500 * millisecond.
Definition discoverTimeout : Z := 30000 * millisecond.
Definition healthRetries : nat := 5.
Definition healthRetryDelay : Z := 1000 * millisecond.
Definition stopTimeout : Z := 10000 * millisecond.
Definition maxRestarts : nat := 3.

(** What the manager calls. [os_Wait]: whether the manager's context was cancelled
    by the time the child exited, or nothing if it never exits. [os_Exits d]: whether the monitor
    ends within [d]. *)
Class Machine (N : Type) := {
  os_Now : N -> Z;
  os_Sleep : Z -> N -> N;
  os_Discover : N -> string * N;
  os_GetHealth : string -> N -> option Z * N;
  sdk_Health : string -> N -> result error (option HealthStatus) * N;
  os_LookPath : string -> N -> result error string * N;
  os_Spawn : string -> list string -> N -> result error Z * N;
  os_Wait : N -> option bool * N;
  os_Cancel : N -> N;
  os_Interrupt : N -> N;
  os_Kill : N -> result error unit * N;
  os_Exits : Z -> N -> bool * N;
}.

(** The clock runs forward, and by at least what was slept. *)
Class Clocked (N : Type) {m : Machine N} := {
  slept_long : forall d n, os_Now n + d <= os_Now (os_Sleep d n);
  discover_later : forall n, os_Now n <= os_Now (snd (os_Discover n));
}.

Section manager.
Context {N : Type} {machine : Machine N}.

(** [mg_cmd]: a command was started; [mg_done]: the channel is closed. *)
Record Manager := mkManager {
  mg_os : N; mg_url : string; mg_pid : Z; mg_cmd : bool; mg_cancel : bool; mg_done : bool; mg_lastHealth : option HealthStatus;
}.

Definition put_os v m := mkManager v (mg_url m) (mg_pid m) (mg_cmd m) (mg_cancel m) (mg_done m) (mg_lastHealth m).
Definition put_url v m := mkManager (mg_os m) v (mg_pid m) (mg_cmd m) (mg_cancel m) (mg_done m) (mg_lastHealth m).
Definition put_pid v m := mkManager (mg_os m) (mg_url m) v (mg_cmd m) (mg_cancel m) (mg_done m) (mg_lastHealth m).
Definition put_cmd v m := mkManager (mg_os m) (mg_url m) (mg_pid m) v (mg_cancel m) (mg_done m) (mg_lastHealth m).
Definition put_cancel v m := mkManager (mg_os m) (mg_url m) (mg_pid m) (mg_cmd m) v (mg_done m) (mg_lastHealth m).
Definition put_done v m := mkManager (mg_os m) (mg_url m) (mg_pid m) (mg_cmd m) (mg_cancel m) v (mg_lastHealth m).
Definition put_health v m := mkManager (mg_os m) (mg_url m) (mg_pid m) (mg_cmd m) (mg_cancel m) (mg_done m) v.

Definition NewManager (n : N) : Manager := mkManager n "" 0 false false false None.

Abbreviation ManM := (ST error Manager).

(** A call of the outside. *)
Definition ask {A} (f : N -> A * N) : ManM A := fun m => let '(a, n) := f (mg_os m) in (Ok a, put_os n m).
Definition tell_os (f : N -> N) : ManM unit := modify (fun m => put_os (f (mg_os m)) m).
Definition ask_err {A} (f : N -> result error A * N) : ManM A := r ← ask f; of_result r.

Definition healthCheck (url : string) : ManM bool :=
  sc ← ask (os_GetHealth (url +:+ "/health"));
  mret (match sc with Some c => (200 <=? c) && (c <? 300) | None => false end).

Definition probeHealth : ManM (option HealthStatus) :=
  url ← gets mg_url;
  if String.eqb url "" then mret None else
  r ← ask (sdk_Health url);
  mret (match r with Ok (Some h) => if ah_OK h then Some h else None | _ => None end).

(** A snapshot that could be taken is kept. *)
Definition refresh : ManM bool :=
  h ← probeHealth;
  match h with Some h => modify (put_health (Some h)) ;; mret true | None => mret false end.

Definition spawn (binPath : string) : ManM unit :=
  pid ← ask_err (os_Spawn binPath ["--rest-port"; "0"; "--grpc-port"; "0"]);
  modify (fun m => put_cmd true (put_pid pid m)).

(** The poll until the deadline. *)
Fixpoint discover_until (fuel : nat) (deadline : Z) : ManM bool :=
  match fuel with
  | O => fail (ENew "out of fuel")
  | S fuel =>
      now ← gets (fun m => os_Now (mg_os m));
      if negb (now <? deadline) then mret false else
      url ← ask os_Discover;
      if negb (String.eqb url "") then modify (put_url url) ;; mret true else
      tell_os (os_Sleep discoverPollInterval) ;;
      discover_until fuel deadline
  end.

(** A poll every half second for half a minute. *)
Definition poll_fuel : nat := 61.

Definition waitForDiscovery : ManM unit :=
  now ← gets (fun m => os_Now (mg_os m));
  ok ← discover_until poll_fuel (now + discoverTimeout);
  if (ok : bool) then mret tt else fail (ENew "antd did not write port file within 30s").

Fixpoint health_tries (k : nat) : ManM unit :=
  match k with
  | O => fail (ENew "antd failed health check")
  | S k => ok ← refresh; if (ok : bool) then mret tt else tell_os (os_Sleep healthRetryDelay) ;; health_tries k
  end.

Definition waitForHealth : ManM unit := health_tries healthRetries.

Definition kill : ManM unit :=
  started ← gets mg_cmd; if (started : bool) then ask os_Kill ;; mret tt else mret tt.

(** A failure after the spawn kills the child. *)
Definition or_kill (m : ManM unit) : ManM unit :=
  r ← try m;
  match r with Ok _ => mret tt | Err e => kill ;; tell_os os_Cancel ;; fail e end.

(** Whether a child was started that the monitor is to watch. *)
Definition Start_manager (AntdBin : string) : ManM bool :=
  url ← ask os_Discover;
  up ← (if negb (String.eqb url "") then healthCheck url else mret false);
  if (up : bool) then modify (put_url url) ;; refresh ;; mret false else
  binPath ← map_err (fun e => EWrap "antd binary not found; install antd or set INDELIBLE_ANTD_BIN: " [e]) (ask_err (os_LookPath AntdBin));
  modify (put_cancel true) ;;
  r ← try (spawn binPath);
  match r with
  | Err e => tell_os os_Cancel ;; fail e
  | Ok _ => or_kill waitForDiscovery ;; or_kill waitForHealth ;; mret true
  end.

(** Why the monitor stopped watching; [StillRunning]: it has not. *)
Inductive gave_up := Shutdown | MaxRestarts | SpawnFailed | NotDiscovered | StillRunning | NoFuel.

(** The loop of the monitor, with the restarts so far. *)
Fixpoint watch (fuel restarts : nat) (binPath : string) : ManM (gave_up * nat) :=
  match fuel with
  | O => mret (NoFuel, restarts)
  | S fuel =>
      exited ← ask os_Wait;
      match exited with
      | None => mret (StillRunning, restarts)
      | Some cancelled =>
      if (cancelled : bool) then mret (Shutdown, restarts) else
      if (maxRestarts <=? restarts)%nat then mret (MaxRestarts, restarts) else
      let restarts := S restarts in
      r ← try (spawn binPath);
      match r with
      | Err _ => mret (SpawnFailed, restarts)
      | Ok _ =>
          d ← try waitForDiscovery;
          match d with
          | Err _ => kill ;; mret (NotDiscovered, restarts)
          | Ok _ => refresh ;; watch fuel restarts binPath
          end
      end
      end
  end.

(** The channel is closed when the loop has been left. *)
Definition monitor (binPath : string) : ManM (gave_up * nat) :=
  r ← watch (S maxRestarts) 0 binPath;
  match fst r with
  | StillRunning => mret r
  | _ => modify (put_done true) ;; mret r
  end.

(** [Stop], without a monitor that never ends: the last wait has no limit. *)
Definition Stop_manager : ManM unit :=
  cancel ← gets mg_cancel;
  (if (cancel : bool) then tell_os os_Cancel else mret tt) ;;
  started ← gets mg_cmd;
  if negb started then mret tt else
  tell_os os_Interrupt ;;
  ended ← ask (os_Exits stopTimeout);
  if (ended : bool) then mret tt else
  map_err (fun e => EWrap "killing antd: " [e]) (ask_err os_Kill).

Definition AntdInfo (m : Manager) : option HealthStatus := mg_lastHealth m.
Definition URL (m : Manager) : string := mg_url m.
Definition PID (m : Manager) : Z := mg_pid m.
Definition Running (m : Manager) : bool := if mg_done m then false else negb (mg_pid m =? 0).
End manager.
Arguments Manager N : clear implicits.

(** ** The waits end *)

Section ends.
Context {N : Type} {machine : Machine N} {clocked : Clocked N}.
Implicit Types m : Manager N.

Definition clock_of m : Z := os_Now (mg_os m).

(** A poll costs half a second: [k] polls reach a deadline that is no further
    than that. *)
Lemma discover_until_ends fuel deadline m : deadline <= clock_of m + (Z.of_nat fuel - 1) * discoverPollInterval -> (0 < fuel)%nat ->
  exists ok m', discover_until fuel deadline m = (Ok ok, m') /\
    if (ok : bool) then mg_url m' <> "" else deadline <= clock_of m'.
Proof.
  revert m. induction fuel as [|fuel IH]; intros m Hd Hf; [lia|]. cbn [discover_until].
  unfold mbind, ST_bind, gets, ask, tell_os, modify, mret, ST_ret. fold (clock_of m).
  destruct (Z.ltb_spec (clock_of m) deadline) as [Hlt|Hge]; cbn [negb].
  2: { exists false, m. by split. }
  pose proof (discover_later (mg_os m)) as Hl. destruct (os_Discover (mg_os m)) as [url n]. cbn in Hl.
  destruct (String.eqb_spec url "") as [->|Hne]; cbn [negb].
  2: { exists true, (put_url url (put_os n m)). by split. }
  pose proof (slept_long discoverPollInterval n) as Hs.
  set (m1 := put_os (os_Sleep discoverPollInterval (mg_os (put_os n m))) (put_os n m)).
  assert (clock_of m + discoverPollInterval <= clock_of m1) as Hm1 by (unfold clock_of in *; cbn; lia).
  assert (0 < fuel)%nat as Hf'. { destruct fuel; [|lia]. unfold discoverPollInterval, millisecond in *. lia. }
  apply (IH m1); [|done]. unfold discoverPollInterval, millisecond in *. nia.
Qed.

(** More polls than that are never made. *)
Lemma discover_until_more fuel deadline m fuel' : deadline <= clock_of m + (Z.of_nat fuel - 1) * discoverPollInterval -> (0 < fuel <= fuel')%nat ->
  discover_until fuel' deadline m = discover_until fuel deadline m.
Proof.
  revert m fuel'. induction fuel as [|fuel IH]; intros m [|fuel'] Hd Hf; [lia..|]. cbn [discover_until].
  unfold mbind, ST_bind, gets, ask, tell_os, modify, mret, ST_ret. fold (clock_of m).
  destruct (Z.ltb_spec (clock_of m) deadline) as [Hlt|Hge]; cbn [negb]; [|done].
  pose proof (discover_later (mg_os m)) as Hl. destruct (os_Discover (mg_os m)) as [url n]. cbn in Hl.
  destruct (negb (String.eqb url "")); [done|]. pose proof (slept_long discoverPollInterval n) as Hs.
  set (m1 := put_os (os_Sleep discoverPollInterval (mg_os (put_os n m))) (put_os n m)).
  assert (clock_of m + discoverPollInterval <= clock_of m1) as Hm1 by (unfold clock_of in *; cbn; lia).
  assert (0 < fuel)%nat as Hf'. { destruct fuel; [|lia]. unfold discoverPollInterval, millisecond in *. lia. }
  apply (IH m1); [|lia]. unfold discoverPollInterval, millisecond in *. nia.
Qed.

(** A clock that moves with the sleeps alone. *)
Definition exact_clock : Prop :=
  (forall d n, os_Now (os_Sleep d n) = os_Now n + d) /\ (forall n, os_Now (snd (os_Discover n)) = os_Now n).

Lemma discover_until_by fuel deadline : exact_clock -> forall k m, clock_of m + Z.of_nat k * discoverPollInterval = deadline ->
  clock_of (snd (discover_until fuel deadline m)) <= deadline.
Proof.
  intros [Hsleep Hdisc]. assert (0 < discoverPollInterval) as Hpos by (unfold discoverPollInterval, millisecond; lia).
  induction fuel as [|fuel IH]; intros k m Hk; [cbn; lia|]. cbn [discover_until].
  unfold mbind, ST_bind, gets, ask, tell_os, modify, mret, ST_ret. fold (clock_of m).
  destruct (Z.ltb_spec (clock_of m) deadline) as [Hlt|Hge]; cbn [negb]; [|cbn; lia].
  pose proof (Hdisc (mg_os m)) as Hn. destruct (os_Discover (mg_os m)) as [url n]. cbn in Hn.
  destruct (negb (String.eqb url "")); [unfold clock_of in *; cbn; lia|]. destruct k as [|k]; [lia|]. apply (IH k).
  unfold clock_of in *. cbn. rewrite Hsleep. lia.
Qed.

Lemma waitForDiscovery_by m : exact_clock -> clock_of (snd (waitForDiscovery m)) <= clock_of m + discoverTimeout.
Proof.
  intros Hc. unfold waitForDiscovery. erewrite bind_run; [|reflexivity]. unfold mbind, ST_bind. fold (clock_of m).
  pose proof (discover_until_by poll_fuel (clock_of m + discoverTimeout) Hc 60 m eq_refl) as H.
  destruct (discover_until poll_fuel _ m) as [[[|]|e] m']; exact H.
Qed.

Lemma waitForDiscovery_ends m : exists r m', waitForDiscovery m = (r, m') /\
  match r with Ok _ => mg_url m' <> "" | Err e => e = ENew "antd did not write port file within 30s" /\ clock_of m + discoverTimeout <= clock_of m' end.
Proof.
  destruct (discover_until_ends poll_fuel (clock_of m + discoverTimeout) m) as (ok & m' & E & H).
  - unfold poll_fuel, discoverTimeout, discoverPollInterval, millisecond. lia.
  - unfold poll_fuel. lia.
  - unfold waitForDiscovery. exists (if ok then Ok tt else Err (ENew "antd did not write port file within 30s")), m'.
    erewrite bind_run; [|reflexivity]. erewrite bind_run; [|exact E]. by destruct ok.
Qed.

Lemma refresh_returns m : exists b m', refresh m = (Ok b, m') /\ mg_url m' = mg_url m.
Proof.
  unfold refresh, probeHealth, mbind, ST_bind, gets, ask, mret, ST_ret, modify. destruct (String.eqb (mg_url m) ""); [by eexists _, _|].
  destruct (sdk_Health _ _) as [r n]. destruct r as [[h|]|]; [destruct (ah_OK h)|..]; by eexists _, _.
Qed.

(** What goes on in the loop leaves the channel alone. *)
Definition same_done m m' : Prop := mg_done m' = mg_done m.

#[local] Instance same_done_preorder : PreOrder same_done.
Proof. split; unfold same_done; [by intros m|]. intros a b c. congruence. Qed.

Lemma same_done_ask {A} (f : N -> A * N) : steps same_done (ask f).
Proof. intros m. unfold ask. by destruct (f (mg_os m)). Qed.

Lemma same_done_discover fuel deadline : steps same_done (discover_until fuel deadline).
Proof.
  induction fuel as [|fuel IH]; cbn [discover_until]; [apply steps_fail, _|]. unfold tell_os. steps_go; try apply same_done_ask; try exact IH; by apply steps_modify.
Qed.

Lemma same_done_watch binPath fuel : forall restarts, steps same_done (watch fuel restarts binPath).
Proof.
  induction fuel as [|fuel IH]; intros restarts; cbn [watch]; [apply steps_ret, _|].
  unfold spawn, waitForDiscovery, kill, refresh, probeHealth, ask_err. cbv zeta.
  steps_go; try apply same_done_ask; try apply same_done_discover; try apply IH; by apply steps_modify.
Qed.

Lemma watch_ends binPath : forall fuel restarts m, (maxRestarts < fuel + restarts)%nat -> (restarts <= maxRestarts)%nat ->
  exists why k m', watch fuel restarts binPath m = (Ok (why, k), m') /\ why <> NoFuel /\ (k <= maxRestarts)%nat /\
    (why = MaxRestarts -> k = maxRestarts) /\ (why = StillRunning -> exists n, fst (os_Wait n) = None).
Proof.
  induction fuel as [|fuel IH]; intros restarts m Hf Hr; [lia|]. cbn [watch].
  unfold mbind at 1, ST_bind at 1, ask at 1. destruct (os_Wait (mg_os m)) as [[[|]|] n1] eqn:Ew.
  1: eexists _, _, _; split; [reflexivity|by split_and!].
  2: eexists _, _, _; split; [reflexivity|]; split_and!; [done..|]; intros _; exists (mg_os m); by rewrite Ew.
  destruct (Nat.leb_spec maxRestarts restarts) as [Hm|Hm].
  { eexists _, _, _. split; [reflexivity|]. split_and!; [done|done| |done]. intros _. lia. }
  cbv zeta. unfold mbind at 1, ST_bind at 1, try at 1. destruct (spawn binPath _) as [[u|e] m1].
  2: { eexists _, _, _. split; [reflexivity|]. split_and!; [done|lia|done|done]. }
  destruct (waitForDiscovery_ends m1) as (r & m2 & Hd & Hd'). unfold mbind at 1, ST_bind at 1, try at 1. rewrite Hd. destruct r as [u2|e].
  - destruct (refresh_returns m2) as (b & m3 & Hre & _). unfold mbind at 1, ST_bind at 1. rewrite Hre.
    destruct (IH (S restarts) m3) as (why & k & m' & H); [lia|lia|]. by exists why, k, m'.
  - unfold kill, mbind, ST_bind, gets, ask, mret, ST_ret. destruct (mg_cmd m2); [destruct (os_Kill _) as [k n]|];
      (eexists _, _, _; split; [reflexivity|]; split_and!; [done|lia|done|done]).
Qed.

(** C40. The monitor of the managed daemon ends unless a child runs on for ever,
    whatever the machine does. It restarts the child at most three times; when it
    ends the channel that a stop waits for is closed, and as long as a child runs
    it is not touched. Each wait for the daemon is over when an address was found
    or half a minute has passed: no fuel above that of the model polls more often,
    and where sleeping is all that takes time it is over by then. *)
Theorem monitor_ends (binPath : string) (m : Manager N) :
  (exists why k m', monitor binPath m = (Ok (why, k), m') /\ why <> NoFuel /\ (k <= 3)%nat /\ (why = MaxRestarts -> k = 3%nat) /\
    match why with
    | StillRunning => mg_done m' = mg_done m /\ exists n, fst (os_Wait n) = None
    | _ => mg_done m' = true /\ Running m' = false
    end) /\
  (forall m1 fuel, (poll_fuel <= fuel)%nat ->
    discover_until fuel (clock_of m1 + discoverTimeout) m1 = discover_until poll_fuel (clock_of m1 + discoverTimeout) m1) /\
  (forall m1, exists r m2, waitForDiscovery m1 = (r, m2) /\
    match r with Ok _ => mg_url m2 <> "" | Err _ => clock_of m1 + discoverTimeout <= clock_of m2 end /\
    (exact_clock -> clock_of m2 <= clock_of m1 + discoverTimeout)).
Proof.
  split; [|split].
  - destruct (watch_ends binPath (S maxRestarts) 0 m) as (why & k & m' & E & H1 & H2 & H3 & H4); [unfold maxRestarts; lia|unfold maxRestarts; lia|].
    pose proof (same_done_watch binPath (S maxRestarts) 0 m) as Hs. rewrite E in Hs. unfold monitor.
    exists why, k, (match why with StillRunning => m' | _ => put_done true m' end).
    split; [erewrite bind_run; [|exact E]; by destruct why|]. split_and!; [done..|]. destruct why; try done. split; [exact Hs|by apply H4].
  - intros m1 fuel Hf. apply discover_until_more; [|unfold poll_fuel in *; lia].
    unfold poll_fuel, discoverTimeout, discoverPollInterval, millisecond. lia.
  - intros m1. destruct (waitForDiscovery_ends m1) as (r & m2 & E & H). exists r, m2. split; [done|]. split; [destruct r; [exact H|exact (proj2 H)]|].
    intros Hc. pose proof (waitForDiscovery_by m1 Hc) as Hb. by rewrite E in Hb.
Qed.
End ends.

(** ** A daemon that comes back elsewhere *)

(** The port files that will be found, the exits and whether each is a
    cancellation (the child after them runs on), and the time. *)
Record fake := mkFake { fk_urls : list string; fk_exits : list bool; fk_now : Z }.

#[local] Instance fake_machine : Machine fake := {|
  os_Now := fk_now; os_Sleep d n := mkFake (fk_urls n) (fk_exits n) (fk_now n + d);
  os_Discover n := match fk_urls n with u :: us => (u, mkFake us (fk_exits n) (fk_now n)) | [] => ("", n) end;
  os_GetHealth u n := (Some 503, n); sdk_Health u n := (Ok (Some (mkHealth true u "" 0 "" "" "")), n);
  os_LookPath b n := (Ok ("/usr/bin/" +:+ b), n); os_Spawn b args n := (Ok 42, n);
  os_Wait n := match fk_exits n with b :: bs => (Some b, mkFake (fk_urls n) bs (fk_now n)) | [] => (None, n) end;
  os_Cancel n := n; os_Interrupt n := n; os_Kill n := (Ok tt, n); os_Exits d n := (true, n);
|}.

#[local] Instance fake_clocked : Clocked fake.
Proof. split; [by intros d n|]. intros n. cbn. by destruct (fk_urls n). Qed.

(** Started, and restarted once: the daemon is found at another port. *)
Definition machine_of_day : fake := mkFake [""; "http://127.0.0.1:4001"; ""; "http://127.0.0.1:4002"] [false; true] 0.

Lemma fake_exact : exact_clock (N := fake).
Proof. split; [done|]. intros n. cbn. by destruct (fk_urls n). Qed.

(** One restart, then a shutdown; a machine on which nothing is found. *)
Lemma monitor_ends_witness :
  (exists why k m', monitor "antd" (NewManager machine_of_day) = (Ok (why, k), m') /\ (k <= 3)%nat) /\
  exists r m2, waitForDiscovery (NewManager (mkFake [] [] 7)) = (r, m2) /\ clock_of m2 <= 7 + discoverTimeout.
Proof.
  destruct (monitor_ends "antd" (NewManager machine_of_day)) as ((why & k & m' & E & _ & Hk & _) & _ & Hw). split; [by exists why, k, m'|].
  destruct (Hw (NewManager (mkFake [] [] 7))) as (r & m2 & E2 & _ & Hb). exists r, m2. split; [done|]. exact (Hb fake_exact).
Defined.

(** Half a minute to the millisecond. *)
Example nothing_is_found : waitForDiscovery (NewManager (mkFake [] [] 7)) =
  (Err (ENew "antd did not write port file within 30s"), NewManager (mkFake [] [] (7 + discoverTimeout))).
Proof. vm_compute. done. Qed.

(** A child that runs on: the channel stays open. *)
Example daemon_that_lives :
  let r := monitor "antd" (NewManager (mkFake ["a"] [false] 0)) in fst r = Ok (StillRunning, 1%nat) /\ mg_done (snd r) = false.
Proof. vm_compute. done. Qed.

(** The address the server was given when it started is the first one. *)
Example restart_moves_the_daemon :
  let started := Start_manager "antd" (NewManager machine_of_day) in
  let watched := monitor "/usr/bin/antd" (snd started) in
  fst started = Ok true /\ URL (snd started) = "http://127.0.0.1:4001" /\
  fst watched = Ok (Shutdown, 1%nat) /\ URL (snd watched) = "http://127.0.0.1:4002".
Proof. vm_compute. done. Qed.

(** A child that keeps dying is started four times in all. *)
Example daemon_that_dies :
  fst (monitor "antd" (NewManager (mkFake ["a"; "b"; "c"; "d"] [false; false; false; false; false] 0))) = Ok (MaxRestarts, 3%nat).
Proof. vm_compute. done. Qed.
