(* ===== verification/Boot.v ===== *)
(** * Starting an instance

    main() of src/cmd/indelible/main.go, from the configuration to the workers.
    What it opens is an argument: the database, its migration, the scan of the
    cache; the managed daemon is Managed's. A failure ends the process. *)

From stdpp Require Import gmap strings pretty.
From Stdlib Require Import Ascii.
From S2P Require Import Prelude GoLib Sql Schema Stmt UploadStore Keyring Payer AccountSchema AuditLog Publish Users Admins Http Config Managed.

Open Scope Z_scope.

Inductive started_worker := UploadW | LogRetentionW | DiskAlertW | AuditAnchorW | SystemMonitorW | IdempotencyCleanup | CacheSweepW.

(** Why the process exited; every failure exits with 1. *)
Inductive exit := BadConfig (e : error) | BadNetwork (e : error) | NoDaemon (e : error) | NoDatabase (e : error) | NotMigrated (e : error) | NoAdministrator.

Section boot.
Context {N : Type} {machine : Machine N} {B : Bcrypt}.
(** The environment of the configuration. *)
Context (Getenv : string -> string) (ReadFile : string -> result error string) (ToLower : string -> string).
Context (DecodeFile : string -> Config -> result error Config).

(** What the process works on, and what it has done: the daemon was asked to
    stop, the schema was migrated, the keys were filled in. *)
Record Process := mkProcess { ps_os : N; ps_manager : option (Manager N); ps_ac : World Accounts; ps_db : Db; ps_stopped : bool; ps_migrated : bool }.

Definition put_ps_os v s := mkProcess v (ps_manager s) (ps_ac s) (ps_db s) (ps_stopped s) (ps_migrated s).
Definition put_ps_manager v s := mkProcess (ps_os s) v (ps_ac s) (ps_db s) (ps_stopped s) (ps_migrated s).
Definition put_ps_ac v s := mkProcess (ps_os s) (ps_manager s) v (ps_db s) (ps_stopped s) (ps_migrated s).
Definition put_ps_db v s := mkProcess (ps_os s) (ps_manager s) (ps_ac s) v (ps_stopped s) (ps_migrated s).

Abbreviation BootM := (ST exit Process).

(** [os.Exit(1)] after a call that failed. *)
Definition or_exit {A} (f : error -> exit) (m : ST error Process A) : BootM A := fun s =>
  let '(r, s') := m s in (match r with Ok a => Ok a | Err e => Err (f e) end, s').

Definition attempted {A} (m : ST error Process A) : BootM (result error A) := fun s => let '(r, s') := m s in (Ok r, s').

(** [antdMgr.Stop()], where the daemon is managed; its error is dropped. *)
Definition stop_daemon : BootM unit := modify (fun s =>
  match ps_manager s with
  | Some m => mkProcess (ps_os s) (Some (snd (Stop_manager m))) (ps_ac s) (ps_db s) true (ps_migrated s)
  | None => s
  end).

Definition exit_with {A} (e : exit) : BootM A := stop_daemon ;; fail e.

Definition configure (configPath networkFlag : string) : result exit Config :=
  match Load_config Getenv ReadFile ToLower DecodeFile configPath with
  | Err e => Err (BadConfig e)
  | Ok cfg =>
      let cfg := if negb (String.eqb networkFlag "") then set_cf_Network networkFlag cfg else cfg in
      match ApplyNetworkPreset cfg with (Err e, _) => Err (BadNetwork e) | (Ok _, cfg) => Ok cfg end
  end.

Definition start_daemon (cfg : Config) : BootM Config :=
  if cf_AntdManaged cfg then
    n ← gets ps_os;
    match Start_manager (cf_AntdBin cfg) (NewManager n) with
    | (Err e, _) => fail (NoDaemon e)
    | (Ok _, m) => modify (put_ps_manager (Some m)) ;; mret (set_cf_AntdURL (URL m) cfg)
    end
  else if String.eqb (cf_AntdURL cfg) "" || String.eqb (cf_AntdURL cfg) "http://localhost:8082" then
    n ← gets ps_os;
    let '(url, n) := os_Discover n in
    modify (put_ps_os n) ;;
    mret (if negb (String.eqb url "") then set_cf_AntdURL url cfg else cfg)
  else mret cfg.

Definition migrate (cfg : Config) (migration : result error unit) : BootM unit :=
  if cf_WorkersEnabled cfg then
    match migration with
    | Err e => exit_with (NotMigrated e)
    | Ok _ => modify (fun s => mkProcess (ps_os s) (ps_manager s) (ps_ac s) (ps_db s) (ps_stopped s) true)
    end
  else mret tt.

(** A count that could not be read lets the instance start. *)
Definition require_admin (cfg : Config) (salt : Z) : BootM (result error Z) :=
  attempted (zoom ps_ac put_ps_ac (SeedAdmin (cf_AdminEmail cfg) (cf_AdminPassword cfg) salt)) ;;
  n ← attempted (zoom ps_ac put_ps_ac CountAdmins);
  match n with
  | Ok n => if n =? 0 then exit_with NoAdministrator else mret (Ok n)
  | Err e => mret (Err e)
  end.

Definition start_workers (cfg : Config) : BootM (list started_worker) :=
  if cf_WorkersEnabled cfg then
    attempted (zoom ps_db put_ps_db BackfillCacheKeys) ;;
    mret [UploadW; LogRetentionW; DiskAlertW; AuditAnchorW; SystemMonitorW; IdempotencyCleanup]
  else mret [].

(** A running instance: its configuration, the administrators it counted,
    whether its cache is in use, and its workers. *)
Record Running_instance := mkRunning { ri_cfg : Config; ri_admins : result error Z; ri_cache : bool; ri_workers : list started_worker }.

Definition boot (configPath networkFlag : string) (open migration scan : result error unit) (salt : Z) : BootM Running_instance :=
  cfg ← of_result (configure configPath networkFlag);
  cfg ← start_daemon cfg;
  match open with Err e => exit_with (NoDatabase e) | Ok _ =>
    migrate cfg migration ;;
    n ← require_admin cfg salt;
    ws ← start_workers cfg;
    mret (mkRunning cfg n (match scan with Ok _ => true | Err _ => false end) (ws ++ [CacheSweepW]))
  end.
End boot.
Arguments Process N : clear implicits.

(** * What a running instance can be trusted with

    main() composed with the configuration, the seeding of the first
    administrator and the count of administrators. *)

Open Scope Z_scope.

(** ** What the later steps leave of the configuration *)

Definition same_secrets (c c' : Config) : Prop :=
  cf_JWTSecret c' = cf_JWTSecret c /\ cf_JWTSecretsPrevious c' = cf_JWTSecretsPrevious c /\
  cf_WalletEncryptionKey c' = cf_WalletEncryptionKey c /\ cf_WalletEncryptionKeysPrevious c' = cf_WalletEncryptionKeysPrevious c /\
  cf_WorkersEnabled c' = cf_WorkersEnabled c /\ hidden c' = hidden c.

#[export] Instance same_secrets_preorder : PreOrder same_secrets.
Proof.
  split; [by intros c|]. intros a b c (A1 & A2 & A3 & A4 & A5 & A6) (B1 & B2 & B3 & B4 & B5 & B6).
  unfold same_secrets. by rewrite B1, B2, B3, B4, B5, B6.
Qed.

Lemma secrets_sound_same c c' : same_secrets c c' -> secrets_sound c -> secrets_sound c'.
Proof.
  intros (H1 & H2 & H3 & H4 & H5 & H6). unfold hidden in H6. injection H6 as _ Hw Hj Hu.
  unfold secrets_sound, JWTKeyring, WalletKeyring, wallet_key_sound, WalletKeyConfigured.
  by rewrite H1, H2, H3, H4, H5, Hw, Hj, Hu.
Qed.

Lemma fill_evm_same rpc token c : same_secrets c (fill_evm rpc token c).
Proof. unfold fill_evm. by repeat case_match. Qed.

Definition known_network (c : Config) : Prop := In (cf_Network c) [NetworkArbitrumOne; NetworkArbitrumSepolia; NetworkCustom].

Lemma ApplyNetworkPreset_ok c u c' : ApplyNetworkPreset c = (Ok u, c') -> same_secrets c c' /\ known_network c'.
Proof.
  unfold ApplyNetworkPreset.
  set (c1 := if String.eqb (cf_Network c) "" then set_cf_Network NetworkArbitrumOne c else c).
  set (c2 := if String.eqb (cf_Network c1) NetworkLocal then set_cf_Network NetworkCustom c1 else c1).
  assert (same_secrets c c2) as Hs.
  { transitivity c1; [subst c1|subst c2]; by case_match. }
  assert (forall rpc token, cf_Network (fill_evm rpc token c2) = cf_Network c2) as Hn by (intros; unfold fill_evm; by repeat case_match).
  unfold known_network. cbv zeta. destruct (String.eqb_spec (cf_Network c2) NetworkArbitrumOne) as [E|_]; [|
    destruct (String.eqb_spec (cf_Network c2) NetworkArbitrumSepolia) as [E|_]; [|
    destruct (String.eqb_spec (cf_Network c2) NetworkCustom) as [E|_]; [|done]]]; intros [= _ <-]; rewrite ?Hn, E.
  - split; [etransitivity; [exact Hs|apply fill_evm_same]|by left].
  - split; [etransitivity; [exact Hs|apply fill_evm_same]|right; by left].
  - split; [exact Hs|right; right; by left].
Qed.

Section laws.
Context {N : Type} {machine : Machine N} {B : Bcrypt}.
Context (Getenv : string -> string) (ReadFile : string -> result error string) (ToLower : string -> string).
Context (DecodeFile : string -> Config -> result error Config).
Implicit Types s : Process N.

Lemma configure_ok path flag cfg : decodes_fields DecodeFile -> configure Getenv ReadFile ToLower DecodeFile path flag = Ok cfg ->
  secrets_sound cfg /\ known_network cfg.
Proof.
  intros Hfile. unfold configure. destruct (Load_config _ _ _ _ path) as [c|] eqn:El; [|done].
  apply Load_config_sound in El; [|done]. set (c1 := if negb (String.eqb flag "") then set_cf_Network flag c else c).
  assert (same_secrets c c1) as H1 by (subst c1; by case_match).
  destruct (ApplyNetworkPreset c1) as [[u|] c2] eqn:Ea; [|done]. intros [= <-]. apply ApplyNetworkPreset_ok in Ea as [H2 Hn].
  split; [|done]. eapply secrets_sound_same; [|exact El]. by etransitivity.
Qed.

Lemma start_daemon_ok cfg s cfg' s' : start_daemon cfg s = (Ok cfg', s') ->
  same_secrets cfg cfg' /\ cf_Network cfg' = cf_Network cfg /\ ps_ac s' = ps_ac s /\
  ps_stopped s' = ps_stopped s /\ ps_migrated s' = ps_migrated s.
Proof.
  unfold start_daemon, mbind, ST_bind, gets, modify, mret, ST_ret. destruct (cf_AntdManaged cfg).
  - destruct (Start_manager _ _) as [[b|e] m]; [|done]. by intros [= <- <-].
  - destruct (_ || _); [|by intros [= <- <-]]. destruct (os_Discover _) as [url n]. intros [= <- <-]. by case_match.
Qed.

Lemma exit_with_fails {A} e s r s' : exit_with (A := A) e s = (r, s') -> exists e', r = Err e'.
Proof. unfold exit_with, mbind, ST_bind, stop_daemon, modify, fail. intros [= <- _]. eauto. Qed.

Lemma migrate_ok cfg mig s u s' : migrate cfg mig s = (Ok u, s') -> ps_ac s' = ps_ac s /\ ps_stopped s' = ps_stopped s /\
  ps_migrated s' = ps_migrated s || cf_WorkersEnabled cfg.
Proof.
  unfold migrate. destruct (cf_WorkersEnabled cfg).
  - destruct mig; [intros [= _ <-]; by rewrite orb_true_r|]. intros H. by apply exit_with_fails in H as [e' [=]].
  - intros [= _ <-]. by rewrite orb_false_r.
Qed.

(** The count the instance starts with is of the accounts it leaves. *)
Lemma require_admin_ok cfg salt s n s' : well_formed (tables (ps_ac s)) -> require_admin cfg salt s = (Ok n, s') ->
  ps_stopped s' = ps_stopped s /\ ps_migrated s' = ps_migrated s /\
  forall k, n = Ok k -> 0 < k /\ k = affected (counted (tables (ps_ac s'))) (ac_users (tables (ps_ac s'))).
Proof.
  intros Hwf H. unfold require_admin in H. apply bind_ok in H as (r1 & s1 & E1 & H).
  unfold attempted, zoom in E1. destruct (SeedAdmin _ _ _ _) as [r w] eqn:Es. injection E1 as _ <-.
  apply bind_ok in H as (r2 & s2 & E2 & H). unfold attempted, zoom in E2. destruct (CountAdmins _) as [rc w2] eqn:Ec. injection E2 as <- <-.
  pose proof (run_user_op_wf (OpSeedAdmin (cf_AdminEmail cfg) (cf_AdminPassword cfg) salt) _ Hwf) as Hw. cbn [run_user_op] in Hw. rewrite Es in Hw.
  cbn in Ec. unfold CountAdmins in Ec. apply read_run in Ec as [Ht [->|[e ->]]].
  - change (Z.of_nat _) with (admin_count (tables w)) in H. rewrite admin_count_counted in H by apply Hw.
    destruct (Z.eqb_spec (affected (counted (tables w)) (ac_users (tables w))) 0) as [E|E].
    { apply exit_with_fails in H as [e [=]]. }
    injection H as <- <-. cbn. split_and!; [done..|]. intros k [= <-]. rewrite Ht. split; [|done].
    unfold affected in *. lia.
  - injection H as <- <-. by split_and!.
Qed.

Lemma start_workers_ok cfg s ws s' : start_workers cfg s = (Ok ws, s') ->
  ps_ac s' = ps_ac s /\ ps_stopped s' = ps_stopped s /\ ps_migrated s' = ps_migrated s /\
  ws = if cf_WorkersEnabled cfg then [UploadW; LogRetentionW; DiskAlertW; AuditAnchorW; SystemMonitorW; IdempotencyCleanup] else [].
Proof.
  unfold start_workers. destruct (cf_WorkersEnabled cfg); [|by intros [= <- <-]]. intros H. apply bind_ok in H as (r & s1 & E & H).
  unfold attempted, zoom in E. destruct (BackfillCacheKeys _) as [x d]. injection E as _ <-. by injection H as <- <-.
Qed.

(** C34. A running instance. Whatever the environment, the machine and the database
    do, a start that ends in serving has signing and wallet secrets that are
    sound, a network it knows, and, when the administrators could be counted, an
    active administrator in its accounts; the schema is migrated and the workers
    run exactly when workers are enabled, the sweeper of the cache always; and
    the daemon was not told to stop. *)
Theorem running_instance_is_sound (configPath networkFlag : string) (open migration scan : result error unit) (salt : Z)
  (s s' : Process N) (ri : Running_instance)
  (Hfile : forall p c0 c1, DecodeFile p c0 = Ok c1 -> hidden c1 = hidden c0)
  (Hwf : well_formed (tables (ps_ac s))) (Hnew : ps_stopped s = false) (Hm : ps_migrated s = false)
  (Hrun : boot Getenv ReadFile ToLower DecodeFile configPath networkFlag open migration scan salt s = (Ok ri, s')) :
  secrets_sound (ri_cfg ri) /\
  In (cf_Network (ri_cfg ri)) [NetworkArbitrumOne; NetworkArbitrumSepolia; NetworkCustom] /\
  (forall n, ri_admins ri = Ok n -> exists u, In u (ac_users (tables (ps_ac s'))) /\ counted (tables (ps_ac s')) u = true) /\
  ps_migrated s' = cf_WorkersEnabled (ri_cfg ri) /\
  ri_workers ri = (if cf_WorkersEnabled (ri_cfg ri)
                   then [UploadW; LogRetentionW; DiskAlertW; AuditAnchorW; SystemMonitorW; IdempotencyCleanup] else []) ++ [CacheSweepW] /\
  ps_stopped s' = false.
Proof.
  unfold boot in Hrun. apply bind_ok in Hrun as (c1 & s1 & E1 & Hrun). unfold of_result in E1. injection E1 as E1 <-.
  apply configure_ok in E1 as [Hs Hn]; [|done].
  apply bind_ok in Hrun as (c2 & s2 & E2 & Hrun). apply start_daemon_ok in E2 as (Hd & Hnet & Ha2 & Hst2 & Hm2).
  destruct open as [o|e]; [|by apply exit_with_fails in Hrun as [e' [=]]].
  apply bind_ok in Hrun as (u & s3 & E3 & Hrun). apply migrate_ok in E3 as (Ha3 & Hst3 & Hm3).
  apply bind_ok in Hrun as (n & s4 & E4 & Hrun). apply require_admin_ok in E4 as (Hst4 & Hm4 & Hk); [|by rewrite Ha3, Ha2].
  apply bind_ok in Hrun as (ws & s5 & E5 & Hrun). apply start_workers_ok in E5 as (Ha5 & Hst5 & Hm5 & ->).
  injection Hrun as <- <-. cbn. split_and!.
  - by eapply secrets_sound_same.
  - unfold known_network in Hn. by rewrite Hnet.
  - intros k Hn'. destruct (Hk k Hn') as [Hpos E]. rewrite Ha5. unfold affected in E.
    destruct (select (counted (tables (ps_ac s4))) (ac_users (tables (ps_ac s4)))) as [|u0 l] eqn:Esel; [cbn in E; lia|].
    exists u0. apply filter_In. unfold select in Esel. rewrite Esel. by left.
  - by rewrite Hm5, Hm4, Hm3, Hm2, Hm.
  - done.
  - by rewrite Hst5, Hst4, Hst3, Hst2.
Qed.
End laws.

(** ** Two starts *)

#[local] Instance kept_bcrypt : Bcrypt := {| bc_generate := fun pw salt => Ok ("$" +:+ pw); bc_compare := fun h pw => String.eqb h ("$" +:+ pw) |}.

(** No daemon is found. *)
#[local] Instance idle_machine : Machine unit := {|
  os_Now _ := 0; os_Sleep _ n := n; os_Discover n := ("", n); os_GetHealth _ n := (None, n); sdk_Health _ n := (Ok None, n);
  os_LookPath _ n := (Err (ENew "not found"), n); os_Spawn _ _ n := (Ok 1, n); os_Wait n := (Some true, n); os_Cancel n := n; os_Interrupt n := n;
  os_Kill n := (Ok tt, n); os_Exits _ n := (true, n);
|}.

Definition new_process : Process unit :=
  mkProcess tt None (mkWorld fresh_accounts []) (mkDb [] 0 [] 0 [] 0 [] [] [] [] [] 0 [] [] [] [] [] 0 [] 0 []) false false.

Abbreviation first_start l :=
  (boot (env_of l) (fun _ => Err (ENew "no file")) (fun x => x) (fun _ c => Ok c) "" "" (Ok tt) (Ok tt) (Ok tt) 1 new_process).

Definition with_admin : list (string * string) :=
  [("INDELIBLE_JWT_SECRET", a_secret); ("INDELIBLE_WALLET_ENCRYPTION_KEY", a_key);
   ("INDELIBLE_ADMIN_EMAIL", "root@example.com"); ("INDELIBLE_ADMIN_PASSWORD", "correct horse")].

(** Without an administrator to seed, a new instance refuses to start. *)
Example no_admin_no_start :
  match fst (first_start [("INDELIBLE_JWT_SECRET", a_secret); ("INDELIBLE_WALLET_ENCRYPTION_KEY", a_key)]) with
  | Err NoAdministrator => True
  | _ => False
  end.
Proof. vm_compute. done. Qed.

Definition serving (r : result exit Running_instance) (f : Running_instance -> Prop) : Prop := match r with Ok ri => f ri | Err _ => False end.

Lemma running_instance_is_sound_witness :
  serving (fst (first_start with_admin)) (fun ri => In UploadW (ri_workers ri)) /\
  exists u, In u (ac_users (tables (ps_ac (snd (first_start with_admin))))) /\ counted (tables (ps_ac (snd (first_start with_admin)))) u = true.
Proof.
  assert (match fst (first_start with_admin) with Ok ri => Some (ri_admins ri, cf_WorkersEnabled (ri_cfg ri)) | Err _ => None end
          = Some (Ok 1, true)) as Hv by (vm_compute; reflexivity).
  destruct (fst (first_start with_admin)) as [ri|e] eqn:E; [|discriminate]. injection Hv as Hn Hw.
  assert (first_start with_admin = (Ok ri, snd (first_start with_admin))) as Hrun by (rewrite <- E; apply surjective_pairing).
  assert (forall (p : string) c0 c1, (Ok c0 : result error Config) = Ok c1 -> hidden c1 = hidden c0) as Hf by (intros p c0 c1 [= <-]; done).
  destruct (running_instance_is_sound (env_of with_admin) (fun _ => Err (ENew "no file")) (fun x => x) (fun _ c => Ok c) "" ""
    (Ok tt) (Ok tt) (Ok tt) 1 new_process _ ri Hf fresh_well_formed eq_refl eq_refl Hrun) as (_ & _ & Ha & _ & Hws & _).
  split; [|by eapply Ha]. cbn [serving]. rewrite Hws, Hw. by left.
Defined.

(** * The migration command

    main() of src/cmd/migrate-publish-datamaps/main.go around PublishDataMaps:
    what must be there before it runs, and its exit code. Flags are arguments;
    the health probe only prints. *)

Section tool.
Context {N P W : Type} {machine : Machine N} {payer : Payer P} {publisher : ChunkPublisher W} {aead : Aead}.
Context (Getenv : string -> string) (ReadFile : string -> result error string) (ToLower : string -> string).
Context (DecodeFile : string -> Config -> result error Config).

Record Tool := mkTool { tl_os : N; tl_pub : PubState P W }.
Definition put_tl_os v t := mkTool v (tl_pub t).
Definition put_tl_pub v t := mkTool (tl_os t) v.

(** An early exit: the stage it failed in. *)
Abbreviation ToolM := (ST (string * error) Tool).

Definition fatal {A} (stage : string) (r : result error A) : ToolM A :=
  match r with Ok a => mret a | Err e => fail (stage, e) end.

Definition on_store {A} (m : ST error (PubState P W) A) : ToolM (result error A) := fun t =>
  let '(r, s) := m (tl_pub t) in (Ok r, put_tl_pub s t).

Definition tool_address (cfg : Config) : ToolM string :=
  antdURL ← (if String.eqb (cf_AntdURL cfg) "" then (fun t => let '(url, n) := os_Discover (tl_os t) in (Ok url, put_tl_os n t))
             else mret (cf_AntdURL cfg));
  if String.eqb antdURL "" then fail ("antd_url", ENew "no antd_url in config and discovery returned empty") else mret antdURL.

(** A configuration that loads has a keyring; without one the key cannot be
    opened. *)
Definition tool_wallet_key (cfg : Config) : ToolM string :=
  w ← on_store (pdb GetDefault);
  wallet ← fatal "get default wallet" w;
  match WalletKeyring cfg with
  | Some kr => fatal "decrypt wallet key" (DecryptKey kr wallet)
  | None => fail ("decrypt wallet key", ENew "no keyring")
  end.

Definition tool_code (run : option Run) : Z :=
  match run with Some n => if 0 <? rn_Failed n then 1 else 0 | None => 0 end.

(** Everything that must be there before the run, down to the key it pays
    with; a dry run takes neither the wallet nor the signer. *)
Definition tool_setup (configPath : string) (dryRun : bool) (open : result error unit) : ToolM string :=
  cfg ← fatal "load config" (Load_config Getenv ReadFile ToLower DecodeFile configPath);
  let '(r, cfg) := ApplyNetworkPreset cfg in
  fatal "apply network preset" r ;;
  fatal "open db" open ;;
  tool_address cfg ;;
  walletKey ← (if dryRun then mret "" else tool_wallet_key cfg);
  if String.eqb (cf_EvmRPCURL cfg) "" then fail ("evm_rpc_url", ENew "EvmRPCURL not set") else
  (if dryRun then mret tt else r ← on_store (ppay (NewSigner_ (cf_EvmRPCURL cfg))); fatal "evm signer" r) ;;
  mret walletKey.

(** The report and the exit code; no report is that of a run that could not
    list its candidates. *)
Definition publish_tool (configPath : string) (opts : Options) (open : result error unit) : ToolM (option Run * Z) :=
  walletKey ← tool_setup configPath (op_DryRun opts) open;
  r ← on_store (PublishDataMaps walletKey opts);
  let '(run, runErr) := match r with Ok (n, e) => (Some n, e) | Err e => (None, Some e) end in
  match runErr with
  | Some e => if errors_is e ErrCanceled then mret (run, tool_code run) else fail ("run", e)
  | None => mret (run, tool_code run)
  end.

(** [os.Exit(2)] where a stage failed. *)
Definition exit_status (r : result (string * error) (option Run * Z)) : Z :=
  match r with Ok (_, code) => code | Err _ => 2 end.

(** ** What an exit code says *)

Implicit Types t : Tool.

Lemma fatal_ok {A} stage (r : result error A) t a t' : fatal stage r t = (Ok a, t') -> r = Ok a /\ t' = t.
Proof. destruct r; [by intros [= -> ->]|done]. Qed.

(** Nothing bought and nothing changed, so far. *)
Definition untouched t t' : Prop := idle (tl_pub t) (tl_pub t').

#[export] Instance untouched_preorder : PreOrder untouched.
Proof. split; unfold untouched; [by intros t|]. intros a b c H1 H2. by etransitivity. Qed.

Lemma steps_fatal {A} stage (r : result error A) : steps untouched (fatal stage r).
Proof. destruct r; by intros t. Qed.

Lemma steps_on_store {A} (m : ST error (PubState P W) A) : steps idle m -> steps untouched (on_store m).
Proof. intros H t. specialize (H (tl_pub t)). unfold on_store. by destruct (m (tl_pub t)). Qed.

Lemma steps_signer url : steps idle (ppay (P := P) (W := W) (NewSigner_ url)).
Proof. intros s. unfold ppay, zoom. by destruct (NewSigner_ url (pb_pay s)). Qed.

Lemma steps_discover t : untouched t (put_tl_os (snd (os_Discover (tl_os t))) t).
Proof. by unfold untouched. Qed.

Lemma steps_tool_address cfg : steps untouched (tool_address cfg).
Proof.
  unfold tool_address. apply (steps_bind untouched); [|intros u; case_match; [apply (steps_fail untouched)|apply (steps_ret untouched)]].
  case_match; [|apply (steps_ret untouched)]. intros t. pose proof (steps_discover t). by destruct (os_Discover (tl_os t)).
Qed.

Lemma steps_tool_wallet_key cfg : steps untouched (tool_wallet_key cfg).
Proof.
  unfold tool_wallet_key. apply (steps_bind untouched); [apply steps_on_store, steps_idle_pdb, steps_GetDefault|].
  intros w. apply (steps_bind untouched); [apply steps_fatal|]. intros wallet. case_match; [apply steps_fatal|apply (steps_fail untouched)].
Qed.

Lemma steps_tool_setup path dry open : steps untouched (tool_setup path dry open).
Proof.
  assert (forall A (a : A), steps untouched (mret a : ToolM A)) as Hret by (intros; by intros t).
  unfold tool_setup. apply (steps_bind untouched); [apply steps_fatal|]. intros cfg. destruct (ApplyNetworkPreset cfg) as [r c].
  apply (steps_bind untouched); [apply steps_fatal|intros _]. apply (steps_bind untouched); [apply steps_fatal|intros _].
  apply (steps_bind untouched); [apply steps_tool_address|intros _].
  apply (steps_bind untouched); [destruct dry; [apply Hret|apply steps_tool_wallet_key]|]. intros key. case_match; [by intros t|].
  apply (steps_bind untouched); [|by intros _]. destruct dry; [apply Hret|].
  apply (steps_bind untouched); [apply steps_on_store, steps_signer|intros q; apply steps_fatal].
Qed.

(** A run stops early only when it is cancelled. *)
Lemma publish_rows_stops key opts us : forall run (s : PubState P W) n e s', publish_rows key opts us run s = (Ok (n, Some e), s') ->
  e = ESentinel ErrCanceled.
Proof.
  induction us as [|u us IH]; intros run s n e s' H; cbn [publish_rows] in H; [done|].
  apply bind_ok in H as (c & s1 & Hc & H). destruct c as [err|].
  - injection H as _ <- _. unfold ctx_Err in Hc. apply bind_ok in Hc as (l & s2 & _ & Hc). destruct l as [|b l]; [done|].
    apply bind_ok in Hc as (v & s3 & _ & Hc). destruct b; [by injection Hc as <- _|done].
  - apply bind_ok in H as (row & s2 & _ & H). by eapply IH.
Qed.

Lemma PublishDataMaps_ends key opts (s : PubState P W) r s' : PublishDataMaps key opts s = (r, s') ->
  match r with
  | Ok (_, e) => e = None \/ e = Some (ESentinel ErrCanceled)
  | Err _ => idle s s'
  end.
Proof.
  unfold PublishDataMaps. intros H. set (list := map_err _ _) in H. assert (steps idle list) as Hl.
  { apply (steps_map_err idle), steps_idle_pdb. unfold ListPrivatePublishCandidates. steps_go. }
  unfold mbind, ST_bind in H. pose proof (Hl s) as Hs. destruct (list s) as [[cs|e] s1]; [|injection H as <- <-; exact Hs].
  destruct r as [[n [e|]]|e]; [right; f_equal; by eapply publish_rows_stops|by left|].
  apply publish_rows_run in H as (? & ? & ? & [=] & _).
Qed.

Lemma failed_code n : tallied n -> (tool_code (Some n) = 0 <-> forall row, In row (rn_Rows n) -> rr_Outcome row <> OutFailed).
Proof.
  intros (_ & _ & _ & Hf). unfold tool_code. rewrite Hf. unfold counts, is_outcome. split.
  - case_match; [done|]. breflect. intros _ row Hr E.
    assert (In row (List.filter (fun r => bool_decide (rr_Outcome r = OutFailed)) (rn_Rows n))) as Hin
      by (apply filter_In; split; [done|by apply bool_decide_eq_true]).
    destruct (List.filter _ _); [done|cbn in *; lia].
  - intros Hall. destruct (List.filter _ (rn_Rows n)) as [|row l] eqn:E; [done|].
    assert (In row (row :: l)) as Hin by (by left). rewrite <- E in Hin. apply filter_In in Hin as [Hin Ho].
    apply bool_decide_eq_true in Ho. by apply Hall in Hin.
Qed.

(** The command. Whatever the environment, the database, the chain and the
    daemon do: a report it exits with is true of the tables, the exit code is 0
    exactly when no row of the report failed, and a dry run neither pays nor
    changes a row; exiting without a report, or with code 2, it has bought
    nothing and changed nothing. *)
Theorem publish_tool_reports (path : string) (opts : Options) (open : result error unit) (t t' : Tool) (r : result (string * error) (option Run * Z))
    (Hrun : publish_tool path opts open t = (r, t')) :
  match r with
  | Ok (Some run, code) =>
      only_uploads (pb_db (tl_pub t)) (apply_rows (rn_Rows run) (uploads (pb_db (tl_pub t)))) (pb_db (tl_pub t')) /\ tallied run /\
      (code = 0 <-> forall row, In row (rn_Rows run) -> rr_Outcome row <> OutFailed) /\
      (op_DryRun opts = true -> pb_paid (tl_pub t') = pb_paid (tl_pub t) /\ same_data (pb_db (tl_pub t)) (pb_db (tl_pub t')))
  | Ok (None, code) => code = 0 /\ untouched t t'
  | Err _ => exit_status r = 2 /\ untouched t t'
  end.
Proof.
  unfold publish_tool in Hrun. pose proof (steps_tool_setup path (op_DryRun opts) open t) as Hs.
  unfold mbind, ST_bind in Hrun. destruct (tool_setup path (op_DryRun opts) open t) as [[key|e] t1]; cbn [snd] in Hs; [|by injection Hrun as <- <-].
  unfold on_store in Hrun. destruct (PublishDataMaps key opts (tl_pub t1)) as [q s2] eqn:Ep.
  pose proof (PublishDataMaps_ends _ _ _ _ _ Ep) as He. destruct q as [[n e]|e].
  - assert (r = Ok (Some n, tool_code (Some n)) /\ t' = put_tl_pub s2 t1) as [-> ->].
    { destruct He as [->| ->]; cbn in Hrun; by injection Hrun as <- <-. }
    apply PublishDataMaps_reports in Ep as (Hup & Ht & _ & _ & Hd). destruct Hs as (Hp & _ & Hsd). cbn [tl_pub put_tl_pub].
    assert (uploads (pb_db (tl_pub t1)) = uploads (pb_db (tl_pub t))) as Hu by (rewrite Hsd; by destruct (pb_db (tl_pub t))).
    split_and!; [|done|by apply failed_code|].
    + rewrite <- Hu. destruct Hup as [fs ->]. exists fs. rewrite Hsd. by destruct (pb_db (tl_pub t)).
    + intros Hdry. destruct (Hd Hdry) as [-> H2]. split; [done|]. by etransitivity.
  - assert (untouched t (put_tl_pub s2 t1)) as Hu by (unfold untouched in *; cbn; by etransitivity).
    destruct (errors_is e ErrCanceled); injection Hrun as <- <-; by split.
Qed.
End tool.
Arguments Tool N P W : clear implicits.

(** ** A run of the command *)

Definition with_daemon : list (string * string) :=
  [("INDELIBLE_JWT_SECRET", a_secret); ("INDELIBLE_WALLET_ENCRYPTION_KEY", test_key "a"%char); ("INDELIBLE_ANTD_URL", "http://antd")].

Abbreviation tool_run l opts :=
  (publish_tool (machine := idle_machine) (payer := open_payer) (publisher := chunk_store) (aead := clear_aead)
    (env_of l) (fun _ => Err (ENew "no file")) (fun x => x) (fun _ c => Ok c) "" opts (Ok tt)
    (mkTool tt (anchor_state (set_uploads (uploads private_pair) anchor_db)))).

(** One of the two candidates is published, the other holds no data map that
    can be read: exit code 1. *)
Lemma publish_tool_reports_witness :
  let r := fst (tool_run with_daemon (mkOptions false 0 "" true)) in
  exit_status r = 1 /\
  match r with
  | Ok (Some run, code) => tallied run /\ (code = 0 <-> forall row, In row (rn_Rows run) -> rr_Outcome row <> OutFailed)
  | _ => False
  end.
Proof.
  intros r. assert (exit_status r = 1) as Hc by (vm_compute; reflexivity). split; [done|].
  pose proof (publish_tool_reports (machine := idle_machine) (payer := open_payer) (publisher := chunk_store) (aead := clear_aead)
    (env_of with_daemon) (fun _ => Err (ENew "no file")) (fun x => x) (fun _ c => Ok c) "" (mkOptions false 0 "" true) (Ok tt)
    (mkTool tt (anchor_state (set_uploads (uploads private_pair) anchor_db)))
    (snd (tool_run with_daemon (mkOptions false 0 "" true))) r (surjective_pairing _)) as H.
  destruct r as [[[run|] code]|e]; [|destruct H as [-> _]; discriminate|discriminate].
  by destruct H as (_ & Ht & Hx & _).
Defined.

(** Without the right key the command stops before it pays, even where nothing
    needs publishing; a dry run asks for no key. *)
Example tool_without_key :
  let other := ("INDELIBLE_WALLET_ENCRYPTION_KEY", a_key) :: with_daemon in
  exit_status (fst (tool_run other (mkOptions false 0 "none" true))) = 2 /\
  exit_status (fst (tool_run other (mkOptions true 0 "none" true))) = 0.
Proof. vm_compute. done. Qed.
